(* ===== verification/_CoqProject ===== *)
-Q . S2P
Prelude.v
Text.v
RateLimiter.v
Bus.v
GuestMemory.v
VirtioQueue.v
QueueRuns.v
Mmio.v
SeccompBackend.v
SyscallTable.v
SeccompCorrect.v
SeccompCompiler.v
UkBinary.v
UkLoader.v
Aligner.v
AlignerLayout.v
AlignerTable.v
TxBuf.v
VsockPacket.v
VsockConnection.v
VsockMuxer.v
VsockTimers.v
VsockMuxerInv.v
VsockMuxerRuns.v
VirtioPersist.v
VsockDevice.v
VsockPersist.v
VsockVm.v
VsockService.v
IoUring.v
BlockRequest.v
BlockDevice.v
BlockRuns.v
BlockService.v
BlockPersist.v
BalloonPages.v
Balloon.v
BalloonRuns.v
BalloonInflate.v
BalloonPersist.v
NetBytes.v
PduLink.v
NetMac.v
PduIpv4.v
PduTcp.v
TcpConnection.v
TcpStream.v
TcpWindow.v
Http.v
TcpEndpoint.v
TcpHandler.v
MmdsStack.v
MmdsToken.v
MmdsStore.v
MmdsRequests.v
NetDevice.v
NetRuns.v
NetService.v
NetTransfer.v
NetMmds.v
NetSamples.v
NetPersist.v
Vcpus.v
VcpuRuns.v
VcpuControl.v
