(* ===== verification/Prelude.v ===== *)
(** * Spacer-SLT: a verification development

    Spacer-SLT shares the pages of unikernels when they are loaded.  An aligner
    (Python, [src/aligner]) links the unikernels so that a library common to
    several has the same addresses in each, and strips the image to what its
    instances cannot share; a fork of the Firecracker virtual machine monitor
    (Rust, [src/firecracker/src]) reads the stripped image and maps the libraries
    from shared memory into the guest's memory.  Around the loader is Firecracker
    itself: the device bus, the virtio transport and queues, the devices, their
    rate limiters, and the seccomp filters of its threads.

    ** The files

    - [Prelude]: outcomes ([exec], a value or a panic; [result]), machine
      integers in both build profiles, little-endian bytes, the tactics and hints.
    - [Text]: literals, decimal numbers, UTF-8 and words.
    - [RateLimiter]: [rate_limiter/src/lib.rs] and [persist.rs].  [TokenBucket] and
      [RateLimiter] are the structures of the same name; [reduce], [consume],
      [manual_replenish], [update_buckets], [RateLimiter_event_handler] and the
      save and restore functions their methods.
    - [Bus]: [devices/src/bus.rs], the map from address ranges to devices.
    - [GuestMemory]: the interface of the upstream memory crate (classes
      [GuestMemory] and [GuestRegions]) with two concrete memories.
    - [VirtioQueue]: [devices/src/virtio/queue.rs].
    - [Mmio]: [devices/src/virtio/mmio.rs] and the provided methods of the
      [VirtioDevice] trait in [device.rs].
    - [SeccompBackend], [SyscallTable], [SeccompCompiler]: [seccompiler/src], from
      the filters of a file to BPF programs; [SeccompCorrect] gives filters and
      programs their meaning and relates them.
    - [UkBinary]: [aligner/helpers/elf_minimizer.py], which writes the stripped
      image, and [loader/src/binary.rs], which reads it.
    - [UkLoader]: [loader/src/uk_loader.rs], [vm-memory/src/lib.rs],
      [arch_memory_regions] of [arch/src/x86_64/mod.rs] and [create_guest_memory]
      of [vmm/src/builder.rs].
    - [Aligner]: [aligner/unikernels.py], [ukManager.py] and [utils.py]; [AlignerLayout] and
      [AlignerTable] are theorems about the layout and about the table of libraries.
    - [TxBuf], [VsockPacket], [VsockConnection]: [devices/src/virtio/vsock], its
      transmit buffer, packets and connections.
    - [VsockMuxer]: [vsock/unix], the multiplexer of connections over Unix sockets;
      [VsockTimers], [VsockMuxerInv] and [VsockMuxerRuns] are its timers, its invariant and
      theorems about its runs.
    - [VirtioPersist]: [devices/src/virtio/persist.rs], the saved state of queues, devices
      and transports.
    - [VsockDevice]: [vsock/device.rs] and [event_handler.rs], over the interface of a
      backend; [VsockPersist]: [vsock/persist.rs].  [VsockVm] puts guest memory, transport
      and device together, [VsockService] adds the multiplexer as the backend.
    - [IoUring]: [io_uring/src], the rings shared with the kernel.  [BlockRequest],
      [BlockDevice], [BlockPersist]: [devices/src/virtio/block], its requests and engines, the
      device, and its saved state; [BlockRuns] and [BlockService] are theorems about its runs.
    - [QueueRuns]: what a device does to a queue while it serves it, shared by the devices.
    - [BalloonPages], [Balloon], [BalloonPersist]: [devices/src/virtio/balloon], the ranges of
      pages and their removal ([utils.rs]), the device, and its saved state; [BalloonRuns] and
      [BalloonInflate] are theorems about its runs.
    - [NetBytes], [PduLink], [NetMac], [PduIpv4], [PduTcp]: the headers of network
      packets, [dumbo/src/pdu], with [utils/src/byte_order.rs] and
      [utils/src/net/mac.rs].
    - [TcpConnection]: [dumbo/src/tcp/connection.rs] and [mod.rs], the state machine of a
      TCP connection; [TcpStream] and [TcpWindow] are theorems about its runs.
    - [Http]: the interface of the [micro_http] crate.
    - [TcpEndpoint], [TcpHandler]: [dumbo/src/tcp/endpoint.rs], which reads requests
      from a connection and sends the answers, and [handler.rs], which holds the
      connections of one address.
    - [MmdsStack], [MmdsToken], [MmdsStore], [MmdsRequests]: the metadata service,
      [mmds/src]: its network stack ([ns.rs], [persist.rs]), session tokens ([token.rs],
      [token_headers.rs]), document ([data_store.rs], part of [lib.rs]) and the answers
      to requests ([lib.rs]).
    - [NetDevice], [NetPersist]: [devices/src/virtio/net], the network device over the
      interface of a network stack, and its saved state; [NetRuns], [NetService] and
      [NetTransfer] are theorems about its runs, [NetMmds] has the metadata service as the
      stack, and [NetSamples] examples.
    - [Vcpus]: [vmm/src/vstate/vcpu/mod.rs] and the part of [vmm/src/lib.rs] that controls the
      threads of the virtual processors; [VcpuRuns] and [VcpuControl] are theorems about what
      the two do together, under every schedule.

    ** Conventions

    A Rust structure is a record, an enumeration an inductive type, a method a
    function from the state to the new state.  A [w]-bit integer is a [Z]; the
    plain operators panic or wrap according to the profile, [Wrapping] values and
    [wrapping_] methods always wrap.  A panic, a failed assertion and an uncaught
    Python exception are [Panic]; where a loop of the code may not end, the outcome is
    [Done], [Crash] or [Hang].  What an operation reads from the world (the
    clock, an expired timer, an event set, random numbers, the order in which a hash map
    is iterated) is an argument.  Code outside the
    repository is a class of operations with its documented laws, and has a
    concrete instance that the examples run on: guest memory, the kernel's BPF
    machine ([BpfMachine]), the host's memory mappings ([Host]), devices
    ([BusDevice], [VirtioDevice]), sinks and streams ([Writer], [Stream]), HTTP
    ([Http]), files ([BackingFile]), pages of the host ([GuestPages]),
    processors in the kernel ([KvmVcpu]), ciphers and encodings ([TokenCrypto]), JSON ([SerdeJson]).  Log
    messages and metrics are left out.

    ** What the theorems show

    - Seccomp: compiling a file of filters never panics, and every program it
      yields decides each system call as the file says and has just the instructions the rules
      need; it is refused as too large exactly from 4096 instructions on
      ([SeccompCompiler.compile_blob_correct], [SeccompCorrect.filter_try_into_correct]).
    - Loading: what the aligner lays out is exactly the input sections its options ask for, does
      not overlap and gives the common libraries and data sections common addresses
      ([AlignerLayout.layout_sound], [AlignerTable.common_to_all_exact]); the stripped image
      survives writing and reading exactly if the names of its sections are ASCII
      ([UkBinary.minify_roundtrip]); the loader maps every section to its library's
      shared memory and keeps the guard pages of the region
      ([UkLoader.load_shares_sections], [guarded_region_spec]).
    - Virtio: walking a descriptor chain ends, the rings are first in first out, no
      notification is lost ([VirtioQueue]); features, activation and the
      configuration of queues follow the driver's status ([Mmio]).
    - Rate limiting: the tokens granted never exceed the configured rate, a blocked
      limiter has a timer, and waiting long enough is rewarded ([RateLimiter]).
    - The bus refines a disjoint union of address ranges ([Bus]).
    - Vsock: the buffer is a queue; a packet is accepted exactly when its chain
      describes one; a connection forwards the guest's bytes in order, counts them,
      respects the guest's credit, and never leaves a guest that respects its own
      without credit for ever ([TxBuf], [VsockPacket], [VsockConnection]).  The
      multiplexer is one byte stream per connection, forgets no delivery, keeps sockets and
      ports apart and understands the host's requests ([VsockMuxerRuns]).  Together with the
      device and the transport it returns the guest's chains in order, sends what they say and
      fills them with its packets, no guest can make it panic, and a snapshot brings it back as it was
      ([VsockService]).
    - Block: an operation pushed to a ring comes back once ([IoUring]); every chain the device
      takes is given back once, whatever guest and kernel do ([BlockRuns]); with the
      synchronous engine the device is a disk, and answers every request of a driver that
      rests meanwhile ([BlockService]).
    - Balloon: the ranges given back to the host are exactly the pages named, no driver can make
      the device panic, and the pages of a driver that waits read as zeroes afterwards
      ([BalloonPages], [BalloonRuns], [BalloonInflate]).
    - Network: every frame read from the tap or written by the metadata service is delivered to
      the guest once, in order, or held; the guest's frames reach the metadata service if that
      takes them and the tap otherwise; no guest makes the device panic ([NetService]);
      with a tap that runs dry or a driver that rests the loops end ([NetTransfer]); an ARP request for the metadata service is answered ([NetMmds]).
    - TCP: what is written is read back and checksums are those of RFC 1071 ([NetBytes],
      [PduIpv4], [PduTcp]); in every state a connection reaches, its fields have their
      types, what it received is a prefix of the peer's stream, what is in flight fits
      the peer's window, and a handshake without answer ends ([TcpStream], [TcpWindow]);
      an endpoint answers the requests of the stream in order ([TcpEndpoint]), and no
      packet makes the handler or the network stack panic ([TcpHandler], [MmdsStack]).
    - Metadata: a document is read back as it was put and stays within its limit
      ([MmdsStore]); a token is valid exactly for its time to live ([MmdsToken]); without
      a valid token an answer does not depend on the document, with one it is that of
      the service without tokens, and no frame of a guest makes the service panic
      ([MmdsRequests]).
    - Processors: pausing, resuming and saving a machine never panic; after a pause that
      succeeds every processor waits, and one whose processors can be signalled and answer in
      time fails only if one of them is on its way out ([VcpuRuns]).  States are saved of paused
      processors only ([VcpuControl]).
    - The theorems at the end of [RateLimiter], [VirtioQueue], [UkLoader],
      [AlignerLayout] and [VcpuControl] on concrete inputs, [MmdsStack.guest_syn_hangs],
      [TcpEndpoint.response_never_resent], [VsockMuxerRuns.killq_misses_expired] and
      [VsockService.ServiceSamples.oversize_packet_lost] are defects of the code: an overflow in the
      refill computation, a timer of zero, a queue in a hole of guest memory, guard
      pages overwritten in a second region, and options of the aligner that lose
      sections or raise an exception, TCP options that stop the device, responses
      that are not retransmitted, connections that are never terminated, data lost
      in a large receive buffer, and an exit code that is lost.

    ** Fuel

    Loops that are not structural take fuel, with a theorem that what the code's
    caller passes is enough: 129 steps for Euclid's algorithm on 64-bit numbers
    ([RateLimiter.gcd_fuel_enough]), three calls of [flush_to] ([TxBuf.flush_calls_fifo]),
    [queue_size] steps along a descriptor chain ([VirtioQueue.walk_terminates]), and
    as many [pop]s as chains are pending ([VirtioQueue.pop_all_fifo]), two folds of the
    carries of a checksum ([NetBytes.compute_checksum_rfc1071]), a step more than the
    options of a TCP segment have bytes, after which the parser never ends
    ([PduTcp.parse_mss_option_hangs]), two calls of a connection's [write_next_segment],
    as many replacements of doubled slashes as a path has characters
    ([MmdsStore.sanitize_uri_exact]), and a round more than chains wait in a queue of the
    vsock device ([VsockDevice.serve_in_order]) or of the block device
    ([BlockService.disk_answers]), and a round more than completions wait
    ([BlockRuns.complete_loop_inv]), a round more than chains wait in a queue of the balloon
    ([BalloonInflate.inflate_removes]) or the TX queue of the network device
    ([NetTransfer.net_sends]), and a round more than frames wait in the tap
    ([NetTransfer.net_receives]); two steps bring a processor from an event to its answer
    ([VcpuRuns.pause_stops]); a guest that keeps adding chains keeps the
    device busy, which the theorems allow for.  The BPF
    interpreter needs no more steps than the program has instructions, since jumps
    go forward.

    ** Not modelled

    Not modelled because it is input and output, system calls or generated code:
    the API server, the jailer, the executables, logging, the bindings, the KVM
    state of the machine and its processors (a parameter of [Vcpus]), the benchmarks; the kernel patches of
    [src/DKSM], which depend on the rest of the kernel; the rewriting of
    disassembled instructions under [aligner/aslr].  A schedule of [Vcpus] says which steps the
    processors make while the VMM waits, so a response that takes longer counts as timed out.  Not yet modelled are CPUID filtering, the MMIO device manager, and the configuration of the machine. *)

From Stdlib Require Import ZArith Lia.
From stdpp Require Import prelude.

(** ** Outcomes

    Rust code either returns a value or panics (the workspace sets
    [panic = "abort"] in both profiles, so a panic ends the process).  The
    type [exec] is that outcome; Rust's own [Result] is [result]. *)

Inductive exec (A : Type) : Type :=
| Ret (a : A)
| Panic.
Arguments Ret {A} a.
Arguments Panic {A}.

Inductive result (T E : Type) : Type :=
| Ok (t : T)
| Err (e : E).
Arguments Ok {T E} t.
Arguments Err {T E} e.

#[export] Instance exec_ret : MRet exec := fun A a => Ret a.
#[export] Instance exec_bind : MBind exec := fun A B k e =>
  match e with Ret a => k a | Panic => Panic end.
#[export] Instance exec_fmap : FMap exec := fun A B f e =>
  match e with Ret a => Ret (f a) | Panic => Panic end.

#[export] Instance exec_eq_dec `{EqDecision A} : EqDecision (exec A).
Proof. solve_decision. Defined.
#[export] Instance result_eq_dec `{EqDecision T, EqDecision E} :
  EqDecision (result T E).
Proof. solve_decision. Defined.

(** [Option::unwrap] and [assert!]. *)
Definition unwrap {A} (o : option A) : exec A :=
  match o with Some a => Ret a | None => Panic end.
Definition rust_assert (b : bool) : exec unit := if b then Ret tt else Panic.

Definition returns {A} (e : exec A) : Prop := exists a, e = Ret a.

(** Code with a loop that input can keep from ending has a third outcome. *)
Inductive outcome (A : Type) : Type :=
| Done (a : A)
| Crash
| Hang.
Arguments Done {A} a.
Arguments Crash {A}.
Arguments Hang {A}.

#[export] Instance outcome_ret : MRet outcome := fun A a => Done a.
#[export] Instance outcome_bind : MBind outcome := fun A B k e =>
  match e with Done a => k a | Crash => Crash | Hang => Hang end.

Definition lift {A} (e : exec A) : outcome A :=
  match e with Ret a => Done a | Panic => Crash end.

(** ** Machine integers

    A [w]-bit unsigned integer is a [Z] in [0 <= z < 2^w].  The plain
    operators of Rust panic on overflow in the [dev] profile and wrap in the
    [release] profile; which of the two is built is the parameter
    [overflow_checks]. *)

Class Profile : Type := overflow_checks : bool.
Definition dev_profile : Profile := true.
Definition release_profile : Profile := false.

Open Scope Z_scope.

Definition wrap (w z : Z) : Z := z mod 2 ^ w.
Definition in_range (w z : Z) : Prop := 0 <= z < 2 ^ w.
Definition in_rangeb (w z : Z) : bool := (0 <=? z) && (z <? 2 ^ w).

Definition arith `{Profile} (w z : Z) : exec Z :=
  if in_rangeb w z then Ret z
  else if overflow_checks then Panic else Ret (wrap w z).

Definition uadd `{Profile} (w a b : Z) : exec Z := arith w (a + b).
Definition usub `{Profile} (w a b : Z) : exec Z := arith w (a - b).
Definition umul `{Profile} (w a b : Z) : exec Z := arith w (a * b).
(** Division and remainder by zero panic in every profile. *)
Definition udiv (a b : Z) : exec Z := if b =? 0 then Panic else Ret (a / b).
Definition urem (a b : Z) : exec Z := if b =? 0 then Panic else Ret (a mod b).

Definition checked_add (w a b : Z) : option Z :=
  if in_rangeb w (a + b) then Some (a + b) else None.
Definition checked_mul (w a b : Z) : option Z :=
  if in_rangeb w (a * b) then Some (a * b) else None.

(** [array[i] = x]. *)
Definition store {A} (l : list A) (i : nat) (x : A) : exec (list A) :=
  if (i <? length l)%nat then Ret (<[i := x]> l) else Panic.

(** [std::num::Wrapping] and the [wrapping_*] methods. *)
Definition wadd (w a b : Z) : Z := wrap w (a + b).
Definition wsub (w a b : Z) : Z := wrap w (a - b).

Declare Scope rust_scope.
Delimit Scope rust_scope with rust.
Notation "a +64 b" := (uadd 64 a b) (at level 50, left associativity) : rust_scope.
Notation "a -64 b" := (usub 64 a b) (at level 50, left associativity) : rust_scope.
Notation "a *64 b" := (umul 64 a b) (at level 40, left associativity) : rust_scope.

(** ** Little-endian bytes *)

Fixpoint le_decode (l : list Z) : Z :=
  match l with
  | [] => 0
  | b :: l => b + 256 * le_decode l
  end.

Fixpoint le_encode (n : nat) (v : Z) : list Z :=
  match n with
  | O => []
  | S n => v mod 256 :: le_encode n (v / 256)
  end.

Definition byte_ok (b : Z) : Prop := 0 <= b < 256.
Definition bytes_ok (l : list Z) : Prop := Forall byte_ok l.

(** ** Lemmas and automation shared by the components *)

Create HintDb rust.
Create Rewrite HintDb rust.

Lemma bind_Ret {A B} (a : A) (k : A -> exec B) : (Ret a ≫= k) = k a.
Proof. done. Qed.

Lemma bind_Ret_inv {A B} (e : exec A) (k : A -> exec B) b :
  (e ≫= k) = Ret b -> exists a, e = Ret a /\ k a = Ret b.
Proof. destruct e as [a|]; [|done]. exists a. done. Qed.

Lemma bind_Done {A B} (a : A) (k : A -> outcome B) : (Done a ≫= k) = k a.
Proof. done. Qed.

Lemma bind_Done_inv {A B} (e : outcome A) (k : A -> outcome B) b :
  (e ≫= k) = Done b -> exists a, e = Done a /\ k a = Done b.
Proof. destruct e as [a| |]; [|done|done]. exists a. done. Qed.

Lemma lift_Done_inv {A} (e : exec A) a : lift e = Done a -> e = Ret a.
Proof. destruct e; [|done]. by intros [= <-]. Qed.

Lemma fmap_Ret_inv {A B} (e : exec A) (f : A -> B) b :
  (f <$> e) = Ret b -> exists a, e = Ret a /\ b = f a.
Proof. destruct e as [a|]; [|done]. intros [= <-]. exists a. done. Qed.

Lemma in_rangeb_spec w z : in_rangeb w z = true <-> in_range w z.
Proof. unfold in_rangeb, in_range. lia. Qed.

Lemma pow2_pos w : 0 <= w -> 0 < 2 ^ w.
Proof. intros. apply Z.pow_pos_nonneg; lia. Qed.

Lemma wrap_range w z : 0 <= w -> in_range w (wrap w z).
Proof. intros. apply Z.mod_pos_bound, pow2_pos; done. Qed.

Lemma wrap_id w z : in_range w z -> wrap w z = z.
Proof. intros. apply Z.mod_small. done. Qed.

Lemma wrap_wrap w z : wrap w (wrap w z) = wrap w z.
Proof. unfold wrap. apply Zmod_mod. Qed.

Lemma wrap_add_l w a b : wrap w (wrap w a + b) = wrap w (a + b).
Proof. unfold wrap. apply Zplus_mod_idemp_l. Qed.

Lemma wrap_add_r w a b : wrap w (a + wrap w b) = wrap w (a + b).
Proof. unfold wrap. apply Zplus_mod_idemp_r. Qed.

Lemma wrap_sub_l w a b : wrap w (wrap w a - b) = wrap w (a - b).
Proof. unfold wrap. apply Zminus_mod_idemp_l. Qed.

Lemma wrap_sub_r w a b : wrap w (a - wrap w b) = wrap w (a - b).
Proof. unfold wrap. apply Zminus_mod_idemp_r. Qed.

Lemma wadd_range w a b : 0 <= w -> in_range w (wadd w a b).
Proof. apply wrap_range. Qed.

Lemma wsub_range w a b : 0 <= w -> in_range w (wsub w a b).
Proof. apply wrap_range. Qed.

#[export] Hint Resolve wrap_range wadd_range wsub_range : rust.
#[export] Hint Rewrite wrap_add_l wrap_add_r wrap_sub_l wrap_sub_r wrap_wrap : rust.

Section Arith.
Context `{Profile}.

Lemma arith_ok w z : in_range w z -> arith w z = Ret z.
Proof. intros Hz. unfold arith. by rewrite (proj2 (in_rangeb_spec w z) Hz). Qed.

(** Whatever the profile, a value an operator returns fits its width. *)
Lemma arith_range w z r : 0 <= w -> arith w z = Ret r -> in_range w r.
Proof.
  unfold arith. intros Hw. destruct (in_rangeb w z) eqn:E.
  - intros [= <-]. by apply in_rangeb_spec.
  - destruct overflow_checks; [done|]. intros [= <-]. by apply wrap_range.
Qed.

Lemma arith_wrap w z r : arith w z = Ret r -> r = wrap w z.
Proof.
  unfold arith. destruct (in_rangeb w z) eqn:E.
  - intros [= <-]. symmetry. apply wrap_id. by apply in_rangeb_spec.
  - destruct overflow_checks; [done|]. by intros [= <-].
Qed.

Lemma uadd_ok w a b : in_range w (a + b) -> uadd w a b = Ret (a + b).
Proof. apply arith_ok. Qed.
Lemma usub_ok w a b : in_range w (a - b) -> usub w a b = Ret (a - b).
Proof. apply arith_ok. Qed.
Lemma umul_ok w a b : in_range w (a * b) -> umul w a b = Ret (a * b).
Proof. apply arith_ok. Qed.
End Arith.

Lemma udiv_ok a b : b <> 0 -> udiv a b = Ret (a / b).
Proof. unfold udiv. intros. by rewrite (proj2 (Z.eqb_neq b 0)). Qed.
Lemma urem_ok a b : b <> 0 -> urem a b = Ret (a mod b).
Proof. unfold urem. intros. by rewrite (proj2 (Z.eqb_neq b 0)). Qed.

(** [exec_inv] takes apart hypotheses that say a computation returned;
    [range_solve] closes the side conditions on machine integers. *)
Ltac exec_inv :=
  repeat match goal with
  | H : (_ ≫= _) = Ret _ |- _ =>
      let a := fresh "x" in let E := fresh "E" in
      apply bind_Ret_inv in H as (a & E & H)
  | H : (_ <$> _) = Ret _ |- _ =>
      let a := fresh "x" in let E := fresh "E" in
      apply fmap_Ret_inv in H as (a & E & H)
  | H : Ret _ = Ret _ |- _ => injection H as H
  | H : @mbind outcome _ _ _ _ _ = Done _ |- _ =>
      let a := fresh "x" in let E := fresh "E" in
      apply bind_Done_inv in H as (a & E & H)
  | H : lift _ = Done _ |- _ => apply lift_Done_inv in H
  | H : Done _ = Done _ |- _ => injection H as H
  | H : Panic = Ret _ |- _ => discriminate H
  | H : Ret _ = Panic |- _ => discriminate H
  end; simplify_eq.

Ltac range_solve :=
  unfold in_range, byte_ok in *; simpl Z.pow in *; change (Z.pow_pos 2 8) with 256 in *; lia.

(** Case analysis on the boolean tests of a definition, turned into
    arithmetic facts. *)
Ltac bool_cases :=
  repeat match goal with
  | |- context [if ?b then _ else _] => destruct b eqn:?
  | H : context [if ?b then _ else _] |- _ => destruct b eqn:?
  end.

Lemma le_decode_range l : bytes_ok l -> 0 <= le_decode l < 256 ^ Z.of_nat (length l).
Proof.
  induction 1 as [|b l Hb Hl IH]; simpl length; simpl le_decode; [simpl; lia|].
  rewrite Nat2Z.inj_succ, Z.pow_succ_r by lia. unfold byte_ok in Hb. nia.
Qed.

Lemma length_le_encode n v : length (le_encode n v) = n.
Proof. revert v. induction n as [|n IH]; intros v; simpl; [done|]. by rewrite IH. Qed.

Lemma le_encode_ok n v : bytes_ok (le_encode n v).
Proof.
  revert v. induction n as [|n IH]; intros v; simpl; constructor; [|apply IH].
  unfold byte_ok. pose proof (Z.mod_pos_bound v 256). lia.
Qed.

Lemma le_decode_encode n v : le_decode (le_encode n v) = v mod 256 ^ Z.of_nat n.
Proof.
  revert v. induction n as [|n IH]; intros v; simpl le_encode; simpl le_decode.
  - simpl. by rewrite Z.mod_1_r.
  - rewrite IH, Nat2Z.inj_succ, Z.pow_succ_r by lia.
    symmetry. apply Z.rem_mul_r; [lia|]. apply Z.pow_pos_nonneg; lia.
Qed.

Lemma le_encode_decode l : bytes_ok l -> le_encode (length l) (le_decode l) = l.
Proof.
  induction 1 as [|b l Hb Hl IH]; simpl; [done|]. unfold byte_ok in Hb.
  replace ((b + 256 * le_decode l) mod 256) with b
    by (rewrite Z.mul_comm, Z_mod_plus_full, Z.mod_small; lia).
  replace ((b + 256 * le_decode l) / 256) with (le_decode l).
  - by rewrite IH.
  - rewrite Z.mul_comm, Z_div_plus_full by lia. rewrite Z.div_small; lia.
Qed.

Lemma le_decode_nonneg l : bytes_ok l -> 0 <= le_decode l.
Proof. intros Hl. apply le_decode_range in Hl. lia. Qed.

