(* ===== verification/Text.v ===== *)
(** * Text

    What the sources use of Rust's strings: literals, decimal numbers, UTF-8 and words.
    A string is the list of its bytes, and a decoded one that of its code points. *)

From Stdlib Require Import ZArith Lia Ascii String.
From stdpp Require Import prelude.
From S2P Require Import Prelude.

(** The bytes of a string literal. *)
Definition text (s : string) : list Z := map (fun a => Z.of_N (N_of_ascii a)) (list_ascii_of_string s).

(** ** Numbers *)

(** The decimal digits of a number of 32 bits, of which there are ten at most. *)
Fixpoint decimal_loop (fuel : nat) (n : Z) (digits : list Z) : list Z :=
  match fuel with
  | O => digits
  | S fuel =>
      let digits := 48 + n mod 10 :: digits in
      if n / 10 =? 0 then digits else decimal_loop fuel (n / 10) digits
  end.
Definition decimal (n : Z) : list Z := decimal_loop 10 n [].

Fixpoint digits_10 (acc : Z) (s : list Z) : option Z :=
  match s with
  | [] => Some acc
  | c :: s =>
      if (48 <=? c) && (c <=? 57) && (10 * acc + (c - 48) <? 2 ^ 32)
      then digits_10 (10 * acc + (c - 48)) s else None
  end.

(** [str::parse::<u32>]: not empty, an optional plus sign, then digits whose value
    fits. *)
Definition parse_u32 (s : list Z) : option Z :=
  match s with
  | [] => None
  | c :: rest =>
      if (c =? 43) && negb (bool_decide (rest = [])) then digits_10 0 rest else digits_10 0 s
  end.

(** ** UTF-8 *)

Definition continuation (b : Z) : bool := (128 <=? b) && (b <=? 191).
Definition between (lo b hi : Z) : bool := (lo <=? b) && (b <=? hi).

(** [std::str::from_utf8]: the code points, if the bytes are well-formed: neither
    overlong nor surrogates, and at most U+10FFFF. *)
Fixpoint from_utf8 (l : list Z) : option (list Z) :=
  match l with
  | [] => Some []
  | a :: r1 =>
      if a <? 128 then c ← from_utf8 r1; Some (a :: c)
      else match r1 with
      | [] => None
      | b :: r2 =>
          if between 194 a 223 && continuation b
          then c ← from_utf8 r2; Some ((a - 192) * 64 + (b - 128) :: c)
          else match r2 with
          | [] => None
          | d :: r3 =>
              let second_3 := if a =? 224 then between 160 b 191
                              else if a =? 237 then between 128 b 159 else continuation b in
              if between 224 a 239 && second_3 && continuation d
              then c ← from_utf8 r3; Some (((a - 224) * 64 + (b - 128)) * 64 + (d - 128) :: c)
              else match r3 with
              | [] => None
              | e :: r4 =>
                  let second_4 := if a =? 240 then between 144 b 191
                                  else if a =? 244 then between 128 b 143 else continuation b in
                  if between 240 a 244 && second_4 && continuation d && continuation e
                  then c ← from_utf8 r4;
                       Some ((((a - 240) * 64 + (b - 128)) * 64 + (d - 128)) * 64 + (e - 128) :: c)
                  else None
              end
          end
      end
  end.

(** ** Words *)

(** [char::is_whitespace] *)
Definition is_whitespace (c : Z) : bool :=
  between 9 c 13 || (c =? 32) || (c =? 0x85) || (c =? 0xa0) || (c =? 0x1680) || between 0x2000 c 0x200a ||
  (c =? 0x2028) || (c =? 0x2029) || (c =? 0x202f) || (c =? 0x205f) || (c =? 0x3000).

(** [str::split_whitespace]; [word] is the part of the current word that was read. *)
Fixpoint split_words (s word : list Z) : list (list Z) :=
  match s with
  | [] => if bool_decide (word = []) then [] else [word]
  | c :: s =>
      if is_whitespace c
      then (if bool_decide (word = []) then [] else [word]) ++ split_words s []
      else split_words s (word ++ [c])
  end.
Definition split_whitespace (s : list Z) : list (list Z) := split_words s [].

(** [str::to_lowercase], as far as it matters for a comparison with a word whose letters
    are the lower case of ASCII letters only. *)
Definition to_lowercase (s : list Z) : list Z := map (fun c => if between 65 c 90 then c + 32 else c) s.

(** ** What is printed is read *)

Lemma decimal_step fuel n l : decimal_loop (S fuel) n l =
  if n / 10 =? 0 then 48 + n mod 10 :: l else decimal_loop fuel (n / 10) (48 + n mod 10 :: l).
Proof. done. Qed.

Lemma decimal_loop_app fuel : forall n l, decimal_loop fuel n l = decimal_loop fuel n [] ++ l.
Proof.
  induction fuel as [|fuel IH]; intros n l; [done|]. rewrite !decimal_step. destruct (_ =? 0); [done|].
  rewrite IH, (IH _ [_]), <-app_assoc. done.
Qed.

Lemma digits_10_app a : forall acc b n, digits_10 acc a = Some n -> digits_10 acc (a ++ b) = digits_10 n b.
Proof.
  induction a as [|c a IH]; intros acc b n E; [by injection E as ->|]. cbn [digits_10 app] in *.
  destruct (_ && _); [|done]. by apply IH.
Qed.

Lemma digits_decimal fuel : forall n, 0 <= n < 2 ^ 32 -> n < 10 ^ Z.of_nat (S fuel) ->
  digits_10 0 (decimal_loop (S fuel) n []) = Some n.
Proof.
  assert (Hd : forall q n, 10 * q + n mod 10 = n -> 0 <= n < 2 ^ 32 -> digits_10 q [48 + n mod 10] = Some n).
  { intros q n E Hn. cbn [digits_10]. pose proof (Z.mod_pos_bound n 10 ltac:(lia)).
    rewrite (proj2 (Z.leb_le _ _)), (proj2 (Z.leb_le _ _)), (proj2 (Z.ltb_lt _ _)) by lia. cbn. f_equal. lia. }
  induction fuel as [|fuel IH]; intros n Hn Hs; rewrite decimal_step.
  - destruct (n / 10 =? 0); apply Hd; try done; change (10 ^ Z.of_nat 1) with 10 in Hs; rewrite Z.mod_small; lia.
  - pose proof (Z.div_mod n 10 ltac:(lia)). destruct (Z.eqb_spec (n / 10) 0) as [E|E]; [apply Hd; lia|].
    rewrite decimal_loop_app. rewrite (digits_10_app _ 0 _ (n / 10)); [apply Hd; lia|].
    apply IH; [Z.to_euclidean_division_equations; lia|]. apply Z.div_lt_upper_bound; [lia|].
    rewrite (Nat2Z.inj_succ (S fuel)), Z.pow_succ_r in Hs by lia. lia.
Qed.

Lemma decimal_digits n : 0 <= n -> Forall (fun c => 48 <= c <= 57) (decimal n) /\ decimal n <> [].
Proof.
  assert (H : forall fuel n l, Forall (fun c => 48 <= c <= 57) l -> 0 <= n ->
    Forall (fun c => 48 <= c <= 57) (decimal_loop (S fuel) n l) /\ decimal_loop (S fuel) n l <> []).
  { induction fuel as [|fuel IH]; intros m l Hl Hm; rewrite decimal_step;
      pose proof (Z.mod_pos_bound m 10 ltac:(lia));
      assert (Hl' : Forall (fun c => 48 <= c <= 57) (48 + m mod 10 :: l)) by (constructor; [lia|done]).
    - by destruct (m / 10 =? 0).
    - destruct (m / 10 =? 0); [done|]. apply IH; [done|]. apply Z.div_pos; lia. }
  intros Hn. by apply H.
Qed.

Lemma decimal_length n : (length (decimal n) <= 10)%nat.
Proof.
  assert (H : forall fuel n l, (length (decimal_loop fuel n l) <= fuel + length l)%nat).
  { induction fuel as [|fuel IH]; intros m l; [cbn; lia|]. rewrite decimal_step. destruct (_ =? 0); [cbn; lia|].
    rewrite IH. cbn. lia. }
  specialize (H 10%nat n []). cbn in H. exact H.
Qed.

Lemma parse_decimal n : 0 <= n < 2 ^ 32 -> parse_u32 (decimal n) = Some n.
Proof.
  intros Hn. destruct (decimal_digits n) as [Hd Hne]; [lia|].
  assert (E : digits_10 0 (decimal n) = Some n) by (apply digits_decimal; [done|simpl Z.pow in *; lia]).
  destruct (decimal n) as [|c r]; [done|]. unfold parse_u32. inversion Hd as [|? ? Hc _].
  rewrite (proj2 (Z.eqb_neq c 43)) by lia. exact E.
Qed.

(** Bytes below 128 are their code points. *)
Lemma from_utf8_ascii l : Forall (fun c => 0 <= c < 128) l -> from_utf8 l = Some l.
Proof.
  induction 1 as [|c l Hc _ IH]; [done|]. cbn [from_utf8]. rewrite (proj2 (Z.ltb_lt _ _)) by lia. by rewrite IH.
Qed.

Lemma split_words_word w : forall word rest, Forall (fun c => is_whitespace c = false) w ->
  split_words (w ++ rest) word = split_words rest (word ++ w).
Proof.
  induction w as [|c w IH]; intros word rest Hw; [by rewrite app_nil_r|]. inversion Hw as [|? ? Hc Hw']; subst.
  cbn [app split_words]. by rewrite Hc, IH, <-app_assoc.
Qed.

Lemma digit_no_space c : 48 <= c <= 57 -> is_whitespace c = false.
Proof. intros Hc. unfold is_whitespace, between. repeat (rewrite (proj2 (Z.eqb_neq _ _)) by lia). lia. Qed.
