(* ===== verification/RateLimiter.v ===== *)
(** * The I/O rate limiter

    Model of [src/firecracker/src/rate_limiter/src/lib.rs] and
    [.../persist.rs]: token buckets with a one-time burst, passive refill from
    elapsed time, the limiter that combines a bandwidth and an operations
    bucket with a refill timer, and the saved state of both.

    Time is a number of nanoseconds.  [Instant::now()] is a reading of the
    monotonic clock, so every operation takes the readings it makes as
    arguments, in the order it makes them.  The timer file descriptor belongs
    to another crate: what the limiter programs into it is kept in
    [timer_fd], and what it reads back (the number of expirations) is an
    argument of [RateLimiter_event_handler].  The [f64] computation of the
    over-consumption delay is done on IEEE binary64 values with the
    Standard Library's [SpecFloat]. *)

From Stdlib Require Import ZArith Lia Znumtheory SpecFloat.
From stdpp Require Import prelude.
From S2P Require Import Prelude.

(** ** Definitions *)

Definition REFILL_TIMER_INTERVAL_MS : Z := 100.
Definition NANOSEC_IN_ONE_MILLISEC : Z := 1000000.

(** The loop of [gcd]; [None] is running out of fuel, which
    [gcd_fuel_enough] excludes for 64-bit operands. *)
Fixpoint gcd_loop (fuel : nat) (x y : Z) : option Z :=
  match fuel with
  | O => None
  | S fuel => if y =? 0 then Some x else gcd_loop fuel y (x mod y)
  end.

Definition gcd_fuel : nat := 2 * 64 + 1.
Definition gcd (x y : Z) : Z := default 0 (gcd_loop gcd_fuel x y).

(** [u64 as f64] and [f64 as u64] (the latter truncates and saturates). *)
Definition f64 := spec_float.
Definition u64_as_f64 (z : Z) : f64 := binary_normalize 53 1024 z 0 false.
Definition f64_as_u64 (f : f64) : Z :=
  match f with
  | S754_finite false m e =>
      Z.min (2 ^ 64 - 1)
            (if 0 <=? e then Zpos m * 2 ^ e else Zpos m / 2 ^ (- e))
  | S754_infinity false => 2 ^ 64 - 1
  | _ => 0
  end.

Inductive BucketReduction : Type :=
| Failure
| Success
| OverConsumption (ratio : f64).

Record TokenBucket := mkTokenBucket {
  size : Z;
  initial_one_time_burst : Z;
  refill_time : Z;
  one_time_burst : Z;
  budget : Z;
  last_update : Z;
  processed_capacity : Z;
  processed_refill_time : Z
}.

Definition with_one_time_burst (tb : TokenBucket) (b : Z) : TokenBucket :=
  mkTokenBucket (size tb) (initial_one_time_burst tb) (refill_time tb) b
    (budget tb) (last_update tb) (processed_capacity tb) (processed_refill_time tb).
Definition with_budget (tb : TokenBucket) (b : Z) : TokenBucket :=
  mkTokenBucket (size tb) (initial_one_time_burst tb) (refill_time tb)
    (one_time_burst tb) b (last_update tb) (processed_capacity tb)
    (processed_refill_time tb).
Definition with_last_update (tb : TokenBucket) (t : Z) : TokenBucket :=
  mkTokenBucket (size tb) (initial_one_time_burst tb) (refill_time tb)
    (one_time_burst tb) (budget tb) t (processed_capacity tb)
    (processed_refill_time tb).

(** The two clock readings a call may make: the one of [elapsed()] (or of the
    burst path) and the later one stored in [last_update]. *)
Record Clock := mkClock { first_read : Z; second_read : Z }.

Section Bucket.
Context `{Profile}.
Local Open Scope rust_scope.

Definition TokenBucket_new (size0 burst complete_refill_time_ms now : Z)
    : exec (option TokenBucket) :=
  if (size0 =? 0) || (complete_refill_time_ms =? 0) then Ret None
  else
    complete_refill_time_ns ← complete_refill_time_ms *64 NANOSEC_IN_ONE_MILLISEC;
    let common_factor := gcd size0 complete_refill_time_ns in
    pc ← udiv size0 common_factor;
    prt ← udiv complete_refill_time_ns common_factor;
    Ret (Some (mkTokenBucket size0 burst complete_refill_time_ms burst size0 now pc prt)).

(** [Instant::elapsed] saturates at zero; [as_nanos() as u64] truncates. *)
Definition elapsed_ns_u64 (tb : TokenBucket) (now : Z) : Z :=
  wrap 64 (Z.max 0 (now - last_update tb)).

Definition auto_replenish (tb : TokenBucket) (clk : Clock) : exec TokenBucket :=
  let time_delta := elapsed_ns_u64 tb (first_read clk) in
  let tb := with_last_update tb (second_read clk) in
  product ← time_delta *64 processed_capacity tb;
  tokens ← udiv product (processed_refill_time tb);
  sum ← budget tb +64 tokens;
  Ret (with_budget tb (Z.min sum (size tb))).

(** The part of [reduce] after the one-time burst. *)
Definition reduce_budget (tb : TokenBucket) (tokens : Z) (clk : Clock)
    : exec (BucketReduction * TokenBucket) :=
  if budget tb <? tokens then
    tb ← auto_replenish tb clk;
    if size tb <? tokens then
      tokens ← tokens -64 budget tb;
      Ret (OverConsumption (SFdiv 53 1024 (u64_as_f64 tokens) (u64_as_f64 (size tb))),
           with_budget tb 0)
    else if budget tb <? tokens then Ret (Failure, tb)
    else b ← budget tb -64 tokens; Ret (Success, with_budget tb b)
  else b ← budget tb -64 tokens; Ret (Success, with_budget tb b).

Definition reduce (tb : TokenBucket) (tokens : Z) (clk : Clock)
    : exec (BucketReduction * TokenBucket) :=
  if 0 <? one_time_burst tb then
    if tokens <=? one_time_burst tb then
      b ← one_time_burst tb -64 tokens;
      Ret (Success, with_last_update (with_one_time_burst tb b) (first_read clk))
    else
      rest ← tokens -64 one_time_burst tb;
      reduce_budget (with_one_time_burst tb 0) rest clk
  else reduce_budget tb tokens clk.

Definition force_replenish (tb : TokenBucket) (tokens : Z) : exec TokenBucket :=
  if 0 <? one_time_burst tb then
    b ← one_time_burst tb +64 tokens;
    Ret (with_one_time_burst tb b)
  else
    sum ← budget tb +64 tokens;
    Ret (with_budget tb (Z.min sum (size tb))).
End Bucket.

Inductive TokenType := Bytes | Ops.

Inductive BucketUpdate :=
| UpdateNone
| Disabled
| Update (tb : TokenBucket).

(** [timer_fd] holds the delay, in milliseconds, of the last one-shot the
    limiter programmed. *)
Record RateLimiter := mkRateLimiter {
  bandwidth : option TokenBucket;
  ops : option TokenBucket;
  timer_fd : option Z;
  timer_active : bool
}.

Inductive RateLimiterError := SpuriousRateLimiterEvent.

Section Limiter.
Context `{Profile}.

(** [fd] is the outcome of [TimerFd::new_custom]. *)
Definition RateLimiter_new {IoError}
    (bytes_total_capacity bytes_one_time_burst bytes_complete_refill_time_ms
     ops_total_capacity ops_one_time_burst ops_complete_refill_time_ms : Z)
    (now_bytes now_ops : Z) (fd : result unit IoError)
    : exec (result RateLimiter IoError) :=
  bytes_token_bucket ←
    TokenBucket_new bytes_total_capacity bytes_one_time_burst
      bytes_complete_refill_time_ms now_bytes;
  ops_token_bucket ←
    TokenBucket_new ops_total_capacity ops_one_time_burst
      ops_complete_refill_time_ms now_ops;
  match fd with
  | Err e => Ret (Err e)
  | Ok _ => Ret (Ok (mkRateLimiter bytes_token_bucket ops_token_bucket None false))
  end.

Definition activate_timer (rl : RateLimiter) (delay_ms : Z) : RateLimiter :=
  mkRateLimiter (bandwidth rl) (ops rl) (Some delay_ms) true.

Definition bucket_of (rl : RateLimiter) (token_type : TokenType) : option TokenBucket :=
  match token_type with Bytes => bandwidth rl | Ops => ops rl end.
Definition set_bucket (rl : RateLimiter) (token_type : TokenType) (tb : TokenBucket)
    : RateLimiter :=
  match token_type with
  | Bytes => mkRateLimiter (Some tb) (ops rl) (timer_fd rl) (timer_active rl)
  | Ops => mkRateLimiter (bandwidth rl) (Some tb) (timer_fd rl) (timer_active rl)
  end.

Definition over_consumption_ms (ratio : f64) (refill_time_ms : Z) : Z :=
  f64_as_u64 (SFmul 53 1024 ratio (u64_as_f64 refill_time_ms)).

Definition consume (rl : RateLimiter) (tokens : Z) (token_type : TokenType) (clk : Clock)
    : exec (bool * RateLimiter) :=
  if timer_active rl then Ret (false, rl)
  else
    match bucket_of rl token_type with
    | Some bucket =>
        r ← reduce bucket tokens clk;
        let rl' := set_bucket rl token_type r.2 in
        match r.1 with
        | Failure =>
            Ret (false, if negb (timer_active rl')
                        then activate_timer rl' REFILL_TIMER_INTERVAL_MS else rl')
        | Success => Ret (true, rl')
        | OverConsumption ratio =>
            Ret (true, activate_timer rl' (over_consumption_ms ratio (refill_time bucket)))
        end
    | None => Ret (true, rl)
    end.

Definition manual_replenish (rl : RateLimiter) (tokens : Z) (token_type : TokenType)
    : exec RateLimiter :=
  match bucket_of rl token_type with
  | Some bucket => tb ← force_replenish bucket tokens; Ret (set_bucket rl token_type tb)
  | None => Ret rl
  end.

Definition is_blocked (rl : RateLimiter) : bool := timer_active rl.

(** [expirations] is what [TimerFd::read] returns. *)
Definition RateLimiter_event_handler (rl : RateLimiter) (expirations : Z)
    : result unit RateLimiterError * RateLimiter :=
  if expirations =? 0 then (Err SpuriousRateLimiterEvent, rl)
  else (Ok tt, mkRateLimiter (bandwidth rl) (ops rl) (timer_fd rl) false).

Definition update_bucket (old : option TokenBucket) (u : BucketUpdate) : option TokenBucket :=
  match u with
  | Disabled => None
  | Update tb => Some tb
  | UpdateNone => old
  end.
Definition update_buckets (rl : RateLimiter) (bytes ops0 : BucketUpdate) : RateLimiter :=
  mkRateLimiter (update_bucket (bandwidth rl) bytes) (update_bucket (ops rl) ops0)
    (timer_fd rl) (timer_active rl).
End Limiter.

(** Saved state ([persist.rs]). *)
Record TokenBucketState := mkTokenBucketState {
  st_size : Z;
  st_one_time_burst : Z;
  st_refill_time : Z;
  st_budget : Z;
  st_elapsed_ns : Z
}.

Record RateLimiterState := mkRateLimiterState {
  st_ops : option TokenBucketState;
  st_bandwidth : option TokenBucketState
}.

Inductive RestoreError {IoError} := InvalidInput | TimerFdError (e : IoError).
Arguments RestoreError : clear implicits.

Definition INSTANT_MIN_NS : Z := - 2 ^ 63 * 1000000000.

Section Persist.
Context `{Profile}.

Definition TokenBucket_save (tb : TokenBucket) (now : Z) : TokenBucketState :=
  mkTokenBucketState (size tb) (one_time_burst tb) (refill_time tb) (budget tb)
    (elapsed_ns_u64 tb now).

(** On Linux an [Instant] counts its seconds in an [i64]; [checked_sub] fails
    when the result would precede the smallest one. *)
Definition TokenBucket_restore {IoError} (st : TokenBucketState) (now now_new : Z)
    : exec (result TokenBucket (RestoreError IoError)) :=
  let last_update0 :=
    if INSTANT_MIN_NS <=? now - st_elapsed_ns st then now - st_elapsed_ns st else now in
  o ← TokenBucket_new (st_size st) (st_one_time_burst st) (st_refill_time st) now_new;
  match o with
  | None => Ret (Err InvalidInput)
  | Some tb => Ret (Ok (with_last_update (with_budget tb (st_budget st)) last_update0))
  end.

Definition RateLimiter_save (rl : RateLimiter) (now_ops now_bw : Z) : RateLimiterState :=
  mkRateLimiterState ((fun tb => TokenBucket_save tb now_ops) <$> ops rl)
                     ((fun tb => TokenBucket_save tb now_bw) <$> bandwidth rl).

Definition restore_bucket {IoError} (o : option TokenBucketState) (now now_new : Z)
    : exec (result (option TokenBucket) (RestoreError IoError)) :=
  match o with
  | None => Ret (Ok None)
  | Some st =>
      r ← TokenBucket_restore st now now_new;
      match r with Ok tb => Ret (Ok (Some tb)) | Err e => Ret (Err e) end
  end.

(** [clk_ops] and [clk_bw] are the readings of the two bucket restores. *)
Definition RateLimiter_restore {IoError} (st : RateLimiterState) (clk_ops clk_bw : Clock)
    (fd : result unit IoError) : exec (result RateLimiter (RestoreError IoError)) :=
  r_ops ← restore_bucket (st_ops st) (first_read clk_ops) (second_read clk_ops);
  match r_ops with
  | Err e => Ret (Err e)
  | Ok o =>
      r_bw ← restore_bucket (st_bandwidth st) (first_read clk_bw) (second_read clk_bw);
      match r_bw with
      | Err e => Ret (Err e)
      | Ok b =>
          match fd with
          | Err e => Ret (Err (TimerFdError e))
          | Ok _ => Ret (Ok (mkRateLimiter b o None false))
          end
      end
  end.
End Persist.

(** What a limiter is restored with: the readings of the clock and whether the timer could be
    made. *)
Record LimiterHost := mkLimiterHost { lh_ops : Clock; lh_bw : Clock; lh_timer : result unit unit }.

(** ** The greatest common divisor *)

Lemma gcd_step_halves x y :
  0 < y -> 0 < x mod y -> 2 * (y mod (x mod y)) < y.
Proof.
  intros Hy Hr.
  pose proof (Z.mod_pos_bound x y Hy). set (r := x mod y) in *.
  pose proof (Z.mod_pos_bound y r Hr). pose proof (Z.div_mod y r ltac:(lia)).
  assert (1 <= y / r) by (apply Z.div_le_lower_bound; lia). nia.
Qed.

Lemma gcd_rem x y : y <> 0 -> Z.gcd y (x mod y) = Z.gcd x y.
Proof. intros. by rewrite Z.gcd_comm, Z.gcd_mod, Z.gcd_comm. Qed.

Lemma gcd_loop_spec (n : nat) x y :
  0 <= x -> 0 <= y < 2 ^ Z.of_nat n -> gcd_loop (2 * n + 1) x y = Some (Z.gcd x y).
Proof.
  revert x y. induction n as [|n IH]; intros x y Hx Hy.
  - assert (y = 0) as -> by (simpl in Hy; lia). simpl.
    by rewrite Z.gcd_0_r, Z.abs_eq.
  - replace (2 * S n + 1)%nat with (S (S (2 * n + 1))) by lia.
    rewrite Nat2Z.inj_succ, Z.pow_succ_r in Hy by lia.
    cbn [gcd_loop]. destruct (Z.eqb_spec y 0) as [->|Hy0].
    { by rewrite Z.gcd_0_r, Z.abs_eq. }
    pose proof (Z.mod_pos_bound x y ltac:(lia)) as Hr.
    rewrite <- (gcd_rem x y) by done.
    destruct (Z.eqb_spec (x mod y) 0) as [->|Hr0].
    { by rewrite Z.gcd_0_r, Z.abs_eq by lia. }
    pose proof (gcd_step_halves x y ltac:(lia) ltac:(lia)).
    pose proof (Z.mod_pos_bound y (x mod y) ltac:(lia)).
    rewrite IH by lia. by rewrite gcd_rem.
Qed.

Lemma gcd_fuel_enough x y :
  0 <= x -> 0 <= y < 2 ^ 64 -> gcd_loop gcd_fuel x y = Some (Z.gcd x y).
Proof. intros Hx Hy. exact (gcd_loop_spec 64 x y Hx Hy). Qed.

Lemma gcd_correct x y : 0 <= x -> 0 <= y < 2 ^ 64 -> gcd x y = Z.gcd x y.
Proof. intros. unfold gcd. by rewrite gcd_fuel_enough. Qed.

(** ** Well-formed buckets *)

(** The configuration constants agree with the size and the refill time, all
    counters are 64-bit, and the budget does not exceed the size. *)
Record bucket_wf (tb : TokenBucket) : Prop := {
  wf_size : 0 < size tb < 2 ^ 64;
  wf_budget : 0 <= budget tb <= size tb;
  wf_burst : in_range 64 (one_time_burst tb);
  wf_pc : 0 < processed_capacity tb < 2 ^ 64;
  wf_prt : 0 < processed_refill_time tb < 2 ^ 64
}.

(** The refill rate the configuration asks for: [processed_capacity] tokens
    every [processed_refill_time] nanoseconds is [size] every [refill_time]
    milliseconds. *)
Definition rate_ok (tb : TokenBucket) : Prop :=
  processed_capacity tb * (refill_time tb * NANOSEC_IN_ONE_MILLISEC) =
  size tb * processed_refill_time tb.

Lemma min_budget_range a b : 0 <= a -> 0 < b -> 0 <= Z.min a b <= b.
Proof. lia. Qed.

Section BucketLemmas.
Context `{Profile}.

Lemma TokenBucket_new_spec size0 burst ms now :
  0 < size0 < 2 ^ 64 -> 0 < ms -> ms * NANOSEC_IN_ONE_MILLISEC < 2 ^ 64 ->
  let ns := ms * NANOSEC_IN_ONE_MILLISEC in
  TokenBucket_new size0 burst ms now =
    Ret (Some (mkTokenBucket size0 burst ms burst size0 now
                 (size0 / Z.gcd size0 ns) (ns / Z.gcd size0 ns))).
Proof.
  intros Hs Hm Hns ns. unfold TokenBucket_new, NANOSEC_IN_ONE_MILLISEC in *.
  replace (_ || _) with false by lia.
  rewrite umul_ok by (unfold in_range; lia). rewrite bind_Ret.
  rewrite gcd_correct by lia. fold ns.
  pose proof (Z.gcd_nonneg size0 ns).
  assert (Z.gcd size0 ns <> 0) by (intros E; apply Z.gcd_eq_0 in E; lia).
  by rewrite !udiv_ok, !bind_Ret.
Qed.

Lemma auto_replenish_wf tb clk tb' :
  bucket_wf tb -> auto_replenish tb clk = Ret tb' -> bucket_wf tb'.
Proof.
  intros [] Ha. unfold auto_replenish in Ha. exec_inv.
  apply arith_range in E1; [|done].
  split; cbn; try done. apply min_budget_range; [apply E1|lia].
Qed.

(** What [auto_replenish] does to the fields it does not refill. *)
Lemma auto_replenish_frame tb clk tb' :
  auto_replenish tb clk = Ret tb' ->
  size tb' = size tb /\ one_time_burst tb' = one_time_burst tb /\
  refill_time tb' = refill_time tb /\
  processed_capacity tb' = processed_capacity tb /\
  processed_refill_time tb' = processed_refill_time tb /\
  last_update tb' = second_read clk.
Proof. intros Ha. unfold auto_replenish in Ha. exec_inv. done. Qed.

Lemma usub_range_ok w a b : 0 <= b <= a -> in_range w a -> usub w a b = Ret (a - b).
Proof. intros. apply usub_ok. unfold in_range in *. lia. Qed.

Lemma reduce_budget_wf tb tokens clk r tb' :
  bucket_wf tb -> 0 <= tokens -> reduce_budget tb tokens clk = Ret (r, tb') -> bucket_wf tb'.
Proof.
  intros Hwf Ht Hr. unfold reduce_budget in Hr.
  destruct (Z.ltb_spec (budget tb) tokens).
  - apply bind_Ret_inv in Hr as (tb1 & E & Hr).
    apply (auto_replenish_wf tb) in E; [|done]. destruct E.
    destruct (Z.ltb_spec (size tb1) tokens); [|destruct (Z.ltb_spec (budget tb1) tokens)];
      exec_inv; split; cbn; try done; try lia.
    rewrite usub_range_ok in E by (unfold in_range; lia). exec_inv. lia.
  - destruct Hwf. rewrite usub_range_ok in Hr by (unfold in_range; lia).
    exec_inv. split; cbn; try done. lia.
Qed.
End BucketLemmas.

(** ** What a bucket grants over time *)

(** A run of [reduce] calls; the outcomes are listed in call order. *)
Fixpoint reduce_all `{Profile} (tb : TokenBucket) (reqs : list (Z * Clock))
    : exec (list BucketReduction * TokenBucket) :=
  match reqs with
  | [] => Ret ([], tb)
  | (tokens, clk) :: reqs =>
      r ← reduce tb tokens clk;
      rs ← reduce_all r.2 reqs;
      Ret (r.1 :: rs.1, rs.2)
  end.

Definition granted_by (r : BucketReduction) (tokens : Z) : Z :=
  match r with Success => tokens | _ => 0 end.
Fixpoint granted (rs : list BucketReduction) (reqs : list (Z * Clock)) : Z :=
  match rs, reqs with
  | r :: rs, (tokens, _) :: reqs => granted_by r tokens + granted rs reqs
  | _, _ => 0
  end.

(** The clock readings of a run never go backwards. *)
Fixpoint monotonic (t : Z) (reqs : list (Z * Clock)) : Prop :=
  match reqs with
  | [] => True
  | (_, clk) :: reqs =>
      t <= first_read clk <= second_read clk /\ monotonic (second_read clk) reqs
  end.

Lemma wrap_le w z : 0 <= w -> 0 <= z -> 0 <= wrap w z <= z.
Proof.
  intros. pose proof (wrap_range w z ltac:(done)). unfold in_range, wrap in *.
  pose proof (pow2_pos w). split; [lia|]. apply Z.mod_le; lia.
Qed.

Lemma monotonic_weaken t t' reqs : t' <= t -> monotonic t reqs -> monotonic t' reqs.
Proof. destruct reqs as [|[? ?] ?]; simpl; [done|]. intros ? [? ?]. split; [lia|done]. Qed.

Section Rate.
Context `{Profile}.

(** A refill never adds more than the configured rate, even when the
    intermediate product wraps. *)
Lemma auto_replenish_rate tb clk tb' :
  bucket_wf tb -> last_update tb <= first_read clk <= second_read clk ->
  auto_replenish tb clk = Ret tb' ->
  processed_refill_time tb * budget tb' <=
    processed_refill_time tb * budget tb +
    processed_capacity tb * (last_update tb' - last_update tb).
Proof.
  intros [] Hclk Ha. unfold auto_replenish in Ha. exec_inv. cbn.
  set (dt := first_read clk - last_update tb) in *.
  assert (0 <= elapsed_ns_u64 tb (first_read clk) <= dt) as Hd.
  { unfold elapsed_ns_u64. replace (Z.max 0 _) with dt by lia. apply wrap_le; lia. }
  apply arith_wrap in E. unfold udiv in E0.
  destruct (Z.eqb_spec (processed_refill_time tb) 0); exec_inv; [lia|].
  cbn in *. rewrite (proj2 (Z.eqb_neq _ _)) in E0 by done. exec_inv.
  apply arith_wrap in E1.
  set (p := elapsed_ns_u64 _ _ * processed_capacity tb) in *.
  assert (0 <= wrap 64 p <= p) by (apply wrap_le; nia).
  assert (0 <= wrap 64 p / processed_refill_time tb) by (apply Z.div_pos; lia).
  pose proof (Z.mul_div_le (wrap 64 p) (processed_refill_time tb) ltac:(lia)).
  assert (wrap 64 (budget tb + wrap 64 p / processed_refill_time tb) <=
          budget tb + wrap 64 p / processed_refill_time tb) by (apply wrap_le; lia).
  nia.
Qed.

(** The potential of a bucket: what it holds plus what it just gave out
    grows at most at the configured rate. *)
Lemma reduce_budget_rate tb tokens clk r tb' :
  bucket_wf tb -> one_time_burst tb = 0 -> 0 <= tokens <= size tb ->
  last_update tb <= first_read clk <= second_read clk ->
  reduce_budget tb tokens clk = Ret (r, tb') ->
  last_update tb <= last_update tb' <= second_read clk /\
  one_time_burst tb' = 0 /\
  processed_refill_time tb * (budget tb' + granted_by r tokens) <=
    processed_refill_time tb * budget tb +
    processed_capacity tb * (last_update tb' - last_update tb).
Proof.
  intros Hwf Hb Ht Hclk Hr. unfold reduce_budget in Hr.
  destruct (Z.ltb_spec (budget tb) tokens).
  - apply bind_Ret_inv in Hr as (tb1 & E & Hr).
    pose proof (auto_replenish_rate _ _ _ Hwf Hclk E).
    destruct (auto_replenish_frame _ _ _ E) as (Es & Eb & _ & Ec & Ep & El).
    apply (auto_replenish_wf tb) in E as []; [|done].
    rewrite Es in Hr. rewrite (proj2 (Z.ltb_ge (size tb) tokens)) in Hr by lia.
    destruct (Z.ltb_spec (budget tb1) tokens); exec_inv; cbn.
    + rewrite El in *. split; [lia|]. split; [lia|]. lia.
    + rewrite usub_range_ok in E by (unfold in_range; lia). exec_inv.
      rewrite El in *. split; [lia|]. split; [lia|]. lia.
  - destruct Hwf. rewrite usub_range_ok in Hr by (unfold in_range; lia). exec_inv. cbn.
    split; [lia|]. split; [done|]. lia.
Qed.

Lemma reduce_budget_frame tb tokens clk r tb' :
  reduce_budget tb tokens clk = Ret (r, tb') ->
  size tb' = size tb /\ refill_time tb' = refill_time tb /\
  processed_capacity tb' = processed_capacity tb /\
  processed_refill_time tb' = processed_refill_time tb.
Proof.
  unfold reduce_budget. intros Hr.
  destruct (_ <? _); [|exec_inv; done].
  apply bind_Ret_inv in Hr as (tb1 & E & Hr).
  pose proof (auto_replenish_frame _ _ _ E) as (Es & _ & Er & Ec & Ep & _).
  destruct (_ <? _); [|destruct (_ <? _)]; exec_inv; cbn; done.
Qed.

Lemma reduce_frame tb tokens clk r tb' :
  reduce tb tokens clk = Ret (r, tb') ->
  size tb' = size tb /\ refill_time tb' = refill_time tb /\
  processed_capacity tb' = processed_capacity tb /\
  processed_refill_time tb' = processed_refill_time tb.
Proof.
  unfold reduce. intros Hr.
  destruct (_ <? _); [destruct (_ <=? _)|]; exec_inv; [done| |by eapply reduce_budget_frame].
  by apply reduce_budget_frame in Hr.
Qed.

Lemma burst_wf tb b : bucket_wf tb -> in_range 64 b -> bucket_wf (with_one_time_burst tb b).
Proof. intros [] ?. by split. Qed.

Lemma reduce_wf tb tokens clk r tb' :
  bucket_wf tb -> in_range 64 tokens -> reduce tb tokens clk = Ret (r, tb') -> bucket_wf tb'.
Proof.
  intros Hwf Ht Hr. pose proof Hwf as []. unfold reduce in Hr. unfold in_range in *.
  destruct (Z.ltb_spec 0 (one_time_burst tb)).
  - destruct (Z.leb_spec tokens (one_time_burst tb));
      rewrite usub_range_ok in Hr by (unfold in_range; lia); rewrite bind_Ret in Hr.
    + exec_inv. split; cbn; try done; unfold in_range; lia.
    + apply reduce_budget_wf in Hr; [done|apply burst_wf; [done|unfold in_range; lia]|lia].
  - apply reduce_budget_wf in Hr; [done|done|lia].
Qed.

Lemma reduce_rate tb tokens clk r tb' :
  bucket_wf tb -> 0 <= tokens <= size tb ->
  last_update tb <= first_read clk <= second_read clk ->
  reduce tb tokens clk = Ret (r, tb') ->
  last_update tb <= last_update tb' <= second_read clk /\
  processed_refill_time tb * (one_time_burst tb' + budget tb' + granted_by r tokens) <=
    processed_refill_time tb * (one_time_burst tb + budget tb) +
    processed_capacity tb * (last_update tb' - last_update tb).
Proof.
  intros Hwf Ht Hclk Hr. pose proof Hwf as []. unfold reduce in Hr. unfold in_range in *.
  destruct (Z.ltb_spec 0 (one_time_burst tb)).
  - destruct (Z.leb_spec tokens (one_time_burst tb));
      rewrite usub_range_ok in Hr by (unfold in_range; lia); rewrite bind_Ret in Hr.
    + exec_inv. cbn. split; [lia|]. nia.
    + apply reduce_budget_rate in Hr as (Hl & Hb & Hr); cbn in *; try lia;
        [|apply burst_wf; [done|unfold in_range; lia]].
      split; [lia|]. destruct r; simpl granted_by in *; nia.
  - apply reduce_budget_rate in Hr as (Hl & Hb & Hr); [|done|lia..].
    split; [lia|]. rewrite Hb. nia.
Qed.

Lemma reduce_all_rate tb reqs rs tb' :
  bucket_wf tb -> monotonic (last_update tb) reqs ->
  Forall (fun q => 0 <= q.1 <= size tb) reqs ->
  reduce_all tb reqs = Ret (rs, tb') ->
  bucket_wf tb' /\
  processed_refill_time tb * (one_time_burst tb' + budget tb' + granted rs reqs) <=
    processed_refill_time tb * (one_time_burst tb + budget tb) +
    processed_capacity tb * (last_update tb' - last_update tb).
Proof.
  revert tb rs. induction reqs as [|[tokens clk] reqs IH]; intros tb rs Hwf Hm Hf Hr;
    simpl in Hr; [exec_inv; simpl; split; [done|lia]|].
  inversion Hf as [|? ? Hq Hf']; subst. destruct Hm as [Hclk Hm]. cbn in Hq.
  apply bind_Ret_inv in Hr as ([r tb1] & E & Hr). cbn in Hr.
  apply bind_Ret_inv in Hr as ([rs1 tb2] & E1 & Hr). exec_inv. cbn.
  pose proof (reduce_frame _ _ _ _ _ E) as (Es & _ & Ec & Ep).
  pose proof (reduce_rate _ _ _ _ _ Hwf Hq Hclk E) as [Hl Hrate].
  assert (in_range 64 tokens) by (destruct Hwf; unfold in_range; lia).
  apply reduce_wf in E; [|done..].
  apply IH in E1 as [Hwf2 Hrate2]; [|done|eapply monotonic_weaken; [|done]; lia|by rewrite Es].
  split; [done|]. rewrite Ec, Ep in *. lia.
Qed.
End Rate.

Lemma reduce_budget_succeeds `{Profile} tb n clk :
  bucket_wf tb -> 0 <= first_read clk - last_update tb < 2 ^ 64 ->
  (first_read clk - last_update tb) * processed_capacity tb < 2 ^ 64 ->
  budget tb + (first_read clk - last_update tb) * processed_capacity tb /
    processed_refill_time tb < 2 ^ 64 ->
  0 <= n <= size tb ->
  n <= (first_read clk - last_update tb) * processed_capacity tb / processed_refill_time tb ->
  exists tb', reduce_budget tb n clk = Ret (Success, tb').
Proof.
  intros [] Hdt Hp Hs Hn Hle. unfold reduce_budget.
  destruct (Z.ltb_spec (budget tb) n);
    [|rewrite usub_range_ok by (unfold in_range; lia); eexists; done].
  unfold auto_replenish, elapsed_ns_u64.
  cbn [processed_capacity processed_refill_time budget size with_last_update].
  rewrite Z.max_r, wrap_id by (unfold in_range; lia).
  rewrite umul_ok, bind_Ret by (unfold in_range; nia).
  rewrite udiv_ok, bind_Ret by lia.
  assert (0 <= (first_read clk - last_update tb) * processed_capacity tb /
               processed_refill_time tb) by (apply Z.div_pos; nia).
  rewrite uadd_ok, !bind_Ret by (unfold in_range; lia).
  cbn [size budget with_budget with_last_update].
  rewrite (proj2 (Z.ltb_ge _ _)) by lia. rewrite (proj2 (Z.ltb_ge _ _)) by lia.
  rewrite usub_range_ok by (unfold in_range; lia). eexists; done.
Qed.

(** ** Theorems *)

Section Theorems.
Context `{Profile}.

(** [TokenBucket::new] disables limiting exactly on a zero size or refill
    time; otherwise it returns a full, well-formed bucket whose simplified
    refill fraction is the configured rate in lowest terms (the [gcd] loop
    ends and computes the greatest common divisor). *)
Theorem TokenBucket_new_correct size0 burst ms now :
  0 <= size0 < 2 ^ 64 -> in_range 64 burst ->
  0 <= ms -> ms * NANOSEC_IN_ONE_MILLISEC < 2 ^ 64 ->
  exists o, TokenBucket_new size0 burst ms now = Ret o /\
    match o with
    | None => size0 = 0 \/ ms = 0
    | Some tb =>
        size0 <> 0 /\ ms <> 0 /\ bucket_wf tb /\ rate_ok tb /\
        Z.gcd (processed_capacity tb) (processed_refill_time tb) = 1 /\
        size tb = size0 /\ budget tb = size0 /\ refill_time tb = ms /\
        one_time_burst tb = burst /\ last_update tb = now
    end.
Proof.
  intros Hs Hb Hm Hns.
  destruct (Z.eqb_spec size0 0) as [->|]; [exists None; split; [done|by left]|].
  destruct (Z.eqb_spec ms 0) as [->|].
  { exists None. unfold TokenBucket_new. rewrite orb_true_r. split; [done|by right]. }
  rewrite TokenBucket_new_spec by lia. eexists. split; [done|]. cbn.
  unfold NANOSEC_IN_ONE_MILLISEC, rate_ok in *. cbn.
  set (ns := ms * 1000000) in *. set (g := Z.gcd size0 ns).
  assert (0 < g) by (pose proof (Z.gcd_nonneg size0 ns);
    assert (g <> 0) by (intros E; apply Z.gcd_eq_0 in E; lia); lia).
  destruct (Z.gcd_divide_l size0 ns) as [a Ha]. destruct (Z.gcd_divide_r size0 ns) as [b Hb'].
  fold g in Ha, Hb'.
  assert (size0 / g = a) as -> by (rewrite Ha; apply Z.div_mul; lia).
  assert (ns / g = b) as -> by (rewrite Hb' at 1; apply Z.div_mul; lia).
  assert (Z.gcd a b = 1).
  { apply (Z.mul_cancel_r _ _ g); [lia|].
    rewrite <- (Z.abs_eq g), Z.mul_1_l, Z.abs_eq by lia.
    rewrite <- (Z.gcd_mul_mono_r_nonneg a b g) by lia. rewrite <- Ha, <- Hb'. done. }
  split_and!; try done.
  - split; cbn; try done; try lia; nia.
  - transitivity (a * (b * g)); [by rewrite <- Hb'|].
    transitivity (a * g * b); [ring|by rewrite <- Ha].
Qed.

(** C35: the bandwidth guarantee.  Over any run of [reduce] calls none of which
    asks for more than the bucket's size, the tokens granted are at most the
    burst and budget held at the start plus what the configured rate ([size]
    tokens every [refill_time] milliseconds) yields over the elapsed time, in
    both build profiles, including when the refill product wraps. *)
Theorem reduce_all_bandwidth tb reqs rs tb' :
  bucket_wf tb -> rate_ok tb -> monotonic (last_update tb) reqs ->
  Forall (fun q => 0 <= q.1 <= size tb) reqs ->
  reduce_all tb reqs = Ret (rs, tb') ->
  let refill_ns := refill_time tb * NANOSEC_IN_ONE_MILLISEC in
  granted rs reqs * refill_ns <=
    (one_time_burst tb + budget tb) * refill_ns +
    size tb * (last_update tb' - last_update tb).
Proof.
  intros Hwf Hrate Hm Hf Hr refill_ns.
  destruct (reduce_all_rate _ _ _ _ Hwf Hm Hf Hr) as [[] Hp].
  unfold rate_ok in Hrate. fold refill_ns in Hrate. destruct Hwf.
  unfold in_range in *.
  apply (Z.mul_le_mono_pos_l _ _ (processed_capacity tb)); [lia|].
  assert (0 <= one_time_burst tb' + budget tb') by lia.
  set (G := granted rs reqs) in *. set (B := one_time_burst tb + budget tb) in *.
  set (T := last_update tb' - last_update tb) in *.
  set (pc := processed_capacity tb) in *. set (prt := processed_refill_time tb) in *.
  replace (pc * (G * refill_ns)) with (pc * refill_ns * G) by ring.
  replace (pc * (B * refill_ns + size tb * T))
    with (pc * refill_ns * B + size tb * (pc * T)) by ring.
  rewrite Hrate, <- !Z.mul_assoc, <- Z.mul_add_distr_l.
  apply Z.mul_le_mono_nonneg_l; [lia|]. nia.
Qed.

(** A bucket that has waited long enough grants the request: when the
    elapsed time is worth at least the missing tokens at the configured rate
    and the refill computation fits 64 bits, [reduce] succeeds. *)
Theorem reduce_succeeds_after_wait tb tokens clk :
  bucket_wf tb -> rate_ok tb -> 0 < refill_time tb -> 0 <= tokens <= size tb ->
  let dt := first_read clk - last_update tb in
  0 <= dt < 2 ^ 64 ->
  dt * processed_capacity tb < 2 ^ 64 ->
  budget tb + dt * processed_capacity tb / processed_refill_time tb < 2 ^ 64 ->
  tokens * (refill_time tb * NANOSEC_IN_ONE_MILLISEC) <= size tb * dt ->
  exists tb', reduce tb tokens clk = Ret (Success, tb') /\ bucket_wf tb'.
Proof.
  intros Hwf Hrate Hrt Ht dt Hdt Hp Hs Hn. pose proof Hwf as [].
  unfold in_range, rate_ok in *.
  set (ns := refill_time tb * NANOSEC_IN_ONE_MILLISEC) in *.
  assert (0 < ns) by (unfold ns, NANOSEC_IN_ONE_MILLISEC; lia).
  assert (tokens <= dt * processed_capacity tb / processed_refill_time tb).
  { apply Z.div_le_lower_bound; [lia|].
    apply (Z.mul_le_mono_pos_l _ _ ns); [done|].
    replace (ns * (processed_refill_time tb * tokens))
      with (processed_refill_time tb * (tokens * ns)) by ring.
    replace (ns * (dt * processed_capacity tb)) with (dt * (processed_capacity tb * ns)) by ring.
    rewrite Hrate.
    replace (dt * (size tb * processed_refill_time tb))
      with (processed_refill_time tb * (size tb * dt)) by ring.
    apply Z.mul_le_mono_nonneg_l; lia. }
  assert (exists tb', reduce tb tokens clk = Ret (Success, tb')) as [tb' Hr].
  { unfold reduce. destruct (Z.ltb_spec 0 (one_time_burst tb)).
    - destruct (Z.leb_spec tokens (one_time_burst tb));
        rewrite usub_range_ok, bind_Ret by (unfold in_range; lia); [eexists; done|].
      apply reduce_budget_succeeds;
        cbn [size budget last_update processed_capacity processed_refill_time
             with_one_time_burst]; [by apply burst_wf|fold dt; lia..].
    - apply reduce_budget_succeeds; fold dt; done || lia. }
  exists tb'. split; [done|]. apply reduce_wf in Hr; [done..|unfold in_range; lia].
Qed.
End Theorems.

(** A fraction in lowest terms is what dividing by the common factor yields. *)
Lemma reduced_fraction a b c d :
  0 < a -> 0 < b -> 0 < d -> a * d = c * b -> Z.gcd a b = 1 ->
  c / Z.gcd c d = a /\ d / Z.gcd c d = b.
Proof.
  intros Ha Hb Hd E Hg.
  assert (a | c) as [k Hk].
  { apply (Z.gauss a b c); [|done]. exists d. lia. }
  assert (d = k * b) as -> by nia. subst c.
  assert (0 < k) by nia.
  rewrite Z.gcd_mul_mono_l_nonneg, Hg, Z.mul_1_r, !(Z.mul_comm k) by lia.
  by rewrite !Z.div_mul by lia.
Qed.

Section LimiterTheorems.
Context `{Profile}.

(** What holds of every limiter the VMM can build and drive: the buckets are
    well formed, and a blocked limiter has a timer programmed. *)
Record limiter_wf (rl : RateLimiter) : Prop := {
  wf_bandwidth : from_option bucket_wf True (bandwidth rl);
  wf_ops : from_option bucket_wf True (ops rl);
  wf_timer : timer_active rl = true -> is_Some (timer_fd rl)
}.

Definition update_wf (u : BucketUpdate) : Prop :=
  match u with Update tb => bucket_wf tb | _ => True end.

(** The operations of the device threads on a limiter. *)
Inductive limiter_step : RateLimiter -> RateLimiter -> Prop :=
| step_consume rl tokens ty clk b rl' :
    in_range 64 tokens -> consume rl tokens ty clk = Ret (b, rl') -> limiter_step rl rl'
| step_replenish rl tokens ty rl' :
    in_range 64 tokens -> manual_replenish rl tokens ty = Ret rl' -> limiter_step rl rl'
| step_event rl n :
    limiter_step rl (RateLimiter_event_handler rl n).2
| step_update rl u1 u2 :
    update_wf u1 -> update_wf u2 -> limiter_step rl (update_buckets rl u1 u2).

Lemma bucket_of_wf rl ty tb : limiter_wf rl -> bucket_of rl ty = Some tb -> bucket_wf tb.
Proof. intros [Hb Ho _] E. destruct ty; cbn in E; rewrite E in *; done. Qed.

Lemma set_bucket_wf rl ty tb : limiter_wf rl -> bucket_wf tb -> limiter_wf (set_bucket rl ty tb).
Proof. intros [] ?. by destruct ty; split. Qed.

Lemma activate_timer_wf rl d : limiter_wf rl -> limiter_wf (activate_timer rl d).
Proof. intros []. by split. Qed.

Lemma force_replenish_wf tb tokens tb' :
  bucket_wf tb -> force_replenish tb tokens = Ret tb' -> bucket_wf tb'.
Proof.
  intros Hwf Hf. pose proof Hwf as []. unfold force_replenish in Hf.
  destruct (_ <? _); apply bind_Ret_inv in Hf as (z & E & Hf);
    apply (arith_range 64) in E; [|done| |done]; exec_inv; [by apply burst_wf|].
  split; cbn; try done. apply min_budget_range; [apply E|lia].
Qed.

Lemma consume_wf rl tokens ty clk b rl' :
  limiter_wf rl -> in_range 64 tokens -> consume rl tokens ty clk = Ret (b, rl') ->
  limiter_wf rl'.
Proof.
  intros Hwf Ht Hc. unfold consume in Hc.
  destruct (timer_active rl) eqn:Ea; [by exec_inv|].
  destruct (bucket_of rl ty) as [tb|] eqn:Eb; [|by exec_inv].
  apply bind_Ret_inv in Hc as ([r tb1] & E & Hc). cbn in Hc.
  apply reduce_wf in E; [|by eapply bucket_of_wf|done].
  assert (limiter_wf (set_bucket rl ty tb1)) by by apply set_bucket_wf.
  destruct r; exec_inv; try done; [destruct (negb _)|]; try done; by apply activate_timer_wf.
Qed.

(** A limiter without buckets grants everything. *)
Definition unlimited (rl : RateLimiter) : Prop := bandwidth rl = None /\ ops rl = None /\ timer_active rl = false.

Lemma unlimited_consume rl n ty clk : unlimited rl -> consume rl n ty clk = Ret (true, rl).
Proof. intros (Hb & Ho & Ht). unfold consume. rewrite Ht. by destruct ty; cbn [bucket_of]; rewrite ?Hb, ?Ho. Qed.

Lemma unlimited_replenish rl n ty : unlimited rl -> manual_replenish rl n ty = Ret rl.
Proof. intros (Hb & Ho & Ht). unfold manual_replenish. by destruct ty; cbn [bucket_of]; rewrite ?Hb, ?Ho. Qed.

(** Without overflow checks no operation on a limiter panics. *)
Lemma arith_release w z : overflow_checks = false -> exists x, arith w z = Ret x.
Proof. intros Hp. unfold arith. rewrite Hp. destruct (in_rangeb w z); by eexists. Qed.

Lemma reduce_returns tb tokens clk : overflow_checks = false -> bucket_wf tb -> exists r, reduce tb tokens clk = Ret r.
Proof.
  intros Hp Hwf. assert (Hsub : forall a b, exists x, usub 64 a b = Ret x) by (intros; by apply arith_release).
  assert (Hrb : forall tb n, processed_refill_time tb <> 0 -> exists r, reduce_budget tb n clk = Ret r).
  { intros t n Hn. unfold reduce_budget, auto_replenish.
    destruct (budget t <? n); [|by destruct (Hsub (budget t) n) as [x ->]; eexists].
    destruct (arith_release 64 (elapsed_ns_u64 t (first_read clk) * processed_capacity (with_last_update t (second_read clk))) Hp) as [x Ex].
    unfold umul. rewrite Ex, bind_Ret. unfold udiv. rewrite (proj2 (Z.eqb_neq _ _)) by done. rewrite bind_Ret.
    destruct (arith_release 64 (budget (with_last_update t (second_read clk)) + x / processed_refill_time (with_last_update t (second_read clk))) Hp) as [y Ey].
    unfold uadd. rewrite Ey, !bind_Ret. repeat case_match; [| by eexists|];
      match goal with |- context [usub 64 ?a ?b] => destruct (Hsub a b) as [z ->] end; by eexists. }
  assert (processed_refill_time tb <> 0) by (destruct Hwf; lia). unfold reduce. repeat case_match; [| |by apply Hrb].
  - destruct (Hsub (one_time_burst tb) tokens) as [x ->]. by eexists.
  - destruct (Hsub tokens (one_time_burst tb)) as [x ->]. rewrite bind_Ret. by apply Hrb.
Qed.

Lemma consume_returns rl tokens ty clk : overflow_checks = false -> limiter_wf rl -> in_range 64 tokens ->
  exists b rl', consume rl tokens ty clk = Ret (b, rl') /\ limiter_wf rl'.
Proof.
  intros Hp Hwf Ht. assert (exists p, consume rl tokens ty clk = Ret p) as [[b rl'] E].
  { unfold consume. destruct (timer_active rl); [by eexists|]. destruct (bucket_of rl ty) as [tb|] eqn:Eb; [|by eexists].
    destruct (reduce_returns tb tokens clk Hp) as [r ->]; [by eapply bucket_of_wf|]. rewrite bind_Ret. case_match; by eexists. }
  exists b, rl'. split; [done|]. by eapply consume_wf.
Qed.

Lemma manual_replenish_returns rl tokens ty : overflow_checks = false -> limiter_wf rl ->
  exists rl', manual_replenish rl tokens ty = Ret rl' /\ limiter_wf rl'.
Proof.
  intros Hp Hwf. unfold manual_replenish. destruct (bucket_of rl ty) as [tb|] eqn:Eb; [|by eexists].
  assert (exists tb', force_replenish tb tokens = Ret tb') as [tb' Et].
  { unfold force_replenish. case_match.
    - destruct (arith_release 64 (one_time_burst tb + tokens) Hp) as [x Ex]. unfold uadd. rewrite Ex. by eexists.
    - destruct (arith_release 64 (budget tb + tokens) Hp) as [x Ex]. unfold uadd. rewrite Ex. by eexists. }
  rewrite Et, bind_Ret. eexists. split; [done|]. apply set_bucket_wf; [done|]. eapply force_replenish_wf; [|done]. by eapply bucket_of_wf.
Qed.

(** Every sequence of limiter operations keeps both buckets within their
    size and never leaves the limiter blocked without a programmed timer. *)
Theorem limiter_invariant rl rl' :
  limiter_wf rl -> rtc limiter_step rl rl' -> limiter_wf rl'.
Proof.
  intros Hwf Hr. induction Hr as [|rl rl1 rl2 Hs _ IH]; [done|]. apply IH. clear IH.
  destruct Hs as [? ? ? ? ? ? ? Hc|? ? ty ? ? Hm|? n|? u1 u2 H1 H2].
  - by eapply consume_wf.
  - unfold manual_replenish in Hm. destruct (bucket_of rl ty) eqn:Eb; [|by exec_inv].
    exec_inv. apply set_bucket_wf; [done|].
    eapply force_replenish_wf; [|done]. by eapply bucket_of_wf.
  - unfold RateLimiter_event_handler. destruct (n =? 0); [done|]. by destruct Hwf; split.
  - destruct Hwf. split; cbn; [by destruct u1|by destruct u2|done].
Qed.

(** [consume] refuses exactly when the limiter is blocked or the bucket
    fails; a refusal leaves it blocked with a timer programmed, a blocked
    limiter is left untouched, an absent bucket always grants, and the timer
    event unblocks. *)
Theorem consume_blocking rl tokens ty clk b rl' :
  limiter_wf rl -> consume rl tokens ty clk = Ret (b, rl') ->
  (b = false -> is_blocked rl' = true /\ is_Some (timer_fd rl')) /\
  (is_blocked rl = true -> b = false /\ rl' = rl) /\
  (is_blocked rl = false -> bucket_of rl ty = None -> b = true /\ rl' = rl) /\
  (is_blocked rl = false -> b = false ->
     timer_fd rl' = Some REFILL_TIMER_INTERVAL_MS) /\
  (forall n, n <> 0 -> is_blocked (RateLimiter_event_handler rl' n).2 = false).
Proof.
  intros Hwf Hc. unfold consume in Hc. unfold is_blocked.
  assert (forall r n, n <> 0 -> timer_active (RateLimiter_event_handler r n).2 = false).
  { intros r n Hn. unfold RateLimiter_event_handler. by rewrite (proj2 (Z.eqb_neq n 0)). }
  destruct (timer_active rl) eqn:Ea.
  { exec_inv. split_and!; intros; try congruence; try by auto.
    split; [done|]. by apply wf_timer. }
  destruct (bucket_of rl ty) as [tb|] eqn:Eb; [|exec_inv; split_and!; intros; by auto].
  apply bind_Ret_inv in Hc as ([r tb1] & E & Hc). cbn in Hc.
  assert (timer_active (set_bucket rl ty tb1) = false) as Ea' by by destruct ty.
  destruct r; exec_inv; [|split_and!; intros; by auto..].
  rewrite Ea'. cbn. split_and!; intros; by eauto.
Qed.

(** A saved bucket restored later keeps its size, refill rate, budget,
    remaining burst and time since the last update (its initial burst is
    replaced by the remaining one). *)
Theorem TokenBucket_persist_roundtrip {IoError} tb now now' now_new :
  bucket_wf tb -> rate_ok tb ->
  0 < refill_time tb -> refill_time tb * NANOSEC_IN_ONE_MILLISEC < 2 ^ 64 ->
  Z.gcd (processed_capacity tb) (processed_refill_time tb) = 1 ->
  0 <= now - last_update tb < 2 ^ 64 -> 0 <= now' ->
  exists tb', @TokenBucket_restore _ IoError (TokenBucket_save tb now) now' now_new = Ret (Ok tb') /\
    tb' = mkTokenBucket (size tb) (one_time_burst tb) (refill_time tb) (one_time_burst tb)
            (budget tb) (now' - (now - last_update tb))
            (processed_capacity tb) (processed_refill_time tb).
Proof.
  intros [] Hrate Hrt Hns Hg Hel Hn'. unfold TokenBucket_restore, TokenBucket_save.
  cbn [st_size st_one_time_burst st_refill_time st_budget st_elapsed_ns].
  rewrite TokenBucket_new_spec by done. rewrite bind_Ret.
  unfold elapsed_ns_u64. rewrite Z.max_r, wrap_id by (unfold in_range; lia).
  rewrite (proj2 (Z.leb_le _ _)) by (unfold INSTANT_MIN_NS; lia).
  eexists. split; [done|]. unfold with_last_update, with_budget.
  cbn [size one_time_burst refill_time budget processed_capacity processed_refill_time initial_one_time_burst].
  unfold rate_ok in Hrate. set (ns := refill_time tb * NANOSEC_IN_ONE_MILLISEC) in *.
  assert (0 < ns) by (unfold ns, NANOSEC_IN_ONE_MILLISEC; lia).
  by destruct (reduced_fraction (processed_capacity tb) (processed_refill_time tb)
                 (size tb) ns) as [-> ->]; [lia..| |].
Qed.
End LimiterTheorems.

(** ** Witnesses and boundary behaviour *)

(** 1 GB/s: one billion and seven bytes every second; the refill fraction does
    not simplify. *)
Definition bucket_1gb : TokenBucket :=
  mkTokenBucket 1000000007 0 1000 0 1000000007 0 1000000007 1000000000.
Definition drained_1gb : TokenBucket := with_budget bucket_1gb 0.
Definition small_bucket : TokenBucket := mkTokenBucket 10 3 1000 3 10 0 1 100000000.

Lemma small_bucket_wf : bucket_wf small_bucket.
Proof. split; unfold in_range; cbn; lia. Qed.
Lemma small_bucket_rate : rate_ok small_bucket.
Proof. done. Qed.

Lemma TokenBucket_new_correct_witness :
  exists o, @TokenBucket_new dev_profile 1000 200 1000 5 = Ret o /\ is_Some o.
Proof.
  destruct (@TokenBucket_new_correct dev_profile 1000 200 1000 5) as (o & Ho & Hs);
    [lia|unfold in_range; lia|lia|unfold NANOSEC_IN_ONE_MILLISEC; lia|].
  exists o. split; [exact Ho|]. destruct o; [by eexists|lia].
Defined.

Definition sample_run : list (Z * Clock) :=
  [(8, mkClock 10 10); (9, mkClock 20 21); (7, mkClock 800000000 800000001)].

Lemma reduce_all_bandwidth_witness :
  granted [Success; Failure; Success] sample_run * (1000 * 1000000) <=
    (3 + 10) * (1000 * 1000000) + 10 * 800000001.
Proof.
  destruct (@reduce_all dev_profile small_bucket sample_run) as [[rs tb']|] eqn:E;
    [|discriminate E].
  pose proof (@reduce_all_bandwidth dev_profile small_bucket sample_run rs tb'
    small_bucket_wf small_bucket_rate) as Hb.
  vm_compute in E. injection E as <- <-.
  apply Hb; [cbn; lia|repeat constructor; cbn; lia|vm_compute; reflexivity].
Defined.

Lemma reduce_succeeds_after_wait_witness :
  exists tb', @reduce dev_profile (with_budget small_bucket 0) 8 (mkClock 900000000 900000001)
              = Ret (Success, tb') /\ bucket_wf tb'.
Proof.
  apply (@reduce_succeeds_after_wait dev_profile (with_budget small_bucket 0)).
  - split; unfold in_range; cbn; lia.
  - done.
  - cbn; lia.
  - cbn; lia.
  - cbn; lia.
  - cbn; lia.
  - vm_compute. done.
  - vm_compute. done.
Defined.

Definition sample_limiter : RateLimiter := mkRateLimiter (Some small_bucket) None None false.

Lemma sample_limiter_wf : limiter_wf sample_limiter.
Proof. split; [apply small_bucket_wf|done|done]. Qed.

Lemma limiter_invariant_witness :
  limiter_wf (mkRateLimiter (Some (with_one_time_burst (with_last_update small_bucket 4) 1))
                None None false).
Proof.
  apply (@limiter_invariant dev_profile sample_limiter); [apply sample_limiter_wf|].
  apply rtc_once. eapply (step_consume _ 2 Bytes (mkClock 4 4) true).
  - unfold in_range. lia.
  - vm_compute. reflexivity.
Defined.

Lemma consume_blocking_witness :
  exists rl', @consume dev_profile sample_limiter 20 Bytes (mkClock 4 4) = Ret (true, rl') /\
    is_blocked rl' = true /\
    exists rl'', @consume dev_profile rl' 1 Bytes (mkClock 5 5) = Ret (false, rl'').
Proof.
  eexists. split; [vm_compute; reflexivity|]. split; [done|].
  eexists. destruct (@consume_blocking dev_profile sample_limiter 20 Bytes (mkClock 4 4) true
    (mkRateLimiter (Some (mkTokenBucket 10 3 1000 0 0 4 1 100000000)) None (Some 700) true))
    as (_ & _ & _ & _ & _); [apply sample_limiter_wf|vm_compute; reflexivity|].
  vm_compute. reflexivity.
Defined.

Lemma TokenBucket_persist_roundtrip_witness :
  exists tb', @TokenBucket_restore dev_profile unit (TokenBucket_save small_bucket 7) 100 101
              = Ret (Ok tb') /\ budget tb' = 10 /\ last_update tb' = 93.
Proof.
  destruct (@TokenBucket_persist_roundtrip dev_profile unit small_bucket 7 100 101
    small_bucket_wf small_bucket_rate) as (tb' & E & ->); [cbn; lia|vm_compute; done|done|cbn; lia|lia|].
  eexists. split; [exact E|done].
Defined.

(** The refill product of a bucket that [new] accepts leaves 64 bits after
    less than nineteen seconds of idling: the request then panics with overflow
    checks, and without them it is refused although the bucket has been idle
    for eighteen complete refill times. *)
Theorem reduce_idle_overflow :
  let clk := mkClock 18446743945 18446743945 in
  @TokenBucket_new dev_profile 1000000007 0 1000 0 = Ret (Some bucket_1gb) /\
  bucket_wf drained_1gb /\ rate_ok drained_1gb /\
  @reduce dev_profile drained_1gb 1 clk = Panic /\
  exists tb', @reduce release_profile drained_1gb 1 clk = Ret (Failure, tb').
Proof.
  cbn zeta. split; [vm_compute; done|]. split; [split; unfold in_range; cbn; lia|].
  split; [done|]. split; [vm_compute; done|]. eexists. vm_compute. reflexivity.
Qed.

(** An operation slightly larger than the bucket succeeds and blocks the
    limiter with a timer programmed for zero milliseconds, which disarms a
    timerfd; nothing then reports the event that unblocks it. *)
Theorem consume_zero_delay :
  exists rl rl',
    @RateLimiter_new dev_profile unit 1000000 0 100 0 0 0 0 0 (Ok tt) = Ret (Ok rl) /\
    @consume dev_profile rl 1000001 Bytes (mkClock 0 0) = Ret (true, rl') /\
    is_blocked rl' = true /\ timer_fd rl' = Some 0.
Proof.
  do 2 eexists. split; [vm_compute; reflexivity|]. split; [vm_compute; reflexivity|]. done.
Qed.
