(* ===== verification/Bus.v ===== *)
(** * The device bus

    Model of [src/firecracker/src/devices/src/bus.rs]: the container that
    routes port-I/O and MMIO accesses to devices by address range.

    The [BTreeMap] keyed by [BusRange] (ordered by base address only) is the
    list of its entries in increasing key order, with the map's insertion.  Its
    values are [Arc<Mutex<dyn BusDevice>>]: shared handles, of the type
    parameter [D].  The states behind the handles are a store from handles to
    [S], so a device inserted under several ranges is one state; the two methods
    of the [BusDevice] trait are the class [BusDevice]. *)

From Stdlib Require Import ZArith Lia Sorted.
From stdpp Require Import functions prelude.
From S2P Require Import Prelude.

(** ** Definitions *)

(** [trait BusDevice]: both methods take an offset into the device's range.
    The trait's default bodies do nothing. *)
Class BusDevice (S : Type) := {
  dev_read : S -> Z -> list Z -> S * list Z;
  dev_write : S -> Z -> list Z -> S
}.

Inductive BusError := Overlap.

Record BusRange := mkBusRange { base : Z; len : Z }.

Section Bus.
Context {D : Type} `{EqDecision D} {S : Type} `{BusDevice S} `{Profile}.

Record Bus := mkBus { devices : list (BusRange * D) }.

Definition Bus_new : Bus := mkBus [].

(** [BTreeMap::insert]: the entries stay sorted; an equal key keeps its place
    (and its old key) and its previous value is returned. *)
Fixpoint btree_insert (k : BusRange) (v : D) (l : list (BusRange * D))
    : option D * list (BusRange * D) :=
  match l with
  | [] => (None, [(k, v)])
  | (k', v') :: l' =>
      if base k <? base k' then (None, (k, v) :: l)
      else if base k =? base k' then (Some v', (k', v) :: l')
      else let r := btree_insert k v l' in (r.1, (k', v') :: r.2)
  end.

(** The first entry, from the largest base down, that starts at or before
    [addr]. *)
Definition first_before (bus : Bus) (addr : Z) : option (BusRange * D) :=
  List.find (fun e => base e.1 <=? addr) (rev (devices bus)).

Definition get_device (bus : Bus) (addr : Z) : exec (option (Z * (BusRange * D))) :=
  match first_before bus addr with
  | Some e =>
      offset ← usub 64 addr (base e.1);
      Ret (if offset <? len e.1 then Some (offset, e) else None)
  | None => Ret None
  end.

(** The tail of [insert]: the map insertion and its error. *)
Definition Bus_insert_entry (bus : Bus) (device : D) (base0 len0 : Z)
    : result unit BusError * Bus :=
  let r := btree_insert (mkBusRange base0 len0) device (devices bus) in
  (match r.1 with Some _ => Err Overlap | None => Ok tt end, mkBus r.2).

Definition Bus_insert (bus : Bus) (device : D) (base0 len0 : Z)
    : exec (result unit BusError * Bus) :=
  if len0 =? 0 then Ret (Err Overlap, bus)
  else
    g ← get_device bus base0;
    match g with
    | Some _ => Ret (Err Overlap, bus)
    | None =>
        end_ ← uadd 64 base0 len0;
        last ← usub 64 end_ 1;
        match first_before bus last with
        | Some e =>
            if base0 <=? base e.1 then Ret (Err Overlap, bus)
            else Ret (Bus_insert_entry bus device base0 len0)
        | None => Ret (Bus_insert_entry bus device base0 len0)
        end
    end.

(** The states of all devices; locking a handle and calling a method runs it
    on the state behind the handle. *)
Definition Bus_read (bus : Bus) (store : D -> S) (addr : Z) (data : list Z)
    : exec (bool * list Z * (D -> S)) :=
  g ← get_device bus addr;
  match g with
  | Some (offset, e) =>
      let r := dev_read (store e.2) offset data in
      Ret (true, r.2, <[e.2 := r.1]> store)
  | None => Ret (false, data, store)
  end.

Definition Bus_write (bus : Bus) (store : D -> S) (addr : Z) (data : list Z)
    : exec (bool * (D -> S)) :=
  g ← get_device bus addr;
  match g with
  | Some (offset, e) => Ret (true, <[e.2 := dev_write (store e.2) offset data]> store)
  | None => Ret (false, store)
  end.
End Bus.
Arguments Bus : clear implicits.

(** ** Specification: a partial function from addresses to devices *)

Definition covers {D} (addr : Z) (e : BusRange * D) : bool :=
  (base e.1 <=? addr) && (addr <? base e.1 + len e.1).

(** The device that owns [addr] and the offset of [addr] in its range. *)
Definition owner {D} (bus : Bus D) (addr : Z) : option (Z * (BusRange * D)) :=
  (fun e => (addr - base e.1, e)) <$> List.find (covers addr) (devices bus).

(** Consecutive ranges are in order, do not overlap, are not empty and lie in
    the 64-bit address space. *)
Definition before {D} (e e' : BusRange * D) : Prop := base e.1 + len e.1 <= base e'.1.
Definition range_ok {D} (e : BusRange * D) : Prop :=
  0 <= base e.1 /\ 0 < len e.1 /\ base e.1 + len e.1 <= 2 ^ 64.
Definition bus_wf {D} (bus : Bus D) : Prop :=
  StronglySorted before (devices bus) /\ Forall range_ok (devices bus).

Definition disjoint_ranges (r r' : BusRange) : Prop :=
  base r + len r <= base r' \/ base r' + len r' <= base r.

(** ** Lemmas *)

Section BusLemmas.
Context {D : Type} `{Profile}.
Implicit Types (bus : Bus D) (l : list (BusRange * D)) (e : BusRange * D).

(** Scanning from the largest base down for a range that starts at or before
    [addr] finds the owner of [addr] if there is one. *)
Lemma find_rev_app {A} (P : A -> bool) (l : list A) (x : A) :
  List.find P (rev (x :: l)) =
    match List.find P (rev l) with Some y => Some y | None => if P x then Some x else None end.
Proof.
  simpl. induction (rev l) as [|y l' IH]; simpl; [done|]. by destruct (P y).
Qed.

Lemma first_before_Some_in l addr e :
  List.find (fun e => base e.1 <=? addr) (rev l) = Some e ->
  e ∈ l /\ base e.1 <= addr.
Proof.
  intros Hf. apply List.find_some in Hf as [Hin Hb].
  apply in_rev in Hin. split; [by apply list_elem_of_In|lia].
Qed.

Lemma first_before_None l addr e :
  List.find (fun e => base e.1 <=? addr) (rev l) = None -> e ∈ l -> addr < base e.1.
Proof.
  intros Hf Hin. apply (List.find_none _ _) with (x := e) in Hf; [lia|].
  apply -> in_rev. by apply list_elem_of_In.
Qed.

(** The entry found is the last one that starts at or before [addr]. *)
Lemma first_before_last l addr e e' :
  StronglySorted before l -> Forall range_ok l ->
  List.find (fun e => base e.1 <=? addr) (rev l) = Some e -> e' ∈ l ->
  e' = e \/ before e' e \/ addr < base e'.1.
Proof.
  intros Hs. induction Hs as [|x l Hs IH Hx]; intros Hr Hf Hin; [by apply elem_of_nil in Hin|].
  inversion Hr as [|? ? Hx0 Hr']; subst. rewrite find_rev_app in Hf.
  rewrite Forall_forall in Hx.
  destruct (List.find _ (rev l)) as [y|] eqn:E.
  - simplify_eq. apply elem_of_cons in Hin as [->|Hin]; [|by apply IH].
    right; left. apply Hx. by apply first_before_Some_in in E as [? _].
  - destruct (base x.1 <=? addr) eqn:?; simplify_eq.
    apply elem_of_cons in Hin as [->|Hin]; [by left|].
    right; right. by eapply first_before_None.
Qed.

Lemma find_covers_Some l addr e :
  StronglySorted before l -> Forall range_ok l ->
  List.find (covers addr) l = Some e <-> e ∈ l /\ covers addr e = true.
Proof.
  intros Hs Hr. split.
  - intros Hf. apply List.find_some in Hf as [? ?]. split; [by apply list_elem_of_In|done].
  - induction Hs as [|x l Hs IH Hx]; intros [Hin Hc]; [by apply elem_of_nil in Hin|].
    inversion Hr as [|? ? Hx0 Hr']; subst. rewrite Forall_forall in Hx.
    apply elem_of_cons in Hin as [->|Hin]; simpl; [by rewrite Hc|].
    destruct (covers addr x) eqn:E; [|by apply IH]. exfalso.
    specialize (Hx _ Hin). unfold covers, before, range_ok in *. lia.
Qed.

(** [get_device] computes the owner and does not panic. *)
Lemma get_device_owner bus addr :
  bus_wf bus -> in_range 64 addr -> get_device bus addr = Ret (owner bus addr).
Proof.
  intros [Hs Hr] Ha. unfold get_device, first_before, owner.
  destruct (List.find _ (rev _)) as [e|] eqn:E.
  - pose proof (first_before_Some_in _ _ _ E) as [Hin Hb].
    rewrite Forall_forall in Hr. pose proof (Hr _ Hin) as (? & ? & ?).
    rewrite usub_ok by (unfold in_range in *; lia). rewrite bind_Ret. f_equal.
    destruct (Z.ltb_spec (addr - base e.1) (len e.1)).
    + rewrite (proj2 (find_covers_Some _ addr e Hs ltac:(by apply Forall_forall))); [done|].
      split; [done|]. unfold covers. lia.
    + destruct (List.find (covers addr) _) as [e'|] eqn:E'; [|done].
      apply find_covers_Some in E' as [Hin' Hc]; [|done|by apply Forall_forall].
      destruct (first_before_last _ _ _ _ Hs ltac:(by apply Forall_forall) E Hin')
        as [->|[Hbf|Hlt]]; unfold covers, before in *; lia.
  - destruct (List.find (covers addr) _) as [e'|] eqn:E'; [|done].
    apply find_covers_Some in E' as [Hin' Hc]; [|done..].
    pose proof (first_before_None _ _ _ E Hin'). unfold covers in Hc. lia.
Qed.
End BusLemmas.

Section Insert.
Context {D : Type} `{Profile}.
Implicit Types (bus : Bus D) (l : list (BusRange * D)) (e : BusRange * D).

Definition apart (r : BusRange) (e : BusRange * D) : Prop := disjoint_ranges r e.1.

(** Inserting a range apart from all others keeps the list sorted. *)
Lemma btree_insert_spec k v l :
  StronglySorted before l -> Forall range_ok l -> range_ok (k, v) ->
  Forall (apart k) l ->
  (btree_insert k v l).1 = None /\
  StronglySorted before (btree_insert k v l).2 /\
  (btree_insert k v l).2 ≡ₚ (k, v) :: l.
Proof.
  intros Hs Hr Hk Ha. induction Hs as [|[k' v'] l Hs IH Hx]; simpl.
  { split; [done|]. split; [by repeat constructor|done]. }
  inversion Hr as [|? ? Hk' Hr']; inversion Ha as [|? ? Ha' Har]; subst.
  rewrite Forall_forall in Hx. unfold range_ok, apart, disjoint_ranges in *. cbn in *.
  destruct (Z.ltb_spec (base k) (base k')).
  { cbn. split; [done|]. split; [|done]. constructor; [by constructor; [|apply Forall_forall]|].
    constructor; [unfold before; cbn; lia|]. apply Forall_forall. intros e He.
    specialize (Hx _ He). unfold before in *. cbn in *. lia. }
  rewrite (proj2 (Z.eqb_neq _ _)) by lia. cbn.
  destruct (IH Hr' Har) as (E1 & E2 & E3). split; [done|]. split.
  - constructor; [done|]. rewrite E3. constructor; [unfold before; cbn; lia|].
    by apply Forall_forall.
  - rewrite E3. constructor.
Qed.

(** The two look-ups of [insert] accept a range exactly when it is apart from
    every range already present. *)
Lemma insert_checks bus base0 len0 :
  bus_wf bus -> 0 <= base0 -> 0 < len0 -> base0 + len0 < 2 ^ 64 ->
  owner bus base0 = None ->
  (match first_before bus (base0 + len0 - 1) with
   | Some e => (base0 <=? base e.1) = false | None => True end) <->
  Forall (apart (mkBusRange base0 len0)) (devices bus).
Proof.
  intros [Hs Hr] Hb Hl He Ho. unfold owner in Ho. apply fmap_None in Ho.
  assert (forall e, e ∈ devices bus -> covers base0 e = false) as Hnc.
  { intros e Hin. eapply List.find_none; [done|by apply list_elem_of_In]. }
  rewrite Forall_forall. unfold first_before, apart, disjoint_ranges. cbn.
  rewrite Forall_forall in Hr.
  destruct (List.find _ (rev _)) as [e|] eqn:E.
  - pose proof (first_before_Some_in _ _ _ E) as [Hin Hle].
    split.
    + intros Hlt e' Hin'. pose proof (Hnc _ Hin'). pose proof (Hr _ Hin').
      destruct (first_before_last _ _ _ _ Hs ltac:(by apply Forall_forall) E Hin')
        as [->|[Hbf|?]]; unfold covers, before, range_ok in *; [lia| |lia].
      pose proof (Hr _ Hin). pose proof (Hnc _ Hin). lia.
    + intros Ha. specialize (Ha _ Hin). pose proof (Hr _ Hin). unfold range_ok in *. lia.
  - split; [|done]. intros _ e' Hin'. pose proof (first_before_None _ _ _ E Hin'). lia.
Qed.
Lemma Bus_insert_entry_apart bus (d : D) base0 len0 :
  bus_wf bus -> 0 <= base0 -> 0 < len0 -> base0 + len0 < 2 ^ 64 ->
  Forall (apart (mkBusRange base0 len0)) (devices bus) ->
  exists bus', Bus_insert_entry bus d base0 len0 = (Ok tt, bus') /\ bus_wf bus' /\
    forall addr, owner bus' addr =
      if (base0 <=? addr) && (addr <? base0 + len0)
      then Some (addr - base0, (mkBusRange base0 len0, d)) else owner bus addr.
Proof.
  intros [Hs Hr] Hb Hl He Ha. unfold Bus_insert_entry.
  destruct (btree_insert_spec (mkBusRange base0 len0) d (devices bus)) as (E1 & E2 & E3);
    [done|done|unfold range_ok; cbn; lia|done|].
  rewrite E1. eexists. split; [done|].
  assert (Forall range_ok (btree_insert (mkBusRange base0 len0) d (devices bus)).2) as Hr'.
  { rewrite E3. constructor; [unfold range_ok; cbn; lia|done]. }
  split; [done|]. intros addr. unfold owner. cbn [devices].
  destruct (_ && _) eqn:Ec.
  - rewrite (proj2 (find_covers_Some _ addr (mkBusRange base0 len0, d) E2 Hr')); [done|].
    rewrite E3. split; [apply elem_of_cons; by left|done].
  - f_equal. apply option_eq. intros e. rewrite !find_covers_Some, E3, elem_of_cons by done.
    split; [|by intros [? ?]; auto]. intros [[->|?] Hc]; [|done].
    unfold covers in Hc. cbn in Hc. congruence.
Qed.
End Insert.

(** ** Theorems *)

Section Theorems.
Context {D : Type} `{EqDecision D} {S : Type} `{BusDevice S} `{Profile}.
Implicit Types (bus : Bus D).

Lemma owner_None_apart bus base0 len0 :
  bus_wf bus -> 0 < len0 -> Forall (apart (mkBusRange base0 len0)) (devices bus) ->
  owner bus base0 = None.
Proof.
  intros [Hs Hr] Hl Ha. unfold owner. destruct (List.find _ _) as [e|] eqn:E; [|done].
  apply find_covers_Some in E as [Hin Hc]; [|done..]. rewrite Forall_forall in Ha, Hr.
  specialize (Ha _ Hin). specialize (Hr _ Hin).
  unfold covers, apart, disjoint_ranges, range_ok in *. cbn in *. lia.
Qed.

(** Look-up is exact: on a well-formed bus [get_device] never panics and
    returns a device and offset exactly when the address lies in that device's
    range, the offset being the distance from the range's base. *)
Theorem get_device_exact bus addr offset e :
  bus_wf bus -> in_range 64 addr ->
  exists o, get_device bus addr = Ret o /\
    (o = Some (offset, e) <->
     e ∈ devices bus /\ base e.1 <= addr < base e.1 + len e.1 /\ offset = addr - base e.1).
Proof.
  intros Hwf Ha. exists (owner bus addr). split; [by apply get_device_owner|].
  destruct Hwf as [Hs Hr]. unfold owner. split.
  - intros Ho. apply fmap_Some in Ho as (e' & Hf & Ho). simplify_eq.
    apply find_covers_Some in Hf as [? Hc]; [|done..]. unfold covers in Hc. split_and!; [done|lia..].
  - intros (Hin & Hc & ->). rewrite (proj2 (find_covers_Some _ addr e Hs Hr)); [done|].
    split; [done|]. unfold covers. lia.
Qed.

(** C36: insertion refines disjoint union of address ranges: on a well-formed
    bus, for a range that ends below 2^64, [insert] does not panic, fails with [Overlap] and no effect exactly when
    the range is empty or meets an existing one, and otherwise yields a
    well-formed bus that routes the new range to the new device and every other
    address as before. *)
Theorem Bus_insert_refines bus d base0 len0 :
  bus_wf bus -> 0 <= base0 -> 0 <= len0 -> base0 + len0 < 2 ^ 64 ->
  exists r bus', Bus_insert bus d base0 len0 = Ret (r, bus') /\ bus_wf bus' /\
    ((r = Err Overlap /\ bus' = bus /\
      (len0 = 0 \/ ~ Forall (apart (mkBusRange base0 len0)) (devices bus))) \/
     (r = Ok tt /\ len0 <> 0 /\ Forall (apart (mkBusRange base0 len0)) (devices bus) /\
      forall addr, owner bus' addr =
        if (base0 <=? addr) && (addr <? base0 + len0)
        then Some (addr - base0, (mkBusRange base0 len0, d)) else owner bus addr)).
Proof.
  intros Hwf Hb Hl He. unfold Bus_insert.
  destruct (Z.eqb_spec len0 0) as [->|Hl0]; [do 2 eexists; split; [done|]; eauto 10|].
  rewrite get_device_owner, bind_Ret by (unfold in_range; done || lia).
  destruct (owner bus base0) as [o|] eqn:Eo.
  { do 2 eexists. split; [done|]. split; [done|]. left. split_and!; [done..|]. right. intros Ha.
    apply owner_None_apart in Ha; [congruence|done|lia]. }
  rewrite uadd_ok, bind_Ret by (unfold in_range; lia).
  rewrite usub_ok, bind_Ret by (unfold in_range; lia).
  pose proof (insert_checks bus base0 len0 Hwf Hb ltac:(lia) He Eo) as Hck.
  pose proof (Bus_insert_entry_apart bus d base0 len0 Hwf Hb ltac:(lia) He) as Hins.
  destruct (first_before bus (base0 + len0 - 1)) as [e|]; [destruct (base0 <=? base e.1)|];
    cbn in Hck.
  - do 2 eexists. split; [done|]. split; [done|]. left. split_and!; [done..|]. right.
    intros Ha. apply Hck in Ha. done.
  - apply proj1 in Hck. specialize (Hck eq_refl).
    destruct (Hins Hck) as (bus' & E & Hwf' & Ho). rewrite E. by eauto 10.
  - apply proj1 in Hck. specialize (Hck I).
    destruct (Hins Hck) as (bus' & E & Hwf' & Ho). rewrite E. by eauto 10.
Qed.

(** An access on a well-formed bus reaches exactly the device that owns
    the address: it runs that device's method at the offset, leaves every other
    device as it was, and reports failure with no effect when no device owns the
    address. *)
Theorem Bus_access_routes bus (store : D -> S) addr data :
  bus_wf bus -> in_range 64 addr ->
  match owner bus addr with
  | Some (offset, e) =>
      exists store_r store_w data',
        Bus_read bus store addr data = Ret (true, data', store_r) /\
        Bus_write bus store addr data = Ret (true, store_w) /\
        dev_read (store e.2) offset data = (store_r e.2, data') /\
        store_w e.2 = dev_write (store e.2) offset data /\
        (forall d, d <> e.2 -> store_r d = store d /\ store_w d = store d)
  | None =>
      Bus_read bus store addr data = Ret (false, data, store) /\
      Bus_write bus store addr data = Ret (false, store)
  end.
Proof.
  intros Hwf Ha. unfold Bus_read, Bus_write. rewrite !get_device_owner, !bind_Ret by done.
  destruct (owner bus addr) as [[offset e]|]; [|done].
  do 3 eexists. split; [done|]. split; [done|]. rewrite !fn_lookup_insert.
  split; [by destruct (dev_read _ _ _)|]. split; [done|].
  intros d Hd. by rewrite !fn_lookup_insert_ne.
Qed.
End Theorems.

(** ** Witnesses *)

(** A device that stores the last byte written and returns its offset. *)
#[local] Instance scratch_device : BusDevice Z := {
  dev_read s offset data := (s, (fun _ => offset) <$> data);
  dev_write s offset data := default s (last data)
}.

Definition sample_bus : Bus nat :=
  mkBus [(mkBusRange 16 16, 0%nat); (mkBusRange 64 8, 1%nat)].

Lemma sample_bus_wf : bus_wf sample_bus.
Proof.
  split; repeat constructor; unfold before, range_ok; cbn; lia.
Qed.

Lemma get_device_exact_witness :
  exists o, @get_device nat dev_profile sample_bus 66 = Ret o /\
            o = Some (2, (mkBusRange 64 8, 1%nat)).
Proof.
  destruct (@get_device_exact nat dev_profile sample_bus 66 2 (mkBusRange 64 8, 1%nat))
    as (o & Ho & Hiff); [apply sample_bus_wf|unfold in_range; lia|].
  exists o. split; [exact Ho|]. apply Hiff. cbn. split; [by right; left|lia].
Defined.

Lemma Bus_insert_refines_witness :
  exists bus', @Bus_insert nat dev_profile sample_bus 2%nat 32 8 = Ret (Ok tt, bus') /\
               owner bus' 35 = Some (3, (mkBusRange 32 8, 2%nat)).
Proof.
  destruct (@Bus_insert_refines nat dev_profile sample_bus 2%nat 32 8)
    as (r & bus' & E & Hwf & Hr); [apply sample_bus_wf|lia..|].
  exists bus'. destruct Hr as [(-> & _ & [?|Hn])|(-> & _ & _ & Ho)]; [lia| |].
  - exfalso. apply Hn. repeat constructor; unfold apart, disjoint_ranges; cbn; lia.
  - split; [exact E|]. by rewrite Ho.
Defined.

Lemma Bus_access_routes_witness :
  exists store', @Bus_write nat _ Z _ dev_profile sample_bus (fun _ => 0) 17 [7]
                 = Ret (true, store') /\ store' 0%nat = 7 /\ store' 1%nat = 0.
Proof.
  pose proof (@Bus_access_routes nat _ Z _ dev_profile sample_bus (fun _ => 0) 17 [7]
    sample_bus_wf ltac:(unfold in_range; lia)) as Hr.
  cbn in Hr. destruct Hr as (sr & sw & d & _ & Hw & _ & E & Hf).
  exists sw. split; [exact Hw|]. split; [exact E|]. by apply Hf.
Defined.
