(* ===== verification/GuestMemory.v ===== *)
(** * Guest memory

    The interface of the guest's physical memory that the devices rely on.  The
    memory itself is the upstream [vm-memory] crate, re-exported by
    [src/firecracker/src/vm-memory/src/lib.rs]; here it is a class: a
    byte-addressed memory in which some addresses are backed (there may be holes,
    such as the MMIO gap) with a write operation, and the laws that crate
    documents.  The typed accesses ([read_obj], [write_obj], [checked_offset],
    [address_in_range]) are derived from it.

    The regions the memory is made of, which the vsock device accesses directly,
    are a second interface, [GuestRegions].

    A concrete instance over finite maps shows the laws can hold and lets
    examples evaluate. *)

From Stdlib Require Import ZArith Lia.
From stdpp Require Import prelude gmap.
From S2P Require Import Prelude.

(** ** The interface *)

Class GuestMemory (M : Type) := {
  GuestMemoryError : Type;
  (** The byte at an address, [None] where no region backs it. *)
  byte_at : M -> Z -> option Z;
  (** [Bytes::write_slice]. *)
  write_bytes : M -> Z -> list Z -> result unit GuestMemoryError * M;

  byte_at_range m a b : byte_at m a = Some b -> in_range 64 a /\ byte_ok b;
  (** A write succeeds exactly when every byte it covers is backed. *)
  write_succeeds m a l :
    bytes_ok l ->
    (write_bytes m a l).1 = Ok tt <->
    (forall i : nat, (i < length l)%nat -> is_Some (byte_at m (a + Z.of_nat i)));
  (** A successful write changes the bytes it covers and nothing else. *)
  write_byte_at m a l x :
    bytes_ok l -> (write_bytes m a l).1 = Ok tt ->
    byte_at (write_bytes m a l).2 x =
      if (a <=? x) && (x <? a + Z.of_nat (length l))
      then l !! Z.to_nat (x - a) else byte_at m x;
  (** No write, successful or not, changes which addresses are backed. *)
  write_mapped m a l x :
    bytes_ok l ->
    is_Some (byte_at (write_bytes m a l).2 x) <-> is_Some (byte_at m x);
  (** A write that fails may have changed only bytes it covers. *)
  write_failed m a l x :
    bytes_ok l -> (write_bytes m a l).1 <> Ok tt -> x < a \/ a + Z.of_nat (length l) <= x ->
    byte_at (write_bytes m a l).2 x = byte_at m x
}.

Section Access.
Context {M : Type} `{GuestMemory M}.

Definition address_in_range (m : M) (a : Z) : bool := bool_decide (is_Some (byte_at m a)).

(** [GuestMemory::checked_offset]. *)
Definition checked_offset (m : M) (a off : Z) : option Z :=
  match checked_add 64 a off with
  | Some a' => if address_in_range m a' then Some a' else None
  | None => None
  end.

Fixpoint read_bytes (m : M) (a : Z) (n : nat) : option (list Z) :=
  match n with
  | O => Some []
  | S n =>
      match byte_at m a, read_bytes m (a + 1) n with
      | Some b, Some l => Some (b :: l)
      | _, _ => None
      end
  end.

(** [Bytes::read_obj] and [Bytes::write_obj] for the [n]-byte unsigned
    integers. *)
Definition read_obj (n : nat) (m : M) (a : Z) : option Z := le_decode <$> read_bytes m a n.
Definition write_obj (n : nat) (m : M) (v a : Z) : result unit GuestMemoryError * M :=
  write_bytes m a (le_encode n v).

(** All of [len] bytes from [a] are backed. *)
Definition backed (m : M) (a len : Z) : Prop :=
  forall x, a <= x < a + len -> is_Some (byte_at m x).

(** Guest memory that is one region from address zero. *)
Definition flat (m : M) (limit : Z) : Prop :=
  forall x, is_Some (byte_at m x) <-> 0 <= x < limit.
End Access.

(** ** Derived laws *)

Lemma checked_add_inv w a b r : checked_add w a b = Some r -> r = a + b.
Proof. unfold checked_add. destruct (in_rangeb _ _); [|done]. by intros [= <-]. Qed.

Section Laws.
Context {M : Type} `{GuestMemory M}.
Implicit Types m : M.

Lemma address_in_range_spec m a : address_in_range m a = true <-> is_Some (byte_at m a).
Proof. unfold address_in_range. apply bool_decide_eq_true. Qed.

Lemma read_bytes_backed m a (n : nat) :
  backed m a (Z.of_nat n) -> exists l, read_bytes m a n = Some l /\ length l = n /\ bytes_ok l.
Proof.
  revert a. induction n as [|n IH]; intros a Hb; simpl.
  { exists []. split; [done|]. split; [done|constructor]. }
  destruct (Hb a ltac:(lia)) as [b Eb]. rewrite Eb.
  destruct (IH (a + 1)) as (l & -> & Hl & Hok); [intros x ?; apply Hb; lia|].
  exists (b :: l). split; [done|]. split; [simpl; lia|].
  constructor; [by apply byte_at_range in Eb as [? ?]|done].
Qed.

Lemma read_obj_backed m a (n : nat) :
  backed m a (Z.of_nat n) ->
  exists v, read_obj n m a = Some v /\ 0 <= v < 256 ^ Z.of_nat n.
Proof.
  intros Hb. destruct (read_bytes_backed m a n Hb) as (l & El & Hl & Hok).
  exists (le_decode l). unfold read_obj. rewrite El. split; [done|].
  rewrite <- Hl. by apply le_decode_range.
Qed.

Lemma read_obj_range m a (n : nat) v :
  read_obj n m a = Some v -> 0 <= v < 256 ^ Z.of_nat n.
Proof.
  unfold read_obj. intros E. apply fmap_Some in E as (l & E & ->). revert a l E.
  induction n as [|n IH]; intros a l E; simpl in E; [by simplify_eq|].
  destruct (byte_at m a) as [b|] eqn:Eb; [|done].
  destruct (read_bytes m (a + 1) n) as [l'|] eqn:El; [|done]. simplify_eq.
  apply IH in El. apply byte_at_range in Eb as [_ Hb]. unfold byte_ok in Hb.
  simpl le_decode. rewrite Nat2Z.inj_succ, Z.pow_succ_r by lia. lia.
Qed.

Lemma write_obj_backed m a (n : nat) v :
  backed m a (Z.of_nat n) -> (write_obj n m v a).1 = Ok tt.
Proof.
  intros Hb. apply write_succeeds; [apply le_encode_ok|].
  rewrite length_le_encode. intros i Hi. apply Hb. lia.
Qed.

Lemma write_obj_mapped m a (n : nat) v x :
  is_Some (byte_at (write_obj n m v a).2 x) <-> is_Some (byte_at m x).
Proof. apply write_mapped, le_encode_ok. Qed.

Lemma write_obj_backed_iff m a (n : nat) v a' len :
  backed (write_obj n m v a).2 a' len <-> backed m a' len.
Proof. unfold backed. by setoid_rewrite write_obj_mapped. Qed.

Lemma write_other m a l x :
  bytes_ok l -> x < a \/ a + Z.of_nat (length l) <= x -> byte_at (write_bytes m a l).2 x = byte_at m x.
Proof.
  intros Hok Hx. destruct (write_bytes m a l).1 as [[]|e] eqn:E; [|apply write_failed; [done|by rewrite E|done]].
  rewrite write_byte_at by done. by replace (_ && _) with false by lia.
Qed.

(** Bytes outside the written range are unchanged. *)
Lemma write_obj_other m a (n : nat) v x :
  (write_obj n m v a).1 = Ok tt -> x < a \/ a + Z.of_nat n <= x ->
  byte_at (write_obj n m v a).2 x = byte_at m x.
Proof.
  intros Hw Hx. unfold write_obj in *.
  rewrite write_byte_at, length_le_encode by (done || apply le_encode_ok).
  by replace (_ && _) with false by lia.
Qed.

Lemma read_bytes_ext m m' a (n : nat) :
  (forall x, a <= x < a + Z.of_nat n -> byte_at m' x = byte_at m x) ->
  read_bytes m' a n = read_bytes m a n.
Proof.
  revert a. induction n as [|n IH]; intros a Hx; simpl; [done|].
  rewrite Hx by lia. rewrite IH; [done|]. intros x ?. apply Hx. lia.
Qed.

Lemma read_bytes_ok m a n l : read_bytes m a n = Some l -> length l = n /\ bytes_ok l.
Proof.
  revert a l. induction n as [|n IH]; intros a l; simpl; [intros [= <-]; split; [done|constructor]|].
  destruct (byte_at m a) as [b|] eqn:Eb; [|done].
  destruct (read_bytes m (a + 1) n) as [l'|] eqn:El; [|done]. intros [= <-].
  apply IH in El as [<- Hl]. apply byte_at_range in Eb as [_ Hb]. split; [done|by constructor].
Qed.

Lemma read_bytes_at m a n l (i : nat) : read_bytes m a n = Some l -> (i < n)%nat -> byte_at m (a + Z.of_nat i) = l !! i.
Proof.
  revert a l i. induction n as [|n IH]; intros a l i E Hi; simpl in E; [lia|]. destruct (byte_at m a) as [b|] eqn:Eb; [|done].
  destruct (read_bytes m (a + 1) n) as [l'|] eqn:El; [|done]. injection E as <-. destruct i as [|i]; [by rewrite Z.add_0_r|].
  change ((b :: l') !! S i) with (l' !! i). rewrite <-(IH (a + 1) l' i El) by lia. f_equal. lia.
Qed.

(** A read disjoint from a write sees the memory before it. *)
Lemma read_write_disjoint m a (n : nat) v a' (n' : nat) :
  (write_obj n m v a).1 = Ok tt ->
  a' + Z.of_nat n' <= a \/ a + Z.of_nat n <= a' ->
  read_obj n' (write_obj n m v a).2 a' = read_obj n' m a'.
Proof.
  intros Hw Hd. unfold read_obj. f_equal. apply read_bytes_ext.
  intros x Hx. apply write_obj_other; [done|lia].
Qed.

Lemma read_bytes_lookup m a l :
  (forall i : nat, (i < length l)%nat -> byte_at m (a + Z.of_nat i) = l !! i) ->
  read_bytes m a (length l) = Some l.
Proof.
  revert a. induction l as [|b l IH]; intros a Hx; simpl; [done|].
  pose proof (Hx 0%nat ltac:(simpl; lia)) as E0. rewrite Z.add_0_r in E0. rewrite E0. simpl.
  rewrite IH; [done|]. intros i Hi. specialize (Hx (S i) ltac:(simpl; lia)).
  replace (a + 1 + Z.of_nat i) with (a + Z.of_nat (S i)) by lia. done.
Qed.

(** A read of what was just written returns it, truncated to its width. *)
Lemma read_write_same m a (n : nat) v :
  (write_obj n m v a).1 = Ok tt ->
  read_obj n (write_obj n m v a).2 a = Some (v mod 256 ^ Z.of_nat n).
Proof.
  intros Hw. unfold read_obj. rewrite <- le_decode_encode.
  pose proof (read_bytes_lookup (write_obj n m v a).2 a (le_encode n v)) as E.
  rewrite length_le_encode in E. rewrite E; [done|].
  intros i Hi. unfold write_obj in *.
  rewrite write_byte_at, length_le_encode by (done || apply le_encode_ok).
  replace (_ && _) with true by lia. f_equal. lia.
Qed.
End Laws.

#[export] Hint Resolve write_obj_backed : rust.

(** ** Memories that differ only in places *)

(** [m'] is [m] but for addresses in [F]. *)
Definition agrees {M} `{GuestMemory M} (F : Z -> Prop) (m m' : M) : Prop :=
  (forall x, ~ F x -> byte_at m' x = byte_at m x) /\ forall x, is_Some (byte_at m' x) <-> is_Some (byte_at m x).

(** The addresses of [n] bytes from [a]. *)
Definition span (a n x : Z) : Prop := a <= x < a + n.

Section Agrees.
Context {M : Type} `{GuestMemory M}.
Implicit Types m : M.

Lemma agrees_refl F m : agrees F m m.
Proof. by split. Qed.

Lemma agrees_trans F m1 m2 m3 : agrees F m1 m2 -> agrees F m2 m3 -> agrees F m1 m3.
Proof. intros [A1 B1] [A2 B2]. split; [intros x Hx; by rewrite A2, A1|intros x; by rewrite B2, B1]. Qed.

Lemma agrees_weaken (F G : Z -> Prop) m m' : (forall x, F x -> G x) -> agrees F m m' -> agrees G m m'.
Proof. intros Hw [A B]. split; [|done]. intros x Hx. apply A. auto. Qed.

Lemma agrees_backed F m m' a n : agrees F m m' -> backed m a n -> backed m' a n.
Proof. intros [_ B] Hb x Hx. apply B, Hb, Hx. Qed.

Lemma agrees_read F m m' a n : agrees F m m' -> (forall x, span a (Z.of_nat n) x -> ~ F x) ->
  read_bytes m' a n = read_bytes m a n.
Proof. intros [A _] Hd. apply read_bytes_ext. intros x Hx. apply A, Hd. unfold span. lia. Qed.

Lemma agrees_read_obj F m m' a n : agrees F m m' -> (forall x, span a (Z.of_nat n) x -> ~ F x) ->
  read_obj n m' a = read_obj n m a.
Proof. intros Ha Hd. unfold read_obj. by rewrite (agrees_read F m m'). Qed.

Lemma agrees_write m a l : bytes_ok l -> agrees (span a (Z.of_nat (length l))) m (write_bytes m a l).2.
Proof.
  intros Hok. split; [|intros x; by apply write_mapped]. intros x Hx. apply write_other; [done|]. unfold span in Hx. lia.
Qed.
End Agrees.

(** ** Regions

    [GuestMemory::check_range], [GuestMemory::to_region_addr] (the start and the
    length of the region an address lies in) and the error that an access outside
    guest memory reports. *)

Class GuestRegions (M : Type) `{GuestMemory M} := {
  check_range : M -> Z -> Z -> bool;
  region_of : M -> Z -> option (Z * Z);
  access_error : M -> Z -> Z -> GuestMemoryError;

  check_range_spec m a len : 0 < len -> check_range m a len = true <-> backed m a len;
  region_of_spec m a start len :
    region_of m a = Some (start, len) -> start <= a < start + len /\ backed m start len;
  region_of_same m a start len x :
    region_of m a = Some (start, len) -> start <= x < start + len ->
    region_of m x = Some (start, len)
}.

(** ** A concrete memory *)

(** Bytes by address; an address outside 64 bits is never backed. *)
Definition map_byte_at (m : gmap Z Z) (a : Z) : option Z :=
  if in_rangeb 64 a then (fun b => b mod 256) <$> m !! a else None.

Fixpoint map_store (m : gmap Z Z) (a : Z) (l : list Z) : gmap Z Z :=
  match l with
  | [] => m
  | b :: l => map_store (<[a := b]> m) (a + 1) l
  end.

Fixpoint map_backed (m : gmap Z Z) (a : Z) (n : nat) : bool :=
  match n with
  | O => true
  | S n => match map_byte_at m a with Some _ => map_backed m (a + 1) n | None => false end
  end.

Definition map_write (m : gmap Z Z) (a : Z) (l : list Z) : result unit unit * gmap Z Z :=
  if map_backed m a (length l) then (Ok tt, map_store m a l) else (Err tt, m).

Lemma map_backed_spec m a n :
  map_backed m a n = true <->
  (forall i : nat, (i < n)%nat -> is_Some (map_byte_at m (a + Z.of_nat i))).
Proof.
  revert a. induction n as [|n IH]; intros a; simpl; [split; [lia|done]|].
  destruct (map_byte_at m a) as [b|] eqn:E.
  - rewrite IH. split; intros Hb i Hi.
    + destruct i as [|i]; [rewrite Z.add_0_r; by exists b|].
      replace (a + Z.of_nat (S i)) with (a + 1 + Z.of_nat i) by lia. apply Hb. lia.
    + replace (a + 1 + Z.of_nat i) with (a + Z.of_nat (S i)) by lia. apply Hb. lia.
  - split; [done|]. intros Hb. specialize (Hb 0%nat ltac:(lia)).
    rewrite Z.add_0_r, E in Hb. by destruct Hb.
Qed.

Lemma map_store_lookup m a l x :
  map_store m a l !! x =
    if (a <=? x) && (x <? a + Z.of_nat (length l)) then l !! Z.to_nat (x - a) else m !! x.
Proof.
  revert m a. induction l as [|b l IH]; intros m a; simpl.
  { change (Z.of_nat 0) with 0. destruct (_ && _) eqn:E; [lia|done]. }
  rewrite IH. destruct (Z.eqb_spec a x) as [->|Hne].
  - rewrite lookup_insert_eq.
    destruct (Z.leb_spec (x + 1) x); [lia|]. destruct (Z.leb_spec x x); [|lia].
    destruct (Z.ltb_spec x (x + Z.of_nat (S (length l)))); [|lia].
    cbn. by replace (Z.to_nat (x - x)) with 0%nat by lia.
  - rewrite lookup_insert_ne by done.
    destruct (Z.leb_spec (a + 1) x), (Z.leb_spec a x),
      (Z.ltb_spec x (a + 1 + Z.of_nat (length l))),
      (Z.ltb_spec x (a + Z.of_nat (S (length l)))); try lia; cbn; try done.
    by replace (Z.to_nat (x - a)) with (S (Z.to_nat (x - (a + 1)))) by lia.
Qed.

#[export] Instance map_memory : GuestMemory (gmap Z Z).
Proof.
  refine {| GuestMemoryError := unit; byte_at := map_byte_at; write_bytes := map_write |}.
  - intros m a b. unfold map_byte_at. destruct (in_rangeb 64 a) eqn:E; [|done].
    intros Hb. apply fmap_Some in Hb as (c & _ & ->).
    split; [by apply in_rangeb_spec|]. apply Z.mod_pos_bound. lia.
  - intros m a l _. unfold map_write. rewrite <- map_backed_spec.
    by destruct (map_backed m a (length l)).
  - intros m a l x Hok. unfold map_write.
    destruct (map_backed m a (length l)) eqn:E; [|done]. intros _. cbn.
    unfold map_byte_at at 1. rewrite map_store_lookup.
    destruct (_ && _) eqn:Ex; [|done].
    assert (is_Some (l !! Z.to_nat (x - a))) as [b Eb] by (apply lookup_lt_is_Some; lia).
    rewrite Eb. cbn. apply (Forall_lookup_1 _ _ _ _ Hok) in Eb as Hb. unfold byte_ok in Hb.
    rewrite map_backed_spec in E. specialize (E (Z.to_nat (x - a)) ltac:(lia)).
    replace (a + Z.of_nat (Z.to_nat (x - a))) with x in E by lia.
    unfold map_byte_at in E. destruct (in_rangeb 64 x); [|by destruct E].
    by rewrite Z.mod_small.
  - intros m a l x Hok. unfold map_write.
    destruct (map_backed m a (length l)) eqn:E; [|done]. cbn. unfold map_byte_at.
    destruct (in_rangeb 64 x) eqn:Er; [|done]. rewrite !fmap_is_Some, map_store_lookup.
    destruct (_ && _) eqn:Ex; [|done].
    rewrite map_backed_spec in E. specialize (E (Z.to_nat (x - a)) ltac:(lia)).
    replace (a + Z.of_nat (Z.to_nat (x - a))) with x in E by lia.
    unfold map_byte_at in E. rewrite Er, fmap_is_Some in E.
    split; [done|]. intros _. apply lookup_lt_is_Some. lia.
  - intros m a l x _. unfold map_write. by destruct (map_backed m a (length l)).
Defined.

(** [n] zero bytes from [a]. *)
Definition zeroes (m : gmap Z Z) (a : Z) (n : nat) : gmap Z Z := map_store m a (replicate n 0).

(** ** A concrete memory of one region

    The bytes from address zero. *)

Definition flat_byte_at (m : list Z) (a : Z) : option Z :=
  if in_rangeb 64 a then (fun b => b mod 256) <$> m !! Z.to_nat a else None.

Definition flat_size (m : list Z) : Z := Z.min (Z.of_nat (length m)) (2 ^ 64).

Definition flat_write (m : list Z) (a : Z) (l : list Z) : result unit unit * list Z :=
  if bool_decide (l = []) || (0 <=? a) && (a + Z.of_nat (length l) <=? flat_size m)
  then (Ok tt, list_inserts (Z.to_nat a) l m) else (Err tt, m).

(** Comparisons in hypotheses, as propositions. *)
Ltac compare_in H :=
  rewrite ?andb_true_iff, ?andb_false_iff, ?Z.leb_le, ?Z.ltb_lt, ?Z.leb_gt, ?Z.ltb_ge in H.

Lemma flat_backed m x : is_Some (flat_byte_at m x) <-> 0 <= x < flat_size m.
Proof.
  unfold flat_byte_at, flat_size. destruct (in_rangeb 64 x) eqn:E.
  - apply in_rangeb_spec in E. unfold in_range in E. rewrite fmap_is_Some, lookup_lt_is_Some. lia.
  - unfold in_rangeb in E. split; [by intros []|]. lia.
Qed.

Lemma flat_write_spec m a l :
  (flat_write m a l).1 = Ok tt <->
  (forall i : nat, (i < length l)%nat -> is_Some (flat_byte_at m (a + Z.of_nat i))).
Proof.
  unfold flat_write. setoid_rewrite flat_backed.
  destruct l as [|b l]; [rewrite bool_decide_eq_true_2 by done; cbn; split; [lia|done]|].
  rewrite bool_decide_eq_false_2 by done. cbn [orb].
  destruct (_ && _) eqn:E; (split; [|done]) || (split; [done|]); cbn [length] in E; compare_in E.
  - intros _ i Hi. cbn [length] in Hi. lia.
  - intros Hb. exfalso. pose proof (Hb 0%nat ltac:(cbn; lia)) as H0.
    pose proof (Hb (length l) ltac:(cbn; lia)) as H1. lia.
Qed.

Lemma length_flat_write m a l : length (flat_write m a l).2 = length m.
Proof. unfold flat_write. destruct (_ || _); [|done]. apply length_inserts. Qed.

#[export] Instance flat_memory : GuestMemory (list Z).
Proof.
  refine {| GuestMemoryError := unit; byte_at := flat_byte_at; write_bytes := flat_write |}.
  - intros m a b. unfold flat_byte_at. destruct (in_rangeb 64 a) eqn:E; [|done].
    intros Hb. apply fmap_Some in Hb as (c & _ & ->).
    split; [by apply in_rangeb_spec|]. apply Z.mod_pos_bound. lia.
  - intros m a l _. apply flat_write_spec.
  - intros m a l x Hok Hw. pose proof (proj1 (flat_write_spec m a l) Hw) as Hb.
    revert Hw. unfold flat_write. destruct (_ || _) eqn:E; [|done]. intros _. cbn [snd].
    destruct ((a <=? x) && (x <? a + Z.of_nat (length l))) eqn:Ex; compare_in Ex.
    + specialize (Hb (Z.to_nat (x - a)) ltac:(lia)).
      replace (a + Z.of_nat (Z.to_nat (x - a))) with x in Hb by lia.
      rewrite flat_backed in Hb. unfold flat_size in Hb.
      pose proof (Hb0 := lookup_lt_is_Some_2 l (Z.to_nat (x - a)) ltac:(lia)).
      destruct Hb0 as [b Eb]. rewrite Eb.
      assert (0 <= a).
      { destruct l as [|b' l]; [cbn in Ex; lia|]. rewrite bool_decide_eq_false_2 in E by done.
        cbn [orb] in E. compare_in E. lia. }
      unfold flat_byte_at. rewrite (proj2 (in_rangeb_spec 64 x)) by (unfold in_range; lia).
      rewrite list_lookup_inserts by lia.
      replace (Z.to_nat x - Z.to_nat a)%nat with (Z.to_nat (x - a)) by lia. rewrite Eb. cbn.
      apply (Forall_lookup_1 _ _ _ _ Hok) in Eb. unfold byte_ok in Eb. by rewrite Z.mod_small.
    + unfold flat_byte_at. destruct (in_rangeb 64 x) eqn:Er; [|done]. f_equal.
      apply in_rangeb_spec in Er. unfold in_range in Er.
      destruct l as [|b l]; [done|]. cbn [length] in *.
      rewrite bool_decide_eq_false_2 in E by done. cbn [orb] in E. compare_in E.
      destruct (Z.ltb_spec x a).
      * apply list_lookup_inserts_lt. lia.
      * apply list_lookup_inserts_ge. cbn [length]. lia.
  - intros m a l x _. rewrite !flat_backed. unfold flat_size. by rewrite length_flat_write.
  - intros m a l x _. unfold flat_write. by destruct (_ || _).
Defined.

#[export] Instance flat_regions : GuestRegions (list Z).
Proof.
  refine {|
    check_range m a len := (0 <=? a) && (a + len <=? flat_size m);
    region_of m a := if (0 <=? a) && (a <? flat_size m) then Some (0, flat_size m) else None;
    access_error _ _ _ := tt
  |}.
  - intros m a len Hl. unfold backed. setoid_rewrite flat_backed.
    rewrite andb_true_iff, !Z.leb_le. split.
    + intros Hb x Hx. lia.
    + intros Hb. pose proof (Hb a ltac:(lia)). pose proof (Hb (a + len - 1) ltac:(lia)). lia.
  - intros m a start len. destruct (_ && _) eqn:E; [|done]. intros [= <- <-]. compare_in E.
    split; [lia|]. intros x Hx. apply flat_backed. lia.
  - intros m a start len x. destruct (_ && _) eqn:E; [|done]. intros [= <- <-] Hx.
    rewrite (proj2 (Z.leb_le 0 x)), (proj2 (Z.ltb_lt x _)) by lia. done.
Defined.
