(* ===== verification/VirtioQueue.v ===== *)
(** * Virtio queues

    Model of [src/firecracker/src/devices/src/virtio/queue.rs]: descriptor
    chains, the available and used rings, and event-index notification
    suppression, over any guest memory ([GuestMemory]).

    Guest addresses are 64-bit integers; [Wrapping<u16>] counters are integers
    modulo [2^16].  [GuestAddress::unchecked_add] is plain 64-bit addition.
    Each operation runs on one snapshot of guest memory, except
    [try_enable_notification], whose second look at the ring exists because the
    driver runs concurrently: what the driver does at that point is the argument
    [driver]. *)

From Stdlib Require Import ZArith Lia.
From stdpp Require Import prelude gmap.
From S2P Require Import Prelude GuestMemory.

(** ** Definitions *)

Definition VIRTQ_DESC_F_NEXT : Z := 1.
Definition VIRTQ_DESC_F_WRITE : Z := 2.

Inductive QueueError (E : Type) : Type :=
| DescIndexOutOfBounds (idx : Z)
| UsedRing (err : E).
Arguments DescIndexOutOfBounds {E} idx.
Arguments UsedRing {E} err.

(** [struct Descriptor], the layout of a descriptor table entry. *)
Record Descriptor := mkDescriptor {
  d_addr : Z;
  d_len : Z;
  d_flags : Z;
  d_next : Z
}.

(** A descriptor chain position (the memory reference is an argument of the
    operations). *)
Record DescriptorChain := mkDescriptorChain {
  dc_desc_table : Z;
  dc_queue_size : Z;
  dc_ttl : Z;
  dc_index : Z;
  dc_addr : Z;
  dc_len : Z;
  dc_flags : Z;
  dc_next : Z
}.

Record Queue := mkQueue {
  max_size : Z;
  q_size : Z;
  ready : bool;
  desc_table : Z;
  avail_ring : Z;
  used_ring : Z;
  next_avail : Z;
  next_used : Z;
  uses_notif_suppression : bool;
  num_added : Z
}.

Definition Queue_new (max_size0 : Z) : Queue :=
  mkQueue max_size0 0 false 0 0 0 0 0 false 0.

Definition get_max_size (q : Queue) : Z := max_size q.
Definition actual_size (q : Queue) : Z := Z.min (q_size q) (max_size q).

Definition with_next_avail (q : Queue) (v : Z) : Queue :=
  mkQueue (max_size q) (q_size q) (ready q) (desc_table q) (avail_ring q) (used_ring q)
    v (next_used q) (uses_notif_suppression q) (num_added q).
Definition with_next_used (q : Queue) (v : Z) : Queue :=
  mkQueue (max_size q) (q_size q) (ready q) (desc_table q) (avail_ring q) (used_ring q)
    (next_avail q) v (uses_notif_suppression q) (num_added q).
Definition with_num_added (q : Queue) (v : Z) : Queue :=
  mkQueue (max_size q) (q_size q) (ready q) (desc_table q) (avail_ring q) (used_ring q)
    (next_avail q) (next_used q) (uses_notif_suppression q) v.

Definition has_next (c : DescriptorChain) : bool :=
  negb (Z.land (dc_flags c) VIRTQ_DESC_F_NEXT =? 0) && (1 <? dc_ttl c).
Definition is_write_only (c : DescriptorChain) : bool :=
  negb (Z.land (dc_flags c) VIRTQ_DESC_F_WRITE =? 0).
Definition chain_is_valid (c : DescriptorChain) : bool :=
  negb (has_next c) || (dc_next c <? dc_queue_size c).

Section Queue.
Context {M : Type} `{GuestMemory M} `{Profile}.

(** [read_obj::<Descriptor>]: sixteen bytes, little endian. *)
Definition read_descriptor (m : M) (a : Z) : option Descriptor :=
  match read_bytes m a 16 with
  | Some l =>
      Some (mkDescriptor (le_decode (take 8 l)) (le_decode (take 4 (drop 8 l)))
              (le_decode (take 2 (drop 12 l))) (le_decode (take 2 (drop 14 l))))
  | None => None
  end.

Definition checked_new (m : M) (desc_table0 queue_size0 index : Z) : option DescriptorChain :=
  if queue_size0 <=? index then None
  else
    match checked_offset m desc_table0 (index * 16) with
    | None => None
    | Some desc_head =>
        match checked_offset m desc_head 16 with
        | None => None
        | Some _ =>
            match read_descriptor m desc_head with
            | None => None
            | Some d =>
                let chain := mkDescriptorChain desc_table0 queue_size0 queue_size0 index
                               (d_addr d) (d_len d) (d_flags d) (d_next d) in
                if chain_is_valid chain then Some chain else None
            end
        end
    end.

Definition with_ttl (c : DescriptorChain) (t : Z) : DescriptorChain :=
  mkDescriptorChain (dc_desc_table c) (dc_queue_size c) t (dc_index c) (dc_addr c)
    (dc_len c) (dc_flags c) (dc_next c).

Definition next_descriptor (m : M) (c : DescriptorChain) : exec (option DescriptorChain) :=
  if has_next c then
    match checked_new m (dc_desc_table c) (dc_queue_size c) (dc_next c) with
    | Some c' => ttl ← usub 16 (dc_ttl c) 1; Ret (Some (with_ttl c' ttl))
    | None => Ret None
    end
  else Ret None.

Definition avail_idx (q : Queue) (m : M) : exec Z :=
  addr ← uadd 64 (avail_ring q) 2;
  unwrap (read_obj 2 m addr).

Definition Queue_len (q : Queue) (m : M) : exec Z :=
  idx ← avail_idx q m;
  Ret (wsub 16 idx (next_avail q)).

Definition is_empty (q : Queue) (m : M) : exec bool :=
  l ← Queue_len q m;
  Ret (l =? 0).

(** [checked_add(size).map_or(true, |v| !mem.address_in_range(v))]. *)
Definition out_of_bounds (m : M) (start sz : Z) : bool :=
  match checked_add 64 start sz with
  | Some v => negb (address_in_range m v)
  | None => true
  end.

Definition Queue_is_valid (q : Queue) (m : M) : exec bool :=
  let queue_size := actual_size q in
  let desc_table_size := 16 * queue_size in
  let avail_ring_size := 6 + 2 * queue_size in
  let used_ring_size := 6 + 8 * queue_size in
  if negb (ready q) then Ret false
  else if (max_size q <? q_size q) || (q_size q =? 0) ||
          negb (Z.land (q_size q) (q_size q - 1) =? 0) then Ret false
  else if out_of_bounds m (desc_table q) desc_table_size then Ret false
  else if out_of_bounds m (avail_ring q) avail_ring_size then Ret false
  else if out_of_bounds m (used_ring q) used_ring_size then Ret false
  else if negb (Z.land (desc_table q) 0xf =? 0) then Ret false
  else if negb (Z.land (avail_ring q) 0x1 =? 0) then Ret false
  else if negb (Z.land (used_ring q) 0x3 =? 0) then Ret false
  else
    l ← Queue_len q m;
    Ret (negb (max_size q <? l)).

Definition do_pop_unchecked (q : Queue) (m : M) : exec (option DescriptorChain * Queue) :=
  slot ← urem (next_avail q) (actual_size q);
  twice ← umul 16 2 slot;
  index_offset ← uadd 16 4 twice;
  addr ← uadd 64 (avail_ring q) index_offset;
  desc_index ← unwrap (read_obj 2 m addr);
  match checked_new m (desc_table q) (actual_size q) desc_index with
  | Some dc => Ret (Some dc, with_next_avail q (wadd 16 (next_avail q) 1))
  | None => Ret (None, q)
  end.

Definition pop (q : Queue) (m : M) : exec (option DescriptorChain * Queue) :=
  l ← Queue_len q m;
  if l =? 0 then Ret (None, q) else do_pop_unchecked q m.

Definition undo_pop (q : Queue) : Queue := with_next_avail q (wsub 16 (next_avail q) 1).

Definition add_used (q : Queue) (m : M) (desc_index len : Z)
    : exec (result unit (QueueError GuestMemoryError) * Queue * M) :=
  if actual_size q <=? desc_index then Ret (Err (DescIndexOutOfBounds desc_index), q, m)
  else
    slot ← urem (next_used q) (actual_size q);
    off ← umul 64 slot 8;
    off4 ← uadd 64 4 off;
    used_elem ← uadd 64 (used_ring q) off4;
    let w1 := write_obj 4 m desc_index used_elem in
    match w1.1 with
    | Err e => Ret (Err (UsedRing e), q, w1.2)
    | Ok _ =>
        len_addr ← uadd 64 used_elem 4;
        let w2 := write_obj 4 w1.2 len len_addr in
        match w2.1 with
        | Err e => Ret (Err (UsedRing e), q, w2.2)
        | Ok _ =>
            let q := with_num_added q (wadd 16 (num_added q) 1) in
            let q := with_next_used q (wadd 16 (next_used q) 1) in
            next_used_addr ← uadd 64 (used_ring q) 2;
            let w3 := write_obj 2 w2.2 (next_used q) next_used_addr in
            match w3.1 with
            | Err e => Ret (Err (UsedRing e), q, w3.2)
            | Ok _ => Ret (Ok tt, q, w3.2)
            end
        end
    end.

Definition used_event (q : Queue) (m : M) : exec Z :=
  twice ← umul 16 2 (actual_size q);
  off ← uadd 16 4 twice;
  addr ← uadd 64 (avail_ring q) off;
  unwrap (read_obj 2 m addr).

Definition set_avail_event (q : Queue) (val : Z) (m : M) : exec M :=
  eight ← umul 16 8 (actual_size q);
  off ← uadd 16 4 eight;
  addr ← uadd 64 (used_ring q) off;
  let w := write_obj 2 m val addr in
  match w.1 with Ok _ => Ret w.2 | Err _ => Panic end.

(** [driver] is what the guest does to memory between the fence and the second
    read of [avail_idx]. *)
Definition try_enable_notification (driver : M -> M) (q : Queue) (m : M) : exec (bool * M) :=
  if negb (uses_notif_suppression q) then Ret (true, m)
  else
    l ← Queue_len q m;
    if negb (l =? 0) then Ret (false, m)
    else
      m ← set_avail_event q (next_avail q) m;
      let m := driver m in
      idx ← avail_idx q m;
      Ret (next_avail q =? idx, m).

Definition pop_or_enable_notification (driver : M -> M) (q : Queue) (m : M)
    : exec (option DescriptorChain * Queue * M) :=
  if negb (uses_notif_suppression q) then
    r ← pop q m; Ret (r.1, r.2, m)
  else
    t ← try_enable_notification driver q m;
    if (t.1 : bool) then Ret (None, q, t.2)
    else r ← do_pop_unchecked q t.2; Ret (r.1, r.2, t.2).

Definition enable_notif_suppression (q : Queue) : Queue :=
  mkQueue (max_size q) (q_size q) (ready q) (desc_table q) (avail_ring q) (used_ring q)
    (next_avail q) (next_used q) true (num_added q).

Definition prepare_kick (q : Queue) (m : M) : exec (bool * Queue) :=
  if negb (uses_notif_suppression q) then Ret (true, q)
  else
    let new := next_used q in
    let old := wsub 16 (next_used q) (num_added q) in
    ue ← used_event q m;
    let q := with_num_added q 0 in
    Ret (wsub 16 (wsub 16 new ue) 1 <? wsub 16 new old, q).
End Queue.

(** ** Walking a chain *)

(** The descriptors of a chain, in order; [None] is running out of fuel. *)
Fixpoint walk {M} `{GuestMemory M} `{Profile} (fuel : nat) (m : M) (c : DescriptorChain)
    : exec (option (list DescriptorChain)) :=
  match fuel with
  | O => Ret None
  | S fuel =>
      n ← next_descriptor m c;
      match n with
      | None => Ret (Some [c])
      | Some c' =>
          l ← walk fuel m c';
          Ret (match l with Some l => Some (c :: l) | None => None end)
      end
  end.

Section Walk.
Context {M : Type} `{GuestMemory M} `{Profile}.
Implicit Types (m : M) (c : DescriptorChain).

Lemma checked_new_fields m dt qs i c :
  checked_new m dt qs i = Some c ->
  dc_desc_table c = dt /\ dc_queue_size c = qs /\ dc_ttl c = qs /\ dc_index c = i /\ i < qs /\
  chain_is_valid c = true.
Proof.
  unfold checked_new. intros Hc. destruct (Z.leb_spec qs i); [done|].
  repeat case_match; simplify_eq. done.
Qed.

(** A step along the chain lowers [ttl] and stays in the table. *)
Lemma next_descriptor_step m c :
  dc_ttl c <= 2 ^ 16 ->
  exists o, next_descriptor m c = Ret o /\
    forall c', o = Some c' ->
      1 < dc_ttl c /\ dc_ttl c' = dc_ttl c - 1 /\ dc_queue_size c' = dc_queue_size c /\
      dc_index c' = dc_next c /\ dc_index c' < dc_queue_size c.
Proof.
  intros Ht. unfold next_descriptor, has_next.
  destruct (_ && _) eqn:E; [|by eexists].
  apply andb_true_iff in E as [_ E]. apply Z.ltb_lt in E.
  destruct (checked_new _ _ _ _) as [c1|] eqn:Ec; [|by eexists].
  rewrite usub_ok, bind_Ret by (unfold in_range; lia). eexists. split; [done|].
  intros c' [= <-]. apply checked_new_fields in Ec as (_ & ? & _ & ? & ? & _). cbn. split_and!; lia.
Qed.

Lemma next_descriptor_returns m c :
  in_range 16 (dc_ttl c) -> exists o, next_descriptor m c = Ret o.
Proof.
  intros Ht. unfold next_descriptor. destruct (has_next c) eqn:E; [|by eexists].
  destruct (checked_new _ _ _ _); [|by eexists].
  unfold has_next in E. rewrite usub_ok; [by eexists|]. range_solve.
Qed.

(** The fields of a descriptor have the widths of its layout. *)
Record chain_ranges (c : DescriptorChain) : Prop := {
  cr_addr : in_range 64 (dc_addr c);
  cr_len : in_range 32 (dc_len c)
}.

Lemma checked_new_ranges m dt qs i c : checked_new m dt qs i = Some c -> chain_ranges c.
Proof.
  unfold checked_new, read_descriptor. intros Hc. repeat case_match; simplify_eq.
  match goal with H : read_bytes _ _ _ = Some ?l |- _ => apply read_bytes_ok in H as [Hl Hok] end.
  split; cbn [dc_addr dc_len d_addr d_len].
  - pose proof (le_decode_range (take 8 l) (Forall_take _ _ _ Hok)) as Hr. by rewrite length_take, Hl in Hr.
  - pose proof (le_decode_range (take 4 (drop 8 l)) (Forall_take _ _ _ (Forall_drop _ _ _ Hok))) as Hr.
    by rewrite length_take, length_drop, Hl in Hr.
Qed.

Lemma next_descriptor_ranges m c c' : next_descriptor m c = Ret (Some c') -> in_range 16 (dc_ttl c) -> chain_ranges c' /\ in_range 16 (dc_ttl c').
Proof.
  unfold next_descriptor, has_next. destruct (_ && _) eqn:E; [|done]. destruct (checked_new _ _ _ _) as [c1|] eqn:Ec; [|done].
  intros En Ht. apply andb_true_iff in E as [_ E]. apply Z.ltb_lt in E. rewrite usub_ok, bind_Ret in En by range_solve.
  injection En as <-. destruct (checked_new_ranges _ _ _ _ _ Ec). split; [done|]. cbn. range_solve.
Qed.

Lemma walk_total m c (fuel : nat) :
  1 <= dc_ttl c <= Z.of_nat fuel -> dc_ttl c <= 2 ^ 16 -> dc_index c < dc_queue_size c ->
  exists l, walk fuel m c = Ret (Some l) /\ Z.of_nat (length l) <= dc_ttl c /\
    Forall (fun d => dc_index d < dc_queue_size c) l /\ head l = Some c.
Proof.
  revert c. induction fuel as [|fuel IH]; intros c Ht H16 Hi; [lia|]. simpl.
  destruct (next_descriptor_step m c H16) as (o & -> & Ho). rewrite bind_Ret.
  destruct o as [c'|].
  - destruct (Ho c' eq_refl) as (H1 & H2 & H3 & H4 & H5).
    destruct (IH c') as (l & -> & Hl & Hf & _); [lia|lia|lia|]. rewrite bind_Ret.
    eexists. split; [done|]. simpl length. split; [lia|]. split; [|done].
    constructor; [done|]. by rewrite <- H3.
  - exists [c]. simpl length. split; [done|]. split; [lia|]. split; [by constructor|done].
Qed.
End Walk.

(** ** A queue ready for use *)

(** What activation establishes: a power-of-two size within the maximum the
    device offers, and the three areas of the queue backed by guest memory. *)
Record queue_ok {M} `{GuestMemory M} (q : Queue) (m : M) : Prop := {
  ok_size : 0 < q_size q <= max_size q;
  ok_max : max_size q <= 4096;
  ok_pow2 : Z.land (q_size q) (q_size q - 1) = 0;
  ok_desc_addr : in_range 64 (desc_table q);
  ok_avail_addr : 0 <= avail_ring q /\ avail_ring q + 6 + 2 * q_size q < 2 ^ 64;
  ok_used_addr : 0 <= used_ring q /\ used_ring q + 6 + 8 * q_size q < 2 ^ 64;
  ok_desc : backed m (desc_table q) (16 * q_size q);
  ok_avail : backed m (avail_ring q) (6 + 2 * q_size q);
  ok_used : backed m (used_ring q) (6 + 8 * q_size q);
  ok_next_avail : in_range 16 (next_avail q);
  ok_next_used : in_range 16 (next_used q);
  ok_num_added : in_range 16 (num_added q)
}.

(** The head index stored in slot [i] of the available ring. *)
Definition ring_entry {M} `{GuestMemory M} (q : Queue) (m : M) (i : Z) : option Z :=
  read_obj 2 m (avail_ring q + 4 + 2 * (i mod q_size q)).

Section Ready.
Context {M : Type} `{GuestMemory M} `{Profile}.
Implicit Types (m : M) (q : Queue).

Lemma actual_size_ok q m : queue_ok q m -> actual_size q = q_size q.
Proof. intros []. unfold actual_size. lia. Qed.

Lemma backed_sub m a l a' l' : backed m a l -> a <= a' -> a' + l' <= a + l -> backed m a' l'.
Proof. intros Hb ? ? x ?. apply Hb. lia. Qed.

Lemma avail_idx_ok q m :
  queue_ok q m -> exists i, avail_idx q m = Ret i /\ read_obj 2 m (avail_ring q + 2) = Some i /\
                            in_range 16 i.
Proof.
  intros Hok. pose proof Hok as []. unfold avail_idx. rewrite uadd_ok, bind_Ret by (unfold in_range; lia).
  destruct (read_obj_backed m (avail_ring q + 2) 2) as (v & Ev & Hv).
  { eapply backed_sub; [by apply ok_avail|lia..]. }
  rewrite Ev. exists v. split; [done|]. split; [done|]. unfold in_range. lia.
Qed.

Lemma Queue_len_ok q m :
  queue_ok q m -> exists i, read_obj 2 m (avail_ring q + 2) = Some i /\ in_range 16 i /\
                            Queue_len q m = Ret (wsub 16 i (next_avail q)).
Proof.
  intros Hok. destruct (avail_idx_ok q m Hok) as (i & Ei & Er & Hi).
  exists i. unfold Queue_len. rewrite Ei. done.
Qed.

Lemma slot_range q m i : queue_ok q m -> 0 <= i mod q_size q < q_size q.
Proof. intros []. apply Z.mod_pos_bound. lia. Qed.

Lemma ring_entry_ok q m i :
  queue_ok q m -> exists h, ring_entry q m i = Some h /\ in_range 16 h.
Proof.
  intros Hok. pose proof (slot_range q m i Hok). pose proof Hok as []. unfold ring_entry.
  destruct (read_obj_backed m (avail_ring q + 4 + 2 * (i mod q_size q)) 2) as (v & Ev & Hv).
  { eapply backed_sub; [by apply ok_avail|lia..]. }
  exists v. split; [done|]. unfold in_range. lia.
Qed.

(** Popping looks up slot [next_avail mod size] of the ring and consumes it if
    the descriptor it names is acceptable. *)
Lemma do_pop_ok q m :
  queue_ok q m ->
  exists h, ring_entry q m (next_avail q) = Some h /\
    do_pop_unchecked q m =
      Ret (match checked_new m (desc_table q) (q_size q) h with
           | Some dc => (Some dc, with_next_avail q (wadd 16 (next_avail q) 1))
           | None => (None, q)
           end).
Proof.
  intros Hok. pose proof (slot_range q m (next_avail q) Hok) as Hslot.
  destruct (ring_entry_ok q m (next_avail q) Hok) as (h & Eh & Hh).
  exists h. split; [done|]. unfold do_pop_unchecked.
  rewrite (actual_size_ok q m Hok). destruct Hok.
  rewrite urem_ok, bind_Ret by lia.
  rewrite umul_ok, bind_Ret by (unfold in_range; lia).
  rewrite uadd_ok, bind_Ret by (unfold in_range; lia).
  rewrite uadd_ok, bind_Ret by (unfold in_range; lia).
  unfold ring_entry in Eh. rewrite Z.add_assoc, Eh. simpl. by case_match.
Qed.
End Ready.

(** ** Ring positions *)

Lemma pow2_of_land s : 0 < s -> Z.land s (s - 1) = 0 -> s = 2 ^ Z.log2 s.
Proof.
  intros Hs Hl. pose proof (Z.log2_spec s Hs) as [H1 H2].
  destruct (Z.eq_dec s (2 ^ Z.log2 s)) as [|Hne]; [done|exfalso].
  pose proof (Z.log2_nonneg s). pose proof (pow2_pos (Z.log2 s)).
  assert (Z.log2 (s - 1) = Z.log2 s) as E by (apply Z.log2_unique; lia).
  assert (Z.testbit (Z.land s (s - 1)) (Z.log2 s) = true) as Hb.
  { rewrite Z.land_spec, Z.bit_log2 by lia. rewrite <- E at 1. by rewrite Z.bit_log2 by lia. }
  by rewrite Hl, Z.bits_0 in Hb.
Qed.

Lemma pow2_size_divides s :
  0 < s <= 4096 -> Z.land s (s - 1) = 0 -> (s | 2 ^ 16).
Proof.
  intros Hs Hl. rewrite (pow2_of_land s) by lia.
  exists (2 ^ (16 - Z.log2 s)). rewrite <- Z.pow_add_r; [f_equal; lia| |apply Z.log2_nonneg].
  assert (Z.log2 s <= Z.log2 4096) as Hle by (apply Z.log2_le_mono; lia).
  change (Z.log2 4096) with 12 in Hle. lia.
Qed.

(** Ring slots follow the 16-bit counters through their wrap-around. *)
Lemma slot_wrap s i : 0 < s -> (s | 2 ^ 16) -> wrap 16 i mod s = i mod s.
Proof.
  intros Hs Hd. unfold wrap. by apply Z.mod_mod_divide.
Qed.

Fixpoint pop_all {M} `{GuestMemory M} `{Profile} (fuel : nat) (q : Queue) (m : M)
    : exec (list DescriptorChain * Queue) :=
  match fuel with
  | O => Ret ([], q)
  | S fuel =>
      r ← pop q m;
      match r.1 with
      | None => Ret ([], r.2)
      | Some dc => rs ← pop_all fuel r.2 m; Ret (dc :: rs.1, rs.2)
      end
  end.

Section Fifo.
Context {M : Type} `{GuestMemory M} `{Profile}.
Implicit Types (m : M) (q : Queue).

Lemma with_next_avail_ok q m v :
  queue_ok q m -> in_range 16 v -> queue_ok (with_next_avail q v) m.
Proof. intros [] ?. by split. Qed.

Lemma ring_entry_advance q m n i :
  queue_ok q m ->
  ring_entry (with_next_avail q n) m (wadd 16 n 1 + i) = ring_entry q m (n + 1 + i).
Proof.
  intros []. unfold ring_entry. cbn. unfold wadd.
  rewrite <- (slot_wrap (q_size q) (wrap 16 (n + 1) + i)), wrap_add_l, slot_wrap
    by (lia || apply pow2_size_divides; done || lia). done.
Qed.

(** The chain a pending slot of the available ring stands for. *)
Definition pending_chain q m (i : Z) : option DescriptorChain :=
  h ← ring_entry q m i; checked_new m (desc_table q) (q_size q) h.

Lemma pop_pending q m idx dc :
  queue_ok q m -> read_obj 2 m (avail_ring q + 2) = Some idx ->
  wsub 16 idx (next_avail q) <> 0 -> pending_chain q m (next_avail q) = Some dc ->
  pop q m = Ret (Some dc, with_next_avail q (wadd 16 (next_avail q) 1)).
Proof.
  intros Hok Hidx Hne Hdc. destruct (Queue_len_ok q m Hok) as (i & Ei & Hi & El).
  simplify_eq. unfold pop. rewrite El, bind_Ret, (proj2 (Z.eqb_neq _ _)) by done.
  destruct (do_pop_ok q m Hok) as (h & Eh & ->).
  unfold pending_chain in Hdc. rewrite Eh in Hdc. cbn in Hdc. by rewrite Hdc.
Qed.

Lemma pop_all_pending (n : nat) q m idx (fuel : nat) :
  queue_ok q m -> read_obj 2 m (avail_ring q + 2) = Some idx ->
  wsub 16 idx (next_avail q) = Z.of_nat n -> (n <= fuel)%nat ->
  (forall i : nat, (i < n)%nat -> is_Some (pending_chain q m (next_avail q + Z.of_nat i))) ->
  exists l, pop_all fuel q m = Ret (l, with_next_avail q idx) /\ length l = n /\
    forall i : nat, (i < n)%nat -> l !! i = pending_chain q m (next_avail q + Z.of_nat i).
Proof.
  revert q fuel. induction n as [|n IH]; intros q fuel Hok Hidx Hlen Hfuel Hp.
  - assert (next_avail q = idx) as E.
    { destruct (Queue_len_ok q m Hok) as (i & Ei & Hi & _). simplify_eq. destruct Hok.
      unfold wsub, in_range in *. unfold wrap in Hlen.
      apply Z.mod_divide in Hlen as [k Hk]; [|lia]. nia. }
    exists []. split; [|split; [done|lia]].
    rewrite <- E. destruct fuel as [|fuel]; simpl; [by destruct q|].
    destruct (Queue_len_ok q m Hok) as (i & Ei & Hi & El). simplify_eq.
    unfold pop. rewrite El, bind_Ret, Hlen. simpl. by destruct q.
  - destruct fuel as [|fuel]; [lia|].
    destruct (Hp 0%nat ltac:(lia)) as [dc Hdc]. rewrite Z.add_0_r in Hdc.
    simpl. rewrite (pop_pending q m idx dc) by (done || lia). rewrite bind_Ret. simpl.
    set (q1 := with_next_avail q (wadd 16 (next_avail q) 1)).
    assert (queue_ok q1 m) as Hok1 by (apply with_next_avail_ok; [done|by apply wadd_range]).
    assert (forall i : Z, pending_chain q1 m (next_avail q1 + i) =
                          pending_chain q m (next_avail q + 1 + i)) as Hnext.
    { intros i. unfold pending_chain. cbn [q1 desc_table q_size next_avail with_next_avail].
      rewrite <- (ring_entry_advance q m (next_avail q) i) by done. done. }
    destruct (IH q1 fuel) as (l & El & Hll & Hli); [done|done| |lia| |].
    { cbn. unfold wsub, wadd in *. rewrite wrap_sub_r.
      pose proof (wrap_range 16 (idx - next_avail q) ltac:(lia)). rewrite Hlen in *.
      replace (idx - (next_avail q + 1)) with (idx - next_avail q - 1) by lia.
      rewrite <- wrap_sub_l, Hlen, wrap_id; unfold in_range in *; lia. }
    { intros i Hi. rewrite Hnext. specialize (Hp (S i) ltac:(lia)).
      by replace (next_avail q + 1 + Z.of_nat i) with (next_avail q + Z.of_nat (S i)) by lia. }
    rewrite El, bind_Ret. exists (dc :: l). split; [done|]. split; [simpl; lia|].
    intros [|i] Hi; simpl; [by rewrite Z.add_0_r, Hdc|].
    rewrite Hli, Hnext by lia.
    by replace (next_avail q + 1 + Z.of_nat i) with (next_avail q + Z.of_nat (S i)) by lia.
Qed.
End Fifo.

(** ** Used ring and notifications *)

(** VirtIO 1.0, 2.4.7.2 ([vring_need_event]): a side that published the entries
    [old .. new) must notify when [event] is among them. *)
Definition need_event (event new old : Z) : Prop :=
  exists i, 0 <= i < wsub 16 new old /\ event = wadd 16 old i.

Lemma wrap_eq_iff w a b : 0 <= w -> wrap w a = wrap w b <-> exists k, a = b + k * 2 ^ w.
Proof.
  intros Hw. unfold wrap. pose proof (pow2_pos w Hw). split.
  - intros E. exists (a / 2 ^ w - b / 2 ^ w).
    pose proof (Z.div_mod a (2 ^ w) ltac:(lia)). pose proof (Z.div_mod b (2 ^ w) ltac:(lia)). nia.
  - intros [k ->]. apply Z_mod_plus_full.
Qed.

Lemma need_event_test event new n :
  in_range 16 event -> in_range 16 new -> in_range 16 n ->
  (wsub 16 (wsub 16 new event) 1 <? wsub 16 new (wsub 16 new n)) = true <->
  need_event event new (wsub 16 new n).
Proof.
  intros He Hnew Hn. unfold need_event, wsub, wadd.
  autorewrite with rust. replace (new - (new - n)) with n by lia.
  rewrite (wrap_id 16 n) by done. rewrite Z.ltb_lt.
  pose proof (wrap_range 16 (new - event - 1) ltac:(lia)) as Hd.
  set (d := wrap 16 (new - event - 1)) in *. unfold in_range in *. split.
  - intros Hlt. exists (n - 1 - d). split; [lia|].
    transitivity (wrap 16 event); [symmetry; by apply wrap_id|].
    unfold d. autorewrite with rust.
    replace (new - n + (n - 1 - wrap 16 (new - event - 1)))
      with (new - 1 - wrap 16 (new - event - 1)) by lia.
    rewrite wrap_sub_r. f_equal. lia.
  - intros (i & Hi & ->). unfold d. autorewrite with rust.
    replace (new - (new - n + i) - 1) with (n - i - 1) by lia.
    enough (wrap 16 (n - i - 1) = n - i - 1) by
      (rewrite <- wrap_sub_l, wrap_sub_r;
       replace (new - (new - n + i)) with (n - i) by lia; rewrite wrap_sub_l; lia).
    apply wrap_id. unfold in_range. lia.
Qed.

Section UsedRing.
Context {M : Type} `{GuestMemory M} `{Profile}.
Implicit Types (m : M) (q : Queue).

Lemma queue_ok_mem q m m' :
  queue_ok q m -> (forall x, is_Some (byte_at m' x) <-> is_Some (byte_at m x)) -> queue_ok q m'.
Proof.
  intros [] Hm. split; try done; intros x Hx; apply Hm; eauto.
Qed.

Lemma used_event_ok q m :
  queue_ok q m ->
  exists e, used_event q m = Ret e /\ in_range 16 e /\
            read_obj 2 m (avail_ring q + 4 + 2 * q_size q) = Some e.
Proof.
  intros Hok. unfold used_event. rewrite (actual_size_ok q m Hok). pose proof Hok as [].
  rewrite umul_ok, bind_Ret by (unfold in_range; lia).
  rewrite uadd_ok, bind_Ret by (unfold in_range; lia).
  rewrite uadd_ok, bind_Ret by (unfold in_range; lia).
  destruct (read_obj_backed m (avail_ring q + 4 + 2 * q_size q) 2) as (v & Ev & Hv).
  { eapply backed_sub; [by apply ok_avail|lia..]. }
  rewrite Z.add_assoc, Ev. exists v. split; [done|]. unfold in_range. split; [lia|done].
Qed.

(** The slot of the used ring the next entry goes to. *)
Definition used_slot q : Z := used_ring q + 4 + 8 * (next_used q mod q_size q).

Lemma add_used_ok q m idx l :
  queue_ok q m -> 0 <= idx < q_size q ->
  let w1 := write_obj 4 m idx (used_slot q) in
  let w2 := write_obj 4 w1.2 l (used_slot q + 4) in
  let w3 := write_obj 2 w2.2 (wadd 16 (next_used q) 1) (used_ring q + 2) in
  w1.1 = Ok tt /\ w2.1 = Ok tt /\ w3.1 = Ok tt /\
  add_used q m idx l =
    Ret (Ok tt,
         with_next_used (with_num_added q (wadd 16 (num_added q) 1)) (wadd 16 (next_used q) 1),
         w3.2).
Proof.
  intros Hok Hi w1 w2 w3. pose proof (slot_range q m (next_used q) Hok) as Hs.
  pose proof Hok as []. unfold used_slot in *.
  assert (w1.1 = Ok tt) as E1.
  { apply write_obj_backed. eapply backed_sub; [by apply ok_used|lia..]. }
  assert (w2.1 = Ok tt) as E2.
  { apply write_obj_backed. apply write_obj_backed_iff.
    eapply backed_sub; [by apply ok_used|lia..]. }
  assert (w3.1 = Ok tt) as E3.
  { apply write_obj_backed. apply write_obj_backed_iff, write_obj_backed_iff.
    eapply backed_sub; [by apply ok_used|lia..]. }
  split_and!; [done..|]. unfold add_used. rewrite (actual_size_ok q m Hok).
  rewrite (proj2 (Z.leb_gt _ _)) by lia.
  rewrite urem_ok, bind_Ret by lia.
  set (slot := next_used q mod q_size q) in *.
  rewrite umul_ok, bind_Ret by (unfold in_range; lia).
  rewrite (uadd_ok 64 4), bind_Ret by (unfold in_range; lia).
  rewrite (uadd_ok 64 (used_ring q) (4 + slot * 8)), bind_Ret by (unfold in_range; lia).
  replace (used_ring q + (4 + slot * 8)) with (used_ring q + 4 + 8 * slot) by lia.
  fold w1. rewrite E1.
  rewrite (uadd_ok 64 (used_ring q + 4 + 8 * slot)), bind_Ret by (unfold in_range; lia).
  fold w2. rewrite E2. cbn [used_ring with_next_used with_num_added next_used].
  rewrite uadd_ok, bind_Ret by (unfold in_range; lia). fold w3. by rewrite E3.
Qed.

Lemma set_avail_event_ok q m v :
  queue_ok q m ->
  let w := write_obj 2 m v (used_ring q + 4 + 8 * q_size q) in
  w.1 = Ok tt /\ set_avail_event q v m = Ret w.2.
Proof.
  intros Hok w. pose proof Hok as [].
  assert (w.1 = Ok tt) as E.
  { apply write_obj_backed. eapply backed_sub; [by apply ok_used|lia..]. }
  split; [done|]. unfold set_avail_event. rewrite (actual_size_ok q m Hok).
  rewrite umul_ok, bind_Ret by (unfold in_range; lia).
  rewrite uadd_ok, bind_Ret by (unfold in_range; lia).
  rewrite uadd_ok, bind_Ret by (unfold in_range; lia).
  rewrite Z.add_assoc. fold w. by rewrite E.
Qed.
End UsedRing.

(** ** Theorems *)

Section Theorems.
Context {M : Type} `{GuestMemory M} `{Profile}.
Implicit Types (m : M) (q : Queue).

(** Walking a descriptor chain ends.  From any chain head the queue
    accepts, following [next_descriptor] never panics, visits at most
    [queue_size] descriptors whatever the guest wrote (cycles included), and
    every index visited lies in the descriptor table. *)
Theorem walk_terminates m dt qs i c :
  in_range 16 qs -> 0 <= i -> checked_new m dt qs i = Some c ->
  exists l, walk (Z.to_nat qs) m c = Ret (Some l) /\ Z.of_nat (length l) <= qs /\
    Forall (fun d => dc_index d < qs) l /\ head l = Some c.
Proof.
  intros Hqs Hi Hc. destruct (checked_new_fields _ _ _ _ _ Hc) as (_ & Es & Et & Ei & Hlt & _).
  unfold in_range in Hqs.
  destruct (walk_total m c (Z.to_nat qs)) as (l & El & Hl & Hf & Hh); [lia|lia|lia|].
  rewrite Es in Hf. rewrite Et in Hl. by eauto.
Qed.

Lemma out_of_bounds_flat m limit start sz :
  flat m limit -> 0 <= start -> 0 <= sz -> out_of_bounds m start sz = false ->
  start + sz < 2 ^ 64 /\ backed m start (sz + 1).
Proof.
  intros Hf Hs Hz. unfold out_of_bounds, checked_add.
  destruct (in_rangeb 64 (start + sz)) eqn:E; [|done].
  apply in_rangeb_spec in E. unfold in_range in E. intros Ho.
  apply negb_false_iff, address_in_range_spec, Hf in Ho.
  split; [lia|]. intros x Hx. apply Hf. lia.
Qed.

(** On guest memory that is one region from address zero, validating a
    queue never panics, and a queue it accepts has a power-of-two size within
    the device's maximum and all three areas inside guest memory. *)
Theorem Queue_is_valid_flat q m limit :
  flat m limit -> 0 <= max_size q <= 4096 -> in_range 16 (q_size q) ->
  in_range 64 (desc_table q) -> in_range 64 (avail_ring q) -> in_range 64 (used_ring q) ->
  in_range 16 (next_avail q) -> in_range 16 (next_used q) -> in_range 16 (num_added q) ->
  exists b, Queue_is_valid q m = Ret b /\ (b = true -> queue_ok q m).
Proof.
  intros Hf Hmax Hsz Hd Ha Hu Hna Hnu Hadd. unfold Queue_is_valid.
  destruct (ready q); [|by eexists]. cbn [negb].
  destruct (_ || _) eqn:E1; [by eexists|].
  assert (0 < q_size q <= max_size q) as Hs by (unfold in_range in Hsz; lia).
  assert (Z.land (q_size q) (q_size q - 1) = 0) as Hp.
  { apply orb_false_iff in E1 as [_ E1]. apply negb_false_iff in E1. lia. }
  assert (actual_size q = q_size q) as -> by (unfold actual_size; lia).
  unfold in_range in *.
  destruct (out_of_bounds m (desc_table q) _) eqn:E2; [by eexists|].
  destruct (out_of_bounds m (avail_ring q) _) eqn:E3; [by eexists|].
  destruct (out_of_bounds m (used_ring q) _) eqn:E4; [by eexists|].
  apply (out_of_bounds_flat _ _ _ _ Hf) in E2 as [? Bd]; [|lia..].
  apply (out_of_bounds_flat _ _ _ _ Hf) in E3 as [? Ba]; [|lia..].
  apply (out_of_bounds_flat _ _ _ _ Hf) in E4 as [? Bu]; [|lia..].
  assert (queue_ok q m) as Hok.
  { split; unfold in_range; try done; try lia;
      first [apply (backed_sub _ _ _ _ _ Bd); lia|apply (backed_sub _ _ _ _ _ Ba); lia
            |apply (backed_sub _ _ _ _ _ Bu); lia]. }
  destruct (Queue_len_ok q m Hok) as (i & _ & _ & ->). rewrite bind_Ret.
  repeat case_match; by eexists.
Qed.

(** The queue is first in, first out: popping a ready queue until it is
    empty never panics and yields exactly the pending chains, in the order of
    the available ring (through the wrap-around of the ring and of the 16-bit
    counters), and leaves [next_avail] at the driver's index. *)
Theorem pop_all_fifo q m idx (fuel : nat) :
  queue_ok q m -> read_obj 2 m (avail_ring q + 2) = Some idx ->
  let n := Z.to_nat (wsub 16 idx (next_avail q)) in
  (n <= fuel)%nat ->
  (forall i : nat, (i < n)%nat -> is_Some (pending_chain q m (next_avail q + Z.of_nat i))) ->
  exists l, pop_all fuel q m = Ret (l, with_next_avail q idx) /\ length l = n /\
    forall i : nat, (i < n)%nat -> l !! i = pending_chain q m (next_avail q + Z.of_nat i).
Proof.
  intros Hok Hidx n Hfuel Hp. apply pop_all_pending; try done.
  pose proof (wsub_range 16 idx (next_avail q) ltac:(lia)). unfold in_range in *. lia.
Qed.

(** One [pop] on a ready queue: it never panics; it takes the chain of slot
    [next_avail mod size] and advances by one, or leaves the queue unchanged when
    the ring is empty or the descriptor is not acceptable; [undo_pop] after a
    successful pop gives the queue back. *)
Theorem pop_spec q m :
  queue_ok q m ->
  exists idx r q', read_obj 2 m (avail_ring q + 2) = Some idx /\ pop q m = Ret (r, q') /\
    queue_ok q' m /\
    match r with
    | Some dc =>
        idx <> next_avail q /\ pending_chain q m (next_avail q) = Some dc /\
        next_avail q' = wadd 16 (next_avail q) 1 /\ undo_pop q' = q
    | None => q' = q /\ (idx = next_avail q \/ pending_chain q m (next_avail q) = None)
    end.
Proof.
  intros Hok. destruct (Queue_len_ok q m Hok) as (idx & Eidx & Hidx & El).
  destruct (do_pop_ok q m Hok) as (h & Eh & Epop).
  exists idx. unfold pop, pending_chain. rewrite El, bind_Ret, Eh. cbn [mbind option_bind].
  assert (in_range 16 (next_avail q)) as Hna by apply Hok.
  assert (wsub 16 idx (next_avail q) = 0 <-> idx = next_avail q) as Hz.
  { unfold wsub. change 0 with (wrap 16 0). rewrite wrap_eq_iff by lia.
    unfold in_range in *. split; [intros [k Hk]; nia|intros ->; exists 0; lia]. }
  destruct (Z.eqb_spec (wsub 16 idx (next_avail q)) 0) as [E|E].
  { do 2 eexists. split; [done|]. split; [done|]. split; [done|]. split; [done|]. left. by apply Hz. }
  rewrite Epop. destruct (checked_new _ _ _ _) as [dc|].
  - do 2 eexists. split; [done|]. split; [done|].
    split; [apply with_next_avail_ok; [done|by apply wadd_range]|].
    split; [by rewrite <- Hz|]. split; [done|]. split; [done|].
    unfold undo_pop. cbn. unfold wsub, wadd. rewrite wrap_sub_l.
    replace (next_avail q + 1 - 1) with (next_avail q) by lia.
    rewrite (wrap_id 16 (next_avail q)) by done. by destruct q.
  - do 2 eexists. split; [done|]. split; [done|]. split; [done|]. split; [done|]. by right.
Qed.

(** Publishing a used buffer on a ready queue never panics: it stores the
    descriptor index and length in slot [next_used mod size], then the
    incremented index, touches no other byte of guest memory, and advances the
    two counters by one; an index outside the table is refused with no effect. *)
Theorem add_used_spec q m idx l :
  queue_ok q m -> 0 <= idx -> in_range 32 l ->
  if idx <? q_size q then
    exists q' m', add_used q m idx l = Ret (Ok tt, q', m') /\ queue_ok q' m' /\
      read_obj 4 m' (used_slot q) = Some idx /\
      read_obj 4 m' (used_slot q + 4) = Some l /\
      read_obj 2 m' (used_ring q + 2) = Some (wadd 16 (next_used q) 1) /\
      q' = with_next_used (with_num_added q (wadd 16 (num_added q) 1)) (wadd 16 (next_used q) 1) /\
      (forall x, ~ (used_slot q <= x < used_slot q + 8) ->
                 ~ (used_ring q + 2 <= x < used_ring q + 4) ->
                 byte_at m' x = byte_at m x)
  else add_used q m idx l = Ret (Err (DescIndexOutOfBounds idx), q, m).
Proof.
  intros Hok Hi Hl. destruct (Z.ltb_spec idx (q_size q)).
  - destruct (add_used_ok q m idx l Hok) as (E1 & E2 & E3 & ->); [lia|].
    set (w1 := write_obj 4 m idx (used_slot q)) in *.
    set (w2 := write_obj 4 w1.2 l (used_slot q + 4)) in *.
    set (w3 := write_obj 2 w2.2 _ _) in *.
    pose proof (slot_range q m (next_used q) Hok).
    assert (used_ring q + 4 <= used_slot q) by (unfold used_slot; lia).
    pose proof (wadd_range 16 (next_used q) 1 ltac:(lia)) as Hnu.
    do 2 eexists. split; [done|]. split.
    { apply (queue_ok_mem _ m); [|intros x; unfold w3, w2, w1; by rewrite !write_obj_mapped].
      destruct Hok. split; try done. by apply wadd_range. }
    pose proof Hok as []. unfold in_range in *.
    split; [|split; [|split; [|split; [done|]]]].
    + unfold w3. rewrite read_write_disjoint by (done || lia).
      unfold w2. rewrite read_write_disjoint by (done || lia).
      unfold w1. rewrite read_write_same by done. f_equal. apply Z.mod_small. simpl. lia.
    + unfold w3. rewrite read_write_disjoint by (done || lia).
      unfold w2. rewrite read_write_same by done. f_equal. apply Z.mod_small. simpl. lia.
    + unfold w3. rewrite read_write_same by done. f_equal. apply Z.mod_small. simpl. lia.
    + intros x Hx1 Hx2. unfold w3. rewrite write_obj_other by (done || lia).
      unfold w2. rewrite write_obj_other by (done || lia).
      unfold w1. rewrite write_obj_other by (done || lia). done.
  - unfold add_used. rewrite (actual_size_ok q m Hok), (proj2 (Z.leb_le _ _)) by lia. done.
Qed.

(** With event-index suppression the guest is interrupted exactly when the
    index it asked about is among the buffers published since the last kick
    (modulo 2^16); the count restarts at zero, so asking again at once answers
    no.  Without suppression the answer is always yes. *)
Theorem prepare_kick_spec q m :
  queue_ok q m ->
  exists b q' e, prepare_kick q m = Ret (b, q') /\
    (uses_notif_suppression q = false -> b = true /\ q' = q) /\
    (uses_notif_suppression q = true ->
       read_obj 2 m (avail_ring q + 4 + 2 * q_size q) = Some e /\
       (b = true <-> need_event e (next_used q) (wsub 16 (next_used q) (num_added q))) /\
       q' = with_num_added q 0 /\ prepare_kick q' m = Ret (false, q')).
Proof.
  intros Hok. destruct (used_event_ok q m Hok) as (e & Ee & He & Er).
  assert (in_range 16 (next_used q) /\ in_range 16 (num_added q)) as [Hn Hd] by (split; apply Hok).
  unfold prepare_kick. destruct (uses_notif_suppression q) eqn:Eu; cbn [negb].
  - rewrite Ee, bind_Ret. do 3 eexists. split; [done|]. split; [done|]. intros _.
    split; [done|]. split; [by apply need_event_test|]. split; [done|].
    cbn [uses_notif_suppression with_num_added next_used num_added]. rewrite Eu. cbn [negb].
    assert (used_event (with_num_added q 0) m = used_event q m) as -> by done.
    rewrite Ee, bind_Ret. do 2 f_equal. apply Z.ltb_ge.
    transitivity 0; [|apply wrap_range; lia]. unfold wsub.
    rewrite Z.sub_0_r, (wrap_id 16 (next_used q)), Z.sub_diag by done. done.
  - exists true, q, e. done.
Qed.

(** C34: no notification is lost.  When [try_enable_notification] answers yes on
    a queue that uses suppression, the ring is empty in the memory it leaves and
    [avail_event] holds [next_avail]; so a driver that then publishes any
    positive number of chains finds that it must notify.  The driver may run
    while the device decides, as long as it does not write the device's
    [avail_event] field. *)
Theorem try_enable_notification_no_loss (driver : M -> M) q m m' :
  queue_ok q m -> uses_notif_suppression q = true ->
  (forall m x, is_Some (byte_at (driver m) x) <-> is_Some (byte_at m x)) ->
  (forall m, let a := used_ring q + 4 + 8 * q_size q in
             read_obj 2 (driver m) a = read_obj 2 m a) ->
  try_enable_notification driver q m = Ret (true, m') ->
  read_obj 2 m' (avail_ring q + 2) = Some (next_avail q) /\
  exists event, read_obj 2 m' (used_ring q + 4 + 8 * q_size q) = Some event /\
    forall k, 0 < k < 2 ^ 16 ->
      need_event event (wadd 16 (next_avail q) k) (next_avail q).
Proof.
  intros Hok Hu Hdm Hde Ht. unfold try_enable_notification in Ht. rewrite Hu in Ht.
  cbn [negb] in Ht. destruct (Queue_len_ok q m Hok) as (i & Ei & Hi & El).
  rewrite El, bind_Ret in Ht. destruct (negb _); [done|].
  destruct (set_avail_event_ok q m (next_avail q) Hok) as [Ew Es].
  rewrite Es, bind_Ret in Ht. set (w := write_obj _ _ _ _) in *.
  assert (queue_ok q (driver w.2)) as Hok'.
  { apply (queue_ok_mem _ m); [done|]. intros x. rewrite Hdm. apply write_obj_mapped. }
  destruct (avail_idx_ok q _ Hok') as (j & Ej & Er & Hj).
  rewrite Ej, bind_Ret in Ht. injection Ht as Heq <-. apply Z.eqb_eq in Heq. subst j.
  split; [done|]. exists (next_avail q).
  assert (in_range 16 (next_avail q)) as Hna by apply Hok.
  split.
  { rewrite Hde. unfold w. rewrite read_write_same by done. f_equal.
    apply Z.mod_small. unfold in_range in Hna. simpl. lia. }
  intros k Hk. exists 0. unfold wsub, wadd. rewrite wrap_sub_l.
  replace (next_avail q + k - next_avail q) with k by lia.
  rewrite Z.add_0_r, !wrap_id by (unfold in_range in *; lia). split; [lia|done].
Qed.
End Theorems.

(** ** Witnesses *)

(** Guest memory of 256 bytes holding a queue of four entries: table at 0,
    available ring at 64 with two chains pending (heads 1 and 0; descriptor 1
    continues at 2), used ring at 128. *)
Definition poke (n : nat) (v a : Z) (m : gmap Z Z) : gmap Z Z := (write_obj n m v a).2.

Definition sample_mem : gmap Z Z :=
  poke 2 2 66 (poke 2 1 68 (poke 2 0 70
  (poke 2 1 28 (poke 2 2 30 (zeroes ∅ 0 256))))).

Definition sample_queue : Queue := mkQueue 256 4 true 0 64 128 0 0 true 0.

Lemma zeroes_flat (n : nat) : Z.of_nat n < 2 ^ 64 -> flat (zeroes ∅ 0 n) (Z.of_nat n).
Proof.
  intros Hn x. change (byte_at ?m ?a) with (map_byte_at m a). unfold map_byte_at, zeroes.
  rewrite map_store_lookup, length_replicate.
  destruct (in_rangeb 64 x) eqn:E.
  - apply in_rangeb_spec in E. unfold in_range in E.
    rewrite fmap_is_Some. destruct (Z.leb_spec 0 x), (Z.ltb_spec x (0 + Z.of_nat n)); cbn; try lia.
    + rewrite lookup_replicate_2 by lia. split; [lia|by eexists].
    + rewrite lookup_empty. split; [by intros [? ?]|lia].
  - split; [by intros [? ?]|]. unfold in_rangeb in E. lia.
Qed.

Lemma poke_flat n v a m limit : flat m limit -> flat (poke n v a m) limit.
Proof. intros Hf x. unfold poke. rewrite write_obj_mapped. apply Hf. Qed.

Lemma sample_mem_flat : flat sample_mem 256.
Proof. unfold sample_mem. do 5 apply poke_flat. apply (zeroes_flat 256). lia. Qed.

Lemma sample_queue_ok : queue_ok sample_queue sample_mem.
Proof.
  split; unfold in_range; cbn [q_size max_size desc_table avail_ring used_ring next_avail
    next_used num_added sample_queue];
    first [lia|intros x Hx; apply sample_mem_flat; lia|reflexivity].
Qed.

Lemma walk_terminates_witness :
  exists c l, checked_new sample_mem 0 4 1 = Some c /\
    @walk _ _ dev_profile 4 sample_mem c = Ret (Some l) /\ Z.of_nat (length l) <= 4.
Proof.
  destruct (checked_new sample_mem 0 4 1) as [c|] eqn:E; [|vm_compute in E; discriminate E].
  destruct (@walk_terminates _ _ dev_profile sample_mem 0 4 1 c) as (l & El & Hl & _);
    [unfold in_range; lia|lia|exact E|].
  exists c, l. split; [done|]. split; [exact El|exact Hl].
Defined.

Lemma Queue_is_valid_flat_witness :
  @Queue_is_valid _ _ dev_profile sample_queue sample_mem = Ret true /\
  queue_ok sample_queue sample_mem.
Proof.
  destruct (@Queue_is_valid_flat _ _ dev_profile sample_queue sample_mem 256) as (b & E & Hok);
    [apply sample_mem_flat|cbn; lia|unfold in_range; cbn; lia..|].
  assert (b = true) as -> by (vm_compute in E; congruence).
  split; [exact E|by apply Hok].
Defined.

Lemma pop_all_fifo_witness :
  exists l, @pop_all _ _ dev_profile 8 sample_queue sample_mem
            = Ret (l, with_next_avail sample_queue 2) /\ length l = 2%nat.
Proof.
  destruct (@pop_all_fifo _ _ dev_profile sample_queue sample_mem 2 8) as (l & El & Hl & _);
    [apply sample_queue_ok|vm_compute; reflexivity|vm_compute; lia| |].
  - intros [|[|i]] Hi; [vm_compute; by eexists..|]. exfalso. vm_compute in Hi. lia.
  - exists l. split; [exact El|exact Hl].
Defined.

Lemma pop_spec_witness :
  exists dc q', @pop _ _ dev_profile sample_queue sample_mem = Ret (Some dc, q') /\
                undo_pop q' = sample_queue.
Proof.
  destruct (@pop_spec _ _ dev_profile sample_queue sample_mem sample_queue_ok)
    as (idx & r & q' & _ & E & _ & Hr).
  destruct r as [dc|]; [|vm_compute in E; discriminate E].
  exists dc, q'. split; [exact E|]. by destruct Hr as (_ & _ & _ & Hu).
Defined.

Lemma add_used_spec_witness :
  exists q' m', @add_used _ _ dev_profile sample_queue sample_mem 1 512 = Ret (Ok tt, q', m') /\
                read_obj 4 m' 136 = Some 512.
Proof.
  pose proof (@add_used_spec _ _ dev_profile sample_queue sample_mem 1 512 sample_queue_ok
    ltac:(lia) ltac:(unfold in_range; lia)) as Hs.
  destruct Hs as (q' & m' & E & _ & _ & Hl & _). exists q', m'. split; [exact E|exact Hl].
Defined.

Lemma prepare_kick_spec_witness :
  exists q', @prepare_kick _ _ dev_profile (with_num_added (with_next_used sample_queue 1) 1)
               sample_mem = Ret (true, q') /\ num_added q' = 0.
Proof.
  set (q := with_num_added (with_next_used sample_queue 1) 1).
  destruct (@prepare_kick_spec _ _ dev_profile q sample_mem) as (b & q' & e & E & _ & Hs).
  { destruct sample_queue_ok. by split. }
  destruct (Hs eq_refl) as (_ & _ & -> & _).
  assert (b = true) as -> by (vm_compute in E; congruence).
  eexists. split; [exact E|done].
Defined.

Lemma try_enable_notification_no_loss_witness :
  exists m', @try_enable_notification _ _ dev_profile id (with_next_avail sample_queue 2) sample_mem
             = Ret (true, m') /\ read_obj 2 m' 66 = Some 2.
Proof.
  set (q := with_next_avail sample_queue 2).
  assert ((fst <$> @try_enable_notification _ _ dev_profile id q sample_mem) = Ret true) as Hb
    by (vm_compute; reflexivity).
  destruct (@try_enable_notification _ _ dev_profile id q sample_mem) as [[b m']|] eqn:E;
    cbn in Hb; [injection Hb as ->|discriminate Hb].
  exists m'. split; [reflexivity|].
  eapply (@try_enable_notification_no_loss _ _ dev_profile id q sample_mem m');
    [|reflexivity|reflexivity|reflexivity|exact E].
  apply with_next_avail_ok; [apply sample_queue_ok|unfold in_range; lia].
Defined.

(** The bound checks of [is_valid] look only at the end of each area.  In
    guest memory with a hole (as the MMIO gap leaves), an available ring that
    starts in the hole passes them, and reading its index then panics in both
    profiles. *)
Theorem Queue_is_valid_hole_panics (P : Profile) :
  let m := zeroes (zeroes ∅ 0 256) 512 64 in
  let q := mkQueue 256 4 true 0 508 128 0 0 false 0 in
  out_of_bounds m (avail_ring q) (6 + 2 * q_size q) = false /\
  @Queue_is_valid _ _ P q m = Panic.
Proof. by destruct P; vm_compute. Qed.
