(* ===== verification/QueueRuns.v ===== *)
(** * Queues under a driver

    What holds of a queue of [VirtioQueue] between two operations of a device: which chains
    wait, what an operation takes and gives back, and what does not change when memory does. *)

From Stdlib Require Import ZArith Lia.
From stdpp Require Import functions prelude.
From S2P Require Import Prelude GuestMemory VirtioQueue.

(** The areas of a queue that the driver writes, and the one the device writes. *)
Definition rings (q : Queue) (x : Z) : Prop :=
  span (desc_table q) (16 * q_size q) x \/ span (avail_ring q) (6 + 2 * q_size q) x.
Definition used_area (q : Queue) : Z -> Prop := span (used_ring q) (6 + 8 * q_size q).

(** Entry [i] of the used ring: the index of a chain and a length. *)
Definition used_entry {M} `{GuestMemory M} (q : Queue) (m : M) (i : Z) : option Z * option Z :=
  let slot := used_ring q + 4 + 8 * (i mod q_size q) in (read_obj 4 m slot, read_obj 4 m (slot + 4)).

Section Queues.
Context {M : Type} `{GuestMemory M} `{Profile}.
Implicit Types (m : M) (q : Queue) (head : DescriptorChain).

(** The same addresses are guest memory. *)
Definition same_map m m' : Prop := forall x, is_Some (byte_at m' x) <-> is_Some (byte_at m x).

Lemma same_map_trans m1 m2 m3 : same_map m1 m2 -> same_map m2 m3 -> same_map m1 m3.
Proof. intros Ha Hb x. unfold same_map in *. by rewrite (Hb x), (Ha x). Qed.

Lemma same_map_agrees P m m' : agrees P m m' -> same_map m m'.
Proof. by intros [_ Hm]. Qed.
Lemma same_map_backed m m' a n : same_map m m' -> backed m a n -> backed m' a n.
Proof. intros Hm Hb x Hx. by apply Hm, Hb. Qed.

Lemma pending_fields q m i head : pending_chain q m i = Some head ->
  dc_desc_table head = desc_table q /\ dc_queue_size head = q_size q /\ dc_ttl head = q_size q /\ 0 <= dc_index head < q_size q.
Proof.
  unfold pending_chain, ring_entry. destruct (read_obj 2 m _) as [h|] eqn:Eh; [|done]. cbn [mbind option_bind].
  apply read_obj_range in Eh. intros Hc. apply checked_new_fields in Hc as (-> & -> & -> & -> & ? & _). split_and!; [done..|lia|done].
Qed.

Lemma pending_next q m i head : pending_chain q m i = Some head -> 0 <= dc_next head.
Proof.
  unfold pending_chain. destruct (ring_entry q m i) as [h|]; [|done]. cbn [mbind option_bind]. unfold checked_new, read_descriptor.
  repeat case_match; try done. simplify_eq. intros [= <-]. cbn.
  match goal with E : read_bytes _ _ 16 = Some ?l |- _ => apply read_bytes_ok in E as [_ Hb] end.
  apply le_decode_nonneg. by apply Forall_take, Forall_drop.
Qed.

(** What is read through the rings does not change when they do not. *)
Lemma checked_new_agrees F q m m' i : queue_ok q m -> agrees F m m' -> (forall x, F x -> ~ rings q x) -> 0 <= i ->
  checked_new m' (desc_table q) (q_size q) i = checked_new m (desc_table q) (q_size q) i.
Proof.
  intros Hq Ha Hd Hi. unfold checked_new. destruct (Z.leb_spec (q_size q) i); [done|].
  assert (Ein : forall x, address_in_range m' x = address_in_range m x).
  { intros x. unfold address_in_range. apply bool_decide_ext, Ha. }
  assert (Eco : forall a n, checked_offset m' a n = checked_offset m a n).
  { intros a n. unfold checked_offset. destruct (checked_add 64 a n); [|done]. by rewrite Ein. }
  rewrite Eco. destruct (checked_offset m (desc_table q) (i * 16)) as [a|] eqn:Ea; [|done]. rewrite Eco.
  assert (Ha' : a = desc_table q + i * 16).
  { unfold checked_offset in Ea. destruct (checked_add 64 _ _) as [a'|] eqn:E1; [|done]. apply checked_add_inv in E1 as ->.
    destruct (address_in_range _ _); congruence. }
  destruct (checked_offset m a 16); [|done]. unfold read_descriptor. rewrite (agrees_read F m m'); [done|done|].
  intros x Hx HF. apply (Hd x HF). left. unfold span in *. lia.
Qed.

Lemma pending_agrees F q m m' i : queue_ok q m -> agrees F m m' -> (forall x, F x -> ~ rings q x) ->
  pending_chain q m' i = pending_chain q m i.
Proof.
  intros Hq Ha Hd. unfold pending_chain, ring_entry. pose proof (slot_range q m i Hq).
  rewrite (agrees_read_obj F m m'); [|done|].
  - destruct (read_obj 2 m _) as [h|] eqn:Eh; [|done]. cbn [mbind option_bind]. apply read_obj_range in Eh.
    apply (checked_new_agrees F); [done..|lia].
  - intros x Hx HF. apply (Hd x HF). right. unfold span in *. lia.
Qed.

(** Ring positions that are congruent. *)
Lemma slot_same q m i j : queue_ok q m -> wrap 16 i = wrap 16 j -> i mod q_size q = j mod q_size q.
Proof.
  intros [] E. assert (Hd : (q_size q | 2 ^ 16)) by (apply pow2_size_divides; [lia|done]).
  rewrite <-(slot_wrap (q_size q) i), E, slot_wrap by (lia || done). done.
Qed.

Lemma pending_wrap q m i j : queue_ok q m -> wrap 16 i = wrap 16 j -> pending_chain q m i = pending_chain q m j.
Proof. intros Hq E. unfold pending_chain, ring_entry. by rewrite (slot_same q m i j Hq E). Qed.

Lemma entry_wrap q m m' i j : queue_ok q m -> wrap 16 i = wrap 16 j -> used_entry q m' i = used_entry q m' j.
Proof. intros Hq E. unfold used_entry. by rewrite (slot_same q m i j Hq E). Qed.

Lemma entry_agrees F q m m' i : queue_ok q m -> agrees F m m' -> (forall x, F x -> ~ used_area q x) -> used_entry q m' i = used_entry q m i.
Proof.
  intros Hq Ha Hd. pose proof (slot_range q m i Hq) as Hs. unfold used_entry.
  rewrite !(agrees_read_obj F m m') by (done || (intros x Hx HF; apply (Hd x HF); unfold used_area, span in *; lia)). done.
Qed.

(** Publishing one entry. *)
Lemma add_used_step q m idx l : queue_ok q m -> 0 <= idx < q_size q -> in_range 32 l ->
  exists m', add_used q m idx l =
      Ret (Ok tt, with_next_used (with_num_added q (wadd 16 (num_added q) 1)) (wadd 16 (next_used q) 1), m') /\
    agrees (used_area q) m m' /\ used_entry q m' (next_used q) = (Some idx, Some l) /\
    read_obj 2 m' (used_ring q + 2) = Some (wadd 16 (next_used q) 1) /\
    forall j, 0 < j < q_size q -> used_entry q m' (next_used q + j) = used_entry q m (next_used q + j).
Proof.
  intros Hq Hi Hl. pose proof (add_used_spec q m idx l Hq (proj1 Hi) Hl) as Ha. rewrite (proj2 (Z.ltb_lt _ _)) in Ha by lia.
  destruct Ha as (q' & m' & Ea & _ & E1 & E2 & E3 & -> & Hfr). exists m'. split; [done|].
  pose proof (slot_range q m (next_used q) Hq) as Hs.
  assert (Hag : agrees (fun x => span (used_slot q) 8 x \/ span (used_ring q + 2) 2 x) m m').
  { split; [intros x Hx; apply Hfr; unfold span in *; intros ?; apply Hx; lia|]. intros x.
    destruct (add_used_ok q m idx l Hq Hi) as (_ & _ & _ & Ea'). rewrite Ea in Ea'. injection Ea' as ->. by rewrite !write_obj_mapped. }
  split; [eapply agrees_weaken; [|exact Hag]; intros x; unfold used_area, span, used_slot; lia|].
  split; [unfold used_entry; fold (used_slot q); congruence|]. split; [done|]. intros j Hj. unfold used_entry.
  pose proof (slot_range q m (next_used q + j) Hq) as Hs'.
  assert (Hne : (next_used q + j) mod q_size q <> next_used q mod q_size q).
  { intros E. apply Z.cong_iff_ex in E as [k Hk]. assert (k <> 0) by (intros ->; lia). nia. }
  rewrite !(agrees_read_obj _ m m' _ _ Hag) by (intros x; unfold span, used_slot; lia). done.
Qed.

Lemma next_agrees F q m m' head : queue_ok q m -> agrees F m m' -> (forall x, F x -> ~ rings q x) ->
  dc_desc_table head = desc_table q -> dc_queue_size head = q_size q -> 0 <= dc_next head ->
  next_descriptor m' head = next_descriptor m head.
Proof.
  intros Hq Ha Hd E1 E2 Hn. unfold next_descriptor. destruct (has_next head); [|done]. rewrite E1, E2. by rewrite (checked_new_agrees F q m m').
Qed.

(** The [i]-th chain that waits. *)
Definition chain q m (i : nat) : option DescriptorChain := pending_chain q m (next_avail q + Z.of_nat i).

(** A queue after [k] chains were taken and returned. *)
Definition advance q (k : nat) : Queue :=
  with_next_used (with_num_added (with_next_avail q (wadd 16 (next_avail q) (Z.of_nat k)))
    (wadd 16 (num_added q) (Z.of_nat k))) (wadd 16 (next_used q) (Z.of_nat k)).

Lemma advance_0 q m : queue_ok q m -> advance q 0 = q.
Proof. intros []. unfold advance, wadd. cbn [Z.of_nat]. rewrite !Z.add_0_r, !wrap_id by done. by destruct q. Qed.

Lemma advance_next q k : with_next_used (with_num_added (with_next_avail (advance q k) (wadd 16 (next_avail (advance q k)) 1)) (wadd 16 (num_added (advance q k)) 1))
  (wadd 16 (next_used (advance q k)) 1) = advance q (S k).
Proof.
  unfold advance. cbn. unfold with_next_used, with_num_added, with_next_avail. cbn. unfold wadd. rewrite !wrap_add_l.
  assert (E : forall a, a + Z.of_nat k + 1 = a + Z.of_nat (S k)) by lia. by rewrite !E.
Qed.

Lemma advance_S q k : advance (advance q 1) k = advance q (S k).
Proof.
  unfold advance, wadd. cbn [next_avail next_used num_added with_next_used with_num_added with_next_avail].
  rewrite !wrap_add_l. replace (Z.of_nat (S k)) with (1 + Z.of_nat k) by lia. rewrite !Z.add_assoc. done.
Qed.

(** A chain taken from slot [next_avail], or nothing. *)
Lemma take_spec driver q m : queue_ok q m -> (forall m, same_map m (driver m)) ->
  exists r q' m', pop_or_enable_notification driver q m = Ret (r, q', m') /\ same_map m m' /\ queue_ok q' m' /\
    match r with
    | None => q' = q
    | Some head => pending_chain q m' (next_avail q) = Some head /\ q' = with_next_avail q (wadd 16 (next_avail q) 1) /\ undo_pop q' = q
    end.
Proof.
  intros Hq Hd. unfold pop_or_enable_notification.
  assert (Hpop : forall m1, same_map m m1 -> exists r q' m', (r0 ← do_pop_unchecked q m1; Ret (r0.1, r0.2, m1)) = Ret (r, q', m') /\
    same_map m m' /\ queue_ok q' m' /\ match r with None => q' = q
      | Some head => pending_chain q m' (next_avail q) = Some head /\ q' = with_next_avail q (wadd 16 (next_avail q) 1) /\ undo_pop q' = q end).
  { intros m1 Hm. pose proof (queue_ok_mem q m m1 Hq Hm) as Hq1. destruct (do_pop_ok q m1 Hq1) as (h & Eh & ->). rewrite bind_Ret.
    pose proof (ok_next_avail _ _ Hq) as Hna. 
    assert (Hpc : pending_chain q m1 (next_avail q) = checked_new m1 (desc_table q) (q_size q) h) by (unfold pending_chain; by rewrite Eh).
    destruct (checked_new m1 (desc_table q) (q_size q) h) as [dc|] eqn:Ec; do 3 eexists; (split; [done|]); (split; [done|]); cbn [fst snd].
    - split; [by apply with_next_avail_ok; [|apply wadd_range]|]. split; [congruence|]. split; [done|].
      unfold undo_pop. cbn. unfold wsub, wadd. rewrite wrap_sub_l. replace (next_avail q + 1 - 1) with (next_avail q) by lia.
      rewrite (wrap_id 16 (next_avail q)) by done. by destruct q.
    - done. }
  destruct (negb (uses_notif_suppression q)) eqn:Eu.
  - unfold pop. destruct (Queue_len_ok q m Hq) as (i & _ & _ & ->). rewrite bind_Ret. destruct (_ =? 0); [|by apply Hpop].
    rewrite bind_Ret. do 3 eexists. split; [done|]. done.
  - unfold try_enable_notification. rewrite Eu. destruct (Queue_len_ok q m Hq) as (i & _ & _ & ->). rewrite bind_Ret.
    clear Eu. destruct (negb _); [rewrite bind_Ret; by apply Hpop|].
    destruct (set_avail_event_ok q m (next_avail q) Hq) as [_ ->]. rewrite bind_Ret. set (m1 := driver _).
    assert (Hm1 : same_map m m1) by (eapply same_map_trans; [|apply Hd]; intros x; apply write_obj_mapped).
    destruct (avail_idx_ok q m1 (queue_ok_mem q m m1 Hq Hm1)) as (j & -> & _). rewrite !bind_Ret. cbn [fst snd].
    destruct (next_avail q =? j); [|by apply Hpop]. do 3 eexists. split; [done|]. split; [done|]. split; [|done].
    by apply (queue_ok_mem q m).
Qed.

Lemma pending_index q m i head : queue_ok q m -> pending_chain q m i = Some head -> 0 <= dc_index head < q_size q /\ chain_ranges head.
Proof.
  intros Hq. unfold pending_chain. destruct (ring_entry_ok q m i Hq) as (h & -> & Hh). cbn [mbind option_bind]. intros Ec.
  pose proof (checked_new_ranges _ _ _ _ _ Ec) as Hr. apply checked_new_fields in Ec as (_ & _ & _ & <- & ? & _). split; [|done].
  unfold in_range in Hh. lia.
Qed.

(** Popping: nothing, or the chain at slot [next_avail]. *)
Lemma pop_take q m : queue_ok q m -> exists r q', pop q m = Ret (r, q') /\ queue_ok q' m /\ q_size q' = q_size q /\
  match r with
  | None => q' = q
  | Some head => pending_chain q m (next_avail q) = Some head /\ q' = with_next_avail q (wadd 16 (next_avail q) 1) /\ undo_pop q' = q /\
      0 <= dc_index head < q_size q /\ chain_ranges head
  end.
Proof.
  intros Hq. unfold pop. destruct (Queue_len_ok q m Hq) as (i & _ & _ & ->). rewrite bind_Ret. destruct (_ =? 0); [by do 2 eexists|].
  destruct (do_pop_ok q m Hq) as (h & Eh & ->). pose proof (ok_next_avail _ _ Hq) as Hna.
  assert (Hpc : pending_chain q m (next_avail q) = checked_new m (desc_table q) (q_size q) h) by (unfold pending_chain; by rewrite Eh).
  destruct (checked_new m (desc_table q) (q_size q) h) as [dc|] eqn:Ec; do 2 eexists; (split; [done|]); [|done].
  split; [by apply with_next_avail_ok; [|apply wadd_range]|]. split; [done|]. split; [done|]. split; [done|]. split; [|by apply (pending_index q m (next_avail q))].
  unfold undo_pop. cbn. unfold wsub, wadd. rewrite wrap_sub_l. replace (next_avail q + 1 - 1) with (next_avail q) by lia.
  rewrite (wrap_id 16 (next_avail q)) by done. by destruct q.
Qed.

Lemma undo_pop_ok q m : queue_ok q m -> queue_ok (undo_pop q) m.
Proof. intros Hq. apply with_next_avail_ok; [done|]. by apply wsub_range. Qed.

(** The next chain, after the first one was handled. *)
Lemma chain_S q m m2 i F : queue_ok q m -> agrees F m m2 -> (forall x, F x -> ~ rings q x) ->
  chain (advance q 1) m2 i = chain q m (S i).
Proof.
  intros Hq Ha Hd. unfold chain. change (next_avail (advance q 1)) with (wadd 16 (next_avail q) 1).
  transitivity (pending_chain q m2 (wadd 16 (next_avail q) 1 + Z.of_nat i)); [done|].
  rewrite (pending_agrees F q m m2) by done. apply (pending_wrap q m); [done|]. unfold wadd. rewrite wrap_add_l. f_equal. lia.
Qed.

(** The number of chains that wait is what the driver's index says. *)
Definition waiting q m (n : nat) : Prop :=
  exists idx, read_obj 2 m (avail_ring q + 2) = Some idx /\ wsub 16 idx (next_avail q) = Z.of_nat n.

Lemma waiting_S q m m2 n F : queue_ok q m -> agrees F m m2 -> (forall x, F x -> ~ rings q x) -> waiting q m (S n) ->
  waiting (advance q 1) m2 n.
Proof.
  intros Hq Ha Hd (idx & Ei & Hw). exists idx. pose proof (ok_size q m Hq). split.
  - cbn [avail_ring advance with_next_used with_num_added with_next_avail]. rewrite (agrees_read_obj F m m2); [done|done|].
    intros x Hx HF. apply (Hd x HF). right. unfold span in *. lia.
  - change (next_avail (advance q 1)) with (wadd 16 (next_avail q) 1). unfold wsub, wadd in *. rewrite wrap_sub_r. pose proof (wrap_range 16 (idx - next_avail q) ltac:(lia)).
    replace (idx - (next_avail q + 1)) with (idx - next_avail q - 1) by lia. rewrite <-wrap_sub_l, Hw, wrap_id; [lia|].
    rewrite Hw in *. unfold in_range in *. lia.
Qed.

Lemma pop_waiting q m n : queue_ok q m -> waiting q m n ->
  exists r q1, pop q m = Ret (r, q1) /\
    match r with
    | Some head => (0 < n)%nat /\ chain q m 0 = Some head /\ q1 = with_next_avail q (wadd 16 (next_avail q) 1) /\ undo_pop q1 = q /\
        in_range 16 (dc_ttl head) /\ 0 <= dc_index head < q_size q
    | None => q1 = q /\ (n = O \/ (0 < n)%nat /\ chain q m 0 = None)
    end.
Proof.
  intros Hq (idx & Ei & Hw). destruct (pop_spec q m Hq) as (idx' & r & q1 & Ei' & Ep & Hq1 & Hr).
  rewrite Ei in Ei'. injection Ei' as <-. exists r, q1. split; [done|]. unfold chain. rewrite Z.add_0_r. destruct r as [head|].
  - destruct Hr as (Hne & Hpc & _ & Hu). destruct (pending_fields q m _ head Hpc) as (_ & _ & Httl & Hix).
    assert (Hn : n <> O).
    { intros ->. apply Hne. destruct (Queue_len_ok q m Hq) as (i & Ei2 & Hir & _). rewrite Ei in Ei2. injection Ei2 as <-.
      destruct Hq. unfold wsub, wrap, in_range in *. apply Z.mod_divide in Hw as [k Hk]; [|lia]. nia. }
    split; [lia|]. split; [done|]. split; [|split; [done|split; [destruct Hq; range_solve|done]]].
    pose proof (pop_pending q m idx head Hq Ei ltac:(lia) Hpc). congruence.
  - destruct Hr as [-> [->|Hnone]]; (split; [done|]).
    + left. unfold wsub in Hw. rewrite Z.sub_diag in Hw. change (wrap 16 0) with 0 in Hw. lia.
    + destruct n; [by left|right]. split; [lia|done].
Qed.

Lemma wsub_zero x y : in_range 16 x -> in_range 16 y -> wsub 16 x y = 0 -> x = y.
Proof. unfold wsub, wrap, in_range. intros Ha Hb [k Hk]%Z.mod_divide; [nia|lia]. Qed.

(** Taking a chain from a queue in which [n] chains wait, while the driver rests. *)
Lemma take_waiting driver q m n : (forall m, driver m = m) -> queue_ok q m -> waiting q m n -> (forall x, used_area q x -> ~ rings q x) ->
  match n with
  | O => exists m', pop_or_enable_notification driver q m = Ret (None, q, m') /\ agrees (used_area q) m m'
  | S _ => forall head, chain q m 0 = Some head -> pop_or_enable_notification driver q m = Ret (Some head, with_next_avail q (wadd 16 (next_avail q) 1), m)
  end.
Proof.
  intros Hdr Hq (idx & Ei & Hw) Hap. unfold pop_or_enable_notification, pop, try_enable_notification.
  destruct (Queue_len_ok q m Hq) as (i & Ei' & Hir & El). rewrite Ei in Ei'. injection Ei' as <-. rewrite El, !bind_Ret, Hw. destruct n as [|n].
  - cbn [Z.of_nat]. destruct (uses_notif_suppression q) eqn:Eu; cbn [negb].
    + destruct (set_avail_event_ok q m (next_avail q) Hq) as [Ew ->]. rewrite bind_Ret. cbv zeta. set (w := write_obj _ _ _ _) in *. rewrite Hdr.
      assert (Ha : agrees (used_area q) m w.2).
      { pose proof (agrees_write m (used_ring q + 4 + 8 * q_size q) (le_encode 2 (next_avail q)) (le_encode_ok _ _)) as Ha.
        eapply agrees_weaken; [|exact Ha]. intros x. rewrite length_le_encode. pose proof (ok_size _ _ Hq). unfold used_area, span. lia. }
      assert (Hq' : queue_ok q w.2) by (apply (queue_ok_mem _ m); [done|apply Ha]). destruct (avail_idx_ok q w.2 Hq') as (j & -> & Ej & Hj).
      rewrite !bind_Ret. cbn [fst snd]. exists w.2. split; [|done].
      assert (j = idx) as ->.
      { rewrite (agrees_read_obj _ m w.2 _ _ Ha), Ei in Ej; [congruence|]. intros x Hx Hu. apply (Hap x Hu). right. pose proof (ok_size _ _ Hq). unfold span in *. lia. }
      change (negb (Z.of_nat 0 =? 0)) with false. cbv iota. rewrite bind_Ret. cbn [fst snd].
      by rewrite (wsub_zero idx (next_avail q)), Z.eqb_refl by (done || apply Hq).
    + exists m. split; [done|]. apply agrees_refl.
  - intros head Hc. unfold chain in Hc. rewrite Z.add_0_r in Hc. destruct (do_pop_ok q m Hq) as (h & Eh & Ep).
    unfold pending_chain in Hc. rewrite Eh in Hc. cbn [mbind option_bind] in Hc. rewrite Hc in Ep.
    rewrite (proj2 (Z.eqb_neq _ _)) by lia. cbn [negb]. destruct (uses_notif_suppression q); cbn [negb]; rewrite ?bind_Ret; cbn [fst snd]; by rewrite Ep, bind_Ret.
Qed.
End Queues.
