(* ===== verification/Mmio.v ===== *)
(** * The virtio MMIO transport

    [devices/src/virtio/mmio.rs] and the provided methods of the [VirtioDevice]
    trait ([devices/src/virtio/device.rs]): the registers through which a guest
    driver negotiates features, configures the queues and drives the device's
    status.

    A device is any type with the trait's required methods (class
    [VirtioDevice]).  The interrupt status, an atomic shared with the device's
    thread, is a field of the transport's state: that thread's only operation on
    it is [trigger_irq].  Warnings are left out. *)

From Stdlib Require Import ZArith Lia.
From stdpp Require Import functions prelude.
From S2P Require Import Prelude GuestMemory VirtioQueue.

(** ** Definitions *)

Definition INIT : Z := 0.
Definition ACKNOWLEDGE : Z := 1.
Definition DRIVER : Z := 2.
Definition FAILED : Z := 128.
Definition FEATURES_OK : Z := 8.
Definition DRIVER_OK : Z := 4.

Definition VENDOR_ID : Z := 0.
Definition VIRTIO_MMIO_INT_VRING : Z := 1.
Definition VIRTIO_MMIO_INT_CONFIG : Z := 2.
Definition MMIO_MAGIC_VALUE : Z := 0x74726976.
Definition MMIO_VERSION : Z := 2.

Definition VIRTIO_F_VERSION_1 : Z := 32.

(** The bitwise complement at width [w]. *)
Definition unot (w v : Z) : Z := Z.land (Z.lnot v) (Z.ones w).

Inductive IrqType := Config | Vring.

(** [trigger_irq] on the shared interrupt status. *)
Definition trigger_irq (irq_status : Z) (t : IrqType) : Z :=
  Z.lor irq_status (match t with Config => VIRTIO_MMIO_INT_CONFIG | Vring => VIRTIO_MMIO_INT_VRING end).

(** The required methods of the trait, and what the transport relies on: each
    setter sets what it names and the other methods leave the queues and the
    features alone. *)
Class VirtioDevice (D M : Type) := {
  avail_features : D -> Z;
  acked_features : D -> Z;
  set_acked_features : D -> Z -> D;
  device_type : D -> Z;
  queues : D -> list Queue;
  set_queues : D -> list Queue -> D;
  is_activated : D -> bool;
  activate : D -> M -> result unit unit * D;
  dev_reset : D -> option unit * D;
  read_config : D -> Z -> list Z -> list Z;
  write_config : D -> Z -> list Z -> D;

  queues_set_queues d l : queues (set_queues d l) = l;
  acked_set_queues d l : acked_features (set_queues d l) = acked_features d;
  avail_set_queues d l : avail_features (set_queues d l) = avail_features d;
  activated_set_queues d l : is_activated (set_queues d l) = is_activated d;
  acked_set_acked d v : acked_features (set_acked_features d v) = v;
  avail_set_acked d v : avail_features (set_acked_features d v) = avail_features d;
  queues_set_acked d v : queues (set_acked_features d v) = queues d;
  activated_set_acked d v : is_activated (set_acked_features d v) = is_activated d;
  queues_write_config d o l : queues (write_config d o l) = queues d;
  acked_write_config d o l : acked_features (write_config d o l) = acked_features d;
  avail_write_config d o l : avail_features (write_config d o l) = avail_features d;
  activated_write_config d o l : is_activated (write_config d o l) = is_activated d;
  acked_activate d m : acked_features (activate d m).2 = acked_features d;
  avail_activate d m : avail_features (activate d m).2 = avail_features d;
  acked_reset d : acked_features (dev_reset d).2 = acked_features d;
  avail_reset d : avail_features (dev_reset d).2 = avail_features d;
  activated_reset d : is_activated (dev_reset d).2 = true -> is_activated d = true
}.

(** What is asked of the event manager. *)
Inductive EventOp :=
| OpAdd (fd : Z) (evset : bool * bool)
| OpRemove (fd : Z).

(** [read_config] and [write_config] of a device with configuration space [c].  The slice is
    indexed with the sum that was compared, after a wrap-around as well. *)
Definition config_read (c : list Z) (offset : Z) (data : list Z) : list Z :=
  let config_len := Z.of_nat (length c) in
  if config_len <=? offset then data
  else match checked_add 64 offset (Z.of_nat (length data)) with
  | None => data
  | Some end_ =>
      let l := take (Z.to_nat (Z.min end_ config_len - offset)) (drop (Z.to_nat offset) c) in
      l ++ drop (length l) data
  end.

Definition config_write `{Profile} (c : list Z) (offset : Z) (data : list Z) : exec (option (list Z)) :=
  end_ ← uadd 64 offset (Z.of_nat (length data));
  if Z.of_nat (length c) <? end_ then Ret None
  else if end_ <? offset then Panic
  else Ret (Some (take (Z.to_nat offset) c ++ data ++ drop (Z.to_nat end_) c)).

Section Mmio.
Context {M : Type} `{GuestMemory M} {D : Type} `{VirtioDevice D M} `{Profile}.

Definition avail_features_by_page (d : D) (page : Z) : Z :=
  if page =? 0 then wrap 32 (avail_features d)
  else if page =? 1 then wrap 32 (Z.shiftr (avail_features d) 32)
  else 0.

Definition ack_features_by_page (d : D) (page value : Z) : D :=
  let v := if page =? 0 then value
           else if page =? 1 then wrap 64 (Z.shiftl value 32) else 0 in
  let unrequested_features := Z.land v (unot 64 (avail_features d)) in
  let v := if negb (unrequested_features =? 0)
           then Z.land v (unot 64 unrequested_features) else v in
  set_acked_features d (Z.lor (acked_features d) v).

Record MmioTransport := mkMmio {
  device : D;
  features_select : Z;
  acked_features_select : Z;
  queue_select : Z;
  device_status : Z;
  config_generation : Z;
  mem : M;
  interrupt_status : Z
}.

Definition MmioTransport_new (m : M) (d : D) (irq_status : Z) : MmioTransport :=
  mkMmio d 0 0 0 INIT 0 m irq_status.

Definition with_device (t : MmioTransport) (d : D) : MmioTransport :=
  mkMmio d (features_select t) (acked_features_select t) (queue_select t) (device_status t)
    (config_generation t) (mem t) (interrupt_status t).
Definition with_status (t : MmioTransport) (s : Z) : MmioTransport :=
  mkMmio (device t) (features_select t) (acked_features_select t) (queue_select t) s
    (config_generation t) (mem t) (interrupt_status t).

Definition check_device_status (t : MmioTransport) (set clr : Z) : bool :=
  Z.land (device_status t) (Z.lor set clr) =? set.

Fixpoint all_valid (l : list Queue) (m : M) : exec bool :=
  match l with
  | [] => Ret true
  | q :: l => b ← Queue_is_valid q m; if b : bool then all_valid l m else Ret false
  end.
Definition are_queues_valid (t : MmioTransport) : exec bool :=
  all_valid (queues (device t)) (mem t).

Definition with_queue {U} (t : MmioTransport) (d : U) (f : Queue -> U) : U :=
  match queues (device t) !! Z.to_nat (queue_select t) with
  | Some queue => f queue
  | None => d
  end.

Definition with_queue_mut (t : MmioTransport) (f : Queue -> Queue) : MmioTransport :=
  match queues (device t) !! Z.to_nat (queue_select t) with
  | Some queue =>
      with_device t (set_queues (device t)
        (<[Z.to_nat (queue_select t) := f queue]> (queues (device t))))
  | None => t
  end.

Definition update_queue_field (t : MmioTransport) (f : Queue -> Queue) : MmioTransport :=
  if check_device_status t FEATURES_OK (Z.lor DRIVER_OK FAILED) then with_queue_mut t f else t.

Definition mmio_reset (t : MmioTransport) : MmioTransport :=
  mkMmio (set_queues (device t) (map (fun q => Queue_new (get_max_size q)) (queues (device t))))
    0 0 0 INIT (config_generation t) (mem t) 0.

Definition set_device_status (t : MmioTransport) (status : Z) : exec MmioTransport :=
  let changed := Z.land (unot 32 (device_status t)) status in
  if (changed =? ACKNOWLEDGE) && (device_status t =? INIT) then Ret (with_status t status)
  else if (changed =? DRIVER) && (device_status t =? ACKNOWLEDGE) then Ret (with_status t status)
  else if (changed =? FEATURES_OK) && (device_status t =? Z.lor ACKNOWLEDGE DRIVER)
  then Ret (with_status t status)
  else if (changed =? DRIVER_OK) &&
          (device_status t =? Z.lor (Z.lor ACKNOWLEDGE DRIVER) FEATURES_OK) then
    let t := with_status t status in
    if is_activated (device t) then Ret t
    else
      valid ← are_queues_valid t;
      if valid : bool then
        let r := activate (device t) (mem t) in
        match r.1 with
        | Ok _ => Ret (with_device t r.2)
        | Err _ => Panic
        end
      else Ret t
  else if negb (Z.land status FAILED =? 0)
  then Ret (with_status t (Z.lor (device_status t) FAILED))
  else if status =? 0 then
    let t :=
      if is_activated (device t) then
        let r := dev_reset (device t) in
        let s := match r.1 with
                 | Some _ => device_status t
                 | None => Z.lor (device_status t) FAILED
                 end in
        with_status (with_device t r.2) s
      else t in
    Ret (if Z.land (device_status t) FAILED =? 0 then mmio_reset t else t)
  else Ret t.

(** The value of a 32-bit register; [None]: an unknown register. *)
Definition read_register (t : MmioTransport) (offset : Z) : option Z :=
  match offset with
  | 0x0 => Some MMIO_MAGIC_VALUE
  | 0x04 => Some MMIO_VERSION
  | 0x08 => Some (device_type (device t))
  | 0x0c => Some VENDOR_ID
  | 0x10 =>
      let features := avail_features_by_page (device t) (features_select t) in
      Some (if features_select t =? 1 then Z.lor features 1 else features)
  | 0x34 => Some (with_queue t 0 get_max_size)
  | 0x44 => Some (with_queue t 0 (fun q => if ready q then 1 else 0))
  | 0x60 => Some (wrap 32 (interrupt_status t))
  | 0x70 => Some (device_status t)
  | 0xfc => Some (config_generation t)
  | _ => None
  end.

Definition mmio_read (t : MmioTransport) (offset : Z) (data : list Z) : list Z :=
  if (0 <=? offset) && (offset <=? 0xff) && (Z.of_nat (length data) =? 4) then
    match read_register t offset with
    | Some v => le_encode 4 v
    | None => data
    end
  else if (0x100 <=? offset) && (offset <=? 0xfff)
  then read_config (device t) (offset - 0x100) data
  else data.

Definition hi (v x : Z) : Z := Z.lor (Z.land v 0xffffffff) (wrap 64 (Z.shiftl x 32)).
Definition lo (v x : Z) : Z := Z.lor (Z.land v (unot 64 0xffffffff)) x.

Definition set_size (v : Z) (q : Queue) : Queue :=
  mkQueue (max_size q) (wrap 16 v) (ready q) (desc_table q) (avail_ring q) (used_ring q)
    (next_avail q) (next_used q) (uses_notif_suppression q) (num_added q).
Definition set_ready (v : Z) (q : Queue) : Queue :=
  mkQueue (max_size q) (q_size q) (v =? 1) (desc_table q) (avail_ring q) (used_ring q)
    (next_avail q) (next_used q) (uses_notif_suppression q) (num_added q).
Definition set_desc_table (f : Z -> Z) (q : Queue) : Queue :=
  mkQueue (max_size q) (q_size q) (ready q) (f (desc_table q)) (avail_ring q) (used_ring q)
    (next_avail q) (next_used q) (uses_notif_suppression q) (num_added q).
Definition set_avail_ring (f : Z -> Z) (q : Queue) : Queue :=
  mkQueue (max_size q) (q_size q) (ready q) (desc_table q) (f (avail_ring q)) (used_ring q)
    (next_avail q) (next_used q) (uses_notif_suppression q) (num_added q).
Definition set_used_ring (f : Z -> Z) (q : Queue) : Queue :=
  mkQueue (max_size q) (q_size q) (ready q) (desc_table q) (avail_ring q) (f (used_ring q))
    (next_avail q) (next_used q) (uses_notif_suppression q) (num_added q).

Definition write_register (t : MmioTransport) (offset v : Z) : exec MmioTransport :=
  match offset with
  | 0x14 => Ret (mkMmio (device t) v (acked_features_select t) (queue_select t) (device_status t)
                   (config_generation t) (mem t) (interrupt_status t))
  | 0x20 =>
      Ret (if check_device_status t DRIVER (Z.lor FEATURES_OK FAILED)
           then with_device t (ack_features_by_page (device t) (acked_features_select t) v) else t)
  | 0x24 => Ret (mkMmio (device t) (features_select t) v (queue_select t) (device_status t)
                   (config_generation t) (mem t) (interrupt_status t))
  | 0x30 => Ret (mkMmio (device t) (features_select t) (acked_features_select t) v (device_status t)
                   (config_generation t) (mem t) (interrupt_status t))
  | 0x38 => Ret (update_queue_field t (set_size v))
  | 0x44 => Ret (update_queue_field t (set_ready v))
  | 0x64 =>
      Ret (if check_device_status t DRIVER_OK 0
           then mkMmio (device t) (features_select t) (acked_features_select t) (queue_select t)
                  (device_status t) (config_generation t) (mem t)
                  (Z.land (interrupt_status t) (unot 64 v))
           else t)
  | 0x70 => set_device_status t v
  | 0x80 => Ret (update_queue_field t (set_desc_table (fun a => lo a v)))
  | 0x84 => Ret (update_queue_field t (set_desc_table (fun a => hi a v)))
  | 0x90 => Ret (update_queue_field t (set_avail_ring (fun a => lo a v)))
  | 0x94 => Ret (update_queue_field t (set_avail_ring (fun a => hi a v)))
  | 0xa0 => Ret (update_queue_field t (set_used_ring (fun a => lo a v)))
  | 0xa4 => Ret (update_queue_field t (set_used_ring (fun a => hi a v)))
  | _ => Ret t
  end.

Definition mmio_write (t : MmioTransport) (offset : Z) (data : list Z) : exec MmioTransport :=
  if (0 <=? offset) && (offset <=? 0xff) && (Z.of_nat (length data) =? 4) then
    write_register t offset (le_decode data)
  else if (0x100 <=? offset) && (offset <=? 0xfff) then
    Ret (if check_device_status t DRIVER FAILED
         then with_device t (write_config (device t) (offset - 0x100) data) else t)
  else Ret t.
End Mmio.

(** ** Specification *)

Section Spec.
Context {M : Type} `{GuestMemory M} {D : Type} `{VirtioDevice D M} `{Profile}.

Local Abbreviation transport := (@MmioTransport M D).

Definition has_status (t : transport) (bit : Z) : bool :=
  negb (Z.land (device_status t) bit =? 0).

(** What the guest and the device's thread can do to a transport: write to its
    registers, and raise an interrupt. *)
Inductive mmio_reach : transport -> transport -> Prop :=
| reach_refl t : mmio_reach t t
| reach_write t t' t'' offset data :
    mmio_reach t t' -> bytes_ok data -> mmio_write t' offset data = Ret t'' -> mmio_reach t t''
| reach_irq t t' i :
    mmio_reach t t' ->
    mmio_reach t (mkMmio (device t') (features_select t') (acked_features_select t')
                    (queue_select t') (device_status t') (config_generation t') (mem t')
                    (trigger_irq (interrupt_status t') i)).

(** The kinds of effect a write can have. *)
Inductive write_effect (t : transport) (offset v : Z) : transport -> Prop :=
| effect_select t' :
    device t' = device t -> device_status t' = device_status t -> mem t' = mem t ->
    write_effect t offset v t'
| effect_queue f : write_effect t offset v (update_queue_field t f)
| effect_ack :
    check_device_status t DRIVER (Z.lor FEATURES_OK FAILED) = true -> in_range 32 v ->
    write_effect t offset v
      (with_device t (ack_features_by_page (device t) (acked_features_select t) v))
| effect_status t' :
    offset = 0x70 -> set_device_status t v = Ret t' -> write_effect t offset v t'
| effect_config o l : write_effect t offset v (with_device t (write_config (device t) o l)).

Lemma mmio_write_effect (t : transport) offset data t' :
  bytes_ok data -> mmio_write t offset data = Ret t' ->
  write_effect t offset (le_decode data) t'.
Proof.
  intros Hb. unfold mmio_write. destruct (_ && _ && _) eqn:Eo.
  - assert (in_range 32 (le_decode data)) as Hv.
    { apply andb_true_iff in Eo as [_ Hl%Z.eqb_eq]. pose proof (le_decode_range data Hb) as Hr.
      rewrite Hl in Hr. done. }
    unfold write_register. intros E.
    repeat case_match; simplify_eq; try (by apply effect_select);
      try (by apply effect_queue); try (by apply effect_status); by apply effect_ack.
  - repeat case_match; intros [= <-]; first [by apply effect_config | by apply effect_select].
Qed.

(** ** Lemmas *)

Lemma update_queue_field_status (t : transport) f :
  device_status (update_queue_field t f) = device_status t /\
  acked_features (device (update_queue_field t f)) = acked_features (device t) /\
  avail_features (device (update_queue_field t f)) = avail_features (device t) /\
  is_activated (device (update_queue_field t f)) = is_activated (device t).
Proof.
  unfold update_queue_field, with_queue_mut. repeat case_match; try done. cbn.
  by rewrite acked_set_queues, avail_set_queues, activated_set_queues.
Qed.

Lemma land_bit x n : 0 <= n -> negb (Z.land x (2 ^ n) =? 0) = Z.testbit x n.
Proof.
  intros Hn. rewrite <- Z.shiftl_1_l. destruct (Z.testbit x n) eqn:E.
  - apply negb_true_iff, Z.eqb_neq. intros Hz.
    assert (Z.testbit (Z.land x (Z.shiftl 1 n)) n = false) as Hb by (rewrite Hz; apply Z.bits_0).
    rewrite Z.land_spec, E, Z.shiftl_1_l, Z.pow2_bits_true in Hb by done. done.
  - apply negb_false_iff, Z.eqb_eq. apply Z.bits_inj'. intros k Hk.
    rewrite Z.land_spec, Z.bits_0, Z.shiftl_1_l, Z.pow2_bits_eqb by done.
    destruct (Z.eqb_spec n k) as [->|]; [by rewrite E|apply andb_false_r].
Qed.

Lemma has_failed_bit (t : transport) : has_status t FAILED = Z.testbit (device_status t) 7.
Proof. apply (land_bit _ 7). lia. Qed.
Lemma has_driver_ok_bit (t : transport) : has_status t DRIVER_OK = Z.testbit (device_status t) 2.
Proof. apply (land_bit _ 2). lia. Qed.
Lemma has_features_ok_bit (t : transport) : has_status t FEATURES_OK = Z.testbit (device_status t) 3.
Proof. apply (land_bit _ 3). lia. Qed.

(** A status test that requires [clr] to be absent fails when a bit of it is set. *)
Lemma check_status_clear (t : transport) set clr n :
  0 <= n -> Z.testbit clr n = true -> Z.testbit set n = false ->
  Z.testbit (device_status t) n = true -> check_device_status t set clr = false.
Proof.
  intros Hn Hc Hs Ht. unfold check_device_status. apply Z.eqb_neq. intros E.
  apply (f_equal (fun z => Z.testbit z n)) in E.
  rewrite Z.land_spec, Z.lor_spec, Hc, Hs, Ht in E. done.
Qed.

(** The branches of [set_device_status]. *)
Inductive status_effect (t : transport) (v : Z) : transport -> Prop :=
| status_progress :
    (device_status t = INIT \/ device_status t = ACKNOWLEDGE \/
     device_status t = Z.lor ACKNOWLEDGE DRIVER) ->
    status_effect t v (with_status t v)
| status_ready :
    device_status t = Z.lor (Z.lor ACKNOWLEDGE DRIVER) FEATURES_OK ->
    Z.land (unot 32 (device_status t)) v = DRIVER_OK ->
    status_effect t v (with_status t v)
| status_activate :
    device_status t = Z.lor (Z.lor ACKNOWLEDGE DRIVER) FEATURES_OK ->
    Z.land (unot 32 (device_status t)) v = DRIVER_OK ->
    is_activated (device t) = false ->
    are_queues_valid t = Ret true -> (activate (device t) (mem t)).1 = Ok tt ->
    status_effect t v (with_device (with_status t v) (activate (device t) (mem t)).2)
| status_failed :
    status_effect t v (with_status t (Z.lor (device_status t) FAILED))
| status_reset_failed d s :
    v = 0 -> d = device t \/ d = (dev_reset (device t)).2 /\ is_activated (device t) = true ->
    s = device_status t \/ s = Z.lor (device_status t) FAILED -> Z.land s FAILED <> 0 ->
    status_effect t v (with_status (with_device t d) s)
| status_reset d :
    v = 0 -> d = device t \/ d = (dev_reset (device t)).2 /\ is_activated (device t) = true ->
    (is_activated (device t) = true -> (dev_reset (device t)).1 <> None) ->
    Z.land (device_status t) FAILED = 0 ->
    status_effect t v (mmio_reset (with_device t d))
| status_same : status_effect t v t.

Lemma with_status_same (t : transport) : with_status (with_device t (device t)) (device_status t) = t.
Proof. by destruct t. Qed.

Lemma set_device_status_effect (t : transport) v t' :
  set_device_status t v = Ret t' -> status_effect t v t'.
Proof.
  unfold set_device_status. set (changed := Z.land _ v). cbv zeta.
  destruct ((changed =? ACKNOWLEDGE) && _) eqn:E1.
  { intros [= <-]. apply status_progress. lia. }
  destruct ((changed =? DRIVER) && _) eqn:E2.
  { intros [= <-]. apply status_progress. lia. }
  destruct ((changed =? FEATURES_OK) && _) eqn:E3.
  { intros [= <-]. apply status_progress. lia. }
  destruct ((changed =? DRIVER_OK) && _) eqn:E4.
  { apply andb_true_iff in E4 as [Hc%Z.eqb_eq Hs%Z.eqb_eq].
    cbn [with_status device]. destruct (is_activated (device t)) eqn:Ea.
    { intros [= <-]. by apply status_ready. }
    intros E. apply bind_Ret_inv in E as (valid & Ev & E).
    destruct valid; [|injection E as <-; by apply status_ready].
    change (mem (with_status t v)) with (mem t) in E. destruct (activate (device t) (mem t)).1 as [[]|] eqn:Eact; [|done].
    injection E as <-. by apply status_activate. }
  destruct (negb (Z.land v FAILED =? 0)).
  { intros [= <-]. apply status_failed. }
  destruct (Z.eqb_spec v 0) as [Hv|]; [|intros [= <-]; apply status_same].
  intros [= <-]. destruct (is_activated (device t)) eqn:Ea.
  - cbn [with_status device_status]. destruct (dev_reset (device t)).1 eqn:Er.
    + destruct (Z.eqb_spec (Z.land (device_status t) FAILED) 0).
      * change (status_effect t v (mmio_reset (with_device t (dev_reset (device t)).2))).
        apply status_reset; auto. by rewrite Er.
      * apply status_reset_failed; auto.
    + destruct (Z.eqb_spec (Z.land (Z.lor (device_status t) FAILED) FAILED) 0) as [Hz|].
      * exfalso. rewrite Z.land_lor_distr_l, Z.land_diag in Hz.
        apply Z.lor_eq_0_iff in Hz as [_ Hz]. discriminate Hz.
      * apply status_reset_failed; auto.
  - destruct (Z.eqb_spec (Z.land (device_status t) FAILED) 0).
    + replace t with (with_device t (device t)) at 2 by (by destruct t). apply status_reset; auto. by rewrite Ea.
    + apply status_same.
Qed.

Lemma unot_testbit a n : 0 <= n -> Z.testbit (unot 64 a) n = (n <? 64) && negb (Z.testbit a n).
Proof.
  intros Hn. unfold unot. rewrite Z.land_spec, Z.lnot_spec by done.
  rewrite Z.testbit_ones_nonneg by lia. apply andb_comm.
Qed.

Lemma range_testbit v n : in_range 64 v -> 64 <= n -> Z.testbit v n = false.
Proof.
  intros Hv Hn. destruct (decide (v = 0)) as [->|]; [apply Z.bits_0|]. unfold in_range in Hv.
  apply Z.bits_above_log2; [lia|]. apply Z.log2_lt_pow2; [lia|].
  eapply Z.lt_le_trans; [apply Hv|]. apply Z.pow_le_mono_r; lia.
Qed.

(** Acknowledging adds the acknowledged features that the device offers. *)
Lemma ack_features_bits (d : D) page v n :
  in_range 32 v -> 0 <= n ->
  exists x, Z.testbit (acked_features (ack_features_by_page d page v)) n =
            Z.testbit (acked_features d) n || x && Z.testbit (avail_features d) n.
Proof.
  intros Hv Hn. unfold ack_features_by_page. rewrite acked_set_acked, Z.lor_spec.
  set (w := if page =? 0 then v else _).
  assert (in_range 64 w) as Hw.
  { unfold w. repeat case_match; [unfold in_range in *; lia|by apply wrap_range|done]. }
  exists (Z.testbit w n). f_equal. set (u := Z.land w _).
  destruct (Z.ltb_spec n 64) as [Hlt|Hge].
  2: { rewrite (range_testbit w n Hw) by done. destruct (negb (u =? 0)); [|by apply range_testbit].
       by rewrite Z.land_spec, (range_testbit w n Hw). }
  destruct (Z.eqb_spec u 0) as [Hz|Hz]; cbn [negb].
  - apply (f_equal (fun z => Z.testbit z n)) in Hz. unfold u in Hz.
    rewrite Z.land_spec, unot_testbit, Z.bits_0, (proj2 (Z.ltb_lt _ _)) in Hz by done.
    by destruct (Z.testbit w n), (Z.testbit (avail_features d) n).
  - rewrite Z.land_spec, unot_testbit, (proj2 (Z.ltb_lt _ _)) by done. unfold u.
    rewrite Z.land_spec, unot_testbit, (proj2 (Z.ltb_lt _ _)) by done.
    by destruct (Z.testbit w n), (Z.testbit (avail_features d) n).
Qed.

(** [a] has only features of [b]. *)
Definition subfeatures (a b : Z) : Prop :=
  forall n, 0 <= n -> Z.testbit a n = true -> Z.testbit b n = true.

(** A status write leaves the features alone. *)
Lemma status_effect_features (t : transport) v t' :
  status_effect t v t' ->
  acked_features (device t') = acked_features (device t) /\
  avail_features (device t') = avail_features (device t).
Proof.
  intros []; cbn; rewrite ?acked_activate, ?avail_activate, ?acked_set_queues, ?avail_set_queues;
    try done; match goal with Hd : _ \/ _ |- _ => destruct Hd as [->|[-> _]] end;
    by rewrite ?acked_reset, ?avail_reset.
Qed.

Lemma write_features (t t' : transport) offset data :
  bytes_ok data -> mmio_write t offset data = Ret t' ->
  avail_features (device t') = avail_features (device t) /\
  (forall n, 0 <= n -> exists x, Z.testbit (acked_features (device t')) n =
     Z.testbit (acked_features (device t)) n || x && Z.testbit (avail_features (device t)) n).
Proof.
  intros Hb E. destruct (mmio_write_effect _ _ _ _ Hb E) as [t' Hd _ _|f|Hc Hv|t' _ Hs|o l].
  - rewrite Hd. split; [done|]. intros n _. exists false. by rewrite orb_false_r.
  - destruct (update_queue_field_status t f) as (_ & -> & -> & _).
    split; [done|]. intros n _. exists false. by rewrite orb_false_r.
  - cbn [with_device device]. split; [apply avail_set_acked|]. intros n Hn. by apply ack_features_bits.
  - apply set_device_status_effect, status_effect_features in Hs as [-> ->].
    split; [done|]. intros n _. exists false. by rewrite orb_false_r.
  - cbn [with_device device]. rewrite avail_write_config, acked_write_config.
    split; [done|]. intros n _. exists false. by rewrite orb_false_r.
Qed.

(** ** Theorems *)

(** Feature negotiation.  Whatever the driver writes, the acknowledged
    features stay among those the device offers, and a feature once acknowledged
    stays acknowledged, also when the device is reset in between. *)
Theorem features_negotiated (t t' : transport) :
  mmio_reach t t' -> subfeatures (acked_features (device t)) (avail_features (device t)) ->
  avail_features (device t') = avail_features (device t) /\
  subfeatures (acked_features (device t')) (avail_features (device t')) /\
  subfeatures (acked_features (device t)) (acked_features (device t')).
Proof.
  intros Hr Hs. induction Hr as [t|t t1 t2 o d Hr IH Hb E|t t1 i Hr IH]; [|..|by apply IH].
  { split; [done|]. split; [done|]. by intros n. }
  destruct (IH Hs) as (Hav & Hsub & Hmono). destruct (write_features _ _ _ _ Hb E) as [Hav2 Hbits].
  rewrite Hav2. split; [done|]. split; intros n Hn.
  - destruct (Hbits n Hn) as [x ->]. intros [Hx|Hx]%orb_true_iff; [by apply Hsub|].
    by apply andb_true_iff in Hx as [_ ->].
  - intros Hx. destruct (Hbits n Hn) as [x ->]. rewrite (Hmono n Hn Hx). done.
Qed.

(** C38: a device is activated only by the driver setting DRIVER_OK after
    ACKNOWLEDGE, DRIVER and FEATURES_OK, with every queue valid. *)
Theorem activation_guarded (t t' : transport) offset data :
  bytes_ok data -> mmio_write t offset data = Ret t' ->
  is_activated (device t) = false -> is_activated (device t') = true ->
  offset = 0x70 /\ device_status t = Z.lor (Z.lor ACKNOWLEDGE DRIVER) FEATURES_OK /\
  are_queues_valid t = Ret true /\ has_status t' DRIVER_OK = true.
Proof.
  intros Hb E Ha Ha'.
  destruct (mmio_write_effect _ _ _ _ Hb E) as [t' Hd _ _|f|Hc Hv|t' Ho Hs|o l].
  - rewrite Hd in Ha'. congruence.
  - destruct (update_queue_field_status t f) as (_ & _ & _ & Hu). congruence.
  - cbn [with_device device] in Ha'. unfold ack_features_by_page in Ha'.
    rewrite activated_set_acked in Ha'. congruence.
  - split; [done|]. apply set_device_status_effect in Hs.
    destruct Hs as [|Hs Hc|Hs Hc _ Hq _| |d s _ Hd _ _|d _ Hd _ _|]; cbn in Ha';
      rewrite ?activated_set_queues in Ha'; try congruence;
      try (destruct Hd as [->|[-> Hx]]; congruence).
    split; [done|]. split; [done|]. rewrite has_driver_ok_bit. cbn [with_device with_status device_status].
    apply (f_equal (fun z => Z.testbit z 2)) in Hc. rewrite Z.land_spec in Hc.
    by apply andb_true_iff in Hc as [_ ->].
  - cbn [with_device device] in Ha'. rewrite activated_write_config in Ha'. congruence.
Qed.

(** Once the driver has set DRIVER_OK, no register write but a write of
    zero to the status changes the configuration of a queue. *)
Theorem queues_frozen (t t' : transport) offset data :
  bytes_ok data -> mmio_write t offset data = Ret t' -> has_status t DRIVER_OK = true ->
  queues (device t') = queues (device t) \/ offset = 0x70 /\ le_decode data = 0.
Proof.
  intros Hb E Hok. rewrite has_driver_ok_bit in Hok.
  destruct (mmio_write_effect _ _ _ _ Hb E) as [t' Hd _ _|f|Hc Hv|t' Ho Hs|o l].
  - left. by rewrite Hd.
  - left. unfold update_queue_field. by rewrite (check_status_clear t _ _ 2) by done.
  - left. cbn [with_device device]. apply queues_set_acked.
  - apply set_device_status_effect in Hs.
    destruct Hs as [Hp|Hs Hc|Hs Hc _ Hq _| |d s Hv Hd _ _|d Hv Hd _ _|]; auto.
    rewrite Hs in Hok. discriminate Hok.
  - left. cbn [with_device device]. apply queues_write_config.
Qed.

(** The FAILED status is final.  Whatever is written afterwards, the device
    stays marked as failed; in particular the reset that a driver must perform
    before it may try again has no effect. *)
Theorem failed_is_final (t t' : transport) :
  mmio_reach t t' -> has_status t FAILED = true -> has_status t' FAILED = true.
Proof.
  rewrite !has_failed_bit. intros Hr Hf.
  induction Hr as [t|t t1 t2 o d Hr IH Hb E|t t1 i Hr IH]; [done| |by apply IH].
  specialize (IH Hf). clear Hf Hr.
  destruct (mmio_write_effect _ _ _ _ Hb E) as [t2 _ Hd _|f|Hc Hv|t2 Ho Hs|o' l]; try done.
  - by rewrite Hd.
  - by destruct (update_queue_field_status t1 f) as (-> & _).
  - apply set_device_status_effect in Hs.
    destruct Hs as [Hp|Hs Hc|Hs Hc _ Hq _| |d' s Hv Hd Hs _|d' Hv Hd _ Hs|]; try done.
    + destruct Hp as [Hp|[Hp|Hp]]; rewrite Hp in IH; done.
    + rewrite Hs in IH. done.
    + rewrite Hs in IH. done.
    + cbn [with_status with_device device_status]. by rewrite Z.lor_spec, IH.
    + cbn [with_status with_device device_status]. destruct Hs as [-> | ->]; [done|]. by rewrite Z.lor_spec, IH.
    + pose proof (land_bit (device_status t1) 7 ltac:(lia)) as Hl.
      change (2 ^ 7) with FAILED in Hl. rewrite Hs, IH in Hl. done.
Qed.
End Spec.

(** ** A device with no more than the trait requires *)

Record simple_dev := mkSimple {
  sd_avail : Z;
  sd_acked : Z;
  sd_queues : list Queue;
  sd_active : bool
}.

#[refine] Instance simple_device {M} : VirtioDevice simple_dev M := {|
  avail_features := sd_avail;
  acked_features := sd_acked;
  set_acked_features d v := mkSimple (sd_avail d) v (sd_queues d) (sd_active d);
  device_type _ := 2;
  queues := sd_queues;
  set_queues d l := mkSimple (sd_avail d) (sd_acked d) l (sd_active d);
  is_activated := sd_active;
  activate d _ := (Ok tt, mkSimple (sd_avail d) (sd_acked d) (sd_queues d) true);
  dev_reset d := (None, d);
  read_config _ _ l := l;
  write_config d _ _ := d
|}.
Proof. all: by intros. Defined.

(** The state of a transport whose driver is about to set DRIVER_OK. *)
Definition sample_transport (status : Z) (active : bool) : @MmioTransport _ simple_dev :=
  mkMmio (mkSimple 5 1 [sample_queue] active) 0 0 0 status 0 sample_mem 0.

Lemma features_negotiated_witness :
  let t := sample_transport 3 false in
  let t' := mkMmio (mkSimple 5 5 [sample_queue] false) 0 0 0 3 0 sample_mem 0 in
  sd_avail (device t') = sd_avail (device t) /\
  subfeatures (sd_acked (device t')) (sd_avail (device t')) /\
  subfeatures (sd_acked (device t)) (sd_acked (device t')).
Proof.
  cbv zeta. apply (@features_negotiated _ _ _ (@simple_device _) dev_profile
    (sample_transport 3 false) (mkMmio (mkSimple 5 5 [sample_queue] false) 0 0 0 3 0 sample_mem 0)).
  - apply (reach_write _ (sample_transport 3 false) _ 0x20 [255; 0; 0; 0]).
    + apply reach_refl.
    + repeat constructor; discriminate.
    + reflexivity.
  - intros n _ Hn. destruct (decide (n = 0)) as [->|Hne]; [reflexivity|].
    change (Z.testbit (2 ^ 0) n = true) in Hn. by rewrite Z.pow2_bits_false in Hn by done.
Defined.

Lemma activation_guarded_witness :
  0x70 = 0x70 /\ device_status (sample_transport 11 false) = Z.lor (Z.lor ACKNOWLEDGE DRIVER) FEATURES_OK /\
  @are_queues_valid _ _ _ (@simple_device _) dev_profile (sample_transport 11 false) = Ret true /\
  has_status (sample_transport 15 true) DRIVER_OK = true.
Proof.
  apply (@activation_guarded _ _ _ (@simple_device _) dev_profile
    (sample_transport 11 false) (sample_transport 15 true) 0x70 [15; 0; 0; 0]).
  - repeat constructor; discriminate.
  - vm_compute. reflexivity.
  - reflexivity.
  - reflexivity.
Defined.

Lemma queues_frozen_witness :
  sd_queues (device (sample_transport 15 true)) = sd_queues (device (sample_transport 15 true)) \/
  0x38 = 0x70 /\ le_decode [1; 0; 0; 0] = 0.
Proof.
  apply (@queues_frozen _ _ _ (@simple_device _) dev_profile
    (sample_transport 15 true) (sample_transport 15 true) 0x38 [1; 0; 0; 0]).
  - repeat constructor; discriminate.
  - reflexivity.
  - reflexivity.
Defined.

Lemma failed_is_final_witness : has_status (sample_transport 131 false) FAILED = true.
Proof.
  apply (@failed_is_final _ _ _ (@simple_device _) dev_profile
    (sample_transport 131 false) (sample_transport 131 false)).
  - apply (reach_write _ (sample_transport 131 false) _ 0x70 [0; 0; 0; 0]).
    + apply reach_refl.
    + repeat constructor; discriminate.
    + reflexivity.
  - reflexivity.
Defined.
