(* ===== verification/SeccompBackend.v ===== *)
(** * The seccomp-BPF compiler: intermediate representation to BPF

    Model of [src/firecracker/src/seccompiler/src/backend.rs] (and the
    instruction type of [common.rs]): syscall rules with argument conditions are
    compiled to a classic-BPF program that the kernel runs on every system call.

    What the programs compute on the kernel's BPF machine is the subject of
    [SeccompCorrect].

    Lengths of vectors ([usize] counters) are unbounded integers: a vector never
    has [2^64] elements. *)

From Stdlib Require Import ZArith Lia.
From stdpp Require Import prelude strings.
From S2P Require Import Prelude.

(** ** Constants and data *)

Definition BPF_LD : Z := 0x00.
Definition BPF_ALU : Z := 0x04.
Definition BPF_JMP : Z := 0x05.
Definition BPF_RET : Z := 0x06.
Definition BPF_W : Z := 0x00.
Definition BPF_ABS : Z := 0x20.
Definition BPF_AND : Z := 0x50.
Definition BPF_JA : Z := 0x00.
Definition BPF_JEQ : Z := 0x10.
Definition BPF_JGT : Z := 0x20.
Definition BPF_JGE : Z := 0x30.
Definition BPF_K : Z := 0x00.

Definition SECCOMP_RET_ALLOW : Z := 0x7fff0000.
Definition SECCOMP_RET_ERRNO : Z := 0x00050000.
Definition SECCOMP_RET_KILL_THREAD : Z := 0x00000000.
Definition SECCOMP_RET_KILL_PROCESS : Z := 0x80000000.
Definition SECCOMP_RET_LOG : Z := 0x7ffc0000.
Definition SECCOMP_RET_TRACE : Z := 0x7ff00000.
Definition SECCOMP_RET_TRAP : Z := 0x00030000.
Definition SECCOMP_RET_MASK : Z := 0x0000ffff.

Definition AUDIT_ARCH_X86_64 : Z := Z.lor (Z.lor 62 0x80000000) 0x40000000.
Definition AUDIT_ARCH_AARCH64 : Z := Z.lor (Z.lor 183 0x80000000) 0x40000000.

Definition ARG_NUMBER_MAX : Z := 5.
Definition CONDITION_MAX_LEN : Z := 6.
Definition SECCOMP_DATA_NR_OFFSET : Z := 0.
Definition SECCOMP_DATA_ARGS_OFFSET : Z := 16.
Definition SECCOMP_DATA_ARG_SIZE : Z := 8.
Definition BPF_MAX_LEN : Z := 4096.

Record sock_filter := mk_sock_filter { code : Z; jt : Z; jf : Z; k : Z }.
Definition BpfProgram := list sock_filter.

Definition BPF_JUMP (code0 k0 jt0 jf0 : Z) : sock_filter := mk_sock_filter code0 jt0 jf0 k0.
Definition BPF_STMT (code0 k0 : Z) : sock_filter := mk_sock_filter code0 0 0 k0.

Inductive TargetArch := x86_64 | aarch64.
Inductive TargetArchError := InvalidString (s : string).

Inductive SeccompError :=
| EmptyRulesVector
| FilterTooLarge
| InvalidArgumentNumber
| Arch (e : TargetArchError)
| ConflictingRules (nr : Z).

Definition get_audit_value (a : TargetArch) : Z :=
  match a with x86_64 => AUDIT_ARCH_X86_64 | aarch64 => AUDIT_ARCH_AARCH64 end.

Definition TargetArch_to_string (a : TargetArch) : string :=
  match a with x86_64 => "x86_64" | aarch64 => "aarch64" end.

(** [str::to_lowercase], on the ASCII letters (no other character lowers to a
    character of the two names). *)
Definition lower_ascii (c : Ascii.ascii) : Ascii.ascii :=
  let n := Ascii.nat_of_ascii c in
  if bool_decide (65 <= n <= 90)%nat then Ascii.ascii_of_nat (n + 32) else c.
Fixpoint to_lowercase (s : string) : string :=
  match s with
  | EmptyString => EmptyString
  | String c s => String (lower_ascii c) (to_lowercase s)
  end.

Definition TargetArch_try_from (s : string) : result TargetArch TargetArchError :=
  if String.eqb (to_lowercase s) "x86_64" then Ok x86_64
  else if String.eqb (to_lowercase s) "aarch64" then Ok aarch64
  else Err (InvalidString s).

Inductive SeccompCmpOp := Eq | Ge | Gt | Le | Lt | MaskedEq (mask : Z) | Ne.
Inductive SeccompCmpArgLen := Dword | Qword.

Record SeccompCondition := mkCondition {
  arg_number : Z;
  arg_len : SeccompCmpArgLen;
  operator : SeccompCmpOp;
  value : Z
}.

Inductive SeccompAction :=
| Allow
| Errno (x : Z)
| KillThread
| KillProcess
| Log
| Trace (x : Z)
| Trap.

Record SeccompRule := SeccompRule_new {
  conditions : list SeccompCondition;
  action : SeccompAction
}.

(** [BTreeMap<i64, Vec<SeccompRule>>]: the entries in increasing key order. *)
Definition SeccompRuleMap := list (Z * list SeccompRule).

Record SeccompFilter := mkSeccompFilter {
  rules : SeccompRuleMap;
  default_action : SeccompAction;
  target_arch : TargetArch
}.

(** ** Compiling a condition *)

Definition condition_validate (c : SeccompCondition) : result unit SeccompError :=
  if ARG_NUMBER_MAX <? arg_number c then Err InvalidArgumentNumber else Ok tt.

Definition msb_of (v : Z) : Z := wrap 32 (Z.shiftr v 32).
Definition lsb_of (v : Z) : Z := wrap 32 v.

Section Conditions.
Context `{Profile}.

Definition value_segments (c : SeccompCondition) : exec (Z * Z * Z * Z) :=
  let msb := msb_of (value c) in
  let lsb := lsb_of (value c) in
  scaled ← umul 8 (arg_number c) SECCOMP_DATA_ARG_SIZE;
  arg_offset ← uadd 8 SECCOMP_DATA_ARGS_OFFSET scaled;
  msb_offset ← uadd 8 arg_offset (SECCOMP_DATA_ARG_SIZE / 2);
  Ret (msb, lsb, msb_offset, arg_offset).

Definition into_eq_bpf (c : SeccompCondition) (offset : Z) : exec (list sock_filter) :=
  v ← value_segments c;
  let '(msb, lsb, msb_offset, lsb_offset) := v in
  bpf ← match arg_len c with
        | Dword => Ret []
        | Qword =>
            o2 ← uadd 8 offset 2;
            Ret [BPF_STMT (BPF_LD + BPF_W + BPF_ABS) msb_offset;
                 BPF_JUMP (BPF_JMP + BPF_JEQ + BPF_K) msb 0 o2]
        end;
  Ret (bpf ++ [BPF_STMT (BPF_LD + BPF_W + BPF_ABS) lsb_offset;
               BPF_JUMP (BPF_JMP + BPF_JEQ + BPF_K) lsb 0 offset]).

Definition into_ge_bpf (c : SeccompCondition) (offset : Z) : exec (list sock_filter) :=
  v ← value_segments c;
  let '(msb, lsb, msb_offset, lsb_offset) := v in
  bpf ← match arg_len c with
        | Dword => Ret []
        | Qword =>
            o2 ← uadd 8 offset 2;
            Ret [BPF_STMT (BPF_LD + BPF_W + BPF_ABS) msb_offset;
                 BPF_JUMP (BPF_JMP + BPF_JGT + BPF_K) msb 3 0;
                 BPF_JUMP (BPF_JMP + BPF_JEQ + BPF_K) msb 0 o2]
        end;
  Ret (bpf ++ [BPF_STMT (BPF_LD + BPF_W + BPF_ABS) lsb_offset;
               BPF_JUMP (BPF_JMP + BPF_JGE + BPF_K) lsb 0 offset]).

Definition into_gt_bpf (c : SeccompCondition) (offset : Z) : exec (list sock_filter) :=
  v ← value_segments c;
  let '(msb, lsb, msb_offset, lsb_offset) := v in
  bpf ← match arg_len c with
        | Dword => Ret []
        | Qword =>
            o2 ← uadd 8 offset 2;
            Ret [BPF_STMT (BPF_LD + BPF_W + BPF_ABS) msb_offset;
                 BPF_JUMP (BPF_JMP + BPF_JGT + BPF_K) msb 3 0;
                 BPF_JUMP (BPF_JMP + BPF_JEQ + BPF_K) msb 0 o2]
        end;
  Ret (bpf ++ [BPF_STMT (BPF_LD + BPF_W + BPF_ABS) lsb_offset;
               BPF_JUMP (BPF_JMP + BPF_JGT + BPF_K) lsb 0 offset]).

Definition into_le_bpf (c : SeccompCondition) (offset : Z) : exec (list sock_filter) :=
  v ← value_segments c;
  let '(msb, lsb, msb_offset, lsb_offset) := v in
  bpf ← match arg_len c with
        | Dword => Ret []
        | Qword =>
            o3 ← uadd 8 offset 3;
            Ret [BPF_STMT (BPF_LD + BPF_W + BPF_ABS) msb_offset;
                 BPF_JUMP (BPF_JMP + BPF_JGT + BPF_K) msb o3 0;
                 BPF_JUMP (BPF_JMP + BPF_JEQ + BPF_K) msb 0 2]
        end;
  Ret (bpf ++ [BPF_STMT (BPF_LD + BPF_W + BPF_ABS) lsb_offset;
               BPF_JUMP (BPF_JMP + BPF_JGT + BPF_K) lsb offset 0]).

Definition into_lt_bpf (c : SeccompCondition) (offset : Z) : exec (list sock_filter) :=
  v ← value_segments c;
  let '(msb, lsb, msb_offset, lsb_offset) := v in
  bpf ← match arg_len c with
        | Dword => Ret []
        | Qword =>
            o3 ← uadd 8 offset 3;
            Ret [BPF_STMT (BPF_LD + BPF_W + BPF_ABS) msb_offset;
                 BPF_JUMP (BPF_JMP + BPF_JGT + BPF_K) msb o3 0;
                 BPF_JUMP (BPF_JMP + BPF_JEQ + BPF_K) msb 0 2]
        end;
  Ret (bpf ++ [BPF_STMT (BPF_LD + BPF_W + BPF_ABS) lsb_offset;
               BPF_JUMP (BPF_JMP + BPF_JGE + BPF_K) lsb offset 0]).

Definition into_masked_eq_bpf (c : SeccompCondition) (offset mask : Z)
    : exec (list sock_filter) :=
  v ← value_segments c;
  let '(_, _, msb_offset, lsb_offset) := v in
  let masked_value := Z.land (value c) mask in
  let '(msb, lsb) := (msb_of masked_value, lsb_of masked_value) in
  let '(mask_msb, mask_lsb) := (msb_of mask, lsb_of mask) in
  bpf ← match arg_len c with
        | Dword => Ret []
        | Qword =>
            o3 ← uadd 8 offset 3;
            Ret [BPF_STMT (BPF_LD + BPF_W + BPF_ABS) msb_offset;
                 BPF_STMT (BPF_ALU + BPF_AND + BPF_K) mask_msb;
                 BPF_JUMP (BPF_JMP + BPF_JEQ + BPF_K) msb 0 o3]
        end;
  Ret (bpf ++ [BPF_STMT (BPF_LD + BPF_W + BPF_ABS) lsb_offset;
               BPF_STMT (BPF_ALU + BPF_AND + BPF_K) mask_lsb;
               BPF_JUMP (BPF_JMP + BPF_JEQ + BPF_K) lsb 0 offset]).

Definition into_ne_bpf (c : SeccompCondition) (offset : Z) : exec (list sock_filter) :=
  v ← value_segments c;
  let '(msb, lsb, msb_offset, lsb_offset) := v in
  let bpf := match arg_len c with
             | Dword => []
             | Qword =>
                 [BPF_STMT (BPF_LD + BPF_W + BPF_ABS) msb_offset;
                  BPF_JUMP (BPF_JMP + BPF_JEQ + BPF_K) msb 0 2]
             end in
  Ret (bpf ++ [BPF_STMT (BPF_LD + BPF_W + BPF_ABS) lsb_offset;
               BPF_JUMP (BPF_JMP + BPF_JEQ + BPF_K) lsb offset 0]).

Definition into_bpf (c : SeccompCondition) (offset : Z) : exec (list sock_filter) :=
  result ← match operator c with
           | Eq => into_eq_bpf c offset
           | Ge => into_ge_bpf c offset
           | Gt => into_gt_bpf c offset
           | Le => into_le_bpf c offset
           | Lt => into_lt_bpf c offset
           | MaskedEq mask => into_masked_eq_bpf c offset mask
           | Ne => into_ne_bpf c offset
           end;
  _ ← rust_assert (Z.of_nat (length result) <=? CONDITION_MAX_LEN);
  Ret result.
End Conditions.

(** [impl From<SeccompAction> for u32]. *)
Definition action_code (a : SeccompAction) : Z :=
  match a with
  | Allow => SECCOMP_RET_ALLOW
  | Errno x => Z.lor SECCOMP_RET_ERRNO (Z.land x SECCOMP_RET_MASK)
  | KillThread => SECCOMP_RET_KILL_THREAD
  | KillProcess => SECCOMP_RET_KILL_PROCESS
  | Log => SECCOMP_RET_LOG
  | Trace x => Z.lor SECCOMP_RET_TRACE (Z.land x SECCOMP_RET_MASK)
  | Trap => SECCOMP_RET_TRAP
  end.

(** ** Compiling rules, chains and filters *)

(** The mutable state of a rule's translation: the accumulator in push order,
    the length so far and the jump offset to the next rule. *)
Record RuleState := mkRuleState {
  accumulator : list (list sock_filter);
  rule_len : Z;
  offset : Z
}.

Section Rules.
Context `{Profile}.

Definition append_helper_jumps (st : RuleState) : RuleState :=
  let helper_jumps :=
    [BPF_STMT (BPF_JMP + BPF_JA) 2;
     BPF_STMT (BPF_JMP + BPF_JA) (offset st + 1);
     BPF_STMT (BPF_JMP + BPF_JA) (offset st + 1)] in
  mkRuleState (accumulator st ++ [helper_jumps])
    (rule_len st + Z.of_nat (length helper_jumps)) 1.

Definition append_condition (c : SeccompCondition) (st : RuleState) : exec RuleState :=
  let st := match checked_add 8 (offset st) (CONDITION_MAX_LEN + 1) with
            | None => append_helper_jumps st
            | Some _ => st
            end in
  condition ← into_bpf c (offset st);
  let n := Z.of_nat (length condition) in
  n8 ← unwrap (if n <? 2 ^ 8 then Some n else None);
  offset' ← uadd 8 (offset st) n8;
  Ret (mkRuleState (accumulator st ++ [condition]) (rule_len st + n) offset').

Fixpoint append_conditions (cs : list SeccompCondition) (st : RuleState) : exec RuleState :=
  match cs with
  | [] => Ret st
  | c :: cs => st ← append_condition c st; append_conditions cs st
  end.

(** [impl From<SeccompRule> for BpfProgram]. *)
Definition rule_into_bpf (rule : SeccompRule) : exec BpfProgram :=
  let st := mkRuleState [[BPF_STMT (BPF_RET + BPF_K) (action_code (action rule))]] 1 1 in
  st ← append_conditions (conditions rule) st;
  let rule_jumps := [BPF_STMT (BPF_JMP + BPF_JA) 1;
                     BPF_STMT (BPF_JMP + BPF_JA) (offset st + 1)] in
  Ret (concat (rev (accumulator st ++ [rule_jumps]))).

Fixpoint rules_into_bpf (l : list SeccompRule) : exec (list BpfProgram) :=
  match l with
  | [] => Ret []
  | r :: l => p ← rule_into_bpf r; ps ← rules_into_bpf l; Ret (p :: ps)
  end.

(** The mutable state of a filter's translation: accumulator and length. *)
Definition append_syscall_chain (syscall_number : Z) (chain : list SeccompRule)
    (default_action0 : Z) (acc : list BpfProgram) (filter_len : Z)
    : exec (result (list BpfProgram * Z) SeccompError) :=
  chain ← rules_into_bpf chain;
  let built_syscall :=
    [BPF_JUMP (BPF_JMP + BPF_JEQ + BPF_K) (wrap 32 syscall_number) 0 1]
    ++ concat chain ++ [BPF_STMT (BPF_RET + BPF_K) default_action0] in
  let filter_len := filter_len + Z.of_nat (length built_syscall) in
  let acc := acc ++ [built_syscall] in
  if BPF_MAX_LEN <=? filter_len then Ret (Err FilterTooLarge) else Ret (Ok (acc, filter_len)).

Fixpoint append_chains (l : SeccompRuleMap) (default_action0 : Z) (acc : list BpfProgram)
    (filter_len : Z) : exec (result (list BpfProgram * Z) SeccompError) :=
  match l with
  | [] => Ret (Ok (acc, filter_len))
  | (nr, chain) :: l =>
      r ← append_syscall_chain nr chain default_action0 acc filter_len;
      match r with
      | Err e => Ret (Err e)
      | Ok (acc, filter_len) => append_chains l default_action0 acc filter_len
      end
  end.

Definition VALIDATE_ARCHITECTURE (a : TargetArch) : list sock_filter :=
  [BPF_STMT (BPF_LD + BPF_W + BPF_ABS) 4;
   BPF_JUMP (BPF_JMP + BPF_JEQ + BPF_K) (get_audit_value a) 1 0;
   BPF_STMT (BPF_RET + BPF_K) SECCOMP_RET_KILL_PROCESS].

Definition EXAMINE_SYSCALL : list sock_filter :=
  [BPF_STMT (BPF_LD + BPF_W + BPF_ABS) SECCOMP_DATA_NR_OFFSET].

(** [impl TryInto<BpfProgram> for SeccompFilter]. *)
Definition filter_try_into (f : SeccompFilter) : exec (result BpfProgram SeccompError) :=
  let result := VALIDATE_ARCHITECTURE (target_arch f) in
  match rules f with
  | [] => Ret (Ok (result ++ [BPF_STMT (BPF_RET + BPF_K) (action_code (default_action f))]))
  | _ =>
      let default_action0 := action_code (default_action f) in
      r ← append_chains (rules f) default_action0 [EXAMINE_SYSCALL] 1;
      match r with
      | Err e => Ret (Err e)
      | Ok (acc, _) =>
          let acc := acc ++ [[BPF_STMT (BPF_RET + BPF_K) default_action0]] in
          let result := result ++ concat acc in
          if BPF_MAX_LEN <=? Z.of_nat (length result) then Ret (Err FilterTooLarge)
          else Ret (Ok result)
      end
  end.
End Rules.

Definition is_empty_rule (r : SeccompRule) : bool :=
  match conditions r with [] => true | _ => false end.

Fixpoint validate_rules (l : SeccompRuleMap) : result unit SeccompError :=
  match l with
  | [] => Ok tt
  | (syscall_number, syscall_rules) :: l =>
      match syscall_rules with
      | [] => Err EmptyRulesVector
      | _ =>
          match length (List.filter is_empty_rule syscall_rules) with
          | 1%nat =>
              if bool_decide (1 < length syscall_rules)%nat
              then Err (ConflictingRules syscall_number) else validate_rules l
          | 0%nat => validate_rules l
          | _ => Err (ConflictingRules syscall_number)
          end
      end
  end.

Definition SeccompFilter_validate (f : SeccompFilter) : result unit SeccompError :=
  validate_rules (rules f).

Definition SeccompFilter_new (rules0 : SeccompRuleMap) (default_action0 : SeccompAction)
    (target_arch0 : string) : result SeccompFilter SeccompError :=
  match TargetArch_try_from target_arch0 with
  | Err e => Err (Arch e)
  | Ok a =>
      let instance := mkSeccompFilter rules0 default_action0 a in
      match SeccompFilter_validate instance with
      | Err e => Err e
      | Ok _ => Ok instance
      end
  end.
