(* ===== verification/SyscallTable.v ===== *)
(** * The syscall tables of the seccomp compiler

    [syscall_table/mod.rs], [x86_64.rs] and [aarch64.rs]: the insertions of
    [make_syscall_table] in source order, the table built from them and its
    lookup.  The map from names to numbers is shown to be exactly the list of
    insertions, and to be injective. *)

From Stdlib Require Import ZArith Lia.
From stdpp Require Import functions prelude strings gmap.
From S2P Require Import Prelude SeccompBackend.

Definition x86_64_inserts_1 : list (string * Z) :=
  [("accept4", 288); ("accept", 43); ("access", 21); ("acct", 163); ("add_key", 248);
   ("adjtimex", 159); ("afs_syscall", 183); ("alarm", 37); ("arch_prctl", 158); ("bind", 49);
   ("bpf", 321); ("brk", 12); ("capget", 125); ("capset", 126); ("chdir", 80); ("chmod", 90);
   ("chown", 92); ("chroot", 161); ("clock_adjtime", 305); ("clock_getres", 229);
   ("clock_gettime", 228); ("clock_nanosleep", 230); ("clock_settime", 227); ("clone3", 435);
   ("clone", 56); ("close_range", 436); ("close", 3); ("connect", 42); ("copy_file_range", 326);
   ("create_module", 174); ("creat", 85); ("delete_module", 176); ("dup2", 33); ("dup3", 292);
   ("dup", 32); ("epoll_create1", 291); ("epoll_create", 213); ("epoll_ctl_old", 214);
   ("epoll_ctl", 233); ("epoll_pwait", 281); ("epoll_wait_old", 215); ("epoll_wait", 232);
   ("eventfd2", 290); ("eventfd", 284); ("execveat", 322); ("execve", 59); ("exit_group", 231);
   ("exit", 60); ("faccessat2", 439); ("faccessat", 269); ("fadvise64", 221);
   ("fallocate", 285); ("fanotify_init", 300); ("fanotify_mark", 301); ("fchdir", 81);
   ("fchmodat", 268); ("fchmod", 91); ("fchownat", 260); ("fchown", 93); ("fcntl", 72);
   ("fdatasync", 75); ("fgetxattr", 193); ("finit_module", 313); ("flistxattr", 196);
   ("flock", 73); ("fork", 57); ("fremovexattr", 199); ("fsconfig", 431); ("fsetxattr", 190);
   ("fsmount", 432); ("fsopen", 430); ("fspick", 433); ("fstatfs", 138); ("fstat", 5);
   ("fsync", 74); ("ftruncate", 77); ("futex", 202); ("futimesat", 261); ("getcpu", 309);
   ("getcwd", 79); ("getdents64", 217); ("getdents", 78); ("getegid", 108); ("geteuid", 107);
   ("getgid", 104); ("getgroups", 115); ("getitimer", 36); ("get_kernel_syms", 177);
   ("get_mempolicy", 239); ("getpeername", 52); ("getpgid", 121); ("getpgrp", 111);
   ("getpid", 39); ("getpmsg", 181); ("getppid", 110); ("getpriority", 140); ("getrandom", 318);
   ("getresgid", 120); ("getresuid", 118); ("getrlimit", 97); ("get_robust_list", 274);
   ("getrusage", 98); ("getsid", 124); ("getsockname", 51); ("getsockopt", 55);
   ("get_thread_area", 211); ("gettid", 186); ("gettimeofday", 96); ("getuid", 102);
   ("getxattr", 191); ("init_module", 175); ("inotify_add_watch", 254); ("inotify_init1", 294);
   ("inotify_init", 253); ("inotify_rm_watch", 255); ("io_cancel", 210); ("ioctl", 16);
   ("io_destroy", 207); ("io_getevents", 208); ("ioperm", 173)].

Definition x86_64_inserts_2 : list (string * Z) :=
  [("io_pgetevents", 333); ("iopl", 172); ("ioprio_get", 252); ("ioprio_set", 251);
   ("io_setup", 206); ("io_submit", 209); ("io_uring_enter", 426); ("io_uring_register", 427);
   ("io_uring_setup", 425); ("kcmp", 312); ("kexec_file_load", 320); ("kexec_load", 246);
   ("keyctl", 250); ("kill", 62); ("lchown", 94); ("lgetxattr", 192); ("linkat", 265);
   ("link", 86); ("listen", 50); ("listxattr", 194); ("llistxattr", 195);
   ("lookup_dcookie", 212); ("lremovexattr", 198); ("lseek", 8); ("lsetxattr", 189);
   ("lstat", 6); ("madvise", 28); ("mbind", 237); ("membarrier", 324); ("memfd_create", 319);
   ("migrate_pages", 256); ("mincore", 27); ("mkdirat", 258); ("mkdir", 83); ("mknodat", 259);
   ("mknod", 133); ("mlock2", 325); ("mlockall", 151); ("mlock", 149); ("mmap", 9);
   ("modify_ldt", 154); ("mount", 165); ("move_mount", 429); ("move_pages", 279);
   ("mprotect", 10); ("mq_getsetattr", 245); ("mq_notify", 244); ("mq_open", 240);
   ("mq_timedreceive", 243); ("mq_timedsend", 242); ("mq_unlink", 241); ("mremap", 25);
   ("msgctl", 71); ("msgget", 68); ("msgrcv", 70); ("msgsnd", 69); ("msync", 26);
   ("munlockall", 152); ("munlock", 150); ("munmap", 11); ("name_to_handle_at", 303);
   ("nanosleep", 35); ("newfstatat", 262); ("nfsservctl", 180); ("openat2", 437);
   ("openat", 257); ("open_by_handle_at", 304); ("open", 2); ("open_tree", 428); ("pause", 34);
   ("perf_event_open", 298); ("personality", 135); ("pidfd_getfd", 438); ("pidfd_open", 434);
   ("pidfd_send_signal", 424); ("pipe2", 293); ("pipe", 22); ("pivot_root", 155);
   ("pkey_alloc", 330); ("pkey_free", 331); ("pkey_mprotect", 329); ("poll", 7); ("ppoll", 271);
   ("prctl", 157); ("pread64", 17); ("preadv2", 327); ("preadv", 295); ("prlimit64", 302);
   ("process_madvise", 440); ("process_vm_readv", 310); ("process_vm_writev", 311);
   ("pselect6", 270); ("ptrace", 101); ("putpmsg", 182); ("pwrite64", 18); ("pwritev2", 328);
   ("pwritev", 296); ("query_module", 178); ("quotactl", 179); ("readahead", 187);
   ("readlinkat", 267); ("readlink", 89); ("read", 0); ("readv", 19); ("reboot", 169);
   ("recvfrom", 45); ("recvmmsg", 299); ("recvmsg", 47); ("remap_file_pages", 216);
   ("removexattr", 197); ("renameat2", 316); ("renameat", 264); ("rename", 82);
   ("request_key", 249); ("restart_syscall", 219); ("rmdir", 84); ("rseq", 334);
   ("rt_sigaction", 13); ("rt_sigpending", 127); ("rt_sigprocmask", 14)].

Definition x86_64_inserts_3 : list (string * Z) :=
  [("rt_sigqueueinfo", 129); ("rt_sigreturn", 15); ("rt_sigsuspend", 130);
   ("rt_sigtimedwait", 128); ("rt_tgsigqueueinfo", 297); ("sched_getaffinity", 204);
   ("sched_getattr", 315); ("sched_getparam", 143); ("sched_get_priority_max", 146);
   ("sched_get_priority_min", 147); ("sched_getscheduler", 145); ("sched_rr_get_interval", 148);
   ("sched_setaffinity", 203); ("sched_setattr", 314); ("sched_setparam", 142);
   ("sched_setscheduler", 144); ("sched_yield", 24); ("seccomp", 317); ("security", 185);
   ("select", 23); ("semctl", 66); ("semget", 64); ("semop", 65); ("semtimedop", 220);
   ("sendfile", 40); ("sendmmsg", 307); ("sendmsg", 46); ("sendto", 44); ("setdomainname", 171);
   ("setfsgid", 123); ("setfsuid", 122); ("setgid", 106); ("setgroups", 116);
   ("sethostname", 170); ("setitimer", 38); ("set_mempolicy", 238); ("setns", 308);
   ("setpgid", 109); ("setpriority", 141); ("setregid", 114); ("setresgid", 119);
   ("setresuid", 117); ("setreuid", 113); ("setrlimit", 160); ("set_robust_list", 273);
   ("setsid", 112); ("setsockopt", 54); ("set_thread_area", 205); ("set_tid_address", 218);
   ("settimeofday", 164); ("setuid", 105); ("setxattr", 188); ("shmat", 30); ("shmctl", 31);
   ("shmdt", 67); ("shmget", 29); ("shutdown", 48); ("sigaltstack", 131); ("signalfd4", 289);
   ("signalfd", 282); ("socketpair", 53); ("socket", 41); ("splice", 275); ("statfs", 137);
   ("stat", 4); ("statx", 332); ("swapoff", 168); ("swapon", 167); ("symlinkat", 266);
   ("symlink", 88); ("sync_file_range", 277); ("syncfs", 306); ("sync", 162); ("_sysctl", 156);
   ("sysfs", 139); ("sysinfo", 99); ("syslog", 103); ("tee", 276); ("tgkill", 234);
   ("timer_create", 222); ("timer_delete", 226); ("timerfd_create", 283);
   ("timerfd_gettime", 287); ("timerfd_settime", 286); ("timer_getoverrun", 225);
   ("timer_gettime", 224); ("timer_settime", 223); ("times", 100); ("time", 201);
   ("tkill", 200); ("truncate", 76); ("tuxcall", 184); ("umask", 95); ("umount2", 166);
   ("uname", 63); ("unlinkat", 263); ("unlink", 87); ("unshare", 272); ("uselib", 134);
   ("userfaultfd", 323); ("ustat", 136); ("utimensat", 280); ("utimes", 235); ("utime", 132);
   ("vfork", 58); ("vhangup", 153); ("vmsplice", 278); ("vserver", 236); ("wait4", 61);
   ("waitid", 247); ("write", 1); ("writev", 20)].

Definition x86_64_inserts : list (string * Z) :=
  x86_64_inserts_1 ++ x86_64_inserts_2 ++ x86_64_inserts_3.

Definition aarch64_inserts_1 : list (string * Z) :=
  [("accept4", 242); ("accept", 202); ("acct", 89); ("add_key", 217); ("adjtimex", 171);
   ("bind", 200); ("bpf", 280); ("brk", 214); ("capget", 90); ("capset", 91); ("chdir", 49);
   ("chroot", 51); ("clock_adjtime", 266); ("clock_getres", 114); ("clock_gettime", 113);
   ("clock_nanosleep", 115); ("clock_settime", 112); ("clone3", 435); ("clone", 220);
   ("close_range", 436); ("close", 57); ("connect", 203); ("copy_file_range", 285);
   ("delete_module", 106); ("dup3", 24); ("dup", 23); ("epoll_create1", 20); ("epoll_ctl", 21);
   ("epoll_pwait", 22); ("eventfd2", 19); ("execveat", 281); ("execve", 221);
   ("exit_group", 94); ("exit", 93); ("faccessat2", 439); ("faccessat", 48); ("fadvise64", 223);
   ("fallocate", 47); ("fanotify_init", 262); ("fanotify_mark", 263); ("fchdir", 50);
   ("fchmodat", 53); ("fchmod", 52); ("fchownat", 54); ("fchown", 55); ("fcntl", 25);
   ("fdatasync", 83); ("fgetxattr", 10); ("finit_module", 273); ("flistxattr", 13);
   ("flock", 32); ("fremovexattr", 16); ("fsconfig", 431); ("fsetxattr", 7); ("fsmount", 432);
   ("fsopen", 430); ("fspick", 433); ("fstatfs", 44); ("fstat", 80); ("fsync", 82);
   ("ftruncate", 46); ("futex", 98); ("getcpu", 168); ("getcwd", 17); ("getdents64", 61);
   ("getegid", 177); ("geteuid", 175); ("getgid", 176); ("getgroups", 158); ("getitimer", 102);
   ("get_mempolicy", 236); ("getpeername", 205); ("getpgid", 155); ("getpid", 172);
   ("getppid", 173); ("getpriority", 141); ("getrandom", 278); ("getresgid", 150);
   ("getresuid", 148); ("getrlimit", 163); ("get_robust_list", 100); ("getrusage", 165);
   ("getsid", 156); ("getsockname", 204); ("getsockopt", 209); ("gettid", 178);
   ("gettimeofday", 169); ("getuid", 174); ("getxattr", 8); ("init_module", 105);
   ("inotify_add_watch", 27); ("inotify_init1", 26); ("inotify_rm_watch", 28); ("io_cancel", 3);
   ("ioctl", 29); ("io_destroy", 1); ("io_getevents", 4); ("io_pgetevents", 292);
   ("ioprio_get", 31); ("ioprio_set", 30); ("io_setup", 0); ("io_submit", 2);
   ("io_uring_enter", 426); ("io_uring_register", 427); ("io_uring_setup", 425); ("kcmp", 272);
   ("kexec_file_load", 294); ("kexec_load", 104); ("keyctl", 219); ("kill", 129);
   ("lgetxattr", 9); ("linkat", 37); ("listen", 201); ("listxattr", 11); ("llistxattr", 12);
   ("lookup_dcookie", 18); ("lremovexattr", 15); ("lseek", 62); ("lsetxattr", 6);
   ("madvise", 233)].

Definition aarch64_inserts_2 : list (string * Z) :=
  [("mbind", 235); ("membarrier", 283); ("memfd_create", 279); ("migrate_pages", 238);
   ("mincore", 232); ("mkdirat", 34); ("mknodat", 33); ("mlock2", 284); ("mlockall", 230);
   ("mlock", 228); ("mmap", 222); ("mount", 40); ("move_mount", 429); ("move_pages", 239);
   ("mprotect", 226); ("mq_getsetattr", 185); ("mq_notify", 184); ("mq_open", 180);
   ("mq_timedreceive", 183); ("mq_timedsend", 182); ("mq_unlink", 181); ("mremap", 216);
   ("msgctl", 187); ("msgget", 186); ("msgrcv", 188); ("msgsnd", 189); ("msync", 227);
   ("munlockall", 231); ("munlock", 229); ("munmap", 215); ("name_to_handle_at", 264);
   ("nanosleep", 101); ("newfstatat", 79); ("nfsservctl", 42); ("openat2", 437); ("openat", 56);
   ("open_by_handle_at", 265); ("open_tree", 428); ("perf_event_open", 241);
   ("personality", 92); ("pidfd_getfd", 438); ("pidfd_open", 434); ("pidfd_send_signal", 424);
   ("pipe2", 59); ("pivot_root", 41); ("pkey_alloc", 289); ("pkey_free", 290);
   ("pkey_mprotect", 288); ("ppoll", 73); ("prctl", 167); ("pread64", 67); ("preadv2", 286);
   ("preadv", 69); ("prlimit64", 261); ("process_madvise", 440); ("process_vm_readv", 270);
   ("process_vm_writev", 271); ("pselect6", 72); ("ptrace", 117); ("pwrite64", 68);
   ("pwritev2", 287); ("pwritev", 70); ("quotactl", 60); ("readahead", 213); ("readlinkat", 78);
   ("read", 63); ("readv", 65); ("reboot", 142); ("recvfrom", 207); ("recvmmsg", 243);
   ("recvmsg", 212); ("remap_file_pages", 234); ("removexattr", 14); ("renameat2", 276);
   ("renameat", 38); ("request_key", 218); ("restart_syscall", 128); ("rseq", 293);
   ("rt_sigaction", 134); ("rt_sigpending", 136); ("rt_sigprocmask", 135);
   ("rt_sigqueueinfo", 138); ("rt_sigreturn", 139); ("rt_sigsuspend", 133);
   ("rt_sigtimedwait", 137); ("rt_tgsigqueueinfo", 240); ("sched_getaffinity", 123);
   ("sched_getattr", 275); ("sched_getparam", 121); ("sched_get_priority_max", 125);
   ("sched_get_priority_min", 126); ("sched_getscheduler", 120); ("sched_rr_get_interval", 127);
   ("sched_setaffinity", 122); ("sched_setattr", 274); ("sched_setparam", 118);
   ("sched_setscheduler", 119); ("sched_yield", 124); ("seccomp", 277); ("semctl", 191);
   ("semget", 190); ("semop", 193); ("semtimedop", 192); ("sendfile", 71); ("sendmmsg", 269);
   ("sendmsg", 211); ("sendto", 206); ("setdomainname", 162); ("setfsgid", 152);
   ("setfsuid", 151); ("setgid", 144); ("setgroups", 159); ("sethostname", 161);
   ("setitimer", 103); ("set_mempolicy", 237); ("setns", 268); ("setpgid", 154);
   ("setpriority", 140); ("setregid", 143); ("setresgid", 149)].

Definition aarch64_inserts_3 : list (string * Z) :=
  [("setresuid", 147); ("setreuid", 145); ("setrlimit", 164); ("set_robust_list", 99);
   ("setsid", 157); ("setsockopt", 208); ("set_tid_address", 96); ("settimeofday", 170);
   ("setuid", 146); ("setxattr", 5); ("shmat", 196); ("shmctl", 195); ("shmdt", 197);
   ("shmget", 194); ("shutdown", 210); ("sigaltstack", 132); ("signalfd4", 74);
   ("socketpair", 199); ("socket", 198); ("splice", 76); ("statfs", 43); ("statx", 291);
   ("swapoff", 225); ("swapon", 224); ("symlinkat", 36); ("sync_file_range", 84);
   ("syncfs", 267); ("sync", 81); ("sysinfo", 179); ("syslog", 116); ("tee", 77);
   ("tgkill", 131); ("timer_create", 107); ("timer_delete", 111); ("timerfd_create", 85);
   ("timerfd_gettime", 87); ("timerfd_settime", 86); ("timer_getoverrun", 109);
   ("timer_gettime", 108); ("timer_settime", 110); ("times", 153); ("tkill", 130);
   ("truncate", 45); ("umask", 166); ("umount2", 39); ("uname", 160); ("unlinkat", 35);
   ("unshare", 97); ("userfaultfd", 282); ("utimensat", 88); ("vhangup", 58); ("vmsplice", 75);
   ("wait4", 260); ("waitid", 95); ("write", 64); ("writev", 66)].

Definition aarch64_inserts : list (string * Z) :=
  aarch64_inserts_1 ++ aarch64_inserts_2 ++ aarch64_inserts_3.

(** [make_syscall_table]: one [map.insert] after another. *)
Definition insert_all (l : list (string * Z)) (map : gmap string Z) : gmap string Z :=
  foldl (fun m e => <[e.1 := e.2]> m) map l.

Definition inserts_of (arch : TargetArch) : list (string * Z) :=
  match arch with aarch64 => aarch64_inserts | x86_64 => x86_64_inserts end.

Record SyscallTable := mkSyscallTable { table_map : gmap string Z; table_arch : TargetArch }.

Definition populate_map (t : SyscallTable) : SyscallTable :=
  mkSyscallTable (insert_all (inserts_of (table_arch t)) (table_map t)) (table_arch t).

Definition SyscallTable_new (arch : TargetArch) : SyscallTable :=
  populate_map (mkSyscallTable ∅ arch).

Definition get_syscall_nr (t : SyscallTable) (sys_name : string) : option Z :=
  table_map t !! sys_name.

(** ** Lemmas *)

Lemma insert_all_cons k v l m : insert_all ((k, v) :: l) m = insert_all l (<[k := v]> m).
Proof. done. Qed.

Lemma insert_all_fresh l m k :
  k ∉ l.*1 -> insert_all l m !! k = m !! k.
Proof.
  revert m. induction l as [|[k' v] l IH]; intros m Hk; [done|].
  apply not_elem_of_cons in Hk as [Hne Hk]. rewrite insert_all_cons, (IH _ Hk).
  by apply lookup_insert_ne.
Qed.

Lemma insert_all_lookup l k v :
  NoDup l.*1 -> insert_all l ∅ !! k = Some v <-> (k, v) ∈ l.
Proof.
  generalize (∅ : gmap string Z) (lookup_empty (M := gmap string) (A := Z)).
  intros m Hm Hnd. assert (forall k, k ∈ l.*1 -> m !! k = None) as Hm' by auto.
  assert (m !! k = None) as Hk by auto. clear Hm.
  revert m Hm' Hk. induction l as [|[k' v'] l IH]; intros m Hm Hk.
  { cbn. rewrite Hk. split; [done|]. by intros ?%elem_of_nil. }
  cbn in Hnd. apply NoDup_cons in Hnd as [Hk' Hnd].
  rewrite insert_all_cons, elem_of_cons.
  destruct (decide (k = k')) as [->|Hne].
  - rewrite insert_all_fresh by done. rewrite lookup_insert_eq. split.
    + intros [= ->]. by left.
    + intros [[= ->]|Hin]; [done|]. destruct Hk'. by apply (list_elem_of_fmap_2 fst) in Hin.
  - rewrite IH; [|done| |].
    + split; [auto|]. intros [[= -> ->]|]; [done|auto].
    + intros k0 Hk0. rewrite lookup_insert_ne by (by intros ->). apply Hm. by right.
    + by rewrite lookup_insert_ne.
Qed.


Lemma inserts_names_NoDup arch : NoDup (inserts_of arch).*1.
Proof. apply (bool_decide_unpack _). by destruct arch; vm_compute. Qed.

Lemma inserts_numbers_NoDup arch : NoDup (inserts_of arch).*2.
Proof. apply (bool_decide_unpack _). by destruct arch; vm_compute. Qed.

Lemma inserts_range arch : Forall (fun e => in_range 32 e.2) (inserts_of arch).
Proof.
  assert (forallb (fun e => in_rangeb 32 e.2) (inserts_of arch) = true) as E
    by (by destruct arch; vm_compute).
  apply Forall_forall. intros e He. apply in_rangeb_spec.
  rewrite forallb_forall in E. apply E. by apply list_elem_of_In.
Qed.

Lemma get_syscall_nr_inserts arch name nr :
  get_syscall_nr (SyscallTable_new arch) name = Some nr <-> (name, nr) ∈ inserts_of arch.
Proof. apply insert_all_lookup, inserts_names_NoDup. Qed.

Lemma get_syscall_nr_range arch name nr :
  get_syscall_nr (SyscallTable_new arch) name = Some nr -> in_range 32 nr.
Proof.
  intros E%get_syscall_nr_inserts. pose proof (inserts_range arch) as Hr.
  rewrite Forall_forall in Hr. apply (Hr _ E).
Qed.

Lemma NoDup_snd_inj {A B} (l : list (A * B)) a a' b :
  NoDup l.*2 -> (a, b) ∈ l -> (a', b) ∈ l -> a = a'.
Proof.
  induction l as [|[x y] l IH]; cbn; [by intros _ ?%elem_of_nil|].
  rewrite NoDup_cons, !elem_of_cons. intros [Hy Hnd] [[= -> ->]|H1] [[= ->]|H2]; try done.
  - destruct Hy. by apply (list_elem_of_fmap_2 snd) in H2.
  - subst. destruct Hy. by apply (list_elem_of_fmap_2 snd) in H1.
  - by apply IH.
Qed.
