(* ===== verification/SeccompCorrect.v ===== *)
(** * Correctness of the seccomp-BPF compiler

    The meaning of a seccomp filter ([filter_decision]: the action of the first
    rule of the called syscall's chain whose conditions all hold, else the
    default), the interface of the kernel's BPF machine, and the theorem that the
    program [filter_try_into] builds computes exactly that meaning on every
    system call.

    The machine is the class [BpfMachine]: a function from the system call's data,
    the program that remains, and the accumulator to the value the filter returns,
    with one documented law per instruction the compiler emits (jumps only go
    forward, so the remaining program is the machine's whole control state);
    [bpf_interp] is an executable instance. *)

From Stdlib Require Import ZArith Lia Btauto.
From stdpp Require Import prelude strings.
From S2P Require Import Prelude SeccompBackend.

(** ** What a filter means *)

(** [struct seccomp_data]: [nr] as the 32-bit word the program loads. *)
Record seccomp_data := mkSeccompData {
  sd_nr : Z;
  sd_arch : Z;
  sd_instruction_pointer : Z;
  sd_args : list Z
}.

Definition data_ok (d : seccomp_data) : Prop :=
  in_range 32 (sd_nr d) /\ in_range 32 (sd_arch d) /\ length (sd_args d) = 6%nat /\
  Forall (in_range 64) (sd_args d).

Definition arg_of (d : seccomp_data) (i : Z) : Z := default 0 (sd_args d !! Z.to_nat i).

(** The argument and the operand at the condition's width. *)
Definition truncate (l : SeccompCmpArgLen) (v : Z) : Z :=
  match l with Dword => wrap 32 v | Qword => v end.

Definition condition_holds (d : seccomp_data) (c : SeccompCondition) : bool :=
  let a := truncate (arg_len c) (arg_of d (arg_number c)) in
  let v := truncate (arg_len c) (value c) in
  match operator c with
  | Eq => a =? v
  | Ge => v <=? a
  | Gt => v <? a
  | Le => a <=? v
  | Lt => a <? v
  | MaskedEq mask =>
      Z.land a (truncate (arg_len c) mask) =? Z.land v (truncate (arg_len c) mask)
  | Ne => negb (a =? v)
  end.

Definition rule_matches (d : seccomp_data) (r : SeccompRule) : bool :=
  forallb (condition_holds d) (conditions r).

Fixpoint chain_decision (d : seccomp_data) (l : list SeccompRule) (dflt : SeccompAction)
    : SeccompAction :=
  match l with
  | [] => dflt
  | r :: l => if rule_matches d r then action r else chain_decision d l dflt
  end.

Fixpoint rules_decision (d : seccomp_data) (l : SeccompRuleMap) (dflt : SeccompAction)
    : SeccompAction :=
  match l with
  | [] => dflt
  | (nr, chain) :: l =>
      if wrap 32 nr =? sd_nr d then chain_decision d chain dflt else rules_decision d l dflt
  end.

Definition filter_decision (f : SeccompFilter) (d : seccomp_data) : SeccompAction :=
  if sd_arch d =? get_audit_value (target_arch f)
  then rules_decision d (rules f) (default_action f) else KillProcess.

(** What the compiler front end checks of conditions. *)
Definition op_ok (o : SeccompCmpOp) : Prop :=
  match o with MaskedEq m => in_range 64 m | _ => True end.
Definition condition_ok (c : SeccompCondition) : Prop :=
  0 <= arg_number c <= ARG_NUMBER_MAX /\ in_range 64 (value c) /\ op_ok (operator c).
Definition rule_ok (r : SeccompRule) : Prop := Forall condition_ok (conditions r).
Definition rules_ok (l : SeccompRuleMap) : Prop := Forall (fun e => Forall rule_ok e.2) l.

(** ** The BPF machine *)

(** The 32-bit word of [seccomp_data] at a byte offset (little endian). *)
Definition data_word (d : seccomp_data) (off : Z) : option Z :=
  if off =? 0 then Some (sd_nr d)
  else if off =? 4 then Some (sd_arch d)
  else if off =? 8 then Some (lsb_of (sd_instruction_pointer d))
  else if off =? 12 then Some (msb_of (sd_instruction_pointer d))
  else if (16 <=? off) && (off <? 64) then
    if (off - 16) mod 8 =? 0 then Some (lsb_of (arg_of d ((off - 16) / 8)))
    else if (off - 16) mod 8 =? 4 then Some (msb_of (arg_of d ((off - 16) / 8)))
    else None
  else None.

Class BpfMachine := {
  bpf_run : seccomp_data -> BpfProgram -> Z -> option Z;

  run_ret d a p c : bpf_run d (BPF_STMT (BPF_RET + BPF_K) c :: p) a = Some c;
  run_ld d a p off w :
    data_word d off = Some w ->
    bpf_run d (BPF_STMT (BPF_LD + BPF_W + BPF_ABS) off :: p) a = bpf_run d p w;
  run_and d a p c :
    bpf_run d (BPF_STMT (BPF_ALU + BPF_AND + BPF_K) c :: p) a = bpf_run d p (Z.land a c);
  run_ja d a p n :
    bpf_run d (BPF_STMT (BPF_JMP + BPF_JA) n :: p) a = bpf_run d (drop (Z.to_nat n) p) a;
  run_jeq d a p c t f :
    bpf_run d (BPF_JUMP (BPF_JMP + BPF_JEQ + BPF_K) c t f :: p) a =
    bpf_run d (drop (Z.to_nat (if a =? c then t else f)) p) a;
  run_jgt d a p c t f :
    bpf_run d (BPF_JUMP (BPF_JMP + BPF_JGT + BPF_K) c t f :: p) a =
    bpf_run d (drop (Z.to_nat (if c <? a then t else f)) p) a;
  run_jge d a p c t f :
    bpf_run d (BPF_JUMP (BPF_JMP + BPF_JGE + BPF_K) c t f :: p) a =
    bpf_run d (drop (Z.to_nat (if c <=? a then t else f)) p) a
}.

(** An executable machine. *)
Fixpoint bpf_interp (fuel : nat) (d : seccomp_data) (p : BpfProgram) (a : Z) : option Z :=
  match fuel, p with
  | S fuel, i :: p =>
      if code i =? BPF_RET + BPF_K then Some (k i)
      else if code i =? BPF_LD + BPF_W + BPF_ABS then
        match data_word d (k i) with Some w => bpf_interp fuel d p w | None => None end
      else if code i =? BPF_ALU + BPF_AND + BPF_K then bpf_interp fuel d p (Z.land a (k i))
      else if code i =? BPF_JMP + BPF_JA then bpf_interp fuel d (drop (Z.to_nat (k i)) p) a
      else if code i =? BPF_JMP + BPF_JEQ + BPF_K then
        bpf_interp fuel d (drop (Z.to_nat (if a =? k i then jt i else jf i)) p) a
      else if code i =? BPF_JMP + BPF_JGT + BPF_K then
        bpf_interp fuel d (drop (Z.to_nat (if k i <? a then jt i else jf i)) p) a
      else if code i =? BPF_JMP + BPF_JGE + BPF_K then
        bpf_interp fuel d (drop (Z.to_nat (if k i <=? a then jt i else jf i)) p) a
      else None
  | _, _ => None
  end.

(** Fuel beyond the program's length changes nothing. *)
Lemma bpf_interp_more n m d p a :
  (length p <= n)%nat -> (length p <= m)%nat -> bpf_interp n d p a = bpf_interp m d p a.
Proof.
  revert m p a. induction n as [|n IH]; intros m p a Hn Hm.
  - destruct p; [|simpl in Hn; lia]. by destruct m.
  - destruct p as [|i p]; [by destruct m|]. destruct m as [|m]; [simpl in Hm; lia|].
    simpl in Hn, Hm. cbn [bpf_interp].
    assert (forall j a, bpf_interp n d (drop j p) a = bpf_interp m d (drop j p) a) as Hd.
    { intros j a'. apply IH; rewrite length_drop; lia. }
    rewrite !Hd. destruct (data_word d (k i)) as [w|]; [|by rewrite (IH m p) by lia].
    by rewrite !(IH m p) by lia.
Qed.

#[export] Instance bpf_machine : BpfMachine.
Proof.
  refine {| bpf_run d p a := bpf_interp (length p) d p a |}; intros; cbn [length bpf_interp];
    unfold BPF_STMT, BPF_JUMP; cbn [code k jt jf]; try done.
  - cbn. by rewrite H.
  - cbn. apply bpf_interp_more; rewrite length_drop; lia.
  - cbn. apply bpf_interp_more; rewrite ?length_drop; lia.
  - cbn. apply bpf_interp_more; rewrite ?length_drop; lia.
  - cbn. apply bpf_interp_more; rewrite ?length_drop; lia.
Defined.

(** ** How long a program is *)

(** The instructions for a condition, by its operator and the width of its argument. *)
Definition condition_size (c : SeccompCondition) : Z :=
  match operator c, arg_len c with
  | MaskedEq _, Dword => 3
  | MaskedEq _, Qword => 6
  | _, Dword => 2
  | Eq, Qword | Ne, Qword => 4
  | _, Qword => 5
  end.

(** Three jumps are put in whenever a jump of eight bits might not reach the next rule. *)
Fixpoint conditions_size (offset : Z) (cs : list SeccompCondition) : Z :=
  match cs with
  | [] => 0
  | c :: cs =>
      if 255 <? offset + 7 then 3 + condition_size c + conditions_size (1 + condition_size c) cs
      else condition_size c + conditions_size (offset + condition_size c) cs
  end.

Definition rule_size (r : SeccompRule) : Z := 3 + conditions_size 1 (conditions r).
Definition chain_size (l : list SeccompRule) : Z := foldr (fun r n => rule_size r + n) 0 l.
Definition chains_size (l : SeccompRuleMap) : Z := foldr (fun e n => 2 + chain_size e.2 + n) 0 l.

(** With the check of the architecture, the load of the number and the default action. *)
Definition filter_size (f : SeccompFilter) : Z :=
  match rules f with [] => 4 | l => 5 + chains_size l end.

Lemma condition_size_range c : 2 <= condition_size c <= 6.
Proof. unfold condition_size. destruct (operator c), (arg_len c); lia. Qed.
Lemma conditions_size_nonneg off cs : 0 <= conditions_size off cs.
Proof.
  revert off. induction cs as [|c cs IH]; intros off; cbn [conditions_size]; [lia|]. pose proof (condition_size_range c).
  destruct (255 <? off + 7); [specialize (IH (1 + condition_size c))|specialize (IH (off + condition_size c))]; lia.
Qed.
Lemma chain_size_nonneg l : 0 <= chain_size l.
Proof. unfold chain_size. induction l as [|r l IH]; cbn [foldr]; [lia|]. assert (0 <= rule_size r) by (pose proof (conditions_size_nonneg 1 (conditions r)); unfold rule_size; lia). lia. Qed.
Lemma chains_size_nonneg l : 0 <= chains_size l.
Proof. unfold chains_size. induction l as [|[nr ch] l IH]; cbn [foldr snd]; [lia|]. pose proof (chain_size_nonneg ch). lia. Qed.

Section Size.
Context `{Profile}.

Lemma into_bpf_size c off p : into_bpf c off = Ret p -> Z.of_nat (length p) = condition_size c.
Proof.
  unfold into_bpf, into_eq_bpf, into_ge_bpf, into_gt_bpf, into_le_bpf, into_lt_bpf, into_masked_eq_bpf, into_ne_bpf, condition_size. intros E.
  apply bind_Ret_inv in E as (q & E & Ea). apply bind_Ret_inv in Ea as ([] & _ & [= ->]).
  destruct (operator c), (arg_len c); apply bind_Ret_inv in E as ([[[msb lsb] mo] lo] & _ & E); cbn zeta beta iota in E;
    try (apply bind_Ret_inv in E as (bpf & Eb & E)); try (apply bind_Ret_inv in Eb as (o & _ & Eb));
    try (injection Eb as <-); injection E as <-; reflexivity.
Qed.

Lemma append_condition_size c st st' : 1 <= offset st <= 254 -> append_condition c st = Ret st' ->
  1 <= offset st' <= 254 /\
  Z.of_nat (length (concat (accumulator st'))) = Z.of_nat (length (concat (accumulator st))) + (if 255 <? offset st + 7 then 3 else 0) + condition_size c /\
  offset st' = (if 255 <? offset st + 7 then 1 else offset st) + condition_size c.
Proof.
  intros Ho E. unfold append_condition, checked_add, CONDITION_MAX_LEN in E. set (st1 := match _ with Some _ => st | None => append_helper_jumps st end) in E.
  assert (Hst1 : offset st1 = (if 255 <? offset st + 7 then 1 else offset st) /\
    Z.of_nat (length (concat (accumulator st1))) = Z.of_nat (length (concat (accumulator st))) + if 255 <? offset st + 7 then 3 else 0).
  { unfold st1, in_rangeb. replace (offset st + (6 + 1)) with (offset st + 7) by lia. destruct (Z.ltb_spec 255 (offset st + 7)) as [Hlt|Hle].
    - rewrite (proj2 (Z.ltb_ge (offset st + 7) (2 ^ 8))), andb_false_r by lia. cbn. split; [done|]. rewrite concat_app, length_app. cbn. lia.
    - rewrite (proj2 (Z.leb_le 0 _)), (proj2 (Z.ltb_lt (offset st + 7) (2 ^ 8))) by lia. cbn [andb]. split; [done|lia]. }
  clearbody st1. destruct Hst1 as [Eo El]. apply bind_Ret_inv in E as (p & Ep & E). apply into_bpf_size in Ep. pose proof (condition_size_range c) as Hc.
  rewrite (proj2 (Z.ltb_lt _ (2 ^ 8))) in E by lia. cbn [unwrap] in E. rewrite bind_Ret, uadd_ok, bind_Ret in E by (unfold in_range; destruct (Z.ltb_spec 255 (offset st + 7)); lia).
  injection E as <-. cbn [offset accumulator]. rewrite concat_app, length_app. cbn [concat length]. rewrite app_nil_r, Ep, Eo in *.
  destruct (Z.ltb_spec 255 (offset st + 7)); lia.
Qed.

Lemma append_conditions_size cs st st' : 1 <= offset st <= 254 -> append_conditions cs st = Ret st' ->
  Z.of_nat (length (concat (accumulator st'))) = Z.of_nat (length (concat (accumulator st))) + conditions_size (offset st) cs.
Proof.
  revert st. induction cs as [|c cs IH]; intros st Ho E; cbn [append_conditions conditions_size] in *; [injection E as <-; lia|].
  apply bind_Ret_inv in E as (st1 & E1 & E). apply append_condition_size in E1 as (Ho1 & El & Eo); [|done]. rewrite (IH st1 Ho1 E), El, Eo.
  destruct (255 <? offset st + 7); lia.
Qed.

Lemma length_concat_rev {A} (l : list (list A)) : length (concat (rev l)) = length (concat l).
Proof. induction l as [|x l IH]; [done|]. cbn [rev concat]. rewrite concat_app, !length_app, IH. cbn. rewrite app_nil_r. lia. Qed.

Lemma rule_into_bpf_size r p : rule_into_bpf r = Ret p -> Z.of_nat (length p) = rule_size r.
Proof.
  intros E. unfold rule_into_bpf in E. apply bind_Ret_inv in E as (st & E & [= <-]). apply append_conditions_size in E; [|cbn; lia].
  rewrite length_concat_rev, concat_app, length_app. cbn in *. unfold rule_size. lia.
Qed.

Lemma rules_into_bpf_size l ps : rules_into_bpf l = Ret ps -> Z.of_nat (length (concat ps)) = chain_size l.
Proof.
  revert ps. induction l as [|r l IH]; intros ps E; cbn [rules_into_bpf] in E; [by injection E as <-|].
  apply bind_Ret_inv in E as (p & Ep & E). apply bind_Ret_inv in E as (qs & Eq & [= <-]). apply rule_into_bpf_size in Ep. specialize (IH qs Eq).
  cbn [concat chain_size foldr]. rewrite length_app. unfold chain_size in IH. lia.
Qed.
End Size.

(** ** Halves of 64-bit words *)

Lemma msb_div v : in_range 64 v -> msb_of v = v / 2 ^ 32.
Proof.
  intros Hv. unfold msb_of. rewrite Z.shiftr_div_pow2 by lia. apply wrap_id.
  unfold in_range in *. split; [apply Z.div_pos; lia|apply Z.div_lt_upper_bound; lia].
Qed.

Lemma halves v : in_range 64 v ->
  v = msb_of v * 2 ^ 32 + lsb_of v /\ 0 <= lsb_of v < 2 ^ 32 /\ 0 <= msb_of v < 2 ^ 32.
Proof.
  intros Hv. pose proof (wrap_range 32 v ltac:(lia)). pose proof (wrap_range 32 (Z.shiftr v 32) ltac:(lia)).
  split; [|done]. rewrite msb_div by done. unfold lsb_of, wrap.
  pose proof (Z.div_mod v (2 ^ 32) ltac:(lia)). lia.
Qed.

Lemma land_halves a m : in_range 64 a -> in_range 64 m ->
  in_range 64 (Z.land a m) /\
  msb_of (Z.land a m) = Z.land (msb_of a) (msb_of m) /\
  lsb_of (Z.land a m) = Z.land (lsb_of a) (lsb_of m).
Proof.
  intros Ha Hm. unfold msb_of, lsb_of, wrap. rewrite <- !Z.land_ones by lia. split_and!.
  - unfold in_range in *. assert (0 <= Z.land a m) by (apply Z.land_nonneg; lia).
    split; [done|]. destruct (Z.eq_dec (Z.land a m) 0) as [->|]; [lia|].
    apply Z.log2_lt_pow2; [lia|].
    pose proof (Z.log2_land a m ltac:(lia) ltac:(lia)).
    assert (0 < a) by (destruct (Z.eq_dec a 0); [subst; rewrite Z.land_0_l in *; lia|lia]).
    assert (Z.log2 a < 64) by (apply Z.log2_lt_pow2; lia). lia.
  - apply Z.bits_inj'. intros n Hn. rewrite Z.shiftr_land, !Z.land_spec. btauto.
  - apply Z.bits_inj'. intros n Hn. rewrite !Z.land_spec. btauto.
Qed.

(** ** Conditions *)

Lemma drop_add_cons {A} (off : Z) (x : A) l :
  0 < off -> drop (Z.to_nat off) (x :: l) = drop (Z.to_nat (off - 1)) l.
Proof. intros. by replace (Z.to_nat off) with (S (Z.to_nat (off - 1))) by lia. Qed.

Lemma arg_of_range d i : data_ok d -> 0 <= i <= ARG_NUMBER_MAX -> in_range 64 (arg_of d i).
Proof.
  intros (_ & _ & Hl & Hf) Hi. unfold arg_of, ARG_NUMBER_MAX in *.
  destruct (lookup_lt_is_Some_2 (sd_args d) (Z.to_nat i)) as [v E]; [lia|].
  rewrite E. by apply (Forall_lookup_1 _ _ _ _ Hf E).
Qed.

Lemma data_word_args d i :
  0 <= i <= ARG_NUMBER_MAX ->
  data_word d (16 + 8 * i) = Some (lsb_of (arg_of d i)) /\
  data_word d (20 + 8 * i) = Some (msb_of (arg_of d i)).
Proof.
  unfold ARG_NUMBER_MAX. intros Hi.
  assert (i = 0 \/ i = 1 \/ i = 2 \/ i = 3 \/ i = 4 \/ i = 5)
    as [->|[->|[->|[->|[->| ->]]]]] by lia; done.
Qed.

(** Runs the next instruction, with case analysis on its comparison. *)
Ltac bpf_step :=
  match goal with
  | Hw : data_word ?d ?o = Some ?w |- context [bpf_run ?d (BPF_STMT (BPF_LD + BPF_W + BPF_ABS) ?o :: _) _] =>
      rewrite (run_ld d _ _ o w Hw)
  | |- context [bpf_run _ (BPF_STMT (BPF_ALU + BPF_AND + BPF_K) _ :: _) _] => rewrite run_and
  | |- context [bpf_run _ (BPF_JUMP (BPF_JMP + BPF_JEQ + BPF_K) ?c _ _ :: _) ?a] =>
      rewrite run_jeq; destruct (Z.eqb_spec a c)
  | |- context [bpf_run _ (BPF_JUMP (BPF_JMP + BPF_JGT + BPF_K) ?c _ _ :: _) ?a] =>
      rewrite run_jgt; destruct (Z.ltb_spec c a)
  | |- context [bpf_run _ (BPF_JUMP (BPF_JMP + BPF_JGE + BPF_K) ?c _ _ :: _) ?a] =>
      rewrite run_jge; destruct (Z.leb_spec c a)
  end;
  rewrite ?drop_add_cons by lia; change (Z.to_nat 0) with 0%nat; rewrite ?drop_0; cbn [drop].

(** The condition's truth value [h] is [b]; conclude with the program reached. *)
Ltac bpf_conclude h b :=
  replace h with b by lia; eexists; first [reflexivity|do 2 f_equal; f_equal; lia].

Section Correct.
Context `{Profile} `{BpfMachine}.

(** A piece of code that continues with what follows it when [b] holds, and
    otherwise jumps [off] instructions into what follows it. *)
Definition tests (d : seccomp_data) (b : bool) (off : Z) (c : BpfProgram) : Prop :=
  forall R a, exists a',
    bpf_run d (c ++ R) a = bpf_run d (if b then R else drop (Z.to_nat off) R) a'.

Lemma value_segments_ok c :
  condition_ok c ->
  value_segments c = Ret (msb_of (value c), lsb_of (value c),
                          20 + 8 * arg_number c, 16 + 8 * arg_number c).
Proof.
  intros (Ha & _). unfold ARG_NUMBER_MAX, value_segments, SECCOMP_DATA_ARG_SIZE,
    SECCOMP_DATA_ARGS_OFFSET in *.
  rewrite umul_ok, bind_Ret by (unfold in_range; lia).
  rewrite uadd_ok, bind_Ret by (unfold in_range; lia).
  rewrite uadd_ok, bind_Ret by (unfold in_range; change (8 / 2) with 4; lia).
  change (8 / 2) with 4.
  replace (16 + arg_number c * 8 + 4) with (20 + 8 * arg_number c) by lia.
  by replace (16 + arg_number c * 8) with (16 + 8 * arg_number c) by lia.
Qed.

Lemma into_bpf_tests d c off :
  data_ok d -> condition_ok c -> 0 <= off <= 248 ->
  exists p, into_bpf c off = Ret p /\ (0 < length p <= 6)%nat /\
            tests d (condition_holds d c) off p.
Proof.
  intros Hd Hc Hoff. pose proof Hc as (Hn & Hv & Ho).
  pose proof (arg_of_range d _ Hd Hn) as Ha.
  destruct (data_word_args d _ Hn) as [Hlo Hhi].
  pose proof (halves _ Ha) as (EA & HlA & HhA). pose proof (halves _ Hv) as (EV & HlV & HhV).
  unfold into_bpf, condition_holds, into_eq_bpf, into_ge_bpf, into_gt_bpf, into_le_bpf,
    into_lt_bpf, into_masked_eq_bpf, into_ne_bpf.
  rewrite !(value_segments_ok c Hc).
  destruct (operator c) as [| | | | |mask|] eqn:Eop, (arg_len c); rewrite ?bind_Ret;
    rewrite ?uadd_ok, ?bind_Ret by (unfold in_range; lia);
    cbn [app length truncate]; (eexists; split; [reflexivity|]; split; [cbn; lia|]).
  11-12: destruct (land_halves _ _ Ha Ho) as (Hr1 & Em1 & El1);
         destruct (land_halves _ _ Hv Ho) as (Hr2 & Em2 & El2);
         pose proof (halves _ Hr1) as (EA' & BlA & BhA);
         pose proof (halves _ Hr2) as (EV' & BlV & BhV);
         rewrite Em1, El1 in *; rewrite Em2, El2 in *.
  all: fold (lsb_of (value c)); fold (lsb_of (arg_of d (arg_number c)));
       try fold (lsb_of mask).
  all: intros R a; cbn [app]; repeat bpf_step;
       first
         [eexists; reflexivity
         |match goal with
          | |- exists a', _ = bpf_run _ (if ?h then _ else _) _ =>
              first [bpf_conclude h true|bpf_conclude h false]
          end].
Qed.

(** ** Rules *)

(** The code accumulated so far decides the rule: it returns the action when
    [b] holds and otherwise falls to the next rule; jumping [offset] into it
    reaches the next rule, and jumping one further its second instruction. *)
Record decides (d : seccomp_data) (act : Z) (b : bool) (st : RuleState) : Prop := {
  dec_offset : 1 <= offset st <= 254;
  dec_run T a : exists a',
    bpf_run d (concat (rev (accumulator st)) ++ T) a =
    if b then Some act else bpf_run d T a';
  dec_next T a :
    bpf_run d (drop (Z.to_nat (offset st)) (concat (rev (accumulator st)) ++ T)) a =
    bpf_run d T a;
  dec_skip T a :
    bpf_run d (drop (Z.to_nat (offset st + 1)) (concat (rev (accumulator st)) ++ T)) a =
    bpf_run d (drop 1 T) a
}.

Lemma code_snoc (acc : list (list sock_filter)) c T :
  concat (rev (acc ++ [c])) ++ T = c ++ (concat (rev acc) ++ T).
Proof. rewrite rev_unit. simpl. by rewrite app_assoc. Qed.

Lemma helper_jumps_decides d act b st :
  decides d act b st -> decides d act b (append_helper_jumps st).
Proof.
  intros []. split; cbn [append_helper_jumps offset accumulator]; [lia|..]; intros T a;
    rewrite code_snoc; cbn [app]; rewrite ?run_ja.
  - apply dec_run0.
  - change (Z.to_nat 1) with 1%nat. cbn [drop]. rewrite run_ja, drop_add_cons by lia.
    replace (offset st + 1 - 1) with (offset st) by lia. apply dec_next0.
  - change (Z.to_nat (1 + 1)) with 2%nat. cbn [drop]. rewrite run_ja. apply dec_skip0.
Qed.

Lemma drop_app_add {A} (c l : list A) (off : Z) :
  0 <= off -> drop (Z.to_nat (off + Z.of_nat (length c))) (c ++ l) = drop (Z.to_nat off) l.
Proof.
  intros. rewrite drop_app_ge by lia. f_equal. lia.
Qed.

Lemma tests_decides d act b b' st p :
  decides d act b st -> tests d b' (offset st) p ->
  offset st + Z.of_nat (length p) <= 254 ->
  decides d act (b && b')
    (mkRuleState (accumulator st ++ [p]) (rule_len st + Z.of_nat (length p))
       (offset st + Z.of_nat (length p))).
Proof.
  intros [] Ht Hl. split; cbn [offset accumulator]; [lia|..]; intros T a; rewrite code_snoc.
  - destruct (Ht (concat (rev (accumulator st)) ++ T) a) as [a1 ->].
    destruct b'; [rewrite andb_true_r; apply dec_run0|].
    rewrite andb_false_r. exists a1. apply dec_next0.
  - rewrite drop_app_add by lia. apply dec_next0.
  - replace (offset st + Z.of_nat (length p) + 1)
      with (offset st + 1 + Z.of_nat (length p)) by lia.
    rewrite drop_app_add by lia. apply dec_skip0.
Qed.

Lemma append_condition_decides d act b c st :
  data_ok d -> condition_ok c -> decides d act b st ->
  exists st', append_condition c st = Ret st' /\
              decides d act (b && condition_holds d c) st'.
Proof.
  intros Hd Hc Hdec. unfold append_condition, checked_add.
  set (st1 := match (if in_rangeb 8 (offset st + (CONDITION_MAX_LEN + 1))
                     then Some _ else None) with Some _ => st | None => append_helper_jumps st end).
  assert (decides d act b st1 /\ offset st1 <= 248) as [Hdec1 Hoff].
  { unfold st1. destruct (in_rangeb 8 _) eqn:E.
    - apply in_rangeb_spec in E. unfold in_range, CONDITION_MAX_LEN in E. split; [done|lia].
    - split; [by apply helper_jumps_decides|]. cbn. lia. }
  clearbody st1. pose proof (dec_offset _ _ _ _ Hdec1).
  destruct (into_bpf_tests d c (offset st1) Hd Hc ltac:(lia)) as (p & -> & Hl & Ht).
  rewrite bind_Ret, (proj2 (Z.ltb_lt _ _)) by lia. cbn [unwrap]. rewrite bind_Ret.
  rewrite uadd_ok, bind_Ret by (unfold in_range; lia).
  eexists. split; [done|]. apply tests_decides; [done|done|lia].
Qed.

Lemma append_conditions_decides d act b cs st :
  data_ok d -> Forall condition_ok cs -> decides d act b st ->
  exists st', append_conditions cs st = Ret st' /\
              decides d act (b && forallb (condition_holds d) cs) st'.
Proof.
  intros Hd Hcs. revert b st. induction Hcs as [|c cs Hc Hcs IH]; intros b st Hdec.
  { exists st. split; [done|]. simpl. by rewrite andb_true_r. }
  destruct (append_condition_decides d act b c st Hd Hc Hdec) as (st1 & E1 & Hdec1).
  destruct (IH _ _ Hdec1) as (st2 & E2 & Hdec2). exists st2. simpl.
  rewrite E1, bind_Ret, E2. split; [done|]. by rewrite andb_assoc.
Qed.

(** A compiled rule decides the rule when entered at its first instruction, and
    is skipped when entered at its second. *)
Record rule_code (d : seccomp_data) (act : Z) (b : bool) (p : BpfProgram) : Prop := {
  rc_enter T a : exists a', bpf_run d (p ++ T) a = if b then Some act else bpf_run d T a';
  rc_skip T a : bpf_run d (drop 1 (p ++ T)) a = bpf_run d (drop 1 T) a
}.

Lemma rule_into_bpf_code d r :
  data_ok d -> rule_ok r ->
  exists p, rule_into_bpf r = Ret p /\ rule_code d (action_code (action r)) (rule_matches d r) p.
Proof.
  intros Hd Hr. unfold rule_into_bpf.
  set (st0 := mkRuleState _ 1 1).
  assert (decides d (action_code (action r)) true st0) as Hdec.
  { split; cbn [st0 offset accumulator rev concat app]; [lia|..]; intros T a.
    - exists a. apply run_ret.
    - done.
    - done. }
  destruct (append_conditions_decides _ _ _ _ _ Hd Hr Hdec) as (st & -> & []).
  rewrite bind_Ret. eexists. split; [done|]. split; intros T a; rewrite code_snoc; cbn [app].
  - rewrite run_ja. change (Z.to_nat 1) with 1%nat. cbn [drop]. apply dec_run0.
  - cbn [drop]. rewrite run_ja. apply dec_skip0.
Qed.

(** ** Chains *)

(** A chain of rules followed by its default action. *)
Lemma chain_code d l dflt :
  data_ok d -> Forall rule_ok l ->
  exists ps, rules_into_bpf l = Ret ps /\
    let p := concat ps ++ [BPF_STMT (BPF_RET + BPF_K) (action_code dflt)] in
    (forall T a, bpf_run d (p ++ T) a = Some (action_code (chain_decision d l dflt))) /\
    (forall T a, bpf_run d (drop 1 (p ++ T)) a = bpf_run d T a).
Proof.
  intros Hd Hl. induction Hl as [|r l Hr Hl IH]; cbn [rules_into_bpf].
  { exists []. split; [done|]. split; intros T a; simpl; [apply run_ret|done]. }
  destruct (rule_into_bpf_code d r Hd Hr) as (p & -> & [Hen Hsk]). rewrite bind_Ret.
  destruct IH as (ps & -> & He & Hs). rewrite bind_Ret. exists (p :: ps). split; [done|].
  cbn zeta. split; intros T a; cbn [concat chain_decision]; rewrite <- !app_assoc.
  - destruct (Hen (concat ps ++ [BPF_STMT (BPF_RET + BPF_K) (action_code dflt)] ++ T) a)
      as [a' ->]. destruct (rule_matches d r); [done|]. rewrite app_assoc. apply He.
  - rewrite Hsk, app_assoc. apply Hs.
Qed.

Lemma append_chains_code d l dflt acc n :
  data_ok d -> rules_ok l ->
  exists r, append_chains l (action_code dflt) acc n = Ret r /\
    match r with
    | Err e => e = FilterTooLarge /\ BPF_MAX_LEN <= n + chains_size l
    | Ok (acc', _) => exists p, concat acc' = concat acc ++ p /\ Z.of_nat (length p) = chains_size l /\
        forall T, bpf_run d T (sd_nr d) = Some (action_code dflt) ->
          bpf_run d (p ++ T) (sd_nr d) = Some (action_code (rules_decision d l dflt))
    end.
Proof.
  intros Hd Hl. revert acc n. induction Hl as [|[nr chain] l Hc Hl IH]; intros acc n.
  { eexists. split; [done|]. exists []. rewrite app_nil_r. done. }
  destruct (chain_code d chain dflt Hd Hc) as (ps & Eps & He & Hs).
  cbn [append_chains]. unfold append_syscall_chain. rewrite Eps, bind_Ret.
  set (built := [_] ++ concat ps ++ _). cbn zeta.
  assert (Hsz : Z.of_nat (length built) = 2 + chain_size chain) by (unfold built; rewrite !length_app; cbn; rewrite <- (rules_into_bpf_size chain ps Eps); lia).
  pose proof (chains_size_nonneg l) as Hnn. cbn [chains_size foldr snd] in *. fold (chains_size l).
  destruct (Z.leb_spec BPF_MAX_LEN (n + Z.of_nat (length built))); [eexists; split; [done|]; split; [done|lia]|]. rewrite bind_Ret.
  destruct (IH (acc ++ [built]) (n + Z.of_nat (length built))) as (r & Er & Hr).
  exists r. split; [exact Er|]. destruct r as [[acc' n']|e]; [|split; [apply Hr|lia]].
  destruct Hr as (p & Ep & Hlp & Hp). exists (built ++ p). split; [|split; [rewrite length_app; lia|]].
  { by rewrite Ep, concat_app, <- app_assoc; simpl; rewrite app_nil_r. }
  intros T HT. unfold built. cbn [app]. rewrite run_jeq. cbn [rules_decision].
  rewrite (Z.eqb_sym (wrap 32 nr)), <- (app_assoc _ p T).
  destruct (sd_nr d =? wrap 32 nr).
  - change (Z.to_nat 0) with 0%nat. rewrite drop_0. apply He.
  - change (Z.to_nat 1) with 1%nat. rewrite Hs. by apply Hp.
Qed.
End Correct.

(** ** Theorems *)

Section Theorems.
Context `{Profile} `{BpfMachine}.

(** The program for one system call; [filter_try_into_all] is for all of them. *)
Lemma filter_try_into_runs f d a :
  rules_ok (rules f) -> data_ok d ->
  exists r, filter_try_into f = Ret r /\
    match r with
    | Err e => e = FilterTooLarge /\ BPF_MAX_LEN <= filter_size f
    | Ok p => Z.of_nat (length p) = filter_size f /\ filter_size f < BPF_MAX_LEN /\
              bpf_run d p a = Some (action_code (filter_decision f d))
    end.
Proof.
  intros Hf Hd. unfold filter_try_into, filter_decision.
  assert (forall T, bpf_run d (VALIDATE_ARCHITECTURE (target_arch f) ++ T) a =
    if sd_arch d =? get_audit_value (target_arch f) then bpf_run d T (sd_arch d)
    else Some (action_code KillProcess)) as Hva.
  { intros T. unfold VALIDATE_ARCHITECTURE. cbn [app].
    rewrite (run_ld d _ _ 4 (sd_arch d)), run_jeq by done. destruct (_ =? _); [done|].
    change (Z.to_nat 0) with 0%nat. rewrite drop_0. apply run_ret. }
  destruct (rules f) as [|e l] eqn:Er.
  { eexists. split; [done|]. unfold filter_size. rewrite Er. split; [done|]. split; [done|].
    rewrite Hva. destruct (_ =? _); [|done]. cbn [rules_decision]. apply run_ret. }
  assert (Hsz : filter_size f = 5 + chains_size (rules f)) by (unfold filter_size; by rewrite Er).
  rewrite <- Er in *. clear Er e l. rewrite Hsz.
  destruct (append_chains_code d (rules f) (default_action f) [EXAMINE_SYSCALL] 1 Hd Hf)
    as (r & -> & Hr). rewrite bind_Ret. destruct r as [[acc n]|e]; [|eexists; split; [done|]; split; [apply Hr|lia]].
  destruct Hr as (p & Ep & Hlp & Hp).
  cbn zeta. match goal with |- context [BPF_MAX_LEN <=? ?x] => assert (Hlen : x = 5 + chains_size (rules f)) end.
  { rewrite length_app, concat_app, Ep, !length_app. cbn. lia. }
  rewrite Hlen. destruct (Z.leb_spec BPF_MAX_LEN (5 + chains_size (rules f))); (eexists; split; [done|]); [done|].
  split; [exact Hlen|]. split; [done|]. rewrite Hva. destruct (_ =? _); [|done].
  rewrite concat_app, Ep. unfold EXAMINE_SYSCALL. cbn [concat app].
  rewrite (run_ld d _ _ SECCOMP_DATA_NR_OFFSET (sd_nr d)) by done.
  apply Hp. apply run_ret.
Qed.

Definition null_data : seccomp_data := mkSeccompData 0 0 0 [0; 0; 0; 0; 0; 0].

Lemma null_data_ok : data_ok null_data.
Proof. unfold data_ok, in_range; cbn. rewrite !Forall_cons, Forall_nil. lia. Qed.

Lemma filter_try_into_all f :
  rules_ok (rules f) ->
  exists r, filter_try_into f = Ret r /\
    match r with
    | Err e => e = FilterTooLarge /\ BPF_MAX_LEN <= filter_size f
    | Ok p => Z.of_nat (length p) = filter_size f /\ filter_size f < BPF_MAX_LEN /\
              forall d a, data_ok d ->
                bpf_run d p a = Some (action_code (filter_decision f d))
    end.
Proof.
  intros Hf. destruct (filter_try_into_runs f null_data 0 Hf null_data_ok) as (r & E & Hr).
  exists r. split; [done|]. destruct r as [p|e]; [|done]. split; [apply Hr|]. split; [apply Hr|].
  intros d a Hd. destruct (filter_try_into_runs f d a Hf Hd) as (r & E' & Hr').
  rewrite E in E'. injection E' as <-. apply Hr'.
Qed.

(** C2: the compiler is correct.  For every filter whose conditions name valid
    arguments, compilation never panics.  It reports that the filter is too large
    exactly when the instructions its rules need ([filter_size]) are 4096 or more.
    Otherwise it yields a program of just that length which, run on any
    system call's data, returns the action of the first matching rule of the
    called syscall, the default action when none matches, and kills the process on
    a foreign architecture. *)
Theorem filter_try_into_correct f :
  rules_ok (rules f) ->
  exists r, filter_try_into f = Ret r /\
    match r with
    | Err e => e = FilterTooLarge /\ BPF_MAX_LEN <= filter_size f
    | Ok p => Z.of_nat (length p) = filter_size f /\ filter_size f < BPF_MAX_LEN /\
              forall d a, data_ok d ->
                bpf_run d p a = Some (action_code (filter_decision f d))
    end.
Proof. apply filter_try_into_all. Qed.
End Theorems.

(** Two rules on one syscall: [write] to a descriptor above 2 is trapped, other
    writes are allowed, everything else is killed. *)
Definition sample_filter : SeccompFilter :=
  mkSeccompFilter
    [(1, [SeccompRule_new [mkCondition 0 Dword Gt 2] Trap;
          SeccompRule_new [mkCondition 2 Qword (MaskedEq 255) 7;
                         mkCondition 1 Qword Ne 0] Allow])]
    KillThread x86_64.

Definition sample_data : seccomp_data := mkSeccompData 1 (get_audit_value x86_64) 0 [1; 4096; 263; 0; 0; 0].

Lemma filter_try_into_correct_witness :
  filter_decision sample_filter sample_data = Allow /\ filter_size sample_filter = 25 /\
  exists r, @filter_try_into dev_profile sample_filter = Ret r /\
    match r with
    | Err e => e = FilterTooLarge /\ BPF_MAX_LEN <= filter_size sample_filter
    | Ok p => Z.of_nat (length p) = filter_size sample_filter /\ filter_size sample_filter < BPF_MAX_LEN /\
              forall d a, data_ok d ->
                @bpf_run bpf_machine d p a = Some (action_code (filter_decision sample_filter d))
    end.
Proof.
  split; [reflexivity|]. split; [reflexivity|].
  apply (@filter_try_into_correct dev_profile bpf_machine sample_filter).
  repeat constructor; cbn; unfold in_range, ARG_NUMBER_MAX; lia.
Defined.
