(* ===== verification/SeccompCompiler.v ===== *)
(** * The seccomp filter compiler

    [src/firecracker/src/seccompiler/src/compiler.rs]: the thread filters read
    from the JSON file, their validation, their translation to the rule maps of
    the back end and the compilation of a whole file; and [apply_filter] of
    [lib.rs].

    A [HashMap] consumed by iteration is the list of its entries in the
    iteration's order (any order, each key once); the map that [compile_blob]
    builds is a [gmap].  The [comment] properties, which hold no value, are left
    out.  The theorems compose the front end with the back end of
    [SeccompCorrect]. *)

From Stdlib Require Import ZArith Lia Sorted.
From stdpp Require Import functions prelude strings gmap.
From S2P Require Import Prelude SeccompBackend SyscallTable SeccompCorrect.

(** ** Definitions *)

#[export] Instance SeccompAction_eq_dec : EqDecision SeccompAction.
Proof. solve_decision. Defined.

Inductive CompilerError :=
| IdenticalActions
| SeccompFilterError (e : SeccompError)
| SyscallName (name : string) (arch : TargetArch).

Record SyscallRule := mkSyscallRule {
  syscall : string;
  sr_conditions : option (list SeccompCondition)
}.

Record Filter := mkFilter {
  fl_default_action : SeccompAction;
  fl_filter_action : SeccompAction;
  fl_filter : list SyscallRule
}.

(** [.iter().filter_map(|x| validate(x).err()).next()]: the first error. *)
Fixpoint first_error {A E} (validate : A -> result unit E) (l : list A) : option E :=
  match l with
  | [] => None
  | x :: l => match validate x with Err e => Some e | Ok _ => first_error validate l end
  end.

Definition SyscallRule_validate (r : SyscallRule) : result unit CompilerError :=
  match sr_conditions r with
  | Some conditions =>
      match first_error condition_validate conditions with
      | None => Ok tt
      | Some err => Err (SeccompFilterError err)
      end
  | None => Ok tt
  end.

Definition Filter_validate (f : Filter) : result unit CompilerError :=
  if bool_decide (fl_default_action f = fl_filter_action f) then Err IdenticalActions
  else match first_error SyscallRule_validate (fl_filter f) with
       | None => Ok tt
       | Some err => Err err
       end.

(** [JsonFileVisitor::visit_map]: the entries the deserializer yields are
    collected; a second entry with the same key is an error. *)
Fixpoint visit_map (entries : list (string * Filter)) (values : gmap string Filter)
    : option (gmap string Filter) :=
  match entries with
  | [] => Some values
  | (key, value) :: entries =>
      match values !! key with
      | Some _ => None
      | None => visit_map entries (<[key := value]> values)
      end
  end.

Record Compiler := mkCompiler { arch : TargetArch; syscall_table : SyscallTable }.

Definition Compiler_new (a : TargetArch) : Compiler := mkCompiler a (SyscallTable_new a).

Definition validate_filters (filters : list (string * Filter)) : result unit CompilerError :=
  match first_error (fun e => Filter_validate e.2) filters with
  | None => Ok tt
  | Some err => Err err
  end.

(** [rule_map.entry(nr)] on the sorted entries: [g] maps the entry found (or
    its absence) to the entry's new value. *)
Fixpoint btree_entry (nr : Z) (g : option (list SeccompRule) -> list SeccompRule)
    (m : SeccompRuleMap) : SeccompRuleMap :=
  match m with
  | [] => [(nr, g None)]
  | (k, v) :: m' =>
      if nr <? k then (nr, g None) :: m
      else if nr =? k then (k, g (Some v)) :: m'
      else (k, v) :: btree_entry nr g m'
  end.

(** One iteration of the loop of [make_seccomp_filter] on the rule's entry:
    [or_insert_with(Vec::new)], then [push]. *)
Definition push_rule (filter_action : SeccompAction) (r : SyscallRule)
    (o : option (list SeccompRule)) : list SeccompRule :=
  default [] o ++ [SeccompRule_new (default [] (sr_conditions r)) filter_action].

(** The same of [make_basic_seccomp_filter]: [or_insert_with] one empty rule. *)
Definition basic_rule (filter_action : SeccompAction) (r : SyscallRule)
    (o : option (list SeccompRule)) : list SeccompRule :=
  default [SeccompRule_new [] filter_action] o.

Fixpoint make_rule_map (c : Compiler)
    (entry : SyscallRule -> option (list SeccompRule) -> list SeccompRule)
    (l : list SyscallRule) (rule_map : SeccompRuleMap)
    : result SeccompRuleMap CompilerError :=
  match l with
  | [] => Ok rule_map
  | syscall_rule :: l =>
      match get_syscall_nr (syscall_table c) (syscall syscall_rule) with
      | None => Err (SyscallName (syscall syscall_rule) (arch c))
      | Some syscall_nr =>
          make_rule_map c entry l (btree_entry syscall_nr (entry syscall_rule) rule_map)
      end
  end.

Definition new_filter (c : Compiler) (f : Filter) (m : result SeccompRuleMap CompilerError)
    : result SeccompFilter CompilerError :=
  match m with
  | Err e => Err e
  | Ok rule_map =>
      match SeccompFilter_new rule_map (fl_default_action f) (TargetArch_to_string (arch c)) with
      | Err e => Err (SeccompFilterError e)
      | Ok sf => Ok sf
      end
  end.

Definition make_seccomp_filter (c : Compiler) (f : Filter) : result SeccompFilter CompilerError :=
  new_filter c f (make_rule_map c (push_rule (fl_filter_action f)) (fl_filter f) []).

Definition make_basic_seccomp_filter (c : Compiler) (f : Filter)
    : result SeccompFilter CompilerError :=
  new_filter c f (make_rule_map c (basic_rule (fl_filter_action f)) (fl_filter f) []).

Section Compile.
Context `{Profile}.

(** [self.make_..._filter(filter)?.try_into()?]. *)
Definition compile_filter (c : Compiler) (is_basic : bool) (f : Filter)
    : exec (result BpfProgram CompilerError) :=
  match (if is_basic then make_basic_seccomp_filter c f else make_seccomp_filter c f) with
  | Err e => Ret (Err e)
  | Ok sf =>
      p ← filter_try_into sf;
      Ret (match p with Err e => Err (SeccompFilterError e) | Ok p => Ok p end)
  end.

Fixpoint compile_loop (c : Compiler) (is_basic : bool) (filters : list (string * Filter))
    (bpf_map : gmap string BpfProgram) : exec (result (gmap string BpfProgram) CompilerError) :=
  match filters with
  | [] => Ret (Ok bpf_map)
  | (thread_name, filter) :: filters =>
      p ← compile_filter c is_basic filter;
      match p with
      | Err e => Ret (Err e)
      | Ok p => compile_loop c is_basic filters (<[thread_name := p]> bpf_map)
      end
  end.

Definition compile_blob (c : Compiler) (filters : list (string * Filter)) (is_basic : bool)
    : exec (result (gmap string BpfProgram) CompilerError) :=
  match validate_filters filters with
  | Err e => Ret (Err e)
  | Ok _ => compile_loop c is_basic filters ∅
  end.
End Compile.

(** ** Installation *)

Inductive InstallationError := InstallFilterTooLarge | Prctl (errno : Z).

(** The two [prctl] calls that [apply_filter] makes, with the program the
    second passes: its [sock_fprog] has the length as a 16-bit integer. *)
Inductive prctl_call := SetNoNewPrivs | SetSeccomp (len : Z) (filter : BpfProgram).

(** [prctl] answers each call with a return code and [errno]. *)
Definition apply_filter (prctl : prctl_call -> Z * Z) (bpf_filter : BpfProgram)
    : result unit InstallationError * list prctl_call :=
  match bpf_filter with
  | [] => (Ok tt, [])
  | _ =>
      if BPF_MAX_LEN <? Z.of_nat (length bpf_filter) then (Err InstallFilterTooLarge, [])
      else
        let rc := prctl SetNoNewPrivs in
        if negb (rc.1 =? 0) then (Err (Prctl rc.2), [SetNoNewPrivs])
        else
          let call := SetSeccomp (wrap 16 (Z.of_nat (length bpf_filter))) bpf_filter in
          let rc := prctl call in
          if negb (rc.1 =? 0) then (Err (Prctl rc.2), [SetNoNewPrivs; call])
          else (Ok tt, [SetNoNewPrivs; call])
  end.

(** ** Specification *)

(** The rule is about syscall number [nr]. *)
Definition for_nr (c : Compiler) (nr : Z) (r : SyscallRule) : bool :=
  bool_decide (get_syscall_nr (syscall_table c) (syscall r) = Some nr).

Definition Filter_matches (c : Compiler) (is_basic : bool) (f : Filter) (d : seccomp_data) : bool :=
  existsb (fun r => for_nr c (sd_nr d) r &&
                    (is_basic || forallb (condition_holds d) (default [] (sr_conditions r))))
    (fl_filter f).

(** What a thread's filter means, read off the file: a call from the target
    architecture gets the filter action exactly when some rule names it and all
    the rule's conditions hold (a basic filter ignores the conditions). *)
Definition Filter_decision (c : Compiler) (is_basic : bool) (f : Filter) (d : seccomp_data)
    : SeccompAction :=
  if sd_arch d =? get_audit_value (arch c)
  then if Filter_matches c is_basic f d then fl_filter_action f else fl_default_action f
  else KillProcess.

(** The ranges of the condition's integer fields ([u8] and [u64]). *)
Definition condition_typed (x : SeccompCondition) : Prop :=
  in_range 8 (arg_number x) /\ in_range 64 (value x) /\ op_ok (operator x).
Definition Filter_typed (f : Filter) : Prop :=
  Forall (fun r => Forall condition_typed (default [] (sr_conditions r))) (fl_filter f).

(** The numbers of the syscalls that a filter names. *)
Definition Filter_numbers (c : Compiler) (f : Filter) : list Z :=
  omap (fun r => get_syscall_nr (syscall_table c) (syscall r)) (fl_filter f).

(** The instructions that a filter needs: two per syscall and those of its rules. *)
Definition Filter_size (c : Compiler) (is_basic : bool) (f : Filter) : Z :=
  match fl_filter f with
  | [] => 4
  | rs =>
      let n := Z.of_nat (length (remove_dups (Filter_numbers c f))) in
      5 + 2 * n + (if is_basic then 3 * n else foldr (fun r s => 3 + conditions_size 1 (default [] (sr_conditions r)) + s) 0 rs)
  end.

(** Why a filter is refused. *)
Definition filter_error (c : Compiler) (is_basic : bool) (f : Filter) (e : CompilerError) : Prop :=
  match e with
  | IdenticalActions => fl_default_action f = fl_filter_action f
  | SyscallName name a =>
      a = arch c /\ get_syscall_nr (syscall_table c) name = None /\
      name ∈ syscall <$> fl_filter f
  | SeccompFilterError InvalidArgumentNumber =>
      exists r x, r ∈ fl_filter f /\ x ∈ default [] (sr_conditions r) /\
                  ARG_NUMBER_MAX < arg_number x
  | SeccompFilterError (ConflictingRules nr) =>
      is_basic = false /\
      (exists r, r ∈ fl_filter f /\ for_nr c nr r = true /\ default [] (sr_conditions r) = []) /\
      (1 < length (List.filter (for_nr c nr) (fl_filter f)))%nat
  | SeccompFilterError FilterTooLarge => BPF_MAX_LEN <= Filter_size c is_basic f
  | SeccompFilterError _ => False
  end.

(** ** Lemmas *)

Lemma first_error_None {A E} (v : A -> result unit E) l :
  first_error v l = None -> Forall (fun x => v x = Ok tt) l.
Proof.
  induction l as [|x l IH]; cbn; [done|].
  destruct (v x) as [[]|e] eqn:E'; [|done]. constructor; auto.
Qed.

Lemma first_error_Some {A E} (v : A -> result unit E) l e :
  first_error v l = Some e -> exists x, x ∈ l /\ v x = Err e.
Proof.
  induction l as [|x l IH]; cbn; [done|]. destruct (v x) as [[]|e'] eqn:E'.
  - intros (y & Hy & Hv)%IH. exists y. split; [by right|done].
  - intros [= ->]. exists x. split; [by left|done].
Qed.

Lemma condition_validate_ok x : condition_validate x = Ok tt -> arg_number x <= ARG_NUMBER_MAX.
Proof. unfold condition_validate. destruct (Z.ltb_spec ARG_NUMBER_MAX (arg_number x)); [done|lia]. Qed.

Lemma SyscallRule_validate_ok r :
  SyscallRule_validate r = Ok tt ->
  Forall (fun x => arg_number x <= ARG_NUMBER_MAX) (default [] (sr_conditions r)).
Proof.
  unfold SyscallRule_validate. destruct (sr_conditions r) as [l|]; [|by constructor].
  destruct (first_error _ _) eqn:E; [done|]. intros _.
  apply first_error_None in E. eapply Forall_impl; [exact E|]. apply condition_validate_ok.
Qed.

Lemma Filter_validate_conditions f :
  Filter_validate f = Ok tt -> Filter_typed f ->
  Forall (fun r => Forall condition_ok (default [] (sr_conditions r))) (fl_filter f).
Proof.
  unfold Filter_validate. case_bool_decide; [done|]. destruct (first_error _ _) eqn:E; [done|].
  intros _ Ht. apply first_error_None in E. apply Forall_forall. intros r Hr.
  unfold Filter_typed in Ht. rewrite Forall_forall in E, Ht.
  pose proof (SyscallRule_validate_ok r (E r Hr)) as Hv. specialize (Ht r Hr).
  rewrite Forall_forall in Hv, Ht |- *. intros x Hx. specialize (Hv x Hx).
  destruct (Ht x Hx) as ([] & ? & ?). done.
Qed.

Lemma Filter_validate_error c b f e : Filter_validate f = Err e -> filter_error c b f e.
Proof.
  unfold Filter_validate. case_bool_decide; [by intros [= <-]|].
  destruct (first_error _ _) as [err|] eqn:E; [|done]. intros [= ->].
  apply first_error_Some in E as (r & Hr & Hv). unfold SyscallRule_validate in Hv.
  destruct (sr_conditions r) as [l|] eqn:El; [|done].
  destruct (first_error _ l) as [err|] eqn:E; [|done]. injection Hv as <-.
  apply first_error_Some in E as (x & Hx & Hv). unfold condition_validate in Hv.
  destruct (Z.ltb_spec ARG_NUMBER_MAX (arg_number x)) as [Hlt|]; [|done]. injection Hv as <-.
  exists r, x. by rewrite El.
Qed.

(** *** The rule map *)

Definition sorted (m : SeccompRuleMap) : Prop := StronglySorted Z.lt m.*1.

Fixpoint btree_get (k : Z) (m : SeccompRuleMap) : option (list SeccompRule) :=
  match m with
  | [] => None
  | (k', v) :: m => if k =? k' then Some v else btree_get k m
  end.

Lemma btree_get_below k m : Forall (Z.lt k) m.*1 -> btree_get k m = None.
Proof.
  induction m as [|[k' v] m IH]; cbn; [done|]. intros [Hk Hm]%Forall_cons. cbn in Hk.
  destruct (Z.eqb_spec k k'); [lia|auto].
Qed.

Lemma btree_get_in k v m : sorted m -> (k, v) ∈ m -> btree_get k m = Some v.
Proof.
  induction m as [|[k' v'] m IH]; [by intros _ ?%elem_of_nil|]. intros Hs Hin.
  inversion Hs as [|? ? Hs' Hall]; subst. cbn.
  apply elem_of_cons in Hin as [[= -> ->]|Hin]; [by rewrite Z.eqb_refl|].
  assert (k' < k). { rewrite Forall_forall in Hall. apply Hall. by apply (list_elem_of_fmap_2 fst) in Hin. }
  destruct (Z.eqb_spec k k'); [lia|auto].
Qed.

Lemma btree_entry_keys nr g m k : k ∈ (btree_entry nr g m).*1 -> k = nr \/ k ∈ m.*1.
Proof.
  induction m as [|[k' v] m IH]; cbn.
  - intros ?%list_elem_of_singleton. by left.
  - destruct (nr <? k'); [|destruct (nr =? k')]; cbn; rewrite !elem_of_cons; tauto.
Qed.

Lemma btree_entry_sorted nr g m : sorted m -> sorted (btree_entry nr g m).
Proof.
  unfold sorted. induction m as [|[k v] m IH]; cbn; intros Hs; [by repeat constructor|].
  inversion Hs as [|? ? Hs' Hall]; subst.
  destruct (Z.ltb_spec nr k); [|destruct (Z.eqb_spec nr k)]; cbn; constructor; auto.
  - constructor; [done|]. eapply Forall_impl; [exact Hall|]. cbn. lia.
  - rewrite Forall_forall in Hall |- *. intros x [->|Hx]%btree_entry_keys; [lia|auto].
Qed.

Lemma btree_get_entry k nr g m :
  sorted m ->
  btree_get k (btree_entry nr g m) =
  if k =? nr then Some (g (btree_get nr m)) else btree_get k m.
Proof.
  unfold sorted. induction m as [|[k' v] m IH]; cbn; intros Hs; [done|].
  inversion Hs as [|? ? Hs' Hall]; subst.
  destruct (Z.ltb_spec nr k'); [|destruct (Z.eqb_spec nr k') as [->|]]; cbn.
  - destruct (Z.eqb_spec k nr); [|done]. destruct (Z.eqb_spec nr k'); [lia|].
    rewrite btree_get_below; [done|]. eapply Forall_impl; [exact Hall|]. cbn. lia.
  - by destruct (k =? k').
  - rewrite IH by done. destruct (Z.eqb_spec k k') as [->|]; [|done].
    by destruct (Z.eqb_spec k' nr); [lia|].
Qed.

Lemma make_rule_map_get c entry l m m' :
  sorted m -> make_rule_map c entry l m = Ok m' ->
  sorted m' /\ forall k, btree_get k m' =
    foldl (fun o r => Some (entry r o)) (btree_get k m) (List.filter (for_nr c k) l).
Proof.
  revert m. induction l as [|r l IH]; cbn; intros m Hs E.
  { injection E as <-. done. }
  destruct (get_syscall_nr _ _) as [nr|] eqn:En; [|done].
  apply IH in E as [Hs' Hget]; [|by apply btree_entry_sorted]. split; [done|].
  intros k. rewrite Hget, btree_get_entry by done. unfold for_nr at 2. rewrite En.
  destruct (Z.eqb_spec k nr) as [->|Hne].
  - by rewrite bool_decide_eq_true_2.
  - rewrite bool_decide_eq_false_2; [done|congruence].
Qed.

Lemma make_rule_map_error c entry l m e :
  make_rule_map c entry l m = Err e ->
  exists name, e = SyscallName name (arch c) /\ name ∈ syscall <$> l /\
               get_syscall_nr (syscall_table c) name = None.
Proof.
  revert m. induction l as [|r l IH]; cbn; intros m E; [done|].
  destruct (get_syscall_nr _ _) eqn:En.
  - apply IH in E as (name & -> & Hin & Hn). exists name. repeat split; [by right|done].
  - injection E as <-. exists (syscall r). repeat split; [by left|done].
Qed.

Definition to_rule (act : SeccompAction) (r : SyscallRule) : SeccompRule :=
  SeccompRule_new (default [] (sr_conditions r)) act.

(** The chain that the rules [rs] of one syscall build. *)
Definition chain_of (is_basic : bool) (act : SeccompAction) (rs : list SyscallRule)
    : list SeccompRule :=
  if is_basic then [SeccompRule_new [] act] else to_rule act <$> rs.

Definition entry_of (is_basic : bool) : SeccompAction -> SyscallRule ->
    option (list SeccompRule) -> list SeccompRule :=
  if is_basic then basic_rule else push_rule.

Lemma foldl_entry b act rs :
  foldl (fun o r => Some (entry_of b act r o)) None rs =
  match rs with [] => None | _ => Some (chain_of b act rs) end.
Proof.
  induction rs as [|r rs IH] using rev_ind; [done|].
  rewrite foldl_app, IH. cbn. destruct b; destruct rs; cbn; try done.
  by rewrite fmap_app.
Qed.

Lemma rule_map_chain c b act l m k ch :
  make_rule_map c (entry_of b act) l [] = Ok m -> (k, ch) ∈ m ->
  List.filter (for_nr c k) l <> [] /\ ch = chain_of b act (List.filter (for_nr c k) l).
Proof.
  intros E Hin. apply make_rule_map_get in E as [Hs Hget]; [|constructor].
  apply btree_get_in in Hin; [|done]. rewrite Hget in Hin. cbn in Hin. rewrite foldl_entry in Hin.
  destruct (List.filter _ l) eqn:El; [done|]. split; [done|]. by injection Hin.
Qed.

Lemma chain_decision_uniform d act dflt l :
  Forall (fun r => action r = act) l ->
  chain_decision d l dflt = if existsb (rule_matches d) l then act else dflt.
Proof.
  induction 1 as [|r l Hr Hl IH]; cbn; [done|]. rewrite IH. by destruct (rule_matches d r).
Qed.

Lemma rules_decision_get d m dflt :
  Forall (in_range 32) m.*1 ->
  rules_decision d m dflt =
  match btree_get (sd_nr d) m with Some ch => chain_decision d ch dflt | None => dflt end.
Proof.
  induction m as [|[k ch] m IH]; cbn; [done|]. intros [Hk Hm]%Forall_cons.
  rewrite wrap_id, Z.eqb_sym by done. destruct (_ =? _); auto.
Qed.

Lemma chain_of_matches d b act rs :
  rs <> [] ->
  existsb (rule_matches d) (chain_of b act rs) =
  existsb (fun r => b || forallb (condition_holds d) (default [] (sr_conditions r))) rs.
Proof.
  destruct b; cbn.
  - destruct rs; [done|]. cbn. done.
  - intros _. induction rs as [|r rs IH]; cbn; [done|]. by rewrite IH.
Qed.

Lemma existsb_filter {A} (p q : A -> bool) l :
  existsb q (List.filter p l) = existsb (fun x => p x && q x) l.
Proof. induction l as [|x l IH]; cbn; [done|]. destruct (p x); cbn; by rewrite IH. Qed.

Lemma for_nr_range a k r : for_nr (Compiler_new a) k r = true -> in_range 32 k.
Proof. unfold for_nr. rewrite bool_decide_eq_true. apply get_syscall_nr_range. Qed.

Lemma rule_map_keys a b act l m :
  make_rule_map (Compiler_new a) (entry_of b act) l [] = Ok m -> Forall (in_range 32) m.*1.
Proof.
  intros E. apply Forall_forall. intros k ([k' ch] & -> & Hin)%list_elem_of_fmap.
  destruct (rule_map_chain _ _ _ _ _ _ _ E Hin) as [Hne _].
  destruct (List.filter _ l) as [|r rs] eqn:El; [done|].
  assert (In r (List.filter (for_nr (Compiler_new a) k') l)) as Hr by (rewrite El; by left).
  apply filter_In in Hr as [_ Hr]. by apply for_nr_range in Hr.
Qed.

Lemma rule_map_decision a b f m d dflt :
  make_rule_map (Compiler_new a) (entry_of b (fl_filter_action f)) (fl_filter f) [] = Ok m ->
  rules_decision d m dflt =
  if Filter_matches (Compiler_new a) b f d then fl_filter_action f else dflt.
Proof.
  intros E. rewrite rules_decision_get by (by eapply rule_map_keys).
  apply make_rule_map_get in E as [Hs Hget]; [|constructor].
  rewrite Hget. cbn [btree_get]. rewrite foldl_entry.
  unfold Filter_matches. rewrite <- existsb_filter.
  destruct (List.filter _ _) as [|r rs] eqn:El; [done|].
  rewrite (chain_decision_uniform d (fl_filter_action f)).
  - by rewrite chain_of_matches.
  - destruct b; [by repeat constructor|]. apply Forall_fmap, Forall_true. done.
Qed.

Lemma rule_map_ok c b act l m :
  Forall (fun r => Forall condition_ok (default [] (sr_conditions r))) l ->
  make_rule_map c (entry_of b act) l [] = Ok m -> rules_ok m.
Proof.
  intros Hl E. apply Forall_forall. intros [k ch] Hin.
  destruct (rule_map_chain _ _ _ _ _ _ _ E Hin) as [_ ->]. cbn.
  destruct b; [by repeat constructor|]. apply Forall_fmap. apply Forall_forall.
  intros r Hr. rewrite Forall_forall in Hl. apply (Hl r).
  apply list_elem_of_In in Hr. apply filter_In in Hr as [Hr _]. by apply list_elem_of_In.
Qed.

Lemma validate_rules_error m e :
  validate_rules m = Err e ->
  exists k ch, (k, ch) ∈ m /\
    (ch = [] \/ e = ConflictingRules k /\ (exists r, r ∈ ch /\ conditions r = []) /\
                (1 < length ch)%nat).
Proof.
  induction m as [|[k ch] m IH]; cbn [validate_rules]; [done|]. intros E.
  assert (forall r, In r (List.filter is_empty_rule ch) -> r ∈ ch /\ conditions r = []) as Hem.
  { intros r [Hr He]%filter_In. split; [by apply list_elem_of_In|].
    unfold is_empty_rule in He. by destruct (conditions r). }
  assert (validate_rules m = Err e -> exists k ch, (k, ch) ∈ m /\
    (ch = [] \/ e = ConflictingRules k /\ (exists r, r ∈ ch /\ conditions r = []) /\
                (1 < length ch)%nat)) as IH' by exact IH.
  destruct ch as [|r0 ch0]; [exists k, []; split; [left|by left]|]. set (ch := r0 :: ch0) in *.
  pose proof (filter_length_le is_empty_rule ch) as Hle.
  destruct (List.filter is_empty_rule ch) as [|r [|r' rs]]; cbn [length] in E, Hle.
  - apply IH' in E as (k' & ch' & ? & ?). exists k', ch'. split; [by right|done].
  - case_bool_decide as Hlt.
    + injection E as <-. exists k, ch. split; [by left|]. right. split; [done|].
      split; [exists r; apply Hem; by left|done].
    + apply IH' in E as (k' & ch' & ? & ?). exists k', ch'. split; [by right|done].
  - injection E as <-. exists k, ch. split; [by left|]. right. split; [done|].
    split; [exists r; apply Hem; by left|lia].
Qed.

(** *** The length of the program *)

Definition bodies_size (m : SeccompRuleMap) : Z := foldr (fun e n => chain_size e.2 + n) 0 m.

Lemma chains_size_bodies m : chains_size m = 2 * Z.of_nat (length m) + bodies_size m.
Proof. unfold chains_size, bodies_size. induction m as [|[k ch] m IH]; cbn [foldr length snd]; [done|]. lia. Qed.

Lemma chain_size_app l l' : chain_size (l ++ l') = chain_size l + chain_size l'.
Proof. unfold chain_size. induction l as [|r l IH]; cbn [app foldr]; [done|]. lia. Qed.

Lemma chain_size_one r : chain_size [r] = rule_size r.
Proof. unfold chain_size. cbn [foldr]. lia. Qed.

Lemma bodies_size_push nr act r m : bodies_size (btree_entry nr (push_rule act r) m) = bodies_size m + rule_size (to_rule act r).
Proof.
  assert (Hnew : chain_size (push_rule act r None) = rule_size (to_rule act r)) by apply chain_size_one.
  assert (Hold : forall ch, chain_size (push_rule act r (Some ch)) = chain_size ch + rule_size (to_rule act r)) by (intros ch; unfold push_rule; cbn; by rewrite chain_size_app, chain_size_one).
  unfold bodies_size. induction m as [|[k ch] m IH]; cbn [btree_entry foldr snd]; [lia|].
  destruct (nr <? k); [cbn [foldr snd]; lia|]. destruct (nr =? k); cbn [foldr snd]; [rewrite Hold; lia|lia].
Qed.

Lemma rule_map_bodies_size c act l m m' :
  make_rule_map c (push_rule act) l m = Ok m' ->
  bodies_size m' = bodies_size m + foldr (fun r s => 3 + conditions_size 1 (default [] (sr_conditions r)) + s) 0 l.
Proof.
  revert m. induction l as [|r l IH]; intros m E; cbn [make_rule_map foldr] in *; [injection E as <-; lia|].
  destruct (get_syscall_nr _ _); [|done]. rewrite (IH _ E), bodies_size_push. unfold to_rule, rule_size. cbn [conditions]. lia.
Qed.

Lemma rule_map_basic_size c act l m : make_rule_map c (entry_of true act) l [] = Ok m -> bodies_size m = 3 * Z.of_nat (length m).
Proof.
  intros E. assert (Hm : Forall (fun e : Z * list SeccompRule => e.2 = [SeccompRule_new [] act]) m).
  { apply Forall_forall. intros [k ch] Hin. by destruct (rule_map_chain _ _ _ _ _ _ _ E Hin) as [_ ->]. }
  unfold bodies_size. clear E. induction Hm as [|[k ch] m Hch Hm IH]; cbn [foldr length snd] in *; [done|]. subst ch. rewrite chain_size_one. change (rule_size (SeccompRule_new [] act)) with 3. lia.
Qed.

Lemma btree_get_elem k m : k ∈ m.*1 <-> is_Some (btree_get k m).
Proof.
  induction m as [|[k' v] m IH]; cbn [fmap list_fmap btree_get fst].
  - split; [intros []%elem_of_nil|by intros []].
  - rewrite elem_of_cons. destruct (Z.eqb_spec k k') as [-> |Hne]; [split; [by eexists|by left]|]. rewrite <- IH. split; [by intros [?|?]|by right].
Qed.

Lemma rule_map_numbers c b act f m :
  make_rule_map c (entry_of b act) (fl_filter f) [] = Ok m -> length m = length (remove_dups (Filter_numbers c f)).
Proof.
  intros E. apply make_rule_map_get in E as [Hs Hget]; [|constructor]. rewrite <- (length_fmap fst). apply Permutation_length, NoDup_Permutation.
  - unfold sorted in Hs. clear Hget. induction Hs as [|k l Hs IH Hk]; constructor; [|done]. intros Hin. rewrite Forall_forall in Hk. specialize (Hk k Hin). lia.
  - apply NoDup_remove_dups.
  - intros k. rewrite elem_of_remove_dups, btree_get_elem, Hget. cbn [btree_get]. rewrite foldl_entry. unfold Filter_numbers. rewrite list_elem_of_omap.
    destruct (List.filter (for_nr c k) (fl_filter f)) as [|r rs] eqn:El.
    + split; [by intros []|]. intros (r & Hr & En). assert (Hin : In r (List.filter (for_nr c k) (fl_filter f))); [|by rewrite El in Hin].
      apply filter_In. split; [by apply list_elem_of_In|]. unfold for_nr. by apply bool_decide_eq_true.
    + split; [|by eexists]. intros _. assert (Hin : In r (List.filter (for_nr c k) (fl_filter f))) by (rewrite El; by left).
      apply filter_In in Hin as [Hr Hn]. exists r. split; [by apply list_elem_of_In|]. unfold for_nr in Hn. by apply bool_decide_eq_true in Hn.
Qed.

Lemma rule_map_size c b f m dflt a :
  make_rule_map c (entry_of b (fl_filter_action f)) (fl_filter f) [] = Ok m -> filter_size (mkSeccompFilter m dflt a) = Filter_size c b f.
Proof.
  intros E. pose proof (rule_map_numbers _ _ _ _ _ E) as Hn. unfold filter_size, Filter_size. cbn [rules].
  destruct (fl_filter f) as [|r rs] eqn:Er; [by injection E as <-|]. rewrite <- Er in *.
  assert (Hm : m <> []).
  { intros ->. cbn [length] in Hn. assert (Hin : exists k, k ∈ Filter_numbers c f); [|destruct Hin as [k Hin]; apply elem_of_remove_dups in Hin; by destruct (remove_dups _); [apply elem_of_nil in Hin|]].
    rewrite Er in E. cbn [make_rule_map] in E. destruct (get_syscall_nr _ _) as [k|] eqn:Ek; [|done]. exists k. unfold Filter_numbers. rewrite Er. apply list_elem_of_omap. exists r. split; [by left|done]. }
  destruct m as [|e m'] eqn:Em; [done|]. rewrite <- Em in *. cbn zeta. rewrite chains_size_bodies, <- Hn. destruct b.
  - rewrite (rule_map_basic_size _ _ _ _ E). lia.
  - rewrite (rule_map_bodies_size _ _ _ _ _ E). cbn [bodies_size foldr]. lia.
Qed.

Lemma TargetArch_roundtrip a : TargetArch_try_from (TargetArch_to_string a) = Ok a.
Proof. by destruct a. Qed.

Definition make_filter (is_basic : bool) (c : Compiler) (f : Filter) :=
  if is_basic then make_basic_seccomp_filter c f else make_seccomp_filter c f.

Lemma make_filter_eq b c f :
  make_filter b c f = new_filter c f (make_rule_map c (entry_of b (fl_filter_action f)) (fl_filter f) []).
Proof. by destruct b. Qed.

Lemma make_filter_ok b a f sf :
  make_filter b (Compiler_new a) f = Ok sf -> Filter_validate f = Ok tt -> Filter_typed f ->
  rules_ok (rules sf) /\ filter_size sf = Filter_size (Compiler_new a) b f /\
  forall d, filter_decision sf d = Filter_decision (Compiler_new a) b f d.
Proof.
  rewrite make_filter_eq. unfold new_filter, SeccompFilter_new.
  destruct (make_rule_map _ _ _ _) as [m|] eqn:E; [|done].
  rewrite TargetArch_roundtrip. destruct (SeccompFilter_validate _); [|done].
  intros [= <-] Hv Ht. split; [|split; [by apply rule_map_size|]].
  - eapply rule_map_ok; [|exact E]. by apply Filter_validate_conditions.
  - intros d. unfold filter_decision, Filter_decision. cbn. destruct (_ =? _); [|done].
    by erewrite rule_map_decision.
Qed.

Lemma make_filter_error b a f e :
  make_filter b (Compiler_new a) f = Err e -> filter_error (Compiler_new a) b f e.
Proof.
  rewrite make_filter_eq. unfold new_filter, SeccompFilter_new.
  destruct (make_rule_map _ _ _ _) as [m|e'] eqn:E.
  2: { intros [= ->]. apply make_rule_map_error in E as (name & -> & ? & ?). done. }
  rewrite TargetArch_roundtrip. unfold SeccompFilter_validate. cbn [rules].
  destruct (validate_rules m) as [|e'] eqn:Ev; [done|]. intros [= <-].
  apply validate_rules_error in Ev as (k & ch & Hin & Hc).
  destruct (rule_map_chain _ _ _ _ _ _ _ E Hin) as [Hne ->].
  destruct Hc as [Hc|(-> & (r & Hr & Hrc) & Hl)].
  { destruct b; [done|]. by destruct (List.filter _ _). }
  destruct b; [cbn in Hl; lia|]. cbn in Hl. rewrite length_fmap in Hl.
  split; [done|]. split; [|done]. apply list_elem_of_fmap in Hr as (r0 & -> & Hr).
  apply list_elem_of_In, filter_In in Hr as [Hr Hn]. exists r0.
  split; [by apply list_elem_of_In|done].
Qed.

Section Outcome.
Context `{Profile} `{BpfMachine}.

(** [p] is a program for the filter [f]. *)
Definition implements (c : Compiler) (b : bool) (f : Filter) (p : BpfProgram) : Prop :=
  Z.of_nat (length p) = Filter_size c b f /\ Filter_size c b f < BPF_MAX_LEN /\
  forall d a, data_ok d -> bpf_run d p a = Some (action_code (Filter_decision c b f d)).

Lemma compile_filter_outcome a b f :
  Filter_validate f = Ok tt -> Filter_typed f ->
  exists r, compile_filter (Compiler_new a) b f = Ret r /\
    match r with
    | Err e => filter_error (Compiler_new a) b f e
    | Ok p => implements (Compiler_new a) b f p
    end.
Proof.
  intros Hv Ht. unfold compile_filter. fold (make_filter b (Compiler_new a) f).
  destruct (make_filter b (Compiler_new a) f) as [sf|e] eqn:E.
  2: { eexists. split; [done|]. by apply make_filter_error. }
  destruct (make_filter_ok _ _ _ _ E Hv Ht) as (Hok & Hsz & Hdec).
  destruct (filter_try_into_all sf Hok) as (r & -> & Hr). rewrite bind_Ret.
  eexists. split; [done|]. rewrite Hsz in Hr. destruct r as [p|e]; [|by destruct Hr as [-> Hr]].
  destruct Hr as (Hl & Hlt & Hrun). split; [done|]. split; [done|]. intros d x Hd. by rewrite <- Hdec, Hrun.
Qed.

Lemma compile_loop_outcome a b filters m :
  Forall (fun e => Filter_validate e.2 = Ok tt /\ Filter_typed e.2) filters ->
  NoDup filters.*1 -> (forall k, k ∈ filters.*1 -> m !! k = None) ->
  exists r, compile_loop (Compiler_new a) b filters m = Ret r /\
    match r with
    | Err e => exists k f, (k, f) ∈ filters /\ filter_error (Compiler_new a) b f e
    | Ok m' => forall k,
        match m' !! k with
        | Some p => m !! k = Some p \/
                    exists f, (k, f) ∈ filters /\ implements (Compiler_new a) b f p
        | None => m !! k = None /\ k ∉ filters.*1
        end
    end.
Proof.
  intros Hok. revert m. induction Hok as [|[k f] l [Hv Ht] Hl IH]; intros m Hnd Hm.
  { eexists. split; [done|]. intros k. destruct (m !! k); [by left|].
    split; [done|]. apply not_elem_of_nil. }
  cbn in Hnd, Hm. apply NoDup_cons in Hnd as [Hk Hnd]. cbn [compile_loop].
  destruct (compile_filter_outcome a b f Hv Ht) as (r & -> & Hr). rewrite bind_Ret.
  destruct r as [p|e].
  2: { eexists. split; [done|]. exists k, f. split; [by left|done]. }
  destruct (IH (<[k := p]> m) Hnd) as (r & E & Hr').
  { intros k' Hk'. rewrite lookup_insert_ne by congruence. apply Hm. by right. }
  exists r. split; [exact E|]. destruct r as [m'|e].
  2: { destruct Hr' as (k' & f' & ? & ?). exists k', f'. split; [by right|done]. }
  intros k'. specialize (Hr' k'). destruct (m' !! k') as [p'|].
  - destruct Hr' as [Hr'|(f' & ? & ?)]; [|right; exists f'; split; [by right|done]].
    destruct (decide (k = k')) as [->|].
    + rewrite lookup_insert_eq in Hr'. injection Hr' as <-. right. exists f. split; [by left|done].
    + rewrite lookup_insert_ne in Hr' by done. by left.
  - destruct Hr' as [Hr' Hn]. destruct (decide (k = k')) as [->|]; [by rewrite lookup_insert_eq in Hr'|].
    rewrite lookup_insert_ne in Hr' by done. split; [done|]. cbn. rewrite not_elem_of_cons. done.
Qed.

(** C1: compiling a file of thread filters, for either architecture and with
    or without [--basic].  Compilation never panics.  When it succeeds, exactly the
    file's threads have a program, and each thread's program decides every system
    call as the file says: the filter action when some rule names the call and all
    its conditions hold, the default action otherwise, and the process is killed on
    a foreign architecture; it has just the instructions that the rules need
    ([Filter_size]), fewer than 4096.  When it fails, some filter of the file has the
    defect the error names: identical actions, an unknown syscall, an argument number
    above 5, an unconditional rule beside another one, or 4096 instructions and more. *)
Theorem compile_blob_correct a filters is_basic :
  NoDup filters.*1 -> Forall (fun e => Filter_typed e.2) filters ->
  exists r, compile_blob (Compiler_new a) filters is_basic = Ret r /\
    match r with
    | Err e => exists k f, (k, f) ∈ filters /\ filter_error (Compiler_new a) is_basic f e
    | Ok m => forall k,
        match m !! k with
        | Some p => exists f, (k, f) ∈ filters /\ implements (Compiler_new a) is_basic f p
        | None => k ∉ filters.*1
        end
    end.
Proof.
  intros Hnd Ht. unfold compile_blob, validate_filters.
  destruct (first_error _ _) as [e|] eqn:E.
  { eexists. split; [done|]. apply first_error_Some in E as ([k f] & Hin & Hv).
    exists k, f. split; [done|]. by apply Filter_validate_error. }
  apply first_error_None in E.
  destruct (compile_loop_outcome a is_basic filters ∅) as (r & Er & Hr); [|done|done|].
  { apply Forall_and. split; [exact E|exact Ht]. }
  exists r. split; [exact Er|]. destruct r as [m|e]; [|done].
  intros k. specialize (Hr k). destruct (m !! k) as [p|]; [|apply Hr].
  destruct Hr as [Hr|Hr]; [|done]. by rewrite lookup_empty in Hr.
Qed.
End Outcome.

Definition sample_filters : list (string * Filter) :=
  [("vcpu", mkFilter Trap Allow
      [mkSyscallRule "write" None;
       mkSyscallRule "futex" (Some [mkCondition 1 Dword Eq 129; mkCondition 2 Qword Lt 9]);
       mkSyscallRule "futex" (Some [mkCondition 1 Dword Eq 128])]);
   ("api", mkFilter (Errno 1) Allow [mkSyscallRule "accept4" None])].

Lemma compile_blob_correct_witness :
  Filter_size (Compiler_new x86_64) false <$> sample_filters.*2 = [27; 10] /\
  match @compile_blob dev_profile (Compiler_new x86_64) sample_filters false with Ret (Ok _) => True | _ => False end /\
  exists r, @compile_blob dev_profile (Compiler_new x86_64) sample_filters false = Ret r /\
    match r with
    | Err e => exists k f, (k, f) ∈ sample_filters /\ filter_error (Compiler_new x86_64) false f e
    | Ok m => forall k,
        match m !! k with
        | Some p => exists f, (k, f) ∈ sample_filters /\
                              @implements bpf_machine (Compiler_new x86_64) false f p
        | None => k ∉ sample_filters.*1
        end
    end.
Proof.
  split; [vm_compute; reflexivity|]. split; [vm_compute; exact I|].
  apply (@compile_blob_correct dev_profile bpf_machine x86_64 sample_filters false).
  - apply (bool_decide_unpack _). reflexivity.
  - unfold sample_filters, Filter_typed, condition_typed, in_range.
    repeat constructor; cbn; lia.
Defined.

(** The sample file compiles, to a program per thread. *)
Example sample_filters_compile :
  match @compile_blob dev_profile (Compiler_new x86_64) sample_filters false with
  | Ret (Ok m) => (length <$> m !! "vcpu", length <$> m !! "api") = (Some 27, Some 10)%nat
  | _ => False
  end.
Proof. vm_compute. reflexivity. Qed.

(** The syscall tables are exactly the insertions of the source and name
    each syscall number once, so two rules share a chain exactly when they name the
    same syscall. *)
Theorem syscall_table_injective a name name' nr :
  get_syscall_nr (SyscallTable_new a) name = Some nr ->
  get_syscall_nr (SyscallTable_new a) name' = Some nr ->
  name = name' /\ (name, nr) ∈ inserts_of a /\ in_range 32 nr.
Proof.
  intros E E'. pose proof (get_syscall_nr_range _ _ _ E) as Hr.
  apply get_syscall_nr_inserts in E, E'. split; [|done].
  eapply NoDup_snd_inj; [|exact E|exact E']. apply inserts_numbers_NoDup.
Qed.

Lemma syscall_table_injective_witness : "futex" = "futex" /\ ("futex", 202) ∈ inserts_of x86_64 /\ in_range 32 202.
Proof. apply (syscall_table_injective x86_64 "futex" "futex" 202); vm_compute; reflexivity. Defined.
