(* ===== verification/UkBinary.v ===== *)
(** * The minimised unikernel file

    The writer, [aligner/helpers/elf_minimizer.py], keeps the sections of a
    unikernel that its instances cannot share; the reader, [BinaryLoader] of
    [firecracker/src/loader/src/binary.rs], loads that file back.

    On the Python side a string is its list of code points, an ELF section is
    the record of what [elftools] gives for it, and [Panic] is an uncaught
    exception; progress messages are left out.  On the Rust side a file is its
    length and what one [read] of it returns. *)

From Stdlib Require Import ZArith Lia.
From stdpp Require Import functions prelude strings.
From S2P Require Import Prelude.

(** ** Writer *)

Record elf_section := mkElfSection {
  sec_name : list Z;
  sh_size : Z;
  sh_addr : Z;
  sec_data : list Z
}.

(** [int.to_bytes(n, byteorder='little')]: an [OverflowError] when the value
    does not fit. *)
Definition to_bytes (n : nat) (v : Z) : exec (list Z) :=
  if in_rangeb (8 * Z.of_nat n) v then Ret (le_encode n v) else Panic.

(** [str.encode]: UTF-8; a surrogate is a [UnicodeEncodeError]. *)
Definition utf8_encode_char (c : Z) : exec (list Z) :=
  if c <? 128 then Ret [c]
  else if c <? 2048 then Ret [192 + c / 64; 128 + c mod 64]
  else if (55296 <=? c) && (c <? 57344) then Panic
  else if c <? 65536 then Ret [224 + c / 4096; 128 + (c / 64) mod 64; 128 + c mod 64]
  else Ret [240 + c / 262144; 128 + (c / 4096) mod 64; 128 + (c / 64) mod 64; 128 + c mod 64].
Fixpoint str_encode (s : list Z) : exec (list Z) :=
  match s with
  | [] => Ret []
  | c :: s => l ← utf8_encode_char c; r ← str_encode s; Ret (l ++ r)
  end.

Definition all_zero (l : list Z) : bool := forallb (fun v => v =? 0) l.

(** Extends the buffer [b] with a section, unless the section is all zeros. *)
Definition extract (section : elf_section) (b : list Z) : exec (bool * list Z) :=
  if all_zero (sec_data section) then Ret (false, b)
  else
    n ← to_bytes 2 (Z.of_nat (length (sec_name section)));
    s ← str_encode (sec_name section);
    sz ← to_bytes 8 (sh_size section);
    ad ← to_bytes 8 (sh_addr section);
    Ret (true, b ++ n ++ s ++ sz ++ ad ++ sec_data section).

(** Python's [sub in s] on strings. *)
Fixpoint is_prefix (sub s : list Z) : bool :=
  match sub, s with
  | [], _ => true
  | x :: sub, y :: s => (x =? y) && is_prefix sub s
  | _, [] => false
  end.
Fixpoint contains (sub s : list Z) : bool :=
  is_prefix sub s || match s with [] => false | _ :: s => contains sub s end.

(** A string literal's code points. *)
Fixpoint codes (s : string) : list Z :=
  match s with
  | EmptyString => []
  | String c s => Z.of_nat (Ascii.nat_of_ascii c) :: codes s
  end.

Definition name_in (name : list Z) (l : list (list Z)) : bool := bool_decide (name ∈ l).

(** The loop over [elffile.iter_sections()]: kept sections are extracted and
    those written are counted. *)
Fixpoint extract_loop (keep : elf_section -> bool) (sections : list elf_section)
    (b : list Z) (nb_sections : Z) : exec (list Z * Z) :=
  match sections with
  | [] => Ret (b, nb_sections)
  | section :: sections =>
      if keep section then
        r ← extract section b;
        extract_loop keep sections r.2 (if r.1 : bool then nb_sections + 1 else nb_sections)
      else extract_loop keep sections b nb_sections
  end.

(** The file written: its number of sections in one byte, then the buffer.
    [None]: no section, nothing is written. *)
Definition write_sections (r : list Z * Z) : exec (option (list Z)) :=
  if r.2 =? 0 then Ret None
  else n ← to_bytes 1 r.2; Ret (Some (n ++ r.1)).

Definition kept_aslr (included not_common : list (list Z)) (section : elf_section) : bool :=
  contains (codes ".data") (sec_name section) || name_in (sec_name section) included ||
  contains (codes ".ind") (sec_name section) || name_in (sec_name section) not_common.

Definition process_file_aslr (sections : list elf_section) (included not_common : list (list Z))
    : exec (option (list Z)) :=
  r ← extract_loop (kept_aslr included not_common) sections [] 0;
  write_sections r.

Definition kept_minimal (common_to_all common_to_subset not_common : list (list Z))
    (section : elf_section) : bool :=
  if contains (codes "rodata") (sec_name section) || name_in (sec_name section) common_to_all
  then false
  else name_in (sec_name section) not_common || name_in (sec_name section) common_to_subset.

Definition process_file_minimal (sections : list elf_section)
    (common_to_all common_to_subset not_common : list (list Z)) : exec (option (list Z)) :=
  r ← extract_loop (kept_minimal common_to_all common_to_subset not_common) sections [] 0;
  write_sections r.

(** Without ASLR the file is the plain contents of the kept sections. *)
Definition kept_plain (included : list (list Z)) (section : elf_section) : bool :=
  (contains (codes ".data") (sec_name section) || name_in (sec_name section) included) &&
  negb (all_zero (sec_data section)).

Definition process_file (sections : list elf_section) (included : list (list Z))
    : option (list Z) :=
  match List.filter (kept_plain included) sections with
  | [] => None
  | kept => Some (concat (map sec_data kept))
  end.

(** ** Reader *)

(** A file opened for reading: its length, and what [read] returns (the
    buffer's remaining bytes stay zero). *)
Record File := mkFile { file_len : Z; file_read : list Z }.

Definition get_file_as_byte_vec (f : option File) : exec (list Z) :=
  f ← unwrap f;
  Ret (file_read f ++ replicate (Z.to_nat (file_len f) - length (file_read f)) 0).

Record Sections := mkSections {
  s_name : list Z;
  s_vma : Z;
  s_size : Z;
  s_bytes : option (list Z)
}.

Record BinaryLoader := mkBinaryLoader { sections : list Sections; buff : list Z }.

Definition BinaryLoader_new : BinaryLoader := mkBinaryLoader [] [].

(** [String::from_utf8]. *)
Definition cont (b : Z) : bool := (128 <=? b) && (b <=? 191).
Fixpoint utf8_valid (l : list Z) : bool :=
  match l with
  | [] => true
  | a :: l =>
      if a <? 128 then utf8_valid l
      else match l with
      | [] => false
      | b :: l =>
          if (194 <=? a) && (a <=? 223) then cont b && utf8_valid l
          else match l with
          | [] => false
          | c :: l =>
              if (a =? 224) then (160 <=? b) && (b <=? 191) && cont c && utf8_valid l
              else if a =? 237 then (128 <=? b) && (b <=? 159) && cont c && utf8_valid l
              else if (225 <=? a) && (a <=? 239) then cont b && cont c && utf8_valid l
              else match l with
              | [] => false
              | d :: l =>
                  if a =? 240 then (144 <=? b) && (b <=? 191) && cont c && cont d && utf8_valid l
                  else if (241 <=? a) && (a <=? 243) then cont b && cont c && cont d && utf8_valid l
                  else if a =? 244 then (128 <=? b) && (b <=? 143) && cont c && cont d && utf8_valid l
                  else false
              end
          end
      end
  end.

Section Reader.
Context `{Profile}.

(** [&buff[a..b]]. *)
Definition slice (l : list Z) (a b : Z) : exec (list Z) :=
  if (a <=? b) && (b <=? Z.of_nat (length l))
  then Ret (take (Z.to_nat (b - a)) (drop (Z.to_nat a) l)) else Panic.

(** [(array[i] as uw) << s]. *)
Definition byte_at_shift (w : Z) (array : list Z) (i : nat) (s : Z) : exec Z :=
  x ← unwrap (array !! i); Ret (wrap w (Z.shiftl x s)).

Definition as_u16_le (array : list Z) : exec Z :=
  b0 ← byte_at_shift 16 array 0 0;
  b1 ← byte_at_shift 16 array 1 8;
  uadd 16 b0 b1.

Definition as_u64_le (array : list Z) : exec Z :=
  b0 ← byte_at_shift 64 array 0 0;
  b1 ← byte_at_shift 64 array 1 8;
  r ← uadd 64 b0 b1;
  b2 ← byte_at_shift 64 array 2 16;
  r ← uadd 64 r b2;
  b3 ← byte_at_shift 64 array 3 24;
  r ← uadd 64 r b3;
  b4 ← byte_at_shift 64 array 4 32;
  r ← uadd 64 r b4;
  b5 ← byte_at_shift 64 array 5 40;
  r ← uadd 64 r b5;
  b6 ← byte_at_shift 64 array 6 48;
  r ← uadd 64 r b6;
  b7 ← byte_at_shift 64 array 7 56;
  uadd 64 r b7.

(** One iteration of the loop of [read_uk_file]: the section at [current] and
    the position after it. *)
Definition read_section (buff0 : list Z) (current : Z) : exec (Sections * Z) :=
  current_next ← uadd 64 current 2;
  sz ← slice buff0 current current_next;
  size ← as_u16_le sz;
  let current := current_next in
  current_next ← uadd 64 current size;
  name ← slice buff0 current current_next;
  _ ← rust_assert (utf8_valid name);
  let current := current_next in
  current_next ← uadd 64 current 8;
  sz ← slice buff0 current current_next;
  size ← as_u64_le sz;
  let current := current_next in
  current_next ← uadd 64 current 8;
  vm ← slice buff0 current current_next;
  vma ← as_u64_le vm;
  let current := current_next in
  current_next ← uadd 64 current size;
  bytes ← slice buff0 current current_next;
  Ret (mkSections name vma size (Some bytes), current_next).

Fixpoint read_sections (n : nat) (buff0 : list Z) (current : Z) (acc : list Sections)
    : exec (list Sections) :=
  match n with
  | O => Ret acc
  | S n =>
      r ← read_section buff0 current;
      read_sections n buff0 r.2 (acc ++ [r.1])
  end.

(** [fs] looks a file name up. *)
Definition read_uk_file (fs : list Z -> option File) (self : BinaryLoader) (filename : list Z)
    : exec BinaryLoader :=
  if contains (codes "update_minimal") filename &&
     match fs filename with None => true | Some _ => false end
  then Ret self
  else
    buff0 ← get_file_as_byte_vec (fs filename);
    nb_entry ← unwrap (buff0 !! 0%nat);
    l ← read_sections (Z.to_nat nb_entry) buff0 1 (sections self);
    Ret (mkBinaryLoader l buff0).
End Reader.

(** ** Specification *)

(** What is kept: the sections selected that are not all zeros. *)
Definition written (keep : elf_section -> bool) (l : list elf_section) : list elf_section :=
  List.filter (fun s => keep s && negb (all_zero (sec_data s))) l.

(** A code point that UTF-8 can encode, and one of ASCII. *)
Definition is_char (c : Z) : Prop := 0 <= c < 1114112 /\ ~ 55296 <= c < 57344.
Definition is_ascii (c : Z) : Prop := 0 <= c < 128.

(** The name as it is written. *)
Definition name_bytes (s : elf_section) : list Z := match str_encode (sec_name s) with Ret b => b | Panic => [] end.

(** What [elftools] guarantees of a section, and the name's length, which the format keeps
    in two bytes. *)
Definition section_ok (s : elf_section) : Prop :=
  Forall is_char (sec_name s) /\ Z.of_nat (length (sec_name s)) < 65536 /\
  sh_size s = Z.of_nat (length (sec_data s)) /\ in_range 64 (sh_size s) /\
  in_range 64 (sh_addr s) /\ bytes_ok (sec_data s).

Definition loaded (s : elf_section) : Sections :=
  mkSections (name_bytes s) (sh_addr s) (sh_size s) (Some (sec_data s)).

Definition section_bytes (s : elf_section) : list Z :=
  le_encode 2 (Z.of_nat (length (sec_name s))) ++ name_bytes s ++
  le_encode 8 (sh_size s) ++ le_encode 8 (sh_addr s) ++ sec_data s.

(** ** Lemmas *)

Lemma to_bytes_ok n v : in_range (8 * Z.of_nat n) v -> to_bytes n v = Ret (le_encode n v).
Proof. unfold to_bytes. intros Hv. by rewrite (proj2 (in_rangeb_spec _ _) Hv). Qed.

Lemma encode_char c : is_char c -> exists b, utf8_encode_char c = Ret b /\ (is_ascii c /\ b = [c] \/ ~ is_ascii c /\ (2 <= length b)%nat).
Proof.
  intros [Hr Hs]. unfold utf8_encode_char, is_ascii. destruct (Z.ltb_spec c 128); [exists [c]; split; [done|left; by split; [lia|]]|].
  destruct (Z.ltb_spec c 2048); [eexists; split; [done|]; right; cbn; split; lia|]. destruct (Z.leb_spec 55296 c), (Z.ltb_spec c 57344); cbn [andb]; try lia;
    destruct (Z.ltb_spec c 65536); (eexists; split; [done|]; right; cbn; split; lia).
Qed.

(** The bytes of a text are at least its characters, and as many for ASCII only. *)
Lemma str_encode_length s : Forall is_char s -> exists b, str_encode s = Ret b /\ (length s <= length b)%nat /\ (length b = length s -> Forall is_ascii s).
Proof.
  induction 1 as [|c s Hc Hs IH]; cbn [str_encode]; [by exists []|]. destruct (encode_char c Hc) as (b & -> & Hb). destruct IH as (bs & -> & Hle & Heq). rewrite !bind_Ret.
  exists (b ++ bs). rewrite length_app. cbn [length]. split; [done|]. destruct Hb as [[Ha ->]|[Ha Hb]]; cbn [length].
  - split; [lia|]. intros E. constructor; [done|]. apply Heq. lia.
  - split; [lia|]. intros E. lia.
Qed.

Lemma str_encode_ascii s : Forall is_ascii s -> str_encode s = Ret s.
Proof.
  induction 1 as [|c s Hc Hs IH]; cbn [str_encode]; [done|].
  unfold utf8_encode_char, is_ascii in *. rewrite (proj2 (Z.ltb_lt _ _)) by lia. by rewrite bind_Ret, IH.
Qed.

Lemma name_bytes_ascii s : Forall is_ascii (sec_name s) -> name_bytes s = sec_name s.
Proof. intros Ha. unfold name_bytes. by rewrite str_encode_ascii. Qed.

Lemma name_bytes_length s : section_ok s -> length (name_bytes s) = length (sec_name s) -> Forall is_ascii (sec_name s).
Proof. intros (Hc & _). unfold name_bytes. destruct (str_encode_length _ Hc) as (b & -> & _ & Heq). exact Heq. Qed.

Lemma utf8_valid_ascii s : Forall is_ascii s -> utf8_valid s = true.
Proof.
  induction 1 as [|c s Hc Hs IH]; cbn [utf8_valid]; [done|].
  unfold is_ascii in Hc. by rewrite (proj2 (Z.ltb_lt _ _)) by lia.
Qed.

Lemma extract_ok s b :
  section_ok s ->
  extract s b = Ret (negb (all_zero (sec_data s)),
                     if all_zero (sec_data s) then b else b ++ section_bytes s).
Proof.
  intros (Ha & Hl & Hs & Hr & Hr' & Hb). unfold extract, section_bytes, name_bytes. destruct (all_zero _); [done|].
  rewrite (to_bytes_ok 2), bind_Ret
    by (unfold in_range; change (2 ^ (8 * Z.of_nat 2)) with 65536; lia).
  destruct (str_encode_length _ Ha) as (nb & -> & _). rewrite bind_Ret.
  by rewrite !to_bytes_ok, !bind_Ret by done.
Qed.

Lemma extract_loop_ok keep l b n :
  Forall section_ok (List.filter keep l) ->
  extract_loop keep l b n =
  Ret (b ++ concat (map section_bytes (written keep l)), n + Z.of_nat (length (written keep l))).
Proof.
  revert b n. induction l as [|s l IH]; intros b n Hl.
  { cbn. by rewrite app_nil_r, Z.add_0_r. }
  unfold written. cbn [List.filter extract_loop]. cbn [List.filter] in Hl. destruct (keep s); [|by apply IH].
  apply Forall_cons in Hl as [Hs Hl]. rewrite extract_ok by done. rewrite bind_Ret. cbn [fst snd].
  rewrite IH by done. unfold written.
  destruct (all_zero (sec_data s)); cbn [negb andb]; [done|].
  cbn [map concat length]. rewrite app_assoc. do 2 f_equal. lia.
Qed.

Lemma all_zero_nil : all_zero [] = true.
Proof. done. Qed.

Lemma as_u16_le_ok l : bytes_ok l -> length l = 2%nat -> forall P : Profile, as_u16_le l = Ret (le_decode l).
Proof.
  intros Hb Hl P. destruct l as [|b0 [|b1 [|]]]; try done. clear Hl.
  unfold bytes_ok in Hb. rewrite !Forall_cons in Hb. unfold byte_ok in Hb.
  unfold as_u16_le, byte_at_shift. cbn [lookup list_lookup unwrap]. rewrite !bind_Ret.
  rewrite !Z.shiftl_mul_pow2 by lia. cbn [le_decode].
  change (2 ^ 0) with 1. change (2 ^ 8) with 256.
  rewrite (wrap_id 16 (b0 * 1)), (wrap_id 16 (b1 * 256)) by (unfold in_range; lia).
  rewrite uadd_ok by (unfold in_range; lia). f_equal. lia.
Qed.

Lemma as_u64_le_ok l : bytes_ok l -> length l = 8%nat -> forall P : Profile, as_u64_le l = Ret (le_decode l).
Proof.
  intros Hb Hl P. destruct l as [|b0 [|b1 [|b2 [|b3 [|b4 [|b5 [|b6 [|b7 [|]]]]]]]]]; try done. clear Hl.
  unfold bytes_ok in Hb. rewrite !Forall_cons in Hb. unfold byte_ok in Hb.
  unfold as_u64_le, byte_at_shift. cbn [lookup list_lookup unwrap]. rewrite !bind_Ret.
  rewrite !Z.shiftl_mul_pow2 by lia. cbn [le_decode].
  change (2 ^ 0) with 1. change (2 ^ 8) with 256. change (2 ^ 16) with 65536.
  change (2 ^ 24) with 16777216. change (2 ^ 32) with 4294967296. change (2 ^ 40) with 1099511627776.
  change (2 ^ 48) with 281474976710656. change (2 ^ 56) with 72057594037927936.
  repeat match goal with |- context [wrap 64 ?z] => rewrite (wrap_id 64 z) by (unfold in_range; lia) end.
  repeat match goal with
  | |- context [uadd 64 ?a ?b] =>
      rewrite (uadd_ok 64 a b) by (unfold in_range; lia); rewrite ?bind_Ret
  end.
  f_equal. lia.
Qed.

Lemma slice_at l pre mid post a b :
  l = pre ++ mid ++ post -> a = Z.of_nat (length pre) -> b = a + Z.of_nat (length mid) ->
  slice l a b = Ret mid.
Proof.
  intros -> -> ->. unfold slice. rewrite !length_app, !Nat2Z.inj_add.
  rewrite (proj2 (Z.leb_le _ _)), (proj2 (Z.leb_le _ _)) by lia. cbn [andb]. f_equal.
  rewrite Nat2Z.id, drop_app_length.
  replace (Z.to_nat _) with (length mid) by lia. apply take_app_length.
Qed.

Lemma slice_length l a b r : slice l a b = Ret r -> Z.of_nat (length r) = b - a \/ a < 0.
Proof.
  unfold slice. destruct (Z.leb_spec a b), (Z.leb_spec b (Z.of_nat (length l))); cbn [andb]; try done.
  intros [= <-]. rewrite length_take, length_drop. lia.
Qed.

Ltac slice_side := first [by rewrite <- !app_assoc | rewrite ?length_app; lia].

Section ReaderLemmas.
Context `{Profile}.

Lemma read_section_ok s pre post :
  section_ok s -> Forall is_ascii (sec_name s) -> in_range 64 (Z.of_nat (length (pre ++ section_bytes s ++ post))) ->
  read_section (pre ++ section_bytes s ++ post) (Z.of_nat (length pre)) =
  Ret (loaded s, Z.of_nat (length (pre ++ section_bytes s))).
Proof.
  intros (_ & Hl & Hs & Hr & Hr' & Hb) Ha Hlen. unfold section_bytes, loaded in *. rewrite name_bytes_ascii in * by done.
  set (nm := sec_name s) in *. set (dt := sec_data s) in *.
  set (e2 := le_encode 2 _) in *. set (e8 := le_encode 8 (sh_size s)) in *.
  set (e8' := le_encode 8 (sh_addr s)) in *.
  assert (le_decode e2 = Z.of_nat (length nm)) as D2.
  { unfold e2. rewrite le_decode_encode. apply Z.mod_small. cbn. lia. }
  assert (le_decode e8 = sh_size s) as D8.
  { unfold e8. rewrite le_decode_encode. by apply Z.mod_small. }
  assert (le_decode e8' = sh_addr s) as D8'.
  { unfold e8'. rewrite le_decode_encode. by apply Z.mod_small. }
  assert (length e2 = 2%nat) as L2 by apply length_le_encode.
  assert (length e8 = 8%nat) as L8 by apply length_le_encode.
  assert (length e8' = 8%nat) as L8' by apply length_le_encode.
  rewrite !length_app, !Nat2Z.inj_add, L2, L8, L8' in Hlen.
  unfold in_range in *. unfold read_section.
  rewrite uadd_ok, bind_Ret by (unfold in_range; lia).
  rewrite (slice_at _ pre e2 (nm ++ e8 ++ e8' ++ dt ++ post))
    by slice_side. rewrite bind_Ret.
  rewrite as_u16_le_ok by (try done; apply le_encode_ok). rewrite bind_Ret.
  rewrite D2.
  rewrite uadd_ok, bind_Ret by (unfold in_range; lia).
  rewrite (slice_at _ (pre ++ e2) nm (e8 ++ e8' ++ dt ++ post))
    by slice_side. rewrite bind_Ret.
  rewrite utf8_valid_ascii by done. cbn [rust_assert]. rewrite bind_Ret.
  rewrite uadd_ok, bind_Ret by (unfold in_range; lia).
  rewrite (slice_at _ (pre ++ e2 ++ nm) e8 (e8' ++ dt ++ post))
    by slice_side. rewrite bind_Ret.
  rewrite as_u64_le_ok by (try done; apply le_encode_ok). rewrite bind_Ret.
  rewrite D8.
  rewrite uadd_ok, bind_Ret by (unfold in_range; lia).
  rewrite (slice_at _ (pre ++ e2 ++ nm ++ e8) e8' (dt ++ post))
    by slice_side. rewrite bind_Ret.
  rewrite as_u64_le_ok by (try done; apply le_encode_ok). rewrite bind_Ret.
  rewrite D8'.
  rewrite uadd_ok, bind_Ret by (unfold in_range; lia).
  rewrite (slice_at _ (pre ++ e2 ++ nm ++ e8 ++ e8') dt post)
    by slice_side. rewrite bind_Ret.
  rewrite !length_app. do 2 f_equal. lia.
Qed.

(** The name that is read has as many bytes as the name written has characters. *)
Lemma read_section_name s pre post x next :
  section_ok s -> in_range 64 (Z.of_nat (length (pre ++ section_bytes s ++ post))) ->
  read_section (pre ++ section_bytes s ++ post) (Z.of_nat (length pre)) = Ret (x, next) -> length (s_name x) = length (sec_name s).
Proof.
  intros (_ & Hl & _) Hlen E. unfold section_bytes in *. set (e2 := le_encode 2 _) in *. assert (L2 : length e2 = 2%nat) by apply length_le_encode.
  assert (D2 : le_decode e2 = Z.of_nat (length (sec_name s))) by (unfold e2; rewrite le_decode_encode; apply Z.mod_small; cbn; lia).
  assert (Hlen2 : Z.of_nat (length pre) + 2 < 2 ^ 64) by (unfold in_range in Hlen; rewrite !length_app, L2 in Hlen; lia).
  unfold read_section in E. rewrite uadd_ok, bind_Ret in E by (unfold in_range; lia).
  rewrite (slice_at _ pre e2 (name_bytes s ++ le_encode 8 (sh_size s) ++ le_encode 8 (sh_addr s) ++ sec_data s ++ post)) in E by slice_side.
  rewrite bind_Ret, as_u16_le_ok, bind_Ret, D2 in E by (try done; apply le_encode_ok).
  apply bind_Ret_inv in E as (nx & En & E). apply bind_Ret_inv in E as (nm & Enm & E). exec_inv. cbn [s_name].
  destruct (in_rangeb 64 (Z.of_nat (length pre) + 2 + Z.of_nat (length (sec_name s)))) eqn:Er.
  - apply in_rangeb_spec in Er. rewrite uadd_ok in En by done. injection En as <-. apply slice_length in Enm. lia.
  - unfold uadd, arith in En. rewrite Er in En. destruct overflow_checks; [done|]. injection En as <-. unfold slice in Enm.
    destruct (Z.leb_spec (Z.of_nat (length pre) + 2) (wrap 64 (Z.of_nat (length pre) + 2 + Z.of_nat (length (sec_name s))))) as [Hle|]; [|done].
    exfalso. unfold in_rangeb in Er. rewrite (proj2 (Z.leb_le 0 _)) in Er by lia. cbn [andb] in Er. apply Z.ltb_ge in Er. unfold wrap in Hle.
    assert (Hw : (Z.of_nat (length pre) + 2 + Z.of_nat (length (sec_name s))) mod 2 ^ 64 = Z.of_nat (length pre) + 2 + Z.of_nat (length (sec_name s)) - 2 ^ 64) by (symmetry; apply (Z.mod_unique_pos _ _ 1); lia). lia.
Qed.

Lemma read_sections_app n buff0 current acc r : read_sections n buff0 current acc = Ret r -> exists rest, r = acc ++ rest.
Proof.
  revert current acc. induction n as [|n IH]; intros current acc E; cbn [read_sections] in E; [injection E as <-; exists []; by rewrite app_nil_r|].
  apply bind_Ret_inv in E as (x & _ & E). apply IH in E as [rest ->]. exists ([x.1] ++ rest). by rewrite app_assoc.
Qed.

(** Sections are read back just when their names are ASCII. *)
Lemma read_sections_iff l pre acc :
  Forall section_ok l ->
  in_range 64 (Z.of_nat (length (pre ++ concat (map section_bytes l)))) ->
  read_sections (length l) (pre ++ concat (map section_bytes l)) (Z.of_nat (length pre)) acc =
  Ret (acc ++ map loaded l) <-> Forall (fun s => Forall is_ascii (sec_name s)) l.
Proof.
  intros Hl. revert pre acc. induction Hl as [|s l Hs Hl IH]; intros pre acc Hlen.
  { cbn. rewrite app_nil_r. split; [by constructor|done]. }
  cbn [map concat length read_sections] in *. split.
  - intros E. pose proof E as E'. apply bind_Ret_inv in E' as ([x next] & Ex & E'). apply read_sections_app in E' as [rest E']. rewrite <- app_assoc in E'. apply app_inv_head in E'. injection E' as Ex' _.
    apply (read_section_name s pre _ x next Hs Hlen) in Ex as Hnm. cbn [fst] in Ex'. rewrite <- Ex' in Hnm. apply name_bytes_length in Hnm as Ha; [|done]. constructor; [done|].
    rewrite read_section_ok, bind_Ret in E by done. cbn [fst snd] in E. rewrite app_assoc in Hlen, E. apply (IH _ (acc ++ [loaded s]) Hlen). by rewrite E, <- app_assoc.
  - intros [Ha Hal]%Forall_cons. rewrite read_section_ok, bind_Ret by done. cbn [fst snd]. rewrite app_assoc in Hlen |- *. rewrite (proj2 (IH _ _ Hlen) Hal). by rewrite <- app_assoc.
Qed.
End ReaderLemmas.

(** The bytes of every section read, and nothing past them, are in the section. *)
Definition sized (s : Sections) : Prop :=
  exists l, s_bytes s = Some l /\ Z.of_nat (length l) = s_size s.

Section ReaderSafety.
Context `{Profile}.

Lemma uadd_slice_sized l current size next bytes :
  in_range 64 current -> in_range 64 size ->
  uadd 64 current size = Ret next -> slice l current next = Ret bytes ->
  Z.of_nat (length bytes) = size.
Proof.
  unfold uadd, arith, in_range. intros Hc Hs. destruct (in_rangeb 64 _) eqn:E.
  - intros [= <-] Hsl%slice_length. lia.
  - destruct overflow_checks; [done|]. intros [= <-].
    assert (wrap 64 (current + size) = current + size - 2 ^ 64) as ->.
    { unfold wrap. symmetry. apply (Z.mod_unique_pos _ _ 1); [|lia].
      unfold in_rangeb in E. lia. }
    unfold slice. destruct (Z.leb_spec current (current + size - 2 ^ 64)); [lia|done].
Qed.

Lemma as_u64_le_range l r : as_u64_le l = Ret r -> in_range 64 r.
Proof. unfold as_u64_le. intros E. exec_inv. by eapply arith_range; [lia|]. Qed.

Lemma read_section_sized l current r :
  read_section l current = Ret r -> sized r.1 /\ in_range 64 r.2.
Proof.
  unfold read_section. intros E. exec_inv. cbn [fst snd].
  match goal with
  | Hp : uadd 64 _ _ = Ret ?c, Hv : as_u64_le _ = Ret ?s, Ha : uadd 64 ?c ?s = Ret ?n,
    Hs : slice _ ?c ?n = Ret ?b |- _ =>
      apply as_u64_le_range in Hv; pose proof (arith_range 64 _ _ ltac:(lia) Ha) as Hn;
      apply (arith_range 64) in Hp; [|lia];
      pose proof (uadd_slice_sized _ c s n b Hp Hv Ha Hs) as Hlen
  end.
  split; [|done]. eexists. done.
Qed.

Lemma read_sections_sized n l current acc r :
  Forall sized acc -> read_sections n l current acc = Ret r -> Forall sized r.
Proof.
  revert current acc. induction n as [|n IH]; intros current acc Hacc E; cbn in E.
  { by injection E as <-. }
  apply bind_Ret_inv in E as (x & Ex & E). apply (IH _ _) in E; [done|].
  apply Forall_app. split; [done|]. constructor; [|done]. by apply read_section_sized in Ex as [].
Qed.
End ReaderSafety.

(** ** Theorems *)

Section Theorems.
Context `{Profile}.

(** Whatever the file contains, reading it panics or yields sections whose
    buffers hold exactly [size] bytes, so the copy of [size] bytes out of each
    never reads past its buffer. *)
Theorem read_uk_file_sized fs self filename r :
  Forall sized (sections self) -> read_uk_file fs self filename = Ret r ->
  Forall sized (sections r).
Proof.
  unfold read_uk_file. intros Hs E. destruct (_ && _); [by injection E as <-|].
  exec_inv. by eapply read_sections_sized.
Qed.

(** Both formats with section headers: the file written, if any, and how it is read back. *)
Lemma written_roundtrip keep l :
  Forall section_ok (List.filter keep l) ->
  let ws := written keep l in
  match extract_loop keep l [] 0 with
  | Ret r =>
      (ws = [] -> write_sections r = Ret None) /\ (256 <= Z.of_nat (length ws) -> write_sections r = Panic) /\
      (1 <= Z.of_nat (length ws) < 256 -> exists f, write_sections r = Ret (Some f) /\
        (in_range 64 (Z.of_nat (length f)) -> forall fs filename, fs filename = Some (mkFile (Z.of_nat (length f)) f) ->
         read_uk_file fs BinaryLoader_new filename = Ret (mkBinaryLoader (map loaded ws) f) <-> Forall (fun s => Forall is_ascii (sec_name s)) ws))
  | Panic => False
  end.
Proof.
  intros Hl ws. rewrite extract_loop_ok by done. fold ws. unfold write_sections. cbn [fst snd app]. rewrite Z.add_0_l. split; [by intros ->|]. split.
  { intros Hn. rewrite (proj2 (Z.eqb_neq _ _)) by lia. unfold to_bytes, in_rangeb. rewrite (proj2 (Z.ltb_ge _ _)), andb_false_r; [done|]. change (2 ^ (8 * Z.of_nat 1)) with 256. lia. }
  intros Hn. rewrite (proj2 (Z.eqb_neq _ _)) by lia.
  rewrite to_bytes_ok, bind_Ret by (unfold in_range; change (2 ^ (8 * Z.of_nat 1)) with 256; lia).
  eexists. split; [done|]. intros Hlen fs filename Hfs. unfold read_uk_file.
  rewrite Hfs, andb_false_r. unfold get_file_as_byte_vec. cbn [unwrap]. rewrite !bind_Ret.
  cbn [file_read file_len]. rewrite Nat2Z.id, Nat.sub_diag. cbn [replicate]. rewrite app_nil_r.
  cbn [le_encode]. cbn [app lookup list_lookup unwrap]. rewrite bind_Ret.
  rewrite Z.mod_small by lia. rewrite Nat2Z.id.
  assert (Forall section_ok ws) as Hw.
  { unfold ws, written. apply Forall_forall. intros s Hs. rewrite Forall_forall in Hl. apply Hl.
    apply list_elem_of_In, filter_In in Hs as [Hs Hk]. apply list_elem_of_In, filter_In.
    split; [done|]. by destruct (keep s). }
  pose proof (read_sections_iff ws [Z.of_nat (length ws)] [] Hw) as Hr.
  cbn [app length] in Hr. change (Z.of_nat 1) with 1 in Hr. specialize (Hr Hlen).
  cbn [sections BinaryLoader_new]. rewrite <- Hr. split.
  - intros E. apply bind_Ret_inv in E as (sl & -> & [= ->]). done.
  - intros ->. by rewrite bind_Ret.
Qed.

(** C6: round trip of the two formats with section headers.  Of the selected sections the
    writer writes those that are not all zeros.  Without any, nothing is written; with more
    than 255 it fails.  Otherwise it produces a file, and reading that file back gives
    exactly those sections, in order, with their names, addresses, sizes and contents, if
    and only if all their names are ASCII: the length written before a name counts
    characters, and the reader takes as many bytes. *)
Theorem minify_roundtrip l included common_to_all common_to_subset not_common (minimal : bool) :
  let keep := if minimal then kept_minimal common_to_all common_to_subset not_common else kept_aslr included not_common in
  let process := if minimal then process_file_minimal l common_to_all common_to_subset not_common else process_file_aslr l included not_common in
  let ws := written keep l in
  Forall section_ok (List.filter keep l) ->
  (ws = [] -> process = Ret None) /\ (256 <= Z.of_nat (length ws) -> process = Panic) /\
  (1 <= Z.of_nat (length ws) < 256 ->
   exists f, process = Ret (Some f) /\
     (in_range 64 (Z.of_nat (length f)) -> forall fs filename, fs filename = Some (mkFile (Z.of_nat (length f)) f) ->
      read_uk_file fs BinaryLoader_new filename = Ret (mkBinaryLoader (map loaded ws) f) <-> Forall (fun s => Forall is_ascii (sec_name s)) ws)).
Proof.
  intros keep process ws Hl. pose proof (written_roundtrip keep l Hl) as Hw. cbn zeta in Hw. fold ws in Hw.
  assert (Hp : process = (r ← extract_loop keep l [] 0; write_sections r)) by (unfold process, keep; by destruct minimal).
  rewrite Hp. destruct (extract_loop keep l [] 0) as [r|]; [|done]. rewrite bind_Ret. exact Hw.
Qed.
End Theorems.

Definition sample_sections : list elf_section :=
  [mkElfSection (codes ".text.libc") 2 4096 [144; 195];
   mkElfSection (codes ".data") 3 1097728 [1; 0; 255];
   mkElfSection (codes ".bss") 2 1101824 [0; 0];
   mkElfSection (codes ".ind.libc") 1 8192 [233]].

Lemma read_uk_file_sized_witness :
  let f := [1; 1; 0; 46; 1; 0; 0; 0; 0; 0; 0; 0; 0; 16; 0; 0; 0; 0; 0; 0; 7] in
  Forall sized (sections (mkBinaryLoader [mkSections (codes ".") 4096 1 (Some [7])] f)).
Proof.
  intros f.
  apply (@read_uk_file_sized dev_profile (fun _ => Some (mkFile (Z.of_nat (length f)) f))
           BinaryLoader_new (codes "uk_update")); [constructor|reflexivity].
Defined.

(** A section whose name is not ASCII. *)
Definition accent_section : elf_section := mkElfSection (codes ".data." ++ [233]) 2 4096 [1; 2].

Lemma accent_kept : List.filter (kept_minimal [] [] [sec_name accent_section]) [accent_section] = [accent_section].
Proof. vm_compute. reflexivity. Qed.

Ltac section_sides :=
  unfold section_ok, is_char, is_ascii, in_range, bytes_ok, byte_ok; cbn [sec_name sh_size sh_addr sec_data];
  repeat (match goal with |- Forall _ _ => constructor | |- _ /\ _ => split | |- _ <= _ < _ => split end);
  vm_compute; first [reflexivity | discriminate | intros []; try discriminate; auto].

Lemma minify_roundtrip_witness :
  (exists f, process_file_aslr sample_sections [codes ".data"; codes ".bss"] [] = Ret (Some f) /\
    (in_range 64 (Z.of_nat (length f)) ->
     forall fs filename, fs filename = Some (mkFile (Z.of_nat (length f)) f) ->
     @read_uk_file dev_profile fs BinaryLoader_new filename =
     Ret (mkBinaryLoader (map loaded (written (kept_aslr [codes ".data"; codes ".bss"] []) sample_sections)) f))) /\
  (exists f, process_file_minimal [accent_section] [] [] [sec_name accent_section] = Ret (Some f) /\
    (in_range 64 (Z.of_nat (length f)) ->
     forall fs filename, fs filename = Some (mkFile (Z.of_nat (length f)) f) ->
     @read_uk_file dev_profile fs BinaryLoader_new filename <> Ret (mkBinaryLoader [loaded accent_section] f))).
Proof.
  split.
  - destruct (@minify_roundtrip dev_profile sample_sections [codes ".data"; codes ".bss"] [] [] [] false) as (_ & _ & Hr).
    + assert (forall l, List.filter (kept_aslr [codes ".data"; codes ".bss"] []) sample_sections = l ->
        l = tail sample_sections) as E by (intros l <-; reflexivity).
      rewrite (E _ eq_refl). cbn [tail sample_sections codes]. section_sides.
    + destruct Hr as (f & Ef & Hr); [vm_compute; split; [discriminate|reflexivity]|]. exists f. split; [exact Ef|]. intros Hlen fs filename Hfs.
      apply (Hr Hlen fs filename Hfs). assert (Ew : written (kept_aslr [codes ".data"; codes ".bss"] []) sample_sections = [mkElfSection (codes ".data") 3 1097728 [1; 0; 255]; mkElfSection (codes ".ind.libc") 1 8192 [233]]) by reflexivity.
      rewrite Ew. cbn [codes]. section_sides.
  - destruct (@minify_roundtrip dev_profile [accent_section] [] [] [] [sec_name accent_section] true) as (_ & _ & Hr).
    + rewrite accent_kept. unfold accent_section. cbn [codes app]. section_sides.
    + destruct Hr as (f & Ef & Hr); [vm_compute; split; [discriminate|reflexivity]|]. exists f. split; [exact Ef|]. intros Hlen fs filename Hfs E.
      apply (Hr Hlen fs filename Hfs) in E. assert (Ew : written (kept_minimal [] [] [sec_name accent_section]) [accent_section] = [accent_section]) by (vm_compute; reflexivity).
      rewrite Ew in E. apply Forall_cons in E as [E _]. unfold accent_section in E. cbn [sec_name codes app] in E. rewrite !Forall_cons in E. unfold is_ascii in E. lia.
Defined.
