(* ===== verification/UkLoader.v ===== *)
(** * Guest memory and the unikernel loader

    [firecracker/src/vm-memory/src/lib.rs] (guarded regions, guest memory),
    [firecracker/src/loader/src/uk_loader.rs] (library sections mapped into the
    guest), [arch_memory_regions] of [arch/src/x86_64/mod.rs] and
    [create_guest_memory] of [vmm/src/builder.rs].

    The process's address space is the log of what changed it: mappings made and
    bytes copied, the most recent first.  The host kernel and the upstream
    memory crate are the class [Host]: where an anonymous mapping is placed,
    which calls fail, and what the crate's constructors refuse.  A failing
    [expect], an explicit [panic!] and an access that faults are all [Panic].
    Messages printed are left out. *)

From Stdlib Require Import ZArith Lia.
From stdpp Require Import functions prelude strings.
From S2P Require Import Prelude UkBinary.

(** ** The address space *)

Inductive backing :=
| Anonymous
| SharedMemory (name : list Z)
| FileContents (name : list Z)
| FileDescriptor (fd : Z).

Record mapping := mkMapping {
  m_start : Z;
  m_len : Z;
  m_prot : Z;
  m_backing : backing;
  m_offset : Z
}.

Inductive event :=
| Map (m : mapping)
| Copy (addr : Z) (bytes : list Z).

Definition aspace := list event.

Definition PROT_NONE : Z := 0.
Definition PROT_READ : Z := 1.
Definition PROT_WRITE : Z := 2.
Definition MAP_PRIVATE : Z := 2.
Definition MAP_FIXED : Z := 16.
Definition MAP_ANONYMOUS : Z := 32.
Definition MAP_NORESERVE : Z := 16384.

Definition covers (start len a : Z) : bool := (start <=? a) && (a <? start + len).

(** The protection of the page that holds [a]; [None]: not mapped. *)
Fixpoint prot_at (s : aspace) (a : Z) : option Z :=
  match s with
  | [] => None
  | Map m :: s => if covers (m_start m) (m_len m) a then Some (m_prot m) else prot_at s a
  | Copy _ _ :: s => prot_at s a
  end.

(** What the byte at [a] is: a byte copied there, or a byte of the mapping's
    backing. *)
Inductive source := CopiedByte (b : Z) | BackingByte (b : backing) (off : Z).

Fixpoint source_at (s : aspace) (a : Z) : option source :=
  match s with
  | [] => None
  | Map m :: s =>
      if covers (m_start m) (m_len m) a
      then Some (BackingByte (m_backing m) (m_offset m + (a - m_start m))) else source_at s a
  | Copy addr bytes :: s =>
      match (if addr <=? a then bytes !! Z.to_nat (a - addr) else None) with
      | Some b => Some (CopiedByte b)
      | None => source_at s a
      end
  end.

Definition writable (s : aspace) (a : Z) : bool :=
  match prot_at s a with Some p => Z.testbit p 1 | None => false end.

Record FileOffset := mkFileOffset { fo_fd : Z; fo_start : Z }.

Inductive MmapRegionError := Mmap (errno : Z) | FileOffsetError (e : Z) | BuildError (e : Z).
Inductive MemError := MmapRegion (e : MmapRegionError) | GuestRegion (e : Z) | Regions (e : Z).

Record GuestMmapRegion := mkRegion {
  r_addr : Z;
  r_size : Z;
  r_prot : Z;
  r_flags : Z;
  r_bitmap : option Z
}.

Class Host := {
  (** [sysconf(_SC_PAGESIZE)]. *)
  page_size : Z;
  (** Where [mmap(NULL, len)] places a mapping, or its [errno]. *)
  place : aspace -> Z -> result Z Z;
  (** [mmap] with [MAP_FIXED]: [None] when it succeeds, else its [errno]. *)
  fixed_fails : aspace -> Z -> Z -> backing -> option Z;
  (** [shm_open] of a name that exists. *)
  shm_exists : list Z -> bool;
  (** [File::open] and the metadata's length. *)
  file_size : list Z -> option Z;
  (** The checks of the upstream crate: of a file offset, of a region, of a
      guest region's address and of the list of regions. *)
  check_file_offset : FileOffset -> Z -> option Z;
  region_fails : GuestMmapRegion -> option Z;
  guest_region_fails : Z -> Z -> option Z;
  regions_fail : list (Z * Z) -> option Z;

  page_size_pos : 0 < page_size;
  (** A placement is page aligned and inside the address space. *)
  place_ok s len a : place s len = Ok a -> a mod page_size = 0 /\ 0 < a /\ a + len + page_size < 2 ^ 64
}.

(** ** Operations *)

Section Loader.
Context `{Profile} `{Host}.

Definition ST (A : Type) := aspace -> exec (A * aspace).
Definition st_ret {A} (a : A) : ST A := fun s => Ret (a, s).
Definition st_bind {A B} (e : ST A) (k : A -> ST B) : ST B :=
  fun s => r ← e s; k r.1 r.2.
Definition st_exec {A} (e : exec A) : ST A := fun s => r ← e; Ret (r, s).
Definition st_panic {A} : ST A := fun _ => Panic.

(** Mappings are whole pages. *)
Definition round_pages (len : Z) : Z := (len + page_size - 1) / page_size * page_size.

(** [mmap] with [MAP_FIXED] replaces what is mapped there. *)
Definition mmap_fixed (addr len prot : Z) (b : backing) (off : Z) : ST (option Z) := fun s =>
  match fixed_fails s addr len b with
  | Some errno => Ret (Some errno, s)
  | None => Ret (None, Map (mkMapping addr (round_pages len) prot b off) :: s)
  end.

(** [mmap(NULL, ...)]. *)
Definition mmap_anywhere (len prot : Z) : ST (result Z Z) := fun s =>
  match place s len with
  | Err errno => Ret (Err errno, s)
  | Ok a => Ret (Ok a, Map (mkMapping a (round_pages len) prot Anonymous 0) :: s)
  end.

(** [memcpy(addr, buffer, n)]: reading past the buffer is refused as a
    [Panic], and so is a store to memory that is not writable. *)
Definition memcpy (addr : Z) (buffer : list Z) (n : Z) : ST unit := fun s =>
  if (n <=? Z.of_nat (length buffer)) &&
     forallb (fun i => writable s (addr + Z.of_nat i)) (seq 0 (Z.to_nat n))
  then Ret (tt, Copy addr (take (Z.to_nat n) buffer) :: s) else Panic.

Record LoaderInfo := LoaderInfo_new {
  bin : BinaryLoader;
  sections_loader : list Sections;
  aslr : bool
}.

Fixpoint copy_sections (region_addr : Z) (l : list Sections) : ST unit :=
  match l with
  | [] => st_ret tt
  | s :: l =>
      st_bind (st_exec (uadd 64 region_addr (s_vma s))) (fun addr =>
      st_bind (st_exec (unwrap (s_bytes s))) (fun bytes =>
      st_bind (memcpy addr bytes (s_size s)) (fun _ =>
      copy_sections region_addr l)))
  end.

Definition move_all (self : LoaderInfo) (region_addr : Z) (filename : list Z)
    (data_start_addr : Z) : ST unit :=
  if aslr self then copy_sections region_addr (sections (bin self))
  else
    st_bind (st_exec (unwrap (file_size filename))) (fun len =>
    st_bind (st_exec (uadd 64 region_addr data_start_addr)) (fun addr =>
    st_bind (mmap_fixed addr len (Z.lor PROT_READ PROT_WRITE) (FileContents filename) 0)
      (fun r => match r with Some _ => st_panic | None => st_ret tt end))).

Definition shm_mmap (region_addr prot : Z) (name : list Z) (size : Z) : ST unit :=
  if negb (shm_exists name) then st_panic
  else
    st_bind (mmap_fixed region_addr size prot (SharedMemory name) 0) (fun r =>
    match r with Some _ => st_panic | None => st_ret tt end).

(** The shared memory object of a section: its name, up to the final NUL. *)
Definition shm_name (aslr0 : bool) (s : Sections) : list Z :=
  (if aslr0 then codes "aslr_" else []) ++ codes "lib" ++ s_name s.

Fixpoint move_secs (aslr0 : bool) (region_addr prot : Z) (l : list Sections)
    (data_start_addr : Z) : ST Z :=
  match l with
  | [] => st_ret data_start_addr
  | s :: l =>
      if negb (s_vma s mod 4096 =? 0) then move_secs aslr0 region_addr prot l data_start_addr
      else if bool_decide (s_name s = codes ".data")
      then move_secs aslr0 region_addr prot l (s_vma s)
      else
        st_bind (st_exec (uadd 64 region_addr (s_vma s))) (fun addr =>
        st_bind (shm_mmap addr prot (shm_name aslr0 s) (s_size s)) (fun _ =>
        move_secs aslr0 region_addr prot l data_start_addr))
  end.

Definition move_sec_aslr (self : LoaderInfo) (region_addr prot : Z) : ST Z :=
  move_secs (aslr self) region_addr prot (sections_loader self) 0.

(** *** Guarded regions *)

Definition GUARD_PAGE_COUNT : Z := 1.

Definition region_source (maybe_file_offset : option FileOffset) (size : Z)
    : result (backing * Z) MmapRegionError :=
  match maybe_file_offset with
  | Some file_offset =>
      match check_file_offset file_offset size with
      | Some e => Err (FileOffsetError e)
      | None => Ok (FileDescriptor (fo_fd file_offset), fo_start file_offset)
      end
  | None => Ok (Anonymous, 0)
  end.

Definition load_into (lopt : option LoaderInfo) (region_addr prot : Z) (uk_name : list Z)
    : ST unit :=
  match lopt with
  | Some l =>
      st_bind (move_sec_aslr l region_addr prot) (fun data_start_addr =>
      move_all l region_addr (uk_name ++ codes "_update") data_start_addr)
  | None => st_ret tt
  end.

Definition build_guarded_region (maybe_file_offset : option FileOffset) (size prot flags : Z)
    (track_dirty_pages : bool) (uk_name : list Z) (lopt : option LoaderInfo)
    : ST (result GuestMmapRegion MmapRegionError) :=
  st_bind (st_exec (uadd 64 size (GUARD_PAGE_COUNT * 2 * page_size))) (fun guarded_size =>
  st_bind (mmap_anywhere guarded_size PROT_NONE) (fun g =>
  match g with
  | Err errno => st_ret (Err (Mmap errno))
  | Ok guard_addr =>
      match region_source maybe_file_offset size with
      | Err e => st_ret (Err e)
      | Ok (b, offset) =>
          st_bind (st_exec (uadd 64 guard_addr (page_size * GUARD_PAGE_COUNT))) (fun region_addr =>
          st_bind (mmap_fixed region_addr size prot b offset) (fun r =>
          match r with
          | Some errno => st_ret (Err (Mmap errno))
          | None =>
              st_bind (load_into lopt region_addr prot uk_name) (fun _ =>
              let region := mkRegion region_addr size prot flags
                              (if track_dirty_pages then Some size else None) in
              match region_fails region with
              | Some e => st_ret (Err (BuildError e))
              | None => st_ret (Ok region)
              end)
          end))
      end
  end)).

(** *** Guest memory *)

Fixpoint create_regions (regions : list (option FileOffset * Z * Z)) (track_dirty_pages : bool)
    (uk_name : list Z) (lopt : option LoaderInfo) (mmap_regions : list (Z * GuestMmapRegion))
    : ST (result (list (Z * GuestMmapRegion)) MemError) :=
  match regions with
  | [] => st_ret (Ok mmap_regions)
  | (fo, base, size) :: regions =>
      let prot := Z.lor PROT_READ PROT_WRITE in
      let flags := match fo with
                   | None => Z.lor (Z.lor MAP_NORESERVE MAP_PRIVATE) MAP_ANONYMOUS
                   | Some _ => Z.lor MAP_NORESERVE MAP_PRIVATE
                   end in
      st_bind (build_guarded_region fo size prot flags track_dirty_pages uk_name lopt) (fun r =>
      match r with
      | Err e => st_ret (Err (MmapRegion e))
      | Ok region =>
          match guest_region_fails base size with
          | Some e => st_ret (Err (GuestRegion e))
          | None => create_regions regions track_dirty_pages uk_name lopt
                      (mmap_regions ++ [(base, region)])
          end
      end)
  end.

Definition create_guest_memory (regions : list (option FileOffset * Z * Z))
    (track_dirty_pages : bool) (uk_name : list Z) (lopt : option LoaderInfo)
    : ST (result (list (Z * GuestMmapRegion)) MemError) :=
  st_bind (create_regions regions track_dirty_pages uk_name lopt []) (fun r =>
  match r with
  | Err e => st_ret (Err e)
  | Ok l =>
      match regions_fail (map (fun e => (e.1, r_size e.2)) l) with
      | Some e => st_ret (Err (Regions e))
      | None => st_ret (Ok l)
      end
  end).

(** The memory of a microVM. *)
Definition FIRST_ADDR_PAST_32BITS : Z := 2 ^ 32.
Definition MEM_32BIT_GAP_SIZE : Z := 768 * 2 ^ 20.
Definition MMIO_MEM_START : Z := FIRST_ADDR_PAST_32BITS - MEM_32BIT_GAP_SIZE.

Definition arch_memory_regions (size : Z) : list (Z * Z) :=
  if size <=? MMIO_MEM_START then [(0, size)]
  else [(0, MMIO_MEM_START); (FIRST_ADDR_PAST_32BITS, size - MMIO_MEM_START)].

(** [mem_size_mib << 20] drops the bits shifted out. *)
Definition builder_create_guest_memory (mem_size_mib : Z) (track_dirty_pages : bool)
    (uk_name : list Z) (l : option LoaderInfo)
    : ST (result (list (Z * GuestMmapRegion)) MemError) :=
  let mem_size := wrap 64 (Z.shiftl mem_size_mib 20) in
  create_guest_memory (map (fun e => (None, e.1, e.2)) (arch_memory_regions mem_size))
    track_dirty_pages uk_name l.
End Loader.

(** ** Lemmas *)

Section Log.
Context `{Profile} `{Host}.

Definition RW : Z := Z.lor PROT_READ PROT_WRITE.

(** The sections the loader maps from shared memory, and where it takes the
    data to start. *)
Definition mappable (s : Sections) : bool :=
  (s_vma s mod 4096 =? 0) && negb (bool_decide (s_name s = codes ".data")).
Definition mapped (l : list Sections) : list Sections := List.filter mappable l.
Fixpoint data_start (l : list Sections) (d : Z) : Z :=
  match l with
  | [] => d
  | s :: l => data_start l (if (s_vma s mod 4096 =? 0) && bool_decide (s_name s = codes ".data")
                            then s_vma s else d)
  end.

Definition section_mapping (aslr0 : bool) (region prot : Z) (s : Sections) : mapping :=
  mkMapping (region + s_vma s) (round_pages (s_size s)) prot (SharedMemory (shm_name aslr0 s)) 0.
Definition section_events (aslr0 : bool) (region prot : Z) (l : list Sections) : aspace :=
  map (fun s => Map (section_mapping aslr0 region prot s)) (rev (mapped l)).

Lemma page_size_nonzero : page_size <> 0.
Proof. pose proof page_size_pos. lia. Qed.

Lemma round_pages_ge len : len <= round_pages len.
Proof.
  unfold round_pages. pose proof page_size_pos.
  pose proof (Z.div_mod (len + page_size - 1) page_size page_size_nonzero).
  pose proof (Z.mod_pos_bound (len + page_size - 1) page_size page_size_pos). lia.
Qed.

Lemma round_pages_multiple len : len mod page_size = 0 -> round_pages len = len.
Proof.
  intros Hm. unfold round_pages. pose proof page_size_pos.
  pose proof (Z.div_mod len page_size page_size_nonzero) as Hd. rewrite Hm in Hd.
  set (q := len / page_size) in *. clearbody q. subst len.
  replace (page_size * q + 0 + page_size - 1) with (page_size - 1 + q * page_size) by ring.
  rewrite Z.div_add by lia. rewrite (Z.div_small (page_size - 1)) by lia. ring.
Qed.

Lemma covers_spec start len a : covers start len a = true <-> start <= a < start + len.
Proof. unfold covers. lia. Qed.

(** What loading needs of the host and of the image. *)
Definition section_fits (aslr0 : bool) (size : Z) (s : Sections) : Prop :=
  shm_exists (shm_name aslr0 s) = true /\ 0 <= s_vma s /\ 0 < s_size s /\
  s_vma s + round_pages (s_size s) <= size.

Definition copy_fits (size : Z) (s : Sections) : Prop :=
  sized s /\ 0 <= s_vma s /\ s_vma s + s_size s <= size.

Definition image_fits (lopt : option LoaderInfo) (uk_name : list Z) (size : Z) : Prop :=
  match lopt with
  | None => True
  | Some l =>
      Forall (section_fits (aslr l) size) (mapped (sections_loader l)) /\
      if aslr l then Forall (copy_fits size) (sections (bin l))
      else exists len, file_size (uk_name ++ codes "_update") = Some len /\ 0 < len /\
           0 <= data_start (sections_loader l) 0 /\
           data_start (sections_loader l) 0 + round_pages len <= size
  end.

Hypothesis fixed_succeeds : forall s a len b, fixed_fails s a len b = None.

Lemma move_secs_log aslr0 region prot size l d s :
  0 <= region -> region + size < 2 ^ 64 ->
  Forall (section_fits aslr0 size) (mapped l) ->
  move_secs aslr0 region prot l d s =
  Ret (data_start l d, section_events aslr0 region prot l ++ s).
Proof.
  intros Hr Hsz. revert d s. induction l as [|x l IH]; intros d s Hl; [done|].
  unfold section_events, mapped in *. cbn [List.filter move_secs data_start] in *.
  unfold mappable at 1 3. unfold mappable at 1 in Hl.
  destruct (Z.eqb_spec (s_vma x mod 4096) 0); cbn [negb andb] in *; [|by apply IH].
  destruct (bool_decide (s_name x = codes ".data")); cbn [negb] in *; [by apply IH|].
  apply Forall_cons in Hl as [(Hshm & Hv & Hs & Hf) Hl].
  pose proof (round_pages_ge (s_size x)).
  unfold st_bind, st_exec. rewrite uadd_ok by (unfold in_range; lia). rewrite !bind_Ret. cbn [fst snd].
  unfold shm_mmap. rewrite Hshm. cbn [negb]. unfold st_bind, mmap_fixed. rewrite fixed_succeeds, !bind_Ret.
  cbn [fst snd st_ret]. unfold st_ret. rewrite bind_Ret. cbn [fst snd]. rewrite IH by done.
  cbn [rev]. rewrite map_app, <- app_assoc. done.
Qed.

Lemma prot_at_section_events aslr0 region prot size l s a :
  Forall (section_fits aslr0 size) (mapped l) ->
  prot_at (section_events aslr0 region prot l ++ s) a = prot_at s a \/
  region <= a < region + size /\ prot_at (section_events aslr0 region prot l ++ s) a = Some prot.
Proof.
  unfold section_events. intros Hl. apply Forall_rev in Hl.
  induction Hl as [|x l' Hx Hl IH]; [by left|]. cbn [map app prot_at].
  destruct (covers _ _ _) eqn:E; [|done]. right. apply covers_spec in E.
  cbn [section_mapping m_start m_len] in E. destruct Hx as (_ & ? & ? & ?). split; [lia|done].
Qed.

Lemma source_at_section_events aslr0 region prot l s a x :
  x ∈ mapped l -> covers (region + s_vma x) (round_pages (s_size x)) a = true ->
  (forall y, y ∈ mapped l -> covers (region + s_vma y) (round_pages (s_size y)) a = true -> y = x) ->
  source_at (section_events aslr0 region prot l ++ s) a =
  Some (BackingByte (SharedMemory (shm_name aslr0 x)) (a - (region + s_vma x))).
Proof.
  unfold section_events. intros Hin Hc Hu.
  assert (x ∈ rev (mapped l)) as Hin' by (by apply list_elem_of_In, in_rev; rewrite rev_involutive; apply list_elem_of_In).
  assert (forall y, y ∈ rev (mapped l) -> covers (region + s_vma y) (round_pages (s_size y)) a = true -> y = x) as Hu'.
  { intros y Hy. apply Hu. apply list_elem_of_In, in_rev. by apply list_elem_of_In. }
  clear Hin Hu. induction (rev (mapped l)) as [|y l' IH]; [by apply elem_of_nil in Hin'|].
  cbn [map app source_at section_mapping m_start m_len m_backing m_offset].
  destruct (covers (region + s_vma y) _ a) eqn:E.
  - assert (y = x) as -> by (apply Hu'; [by left|done]). by rewrite Z.add_0_l.
  - apply elem_of_cons in Hin' as [->|Hin']; [congruence|]. apply IH; [done|].
    intros z Hz. apply Hu'. by right.
Qed.

Lemma copy_sections_prot region size l s :
  0 <= region -> region + size < 2 ^ 64 ->
  Forall (copy_fits size) l ->
  (forall a, region <= a < region + size -> writable s a = true) ->
  exists s', copy_sections region l s = Ret (tt, s') /\ forall a, prot_at s' a = prot_at s a.
Proof.
  intros Hr Hsz Hl. revert s. induction Hl as [|x l (Hs & Hv & Hf) Hl IH]; intros s Hw.
  { exists s. done. }
  destruct Hs as (bytes & Hb & Hlen). cbn [copy_sections]. unfold st_bind, st_exec.
  rewrite uadd_ok by (unfold in_range; lia). rewrite !bind_Ret. cbn [fst snd].
  rewrite Hb. cbn [unwrap]. rewrite !bind_Ret. cbn [fst snd]. unfold memcpy.
  rewrite (proj2 (Z.leb_le _ _)) by lia. cbn [andb].
  rewrite (proj2 (forallb_forall _ _)).
  2: { intros i Hi%in_seq. apply Hw. lia. }
  rewrite bind_Ret. cbn [fst snd].
  destruct (IH (Copy (region + s_vma x) (take (Z.to_nat (s_size x)) bytes) :: s)) as (s' & E & Hp).
  { intros a Ha. unfold writable. cbn [prot_at]. by apply Hw. }
  exists s'. split; [exact E|]. intros a. by rewrite Hp.
Qed.

Lemma load_into_prot lopt region size uk_name s :
  0 <= region -> region + size < 2 ^ 64 -> image_fits lopt uk_name size ->
  (forall a, region <= a < region + size -> prot_at s a = Some RW) ->
  exists s', load_into lopt region RW uk_name s = Ret (tt, s') /\
    forall a, prot_at s' a = prot_at s a \/
              region <= a < region + size /\ prot_at s' a = Some RW.
Proof.
  intros Hr Hsz Hfit Hp. destruct lopt as [l|]; [|exists s; split; [done|by left]].
  destruct Hfit as [Hsec Himg]. cbn [load_into]. unfold st_bind, move_sec_aslr.
  rewrite (move_secs_log _ _ _ size) by done. rewrite bind_Ret. cbn [fst snd].
  set (s1 := section_events _ _ _ _ ++ s).
  assert (forall a, prot_at s1 a = prot_at s a \/
            region <= a < region + size /\ prot_at s1 a = Some RW) as H1.
  { intros a. by apply prot_at_section_events. }
  unfold move_all. destruct (aslr l).
  - destruct (copy_sections_prot region size (sections (bin l)) s1 Hr Hsz Himg) as (s' & E & Hp').
    { intros a Ha. unfold writable. destruct (H1 a) as [->|[_ ->]]; [by rewrite Hp|done]. }
    exists s'. split; [exact E|]. intros a. rewrite Hp'. apply H1.
  - destruct Himg as (len & Ef & Hlen & Hd & Hle). unfold st_bind, st_exec.
    pose proof (round_pages_ge len).
    rewrite Ef. cbn [unwrap]. rewrite !bind_Ret. cbn [fst snd].
    rewrite uadd_ok by (unfold in_range; lia). rewrite !bind_Ret. cbn [fst snd].
    unfold mmap_fixed. rewrite fixed_succeeds, bind_Ret. cbn [fst snd]. eexists. split; [done|].
    intros a. cbn [prot_at m_start m_len m_prot]. destruct (covers _ _ a) eqn:E; [|apply H1].
    apply covers_spec in E. right. split; [lia|done].
Qed.

Lemma load_into_sources l region size uk_name s len :
  0 <= region -> region + size < 2 ^ 64 -> aslr l = false ->
  Forall (section_fits false size) (mapped (sections_loader l)) ->
  file_size (uk_name ++ codes "_update") = Some len -> 0 < len ->
  0 <= data_start (sections_loader l) 0 ->
  data_start (sections_loader l) 0 + round_pages len <= size ->
  load_into (Some l) region RW uk_name s =
  Ret (tt, Map (mkMapping (region + data_start (sections_loader l) 0) (round_pages len) RW
                  (FileContents (uk_name ++ codes "_update")) 0)
           :: section_events false region RW (sections_loader l) ++ s).
Proof.
  intros Hr Hsz Ha Hsec Ef Hlen Hd Hle. cbn [load_into]. unfold st_bind, move_sec_aslr. rewrite Ha.
  rewrite (move_secs_log _ _ _ size) by done. rewrite bind_Ret. cbn [fst snd].
  unfold move_all. rewrite Ha. unfold st_bind, st_exec. pose proof (round_pages_ge len).
  rewrite Ef. cbn [unwrap]. rewrite !bind_Ret. cbn [fst snd].
  rewrite uadd_ok by (unfold in_range; lia). rewrite !bind_Ret. cbn [fst snd].
  unfold mmap_fixed. rewrite fixed_succeeds, bind_Ret. done.
Qed.
End Log.

(** ** Theorems *)

Section Theorems.
Context `{Profile} `{Host}.

(** C5: a guarded region keeps its guard pages.  When the host's calls succeed
    and every section of the image fits the region, building it returns a region of
    the requested size whose bytes are all readable and writable, enclosed by one
    inaccessible page on either side, and nothing outside changes; loading the
    unikernel's shared libraries and its data does not break this. *)
Theorem guarded_region_spec fo size flags track uk_name lopt s g b off :
  (forall s a len b, fixed_fails s a len b = None) -> (forall r, region_fails r = None) ->
  0 < size -> size mod page_size = 0 ->
  size + 2 * page_size < 2 ^ 64 -> place s (size + 2 * page_size) = Ok g ->
  region_source fo size = Ok (b, off) -> image_fits lopt uk_name size ->
  exists s', build_guarded_region fo size RW flags track uk_name lopt s =
      Ret (Ok (mkRegion (g + page_size) size RW flags (if track then Some size else None)), s') /\
    (forall a, g <= a < g + page_size \/ g + page_size + size <= a < g + size + 2 * page_size ->
               prot_at s' a = Some PROT_NONE) /\
    (forall a, g + page_size <= a < g + page_size + size -> prot_at s' a = Some RW) /\
    (forall a, ~ g <= a < g + size + 2 * page_size -> prot_at s' a = prot_at s a).
Proof.
  intros Hok Hreg Hs Hm Hrange Hg Hsrc Hfit. unfold build_guarded_region, GUARD_PAGE_COUNT.
  pose proof page_size_pos. destruct (place_ok _ _ _ Hg) as (Hga & Hg0 & Hg1).
  assert (round_pages size = size) as Hrs by (by apply round_pages_multiple).
  assert (round_pages (size + 2 * page_size) = size + 2 * page_size) as Hrg.
  { apply round_pages_multiple. by rewrite Z.mod_add by lia. }
  unfold st_bind, st_exec. replace (1 * 2 * page_size) with (2 * page_size) by ring.
  replace (page_size * 1) with page_size by ring.
  rewrite (uadd_ok 64 size) by (unfold in_range; lia). rewrite !bind_Ret. cbn [fst snd].
  unfold mmap_anywhere. rewrite Hg, bind_Ret. cbn [fst snd]. rewrite Hsrc.
  rewrite uadd_ok by (unfold in_range; lia). rewrite !bind_Ret. cbn [fst snd].
  unfold mmap_fixed. rewrite Hok, bind_Ret. cbn [fst snd]. rewrite Hrs, Hrg.
  set (s1 := Map _ :: Map _ :: s).
  destruct (load_into_prot Hok lopt (g + page_size) size uk_name s1) as (s' & E & Hp);
    [lia|lia|done|..].
  { intros a Ha. cbn [s1 prot_at m_start m_len m_prot].
    by rewrite (proj2 (covers_spec _ _ _)) by lia. }
  rewrite E, bind_Ret. cbn [fst snd]. rewrite Hreg. exists s'. split; [done|].
  assert (forall a, g + page_size <= a < g + page_size + size \/ prot_at s' a = prot_at s1 a) as Hout.
  { intros a. destruct (Hp a) as [|[]]; auto. }
  assert (forall a, ~ g + page_size <= a < g + page_size + size ->
    prot_at s' a = if covers g (size + 2 * page_size) a then Some PROT_NONE else prot_at s a) as Hcov.
  { intros a Ha. destruct (Hout a) as [?| ->]; [lia|]. cbn [s1 prot_at m_start m_len m_prot].
    destruct (covers (g + page_size) size a) eqn:Ec; [by apply covers_spec in Ec|done]. }
  split_and!.
  - intros a Ha. rewrite Hcov by lia. by rewrite (proj2 (covers_spec _ _ _)) by lia.
  - intros a Ha. destruct (Hp a) as [->|[_ ->]]; [|done]. cbn [s1 prot_at m_start m_len m_prot].
    by rewrite (proj2 (covers_spec _ _ _)) by lia.
  - intros a Ha. rewrite Hcov by lia. destruct (covers _ _ a) eqn:Ec; [|done].
    apply covers_spec in Ec. lia.
Qed.

(** C4: the loader shares the libraries.  If the image's sections and its data
    file occupy disjoint pages of the region, then after loading without ASLR every
    byte of a mapped section is the corresponding byte of that library's shared
    memory object, and every byte of the data area that of the unikernel's own
    [_update] file. *)
Theorem load_shares_sections l region size uk_name s len :
  (forall s a len b, fixed_fails s a len b = None) ->
  0 <= region -> region + size < 2 ^ 64 -> aslr l = false ->
  Forall (section_fits false size) (mapped (sections_loader l)) ->
  file_size (uk_name ++ codes "_update") = Some len -> 0 < len ->
  0 <= data_start (sections_loader l) 0 ->
  data_start (sections_loader l) 0 + round_pages len <= size ->
  (forall x y a, x ∈ mapped (sections_loader l) -> y ∈ mapped (sections_loader l) ->
     covers (s_vma x) (round_pages (s_size x)) a = true ->
     covers (s_vma y) (round_pages (s_size y)) a = true -> x = y) ->
  (forall x a, x ∈ mapped (sections_loader l) ->
     covers (s_vma x) (round_pages (s_size x)) a = true ->
     covers (data_start (sections_loader l) 0) (round_pages len) a = false) ->
  exists s', load_into (Some l) region RW uk_name s = Ret (tt, s') /\
    (forall x i, x ∈ mapped (sections_loader l) -> 0 <= i < s_size x ->
       source_at s' (region + s_vma x + i) =
       Some (BackingByte (SharedMemory (shm_name false x)) i)) /\
    (forall i, 0 <= i < len ->
       source_at s' (region + data_start (sections_loader l) 0 + i) =
       Some (BackingByte (FileContents (uk_name ++ codes "_update")) i)).
Proof.
  intros Hok Hr Hsz Ha Hsec Ef Hlen Hd Hle Hdis Hdat.
  eexists. split; [by apply (load_into_sources Hok l region size)|].
  assert (forall st n a, covers (region + st) n (region + a) = covers st n a) as Hcov
    by (unfold covers; lia).
  split; cbn [source_at m_start m_len m_backing m_offset].
  - intros x i Hx Hi. pose proof (round_pages_ge (s_size x)).
    rewrite <- Z.add_assoc, Hcov, (Hdat x) by (try done; apply covers_spec; lia).
    rewrite (source_at_section_events false _ _ _ _ _ x).
    + do 2 f_equal. lia.
    + done.
    + rewrite Hcov. apply covers_spec. lia.
    + intros y Hy. rewrite Hcov. intros Hc. symmetry.
      eapply Hdis; [done|done| |exact Hc]. apply covers_spec. lia.
  - intros i Hi. pose proof (round_pages_ge len).
    rewrite (proj2 (covers_spec _ _ _)) by lia. do 2 f_equal. lia.
Qed.
End Theorems.

(** The guest's memory regions on x86-64 add up to the requested size, are
    not empty, and keep clear of the range reserved for MMIO devices below 4 GiB. *)
Theorem arch_memory_regions_spec size :
  0 < size ->
  foldr (fun e n => e.2 + n) 0 (arch_memory_regions size) = size /\
  Forall (fun e => 0 < e.2 /\ (e.1 + e.2 <= MMIO_MEM_START \/ FIRST_ADDR_PAST_32BITS <= e.1))
    (arch_memory_regions size).
Proof.
  intros Hs. unfold arch_memory_regions, MMIO_MEM_START, FIRST_ADDR_PAST_32BITS, MEM_32BIT_GAP_SIZE.
  destruct (Z.leb_spec size (2 ^ 32 - 768 * 2 ^ 20)); cbn [foldr fst snd];
    (split; [lia|]); rewrite ?Forall_cons, Forall_nil; cbn [fst snd]; lia.
Qed.

Lemma arch_memory_regions_spec_witness :
  foldr (fun e n => e.2 + n) 0 (arch_memory_regions (4096 * 2 ^ 20)) = 4096 * 2 ^ 20 /\
  Forall (fun e => 0 < e.2 /\ (e.1 + e.2 <= MMIO_MEM_START \/ FIRST_ADDR_PAST_32BITS <= e.1))
    (arch_memory_regions (4096 * 2 ^ 20)).
Proof. apply (arch_memory_regions_spec (4096 * 2 ^ 20)). lia. Defined.

(** ** A host on which every call succeeds *)

Definition sample_place (s : aspace) (len : Z) : result Z Z :=
  if (len <? 2 ^ 40) && (Z.of_nat (length s) <? 1000)
  then Ok ((2 ^ 30 * (1 + Z.of_nat (length s))) * 4096) else Err 12.

Lemma sample_place_ok s len a :
  sample_place s len = Ok a -> a mod 4096 = 0 /\ 0 < a /\ a + len + 4096 < 2 ^ 64.
Proof.
  unfold sample_place. destruct (Z.ltb_spec len (2 ^ 40)); [|done].
  destruct (Z.ltb_spec (Z.of_nat (length s)) 1000); [|done]. cbn [andb]. intros [= <-].
  split; [apply Z_mod_mult|]. lia.
Qed.

Definition sample_host : Host := {|
  page_size := 4096;
  place := sample_place;
  fixed_fails _ _ _ _ := None;
  shm_exists _ := true;
  file_size _ := Some 100;
  check_file_offset _ _ := None;
  region_fails _ := None;
  guest_region_fails _ _ := None;
  regions_fail _ := None;
  page_size_pos := eq_refl;
  place_ok := sample_place_ok
|}.

Definition sample_image : LoaderInfo :=
  LoaderInfo_new BinaryLoader_new
    [mkSections (codes ".text") 1048576 4096 None;
     mkSections (codes ".text.libnewlibc") 1097728 70000 None;
     mkSections (codes ".data") 2097152 100 None] false.

Lemma guarded_region_spec_witness :
  exists s', @build_guarded_region dev_profile sample_host None (2 ^ 22) RW 0 false (codes "uk")
               (Some sample_image) [] =
      Ret (Ok (mkRegion (2 ^ 42 + 4096) (2 ^ 22) RW 0 None), s') /\
    (forall a, 2 ^ 42 <= a < 2 ^ 42 + 4096 \/
               2 ^ 42 + 4096 + 2 ^ 22 <= a < 2 ^ 42 + 2 ^ 22 + 2 * 4096 ->
               prot_at s' a = Some PROT_NONE) /\
    (forall a, 2 ^ 42 + 4096 <= a < 2 ^ 42 + 4096 + 2 ^ 22 -> prot_at s' a = Some RW) /\
    (forall a, ~ 2 ^ 42 <= a < 2 ^ 42 + 2 ^ 22 + 2 * 4096 -> prot_at s' a = prot_at [] a).
Proof.
  apply (@guarded_region_spec dev_profile sample_host None (2 ^ 22) 0 false (codes "uk")
           (Some sample_image) [] (2 ^ 42) Anonymous 0); try reflexivity.
  split.
  - repeat constructor; vm_compute; first [reflexivity | discriminate].
  - exists 100. vm_compute. intuition discriminate.
Defined.

Lemma load_shares_sections_witness :
  exists s', @load_into dev_profile sample_host (Some sample_image) (2 ^ 42) RW (codes "uk") [] = Ret (tt, s') /\
    (forall x i, x ∈ mapped (sections_loader sample_image) -> 0 <= i < s_size x ->
       source_at s' (2 ^ 42 + s_vma x + i) = Some (BackingByte (SharedMemory (shm_name false x)) i)) /\
    (forall i, 0 <= i < 100 ->
       source_at s' (2 ^ 42 + data_start (sections_loader sample_image) 0 + i) =
       Some (BackingByte (FileContents (codes "uk" ++ codes "_update")) i)).
Proof.
  apply (@load_shares_sections dev_profile sample_host sample_image (2 ^ 42) (2 ^ 22) (codes "uk") [] 100);
    try reflexivity; try lia.
  - repeat constructor; vm_compute; first [reflexivity | discriminate].
  - vm_compute. discriminate.
  - vm_compute. discriminate.
  - assert (mapped (sections_loader sample_image) = take 2 (sections_loader sample_image)) as -> by reflexivity.
    intros x y a Hx Hy. cbn in Hx, Hy. rewrite !elem_of_cons in Hx, Hy.
    assert (@round_pages sample_host 4096 = 4096 /\ @round_pages sample_host 70000 = 73728) as [E1 E2]
      by (split; reflexivity).
    destruct Hx as [->|[->|Hx%elem_of_nil]], Hy as [->|[->|Hy%elem_of_nil]]; try done;
      cbn [s_vma s_size]; rewrite !covers_spec, E1, E2; lia.
  - assert (mapped (sections_loader sample_image) = take 2 (sections_loader sample_image)) as -> by reflexivity.
    intros x a Hx. cbn in Hx. rewrite !elem_of_cons in Hx.
    change (data_start (sections_loader sample_image) 0) with 2097152.
    assert (@round_pages sample_host 4096 = 4096 /\ @round_pages sample_host 70000 = 73728 /\
            @round_pages sample_host 100 = 4096) as (E1 & E2 & E3) by (split_and!; reflexivity).
    rewrite E3. unfold covers.
    destruct Hx as [->|[->|Hx%elem_of_nil]]; [| |done]; cbn [s_vma s_size]; rewrite ?E1, ?E2; lia.
Defined.

(** The loader maps the image into every region of the guest, at the same
    offsets and without comparing them with the region's size.  With 3329 MiB of
    memory the second region has 1 MiB; loading a section at 1 MiB into it replaces
    the guard page above the region by writable memory. *)
Theorem second_region_guard_lost (P : Profile) :
  match @builder_create_guest_memory P sample_host 3329 false (codes "uk") (Some sample_image) [] with
  | Ret (Ok [(0, _); (base, r)], s') =>
      base = FIRST_ADDR_PAST_32BITS /\ r_size r = 2 ^ 20 /\
      prot_at s' (r_addr r + r_size r) = Some RW
  | _ => False
  end.
Proof. destruct P; vm_compute; repeat split. Qed.
