(* ===== verification/Aligner.v ===== *)
(** * The aligner

    [aligner/utils.py], [aligner/unikernels.py] and [aligner/ukManager.py]: the
    tool that gives the libraries of several unikernels their addresses, so that
    the pages of a library shared by all of them are identical in each.

    The linker script a Python [StringBuilder] accumulates is the list of the
    output sections placed in it ([item]): their address, the input sections and
    the library they take.  A dict of libraries is the list of its values in insertion
    order, one from section types to sizes a partial function; [Panic] is an uncaught
    exception, so a missing key, an empty [max] and an index past the end are [Panic].
    Messages, comments in the script, the alignments of sections (which nothing reads), the
    copies of objects, the relinking, and what only these two use ([objs_files],
    [use_vfscore], [use_uklibparam]) are left out.  [AlignerLayout] has the theorem on the
    addresses. *)

From Stdlib Require Import ZArith Lia Ascii.
From stdpp Require Import functions prelude strings.
From S2P Require Import Prelude.

(** ** Definitions *)

Definition PAGE_SIZE : Z := 4096.

(** *** Rounding *)

(** [a / b] to the nearest integer, ties to the even one. *)
Definition round_half_even (a b : Z) : Z :=
  let q := a / b in
  let r := a mod b in
  if 2 * r <? b then q else if b <? 2 * r then q + 1 else if Z.even q then q else q + 1.

(** [a * 2^n] over [2^(-n)] when [n] is negative. *)
Definition scale (a n : Z) : Z := a * 2 ^ Z.max n 0.

(** The exponent of [a / b]. *)
Definition ratio_log2 (a b : Z) : Z :=
  let e := Z.log2 a - Z.log2 b in
  if scale a (- e) <? scale b e then e - 1 else e.

(** [math.ceil(x/base)] for a positive [base]: the division of integers gives the
    nearest double, with 53 bits (no value here reaches the ends of its range). *)
Definition ceil_div (x base : Z) : Z :=
  if x =? 0 then 0
  else
    let s := 52 - ratio_log2 (Z.abs x) base in
    let m := Z.sgn x * round_half_even (scale (Z.abs x) s) (scale base (- s)) in
    - (- scale m (- s) / scale 1 s).

Definition round_to_n (x base : Z) : Z := if base =? 0 then 0 else base * ceil_div x base.

(** *** Libraries and unikernels *)

(** The four section types that have a size per library. *)
Inductive sect := Stext | Srodata | Sdata | Sbss.
#[export] Instance sect_eq_dec : EqDecision sect.
Proof. solve_decision. Defined.

Definition sect_name (k : sect) : string :=
  match k with Stext => ".text" | Srodata => ".rodata" | Sdata => ".data" | Sbss => ".bss" end.

(** A dict from section types to sizes. *)
Definition sizes := sect -> option Z.
Definition no_sizes : sizes := fun _ => None.
Definition set_size (k : sect) (v : Z) (f : sizes) : sizes :=
  fun k' => if decide (k' = k) then Some v else f k'.

(** [UkLib]; [is_exec] when its file type is [ET_EXEC]. *)
Record UkLib := mkUkLib {
  lib_name : string;
  is_exec : bool;
  lib_size : sizes;
  occurence : Z
}.

Definition all_sects : list sect := [Sdata; Srodata; Stext; Sbss].

(** [UkLib.update]: one more unikernel has the library; each size is the
    largest seen. *)
Fixpoint update_sizes (l : list sect) (self new : sizes) : exec sizes :=
  match l with
  | [] => Ret self
  | k :: l =>
      match new k with
      | None => update_sizes l self new
      | Some v => old ← unwrap (self k); update_sizes l (if old <? v then set_size k v self else self) new
      end
  end.
Definition UkLib_update (self ukLib_new : UkLib) : exec UkLib :=
  s ← update_sizes all_sects (lib_size self) (lib_size ukLib_new);
  Ret (mkUkLib (lib_name self) (is_exec self) s (occurence self + 1)).

(** Input sections of a library in the script: those named [.text], or those whose names
    continue [.text.]. *)
Inductive input := Exact (k : sect) | Star (k : sect).

(** An output section at an address, the input sections of a library inside a
    group, and the opening and closing of the group. *)
Inductive item :=
| Placed (addr : Z) (ins : list input) (lib : string)
| Grouped (ins : list input) (lib : string)
| GroupOpen (addr : Z)
| GroupClose.

Record Unikernel := mkUnikernel {
  uk_name : string;
  elf : option string;
  objects : list string;
  uk_total_size : sizes;
  uk_loc : Z;
  uk_subset : list item;
  uk_individual : list item;
  uk_sb_rodata : list (string * Z);
  uk_total_rodata_size : Z
}.

(** [increment_sect]: an executable is the unikernel's own image; the sizes of
    any other object are recorded and added to the unikernel's. *)
Definition increment_sect (self : Unikernel) (k : sect) (size : Z) (lib : UkLib)
    : Unikernel * UkLib :=
  if is_exec lib then
    (mkUnikernel (uk_name self) (Some (lib_name lib)) (objects self) (uk_total_size self)
       (uk_loc self) (uk_subset self) (uk_individual self) (uk_sb_rodata self) (uk_total_rodata_size self), lib)
  else
    (mkUnikernel (uk_name self) (elf self)
       (if bool_decide (lib_name lib ∈ objects self) then objects self
        else objects self ++ [lib_name lib])
       (set_size k (match uk_total_size self k with Some n => n + size | None => size end) (uk_total_size self))
       (uk_loc self) (uk_subset self) (uk_individual self) (uk_sb_rodata self) (uk_total_rodata_size self),
     mkUkLib (lib_name lib) (is_exec lib) (set_size k size (lib_size lib)) (occurence lib)).

(** An object file as elftools reads it: whether it is an executable, the size of the section
    [get_section_by_name] finds, and the names and sizes of all its sections in order. *)
Record obj_file := mkObjFile { o_exec : bool; o_by_name : string -> option Z; o_sections : list (string * Z) }.

Fixpoint starts_with (p s : string) : bool :=
  match p, s with
  | EmptyString, _ => true
  | String a p, String b s => Ascii.eqb a b && starts_with p s
  | _, EmptyString => false
  end.

(** [p in s] of strings. *)
Fixpoint contains (p s : string) : bool :=
  starts_with p s || match s with EmptyString => false | String _ s => contains p s end.

(** [s.split(p)[0]]: up to the first occurrence of [p]. *)
Fixpoint before (p s : string) : string :=
  if starts_with p s then EmptyString
  else match s with EmptyString => EmptyString | String a s => String a (before p s) end.

Definition OBJ_EXT : string := ".o".

(** [lib.replace(OBJ_EXT, ...)] by the empty string. *)
Fixpoint remove_ext (s : string) : string :=
  match s with
  | String "."%char (String "o"%char s) => remove_ext s
  | String a s => String a (remove_ext s)
  | EmptyString => EmptyString
  end.

Definition UkLib_new (name : string) (exec0 : bool) : UkLib := mkUkLib (before OBJ_EXT name) exec0 no_sizes 1.

(** [process_file]: the size of the section of each name, zero when there is none. *)
Definition section_size (f : obj_file) (k : sect) : Z := default 0 (o_by_name f (sect_name k)).

(** [process_file_dce]: the sizes of all sections whose names start with the type's. *)
Definition section_total (f : obj_file) (k : sect) : Z :=
  foldr (fun (e : string * Z) n => (if starts_with (sect_name k) e.1 then e.2 else 0) + n) 0 (o_sections f).

Fixpoint process_sects (size : sect -> Z) (l : list sect) (r : Unikernel * UkLib) : Unikernel * UkLib :=
  match l with
  | [] => r
  | k :: l => process_sects size l (increment_sect r.1 k (size k) r.2)
  end.

Definition process_file (self : Unikernel) (libname : string) (f : obj_file) : Unikernel * UkLib :=
  process_sects (section_size f) all_sects (self, UkLib_new libname (o_exec f)).

(** The loop variable is read after the loop over the sections: with none it is unbound. *)
Definition process_file_dce (self : Unikernel) (libname : string) (f : obj_file) : exec (Unikernel * UkLib) :=
  match o_sections f with
  | [] => Panic
  | _ => Ret (process_sects (section_total f) all_sects (self, UkLib_new libname (o_exec f)))
  end.

(** The library table shared by the unikernels. *)
Fixpoint global_add (lib : UkLib) (l : list UkLib) : exec (list UkLib) :=
  match l with
  | [] => Ret [lib]
  | x :: l =>
      if String.eqb (lib_name x) (lib_name lib) then y ← UkLib_update x lib; Ret (y :: l)
      else l' ← global_add lib l; Ret (x :: l')
  end.

(** Which files of a build folder are libraries. *)
Definition is_library (lib : string) : bool :=
  negb (contains "x86_64" lib) && contains OBJ_EXT lib && negb (contains ".ld.o" lib).

(** The files of one build folder, in the order of their names.  With dead code
    elimination ([dce0]) applications are first replaced by [copied], their object of
    another build. *)
Fixpoint process_build_folder (dce0 : bool) (copied : string -> obj_file) (self : Unikernel)
    (files : list (string * obj_file)) (global_maps : list UkLib) : exec (Unikernel * list UkLib) :=
  match files with
  | [] => Ret (self, global_maps)
  | (lib, f) :: files =>
      if is_library lib then
        r ← (if dce0 && contains "app" (remove_ext lib) then process_file_dce self lib (copied lib)
             else Ret (process_file self lib f));
        gm ← global_add r.2 global_maps;
        process_build_folder dce0 copied r.1 files gm
      else process_build_folder dce0 copied self files global_maps
  end.

(** *** The manager *)

Record Config := mkConfig {
  group_common : bool;
  compact : bool;
  snapshot : bool;
  dce : bool
}.

Record Partition := mkPartition {
  common_to_all : list UkLib;
  common_subset : list UkLib;
  individual : list UkLib
}.

Definition custom_sort_key (key : string) : Z * string :=
  if starts_with "app" key then (0, key)
  else if starts_with "libtest" key then (1, key) else (2, key).

Definition key_le (a b : Z * string) : bool :=
  if a.1 <? b.1 then true
  else if b.1 <? a.1 then false else String.leb a.2 b.2.

(** Python's stable [sorted]. *)
Fixpoint insert_sorted {A} (le : A -> A -> bool) (x : A) (l : list A) : list A :=
  match l with
  | [] => [x]
  | y :: l => if le x y then x :: y :: l else y :: insert_sorted le x l
  end.
Definition sorted {A} (le : A -> A -> bool) (l : list A) : list A :=
  foldr (insert_sorted le) [] l.

Definition process_maps (global_maps : list UkLib) (n_uks : Z) : Partition :=
  let all := List.filter (fun v => occurence v =? n_uks) global_maps in
  let rest := List.filter (fun v => negb (occurence v =? n_uks)) global_maps in
  mkPartition all
    (List.filter (fun v => 1 <? occurence v) rest)
    (sorted (fun a b => key_le (custom_sort_key (lib_name a)) (custom_sort_key (lib_name b)))
       (List.filter (fun v => negb (1 <? occurence v)) rest)).

(** [d[k] = v]. *)
Fixpoint dict_set (k : string) (v : Z) (l : list (string * Z)) : list (string * Z) :=
  match l with
  | [] => [(k, v)]
  | (k', v') :: l => if String.eqb k k' then (k', v) :: l else (k', v') :: dict_set k v l
  end.

(** The manager's location counter and the read-only data of common libraries. *)
Record Manager := mkManager { loc_counter : Z; sb_rodata : list (string * Z); total_rodata_size : Z }.

Fixpoint add_sizes (lib : UkLib) (array_sect : list sect) (loc : Z) : exec Z :=
  match array_sect with
  | [] => Ret loc
  | k :: l => n ← unwrap (lib_size lib k); add_sizes lib l (if n =? 0 then loc else loc + n)
  end.

(** The text appended by [compute_common_loc], with the sizes that its comments show;
    indexing past the end of [array_sect] is an [IndexError]. *)
Definition common_item (c : Config) (loc : Z) (lib : UkLib) (array_sect : list sect)
    : exec item :=
  s0 ← unwrap (array_sect !! 0%nat);
  _ ← unwrap (lib_size lib s0);
  _ ← (if (length array_sect =? 2)%nat then s1 ← unwrap (array_sect !! 1%nat); n1 ← unwrap (lib_size lib s1); Ret tt else Ret tt);
  if group_common c then
    s1 ← unwrap (array_sect !! 1%nat); Ret (Grouped [Exact s0; Exact s1] (lib_name lib))
  else if compact c then
    s1 ← unwrap (array_sect !! 1%nat); Ret (Placed loc [Exact s0; Exact s1] (lib_name lib))
  else Ret (Placed loc [Exact s0] (lib_name lib)).

Definition compute_common_loc (c : Config) (self : Manager) (lib : UkLib)
    (array_sect : list sect) : exec (Manager * item) :=
  i ← common_item c (loc_counter self) lib array_sect;
  loc ← add_sizes lib array_sect (loc_counter self);
  let loc := if group_common c then loc else round_to_n loc PAGE_SIZE in
  if compact c then Ret (mkManager loc (sb_rodata self) (total_rodata_size self), i)
  else
    n ← unwrap (lib_size lib Srodata);
    Ret (mkManager loc (dict_set (lib_name lib) n (sb_rodata self)) (total_rodata_size self + n), i).

Fixpoint common_loop (c : Config) (self : Manager) (libs : list UkLib)
    : exec (Manager * list item) :=
  match libs with
  | [] => Ret (self, [])
  | lib :: libs =>
      r ← compute_common_loc c self lib (if compact c then [Stext; Srodata] else [Stext]);
      r' ← (if snapshot c
            then q ← compute_common_loc c r.1 lib [Sdata; Sbss]; Ret (q.1, [r.2; q.2])
            else Ret (r.1, [r.2]));
      rest ← common_loop c r'.1 libs;
      Ret (rest.1, r'.2 ++ rest.2)
  end.

(** [ectors] is the address of the [_ectors] section. *)
Definition process_common_to_all (c : Config) (self : Manager) (libs : list UkLib) (ectors : Z)
    : exec (Manager * list item) :=
  r ← common_loop c self libs;
  Ret (r.1, if group_common c then GroupOpen (ectors + PAGE_SIZE) :: r.2 ++ [GroupClose] else r.2).

(** The location counter of a unikernel, its part of the script, its read-only data and
    their total size. *)
Record Placing := mkPlacing { p_loc : Z; p_items : list item; p_rodata : list (string * Z); p_total_rodata : Z }.

(** An application that only one unikernel has takes the sections that dead code
    elimination works on. *)
Definition dce_app (c : Config) (lib : UkLib) : bool := dce c && contains "app" (lib_name lib) && (occurence lib =? 1).

(** One section type of one library in [update_loc_counter]: the entry for the text, *)
Definition place_text (c : Config) (lib : UkLib) (st : Placing) : exec Placing :=
  let loc := round_to_n (p_loc st) PAGE_SIZE in
  _ ← unwrap (lib_size lib Stext);
  n ← unwrap (lib_size lib Srodata);
  if compact c then
    let ins := if dce_app c lib then [Exact Stext; Star Stext; Exact Srodata; Star Srodata]
               else [Exact Stext; Exact Srodata] in
    Ret (mkPlacing loc (p_items st ++ [Placed loc ins (lib_name lib)]) (p_rodata st) (p_total_rodata st))
  else
    Ret (mkPlacing loc (p_items st ++ [Placed loc [Exact Stext; Star Stext] (lib_name lib)])
           (dict_set (lib_name lib) n (p_rodata st)) (p_total_rodata st + n)).

(** the entry for the data, *)
Definition place_datas (c : Config) (lib : UkLib) (st : Placing) : exec Placing :=
  let loc := round_to_n (p_loc st) PAGE_SIZE in
  _ ← unwrap (lib_size lib Sdata);
  _ ← unwrap (lib_size lib Sbss);
  let ins := if dce_app c lib then [Exact Sdata; Star Sdata; Exact Sbss; Star Sbss] else [Exact Sdata; Exact Sbss] in
  Ret (mkPlacing loc (p_items st ++ [Placed loc ins (lib_name lib)]) (p_rodata st) (p_total_rodata st)).

(** and the step of the counter. *)
Definition place_sect (c : Config) (lib : UkLib) (k : sect) (st : Placing) : exec Placing :=
  st ← (if decide (k = Stext) then place_text c lib st else Ret st);
  st ← (if snapshot c && bool_decide (k = Sdata) then place_datas c lib st else Ret st);
  n ← unwrap (lib_size lib k);
  Ret (mkPlacing (p_loc st + n) (p_items st) (p_rodata st) (p_total_rodata st)).

Fixpoint place_sects (c : Config) (lib : UkLib) (l : list sect) (st : Placing) : exec Placing :=
  match l with
  | [] => Ret st
  | k :: l => st ← place_sect c lib k st; place_sects c lib l st
  end.

Definition place_lib (c : Config) (objs : list string) (lib : UkLib) (st : Placing) : exec Placing :=
  let array_sect := [Stext] in
  let array_sect := if snapshot c then [Stext; Srodata; Sdata; Sbss] else array_sect in
  let array_sect := if compact c then [Stext; Srodata] else array_sect in
  if bool_decide (lib_name lib ∈ objs) then place_sects c lib array_sect st else Ret st.

Fixpoint place_libs (c : Config) (objs : list string) (libs : list UkLib) (st : Placing) : exec Placing :=
  match libs with
  | [] => Ret st
  | lib :: libs => st ← place_lib c objs lib st; place_libs c objs libs st
  end.

(** [compute_loc] for the [subset] and the [individual] libraries. *)
Inductive type_maps := subset | individual_libs.

Definition update_loc_counter (c : Config) (self : Unikernel) (libs : list UkLib) (t : type_maps) : exec Unikernel :=
  st ← place_libs c (objects self) libs
         (mkPlacing (uk_loc self) (match t with subset => uk_subset self | individual_libs => uk_individual self end)
            (uk_sb_rodata self) (uk_total_rodata_size self));
  Ret (mkUnikernel (uk_name self) (elf self) (objects self) (uk_total_size self) (p_loc st)
    (match t with subset => p_items st | individual_libs => uk_subset self end)
    (match t with subset => uk_individual self | individual_libs => p_items st end) (p_rodata st) (p_total_rodata st)).

Definition list_max (l : list Z) : exec Z :=
  match l with [] => Panic | x :: l => Ret (foldl Z.max x l) end.

Definition with_loc (uk : Unikernel) (loc : Z) : Unikernel :=
  mkUnikernel (uk_name uk) (elf uk) (objects uk) (uk_total_size uk) loc (uk_subset uk) (uk_individual uk)
    (uk_sb_rodata uk) (uk_total_rodata_size uk).

Fixpoint place_uks (c : Config) (loc : Z) (libs : list UkLib) (t : type_maps) (uks : list Unikernel) : exec (list Unikernel) :=
  match uks with
  | [] => Ret []
  | uk :: uks =>
      uk ← update_loc_counter c (with_loc uk loc) libs t;
      uks ← place_uks c loc libs t uks;
      Ret (uk :: uks)
  end.

Definition compute_loc (c : Config) (loc : Z) (uks : list Unikernel) (libs : list UkLib)
    (t : type_maps) : exec (Z * list Unikernel) :=
  match libs with
  | [] => Ret (loc, uks)
  | _ =>
      let loc := round_to_n loc PAGE_SIZE in
      uks ← place_uks c loc libs t uks;
      m ← list_max (map uk_loc uks);
      Ret (m, uks)
  end.

(** The addresses of the sections common to all scripts. *)
Record Layout := mkLayout {
  l_ctors : Z;
  l_init_array : Z;
  l_ectors : Z;
  l_common : list item;
  l_sects : list (sect * Z);
  l_intrstack : Z;
  l_uks : list Unikernel
}.

Fixpoint total_sizes (k : sect) (uks : list Unikernel) : exec (list Z) :=
  match uks with
  | [] => Ret []
  | uk :: uks => n ← unwrap (uk_total_size uk k); l ← total_sizes k uks; Ret (n :: l)
  end.

Fixpoint place_data (c : Config) (loc : Z) (uks : list Unikernel) (dsection : list sect)
    : exec (Z * list (sect * Z)) :=
  match dsection with
  | [] => Ret (loc, [])
  | k :: dsection =>
      let loc := if dce c && bool_decide (k = Sbss) then loc + PAGE_SIZE else loc in
      l ← total_sizes k uks;
      m ← list_max l;
      r ← place_data c (loc + round_to_n m PAGE_SIZE) uks dsection;
      Ret (r.1, (k, loc) :: r.2)
  end.

Definition occurence_ge (a b : UkLib) : bool := occurence b <=? occurence a.

Definition data_sections (c : Config) : list sect := if compact c then [Sdata; Sbss] else [Srodata; Sdata; Sbss].

(** [update_link_file_spacer], up to writing the scripts. *)
Definition update_link_file_spacer (c : Config) (loc : Z) (uks : list Unikernel) (p : Partition)
    : exec Layout :=
  let ctors := loc in
  let init_array := ctors + PAGE_SIZE in
  let ectors := init_array + PAGE_SIZE in
  r ← process_common_to_all c (mkManager (ectors + PAGE_SIZE) [] 0) (common_to_all p) ectors;
  let common := r.2 in
  s ← compute_loc c (loc_counter r.1) uks (sorted occurence_ge (common_subset p)) subset;
  i ← compute_loc c s.1 s.2 (individual p) individual_libs;
  let loc := round_to_n i.1 PAGE_SIZE in
  d ← (if snapshot c then Ret (loc, [])
       else d ← place_data c loc i.2 (data_sections c); Ret (round_to_n d.1 PAGE_SIZE, d.2));
  Ret (mkLayout ctors init_array ectors common d.2 d.1 i.2).
