(* ===== verification/AlignerLayout.v ===== *)
(** * The addresses the aligner computes

    Below [2^53] the divisions of Python's doubles are exact ([ceil_div_exact]), and the
    layout of [Aligner.update_link_file_spacer] has every library that a unikernel needs,
    in increasing pages, at the same addresses for what all unikernels share
    ([layout_sound]).  The examples at the end are options that lose sections or fail. *)

From Stdlib Require Import ZArith Lia Ascii.
From stdpp Require Import functions prelude strings.
From S2P Require Import Prelude Aligner.

(** ** Rounding *)

(** Integers below it are doubles. *)
Definition MAX_EXACT : Z := 2 ^ 53.

Lemma scale_pos a n : 0 <= n -> scale a n = a * 2 ^ n.
Proof. intros Hn. unfold scale. by rewrite Z.max_l. Qed.
Lemma scale_neg a n : n <= 0 -> scale a n = a.
Proof. intros Hn. unfold scale. rewrite Z.max_r by done. lia. Qed.

Lemma round_half_even_exact a b : 0 < b -> round_half_even (a * b) b = a.
Proof. intros Hb. unfold round_half_even. rewrite Z.div_mul, Z.mod_mul by lia. by rewrite (proj2 (Z.ltb_lt _ _)) by lia. Qed.

(** The exponent of a number of pages. *)
Lemma ratio_log2_page x : 0 < x -> ratio_log2 x PAGE_SIZE = Z.log2 x - 12.
Proof.
  intros Hx. unfold ratio_log2. change (Z.log2 PAGE_SIZE) with 12. set (e := Z.log2 x - 12). destruct (Z.log2_spec x Hx) as [Hlo _].
  rewrite (proj2 (Z.ltb_ge _ _)); [done|]. pose proof (Z.log2_nonneg x) as Hn. unfold PAGE_SIZE. destruct (Z.le_ge_cases 0 e).
  - rewrite (scale_pos 4096), (scale_neg x) by lia. change 4096 with (2 ^ 12). rewrite <- Z.pow_add_r by lia. unfold e in *. by replace (12 + (Z.log2 x - 12)) with (Z.log2 x) by lia.
  - rewrite (scale_neg 4096), (scale_pos x) by lia. change 4096 with (2 ^ 12). replace 12 with (Z.log2 x + - e) at 1 by (unfold e; lia). rewrite Z.pow_add_r by lia. nia.
Qed.

Lemma ceil_div_exact x : 0 <= x < MAX_EXACT -> ceil_div x PAGE_SIZE = - (- x / PAGE_SIZE).
Proof.
  intros [Hx Hlt]. unfold ceil_div. destruct (Z.eqb_spec x 0) as [-> |Hne]; [done|]. rewrite Z.abs_eq, ratio_log2_page, Z.sgn_pos by lia.
  assert (Hl : 0 <= Z.log2 x <= 52). { split; [apply Z.log2_nonneg|]. enough (Z.log2 x < 53) by lia. apply Z.log2_lt_pow2; [lia|done]. }
  set (s := 52 - (Z.log2 x - 12)). assert (Hs : 12 <= s) by (unfold s; lia). rewrite (scale_pos x), (scale_neg PAGE_SIZE), (scale_pos 1) by lia. cbn zeta.
  assert (Hm : x * 2 ^ s = x * 2 ^ (s - 12) * PAGE_SIZE). { unfold PAGE_SIZE. change 4096 with (2 ^ 12). rewrite <- Z.mul_assoc, <- Z.pow_add_r by lia. do 2 f_equal. lia. }
  rewrite Hm, round_half_even_exact by done. rewrite (scale_neg (1 * _)) by lia. f_equal.
  replace (- (1 * (x * 2 ^ (s - 12)))) with (- x * 2 ^ (s - 12)) by lia. replace (1 * 2 ^ s) with (PAGE_SIZE * 2 ^ (s - 12)).
  - rewrite Z.div_mul_cancel_r; [done|by unfold PAGE_SIZE|]. apply Z.pow_nonzero; lia.
  - unfold PAGE_SIZE. change 4096 with (2 ^ 12). rewrite <- Z.pow_add_r by lia. rewrite Z.mul_1_l. f_equal. lia.
Qed.

Definition aligned (a : Z) : Prop := a mod PAGE_SIZE = 0.

Lemma round_aligned x : aligned (round_to_n x PAGE_SIZE).
Proof. unfold aligned, round_to_n. change (PAGE_SIZE =? 0) with false. cbv iota. rewrite Z.mul_comm. apply Z_mod_mult. Qed.

Lemma round_page x : 0 <= x < MAX_EXACT -> x <= round_to_n x PAGE_SIZE < x + PAGE_SIZE.
Proof.
  intros Hx. unfold round_to_n. change (PAGE_SIZE =? 0) with false. cbv iota. rewrite ceil_div_exact by done. unfold PAGE_SIZE.
  pose proof (Z.div_mod (- x) 4096). pose proof (Z.mod_pos_bound (- x) 4096). lia.
Qed.

Lemma aligned_page a : aligned a -> aligned (a + PAGE_SIZE).
Proof.
  unfold aligned, PAGE_SIZE. intros Ha.
  replace (a + 4096) with (a + 1 * 4096) by lia. by rewrite Z_mod_plus_full.
Qed.

Lemma aligned_add_round a x : aligned a -> aligned (a + round_to_n x PAGE_SIZE).
Proof.
  pose proof (round_aligned x) as Hr. unfold aligned in *. intros Ha.
  rewrite Zplus_mod, Ha, Hr. done.
Qed.

(** ** Specification *)

(** The size recorded for the sections of a library that an entry takes; [Star] inputs come
    with an [Exact] one of their type, whose recorded size counts for both. *)
Fixpoint occupied (sz : string -> sect -> Z) (lib : string) (ins : list input) : Z :=
  match ins with
  | [] => 0
  | Exact k :: ins => sz lib k + occupied sz lib ins
  | Star _ :: ins => occupied sz lib ins
  end.

(** The output sections lie in [lo, hi) in increasing order, page aligned and
    without overlap. *)
Fixpoint chain (sz : string -> sect -> Z) (lo : Z) (items : list item) (hi : Z) : Prop :=
  match items with
  | [] => lo <= hi
  | Placed a ins lib :: items => lo <= a /\ aligned a /\ chain sz (a + occupied sz lib ins) items hi
  | _ => False
  end.

(** The same for the data sections of one unikernel. *)
Fixpoint data_chain (sz : sizes) (lo : Z) (l : list (sect * Z)) (hi : Z) : Prop :=
  match l with
  | [] => lo <= hi
  | (k, a) :: l => lo <= a /\ aligned a /\ exists n, sz k = Some n /\ data_chain sz (a + n) l hi
  end.

(** What the output sections take, without their addresses. *)
Definition contents (items : list item) : list (list input * string) :=
  omap (fun i => match i with Placed _ ins lib => Some (ins, lib) | _ => None end) items.

(** The entries for a library that all unikernels have: text and read-only data if they are
    compact, else the text; for snapshots also its data. *)
Definition common_sections (c : Config) (lib : UkLib) : list (list input * string) :=
  (if compact c then [Exact Stext; Exact Srodata] else [Exact Stext], lib_name lib) ::
  (if snapshot c then [(if compact c then [Exact Sdata; Exact Sbss] else [Exact Sdata], lib_name lib)] else []).

(** Those for any other library. *)
Definition own_sections (c : Config) (lib : UkLib) : list (list input * string) :=
  let all k := if dce_app c lib then [Exact k; Star k] else [Exact k] in
  if compact c then [(all Stext ++ all Srodata, lib_name lib)]
  else ([Exact Stext; Star Stext], lib_name lib) :: (if snapshot c then [(all Sdata ++ all Sbss, lib_name lib)] else []).

Definition uk_has (uk : Unikernel) (lib : UkLib) : bool := bool_decide (lib_name lib ∈ objects uk).

Definition lib_ok (sz : string -> sect -> Z) (lib : UkLib) : Prop :=
  forall k, 0 <= sz (lib_name lib) k /\ lib_size lib k = Some (sz (lib_name lib) k).

Definition sized (uk : Unikernel) : Prop := forall k, exists n, uk_total_size uk k = Some n /\ 0 <= n.
Definition fresh_uk (uk : Unikernel) : Prop :=
  uk_subset uk = [] /\ uk_individual uk = [] /\ sized uk.

(** Room for libraries and for the data of unikernels, with what rounding may add. *)
Definition lib_room (sz : string -> sect -> Z) (lib : UkLib) : Z :=
  2 * PAGE_SIZE + (sz (lib_name lib) Stext + sz (lib_name lib) Srodata + sz (lib_name lib) Sdata + sz (lib_name lib) Sbss).
Definition room (sz : string -> sect -> Z) (libs : list UkLib) : Z := foldr (fun lib n => lib_room sz lib + n) 0 libs.
Definition uk_room (uk : Unikernel) (k : sect) : Z := default 0 (uk_total_size uk k).
Definition sect_room (uks : list Unikernel) (k : sect) : Z := foldr (fun uk n => uk_room uk k + n) 0 uks.
Definition data_room (uks : list Unikernel) (ks : list sect) : Z := foldr (fun k n => 2 * PAGE_SIZE + sect_room uks k + n) 0 ks.

(** ** Lemmas *)

Lemma data_chain_mono sz lo l hi hi' :
  hi <= hi' -> data_chain sz lo l hi -> data_chain sz lo l hi'.
Proof.
  intros Hhi. revert lo. induction l as [|[k a] l IH]; cbn; intros lo Hl; [lia|].
  destruct Hl as (? & ? & n & ? & ?). split; [done|]. split; [done|]. exists n. auto.
Qed.

Lemma contents_app l l' : contents (l ++ l') = contents l ++ contents l'.
Proof. unfold contents. apply omap_app. Qed.

Section Layout.
Context (sz : string -> sect -> Z).

Lemma chain_app lo l mid l' hi : chain sz lo l mid -> chain sz mid l' hi -> chain sz lo (l ++ l') hi.
Proof.
  revert lo. induction l as [|i l IH]; cbn; intros lo Hl Hl'.
  - destruct l' as [|[]]; cbn in *; intuition lia.
  - destruct i; try done. destruct Hl as (? & ? & ?). auto.
Qed.

Lemma chain_mono lo l hi lo' hi' : lo' <= lo -> hi <= hi' -> chain sz lo l hi -> chain sz lo' l hi'.
Proof.
  revert lo lo'. induction l as [|i l IH]; cbn; intros lo lo' Hlo Hhi Hl; [lia|].
  destruct i; try done. destruct Hl as (? & ? & ?). split; [lia|]. split; [done|].
  eapply IH; [|done|done]. lia.
Qed.

Lemma chain_snoc lo l hi a ins lib hi' :
  chain sz lo l hi -> hi <= a -> aligned a -> a + occupied sz lib ins <= hi' ->
  chain sz lo (l ++ [Placed a ins lib]) hi'.
Proof. intros Hl Ha Hal Hle. eapply chain_app; [exact Hl|]. done. Qed.

Lemma lib_room_nonneg lib : lib_ok sz lib -> 2 * PAGE_SIZE <= lib_room sz lib.
Proof. intros Hok. unfold lib_room. pose proof (Hok Stext). pose proof (Hok Srodata). pose proof (Hok Sdata). pose proof (Hok Sbss). lia. Qed.

Lemma room_nonneg libs : Forall (lib_ok sz) libs -> 0 <= room sz libs.
Proof. unfold room. induction 1 as [|lib libs Hok Hl IH]; cbn [foldr]; [lia|]. pose proof (lib_room_nonneg lib Hok). unfold PAGE_SIZE in *. lia. Qed.

Lemma room_app l l' : room sz (l ++ l') = room sz l + room sz l'.
Proof. unfold room. induction l as [|x l IH]; cbn [foldr app]; lia. Qed.

Lemma add_sizes_ok lib ks loc : lib_ok sz lib -> add_sizes lib ks loc = Ret (loc + foldr (fun k n => sz (lib_name lib) k + n) 0 ks).
Proof.
  intros Hok. revert loc. induction ks as [|k ks IH]; intros loc; cbn [add_sizes foldr]; [by rewrite Z.add_0_r|].
  rewrite (proj2 (Hok k)). cbn [unwrap]. rewrite bind_Ret, IH. f_equal. destruct (Z.eqb_spec (sz (lib_name lib) k) 0); lia.
Qed.

(** One common output section. *)
Lemma compute_common_loc_chain c self lib s0 s1 :
  group_common c = false -> lib_ok sz lib -> aligned (loc_counter self) -> 0 <= loc_counter self ->
  loc_counter self + sz (lib_name lib) s0 + sz (lib_name lib) s1 + PAGE_SIZE < MAX_EXACT ->
  exists m a, compute_common_loc c self lib [s0; s1] = Ret (m, Placed a (if compact c then [Exact s0; Exact s1] else [Exact s0]) (lib_name lib)) /\
    chain sz (loc_counter self) [Placed a (if compact c then [Exact s0; Exact s1] else [Exact s0]) (lib_name lib)] (loc_counter m) /\ aligned (loc_counter m) /\
    loc_counter self <= loc_counter m <= loc_counter self + sz (lib_name lib) s0 + sz (lib_name lib) s1 + PAGE_SIZE.
Proof.
  intros Hg Hok Hal H0 Hlt. pose proof (Hok s0) as [Hp0 E0]. pose proof (Hok s1) as [Hp1 E1]. unfold compute_common_loc, common_item. rewrite Hg, add_sizes_ok by done. cbn [lookup list_lookup unwrap length Nat.eqb foldr].
  rewrite !bind_Ret, E0. cbn [unwrap]. rewrite !bind_Ret, E1, (proj2 (Hok Srodata)). cbn [unwrap]. rewrite !bind_Ret.
  pose proof (round_aligned (loc_counter self + (sz (lib_name lib) s0 + (sz (lib_name lib) s1 + 0)))) as Hra.
  pose proof (round_page (loc_counter self + (sz (lib_name lib) s0 + (sz (lib_name lib) s1 + 0))) ltac:(unfold PAGE_SIZE in *; lia)) as Hr.
  destruct (compact c); rewrite !bind_Ret; eexists _, _; (split; [reflexivity|]); cbn [chain occupied loc_counter]; repeat split; try done; lia.
Qed.

Lemma compute_common_loc_text c self lib :
  group_common c = false -> compact c = false -> lib_ok sz lib -> aligned (loc_counter self) -> 0 <= loc_counter self ->
  loc_counter self + sz (lib_name lib) Stext + PAGE_SIZE < MAX_EXACT ->
  exists m a, compute_common_loc c self lib [Stext] = Ret (m, Placed a [Exact Stext] (lib_name lib)) /\
    chain sz (loc_counter self) [Placed a [Exact Stext] (lib_name lib)] (loc_counter m) /\ aligned (loc_counter m) /\
    loc_counter self <= loc_counter m <= loc_counter self + sz (lib_name lib) Stext + PAGE_SIZE.
Proof.
  intros Hg Hc Hok Hal H0 Hlt. pose proof (Hok Stext) as [Hp0 E0]. unfold compute_common_loc, common_item. rewrite Hg, Hc, add_sizes_ok by done. cbn [lookup list_lookup unwrap length Nat.eqb foldr].
  rewrite !bind_Ret, E0. cbn [unwrap]. rewrite !bind_Ret, (proj2 (Hok Srodata)). cbn [unwrap]. rewrite !bind_Ret.
  pose proof (round_aligned (loc_counter self + (sz (lib_name lib) Stext + 0))) as Hra.
  pose proof (round_page (loc_counter self + (sz (lib_name lib) Stext + 0)) ltac:(unfold PAGE_SIZE in *; lia)) as Hr.
  eexists _, _; (split; [reflexivity|]); cbn [chain occupied loc_counter]; repeat split; try done; lia.
Qed.

(** The text, or text and read-only data, of a common library. *)
Lemma common_text_chain c self lib :
  group_common c = false -> lib_ok sz lib -> aligned (loc_counter self) -> 0 <= loc_counter self -> loc_counter self + lib_room sz lib < MAX_EXACT ->
  exists m i, compute_common_loc c self lib (if compact c then [Stext; Srodata] else [Stext]) = Ret (m, i) /\
    contents [i] = [(if compact c then [Exact Stext; Exact Srodata] else [Exact Stext], lib_name lib)] /\
    chain sz (loc_counter self) [i] (loc_counter m) /\ aligned (loc_counter m) /\
    loc_counter self <= loc_counter m <= loc_counter self + sz (lib_name lib) Stext + sz (lib_name lib) Srodata + PAGE_SIZE.
Proof.
  intros Hg Hok Hal H0 Hlt. pose proof (Hok Srodata) as [Hp _]. unfold lib_room, PAGE_SIZE in Hlt. pose proof (Hok Sdata) as [Hpd _]. pose proof (Hok Sbss) as [Hpb _]. destruct (compact c) eqn:Hc.
  - destruct (compute_common_loc_chain c self lib Stext Srodata) as (m & a & E & Hch & Hm & Hb); try done; [unfold PAGE_SIZE; lia|]. rewrite Hc in E, Hch. by exists m, (Placed a [Exact Stext; Exact Srodata] (lib_name lib)).
  - destruct (compute_common_loc_text c self lib) as (m & a & E & Hch & Hm & Hb); try done; [unfold PAGE_SIZE; lia|]. exists m, (Placed a [Exact Stext] (lib_name lib)). repeat split; try done; try apply Hch; lia.
Qed.

Lemma common_loop_chain c self libs :
  group_common c = false -> Forall (lib_ok sz) libs -> aligned (loc_counter self) -> 0 <= loc_counter self -> loc_counter self + room sz libs < MAX_EXACT ->
  exists m items, common_loop c self libs = Ret (m, items) /\ contents items = libs ≫= common_sections c /\
    chain sz (loc_counter self) items (loc_counter m) /\ aligned (loc_counter m) /\ loc_counter self <= loc_counter m <= loc_counter self + room sz libs.
Proof.
  intros Hg Hl. revert self. induction Hl as [|lib libs Hok Hl IH]; intros self Hal H0 Hlt.
  { exists self, []. cbn. repeat split; try done; lia. }
  cbn [common_loop room foldr] in *. fold (room sz libs) in *. pose proof (room_nonneg libs Hl) as Hrn.
  pose proof (Hok Stext) as [Hpt _]. pose proof (Hok Srodata) as [Hpr _]. pose proof (Hok Sdata) as [Hpd _]. pose proof (Hok Sbss) as [Hpb _].
  destruct (common_text_chain c self lib) as (m & i & E & Ei & Hch & Hm & Hb); try done; [lia|]. rewrite E, bind_Ret. cbn [fst snd].
  change ((lib :: libs) ≫= common_sections c) with (common_sections c lib ++ (libs ≫= common_sections c)). unfold common_sections at 1. unfold lib_room, PAGE_SIZE in *. destruct (snapshot c) eqn:Hsn.
  - destruct (compute_common_loc_chain c m lib Sdata Sbss) as (m' & a & E' & Hch' & Hm' & Hb'); try done; [lia|unfold PAGE_SIZE; lia|].
    rewrite E', !bind_Ret. cbn [fst snd]. unfold PAGE_SIZE in *. destruct (IH m' Hm') as (m2 & items & E2 & Ec & Hch2 & Hm2 & Hb2); [lia|lia|]. rewrite E2, bind_Ret. cbn [fst snd].
    eexists _, _. split; [done|]. split; [|split; [|split; [done|lia]]].
    + rewrite (app_assoc [i] [_] items : [i; _] ++ items = _). rewrite !contents_app, Ei, Ec. done.
    + eapply chain_app; [exact (chain_app _ [i] _ [_] _ Hch Hch')|done].
  - rewrite bind_Ret. cbn [fst snd]. destruct (IH m Hm) as (m2 & items & E2 & Ec & Hch2 & Hm2 & Hb2); [lia|lia|]. rewrite E2, bind_Ret. cbn [fst snd].
    eexists _, _. split; [done|]. split; [by rewrite contents_app, Ei, Ec|]. split; [by eapply chain_app|]. split; [done|lia].
Qed.

(** The libraries one unikernel places for itself. *)
Lemma place_sect_text c lib st : lib_ok sz lib ->
  exists rod tot, place_sect c lib Stext st =
    Ret (mkPlacing (round_to_n (p_loc st) PAGE_SIZE + sz (lib_name lib) Stext)
           (p_items st ++ [Placed (round_to_n (p_loc st) PAGE_SIZE)
              (if compact c then if dce_app c lib then [Exact Stext; Star Stext; Exact Srodata; Star Srodata] else [Exact Stext; Exact Srodata]
               else [Exact Stext; Star Stext]) (lib_name lib)]) rod tot).
Proof.
  intros Hok. unfold place_sect, place_text. rewrite decide_True, (proj2 (Hok Stext)), (proj2 (Hok Srodata)) by done. cbn [unwrap]. rewrite !bind_Ret.
  rewrite bool_decide_eq_false_2, andb_false_r by done. destruct (compact c); rewrite !bind_Ret; by eexists _, _.
Qed.

Lemma place_sect_data c lib st : lib_ok sz lib -> snapshot c = true ->
  place_sect c lib Sdata st =
    Ret (mkPlacing (round_to_n (p_loc st) PAGE_SIZE + sz (lib_name lib) Sdata)
           (p_items st ++ [Placed (round_to_n (p_loc st) PAGE_SIZE)
              (if dce_app c lib then [Exact Sdata; Star Sdata; Exact Sbss; Star Sbss] else [Exact Sdata; Exact Sbss]) (lib_name lib)]) (p_rodata st) (p_total_rodata st)).
Proof.
  intros Hok Hs. unfold place_sect, place_datas. rewrite decide_False, bind_Ret, Hs, bool_decide_eq_true_2 by done. cbn [andb].
  rewrite (proj2 (Hok Sdata)), (proj2 (Hok Sbss)). cbn [unwrap]. by rewrite !bind_Ret.
Qed.

Lemma place_sect_plain c lib k st : lib_ok sz lib -> k = Srodata \/ k = Sbss ->
  place_sect c lib k st = Ret (mkPlacing (p_loc st + sz (lib_name lib) k) (p_items st) (p_rodata st) (p_total_rodata st)).
Proof.
  intros Hok Hk. unfold place_sect. rewrite decide_False, bool_decide_eq_false_2, andb_false_r, !bind_Ret by (by destruct Hk; subst).
  rewrite (proj2 (Hok k)). cbn [unwrap]. by rewrite bind_Ret.
Qed.

(** What placing libraries adds to a state of a unikernel. *)
Definition grows (lo : Z) (st st' : Placing) (new : list (list input * string)) (r : Z) : Prop :=
  contents (p_items st') = contents (p_items st) ++ new /\ p_loc st <= p_loc st' <= p_loc st + r /\
  (chain sz lo (p_items st) (p_loc st) -> chain sz lo (p_items st') (p_loc st')).

Lemma place_lib_chain c objs lib lo st :
  lib_ok sz lib -> 0 <= p_loc st -> p_loc st + lib_room sz lib < MAX_EXACT ->
  exists st', place_lib c objs lib st = Ret st' /\
    grows lo st st' (if bool_decide (lib_name lib ∈ objs) then own_sections c lib else []) (lib_room sz lib).
Proof.
  intros Hok H0 Hlt. unfold place_lib, grows. pose proof (lib_room_nonneg lib Hok) as Hrn.
  case_bool_decide as Hin; [|exists st; rewrite app_nil_r; repeat split; try done; unfold PAGE_SIZE in *; lia].
  pose proof (Hok Stext) as [Hpt _]. pose proof (Hok Srodata) as [Hpr _]. pose proof (Hok Sdata) as [Hpd _]. pose proof (Hok Sbss) as [Hpb _]. unfold lib_room in *.
  pose proof (round_aligned (p_loc st)) as Hra. pose proof (round_page (p_loc st) ltac:(unfold PAGE_SIZE in *; lia)) as Hr.
  destruct (place_sect_text c lib st Hok) as (rod & tot & E). unfold own_sections. destruct (compact c) eqn:Hc; [|destruct (snapshot c) eqn:Hsn]; cbn [place_sects]; rewrite E, bind_Ret.
  - rewrite place_sect_plain, bind_Ret by auto. eexists. split; [reflexivity|]. cbn [p_items p_loc]. rewrite contents_app.
    split; [by destruct (dce_app c lib)|]. split; [lia|]. intros Hch. eapply chain_snoc; [exact Hch|lia|done|]. destruct (dce_app c lib); cbn [occupied]; lia.
  - rewrite place_sect_plain, bind_Ret by auto. rewrite place_sect_data, bind_Ret by done. rewrite place_sect_plain, bind_Ret by auto. cbn [p_items p_loc p_rodata p_total_rodata].
    remember (round_to_n (p_loc st) PAGE_SIZE + sz (lib_name lib) Stext + sz (lib_name lib) Srodata) as l1 eqn:El1.
    pose proof (round_aligned l1) as Hra1. pose proof (round_page l1 ltac:(unfold PAGE_SIZE in *; lia)) as Hr1.
    eexists. split; [reflexivity|]. cbn [p_items p_loc]. rewrite !contents_app, <- app_assoc. split; [by destruct (dce_app c lib)|]. split; [lia|]. intros Hch.
    eapply (chain_snoc _ _ l1); [|lia|done|destruct (dce_app c lib); cbn [occupied]; lia]. eapply chain_snoc; [exact Hch|lia|done|]. cbn [occupied]. lia.
  - eexists. split; [reflexivity|]. cbn [p_items p_loc]. rewrite contents_app. split; [done|]. split; [lia|]. intros Hch. eapply chain_snoc; [exact Hch|lia|done|]. cbn [occupied]. lia.
Qed.

Lemma place_libs_chain c objs libs lo st :
  Forall (lib_ok sz) libs -> 0 <= p_loc st -> p_loc st + room sz libs < MAX_EXACT ->
  exists st', place_libs c objs libs st = Ret st' /\
    grows lo st st' (List.filter (fun lib => bool_decide (lib_name lib ∈ objs)) libs ≫= own_sections c) (room sz libs).
Proof.
  intros Hl. revert st. induction Hl as [|lib libs Hok Hl IH]; intros st H0 Hlt; cbn [place_libs room foldr List.filter] in *.
  { exists st. split; [done|]. unfold grows. cbn. rewrite app_nil_r. repeat split; [lia..|done]. }
  fold (room sz libs) in *. pose proof (room_nonneg libs Hl) as Hrn. destruct (place_lib_chain c objs lib lo st Hok H0 ltac:(lia)) as (st1 & -> & Ec1 & Hb1 & Hc1). rewrite bind_Ret.
  destruct (IH st1) as (st' & -> & Ec & Hb & Hc); [lia|lia|]. exists st'. split; [done|]. split; [|split; [lia|auto]]. rewrite Ec, Ec1, <- app_assoc. f_equal. by case_bool_decide.
Qed.

Lemma list_max_ge l : l <> [] -> exists m, list_max l = Ret m /\ Forall (fun y => y <= m) l /\ m ∈ l.
Proof.
  destruct l as [|y l]; [done|]. intros _. eexists. split; [done|].
  assert (Hm : forall l z, z <= foldl Z.max z l /\ Forall (fun y => y <= foldl Z.max z l) l /\ foldl Z.max z l ∈ z :: l).
  { clear. induction l as [|w l IH]; intros z; cbn; [split; [lia|]; split; [done|by left]|].
    destruct (IH (Z.max z w)) as (H1 & H2 & H3). split; [lia|]. split; [constructor; [lia|done]|].
    apply elem_of_cons in H3 as [H3|H3]; [|by do 2 right]. destruct (Z.max_spec z w) as [[_ E]|[_ E]]; rewrite E in *; rewrite H3; [right; by left|by left]. }
  destruct (Hm l y) as (H1 & H2 & H3). split; [by constructor|done].
Qed.

Definition part (t : type_maps) (uk : Unikernel) : list item := match t with subset => uk_subset uk | individual_libs => uk_individual uk end.
Definition other (t : type_maps) : type_maps := match t with subset => individual_libs | individual_libs => subset end.

(** The unikernel has got those of the libraries that it has, in its part [t]. *)
Definition placed (c : Config) (t : type_maps) (libs : list UkLib) (lo hi : Z) (uk uk' : Unikernel) : Prop :=
  uk_name uk' = uk_name uk /\ objects uk' = objects uk /\ uk_total_size uk' = uk_total_size uk /\ part (other t) uk' = part (other t) uk /\
  contents (part t uk') = List.filter (uk_has uk) libs ≫= own_sections c /\ chain sz lo (part t uk') hi.

Lemma update_loc_counter_chain c uk libs t :
  Forall (lib_ok sz) libs -> part t uk = [] -> 0 <= uk_loc uk -> uk_loc uk + room sz libs < MAX_EXACT ->
  exists uk', update_loc_counter c uk libs t = Ret uk' /\ placed c t libs (uk_loc uk) (uk_loc uk') uk uk' /\ uk_loc uk <= uk_loc uk' <= uk_loc uk + room sz libs.
Proof.
  intros Hl Hpart H0 Hlt. unfold update_loc_counter. change (match t with subset => uk_subset uk | individual_libs => uk_individual uk end) with (part t uk). rewrite Hpart.
  match goal with |- context [place_libs c (objects uk) libs ?x] => destruct (place_libs_chain c (objects uk) libs (uk_loc uk) x Hl H0 Hlt) as (st & -> & Ec & Hb & Hch) end.
  rewrite bind_Ret. eexists. split; [done|]. cbn in Ec, Hb, Hch. split; [|destruct t; cbn; lia]. destruct t; repeat split; cbn; try done; apply Hch; lia.
Qed.

Lemma place_uks_chain c loc libs t uks :
  Forall (lib_ok sz) libs -> Forall (fun uk => part t uk = []) uks -> 0 <= loc -> loc + room sz libs < MAX_EXACT ->
  exists uks', place_uks c loc libs t uks = Ret uks' /\ Forall2 (fun uk uk' => placed c t libs loc (uk_loc uk') uk uk' /\ loc <= uk_loc uk' <= loc + room sz libs) uks uks'.
Proof.
  intros Hl Hp H0 Hlt. induction Hp as [|uk uks Hp _ IH]; cbn [place_uks]; [by exists []|]. destruct IH as (uks' & E & IH).
  destruct (update_loc_counter_chain c (with_loc uk loc) libs t Hl) as (uk' & -> & Hpl & Hb); [by destruct t|done|done|]. rewrite bind_Ret, E, bind_Ret. exists (uk' :: uks'). split; [done|].
  constructor; [|done]. split; [|done]. destruct Hpl as (H1 & H2 & H3 & H4 & H5). split; [done|]. split; [done|]. split; [done|]. split; [by destruct t|done].
Qed.

Lemma placed_mono c t libs lo hi lo' hi' uk uk' : lo' <= lo -> hi <= hi' -> placed c t libs lo hi uk uk' -> placed c t libs lo' hi' uk uk'.
Proof. intros Hlo Hhi (H1 & H2 & H3 & H4 & H5 & H6). repeat split; try done. by eapply chain_mono. Qed.

Lemma compute_loc_chain c loc uks libs t :
  uks <> [] -> Forall (lib_ok sz) libs -> Forall (fun uk => part t uk = []) uks -> 0 <= loc -> loc + PAGE_SIZE + room sz libs < MAX_EXACT ->
  exists loc' uks', compute_loc c loc uks libs t = Ret (loc', uks') /\ loc <= loc' <= loc + PAGE_SIZE + room sz libs /\ Forall2 (placed c t libs loc loc') uks uks'.
Proof.
  intros Hne Hl Hp H0 Hlt. unfold compute_loc. pose proof (room_nonneg libs Hl) as Hrn. destruct libs as [|lib0 libs0].
  { exists loc, uks. split; [done|]. split; [unfold PAGE_SIZE in *; lia|]. clear Hne. induction Hp as [|uk uks Hp _ IH]; constructor; [|done]. repeat split; rewrite ?Hp; cbn; try done; lia. }
  set (libs := lib0 :: libs0) in *. pose proof (round_page loc ltac:(unfold PAGE_SIZE in *; lia)) as Hr.
  destruct (place_uks_chain c (round_to_n loc PAGE_SIZE) libs t uks Hl Hp) as (uks' & -> & Hpl); [lia|lia|]. rewrite bind_Ret.
  destruct (list_max_ge (map uk_loc uks')) as (m & -> & Hm & Hin); [destruct Hpl; by cbn|]. rewrite bind_Ret. exists m, uks'. split; [done|]. rewrite Forall_fmap in Hm. split.
  - apply list_elem_of_fmap in Hin as (uk' & -> & (i & Hi)%list_elem_of_lookup). destruct (Forall2_lookup_r _ _ _ _ _ Hpl Hi) as (uk & _ & _ & Hb). lia.
  - apply Forall2_same_length_lookup. split; [by eapply Forall2_length|]. intros i uk uk' E E'. destruct (Forall2_lookup_lr _ _ _ _ _ _ Hpl E E') as [Hpu _].
    eapply placed_mono; [| |exact Hpu]; [lia|]. apply (Forall_lookup_1 _ _ _ _ Hm E').
Qed.
End Layout.

(** The data sections. *)
Lemma sized_room uk k : sized uk -> uk_total_size uk k = Some (uk_room uk k) /\ 0 <= uk_room uk k.
Proof. intros Hs. destruct (Hs k) as (n & E & Hn). unfold uk_room. by rewrite E. Qed.

Lemma sect_room_nonneg uks k : Forall sized uks -> 0 <= sect_room uks k.
Proof. unfold sect_room. induction 1 as [|uk uks Hs _ IH]; cbn [foldr]; [lia|]. destruct (sized_room uk k Hs). lia. Qed.

Lemma data_room_nonneg uks ks : Forall sized uks -> 0 <= data_room uks ks.
Proof. intros Hs. unfold data_room. induction ks as [|k ks IH]; cbn [foldr]; [lia|]. pose proof (sect_room_nonneg uks k Hs). assert (0 < PAGE_SIZE) by done. lia. Qed.

Lemma total_sizes_ok uks k : Forall sized uks ->
  exists l, total_sizes k uks = Ret l /\ Forall2 (fun uk n => uk_total_size uk k = Some n /\ 0 <= n <= sect_room uks k) uks l.
Proof.
  induction 1 as [|uk uks Hs Hss IH]; cbn [total_sizes]; [by exists []|]. destruct (sized_room uk k Hs) as [E Hn]. destruct IH as (l & -> & Hl). rewrite E. cbn [unwrap]. rewrite !bind_Ret.
  pose proof (sect_room_nonneg uks k Hss) as Hr. exists (uk_room uk k :: l). split; [done|]. cbn [sect_room foldr]. fold (sect_room uks k).
  constructor; [split; [done|lia]|]. eapply Forall2_impl; [exact Hl|]. cbn. intros u m (E' & Hm). split; [done|]. lia.
Qed.

Lemma place_data_chain c loc uks ds :
  uks <> [] -> aligned loc -> 0 <= loc -> Forall sized uks -> loc + data_room uks ds < MAX_EXACT ->
  exists hi l, place_data c loc uks ds = Ret (hi, l) /\ l.*1 = ds /\ aligned hi /\ loc <= hi <= loc + data_room uks ds /\
    Forall (fun uk => data_chain (uk_total_size uk) loc l hi) uks.
Proof.
  intros Hne Hal H0 Hn. revert loc Hal H0. induction ds as [|k ds IH]; intros loc Hal H0 Hlt.
  { eexists _, _. split; [done|]. split; [done|]. split; [done|]. split; [cbn; lia|]. apply Forall_true. cbn. lia. }
  cbn [place_data data_room foldr] in *. fold (data_room uks ds) in *. pose proof (data_room_nonneg uks ds Hn) as Hdr. pose proof (sect_room_nonneg uks k Hn) as Hsr. set (loc0 := if _ : bool then _ else loc).
  assert (loc <= loc0 <= loc + PAGE_SIZE /\ aligned loc0) as [Hle Hal0].
  { unfold loc0. destruct (dce c && _); [|split; [unfold PAGE_SIZE; lia|done]]. split; [unfold PAGE_SIZE; lia|by apply aligned_page]. }
  destruct (total_sizes_ok uks k Hn) as (sl & -> & Hsl). rewrite bind_Ret. destruct (list_max_ge sl) as (m & -> & Hm & Hin); [intros ->; by apply Forall2_nil_inv_r in Hsl|]. rewrite bind_Ret.
  assert (Hmr : 0 <= m <= sect_room uks k). { apply list_elem_of_lookup in Hin as [i Hi]. by destruct (Forall2_lookup_r _ _ _ _ _ Hsl Hi) as (uk & _ & _ & Hb). }
  assert (HP : PAGE_SIZE = 4096) by done. pose proof (round_page m ltac:(lia)) as Hr.
  destruct (IH (loc0 + round_to_n m PAGE_SIZE)) as (hi & l & -> & El & Hhi & Hb & Hl); [by apply aligned_add_round|lia|lia|].
  rewrite bind_Ret. eexists _, _. split; [done|]. cbn [fst snd fmap list_fmap]. split; [f_equal; exact El|]. split; [done|]. split; [lia|].
  apply Forall_lookup_2. intros i uk Ei. destruct (Forall2_lookup_l _ _ _ _ _ Hsl Ei) as (n & Ein & En & Hnb). pose proof (Forall_lookup_1 _ _ _ _ Hm Ein) as Hnm. cbn in Hnm.
  pose proof (Forall_lookup_1 _ _ _ _ Hl Ei) as Hc. cbn [data_chain]. split; [lia|]. split; [done|]. exists n. split; [done|].
  destruct l as [|[k' a] l]; cbn [data_chain] in *; [lia|]. destruct Hc as (? & ? & ?). split; [lia|done].
Qed.

Lemma Forall_sorted {A} (le : A -> A -> bool) (P : A -> Prop) l : Forall P l -> Forall P (sorted le l).
Proof.
  unfold sorted. induction 1 as [|x l Hx Hl IH]; cbn; [done|].
  induction IH as [|y l' Hy Hl' IH']; cbn; [by apply Forall_singleton|].
  destruct (le x y); rewrite ?Forall_cons; done.
Qed.

Lemma room_insert sz le x l : room sz (insert_sorted le x l) = lib_room sz x + room sz l.
Proof. induction l as [|y l IH]; [done|]. cbn [insert_sorted]. destruct (le x y); [done|]. unfold room in *. cbn [foldr] in *. lia. Qed.
Lemma room_sorted sz le l : room sz (sorted le l) = room sz l.
Proof. unfold sorted. induction l as [|x l IH]; [done|]. cbn [foldr]. rewrite room_insert, IH. done. Qed.

(** ** Theorems *)

(** The parts of a unikernel after both kinds of libraries were placed. *)
Lemma libraries_chain sz c lo loc0 loc1 loc2 hi com uks uks1 uks2 subs inds :
  chain sz lo com loc0 -> Forall2 (placed sz c subset subs loc0 loc1) uks uks1 -> Forall2 (placed sz c individual_libs inds loc1 loc2) uks1 uks2 -> loc2 <= hi ->
  Forall2 (fun uk uk' => uk_name uk' = uk_name uk /\ uk_total_size uk' = uk_total_size uk /\
    contents (uk_subset uk') = List.filter (uk_has uk) subs ≫= own_sections c /\ contents (uk_individual uk') = List.filter (uk_has uk) inds ≫= own_sections c /\
    chain sz lo (com ++ uk_subset uk' ++ uk_individual uk') hi) uks uks2.
Proof.
  intros Hcom Hu1 Hu2 Hhi. apply Forall2_same_length_lookup. split.
  - by rewrite (Forall2_length _ _ _ Hu1), (Forall2_length _ _ _ Hu2).
  - intros i uk uk2 E E2.
    destruct (Forall2_lookup_l _ _ _ _ _ Hu1 E) as (uk1 & E1 & N1 & O1 & T1 & P1 & C1 & Hc1).
    destruct (Forall2_lookup_lr _ _ _ _ _ _ Hu2 E1 E2) as (N2 & O2 & T2 & P2 & C2 & Hc2). cbn [part other] in *.
    assert (Hhas : uk_has uk1 = uk_has uk) by (unfold uk_has; by rewrite O1). rewrite Hhas in C2.
    split; [congruence|]. split; [congruence|]. split; [congruence|]. split; [done|]. rewrite P2.
    eapply chain_app; [exact Hcom|]. eapply chain_app; [exact Hc1|]. eapply chain_mono; [| |exact Hc2]; lia.
Qed.

Lemma same_sizes uks uks' ks : uk_total_size <$> uks' = uk_total_size <$> uks -> Forall sized uks -> Forall sized uks' /\ data_room uks' ks = data_room uks ks.
Proof.
  intros E Hs. split.
  - assert (Hf : Forall (fun sz : sizes => forall k, exists n, sz k = Some n /\ 0 <= n) (uk_total_size <$> uks')) by (rewrite E; apply Forall_fmap; exact Hs). apply Forall_fmap in Hf. exact Hf.
  - assert (Hr : forall us k, sect_room us k = foldr (fun (sz : sizes) n => default 0 (sz k) + n) 0 (uk_total_size <$> us)) by (intros us k; unfold sect_room; induction us as [|u us IH]; [done|]; cbn; by rewrite IH).
    unfold data_room. induction ks as [|k ks IH]; [done|]. cbn [foldr]. by rewrite IH, !Hr, E.
Qed.

(** C3: the aligner's layout.  Without grouping, from a page-aligned location, for
    unikernels and libraries whose sizes are known and addresses that stay below [2^53], the
    layout is computed.  The three constructor pages come first.  Then come, in every
    unikernel, an entry for each common library (one list, at the same addresses in all of
    them), for each of the subset libraries that it has, and for each of the individual
    libraries that it has: exactly these, with the input sections the options ask for, at
    page-aligned addresses in increasing order and, as far as the recorded sizes go,
    without overlap.  Except for snapshots, the data sections follow at addresses common to
    all unikernels, each with room for the largest one, and the interrupt stack after them. *)
Theorem layout_sound sz c loc uks p :
  group_common c = false -> uks <> [] -> aligned loc -> 0 <= loc ->
  Forall (lib_ok sz) (common_to_all p ++ common_subset p ++ individual p) -> Forall fresh_uk uks ->
  loc + 8 * PAGE_SIZE + room sz (common_to_all p ++ common_subset p ++ individual p) + data_room uks [Srodata; Sdata; Sbss] < MAX_EXACT ->
  exists L data_lo, update_link_file_spacer c loc uks p = Ret L /\
    l_ctors L = loc /\ l_init_array L = loc + PAGE_SIZE /\ l_ectors L = loc + 2 * PAGE_SIZE /\
    contents (l_common L) = common_to_all p ≫= common_sections c /\ (l_sects L).*1 = (if snapshot c then [] else data_sections c) /\
    Forall2 (fun uk uk' => uk_name uk' = uk_name uk /\ uk_total_size uk' = uk_total_size uk /\
      contents (uk_subset uk') = List.filter (uk_has uk) (sorted occurence_ge (common_subset p)) ≫= own_sections c /\
      contents (uk_individual uk') = List.filter (uk_has uk) (individual p) ≫= own_sections c /\
      chain sz (loc + 3 * PAGE_SIZE) (l_common L ++ uk_subset uk' ++ uk_individual uk') data_lo /\
      data_chain (uk_total_size uk') data_lo (l_sects L) (l_intrstack L)) uks (l_uks L).
Proof.
  intros Hg Hne Hal H0 Hlibs Hfresh Hlt. rewrite !Forall_app in Hlibs. destruct Hlibs as (Hall & Hsub & Hind). rewrite !room_app in Hlt. assert (HP : PAGE_SIZE = 4096) by done.
  assert (Hsz : Forall sized uks) by (eapply Forall_impl; [exact Hfresh|]; by intros uk (_ & _ & Hs)).
  pose proof (room_nonneg sz _ Hall) as R1. pose proof (room_nonneg sz _ Hsub) as R2. pose proof (room_nonneg sz _ Hind) as R3. pose proof (data_room_nonneg uks [Srodata; Sdata; Sbss] Hsz) as R4.
  unfold update_link_file_spacer, process_common_to_all.
  destruct (common_loop_chain sz c (mkManager (loc + PAGE_SIZE + PAGE_SIZE + PAGE_SIZE) [] 0) (common_to_all p) Hg Hall) as (m & com & -> & Ecom & Hcom & Hm & Hmb); cbn [loc_counter]; [by repeat apply aligned_page|lia..|]. cbn [loc_counter] in Hcom, Hmb.
  rewrite !bind_Ret, Hg. cbn [fst snd].
  destruct (compute_loc_chain sz c (loc_counter m) uks (sorted occurence_ge (common_subset p)) subset Hne (Forall_sorted _ _ _ Hsub)) as (loc1 & uks1 & -> & Hb1 & Hu1);
    [eapply Forall_impl; [exact Hfresh|]; by intros uk (Hs & _)|lia|rewrite room_sorted; lia|]. rewrite bind_Ret. cbn [fst snd]. rewrite room_sorted in Hb1.
  assert (Hne1 : uks1 <> []) by (intros ->; apply Forall2_nil_inv_r in Hu1; done).
  destruct (compute_loc_chain sz c loc1 uks1 (individual p) individual_libs Hne1 Hind) as (loc2 & uks2 & -> & Hb2 & Hu2); [|lia|lia|].
  { apply Forall_lookup_2. intros i uk1 E1. destruct (Forall2_lookup_r _ _ _ _ _ Hu1 E1) as (uk & E & _ & _ & _ & P & _). cbn [part other] in P. cbn [part]. rewrite P. by apply (Forall_lookup_1 _ _ _ _ Hfresh E). }
  rewrite bind_Ret. cbn [fst snd]. pose proof (round_aligned loc2) as Hra. pose proof (round_page loc2 ltac:(lia)) as Hr. remember (round_to_n loc2 PAGE_SIZE) as dlo.
  pose proof (libraries_chain sz c _ _ _ _ dlo com uks uks1 uks2 _ _ Hcom Hu1 Hu2 ltac:(lia)) as Hu. replace (loc + PAGE_SIZE + PAGE_SIZE + PAGE_SIZE) with (loc + 3 * PAGE_SIZE) in Hu by lia.
  assert (Esz : uk_total_size <$> uks2 = uk_total_size <$> uks).
  { clear -Hu. induction Hu as [|uk uk' us us' (_ & E & _) _ IH]; [done|]. cbn. by rewrite E, IH. }
  destruct (same_sizes uks uks2 (data_sections c) Esz Hsz) as [Hsz2 Edr].
  assert (Hdr : data_room uks (data_sections c) <= data_room uks [Srodata; Sdata; Sbss]).
  { unfold data_sections. destruct (compact c); [|lia]. pose proof (sect_room_nonneg uks Srodata Hsz). cbn [data_room foldr]. lia. }
  destruct (snapshot c) eqn:Hsn.
  - rewrite bind_Ret. eexists _, dlo. split; [done|]. cbn [l_ctors l_init_array l_ectors l_uks l_sects l_common l_intrstack fst snd]. do 2 (split; [done|]). split; [lia|]. do 2 (split; [done|]).
    eapply Forall2_impl; [exact Hu|]. intros uk uk' (? & ? & ? & ? & ?). split_and!; try done. cbn. lia.
  - destruct (place_data_chain c dlo uks2 (data_sections c)) as (hi & l & -> & El & Hhi & Hbh & Hl); [by intros ->; apply Forall2_nil_inv_r in Hu|done|lia|done|lia|]. rewrite !bind_Ret. cbn [fst snd].
    eexists _, dlo. split; [done|]. cbn [l_ctors l_init_array l_ectors l_uks l_sects l_common l_intrstack fst snd]. do 2 (split; [done|]). split; [lia|]. do 2 (split; [done|]).
    apply Forall2_same_length_lookup. split; [by eapply Forall2_length|]. intros i uk uk' E E'. destruct (Forall2_lookup_lr _ _ _ _ _ _ Hu E E') as (? & ? & ? & ? & ?). split_and!; try done.
    pose proof (Forall_lookup_1 _ _ _ _ Hl E') as Hd. pose proof (round_page hi ltac:(lia)). eapply data_chain_mono; [|exact Hd]. lia.
Qed.

(** Three unikernels: [libc] in all, [liblwip] in the first and third, [libvfs]
    in the first and second, and an application each. *)
Definition libsize (text rodata data bss : Z) : sizes :=
  fun k => Some (match k with Stext => text | Srodata => rodata | Sdata => data | Sbss => bss end).
Definition sample_uk (name : string) (objs : list string) : Unikernel :=
  mkUnikernel name None objs (libsize 9000 3000 5000 100) 0 [] [] [] 0.
Definition sample_uks : list Unikernel :=
  [sample_uk "a" ["libc"; "libvfs"; "liblwip"; "appa"];
   sample_uk "b" ["libc"; "libvfs"; "appb"];
   sample_uk "c" ["libc"; "liblwip"; "appc"]].
Definition sample_libs : list UkLib :=
  [mkUkLib "libc" false (libsize 9000 10 20 30) 3; mkUkLib "libvfs" false (libsize 5000 10 20 30) 2;
   mkUkLib "liblwip" false (libsize 5000 10 20 30) 2; mkUkLib "appa" false (libsize 5 0 0 0) 1;
   mkUkLib "appb" false (libsize 5 0 0 0) 1; mkUkLib "appc" false (libsize 5 0 0 0) 1].
Definition sample_sizes (name : string) (k : sect) : Z :=
  match List.find (fun l => String.eqb (lib_name l) name) sample_libs with
  | Some l => default 0 (lib_size l k)
  | None => 0
  end.
Definition sample_config : Config := mkConfig false true false true.
Definition sample_partition : Partition := process_maps sample_libs 3.

Lemma layout_sound_witness :
  exists L data_lo, update_link_file_spacer sample_config 1093632 sample_uks sample_partition = Ret L /\
    l_ctors L = 1093632 /\ l_init_array L = 1093632 + PAGE_SIZE /\ l_ectors L = 1093632 + 2 * PAGE_SIZE /\
    contents (l_common L) = common_to_all sample_partition ≫= common_sections sample_config /\
    (l_sects L).*1 = (if snapshot sample_config then [] else data_sections sample_config) /\
    Forall2 (fun uk uk' => uk_name uk' = uk_name uk /\ uk_total_size uk' = uk_total_size uk /\
      contents (uk_subset uk') = List.filter (uk_has uk) (sorted occurence_ge (common_subset sample_partition)) ≫= own_sections sample_config /\
      contents (uk_individual uk') = List.filter (uk_has uk) (individual sample_partition) ≫= own_sections sample_config /\
      chain sample_sizes (1093632 + 3 * PAGE_SIZE) (l_common L ++ uk_subset uk' ++ uk_individual uk') data_lo /\
      data_chain (uk_total_size uk') data_lo (l_sects L) (l_intrstack L)) sample_uks (l_uks L).
Proof.
  apply (layout_sound sample_sizes sample_config 1093632 sample_uks sample_partition).
  - reflexivity.
  - discriminate.
  - reflexivity.
  - lia.
  - repeat (apply Forall_cons_2; [intros k; destruct k; split; vm_compute; [discriminate|reflexivity| ..]; done|]).
    apply Forall_nil_2.
  - unfold sample_uks, fresh_uk, sized. rewrite !Forall_cons, Forall_nil.
    split_and!; try done; intros k; destruct k; by eexists.
  - vm_compute. reflexivity.
Defined.

(** The addresses of that layout: the application of the first unikernel takes the sections
    that dead code elimination keeps apart. *)
Example sample_layout :
  match update_link_file_spacer sample_config 1093632 sample_uks sample_partition with
  | Ret L => (l_common L, map uk_subset (l_uks L), map uk_individual (l_uks L), l_sects L, l_intrstack L) =
      ([Placed 0x10e000 [Exact Stext; Exact Srodata] "libc"],
       [[Placed 0x111000 [Exact Stext; Exact Srodata] "libvfs"; Placed 0x113000 [Exact Stext; Exact Srodata] "liblwip"];
        [Placed 0x111000 [Exact Stext; Exact Srodata] "libvfs"];
        [Placed 0x111000 [Exact Stext; Exact Srodata] "liblwip"]],
       [[Placed 0x115000 [Exact Stext; Star Stext; Exact Srodata; Star Srodata] "appa"];
        [Placed 0x115000 [Exact Stext; Star Stext; Exact Srodata; Star Srodata] "appb"];
        [Placed 0x115000 [Exact Stext; Star Stext; Exact Srodata; Star Srodata] "appc"]],
       [(Sdata, 0x116000); (Sbss, 0x119000)], 0x11a000)
  | Panic => False
  end.
Proof. vm_compute. reflexivity. Qed.

(** The address of a library in a unikernel's script. *)
Definition addr_of (lib : string) (l : list item) : option Z :=
  match List.find (fun i => match i with Placed _ _ n => String.eqb n lib | _ => false end) l with
  | Some (Placed a _ _) => Some a
  | _ => None
  end.

(** A library that only some of the unikernels share is placed after the other
    such libraries of the same unikernel, so two unikernels that share it can have it
    at different addresses. *)
Theorem subset_addresses_differ :
  match update_link_file_spacer sample_config 1093632 sample_uks sample_partition with
  | Ret L => exists a b, map (fun uk => addr_of "liblwip" (uk_subset uk)) (l_uks L) = [Some a; None; Some b]
                         /\ a <> b
  | Panic => False
  end.
Proof. vm_compute. eexists _, _. split; [reflexivity|discriminate]. Qed.

(** Aligning for snapshots with compact sections never places the data
    and bss sections of the libraries a unikernel does not share with all others. *)
Theorem compact_snapshot_drops_data c lib : compact c = true ->
  Forall (fun e : list input * string => Exact Sdata ∉ e.1 /\ Exact Sbss ∉ e.1) (own_sections c lib).
Proof.
  intros Hc. unfold own_sections. rewrite Hc. apply Forall_singleton. cbn [fst].
  destruct (dce_app c lib); cbn; rewrite !not_elem_of_cons; repeat split; try done; apply not_elem_of_nil.
Qed.

(** Aligning for snapshots without compact sections leaves out the bss of the libraries that
    all unikernels share, though it counts its size. *)
Theorem plain_snapshot_drops_bss c lib : compact c = false ->
  Forall (fun e : list input * string => Exact Sbss ∉ e.1) (common_sections c lib).
Proof.
  intros Hc. unfold common_sections. rewrite Hc. destruct (snapshot c); rewrite ?Forall_cons, ?Forall_nil; cbn [fst]; rewrite ?not_elem_of_cons; repeat split; try done; apply not_elem_of_nil.
Qed.

(** Grouping the common libraries without compact sections raises an
    [IndexError] as soon as there is a common library whose size is known. *)
Theorem group_without_compact_fails c self lib libs ectors n :
  group_common c = true -> compact c = false -> lib_size lib Stext = Some n ->
  process_common_to_all c self (lib :: libs) ectors = Panic.
Proof. intros Hg Hc Hn. unfold process_common_to_all. cbn [common_loop]. rewrite Hc. unfold compute_common_loc, common_item. cbn. rewrite Hn. cbn. by rewrite Hg. Qed.

Lemma group_without_compact_fails_witness :
  process_common_to_all (mkConfig true false false false) (mkManager 0 [] 0) sample_libs 8192 = Panic.
Proof. apply (group_without_compact_fails (mkConfig true false false false) _ _ _ _ 9000); reflexivity. Defined.

(** Sections such as [.text.hot] are placed with the text of a library, but the size recorded
    for it, by which the counter moves on, is that of [.text] alone. *)
Theorem star_sections_not_counted :
  let lib := (process_file (sample_uk "a" []) "libc.o" (mkObjFile false (fun n => if String.eqb n ".text" then Some 16 else None) [(".text", 16); (".text.hot", 8192)])).2 in
  lib_name lib = "libc" /\ lib_size lib Stext = Some 16 /\
  own_sections (mkConfig false false false false) lib = [([Exact Stext; Star Stext], "libc")].
Proof. vm_compute. done. Qed.
