(* ===== verification/AlignerTable.v ===== *)
(** * The library table of the aligner

    Reading the build folders of all unikernels gives a table of libraries with the largest
    size of each section and the number of unikernels that have them; the libraries placed
    as common to all are those that every unikernel has ([common_to_all_exact]). *)

From Stdlib Require Import ZArith Lia Ascii.
From stdpp Require Import functions prelude strings.
From S2P Require Import Prelude Aligner.

(** The table after reading the build folders of all unikernels, and the unikernels. *)
Fixpoint build_table (dce0 : bool) (copied : string -> obj_file) (folders : list (Unikernel * list (string * obj_file))) (gm : list UkLib) : exec (list UkLib) :=
  match folders with
  | [] => Ret gm
  | (uk, files) :: folders => r ← process_build_folder dce0 copied uk files gm; build_table dce0 copied folders r.2
  end.

(** The libraries of a build folder. *)
Definition lib_names (files : list (string * obj_file)) : list string := before OBJ_EXT <$> List.filter is_library files.*1.

(** How many unikernels the table says have the library; 0 for none. *)
Definition occurences (name : string) (l : list UkLib) : Z :=
  match List.find (fun x => String.eqb (lib_name x) name) l with
  | Some x => occurence x
  | None => 0
  end.

(** An object file with sections; the executable of a unikernel is not read as a library. *)
Definition usable (f : obj_file) : Prop := o_exec f = false /\ o_sections f <> [].
Definition full (s : sizes) : Prop := forall k, is_Some (s k).

Lemma set_size_full k v s : full s -> full (set_size k v s).
Proof. intros Hs k'. unfold set_size. case_decide; [by eexists|apply Hs]. Qed.

Lemma process_sects_lib size l uk lib : is_exec lib = false ->
  let r := process_sects size l (uk, lib) in
  lib_name r.2 = lib_name lib /\ occurence r.2 = occurence lib /\ forall k, k ∈ l \/ is_Some (lib_size lib k) -> is_Some (lib_size r.2 k).
Proof.
  revert uk lib. induction l as [|k l IH]; intros uk lib Hx; cbn [process_sects].
  - cbn. split; [done|]. split; [done|]. intros k [Hk|Hk]; [by apply elem_of_nil in Hk|done].
  - cbn [fst snd]. unfold increment_sect. rewrite Hx. match goal with |- context [process_sects size l (?u, ?b)] => destruct (IH u b) as (H1 & H2 & H3) end; [done|].
    cbn in H1, H2. split; [done|]. split; [done|]. intros k' Hk. apply H3. cbn [lib_size]. unfold set_size. destruct (decide (k' = k)); [right; by eexists|].
    destruct Hk as [Hk|Hk]; [|by right]. apply elem_of_cons in Hk as [Hk|Hk]; [done|by left].
Qed.

Lemma read_lib size uk name f : usable f ->
  let r := process_sects size all_sects (uk, UkLib_new name (o_exec f)) in lib_name r.2 = before OBJ_EXT name /\ occurence r.2 = 1 /\ full (lib_size r.2).
Proof.
  intros [Hx _]. destruct (process_sects_lib size all_sects uk (UkLib_new name (o_exec f)) Hx) as (H1 & H2 & H3). split; [done|]. split; [done|]. intros k. apply H3. left. by destruct k; repeat constructor.
Qed.

Lemma update_sizes_full l self new : full self -> exists s, update_sizes l self new = Ret s /\ full s.
Proof.
  revert self. induction l as [|k l IH]; intros self Hs; cbn [update_sizes]; [by exists self|]. destruct (new k) as [v|]; [|by apply IH].
  destruct (Hs k) as [o Eo]. rewrite Eo. cbn [unwrap]. rewrite bind_Ret. apply IH. destruct (o <? v); [by apply set_size_full|done].
Qed.

(** Adding one library to the table. *)
Lemma global_add_spec lib l : occurence lib = 1 -> full (lib_size lib) -> Forall (fun x => full (lib_size x)) l -> NoDup (map lib_name l) ->
  exists l', global_add lib l = Ret l' /\ Forall (fun x => full (lib_size x)) l' /\ NoDup (map lib_name l') /\
    (forall n, n ∈ map lib_name l' <-> n = lib_name lib \/ n ∈ map lib_name l) /\
    forall n, occurences n l' = occurences n l + if String.eqb (lib_name lib) n then 1 else 0.
Proof.
  intros H1 Hlib Hf. induction Hf as [|x l Hx Hf IH]; intros Hnd; cbn [global_add].
  { exists [lib]. split; [done|]. split; [by constructor|]. split; [cbn; by apply NoDup_singleton|]. split; [intros n; cbn; rewrite list_elem_of_singleton, elem_of_nil; tauto|].
    intros n. unfold occurences. cbn. by destruct (String.eqb (lib_name lib) n). }
  cbn in Hnd. apply NoDup_cons in Hnd as [Hnx Hnd]. destruct (String.eqb_spec (lib_name x) (lib_name lib)) as [E|E].
  - unfold UkLib_update. destruct (update_sizes_full all_sects (lib_size x) (lib_size lib) Hx) as (s & -> & Hs). rewrite !bind_Ret. eexists. split; [done|].
    split; [by constructor|]. split; [cbn; by apply NoDup_cons|]. split; [intros n; cbn; rewrite !elem_of_cons, E; tauto|].
    intros n. unfold occurences. cbn. rewrite <- E. destruct (String.eqb (lib_name x) n); cbn; lia.
  - destruct (IH Hnd) as (l' & -> & Hf' & Hnd' & Hin & Ho). rewrite bind_Ret. eexists. split; [done|]. split; [by constructor|]. split; [|split].
    + cbn. apply NoDup_cons. split; [|done]. rewrite Hin. intros [?|?]; [congruence|done].
    + intros n. cbn. rewrite !elem_of_cons, Hin. tauto.
    + intros n. specialize (Ho n). unfold occurences in *. cbn. destruct (String.eqb_spec (lib_name x) n) as [E'|E']; [|done].
      destruct (String.eqb_spec (lib_name lib) n); [congruence|lia].
Qed.

Section Folders.
Context (dce0 : bool) (copied : string -> obj_file).
Hypothesis copied_usable : forall n, usable (copied n).

Definition folder_ok (files : list (string * obj_file)) : Prop := NoDup (lib_names files) /\ Forall (fun e : string * obj_file => usable e.2) files.
Definition table_ok (gm : list UkLib) : Prop := Forall (fun x => full (lib_size x)) gm /\ NoDup (map lib_name gm).

(** Reading one folder. *)
Lemma folder_table uk files gm : folder_ok files -> table_ok gm ->
  exists uk' gm', process_build_folder dce0 copied uk files gm = Ret (uk', gm') /\ table_ok gm' /\
    (forall n, n ∈ map lib_name gm' <-> n ∈ lib_names files \/ n ∈ map lib_name gm) /\
    forall n, occurences n gm' = occurences n gm + if bool_decide (n ∈ lib_names files) then 1 else 0.
Proof.
  unfold folder_ok, lib_names. revert uk gm. induction files as [|[lib f] files IH]; intros uk gm [Hnd Hu] Hgm; cbn [process_build_folder].
  { exists uk, gm. split; [done|]. split; [done|]. cbn. split; [intros n; rewrite elem_of_nil; tauto|]. intros n. rewrite bool_decide_eq_false_2 by apply not_elem_of_nil. lia. }
  apply Forall_cons in Hu as [Hf Hu]. cbn [fmap list_fmap List.filter fst] in *. destruct (is_library lib); [|by apply IH]. cbn [fmap list_fmap] in Hnd. apply NoDup_cons in Hnd as [Hnew Hnd].
  assert (Hr : exists r, (if dce0 && contains "app" (remove_ext lib) then process_file_dce uk lib (copied lib) else Ret (process_file uk lib f)) = Ret r /\
    lib_name r.2 = before OBJ_EXT lib /\ occurence r.2 = 1 /\ full (lib_size r.2)).
  { destruct (dce0 && _); [|eexists; split; [done|]; by apply read_lib]. unfold process_file_dce. destruct (copied_usable lib) as [Hx Hs]. destruct (o_sections (copied lib)) eqn:Es; [done|].
    eexists. split; [done|]. apply (read_lib (section_total (copied lib)) uk lib (copied lib)). by split; [|rewrite Es]. }
  destruct Hr as (r & -> & En & Eo & Hfull). rewrite bind_Ret. destruct (global_add_spec r.2 gm Eo Hfull (proj1 Hgm) (proj2 Hgm)) as (gm1 & -> & Hf1 & Hnd1 & Hin1 & Ho1). rewrite bind_Ret.
  destruct (IH r.1 gm1 (conj Hnd Hu) (conj Hf1 Hnd1)) as (uk' & gm' & -> & Hgm' & Hin & Ho). exists uk', gm'. split; [done|]. split; [done|]. split.
  - intros n. rewrite Hin, Hin1, En. cbn [fmap list_fmap]. rewrite elem_of_cons. tauto.
  - intros n. rewrite Ho, Ho1, En. cbn [fmap list_fmap]. destruct (String.eqb_spec (before OBJ_EXT lib) n) as [<-|Hne].
    + rewrite bool_decide_eq_false_2, bool_decide_eq_true_2 by (try done; by left). lia.
    + rewrite (bool_decide_ext (n ∈ before OBJ_EXT lib :: (before OBJ_EXT <$> List.filter is_library files.*1)) (n ∈ before OBJ_EXT <$> List.filter is_library files.*1)); [lia|].
      rewrite elem_of_cons. intuition congruence.
Qed.

Lemma build_table_from folders gm : Forall (fun f : Unikernel * list (string * obj_file) => folder_ok f.2) folders -> table_ok gm ->
  exists gm', build_table dce0 copied folders gm = Ret gm' /\ table_ok gm' /\
    (forall n, n ∈ map lib_name gm' <-> (exists f, f ∈ folders /\ n ∈ lib_names f.2) \/ n ∈ map lib_name gm) /\
    forall n, occurences n gm' = occurences n gm + Z.of_nat (length (List.filter (fun f : Unikernel * list (string * obj_file) => bool_decide (n ∈ lib_names f.2)) folders)).
Proof.
  intros Hf. revert gm. induction Hf as [|[uk files] folders Hf _ IH]; intros gm Hgm; cbn [build_table].
  { exists gm. split; [done|]. split; [done|]. split; [|intros n; cbn; lia]. intros n. split; [by right|]. intros [(f & Hin & _)|Hn]; [by apply elem_of_nil in Hin|done]. }
  destruct (folder_table uk files gm Hf Hgm) as (uk' & gm1 & -> & Hgm1 & Hin1 & Ho1). rewrite bind_Ret. cbn [snd].
  destruct (IH gm1 Hgm1) as (gm' & -> & Hgm' & Hin & Ho). exists gm'. split; [done|]. split; [done|]. split.
  - intros n. rewrite Hin, Hin1. split.
    + intros [(f & Hf' & Hn)|[Hn|Hn]]; [left; exists f; by split; [right|]|left; exists (uk, files); by split; [left|]|by right].
    + intros [(f & [-> |Hf']%elem_of_cons & Hn)|Hn]; [right; by left|left; by exists f|by do 2 right].
  - intros n. rewrite Ho, Ho1. cbn [List.filter snd]. case_bool_decide; cbn [length]; lia.
Qed.
End Folders.

Lemma find_In_unique (l : list UkLib) lib :
  NoDup (map lib_name l) -> lib ∈ l -> occurences (lib_name lib) l = occurence lib.
Proof.
  unfold occurences. induction l as [|x l IH]; cbn; [by intros _ ?%elem_of_nil|].
  intros [Hx Hnd]%NoDup_cons [->|Hin]%elem_of_cons; [by rewrite String.eqb_refl|].
  destruct (String.eqb_spec (lib_name x) (lib_name lib)) as [E|]; [|by apply IH].
  destruct Hx. rewrite E. by apply (list_elem_of_fmap_2 lib_name).
Qed.

Lemma filter_length_all {A} (p : A -> bool) l :
  length (List.filter p l) = length l <-> forall x, x ∈ l -> p x = true.
Proof.
  induction l as [|x l IH]; cbn; [split; [by intros _ x ?%elem_of_nil|done]|].
  pose proof (filter_length_le p l). destruct (p x) eqn:E; cbn.
  - split.
    + intros Hl y [->|Hy]%elem_of_cons; [done|]. apply IH; [lia|done].
    + intros Hp. f_equal. apply IH. intros y Hy. apply Hp. by right.
  - split; [lia|]. intros Hp. rewrite Hp in E; [done|by left].
Qed.

(** The partition.  The build folders of all unikernels can be read, and the libraries
    placed as common to all are then exactly those that every unikernel has. *)
Theorem common_to_all_exact dce0 copied folders name :
  (forall n, usable (copied n)) -> folders <> [] -> Forall (fun f : Unikernel * list (string * obj_file) => folder_ok f.2) folders ->
  exists gm, build_table dce0 copied folders [] = Ret gm /\
    (name ∈ map lib_name (common_to_all (process_maps gm (Z.of_nat (length folders)))) <-> forall f, f ∈ folders -> name ∈ lib_names f.2).
Proof.
  intros Hc Hne Hf. destruct (build_table_from dce0 copied Hc folders [] Hf) as (gm & E & [_ H1] & H2 & H3); [split; [done|cbn; by apply NoDup_nil_2]|]. exists gm. split; [done|].
  pose proof (filter_length_all (fun f : Unikernel * list (string * obj_file) => bool_decide (name ∈ lib_names f.2)) folders) as Hall.
  assert ((forall f, f ∈ folders -> name ∈ lib_names f.2) <->
          length (List.filter (fun f : Unikernel * list (string * obj_file) => bool_decide (name ∈ lib_names f.2)) folders) = length folders) as ->.
  { rewrite Hall. apply forall_proper. intros f. by rewrite bool_decide_eq_true. }
  specialize (H3 name). change (occurences name []) with 0 in H3. unfold process_maps. cbn [common_to_all]. split.
  - intros (lib & -> & Hin)%list_elem_of_fmap. apply list_elem_of_In, filter_In in Hin as [Hin Ho%Z.eqb_eq].
    apply list_elem_of_In in Hin. rewrite (find_In_unique _ _ H1 Hin) in H3. lia.
  - intros Hlen. assert (name ∈ map lib_name gm) as Hin.
    { apply H2. left. destruct folders as [|f folders]; [done|]. exists f. split; [by left|].
      pose proof (proj1 Hall Hlen f ltac:(by left)) as Hb. by apply bool_decide_eq_true in Hb. }
    apply list_elem_of_fmap in Hin as (lib & -> & Hin). apply list_elem_of_fmap_2.
    apply list_elem_of_In, filter_In. split; [by apply list_elem_of_In|]. rewrite (find_In_unique _ _ H1 Hin) in H3. lia.
Qed.
