(* ===== verification/TxBuf.v ===== *)
(** * The vsock transmit buffer

    [devices/src/virtio/vsock/csm/txbuf.rs]: the ring buffer that holds the data
    a guest sent and the host has not yet read.  The sink data is flushed to is
    any [Writer], the interface of Rust's [Write::write].

    The abstract buffer is the queue of its bytes ([contents]): pushing appends
    to it or is refused as a whole, and flushing moves a prefix of it to the
    sink. *)

From Stdlib Require Import ZArith Lia.
From stdpp Require Import functions prelude.
From S2P Require Import Prelude.

(** ** Definitions *)

Definition CONN_TX_BUF_SIZE : Z := 64 * 1024.

Inductive TxBufError (E : Type) :=
| TxBufFull
| TxBufFlush (e : E)
| StreamWrite (e : E).
Arguments TxBufFull {E}.
Arguments TxBufFlush {E} e.
Arguments StreamWrite {E} e.

(** [std::io::Error]: an error of the system, or one made from another error.
    Of the kinds, only those the code tells apart. *)
Inductive ErrorKind := WouldBlock | Other | OtherSystemError.

#[warnings="-register-all"]
Inductive IoError :=
| Os (kind : ErrorKind)
| Custom (kind : ErrorKind) (err : TxBufError IoError).

Definition error_kind (e : IoError) : ErrorKind :=
  match e with Os k => k | Custom k _ => k end.

Record TxBuf := mkTxBuf {
  data : option (list Z);
  head : Z;
  tail : Z
}.

(** [Write::write] accepts a prefix of the buffer it is given: it returns its
    length, or an error and accepts nothing.  [accepted] is what a sink has
    accepted so far. *)
Class Writer (W E : Type) := {
  write : W -> list Z -> W * result Z E;
  accepted : W -> list Z;
  write_ok w l w' n :
    write w l = (w', Ok n) ->
    0 <= n <= Z.of_nat (length l) /\ accepted w' = accepted w ++ take (Z.to_nat n) l;
  write_err w l w' e : write w l = (w', Err e) -> accepted w' = accepted w
}.

Section TxBuf.
Context `{Profile} {W E : Type} `{Writer W E}.

Definition SIZE : Z := CONN_TX_BUF_SIZE.

Definition TxBuf_new : TxBuf := mkTxBuf None 0 0.

Definition TxBuf_len (b : TxBuf) : Z := wsub 32 (head b) (tail b).

Definition TxBuf_is_empty (b : TxBuf) : bool := TxBuf_len b =? 0.

(** [data[a..(a + src.len())].copy_from_slice(src)]. *)
Definition copy_from_slice (d : list Z) (a : Z) (src : list Z) : exec (list Z) :=
  if a + Z.of_nat (length src) <=? Z.of_nat (length d)
  then Ret (list_inserts (Z.to_nat a) src d) else Panic.

Definition push (b : TxBuf) (src : list Z) : exec (result unit (TxBufError E) * TxBuf) :=
  n ← uadd 64 (TxBuf_len b) (Z.of_nat (length src));
  if SIZE <? n then Ret (Err TxBufFull, b)
  else
    let d := default (replicate (Z.to_nat SIZE) 0) (data b) in
    let head_ofs := head b mod SIZE in
    let len := Z.min (SIZE - head_ofs) (Z.of_nat (length src)) in
    d ← copy_from_slice d head_ofs (take (Z.to_nat len) src);
    d ← (if len <? Z.of_nat (length src)
         then copy_from_slice d 0 (drop (Z.to_nat len) src) else Ret d);
    Ret (Ok tt, mkTxBuf (Some d) (wadd 32 (head b) (Z.of_nat (length src))) (tail b)).

(** [&data[a..b]]. *)
Definition data_slice (d : list Z) (a b : Z) : exec (list Z) :=
  if (a <=? b) && (b <=? Z.of_nat (length d))
  then Ret (take (Z.to_nat (b - a)) (drop (Z.to_nat a) d)) else Panic.

(** [flush_to] calls itself after a complete write; [fuel] bounds the calls
    (see [flush_to_fifo]: three are enough). *)
Fixpoint flush_calls (fuel : nat) (b : TxBuf) (sink : W)
    : exec (result Z (TxBufError E) * TxBuf * W) :=
  match fuel with
  | O => Panic
  | S fuel =>
      if TxBuf_is_empty b then Ret (Ok 0, b, sink)
      else
        let tail_ofs := tail b mod SIZE in
        let len_to_write := Z.min (SIZE - tail_ofs) (TxBuf_len b) in
        d ← unwrap (data b);
        s ← data_slice d tail_ofs (tail_ofs + len_to_write);
        let '(sink, r) := write sink s in
        match r with
        | Err e => Ret (Err (TxBufFlush e), b, sink)
        | Ok written =>
            let b := mkTxBuf (data b) (head b) (wadd 32 (tail b) written) in
            if written <? len_to_write then Ret (Ok written, b, sink)
            else
              r ← flush_calls fuel b sink;
              let '(r, b, sink) := r in
              n ← uadd 64 written (match r with Ok n => n | Err _ => 0 end);
              Ret (Ok n, b, sink)
        end
  end.

Definition flush_to (b : TxBuf) (sink : W) := flush_calls 3 b sink.

End TxBuf.

(** [impl Write for TxBuf]. *)
Definition TxBuf_write `{Profile} (b : TxBuf) (buf : list Z) : exec (result Z IoError * TxBuf) :=
  r ← push b buf;
  Ret (match r.1 with Ok _ => Ok (Z.of_nat (length buf)) | Err e => Err (Custom Other e) end, r.2).

(** ** Specification *)

(** The bytes in the buffer, oldest first. *)
Definition contents (b : TxBuf) : list Z :=
  match data b with
  | None => []
  | Some d => map (fun i => default 0 (d !! Z.to_nat ((tail b + Z.of_nat i) mod SIZE)))
                (seq 0 (Z.to_nat (TxBuf_len b)))
  end.

Record txbuf_wf (b : TxBuf) : Prop := {
  tw_head : in_range 32 (head b);
  tw_tail : in_range 32 (tail b);
  tw_len : TxBuf_len b <= SIZE;
  tw_data : match data b with
            | None => TxBuf_len b = 0
            | Some d => Z.of_nat (length d) = SIZE
            end
}.

(** ** Lemmas *)

(** [n] bytes of the ring from position [t]. *)
Definition ring (d : list Z) (t : Z) (n : nat) : list Z :=
  map (fun i => default 0 (d !! Z.to_nat ((t + Z.of_nat i) mod SIZE))) (seq 0 n).

Lemma contents_ring b d :
  data b = Some d -> contents b = ring d (tail b) (Z.to_nat (TxBuf_len b)).
Proof. unfold contents. by intros ->. Qed.

Lemma length_ring d t n : length (ring d t n) = n.
Proof. unfold ring. by rewrite length_map, length_seq. Qed.

Lemma ring_lookup d t n i :
  (i < n)%nat -> ring d t n !! i = Some (default 0 (d !! Z.to_nat ((t + Z.of_nat i) mod SIZE))).
Proof.
  intros Hi. unfold ring. change @map with (fun A B f => @fmap list _ A B f).
  cbv beta. rewrite list_lookup_fmap, lookup_seq_lt by done. done.
Qed.

Lemma ring_split d t n k :
  (k <= n)%nat -> ring d t n = ring d t k ++ ring d (t + Z.of_nat k) (n - k).
Proof.
  intros Hk. apply list_eq_same_length with (n := n).
  - rewrite length_app, !length_ring. lia.
  - by rewrite length_ring.
  - intros i x y Hi. rewrite ring_lookup by done. intros [= <-].
    destruct (decide (i < k)%nat).
    + rewrite lookup_app_l by (by rewrite length_ring). rewrite ring_lookup by done. by intros [= <-].
    + rewrite lookup_app_r by (rewrite length_ring; lia). rewrite length_ring, ring_lookup by lia.
      intros [= <-]. do 3 f_equal. f_equal. lia.
Qed.

Lemma ring_wrap d t n : ring d (wrap 32 t) n = ring d t n.
Proof.
  unfold ring. apply map_ext. intros i. do 3 f_equal.
  unfold wrap, SIZE, CONN_TX_BUF_SIZE. rewrite <- Zplus_mod_idemp_l.
  rewrite Z.mod_mod_divide; [by rewrite Zplus_mod_idemp_l|]. exists (2 ^ 16). done.
Qed.

Lemma take_ring d t n k : (k <= n)%nat -> take k (ring d t n) = ring d t k.
Proof.
  intros Hk. rewrite (ring_split d t n k Hk). rewrite take_app_length'; [done|]. by rewrite length_ring.
Qed.

(** A stretch of the ring that does not wrap is a slice of the data. *)
Lemma ring_slice d t n :
  Z.of_nat (length d) = SIZE -> t mod SIZE + Z.of_nat n <= SIZE ->
  take n (drop (Z.to_nat (t mod SIZE)) d) = ring d t n.
Proof.
  intros Hd Hn. pose proof (Z.mod_pos_bound t SIZE ltac:(done)).
  apply list_eq_same_length with (n := n).
  - by rewrite length_ring.
  - rewrite length_take, length_drop. lia.
  - intros i x y Hi. rewrite lookup_take_lt, lookup_drop, ring_lookup by done.
    intros E [= <-]. rewrite <- Zplus_mod_idemp_l, Z.mod_small by lia.
    replace (Z.to_nat (t mod SIZE + Z.of_nat i)) with (Z.to_nat (t mod SIZE) + i)%nat by lia.
    by rewrite E.
Qed.

(** The data after a push at [h]: the two copies write [src] around the ring. *)
Lemma copies_lookup (d : list Z) h (src : list Z) :
  Z.of_nat (length d) = SIZE -> 0 <= h < SIZE -> Z.of_nat (length src) <= SIZE ->
  let len := Z.min (SIZE - h) (Z.of_nat (length src)) in
  exists d1 d2,
    copy_from_slice d h (take (Z.to_nat len) src) = Ret d1 /\
    (if len <? Z.of_nat (length src)
     then copy_from_slice d1 0 (drop (Z.to_nat len) src) else Ret d1) = Ret d2 /\
    Z.of_nat (length d2) = SIZE /\
    forall j, 0 <= j < SIZE ->
      d2 !! Z.to_nat j =
      if (j - h) mod SIZE <? Z.of_nat (length src)
      then src !! Z.to_nat ((j - h) mod SIZE) else d !! Z.to_nat j.
Proof.
  intros Hd Hh Hs len. unfold copy_from_slice.
  set (d1 := list_inserts (Z.to_nat h) (take (Z.to_nat len) src) d).
  assert (length d1 = length d) as Hd1 by apply length_inserts.
  exists d1. rewrite length_take. rewrite (proj2 (Z.leb_le _ _)) by lia. fold d1.
  assert (forall j, 0 <= j < SIZE -> (j - h) mod SIZE = if h <=? j then j - h else SIZE + j - h) as Hmod.
  { intros j Hj. destruct (Z.leb_spec h j); [apply Z.mod_small; lia|].
    symmetry. apply (Z.mod_unique_pos _ _ (-1)); lia. }
  assert (forall j, 0 <= j < SIZE -> d1 !! Z.to_nat j =
    if (h <=? j) && (j <? h + len) then src !! Z.to_nat (j - h) else d !! Z.to_nat j) as H1.
  { intros j Hj. unfold d1. destruct (Z.leb_spec h j); cbn [andb].
    - destruct (Z.ltb_spec j (h + len)).
      + rewrite list_lookup_inserts by (rewrite ?length_take; lia).
        rewrite lookup_take_lt by lia. f_equal. lia.
      + apply list_lookup_inserts_ge. rewrite length_take. lia.
    - apply list_lookup_inserts_lt. lia. }
  destruct (Z.ltb_spec len (Z.of_nat (length src))) as [Hw|Hw].
  - rewrite length_drop, (proj2 (Z.leb_le _ _)) by lia. eexists.
    split; [done|]. split; [done|]. rewrite length_inserts, Hd1. split; [done|].
    intros j Hj. rewrite Hmod by done. destruct (Z.leb_spec h j).
    + rewrite list_lookup_inserts_ge by (rewrite length_drop; lia). rewrite H1 by done.
      rewrite (proj2 (Z.leb_le h j)) by done. cbn [andb].
      by rewrite !(proj2 (Z.ltb_lt _ _)) by lia.
    + destruct (Z.ltb_spec (SIZE + j - h) (Z.of_nat (length src))).
      * rewrite list_lookup_inserts by (rewrite ?length_drop; lia).
        rewrite lookup_drop. f_equal. lia.
      * rewrite list_lookup_inserts_ge by (rewrite length_drop; lia). rewrite H1 by done.
        by rewrite (proj2 (Z.leb_gt h j)) by lia.
  - exists d1. split; [done|]. split; [done|]. rewrite Hd1. split; [done|].
    intros j Hj. rewrite H1, Hmod by done. destruct (Z.leb_spec h j); cbn [andb].
    + destruct (Z.ltb_spec j (h + len)), (Z.ltb_spec (j - h) (Z.of_nat (length src))); try done; lia.
    + by rewrite (proj2 (Z.ltb_ge _ _)) by lia.
Qed.

Lemma ring_push d d2 h (src : list Z) t n :
  h = (t + Z.of_nat n) mod SIZE -> Z.of_nat n + Z.of_nat (length src) <= SIZE ->
  (forall j, 0 <= j < SIZE ->
     d2 !! Z.to_nat j =
     if (j - h) mod SIZE <? Z.of_nat (length src)
     then src !! Z.to_nat ((j - h) mod SIZE) else d !! Z.to_nat j) ->
  ring d2 t (n + length src) = ring d t n ++ src.
Proof.
  intros -> Hn Hl. apply list_eq_same_length with (n := (n + length src)%nat).
  - by rewrite length_app, length_ring.
  - by rewrite length_ring.
  - intros i x y Hi. rewrite ring_lookup by done. intros [= <-].
    rewrite Hl by (by apply Z.mod_pos_bound).
    rewrite <- Zminus_mod.
    replace (t + Z.of_nat i - (t + Z.of_nat n)) with (Z.of_nat i - Z.of_nat n) by lia.
    destruct (decide (i < n)%nat).
    + rewrite lookup_app_l by (by rewrite length_ring). rewrite ring_lookup by done. intros [= <-].
      replace ((Z.of_nat i - Z.of_nat n) mod SIZE) with (SIZE + Z.of_nat i - Z.of_nat n)
        by (apply (Z.mod_unique_pos _ _ (-1)); lia).
      by rewrite (proj2 (Z.ltb_ge _ _)) by lia.
    + rewrite lookup_app_r by (rewrite length_ring; lia). rewrite length_ring. intros E.
      rewrite Z.mod_small by lia. rewrite (proj2 (Z.ltb_lt _ _)) by lia.
      replace (Z.to_nat (Z.of_nat i - Z.of_nat n)) with (i - n)%nat by lia. by rewrite E.
Qed.

Lemma TxBuf_len_range b : in_range 32 (TxBuf_len b).
Proof. by apply wsub_range. Qed.

Lemma length_contents b : txbuf_wf b -> Z.of_nat (length (contents b)) = TxBuf_len b.
Proof.
  intros [_ _ _ Hd]. pose proof (TxBuf_len_range b). unfold in_range in *. unfold contents.
  destruct (data b); [|cbn; lia]. rewrite length_map, length_seq. lia.
Qed.

Lemma len_wadd_head b k :
  txbuf_wf b -> 0 <= k -> TxBuf_len b + k <= SIZE ->
  TxBuf_len (mkTxBuf (data b) (wadd 32 (head b) k) (tail b)) = TxBuf_len b + k.
Proof.
  intros [Hh Ht _ _] Hk Hle. pose proof (TxBuf_len_range b).
  unfold TxBuf_len, wsub, wadd, SIZE, CONN_TX_BUF_SIZE, in_range in *. cbn [head tail].
  rewrite wrap_sub_l. unfold wrap in *.
  replace (head b + k - tail b) with (head b - tail b + k) by lia.
  rewrite <- Zplus_mod_idemp_l. apply Z.mod_small. lia.
Qed.

Lemma len_wadd_tail b k :
  txbuf_wf b -> 0 <= k <= TxBuf_len b ->
  TxBuf_len (mkTxBuf (data b) (head b) (wadd 32 (tail b) k)) = TxBuf_len b - k.
Proof.
  intros [Hh Ht _ _] Hk. pose proof (TxBuf_len_range b).
  unfold TxBuf_len, wsub, wadd, in_range in *. cbn [head tail].
  rewrite wrap_sub_r. unfold wrap in *.
  replace (head b - (tail b + k)) with (head b - tail b - k) by lia.
  rewrite <- Zminus_mod_idemp_l. apply Z.mod_small. lia.
Qed.

(** The head is [len] past the tail, as offsets into the data. *)
Lemma head_offset b : head b mod SIZE = (tail b + TxBuf_len b) mod SIZE.
Proof.
  unfold TxBuf_len, wsub, wrap, SIZE, CONN_TX_BUF_SIZE.
  rewrite <- Zplus_mod_idemp_r, Z.mod_mod_divide by (exists (2 ^ 16); done).
  rewrite Zplus_mod_idemp_r. f_equal. lia.
Qed.

Section Theorems.
Context `{Profile} {W E : Type} `{Writer W E}.

Lemma push_outcome b src :
  txbuf_wf b -> Z.of_nat (length src) < 2 ^ 63 ->
  exists r b', push (E := E) b src = Ret (r, b') /\ txbuf_wf b' /\
    if TxBuf_len b + Z.of_nat (length src) <=? SIZE
    then r = Ok tt /\ contents b' = contents b ++ src
    else r = Err TxBufFull /\ b' = b.
Proof.
  intros Hwf Hsrc. pose proof (TxBuf_len_range b). pose proof Hwf as [Hh Ht Hl Hd].
  assert (SIZE = 65536) as HS by done. unfold in_range in *.
  unfold push. rewrite uadd_ok, bind_Ret by (unfold in_range; lia).
  destruct (Z.ltb_spec SIZE (TxBuf_len b + Z.of_nat (length src))) as [Hgt|Hle].
  { rewrite (proj2 (Z.leb_gt _ _)) by lia. eexists _, _. split_and!; done. }
  rewrite (proj2 (Z.leb_le _ _)) by lia.
  set (d := default (replicate (Z.to_nat SIZE) 0) (data b)).
  assert (Z.of_nat (length d) = SIZE) as Hlen.
  { unfold d. destruct (data b); [done|]. cbn [default]. rewrite length_replicate. lia. }
  pose proof (Z.mod_pos_bound (head b) SIZE ltac:(lia)) as Hho.
  destruct (copies_lookup d (head b mod SIZE) src) as (d1 & d2 & E1 & E2 & Hl2 & Hlk);
    [done|lia|lia|].
  rewrite E1, bind_Ret. cbv zeta in E2. rewrite E2, bind_Ret. eexists _, _. split; [done|].
  pose proof (len_wadd_head b (Z.of_nat (length src)) Hwf ltac:(lia) Hle) as Hnl.
  unfold TxBuf_len in Hnl at 1. cbn [head tail] in Hnl.
  split; [split; cbn [head tail data]|split; [done|]].
  - by apply wadd_range.
  - done.
  - unfold TxBuf_len at 1. cbn [head tail]. lia.
  - done.
  - rewrite (contents_ring _ d2) by done. unfold TxBuf_len at 1. cbn [head tail]. rewrite Hnl.
    replace (Z.to_nat (TxBuf_len b + Z.of_nat (length src)))
      with (Z.to_nat (TxBuf_len b) + length src)%nat by lia.
    rewrite (ring_push d d2 (head b mod SIZE) src); [..|done].
    + f_equal. unfold contents. destruct (data b) eqn:Ed; [done|].
      by replace (Z.to_nat (TxBuf_len b)) with 0%nat by lia.
    + rewrite head_offset. f_equal. lia.
    + lia.
Qed.

(** Pushing.  From a well-formed buffer, [push] returns: it appends all of
    [src] to the contents, or reports [TxBufFull] and changes nothing, the latter
    exactly when the bytes do not fit. *)
Theorem push_fifo b src :
  txbuf_wf b -> Z.of_nat (length src) < 2 ^ 63 ->
  exists r b', push (E := E) b src = Ret (r, b') /\ txbuf_wf b' /\
    if TxBuf_len b + Z.of_nat (length src) <=? SIZE
    then r = Ok tt /\ contents b' = contents b ++ src
    else r = Err TxBufFull /\ b' = b.
Proof. apply push_outcome. Qed.

(** How many calls of [flush_to] a buffer can need. *)
Definition calls_needed (b : TxBuf) : nat :=
  if TxBuf_is_empty b then 1
  else if tail b mod SIZE + TxBuf_len b <=? SIZE then 2 else 3.

(** [n] bytes are taken out at the tail. *)
Lemma take_out b d n :
  txbuf_wf b -> data b = Some d -> 0 <= n <= TxBuf_len b ->
  let b' := mkTxBuf (Some d) (head b) (wadd 32 (tail b) n) in
  txbuf_wf b' /\ TxBuf_len b' = TxBuf_len b - n /\
  contents b = ring d (tail b) (Z.to_nat n) ++ contents b'.
Proof.
  intros Hwf Ed Hn b'. pose proof Hwf as [Hh Ht Hl Hd]. rewrite Ed in Hd.
  assert (TxBuf_len b' = TxBuf_len b - n) as Hl'.
  { pose proof (len_wadd_tail b n Hwf Hn) as Hx. by rewrite Ed in Hx. }
  split; [split; [done|by apply wadd_range|lia|done]|]. split; [done|].
  rewrite (contents_ring b d Ed), (contents_ring b' d eq_refl), Hl'. unfold b' at 1. cbn [tail].
  unfold wadd. rewrite ring_wrap, (ring_split d (tail b) _ (Z.to_nat n)) by lia.
  rewrite Z2Nat.id by lia. do 2 f_equal. lia.
Qed.

(** After a complete write, one call fewer is needed. *)
Lemma calls_after b d n :
  txbuf_wf b -> data b = Some d -> n = Z.min (SIZE - tail b mod SIZE) (TxBuf_len b) ->
  let b' := mkTxBuf (Some d) (head b) (wadd 32 (tail b) n) in
  TxBuf_len b <> 0 -> (S (calls_needed b') <= calls_needed b)%nat.
Proof.
  intros Hwf Ed Hn b' Hne. pose proof (TxBuf_len_range b) as Hlr. unfold in_range in Hlr.
  pose proof (Z.mod_pos_bound (tail b) SIZE ltac:(done)) as Hto.
  destruct (take_out b d n Hwf Ed ltac:(lia)) as (_ & Hl' & _). fold b' in Hl'.
  unfold calls_needed, TxBuf_is_empty. rewrite Hl', (proj2 (Z.eqb_neq _ _) Hne).
  destruct (Z.eqb_spec (TxBuf_len b - n) 0); [destruct (_ <=? _); lia|].
  assert (n = SIZE - tail b mod SIZE) as Hns by lia.
  assert (tail b' mod SIZE = 0) as ->.
  { unfold b', wadd, wrap. cbn [tail]. rewrite Z.mod_mod_divide by (exists (2 ^ 16); done).
    rewrite Hns, <- Zplus_mod_idemp_l.
    replace (tail b mod SIZE + (SIZE - tail b mod SIZE)) with SIZE by lia. by apply Z.mod_same. }
  pose proof (tw_len _ Hwf). rewrite (proj2 (Z.leb_le (0 + _) _)) by lia.
  destruct (Z.leb_spec (tail b mod SIZE + TxBuf_len b) SIZE); lia.
Qed.

Lemma flush_calls_fifo fuel b w :
  txbuf_wf b -> (calls_needed b <= fuel)%nat ->
  exists r b' w' out, flush_calls fuel b w = Ret (r, b', w') /\ txbuf_wf b' /\
    accepted w' = accepted w ++ out /\ contents b = out ++ contents b' /\
    match r with Ok n => n = Z.of_nat (length out) | Err _ => out = [] /\ b' = b end.
Proof.
  revert b w. induction fuel as [|fuel IH]; intros b w Hwf Hf.
  { unfold calls_needed in Hf. repeat case_match; lia. }
  pose proof (TxBuf_len_range b) as Hlr. pose proof Hwf as [Hh Ht Hl Hd].
  assert (SIZE = 65536) as HS by done. unfold in_range in *.
  cbn [flush_calls]. destruct (TxBuf_is_empty b) eqn:Ee.
  { exists (Ok 0), b, w, []. rewrite app_nil_r. done. }
  unfold TxBuf_is_empty in Ee. apply Z.eqb_neq in Ee.
  destruct (data b) as [d|] eqn:Ed; [|lia]. cbn [unwrap]. rewrite bind_Ret.
  pose proof (Z.mod_pos_bound (tail b) SIZE ltac:(lia)) as Hto.
  set (k := Z.min (SIZE - tail b mod SIZE) (TxBuf_len b)).
  unfold data_slice. rewrite (proj2 (Z.leb_le _ _)), (proj2 (Z.leb_le _ _)) by lia. cbn [andb].
  rewrite bind_Ret. replace (tail b mod SIZE + k - tail b mod SIZE) with k by lia.
  rewrite ring_slice by lia.
  destruct (write w (ring d (tail b) (Z.to_nat k))) as [w1 r1] eqn:Ew.
  destruct r1 as [n|e].
  2: { apply write_err in Ew. exists (Err (TxBufFlush e)), b, w1, [].
       rewrite app_nil_r. done. }
  apply write_ok in Ew as [Hn Hacc]. rewrite length_ring in Hn.
  rewrite take_ring in Hacc by lia.
  destruct (take_out b d n Hwf Ed ltac:(lia)) as (Hwf1 & Hl1 & Hc).
  set (b1 := mkTxBuf (Some d) (head b) (wadd 32 (tail b) n)) in *.
  destruct (Z.ltb_spec n k) as [Hlt|Hge].
  { eexists _, _, _, _. split; [done|]. split; [exact Hwf1|]. split; [exact Hacc|].
    split; [exact Hc|]. rewrite length_ring. lia. }
  destruct (IH b1 w1 Hwf1) as (r & b' & w' & out & -> & Hwf' & Hacc' & Hc' & Hr).
  { pose proof (calls_after b d n Hwf Ed ltac:(lia) Ee) as Hn1. fold b1 in Hn1. lia. }
  rewrite bind_Ret.
  assert (length out <= length (contents b1))%nat as Hol by (rewrite Hc', length_app; lia).
  pose proof (length_contents b1 Hwf1).
  rewrite uadd_ok, bind_Ret.
  2: { unfold in_range. destruct r; [subst|]; lia. }
  eexists _, _, _, (ring d (tail b) (Z.to_nat n) ++ out). split; [done|].
  split; [done|]. split; [by rewrite Hacc', Hacc, app_assoc|].
  split; [by rewrite Hc, Hc', app_assoc|].
  rewrite length_app, length_ring. destruct r; [|destruct Hr as [-> _]; cbn]; lia.
Qed.

Lemma flush_to_outcome b w :
  txbuf_wf b ->
  exists r b' w' out, flush_to b w = Ret (r, b', w') /\ txbuf_wf b' /\
    accepted w' = accepted w ++ out /\ contents b = out ++ contents b' /\
    match r with Ok n => n = Z.of_nat (length out) | Err _ => out = [] /\ b' = b end.
Proof.
  intros Hwf. apply flush_calls_fifo; [done|]. unfold calls_needed. repeat case_match; lia.
Qed.

(** Flushing.  From a well-formed buffer, [flush_to] returns after at most
    three calls of itself: the sink has accepted a prefix of the contents, in
    order, the rest is still in the buffer, and the number returned is that
    prefix's length; an error means nothing was taken out. *)
Theorem flush_to_fifo b w :
  txbuf_wf b ->
  exists r b' w' out, flush_to b w = Ret (r, b', w') /\ txbuf_wf b' /\
    accepted w' = accepted w ++ out /\ contents b = out ++ contents b' /\
    match r with Ok n => n = Z.of_nat (length out) | Err _ => out = [] /\ b' = b end.
Proof. apply flush_to_outcome. Qed.
End Theorems.

(** A sink that accepts at most three bytes at a time, 5 in total, then fails. *)
Definition small_write (w l : list Z) : list Z * result Z Z :=
  if 5 <=? Z.of_nat (length w) then (w, Err 11)
  else (w ++ take 3 l, Ok (Z.of_nat (length (take 3 l)))).

#[refine] Instance small_sink : Writer (list Z) Z := {|
  write := small_write;
  accepted w := w
|}.
Proof.
  - intros w l w' n. unfold small_write. destruct (5 <=? _); [done|]. intros [= <- <-].
    rewrite length_take. split; [lia|]. rewrite Nat2Z.id. f_equal.
    by destruct l as [|? [|? [|? ?]]].
  - intros w l w' e. unfold small_write. destruct (5 <=? _); [|done]. by intros [= <-].
Defined.

Lemma TxBuf_new_wf : txbuf_wf TxBuf_new.
Proof. by split. Qed.

Lemma push_fifo_witness :
  exists r b', @push dev_profile Z TxBuf_new [1; 2; 3; 4] = Ret (r, b') /\ txbuf_wf b' /\
    if TxBuf_len TxBuf_new + Z.of_nat (length [1; 2; 3; 4]) <=? SIZE
    then r = Ok tt /\ contents b' = contents TxBuf_new ++ [1; 2; 3; 4]
    else r = Err TxBufFull /\ b' = TxBuf_new.
Proof. apply (@push_fifo dev_profile Z TxBuf_new [1; 2; 3; 4] TxBuf_new_wf). reflexivity. Defined.

(** The ring about to wrap around, with three bytes in it. *)
Definition wrapping_buf : TxBuf := mkTxBuf (Some (replicate (Z.to_nat SIZE) 7)) 1 (2 ^ 32 - 2).

Lemma flush_to_fifo_witness :
  exists r b' w' out, @flush_to dev_profile (list Z) Z small_sink wrapping_buf [] = Ret (r, b', w') /\
    txbuf_wf b' /\ w' = [] ++ out /\ contents wrapping_buf = out ++ contents b' /\
    match r with Ok n => n = Z.of_nat (length out) | Err _ => out = [] /\ b' = wrapping_buf end.
Proof.
  apply (@flush_to_fifo dev_profile (list Z) Z small_sink wrapping_buf []).
  split; [vm_compute; intuition discriminate|vm_compute; intuition discriminate|vm_compute; discriminate|].
  cbn [wrapping_buf data]. by rewrite length_replicate, Z2Nat.id by done.
Defined.
