(* ===== verification/VsockPacket.v ===== *)
(** * Vsock packets

    [devices/src/virtio/vsock/packet.rs]: a packet is a header and, for data
    packets, a buffer in guest memory, both described by a virtio descriptor
    chain.  Of [vsock/mod.rs], the constants and the errors that arise here.

    The header is the packed structure of the protocol, little endian as the
    hosts Firecracker supports, so the conversions of the accessors are the
    identity.  The stream a packet's data comes from or goes to is any [Stream]:
    Rust's [Read] and [Write]. *)

From Stdlib Require Import ZArith Lia.
From stdpp Require Import functions prelude gmap.
From S2P Require Import Prelude GuestMemory VirtioQueue TxBuf.

(** ** Definitions *)

Definition MAX_PKT_BUF_SIZE : Z := 64 * 1024.

Definition VSOCK_OP_REQUEST : Z := 1.
Definition VSOCK_OP_RESPONSE : Z := 2.
Definition VSOCK_OP_RST : Z := 3.
Definition VSOCK_OP_SHUTDOWN : Z := 4.
Definition VSOCK_OP_RW : Z := 5.
Definition VSOCK_OP_CREDIT_UPDATE : Z := 6.
Definition VSOCK_OP_CREDIT_REQUEST : Z := 7.
Definition VSOCK_FLAGS_SHUTDOWN_RCV : Z := 1.
Definition VSOCK_FLAGS_SHUTDOWN_SEND : Z := 2.
Definition VSOCK_TYPE_STREAM : Z := 1.

(** [vm_memory::GuestMemoryError]: an error of the stream, or one of the
    memory's own. *)
Inductive MemoryError (G : Type) :=
| IOError (e : IoError)
| AccessError (g : G).
Arguments IOError {G} e.
Arguments AccessError {G} g.

(** Without the two variants that wrap the errors of the device's persistence and
    of its backend. *)
Inductive VsockError (G : Type) :=
| BufDescTooSmall
| BufDescMissing
| EmptyQueue
| EventFd (e : IoError)
| GuestMemoryMmap (e : MemoryError G)
| GuestMemoryBounds
| HdrDescTooSmall (len : Z)
| InvalidPktLen (len : Z)
| NoData
| PktBufMissing
| UnreadableDescriptor
| UnwritableDescriptor.
Arguments BufDescTooSmall {G}.
Arguments BufDescMissing {G}.
Arguments EmptyQueue {G}.
Arguments EventFd {G} e.
Arguments GuestMemoryMmap {G} e.
Arguments GuestMemoryBounds {G}.
Arguments HdrDescTooSmall {G} len.
Arguments InvalidPktLen {G} len.
Arguments NoData {G}.
Arguments PktBufMissing {G}.
Arguments UnreadableDescriptor {G}.
Arguments UnwritableDescriptor {G}.

Record VsockPacketHeader := mkHeader {
  h_src_cid : Z;
  h_dst_cid : Z;
  h_src_port : Z;
  h_dst_port : Z;
  h_len : Z;
  h_type : Z;
  h_op : Z;
  h_flags : Z;
  h_buf_alloc : Z;
  h_fwd_cnt : Z
}.

Definition VSOCK_PKT_HDR_SIZE : Z := 44.

(** The header's bytes, and the header of 44 bytes. *)
Definition header_bytes (h : VsockPacketHeader) : list Z :=
  le_encode 8 (h_src_cid h) ++ le_encode 8 (h_dst_cid h) ++
  le_encode 4 (h_src_port h) ++ le_encode 4 (h_dst_port h) ++
  le_encode 4 (h_len h) ++ le_encode 2 (h_type h) ++ le_encode 2 (h_op h) ++
  le_encode 4 (h_flags h) ++ le_encode 4 (h_buf_alloc h) ++ le_encode 4 (h_fwd_cnt h).

Definition header_of (l : list Z) : VsockPacketHeader :=
  mkHeader (le_decode (take 8 l)) (le_decode (take 8 (drop 8 l)))
    (le_decode (take 4 (drop 16 l))) (le_decode (take 4 (drop 20 l)))
    (le_decode (take 4 (drop 24 l))) (le_decode (take 2 (drop 28 l)))
    (le_decode (take 2 (drop 30 l))) (le_decode (take 4 (drop 32 l)))
    (le_decode (take 4 (drop 36 l))) (le_decode (take 4 (drop 40 l))).

Definition default_header : VsockPacketHeader := mkHeader 0 0 0 0 0 0 0 0 0 0.

Record VsockPacket := mkPacket {
  hdr_addr : Z;
  hdr : VsockPacketHeader;
  buf_addr : option Z;
  buf_size : Z
}.

Definition with_hdr (p : VsockPacket) (h : VsockPacketHeader) : VsockPacket :=
  mkPacket (hdr_addr p) h (buf_addr p) (buf_size p).

(** Accessors. *)
Definition src_cid (p : VsockPacket) : Z := h_src_cid (hdr p).
Definition set_src_cid (p : VsockPacket) (v : Z) : VsockPacket :=
  let h := hdr p in
  with_hdr p (mkHeader v (h_dst_cid h) (h_src_port h) (h_dst_port h) (h_len h)
                (h_type h) (h_op h) (h_flags h) (h_buf_alloc h) (h_fwd_cnt h)).
Definition dst_cid (p : VsockPacket) : Z := h_dst_cid (hdr p).
Definition set_dst_cid (p : VsockPacket) (v : Z) : VsockPacket :=
  let h := hdr p in
  with_hdr p (mkHeader (h_src_cid h) v (h_src_port h) (h_dst_port h) (h_len h)
                (h_type h) (h_op h) (h_flags h) (h_buf_alloc h) (h_fwd_cnt h)).
Definition src_port (p : VsockPacket) : Z := h_src_port (hdr p).
Definition set_src_port (p : VsockPacket) (v : Z) : VsockPacket :=
  let h := hdr p in
  with_hdr p (mkHeader (h_src_cid h) (h_dst_cid h) v (h_dst_port h) (h_len h)
                (h_type h) (h_op h) (h_flags h) (h_buf_alloc h) (h_fwd_cnt h)).
Definition dst_port (p : VsockPacket) : Z := h_dst_port (hdr p).
Definition set_dst_port (p : VsockPacket) (v : Z) : VsockPacket :=
  let h := hdr p in
  with_hdr p (mkHeader (h_src_cid h) (h_dst_cid h) (h_src_port h) v (h_len h)
                (h_type h) (h_op h) (h_flags h) (h_buf_alloc h) (h_fwd_cnt h)).
Definition pkt_len (p : VsockPacket) : Z := h_len (hdr p).
Definition set_len (p : VsockPacket) (v : Z) : VsockPacket :=
  let h := hdr p in
  with_hdr p (mkHeader (h_src_cid h) (h_dst_cid h) (h_src_port h) (h_dst_port h) v
                (h_type h) (h_op h) (h_flags h) (h_buf_alloc h) (h_fwd_cnt h)).
Definition type_ (p : VsockPacket) : Z := h_type (hdr p).
Definition set_type (p : VsockPacket) (v : Z) : VsockPacket :=
  let h := hdr p in
  with_hdr p (mkHeader (h_src_cid h) (h_dst_cid h) (h_src_port h) (h_dst_port h) (h_len h)
                v (h_op h) (h_flags h) (h_buf_alloc h) (h_fwd_cnt h)).
Definition op (p : VsockPacket) : Z := h_op (hdr p).
Definition set_op (p : VsockPacket) (v : Z) : VsockPacket :=
  let h := hdr p in
  with_hdr p (mkHeader (h_src_cid h) (h_dst_cid h) (h_src_port h) (h_dst_port h) (h_len h)
                (h_type h) v (h_flags h) (h_buf_alloc h) (h_fwd_cnt h)).
Definition flags (p : VsockPacket) : Z := h_flags (hdr p).
Definition set_flags (p : VsockPacket) (v : Z) : VsockPacket :=
  let h := hdr p in
  with_hdr p (mkHeader (h_src_cid h) (h_dst_cid h) (h_src_port h) (h_dst_port h) (h_len h)
                (h_type h) (h_op h) v (h_buf_alloc h) (h_fwd_cnt h)).
Definition set_flag (p : VsockPacket) (flag : Z) : VsockPacket :=
  set_flags p (Z.lor (flags p) flag).
Definition buf_alloc (p : VsockPacket) : Z := h_buf_alloc (hdr p).
Definition set_buf_alloc (p : VsockPacket) (v : Z) : VsockPacket :=
  let h := hdr p in
  with_hdr p (mkHeader (h_src_cid h) (h_dst_cid h) (h_src_port h) (h_dst_port h) (h_len h)
                (h_type h) (h_op h) (h_flags h) v (h_fwd_cnt h)).
Definition fwd_cnt (p : VsockPacket) : Z := h_fwd_cnt (hdr p).
Definition set_fwd_cnt (p : VsockPacket) (v : Z) : VsockPacket :=
  let h := hdr p in
  with_hdr p (mkHeader (h_src_cid h) (h_dst_cid h) (h_src_port h) (h_dst_port h) (h_len h)
                (h_type h) (h_op h) (h_flags h) (h_buf_alloc h) v).

(** A host stream: [Read::read] returns at most the bytes asked for, and does
    not write. *)
Class Stream (S : Type) := {
  stream_writer :: Writer S IoError;
  read : S -> Z -> S * result (list Z) IoError;
  read_ok s n s' l :
    0 <= n -> read s n = (s', Ok l) -> Z.of_nat (length l) <= n /\ bytes_ok l;
  read_accepted s n : accepted (read s n).1 = accepted s
}.

Section Packet.
Context {M : Type} `{GuestRegions M} `{Profile}.

Abbreviation VErr := (VsockError GuestMemoryError).

Definition check_desc_write_only (desc : DescriptorChain) (expected_write_only : bool)
    : result unit VErr :=
  if negb (Bool.eqb (is_write_only desc) expected_write_only) then
    if is_write_only desc then Err UnreadableDescriptor else Err UnwritableDescriptor
  else Ok tt.

Definition check_hdr_desc (m : M) (hdr_desc : DescriptorChain) (expected_write_only : bool)
    : result unit VErr :=
  match check_desc_write_only hdr_desc expected_write_only with
  | Err e => Err e
  | Ok _ =>
      if negb (check_range m (dc_addr hdr_desc) VSOCK_PKT_HDR_SIZE) then Err GuestMemoryBounds
      else if dc_len hdr_desc <? VSOCK_PKT_HDR_SIZE then Err (HdrDescTooSmall (dc_len hdr_desc))
      else Ok tt
  end.

Definition init_buf (m : M) (p : VsockPacket) (hdr_desc : DescriptorChain)
    (expected_write_only : bool) : exec (result unit VErr * VsockPacket) :=
  d ← next_descriptor m hdr_desc;
  Ret
    (match d with
     | None => (Err BufDescMissing, p)
     | Some buf_desc =>
         match check_desc_write_only buf_desc expected_write_only with
         | Err e => (Err e, p)
         | Ok _ =>
             if negb (check_range m (dc_addr buf_desc) (dc_len buf_desc))
             then (Err GuestMemoryBounds, p)
             else (Ok tt, mkPacket (hdr_addr p) (hdr p) (Some (dc_addr buf_desc)) (dc_len buf_desc))
         end
     end).

Definition check_len (p : VsockPacket) : result unit VErr :=
  if MAX_PKT_BUF_SIZE <? pkt_len p then Err (InvalidPktLen (pkt_len p)) else Ok tt.

(** [read_obj::<VsockPacketHeader>]. *)
Definition read_header (m : M) (a : Z) : result VsockPacketHeader VErr :=
  match read_bytes m a (Z.to_nat VSOCK_PKT_HDR_SIZE) with
  | Some l => Ok (header_of l)
  | None => Err (GuestMemoryMmap (AccessError (access_error m a VSOCK_PKT_HDR_SIZE)))
  end.

Definition from_tx_virtq_head (m : M) (hdr_desc : DescriptorChain)
    : exec (result VsockPacket VErr) :=
  match check_hdr_desc m hdr_desc false with
  | Err e => Ret (Err e)
  | Ok _ =>
      if negb (check_range m (dc_addr hdr_desc) VSOCK_PKT_HDR_SIZE)
      then Ret (Err GuestMemoryBounds)
      else
        match read_header m (dc_addr hdr_desc) with
        | Err e => Ret (Err e)
        | Ok h =>
            let p := mkPacket (dc_addr hdr_desc) h None 0 in
            if pkt_len p =? 0 then Ret (Ok p)
            else
              match check_len p with
              | Err e => Ret (Err e)
              | Ok _ =>
                  r ← init_buf m p hdr_desc false;
                  Ret
                    (match r with
                     | (Err e, _) => Err e
                     | (Ok _, p) =>
                         if buf_size p <? pkt_len p then Err BufDescTooSmall else Ok p
                     end)
              end
        end
  end.

Definition from_rx_virtq_head (m : M) (hdr_desc : DescriptorChain)
    : exec (result VsockPacket VErr) :=
  match check_hdr_desc m hdr_desc true with
  | Err e => Ret (Err e)
  | Ok _ =>
      r ← init_buf m (mkPacket (dc_addr hdr_desc) default_header None 0) hdr_desc true;
      Ret (match r with (Err e, _) => Err e | (Ok _, p) => Ok p end)
  end.

Definition commit_hdr (p : VsockPacket) (m : M) : result unit VErr * M :=
  match check_len p with
  | Err e => (Err e, m)
  | Ok _ =>
      match write_bytes m (hdr_addr p) (header_bytes (hdr p)) with
      | (Ok _, m') => (Ok tt, m')
      | (Err g, m') => (Err (GuestMemoryMmap (AccessError g)), m')
      end
  end.

(** [usize::checked_sub]. *)
Definition checked_sub (a b : Z) : option Z := if b <=? a then Some (a - b) else None.

(** [to_region_addr] and [GuestMemoryRegion::checked_offset]: the region's start
    and length, and an offset into it at which [count] bytes lie in the region. *)
Definition buf_region_addr (p : VsockPacket) (m : M) (offset count : Z)
    : result (Z * Z * Z) VErr :=
  match checked_sub (buf_size p) offset ≫= fun remaining => checked_sub remaining count with
  | None => Err GuestMemoryBounds
  | Some _ =>
      match buf_addr p with
      | None => Err PktBufMissing
      | Some a =>
          match
            a' ← checked_add 64 a offset;
            region ← region_of m a';
            let region_addr := a' - region.1 in
            last ← checked_sub count 1;
            end_addr ← checked_add 64 region_addr last;
            if end_addr <? region.2 then Some (region, region_addr) else None
          with
          | None => Err GuestMemoryBounds
          | Some r => Ok r
          end
      end
  end.

(** [region.read_from(region_addr, src, count)]: one read from [src] of at most
    [count] bytes, stored at [region_addr]. *)
Definition region_read_from {S} `{Stream S} (m : M) (r : Z * Z * Z) (src : S) (count : Z)
    : result Z (MemoryError GuestMemoryError) * S * M :=
  let '(start, _, region_addr) := r in
  match read src count with
  | (src, Err e) => (Err (IOError e), src, m)
  | (src, Ok l) =>
      match write_bytes m (start + region_addr) l with
      | (Ok _, m) => (Ok (Z.of_nat (length l)), src, m)
      | (Err g, m) => (Err (AccessError g), src, m)
      end
  end.

Definition read_at_offset_from {S} `{Stream S} (p : VsockPacket) (m : M) (offset : Z)
    (src : S) (count : Z) : result Z VErr * S * M :=
  match buf_region_addr p m offset count with
  | Err e => (Err e, src, m)
  | Ok r =>
      match region_read_from m r src count with
      | (Ok n, src, m) => (Ok n, src, m)
      | (Err e, src, m) => (Err (GuestMemoryMmap e), src, m)
      end
  end.

(** [region.write_to(region_addr, dst, count)]: one call of the [write] method
    of [dst] with the [count] bytes at [region_addr]. *)
Definition region_write_to {F} (write_to : F -> list Z -> exec (result Z IoError * F))
    (m : M) (r : Z * Z * Z) (dst : F) (count : Z)
    : exec (result Z (MemoryError GuestMemoryError) * F) :=
  let '(start, _, region_addr) := r in
  match read_bytes m (start + region_addr) (Z.to_nat count) with
  | None => Ret (Err (AccessError (access_error m (start + region_addr) count)), dst)
  | Some l =>
      w ← write_to dst l;
      Ret (match w with (Ok n, dst) => (Ok n, dst) | (Err e, dst) => (Err (IOError e), dst) end)
  end.

Definition write_from_offset_to {F} (write_to : F -> list Z -> exec (result Z IoError * F))
    (p : VsockPacket) (m : M) (offset : Z) (dst : F) (count : Z) : exec (result Z VErr * F) :=
  match buf_region_addr p m offset count with
  | Err e => Ret (Err e, dst)
  | Ok r =>
      w ← region_write_to write_to m r dst count;
      Ret (match w with (Ok n, dst) => (Ok n, dst) | (Err e, dst) => (Err (GuestMemoryMmap e), dst) end)
  end.
End Packet.

(** ** Specification *)

Definition header_ok (h : VsockPacketHeader) : Prop :=
  in_range 64 (h_src_cid h) /\ in_range 64 (h_dst_cid h) /\
  in_range 32 (h_src_port h) /\ in_range 32 (h_dst_port h) /\ in_range 32 (h_len h) /\
  in_range 16 (h_type h) /\ in_range 16 (h_op h) /\
  in_range 32 (h_flags h) /\ in_range 32 (h_buf_alloc h) /\ in_range 32 (h_fwd_cnt h).

Section Spec.
Context {M : Type} `{GuestRegions M} `{Profile}.

(** [p] is the packet a TX chain starting at [c] describes. *)
Definition tx_packet (m : M) (c : DescriptorChain) (p : VsockPacket) : Prop :=
  is_write_only c = false /\ backed m (dc_addr c) VSOCK_PKT_HDR_SIZE /\
  VSOCK_PKT_HDR_SIZE <= dc_len c /\ hdr_addr p = dc_addr c /\
  read_header m (dc_addr c) = Ok (hdr p) /\
  (pkt_len p = 0 /\ buf_addr p = None /\ buf_size p = 0 \/
   0 < pkt_len p <= MAX_PKT_BUF_SIZE /\ pkt_len p <= buf_size p /\
   exists b, next_descriptor m c = Ret (Some b) /\ is_write_only b = false /\
     buf_addr p = Some (dc_addr b) /\ buf_size p = dc_len b /\
     backed m (dc_addr b) (dc_len b)).

(** [p] is an empty packet over the RX chain starting at [c]. *)
Definition rx_packet (m : M) (c : DescriptorChain) (p : VsockPacket) : Prop :=
  is_write_only c = true /\ backed m (dc_addr c) VSOCK_PKT_HDR_SIZE /\
  VSOCK_PKT_HDR_SIZE <= dc_len c /\ hdr_addr p = dc_addr c /\ hdr p = default_header /\
  exists b, next_descriptor m c = Ret (Some b) /\ is_write_only b = true /\
    buf_addr p = Some (dc_addr b) /\ buf_size p = dc_len b /\
    (0 < dc_len b -> backed m (dc_addr b) (dc_len b)).

(** The [n] bytes of the packet's buffer from [offset] lie in one region. *)
Definition in_region (m : M) (p : VsockPacket) (offset n : Z) : Prop :=
  exists a start len, buf_addr p = Some a /\ 0 <= offset /\ 0 < n /\ offset + n <= buf_size p /\
    region_of m (a + offset) = Some (start, len) /\ a + offset + n <= start + len.
End Spec.

(** ** Lemmas *)

Lemma length_header_bytes h : length (header_bytes h) = Z.to_nat VSOCK_PKT_HDR_SIZE.
Proof. unfold header_bytes. by rewrite !length_app, !length_le_encode. Qed.

Lemma header_bytes_ok h : bytes_ok (header_bytes h).
Proof. unfold header_bytes, bytes_ok. rewrite !Forall_app. split_and!; apply le_encode_ok. Qed.

(** Reading a field off the front of a concatenation. *)
Lemma take_field n v l : take n (le_encode n v ++ l) = le_encode n v.
Proof. rewrite take_app_le, take_ge by (rewrite length_le_encode; lia). done. Qed.

Lemma drop_field n k v l : drop (n + k) (le_encode n v ++ l) = drop k l.
Proof. rewrite <- drop_drop, drop_app_length'; [done|by rewrite length_le_encode]. Qed.

Lemma decode_field n w v : 256 ^ Z.of_nat n = 2 ^ w -> in_range w v -> le_decode (le_encode n v) = v.
Proof. intros E Hv. rewrite le_decode_encode, E. by apply Z.mod_small. Qed.

Lemma header_of_bytes h : header_ok h -> header_of (header_bytes h) = h.
Proof.
  intros (? & ? & ? & ? & ? & ? & ? & ? & ? & ?). unfold header_of, header_bytes.
  repeat match goal with
  | |- context [drop ?k (le_encode ?n ?v ++ ?l)] =>
      change (drop k (le_encode n v ++ l)) with (drop (n + (k - n)) (le_encode n v ++ l));
      rewrite (drop_field n (k - n)); cbn [Nat.sub]; rewrite ?drop_0
  end.
  rewrite !take_field, take_ge by (by rewrite length_le_encode).
  destruct h; cbn [h_src_cid h_dst_cid h_src_port h_dst_port h_len h_type h_op h_flags h_buf_alloc
    h_fwd_cnt] in *; f_equal; by eapply decode_field; [|eassumption].
Qed.

Section Lemmas.
Context {M : Type} `{GuestRegions M} `{Profile}.
Implicit Types m : M.

Lemma read_header_ok m a :
  backed m a VSOCK_PKT_HDR_SIZE -> exists h, read_header m a = Ok h /\ 0 <= h_len h.
Proof.
  intros Hb. destruct (read_bytes_backed m a 44 Hb) as (l & E & Hl & Hok).
  exists (header_of l). unfold read_header. change (Z.to_nat VSOCK_PKT_HDR_SIZE) with 44%nat.
  rewrite E. split; [done|]. apply le_decode_nonneg.
  by apply Forall_take, Forall_drop.
Qed.

Lemma check_desc_write_only_ok c b :
  check_desc_write_only c b = Ok tt <-> is_write_only c = b.
Proof. unfold check_desc_write_only. destruct (is_write_only c), b; split; done. Qed.

Lemma check_hdr_desc_ok m c b :
  check_hdr_desc m c b = Ok tt <->
  is_write_only c = b /\ backed m (dc_addr c) VSOCK_PKT_HDR_SIZE /\ VSOCK_PKT_HDR_SIZE <= dc_len c.
Proof.
  unfold check_hdr_desc. rewrite <- check_range_spec by done.
  rewrite <- check_desc_write_only_ok.
  destruct (check_desc_write_only c b) as [[]|e]; [|naive_solver].
  destruct (check_range _ _ _); cbn [negb]; [|naive_solver].
  destruct (Z.ltb_spec (dc_len c) VSOCK_PKT_HDR_SIZE); naive_solver lia.
Qed.
End Lemmas.

(** ** Transfers between a packet's buffer and a stream *)

Section Transfers.
Context {M : Type} `{GuestRegions M} `{Profile}.
Implicit Types m : M.

Lemma buf_region_addr_ok p m offset count start len ra :
  buf_region_addr p m offset count = Ok (start, len, ra) ->
  exists a, buf_addr p = Some a /\ start + ra = a + offset /\ 0 < count /\
    offset + count <= buf_size p /\ backed m (a + offset) count.
Proof.
  unfold buf_region_addr, checked_sub.
  destruct (Z.leb_spec offset (buf_size p)); [|done]. cbn [mbind option_bind].
  destruct (Z.leb_spec count (buf_size p - offset)); [|done].
  destruct (buf_addr p) as [a|]; [|done].
  destruct (checked_add 64 a offset) as [a'|] eqn:Ea; [|done]. apply checked_add_inv in Ea as ->.
  cbn [mbind option_bind].
  destruct (region_of m (a + offset)) as [[s l]|] eqn:Er; [|done]. cbn [mbind option_bind fst snd].
  destruct (Z.leb_spec 1 count); [|done]. cbn [mbind option_bind].
  destruct (checked_add 64 _ _) as [e|] eqn:Ee; [|done]. apply checked_add_inv in Ee as ->.
  cbn [mbind option_bind].
  destruct (Z.ltb_spec (a + offset - s + (count - 1)) l); [|done]. intros [= <- <- <-].
  apply region_of_spec in Er as [? Hb]. exists a. split_and!; [done|lia..|].
  intros x Hx. apply Hb. lia.
Qed.

(** A slice of the buffer in one region is accessible. *)
Lemma in_region_access p m offset n :
  in_region m p offset n ->
  exists a start len ra, buf_addr p = Some a /\ start + ra = a + offset /\
    buf_region_addr p m offset n = Ok (start, len, ra) /\ backed m (a + offset) n.
Proof.
  intros (a & s & l & Ea & Ho & Hn & Hs & Er & Hl). exists a, s, l, (a + offset - s).
  pose proof (region_of_spec _ _ _ _ Er) as [Hr Hb].
  assert (backed m (a + offset) n) as Hbn by (intros x Hx; apply Hb; lia).
  destruct (Hb s ltac:(lia)) as [? Ebs]. apply byte_at_range in Ebs as [Hrs _].
  destruct (Hbn (a + offset) ltac:(lia)) as [? Eb0]. apply byte_at_range in Eb0 as [Hr0 _].
  destruct (Hbn (a + offset + n - 1) ltac:(lia)) as [? Eb1]. apply byte_at_range in Eb1 as [Hr1 _].
  split_and!; [done|lia| |done]. unfold buf_region_addr, checked_sub, checked_add, in_range in *.
  rewrite (proj2 (Z.leb_le offset (buf_size p))) by lia. cbn [mbind option_bind].
  rewrite (proj2 (Z.leb_le n (buf_size p - offset))), Ea by lia.
  rewrite (proj2 (in_rangeb_spec 64 (a + offset))) by done. cbn [mbind option_bind].
  rewrite Er. cbn [mbind option_bind fst snd].
  rewrite (proj2 (Z.leb_le 1 n)) by lia. cbn [mbind option_bind].
  rewrite (proj2 (in_rangeb_spec 64 _)) by (unfold in_range; lia). cbn [mbind option_bind].
  by rewrite (proj2 (Z.ltb_lt _ _)) by lia.
Qed.

Lemma in_region_shift p m n k : in_region m p 0 n -> 0 <= k < n -> in_region m p k (n - k).
Proof.
  intros (a & s & l & Ea & Ho & Hn & Hs & Er & Hl) Hk. exists a, s, l.
  pose proof (region_of_spec _ _ _ _ Er) as [Hr _].
  split_and!; [done|lia..| |lia]. eapply region_of_same; [done|lia].
Qed.

Lemma read_bytes_drop m a n k l :
  (k <= n)%nat -> read_bytes m a n = Some l -> read_bytes m (a + Z.of_nat k) (n - k) = Some (drop k l).
Proof.
  revert a n l. induction k as [|k IH]; intros a n l Hk.
  { by rewrite Z.add_0_r, Nat.sub_0_r, drop_0. }
  destruct n as [|n]; [lia|]. cbn [read_bytes].
  destruct (byte_at m a); [|done]. destruct (read_bytes m (a + 1) n) eqn:E; [|done].
  intros [= <-]. cbn [drop Nat.sub]. rewrite <- (IH (a + 1) n _ ltac:(lia) E). f_equal. lia.
Qed.

(** [p] carries the data [l] in guest memory. *)
Definition carries m (p : VsockPacket) (l : list Z) : Prop :=
  exists a, buf_addr p = Some a /\ 0 < pkt_len p <= MAX_PKT_BUF_SIZE /\ pkt_len p <= buf_size p /\
    read_bytes m a (Z.to_nat (pkt_len p)) = Some l.

Lemma carries_length m p l : carries m p l -> Z.of_nat (length l) = pkt_len p /\ bytes_ok l.
Proof. intros (a & _ & ? & _ & E). apply read_bytes_ok in E as [-> ?]. split; [lia|done]. Qed.

(** A transfer out of the buffer is refused, with a bounds error and no effect,
    only when the bytes do not lie in one region; otherwise it is one write of
    exactly these bytes. *)
Lemma write_from_offset_cases {F} (wr : F -> list Z -> exec (result Z IoError * F)) m p l dst offset :
  carries m p l -> 0 <= offset < pkt_len p ->
  let n := pkt_len p - offset in
  write_from_offset_to wr p m offset dst n = Ret (Err GuestMemoryBounds, dst) /\
    ~ in_region m p offset n \/
  write_from_offset_to wr p m offset dst n =
    (w ← wr dst (drop (Z.to_nat offset) l);
     Ret (match w.1 with Ok n => Ok n | Err e => Err (GuestMemoryMmap (IOError e)) end, w.2)).
Proof.
  intros (a & Ea & Hlen & Hs & El) Ho n. unfold write_from_offset_to.
  destruct (buf_region_addr p m offset n) as [[[start len] ra]|e] eqn:E.
  - right. apply buf_region_addr_ok in E as (a' & Ea' & Hst & _). simplify_eq.
    unfold region_write_to. rewrite Hst.
    pose proof (read_bytes_drop m a (Z.to_nat (pkt_len p)) (Z.to_nat offset) l ltac:(lia) El) as Ed.
    rewrite Z2Nat.id in Ed by lia. replace (Z.to_nat n) with (Z.to_nat (pkt_len p) - Z.to_nat offset)%nat
      by lia. rewrite Ed. destruct (wr dst (drop (Z.to_nat offset) l)) as [[[k|e] d]|]; done.
  - left. split.
    + f_equal. f_equal. unfold buf_region_addr, checked_sub in E.
      rewrite (proj2 (Z.leb_le offset (buf_size p))) in E by lia. cbn [mbind option_bind] in E.
      rewrite (proj2 (Z.leb_le n (buf_size p - offset))), Ea in E by lia.
      by destruct (_ ≫= _) in E; simplify_eq.
    + intros (? & ? & ? & ? & _ & _ & Er & _)%in_region_access. congruence.
Qed.

(** A transfer into the buffer stores exactly the bytes read. *)
Lemma read_at_offset_ok {S} `{Stream S} p m (src : S) count n src' m' :
  read_at_offset_from p m 0 src count = (Ok n, src', m') ->
  exists a l, buf_addr p = Some a /\ read src count = (src', Ok l) /\
    n = Z.of_nat (length l) /\ n <= count <= buf_size p /\ 0 < count /\
    forall x, byte_at m' x =
      if (a <=? x) && (x <? a + n) then l !! Z.to_nat (x - a) else byte_at m x.
Proof.
  unfold read_at_offset_from.
  destruct (buf_region_addr p m 0 count) as [[[start len] ra]|e] eqn:E; [|done].
  apply buf_region_addr_ok in E as (a & Ea & Hst & Hc & Hcs & Hb).
  unfold region_read_from. rewrite Hst, Z.add_0_r.
  destruct (read src count) as [s [l|e]] eqn:Er; [|done].
  pose proof (read_ok _ _ _ _ (Z.lt_le_incl _ _ Hc) Er) as [Hl Hok].
  pose proof (write_byte_at m a l) as Hx.
  destruct (write_bytes m a l) as [[[]|g] m1] eqn:Ew; [|done]. cbn [fst snd] in Hx.
  intros [= <- <- <-]. exists a, l. split_and!; [done|done|done|lia..|]. intros x. by apply Hx.
Qed.

(** ... or changes nothing but, possibly, the stream. *)
Lemma read_at_offset_err {S} `{Stream S} p m (src : S) count e src' m' :
  read_at_offset_from p m 0 src count = (Err e, src', m') ->
  (src' = src \/ src' = (read src count).1) /\ m' = m.
Proof.
  unfold read_at_offset_from.
  destruct (buf_region_addr p m 0 count) as [[[start len] ra]|e'] eqn:E.
  2: { intros [= _ <- <-]. auto. }
  apply buf_region_addr_ok in E as (a & Ea & Hst & Hc & Hcs & Hb).
  unfold region_read_from. rewrite Hst, Z.add_0_r in *.
  destruct (read src count) as [s [l|e']] eqn:Er.
  2: { intros [= _ <- <-]. auto. }
  pose proof (read_ok _ _ _ _ (Z.lt_le_incl _ _ Hc) Er) as [Hl Hok].
  destruct (write_succeeds m a l Hok) as [_ Hw].
  destruct (write_bytes m a l) as [[[]|g] m1] eqn:Ew; [done|]. cbn [fst] in Hw.
  discriminate Hw. intros i Hi. apply Hb. lia.
Qed.
End Transfers.

Section Theorems.
Context {M : Type} `{GuestRegions M} `{Profile}.
Implicit Types m : M.

(** Finding the data buffer of a chain. *)
Lemma init_buf_outcome m p c b :
  in_range 16 (dc_ttl c) ->
  exists r p', init_buf m p c b = Ret (r, p') /\
    let ok d := next_descriptor m c = Ret (Some d) /\ is_write_only d = b /\
                check_range m (dc_addr d) (dc_len d) = true in
    match r with
    | Ok _ => exists d, ok d /\
        p' = mkPacket (hdr_addr p) (hdr p) (Some (dc_addr d)) (dc_len d)
    | Err _ => forall d, ~ ok d
    end.
Proof.
  intros Ht. destruct (next_descriptor_returns m c Ht) as [o Eo].
  unfold init_buf. rewrite Eo, bind_Ret. destruct o as [d|].
  2: { do 2 eexists. split; [done|]. by intros d [? _]. }
  destruct (check_desc_write_only d b) as [[]|e] eqn:Ed.
  - apply check_desc_write_only_ok in Ed.
    destruct (check_range _ _ _) eqn:Ec; cbn [negb]; do 2 eexists; (split; [done|]).
    + by exists d.
    + intros d' ([= <-] & _ & ?). congruence.
  - do 2 eexists. split; [done|]. intros d' ([= <-] & Hd & _).
    apply check_desc_write_only_ok in Hd. congruence.
Qed.

(** A TX chain is turned into a packet exactly when it describes one: a
    readable header of 44 bytes in guest memory, and, unless the header says there
    is no data, a readable buffer in guest memory that holds the stated number of
    bytes, at most 64 KiB.  The packet is the one described, and no chain makes the
    device panic. *)
Theorem from_tx_virtq_head_exact m c p :
  in_range 16 (dc_ttl c) ->
  exists r, from_tx_virtq_head m c = Ret r /\ (r = Ok p <-> tx_packet m c p).
Proof.
  intros Ht. unfold from_tx_virtq_head, tx_packet.
  destruct (check_hdr_desc m c false) as [[]|e] eqn:Ec.
  2: { eexists. split; [done|]. split; [done|]. intros (? & ? & ? & _).
       rewrite (proj2 (check_hdr_desc_ok m c false)) in Ec; done. }
  apply check_hdr_desc_ok in Ec as (Hw & Hb & Hl).
  rewrite (proj2 (check_range_spec m (dc_addr c) VSOCK_PKT_HDR_SIZE ltac:(done)) Hb). cbn [negb].
  destruct (read_header_ok m (dc_addr c) Hb) as (h & Eh & Hn). rewrite Eh.
  change (pkt_len (mkPacket (dc_addr c) h None 0)) with (h_len h).
  destruct (Z.eqb_spec (h_len h) 0) as [E0|E0].
  { eexists. split; [done|]. split; [intros [= <-]; naive_solver|].
    destruct p as [pa ph pb ps]. unfold pkt_len. cbn [hdr hdr_addr buf_addr buf_size].
    intros (_ & _ & _ & -> & [= <-] & [(_ & -> & ->)|]); [done|lia]. }
  unfold check_len. change (pkt_len (mkPacket (dc_addr c) h None 0)) with (h_len h).
  destruct (Z.ltb_spec MAX_PKT_BUF_SIZE (h_len h)) as [Hm|Hm].
  { eexists. split; [done|]. split; [done|]. unfold pkt_len.
    intros (_ & _ & _ & _ & [= ->] & [|]); lia. }
  destruct (init_buf_outcome m (mkPacket (dc_addr c) h None 0) c false Ht) as (r & p' & -> & Hr).
  rewrite bind_Ret. cbn [hdr hdr_addr] in Hr. destruct r as [[]|e].
  - destruct Hr as (d & (Ed & Hdw & Hdr) & ->).
    unfold pkt_len at 1. cbn [buf_size hdr].
    destruct (Z.ltb_spec (dc_len d) (h_len h)) as [Hs|Hs].
    + eexists. split; [done|]. split; [done|]. unfold pkt_len.
      intros (_ & _ & _ & _ & [= ->] & [|(_ & ? & b & ? & _ & _ & ? & _)]); [lia|].
      rewrite Ed in *. simplify_eq. lia.
    + rewrite check_range_spec in Hdr by lia. eexists. split; [done|]. unfold pkt_len. split.
      * intros [= <-]. cbn [hdr hdr_addr buf_addr buf_size]. split_and!; try done.
        right. split_and!; [lia..|]. by exists d.
      * intros (_ & _ & _ & Ha & [= Hh] & [|(_ & _ & b & Eb & _ & Hba & Hbs & _)]).
        { rewrite Hh in *. lia. }
        rewrite Ed in Eb. destruct p; cbn in *. by simplify_eq.
  - eexists. split; [done|]. split; [done|]. unfold pkt_len.
    intros (_ & _ & _ & _ & [= ->] & [|(? & ? & b & Eb & ? & ? & Hbs & Hbb)]); [lia|].
    exfalso. apply (Hr b). rewrite check_range_spec by lia. done.
Qed.

Lemma from_rx_virtq_head_ok m c p :
  in_range 16 (dc_ttl c) ->
  exists r, from_rx_virtq_head m c = Ret r /\ (r = Ok p -> rx_packet m c p).
Proof.
  intros Ht. unfold from_rx_virtq_head, rx_packet.
  destruct (check_hdr_desc m c true) as [[]|e] eqn:Ec; [|by eexists].
  apply check_hdr_desc_ok in Ec as (Hw & Hb & Hl).
  destruct (init_buf_outcome m (mkPacket (dc_addr c) default_header None 0) c true Ht)
    as (r & p' & -> & Hr). rewrite bind_Ret. eexists. split; [done|].
  destruct r as [[]|e]; [|done]. destruct Hr as (d & (Ed & Hdw & Hdr) & ->). intros [= <-].
  split_and!; try done. exists d. split_and!; try done. intros ?. by apply check_range_spec.
Qed.

(** A committed header is the header parsed back.  Committing a packet whose
    header lies in guest memory writes it there, and changes nothing else; a packet
    that states more than 64 KiB of data is refused. *)
Theorem commit_hdr_roundtrip p m :
  header_ok (hdr p) -> backed m (hdr_addr p) VSOCK_PKT_HDR_SIZE ->
  exists r m', commit_hdr p m = (r, m') /\
    if pkt_len p <=? MAX_PKT_BUF_SIZE then
      r = Ok tt /\ read_header m' (hdr_addr p) = Ok (hdr p) /\
      (forall x, ~ hdr_addr p <= x < hdr_addr p + VSOCK_PKT_HDR_SIZE -> byte_at m' x = byte_at m x)
    else r = Err (InvalidPktLen (pkt_len p)) /\ m' = m.
Proof.
  intros Hh Hb. unfold commit_hdr, check_len. rewrite Z.ltb_antisym.
  destruct (pkt_len p <=? MAX_PKT_BUF_SIZE); cbn [negb]; [|by do 2 eexists].
  pose proof (header_bytes_ok (hdr p)) as Hok. pose proof (length_header_bytes (hdr p)) as Hl.
  assert ((write_bytes m (hdr_addr p) (header_bytes (hdr p))).1 = Ok tt) as Hw.
  { apply write_succeeds; [done|]. intros i Hi. apply Hb.
    rewrite Hl in Hi. unfold VSOCK_PKT_HDR_SIZE in *. lia. }
  pose proof (write_byte_at m (hdr_addr p) (header_bytes (hdr p))) as Hx.
  destruct (write_bytes _ _ _) as [w m'] eqn:Ew. cbn [fst snd] in *. subst w.
  do 2 eexists. split; [done|]. split; [done|]. split.
  - unfold read_header. rewrite <- Hl, read_bytes_lookup; [by rewrite header_of_bytes|].
    intros i Hi. rewrite Hx by done. replace (_ && _) with true by lia. f_equal. lia.
  - intros x Hne. rewrite Hx, Hl by done. change (Z.of_nat _) with VSOCK_PKT_HDR_SIZE.
    destruct (Z.leb_spec (hdr_addr p) x), (Z.ltb_spec x (hdr_addr p + VSOCK_PKT_HDR_SIZE));
      done || lia.
Qed.
End Theorems.

(** ** Examples *)

Definition sample_header : VsockPacketHeader :=
  mkHeader 3 2 1024 5000 8 VSOCK_TYPE_STREAM VSOCK_OP_RW 0 65536 0.

(** A descriptor table of two entries (the second describes the eight bytes at
    128), a header at 64 and data at 128. *)
Definition sample_mem : list Z :=
  replicate 16 0 ++ le_encode 8 128 ++ le_encode 4 8 ++ le_encode 2 0 ++ le_encode 2 0 ++
  replicate 32 0 ++ header_bytes sample_header ++ replicate 20 0 ++ [1; 2; 3; 4; 5; 6; 7; 8].

Definition sample_chain : DescriptorChain := mkDescriptorChain 0 2 2 0 64 44 VIRTQ_DESC_F_NEXT 1.
Definition sample_packet : VsockPacket := mkPacket 64 sample_header (Some 128) 8.

Lemma sample_tx : @from_tx_virtq_head _ _ _ dev_profile sample_mem sample_chain = Ret (Ok sample_packet).
Proof. vm_compute. reflexivity. Qed.

Lemma from_tx_virtq_head_exact_witness :
  @from_tx_virtq_head _ _ _ dev_profile sample_mem sample_chain = Ret (Ok sample_packet) /\
  @tx_packet _ _ _ dev_profile sample_mem sample_chain sample_packet.
Proof.
  split; [exact sample_tx|].
  destruct (@from_tx_virtq_head_exact _ _ _ dev_profile sample_mem sample_chain sample_packet)
    as (r & E & Hr); [split; [discriminate|reflexivity]|].
  apply Hr. rewrite sample_tx in E. injection E as <-. reflexivity.
Defined.

Lemma sample_header_ok : header_ok sample_header.
Proof. unfold header_ok. split_and!; done. Qed.

Lemma sample_mem_size : flat_size sample_mem = 136.
Proof. vm_compute. reflexivity. Qed.

Lemma sample_mem_backed : backed sample_mem 64 VSOCK_PKT_HDR_SIZE.
Proof.
  intros x Hx. unfold VSOCK_PKT_HDR_SIZE in Hx. apply flat_backed. rewrite sample_mem_size. lia.
Qed.

Lemma commit_hdr_roundtrip_witness :
  exists r m', commit_hdr sample_packet sample_mem = (r, m') /\
    r = Ok tt /\ read_header m' 64 = Ok sample_header /\
    (forall x, ~ 64 <= x < 64 + VSOCK_PKT_HDR_SIZE -> byte_at m' x = byte_at sample_mem x).
Proof.
  exact (commit_hdr_roundtrip sample_packet sample_mem sample_header_ok sample_mem_backed).
Defined.
