(* ===== verification/VsockConnection.v ===== *)
(** * Vsock connections

    [devices/src/virtio/vsock/csm/connection.rs] and the state types of
    [csm/mod.rs]: the state machine of one connection between a guest's socket and
    a host stream, with the credit-based flow control in both directions.

    The host stream is any [Stream], guest memory any [GuestRegions].  A reading
    of the clock is an argument of the operations that make it, in milliseconds.
    Metrics and log messages are left out. *)

From Stdlib Require Import ZArith Lia.
From stdpp Require Import functions prelude gmap.
From S2P Require Import Prelude GuestMemory VirtioQueue TxBuf VsockPacket.

(** ** Definitions *)

Definition CONN_CREDIT_UPDATE_THRESHOLD : Z := 4 * 1024.
Definition CONN_REQUEST_TIMEOUT_MS : Z := 2000.
Definition CONN_SHUTDOWN_TIMEOUT_MS : Z := 2000.

Inductive ConnState :=
| LocalInit
| PeerInit
| Established
| LocalClosed
| PeerClosed (recv_off send_off : bool)
| Killed.

#[export] Instance ConnState_eq_dec : EqDecision ConnState.
Proof. solve_decision. Defined.

Inductive PendingRx := Request | Response | Rst | Rw | CreditUpdate.

(** [self as u16]. *)
Definition discriminant (it : PendingRx) : Z :=
  match it with Request => 0 | Response => 1 | Rst => 2 | Rw => 3 | CreditUpdate => 4 end.

Definition into_mask (it : PendingRx) : Z := Z.shiftl 1 (discriminant it).

(** [struct PendingRxSet] is its only field, a 16-bit word. *)
Definition PendingRxSet : Type := Z.

Definition rx_insert (s : PendingRxSet) (it : PendingRx) : PendingRxSet := Z.lor s (into_mask it).
Definition rx_contains (s : PendingRxSet) (it : PendingRx) : bool :=
  negb (Z.land s (into_mask it) =? 0).
Definition rx_remove (s : PendingRxSet) (it : PendingRx) : bool * PendingRxSet :=
  (rx_contains s it, Z.land s (2 ^ 16 - 1 - into_mask it)).
Definition rx_is_empty (s : PendingRxSet) : bool := s =? 0.
Definition rx_from (it : PendingRx) : PendingRxSet := into_mask it.

Record VsockConnection (S : Type) := mkConn {
  state : ConnState;
  local_cid : Z;
  peer_cid : Z;
  local_port : Z;
  peer_port : Z;
  stream : S;
  tx_buf : TxBuf;
  c_fwd_cnt : Z;
  peer_buf_alloc : Z;
  peer_fwd_cnt : Z;
  rx_cnt : Z;
  last_fwd_cnt_to_peer : Z;
  pending_rx : PendingRxSet;
  expiry : option Z
}.
Arguments mkConn {S}.
Arguments state {S}.
Arguments local_cid {S}.
Arguments peer_cid {S}.
Arguments local_port {S}.
Arguments peer_port {S}.
Arguments stream {S}.
Arguments tx_buf {S}.
Arguments c_fwd_cnt {S}.
Arguments peer_buf_alloc {S}.
Arguments peer_fwd_cnt {S}.
Arguments rx_cnt {S}.
Arguments last_fwd_cnt_to_peer {S}.
Arguments pending_rx {S}.
Arguments expiry {S}.

(** Assignments to one field. *)
Section Fields.
Context {S : Type}.
Implicit Types c : VsockConnection S.

Definition with_state c v := mkConn v (local_cid c) (peer_cid c) (local_port c) (peer_port c)
  (stream c) (tx_buf c) (c_fwd_cnt c) (peer_buf_alloc c) (peer_fwd_cnt c) (rx_cnt c)
  (last_fwd_cnt_to_peer c) (pending_rx c) (expiry c).
Definition with_stream c (v : S) := mkConn (state c) (local_cid c) (peer_cid c) (local_port c) (peer_port c)
  v (tx_buf c) (c_fwd_cnt c) (peer_buf_alloc c) (peer_fwd_cnt c) (rx_cnt c)
  (last_fwd_cnt_to_peer c) (pending_rx c) (expiry c).
Definition with_tx_buf c v := mkConn (state c) (local_cid c) (peer_cid c) (local_port c) (peer_port c)
  (stream c) v (c_fwd_cnt c) (peer_buf_alloc c) (peer_fwd_cnt c) (rx_cnt c)
  (last_fwd_cnt_to_peer c) (pending_rx c) (expiry c).
Definition with_fwd_cnt c v := mkConn (state c) (local_cid c) (peer_cid c) (local_port c) (peer_port c)
  (stream c) (tx_buf c) v (peer_buf_alloc c) (peer_fwd_cnt c) (rx_cnt c)
  (last_fwd_cnt_to_peer c) (pending_rx c) (expiry c).
Definition with_peer_credit c alloc fwd := mkConn (state c) (local_cid c) (peer_cid c)
  (local_port c) (peer_port c) (stream c) (tx_buf c) (c_fwd_cnt c) alloc fwd (rx_cnt c)
  (last_fwd_cnt_to_peer c) (pending_rx c) (expiry c).
Definition with_rx_cnt c v := mkConn (state c) (local_cid c) (peer_cid c) (local_port c) (peer_port c)
  (stream c) (tx_buf c) (c_fwd_cnt c) (peer_buf_alloc c) (peer_fwd_cnt c) v
  (last_fwd_cnt_to_peer c) (pending_rx c) (expiry c).
Definition with_last_fwd_cnt c v := mkConn (state c) (local_cid c) (peer_cid c) (local_port c)
  (peer_port c) (stream c) (tx_buf c) (c_fwd_cnt c) (peer_buf_alloc c) (peer_fwd_cnt c) (rx_cnt c)
  v (pending_rx c) (expiry c).
Definition with_pending_rx c v := mkConn (state c) (local_cid c) (peer_cid c) (local_port c)
  (peer_port c) (stream c) (tx_buf c) (c_fwd_cnt c) (peer_buf_alloc c) (peer_fwd_cnt c) (rx_cnt c)
  (last_fwd_cnt_to_peer c) v (expiry c).
Definition with_expiry c v := mkConn (state c) (local_cid c) (peer_cid c) (local_port c)
  (peer_port c) (stream c) (tx_buf c) (c_fwd_cnt c) (peer_buf_alloc c) (peer_fwd_cnt c) (rx_cnt c)
  (last_fwd_cnt_to_peer c) (pending_rx c) v.

Definition insert_rx c (it : PendingRx) := with_pending_rx c (rx_insert (pending_rx c) it).
End Fields.

Section Connection.
Context {S : Type} `{Stream S} {M : Type} `{GuestRegions M} `{Profile}.
Implicit Types c : VsockConnection S.

Abbreviation VErr := (VsockError GuestMemoryError).

Definition new_peer_init (stream0 : S) (local_cid0 peer_cid0 local_port0 peer_port0 peer_buf_alloc0 : Z)
    : VsockConnection S :=
  mkConn PeerInit local_cid0 peer_cid0 local_port0 peer_port0 stream0 TxBuf_new 0 peer_buf_alloc0
    0 0 0 (rx_from Response) None.

Definition new_local_init (stream0 : S) (local_cid0 peer_cid0 local_port0 peer_port0 : Z)
    : VsockConnection S :=
  mkConn LocalInit local_cid0 peer_cid0 local_port0 peer_port0 stream0 TxBuf_new 0 0
    0 0 0 (rx_from Request) None.

Definition will_expire c (now : Z) : bool :=
  match expiry c with None => false | Some t => now <? t end.
Definition has_expired c (now : Z) : bool :=
  match expiry c with None => false | Some t => t <=? now end.

Definition kill c : VsockConnection S := insert_rx (with_state c Killed) Rst.

Definition send_bytes_raw c (buf : list Z) : result Z (TxBufError IoError) * VsockConnection S :=
  let '(s, r) := write (stream c) buf in
  (match r with Ok n => Ok n | Err e => Err (StreamWrite e) end, with_stream c s).

Definition has_pending_rx c : bool := negb (rx_is_empty (pending_rx c)).

Definition peer_needs_credit_update c : bool :=
  let peer_seen_free_buf :=
    wsub 32 CONN_TX_BUF_SIZE (wsub 32 (c_fwd_cnt c) (last_fwd_cnt_to_peer c)) in
  peer_seen_free_buf <? CONN_CREDIT_UPDATE_THRESHOLD.

Definition peer_avail_credit c : Z :=
  wsub 32 (peer_buf_alloc c) (wsub 32 (rx_cnt c) (peer_fwd_cnt c)).

Definition need_credit_update_from_peer c : bool := peer_avail_credit c =? 0.

Definition init_pkt c (p : VsockPacket) : VsockPacket :=
  set_fwd_cnt
    (set_buf_alloc
       (set_type
          (set_dst_port
             (set_src_port (set_dst_cid (set_src_cid p (local_cid c)) (peer_cid c)) (local_port c))
             (peer_port c))
          VSOCK_TYPE_STREAM)
       CONN_TX_BUF_SIZE)
    (c_fwd_cnt c).

(** [Write::write] of the stream, as the argument of the packet's transfers. *)
Definition stream_write (s : S) (l : list Z) : exec (result Z IoError * S) :=
  let '(s, r) := write s l in Ret (r, s).

(** [Err(VsockError::GuestMemoryMmap(GuestMemoryError::IOError(err)))] with a kind
    of [WouldBlock]. *)
Definition would_block (e : VErr) : bool :=
  match e with
  | GuestMemoryMmap (IOError err) => match error_kind err with WouldBlock => true | _ => false end
  | _ => false
  end.

(** [written] bytes have gone to the stream: count them, and buffer the rest. *)
Definition send_rest c (m : M) (p : VsockPacket) (written : Z)
    : exec (result unit VErr * VsockConnection S) :=
  let len := pkt_len p in
  let c := with_fwd_cnt c (wadd 32 (c_fwd_cnt c) (wrap 32 written)) in
  if written <? len then
    n ← usub 64 len written;
    r ← write_from_offset_to TxBuf_write p m written (tx_buf c) n;
    Ret (match r.1 with Ok _ => Ok tt | Err e => Err e end, with_tx_buf c r.2)
  else Ret (Ok tt, c).

Definition send_bytes c (m : M) (p : VsockPacket) : exec (result unit VErr * VsockConnection S) :=
  let len := pkt_len p in
  if negb (TxBuf_is_empty (tx_buf c)) then
    r ← write_from_offset_to TxBuf_write p m 0 (tx_buf c) len;
    Ret (match r.1 with Ok _ => Ok tt | Err e => Err e end, with_tx_buf c r.2)
  else
    r ← write_from_offset_to stream_write p m 0 (stream c) len;
    let c := with_stream c r.2 in
    match
      match r.1 with
      | Ok cnt => Ok cnt
      | Err e => if would_block e then Ok 0 else Err e
      end
    with
    | Err e => Ret (Err e, c)
    | Ok written => send_rest c m p written
    end.

(** What [recv_pkt] does when nothing else was pending. *)
Definition recv_credit_update c (p : VsockPacket) (m : M)
    : result unit VErr * VsockConnection S * VsockPacket * M :=
  let '(update, s) := rx_remove (pending_rx c) CreditUpdate in
  let c := with_pending_rx c s in
  if update && negb (has_pending_rx c) then
    (Ok tt, with_last_fwd_cnt c (c_fwd_cnt c), set_op p VSOCK_OP_CREDIT_UPDATE, m)
  else (Err NoData, c, p, m).

(** A data packet is read from the stream. *)
Definition recv_read c (p : VsockPacket) (m : M) (now : Z)
    : result unit VErr * VsockConnection S * VsockPacket * M :=
  let max_len := Z.min (buf_size p) (peer_avail_credit c) in
  let '(r, s, m) := read_at_offset_from p m 0 (stream c) max_len in
  let c := with_stream c s in
  match r with
  | Ok read_cnt =>
      let '(c, p) :=
        if read_cnt =? 0 then
          (with_expiry (with_state c LocalClosed) (Some (now + CONN_SHUTDOWN_TIMEOUT_MS)),
           set_flag (set_flag (set_op p VSOCK_OP_SHUTDOWN) VSOCK_FLAGS_SHUTDOWN_RCV)
             VSOCK_FLAGS_SHUTDOWN_SEND)
        else (c, set_len (set_op p VSOCK_OP_RW) (wrap 32 read_cnt)) in
      let c := with_rx_cnt c (wadd 32 (rx_cnt c) (pkt_len p)) in
      (Ok tt, with_last_fwd_cnt c (c_fwd_cnt c), p, m)
  | Err e =>
      if would_block e then recv_credit_update c p m
      else (Ok tt, with_last_fwd_cnt c (c_fwd_cnt c), set_op p VSOCK_OP_RST, m)
  end.

Definition recv_data c (p : VsockPacket) (m : M) (now : Z)
    : result unit VErr * VsockConnection S * VsockPacket * M :=
  match state c with
  | Established | PeerClosed false _ =>
      if need_credit_update_from_peer c then
        (Ok tt, with_last_fwd_cnt c (c_fwd_cnt c), set_op p VSOCK_OP_CREDIT_REQUEST, m)
      else recv_read c p m now
  | _ => (Ok tt, c, set_op p VSOCK_OP_RST, m)
  end.

Definition recv_pkt c (p : VsockPacket) (m : M) (now : Z)
    : result unit VErr * VsockConnection S * VsockPacket * M :=
  let p := init_pkt c p in
  let '(rst, s) := rx_remove (pending_rx c) Rst in
  let c := with_pending_rx c s in
  if rst then (Ok tt, c, set_op p VSOCK_OP_RST, m)
  else
    let '(response, s) := rx_remove (pending_rx c) Response in
    let c := with_pending_rx c s in
    if response then (Ok tt, with_state c Established, set_op p VSOCK_OP_RESPONSE, m)
    else
      let '(request, s) := rx_remove (pending_rx c) Request in
      let c := with_pending_rx c s in
      if request then
        (Ok tt, with_expiry c (Some (now + CONN_REQUEST_TIMEOUT_MS)), set_op p VSOCK_OP_REQUEST, m)
      else
        let '(rw, s) := rx_remove (pending_rx c) Rw in
        let c := with_pending_rx c s in
        if rw then recv_data c p m now else recv_credit_update c p m.

Definition flag_set (p : VsockPacket) (flag : Z) : bool := negb (Z.land (flags p) flag =? 0).

(** A data packet from the guest. *)
Definition send_data c (p : VsockPacket) (m : M) : exec (VsockConnection S) :=
  if buf_size p =? 0 then Ret c
  else
    r ← send_bytes c m p;
    let '(r, c) := r in
    Ret (match r with
         | Err _ => kill c
         | Ok _ => if peer_needs_credit_update c then insert_rx c CreditUpdate else c
         end).

(** The arms of the match in the source's order; [send_pkt] always answers
    [Ok(())]. *)
Definition send_pkt c (p : VsockPacket) (m : M) (now : Z) : exec (VsockConnection S) :=
  let c := with_peer_credit c (buf_alloc p) (fwd_cnt p) in
  let has_op o := op p =? o in
  match state c, has_op VSOCK_OP_RW, has_op VSOCK_OP_RESPONSE, has_op VSOCK_OP_SHUTDOWN,
        has_op VSOCK_OP_CREDIT_UPDATE, has_op VSOCK_OP_CREDIT_REQUEST with
  | (Established | PeerClosed _ false), true, _, _, _, _ => send_data c p m
  | LocalInit, _, true, _, _, _ => Ret (with_state (with_expiry c None) Established)
  | Established, _, _, true, _, _ =>
      let recv_off := flag_set p VSOCK_FLAGS_SHUTDOWN_RCV in
      let send_off := flag_set p VSOCK_FLAGS_SHUTDOWN_SEND in
      let c := with_state c (PeerClosed recv_off send_off) in
      Ret (if recv_off && send_off then
             if TxBuf_is_empty (tx_buf c) then insert_rx c Rst
             else with_expiry c (Some (now + CONN_SHUTDOWN_TIMEOUT_MS))
           else c)
  | PeerClosed recv_off send_off, _, _, true, _, _ =>
      let recv_off := recv_off || flag_set p VSOCK_FLAGS_SHUTDOWN_RCV in
      let send_off := send_off || flag_set p VSOCK_FLAGS_SHUTDOWN_SEND in
      let c := with_state c (PeerClosed recv_off send_off) in
      Ret (if recv_off && send_off && TxBuf_is_empty (tx_buf c) then insert_rx c Rst else c)
  | (Established | PeerInit | PeerClosed false _), _, _, _, true, _ => Ret c
  | (Established | PeerInit | PeerClosed _ false), _, _, _, _, true =>
      Ret (insert_rx c CreditUpdate)
  | _, _, _, _, _, _ => Ret c
  end.

(** [EventSet], as whether it holds [IN] and [OUT]. *)
Definition get_polled_evset c : bool * bool :=
  let out := negb (TxBuf_is_empty (tx_buf c)) in
  match state c with
  | Killed | LocalClosed | PeerClosed true _ => (false, out)
  | _ => (negb (need_credit_update_from_peer c), out)
  end.

(** [EPOLLOUT]: flush the transmit buffer. *)
Definition notify_out c : exec (VsockConnection S) :=
  if TxBuf_is_empty (tx_buf c) then Ret c
  else
    r ← flush_to (tx_buf c) (stream c);
    let '(r, b, s) := r in
    let c := with_stream (with_tx_buf c b) s in
    let '(flushed, c) :=
      match r with
      | Ok n => (n, c)
      | Err (TxBufFlush inner) =>
          (0, match error_kind inner with WouldBlock => c | _ => kill c end)
      | Err _ => (0, kill c)
      end in
    let c := with_fwd_cnt c (wadd 32 (c_fwd_cnt c) (wrap 32 flushed)) in
    Ret (if bool_decide (state c = PeerClosed true true) && TxBuf_is_empty (tx_buf c)
         then insert_rx c Rst
         else if peer_needs_credit_update c then insert_rx c CreditUpdate else c).

Definition notify c (ev_in ev_out : bool) : exec (VsockConnection S) :=
  let c := if ev_in then insert_rx c Rw else c in
  if ev_out then notify_out c else Ret c.
End Connection.

(** ** Pending indications as a set *)

#[export] Instance PendingRx_eq_dec : EqDecision PendingRx.
Proof. solve_decision. Defined.

(** Only the five indications are in the set. *)
Definition pending_ok (s : PendingRxSet) : Prop :=
  forall n, n < 0 \/ 5 <= n -> Z.testbit s n = false.

Lemma into_mask_bit it n : Z.testbit (into_mask it) n = (n =? discriminant it).
Proof.
  unfold into_mask. rewrite Z.shiftl_1_l. destruct (Z.ltb_spec n 0) as [Hn|Hn].
  - rewrite Z.testbit_neg_r by done. symmetry. apply Z.eqb_neq. destruct it; cbn; lia.
  - rewrite Z.pow2_bits_eqb by (destruct it; cbn; lia). apply Z.eqb_sym.
Qed.

Lemma rx_contains_bit s it : rx_contains s it = Z.testbit s (discriminant it).
Proof.
  unfold rx_contains. destruct (Z.testbit s (discriminant it)) eqn:E.
  - apply negb_true_iff, Z.eqb_neq. intros E0.
    assert (Z.testbit (Z.land s (into_mask it)) (discriminant it) = true) as Hb
      by (by rewrite Z.land_spec, into_mask_bit, E, Z.eqb_refl).
    by rewrite E0, Z.bits_0 in Hb.
  - apply negb_false_iff, Z.eqb_eq, Z.bits_inj. intros n.
    rewrite Z.land_spec, into_mask_bit, Z.bits_0.
    destruct (Z.eqb_spec n (discriminant it)) as [->|]; [by rewrite E|by rewrite andb_false_r].
Qed.

Lemma rx_contains_insert s a b :
  rx_contains (rx_insert s a) b = rx_contains s b || bool_decide (a = b).
Proof.
  rewrite !rx_contains_bit. unfold rx_insert. rewrite Z.lor_spec, into_mask_bit.
  f_equal. by destruct a, b.
Qed.

Lemma rx_contains_remove s a b :
  rx_contains (rx_remove s a).2 b = rx_contains s b && bool_decide (a <> b).
Proof.
  rewrite !rx_contains_bit. unfold rx_remove. cbn [snd]. rewrite Z.land_spec.
  f_equal. by destruct a, b.
Qed.

Lemma rx_remove_found s a : (rx_remove s a).1 = rx_contains s a.
Proof. done. Qed.

Lemma pending_ok_insert s a : pending_ok s -> pending_ok (rx_insert s a).
Proof.
  intros Hs n Hn. unfold rx_insert. rewrite Z.lor_spec, into_mask_bit, Hs by done.
  apply Z.eqb_neq. destruct a; cbn; lia.
Qed.

Lemma pending_ok_remove s a : pending_ok s -> pending_ok (rx_remove s a).2.
Proof. intros Hs n Hn. unfold rx_remove. cbn [snd]. by rewrite Z.land_spec, Hs. Qed.

Lemma pending_ok_from a : pending_ok (rx_from a).
Proof. intros n Hn. unfold rx_from. rewrite into_mask_bit. apply Z.eqb_neq. destruct a; cbn; lia. Qed.

Lemma rx_is_empty_spec s :
  pending_ok s -> rx_is_empty s = true <-> forall it, rx_contains s it = false.
Proof.
  intros Hs. unfold rx_is_empty. rewrite Z.eqb_eq. setoid_rewrite rx_contains_bit. split.
  - intros -> it. apply Z.bits_0.
  - intros Hb. apply Z.bits_inj. intros n. rewrite Z.bits_0.
    destruct (decide (n < 0 \/ 5 <= n)) as [Hn|Hn]; [by apply Hs|].
    assert (n = 0 \/ n = 1 \/ n = 2 \/ n = 3 \/ n = 4) as [->|[->|[->|[->| ->]]]] by lia.
    + apply (Hb Request).
    + apply (Hb Response).
    + apply (Hb Rst).
    + apply (Hb Rw).
    + apply (Hb CreditUpdate).
Qed.

#[export] Hint Resolve pending_ok_insert pending_ok_remove pending_ok_from : rust.

(** ** Specification

    The guest-to-host direction of a connection is a byte stream: what the guest
    has sent is what the host stream has accepted followed by what the transmit
    buffer holds. *)

Section Spec.
Context {S : Type} `{Stream S} {M : Type} `{GuestRegions M} `{Profile}.
Implicit Types c : VsockConnection S.
Implicit Types m : M.

(** A packet as the device gets it from a TX chain ([tx_packet]), with its data. *)
Definition guest_packet m (p : VsockPacket) (l : list Z) : Prop :=
  pkt_len p = 0 /\ buf_size p = 0 /\ l = [] \/ carries m p l.

(** The connection takes the data of [p]. *)
Definition takes_data c (p : VsockPacket) : bool :=
  match state c with
  | Established | PeerClosed _ false => op p =? VSOCK_OP_RW
  | _ => false
  end.

(** One operation on a live connection, with the data it takes from the guest.
    The muxer drops a connection that has yielded an RST packet. *)
Inductive conn_step : VsockConnection S -> list Z -> VsockConnection S -> Prop :=
| step_send c p m now l c' :
    guest_packet m p l -> send_pkt c p m now = Ret c' ->
    conn_step c (if takes_data c p then l else []) c'
| step_recv c p m now r c' p' m' :
    recv_pkt c p m now = (r, c', p', m') -> ~ (r = Ok tt /\ op p' = VSOCK_OP_RST) ->
    conn_step c [] c'
| step_notify c ev_in ev_out c' : notify c ev_in ev_out = Ret c' -> conn_step c [] c'
| step_kill c : conn_step c [] (kill c).

Inductive conn_run c : list Z -> VsockConnection S -> Prop :=
| run_nil : conn_run c [] c
| run_step l c' l' c'' : conn_run c l c' -> conn_step c' l' c'' -> conn_run c (l ++ l') c''.

(** Bytes written to the stream since it held [base]. *)
Definition forwarded (base : list Z) c : Z :=
  Z.of_nat (length (accepted (stream c))) - Z.of_nat (length base).

(** [sent] is what the guest has sent since the stream held [base]. *)
Record conn_inv (base sent : list Z) c : Prop := {
  ci_buf : txbuf_wf (tx_buf c);
  ci_ledger : exists lost, base ++ sent = accepted (stream c) ++ contents (tx_buf c) ++ lost /\
                (state c <> Killed -> lost = []);
  ci_fwd : c_fwd_cnt c = wrap 32 (forwarded base c);
  ci_killed : state c = Killed -> rx_contains (pending_rx c) Rst = true;
  ci_pending : pending_ok (pending_rx c)
}.

(** [c'] is [c] but for the guest-to-host data path. *)
Definition tx_frame c c' : Prop :=
  c' = with_tx_buf (with_fwd_cnt (with_stream c (stream c')) (c_fwd_cnt c')) (tx_buf c').

(** The effect of sending the data [l] of a packet: [out] goes to the stream and
    the rest to the buffer, unless the operation fails. *)
Definition tx_effect c m p (l : list Z) (r : result unit (VsockError GuestMemoryError)) c' : Prop :=
  exists out lost, tx_frame c c' /\ txbuf_wf (tx_buf c') /\
    accepted (stream c') = accepted (stream c) ++ out /\
    c_fwd_cnt c' = wrap 32 (c_fwd_cnt c + Z.of_nat (length out)) /\
    contents (tx_buf c) ++ l = out ++ contents (tx_buf c') ++ lost /\
    match r with
    | Ok _ => lost = []
    | Err _ =>
        ~ in_region m p 0 (pkt_len p) \/ SIZE < TxBuf_len (tx_buf c) + Z.of_nat (length l) \/
        exists e, (write (stream c) l).2 = Err e /\ error_kind e <> WouldBlock
    end.
End Spec.

(** ** Lemmas *)

Section Tx.
Context {S : Type} `{Stream S} {M : Type} `{GuestRegions M} `{Profile}.
Implicit Types c : VsockConnection S.
Implicit Types m : M.

Lemma TxBuf_write_outcome b l :
  txbuf_wf b -> Z.of_nat (length l) <= SIZE ->
  exists r b', TxBuf_write b l = Ret (r, b') /\ txbuf_wf b' /\
    if TxBuf_len b + Z.of_nat (length l) <=? SIZE
    then r = Ok (Z.of_nat (length l)) /\ contents b' = contents b ++ l
    else (exists e, r = Err e) /\ b' = b.
Proof.
  intros Hb Hl. destruct (push_outcome (E := IoError) b l Hb) as (r & b' & E & Hwf & Hr).
  { unfold SIZE, CONN_TX_BUF_SIZE in Hl. lia. }
  unfold TxBuf_write. rewrite E, bind_Ret. do 2 eexists. split; [done|]. split; [done|].
  cbn [fst snd]. destruct (_ <=? SIZE); destruct Hr as [-> ?]; split; try done. by eexists.
Qed.

Lemma contents_empty b : txbuf_wf b -> TxBuf_len b = 0 -> contents b = [].
Proof. intros Hb He. apply nil_length_inv. pose proof (length_contents _ Hb). lia. Qed.

Lemma carries_size m p l : carries m p l -> 0 < pkt_len p <= SIZE.
Proof. by intros (? & _ & ? & _). Qed.

(** An operation that fails at once. *)
Lemma tx_effect_refused c m p l e :
  txbuf_wf (tx_buf c) -> in_range 32 (c_fwd_cnt c) ->
  ~ in_region m p 0 (pkt_len p) \/ SIZE < TxBuf_len (tx_buf c) + Z.of_nat (length l) \/
    (exists e, (write (stream c) l).2 = Err e /\ error_kind e <> WouldBlock) ->
  forall s, accepted s = accepted (stream c) -> tx_effect c m p l (Err e) (with_stream c s).
Proof.
  intros Hb Hf Hr s Hs. exists [], l. rewrite app_nil_r, Z.add_0_r, wrap_id by done.
  split_and!; done.
Qed.

(** The bytes past [written] are buffered, unless they cross a region. *)
Lemma send_rest_outcome c s m p l written :
  txbuf_wf (tx_buf c) -> carries m p l -> TxBuf_len (tx_buf c) = 0 -> 0 <= written <= pkt_len p ->
  accepted s = accepted (stream c) ++ take (Z.to_nat written) l ->
  exists r c', send_rest (with_stream c s) m p written = Ret (r, c') /\ tx_effect c m p l r c'.
Proof.
  intros Hb Hc He Hw Ha. pose proof (carries_length _ _ _ Hc) as [Hl _].
  pose proof (carries_size _ _ _ Hc) as Hp. assert (SIZE = 65536) as HS by done.
  pose proof (contents_empty _ Hb He) as Hc0.
  assert (wadd 32 (c_fwd_cnt c) (wrap 32 written) = wrap 32 (c_fwd_cnt c + written)) as Hf
    by (unfold wadd; by rewrite wrap_add_r).
  assert (Z.of_nat (length (take (Z.to_nat written) l)) = written) as Ht
    by (rewrite length_take; lia).
  unfold send_rest. change (c_fwd_cnt (with_stream c s)) with (c_fwd_cnt c). rewrite Hf.
  destruct (Z.ltb_spec written (pkt_len p)) as [Hlt|Hge].
  2: { do 2 eexists. split; [done|]. exists (take (Z.to_nat written) l), []. rewrite Ht.
       split_and!; try done. change (tx_buf (with_fwd_cnt _ _)) with (tx_buf c).
       rewrite Hc0, take_ge, !app_nil_r by lia. done. }
  rewrite usub_ok, bind_Ret by (unfold in_range; lia).
  change (tx_buf (with_fwd_cnt _ _)) with (tx_buf c).
  destruct (write_from_offset_cases TxBuf_write m p l (tx_buf c) written Hc ltac:(lia))
    as [[-> Hn]| ->].
  { rewrite bind_Ret. cbn [fst snd]. do 2 eexists. split; [done|].
    exists (take (Z.to_nat written) l), (drop (Z.to_nat written) l). rewrite Ht.
    split_and!; try done.
    - change (tx_buf (with_tx_buf _ _)) with (tx_buf c). rewrite Hc0. cbn [app]. by rewrite take_drop.
    - left. intros Hr. apply Hn. apply in_region_shift; [done|lia]. }
  destruct (TxBuf_write_outcome (tx_buf c) (drop (Z.to_nat written) l) Hb) as (r & b & -> & Hwf & Hr);
    [rewrite length_drop; lia|].
  rewrite (proj2 (Z.leb_le _ _)) in Hr by (rewrite length_drop; lia). destruct Hr as [-> Hr].
  rewrite !bind_Ret. do 2 eexists. split; [done|]. exists (take (Z.to_nat written) l), [].
  rewrite Ht. split_and!; try done. change (tx_buf (with_tx_buf _ _)) with b.
  rewrite Hr, Hc0, app_nil_r. cbn [app]. by rewrite take_drop.
Qed.

Lemma send_bytes_outcome c m p l :
  txbuf_wf (tx_buf c) -> carries m p l -> in_range 32 (c_fwd_cnt c) ->
  exists r c', send_bytes c m p = Ret (r, c') /\ tx_effect c m p l r c'.
Proof.
  intros Hb Hc Hf. pose proof (carries_length _ _ _ Hc) as [Hl _].
  pose proof (carries_size _ _ _ Hc) as Hp.
  assert (with_stream c (stream c) = c) as Hsame by (by destruct c).
  unfold send_bytes. destruct (TxBuf_is_empty (tx_buf c)) eqn:Ee; cbn [negb].
  - apply Z.eqb_eq in Ee.
    pose proof (write_from_offset_cases stream_write m p l (stream c) 0 Hc ltac:(lia)) as Hcases.
    cbv zeta in Hcases. rewrite Z.sub_0_r, drop_0 in Hcases. destruct Hcases as [[-> Hn]| ->].
    { rewrite bind_Ret. cbn [fst snd would_block]. do 2 eexists. split; [done|].
      apply tx_effect_refused; auto. }
    unfold stream_write. destruct (write (stream c) l) as [s w] eqn:Ew. rewrite !bind_Ret.
    cbn [fst snd]. destruct w as [n|e].
    + apply write_ok in Ew as [Hn Ha]. apply send_rest_outcome; done || lia.
    + pose proof (write_err _ _ _ _ Ew) as Ha. cbn [would_block].
      destruct (error_kind e) eqn:Ek;
        [apply send_rest_outcome; try done; [lia|by rewrite Ha, app_nil_r]|..];
        do 2 eexists; (split; [done|]); apply tx_effect_refused; try done; right; right;
        exists e; rewrite Ew, Ek; done.
  - pose proof (write_from_offset_cases TxBuf_write m p l (tx_buf c) 0 Hc ltac:(lia)) as Hcases.
    cbv zeta in Hcases. rewrite Z.sub_0_r, drop_0 in Hcases.
    assert (with_tx_buf c (tx_buf c) = with_stream c (stream c)) as Hbuf by (by destruct c).
    destruct Hcases as [[-> Hn]| ->].
    { rewrite bind_Ret. cbn [fst snd]. rewrite Hbuf. do 2 eexists. split; [done|].
      apply tx_effect_refused; auto. }
    destruct (TxBuf_write_outcome (tx_buf c) l Hb ltac:(lia)) as (r & b & -> & Hwf & Hr).
    rewrite !bind_Ret. cbn [fst snd].
    destruct (Z.leb_spec (TxBuf_len (tx_buf c) + Z.of_nat (length l)) SIZE).
    + destruct Hr as [-> Hr]. do 2 eexists. split; [done|]. exists [], [].
      rewrite !app_nil_r, Z.add_0_r, wrap_id by done. split_and!; try done.
    + destruct Hr as [[e ->] ->]. rewrite Hbuf. do 2 eexists. split; [done|].
      apply tx_effect_refused; auto.
Qed.
End Tx.

Section Steps.
Context {S : Type} `{Stream S} {M : Type} `{GuestRegions M} `{Profile}.
Implicit Types c : VsockConnection S.
Implicit Types m : M.

(** [s'] is [s] with some of the indications that answer a packet. *)
Record grows (s s' : PendingRxSet) : Prop := {
  gr_ok : pending_ok s -> pending_ok s';
  gr_keeps it : rx_contains s it = true -> rx_contains s' it = true;
  gr_init it : it = Response \/ it = Request -> rx_contains s' it = rx_contains s it
}.

(** [s'] is [s] with some indications removed. *)
Record shrinks (s s' : PendingRxSet) : Prop := {
  sh_ok : pending_ok s -> pending_ok s';
  sh_sub it : rx_contains s' it = true -> rx_contains s it = true
}.

Lemma grows_refl s : grows s s.
Proof. done. Qed.

Lemma shrinks_refl s : shrinks s s.
Proof. done. Qed.

Lemma grows_insert s it : it <> Response -> it <> Request -> grows s (rx_insert s it).
Proof.
  intros ??. split; [apply pending_ok_insert|..]; intros it'; rewrite rx_contains_insert.
  - by intros ->.
  - intros ?. rewrite bool_decide_eq_false_2; [by rewrite orb_false_r|]. naive_solver.
Qed.

Lemma grows_trans s s' s'' : grows s s' -> grows s' s'' -> grows s s''.
Proof.
  intros [? ? E] [? ? E']. split; [auto..|]. intros it Hit. by rewrite E', E.
Qed.

Lemma shrinks_remove s it : shrinks s (rx_remove s it).2.
Proof.
  split; [apply pending_ok_remove|]. intros it'. rewrite rx_contains_remove.
  by intros [? _]%andb_true_iff.
Qed.

Lemma shrinks_trans s s' s'' : shrinks s s' -> shrinks s' s'' -> shrinks s s''.
Proof. intros [? ?] [? ?]. split; auto. Qed.

(** A step that leaves the data path alone. *)
Definition control c c' : Prop :=
  stream c' = stream c /\ tx_buf c' = tx_buf c /\ c_fwd_cnt c' = c_fwd_cnt c /\
  last_fwd_cnt_to_peer c' = last_fwd_cnt_to_peer c /\
  (state c' = Killed <-> state c = Killed) /\ grows (pending_rx c) (pending_rx c').

Lemma send_pkt_data c p m now :
  takes_data c p = true ->
  send_pkt c p m now = send_data (with_peer_credit c (buf_alloc p) (fwd_cnt p)) p m.
Proof.
  unfold takes_data, send_pkt. cbv zeta beta.
  change (state (with_peer_credit c _ _)) with (state c).
  destruct (state c) as [| | | |[] []|]; intros E; try done; by rewrite E.
Qed.

Ltac solve_control Es :=
  eexists; split; [done|];
  split; [done|]; split; [done|]; split; [done|]; split; [done|];
  split; [cbn; rewrite ?Es; done|];
  first [apply grows_refl | apply grows_insert; done].

Lemma send_pkt_control c p m now :
  takes_data c p = false -> exists c', send_pkt c p m now = Ret c' /\ control c c'.
Proof.
  unfold takes_data, send_pkt. cbv zeta beta.
  change (state (with_peer_credit c _ _)) with (state c). intros E.
  destruct (state c) as [| | | |[] []|] eqn:Es; rewrite ?E; clear E.
  all: repeat match goal with |- context [if ?b then _ else _] => destruct b end; solve_control Es.
Qed.

(** A data packet: the data path moves on, then the connection may be killed or
    owe the guest a credit update. *)
Lemma send_data_outcome c m p l :
  txbuf_wf (tx_buf c) -> carries m p l -> in_range 32 (c_fwd_cnt c) ->
  exists r c1 c', send_data c p m = Ret c' /\ tx_effect c m p l r c1 /\
    match r with
    | Err _ => c' = kill c1
    | Ok _ => c' = (if peer_needs_credit_update c1 then insert_rx c1 CreditUpdate else c1)
    end.
Proof.
  intros Hb Hc Hf. pose proof (carries_size _ _ _ Hc) as Hp.
  destruct (send_bytes_outcome c m p l Hb Hc Hf) as (r & c1 & E & Hr).
  unfold send_data. destruct Hc as (? & _ & _ & ? & _). rewrite (proj2 (Z.eqb_neq _ _)) by lia.
  rewrite E, bind_Ret. exists r, c1. eexists. split; [done|]. split; [done|]. by destruct r.
Qed.

(** Flushing the buffer on [EPOLLOUT]. *)
Lemma notify_out_outcome c :
  txbuf_wf (tx_buf c) ->
  exists c', notify_out c = Ret c' /\
    exists out c1, tx_frame c c1 /\ txbuf_wf (tx_buf c1) /\
      accepted (stream c1) = accepted (stream c) ++ out /\
      contents (tx_buf c) = out ++ contents (tx_buf c1) /\
      (c' = c /\ out = [] \/
       exists c2, (c2 = c1 \/ c2 = kill c1) /\
         c_fwd_cnt c1 = wrap 32 (c_fwd_cnt c + Z.of_nat (length out)) /\
         c' = (if bool_decide (state c2 = PeerClosed true true) && TxBuf_is_empty (tx_buf c2)
               then insert_rx c2 Rst
               else if peer_needs_credit_update c2 then insert_rx c2 CreditUpdate else c2)).
Proof.
  intros Hb. unfold notify_out. destruct (TxBuf_is_empty (tx_buf c)) eqn:Ee.
  { eexists. split; [done|]. exists [], c. rewrite app_nil_r. split; [by destruct c|].
    split_and!; try done. by left. }
  destruct (flush_to_outcome (tx_buf c) (stream c) Hb) as (r & b & s & out & -> & Hwf & Ha & Hcon & Hr).
  rewrite bind_Ret. set (c0 := with_stream (with_tx_buf c b) s).
  set (c1 := with_fwd_cnt c0 (wrap 32 (c_fwd_cnt c + Z.of_nat (length out)))).
  assert (forall n, n = Z.of_nat (length out) ->
    wadd 32 (c_fwd_cnt c) (wrap 32 n) = wrap 32 (c_fwd_cnt c + Z.of_nat (length out))) as Hf
    by (intros n ->; unfold wadd; by rewrite wrap_add_r).
  assert (exists c2, (c2 = c1 \/ c2 = kill c1) /\
    (let '(flushed, c) :=
       match r with
       | Ok n => (n, c0)
       | Err (TxBufFlush inner) => (0, match error_kind inner with WouldBlock => c0 | _ => kill c0 end)
       | Err _ => (0, kill c0)
       end in
     with_fwd_cnt c (wadd 32 (c_fwd_cnt c) (wrap 32 flushed))) = c2) as (c2 & Hc2 & E2).
  { destruct r as [n|[|e|e]]; [|destruct Hr as [-> _]..]; [| |destruct (error_kind e)|];
      (eexists; split; [|reflexivity]); change (c_fwd_cnt _) with (c_fwd_cnt c);
      rewrite Hf by done; auto. }
  revert E2. destruct (match r with Ok _ => _ | Err _ => _ end) as [flushed c3]. intros ->.
  eexists. split; [reflexivity|]. exists out, c1. split_and!; try done. right. by exists c2.
Qed.

(** What a call of [recv_pkt] changes besides the packet. *)
Definition recv_effect c (r : result unit (VsockError GuestMemoryError)) c' (p' : VsockPacket) : Prop :=
  tx_buf c' = tx_buf c /\ c_fwd_cnt c' = c_fwd_cnt c /\ accepted (stream c') = accepted (stream c) /\
  shrinks (pending_rx c) (pending_rx c') /\
  match r with
  | Err _ =>
      state c' = state c /\ last_fwd_cnt_to_peer c' = last_fwd_cnt_to_peer c /\
      rx_contains (pending_rx c) CreditUpdate = false
  | Ok _ =>
      op p' = VSOCK_OP_RST \/
      fwd_cnt p' = c_fwd_cnt c /\ (state c' = Killed -> state c = Killed) /\
      (last_fwd_cnt_to_peer c' = c_fwd_cnt c \/
       last_fwd_cnt_to_peer c' = last_fwd_cnt_to_peer c /\
       (rx_contains (pending_rx c) Response = true \/ rx_contains (pending_rx c) Request = true))
  end.

(** Nothing but a credit update is pending. *)
Definition only_credit c : Prop :=
  pending_ok (pending_rx c) /\ forall it, it <> CreditUpdate -> rx_contains (pending_rx c) it = false.

Lemma recv_credit_update_effect c p m r c' p' m' :
  only_credit c -> fwd_cnt p = c_fwd_cnt c ->
  recv_credit_update c p m = (r, c', p', m') -> recv_effect c r c' p'.
Proof.
  intros [Hok Hp] Hf. unfold recv_credit_update.
  destruct (rx_remove (pending_rx c) CreditUpdate) as [u s] eqn:E.
  pose proof (eq_sym (f_equal fst E)) as Hu. pose proof (eq_sym (f_equal snd E)) as Hs.
  cbn [fst snd] in Hu, Hs. rewrite rx_remove_found in Hu. clear E.
  assert (has_pending_rx (with_pending_rx c s) = false) as ->.
  { apply negb_false_iff, rx_is_empty_spec; cbn [pending_rx with_pending_rx]; subst s;
      [by apply pending_ok_remove|].
    intros it. rewrite rx_contains_remove. destruct (decide (CreditUpdate = it)) as [<-|Hn].
    - by rewrite andb_false_r.
    - by rewrite Hp by done. }
  pose proof (shrinks_remove (pending_rx c) CreditUpdate) as Hsh. rewrite <- Hs in Hsh.
  destruct u; cbn [andb negb]; intros [= <- <- <- <-]; split_and!; try done.
  right. split_and!; try done. by left.
Qed.

Lemma read_at_offset_accepted p m (s s' : S) n r m' :
  read_at_offset_from p m 0 s n = (r, s', m') -> accepted s' = accepted s.
Proof.
  destruct r as [k|e]; intros E.
  - apply read_at_offset_ok in E as (a & l & _ & E & _). by rewrite <- (read_accepted s n), E.
  - apply read_at_offset_err in E as [[->| ->] _]; [done|apply read_accepted].
Qed.

Lemma recv_read_effect c p m now r c' p' m' :
  only_credit c -> fwd_cnt p = c_fwd_cnt c -> state c <> Killed ->
  recv_read c p m now = (r, c', p', m') -> recv_effect c r c' p'.
Proof.
  intros Hp Hf Hs. unfold recv_read. pose proof (shrinks_refl (pending_rx c)) as Hsh.
  destruct (read_at_offset_from p m 0 (stream c) _) as [[rd s] m1] eqn:Er.
  apply read_at_offset_accepted in Er as Ha. destruct rd as [n|e].
  - destruct (n =? 0); intros [= <- <- <- <-]; split_and!; try done; right; split_and!; try done; by left.
  - destruct (would_block e).
    + intros E. apply recv_credit_update_effect in E as (Hb & Hc & Hst & Hrest); [|done..].
      split_and!; [done|done|by rewrite Hst|apply Hrest|apply Hrest].
    + intros [= <- <- <- <-]. split_and!; try done. by left.
Qed.

Lemma recv_data_effect c p m now r c' p' m' :
  only_credit c -> fwd_cnt p = c_fwd_cnt c ->
  recv_data c p m now = (r, c', p', m') -> recv_effect c r c' p'.
Proof.
  intros Hp Hf. unfold recv_data. pose proof (shrinks_refl (pending_rx c)) as Hsh.
  destruct (state c) as [| | | |[] ?|] eqn:Es;
    try (intros [= <- <- <- <-]; split_and!; try done; by left).
  all: destruct (need_credit_update_from_peer c);
    [intros [= <- <- <- <-]; split_and!; try done; right; split_and!; try done; by left|].
  all: apply recv_read_effect; [done|done|congruence].
Qed.

(** The set without some indications. *)
Definition without (s : PendingRxSet) (its : list PendingRx) : PendingRxSet :=
  foldl (fun s it => (rx_remove s it).2) s its.

Lemma rx_contains_without s its it :
  rx_contains (without s its) it = rx_contains s it && bool_decide (it ∉ its).
Proof.
  revert s. induction its as [|a its IH]; intros s.
  { by rewrite bool_decide_eq_true_2, andb_true_r by apply not_elem_of_nil. }
  change (without s (a :: its)) with (without (rx_remove s a).2 its).
  rewrite IH, rx_contains_remove, <- andb_assoc. f_equal.
  destruct (decide (a = it)) as [->|Hn].
  - rewrite bool_decide_eq_false_2 by naive_solver. symmetry. apply bool_decide_eq_false.
    rewrite not_elem_of_cons. naive_solver.
  - rewrite bool_decide_eq_true_2 by done. apply bool_decide_ext. rewrite not_elem_of_cons.
    naive_solver.
Qed.

Lemma shrinks_without s its : shrinks s (without s its).
Proof.
  revert s. induction its as [|a its IH]; intros s; [done|].
  change (without s (a :: its)) with (without (rx_remove s a).2 its).
  eapply shrinks_trans; [apply shrinks_remove|apply IH].
Qed.

(** [recv_pkt] answers the most urgent indication. *)
Lemma recv_pkt_priority c p m now :
  let q := init_pkt c p in
  let left its := with_pending_rx c (without (pending_rx c) its) in
  recv_pkt c p m now =
    if rx_contains (pending_rx c) Rst then (Ok tt, left [Rst], set_op q VSOCK_OP_RST, m)
    else if rx_contains (pending_rx c) Response then
      (Ok tt, with_state (left [Rst; Response]) Established, set_op q VSOCK_OP_RESPONSE, m)
    else if rx_contains (pending_rx c) Request then
      (Ok tt, with_expiry (left [Rst; Response; Request]) (Some (now + CONN_REQUEST_TIMEOUT_MS)),
       set_op q VSOCK_OP_REQUEST, m)
    else if rx_contains (pending_rx c) Rw then
      recv_data (left [Rst; Response; Request; Rw]) q m now
    else recv_credit_update (left [Rst; Response; Request; Rw]) q m.
Proof.
  cbv zeta. unfold recv_pkt.
  assert (forall s a, rx_remove s a = (rx_contains s a, without s [a])) as Hr by done.
  assert (forall s its a, without (without s its) [a] = without s (its ++ [a])) as Hw.
  { intros s its a. unfold without. by rewrite foldl_app. }
  rewrite Hr. destruct (rx_contains (pending_rx c) Rst); [done|].
  rewrite Hr. cbn [pending_rx with_pending_rx]. rewrite rx_contains_without, andb_true_r.
  destruct (rx_contains (pending_rx c) Response); [by rewrite Hw|].
  rewrite Hr, Hw. cbn [pending_rx with_pending_rx app]. rewrite rx_contains_without, andb_true_r.
  destruct (rx_contains (pending_rx c) Request); [by rewrite Hw|].
  rewrite Hr, Hw. cbn [pending_rx with_pending_rx app]. rewrite rx_contains_without, andb_true_r.
  rewrite Hw. by destruct (rx_contains (pending_rx c) Rw).
Qed.

Lemma recv_effect_without c its r c' p' :
  CreditUpdate ∉ its -> Response ∈ its -> Request ∈ its ->
  recv_effect (with_pending_rx c (without (pending_rx c) its)) r c' p' -> recv_effect c r c' p'.
Proof.
  intros Hc Hr1 Hr2 (Hb & Hf & Ha & Hs & Hr). split_and!; try done.
  - eapply shrinks_trans; [apply (shrinks_without _ its)|done].
  - cbn [pending_rx with_pending_rx] in Hr. rewrite !rx_contains_without in Hr.
    rewrite (bool_decide_eq_true_2 _ Hc), andb_true_r in Hr.
    rewrite !(bool_decide_eq_false_2 (_ ∉ its)), !andb_false_r in Hr by auto.
    destruct r; [|done]. naive_solver.
Qed.

Lemma recv_pkt_effect c p m now r c' p' m' :
  pending_ok (pending_rx c) -> recv_pkt c p m now = (r, c', p', m') ->
  recv_effect c r c' p' /\
  (rx_contains (pending_rx c) Rst = true -> r = Ok tt /\ op p' = VSOCK_OP_RST).
Proof.
  intros Hok. rewrite recv_pkt_priority. cbv zeta.
  assert (fwd_cnt (init_pkt c p) = c_fwd_cnt c) as Hf by done.
  revert Hf. generalize (init_pkt c p) as q. intros q Hf.
  destruct (rx_contains (pending_rx c) Rst) eqn:E1.
  { intros [= <- <- <- <-]. split; [|done]. split_and!; try done; [apply (shrinks_without (pending_rx c) [Rst])|by left]. }
  destruct (rx_contains (pending_rx c) Response) eqn:E2.
  { intros [= <- <- <- <-]. split; [|done]. split_and!; try done; [apply (shrinks_without (pending_rx c) [Rst; Response])|].
    right. split_and!; try done. right. auto. }
  destruct (rx_contains (pending_rx c) Request) eqn:E3.
  { intros [= <- <- <- <-]. split; [|done]. split_and!; try done; [apply (shrinks_without (pending_rx c) [Rst; Response; Request])|].
    right. split_and!; try done. right. auto. }
  set (its := [Rst; Response; Request; Rw]).
  assert (only_credit (with_pending_rx c (without (pending_rx c) its))) as Hoc.
  { split; [by apply shrinks_without|]. intros it Hit. cbn [pending_rx with_pending_rx].
    rewrite rx_contains_without, bool_decide_eq_false_2, andb_false_r; [done|].
    subst its. destruct it; set_solver. }
  intros E. split; [|done]. apply (recv_effect_without _ its); [set_solver..|].
  destruct (rx_contains (pending_rx c) Rw);
    [by eapply recv_data_effect|by eapply recv_credit_update_effect].
Qed.

(** A packet keeps the buffer size that [init_pkt] announced. *)
Lemma recv_credit_update_alloc c p m r c' p' m' : recv_credit_update c p m = (r, c', p', m') -> buf_alloc p' = buf_alloc p.
Proof. unfold recv_credit_update. destruct (rx_remove _ _) as [u s]. by destruct (_ && _); intros [= <- <- <- <-]. Qed.

Lemma recv_pkt_alloc c p m now r c' p' m' : recv_pkt c p m now = (r, c', p', m') -> buf_alloc p' = buf_alloc (init_pkt c p).
Proof.
  unfold recv_pkt. generalize (init_pkt c p) as q. intros q.
  repeat (destruct (rx_remove _ _) as [? ?]; match goal with |- (if ?b then _ else _) = _ -> _ => destruct b end; [by intros [= <- <- <- <-]|]).
  destruct (rx_remove _ _) as [rw s]. destruct rw; [|apply recv_credit_update_alloc]. unfold recv_data.
  destruct (state _) as [| | | |[] ?|]; try (by intros [= <- <- <- <-]); destruct (need_credit_update_from_peer _); try (by intros [= <- <- <- <-]);
    unfold recv_read; destruct (read_at_offset_from _ _ _ _ _) as [[[n|e] s1] m1];
    try (destruct (n =? 0); by intros [= <- <- <- <-]); (destruct (would_block e); [apply recv_credit_update_alloc|by intros [= <- <- <- <-]]).
Qed.

Lemma inv_fwd_range base sent c : conn_inv base sent c -> in_range 32 (c_fwd_cnt c).
Proof. intros Hi. rewrite (ci_fwd _ _ _ Hi). by apply wrap_range. Qed.

Lemma conn_inv_control base sent c c' :
  conn_inv base sent c -> control c c' -> conn_inv base sent c'.
Proof.
  intros [Hb (lost & El & Hl) Hf Hk Hp] (Es & Eb & Ef & _ & Est & Hg).
  split; unfold forwarded; rewrite ?Es, ?Eb, ?Ef; [done|..].
  - exists lost. split; [done|]. rewrite Est. done.
  - done.
  - rewrite Est. intros ?. by apply (gr_keeps _ _ Hg), Hk.
  - by apply (gr_ok _ _ Hg).
Qed.

(** The data path moves on: [out] goes to the stream, [lost] is dropped. *)
Lemma conn_inv_tx base sent c c' l out lost :
  conn_inv base sent c -> state c <> Killed \/ l = [] /\ lost = [] ->
  txbuf_wf (tx_buf c') -> accepted (stream c') = accepted (stream c) ++ out ->
  c_fwd_cnt c' = wrap 32 (c_fwd_cnt c + Z.of_nat (length out)) ->
  contents (tx_buf c) ++ l = out ++ contents (tx_buf c') ++ lost ->
  (state c' <> Killed -> state c <> Killed /\ lost = []) ->
  (state c' = Killed -> rx_contains (pending_rx c') Rst = true) -> pending_ok (pending_rx c') ->
  conn_inv base (sent ++ l) c'.
Proof.
  intros [Hb (lost0 & El & Hl) Hf Hk Hp] Hlive Hb' Ha Hf' Hc Hs Hk' Hp'. split; try done.
  - assert (exists lost', contents (tx_buf c) ++ lost0 ++ l = out ++ contents (tx_buf c') ++ lost' /\
      (state c' <> Killed -> lost' = [])) as (lost' & E & ?).
    { destruct Hlive as [Hlive|[-> ->]].
      - rewrite (Hl Hlive). cbn [app]. exists lost. split; [done|]. intros ?. by apply Hs.
      - exists lost0. rewrite (app_nil_r (contents (tx_buf c'))), app_nil_r in Hc.
        rewrite app_nil_r, Hc, <- app_assoc. split; [done|].
        intros ?. by apply Hl, Hs. }
    exists lost'. split; [|done]. rewrite Ha, app_assoc, El, <- !app_assoc. f_equal. done.
  - rewrite Hf', Hf, wrap_add_l. f_equal. unfold forwarded. rewrite Ha, length_app. lia.
Qed.

Lemma conn_inv_kill base sent c : conn_inv base sent c -> conn_inv base sent (kill c).
Proof.
  intros [Hb (lost & El & Hl) Hf Hk Hp]. split; try done.
  - by exists lost.
  - intros _. cbn. rewrite rx_contains_insert. apply orb_true_r.
  - by apply pending_ok_insert.
Qed.

Lemma insert_control c it : it <> Response -> it <> Request -> control c (insert_rx c it).
Proof. intros ??. split_and!; try done. by apply grows_insert. Qed.

Lemma control_refl c : control c c.
Proof. split_and!; try done. Qed.

Lemma credit_control c a f : control c (with_peer_credit c a f).
Proof. split_and!; try done. Qed.

Lemma notify_inv base sent c ev_in ev_out :
  conn_inv base sent c -> exists c', notify c ev_in ev_out = Ret c' /\ conn_inv base sent c'.
Proof.
  intros Hi. unfold notify. set (c0 := if ev_in then insert_rx c Rw else c).
  assert (conn_inv base sent c0) as Hi0.
  { apply (conn_inv_control _ _ _ _ Hi). unfold c0.
    destruct ev_in; [by apply insert_control|apply control_refl]. }
  clearbody c0. destruct ev_out; [|by eexists].
  destruct (notify_out_outcome c0 (ci_buf _ _ _ Hi0))
    as (c' & -> & out & c1 & Hfr & Hb & Ha & Hc & [[-> _]|(c2 & Hc2 & Hf & ->)]); [by eexists|].
  eexists. split; [done|].
  assert (pending_rx c1 = pending_rx c0 /\ state c1 = state c0) as [Ep Es] by (rewrite Hfr; done).
  assert (conn_inv base sent c1) as Hi1.
  { rewrite <- (app_nil_r sent).
    apply (conn_inv_tx _ _ c0 _ [] out []); rewrite ?Ep, ?Es, ?app_nil_r; auto;
      [apply (ci_killed _ _ _ Hi0)|apply (ci_pending _ _ _ Hi0)]. }
  assert (conn_inv base sent c2) as Hi2 by (destruct Hc2 as [->| ->]; [|apply conn_inv_kill]; done).
  apply (conn_inv_control _ _ _ _ Hi2).
  destruct (_ && _); [by apply insert_control|].
  destruct (peer_needs_credit_update c2); [by apply insert_control|apply control_refl].
Qed.

Lemma send_pkt_inv base sent c p m now l :
  conn_inv base sent c -> guest_packet m p l ->
  exists c', send_pkt c p m now = Ret c' /\
    conn_inv base (sent ++ if takes_data c p then l else []) c'.
Proof.
  intros Hi Hg. destruct (takes_data c p) eqn:Et.
  2: { destruct (send_pkt_control c p m now Et) as (c' & -> & Hc). rewrite app_nil_r.
       eexists. split; [done|]. by apply (conn_inv_control _ _ _ _ Hi). }
  rewrite send_pkt_data by done.
  assert (state c <> Killed) as Hs by (intros Hs; unfold takes_data in Et; by rewrite Hs in Et).
  set (c0 := with_peer_credit c (buf_alloc p) (fwd_cnt p)).
  assert (conn_inv base sent c0) as Hi0 by (apply (conn_inv_control _ _ _ _ Hi), credit_control).
  destruct Hg as [(_ & Hz & ->)|Hcar].
  { unfold send_data. rewrite Hz, app_nil_r. by exists c0. }
  destruct (send_data_outcome c0 m p l (ci_buf _ _ _ Hi0) Hcar (inv_fwd_range _ _ _ Hi0))
    as (r & c1 & c' & -> & (out & lost & Hfr & Hb & Ha & Hf & Hc & Hr) & Hc').
  eexists. split; [done|].
  assert (pending_rx c1 = pending_rx c0 /\ state c1 = state c0) as [Ep Es] by (rewrite Hfr; done).
  destruct r as [[]|e]; subst c'.
  - assert (conn_inv base (sent ++ l) c1) as Hi1.
    { apply (conn_inv_tx _ _ c0 _ l out lost); rewrite ?Ep, ?Es; auto;
        first [apply (ci_killed _ _ _ Hi0)|apply (ci_pending _ _ _ Hi0)]. }
    apply (conn_inv_control _ _ _ _ Hi1).
    destruct (peer_needs_credit_update c1); [by apply insert_control|apply control_refl].
  - apply (conn_inv_tx _ _ c0 _ l out lost); auto; [done| |].
    + intros _. cbn. rewrite rx_contains_insert. apply orb_true_r.
    + cbn. rewrite Ep. apply pending_ok_insert, (ci_pending _ _ _ Hi0).
Qed.

Lemma recv_pkt_inv base sent c p m now r c' p' m' :
  conn_inv base sent c -> recv_pkt c p m now = (r, c', p', m') ->
  ~ (r = Ok tt /\ op p' = VSOCK_OP_RST) -> conn_inv base sent c' /\ state c' <> Killed.
Proof.
  intros Hi E Hn. destruct (recv_pkt_effect _ _ _ _ _ _ _ _ (ci_pending _ _ _ Hi) E) as [He Hrst].
  assert (state c <> Killed) as Hs.
  { intros Hs. by apply Hn, Hrst, (ci_killed _ _ _ Hi). }
  destruct He as (Hb & Hf & Ha & Hsh & Hr).
  assert (state c' <> Killed) as Hs'.
  { destruct r as [[]|e]; [|naive_solver congruence]. destruct Hr as [?|(_ & ? & _)]; naive_solver. }
  split; [|done]. destruct Hi as [Hwf (lost & El & Hl) Hfw _ Hp].
  split; unfold forwarded; rewrite ?Hb, ?Hf, ?Ha; try done.
  - exists lost. auto.
  - by apply (sh_ok _ _ Hsh).
Qed.

Lemma conn_step_inv base sent c l c' :
  conn_inv base sent c -> conn_step c l c' -> conn_inv base (sent ++ l) c'.
Proof.
  intros Hi Hs. destruct Hs as [c p m now l c' Hg E|c p m now r c' p' m' E Hn|c i o c' E|c];
    rewrite ?app_nil_r.
  - destruct (send_pkt_inv _ _ _ p m now l Hi Hg) as (c2 & E2 & ?). congruence.
  - by eapply recv_pkt_inv.
  - destruct (notify_inv _ _ _ i o Hi) as (c2 & E2 & ?). congruence.
  - by apply conn_inv_kill.
Qed.

Lemma conn_run_inv base c l c' : conn_inv base [] c -> conn_run c l c' -> conn_inv base l c'.
Proof.
  intros Hi. induction 1 as [|l c1 l' c2 _ IH Hstep]; [done|]. by eapply conn_step_inv.
Qed.
End Steps.

(** ** Flow control *)

Section Flow.
Context {S : Type} `{Stream S} {M : Type} `{GuestRegions M} `{Profile}.
Implicit Types c : VsockConnection S.
Implicit Types m : M.

(** A connection whose handshake is over and that has moved no data yet. *)
Definition fresh c : Prop :=
  txbuf_wf (tx_buf c) /\ TxBuf_len (tx_buf c) = 0 /\ c_fwd_cnt c = 0 /\ last_fwd_cnt_to_peer c = 0 /\
  state c <> Killed /\ pending_ok (pending_rx c) /\
  rx_contains (pending_rx c) Response = false /\ rx_contains (pending_rx c) Request = false.

(** A guest that keeps to the protocol: it counts the bytes it has [sent] and knows, from the
    headers of the connection's packets, the size [alloc] of the connection's buffer and how many
    bytes it was [told] are gone from that buffer; it never has more than that size in flight.
    From the handshake it knows what [init_pkt] puts into a packet, and each packet it receives
    tells it anew. *)
Inductive honest_run c0 : Z -> Z -> Z -> VsockConnection S -> Prop :=
| honest_start p : honest_run c0 (buf_alloc (init_pkt c0 p)) 0 0 c0
| honest_send alloc sent told c p m now l c' :
    honest_run c0 alloc sent told c -> guest_packet m p l ->
    (takes_data c p = true -> sent + Z.of_nat (length l) - told <= alloc) ->
    send_pkt c p m now = Ret c' ->
    honest_run c0 alloc (sent + if takes_data c p then Z.of_nat (length l) else 0) told c'
| honest_recv alloc sent told c p m now c' p' m' :
    honest_run c0 alloc sent told c -> recv_pkt c p m now = (Ok tt, c', p', m') ->
    op p' <> VSOCK_OP_RST ->
    honest_run c0 (buf_alloc p') sent (told + wsub 32 (fwd_cnt p') (wrap 32 told)) c'
| honest_nodata alloc sent told c p m now e c' p' m' :
    honest_run c0 alloc sent told c -> recv_pkt c p m now = (Err e, c', p', m') ->
    honest_run c0 alloc sent told c'
| honest_notify alloc sent told c ev_in ev_out c' :
    honest_run c0 alloc sent told c -> notify c ev_in ev_out = Ret c' -> honest_run c0 alloc sent told c'
| honest_kill alloc sent told c : honest_run c0 alloc sent told c -> honest_run c0 alloc sent told (kill c).

(** The guest is told the size of the buffer that the connection has. *)
Lemma honest_alloc c0 alloc sent told c : honest_run c0 alloc sent told c -> alloc = SIZE.
Proof. induction 1 as [| |alloc sent told c p m now c' p' m' _ _ E _| | |]; try done. by rewrite (recv_pkt_alloc _ _ _ _ _ _ _ _ E). Qed.

(** The guest sees little room because it has not been told of what is gone. *)
Definition owes_update base told c : Prop :=
  CONN_TX_BUF_SIZE - (forwarded base c - told) < CONN_CREDIT_UPDATE_THRESHOLD.

Definition announced c : Prop :=
  rx_contains (pending_rx c) CreditUpdate = true \/ rx_contains (pending_rx c) Rst = true.

Record flow_inv (base : list Z) (sent told : Z) c : Prop := {
  fi_inv : exists d, conn_inv base d c /\ Z.of_nat (length d) = sent;
  fi_told : told <= forwarded base c;
  fi_window : sent - told <= CONN_TX_BUF_SIZE;
  fi_last : last_fwd_cnt_to_peer c = wrap 32 told;
  fi_init it : it = Response \/ it = Request -> rx_contains (pending_rx c) it = false;
  fi_update : owes_update base told c -> announced c
}.

Lemma inv_forwarded base d c :
  conn_inv base d c ->
  forwarded base c + TxBuf_len (tx_buf c) <= Z.of_nat (length d) /\
  (state c <> Killed -> forwarded base c + TxBuf_len (tx_buf c) = Z.of_nat (length d)).
Proof.
  intros [Hb (lost & El & Hl) _ _ _]. apply (f_equal length) in El.
  rewrite !length_app in El. pose proof (length_contents _ Hb) as Hc. unfold forwarded. split; [lia|].
  intros Hs. rewrite (Hl Hs) in El. cbn in El. lia.
Qed.

Lemma wsub_wrap w a b : in_range w (a - b) -> wsub w (wrap w a) (wrap w b) = a - b.
Proof. intros Hr. unfold wsub. by rewrite wrap_sub_l, wrap_sub_r, wrap_id. Qed.

Lemma needs_update_spec base told c :
  c_fwd_cnt c = wrap 32 (forwarded base c) -> last_fwd_cnt_to_peer c = wrap 32 told ->
  0 <= forwarded base c - told <= CONN_TX_BUF_SIZE ->
  peer_needs_credit_update c = true <-> owes_update base told c.
Proof.
  intros Hf Hl Hw. unfold peer_needs_credit_update, owes_update. rewrite Hf, Hl, Z.ltb_lt.
  unfold CONN_TX_BUF_SIZE in *.
  rewrite (wsub_wrap 32 (forwarded base c)) by (unfold in_range; lia).
  unfold wsub. rewrite wrap_id by (unfold in_range; lia). done.
Qed.

Lemma flow_control_step base sent told c c' :
  flow_inv base sent told c -> control c c' -> flow_inv base sent told c'.
Proof.
  intros [(d & Hi & Hd) Ht Hw Hl Hn Hu] Hc.
  pose proof (conn_inv_control _ _ _ _ Hi Hc) as Hi'.
  destruct Hc as (Es & Eb & Ef & El & _ & Hg).
  assert (forwarded base c' = forwarded base c) as Hf by (unfold forwarded; by rewrite Es).
  split; rewrite ?Hf, ?El; try done.
  - by exists d.
  - intros it Hit. by rewrite (gr_init _ _ Hg), Hn.
  - unfold owes_update, announced. rewrite Hf. intros Ho.
    destruct (Hu Ho) as [?|?]; [left|right]; by apply (gr_keeps _ _ Hg).
Qed.

(** The data path moves on, and the guest is then told if it needs to be. *)
Lemma flow_tx base sent told d c c2 c' :
  flow_inv base sent told c -> conn_inv base d c' ->
  Z.of_nat (length d) - told <= CONN_TX_BUF_SIZE ->
  (exists out, accepted (stream c2) = accepted (stream c) ++ out) ->
  last_fwd_cnt_to_peer c2 = last_fwd_cnt_to_peer c -> grows (pending_rx c) (pending_rx c2) ->
  (c' = insert_rx c2 Rst \/
   c' = if peer_needs_credit_update c2 then insert_rx c2 CreditUpdate else c2) ->
  flow_inv base (Z.of_nat (length d)) told c'.
Proof.
  intros [_ Ht _ Hl Hn _] Hi Hw [out Ha] El Hsh Hc.
  assert (stream c' = stream c2 /\ c_fwd_cnt c' = c_fwd_cnt c2 /\
    last_fwd_cnt_to_peer c' = last_fwd_cnt_to_peer c2) as (Es & Ef & El')
    by (destruct Hc as [->| ->]; [|destruct (peer_needs_credit_update c2)]; done).
  assert (forwarded base c' = forwarded base c2) as Efw by (unfold forwarded; by rewrite Es).
  assert (told <= forwarded base c2) as Ht2.
  { unfold forwarded in *. rewrite Ha, length_app. lia. }
  pose proof (proj1 (inv_forwarded _ _ _ Hi)) as Hlen. pose proof (TxBuf_len_range (tx_buf c')) as Hr.
  assert (peer_needs_credit_update c2 = true <-> owes_update base told c2) as Hneed.
  { apply needs_update_spec; [rewrite <- Ef, <- Efw; apply (ci_fwd _ _ _ Hi)|congruence|].
    unfold in_range in Hr. lia. }
  assert (forall it, it = Response \/ it = Request -> rx_contains (pending_rx c2) it = false) as Hn2.
  { intros it Hit. by rewrite (gr_init _ _ Hsh), Hn. }
  split; [by exists d|by rewrite Efw|done|congruence|..].
  - intros it Hit. destruct Hc as [->| ->]; [|destruct (peer_needs_credit_update c2); [|by apply Hn2]];
      cbn; rewrite rx_contains_insert, Hn2 by done; apply bool_decide_eq_false; naive_solver.
  - unfold owes_update. rewrite Efw. intros Ho%Hneed. unfold announced.
    destruct Hc as [->| ->]; [right|rewrite Ho; left]; cbn; rewrite rx_contains_insert;
      rewrite bool_decide_eq_true_2 by done; apply orb_true_r.
Qed.

Lemma flow_send base sent told c p m now l c' :
  flow_inv base sent told c -> guest_packet m p l ->
  (takes_data c p = true -> sent + Z.of_nat (length l) - told <= CONN_TX_BUF_SIZE) ->
  send_pkt c p m now = Ret c' ->
  flow_inv base (sent + if takes_data c p then Z.of_nat (length l) else 0) told c'.
Proof.
  intros Hfi Hg Hwin E. pose proof Hfi as [(d & Hi & Hd) _ Hw _ _ _].
  destruct (send_pkt_inv _ _ _ p m now l Hi Hg) as (c2 & E2 & Hi').
  rewrite E in E2. injection E2 as <-.
  destruct (takes_data c p) eqn:Et.
  2: { destruct (send_pkt_control c p m now Et) as (c2 & E2 & Hc). rewrite E in E2.
       injection E2 as <-. rewrite Z.add_0_r. by eapply flow_control_step. }
  rewrite send_pkt_data in E by done. pose proof (credit_control c (buf_alloc p) (fwd_cnt p)) as Hcc.
  pose proof (flow_control_step _ _ _ _ _ Hfi Hcc) as Hfi0.
  pose proof (conn_inv_control _ _ _ _ Hi Hcc) as Hi0.
  revert E Hfi0 Hi0. generalize (with_peer_credit c (buf_alloc p) (fwd_cnt p)) as c0. intros c0 E Hfi0 Hi0.
  destruct Hg as [(_ & Hz & ->)|Hcar].
  { unfold send_data in E. rewrite Hz in E. injection E as <-. by rewrite Z.add_0_r. }
  destruct (send_data_outcome c0 m p l (ci_buf _ _ _ Hi0) Hcar (inv_fwd_range _ _ _ Hi0))
    as (r & c1 & c2 & E2 & (out & lost & Hfr & Hb & Ha & Hf & Hc & Hr) & Hc').
  rewrite E in E2. injection E2 as <-.
  assert (pending_rx c1 = pending_rx c0 /\ last_fwd_cnt_to_peer c1 = last_fwd_cnt_to_peer c0)
    as [Ep El] by (rewrite Hfr; done).
  replace (sent + Z.of_nat (length l)) with (Z.of_nat (length (d ++ l)))
    by (rewrite length_app; lia).
  apply (flow_tx base sent told (d ++ l) c0 (match r with Ok _ => c1 | Err _ => with_state c1 Killed end));
    try done.
  - rewrite length_app. specialize (Hwin eq_refl). lia.
  - exists out. by destruct r.
  - by destruct r.
  - destruct r; cbn; rewrite Ep; done.
  - destruct r; [right|left]; done.
Qed.

Lemma flow_notify base sent told c ev_in ev_out c' :
  flow_inv base sent told c -> notify c ev_in ev_out = Ret c' -> flow_inv base sent told c'.
Proof.
  intros Hfi. unfold notify. set (c0 := if ev_in then insert_rx c Rw else c).
  assert (flow_inv base sent told c0) as Hfi0.
  { apply (flow_control_step _ _ _ _ _ Hfi). unfold c0.
    destruct ev_in; [by apply insert_control|apply control_refl]. }
  clearbody c0. clear Hfi c ev_in. pose proof Hfi0 as [(d & Hi & Hd) _ Hw _ _ _].
  destruct ev_out; [|by intros [= <-]]. intros E.
  destruct (notify_inv _ _ _ false true Hi) as (c2 & E2 & Hi'). unfold notify in E2.
  rewrite E in E2. injection E2 as <-.
  destruct (notify_out_outcome c0 (ci_buf _ _ _ Hi))
    as (c2 & E2 & out & c1 & Hfr & Hb & Ha & Hc & Hcase).
  rewrite E in E2. injection E2 as <-. destruct Hcase as [[-> _]|(c2 & Hc2 & Hf & Hc')]; [done|].
  assert (pending_rx c1 = pending_rx c0 /\ last_fwd_cnt_to_peer c1 = last_fwd_cnt_to_peer c0)
    as [Ep El] by (rewrite Hfr; done).
  rewrite <- Hd. apply (flow_tx base sent told d c0 c2); try done.
  - lia.
  - exists out. destruct Hc2 as [->| ->]; done.
  - destruct Hc2 as [->| ->]; done.
  - destruct Hc2 as [->| ->]; [by rewrite Ep|]. cbn. rewrite Ep. by apply grows_insert.
  - subst c'. destruct (_ && _); auto.
Qed.

Lemma flow_recv base sent told c p m now r c' p' m' :
  flow_inv base sent told c -> recv_pkt c p m now = (r, c', p', m') ->
  ~ (r = Ok tt /\ op p' = VSOCK_OP_RST) ->
  flow_inv base sent
    (match r with Ok _ => told + wsub 32 (fwd_cnt p') (wrap 32 told) | Err _ => told end) c'.
Proof.
  intros [(d & Hi & Hd) Ht Hw Hl Hn Hu] E Hrst.
  destruct (recv_pkt_inv _ _ _ _ _ _ _ _ _ _ Hi E Hrst) as [Hi' _].
  destruct (recv_pkt_effect _ _ _ _ _ _ _ _ (ci_pending _ _ _ Hi) E) as [He HR].
  destruct He as (Hb & Hf & Ha & Hsh & Hr).
  pose proof (proj1 (inv_forwarded _ _ _ Hi)) as Hlen. pose proof (TxBuf_len_range (tx_buf c)) as Hlr.
  assert (forwarded base c' = forwarded base c) as Efw by (unfold forwarded; by rewrite Ha).
  assert (forall it, it = Response \/ it = Request -> rx_contains (pending_rx c') it = false) as Hn'.
  { intros it Hit. apply not_true_iff_false. intros Hx. apply (sh_sub _ _ Hsh) in Hx.
    by rewrite Hn in Hx. }
  unfold in_range, CONN_TX_BUF_SIZE in *. destruct r as [[]|e].
  - destruct Hr as [Hr|(Hp & _ & Hlast)]; [by destruct Hrst|].
    rewrite Hp, (ci_fwd _ _ _ Hi), wsub_wrap by (unfold in_range; lia).
    replace (told + (forwarded base c - told)) with (forwarded base c) by lia.
    split; rewrite ?Efw; try done.
    + by exists d.
    + unfold CONN_TX_BUF_SIZE. lia.
    + destruct Hlast as [->|[_ [Hx|Hx]]]; [apply (ci_fwd _ _ _ Hi)|rewrite Hn in Hx; auto; done..].
    + unfold owes_update. rewrite Efw. unfold CONN_TX_BUF_SIZE, CONN_CREDIT_UPDATE_THRESHOLD. lia.
  - destruct Hr as (_ & Hlast & Hcu). split; rewrite ?Efw, ?Hlast; try done.
    + by exists d.
    + unfold owes_update. rewrite Efw. intros Ho. destruct (Hu Ho) as [Hx|Hx]; [congruence|].
      apply HR in Hx as [? _]. done.
Qed.

Lemma honest_flow c0 alloc sent told c :
  fresh c0 -> honest_run c0 alloc sent told c -> flow_inv (accepted (stream c0)) sent told c.
Proof.
  intros (Hb & Hl & Hf & Hla & Hs & Hp & Hn1 & Hn2).
  induction 1 as [|alloc sent told c p m now l c' Hrun IH Hg Hw E|alloc sent told c p m now c' p' m' _ IH E Hop
    |alloc sent told c p m now e c' p' m' _ IH E|alloc sent told c i o c' _ IH E|alloc sent told c _ IH].
  - assert (forwarded (accepted (stream c0)) c0 = 0) as Hz by (unfold forwarded; lia).
    split; rewrite ?Hz; try done.
    + exists []. split; [|done]. split; try done; rewrite ?Hz; try done.
      exists []. rewrite (contents_empty _ Hb Hl), !app_nil_r. done.
    + by intros it [->| ->].
    + unfold owes_update. rewrite Hz. unfold CONN_TX_BUF_SIZE, CONN_CREDIT_UPDATE_THRESHOLD. lia.
  - rewrite (honest_alloc _ _ _ _ _ Hrun) in Hw. by eapply flow_send.
  - apply (flow_recv _ _ _ _ _ _ _ _ _ _ _ IH E). naive_solver.
  - apply (flow_recv _ _ _ _ _ _ _ _ _ _ _ IH E). naive_solver.
  - by eapply flow_notify.
  - destruct IH as [(d & Hi & Hd) Ht Hw Hla' Hn Hu]. split; try done.
    + exists d. split; [|done]. by apply conn_inv_kill.
    + intros it Hit. cbn. rewrite rx_contains_insert, Hn by done. apply bool_decide_eq_false. naive_solver.
    + intros _. right. cbn. rewrite rx_contains_insert. apply orb_true_r.
Qed.
End Flow.

(** ** Theorems *)

Section Theorems.
Context {S : Type} `{Stream S} {M : Type} `{GuestRegions M} `{Profile}.
Implicit Types c : VsockConnection S.
Implicit Types m : M.

(** A connection as the muxer creates it. *)
Definition new_conn c : Prop :=
  exists s lcid pcid lport pport,
    (exists alloc, c = new_peer_init s lcid pcid lport pport alloc) \/
    c = new_local_init s lcid pcid lport pport.

Lemma new_conn_inv c : new_conn c -> conn_inv (accepted (stream c)) [] c.
Proof.
  intros (s & lcid & pcid & lport & pport & [[alloc ->]| ->]);
    (split; [apply TxBuf_new_wf| | |done|apply pending_ok_from]);
    try (exists []; by rewrite !app_nil_r); unfold forwarded; cbn [stream c_fwd_cnt];
    by rewrite Z.sub_diag.
Qed.

(** C26: the guest-to-host byte stream.  From its creation on, whatever packets,
    events and failures occur, a connection never panics; what it has written to the
    host stream followed by what its buffer holds is exactly the data it took from
    the guest, in order (a prefix of it once the connection has been killed), and
    [fwd_cnt] is the number of bytes written, modulo 2^32. *)
Theorem conn_tx_ledger c0 sent c :
  new_conn c0 -> conn_run c0 sent c ->
  (exists lost, accepted (stream c0) ++ sent = accepted (stream c) ++ contents (tx_buf c) ++ lost /\
     (state c <> Killed -> lost = [])) /\
  c_fwd_cnt c =
    wrap 32 (Z.of_nat (length (accepted (stream c))) - Z.of_nat (length (accepted (stream c0)))) /\
  (forall p m now l, guest_packet m p l -> exists c', send_pkt c p m now = Ret c') /\
  (forall ev_in ev_out, exists c', notify c ev_in ev_out = Ret c').
Proof.
  intros Hn Hrun. pose proof (conn_run_inv _ _ _ _ (new_conn_inv _ Hn) Hrun) as Hi.
  split_and!; [apply (ci_ledger _ _ _ Hi)|apply (ci_fwd _ _ _ Hi)|..].
  - intros p m now l Hg. destruct (send_pkt_inv _ _ _ p m now l Hi Hg) as (c' & E & _). by exists c'.
  - intros i o. destruct (notify_inv _ _ _ i o Hi) as (c' & E & _). by exists c'.
Qed.

Lemma within_credit_taken c0 alloc sent told c p m now l :
  fresh c0 -> honest_run c0 alloc sent told c -> carries m p l -> takes_data c p = true ->
  sent + Z.of_nat (length l) - told <= alloc -> in_region m p 0 (pkt_len p) ->
  exists c', send_pkt c p m now = Ret c' /\
    (state c' = state c \/
     exists e, (write (stream c) l).2 = Err e /\ error_kind e <> WouldBlock).
Proof.
  intros Hfr Hrun Hcar Ht Hw Hreg. rewrite (honest_alloc _ _ _ _ _ Hrun) in Hw.
  destruct (honest_flow _ _ _ _ _ Hfr Hrun) as [(d & Hi & Hd) Htold _ _ _ _].
  rewrite send_pkt_data by done.
  pose proof (conn_inv_control _ _ _ _ Hi (credit_control c (buf_alloc p) (fwd_cnt p))) as Hi0.
  pose proof (proj1 (inv_forwarded _ _ _ Hi)) as Hlen.
  destruct (send_data_outcome _ m p l (ci_buf _ _ _ Hi0) Hcar (inv_fwd_range _ _ _ Hi0))
    as (r & c1 & c' & -> & (out & lost & Hfrm & _ & _ & _ & _ & Hr) & Hc').
  assert (state c1 = state c) as Es by (rewrite Hfrm; done).
  eexists. split; [done|]. destruct r as [[]|e].
  - left. subst c'. destruct (peer_needs_credit_update c1); done.
  - right. destruct Hr as [Hr|[Hr|Hr]]; [done| |done]. exfalso.
    change (tx_buf (with_peer_credit _ _ _)) with (tx_buf c) in Hr.
    unfold SIZE in Hr, Hw. lia.
Qed.

(** C27: a guest that respects the credit it was told never overruns the transmit
    buffer.  It goes by the headers of the packets it receives: the size of the buffer and the
    count of the bytes that have left it.  When it sends data within that credit, in a buffer in
    one memory region, the connection takes it; only an error of the host stream other than
    would-block ends the connection. *)
Theorem honest_guest_not_killed c0 alloc sent told c p m now l :
  fresh c0 -> honest_run c0 alloc sent told c -> carries m p l -> takes_data c p = true ->
  sent + Z.of_nat (length l) - told <= alloc -> in_region m p 0 (pkt_len p) ->
  exists c', send_pkt c p m now = Ret c' /\
    (state c' = state c \/
     exists e, (write (stream c) l).2 = Err e /\ error_kind e <> WouldBlock).
Proof. apply within_credit_taken. Qed.

(** C28: credit never deadlocks.  Whenever such a guest has less than the update
    threshold left, the connection still has data to flush and asks to be notified
    when the stream can be written, or a credit update (or a reset) is pending. *)
Theorem no_credit_deadlock c0 alloc sent told c :
  fresh c0 -> honest_run c0 alloc sent told c -> state c <> Killed ->
  alloc - (sent - told) < CONN_CREDIT_UPDATE_THRESHOLD ->
  (get_polled_evset c).2 = true \/
  rx_contains (pending_rx c) CreditUpdate = true \/ rx_contains (pending_rx c) Rst = true.
Proof.
  intros Hfr Hrun Hs Hlow. rewrite (honest_alloc _ _ _ _ _ Hrun) in Hlow. unfold SIZE in Hlow.
  destruct (honest_flow _ _ _ _ _ Hfr Hrun) as [(d & Hi & Hd) _ _ _ _ Hu].
  destruct (TxBuf_is_empty (tx_buf c)) eqn:Ee.
  - right. apply Hu. unfold owes_update. apply Z.eqb_eq in Ee.
    pose proof (proj2 (inv_forwarded _ _ _ Hi) Hs). lia.
  - left. unfold get_polled_evset. rewrite Ee. by destruct (state c) as [| | | |[] ?|].
Qed.

Lemma recv_credit_update_op c p m c' p' m' :
  recv_credit_update c p m = (Ok tt, c', p', m') -> op p' = VSOCK_OP_CREDIT_UPDATE.
Proof.
  unfold recv_credit_update. destruct (rx_remove _ _) as [u s]. destruct (_ && _); [|done].
  by intros [= <- <- <-].
Qed.

(** Sending [n] bytes to the guest takes [n] off its credit. *)
Lemma credit_spent c n :
  0 <= n <= peer_avail_credit c ->
  wsub 32 (peer_buf_alloc c) (wsub 32 (wadd 32 (rx_cnt c) n) (peer_fwd_cnt c)) =
  peer_avail_credit c - n.
Proof.
  intros Hn. pose proof (wsub_range 32 (peer_buf_alloc c) (wsub 32 (rx_cnt c) (peer_fwd_cnt c))
    ltac:(lia)) as Hr. unfold peer_avail_credit, in_range in *. revert Hn Hr.
  unfold wsub, wadd. rewrite (wrap_sub_l 32 (rx_cnt c + n)), !wrap_sub_r. intros Hn Hr.
  rewrite <- (wrap_id 32 (wrap 32 _ - n)) by (unfold in_range; lia). rewrite wrap_sub_l. f_equal. lia.
Qed.

Lemma recv_read_credit c p m now c' p' m' :
  recv_read c p m now = (Ok tt, c', p', m') -> op p' = VSOCK_OP_RW ->
  0 < pkt_len p' <= Z.min (buf_size p) (peer_avail_credit c) /\
  peer_avail_credit c' = peer_avail_credit c - pkt_len p' /\
  fwd_cnt p' = fwd_cnt p /\ buf_alloc p' = buf_alloc p /\
  exists a l, buf_addr p = Some a /\ Z.of_nat (length l) = pkt_len p' /\
    read (stream c) (Z.min (buf_size p) (peer_avail_credit c)) = (stream c', Ok l) /\
    forall x, byte_at m' x =
      if (a <=? x) && (x <? a + pkt_len p') then l !! Z.to_nat (x - a) else byte_at m x.
Proof.
  unfold recv_read. set (max_len := Z.min (buf_size p) (peer_avail_credit c)).
  destruct (read_at_offset_from p m 0 (stream c) max_len) as [[rd s] m1] eqn:Er.
  destruct rd as [n|e].
  2: { destruct (would_block e).
       - intros E Hop. apply recv_credit_update_op in E. by rewrite E in Hop.
       - by intros [= <- <- <-]. }
  apply read_at_offset_ok in Er as (a & l & Ea & Er & Hn & Hmax & Hpos & Hx).
  destruct (Z.eqb_spec n 0) as [->|Hne]; [by intros [= <- <- <-]|].
  pose proof (wsub_range 32 (peer_buf_alloc c) (wsub 32 (rx_cnt c) (peer_fwd_cnt c)) ltac:(lia)) as Hr.
  fold (peer_avail_credit c) in Hr. unfold in_range in Hr.
  assert (wrap 32 n = n) as Hw by (apply wrap_id; unfold in_range; lia).
  rewrite Hw. intros [= <- <- <-] _. unfold pkt_len. cbn [hdr h_len set_len with_hdr].
  split; [lia|]. split; [apply (credit_spent c n); lia|]. split_and!; try done.
  exists a, l. split_and!; done.
Qed.

(** The host-to-guest direction.  A data packet that [recv_pkt] yields holds
    at least one byte and no more than the guest's buffer and remaining credit allow;
    its data are exactly the bytes read from the stream, stored at the packet's
    buffer and nowhere else; and the credit shrinks by its length. *)
Theorem recv_pkt_credit c p m now c' p' m' :
  recv_pkt c p m now = (Ok tt, c', p', m') -> op p' = VSOCK_OP_RW ->
  0 < pkt_len p' <= Z.min (buf_size p) (peer_avail_credit c) /\
  peer_avail_credit c' = peer_avail_credit c - pkt_len p' /\
  fwd_cnt p' = c_fwd_cnt c /\ buf_alloc p' = CONN_TX_BUF_SIZE /\
  exists a l, buf_addr p = Some a /\ Z.of_nat (length l) = pkt_len p' /\
    read (stream c) (Z.min (buf_size p) (peer_avail_credit c)) = (stream c', Ok l) /\
    forall x, byte_at m' x =
      if (a <=? x) && (x <? a + pkt_len p') then l !! Z.to_nat (x - a) else byte_at m x.
Proof.
  rewrite recv_pkt_priority. cbv zeta.
  destruct (rx_contains (pending_rx c) Rst); [by intros [= <- <- <-]|].
  destruct (rx_contains (pending_rx c) Response); [by intros [= <- <- <-]|].
  destruct (rx_contains (pending_rx c) Request); [by intros [= <- <- <-]|].
  destruct (rx_contains (pending_rx c) Rw).
  2: { intros E Hop. apply recv_credit_update_op in E. by rewrite E in Hop. }
  unfold recv_data. destruct (state _) as [| | | |[] ?|]; try (by intros [= <- <- <-]);
    (destruct (need_credit_update_from_peer _); [by intros [= <- <- <-]|]);
    intros E Hop; exact (recv_read_credit _ _ _ _ _ _ _ E Hop).
Qed.
End Theorems.

(** ** Examples *)

(** A stream that has some bytes to read and accepts all that is written. *)
#[refine] Instance open_stream : Stream (list Z * list Z) := {|
  stream_writer := {| write s l := ((s.1, s.2 ++ l), Ok (Z.of_nat (length l))); accepted s := s.2 |};
  read s n := ((drop (Z.to_nat n) s.1, s.2), Ok (map (fun b => b mod 256) (take (Z.to_nat n) s.1)))
|}.
Proof.
  - intros s l s' n [= <- <-]. split; [lia|]. by rewrite Nat2Z.id, firstn_all.
  - done.
  - intros s n s' l Hn [= <- <-]. rewrite length_map, length_take. split; [lia|].
    apply Forall_map, Forall_true. intros x. unfold compose, byte_ok. apply Z.mod_pos_bound. lia.
  - done.
Defined.

Definition sample_peer : VsockConnection (list Z * list Z) :=
  new_peer_init ([7; 8; 9], []) 2 3 1024 5000 65536.

(** The connection after its response packet. *)
Definition sample_conn : VsockConnection (list Z * list Z) :=
  mkConn Established 2 3 1024 5000 ([7; 8; 9], []) TxBuf_new 0 65536 0 0 0 0 None.

Lemma sample_conn_fresh : fresh sample_conn.
Proof. split_and!; try done. intros n _. apply Z.bits_0. Qed.

(** A data packet of [n] zero bytes at the start of 64 KiB of guest memory. *)
Definition zero_packet (n : Z) : VsockPacket :=
  mkPacket 0 (mkHeader 3 2 5000 1024 n VSOCK_TYPE_STREAM VSOCK_OP_RW 0 65536 0) (Some 0) n.
Definition zero_mem : list Z := replicate (Z.to_nat 65536) 0.

Lemma zero_mem_size : flat_size zero_mem = 65536.
Proof. unfold flat_size, zero_mem. rewrite length_replicate. lia. Qed.

Lemma zero_mem_read a n :
  0 <= a -> a + Z.of_nat n <= 65536 -> read_bytes zero_mem a n = Some (replicate n 0).
Proof.
  revert a. induction n as [|n IH]; intros a Ha Hn; [done|]. cbn [read_bytes replicate].
  rewrite IH by lia. assert (byte_at zero_mem a = Some 0) as ->; [|done].
  change (flat_byte_at zero_mem a = Some 0). unfold flat_byte_at.
  rewrite (proj2 (in_rangeb_spec 64 a)) by (unfold in_range; lia).
  unfold zero_mem. rewrite lookup_replicate_2 by lia. done.
Qed.

Lemma zero_packet_carries n :
  0 < n <= 65536 -> carries zero_mem (zero_packet n) (replicate (Z.to_nat n) 0).
Proof.
  intros Hn. exists 0. split; [done|]. unfold MAX_PKT_BUF_SIZE, pkt_len.
  cbn [zero_packet hdr h_len buf_size]. split; [lia|]. split; [lia|]. apply zero_mem_read; lia.
Qed.

Lemma zero_packet_region n : 0 < n <= 65536 -> in_region zero_mem (zero_packet n) 0 n.
Proof.
  intros Hn. exists 0, 0, 65536. cbn [zero_packet buf_addr buf_size].
  split_and!; [done|lia..| |lia]. cbn [region_of flat_regions]. by rewrite zero_mem_size.
Qed.

Section Examples.
Local Existing Instance dev_profile.

(** The connection that takes a data packet of [n] zero bytes. *)
Lemma sample_send n :
  0 < n <= 65536 ->
  exists c', send_pkt sample_conn (zero_packet n) zero_mem 0 = Ret c' /\ state c' = Established.
Proof.
  intros Hn.
  destruct (within_credit_taken sample_conn SIZE 0 0 sample_conn (zero_packet n) zero_mem 0
    (replicate (Z.to_nat n) 0) sample_conn_fresh (honest_start sample_conn (zero_packet n))
    (zero_packet_carries n Hn) eq_refl) as (c' & E & [Hs|(e & He & _)]).
  - unfold SIZE, CONN_TX_BUF_SIZE. rewrite length_replicate. lia.
  - by apply zero_packet_region.
  - by exists c'.
  - done.
Qed.

Lemma sample_honest n c' :
  0 < n <= 65536 -> send_pkt sample_conn (zero_packet n) zero_mem 0 = Ret c' ->
  honest_run sample_conn SIZE n 0 c'.
Proof.
  intros Hn E.
  replace n with (0 + if takes_data sample_conn (zero_packet n)
                      then Z.of_nat (length (replicate (Z.to_nat n) 0)) else 0) at 1.
  - eapply honest_send; [apply (honest_start sample_conn (zero_packet n))|right; by apply zero_packet_carries| |exact E].
    change (buf_alloc _) with SIZE. unfold SIZE, CONN_TX_BUF_SIZE. rewrite length_replicate. lia.
  - change (takes_data sample_conn (zero_packet n)) with true. cbn iota.
    rewrite length_replicate. lia.
Qed.

(** The guest sends 100 bytes and receives a packet that tells it that the stream took them; it
    may then send 65536 more, all that the buffer holds. *)
Lemma honest_guest_not_killed_witness :
  exists c c1 c2 p2 m2 c', send_pkt sample_conn (zero_packet 100) zero_mem 0 = Ret c /\ notify c true false = Ret c1 /\
    recv_pkt c1 (zero_packet 8) (replicate 16 0) 0 = (Ok tt, c2, p2, m2) /\ buf_alloc p2 = 65536 /\ fwd_cnt p2 = 100 /\
    send_pkt c2 (zero_packet 65536) zero_mem 0 = Ret c' /\
    (state c' = state c2 \/
     exists e, (write (stream c2) (replicate (Z.to_nat 65536) 0)).2 = Err e /\
       error_kind e <> WouldBlock).
Proof.
  destruct (sample_send 100 ltac:(lia)) as (c & E & _).
  assert (Ev : match send_pkt sample_conn (zero_packet 100) zero_mem 0 with
    | Ret c => match notify c true false with
      | Ret c1 => match recv_pkt c1 (zero_packet 8) (replicate 16 0) 0 with
        | (Ok _, c2, p2, _) => bool_decide (buf_alloc p2 = 65536 /\ fwd_cnt p2 = 100 /\ op p2 = VSOCK_OP_RW /\ takes_data c2 (zero_packet 65536) = true)
        | _ => false end
      | Panic => false end
    | Panic => false end = true) by (vm_compute; reflexivity).
  rewrite E in Ev. destruct (notify c true false) as [c1|] eqn:En; [|discriminate Ev].
  destruct (recv_pkt c1 (zero_packet 8) (replicate 16 0) 0) as [[[[[]|e] c2] p2] m2] eqn:Er; [|discriminate Ev].
  apply bool_decide_eq_true in Ev as (Ea & Ef & Eo & Et).
  destruct (honest_guest_not_killed (M := list Z) sample_conn (buf_alloc p2) 100 (0 + wsub 32 (fwd_cnt p2) (wrap 32 0)) c2 (zero_packet 65536) zero_mem 0 (replicate (Z.to_nat 65536) 0)) as (c' & Es & Hs).
  - exact sample_conn_fresh.
  - apply (honest_recv sample_conn SIZE 100 0 c1 (zero_packet 8) (replicate 16 0) 0 c2 p2 m2); [|exact Er|rewrite Eo; discriminate].
    apply (honest_notify sample_conn SIZE 100 0 c true false c1); [|exact En]. apply sample_honest; [lia|exact E].
  - apply zero_packet_carries. lia.
  - exact Et.
  - rewrite Ea, Ef, length_replicate. change (wsub 32 100 (wrap 32 0)) with 100. lia.
  - apply (zero_packet_region 65536). lia.
  - exists c, c1, c2, p2, m2, c'. split; [exact E|]. split; [exact En|]. split; [exact Er|]. split; [exact Ea|]. split; [exact Ef|]. split; [exact Es|exact Hs].
Defined.

(** After 62000 bytes of its 64 KiB of credit the guest is owed an update. *)
Lemma no_credit_deadlock_witness :
  exists c, honest_run (M := list Z) sample_conn SIZE 62000 0 c /\
    ((get_polled_evset c).2 = true \/
     rx_contains (pending_rx c) CreditUpdate = true \/ rx_contains (pending_rx c) Rst = true).
Proof.
  destruct (sample_send 62000 ltac:(lia)) as (c' & E & Hs).
  pose proof (sample_honest 62000 c' ltac:(lia) E) as Hrun. exists c'. split; [exact Hrun|].
  apply (no_credit_deadlock sample_conn SIZE 62000 0 c').
  - exact sample_conn_fresh.
  - exact Hrun.
  - congruence.
  - reflexivity.
Defined.

Lemma sample_run n c' :
  0 < n <= 65536 -> send_pkt sample_conn (zero_packet n) zero_mem 0 = Ret c' ->
  conn_run sample_peer (replicate (Z.to_nat n) 0) c'.
Proof.
  intros Hn E.
  change (replicate (Z.to_nat n) 0)
    with (([] ++ []) ++ if takes_data sample_conn (zero_packet n) then replicate (Z.to_nat n) 0 else []).
  eapply run_step; [|eapply step_send; [right; by apply zero_packet_carries|exact E]].
  eapply run_step; [apply run_nil|].
  apply (step_recv sample_peer (zero_packet 8) (replicate 16 0) 0 (Ok tt) _ _ _ eq_refl).
  by intros [_ ?].
Qed.

Lemma conn_tx_ledger_witness :
  exists c, send_pkt sample_conn (zero_packet 100) zero_mem 0 = Ret c /\
    exists lost, accepted (stream sample_peer) ++ replicate (Z.to_nat 100) 0 =
      accepted (stream c) ++ contents (tx_buf c) ++ lost /\ (state c <> Killed -> lost = []).
Proof.
  destruct (sample_send 100 ltac:(lia)) as (c' & E & Hs). exists c'. split; [exact E|].
  apply (conn_tx_ledger (M := list Z) sample_peer (replicate (Z.to_nat 100) 0) c').
  - exists ([7; 8; 9], []), 2, 3, 1024, 5000. left. exists 65536. reflexivity.
  - apply sample_run; [lia|exact E].
Defined.

Definition sample_recv :=
  recv_pkt (insert_rx sample_conn Rw) (zero_packet 8) (replicate 16 0) 0.

Lemma sample_recv_data :
  recv_pkt (insert_rx sample_conn Rw) (zero_packet 8) (replicate 16 0) 0 =
    (Ok tt, sample_recv.1.1.2, sample_recv.1.2, sample_recv.2) /\
  op sample_recv.1.2 = VSOCK_OP_RW /\ pkt_len sample_recv.1.2 = 3.
Proof. split_and!; vm_compute; reflexivity. Qed.

Lemma recv_pkt_credit_witness :
  pkt_len sample_recv.1.2 = 3 /\
  peer_avail_credit sample_recv.1.1.2 =
    peer_avail_credit (insert_rx sample_conn Rw) - pkt_len sample_recv.1.2.
Proof.
  destruct sample_recv_data as (E & Hop & Hlen). split; [exact Hlen|].
  exact (proj1 (proj2 (recv_pkt_credit _ _ _ _ _ _ _ E Hop))).
Defined.
End Examples.
