(* ===== verification/VsockMuxer.v ===== *)
(** * The vsock multiplexer

    Models [devices/src/virtio/vsock/unix]: [muxer_rxq.rs], the queue of what is to be
    delivered to the guest, [muxer_killq.rs], the queue of connections to be terminated,
    and [muxer.rs], which routes packets and events to the connections of
    [VsockConnection].

    The hash maps are [gmap]s, iterated in an order that is an argument ([Order]).  The
    clock stands still during a call.  The kernel's event polling is the class [Epoll]; a
    Unix socket is a stream with its file descriptor; what [accept], [connect], [bind] and
    [epoll_wait] return are arguments.  Metrics and log messages are left out. *)

From Stdlib Require Import ZArith Lia Ascii String Sorting.
From stdpp Require Import functions prelude gmap sorting.
From S2P Require Import Prelude Text GuestMemory VirtioQueue TxBuf VsockPacket VsockConnection.

Definition MAX_CONNECTIONS : Z := 1023.
Definition MUXER_RXQ_SIZE : Z := 256.
Definition MUXER_KILLQ_SIZE : Z := 128.
Definition VSOCK_HOST_CID : Z := 2.

Record ConnMapKey := mkKey { key_local_port : Z; key_peer_port : Z }.

#[export] Instance ConnMapKey_eq_dec : EqDecision ConnMapKey.
Proof. solve_decision. Defined.
#[export] Instance ConnMapKey_countable : Countable ConnMapKey.
Proof.
  refine (inj_countable' (fun k => (key_local_port k, key_peer_port k)) (fun p => mkKey p.1 p.2) _).
  by intros [].
Defined.

Inductive MuxerRx := ConnRx (key : ConnMapKey) | RstPkt (local_port peer_port : Z).
#[export] Instance MuxerRx_eq_dec : EqDecision MuxerRx.
Proof. solve_decision. Defined.

Inductive MuxerError :=
| EpollAdd (e : IoError) | EpollFdCreate (e : IoError) | InvalidPortRequest | UnixAccept (e : IoError)
| UnixBind (e : IoError) | UnixConnect (e : IoError) | UnixRead (e : IoError) | TooManyConnections.

(** ** Sockets *)

Record UnixStream (S : Type) := mkStream { as_raw_fd : Z; socket : S }.
Arguments mkStream {S}.
Arguments as_raw_fd {S}.
Arguments socket {S}.

(** Reading and writing leave the descriptor alone. *)
#[local] Instance unix_writer {S} `{Stream S} : Writer (UnixStream S) IoError.
Proof.
  refine {| write s l := let '(w, r) := write (socket s) l in (mkStream (as_raw_fd s) w, r);
            accepted s := accepted (socket s) |}.
  - intros s l s' n. destruct (write (socket s) l) as [w r] eqn:E. intros [= <- ->]. by apply write_ok in E.
  - intros s l s' e. destruct (write (socket s) l) as [w r] eqn:E. intros [= <- ->]. by apply write_err in E.
Defined.

#[export] Instance unix_stream {S} `{Stream S} : Stream (UnixStream S).
Proof.
  refine {| stream_writer := unix_writer;
            read s n := let '(w, r) := read (socket s) n in (mkStream (as_raw_fd s) w, r) |}.
  - intros s n s' l Hn. destruct (read (socket s) n) as [w r] eqn:E. intros [= <- ->]. by apply read_ok in E.
  - intros s n. destruct (read (socket s) n) as [w r] eqn:E. cbn. by rewrite <-(read_accepted (socket s) n), E.
Defined.

(** [EventSet], as whether it holds [IN] and [OUT]. *)
Abbreviation EventSet := (bool * bool)%type.

(** [epoll_ctl] on the muxer's own epoll instance. *)
Class Epoll (E : Type) := {
  ctl_add : E -> Z -> EventSet -> result unit IoError * E;
  ctl_modify : E -> Z -> EventSet -> result unit IoError * E;
  ctl_delete : E -> Z -> result unit IoError * E;
  epoll_fd : E -> Z
}.

(** ** The queue of pending deliveries *)

Record MuxerRxQ := mkRxQ { rx_q : list MuxerRx; rx_synced : bool }.

Definition rxq_len (q : MuxerRxQ) : Z := Z.of_nat (length (rx_q q)).
Definition rxq_is_empty (q : MuxerRxQ) : bool := rxq_len q =? 0.
Definition rxq_is_full (q : MuxerRxQ) : bool := rxq_len q =? MUXER_RXQ_SIZE.
Definition rxq_new : MuxerRxQ := mkRxQ [] true.

(** The last connection of the queue is replaced by [rx]. *)
Fixpoint evict (rx : MuxerRx) (rev_q : list MuxerRx) : option (list MuxerRx) :=
  match rev_q with
  | [] => None
  | ConnRx _ :: q => Some (rx :: q)
  | RstPkt a b :: q => q' ← evict rx q; Some (RstPkt a b :: q')
  end.

Definition rxq_push (q : MuxerRxQ) (rx : MuxerRx) : bool * MuxerRxQ :=
  if rx_synced q && negb (rxq_is_full q) then (true, mkRxQ (rx_q q ++ [rx]) (rx_synced q))
  else match rx with
  | RstPkt _ _ =>
      match evict rx (reverse (rx_q q)) with
      | Some q' => (true, mkRxQ (reverse q') false)
      | None => (false, q)
      end
  | ConnRx _ => (false, mkRxQ (rx_q q) false)
  end.

Definition rxq_peek (q : MuxerRxQ) : option MuxerRx := match rx_q q with [] => None | rx :: _ => Some rx end.
Definition rxq_pop (q : MuxerRxQ) : option MuxerRx * MuxerRxQ :=
  match rx_q q with [] => (None, q) | rx :: l => (Some rx, mkRxQ l (rx_synced q)) end.

(** ** The queue of connections to terminate *)

Record MuxerKillQItem := mkKillItem { kq_key : ConnMapKey; kill_time : Z }.
Record MuxerKillQ := mkKillQ { kill_q : list MuxerKillQItem; kill_synced : bool }.

Definition killq_new : MuxerKillQ := mkKillQ [] true.
Definition killq_is_empty (q : MuxerKillQ) : bool := Z.of_nat (length (kill_q q)) =? 0.
Definition killq_is_full (q : MuxerKillQ) : bool := Z.of_nat (length (kill_q q)) =? MUXER_KILLQ_SIZE.

Definition killq_push (q : MuxerKillQ) (key : ConnMapKey) (kill_time : Z) : MuxerKillQ :=
  if negb (kill_synced q) || killq_is_full q then mkKillQ (kill_q q) false
  else mkKillQ (kill_q q ++ [mkKillItem key kill_time]) (kill_synced q).

Definition killq_pop (q : MuxerKillQ) (now : Z) : option ConnMapKey * MuxerKillQ :=
  match kill_q q with
  | item :: l => if kill_time item <? now then (Some (kq_key item), mkKillQ l (kill_synced q)) else (None, q)
  | [] => (None, q)
  end.

(** The order by the time of termination. *)
Definition item_before (a b : MuxerKillQItem) : Prop := kill_time a <= kill_time b.
#[export] Instance item_before_dec a b : Decision (item_before a b).
Proof. unfold item_before. apply _. Defined.
#[export] Instance item_before_total : Total item_before.
Proof. intros a b. unfold item_before. lia. Qed.
#[export] Instance item_before_trans : Transitive item_before.
Proof. intros a b c. unfold item_before. lia. Qed.

Section Muxer.
Context {S : Type} `{Stream S} {E : Type} `{Epoll E} {M : Type} `{GuestRegions M} `{Profile}.

Abbreviation VErr := (VsockError GuestMemoryError).
Abbreviation MuxerConnection := (VsockConnection (UnixStream S)).

Definition conn_fd (c : MuxerConnection) : Z := as_raw_fd (stream c).

(** The order in which a call iterates over the connections. *)
Record Order := mkOrder {
  iter : gmap ConnMapKey MuxerConnection -> list (ConnMapKey * MuxerConnection);
  iter_perm : forall m, iter m ≡ₚ map_to_list m }.
Variable o : Order.

Fixpoint rxq_fill (l : list (ConnMapKey * MuxerConnection)) (q : list MuxerRx) : MuxerRxQ :=
  match l with
  | [] => mkRxQ q true
  | (key, conn) :: l =>
      if negb (has_pending_rx conn) then rxq_fill l q
      else if MUXER_RXQ_SIZE <=? Z.of_nat (length q) then mkRxQ q false
      else rxq_fill l (q ++ [ConnRx key])
  end.
Definition rxq_from_conn_map (conn_map : gmap ConnMapKey MuxerConnection) : MuxerRxQ := rxq_fill (iter o conn_map) [].

(** [conn.expiry().unwrap()] *)
Definition unwrap_expiry (c : MuxerConnection) : exec Z := unwrap (expiry c).

Fixpoint killq_fill (l : list (ConnMapKey * MuxerConnection)) (q : list MuxerKillQItem) (now : Z) : exec MuxerKillQ :=
  match l with
  | [] => Ret (mkKillQ q true)
  | (key, conn) :: l =>
      if negb (will_expire conn now) then killq_fill l q now
      else if MUXER_KILLQ_SIZE <=? Z.of_nat (length q) then Ret (mkKillQ q false)
      else t ← unwrap_expiry conn; killq_fill l (q ++ [mkKillItem key t]) now
  end.
Definition killq_from_conn_map (conn_map : gmap ConnMapKey MuxerConnection) (now : Z) : exec MuxerKillQ :=
  q ← killq_fill (iter o conn_map) [] now;
  Ret (mkKillQ (merge_sort item_before (kill_q q)) (kill_synced q)).

(** ** The state *)

Inductive EpollListener :=
| Connection (key : ConnMapKey) (evset : EventSet)
| HostSock
| LocalStream (s : UnixStream S).

Record VsockMuxer := mkMuxer {
  cid : Z;
  conn_map : gmap ConnMapKey MuxerConnection;
  listener_map : gmap Z EpollListener;
  rxq : MuxerRxQ;
  killq : MuxerKillQ;
  host_sock : Z;
  host_sock_path : list Z;
  epoll : E;
  local_port_set : gset Z;
  local_port_last : Z }.

Definition with_conns (m : VsockMuxer) v := mkMuxer (cid m) v (listener_map m) (rxq m) (killq m) (host_sock m)
  (host_sock_path m) (epoll m) (local_port_set m) (local_port_last m).
Definition with_listeners (m : VsockMuxer) v ep := mkMuxer (cid m) (conn_map m) v (rxq m) (killq m) (host_sock m)
  (host_sock_path m) ep (local_port_set m) (local_port_last m).
Definition with_rxq (m : VsockMuxer) v := mkMuxer (cid m) (conn_map m) (listener_map m) v (killq m) (host_sock m)
  (host_sock_path m) (epoll m) (local_port_set m) (local_port_last m).
Definition with_killq (m : VsockMuxer) v := mkMuxer (cid m) (conn_map m) (listener_map m) (rxq m) v (host_sock m)
  (host_sock_path m) (epoll m) (local_port_set m) (local_port_last m).
Definition with_ports (m : VsockMuxer) v last := mkMuxer (cid m) (conn_map m) (listener_map m) (rxq m) (killq m)
  (host_sock m) (host_sock_path m) (epoll m) v last.

(** ** Listeners *)

Definition listener_evset (l : EpollListener) : EventSet :=
  match l with Connection _ evset => evset | LocalStream _ => (true, false) | HostSock => (true, false) end.

Definition add_listener (m : VsockMuxer) (fd : Z) (listener : EpollListener) : result unit MuxerError * VsockMuxer :=
  let '(r, ep) := ctl_add (epoll m) fd (listener_evset listener) in
  match r with
  | Ok _ => (Ok tt, with_listeners m (<[fd := listener]> (listener_map m)) ep)
  | Err e => (Err (EpollAdd e), with_listeners m (listener_map m) ep)
  end.

Definition remove_listener (m : VsockMuxer) (fd : Z) : option EpollListener * VsockMuxer :=
  match listener_map m !! fd with
  | None => (None, m)
  | Some l => (Some l, with_listeners m (delete fd (listener_map m)) (ctl_delete (epoll m) fd).2)
  end.

(** ** Ports *)

Definition next_local_port (last : Z) : exec Z :=
  n ← uadd 32 last 1;
  Ret (Z.lor (Z.land n (2 ^ 32 - 1 - Z.shiftl 1 31)) (Z.shiftl 1 30)).

Fixpoint allocate_loop (fuel : nat) (ports : gset Z) (last : Z) : outcome Z :=
  match fuel with
  | O => Hang
  | Datatypes.S fuel =>
      last ← lift (next_local_port last);
      if bool_decide (last ∈ ports) then allocate_loop fuel ports last else Done last
  end.

Definition allocate_local_port (m : VsockMuxer) : outcome (Z * VsockMuxer) :=
  last ← allocate_loop (Datatypes.S (size (local_port_set m))) (local_port_set m) (local_port_last m);
  Done (last, with_ports m ({[last]} ∪ local_port_set m) last).

Definition free_local_port (m : VsockMuxer) (port : Z) : VsockMuxer :=
  with_ports m (local_port_set m ∖ {[port]}) (local_port_last m).

(** ** Terminating connections *)

Definition enq_rst (m : VsockMuxer) (local_port peer_port : Z) : VsockMuxer :=
  with_rxq m (rxq_push (rxq m) (RstPkt local_port peer_port)).2.

Definition remove_connection (m : VsockMuxer) (key : ConnMapKey) : VsockMuxer :=
  let m := match conn_map m !! key with
           | Some conn => (remove_listener (with_conns m (delete key (conn_map m))) (conn_fd conn)).2
           | None => m
           end in
  free_local_port m (key_local_port key).

Definition kill_connection (m : VsockMuxer) (key : ConnMapKey) : VsockMuxer :=
  let had_rx := match conn_map m !! key with Some conn => has_pending_rx conn | None => false end in
  let m := with_conns m (alter kill key (conn_map m)) in
  if had_rx then m else with_rxq m (rxq_push (rxq m) (ConnRx key)).2.

(** One item of the loop: a connection is killed only if it has expired. *)
Definition kill_expired (m : VsockMuxer) (key : ConnMapKey) (now : Z) : VsockMuxer :=
  if match conn_map m !! key with Some conn => has_expired conn now | None => false end
  then kill_connection m key else m.

Fixpoint sweep_pops (fuel : nat) (m : VsockMuxer) (now : Z) : VsockMuxer :=
  match fuel with
  | O => m
  | Datatypes.S fuel =>
      match killq_pop (killq m) now with
      | (Some key, q) => sweep_pops fuel (kill_expired (with_killq m q) key now) now
      | (None, _) => m
      end
  end.

Fixpoint sweep_loop (fuel : nat) (m : VsockMuxer) (now : Z) : outcome VsockMuxer :=
  match fuel with
  | O => Hang
  | Datatypes.S fuel =>
      let m := sweep_pops (length (kill_q (killq m))) m now in
      if killq_is_empty (killq m) && negb (kill_synced (killq m))
      then q ← lift (killq_from_conn_map (conn_map m) now); sweep_loop fuel (with_killq m q) now
      else Done m
  end.

(** A queue built at [now] holds nothing that has expired by then: two rounds. *)
Definition sweep_killq (m : VsockMuxer) (now : Z) : outcome VsockMuxer := sweep_loop 2 m now.

(** ** Connections *)

Definition add_connection (m : VsockMuxer) (key : ConnMapKey) (conn : MuxerConnection) (now : Z)
    : outcome (result unit MuxerError * VsockMuxer) :=
  m ← sweep_killq m now;
  if MAX_CONNECTIONS <=? Z.of_nat (size (conn_map m)) then Done (Err TooManyConnections, m)
  else match add_listener m (conn_fd conn) (Connection key (get_polled_evset conn)) with
  | (Err e, m) => Done (Err e, m)
  | (Ok _, m) =>
      let m := if has_pending_rx conn then with_rxq m (rxq_push (rxq m) (ConnRx key)).2 else m in
      Done (Ok tt, with_conns m (<[key := conn]> (conn_map m)))
  end.

(** The host's end of a connection that has just been established is told its port. *)
Definition ack_host (key : ConnMapKey) (prev_state : ConnState) (conn : MuxerConnection) : MuxerConnection :=
  if bool_decide (prev_state = LocalInit) && bool_decide (state conn = Established) then
    let msg := text "OK " ++ decimal (key_local_port key) ++ [10] in
    match send_bytes_raw conn msg with
    | (Ok written, conn) => if written =? Z.of_nat (length msg) then conn else kill conn
    | (Err _, conn) => kill conn
    end
  else conn.

Definition update_listener (m : VsockMuxer) (key : ConnMapKey) (conn : MuxerConnection) : VsockMuxer :=
  let fd := conn_fd conn in
  let new_evset := get_polled_evset conn in
  if bool_decide (new_evset = (false, false)) then (remove_listener m fd).2
  else match listener_map m !! fd with
  | Some (Connection k evset) =>
      if bool_decide (evset = new_evset) then m
      else
        let '(r, ep) := ctl_modify (epoll m) fd new_evset in
        let m := with_listeners m (<[fd := Connection k new_evset]> (listener_map m)) ep in
        match r with Ok _ => m | Err _ => kill_connection m key end
  | _ =>
      match add_listener m fd (Connection key new_evset) with
      | (Ok _, m) => m
      | (Err _, m) => kill_connection m key
      end
  end.

(** [mut_fn] is applied to the connection; its result is [a0] if there is none. *)
Definition apply_conn_mutation {A} (m : VsockMuxer) (key : ConnMapKey) (a0 : A)
    (mut_fn : MuxerConnection -> exec (A * MuxerConnection)) (now : Z) : exec (A * VsockMuxer) :=
  match conn_map m !! key with
  | None => Ret (a0, m)
  | Some conn =>
      let had_rx := has_pending_rx conn in
      let was_expiring := will_expire conn now in
      let prev_state := state conn in
      r ← mut_fn conn;
      let conn := ack_host key prev_state r.2 in
      let m := with_conns m (<[key := conn]> (conn_map m)) in
      let m := if negb had_rx && has_pending_rx conn then with_rxq m (rxq_push (rxq m) (ConnRx key)).2 else m in
      m ← (if negb was_expiring && will_expire conn now
           then t ← unwrap_expiry conn; Ret (with_killq m (killq_push (killq m) key t)) else Ret m);
      Ret (r.1, update_listener m key conn)
  end.

(** ** Packets for the guest *)

(** A header that tells the guest to forget a connection. *)
Definition rst_pkt (m : VsockMuxer) (local_port peer_port : Z) (p : VsockPacket) : VsockPacket :=
  set_fwd_cnt
    (set_buf_alloc
       (set_flags
          (set_type
             (set_len
                (set_dst_port
                   (set_src_port (set_dst_cid (set_src_cid (set_op p VSOCK_OP_RST) VSOCK_HOST_CID) (cid m)) local_port)
                   peer_port)
                0)
             VSOCK_TYPE_STREAM)
          0)
       0)
    0.

(** The closure of [recv_pkt]: the connection's answer, and whether it has no more. *)
Definition recv_from (p : VsockPacket) (mem : M) (now : Z) (conn : MuxerConnection)
    : exec ((result unit VErr * bool * VsockPacket * M) * MuxerConnection) :=
  let '(r, conn, p, mem) := recv_pkt conn p mem now in
  Ret ((r, negb (has_pending_rx conn), p, mem), conn).

(** [self.rxq.pop().unwrap()] *)
Definition pop_unwrap (m : VsockMuxer) : exec VsockMuxer :=
  match rxq_pop (rxq m) with (Some _, q) => Ret (with_rxq m q) | (None, _) => Panic end.

Fixpoint recv_loop (fuel : nat) (m : VsockMuxer) (p : VsockPacket) (mem : M) (now : Z)
    : outcome (result unit VErr * VsockMuxer * VsockPacket * M) :=
  match fuel with
  | O => Hang
  | Datatypes.S fuel =>
      match rxq_peek (rxq m) with
      | None => Done (Err NoData, m, p, mem)
      | Some (RstPkt local_port peer_port) =>
          m' ← lift (pop_unwrap m);
          Done (Ok tt, m', rst_pkt m local_port peer_port p, mem)
      | Some (ConnRx key) =>
          r ← lift (apply_conn_mutation m key (Err NoData, true, p, mem) (recv_from p mem now) now);
          let '((res, do_pop, p, mem), m) := r in
          m ← lift (if do_pop : bool then pop_unwrap m else Ret m);
          match res with
          | Ok _ =>
              Done (Ok tt, if op p =? VSOCK_OP_RST then remove_connection m (mkKey (src_port p) (dst_port p)) else m,
                    p, mem)
          | Err _ => recv_loop fuel m p mem now
          end
      end
  end.

(** A connection is asked again at most once, when it was killed. *)
Definition muxer_recv_pkt (m : VsockMuxer) (p : VsockPacket) (mem : M) (now : Z)
    : outcome (result unit VErr * VsockMuxer * VsockPacket * M) :=
  let m := if rxq_is_empty (rxq m) && negb (rx_synced (rxq m))
           then with_rxq m (rxq_from_conn_map (conn_map m)) else m in
  recv_loop (2 * length (rx_q (rxq m)) + 1) m p mem now.

Definition muxer_has_pending_rx (m : VsockMuxer) : bool :=
  negb (rxq_is_empty (rxq m)) || negb (rx_synced (rxq m)).

(** ** Packets from the guest *)

(** [connect] opens the socket at a path. *)
Definition handle_peer_request_pkt (m : VsockMuxer) (p : VsockPacket)
    (connect : list Z -> result (UnixStream S) IoError) (now : Z) : outcome VsockMuxer :=
  let port_path := host_sock_path m ++ [95] ++ decimal (dst_port p) in
  match connect port_path with
  | Err _ => Done (enq_rst m (dst_port p) (src_port p))
  | Ok stream =>
      r ← add_connection m (mkKey (dst_port p) (src_port p))
            (new_peer_init stream VSOCK_HOST_CID (cid m) (dst_port p) (src_port p) (buf_alloc p)) now;
      match r with
      | (Ok _, m) => Done m
      | (Err _, m) => Done (enq_rst m (dst_port p) (src_port p))
      end
  end.

(** The answer is always [Ok(())]. *)
Definition muxer_send_pkt (m : VsockMuxer) (p : VsockPacket) (mem : M)
    (connect : list Z -> result (UnixStream S) IoError) (now : Z) : outcome VsockMuxer :=
  let conn_key := mkKey (dst_port p) (src_port p) in
  if negb (type_ p =? VSOCK_TYPE_STREAM) then Done (enq_rst m (dst_port p) (src_port p))
  else if negb (dst_cid p =? VSOCK_HOST_CID) then Done m
  else if negb (bool_decide (is_Some (conn_map m !! conn_key))) then
    if op p =? VSOCK_OP_REQUEST then handle_peer_request_pkt m p connect now
    else Done (enq_rst m (dst_port p) (src_port p))
  else if op p =? VSOCK_OP_RST then Done (remove_connection m conn_key)
  else
    r ← lift (apply_conn_mutation m conn_key tt (fun conn => c ← send_pkt conn p mem now; Ret (tt, c)) now);
    Done r.2.

(** ** Events *)

(** [Read::read_exact] of [n] bytes; a read of a non-blocking socket is not
    interrupted. *)
Fixpoint read_exact (fuel : nat) (s : UnixStream S) (n : nat) (buf : list Z) : UnixStream S * result (list Z) IoError :=
  match n, fuel with
  | O, _ => (s, Ok buf)
  | _, O => (s, Err (Os OtherSystemError))
  | _, Datatypes.S fuel =>
      match read s (Z.of_nat n) with
      | (s, Err e) => (s, Err e)
      | (s, Ok []) => (s, Err (Os OtherSystemError))
      | (s, Ok l) => read_exact fuel s (n - length l) (buf ++ l)
      end
  end.

(** Bytes are read one at a time up to the end of the line, or up to 32. *)
Fixpoint read_line (fuel : nat) (s : UnixStream S) (buf : list Z) : UnixStream S * result (list Z) IoError :=
  match fuel with
  | O => (s, Ok buf)
  | Datatypes.S fuel =>
      if bool_decide (last buf = Some 10) then (s, Ok buf)
      else match read_exact 1 s 1 buf with
      | (s, Err e) => (s, Err e)
      | (s, Ok buf) => read_line fuel s buf
      end
  end.

Definition MIN_READ_LEN : nat := 10.

Definition parse_port_request (buf : list Z) : result Z MuxerError :=
  match from_utf8 buf with
  | None => Err InvalidPortRequest
  | Some s =>
      match split_whitespace s with
      | w1 :: w2 :: _ =>
          if bool_decide (to_lowercase w1 = text "connect")
          then match parse_u32 w2 with Some port => Ok port | None => Err InvalidPortRequest end
          else Err InvalidPortRequest
      | _ => Err InvalidPortRequest
      end
  end.

Definition read_local_stream_port (s : UnixStream S) : UnixStream S * result Z MuxerError :=
  match read_exact MIN_READ_LEN s MIN_READ_LEN [] with
  | (s, Err e) => (s, Err (UnixRead e))
  | (s, Ok buf) =>
      match read_line (32 - MIN_READ_LEN) s buf with
      | (s, Err e) => (s, Err (UnixRead e))
      | (s, Ok buf) => (s, parse_port_request buf)
      end
  end.

(** A socket whose owner asked for a port of the guest. *)
Definition handle_local_stream (m : VsockMuxer) (fd now : Z) : outcome VsockMuxer :=
  match remove_listener m fd with
  | (Some (LocalStream stream), m) =>
      match read_local_stream_port stream with
      | (_, Err _) => Done m
      | (stream, Ok peer_port) =>
          a ← allocate_local_port m;
          let '(local_port, m) := a in
          r ← add_connection m (mkKey local_port peer_port)
                (new_local_init stream VSOCK_HOST_CID (cid m) local_port peer_port) now;
          Done r.2
      end
  | (_, m) => Done m
  end.

(** [accept] is what accepting a connection on the host's socket gives. *)
Definition handle_event (m : VsockMuxer) (fd : Z) (event_set : EventSet)
    (accept : result (UnixStream S) IoError) (now : Z) : outcome VsockMuxer :=
  match listener_map m !! fd with
  | Some (Connection key _) =>
      r ← lift (apply_conn_mutation m key tt
                  (fun conn => c ← notify conn event_set.1 event_set.2; Ret (tt, c)) now);
      Done r.2
  | Some HostSock =>
      if Z.of_nat (size (conn_map m)) =? MAX_CONNECTIONS then Done m
      else match accept with
      | Err _ => Done m
      | Ok stream => Done (add_listener m (as_raw_fd stream) (LocalStream stream)).2
      end
  | Some (LocalStream _) => handle_local_stream m fd now
  | None => Done m
  end.

Definition muxer_get_polled_evset (m : VsockMuxer) : EventSet := (true, false).

(** [events] is what waiting for events gives, each with what accepting gives in the state
    then; none if it fails. *)
Fixpoint muxer_notify (m : VsockMuxer) (events : list (Z * EventSet * (VsockMuxer -> result (UnixStream S) IoError))) (now : Z)
    : outcome VsockMuxer :=
  match events with
  | [] => Done m
  | (fd, event_set, accept) :: events => m ← handle_event m fd event_set (accept m) now; muxer_notify m events now
  end.

(** [bound] is what binding the host's socket gives, [created] a new epoll instance. *)
Definition VsockMuxer_new (cid : Z) (host_sock_path : list Z) (bound : result Z IoError) (created : result E IoError)
    : result VsockMuxer MuxerError :=
  match bound with
  | Err e => Err (UnixBind e)
  | Ok host_sock =>
      match created with
      | Err e => Err (EpollFdCreate e)
      | Ok ep =>
          let m := mkMuxer cid ∅ ∅ rxq_new killq_new host_sock host_sock_path ep ∅ (2 ^ 30 - 1) in
          match add_listener m host_sock HostSock with
          | (Err e, _) => Err e
          | (Ok _, m) => Ok m
          end
      end
  end.
End Muxer.
