(* ===== verification/VsockTimers.v ===== *)
(** * The connections of a multiplexer

    What the multiplexer of [VsockMuxer] relies on in [VsockConnection]: the operations
    on a connection keep its ports and its socket, set the kill timer only when none is
    set, and the states in which a timer can be set ([timer_ok]). *)

From Stdlib Require Import ZArith Lia.
From stdpp Require Import functions prelude gmap.
From S2P Require Import Prelude Text GuestMemory VirtioQueue TxBuf VsockPacket VsockConnection VsockMuxer.

(** [CONN_REQUEST_TIMEOUT_MS] and [CONN_SHUTDOWN_TIMEOUT_MS]. *)
Definition TIMEOUT : Z := 2000.

Section Timers.
Context {S : Type} `{Stream S} {M : Type} `{GuestRegions M} `{Profile}.
Abbreviation Conn := (VsockConnection (UnixStream S)).
Implicit Types c : Conn.

(** The identity of a connection. *)
Definition same_id c c' : Prop :=
  local_port c' = local_port c /\ peer_port c' = peer_port c /\ conn_fd c' = conn_fd c.

#[export] Instance same_id_preorder : PreOrder same_id.
Proof. split; unfold same_id; [done|]. intros a b c. intuition congruence. Qed.

Definition timer_state (s : ConnState) : Prop :=
  match s with LocalInit | LocalClosed | Killed | PeerClosed true true => True | _ => False end.

(** A response is pending only before the connection is established. *)
Definition resp_ok c : Prop :=
  rx_contains (pending_rx c) Response = true -> state c = Killed \/ state c = PeerInit.

(** A request is pending only before the timer is set, and a connection that can transfer
    data has no timer. *)
Record timer_ok c : Prop := {
  to_response : resp_ok c;
  to_request : rx_contains (pending_rx c) Request = true -> state c = Killed \/ state c = LocalInit /\ expiry c = None;
  to_state : is_Some (expiry c) -> timer_state (state c)
}.

(** The timer is left alone, stopped, or set to expire two seconds from [now]. *)
Definition timer_step (now : Z) c c' : Prop :=
  expiry c' = expiry c \/ expiry c' = None \/ expiry c = None /\ expiry c' = Some (now + TIMEOUT).

Definition base_op c c' : Prop :=
  same_id c c' /\ (resp_ok c -> resp_ok c') /\ (state c = Killed -> state c' = Killed) /\
  (state c' = LocalInit -> state c = LocalInit).

Record good_op (now : Z) c c' : Prop := {
  op_base : base_op c c';
  op_timer : timer_ok c -> timer_step now c c' /\ timer_ok c'
}.

(** An operation that changes neither state nor timer and adds no request and no
    response. *)
Record quiet c c' : Prop := {
  qu_id : same_id c c';
  qu_expiry : expiry c' = expiry c;
  qu_state : state c' = state c;
  qu_pending : forall it, it = Request \/ it = Response -> rx_contains (pending_rx c') it = true ->
    rx_contains (pending_rx c) it = true
}.

Lemma quiet_op now c c' : quiet c c' -> good_op now c c'.
Proof.
  intros [Hi He Hs Hp]. assert (Hb : resp_ok c -> resp_ok c').
  { intros Ha Hr. rewrite Hs. apply Ha, Hp; auto. }
  split; [split; [done|]; split; [done|split; congruence]|]. intros [Ha Hb' Hc]. split; [by left|]. split; rewrite ?He, ?Hs; [auto| |done].
  intros Hr. apply Hb', Hp; auto.
Qed.

#[export] Instance quiet_preorder : PreOrder quiet.
Proof.
  split; [done|]. intros a b c [Hi1 He1 Hs1 Hp1] [Hi2 He2 Hs2 Hp2]. split; [by etrans|congruence..|]. auto.
Qed.

(** An operation after a quiet one, and a quiet one after an operation. *)
Lemma quiet_then now c c1 c' : quiet c c1 -> good_op now c1 c' -> good_op now c c'.
Proof.
  intros Hq [(Hi & Hr & Hk & Hl) Ht]. destruct (quiet_op now _ _ Hq) as [(Hi1 & Hr1 & Hk1 & Hl1) Ht1]. destruct Hq as [_ He _ _].
  split; [split; [by etrans|auto]|]. clear Hk Hk1. intros Hk. unfold timer_step in *. rewrite <-He. by apply Ht, Ht1.
Qed.

Lemma then_quiet now c c1 c' : good_op now c c1 -> quiet c1 c' -> good_op now c c'.
Proof.
  intros [(Hi & Hr & Hk & Hl) Ht] Hq. destruct (quiet_op now _ _ Hq) as [(Hi1 & Hr1 & Hk1 & Hl1) Ht1]. destruct Hq as [_ He _ _].
  split; [split; [by etrans|auto]|]. clear Hk Hk1. intros [Hs Hk]%Ht. unfold timer_step in *. rewrite He. split; [done|by apply Ht1].
Qed.

Lemma then_kill now c c1 : good_op now c c1 -> good_op now c (kill c1).
Proof.
  intros [(Hi & Hr & Hk & Hl) Ht]. assert (Hrk : resp_ok (kill c1)) by (intros _; by left).
  split; [split; [exact Hi|done]|]. intros [Hs Hok]%Ht. split; [exact Hs|]. split; [done|by left|done].
Qed.

Lemma quiet_insert c it : it <> Request -> it <> Response -> quiet c (insert_rx c it).
Proof.
  intros Ha Hb. split; try done. intros it' Hit. cbn [insert_rx pending_rx with_pending_rx]. rewrite rx_contains_insert.
  rewrite bool_decide_eq_false_2; [by rewrite orb_false_r|]. naive_solver.
Qed.

Lemma kill_op now c : good_op now c (kill c).
Proof.
  assert (Hr : resp_ok (kill c)) by (intros _; by left). split; [done|]. intros _. split; [by left|].
  split; [done|by left|done].
Qed.

(** ** Streams keep their descriptor *)

Lemma write_fd (s s' : UnixStream S) l r : write s l = (s', r) -> as_raw_fd s' = as_raw_fd s.
Proof. cbn. destruct (write (socket s) l). by intros [= <- _]. Qed.

Lemma read_fd (s s' : UnixStream S) n r : read s n = (s', r) -> as_raw_fd s' = as_raw_fd s.
Proof. cbn. destruct (read (socket s) n). by intros [= <- _]. Qed.

Lemma write_from_offset_fd (s : UnixStream S) p (m : M) offset n x :
  write_from_offset_to stream_write p m offset s n = Ret x -> as_raw_fd x.2 = as_raw_fd s.
Proof.
  unfold write_from_offset_to. destruct (buf_region_addr p m offset n) as [[[a b] d]|e]; [|by intros [= <-]].
  intros (w & E & [= <-])%bind_Ret_inv. unfold region_write_to in E.
  destruct (read_bytes _ _ _) as [l|]; [|by injection E as <-].
  apply bind_Ret_inv in E as (w1 & E & [= <-]). unfold stream_write in E.
  destruct (write s l) as [s' r] eqn:Ew. injection E as <-. apply write_fd in Ew. by destruct r.
Qed.

Lemma read_at_offset_fd (s : UnixStream S) p (m : M) offset n r s' m' :
  read_at_offset_from p m offset s n = (r, s', m') -> as_raw_fd s' = as_raw_fd s.
Proof.
  unfold read_at_offset_from. destruct (buf_region_addr p m offset n) as [[[a b] d]|e]; [|by intros [= _ <- _]].
  unfold region_read_from. destruct (read s n) as [s1 [l|e]] eqn:Er; apply read_fd in Er; [|by intros [= _ <- _]].
  destruct (write_bytes _ _ _) as [[] m1]; by intros [= _ <- _].
Qed.

Lemma flush_fd fuel : forall b (s : UnixStream S) r b' s', flush_calls fuel b s = Ret (r, b', s') ->
  as_raw_fd s' = as_raw_fd s.
Proof.
  induction fuel as [|fuel IH]; intros b s r b' s' E; [done|]. cbn [flush_calls] in E.
  destruct (TxBuf_is_empty b); [by injection E as _ _ <-|].
  apply bind_Ret_inv in E as (d & _ & E). apply bind_Ret_inv in E as (l & _ & E).
  destruct (write s l) as [s1 [n|e]] eqn:Ew; apply write_fd in Ew; [|by injection E as _ _ <-].
  destruct (_ <? _); [by injection E as _ _ <-|].
  apply bind_Ret_inv in E as ([[r1 b1] s2] & E1 & E). apply IH in E1.
  apply bind_Ret_inv in E as (n1 & _ & [= _ _ <-]). congruence.
Qed.

(** ** The operations *)

Lemma send_bytes_quiet c (m : M) p r c' : send_bytes c m p = Ret (r, c') -> quiet c c'.
Proof.
  unfold send_bytes. destruct (negb _).
  { by intros (x & _ & [= _ <-])%bind_Ret_inv. }
  intros (x & E & E')%bind_Ret_inv. apply write_from_offset_fd in E.
  assert (Hq : quiet c (with_stream c x.2)) by by split.
  etrans; [exact Hq|]. clear Hq E. cbv zeta in E'. set (c1 := with_stream c x.2) in *. clearbody c1.
  assert (Hr : forall written, send_rest c1 m p written = Ret (r, c') -> quiet c1 c').
  { intros written Er. unfold send_rest in Er. destruct (_ <? _); [|by injection Er as _ <-].
    apply bind_Ret_inv in Er as (n & _ & Er). by apply bind_Ret_inv in Er as (y & _ & [= _ <-]). }
  destruct x.1 as [n|e]; [by apply Hr in E'|]. destruct (would_block e); [by apply Hr in E'|by injection E' as _ <-].
Qed.

Lemma send_data_op now c p (m : M) c' : send_data c p m = Ret c' -> good_op now c c'.
Proof.
  unfold send_data. destruct (_ =? 0); [intros [= <-]; by apply quiet_op|].
  intros ([r c1] & E & E')%bind_Ret_inv. apply send_bytes_quiet in E. injection E' as <-. destruct r.
  - apply quiet_op. etrans; [exact E|]. destruct (peer_needs_credit_update c1); [by apply quiet_insert|done].
  - apply (quiet_then _ _ _ _ E), kill_op.
Qed.

Definition transfers (s : ConnState) : Prop :=
  match s with Established | PeerClosed _ _ => True | _ => False end.

(** A connection that transfers data is shut down. *)
Lemma close_op now c c' : same_id c c' -> transfers (state c) -> state c' <> LocalInit -> (timer_state (state c) -> timer_state (state c')) ->
  (forall it, it = Request \/ it = Response -> rx_contains (pending_rx c') it = true -> rx_contains (pending_rx c) it = true) ->
  expiry c' = expiry c \/ ~ timer_state (state c) /\ timer_state (state c') /\ expiry c' = Some (now + TIMEOUT) ->
  good_op now c c'.
Proof.
  intros Hi Ht Hni Hs Hp He.
  assert (Hr : resp_ok c -> resp_ok c').
  { intros Hr E%Hp; [|by right]. apply Hr in E. destruct (state c); naive_solver. }
  split; [split; [done|]; split; [done|split; [by intros Ek; rewrite Ek in Ht|done]]|].
  intros [Ha Hq Hst]. split; [|split; [auto| |]].
  - destruct He as [He|(Hn & _ & He)]; [by left|]. right. right. split; [|done].
    destruct (expiry c); [|done]. destruct Hn. by apply Hst.
  - intros E%Hp; [|by left]. apply Hq in E. destruct (state c); naive_solver.
  - destruct He as [->|(_ & Ht' & _)]; auto.
Qed.

Lemma pending_insert c it : it <> Request -> it <> Response -> forall it', it' = Request \/ it' = Response ->
  rx_contains (pending_rx (insert_rx c it)) it' = true -> rx_contains (pending_rx c) it' = true.
Proof. intros Ha Hb. apply (qu_pending _ _ (quiet_insert c it Ha Hb)). Qed.

(** The guest answers a request only after it was delivered. *)
Definition answers c p : Prop := op p = VSOCK_OP_RESPONSE -> rx_contains (pending_rx c) Request = false.

Lemma send_pkt_op now c p (m : M) c' : send_pkt c p m now = Ret c' ->
  base_op c c' /\ (answers c p -> good_op now c c').
Proof.
  unfold send_pkt. set (c0 := with_peer_credit c _ _). assert (Hq : quiet c c0) by done. cbv zeta.
  intros E. cut (base_op c0 c' /\ (answers c0 p -> good_op now c0 c')).
  { intros [Hi Ho]. split; [exact Hi|]. intros Ha. apply (quiet_then _ _ _ _ Hq), Ho, Ha. }
  clear Hq. clearbody c0. clear c.
  assert (Hg : good_op now c0 c' -> base_op c0 c' /\ (answers c0 p -> good_op now c0 c')).
  { intros Hg. split; [apply Hg|done]. }
  destruct (state c0) as [| | | |[] []|] eqn:Es;
    repeat match type of E with context [if ?b then _ else _] => destruct b eqn:? end;
    first [by apply (send_data_op now) in E; auto|injection E as <-].
  all: try (apply Hg, quiet_op; first [reflexivity|by apply quiet_insert|by split; rewrite ?Es]).
  { clear Hg. assert (Hr : resp_ok c0 -> resp_ok (with_state (with_expiry c0 None) Established)).
    { intros Hr E. destruct (Hr E); congruence. }
    assert (Hb : base_op c0 (with_state (with_expiry c0 None) Established)) by (split; [done|]; split; [done|split; [congruence|done]]).
    split; [done|]. apply Z.eqb_eq in Heqb. intros Ha. split; [done|].
    intros [Hok Hq _]. split; [by right; left|]. split; [auto| |by intros []]. cbn. by rewrite (Ha Heqb). }
  all: apply Hg, close_op; rewrite ?Es; try done;
    first [exact (pending_insert (with_state c0 _) Rst ltac:(done) ltac:(done))|by left|idtac].
  right. split; [by intros []|]. split; [|done]. cbn.
  match goal with Hf : _ && _ = true |- _ => apply andb_true_iff in Hf as [-> ->] end. done.
Qed.

Lemma notify_out_op now c c' : notify_out c = Ret c' -> good_op now c c'.
Proof.
  unfold notify_out. destruct (TxBuf_is_empty (tx_buf c)); [intros [= <-]; by apply quiet_op|].
  intros ([[r b] s] & E & E')%bind_Ret_inv. apply flush_fd in E. cbv zeta in E'.
  set (c1 := with_stream (with_tx_buf c b) s) in *. assert (Hq : quiet c c1) by by split. clearbody c1.
  apply (quiet_then _ _ _ _ Hq). clear Hq E.
  assert (Hend : forall n c2, good_op now c1 c2 -> let c3 := with_fwd_cnt c2 (wadd 32 (c_fwd_cnt c2) (wrap 32 n)) in
    Ret (if bool_decide (state c3 = PeerClosed true true) && TxBuf_is_empty (tx_buf c3) then insert_rx c3 Rst
         else if peer_needs_credit_update c3 then insert_rx c3 CreditUpdate else c3) = Ret c' -> good_op now c1 c').
  { intros n c2 Ho c3 [= <-]. assert (Hq : quiet c2 c3) by done. apply (then_quiet _ _ _ _ Ho). etrans; [exact Hq|].
    destruct (_ && _); [by apply quiet_insert|]. destruct (peer_needs_credit_update c3); [by apply quiet_insert|done]. }
  assert (Hq1 : good_op now c1 c1) by by apply quiet_op.
  destruct r as [n|[|e|e]]; cbn in E';
    [exact (Hend n c1 Hq1 E')|exact (Hend 0 _ (kill_op now c1) E')| |exact (Hend 0 _ (kill_op now c1) E')].
  destruct (error_kind e); first [exact (Hend 0 _ Hq1 E')|exact (Hend 0 _ (kill_op now c1) E')].
Qed.

Lemma notify_op now c i o c' : notify c i o = Ret c' -> good_op now c c'.
Proof.
  unfold notify. intros E. assert (Hq : quiet c (if i then insert_rx c Rw else c)).
  { destruct i; [by apply quiet_insert|done]. }
  apply (quiet_then _ _ _ _ Hq). destruct o; [by apply notify_out_op|injection E as <-; by apply quiet_op].
Qed.

(** The packet [p'] is from [c] to its peer. *)
Definition from_conn c (p' : VsockPacket) : Prop := src_port p' = local_port c /\ dst_port p' = peer_port c.

Lemma quiet_without c its : quiet c (with_pending_rx c (without (pending_rx c) its)).
Proof. split; try done. intros it _. apply (sh_sub _ _ (shrinks_without (pending_rx c) its)). Qed.

Lemma recv_credit_op now c p (m : M) r c' p' m' : recv_credit_update c p m = (r, c', p', m') ->
  good_op now c c' /\ (from_conn c p -> from_conn c p').
Proof.
  unfold recv_credit_update. destruct (rx_remove (pending_rx c) CreditUpdate) as [u s] eqn:E.
  assert (Hq : quiet c (with_pending_rx c s)).
  { split; try done. intros it _. pose proof (f_equal snd E) as E2. cbn in E2. rewrite <-E2. apply shrinks_remove. }
  destruct (_ && _); intros [= <- <- <- <-]; (split; [apply quiet_op; etrans; [exact Hq|done]|done]).
Qed.

Lemma recv_read_op now c p (m : M) r c' p' m' : transfers (state c) -> ~ timer_state (state c) ->
  rx_contains (pending_rx c) Request = false -> recv_read c p m now = (r, c', p', m') ->
  good_op now c c' /\ (from_conn c p -> from_conn c p').
Proof.
  intros Ht Hs Hq. unfold recv_read. destruct (read_at_offset_from p m 0 (stream c) _) as [[r1 s] m1] eqn:E.
  apply read_at_offset_fd in E. assert (Hqs : quiet c (with_stream c s)) by by split.
  destruct r1 as [n|e].
  - destruct (n =? 0); intros [= <- <- <- <-]; (split; [|done]); apply (quiet_then _ _ _ _ Hqs).
    + apply close_op; try done. right. by split_and!.
    + by apply quiet_op.
  - destruct (would_block e); [|intros [= <- <- <- <-]; split; [by apply quiet_op|done]].
    intros E2. apply (recv_credit_op now) in E2 as [Hg Hf]. split; [by apply (quiet_then _ _ _ _ Hqs)|exact Hf].
Qed.

Lemma recv_pkt_op now c p (m : M) r c' p' m' : recv_pkt c p m now = (r, c', p', m') ->
  (state c = Killed -> rx_contains (pending_rx c) Rst = true) -> good_op now c c' /\ from_conn c p'.
Proof.
  intros E Hk. rewrite recv_pkt_priority in E. cbv zeta in E. assert (Hf : from_conn c (init_pkt c p)) by done.
  revert E Hf. generalize (init_pkt c p). intros q E Hf.
  destruct (rx_contains (pending_rx c) Rst) eqn:E1; [injection E as <- <- <- <-; split; [apply quiet_op; exact (quiet_without c [Rst])|done]|].
  assert (Hnk : state c <> Killed) by (intros Hs; by specialize (Hk Hs)). clear Hk E1.
  destruct (rx_contains (pending_rx c) Response) eqn:E2.
  { injection E as <- <- <- <-. split; [|done].
    assert (Hr : resp_ok (with_state (with_pending_rx c (without (pending_rx c) [Rst; Response])) Established)).
    { intros E. cbn [pending_rx with_state with_pending_rx] in E. rewrite rx_contains_without in E.
      by rewrite bool_decide_eq_false_2, andb_false_r in E by set_solver. }
    split; [by split|]. intros [Hp Hq Hs]. destruct (Hp E2) as [|Ep]; [done|]. split; [by left|]. split; [done| |].
    - intros E. apply (sh_sub _ _ (shrinks_without (pending_rx c) [Rst; Response])), Hq in E. destruct E as [|[]]; congruence.
    - intros Hx. specialize (Hs Hx). by rewrite Ep in Hs. }
  destruct (rx_contains (pending_rx c) Request) eqn:E3.
  { injection E as <- <- <- <-. split; [|done].
    set (c1 := with_pending_rx c (without (pending_rx c) [Rst; Response; Request])).
    assert (Hr1 : rx_contains (pending_rx c1) Request = false).
    { cbn [c1 pending_rx with_pending_rx]. rewrite rx_contains_without, bool_decide_eq_false_2, andb_false_r; set_solver. }
    pose proof (quiet_op now _ _ (quiet_without c [Rst; Response; Request])) as [(Hi & Hr & _ & _) Ht]. split; [by split|].
    intros Hok. destruct (Ht Hok) as [_ [Hp _ _]]. destruct (to_request _ Hok E3) as [|[Es Ex]]; [done|].
    split; [by right; right|]. split; [done| |intros _; cbn; by rewrite Es]. intros Hx. exfalso. apply not_true_iff_false in Hr1. exact (Hr1 Hx). }
  set (its := [Rst; Response; Request; Rw]) in *. pose proof (quiet_without c its) as Hq.
  assert (Hr1 : rx_contains (without (pending_rx c) its) Request = false).
  { rewrite rx_contains_without, bool_decide_eq_false_2, andb_false_r; set_solver. }
  revert E Hq. set (c1 := with_pending_rx c (without (pending_rx c) its)). intros E Hq.
  cut (good_op now c1 c' /\ (from_conn c1 q -> from_conn c1 p')).
  { intros [Hg Hf1]. split; [by apply (quiet_then _ _ _ _ Hq)|by apply Hf1]. }
  destruct (rx_contains (pending_rx c) Rw); [|by apply (recv_credit_op now) in E]. unfold recv_data in E.
  assert (Hc1 : state c1 = state c) by done. rewrite Hc1 in E.
  destruct (state c) as [| | | |[] []|] eqn:Es;
    try (injection E as <- <- <- <-; split; [by apply quiet_op|done]);
    (destruct (need_credit_update_from_peer c1); [injection E as <- <- <- <-; split; [by apply quiet_op|done]|]);
    apply recv_read_op in E; rewrite ?Hc1; try done; by intros [].
Qed.

(** ** What is pending *)

Lemma pending_spec c : pending_ok (pending_rx c) ->
  has_pending_rx c = true <-> exists it, rx_contains (pending_rx c) it = true.
Proof.
  intros Hp. unfold has_pending_rx. rewrite negb_true_iff, <-not_true_iff_false, rx_is_empty_spec by done. split.
  - intros Hn. destruct (decide (Exists (fun it => rx_contains (pending_rx c) it = true)
      [Request; Response; Rst; Rw; CreditUpdate])) as [(it & _ & E)%Exists_exists|Hn2]; [by exists it|].
    destruct Hn. intros it. apply not_true_iff_false. intros E. apply Hn2, Exists_exists. exists it. split; [|done].
    destruct it; set_solver.
  - intros [it E] Hn. by rewrite Hn in E.
Qed.

Lemma kill_pending c : has_pending_rx (kill c) = true.
Proof.
  unfold has_pending_rx. cbn [kill insert_rx with_pending_rx pending_rx with_state]. unfold rx_insert, rx_is_empty.
  apply negb_true_iff, Z.eqb_neq. intros E. apply Z.lor_eq_0_iff in E as [_ E]. done.
Qed.

Lemma kill_rst c : rx_contains (pending_rx (kill c)) Rst = true.
Proof. cbn [kill insert_rx with_pending_rx pending_rx with_state]. rewrite rx_contains_insert. apply orb_true_r. Qed.

Lemma shrinks_pending c c' : pending_ok (pending_rx c) -> shrinks (pending_rx c) (pending_rx c') ->
  has_pending_rx c' = true -> has_pending_rx c = true.
Proof.
  intros Hp Hs. rewrite !pending_spec; [|done|by apply (sh_ok _ _ Hs)]. intros [it E]. exists it. by apply (sh_sub _ _ Hs).
Qed.

(** A connection that has nothing for the guest has nothing pending afterwards. *)
Lemma recv_err_empty now c p (m : M) e c' p' m' : pending_ok (pending_rx c) ->
  recv_pkt c p m now = (Err e, c', p', m') -> has_pending_rx c' = false.
Proof.
  intros Hp E. rewrite recv_pkt_priority in E. cbv zeta in E. set (its := [Rst; Response; Request; Rw]) in *.
  destruct (rx_contains (pending_rx c) Rst); [done|]. destruct (rx_contains (pending_rx c) Response); [done|].
  destruct (rx_contains (pending_rx c) Request); [done|].
  assert (Hce : forall c1 q m1, pending_rx c1 = without (pending_rx c) its ->
    recv_credit_update c1 q m1 = (Err e, c', p', m') -> has_pending_rx c' = false).
  { intros c1 q m1 E1. unfold recv_credit_update. destruct (rx_remove (pending_rx c1) CreditUpdate) as [u s] eqn:Er.
    destruct (_ && _); [done|]. intros [= _ <- _ _]. apply not_true_iff_false. rewrite pending_spec.
    - intros [it Ei]. cbn [pending_rx with_pending_rx] in Ei. pose proof (f_equal snd Er) as E2. cbn in E2.
      rewrite <-E2 in Ei. change (Z.land _ _) with (rx_remove (pending_rx c1) CreditUpdate).2 in Ei.
      rewrite rx_contains_remove, E1, rx_contains_without in Ei. apply andb_true_iff in Ei as [[_ Ei]%andb_true_iff En].
      apply bool_decide_eq_true in Ei, En. destruct it; set_solver.
    - pose proof (f_equal snd Er) as E2. cbn [snd] in E2. cbn [pending_rx with_pending_rx]. rewrite <-E2.
      apply pending_ok_remove. rewrite E1. by apply shrinks_without. }
  destruct (rx_contains (pending_rx c) Rw); [|by eapply Hce, E]. unfold recv_data in E.
  assert (Hre : forall c1 q, pending_rx c1 = without (pending_rx c) its ->
    recv_read c1 q m now = (Err e, c', p', m') -> has_pending_rx c' = false).
  { intros c1 q E1. unfold recv_read. destruct (read_at_offset_from _ _ _ _ _) as [[[n|e1] s] m1].
    - by destruct (n =? 0).
    - destruct (would_block e1); [|done]. by apply Hce. }
  revert E. cbn [state with_pending_rx].
  destruct (state c) as [| | | |[]|]; try done; (destruct (need_credit_update_from_peer _); [done|]); by apply Hre.
Qed.

(** Delivering a packet does not establish a connection the host asked for. *)
Lemma recv_not_established now c p (m : M) r c' p' m' : resp_ok c -> state c = LocalInit ->
  recv_pkt c p m now = (r, c', p', m') -> state c' = LocalInit.
Proof.
  intros Hr Hs E. rewrite recv_pkt_priority in E. cbv zeta in E.
  destruct (rx_contains (pending_rx c) Rst); [by injection E as _ <- _ _|].
  destruct (rx_contains (pending_rx c) Response) eqn:E2; [destruct (Hr E2); congruence|].
  destruct (rx_contains (pending_rx c) Request); [by injection E as _ <- _ _|].
  destruct (rx_contains (pending_rx c) Rw).
  - unfold recv_data in E. cbn [state with_pending_rx] in E. rewrite Hs in E. by injection E as _ <- _ _.
  - unfold recv_credit_update in E. destruct (rx_remove _ CreditUpdate) as [u s]. destruct (_ && _); by injection E as _ <- _ _.
Qed.
End Timers.
