(* ===== verification/VsockMuxerInv.v ===== *)
(** * The invariant of the multiplexer

    What [VsockMuxer] keeps: the queue of deliveries holds every connection that has
    something to deliver unless it is marked as out of step ([rx_ok]), the queue of
    terminations is sorted ([kill_ok]), every listener belongs to a socket of the
    multiplexer, and sockets and allocated ports belong to one connection each
    ([net_ok]).  The theorems are in [VsockMuxerRuns]. *)

From Stdlib Require Import ZArith Lia Sorting.
From stdpp Require Import functions prelude gmap sorting.
From S2P Require Import Prelude Text GuestMemory VirtioQueue TxBuf VsockPacket VsockConnection VsockMuxer VsockTimers.

Section Invariant.
Context {S : Type} `{Stream S} {E : Type} `{Epoll E} {M : Type} `{GuestRegions M} `{Profile}.
Abbreviation Conn := (VsockConnection (UnixStream S)).
Abbreviation Muxer := (@VsockMuxer S E).
Implicit Types (m : Muxer) (c : Conn) (conns : gmap ConnMapKey Conn).

(** ** Deliveries *)

(** Of the connections but [k], those with something to deliver are in [l]. *)
Definition pending_in (P : ConnMapKey -> Prop) conns (l : list MuxerRx) : Prop :=
  forall k c, P k -> conns !! k = Some c -> has_pending_rx c = true -> ConnRx k ∈ l.

Record rx_inv (P : ConnMapKey -> Prop) conns (q : MuxerRxQ) : Prop := {
  rx_len : rxq_len q <= MUXER_RXQ_SIZE;
  rx_sync : rx_synced q = true -> pending_in P conns (rx_q q)
}.
Abbreviation rx_ok := (rx_inv (fun _ => True)).

Lemma rx_weaken (P Q : ConnMapKey -> Prop) conns q : (forall k, Q k -> P k) -> rx_inv P conns q -> rx_inv Q conns q.
Proof. intros Hw [Hl Hs]. split; [done|]. intros Ey k c Hk. by apply Hs, Hw. Qed.

(** Pushing a connection makes up for what it misses. *)
Lemma push_conn conns q key : rx_inv (.≠ key) conns q -> rx_ok conns (rxq_push q (ConnRx key)).2.
Proof.
  intros [Hl Hs]. unfold rxq_push. destruct (rx_synced q) eqn:Ey; cbn [andb].
  2: by split.
  unfold rxq_is_full. destruct (Z.eqb_spec (rxq_len q) MUXER_RXQ_SIZE) as [Ef|Ef]; cbn [negb]; [by split|].
  split; cbn [rx_q rx_synced fst snd].
  - unfold rxq_len in *. cbn [rx_q]. rewrite length_app. cbn [length]. unfold MUXER_RXQ_SIZE in *. lia.
  - intros _ k c _ Hk Hp. apply elem_of_app. destruct (decide (k = key)) as [->|Hn]; [right; by left|left].
    by apply (Hs eq_refl k c).
Qed.

Lemma evict_length rx l : forall l', evict rx l = Some l' -> length l' = length l.
Proof.
  induction l as [|[k|a b] l IH]; intros l'; cbn; [done|by intros [= <-]|].
  destruct (evict rx l) as [l1|]; [|done]. intros [= <-]. cbn. by rewrite (IH l1).
Qed.

Lemma push_rst P conns q a b : rx_inv P conns q -> rx_inv P conns (rxq_push q (RstPkt a b)).2.
Proof.
  intros [Hl Hs]. unfold rxq_push. destruct (rx_synced q) eqn:Ey; cbn [andb].
  - unfold rxq_is_full. destruct (Z.eqb_spec (rxq_len q) MUXER_RXQ_SIZE) as [Ef|Ef]; cbn [negb].
    + destruct (evict _ _) as [l|] eqn:Ev; [|split; cbn; auto]. split; [|done]. apply evict_length in Ev.
      unfold rxq_len in *. cbn [rx_q snd]. by rewrite length_reverse, Ev, length_reverse.
    + split; cbn [rx_q rx_synced fst snd].
      * unfold rxq_len in *. cbn [rx_q]. rewrite length_app. cbn [length]. unfold MUXER_RXQ_SIZE in *. lia.
      * intros _ k c HP Hk Hp. apply elem_of_app. left. by apply (Hs eq_refl k c).
  - destruct (evict _ _) as [l|] eqn:Ev; [|split; cbn; [done|by rewrite Ey]]. split; [|done]. apply evict_length in Ev.
    unfold rxq_len in *. cbn [rx_q snd]. by rewrite length_reverse, Ev, length_reverse.
Qed.

(** Connections that change without having something new to deliver. *)
Lemma rx_conns P conns conns' q : rx_inv P conns q ->
  (forall k c', P k -> conns' !! k = Some c' -> has_pending_rx c' = true ->
     exists c, conns !! k = Some c /\ has_pending_rx c = true) ->
  rx_inv P conns' q.
Proof.
  intros [Hl Hs] Hc. split; [done|]. intros Ey k c' HP Hk Hp. destruct (Hc k c' HP Hk Hp) as (c & Ec & Hpc).
  by apply (Hs Ey k c).
Qed.

Variable o : @Order S.

Lemma fill_ok conns l : forall q, (forall k c, (k, c) ∈ l -> conns !! k = Some c) -> Z.of_nat (length q) <= MUXER_RXQ_SIZE ->
  pending_in (fun k => forall c, (k, c) ∉ l) conns q ->
  rx_ok conns (rxq_fill l q) /\ exists q', rx_q (rxq_fill l q) = q ++ q'.
Proof.
  induction l as [|[k c] l IH]; intros q Hl Hlen Hp; cbn [rxq_fill].
  - split; [|exists []; by rewrite app_nil_r]. split; [done|]. intros _ k c _. apply Hp. intros c0. apply not_elem_of_nil.
  - assert (Hl' : forall k c, (k, c) ∈ l -> conns !! k = Some c) by (intros k0 c0 Hin; apply Hl; by right).
    pose proof (Hl k c (list_elem_of_here _ _)) as Ek. destruct (has_pending_rx c) eqn:Epc; cbn [negb].
    + destruct (Z.leb_spec MUXER_RXQ_SIZE (Z.of_nat (length q))) as [Hf|Hf].
      { split; [by split|exists []; by rewrite app_nil_r]. }
      destruct (IH (q ++ [ConnRx k])) as [IH1 (q' & IH2)]; [done|rewrite length_app; cbn [length]; lia| |].
      * intros k0 c0 Hn Ek0 Hp0. apply elem_of_app. destruct (decide (k0 = k)) as [->|Hk]; [right; by left|left].
        apply (Hp k0 c0); [|done..]. intros c1 [E1|Hin]%elem_of_cons; [congruence|by apply (Hn c1)].
      * split; [done|]. exists ([ConnRx k] ++ q'). by rewrite IH2, <-app_assoc.
    + apply IH; [done|done|]. intros k0 c0 Hn Ek0 Hp0. apply (Hp k0 c0); [|done..].
      intros c1 [E1|Hin]%elem_of_cons; [|by apply (Hn c1)]. injection E1 as -> ->. congruence.
Qed.

Lemma from_conn_map_ok conns : rx_ok conns (rxq_from_conn_map o conns).
Proof.
  apply (fill_ok conns (iter o conns) []); [|done|].
  - intros k c Hin. rewrite (iter_perm o) in Hin. by apply elem_of_map_to_list.
  - intros k c Hn Ek _. destruct (Hn c). rewrite (iter_perm o). by apply elem_of_map_to_list.
Qed.

(** ** Terminations *)

Record kill_ok (T : Z) (q : MuxerKillQ) : Prop := {
  kq_len : Z.of_nat (length (kill_q q)) <= MUXER_KILLQ_SIZE;
  kq_sorted : StronglySorted item_before (kill_q q);
  kq_bound : Forall (fun it => kill_time it <= T + TIMEOUT) (kill_q q)
}.

Lemma kill_later T T' q : T <= T' -> kill_ok T q -> kill_ok T' q.
Proof. intros HT [Hl Hs Hb]. split; [done..|]. eapply Forall_impl; [exact Hb|]. cbn. lia. Qed.

Lemma sorted_snoc l x : StronglySorted item_before l -> Forall (fun y => item_before y x) l ->
  StronglySorted item_before (l ++ [x]).
Proof.
  induction l as [|y l IH]; intros Hs Hf; cbn; [by repeat constructor|].
  apply StronglySorted_inv in Hs as [Hs Hy]. apply Forall_cons_1 in Hf as [Hx Hf].
  constructor; [by apply IH|]. apply Forall_app. split; [done|by constructor].
Qed.

Lemma killq_push_ok T now q k : T <= now -> kill_ok T q -> kill_ok now (killq_push q k (now + TIMEOUT)).
Proof.
  intros HT Hk. pose proof (kill_later _ _ _ HT Hk) as [Hl Hs Hb]. unfold killq_push, killq_is_full.
  destruct (kill_synced q); cbn [negb orb]; [|done].
  destruct (Z.eqb_spec (Z.of_nat (length (kill_q q))) MUXER_KILLQ_SIZE); [done|]. split; cbn [kill_q].
  - rewrite length_app. cbn [length]. unfold MUXER_KILLQ_SIZE in *. lia.
  - apply sorted_snoc; [done|]. exact Hb.
  - apply Forall_app. split; [done|]. constructor; [cbn; lia|constructor].
Qed.

Lemma killq_push_synced q k t : kill_synced (killq_push q k t) = true ->
  kill_q (killq_push q k t) = kill_q q ++ [mkKillItem k t].
Proof. unfold killq_push. by destruct (_ || _). Qed.

(** Building the queue never unwraps a missing time, and all of its items are in the
    future. *)
Lemma killq_fill_ok now (l : list (ConnMapKey * Conn)) : forall q, Forall (fun it => now < kill_time it) q ->
  exists q', killq_fill l q now = Ret q' /\ Forall (fun it => now < kill_time it) (kill_q q') /\
    (kill_synced q' = true \/ MUXER_KILLQ_SIZE <= Z.of_nat (length (kill_q q'))).
Proof.
  induction l as [|[k c] l IH]; intros q Hq; cbn [killq_fill]; [eexists; split; [done|]; auto|].
  destruct (will_expire c now) eqn:Ew; cbn [negb]; [|by apply IH].
  destruct (Z.leb_spec MUXER_KILLQ_SIZE (Z.of_nat (length q))); [eexists; split; [done|]; auto|].
  unfold unwrap_expiry. unfold will_expire in Ew. destruct (expiry c) as [t|]; [|done]. cbn [unwrap]. rewrite bind_Ret.
  apply IH. apply Forall_app. split; [done|]. constructor; [cbn; lia|constructor].
Qed.

Lemma killq_from_ok conns now : exists q, killq_from_conn_map o conns now = Ret q /\
  Forall (fun it => now < kill_time it) (kill_q q) /\ (kill_synced q = true \/ kill_q q <> []).
Proof.
  unfold killq_from_conn_map. destruct (killq_fill_ok now (iter o conns) []) as (q & -> & Hf & Hs); [constructor|].
  rewrite bind_Ret. eexists. split; [done|]. cbn [kill_q kill_synced].
  pose proof (merge_sort_Permutation item_before (kill_q q)) as Hp. split; [by rewrite Hp|].
  destruct Hs as [->|Hs]; [by left|right]. intros En. rewrite En in Hp. apply Permutation_nil_l in Hp.
  rewrite <-Hp in Hs. done.
Qed.

(** ** Ports *)

Definition last_ok (last : Z) : Prop := 2 ^ 30 - 1 <= last < 2 ^ 31.

Lemma next_port last : last_ok last -> next_local_port last = Ret (2 ^ 30 + (last + 1) mod 2 ^ 30).
Proof.
  intros Hl. unfold last_ok in Hl. unfold next_local_port. rewrite uadd_ok, bind_Ret by (unfold in_range; lia). f_equal.
  change (2 ^ 32 - 1 - Z.shiftl 1 31) with (Z.ones 31). change (Z.shiftl 1 30) with (2 ^ 30). rewrite Z.land_ones by lia.
  destruct (decide (last = 2 ^ 31 - 1)) as [->|Hn]; [reflexivity|].
  rewrite (Z.mod_small _ (2 ^ 31)) by lia. assert (Em : (last + 1) mod 2 ^ 30 = last + 1 - 2 ^ 30).
  { symmetry. apply Z.mod_unique with 1; lia. }
  rewrite Em. transitivity (last + 1); [|lia]. set (n := last + 1). apply Z.bits_inj. intros i. rewrite Z.lor_spec.
  destruct (decide (i = 30)) as [->|Hi].
  - rewrite Z.pow2_bits_true, orb_true_r by lia. symmetry. apply Z.testbit_true; [lia|].
    assert (n / 2 ^ 30 = 1) as -> by (symmetry; apply Z.div_unique with (n - 2 ^ 30); unfold n; lia). done.
  - by rewrite Z.pow2_bits_false, orb_false_r by lia.
Qed.

Lemma port_range last : last_ok (2 ^ 30 + last mod 2 ^ 30).
Proof. unfold last_ok. pose proof (Z.mod_pos_bound last (2 ^ 30) ltac:(lia)). lia. Qed.

(** If no port is found, the loop has seen [fuel] ports, one after the other. *)
Lemma allocate_loop_ok fuel ports : forall last, last_ok last ->
  (exists p, allocate_loop fuel ports last = Done p /\ p ∉ ports /\ 2 ^ 30 <= p < 2 ^ 31) \/
  allocate_loop fuel ports last = Hang /\
    forall i, 1 <= i <= Z.of_nat fuel -> 2 ^ 30 + (last + i) mod 2 ^ 30 ∈ ports.
Proof.
  induction fuel as [|fuel IH]; intros last Hl; cbn [allocate_loop]; [right; split; [done|lia]|].
  rewrite (next_port last Hl). cbn [lift]. rewrite bind_Done.
  pose proof (port_range (last + 1)) as Hr. case_bool_decide as Hin.
  - destruct (IH _ Hr) as [IH'|[IH1 IH2]]; [by left|right]. split; [done|]. intros i Hi.
    destruct (decide (i = 1)) as [->|]; [done|]. specialize (IH2 (i - 1) ltac:(lia)).
    replace (2 ^ 30 + (last + 1) mod 2 ^ 30 + (i - 1)) with ((last + 1) mod 2 ^ 30 + (i - 1) + 1 * 2 ^ 30) in IH2 by lia.
    rewrite Z_mod_plus_full, Zplus_mod_idemp_l in IH2. by replace (last + 1 + (i - 1)) with (last + i) in IH2 by lia.
  - left. eexists. split; [done|]. split; [done|]. unfold last_ok in Hr.
    pose proof (Z.mod_pos_bound (last + 1) (2 ^ 30) ltac:(lia)). lia.
Qed.

(** While a port is free one is found. *)
Lemma allocate_ends ports last : last_ok last -> Z.of_nat (size ports) < 2 ^ 30 ->
  exists p, allocate_loop (Datatypes.S (size ports)) ports last = Done p /\ p ∉ ports /\ 2 ^ 30 <= p < 2 ^ 31.
Proof.
  intros Hl Hs. destruct (allocate_loop_ok (Datatypes.S (size ports)) ports last Hl) as [|[_ Hin]]; [done|exfalso].
  set (f := fun i : nat => 2 ^ 30 + (last + Z.of_nat i) mod 2 ^ 30).
  set (l := map f (seq 1 (Datatypes.S (size ports)))).
  assert (Hsub : list_to_set l ⊆ ports).
  { intros p. rewrite elem_of_list_to_set. unfold l. rewrite list_elem_of_fmap. intros (i & -> & Hi%elem_of_seq). apply Hin. lia. }
  assert (Hnd : NoDup l).
  { apply NoDup_fmap_2_strong; [|apply NoDup_seq]. intros i j Hi%elem_of_seq Hj%elem_of_seq. unfold f. intros Ef.
    assert (Em : (last + Z.of_nat i) mod 2 ^ 30 = (last + Z.of_nat j) mod 2 ^ 30) by lia.
    assert (Ed : (Z.of_nat i - Z.of_nat j) mod 2 ^ 30 = 0).
    { replace (Z.of_nat i - Z.of_nat j) with ((last + Z.of_nat i) - (last + Z.of_nat j)) by lia.
      by rewrite Zminus_mod, Em, Z.sub_diag. }
    apply Z.mod_divide in Ed as [q Eq]; [|done]. nia. }
  pose proof (subseteq_size _ _ Hsub) as Hsz. rewrite size_list_to_set in Hsz by done.
  unfold l in Hsz. rewrite length_map, length_seq in Hsz. lia.
Qed.

(** ** Sockets and ports *)

Definition listener_ok m (fd : Z) (l : @EpollListener S) : Prop :=
  match l with
  | Connection k _ => exists c, conn_map m !! k = Some c /\ conn_fd c = fd
  | HostSock => fd = host_sock m
  | LocalStream s => as_raw_fd s = fd /\ fd <> host_sock m /\ forall k c, conn_map m !! k = Some c -> conn_fd c <> fd
  end.

Record net_ok m : Prop := {
  net_ids : forall k c, conn_map m !! k = Some c -> local_port c = key_local_port k /\ peer_port c = key_peer_port k;
  net_fds : forall k1 c1 k2 c2, conn_map m !! k1 = Some c1 -> conn_map m !! k2 = Some c2 -> conn_fd c1 = conn_fd c2 -> k1 = k2;
  net_host : forall k c, conn_map m !! k = Some c -> conn_fd c <> host_sock m;
  net_listen : forall fd l, listener_map m !! fd = Some l -> listener_ok m fd l;
  net_ports : forall k c, conn_map m !! k = Some c -> 2 ^ 30 <= key_local_port k -> key_local_port k ∈ local_port_set m;
  net_unique : forall k1 c1 k2 c2, conn_map m !! k1 = Some c1 -> conn_map m !! k2 = Some c2 ->
    2 ^ 30 <= key_local_port k1 -> key_local_port k1 = key_local_port k2 -> k1 = k2;
  net_last : last_ok (local_port_last m)
}.

(** The connections keep their identities. *)
Definition ids_kept conns conns' : Prop :=
  (forall k c', conns' !! k = Some c' -> exists c, conns !! k = Some c /\ same_id c c') /\
  (forall k c, conns !! k = Some c -> exists c', conns' !! k = Some c' /\ same_id c c').

Lemma ids_insert conns k c c' : conns !! k = Some c -> same_id c c' -> ids_kept conns (<[k := c']> conns).
Proof.
  intros Ek Hi. split; intros k1 c1; destruct (decide (k1 = k)) as [->|Hn]; rewrite ?lookup_insert_eq, ?lookup_insert_ne by done.
  - intros [= <-]. eauto.
  - intros Ek1. by exists c1.
  - rewrite Ek. intros [= <-]. eauto.
  - intros Ek1. by exists c1.
Qed.

Lemma ids_alter conns k (f : Conn -> Conn) : (forall c, same_id c (f c)) -> ids_kept conns (alter f k conns).
Proof.
  intros Hi. split; intros k1 c1; destruct (decide (k1 = k)) as [->|Hn]; rewrite ?lookup_alter_eq, ?lookup_alter_ne by done.
  - destruct (conns !! k) as [c|]; [|done]. intros [= <-]. eauto.
  - intros Ek1. by exists c1.
  - intros ->. eauto.
  - intros Ek1. by exists c1.
Qed.

Lemma net_conns m conns : ids_kept (conn_map m) conns -> net_ok m -> net_ok (with_conns m conns).
Proof.
  intros [Hb Hf] [Ni Nf Nh Nl Np Nu Na]. split; cbn; [| | | | | |done].
  - intros k c' (c & Ec & -> & -> & _)%Hb. by apply Ni.
  - intros k1 c1' k2 c2' (c1 & E1 & _ & _ & ->)%Hb (c2 & E2 & _ & _ & ->)%Hb. by apply Nf.
  - intros k c' (c & Ec & _ & _ & ->)%Hb. by apply (Nh k).
  - intros fd l El. specialize (Nl fd l El). destruct l as [k ev| |s]; cbn in *; [|done|].
    + destruct Nl as (c & Ec & Ef). apply Hf in Ec as (c' & Ec' & _ & _ & Ef'). exists c'. split; [done|congruence].
    + destruct Nl as (? & ? & Nc). split; [done|]. split; [done|]. intros k c' (c & Ec & _ & _ & ->)%Hb. by apply (Nc k).
  - intros k c' (c & Ec & _)%Hb. by apply (Np k c).
  - intros k1 c1' k2 c2' (c1 & E1 & _)%Hb (c2 & E2 & _)%Hb. by apply (Nu k1 c1 k2 c2).
Qed.

(** [remove_listener] only removes one. *)
Lemma remove_listener_ok m fd : net_ok m ->
  net_ok (remove_listener m fd).2 /\ conn_map (remove_listener m fd).2 = conn_map m /\
  rxq (remove_listener m fd).2 = rxq m /\ killq (remove_listener m fd).2 = killq m /\
  local_port_set (remove_listener m fd).2 = local_port_set m.
Proof.
  intros Hn. unfold remove_listener. destruct (listener_map m !! fd) as [l|] eqn:El; [|done].
  split; [|done]. destruct Hn as [Ni Nf Nh Nl Np Nu Na]. split; try done. cbn. intros fd' l'.
  intros [_ El']%lookup_delete_Some. by apply Nl.
Qed.

Lemma listener_set m fd k ev ep c : net_ok m -> conn_map m !! k = Some c -> conn_fd c = fd ->
  net_ok (with_listeners m (<[fd := Connection k ev]> (listener_map m)) ep).
Proof.
  intros [Ni Nf Nh Nl Np Nu Na] Ek Ef. split; try done. cbn. intros fd' l'.
  destruct (decide (fd' = fd)) as [->|Hd]; [rewrite lookup_insert_eq|rewrite lookup_insert_ne by done; apply Nl].
  intros [= <-]. by exists c.
Qed.

Lemma listener_kept m ep : net_ok m -> net_ok (with_listeners m (listener_map m) ep).
Proof. by intros []. Qed.

(** ** The parts of the state an operation leaves alone *)

Definition same_rest m m' : Prop := killq m' = killq m /\ local_port_set m' = local_port_set m /\ cid m' = cid m.

#[export] Instance same_rest_preorder : PreOrder same_rest.
Proof. split; unfold same_rest; [done|]. intros a b c. intuition congruence. Qed.

(** ** Killing a connection *)

Lemma kill_id c : same_id c (kill c).
Proof. done. Qed.

(** The connections are those before, [key] killed. *)
Definition killed_or_same key conns conns' : Prop := conns' = conns \/ conns' = alter kill key conns.

Lemma killed_lookup key conns conns' k c' : killed_or_same key conns conns' -> conns' !! k = Some c' ->
  exists c, conns !! k = Some c /\ (c' = c \/ k = key /\ c' = kill c).
Proof.
  intros [->| ->]; [eauto|]. destruct (decide (k = key)) as [->|Hn].
  - rewrite lookup_alter_eq. destruct (conns !! key) as [c|]; [|done]. intros [= <-]. eauto.
  - rewrite lookup_alter_ne by done. eauto.
Qed.

Lemma kill_connection_ok m key : net_ok m -> rx_ok (conn_map m) (rxq m) ->
  let m' := kill_connection m key in
  net_ok m' /\ rx_ok (conn_map m') (rxq m') /\ same_rest m m' /\ conn_map m' = alter kill key (conn_map m) /\
  (rxq m' = rxq m \/ rxq m' = (rxq_push (rxq m) (ConnRx key)).2 /\
   forall c, conn_map m !! key = Some c -> has_pending_rx c = false).
Proof.
  intros Hn Hr. unfold kill_connection. pose proof (net_conns m _ (ids_alter (conn_map m) key kill kill_id) Hn) as Hn'.
  assert (Hother : forall P, (forall k, P k -> k <> key \/ exists c, conn_map m !! key = Some c /\ has_pending_rx c = true) ->
    rx_inv P (alter kill key (conn_map m)) (rxq m)).
  { intros P HP. apply (rx_conns P (conn_map m)); [by apply (rx_weaken _ _ _ _ (fun k _ => I) Hr)|].
    intros k c' HPk Ek Hp. destruct (decide (k = key)) as [->|Hd].
    - destruct (HP key HPk) as [|Hc]; done.
    - rewrite lookup_alter_ne in Ek by done. eauto. }
  destruct (conn_map m !! key) as [c|] eqn:Ek; [destruct (has_pending_rx c) eqn:Ep|].
  - split; [done|]. split; [apply Hother; intros k _; right; eauto|]. split; [done|]. split; [done|by left].
  - split; [by destruct Hn'|]. split; [apply push_conn, Hother; auto|]. split; [done|]. split; [done|right].
    split; [done|]. congruence.
  - split; [by destruct Hn'|]. split; [apply push_conn, Hother; auto|]. split; [done|]. split; [done|right].
    split; [done|]. done.
Qed.

(** ** Events a connection waits for *)

(** The connection [c] of [key] stays as it is, or is killed and queued. *)
Definition kept_or_killed m key c m' : Prop :=
  conn_map m' = conn_map m /\ rxq m' = rxq m \/
  conn_map m' = <[key := kill c]> (conn_map m) /\
    rxq m' = (if has_pending_rx c then rxq m else (rxq_push (rxq m) (ConnRx key)).2).

Lemma kill_conn_killed m key c : net_ok m -> rx_ok (conn_map m) (rxq m) -> conn_map m !! key = Some c ->
  let m' := kill_connection m key in
  net_ok m' /\ rx_ok (conn_map m') (rxq m') /\ same_rest m m' /\ kept_or_killed m key c m'.
Proof.
  intros Hn Hr Ek m'. destruct (kill_connection_ok m key Hn Hr) as (Hn' & Hr' & Hs & Ec & _).
  split; [done|]. split; [done|]. split; [done|]. right. split.
  - fold m' in Ec. rewrite Ec. apply map_eq. intros k. destruct (decide (k = key)) as [->|Hd].
    + by rewrite lookup_alter_eq, lookup_insert_eq, Ek.
    + by rewrite lookup_alter_ne, lookup_insert_ne.
  - unfold m', kill_connection. rewrite Ek. by destruct (has_pending_rx c).
Qed.

Lemma update_listener_ok m key c : net_ok m -> rx_ok (conn_map m) (rxq m) -> conn_map m !! key = Some c ->
  let m' := update_listener m key c in
  net_ok m' /\ rx_ok (conn_map m') (rxq m') /\ same_rest m m' /\ kept_or_killed m key c m'.
Proof.
  intros Hn Hr Ek m'. unfold m', update_listener. clear m'. case_bool_decide as Hev.
  { destruct (remove_listener_ok m (conn_fd c) Hn) as (Hn' & Ec & Eq & Eki & Eps). split; [done|]. rewrite Ec, Eq.
    split; [done|]. split; [|by left]. split; [done|]. split; [done|]. unfold remove_listener. by case_match. }
  assert (Hm : forall ep k, net_ok (with_listeners m (<[conn_fd c := Connection k (get_polled_evset c)]> (listener_map m)) ep) ->
    forall r : result unit IoError, let m1 := with_listeners m (<[conn_fd c := Connection k (get_polled_evset c)]> (listener_map m)) ep in
    let m' := match r with Ok _ => m1 | Err _ => kill_connection m1 key end in
    net_ok m' /\ rx_ok (conn_map m') (rxq m') /\ same_rest m m' /\ kept_or_killed m key c m').
  { intros ep k Hnk [] m1; [|by apply (kill_conn_killed m1 key c)]. split; [done|]. split; [done|]. split; [done|by left]. }
  assert (Ha : let m' := match add_listener m (conn_fd c) (Connection key (get_polled_evset c)) with
      | (Ok _, m) => m | (Err _, m) => kill_connection m key end in
    net_ok m' /\ rx_ok (conn_map m') (rxq m') /\ same_rest m m' /\ kept_or_killed m key c m').
  { unfold add_listener. destruct (ctl_add (epoll m) (conn_fd c) _) as [[[]|e] ep].
    - split; [by apply (listener_set m _ _ _ _ c)|]. split; [done|]. split; [done|by left].
    - by apply (kill_conn_killed (with_listeners m (listener_map m) ep) key c); [apply listener_kept| |]. }
  destruct (listener_map m !! conn_fd c) as [[k ev| |st]|] eqn:El; [|exact Ha|exact Ha|exact Ha].
  case_bool_decide as Hsame; [split; [done|]; split; [done|]; split; [done|by left]|].
  destruct (ctl_modify (epoll m) (conn_fd c) _) as [r ep]. apply Hm.
  destruct (net_listen _ Hn _ _ El) as (c' & Ek' & Ef). by apply (listener_set m _ _ _ _ c').
Qed.

(** ** A mutation of a connection *)

Lemma ack_id key st c : same_id c (ack_host key st c).
Proof.
  unfold ack_host. destruct (_ && _); [|done]. unfold send_bytes_raw.
  destruct (write (stream c) _) as [s r] eqn:Ew. apply write_fd in Ew.
  destruct r as [n|e]; [destruct (_ =? _)|]; (split; [done|]; split; [done|exact Ew]).
Qed.

(** The queue of terminations after [c] became [c']. *)
Definition killq_after (q : MuxerKillQ) key c c' (now : Z) : MuxerKillQ :=
  if negb (will_expire c now) && will_expire c' now then killq_push q key (default 0 (expiry c')) else q.

(** The queue of deliveries after [c] became [c']. *)
Definition rxq_after (q : MuxerRxQ) key c c' : MuxerRxQ :=
  if negb (has_pending_rx c) && has_pending_rx c' then (rxq_push q (ConnRx key)).2 else q.

Record mutated m key c c' (now : Z) m' : Prop := {
  mu_net : net_ok m';
  mu_rx : rx_ok (conn_map m') (rxq m');
  mu_ports : local_port_set m' = local_port_set m;
  mu_cid : cid m' = cid m;
  mu_killq : killq m' = killq_after (killq m) key c c' now;
  mu_conns : conn_map m' = <[key := c']> (conn_map m) /\ rxq m' = rxq_after (rxq m) key c c' \/
    conn_map m' = <[key := kill c']> (conn_map m) /\
      rxq m' = (if has_pending_rx c' then rxq_after (rxq m) key c c' else (rxq_push (rxq m) (ConnRx key)).2)
}.

Lemma rxq_after_ok m key c c' : rx_ok (conn_map m) (rxq m) -> conn_map m !! key = Some c ->
  rx_ok (<[key := c']> (conn_map m)) (rxq_after (rxq m) key c c').
Proof.
  intros Hr Ek. unfold rxq_after.
  assert (Ho : rx_inv (.≠ key) (<[key := c']> (conn_map m)) (rxq m)).
  { apply (rx_conns _ (conn_map m)); [by apply (rx_weaken _ _ _ _ (fun k _ => I) Hr)|]. intros k c1 Hd E1 Hp.
    rewrite lookup_insert_ne in E1 by done. eauto. }
  destruct (has_pending_rx c) eqn:Ep; cbn [negb andb]; [|destruct (has_pending_rx c') eqn:Ep'; [by apply push_conn|]].
  - apply (rx_conns _ (conn_map m)); [done|]. intros k c1 _ E1 Hp. destruct (decide (k = key)) as [->|Hd]; [eauto|].
    rewrite lookup_insert_ne in E1 by done. eauto.
  - apply (rx_conns _ (conn_map m)); [done|]. intros k c1 _ E1 Hp. destruct (decide (k = key)) as [->|Hd].
    + rewrite lookup_insert_eq in E1. injection E1 as <-. congruence.
    + rewrite lookup_insert_ne in E1 by done. eauto.
Qed.

Lemma apply_ok {A} m key (a0 a : A) f now c c1 : net_ok m -> rx_ok (conn_map m) (rxq m) -> conn_map m !! key = Some c ->
  f c = Ret (a, c1) -> same_id c c1 ->
  exists m', apply_conn_mutation m key a0 f now = Ret (a, m') /\ mutated m key c (ack_host key (state c) c1) now m'.
Proof.
  intros Hn Hr Ek Ef Hi. unfold apply_conn_mutation. rewrite Ek, Ef, bind_Ret. cbn [fst snd].
  set (c2 := ack_host key (state c) c1). assert (Hi2 : same_id c c2) by (etrans; [exact Hi|apply ack_id]). clearbody c2.
  set (m1 := with_conns m (<[key := c2]> (conn_map m))).
  assert (Hn1 : net_ok m1) by (apply net_conns; [by apply ids_insert with c|done]).
  assert (Em2 : (if negb (has_pending_rx c) && has_pending_rx c2 then with_rxq m1 (rxq_push (rxq m1) (ConnRx key)).2 else m1) =
    with_rxq m1 (rxq_after (rxq m) key c c2)).
  { unfold rxq_after. by destruct (_ && _). }
  rewrite Em2. set (m2 := with_rxq m1 (rxq_after (rxq m) key c c2)).
  assert (Hr2 : rx_ok (conn_map m2) (rxq m2)) by (by apply rxq_after_ok).
  assert (Em3 : (if negb (will_expire c now) && will_expire c2 now
      then t ← unwrap_expiry c2; Ret (with_killq m2 (killq_push (killq m2) key t)) else Ret m2) =
    Ret (with_killq m2 (killq_after (killq m) key c c2 now))).
  { unfold killq_after. destruct (negb (will_expire c now)); [|done]. cbn [andb]. unfold unwrap_expiry, will_expire.
    by destruct (expiry c2) as [t|]; [destruct (now <? t)|]. }
  rewrite Em3, bind_Ret. set (m3 := with_killq m2 (killq_after (killq m) key c c2 now)).
  assert (Hn3 : net_ok m3) by (by destruct Hn1).
  assert (Ek3 : conn_map m3 !! key = Some c2) by apply lookup_insert_eq.
  destruct (update_listener_ok m3 key c2 Hn3 Hr2 Ek3) as (Hn' & Hr' & (Ekq & Eps & Ecid) & Hk).
  eexists. split; [done|]. split; try done. destruct Hk as [[Ec Eq]|[Ec Eq]]; [by left|right].
  split; [by rewrite Ec; cbn; rewrite insert_insert_eq|]. rewrite Eq. cbn. destruct (has_pending_rx c2) eqn:Ep; [done|].
  unfold rxq_after. by rewrite Ep, andb_false_r.
Qed.

(** ** Sweeping *)

Lemma kill_kill c : kill (kill c) = kill c.
Proof.
  destruct c. unfold kill, insert_rx, with_pending_rx, with_state. cbn. f_equal. unfold rx_insert.
  by rewrite <-Z.lor_assoc, Z.lor_diag.
Qed.

(** Some connections whose timer has expired are killed. *)
Definition swept (now : Z) conns conns' : Prop := forall k,
  conns' !! k = conns !! k \/ exists c, conns !! k = Some c /\ has_expired c now = true /\ conns' !! k = Some (kill c).

Lemma swept_refl now conns : swept now conns conns.
Proof. by left. Qed.

Lemma swept_trans now a b d : swept now a b -> swept now b d -> swept now a d.
Proof.
  intros Hab Hbd k. destruct (Hbd k) as [->|(c & Eb & He & Ed)]; [apply Hab|].
  destruct (Hab k) as [Eab|(c0 & Ea & He0 & Eb')]; [right; exists c; by rewrite <-Eab|].
  right. exists c0. split; [done|]. split; [done|]. rewrite Ed. rewrite Eb in Eb'. injection Eb' as ->. by rewrite kill_kill.
Qed.

(** A killed connection stays killed. *)
Lemma swept_killed now conns conns' k c : swept now conns conns' -> conns !! k = Some (kill c) -> conns' !! k = Some (kill c).
Proof.
  intros Hs Ek. destruct (Hs k) as [->|(c1 & E1 & _ & ->)]; [done|]. rewrite Ek in E1. injection E1 as <-. by rewrite kill_kill.
Qed.

Lemma swept_lookup now conns conns' k c' : swept now conns conns' -> conns' !! k = Some c' ->
  exists c, conns !! k = Some c /\ (c' = c \/ c' = kill c).
Proof.
  intros Hs Ek. destruct (Hs k) as [E1|(c & E1 & _ & E2)].
  - exists c'. rewrite E1 in Ek. auto.
  - exists c. split; [done|right]. congruence.
Qed.

Lemma swept_size now conns conns' : swept now conns conns' -> size conns' = size conns.
Proof.
  intros Hs. rewrite <-!size_dom. f_equal. apply set_eq. intros k. rewrite !elem_of_dom.
  destruct (Hs k) as [->|(c & -> & _ & ->)]; [done|]. split; intros _; eauto.
Qed.

Record sweeps m (now : Z) m' : Prop := {
  sw_net : net_ok m';
  sw_rx : rx_ok (conn_map m') (rxq m');
  sw_conns : swept now (conn_map m) (conn_map m');
  sw_ports : local_port_set m' = local_port_set m /\ local_port_last m' = local_port_last m;
  sw_listeners : listener_map m' = listener_map m /\ host_sock m' = host_sock m;
  sw_cid : cid m' = cid m
}.

Lemma kill_expired_ok m key now q : net_ok m -> rx_ok (conn_map m) (rxq m) ->
  let m' := kill_expired (with_killq m q) key now in
  sweeps m now m' /\ killq m' = q /\
  forall c, conn_map m !! key = Some c -> has_expired c now = true -> conn_map m' !! key = Some (kill c).
Proof.
  intros Hn Hr m'. unfold m', kill_expired. clear m'. set (m1 := with_killq m q).
  assert (Hn1 : net_ok m1) by by destruct Hn. change (conn_map m1 !! key) with (conn_map m !! key).
  destruct (conn_map m !! key) as [c|] eqn:Ek; [destruct (has_expired c now) eqn:Ex|].
  - destruct (kill_connection_ok m1 key Hn1 Hr) as (Hn' & Hr' & (Eq & Ep & Ec) & Econ & _).
    assert (Ekk : conn_map (kill_connection m1 key) !! key = Some (kill c)).
    { rewrite Econ, lookup_alter_eq. cbn. by rewrite Ek. }
    split; [|split; [done|by intros c0 [= <-]]]. split; try done.
    + intros k. destruct (decide (k = key)) as [->|Hd]; [right; eauto|left]. by rewrite Econ, lookup_alter_ne.
    + unfold kill_connection. by destruct (match conn_map m1 !! key with Some _ => _ | None => _ end).
    + unfold kill_connection. by destruct (match conn_map m1 !! key with Some _ => _ | None => _ end).
  - split; [|split; [done|congruence]]. split; try done. apply swept_refl.
  - split; [|done]. split; try done. apply swept_refl.
Qed.

Lemma sweeps_refl m now : net_ok m -> rx_ok (conn_map m) (rxq m) -> sweeps m now m.
Proof. intros Hn Hr. split; try done. apply swept_refl. Qed.

Lemma sweeps_trans m1 m2 m3 now : sweeps m1 now m2 -> sweeps m2 now m3 -> sweeps m1 now m3.
Proof.
  intros [_ _ C1 [P1 Q1] [L1 K1] D1] [N2 R2 C2 [P2 Q2] [L2 K2] D2].
  split; [done|done|by eapply swept_trans|split; congruence|split; congruence|congruence].
Qed.

(** What is popped is in the past, and the connections it names are killed if they have
    expired; what is left starts in the future. *)
Record popped m (now : Z) m' (l : list MuxerKillQItem) : Prop := {
  po_queue : kill_q (killq m) = l ++ kill_q (killq m');
  po_sync : kill_synced (killq m') = kill_synced (killq m);
  po_past : Forall (fun it => kill_time it < now) l;
  po_killed : forall it c, it ∈ l -> conn_map m !! kq_key it = Some c -> has_expired c now = true ->
    conn_map m' !! kq_key it = Some (kill c);
  po_left : forall it rest, kill_q (killq m') = it :: rest -> now <= kill_time it
}.

Lemma sweep_pops_ok fuel : forall m now, net_ok m -> rx_ok (conn_map m) (rxq m) -> (length (kill_q (killq m)) <= fuel)%nat ->
  sweeps m now (sweep_pops fuel m now) /\ exists l, popped m now (sweep_pops fuel m now) l.
Proof.
  induction fuel as [|fuel IH]; intros m now Hn Hr Hf; cbn [sweep_pops].
  { split; [by apply sweeps_refl|]. exists []. split; try done; [intros it c Hin; by apply not_elem_of_nil in Hin|].
    intros it rest El. rewrite El in Hf. cbn in Hf. lia. }
  unfold killq_pop. destruct (kill_q (killq m)) as [|it rest] eqn:Eq.
  { split; [by apply sweeps_refl|]. exists []. split; try done; [intros it c Hin; by apply not_elem_of_nil in Hin|].
    congruence. }
  destruct (Z.ltb_spec (kill_time it) now) as [Hlt|Hge].
  2: { split; [by apply sweeps_refl|]. exists []. split; try done; [intros it' c Hin; by apply not_elem_of_nil in Hin|].
       intros it' rest' E'. rewrite Eq in E'. by injection E' as <- _. }
  set (q := mkKillQ rest (kill_synced (killq m))).
  destruct (kill_expired_ok m (kq_key it) now q Hn Hr) as (Hs & Ekq & Hk).
  set (m1 := kill_expired (with_killq m q) (kq_key it) now) in *.
  destruct (IH m1 now) as (Hs1 & l & [Pq Py Pp Pk Pl]); [apply Hs|apply Hs|rewrite Ekq; cbn in *; lia|].
  split; [by eapply sweeps_trans|]. exists (it :: l). split; [|by rewrite Py, Ekq|by constructor| |exact Pl].
  - rewrite Eq. rewrite Ekq in Pq. cbn in Pq. cbn. by rewrite Pq.
  - intros it' c Hin Ek Hx. destruct (decide (kq_key it' = kq_key it)) as [Ekey|Hd].
    + rewrite Ekey in *. eapply swept_killed; [apply Hs1|by apply Hk].
    + apply elem_of_cons in Hin as [->|Hin]; [done|]. destruct (sw_conns _ _ _ Hs (kq_key it')) as [E1|(c1 & E1 & _ & E2)].
      * apply (Pk it' c Hin); [by rewrite E1|done].
      * eapply swept_killed; [apply Hs1|]. rewrite E2. congruence.
Qed.

(** A sweep returns; a queue that is in step is not rebuilt. *)
Lemma sweep_ok m now : net_ok m -> rx_ok (conn_map m) (rxq m) ->
  exists m', sweep_killq o m now = Done m' /\ sweeps m now m' /\
    (kill_synced (killq m) = true -> exists l, popped m now m' l).
Proof.
  intros Hn Hr. unfold sweep_killq. cbn [sweep_loop].
  destruct (sweep_pops_ok _ m now Hn Hr (le_n _)) as [Hs (l & Hp)].
  set (m1 := sweep_pops (length (kill_q (killq m))) m now) in *.
  destruct (killq_is_empty (killq m1) && negb (kill_synced (killq m1))) eqn:Eb.
  2: { exists m1. split; [done|]. split; [done|]. intros _. by exists l. }
  apply andb_true_iff in Eb as [_ Ey%negb_true_iff]. rewrite (po_sync _ _ _ _ Hp) in Ey.
  destruct (killq_from_ok (conn_map m1) now) as (q & -> & Hf & Hne). cbn [lift]. rewrite bind_Done.
  set (m2 := with_killq m1 q). assert (Hs2 : sweeps m1 now m2).
  { split; try done; [by destruct (sw_net _ _ _ Hs)|apply Hs|apply swept_refl]. }
  assert (Ep2 : sweep_pops (length (kill_q (killq m2))) m2 now = m2).
  { change (killq m2) with q. destruct (kill_q q) as [|it rest] eqn:Eq; [done|]. cbn [length sweep_pops].
    unfold killq_pop. change (killq m2) with q. rewrite Eq. apply Forall_cons_1 in Hf as [Hf _].
    by rewrite (proj2 (Z.ltb_ge _ _)) by lia. }
  rewrite Ep2. exists m2. split; [|split; [by eapply sweeps_trans|by rewrite Ey]].
  change (killq m2) with q. unfold killq_is_empty. destruct Hne as [->|Hne]; [by rewrite andb_false_r|].
  destruct (kill_q q); [done|]. done.
Qed.

(** ** Removing and adding *)

Lemma muxer_remove_ok m key c0 : net_ok m -> rx_ok (conn_map m) (rxq m) -> conn_map m !! key = Some c0 ->
  let m' := remove_connection m key in
  net_ok m' /\ rx_ok (conn_map m') (rxq m') /\ conn_map m' = delete key (conn_map m) /\ killq m' = killq m /\ cid m' = cid m.
Proof.
  intros Hn Hr E0 m'. set (listeners := delete (conn_fd c0) (listener_map m)).
  assert (Em : conn_map m' = delete key (conn_map m) /\ listener_map m' = listeners /\ host_sock m' = host_sock m /\
    local_port_set m' = local_port_set m ∖ {[key_local_port key]} /\ local_port_last m' = local_port_last m /\
    rxq m' = rxq m /\ killq m' = killq m /\ cid m' = cid m).
  { unfold m', listeners, remove_connection, remove_listener. rewrite E0. cbn.
    destruct (listener_map m !! conn_fd c0) eqn:El; cbn; [done|]. by rewrite (delete_id (listener_map m)). }
  clearbody m'. destruct Em as (Ec & El & Eh & Ep & Ea & Eq & Ek & Ei).
  assert (Hd : forall k c, conn_map m' !! k = Some c -> conn_map m !! k = Some c /\ k <> key).
  { intros k c. rewrite Ec. intros [Hk ?]%lookup_delete_Some. done. }
  destruct Hn as [Ni Nf Nh Nl Np Nu Na]. split; [|split; [|done]].
  2: { rewrite Eq. apply (rx_conns _ (conn_map m)); [done|]. intros k c _ [Hk _]%Hd Hp. eauto. }
  split; rewrite ?Eh, ?Ea; try done.
  - intros k c [Hk _]%Hd. by apply Ni.
  - intros k1 c1 k2 c2 [Hk1 _]%Hd [Hk2 _]%Hd. by apply Nf.
  - intros k c [Hk _]%Hd. by apply (Nh k).
  - intros fd l Efd. rewrite El in Efd. assert (Efd' : listener_map m !! fd = Some l /\
      forall c, conn_map m !! key = Some c -> conn_fd c <> fd).
    { apply lookup_delete_Some in Efd as [Hne Efd]. split; [done|]. rewrite E0. by intros c [= <-]. }
    destruct Efd' as [Ef Hne]. specialize (Nl fd l Ef). destruct l as [k ev| |st]; cbn in *.
    + destruct Nl as (c & Hk & Hfd). exists c. rewrite Ec, lookup_delete_ne; [done|]. intros <-. by destruct (Hne c).
    + by rewrite Eh.
    + rewrite Eh. destruct Nl as (? & ? & Nc). split; [done|]. split; [done|]. intros k c [Hk _]%Hd. by apply (Nc k).
  - intros k c [Hk Hkey]%Hd Hp. rewrite Ep. apply elem_of_difference. split; [by apply (Np k c)|].
    rewrite elem_of_singleton. intros Heq. apply Hkey. by apply (Nu k c key c0).
  - intros k1 c1 k2 c2 [Hk1 _]%Hd [Hk2 _]%Hd. by apply (Nu k1 c1 k2 c2).
Qed.

(** A new connection: its key and socket are not in use, and a port of the host's range
    is one that was allocated. *)
Record fresh_conn m key c : Prop := {
  fc_key : conn_map m !! key = None;
  fc_ids : local_port c = key_local_port key /\ peer_port c = key_peer_port key;
  fc_fd : forall k c', conn_map m !! k = Some c' -> conn_fd c' <> conn_fd c;
  fc_host : conn_fd c <> host_sock m;
  fc_listen : listener_map m !! conn_fd c = None;
  fc_port : 2 ^ 30 <= key_local_port key -> key_local_port key ∈ local_port_set m /\
    forall k c', conn_map m !! k = Some c' -> key_local_port k <> key_local_port key
}.

Lemma insert_conn_ok m key c ev ep q : net_ok m -> fresh_conn m key c ->
  net_ok (with_conns (with_rxq (with_listeners m (<[conn_fd c := Connection key ev]> (listener_map m)) ep) q)
            (<[key := c]> (conn_map m))).
Proof.
  intros [Ni Nf Nh Nl Np Nu Na] [Fk Fi Ff Fh Fl Fp].
  assert (Hl : forall k c', <[key := c]> (conn_map m) !! k = Some c' -> k = key /\ c' = c \/ k <> key /\ conn_map m !! k = Some c').
  { intros k c'. destruct (decide (k = key)) as [->|Hd]; [rewrite lookup_insert_eq|rewrite lookup_insert_ne by done]; naive_solver. }
  split; cbn; [| | | | | |done].
  - intros k c' [[-> ->]|[_ Hk]]%Hl; [done|by apply Ni].
  - intros k1 c1 k2 c2 [[-> ->]|[_ Hk1]]%Hl [[-> ->]|[_ Hk2]]%Hl Hfd; [done| | |by apply (Nf k1 c1 k2 c2)].
    + by destruct (Ff k2 c2 Hk2).
    + by destruct (Ff k1 c1 Hk1).
  - intros k c' [[-> ->]|[_ Hk]]%Hl; [done|by apply (Nh k)].
  - intros fd l. destruct (decide (fd = conn_fd c)) as [->|Hd]; [rewrite lookup_insert_eq|rewrite lookup_insert_ne by done].
    + intros [= <-]. exists c. split; [apply lookup_insert_eq|done].
    + intros Efd. specialize (Nl fd l Efd). destruct l as [k ev'| |st]; cbn in *; [|done|].
      * destruct Nl as (c' & Hk & Hfd). exists c'. rewrite lookup_insert_ne; [done|]. intros <-. congruence.
      * destruct Nl as (? & ? & Nc). split; [done|]. split; [done|].
        intros k c' [[-> ->]|[_ Hk]]%Hl; [done|by apply (Nc k)].
  - intros k c' [[-> ->]|[_ Hk]]%Hl Hp; [by apply Fp|by apply (Np k c')].
  - intros k1 c1 k2 c2 [[-> ->]|[_ Hk1]]%Hl [[-> ->]|[_ Hk2]]%Hl Hp Hpe; [done| | |by apply (Nu k1 c1 k2 c2)].
    + by destruct (proj2 (Fp Hp) k2 c2 Hk2).
    + destruct (proj2 (Fp ltac:(lia)) k1 c1 Hk1). done.
Qed.

Lemma muxer_add_ok m key c now : net_ok m -> rx_ok (conn_map m) (rxq m) -> fresh_conn m key c ->
  Z.of_nat (size (conn_map m)) <= MAX_CONNECTIONS ->
  exists r m1 m', sweep_killq o m now = Done m1 /\ sweeps m now m1 /\ add_connection o m key c now = Done (r, m') /\
    net_ok m' /\ rx_ok (conn_map m') (rxq m') /\ Z.of_nat (size (conn_map m')) <= MAX_CONNECTIONS /\
    killq m' = killq m1 /\ cid m' = cid m /\
    conn_map m' = match r with Ok _ => <[key := c]> (conn_map m1) | Err _ => conn_map m1 end.
Proof.
  intros Hn Hr Hf Hsz. destruct (sweep_ok m now Hn Hr) as (m1 & Esw & Hs & _). unfold add_connection.
  rewrite Esw, bind_Done. pose proof (swept_size _ _ _ (sw_conns _ _ _ Hs)) as Esz.
  destruct Hs as [Hn1 Hr1 Hc1 [Hp1 Hla1] [Hl1 Hh1] Hci1].
  assert (Hs : sweeps m now m1) by by split.
  destruct (Z.leb_spec MAX_CONNECTIONS (Z.of_nat (size (conn_map m1)))) as [Hfull|Hroom].
  { exists (Err TooManyConnections), m1, m1. rewrite Esz. repeat (split; [done|]). done. }
  unfold add_listener. destruct (ctl_add (epoll m1) (conn_fd c) _) as [[[]|e] ep].
  2: { eexists _, m1, _. split; [done|]. split; [done|]. split; [done|]. split; [by apply listener_kept|].
       split; [done|]. cbn [conn_map with_listeners]. rewrite Esz. done. }
  assert (Hf1 : fresh_conn m1 key c).
  { destruct Hf as [Fk Fi Ff Fh Fl Fp]. split; rewrite ?Hh1, ?Hl1, ?Hp1; try done.
    - destruct (Hc1 key) as [->|(c1 & E1 & _)]; [done|congruence].
    - intros k c' (c0 & E0 & [->| ->])%(swept_lookup _ _ _ _ _ Hc1); by apply (Ff k) in E0.
    - intros Hp. split; [by apply Fp|]. intros k c' (c0 & E0 & _)%(swept_lookup _ _ _ _ _ Hc1). by apply (proj2 (Fp Hp) k c0). }
  set (q := if has_pending_rx c then (rxq_push (rxq m1) (ConnRx key)).2 else rxq m1).
  set (m2 := with_listeners m1 _ ep).
  assert (Em : (if has_pending_rx c then with_rxq m2 (rxq_push (rxq m2) (ConnRx key)).2 else m2) = with_rxq m2 q).
  { unfold q. by destruct (has_pending_rx c). }
  cbv zeta. rewrite Em. eexists _, m1, _. split; [done|]. split; [done|]. split; [done|].
  split; [by apply (insert_conn_ok m1 key c _ ep q)|]. split; [|split; [|done]]; cbn [conn_map with_conns rxq with_rxq].
  - assert (Ho : rx_inv (.≠ key) (<[key := c]> (conn_map m1)) (rxq m1)).
    { apply (rx_conns _ (conn_map m1)); [by apply (rx_weaken _ _ _ _ (fun k _ => I) Hr1)|]. intros k c' Hd Ek Hp.
      rewrite lookup_insert_ne in Ek by done. eauto. }
    unfold q. destruct (has_pending_rx c) eqn:Ep; [by apply push_conn|].
    apply (rx_conns _ (conn_map m1)); [done|]. intros k c' _ Ek Hp. destruct (decide (k = key)) as [->|Hd].
    + rewrite lookup_insert_eq in Ek. injection Ek as <-. congruence.
    + rewrite lookup_insert_ne in Ek by done. eauto.
  - change (conn_map m2) with (conn_map m1). rewrite map_size_insert_None by apply Hf1. lia.
Qed.
End Invariant.
