(* ===== verification/VsockMuxerRuns.v ===== *)
(** * Runs of the multiplexer

    Theorems about every state the multiplexer of [VsockMuxer] can reach, whatever the
    guest sends and however the host's calls fail, as long as new sockets have new
    descriptors and nobody on the host listens for the ports that are handed out:

    - no call panics, loops end, and the data of each connection reaches its own socket in
      order ([muxer_streams]);
    - what is to be delivered is never forgotten ([rx_never_lost]);
    - an event reaches the connection that owns the socket, and no two connections share
      a socket or an allocated port ([muxer_owns]);
    - a connection that should be terminated is, while the queue of terminations was
      always in step ([expired_killed]), and need not be otherwise ([killq_misses_expired]);
    - a port that the host asks for as the documentation says is understood
      ([connect_request]). *)

From Stdlib Require Import ZArith Lia Ascii String Sorting.
From stdpp Require Import functions prelude gmap sorting.
From S2P Require Import Prelude Text GuestMemory VirtioQueue TxBuf VsockPacket VsockConnection VsockMuxer VsockTimers VsockMuxerInv.

(** What the host is told about a connection it asked for. *)
Definition greeting (key : ConnMapKey) : list Z := text "OK " ++ decimal (key_local_port key) ++ [10].

Section Live.
Context {S : Type} `{Stream S} {E : Type} `{Epoll E} {M : Type} `{GuestRegions M} `{Profile}.
Abbreviation Conn := (VsockConnection (UnixStream S)).
Abbreviation Muxer := (@VsockMuxer S E).
Implicit Types (m : Muxer) (c : Conn).

(** ** One connection *)

(** [g] was written to the socket before the data of the guest. *)
Record greeted key c (g sent : list Z) : Prop := {
  gr_prefix : g `prefix_of` greeting key;
  gr_init : state c = LocalInit -> g = [] /\ sent = [] /\ contents (tx_buf c) = [] /\ 2 ^ 30 <= key_local_port key;
  gr_guest : key_local_port key < 2 ^ 30 -> g = [];
  gr_host : 2 ^ 30 <= key_local_port key -> state c <> LocalInit -> state c <> Killed -> g = greeting key
}.

(** [h]: what was on each socket at first, and what the guest sent on the connection. *)
Abbreviation History := (gmap ConnMapKey (list Z * list Z)).

Definition conn_live (h : History) key c : Prop :=
  exists base sent g, h !! key = Some (base, sent) /\ conn_inv (base ++ g) sent c /\ resp_ok c /\ greeted key c g sent.

Lemma live_killed h key c : conn_live h key c -> conn_live h key (kill c).
Proof.
  intros (base & sent & g & Eh & Hi & Hr & Hg). exists base, sent, g. split; [done|]. split; [by apply conn_inv_kill|].
  split; [by left|]. destruct Hg. by split.
Qed.

Lemma live_pending h key c : conn_live h key c -> pending_ok (pending_rx c).
Proof. intros (base & sent & g & _ & Hi & _). apply Hi. Qed.

Lemma live_rst h key c : conn_live h key c -> state c = Killed -> rx_contains (pending_rx c) Rst = true.
Proof. intros (base & sent & g & _ & Hi & _). apply Hi. Qed.

(** A connection that is not established meanwhile. *)
Lemma live_step h key c c' base sent g l : h !! key = Some (base, sent) -> conn_inv (base ++ g) sent c ->
  greeted key c g sent -> conn_inv (base ++ g) (sent ++ l) c' -> resp_ok c' ->
  (state c' = LocalInit -> state c = LocalInit /\ l = [] /\ contents (tx_buf c') = []) ->
  (state c = LocalInit -> state c' = LocalInit \/ state c' = Killed) ->
  (state c = Killed -> state c' = Killed) ->
  conn_live (<[key := (base, sent ++ l)]> h) key c'.
Proof.
  intros Eh Hi [Gp Gi Gg Gh] Hi' Hr' Hli Hil Hk. exists base, (sent ++ l), g. split; [apply lookup_insert_eq|].
  split; [done|]. split; [done|]. split; [done| |done|].
  - intros Hs. destruct (Hli Hs) as (Hs0 & -> & Hc). destruct (Gi Hs0) as (-> & -> & _ & Hport). done.
  - intros Hp Hn1 Hn2. apply Gh; [done| |naive_solver]. intros Hs. destruct (Hil Hs); done.
Qed.

(** Becoming established, the host is greeted. *)
Lemma live_greeted h key c base sent g st : h !! key = Some (base, sent) -> conn_inv (base ++ g) sent c -> resp_ok c ->
  st = LocalInit -> state c = Established -> g = [] -> sent = [] -> contents (tx_buf c) = [] ->
  2 ^ 30 <= key_local_port key -> conn_live h key (ack_host key st c).
Proof.
  intros Eh [Hb (lost & El & Hl) Hf Hk Hp] Hr -> Hs -> -> Ec Hport. unfold ack_host.
  rewrite !bool_decide_true by done. cbn [andb]. fold (greeting key). unfold send_bytes_raw.
  rewrite Ec, (Hl ltac:(congruence)), !app_nil_r in El.
  destruct (write (stream c) (greeting key)) as [s r] eqn:Ew.
  assert (Hin : forall g' c', tx_buf c' = tx_buf c -> c_fwd_cnt c' = c_fwd_cnt c -> accepted (stream c') = base ++ g' ->
    pending_ok (pending_rx c') -> (state c' = Killed -> rx_contains (pending_rx c') Rst = true) ->
    conn_inv (base ++ g') [] c').
  { intros g' c' Etx Efw Eacc Hp' Hk'. split; rewrite ?Etx; try done.
    - exists []. by rewrite Ec, Eacc, !app_nil_r.
    - rewrite Efw, Hf. unfold forwarded. rewrite Eacc, <-El. rewrite !app_nil_r. f_equal. lia. }
  assert (Hlive : forall g' c', g' `prefix_of` greeting key -> conn_inv (base ++ g') [] c' -> resp_ok c' ->
    state c' <> LocalInit -> (state c' = Killed \/ g' = greeting key) -> conn_live h key c').
  { intros g' c' Hpre Hi Hr' Hns Hg. exists base, [], g'. split; [done|]. split; [done|]. split; [done|].
    split; [done|done|lia|]. intros _ _ Hn. by destruct Hg. }
  assert (Hrk : forall c', resp_ok (kill c')) by (intros c' _; by left).
  destruct r as [n|e]; [apply write_ok in Ew as [Hn Ha]|apply write_err in Ew].
  - rewrite <-El in Ha. destruct (Z.eqb_spec n (Z.of_nat (length (greeting key)))) as [->|Hne].
    + rewrite Nat2Z.id, take_ge in Ha by lia. apply (Hlive (greeting key)); [done|by apply Hin|exact Hr| |by right].
      cbn. congruence.
    + apply (Hlive (take (Z.to_nat n) (greeting key))); [apply prefix_take| |done|done|by left].
      apply Hin; [done|done|exact Ha|by apply pending_ok_insert|]. intros _. apply kill_rst.
  - rewrite <-El in Ew. apply (Hlive []); [apply prefix_nil| |done|done|by left].
    apply Hin; [done|done|by rewrite app_nil_r|by apply pending_ok_insert|]. intros _. apply kill_rst.
Qed.

Lemma ack_none key st c : st <> LocalInit \/ state c <> Established -> ack_host key st c = c.
Proof.
  intros Hn. unfold ack_host. destruct Hn; [rewrite bool_decide_false by done; done|].
  by rewrite (bool_decide_false (state c = Established)), andb_false_r.
Qed.

(** The data of a packet joins what the guest has sent. *)
Definition history_send (h : History) key c (p : VsockPacket) (l : list Z) : History :=
  match h !! key with
  | Some (base, sent) => <[key := (base, sent ++ if takes_data c p then l else [])]> h
  | None => h
  end.

Lemma send_init c p (mem : M) now c' : state c = LocalInit -> send_pkt c p mem now = Ret c' ->
  state c' = LocalInit \/ state c' = Established.
Proof.
  intros Hs. unfold send_pkt. change (state (with_peer_credit c _ _)) with (state c). rewrite Hs.
  destruct (op p =? VSOCK_OP_RW), (op p =? VSOCK_OP_RESPONSE); intros [= <-]; cbn; rewrite ?Hs; auto.
Qed.

Lemma live_send h key c p (mem : M) now l : conn_live h key c -> guest_packet mem p l ->
  exists c1, send_pkt c p mem now = Ret c1 /\ base_op c c1 /\ (answers c p -> good_op now c c1) /\
    conn_live (history_send h key c p l) key (ack_host key (state c) c1).
Proof.
  intros (base & sent & g & Eh & Hi & Hr & Hg) Hp. unfold history_send. rewrite Eh.
  destruct (send_pkt_inv (base ++ g) sent c p mem now l Hi Hp) as (c1 & E1 & Hi1). exists c1.
  destruct (send_pkt_op now c p mem c1 E1) as [(Hid & Hr1 & Hk1 & Hl1) Ht]. split; [done|]. split; [done|]. split; [done|].
  destruct (decide (state c = LocalInit)) as [Hs|Hs].
  - assert (Et : takes_data c p = false) by (unfold takes_data; by rewrite Hs). rewrite Et, app_nil_r in *.
    destruct (send_pkt_control c p mem now Et) as (c1' & E1' & Hc). rewrite E1 in E1'. injection E1' as <-.
    destruct Hc as (Est & Etx & _). destruct (gr_init _ _ _ _ Hg Hs) as (-> & -> & Hcon & Hport).
    destruct (send_init c p mem now c1 Hs E1) as [Hs1|Hs1].
    + rewrite ack_none by (right; congruence).
      apply (live_step h key c c1 base [] [] []); auto. intros _. by rewrite Etx.
    + rewrite Hs. apply (live_greeted _ key c1 base [] []); auto; [apply lookup_insert_eq|by rewrite Etx].
  - rewrite ack_none by by left. apply (live_step h key c c1 base sent g); auto; [|done]. intros Hs1. by destruct Hs; auto.
Qed.

Lemma live_notify h key c i o now : conn_live h key c ->
  exists c1, notify c i o = Ret c1 /\ good_op now c c1 /\ conn_live h key (ack_host key (state c) c1).
Proof.
  intros (base & sent & g & Eh & Hi & Hr & Hg).
  destruct (notify_inv (base ++ g) sent c i o Hi) as (c1 & E1 & Hi1). exists c1.
  pose proof (notify_op now c i o c1 E1) as Ho. split; [done|]. split; [done|].
  destruct Ho as [(Hid & Hr1 & Hk1 & Hl1) _].
  assert (Eh' : <[key := (base, sent ++ [])]> h = h) by (rewrite app_nil_r; by apply insert_id).
  rewrite <-Eh'. assert (Hn : state c = LocalInit -> (state c1 = LocalInit \/ state c1 = Killed) /\ contents (tx_buf c1) = []).
  { intros Hs. destruct (gr_init _ _ _ _ Hg Hs) as (_ & _ & Hcon & _). unfold notify in E1.
    set (c0 := if i then insert_rx c Rw else c) in *. assert (Hc0 : state c0 = state c /\ tx_buf c0 = tx_buf c) by by destruct i.
    destruct Hc0 as [Es0 Et0]. destruct o; [|injection E1 as <-; rewrite Es0, Et0; auto].
    unfold notify_out in E1. rewrite Et0 in E1. assert (He : TxBuf_is_empty (tx_buf c) = true).
    { apply Z.eqb_eq. rewrite <-length_contents by apply Hi. by rewrite Hcon. }
    rewrite He in E1. injection E1 as <-. rewrite Es0, Et0; auto. }
  rewrite ack_none.
  - apply (live_step h key c c1 base sent g []); auto; [by rewrite app_nil_r| |].
    + intros Hs1. specialize (Hl1 Hs1). split; [done|]. split; [done|]. by apply Hn.
    + intros Hs. by apply Hn.
  - destruct (decide (state c = LocalInit)) as [Hs|]; [right|by left]. destruct (proj1 (Hn Hs)); congruence.
Qed.

Lemma live_recv h key c p (mem : M) now r c1 p' mem' : conn_live h key c -> recv_pkt c p mem now = (r, c1, p', mem') ->
  good_op now c c1 /\ from_conn c p' /\ ack_host key (state c) c1 = c1 /\ shrinks (pending_rx c) (pending_rx c1) /\
  (rx_contains (pending_rx c) Rst = true -> r = Ok tt) /\
  (~ (r = Ok tt /\ op p' = VSOCK_OP_RST) -> conn_live h key c1).
Proof.
  intros (base & sent & g & Eh & Hi & Hr & Hg) E1.
  destruct (recv_pkt_op now c p mem r c1 p' mem' E1 (ci_killed _ _ _ Hi)) as [Ho Hf].
  destruct (recv_pkt_effect c p mem now r c1 p' mem' (ci_pending _ _ _ Hi) E1) as [(Etx & _ & _ & Hsh & _) Hrst].
  assert (Hn : state c = LocalInit -> state c1 = LocalInit) by (intros Hs; by apply (recv_not_established now c p mem r c1 p' mem')).
  split; [done|]. split; [done|]. split.
  { apply ack_none. destruct (decide (state c = LocalInit)) as [Hs|]; [right|by left]. rewrite (Hn Hs). done. }
  split; [done|]. split; [intros Hx; by apply Hrst|]. intros Hnr.
  destruct (recv_pkt_inv (base ++ g) sent c p mem now r c1 p' mem' Hi E1 Hnr) as [Hi1 _].
  destruct Ho as [(Hid & Hr1 & Hk1 & Hl1) _].
  assert (Eh' : <[key := (base, sent ++ [])]> h = h) by (rewrite app_nil_r; by apply insert_id).
  rewrite <-Eh'. apply (live_step h key c c1 base sent g []); auto; [by rewrite app_nil_r|].
  intros Hs1. specialize (Hl1 Hs1). split; [done|]. split; [done|]. rewrite Etx. by apply Hg.
Qed.

(** ** The invariant *)

(** Every connection that is to be terminated is in the queue. *)
Definition kill_good (T : Z) m : Prop :=
  kill_ok T (killq m) /\ forall k c, conn_map m !! k = Some c ->
    timer_ok c /\ forall t, expiry c = Some t -> state c <> Killed -> mkKillItem k t ∈ kill_q (killq m).

(** [P]: the connections the data of which is accounted for; [b]: the queue of
    terminations was always in step. *)
Record mux_inv_on (P : ConnMapKey -> Prop) (b : bool) (h : History) (T : Z) m : Prop := {
  mv_net : net_ok m;
  mv_rx : rx_inv (fun _ => True) (conn_map m) (rxq m);
  mv_size : Z.of_nat (size (conn_map m)) <= MAX_CONNECTIONS;
  mv_conns : forall k c, P k -> conn_map m !! k = Some c -> conn_live h k c;
  mv_kill : b = true -> kill_synced (killq m) = true -> kill_good T m
}.
Abbreviation mux_inv := (mux_inv_on (fun _ => True)).

Lemma kill_good_later T T' m : T <= T' -> kill_good T m -> kill_good T' m.
Proof. intros HT [Hk Hc]. split; [by apply (kill_later T)|done]. Qed.

Lemma mux_later P b h T T' m : T <= T' -> mux_inv_on P b h T m -> mux_inv_on P b h T' m.
Proof. intros HT [Hn Hr Hs Hc Hk]. split; try done. intros Hb Hy. by apply (kill_good_later T), Hk. Qed.

Lemma killq_after_good T now m key c c2 m' : T <= now -> kill_good T m -> conn_map m !! key = Some c ->
  good_op now c c2 -> mutated m key c c2 now m' -> kill_synced (killq m') = true -> kill_good now m'.
Proof.
  intros HT [Hk Hc] Ek Ho Hmu Hy. destruct (Hc key c Ek) as [Htc Hcq]. destruct Ho as [(Hid & _ & Hkl & _) Ht].
  destruct (Ht Htc) as [Hts Ht2]. pose proof (mu_killq _ _ _ _ _ _ Hmu) as Eq. rewrite Eq in Hy.
  assert (Hnew : kill_ok now (killq m') /\ (forall it, it ∈ kill_q (killq m) -> it ∈ kill_q (killq m')) /\
    forall t, expiry c2 = Some t -> state c2 <> Killed -> mkKillItem key t ∈ kill_q (killq m')).
  { rewrite Eq. unfold killq_after in *. destruct (negb (will_expire c now) && will_expire c2 now) eqn:Eb.
    - apply andb_true_iff in Eb as [Ew Ew2]. unfold will_expire in Ew, Ew2.
      destruct (expiry c2) as [t2|] eqn:Ex2; [|done]. cbn [default] in *.
      rewrite (killq_push_synced _ _ _ Hy). split; [|split].
      + destruct Hts as [Hx|[Hx|[Hx1 Hx2]]]; [|congruence|].
        * rewrite Ex2 in Hx. rewrite <-Hx in Ew. lia.
        * rewrite Ex2 in Hx2. injection Hx2 as ->. by apply (killq_push_ok T).
      + intros it Hin. apply elem_of_app. by left.
      + intros t [= <-] _. apply elem_of_app. right. by left.
    - split; [by apply (kill_later T)|]. split; [done|]. intros t Ex Hns. apply Hcq; [|naive_solver].
      destruct Hts as [Hx|[Hx|[Hx1 Hx2]]]; [congruence|congruence|]. exfalso. rewrite Ex in Hx2. injection Hx2 as ->.
      unfold will_expire in Eb. rewrite Hx1, Ex in Eb. unfold TIMEOUT in Eb. cbn in Eb. lia. }
  destruct Hnew as (Hk' & Hin & Hin2). split; [done|]. intros k c'.
  destruct (mu_conns _ _ _ _ _ _ Hmu) as [[-> _]|[-> _]]; (destruct (decide (k = key)) as [->|Hd];
    [rewrite lookup_insert_eq; intros [= <-]|rewrite lookup_insert_ne by done; intros Ek'; destruct (Hc k c' Ek'); auto]).
  - done.
  - split; [|done]. split; [by left|by left|done].
Qed.

Lemma mutated_inv (P : ConnMapKey -> Prop) b h h' T now m key c c2 m' : mux_inv b h T m -> T <= now -> conn_map m !! key = Some c ->
  mutated m key c c2 now m' -> (forall k c, k <> key -> conn_live h k c -> conn_live h' k c) ->
  (P key -> conn_live h' key c2) -> (b = true -> good_op now c c2) -> mux_inv_on P b h' now m'.
Proof.
  intros [Hn Hr Hs Hc Hk] HT Ek Hmu Hh Hl Hg. pose proof Hmu as [Hn' Hr' _ _ Eq Hcon]. split; [done|done| | |].
  - destruct Hcon as [[-> _]|[-> _]]; rewrite map_size_insert_Some; eauto.
  - intros k c' HP. destruct Hcon as [[-> _]|[-> _]]; (destruct (decide (k = key)) as [->|Hd];
      [rewrite lookup_insert_eq; intros [= <-]|rewrite lookup_insert_ne by done; intros Ek'; by apply Hh, Hc]).
    + by apply Hl.
    + by apply live_killed, Hl.
  - intros Hb Hy. apply (killq_after_good T now m key c c2); auto. apply Hk; [done|].
    rewrite Eq in Hy. unfold killq_after, killq_push in Hy. destruct (_ && _); [|done].
    destruct (kill_synced (killq m)); [done|]. cbn in Hy. done.
Qed.

(** ** Delivering a packet *)

(** How often the loop of [recv_pkt] may look at an item of the queue: twice, if the
    connection has yet to be killed. *)
Definition item_weight (conns : gmap ConnMapKey Conn) (rx : MuxerRx) : nat :=
  match rx with
  | RstPkt _ _ => 1
  | ConnRx k => match conns !! k with Some c => if rx_contains (pending_rx c) Rst then 1 else 2 | None => 2 end
  end.
Definition weight (conns : gmap ConnMapKey Conn) (l : list MuxerRx) : nat := sum_list_with (item_weight conns) l.

Lemma weight_bound conns l : (weight conns l <= 2 * length l)%nat.
Proof.
  unfold weight. induction l as [|rx l IH]; cbn; [lia|]. assert (item_weight conns rx <= 2)%nat; [|lia].
  destruct rx; cbn; repeat case_match; lia.
Qed.

Lemma weight_le conns conns' l : (forall k, conns' !! k = conns !! k \/ item_weight conns (ConnRx k) = 2%nat) ->
  (weight conns' l <= weight conns l)%nat.
Proof.
  intros Hk. unfold weight. induction l as [|rx l IH]; cbn; [lia|].
  assert (item_weight conns' rx <= item_weight conns rx)%nat; [|lia]. destruct rx as [k|a b]; [|done].
  destruct (Hk k) as [E1| ->]; [cbn; by rewrite E1|]. cbn. repeat case_match; lia.
Qed.

(** The front of the queue, [key], has nothing more to deliver. *)
Lemma pop_inv P b h T m key rest : mux_inv_on P b h T m -> rx_q (rxq m) = ConnRx key :: rest ->
  (forall c, conn_map m !! key = Some c -> has_pending_rx c = true -> rx_synced (rxq m) = true -> ConnRx key ∈ rest) ->
  pop_unwrap m = Ret (with_rxq m (mkRxQ rest (rx_synced (rxq m)))) /\
  mux_inv_on P b h T (with_rxq m (mkRxQ rest (rx_synced (rxq m)))).
Proof.
  intros [Hn [Hl Hy] Hs Hc Hk] Eq Hkey. unfold pop_unwrap, rxq_pop. rewrite Eq. split; [done|]. split; try done.
  - by destruct Hn.
  - split.
    + unfold rxq_len in *. rewrite Eq in Hl. cbn in *. lia.
    + cbn. intros Ey k c _ Ek Hp. destruct (decide (k = key)) as [->|Hd]; [by apply (Hkey c)|].
      specialize (Hy Ey k c I Ek Hp). rewrite Eq in Hy. apply elem_of_cons in Hy as [Hy|]; [congruence|done].
Qed.

Lemma mutated_front m key c c2 now m1 rest : mutated m key c c2 now m1 -> has_pending_rx c2 = false ->
  rx_q (rxq m) = ConnRx key :: rest ->
  exists rest', rx_q (rxq m1) = ConnRx key :: rest' /\
    (forall c, conn_map m1 !! key = Some c -> has_pending_rx c = true -> rx_synced (rxq m1) = true -> ConnRx key ∈ rest') /\
    (rest' = rest \/ rest' = rest ++ [ConnRx key] /\ conn_map m1 !! key = Some (kill c2)) /\
    (forall k, k <> key -> conn_map m1 !! k = conn_map m !! k).
Proof.
  intros Hmu Hp Eq. assert (Ea : rxq_after (rxq m) key c c2 = rxq m) by (unfold rxq_after; by rewrite Hp, andb_false_r).
  destruct (mu_conns _ _ _ _ _ _ Hmu) as [[Ec Er]|[Ec Er]]; rewrite ?Hp, ?Ea in Er.
  - exists rest. rewrite Er, Eq, Ec. split; [done|]. split; [|split; [by left|]].
    + rewrite lookup_insert_eq. intros c0 [= <-]. congruence.
    + intros k Hk. by rewrite lookup_insert_ne.
  - assert (Hother : forall k, k <> key -> conn_map m1 !! k = conn_map m !! k).
    { intros k Hk. by rewrite Ec, lookup_insert_ne. }
    unfold rxq_push in Er. destruct (_ && _).
    + exists (rest ++ [ConnRx key]). rewrite Er. cbn [rx_q snd]. rewrite Eq. split; [done|]. split; [|split; [|done]].
      * intros _ _ _ _. apply elem_of_app. right. by left.
      * right. by rewrite Ec, lookup_insert_eq.
    + exists rest. rewrite Er. cbn [rx_q snd rx_synced]. rewrite Eq. split; [done|]. split; [done|]. split; [by left|done].
Qed.

Lemma recv_from_ok c p (mem : M) now :
  exists r c1 p' mem', recv_pkt c p mem now = (r, c1, p', mem') /\
    recv_from p mem now c = Ret ((r, negb (has_pending_rx c1), p', mem'), c1).
Proof.
  unfold recv_from. destruct (recv_pkt c p mem now) as [[[r c1] p'] mem']. eauto 8.
Qed.

(** What a delivered packet is: the RST of an item of the queue, or the packet of a
    connection, which is gone if it is a RST. *)
Definition packet_out m m' (p' : VsockPacket) : Prop :=
  (exists a b, RstPkt a b ∈ rx_q (rxq m) /\ op p' = VSOCK_OP_RST /\ src_port p' = a /\ dst_port p' = b) \/
  (is_Some (conn_map m !! mkKey (src_port p') (dst_port p')) /\
   (op p' = VSOCK_OP_RST -> conn_map m' !! mkKey (src_port p') (dst_port p') = None)).

Lemma remove_inv (P : ConnMapKey -> Prop) b h T m key c : mux_inv_on P b h T m -> (forall k, k <> key -> P k) ->
  conn_map m !! key = Some c ->
  mux_inv b h T (remove_connection m key) /\ conn_map (remove_connection m key) = delete key (conn_map m).
Proof.
  intros [Hn Hr Hs Hc Hk] HP Ek. destruct (muxer_remove_ok m key c Hn Hr Ek) as (Hn' & Hr' & Ec & Eq & _).
  split; [|done]. split; [done|done| | |].
  - rewrite Ec, map_size_delete_Some by eauto. lia.
  - rewrite Ec. intros k c' _ [Hne Ek']%lookup_delete_Some. apply Hc; [by apply HP|done].
  - rewrite Eq. intros Hb Hy. destruct (Hk Hb Hy) as [Hko Hkc]. split; rewrite Eq; [done|]. rewrite Ec.
    intros k c' [_ Ek']%lookup_delete_Some. by apply Hkc.
Qed.

Lemma delivered_inv b h now m key c c1 p p' (mem mem' : M) m1 rest : mux_inv b h now m -> conn_map m !! key = Some c ->
  rx_q (rxq m) = ConnRx key :: rest -> recv_pkt c p mem now = (Ok tt, c1, p', mem') -> mutated m key c c1 now m1 ->
  exists m2, (if negb (has_pending_rx c1) then pop_unwrap m1 else Ret m1) = Ret m2 /\
    let m3 := if op p' =? VSOCK_OP_RST then remove_connection m2 (mkKey (src_port p') (dst_port p')) else m2 in
    mux_inv b h now m3 /\ packet_out m m3 p'.
Proof.
  intros Hi Ek Eq Er Hmu. pose proof (mv_conns _ _ _ _ _ Hi key c I Ek) as Hlive.
  destruct (live_recv h key c p mem now _ c1 p' mem' Hlive Er) as (Hg & [Hsp Hdp] & _ & _ & _ & Hl1).
  set (P := fun k => k <> key \/ op p' <> VSOCK_OP_RST).
  assert (Hi1 : mux_inv_on P b h now m1).
  { apply (mutated_inv P b h h now now m key c c1); auto; [lia|]. intros [|Hn]; [done|]. apply Hl1. naive_solver. }
  assert (Hpop : exists m2, (if negb (has_pending_rx c1) then pop_unwrap m1 else Ret m1) = Ret m2 /\
    mux_inv_on P b h now m2 /\ conn_map m2 = conn_map m1).
  { destruct (has_pending_rx c1) eqn:Ep; cbn [negb]; [by exists m1|].
    destruct (mutated_front m key c c1 now m1 rest Hmu Ep Eq) as (rest' & Eq1 & Hk & _).
    destruct (pop_inv P b h now m1 key rest' Hi1 Eq1 Hk) as [E2 Hi2]. eauto. }
  destruct Hpop as (m2 & E2 & Hi2 & Ec2). exists m2. split; [done|]. cbv zeta.
  destruct (net_ids _ (mv_net _ _ _ _ _ Hi) key c Ek) as [Hlp Hpp].
  assert (Ekey : mkKey (src_port p') (dst_port p') = key) by (destruct key; cbn in *; congruence). rewrite Ekey.
  destruct (Z.eqb_spec (op p') VSOCK_OP_RST) as [Hop|Hop].
  - assert (Ek2 : exists c2, conn_map m2 !! key = Some c2).
    { rewrite Ec2. destruct (mu_conns _ _ _ _ _ _ Hmu) as [[-> _]|[-> _]]; rewrite lookup_insert_eq; eauto. }
    destruct Ek2 as [c2 Ek2]. destruct (remove_inv P b h now m2 key c2 Hi2) as [Hi3 Ec3]; [by left|done|].
    split; [done|]. right. rewrite Ekey. split; [by exists c|]. intros _. rewrite Ec3. apply lookup_delete_eq.
  - split; [|right; rewrite Ekey; split; [by exists c|done]]. destruct Hi2 as [Hn Hr Hs Hc Hk]. split; try done.
    intros k c' _. apply Hc. by right.
Qed.

Lemma packet_out_earlier m m1 m' p' : packet_out m1 m' p' ->
  (forall a b, RstPkt a b ∈ rx_q (rxq m1) -> RstPkt a b ∈ rx_q (rxq m)) ->
  (forall k, is_Some (conn_map m1 !! k) -> is_Some (conn_map m !! k)) -> packet_out m m' p'.
Proof. intros [(a & b & Hin & Hp)|[Hk Hr]] Hq Hc; [left; eauto 8|right; auto]. Qed.

(** A connection with nothing to deliver after all: the loop goes on with less to do. *)
Lemma skip_inv b h now m key c e c1 p p' (mem mem' : M) m1 rest : mux_inv b h now m -> conn_map m !! key = Some c ->
  rx_q (rxq m) = ConnRx key :: rest -> recv_pkt c p mem now = (Err e, c1, p', mem') -> mutated m key c c1 now m1 ->
  has_pending_rx c1 = false /\
  exists m2, pop_unwrap m1 = Ret m2 /\ mux_inv b h now m2 /\
    (weight (conn_map m2) (rx_q (rxq m2)) < weight (conn_map m) (rx_q (rxq m)))%nat /\
    (forall a b, RstPkt a b ∈ rx_q (rxq m2) -> RstPkt a b ∈ rx_q (rxq m)) /\
    (forall k, is_Some (conn_map m2 !! k) -> is_Some (conn_map m !! k)).
Proof.
  intros Hi Ek Eq Er Hmu. pose proof (mv_conns _ _ _ _ _ Hi key c I Ek) as Hlive.
  destruct (live_recv h key c p mem now _ c1 p' mem' Hlive Er) as (Hg & _ & _ & _ & Hrst & Hl1).
  pose proof (recv_err_empty now c p mem e c1 p' mem' (live_pending _ _ _ Hlive) Er) as Hp1. split; [done|].
  assert (Hi1 : mux_inv b h now m1).
  { apply (mutated_inv _ b h h now now m key c c1); auto; [lia|]. intros _. apply Hl1. naive_solver. }
  destruct (mutated_front m key c c1 now m1 rest Hmu Hp1 Eq) as (rest' & Eq1 & Hk & Hrest & Hother).
  destruct (pop_inv _ b h now m1 key rest' Hi1 Eq1 Hk) as [E2 Hi2]. eexists. split; [done|]. split; [done|].
  cbn [conn_map with_rxq rxq rx_q]. assert (Hw2 : item_weight (conn_map m) (ConnRx key) = 2%nat).
  { cbn. rewrite Ek. destruct (rx_contains (pending_rx c) Rst); [by discriminate Hrst|done]. }
  assert (Hle : (weight (conn_map m1) rest <= weight (conn_map m) rest)%nat).
  { apply weight_le. intros k. destruct (decide (k = key)) as [->|Hd]; [by right|left; by apply Hother]. }
  split; [|split].
  - rewrite Eq. change (weight (conn_map m) (ConnRx key :: rest)) with
      (item_weight (conn_map m) (ConnRx key) + weight (conn_map m) rest)%nat. rewrite Hw2.
    destruct Hrest as [->|[-> Ek1]]; [lia|]. unfold weight in *. rewrite sum_list_with_app. cbn [sum_list_with item_weight].
    rewrite Ek1, kill_rst. lia.
  - intros a b' Hin. rewrite Eq. right. destruct Hrest as [->|[-> _]]; [done|].
    apply elem_of_app in Hin as [|Hin]; [done|]. apply list_elem_of_singleton in Hin. done.
  - intros k. destruct (decide (k = key)) as [->|Hd]; [by rewrite Ek|by rewrite Hother].
Qed.

Lemma recv_loop_ok b h now fuel : forall m p (mem : M), mux_inv b h now m ->
  (weight (conn_map m) (rx_q (rxq m)) < fuel)%nat ->
  exists r m' p' mem', recv_loop fuel m p mem now = Done (r, m', p', mem') /\ mux_inv b h now m' /\
    match r with Err e => rx_q (rxq m') = [] | Ok _ => packet_out m m' p' end.
Proof.
  induction fuel as [|fuel IH]; intros m p mem Hi Hw; [lia|]. cbn [recv_loop]. unfold rxq_peek.
  destruct (rx_q (rxq m)) as [|[key|a a'] rest] eqn:Eq; [by eauto 8| |].
  2: { unfold pop_unwrap, rxq_pop. rewrite Eq. cbn [lift]. rewrite bind_Done. do 4 eexists. split; [done|]. split.
       - destruct Hi as [Hn [Hl Hy] Hs Hc Hk]. split; try done; [by destruct Hn|]. split.
         + unfold rxq_len in *. rewrite Eq in Hl. cbn in *. lia.
         + intros Ey k c _ Ek Hp. specialize (Hy Ey k c I Ek Hp). rewrite Eq in Hy.
           apply elem_of_cons in Hy as [|]; done.
       - left. exists a, a'. rewrite Eq. split; [by left|done]. }
  destruct (conn_map m !! key) as [c|] eqn:Ek.
  - destruct (recv_from_ok c p mem now) as (r & c1 & p' & mem' & Er & Ef).
    destruct (live_recv h key c p mem now r c1 p' mem' (mv_conns _ _ _ _ _ Hi key c I Ek) Er) as (Hg & _ & Ea & _).
    destruct (apply_ok m key (Err NoData, true, p, mem) (r, negb (has_pending_rx c1), p', mem') (recv_from p mem now) now c c1)
      as (m1 & -> & Hmu); [apply Hi|apply Hi|done|done|apply Hg|]. rewrite Ea in Hmu. cbn [lift]. rewrite bind_Done.
    destruct r as [[]|e].
    + destruct (delivered_inv b h now m key c c1 p p' mem mem' m1 rest Hi Ek Eq Er Hmu) as (m2 & -> & Hi3 & Hp3).
      cbn [lift]. rewrite bind_Done. eauto 8.
    + destruct (skip_inv b h now m key c e c1 p p' mem mem' m1 rest Hi Ek Eq Er Hmu) as (-> & m2 & E2 & Hi2 & Hw2 & Hq & Hd).
      cbn [negb]. rewrite E2. cbn [lift]. rewrite bind_Done. rewrite Eq in Hw2.
      destruct (IH m2 p' mem' Hi2 ltac:(lia)) as (r & m' & p'' & mem'' & E' & Hi' & Hr). do 4 eexists. split; [done|].
      split; [done|]. destruct r; [by apply (packet_out_earlier m m2)|done].
  - unfold apply_conn_mutation. rewrite Ek. cbn [lift]. rewrite bind_Done.
    destruct (pop_inv _ b h now m key rest Hi Eq) as [E2 Hi2]; [by rewrite Ek|]. rewrite E2. cbn [lift]. rewrite bind_Done.
    destruct (IH _ p mem Hi2) as (r & m' & p'' & mem'' & E' & Hi' & Hr).
    { cbn [conn_map with_rxq rxq rx_q]. unfold weight in *. cbn [sum_list_with item_weight] in Hw. rewrite Ek in Hw. lia. }
    do 4 eexists. split; [done|]. split; [done|]. destruct r; [|done].
    eapply packet_out_earlier; [done| |done]. intros x y Hin. rewrite Eq. by right.
Qed.

(** ** New connections *)

Definition new_live key c : Prop := exists stream cid,
  (exists alloc, c = new_peer_init stream VSOCK_HOST_CID cid (key_local_port key) (key_peer_port key) alloc /\
     key_local_port key < 2 ^ 30) \/
  c = new_local_init stream VSOCK_HOST_CID cid (key_local_port key) (key_peer_port key) /\ 2 ^ 30 <= key_local_port key.

Lemma new_live_ok h key c : new_live key c -> h !! key = Some (accepted (stream c), []) ->
  conn_live h key c /\ timer_ok c /\ expiry c = None.
Proof.
  intros (st & ci & Hnew) Eh.
  assert (Hn : new_conn c).
  { exists st, VSOCK_HOST_CID, ci, (key_local_port key), (key_peer_port key).
    destruct Hnew as [(al & -> & _)|[-> _]]; [left; by exists al|by right]. }
  assert (Hr : resp_ok c) by (destruct Hnew as [(al & -> & _)|[-> _]]; [by right|done]).
  assert (Hp : contents (tx_buf c) = []) by (by destruct Hnew as [(al & -> & _)|[-> _]]).
  split; [|destruct Hnew as [(al & -> & _)|[-> _]]; (split; [split; [done|first [done|intros _; by right]|by intros []]|done])].
  exists (accepted (stream c)), [], []. split; [done|]. split; [rewrite app_nil_r; by apply new_conn_inv|].
  split; [done|]. split; [apply prefix_nil| |done|].
  - intros Hs. destruct Hnew as [(al & -> & _)|[-> Hp']]; done.
  - intros Hp' Hs. destruct Hnew as [(al & -> & ?)|[-> _]]; [lia|done].
Qed.

Lemma live_ext h h' k c : h' !! k = h !! k -> conn_live h k c -> conn_live h' k c.
Proof. intros Eh (base & sent & g & E1 & Hr). exists base, sent, g. by rewrite Eh. Qed.

Lemma sweep_good T now m m1 l : kill_good T m -> T <= now -> sweeps m now m1 -> popped m now m1 l -> kill_good now m1.
Proof.
  intros [Hk Hc] HT Hs [Pq Py Pp Pk Pl]. apply (kill_later T now) in Hk as [Kl Ks Kb]; [|done]. rewrite Pq in *.
  apply Forall_app in Kb as [_ Kb]. split; [split; [|by apply StronglySorted_app_1_r in Ks|done]|].
  - rewrite length_app in Kl. lia.
  - intros k c' Ek'. destruct (swept_lookup _ _ _ _ _ (sw_conns _ _ _ Hs) Ek') as (c & Ek & Hcc).
    destruct (Hc k c Ek) as [Hto Hin]. destruct Hcc as [->| ->]; [|split; [|done]; split; [by left|by left|done]].
    split; [done|]. intros t Ex Hns. specialize (Hin t Ex Hns). apply elem_of_app in Hin as [Hin|]; [|done].
    pose proof (proj1 (Forall_forall _ _) Pp _ Hin) as Hpast. cbn in Hpast.
    specialize (Pk _ c Hin Ek). cbn in Pk. rewrite Ek' in Pk. unfold has_expired in Pk. rewrite Ex in Pk.
    specialize (Pk ltac:(lia)). injection Pk as Ekc. by rewrite Ekc in Hns.
Qed.

Lemma mux_weaken P b b' h T m : (b' = true -> b = true) -> mux_inv_on P b h T m -> mux_inv_on P b' h T m.
Proof. intros Hb [Hn Hr Hs Hc Hk]. split; auto. Qed.

Variable o : @Order S.

Lemma add_inv b h T now m key c : mux_inv b h T m -> T <= now -> fresh_conn m key c -> new_live key c ->
  exists r m', add_connection o m key c now = Done (r, m') /\
    mux_inv (b && kill_synced (killq m)) (<[key := (accepted (stream c), [])]> h) now m' /\
    (forall k, k <> key -> is_Some (conn_map m' !! k) -> is_Some (conn_map m !! k)) /\
    forall c', conn_map m' !! key = Some c' -> c' = c.
Proof.
  intros [Hn Hr Hs Hc Hk] HT Hf Hnew.
  destruct (muxer_add_ok o m key c now Hn Hr Hf Hs) as (r & m1 & m' & Esw & Hsw & E' & Hn' & Hr' & Hs' & Eq & _ & Ec).
  exists r, m'. split; [done|]. set (h' := <[key := (accepted (stream c), [])]> h).
  destruct (new_live_ok h' key c Hnew) as (Hlive & Hto & Hex); [apply lookup_insert_eq|].
  assert (Hold : forall k c', k <> key -> conn_map m' !! k = Some c' -> conn_map m1 !! k = Some c').
  { intros k c' Hd. rewrite Ec. destruct r; [by rewrite lookup_insert_ne|done]. }
  assert (Hnokey : conn_map m1 !! key = None).
  { destruct (sw_conns _ _ _ Hsw key) as [->|(c0 & E0 & _)]; [apply Hf|]. by rewrite (fc_key _ _ _ Hf) in E0. }
  assert (Hkey : forall c', conn_map m' !! key = Some c' -> c' = c).
  { intros c'. rewrite Ec. destruct r; [rewrite lookup_insert_eq; congruence|congruence]. }
  split; [|split; [|done]; intros k Hd [c' Ek]; apply (Hold k c' Hd) in Ek;
    destruct (swept_lookup _ _ _ _ _ (sw_conns _ _ _ Hsw) Ek) as (c0 & -> & _); eauto].
  split; [done|done|done| |].
  - intros k c' _ Ek. destruct (decide (k = key)) as [->|Hd]; [by rewrite (Hkey c' Ek)|].
    apply (live_ext h); [by unfold h'; rewrite lookup_insert_ne|]. apply (Hold k c' Hd) in Ek.
    destruct (swept_lookup _ _ _ _ _ (sw_conns _ _ _ Hsw) Ek) as (c0 & E0 & [->| ->]); [|apply live_killed]; by apply Hc.
  - intros [Hb Hy]%andb_true_iff Hy'. specialize (Hk Hb Hy).
    destruct (sweep_ok o m now Hn Hr) as (m1' & Esw' & _ & Hpop). rewrite Esw in Esw'. injection Esw' as <-.
    destruct (Hpop Hy) as [l Hl]. destruct (sweep_good T now m m1 l Hk HT Hsw Hl) as [Hko Hkc].
    split; rewrite Eq; [done|]. intros k c' Ek. destruct (decide (k = key)) as [->|Hd].
    + rewrite (Hkey c' Ek). split; [done|]. by rewrite Hex.
    + apply Hkc, (Hold k c' Hd Ek).
Qed.

(** ** The operations *)

(** The history after a call: connections that are gone are forgotten, new ones start
    with what is on their socket. *)
Definition history_after (h : History) m m' : History :=
  map_imap (fun k c => match conn_map m !! k with Some _ => h !! k | None => Some (accepted (stream c), []) end) (conn_map m').

Lemma history_inv b h h1 T m m' : mux_inv b h1 T m' ->
  (forall k c, conn_map m' !! k = Some c -> match conn_map m !! k with
     | Some _ => h1 !! k = h !! k | None => h1 !! k = Some (accepted (stream c), []) end) ->
  mux_inv b (history_after h m m') T m'.
Proof.
  intros [Hn Hr Hs Hc Hk] Hh. split; try done. intros k c _ Ek. apply (live_ext h1); [|by apply Hc].
  unfold history_after. rewrite map_lookup_imap, Ek. cbn. specialize (Hh k c Ek). by destruct (conn_map m !! k).
Qed.

Lemma recv_inv b h T now m p (mem : M) : mux_inv b h T m -> T <= now ->
  exists r m' p' mem', muxer_recv_pkt o m p mem now = Done (r, m', p', mem') /\ mux_inv b h now m' /\
    match r with
    | Err _ => rx_q (rxq m') = []
    | Ok _ => (exists x y, op p' = VSOCK_OP_RST /\ RstPkt x y ∈ rx_q (rxq m) /\ src_port p' = x /\ dst_port p' = y) \/
        is_Some (conn_map m !! mkKey (src_port p') (dst_port p')) /\
        (op p' = VSOCK_OP_RST -> conn_map m' !! mkKey (src_port p') (dst_port p') = None)
    end.
Proof.
  intros Hi HT. apply (mux_later _ _ _ T now) in Hi; [|done]. unfold muxer_recv_pkt.
  set (m1 := if _ && _ then _ else m).
  assert (Hm1 : mux_inv b h now m1 /\ conn_map m1 = conn_map m /\ forall x y, RstPkt x y ∈ rx_q (rxq m1) -> RstPkt x y ∈ rx_q (rxq m)).
  { unfold m1. destruct (_ && _); [|done]. split; [|split; [done|]].
    - destruct Hi as [Hn Hr Hs Hc Hk]. split; try done; [by destruct Hn|]. apply from_conn_map_ok.
    - intros x y Hin. exfalso. cbn [rxq with_rxq] in Hin. revert Hin. unfold rxq_from_conn_map.
      assert (Hf : forall l q, RstPkt x y ∉ q -> RstPkt x y ∉ rx_q (rxq_fill (S := S) l q)).
      { induction l as [|[k c] l IH]; intros q Hq; cbn [rxq_fill]; [done|]. destruct (negb _); [by apply IH|].
        destruct (_ <=? _); [done|]. apply IH. rewrite not_elem_of_app. split; [done|]. by rewrite list_elem_of_singleton. }
      apply Hf, not_elem_of_nil. }
  destruct Hm1 as (Hi1 & Ec1 & Hq1).
  destruct (recv_loop_ok b h now (2 * length (rx_q (rxq m1)) + 1) m1 p mem Hi1) as (r & m' & p' & mem' & E' & Hi' & Hr).
  { pose proof (weight_bound (conn_map m1) (rx_q (rxq m1))). lia. }
  do 4 eexists. split; [done|]. split; [done|]. destruct r; [|done].
  destruct Hr as [(x & y & Hin & Hop & Hsp & Hdp)|[Hk Hr]]; [left; eauto 8|right]. by rewrite <-Ec1.
Qed.

(** A socket that is new. *)
Definition fresh_fd m (fd : Z) : Prop :=
  fd <> host_sock m /\ listener_map m !! fd = None /\ forall k c, conn_map m !! k = Some c -> conn_fd c <> fd.

Lemma enq_inv b h T m x y : mux_inv b h T m -> mux_inv b h T (enq_rst m x y).
Proof.
  intros [Hn Hr Hs Hc Hk]. split; try done; [by destruct Hn|]. by apply push_rst.
Qed.

(** The data of a packet counts for the connection it is forwarded to. *)
Definition sent_history (h : History) m (p : VsockPacket) (l : list Z) : History :=
  let key := mkKey (dst_port p) (src_port p) in
  if (type_ p =? VSOCK_TYPE_STREAM) && (dst_cid p =? VSOCK_HOST_CID) then
    match conn_map m !! key with Some c => history_send h key c p l | None => h end
  else h.

(** Connecting gives a new socket, and only for ports that are not handed out. *)
Definition connects m (p : VsockPacket) (connect : list Z -> result (UnixStream S) IoError) : Prop :=
  forall path st, connect path = Ok st -> fresh_fd m (as_raw_fd st) /\ dst_port p < 2 ^ 30.

Lemma history_kept b h T m m' : mux_inv b h T m' ->
  (forall k, is_Some (conn_map m' !! k) -> is_Some (conn_map m !! k)) -> mux_inv b (history_after h m m') T m'.
Proof.
  intros Hi Hk. apply (history_inv b h h); [done|]. intros k c Ek. destruct (Hk k) as [c0 ->]; [by exists c|done].
Qed.

Lemma mutated_dom m key c c2 now m' : mutated m key c c2 now m' -> conn_map m !! key = Some c ->
  forall k, is_Some (conn_map m' !! k) -> is_Some (conn_map m !! k).
Proof.
  intros Hmu Ek k. destruct (decide (k = key)) as [->|Hd]; [by rewrite Ek|].
  destruct (mu_conns _ _ _ _ _ _ Hmu) as [[-> _]|[-> _]]; by rewrite lookup_insert_ne.
Qed.

Lemma ack_good now key st c c1 : good_op now c c1 -> good_op now c (ack_host key st c1).
Proof.
  intros Ho. unfold ack_host. destruct (_ && _); [|done]. unfold send_bytes_raw.
  destruct (write (stream c1) _) as [s r] eqn:Ew. apply write_fd in Ew.
  assert (Hq : quiet c1 (with_stream c1 s)) by by split. pose proof (then_quiet _ _ _ _ Ho Hq) as Ho1.
  destruct r as [n|e]; [destruct (_ =? _); [done|]|]; by apply then_kill.
Qed.

Lemma request_inv b h T now m p connect : mux_inv b h T m -> T <= now -> connects m p connect ->
  conn_map m !! mkKey (dst_port p) (src_port p) = None ->
  exists m', handle_peer_request_pkt o m p connect now = Done m' /\
    mux_inv (b && kill_synced (killq m)) (history_after h m m') now m'.
Proof.
  intros Hi HT Hcon Hno. unfold handle_peer_request_pkt. set (key := mkKey (dst_port p) (src_port p)) in *.
  assert (Hi0 : mux_inv (b && kill_synced (killq m)) h now m).
  { apply (mux_later _ _ _ T now); [done|]. apply (mux_weaken _ b); [by intros [? _]%andb_true_iff|done]. }
  destruct (connect _) as [st|e] eqn:Econ.
  2: { eexists. split; [done|]. apply history_kept; [by apply enq_inv|done]. }
  destruct (Hcon _ _ Econ) as [(Fh & Fl & Ff) Hport]. set (c := new_peer_init st _ _ _ _ _).
  assert (Hf : fresh_conn m key c).
  { split; try done. cbn. lia. }
  destruct (add_inv b h T now m key c Hi HT Hf) as (r & m' & -> & Hi' & Hdom & Hkey).
  { exists st, (cid m). left. eexists. split; [done|]. done. }
  rewrite bind_Done. assert (Hh : mux_inv (b && kill_synced (killq m)) (history_after h m m') now m').
  { apply (history_inv _ h (<[key := (accepted (stream c), [])]> h)); [done|]. intros k c' Ek.
    destruct (decide (k = key)) as [->|Hd].
    - rewrite Hno, lookup_insert_eq. by rewrite (Hkey c' Ek).
    - rewrite lookup_insert_ne by done. destruct (Hdom k Hd) as [c0 ->]; [by exists c'|done]. }
  destruct r; eexists; (split; [done|]); [done|]. exact (enq_inv _ _ _ _ _ _ Hh).
Qed.

(** A call after which [b'] still holds of the queue of terminations. *)
Definition in_step (b b' : bool) m : Prop := b' = true -> b = true /\ kill_synced (killq m) = true.

Lemma in_step_weaken b b' h T m : in_step b b' m -> mux_inv b h T m -> mux_inv b' h T m.
Proof. intros Hb. apply mux_weaken. intros E1. by apply Hb. Qed.

Lemma in_step_and b b' h T m m' : in_step b b' m -> mux_inv (b && kill_synced (killq m)) h T m' -> mux_inv b' h T m'.
Proof. intros Hb. apply mux_weaken. intros [-> ->]%Hb. done. Qed.

Lemma history_same h m p l k : (forall c, conn_map m !! k = Some c -> k = mkKey (dst_port p) (src_port p) ->
  (type_ p =? VSOCK_TYPE_STREAM) && (dst_cid p =? VSOCK_HOST_CID) = false) -> is_Some (conn_map m !! k) ->
  sent_history h m p l !! k = h !! k.
Proof.
  intros Hk [c Ek]. unfold sent_history. destruct (decide (k = mkKey (dst_port p) (src_port p))) as [->|Hd].
  - by rewrite (Hk c Ek eq_refl).
  - destruct (_ && _); [|done]. destruct (conn_map m !! mkKey _ _) as [c0|]; [|done]. unfold history_send.
    destruct (h !! mkKey _ _) as [[base sent]|]; [by rewrite lookup_insert_ne|done].
Qed.

Lemma kept_sent b h T m m' p l : mux_inv b h T m' ->
  (forall k, is_Some (conn_map m' !! k) -> is_Some (conn_map m !! k) /\ sent_history h m p l !! k = h !! k) ->
  mux_inv b (history_after (sent_history h m p l) m m') T m'.
Proof.
  intros Hi Hk. apply (history_inv b (sent_history h m p l) h); [done|]. intros k c Ek.
  destruct (Hk k) as [[c0 ->] ->]; [by exists c|done].
Qed.

Lemma send_inv b b' h T now m p (mem : M) l connect : mux_inv b h T m -> T <= now -> guest_packet mem p l ->
  connects m p connect -> in_step b b' m ->
  (b' = true -> forall c, conn_map m !! mkKey (dst_port p) (src_port p) = Some c -> answers c p) ->
  exists m', muxer_send_pkt o m p mem connect now = Done m' /\
    mux_inv b' (history_after (sent_history h m p l) m m') now m'.
Proof.
  intros Hi HT Hp Hcon Hst Hans. unfold muxer_send_pkt. set (key := mkKey (dst_port p) (src_port p)) in *.
  pose proof (mux_later _ _ _ T now m HT Hi) as Hn. apply (in_step_weaken b b') in Hn; [|done].
  destruct (Z.eqb_spec (type_ p) VSOCK_TYPE_STREAM) as [Ety|Ety]; cbn [negb].
  2: { eexists. split; [done|]. apply kept_sent; [by apply enq_inv|]. intros k Hk. split; [done|]. apply history_same; [|done].
       intros _ _ _. by rewrite (proj2 (Z.eqb_neq _ _)). }
  destruct (Z.eqb_spec (dst_cid p) VSOCK_HOST_CID) as [Ecid|Ecid]; cbn [negb].
  2: { eexists. split; [done|]. apply kept_sent; [done|]. intros k Hk. split; [done|]. apply history_same; [|done].
       intros _ _ _. by rewrite (proj2 (Z.eqb_neq (dst_cid p) _)), andb_false_r. }
  destruct (conn_map m !! key) as [c|] eqn:Ek.
  2: { rewrite bool_decide_false by by intros []. cbn [negb]. assert (Eh : sent_history h m p l = h).
       { unfold sent_history. fold key. rewrite Ek. by destruct (_ && _). }
       rewrite Eh. destruct (op p =? VSOCK_OP_REQUEST).
       - destruct (request_inv b h T now m p connect Hi HT Hcon Ek) as (m' & -> & Hi'). eexists. split; [done|].
         by apply (in_step_and b b' _ _ m).
       - eexists. split; [done|]. apply history_kept; [by apply enq_inv|done]. }
  rewrite bool_decide_true by done. cbn [negb]. destruct (Z.eqb_spec (op p) VSOCK_OP_RST) as [Eop|Eop].
  - eexists. split; [done|]. destruct (remove_inv _ b' h now m key c Hn ltac:(done) Ek) as [Hr Ec].
    apply kept_sent; [done|]. rewrite Ec. intros k [c' [Hne Ek']%lookup_delete_Some]. split; [by exists c'|].
    apply history_same; [|by exists c']. intros c0 _ Heq. by destruct Hne.
  - destruct (live_send h key c p mem now l (mv_conns _ _ _ _ _ Hi key c I Ek) Hp) as (c1 & E1 & Hb & Ho & Hl).
    destruct (apply_ok m key tt tt (fun conn => c ← send_pkt conn p mem now; Ret (tt, c)) now c c1) as (m' & -> & Hmu);
      [apply Hi|apply Hi|done|by rewrite E1|apply Hb|]. cbn [lift]. rewrite bind_Done. eexists. split; [done|].
    assert (Eh : sent_history h m p l = history_send h key c p l).
    { unfold sent_history. rewrite Ety, Ecid. fold key. by rewrite Ek. }
    rewrite Eh. apply history_kept; [|by eapply mutated_dom].
    apply (mutated_inv _ b' h _ T now m key c (ack_host key (state c) c1)); auto.
    + by apply (in_step_weaken b b').
    + intros k c' Hd. apply live_ext. unfold history_send. by destruct (h !! key) as [[]|]; rewrite ?lookup_insert_ne.
    + intros Hb'. by apply ack_good, Ho, Hans.
Qed.

Lemma read_exact_fd fuel : forall (st st' : UnixStream S) n buf r, read_exact fuel st n buf = (st', r) -> as_raw_fd st' = as_raw_fd st.
Proof.
  induction fuel as [|fuel IH]; intros st st' n buf r E1; destruct n as [|n]; cbn [read_exact] in E1; try by injection E1 as <- _.
  destruct (read st _) as [s1 [[|x l]|e]] eqn:Er; apply read_fd in Er; try (by injection E1 as <- _; rewrite Er).
  apply IH in E1. congruence.
Qed.

Lemma read_line_fd fuel : forall (st st' : UnixStream S) buf r, read_line fuel st buf = (st', r) -> as_raw_fd st' = as_raw_fd st.
Proof.
  induction fuel as [|fuel IH]; intros st st' buf r E1; [by injection E1 as <- _|]. cbn [read_line] in E1.
  destruct (bool_decide _); [by injection E1 as <- _|].
  destruct (read_exact 1 st 1 buf) as [s1 [b1|e]] eqn:Er; apply read_exact_fd in Er; [apply IH in E1|injection E1 as <- _]; congruence.
Qed.

Lemma read_port_fd (st st' : UnixStream S) r : read_local_stream_port st = (st', r) -> as_raw_fd st' = as_raw_fd st.
Proof.
  unfold read_local_stream_port. destruct (read_exact _ st _ _) as [s1 [b1|e]] eqn:Er; apply read_exact_fd in Er; [|congruence].
  destruct (read_line _ s1 b1) as [s2 [b2|e]] eqn:El; apply read_line_fd in El; congruence.
Qed.

(** No port is left to be handed out. *)
Definition ports_exhausted m : Prop := 2 ^ 30 <= Z.of_nat (size (local_port_set m)).

Lemma local_stream_inv b b' h T now m fd st : mux_inv b h T m -> T <= now -> in_step b b' m ->
  listener_map m !! fd = Some (LocalStream st) ->
  (exists m', handle_local_stream o m fd now = Done m' /\ mux_inv b' (history_after h m m') now m') \/
  ports_exhausted m /\ handle_local_stream o m fd now = Hang.
Proof.
  intros Hi HT Hst El. unfold handle_local_stream. destruct (remove_listener_ok m fd (mv_net _ _ _ _ _ Hi)) as (Hn1 & Ec1 & Er1 & Ek1 & Ep1).
  destruct (net_listen _ (mv_net _ _ _ _ _ Hi) fd _ El) as (Efd & Hh & Hc). revert Hn1 Ec1 Er1 Ek1 Ep1.
  unfold remove_listener. rewrite El. cbn [snd]. set (m1 := with_listeners m _ _). intros Hn1 _ _ _ _.
  assert (Hi1 : mux_inv b h T m1) by (destruct Hi; by split).
  pose proof (mux_later _ _ _ T now m1 HT (in_step_weaken b b' h T m1 Hst Hi1)) as Hdone.
  destruct (read_local_stream_port st) as [st' [port|e]] eqn:Erd; [|left; eexists; split; [done|]; by apply history_kept].
  apply read_port_fd in Erd. unfold allocate_local_port.
  destruct (allocate_loop_ok (Datatypes.S (size (local_port_set m1))) (local_port_set m1) (local_port_last m1))
    as [(lp & -> & Hlp & Hrange)|[Eh _]]; [apply Hn1| |].
  2: { right. rewrite Eh. split; [|done]. destruct (decide (ports_exhausted m)) as [|Hroom]; [done|].
       destruct (allocate_ends (local_port_set m1) (local_port_last m1)) as (lp & E1 & _); [apply Hn1| |congruence].
       unfold ports_exhausted in Hroom. cbn. lia. }
  rewrite !bind_Done. left. set (m2 := with_ports m1 _ lp).
  assert (Hport : forall k c, conn_map m !! k = Some c -> key_local_port k <> lp).
  { intros k c Ek Heq. apply Hlp. rewrite <-Heq. apply (net_ports _ (mv_net _ _ _ _ _ Hi) k c Ek). lia. }
  assert (Hi2 : mux_inv b h T m2).
  { destruct Hi1 as [[Ni Nf Nh Nl Np Nu Na] Hr Hs Hcl Hk]. split; try done. split; try done.
    - intros k c Ek Hp. cbn. apply elem_of_union. right. by apply (Np k c).
    - unfold last_ok. cbn. lia. }
  set (key := mkKey lp port). set (c := new_local_init st' _ _ _ _).
  assert (Ecfd : conn_fd c = fd) by (unfold conn_fd; cbn; congruence).
  assert (Hf : fresh_conn m2 key c).
  { split; rewrite ?Ecfd; try done; cbn.
    - destruct (conn_map m !! key) as [c0|] eqn:Ek; [|done]. by destruct (Hport key c0 Ek).
    - apply lookup_delete_eq.
    - intros _. split; [set_solver|]. apply Hport. }
  destruct (add_inv b h T now m2 key c Hi2 HT Hf) as (r & m' & -> & Hi' & Hdom & Hkey).
  { exists st', (cid m2). right. cbn. split; [done|lia]. }
  rewrite bind_Done. eexists. split; [done|]. apply (in_step_and b b' _ _ m); [done|].
  apply (history_inv _ h (<[key := (accepted (stream c), [])]> h)); [done|]. intros k c' Ek.
  destruct (decide (k = key)) as [->|Hd].
  - cbn [snd] in Ek. rewrite (Hkey c' Ek), (fc_key _ _ _ Hf : conn_map m !! key = None). apply lookup_insert_eq.
  - rewrite lookup_insert_ne by done. cbn [snd] in Ek. destruct (Hdom k Hd) as [c0 E0]; [by exists c'|].
    change (conn_map m2) with (conn_map m) in E0. by rewrite E0.
Qed.

Lemma event_inv b b' h T now m fd ev accept : mux_inv b h T m -> T <= now -> in_step b b' m ->
  (forall st, accept = Ok st -> fresh_fd m (as_raw_fd st)) ->
  (exists m', handle_event o m fd ev accept now = Done m' /\ mux_inv b' (history_after h m m') now m') \/
  ports_exhausted m /\ handle_event o m fd ev accept now = Hang.
Proof.
  intros Hi HT Hst Hacc. unfold handle_event. pose proof (mux_later _ _ _ T now m HT (in_step_weaken b b' h T m Hst Hi)) as Hn.
  assert (Hsame : exists m', Done m = Done m' /\ mux_inv b' (history_after h m m') now m') by (eexists; split; [done|]; by apply history_kept).
  destruct (listener_map m !! fd) as [[key ev'| |st]|] eqn:El; [| | |by left].
  - left. destruct (net_listen _ (mv_net _ _ _ _ _ Hi) fd _ El) as (c & Ek & Efd).
    destruct (live_notify h key c ev.1 ev.2 now (mv_conns _ _ _ _ _ Hi key c I Ek)) as (c1 & E1 & Ho & Hl).
    destruct (apply_ok m key tt tt (fun conn => c ← notify conn ev.1 ev.2; Ret (tt, c)) now c c1) as (m' & -> & Hmu);
      [apply Hi|apply Hi|done|by rewrite E1|apply Ho|]. cbn [lift]. rewrite bind_Done. eexists. split; [done|].
    apply history_kept; [|by eapply mutated_dom].
    apply (mutated_inv _ b' h h T now m key c (ack_host key (state c) c1)); auto.
    + by apply (in_step_weaken b b').
    + intros _. by apply ack_good.
  - left. destruct (_ =? _); [done|]. destruct accept as [st|e]; [|done]. eexists. split; [done|].
    destruct (Hacc st eq_refl) as (Hh & Hno & Hc). unfold add_listener.
    destruct (ctl_add (epoll m) (as_raw_fd st) _) as [[[]|e] ep]; cbn [snd];
      (apply history_kept; [|done]); destruct Hn as [[Ni Nf Nh Nl Np Nu Na] Hr Hs Hcl Hk]; split; try done; split; try done.
    cbn. intros fd' l'. destruct (decide (fd' = as_raw_fd st)) as [->|Hd]; [rewrite lookup_insert_eq|rewrite lookup_insert_ne by done; apply Nl].
    intros [= <-]. done.
  - destruct (local_stream_inv b b' h T now m fd st Hi HT Hst El) as [|]; [by left|by right].
Qed.

(** ** Runs *)

(** [mux_run b T m h]: the multiplexer can be [m] at time [T] with history [h]; if [b],
    the queue of terminations was in step before every call, and the guest answered only
    requests it was given. *)
Inductive mux_run : bool -> Z -> Muxer -> History -> Prop :=
| mr_new b T cid path fd ep m : VsockMuxer_new cid path (Ok fd) (Ok ep) = Ok m -> mux_run b T m ∅
| mr_wait b T T' m h : mux_run b T m h -> T <= T' -> mux_run b T' m h
| mr_recv b b' T now m h p (mem : M) r m' p' mem' : mux_run b T m h -> T <= now -> in_step b b' m ->
    muxer_recv_pkt o m p mem now = Done (r, m', p', mem') -> mux_run b' now m' h
| mr_send b b' T now m h p (mem : M) l connect m' : mux_run b T m h -> T <= now -> in_step b b' m ->
    guest_packet mem p l -> connects m p connect ->
    (b' = true -> forall c, conn_map m !! mkKey (dst_port p) (src_port p) = Some c -> answers c p) ->
    muxer_send_pkt o m p mem connect now = Done m' -> mux_run b' now m' (history_after (sent_history h m p l) m m')
| mr_event b b' T now m h fd ev accept m' : mux_run b T m h -> T <= now -> in_step b b' m ->
    (forall st, accept = Ok st -> fresh_fd m (as_raw_fd st)) ->
    handle_event o m fd ev accept now = Done m' -> mux_run b' now m' (history_after h m m').

Lemma new_inv T cid path fd ep m : VsockMuxer_new cid path (Ok fd) (Ok ep) = Ok m -> mux_inv true ∅ T m.
Proof.
  unfold VsockMuxer_new, add_listener. cbn. destruct (ctl_add ep fd _) as [[[]|e] ep']; [|done]. intros [= <-]. split.
  - split; cbn; try done. intros fd' l. rewrite lookup_insert_Some. intros [[<- <-]|[_ ?]]; done.
  - by split.
  - done.
  - done.
  - intros _ _. split; [|done]. split; [done|constructor|constructor].
Qed.

Lemma run_inv b T m h : mux_run b T m h -> mux_inv b h T m.
Proof.
  induction 1 as [b T cid path fd ep m En|b T T' m h _ IH HT|b b' T now m h p mem r m' p' mem' _ IH HT Hst E1
    |b b' T now m h p mem l connect m' _ IH HT Hst Hp Hcon Hans E1|b b' T now m h fd ev accept m' _ IH HT Hst Hacc E1].
  - apply (new_inv T) in En. by apply (mux_weaken _ true).
  - by apply (mux_later _ _ _ T).
  - destruct (recv_inv b' h T now m p mem (in_step_weaken b b' h T m Hst IH) HT) as (r1 & m1 & p1 & mem1 & E2 & Hi & _).
    rewrite E1 in E2. by injection E2 as <- <- <- <-.
  - destruct (send_inv b b' h T now m p mem l connect IH HT Hp Hcon Hst Hans) as (m1 & E2 & Hi). congruence.
  - destruct (event_inv b b' h T now m fd ev accept IH HT Hst Hacc) as [(m1 & E2 & Hi)|[_ E2]]; congruence.
Qed.

Lemma run_weaken b T m h : mux_run b T m h -> mux_run false T m h.
Proof.
  induction 1 as [b T cid path fd ep m En|b T T' m h _ IH HT|b b' T now m h p mem r m' p' mem' _ IH HT Hst E1
    |b b' T now m h p mem l connect m' _ IH HT Hst Hp Hcon Hans E1|b b' T now m h fd ev accept m' _ IH HT Hst Hacc E1].
  - by apply (mr_new false T cid path fd ep).
  - by apply (mr_wait false T).
  - by apply (mr_recv false false T now m h p mem r m' p' mem').
  - by apply (mr_send false false T now m h p mem l connect m').
  - by apply (mr_event false false T now m h fd ev accept m').
Qed.

(** What the host has been given of a connection: the greeting, if it asked for the
    connection, and what the guest sent, in order. *)
Definition stream_of (h : History) (key : ConnMapKey) (c : Conn) : Prop :=
  exists base sent g lost, h !! key = Some (base, sent) /\
    base ++ g ++ sent = accepted (stream c) ++ contents (tx_buf c) ++ lost /\
    (key_local_port key < 2 ^ 30 -> g = []) /\ g `prefix_of` greeting key /\
    (state c = LocalInit -> g = [] /\ sent = []) /\
    (state c <> Killed -> lost = [] /\
       (2 ^ 30 <= key_local_port key -> state c <> LocalInit -> g = greeting key)).

Lemma live_stream h key c : conn_live h key c -> stream_of h key c.
Proof.
  intros (base & sent & g & Eh & [_ (lost & El & Hl) _ _ _] & _ & [Gp Gi Gg Gh]). exists base, sent, g, lost.
  rewrite app_assoc. split_and!; auto. intros Hs. by destruct (Gi Hs) as (? & ? & _).
Qed.

(** C23: The multiplexer refines one byte stream per connection: in every state it can
    reach, what a connection's socket has been given and the data still buffered for it are
    together what the guest sent on that connection and nothing else, in order (after the
    line that tells the host its port, on a connection the host asked for), and only a
    killed connection loses data. From every such state no call panics or loops: delivering
    a packet, taking any packet of the guest and handling any event return, except that
    asking for a port when all 2^30 are in use never does. *)
Theorem muxer_streams b T m h : mux_run b T m h ->
  (forall key c, conn_map m !! key = Some c -> stream_of h key c) /\
  forall now, T <= now ->
    (forall p (mem : M), exists r m' p' mem', muxer_recv_pkt o m p mem now = Done (r, m', p', mem')) /\
    (forall p (mem : M) l connect, guest_packet mem p l -> connects m p connect ->
       exists m', muxer_send_pkt o m p mem connect now = Done m') /\
    (forall fd ev accept, (forall st, accept = Ok st -> fresh_fd m (as_raw_fd st)) ->
       (exists m', handle_event o m fd ev accept now = Done m') \/
       ports_exhausted m /\ handle_event o m fd ev accept now = Hang).
Proof.
  intros Hrun. apply run_inv in Hrun as Hi. split; [intros key c Ek; by apply live_stream, (mv_conns _ _ _ _ _ Hi)|].
  assert (Hf : in_step b false m) by done. intros now HT. split; [|split].
  - intros p mem. destruct (recv_inv b h T now m p mem Hi HT) as (r & m' & p' & mem' & E1 & _). eauto.
  - intros p mem l connect Hp Hcon.
    destruct (send_inv b false h T now m p mem l connect Hi HT Hp Hcon Hf) as (m' & E1 & _); eauto. done.
  - intros fd ev accept Hacc. destruct (event_inv b false h T now m fd ev accept Hi HT Hf Hacc) as [(m' & E1 & _)|]; eauto.
Qed.

(** C25: Nothing that is to be delivered is forgotten: in every state the multiplexer can
    reach, if a connection has something for the guest the multiplexer says so. A packet
    that is delivered is a reset the multiplexer owes, or comes from the connection whose
    ports it bears, which is gone afterwards if it is a reset. When nothing is delivered,
    the queue is empty, and if it was in step no connection has anything. *)
Theorem rx_never_lost b T m h now p (mem : M) r m' p' mem' : mux_run b T m h -> T <= now ->
  muxer_recv_pkt o m p mem now = Done (r, m', p', mem') ->
  (forall key c, conn_map m !! key = Some c -> has_pending_rx c = true -> muxer_has_pending_rx m = true) /\
  match r with
  | Ok _ => packet_out m m' p'
  | Err _ => rx_q (rxq m') = [] /\ forall key c, conn_map m' !! key = Some c -> has_pending_rx c = true ->
      rx_synced (rxq m') = false /\ muxer_has_pending_rx m' = true
  end.
Proof.
  intros Hrun HT E1. apply run_inv in Hrun as Hi.
  assert (Hall : forall h T (m : Muxer) key c, mux_inv b h T m -> conn_map m !! key = Some c -> has_pending_rx c = true ->
    rx_synced (rxq m) = true -> ConnRx key ∈ rx_q (rxq m)).
  { intros h' T' m1 key c Hi1 Ek Hp Ey. exact (rx_sync _ _ _ (mv_rx _ _ _ _ _ Hi1) Ey key c I Ek Hp). }
  split.
  - intros key c Ek Hp. unfold muxer_has_pending_rx. destruct (rx_synced (rxq m)) eqn:Ey; [|apply orb_true_r].
    specialize (Hall h T m key c Hi Ek Hp Ey). unfold rxq_is_empty, rxq_len.
    destruct (rx_q (rxq m)); [by apply not_elem_of_nil in Hall|done].
  - destruct (recv_inv b h T now m p mem Hi HT) as (r1 & m1 & p1 & mem1 & E2 & Hi1 & Hr).
    rewrite E1 in E2. injection E2 as <- <- <- <-. destruct r as [u|e].
    + destruct Hr as [(x & y & Hop & Hin & Hs & Hd)|]; [left; eauto 8|by right].
    + split; [done|]. intros key c Ek Hp. unfold muxer_has_pending_rx.
      destruct (rx_synced (rxq m')) eqn:Ey; [|split; [done|apply orb_true_r]]. exfalso.
      specialize (Hall h now m' key c Hi1 Ek Hp Ey). rewrite Hr in Hall. by apply not_elem_of_nil in Hall.
Qed.

(** Events and packets reach the connection they belong to. In every state the
    multiplexer can reach a connection is filed under its own ports, no two connections
    share a socket, no two share a port that was handed out to the host, and the port stays
    taken; there are at most 1023 connections. An event on a socket is delivered to the
    connection whose socket it is, and changes no other connection. *)
Theorem muxer_owns b T m h : mux_run b T m h ->
  Z.of_nat (size (conn_map m)) <= MAX_CONNECTIONS /\
  (forall k1 c1, conn_map m !! k1 = Some c1 ->
     local_port c1 = key_local_port k1 /\ peer_port c1 = key_peer_port k1 /\
     (2 ^ 30 <= key_local_port k1 -> key_local_port k1 ∈ local_port_set m) /\
     forall k2 c2, conn_map m !! k2 = Some c2 ->
       conn_fd c1 = conn_fd c2 \/ 2 ^ 30 <= key_local_port k1 /\ key_local_port k1 = key_local_port k2 -> k1 = k2) /\
  forall fd key ev, listener_map m !! fd = Some (Connection key ev) ->
    (exists c, conn_map m !! key = Some c /\ conn_fd c = fd) /\
    forall evs accept now m', handle_event o m fd evs accept now = Done m' ->
      forall k, k <> key -> conn_map m' !! k = conn_map m !! k.
Proof.
  intros Hi%run_inv. pose proof (mv_net _ _ _ _ _ Hi) as [Ni Nf Nh Nl Np Nu Na]. split; [apply Hi|]. split.
  - intros k1 c1 E1. destruct (Ni k1 c1 E1) as [-> ->]. split_and!; [done..|by eapply Np|].
    intros k2 c2 E2 [Hfd|[Hp He]]; eauto.
  - intros fd key ev El. destruct (Nl fd _ El) as (c & Ek & Efd). split; [eauto|].
    intros evs accept now m'. unfold handle_event. rewrite El.
    destruct (live_notify h key c evs.1 evs.2 now (mv_conns _ _ _ _ _ Hi key c I Ek)) as (c1 & E1 & Ho & _).
    destruct (apply_ok m key tt tt (fun conn => c ← notify conn evs.1 evs.2; Ret (tt, c)) now c c1) as (m1 & -> & Hmu);
      [apply Hi|apply Hi|done|by rewrite E1|apply Ho|]. cbn [lift]. rewrite bind_Done. intros [= <-] k Hk.
    destruct (mu_conns _ _ _ _ _ _ Hmu) as [[-> _]|[-> _]]; by rewrite lookup_insert_ne.
Qed.

(** While the queue of terminations has always been in step, making room for a new
    connection kills every connection that was given notice and whose time is up, and
    leaves every other one as it is. *)
Theorem expired_killed T m h now : mux_run true T m h -> kill_synced (killq m) = true -> T <= now ->
  exists m', sweep_killq o m now = Done m' /\
    forall key c, conn_map m !! key = Some c ->
      (forall t, expiry c = Some t -> t < now -> state c <> Killed -> conn_map m' !! key = Some (kill c)) /\
      (has_expired c now = false -> conn_map m' !! key = Some c).
Proof.
  intros Hi%run_inv Hy HT. destruct (sweep_ok o m now) as (m' & E1 & Hs & Hp); [apply Hi..|].
  exists m'. split; [done|]. destruct (Hp Hy) as [l [Pq _ Pp Pk Pl]].
  destruct (mv_kill _ _ _ _ _ Hi eq_refl Hy) as [[_ Hsort _] Hin]. intros key c Ek. split.
  - intros t Ex Hlt Hns.
    destruct (Hin key c Ek) as [_ Hq]. specialize (Hq t Ex Hns). rewrite Pq in Hq.
    apply elem_of_app in Hq as [Hq|Hq]; [apply (Pk _ c Hq Ek); unfold has_expired; rewrite Ex; lia|]. exfalso.
    rewrite Pq in Hsort. apply StronglySorted_app_1_r in Hsort. destruct (kill_q (killq m')) as [|it rest]; [by apply not_elem_of_nil in Hq|].
    specialize (Pl it rest eq_refl). apply elem_of_cons in Hq as [<-|Hq]; [cbn in *; lia|].
    apply StronglySorted_inv in Hsort as [_ Hf]. rewrite Forall_forall in Hf. specialize (Hf _ Hq).
    unfold item_before in Hf. cbn in Hf. lia.
  - intros He. destruct (sw_conns _ _ _ Hs key) as [->|(c0 & E0 & He0 & _)]; [done|congruence].
Qed.

(** Whether a connection is in the queue of terminations. *)
Definition awaits (key : ConnMapKey) (q : MuxerKillQ) : Prop := exists it, it ∈ kill_q q /\ kq_key it = key.

Lemma sweep_pops_skips key fuel : forall m now, ~ awaits key (killq m) ->
  conn_map (sweep_pops fuel m now) !! key = conn_map m !! key /\ ~ awaits key (killq (sweep_pops fuel m now)).
Proof.
  induction fuel as [|fuel IH]; intros m now Hq; cbn [sweep_pops]; [done|]. unfold killq_pop.
  destruct (kill_q (killq m)) as [|it l] eqn:Eq; [done|]. destruct (_ <? _); [|done].
  set (q := mkKillQ l _). set (m1 := kill_expired (with_killq m q) (kq_key it) now).
  assert (Hk : key <> kq_key it) by (intros ->; apply Hq; exists it; rewrite Eq; split; [by left|done]).
  assert (Hm1 : conn_map m1 !! key = conn_map m !! key /\ killq m1 = q).
  { unfold m1, kill_expired, kill_connection. repeat case_match; cbn; rewrite ?lookup_alter_ne by done; done. }
  destruct Hm1 as [E1 Eq1]. destruct (IH m1 now) as [-> Hn].
  - rewrite Eq1. intros (it' & Hin & Hk'). apply Hq. exists it'. rewrite Eq. split; [by right|done].
  - by rewrite E1.
Qed.

Lemma killq_fill_skips key c now (l : list (ConnMapKey * Conn)) : forall q q', will_expire c now = false ->
  (forall c', (key, c') ∈ l -> c' = c) -> ~ awaits key (mkKillQ q true) -> killq_fill l q now = Ret q' -> ~ awaits key q'.
Proof.
  induction l as [|[k c'] l IH]; intros q q' Hw Hl Hq; cbn [killq_fill]; [by intros [= <-]|].
  assert (Hl' : forall c', (key, c') ∈ l -> c' = c) by (intros x Hx; apply Hl; by right).
  destruct (will_expire c' now) eqn:Ew; cbn [negb]; [|by apply IH]. destruct (_ <=? _); [by intros [= <-]|].
  intros (t & Et & E1)%bind_Ret_inv. apply (IH _ _ Hw Hl') in E1; [done|]. intros (it & Hin & Hk). apply Hq. exists it.
  cbn [kill_q] in *. apply elem_of_app in Hin as [|Hin]; [done|]. apply list_elem_of_singleton in Hin as ->. cbn in Hk. subst.
  rewrite (Hl c') in Ew by by left. congruence.
Qed.

Lemma killq_from_skips key c conns now q : conns !! key = Some c -> will_expire c now = false ->
  killq_from_conn_map o conns now = Ret q -> ~ awaits key q.
Proof.
  intros Ek Hw (q1 & E1 & [= <-])%bind_Ret_inv (it & Hin & Hk). cbn [kill_q] in Hin.
  rewrite (merge_sort_Permutation item_before) in Hin.
  apply (killq_fill_skips key c now _ [] q1 Hw) in E1; [by apply E1; exists it| |].
  - intros c'. rewrite (iter_perm o conns), elem_of_map_to_list. congruence.
  - intros (x & Hx & _). by apply not_elem_of_nil in Hx.
Qed.

(** A connection whose time has run out by the moment the queue of terminations is
    rebuilt is left out of the rebuilt queue, which may then count as in step; and a connection whose
    time has run out and which is not in the queue survives making room for new ones,
    unchanged and still not in the queue, however often that is done. *)
Theorem killq_misses_expired m m' now key c : conn_map m !! key = Some c -> has_expired c now = true ->
  (exists q, killq_from_conn_map o (conn_map m) now = Ret q /\ ~ awaits key q) /\
  (~ awaits key (killq m) -> sweep_killq o m now = Done m' ->
   conn_map m' !! key = Some c /\ ~ awaits key (killq m')).
Proof.
  intros Ek He. assert (Hw : will_expire c now = false) by (unfold has_expired, will_expire in *; destruct (expiry c); [lia|done]).
  split.
  - destruct (killq_from_ok o (conn_map m) now) as (q & Eq & _). exists q. split; [done|]. by eapply killq_from_skips.
  - assert (Hloop : forall fuel m, conn_map m !! key = Some c -> ~ awaits key (killq m) -> forall m', sweep_loop o fuel m now = Done m' ->
      conn_map m' !! key = Some c /\ ~ awaits key (killq m')); [|intros Hq; by apply Hloop].
    induction fuel as [|fuel IH]; intros m1 E1 Hq m2; cbn [sweep_loop]; [done|].
    destruct (sweep_pops_skips key (length (kill_q (killq m1))) m1 now Hq) as [Es Hs]. rewrite E1 in Es.
    destruct (_ && _); [|by intros [= <-]]. intros (q & Eq%lift_Done_inv & E2)%bind_Done_inv.
    apply IH in E2; [done|done|]. cbn. by eapply killq_from_skips.
Qed.
End Live.

(** ** Asking for a port *)

Section Request.
Context {S : Type} `{Stream S}.
Implicit Types s : UnixStream S.

(** The bytes [l] are there to be read, in whatever pieces. *)
Inductive fed : list Z -> UnixStream S -> Prop :=
| fed_intro l s : (forall n, 0 < n <= Z.of_nat (length l) ->
    exists k s', (0 < k <= Z.to_nat n)%nat /\ read s n = (s', Ok (take k l)) /\ fed (drop k l) s') -> fed l s.

Lemma read_exact_fed fuel : forall n l s buf, fed l s -> (n <= fuel)%nat -> (n <= length l)%nat ->
  exists s', read_exact fuel s n buf = (s', Ok (buf ++ take n l)) /\ fed (drop n l) s'.
Proof.
  induction fuel as [|fuel IH]; intros n l s buf Hf Hn Hl.
  { destruct n; [|lia]. exists s. cbn. by rewrite app_nil_r. }
  destruct n as [|n]; [exists s; cbn; by rewrite app_nil_r|]. cbn [read_exact]. destruct Hf as [l s Hf].
  destruct (Hf (Z.of_nat (Datatypes.S n)) ltac:(lia)) as (k & s1 & Hk & -> & Hf1). rewrite Nat2Z.id in Hk.
  assert (Hlen : length (take k l) = k) by (rewrite length_take; lia).
  destruct (take k l) as [|x t] eqn:Et; [cbn in Hlen; lia|]. rewrite <-Et in *. rewrite Hlen.
  destruct (IH (Datatypes.S n - k)%nat (drop k l) s1 (buf ++ take k l) Hf1) as (s2 & -> & Hf2); [lia|rewrite length_drop; lia|].
  exists s2. rewrite <-app_assoc, take_drop_commute, drop_drop in *.
  replace (k + (Datatypes.S n - k))%nat with (Datatypes.S n) in * by lia. split; [|done].
  do 3 f_equal. rewrite <-(firstn_skipn k (take (Datatypes.S n) l)) at 2. f_equal. rewrite take_take. f_equal. lia.
Qed.

Lemma read_line_fed fuel : forall line rest s buf, fed (line ++ 10 :: rest) s -> (length line < fuel)%nat ->
  Forall (fun c => c <> 10) line -> last buf <> Some 10 ->
  exists s', read_line fuel s buf = (s', Ok (buf ++ line ++ [10])) /\ fed rest s'.
Proof.
  induction fuel as [|fuel IH]; intros line rest s buf Hf Hl Hline Hb; [lia|]. cbn [read_line].
  rewrite bool_decide_false by done.
  destruct (read_exact_fed 1 1 _ s buf Hf ltac:(lia)) as (s1 & -> & Hf1); [rewrite length_app; cbn; lia|].
  destruct line as [|c line]; cbn [app take drop] in *; rewrite take_0, drop_0 in *.
  - exists s1. split; [|done]. destruct fuel; [done|]. cbn [read_line]. by rewrite last_snoc, bool_decide_true.
  - inversion Hline as [|? ? Hc Hline']; subst. cbn [length] in Hl.
    destruct (IH line rest s1 (buf ++ [c]) Hf1 ltac:(lia) Hline') as (s2 & -> & Hf2).
    { rewrite last_snoc. congruence. }
    exists s2. by rewrite <-app_assoc.
Qed.

Lemma connect_chars w : to_lowercase w = text "connect" -> Forall (fun c => 65 <= c < 128) w /\ length w = 7%nat.
Proof.
  intros E. split; [|by rewrite <-(length_map (fun c => if between 65 c 90 then c + 32 else c)); unfold to_lowercase in E; rewrite E].
  unfold to_lowercase in E. assert (Ht : Forall (fun c => 97 <= c < 128) (text "connect")) by (apply (bool_decide_unpack _); vm_compute; done).
  rewrite <-E in Ht. rewrite Forall_map in Ht. eapply Forall_impl; [exact Ht|]. intros c. unfold compose, between.
  destruct (_ && _) eqn:Eb; lia.
Qed.

Lemma parse_request w port : to_lowercase w = text "connect" -> 0 <= port < 2 ^ 32 ->
  parse_port_request (w ++ 32 :: decimal port ++ [10]) = Ok port.
Proof.
  intros Ew Hp. destruct (connect_chars w Ew) as [Hw Hlen]. destruct (decimal_digits port) as [Hd Hne]; [lia|].
  unfold parse_port_request. rewrite from_utf8_ascii.
  2: { apply Forall_app. split; [eapply Forall_impl; [exact Hw|]; cbn; lia|]. constructor; [lia|].
       apply Forall_app. split; [eapply Forall_impl; [exact Hd|]; cbn; lia|]. repeat constructor; lia. }
  unfold split_whitespace. rewrite split_words_word.
  2: { eapply Forall_impl; [exact Hw|]. cbn. intros c Hc. unfold is_whitespace, between.
       repeat (rewrite (proj2 (Z.eqb_neq _ _)) by lia). lia. }
  cbn [split_words]. change (is_whitespace 32) with true. cbn iota. rewrite app_nil_l, bool_decide_false by by destruct w.
  rewrite split_words_word by (eapply Forall_impl; [exact Hd|]; apply digit_no_space).
  cbn [split_words app]. change (is_whitespace 10) with true. cbn iota. rewrite bool_decide_false by done.
  cbn [app]. by rewrite Ew, bool_decide_true, parse_decimal.
Qed.

(** A host that asks for a port as the documentation says is understood: when the
    socket gives the word CONNECT, in any mix of cases, a space, the decimal digits of a port and a
    newline, in pieces of any size, then the request is read as that port, and what follows
    the newline is left on the socket for the guest. *)
Theorem connect_request w port rest s : to_lowercase w = text "connect" -> 0 <= port < 2 ^ 32 ->
  fed (w ++ 32 :: decimal port ++ 10 :: rest) s ->
  exists s', read_local_stream_port s = (s', Ok port) /\ fed rest s'.
Proof.
  intros Ew Hp Hf. destruct (connect_chars w Ew) as [Hw Hlen]. destruct (decimal_digits port) as [Hd Hne]; [lia|].
  pose proof (decimal_length port) as Hdl. unfold read_local_stream_port, MIN_READ_LEN.
  destruct (decimal port) as [|d ds] eqn:Ed; [done|].
  set (line := w ++ [32; d]). assert (Hll : length line = 9%nat) by (unfold line; rewrite length_app; cbn; lia).
  assert (El : w ++ 32 :: (d :: ds) ++ 10 :: rest = line ++ ds ++ 10 :: rest) by (unfold line; by rewrite <-app_assoc).
  rewrite El in Hf. assert (Htd : forall x y, take 10 (line ++ x :: y) = line ++ [x] /\ drop 10 (line ++ x :: y) = y).
  { intros x y. rewrite take_app, drop_app, Hll, take_ge, drop_ge by lia. done. }
  destruct (read_exact_fed 10 10 _ s [] Hf) as (s1 & -> & Hf1); [lia|rewrite !length_app; cbn; lia|]. cbn [app].
  pose proof (parse_request w port Ew Hp) as Hpr. rewrite Ed in Hpr.
  assert (Hpl : parse_port_request (line ++ ds ++ [10]) = Ok port) by (rewrite <-Hpr; unfold line; by rewrite <-!app_assoc).
  destruct ds as [|d2 ds]; cbn [app] in *.
  - destruct (Htd 10 rest) as [Et Edr]. rewrite Et, Edr in *. exists s1. split; [|done]. cbn [read_line Nat.sub].
    rewrite last_snoc, bool_decide_true by done. by rewrite Hpl.
  - destruct (Htd d2 (ds ++ 10 :: rest)) as [Et Edr]. rewrite Et, Edr in *. inversion Hd as [|? ? _ Hd2]; subst.
    inversion Hd2 as [|? ? Hd2' Hds]; subst.
    destruct (read_line_fed (32 - 10) ds rest s1 (line ++ [d2]) Hf1) as (s2 & -> & Hf2); [cbn in *; lia| | |].
    + eapply Forall_impl; [exact Hds|]. cbn. lia.
    + rewrite last_snoc. intros [= ?]. lia.
    + exists s2. split; [|done]. rewrite <-app_assoc. cbn [app]. by rewrite Hpl.
Qed.
End Request.

(** ** Examples *)

Module Samples.
#[local] Existing Instance dev_profile.
#[local] Existing Instance open_stream.

(** An epoll instance that takes every socket. *)
#[export] Instance open_epoll : Epoll unit :=
  {| ctl_add e _ _ := (Ok tt, e); ctl_modify e _ _ := (Ok tt, e); ctl_delete e _ := (Ok tt, e);
     epoll_fd _ := 4 |}.

Abbreviation Sock := (list Z * list Z)%type.
Definition order : @Order Sock := mkOrder map_to_list (fun _ => reflexivity _).

Definition returned (e : outcome (@VsockMuxer Sock unit)) (m : @VsockMuxer Sock unit) : @VsockMuxer Sock unit :=
  match e with Done m => m | _ => m end.
Definition opened : @VsockMuxer Sock unit :=
  match VsockMuxer_new 3 (text "/v") (Ok 5) (Ok tt) with Ok m => m | Err _ => mkMuxer 0 ∅ ∅ rxq_new killq_new 0 [] tt ∅ 0 end.

(** The host connects to port 7 of the guest, and the guest accepts and sends data. *)
Definition sock : UnixStream Sock := mkStream 9 (text "CONNECT 7
", []).
Definition accepted_mux := returned (handle_event order opened 5 (true, false) (Ok sock) 0) opened.
Definition asked := returned (handle_event order accepted_mux 9 (true, false) (Err (Os OtherSystemError)) 0) opened.
Definition blank : VsockPacket := mkPacket 0 (mkHeader 0 0 0 0 0 0 0 0 0 0) None 0.
Definition mem : list Z := [104; 105].
Definition requested :=
  match muxer_recv_pkt order asked blank mem 0 with Done (_, m, _, _) => m | _ => opened end.
Definition from_guest (op len : Z) : VsockPacket :=
  mkPacket 0 (mkHeader 3 2 7 (2 ^ 30) len VSOCK_TYPE_STREAM op 0 65536 0) (if len =? 0 then None else Some 0) len.
Definition refused (path : list Z) : result (UnixStream Sock) IoError := Err (Os OtherSystemError).
Definition established := returned (muxer_send_pkt order requested (from_guest VSOCK_OP_RESPONSE 0) mem refused 1) opened.
Definition received := returned (muxer_send_pkt order established (from_guest VSOCK_OP_RW 2) mem refused 2) opened.
Definition key : ConnMapKey := mkKey (2 ^ 30) 7.

Lemma step_b (m : @VsockMuxer Sock unit) : kill_synced (killq m) = true -> in_step true true m.
Proof. done. Qed.

Lemma run_opened : mux_run (M := list Z) order true 0 opened ∅.
Proof. by apply (mr_new order true 0 3 (text "/v") 5 tt). Qed.
Lemma run_accepted : mux_run (M := list Z) order true 0 accepted_mux ∅.
Proof.
  replace ∅ with (history_after ∅ opened accepted_mux) by (vm_compute; reflexivity).
  apply (mr_event order true true 0 0 opened ∅ 5 (true, false) (Ok sock)); [exact run_opened|lia|by apply step_b| |].
  - intros st [= <-]. split; [done|]. split; [done|]. intros k c. vm_compute. done.
  - vm_compute. reflexivity.
Qed.
Lemma run_asked : mux_run (M := list Z) order true 0 asked {[key := ([], [])]}.
Proof.
  replace {[key := ([], [])]} with (history_after ∅ accepted_mux asked) by (vm_compute; reflexivity).
  apply (mr_event order true true 0 0 accepted_mux ∅ 9 (true, false) (Err (Os OtherSystemError)));
    [exact run_accepted|lia|by apply step_b|done|].
  vm_compute. reflexivity.
Qed.
Lemma run_requested : mux_run (M := list Z) order true 0 requested {[key := ([], [])]}.
Proof.
  apply (mr_recv order true true 0 0 asked _ blank mem (Ok tt) requested
    (match muxer_recv_pkt order asked blank mem 0 with Done (_, _, p, _) => p | _ => blank end) mem);
    [exact run_asked|lia|by apply step_b|].
  vm_compute. reflexivity.
Qed.
Lemma run_established : mux_run (M := list Z) order true 1 established {[key := ([], [])]}.
Proof.
  replace {[key := ([], [])]} with (history_after (sent_history {[key := ([], [])]} requested (from_guest VSOCK_OP_RESPONSE 0) [])
    requested established) by (vm_compute; reflexivity).
  apply (mr_send order true true 0 1 requested _ (from_guest VSOCK_OP_RESPONSE 0) mem [] refused);
    [exact run_requested|lia|by apply step_b|by left|done| |].
  - intros _ c. vm_compute. by intros [= <-].
  - vm_compute. reflexivity.
Qed.
Lemma run_received : mux_run (M := list Z) order true 2 received {[key := ([], [104; 105])]}.
Proof.
  replace {[key := ([], [104; 105])]} with (history_after (sent_history {[key := ([], [])]} established (from_guest VSOCK_OP_RW 2) mem)
    established received) by (vm_compute; reflexivity).
  apply (mr_send order true true 1 2 established _ (from_guest VSOCK_OP_RW 2) mem mem refused);
    [exact run_established|lia|by apply step_b| |done|done|].
  - right. exists 0. by vm_compute.
  - vm_compute. reflexivity.
Qed.

Lemma muxer_streams_witness :
  (exists c, conn_map received !! key = Some c /\ accepted (stream c) = text "OK 1073741824
" ++ [104; 105]) /\
  (forall k c, conn_map received !! k = Some c -> stream_of {[key := ([], [104; 105])]} k c).
Proof.
  split; [eexists; split; vm_compute; reflexivity|].
  exact (proj1 (muxer_streams (M := list Z) order true 2 received _ run_received)).
Defined.

Lemma rx_never_lost_witness :
  exists m' p' mem', muxer_recv_pkt order asked blank mem 0 = Done (Ok tt, m', p', mem') /\ packet_out asked m' p'.
Proof.
  eexists _, _, _. split; [vm_compute; reflexivity|].
  refine (proj2 (rx_never_lost (M := list Z) order true 0 asked _ 0 blank mem (Ok tt) _ _ _ run_asked _ _));
    [lia|vm_compute; reflexivity].
Defined.

Lemma muxer_owns_witness : key_local_port key ∈ local_port_set received.
Proof.
  destruct (muxer_owns (M := list Z) order true 2 received _ run_received) as (_ & Hk & _).
  assert (E : exists c, conn_map received !! key = Some c) by (eexists; vm_compute; reflexivity).
  destruct E as [c E]. apply (Hk key c E). cbn. lia.
Defined.

Lemma expired_killed_witness : exists m' c, sweep_killq order requested 3000 = Done m' /\
  conn_map requested !! key = Some c /\ state c = LocalInit /\ conn_map m' !! key = Some (kill c).
Proof.
  destruct (expired_killed (M := list Z) order 0 requested _ 3000 run_requested) as (m' & E & Hk);
    [vm_compute; reflexivity|lia|].
  eexists m', _. split; [exact E|]. split; [vm_compute; reflexivity|]. split; [reflexivity|].
  eapply (proj1 (Hk key _ ltac:(vm_compute; reflexivity))); [vm_compute; reflexivity|lia|discriminate].
Defined.

(** The queue of terminations was lost, and rebuilt too late. *)
Lemma killq_misses_expired_witness :
  let m := with_killq requested (mkKillQ [] false) in
  exists m' c, sweep_killq order m 3000 = Done m' /\ kill_synced (killq m') = true /\
    conn_map m' !! key = Some c /\ has_expired c 3000 = true /\ state c = LocalInit.
Proof.
  intros m. eexists _, _. split; [vm_compute; reflexivity|]. split; [reflexivity|]. split.
  - eapply (proj2 (killq_misses_expired order m _ 3000 key _ ltac:(vm_compute; reflexivity) ltac:(vm_compute; reflexivity)));
      [|vm_compute; reflexivity]. intros (it & Hin & _). by apply not_elem_of_nil in Hin.
  - by split.
Defined.

Lemma fed_open fd w n : forall l, (length l <= n)%nat -> bytes_ok l -> fed l (mkStream fd (l, w)).
Proof.
  induction n as [|n IH]; intros l Hl Hb; constructor; intros k Hk; [lia|].
  exists (Z.to_nat k), (mkStream fd (drop (Z.to_nat k) l, w)). split; [lia|]. split.
  - cbn. do 2 f_equal. rewrite <-(map_id (take _ l)) at 2. apply map_ext_in. intros b Hin%list_elem_of_In.
    apply Z.mod_small. apply (proj1 (Forall_forall _ _) Hb). by apply subseteq_take in Hin.
  - apply IH; [rewrite length_drop; lia|by apply Forall_drop].
Qed.

Lemma connect_request_witness : exists s', read_local_stream_port sock = (s', Ok 7) /\ fed [] s'.
Proof.
  apply (connect_request (text "CONNECT") 7 [] sock); [reflexivity|lia|].
  apply (fed_open 9 [] 10); [vm_compute; lia|]. apply (bool_decide_unpack _). vm_compute. exact I.
Defined.
End Samples.
