(* ===== verification/VirtioPersist.v ===== *)
(** * Snapshots of virtio devices

    Models [devices/src/virtio/persist.rs]: the state that is kept of a queue, of a device
    and of a transport, and how queues are checked and built when a snapshot is restored.
    The interrupt status, which a device shares with its transport, is an argument. The
    lemmas say when what was saved is restored ([queues_restored]) and that a state which
    is accepted has queues that the device can use ([build_queues_flat]). *)

From Stdlib Require Import ZArith Lia.
From stdpp Require Import functions prelude.
From S2P Require Import Prelude GuestMemory VirtioQueue Mmio.

Definition VIRTIO_RING_F_EVENT_IDX : Z := 29.

Record QueueState := mkQueueState {
  qs_max_size : Z;
  qs_size : Z;
  qs_ready : bool;
  qs_desc_table : Z;
  qs_avail_ring : Z;
  qs_used_ring : Z;
  qs_next_avail : Z;
  qs_next_used : Z;
  qs_num_added : Z
}.

Definition queue_save (q : Queue) : QueueState :=
  mkQueueState (max_size q) (q_size q) (ready q) (desc_table q) (avail_ring q) (used_ring q)
    (next_avail q) (next_used q) (num_added q).

Definition queue_restore (s : QueueState) : Queue :=
  mkQueue (qs_max_size s) (qs_size s) (qs_ready s) (qs_desc_table s) (qs_avail_ring s) (qs_used_ring s)
    (qs_next_avail s) (qs_next_used s) false (qs_num_added s).

Record VirtioDeviceState := mkDeviceState {
  ds_device_type : Z;
  ds_avail_features : Z;
  ds_acked_features : Z;
  ds_queues : list QueueState;
  ds_interrupt_status : Z;
  ds_activated : bool
}.

Record MmioTransportState := mkTransportState {
  ts_features_select : Z;
  ts_acked_features_select : Z;
  ts_queue_select : Z;
  ts_device_status : Z;
  ts_config_generation : Z
}.

Section Persist.
Context {M : Type} `{GuestMemory M} `{Profile}.
Implicit Types m : M.

(** [self.acked_features & 1u64 << VIRTIO_RING_F_EVENT_IDX != 0] *)
Definition uses_suppression (acked : Z) : bool := negb (Z.land acked (Z.shiftl 1 VIRTIO_RING_F_EVENT_IDX) =? 0).

Definition build_queue (suppress : bool) (s : QueueState) : Queue :=
  let queue := queue_restore s in if suppress then enable_notif_suppression queue else queue.

(** The checks on each queue, in order. *)
Fixpoint check_queues (l : list Queue) m (activated : bool) (expected_queue_max_size : Z) : exec bool :=
  match l with
  | [] => Ret true
  | q :: l =>
      if negb (max_size q =? expected_queue_max_size) || (expected_queue_max_size <? q_size q) then Ret false
      else
        valid ← (if activated then Queue_is_valid q m else Ret true);
        if valid : bool then check_queues l m activated expected_queue_max_size else Ret false
  end.

Definition build_queues_checked (s : VirtioDeviceState) m (expected_device_type : Z) (expected_num_queues : nat)
    (expected_queue_max_size : Z) : exec (result (list Queue) unit) :=
  if negb (ds_device_type s =? expected_device_type) ||
     negb (Z.land (ds_acked_features s) (unot 64 (ds_avail_features s)) =? 0) ||
     negb (length (ds_queues s) =? expected_num_queues)%nat
  then Ret (Err tt)
  else
    let queues := map (build_queue (uses_suppression (ds_acked_features s))) (ds_queues s) in
    ok ← check_queues queues m (ds_activated s) expected_queue_max_size;
    Ret (if ok : bool then Ok queues else Err tt).

Context {D : Type} `{VirtioDevice D M}.

Definition from_device (d : D) (interrupt_status : Z) : VirtioDeviceState :=
  mkDeviceState (device_type d) (avail_features d) (acked_features d) (map queue_save (queues d)) interrupt_status (is_activated d).

Definition transport_save (t : @MmioTransport M D) : MmioTransportState :=
  mkTransportState (features_select t) (acked_features_select t) (queue_select t) (device_status t) (config_generation t).

(** [irq_status] is the device's. *)
Definition transport_restore m (d : D) (irq_status : Z) (s : MmioTransportState) : @MmioTransport M D :=
  let transport := MmioTransport_new m d irq_status in
  mkMmio (device transport) (ts_features_select s) (ts_acked_features_select s) (ts_queue_select s) (ts_device_status s)
    (ts_config_generation s) (mem transport) (interrupt_status transport).

(** ** Theorems *)

Lemma build_queue_save suppress q : uses_notif_suppression q = suppress -> build_queue suppress (queue_save q) = q.
Proof. intros <-. unfold build_queue, enable_notif_suppression. destruct q as [? ? ? ? ? ? ? ? [] ?]; done. Qed.

Lemma check_queues_all l m activated n : Forall (fun q => max_size q = n /\ q_size q <= n) l ->
  check_queues l m activated n = if activated then all_valid l m else Ret true.
Proof.
  induction 1 as [|q l [Hm Hs] _ IH]; cbn [check_queues all_valid]; [by destruct activated|].
  rewrite Hm, Z.eqb_refl, (proj2 (Z.ltb_ge _ _)) by done. cbn [negb orb]. rewrite IH. by destruct activated.
Qed.

Lemma land_unot a b : in_range 64 a -> subfeatures a b -> Z.land a (unot 64 b) = 0.
Proof.
  intros Ha Hs. apply Z.bits_inj'. intros n Hn. rewrite Z.bits_0, Z.land_spec, unot_testbit by done.
  destruct (Z.testbit a n) eqn:Ea; [|done]. by rewrite (Hs n Hn Ea), andb_false_r.
Qed.

(** What was saved of a device is restored: its queues are the same, whatever they were
    used for before, provided the device kept to what it announced; the answer depends on
    the sizes and, if the device was activated, on the queues being valid. *)
Lemma queues_restored (d : D) irq m n : subfeatures (acked_features d) (avail_features d) -> in_range 64 (acked_features d) ->
  Forall (fun q => max_size q = n /\ uses_notif_suppression q = uses_suppression (acked_features d)) (queues d) ->
  build_queues_checked (from_device d irq) m (device_type d) (length (queues d)) n =
    (ok ← check_queues (queues d) m (is_activated d) n; Ret (if ok : bool then Ok (queues d) else Err tt)).
Proof.
  intros Hs Hr Hq. unfold build_queues_checked. cbn [from_device ds_device_type ds_acked_features ds_avail_features ds_queues ds_activated].
  rewrite Z.eqb_refl, land_unot, length_map, Nat.eqb_refl by done. cbn [negb orb Z.eqb].
  assert (E : map (build_queue (uses_suppression (acked_features d))) (map queue_save (queues d)) = queues d).
  { rewrite map_map. transitivity (map id (queues d)); [|apply map_id]. apply map_ext_in. intros q Hin%list_elem_of_In.
    apply build_queue_save. by apply (proj1 (Forall_forall _ _) Hq q Hin). }
  by rewrite E.
Qed.

Lemma check_queues_oversized l m n : Exists (fun q => n < q_size q) l -> check_queues l m false n = Ret false.
Proof.
  induction 1 as [q l Hq|q l _ IH]; cbn [check_queues].
  - rewrite (proj2 (Z.ltb_lt _ _)) by done. by rewrite orb_true_r.
  - destruct (_ || _); [done|]. by rewrite bind_Ret.
Qed.

(** The fields the driver or the rings determine fit their types. *)
Record queue_ranges (q : Queue) : Prop := {
  qr_size : in_range 16 (q_size q);
  qr_desc : in_range 64 (desc_table q);
  qr_avail : in_range 64 (avail_ring q);
  qr_used : in_range 64 (used_ring q);
  qr_next_avail : in_range 16 (next_avail q);
  qr_next_used : in_range 16 (next_used q);
  qr_num_added : in_range 16 (num_added q)
}.

Lemma queue_ok_ranges q m : queue_ok q m -> queue_ranges q.
Proof. intros []. split; try done; range_solve. Qed.

(** The checks return, and what they let through can be used. *)
Lemma check_queues_flat l m limit activated n : flat m limit -> 0 <= n <= 4096 -> Forall queue_ranges l ->
  exists b, check_queues l m activated n = Ret b /\
    (b = true -> Forall (fun q => max_size q = n) l /\ (activated = true -> Forall (fun q => queue_ok q m) l)).
Proof.
  intros Hf Hn. induction 1 as [|q l Hq _ IH]; cbn [check_queues]; [by eexists|].
  destruct (_ || _) eqn:E; [by eexists|]. apply orb_false_iff in E as [Em%negb_false_iff%Z.eqb_eq _].
  destruct IH as (b & Eb & Hb). destruct activated.
  - destruct (Queue_is_valid_flat q m limit Hf) as (v & -> & Hv); try apply Hq; [by rewrite Em|].
    rewrite bind_Ret. destruct v; [|by eexists]. eexists. split; [done|]. intros Ht. destruct (Hb Ht) as [Hsz Hok].
    split; [by constructor|]. intros _. constructor; auto.
  - rewrite bind_Ret. eexists. split; [done|]. intros Ht. destruct (Hb Ht) as [Hsz _]. by split; [constructor|].
Qed.

Lemma restore_ranges l : Forall queue_ranges l -> forall suppress, Forall queue_ranges (map (build_queue suppress) (map queue_save l)).
Proof. intros Hl suppress. rewrite map_map. apply Forall_map. eapply Forall_impl; [exact Hl|]. intros q []. by destruct suppress. Qed.

(** A state that was saved from well-typed queues is accepted or refused, without a panic;
    accepted, its queues are of the expected size and, if the device was activated, lie in
    guest memory. *)
Lemma build_queues_flat (d : D) irq m limit type num n : flat m limit -> 0 <= n <= 4096 -> Forall queue_ranges (queues d) ->
  exists r, build_queues_checked (from_device d irq) m type num n = Ret r /\
    forall l, r = Ok l -> length l = num /\ Forall (fun q => max_size q = n) l /\ Forall queue_ranges l /\
      Forall (fun q => uses_notif_suppression q = uses_suppression (acked_features d)) l /\
      (is_activated d = true -> Forall (fun q => queue_ok q m) l).
Proof.
  intros Hf Hn Hq. unfold build_queues_checked. destruct (_ || _) eqn:E; [by eexists|].
  apply orb_false_iff in E as [_ El%negb_false_iff%Nat.eqb_eq]. cbn [from_device ds_queues ds_activated ds_acked_features] in *.
  pose proof (restore_ranges _ Hq (uses_suppression (acked_features d))) as Hr.
  destruct (check_queues_flat _ m limit (is_activated d) n Hf Hn Hr) as (b & -> & Hb). rewrite bind_Ret.
  eexists. split; [done|]. intros l El'. destruct b; [|done]. injection El' as <-. destruct (Hb eq_refl) as [Hsz Hok].
  split; [by rewrite length_map|]. split; [done|]. split; [done|]. split; [|done]. apply Forall_map, Forall_true.
  intros s. unfold build_queue. by destruct (uses_suppression _).
Qed.

Lemma uses_suppression_sub a b : subfeatures a b -> uses_suppression b = false -> uses_suppression a = false.
Proof.
  unfold uses_suppression. rewrite Z.shiftl_1_l, !(land_bit _ 29) by done. intros Hs Hb.
  destruct (Z.testbit a 29) eqn:Ea; [|done]. by rewrite (Hs 29) in Hb.
Qed.
End Persist.
