(* ===== verification/VsockDevice.v ===== *)
(** * The vsock device

    Models [devices/src/virtio/vsock/device.rs] and [event_handler.rs]: the device that
    carries packets between the guest's queues and a backend, and the events it handles.
    The backend is an interface, [VsockBackend] (the traits of [vsock/mod.rs]), with what
    the device relies on in [BackendLaws]; the multiplexer of [VsockMuxer] implements it
    in [VsockService].

    The loops that walk a queue get a bound on the number of rounds, because a guest that
    keeps the available index moving keeps them busy; [serve_in_order] says when they end. What
    the world decides during a call (the clock, the sockets) is an argument of type [W], one
    per call of the backend; whether reading or writing an event descriptor succeeds is an
    argument too.  Requests to the event manager are returned as a list.  Log messages and
    metrics are left out. *)

From Stdlib Require Import ZArith Lia.
From stdpp Require Import functions prelude.
From S2P Require Import Prelude GuestMemory VirtioQueue QueueRuns Mmio VsockPacket.

Definition RXQ_INDEX : nat := 0.
Definition TXQ_INDEX : nat := 1.
Definition EVQ_INDEX : nat := 2.
Definition VIRTIO_VSOCK_EVENT_TRANSPORT_RESET : Z := 0.
Definition VIRTIO_F_IN_ORDER : Z := 35.
Definition VIRTIO_ID_VSOCK : Z := 19.
Definition NUM_QUEUES : nat := 3.
Definition QUEUE_SIZE : Z := 256.
Definition AVAIL_FEATURES : Z := Z.lor (Z.shiftl 1 VIRTIO_F_VERSION_1) (Z.shiftl 1 VIRTIO_F_IN_ORDER).

(** [VsockChannel] and [VsockEpollListener]; [EventSet] as whether it holds [IN] and
    [OUT]. *)
Class VsockBackend (W B M : Type) `{GuestMemory M} := {
  backend_recv : W -> B -> VsockPacket -> M ->
    outcome (result unit (VsockError GuestMemoryError) * B * VsockPacket * M);
  backend_send : W -> B -> VsockPacket -> M -> outcome (result unit (VsockError GuestMemoryError) * B);
  backend_pending : B -> bool;
  backend_notify : W -> B -> bool * bool -> outcome B;
  backend_evset : B -> bool * bool;
  backend_fd : B -> Z
}.

Record Vsock {B : Type} := mkVsock {
  v_cid : Z;
  v_queues : list Queue;
  queue_events : list Z;
  backend : B;
  v_avail_features : Z;
  v_acked_features : Z;
  irq_status : Z;
  activate_evt : Z;
  activated : bool
}.
Arguments Vsock : clear implicits.

Inductive DeviceError (G : Type) :=
| DevVsockError (e : VsockError G)
| FailedSignalingIrq.
Arguments DevVsockError {G} e.
Arguments FailedSignalingIrq {G}.

Section Device.
Context {W B M : Type} `{GuestRegions M} `{!VsockBackend W B M} `{Profile}.
Implicit Types (d : Vsock B) (m : M).

(** [events] are the descriptors of the events, [created] whether they could be made. *)
Definition with_queues (cid : Z) (b : B) (queues : list Queue) (events : list Z) (activate : Z) (created : bool)
    : option (Vsock B) :=
  if created then Some (mkVsock B cid queues (take (length queues) events) b AVAIL_FEATURES 0 0 activate false)
  else None.

Definition Vsock_new (cid : Z) (b : B) (events : list Z) (activate : Z) (created : bool) : option (Vsock B) :=
  with_queues cid b (replicate NUM_QUEUES (Queue_new QUEUE_SIZE)) events activate created.

Definition with_irq d (v : Z) : Vsock B :=
  mkVsock B (v_cid d) (v_queues d) (queue_events d) (backend d) (v_avail_features d) (v_acked_features d) v
    (activate_evt d) (activated d).
Definition with_parts d (l : list Queue) (b : B) : Vsock B :=
  mkVsock B (v_cid d) l (queue_events d) b (v_avail_features d) (v_acked_features d) (irq_status d)
    (activate_evt d) (activated d).

(** [irq_ok]: the interrupt's event descriptor could be written. *)
Definition signal_used_queue d (irq_ok : bool) : result unit (DeviceError GuestMemoryError) * Vsock B :=
  (if irq_ok then Ok tt else Err FailedSignalingIrq, with_irq d (trigger_irq (irq_status d) Vring)).

(** [self.device_state.mem().unwrap()]. *)
Definition device_mem d m : exec M := if activated d then Ret m else Panic.

(** [self.queues[i]]. *)
Definition queue_at d (i : nat) : exec Queue := unwrap (v_queues d !! i).

(** The body of the loop of [process_rx]: the length to report, if the buffer is used. *)
Definition rx_handle (w : W) (b : B) (head : DescriptorChain) m : outcome (option Z * B * M) :=
  p ← lift (from_rx_virtq_head m head);
  match p with
  | Ok pkt =>
      r ← backend_recv w b pkt m;
      match r with
      | (Ok _, b, pkt, m) =>
          match commit_hdr pkt m with
          | (Ok _, m) => used_len ← lift (uadd 32 VSOCK_PKT_HDR_SIZE (pkt_len pkt)); Done (Some used_len, b, m)
          | (Err _, m) => Done (Some 0, b, m)
          end
      | (Err _, b, _, m) => Done (None, b, m)
      end
  | Err _ => Done (Some 0, b, m)
  end.

(** The body of the loop of [process_tx]. *)
Definition tx_handle (w : W) (b : B) (head : DescriptorChain) m : outcome (option Z * B * M) :=
  p ← lift (from_tx_virtq_head m head);
  match p with
  | Ok pkt =>
      r ← backend_send w b pkt m;
      match r with
      | (Ok _, b) => Done (Some 0, b, m)
      | (Err _, b) => Done (None, b, m)
      end
  | Err _ => Done (Some 0, b, m)
  end.

(** The loops: chains are handled and returned in order until there is none, or until the
    backend refuses one, which is put back. *)
Fixpoint serve (handle : W -> B -> DescriptorChain -> M -> outcome (option Z * B * M)) (fuel : nat) (ws : nat -> W)
    (have_used : bool) (q : Queue) (b : B) m : outcome (bool * Queue * B * M) :=
  match fuel with
  | O => Hang
  | S fuel =>
      r ← lift (pop q m);
      match r with
      | (None, q) => Done (have_used, q, b, m)
      | (Some head, q) =>
          h ← handle (ws O) b head m;
          match h with
          | (None, b, m) => Done (have_used, undo_pop q, b, m)
          | (Some used_len, b, m) =>
              a ← lift (add_used q m (dc_index head) used_len);
              let '(_, q, m) := a in
              serve handle fuel (fun i => ws (S i)) true q b m
          end
      end
  end.

Definition process (handle : W -> B -> DescriptorChain -> M -> outcome (option Z * B * M)) (i : nat)
    (fuel : nat) (ws : nat -> W) d m : outcome (bool * Vsock B * M) :=
  m ← lift (device_mem d m);
  q ← lift (queue_at d i);
  r ← serve handle fuel ws false q (backend d) m;
  let '(have_used, q, b, m) := r in
  Done (have_used, with_parts d (<[i := q]> (v_queues d)) b, m).
Definition process_rx := process rx_handle RXQ_INDEX.
Definition process_tx := process tx_handle TXQ_INDEX.

Definition send_transport_reset_event d m (irq_ok : bool)
    : exec (result unit (DeviceError GuestMemoryError) * Vsock B * M) :=
  m ← device_mem d m;
  q ← queue_at d EVQ_INDEX;
  r ← pop q m;
  match r with
  | (None, q) => Ret (Err (DevVsockError EmptyQueue), with_parts d (<[EVQ_INDEX := q]> (v_queues d)) (backend d), m)
  | (Some head, q) =>
      let m := (write_obj 4 m VIRTIO_VSOCK_EVENT_TRANSPORT_RESET (dc_addr head)).2 in
      a ← add_used q m (dc_index head) (dc_len head);
      let '(_, q, m) := a in
      let d := with_parts d (<[EVQ_INDEX := q]> (v_queues d)) (backend d) in
      let '(s, d) := signal_used_queue d irq_ok in
      Ret (s, d, m)
  end.

(** ** Configuration *)

(** [byte_order::write_le_u32] and [write_le_u64] on a slice of that length. *)
Definition vsock_read_config d (offset : Z) (data : list Z) : list Z :=
  if (offset =? 0) && (length data =? 8)%nat then le_encode 8 (v_cid d)
  else if (offset =? 0) && (length data =? 4)%nat then le_encode 4 (Z.land (v_cid d) 0xffffffff)
  else if (offset =? 4) && (length data =? 4)%nat then le_encode 4 (Z.land (Z.shiftr (v_cid d) 32) 0xffffffff)
  else data.

(** [evt_ok]: the activation's event descriptor could be written. *)
Definition vsock_activate (evt_ok : bool) d : result unit unit * Vsock B :=
  if negb (length (v_queues d) =? NUM_QUEUES)%nat then (Err tt, d)
  else if negb evt_ok then (Err tt, d)
  else (Ok tt, mkVsock B (v_cid d) (v_queues d) (queue_events d) (backend d) (v_avail_features d)
                 (v_acked_features d) (irq_status d) (activate_evt d) true).

(** ** Events *)

(** [evset != EventSet::IN] *)
Definition is_in (evset : bool * bool) : bool := evset.1 && negb evset.2.

(** [read_ok]: the event's descriptor could be read. *)
Definition handle_rxq_event (fuel : nat) (ws : nat -> W) (evset : bool * bool) (read_ok : bool) d m
    : outcome (bool * Vsock B * M) :=
  if negb (is_in evset) then Done (false, d, m)
  else if negb read_ok then Done (false, d, m)
  else if backend_pending (backend d) then process_rx fuel ws d m
  else Done (false, d, m).

(** The second walk gets its own inputs. *)
Definition after_tx (fuel : nat) (ws : nat -> W) (r : bool * Vsock B * M) : outcome (bool * Vsock B * M) :=
  let '(raise_irq, d, m) := r in
  if backend_pending (backend d) then
    r ← process_rx fuel ws d m;
    let '(have_used, d, m) := r in
    Done (raise_irq || have_used, d, m)
  else Done (raise_irq, d, m).

Definition handle_txq_event (fuel : nat) (ws ws' : nat -> W) (evset : bool * bool) (read_ok : bool) d m
    : outcome (bool * Vsock B * M) :=
  if negb (is_in evset) then Done (false, d, m)
  else if negb read_ok then Done (false, d, m)
  else r ← process_tx fuel ws d m; after_tx fuel ws' r.

Definition handle_evq_event (evset : bool * bool) (read_ok : bool) d : bool := false.

Definition notify_backend (fuel : nat) (w : W) (ws ws' : nat -> W) (evset : bool * bool) d m
    : outcome (bool * Vsock B * M) :=
  b ← backend_notify w (backend d) evset;
  r ← process_tx fuel ws (with_parts d (v_queues d) b) m;
  after_tx fuel ws' r.

Definition event_at d (i : nat) : exec Z := unwrap (queue_events d !! i).

Definition register_runtime_events d : exec (list EventOp) :=
  rxq ← event_at d RXQ_INDEX;
  txq ← event_at d TXQ_INDEX;
  evq ← event_at d EVQ_INDEX;
  Ret [OpAdd rxq (true, false); OpAdd txq (true, false); OpAdd evq (true, false);
       OpAdd (backend_fd (backend d)) (backend_evset (backend d))].

Definition register_activate_event d : list EventOp := [OpAdd (activate_evt d) (true, false)].

Definition handle_activate_event d : exec (list EventOp) :=
  ops ← register_runtime_events d;
  Ret (ops ++ [OpRemove (activate_evt d)]).

(** What an event is handled with. *)
Record EventInput := mkInput {
  in_fuel : nat;
  in_notify : W;
  in_tx : nat -> W;
  in_rx : nat -> W;
  in_read_ok : bool;
  in_irq_ok : bool
}.

Definition process_event (source : Z) (evset : bool * bool) (i : EventInput) d m
    : outcome (Vsock B * M * list EventOp) :=
  rxq ← lift (event_at d RXQ_INDEX);
  txq ← lift (event_at d TXQ_INDEX);
  evq ← lift (event_at d EVQ_INDEX);
  if activated d then
    r ← (if source =? rxq then
           r ← handle_rxq_event (in_fuel i) (in_rx i) evset (in_read_ok i) d m; Done (r, [])
         else if source =? txq then
           r ← handle_txq_event (in_fuel i) (in_tx i) (in_rx i) evset (in_read_ok i) d m; Done (r, [])
         else if source =? evq then Done (handle_evq_event evset (in_read_ok i) d, d, m, [])
         else if source =? backend_fd (backend d) then
           r ← notify_backend (in_fuel i) (in_notify i) (in_tx i) (in_rx i) evset d m; Done (r, [])
         else if source =? activate_evt d then
           ops ← lift (handle_activate_event d); Done (false, d, m, ops)
         else Done (false, d, m, []));
    let '(raise_irq, d, m, ops) := r in
    Done (if raise_irq : bool then (signal_used_queue d (in_irq_ok i)).2 else d, m, ops)
  else Done (d, m, []).

Definition vsock_init d : exec (list EventOp) :=
  if activated d then register_runtime_events d else Ret (register_activate_event d).
End Device.

(** The device behind a transport; [evt_ok]: the activation's event descriptor can be
    written. The default [reset] does nothing and says so. *)
#[refine] Instance vsock_virtio {B M} (evt_ok : bool) : VirtioDevice (Vsock B) M := {|
  avail_features := v_avail_features;
  acked_features := v_acked_features;
  set_acked_features d v := mkVsock B (v_cid d) (v_queues d) (queue_events d) (backend d) (v_avail_features d) v
    (irq_status d) (activate_evt d) (activated d);
  device_type _ := VIRTIO_ID_VSOCK;
  queues := v_queues;
  set_queues d l := with_parts d l (backend d);
  is_activated := activated;
  activate d _ := vsock_activate evt_ok d;
  dev_reset d := (None, d);
  read_config := vsock_read_config;
  write_config d _ _ := d
|}.
Proof.
  all: try by intros. all: intros d m; unfold vsock_activate; by destruct (negb _), evt_ok.
Defined.

(** ** What the device relies on *)

(** The data buffer of a packet. *)
Definition buffer (p : VsockPacket) (x : Z) : Prop := exists a, buf_addr p = Some a /\ span a (buf_size p) x.

(** [b_inv T]: the states the backend can be in at time [T]; [b_world]: what the host may
    do during a call. In such a state no call panics, and a packet is received
    into its buffer. *)
Class BackendLaws (W B M : Type) `{VsockBackend W B M} `{!GuestRegions M} `{Profile} := {
  b_inv : Z -> B -> Prop;
  b_time : W -> Z;
  b_world : W -> Prop;
  b_inv_later T T' b : b_inv T b -> T <= T' -> b_inv T' b;
  backend_recv_ok T w b p (m : M) : b_inv T b -> T <= b_time w -> b_world w ->
    exists r b' p' m', backend_recv w b p m = Done (r, b', p', m') /\ b_inv (b_time w) b' /\
      hdr_addr p' = hdr_addr p /\ buf_addr p' = buf_addr p /\ buf_size p' = buf_size p /\
      (0 <= pkt_len p -> 0 <= pkt_len p') /\ agrees (buffer p) m m';
  backend_send_ok T w b c p (m : M) : b_inv T b -> T <= b_time w -> b_world w -> tx_packet m c p ->
    exists r b', backend_send w b p m = Done (r, b') /\ b_inv (b_time w) b';
  backend_notify_ok T w b ev : b_inv T b -> T <= b_time w -> b_world w ->
    backend_notify w b ev <> Crash /\ forall b', backend_notify w b ev = Done b' -> b_inv (b_time w) b'
}.

(** ** Memory *)

Section Agrees.
Context {M : Type} `{GuestMemory M}.
Implicit Types m : M.

Lemma agrees_queue F q m m' : agrees F m m' -> queue_ok q m -> queue_ok q m'.
Proof. intros [_ B] Hq. by apply (queue_ok_mem q m). Qed.
End Agrees.

(** ** Whatever the guest does *)

(** What the world decides during calls between [T] and [U]. *)
Definition worlds {W B M} `{BackendLaws W B M} (T : Z) (ws : nat -> W) (U : Z) : Prop :=
  (forall i, T <= b_time (ws i) <= U /\ b_world (ws i)) /\ forall i, b_time (ws i) <= b_time (ws (S i)).

(** The addresses the handling of a chain may write. *)
Definition tx_area {M} (m : M) (head : DescriptorChain) (x : Z) : Prop := False.
Definition rx_area {M} `{GuestMemory M} `{Profile} (m : M) (head : DescriptorChain) (x : Z) : Prop :=
  span (dc_addr head) VSOCK_PKT_HDR_SIZE x \/
  exists d, next_descriptor m head = Ret (Some d) /\ span (dc_addr d) (dc_len d) x.

Section Safe.
Context {W B M : Type} `{BackendLaws W B M}.
Implicit Types (d : Vsock B) (m : M) (q : Queue) (ws : nat -> W).

Lemma worlds_rest T ws U : worlds T ws U -> worlds (b_time (ws O)) (fun i => ws (S i)) U.
Proof.
  intros [Hw Hm]. split; [|done]. intros i. destruct (Hw (S i)) as [[_ Hu] Hb]. split; [|done]. split; [|done].
  clear Hu Hb. induction i as [|i IH]; [apply Hm|]. etrans; [apply IH|apply Hm].
Qed.

(** A handler that keeps the invariant and writes only where it may. *)
Definition handles (area : M -> DescriptorChain -> Z -> Prop) (handle : W -> B -> DescriptorChain -> M -> outcome (option Z * B * M)) : Prop :=
  forall T w b head m, b_inv T b -> T <= b_time w -> b_world w -> in_range 16 (dc_ttl head) ->
    exists r b' m', handle w b head m = Done (r, b', m') /\ b_inv (b_time w) b' /\ agrees (area m head) m m' /\
      forall l, r = Some l -> in_range 32 l.

Lemma tx_handles : handles tx_area tx_handle.
Proof.
  intros T w b head m Hi HT Hw Ht. unfold tx_handle.
  destruct (from_tx_virtq_head_exact m head (mkPacket 0 default_header None 0) Ht) as ([p|e] & E & _); rewrite E; cbn [lift]; rewrite bind_Done.
  - destruct (from_tx_virtq_head_exact m head p Ht) as (r & E1 & Hp). rewrite E in E1. injection E1 as <-.
    destruct (backend_send_ok T w b head p m Hi HT Hw (proj1 Hp eq_refl)) as (r & b' & -> & Hi'). rewrite bind_Done.
    destruct r; do 3 eexists; (split; [done|]); (split; [done|]); (split; [apply agrees_refl|]); [intros l [= <-]; range_solve|done].
  - do 3 eexists. split; [done|]. split; [by apply (b_inv_later T)|]. split; [apply agrees_refl|]. intros l [= <-]. range_solve.
Qed.

Lemma commit_agrees p m : let '(r, m') := commit_hdr p m in
  agrees (span (hdr_addr p) VSOCK_PKT_HDR_SIZE) m m' /\ (r = Ok tt -> pkt_len p <= MAX_PKT_BUF_SIZE) \/
  ~ backed m (hdr_addr p) VSOCK_PKT_HDR_SIZE.
Proof.
  unfold commit_hdr, check_len. destruct (Z.ltb_spec MAX_PKT_BUF_SIZE (pkt_len p)) as [Hl|Hl].
  { left. split; [apply agrees_refl|done]. }
  pose proof (header_bytes_ok (hdr p)) as Hok. pose proof (length_header_bytes (hdr p)) as Hlen.
  pose proof (write_byte_at m (hdr_addr p) (header_bytes (hdr p))) as Hx.
  pose proof (write_succeeds m (hdr_addr p) (header_bytes (hdr p)) Hok) as Hs.
  pose proof (fun x => write_mapped m (hdr_addr p) (header_bytes (hdr p)) x Hok) as Hm.
  destruct (write_bytes m (hdr_addr p) (header_bytes (hdr p))) as [[[]|g] m'] eqn:Ew; cbn [fst snd] in *.
  - left. split; [|done]. split; [|done]. intros x Hn. rewrite Hx, Hlen by done. unfold span in Hn.
    change (Z.of_nat (Z.to_nat VSOCK_PKT_HDR_SIZE)) with VSOCK_PKT_HDR_SIZE.
    destruct (Z.leb_spec (hdr_addr p) x), (Z.ltb_spec x (hdr_addr p + VSOCK_PKT_HDR_SIZE)); try done. lia.
  - right. intros Hb. destruct Hs as [_ Hs]. discriminate Hs. intros i Hi. apply Hb. rewrite Hlen in Hi.
    unfold VSOCK_PKT_HDR_SIZE in *. lia.
Qed.

Lemma rx_handles : handles rx_area rx_handle.
Proof.
  intros T w b head m Hi HT Hw Ht. unfold rx_handle.
  destruct (from_rx_virtq_head_ok m head (mkPacket 0 default_header None 0) Ht) as ([p|e] & E & _); rewrite E; cbn [lift]; rewrite bind_Done.
  2: { do 3 eexists. split; [done|]. split; [by apply (b_inv_later T)|]. split; [apply agrees_refl|]. intros l [= <-]. range_solve. }
  destruct (from_rx_virtq_head_ok m head p Ht) as (r & E1 & Hp). rewrite E in E1. injection E1 as <-.
  destruct (Hp eq_refl) as (_ & Hbk & _ & Ha & Hh & d & Ed & _ & Eba & Ebs & _).
  destruct (backend_recv_ok T w b p m Hi HT Hw) as (r & b' & p' & m' & -> & Hi' & Eha & _ & _ & Hlen & Hag). rewrite bind_Done.
  assert (Hag' : agrees (rx_area m head) m m').
  { apply (agrees_weaken (buffer p)); [|done]. intros x (a & Ea & Hx). right. exists d. rewrite Eba in Ea. injection Ea as <-.
    by rewrite <-Ebs. }
  destruct r as [[]|e].
  2: { do 3 eexists. split; [done|]. split; [done|]. split; [done|]. done. }
  pose proof (commit_agrees p' m') as Hc. destruct (commit_hdr p' m') as [r m2]. destruct Hc as [[Hc Hl]|Hc].
  2: { destruct Hc. rewrite Eha, Ha. by apply (agrees_backed _ m m' _ _ Hag'). }
  assert (Hag2 : agrees (rx_area m head) m m2).
  { apply (agrees_trans _ m m' m2); [done|]. eapply agrees_weaken; [|exact Hc]. intros x Hx. left. by rewrite <-Ha, <-Eha. }
  destruct r as [[]|e].
  - assert (Hr : 0 <= pkt_len p' <= 65536). { split; [apply Hlen; unfold pkt_len; by rewrite Hh|by apply Hl]. }
    rewrite uadd_ok by (unfold VSOCK_PKT_HDR_SIZE; range_solve). cbn [lift]. rewrite bind_Done.
    do 3 eexists. split; [done|]. split; [done|]. split; [done|]. intros l [= <-]. unfold VSOCK_PKT_HDR_SIZE. range_solve.
  - do 3 eexists. split; [done|]. split; [done|]. split; [done|]. intros l [= <-]. range_solve.
Qed.

Lemma serve_safe area handle fuel : handles area handle -> forall ws T U hu q b m, worlds T ws U -> T <= U -> b_inv T b -> queue_ok q m ->
  serve handle fuel ws hu q b m <> Crash /\
  forall hu' q' b' m', serve handle fuel ws hu q b m = Done (hu', q', b', m') -> b_inv U b' /\ queue_ok q' m' /\
    (forall x, is_Some (byte_at m' x) <-> is_Some (byte_at m x)).
Proof.
  intros Hh. induction fuel as [|fuel IH]; intros ws T U hu q b m Hws HU Hi Hq; cbn [serve]; [done|].
  destruct (pop_spec q m Hq) as (idx & r & q1 & _ & -> & Hq1 & Hr). cbn [lift]. rewrite bind_Done. destruct r as [head|].
  2: { split; [done|]. intros hu' q' b' m' [= <- <- <- <-]. split; [by apply (b_inv_later T)|]. split; [done|done]. }
  destruct Hr as (_ & Hpc & _ & Hu). destruct (pending_fields q m _ head Hpc) as (_ & _ & Httl & Hix).
  destruct (proj1 Hws O) as [Ht Hwo].
  destruct (Hh T (ws O) b head m Hi) as (r & b1 & m1 & -> & Hi1 & Hag & Hlen); [lia|done|destruct Hq; range_solve|].
  rewrite bind_Done. destruct r as [l|].
  - pose proof (agrees_queue _ q1 m m1 Hag Hq1) as Hq1'.
    pose proof (add_used_spec q1 m1 (dc_index head) l Hq1' (proj1 Hix) (Hlen l eq_refl)) as Ha.
    assert (Es : q_size q1 = q_size q) by (rewrite <-Hu; done). rewrite Es, (proj2 (Z.ltb_lt _ _)) in Ha by apply Hix.
    destruct Ha as (q2 & m2 & Ea & Hq2 & _ & _ & _ & _ & Hfr). rewrite Ea. cbn [lift]. rewrite bind_Done.
    destruct (IH (fun i => ws (S i)) (b_time (ws O)) U true q2 b1 m2) as [Hn Hd];
      [by apply (worlds_rest T)|lia|done|done|]. split; [done|]. intros hu' q' b' m' E'.
    destruct (Hd _ _ _ _ E') as (? & ? & Hm). split; [done|]. split; [done|]. intros x. rewrite Hm, <-(proj2 Hag x).
    destruct (add_used_ok q1 m1 (dc_index head) l Hq1') as (_ & _ & _ & Ea'); [lia|]. rewrite Ea in Ea'. injection Ea' as _ ->.
    by rewrite !write_obj_mapped.
  - split; [done|]. intros hu' q' b' m' [= <- <- <- <-]. split; [by apply (b_inv_later (b_time (ws O))); [|lia]|].
    rewrite Hu. split; [by apply (agrees_queue _ q m m1 Hag)|]. apply Hag.
Qed.

(** A device between calls; its queues are in guest memory once it is activated. *)
Record device_ok (T : Z) d m : Prop := {
  do_backend : b_inv T (backend d);
  do_queues : length (v_queues d) = NUM_QUEUES;
  do_events : length (queue_events d) = NUM_QUEUES;
  do_ready : activated d = true -> Forall (fun q => queue_ok q m) (v_queues d)
}.

Lemma device_ok_mem T d m m' : device_ok T d m -> same_map m m' -> device_ok T d m'.
Proof.
  intros [Hb Hq He Hr] Hm. split; try done. intros Ha. eapply Forall_impl; [by apply Hr|]. intros q Hok.
  by apply (queue_ok_mem q m).
Qed.

Lemma device_ok_later T T' d m : T <= T' -> device_ok T d m -> device_ok T' d m.
Proof. intros HT [Hb Hq He Hr]. split; try done. by apply (b_inv_later T). Qed.

Lemma process_safe area handle i fuel ws T U d m : handles area handle -> (i < NUM_QUEUES)%nat -> worlds T ws U -> T <= U ->
  device_ok T d m -> activated d = true ->
  process handle i fuel ws d m <> Crash /\
  forall hu d' m', process handle i fuel ws d m = Done (hu, d', m') -> device_ok U d' m' /\ same_map m m' /\ activated d' = true.
Proof.
  intros Hh Hi Hws HU [Hb Hq He Hr] Ha. specialize (Hr Ha). unfold process, device_mem, queue_at. rewrite Ha. cbn [lift].
  rewrite bind_Done. destruct (lookup_lt_is_Some_2 (v_queues d) i) as [q Eq]; [by rewrite Hq|]. rewrite Eq. cbn [unwrap lift].
  rewrite bind_Done. pose proof (proj1 (Forall_lookup _ _) Hr i q Eq) as Hqok.
  destruct (serve_safe area handle fuel Hh ws T U false q (backend d) m Hws HU Hb Hqok) as [Hn Hd].
  destruct (serve handle fuel ws false q (backend d) m) as [[[[hu q'] b'] m']| |] eqn:Es; [|done|done].
  rewrite bind_Done. split; [done|]. intros hu1 d' m1 [= <- <- <-]. destruct (Hd _ _ _ _ eq_refl) as (Hi' & Hq' & Hm).
  split; [|by split]. split; cbn; [done|by rewrite length_insert|done|]. intros _. apply Forall_insert; [|done].
  eapply Forall_impl; [exact Hr|]. intros q0 Hq0. by apply (queue_ok_mem q0 m).
Qed.

Lemma after_tx_safe fuel ws T U hu d m : worlds T ws U -> T <= U -> device_ok T d m -> activated d = true ->
  after_tx fuel ws (hu, d, m) <> Crash /\
  forall hu' d' m', after_tx fuel ws (hu, d, m) = Done (hu', d', m') -> device_ok U d' m' /\ same_map m m' /\ activated d' = true.
Proof.
  intros Hws HU Hd Ha. unfold after_tx. destruct (backend_pending (backend d)).
  - destruct (process_safe _ _ RXQ_INDEX fuel ws T U d m rx_handles ltac:(unfold RXQ_INDEX, NUM_QUEUES; lia) Hws HU Hd Ha) as [Hn Ho].
    fold process_rx in *. destruct (process_rx fuel ws d m) as [[[hu1 d1] m1]| |]; [|done|done].
    rewrite bind_Done. split; [done|]. intros hu' d' m' [= <- <- <-]. by apply (Ho hu1).
  - split; [done|]. intros hu' d' m' [= <- <- <-]. split; [by apply (device_ok_later T)|by split].
Qed.

(** The inputs of an event that is handled between [T] and [U]. *)
Definition input_ok (T : Z) (i : EventInput) (U : Z) : Prop :=
  T <= b_time (in_notify i) /\ b_world (in_notify i) /\
  exists V, b_time (in_notify i) <= V <= U /\ worlds (b_time (in_notify i)) (in_tx i) V /\ worlds V (in_rx i) U.

Lemma tx_then_rx_safe fuel ws ws' T V U d m : worlds T ws V -> worlds V ws' U -> T <= V <= U -> device_ok T d m -> activated d = true ->
  (r ← process_tx fuel ws d m; after_tx fuel ws' r) <> Crash /\
  forall hu d' m', (r ← process_tx fuel ws d m; after_tx fuel ws' r) = Done (hu, d', m') -> device_ok U d' m' /\ same_map m m' /\ activated d' = true.
Proof.
  intros Hw1 Hw2 HV Hd Ha.
  destruct (process_safe _ _ TXQ_INDEX fuel ws T V d m tx_handles ltac:(unfold TXQ_INDEX, NUM_QUEUES; lia) Hw1 ltac:(lia) Hd Ha) as [Hn Ho].
  fold process_tx in *. destruct (process_tx fuel ws d m) as [[[hu1 d1] m1]| |]; [|done|done].
  destruct (Ho _ _ _ eq_refl) as (Hd1 & Hm1 & Ha1). rewrite bind_Done.
  destruct (after_tx_safe fuel ws' V U hu1 d1 m1 Hw2 ltac:(lia) Hd1 Ha1) as [Hn2 Ho2]. split; [done|].
  intros hu d' m' E. destruct (Ho2 _ _ _ E) as (Hd2 & Hm2 & Ha2). split; [done|]. split; [|done]. by apply (same_map_trans m m1).
Qed.

Lemma event_at_ok d T m i : device_ok T d m -> (i < NUM_QUEUES)%nat -> exists fd, event_at d i = Ret fd.
Proof.
  intros [_ _ He _] Hi. unfold event_at. destruct (lookup_lt_is_Some_2 (queue_events d) i) as [fd ->]; [by rewrite He|]. by eexists.
Qed.

Lemma register_ok d T m : device_ok T d m -> exists ops, register_runtime_events d = Ret ops.
Proof.
  intros Hd. unfold register_runtime_events.
  destruct (event_at_ok d T m RXQ_INDEX Hd) as [f1 ->]; [unfold RXQ_INDEX, NUM_QUEUES; lia|]. rewrite bind_Ret.
  destruct (event_at_ok d T m TXQ_INDEX Hd) as [f2 ->]; [unfold TXQ_INDEX, NUM_QUEUES; lia|]. rewrite bind_Ret.
  destruct (event_at_ok d T m EVQ_INDEX Hd) as [f3 ->]; [unfold EVQ_INDEX, NUM_QUEUES; lia|]. rewrite bind_Ret. by eexists.
Qed.

(** An answer that is no panic, and after which the device is as before. *)
Definition fine (U : Z) m (r : outcome (bool * Vsock B * M)) : Prop :=
  r <> Crash /\ forall hu d' m', r = Done (hu, d', m') -> device_ok U d' m' /\ same_map m m' /\ activated d' = true.

Lemma fine_done T U hu d m : T <= U -> device_ok T d m -> activated d = true -> fine U m (Done (hu, d, m)).
Proof. intros HU Hd Ha. split; [done|]. intros hu' d' m' [= <- <- <-]. split; [by apply (device_ok_later T)|by split]. Qed.

Lemma rxq_event_fine fuel ws evset ok T U d m : worlds T ws U -> T <= U -> device_ok T d m -> activated d = true ->
  fine U m (handle_rxq_event fuel ws evset ok d m).
Proof.
  intros Hw HU Hd Ha. unfold handle_rxq_event. destruct (negb _); [by apply (fine_done T)|]. destruct (negb _); [by apply (fine_done T)|].
  destruct (backend_pending _); [|by apply (fine_done T)].
  destruct (process_safe _ _ RXQ_INDEX fuel ws T U d m rx_handles ltac:(unfold RXQ_INDEX, NUM_QUEUES; lia) Hw HU Hd Ha) as [Hn Ho].
  by split.
Qed.

Lemma txq_event_fine fuel ws ws' evset ok T V U d m : worlds T ws V -> worlds V ws' U -> T <= V <= U -> device_ok T d m ->
  activated d = true -> fine U m (handle_txq_event fuel ws ws' evset ok d m).
Proof.
  intros Hw1 Hw2 HV Hd Ha. unfold handle_txq_event. destruct (negb _); [apply (fine_done T); [lia|done..]|].
  destruct (negb _); [apply (fine_done T); [lia|done..]|]. by apply (tx_then_rx_safe fuel ws ws' T V U).
Qed.

Lemma notify_backend_fine fuel w ws ws' evset T V U d m : T <= b_time w -> b_world w -> worlds (b_time w) ws V -> worlds V ws' U ->
  b_time w <= V <= U -> device_ok T d m -> activated d = true -> fine U m (notify_backend fuel w ws ws' evset d m).
Proof.
  intros HT Hw Hw1 Hw2 HV Hd Ha. unfold notify_backend.
  destruct (backend_notify_ok T w (backend d) evset (do_backend _ _ _ Hd) HT Hw) as [Hn Ho].
  destruct (backend_notify w (backend d) evset) as [b'| |]; [|done|done]. rewrite bind_Done.
  apply (tx_then_rx_safe fuel ws ws' (b_time w) V U); try done. destruct Hd as [Hb Hq He Hr]. split; try done. by apply Ho.
Qed.

Definition fine_ops (U : Z) m (r : outcome (bool * Vsock B * M * list EventOp)) : Prop :=
  r <> Crash /\ forall hu d' m' ops, r = Done (hu, d', m', ops) -> device_ok U d' m' /\ same_map m m' /\ activated d' = true.

Lemma fine_ops_done T U hu d m ops : T <= U -> device_ok T d m -> activated d = true -> fine_ops U m (Done (hu, d, m, ops)).
Proof. intros HU Hd Ha. split; [done|]. intros hu' d' m' ops' [= <- <- <- <-]. split; [by apply (device_ok_later T)|by split]. Qed.

Lemma fine_ops_lift U m r : fine U m r -> fine_ops U m (x ← r; Done (x, [])).
Proof.
  intros [Hn Ho]. destruct r as [[[hu d1] m1]| |]; [|done|done]. rewrite bind_Done. split; [done|].
  intros hu' d' m' ops [= <- <- <- <-]. by apply (Ho hu).
Qed.

Lemma process_event_safe source evset i T U d m : device_ok T d m -> input_ok T i U ->
  process_event source evset i d m <> Crash /\
  forall d' m' ops, process_event source evset i d m = Done (d', m', ops) -> device_ok U d' m' /\ same_map m m' /\ activated d' = activated d.
Proof.
  intros Hd (HT & Hw & V & HV & Hw1 & Hw2). unfold process_event.
  destruct (event_at_ok d T m RXQ_INDEX Hd) as [f1 ->]; [unfold RXQ_INDEX, NUM_QUEUES; lia|].
  destruct (event_at_ok d T m TXQ_INDEX Hd) as [f2 ->]; [unfold TXQ_INDEX, NUM_QUEUES; lia|].
  destruct (event_at_ok d T m EVQ_INDEX Hd) as [f3 ->]; [unfold EVQ_INDEX, NUM_QUEUES; lia|].
  cbn [lift]. rewrite !bind_Done. destruct (activated d) eqn:Ha.
  2: { split; [done|]. intros d' m' ops [= <- <- <-]. split; [apply (device_ok_later T); [lia|done]|by split]. }
  match goal with |- (mbind _ ?r) <> _ /\ _ => assert (Hr : fine_ops U m r); [|destruct r as [[[[hu d1] m1] ops]| |]; destruct Hr as [Hn Ho]] end.
  - repeat match goal with |- context [if source =? ?f then _ else _] => destruct (source =? f) end.
    + apply fine_ops_lift, (rxq_event_fine _ _ _ _ V); try done; [lia|]. apply (device_ok_later T); [lia|done].
    + apply fine_ops_lift, (txq_event_fine _ _ _ _ _ (b_time (in_notify i)) V); try done. by apply (device_ok_later T).
    + apply (fine_ops_done T); [lia|done..].
    + by apply fine_ops_lift, (notify_backend_fine _ _ _ _ _ T V).
    + unfold handle_activate_event. destruct (register_ok d T m Hd) as [ops ->]. rewrite bind_Ret. cbn [lift]. rewrite bind_Done.
      apply (fine_ops_done T); [lia|done..].
    + apply (fine_ops_done T); [lia|done..].
  - rewrite bind_Done. split; [done|]. intros d' m' ops' [= <- <- <-].
    destruct (Ho _ _ _ _ eq_refl) as ([Hb Hq He Hr] & Hm & Ha1). rewrite <-Ha1. split; [by destruct hu|]. split; [done|]. by destruct hu.
  - done.
  - done.
Qed.
End Safe.

(** ** A driver that keeps its buffers apart *)

Section InOrder.
Context {W B M : Type} `{BackendLaws W B M}.
Implicit Types (m : M) (q : Queue) (ws : nat -> W) (head : DescriptorChain).

Section Handler.
Variables (area : M -> DescriptorChain -> Z -> Prop) (handle : W -> B -> DescriptorChain -> M -> outcome (option Z * B * M)).

(** What is written while [n] chains are handled. *)
Definition touched q m (n : nat) (x : Z) : Prop :=
  used_area q x \/ exists i head, (i < n)%nat /\ chain q m i = Some head /\ area m head x.

(** The rings do not overlap, and no waiting chain's buffers overlap a ring or the
    buffers of another. *)
Record apart q m (n : nat) : Prop := {
  ap_used : forall x, used_area q x -> ~ rings q x;
  ap_area : forall i head x, (i < n)%nat -> chain q m i = Some head -> area m head x -> ~ rings q x /\ ~ used_area q x;
  ap_pair : forall i j head head' x, (i < j < n)%nat -> chain q m i = Some head -> chain q m j = Some head' ->
    area m head x -> ~ area m head' x
}.

(** The chains were handled one after the other, with the lengths returned; [P] holds of
    the memory before and after each. *)
Inductive served (P : DescriptorChain -> M -> M -> Prop) : (nat -> W) -> B -> list (DescriptorChain * Z) -> B -> Prop :=
| served_nil ws b : served P ws b [] b
| served_cons ws b head len l b1 b2 m1 m2 : P head m1 m2 -> handle (ws O) b head m1 = Done (Some len, b1, m2) ->
    served P (fun i => ws (S i)) b1 l b2 -> served P ws b ((head, len) :: l) b2.

(** Why it ended: no chain is left that can be taken, or the next one was refused. *)
Definition ended q m (n : nat) ws (k : nat) (bk b' : B) (m' : M) : Prop :=
  (k = n \/ (k < n)%nat /\ chain q m k = None) /\ b' = bk \/
  exists head mk, (k < n)%nat /\ chain q m k = Some head /\ agrees (touched q m n) m mk /\
    handle (ws k) bk head mk = Done (None, b', m').

Record in_order ws (hu : bool) q b m (n : nat) (ls : list (DescriptorChain * Z)) (hu' : bool) q' (b' : B) m' : Prop := {
  io_len : (length ls <= n)%nat;
  io_chains : forall i head len, ls !! i = Some (head, len) -> chain q m i = Some head;
  io_queue : q' = advance q (length ls);
  io_entries : forall i head len, ls !! i = Some (head, len) ->
    used_entry q m' (next_used q + Z.of_nat i) = (Some (dc_index head), Some len);
  io_older : forall j, Z.of_nat (length ls) <= j < q_size q -> used_entry q m' (next_used q + j) = used_entry q m (next_used q + j);
  io_index : read_obj 2 m' (used_ring q + 2) =
    if bool_decide (ls = []) then read_obj 2 m (used_ring q + 2) else Some (next_used q');
  io_used : hu' = hu || negb (bool_decide (ls = []));
  io_frame : agrees (touched q m n) m m';
  io_backend : exists bk, ended q m n ws (length ls) bk b' m' /\
    served (fun head m1 m2 => agrees (touched q m n) m m1 /\ forall x, area m head x -> byte_at m' x = byte_at m2 x) ws b ls bk
}.

Lemma served_impl (P Q : DescriptorChain -> M -> M -> Prop) ws b l b' : served P ws b l b' ->
  (forall head len m1 m2, (head, len) ∈ l -> P head m1 m2 -> Q head m1 m2) -> served Q ws b l b'.
Proof.
  induction 1 as [|ws b head len l b1 b2 m1 m2 HP Eh _ IH]; intros Hi; [constructor|].
  apply (served_cons Q ws b head len l b1 b2 m1 m2); [|done|].
  - apply (Hi head len); [by left|done].
  - apply IH. intros h len' ma mb Hin. apply (Hi h len'). by right.
Qed.

Lemma in_order_nil ws hu q b b' m m' n : queue_ok q m -> (forall x, used_area q x -> ~ rings q x) ->
  (forall head x, (0 < n)%nat -> chain q m 0 = Some head -> area m head x -> ~ used_area q x) ->
  (m' = m /\ b' = b /\ (n = O \/ (0 < n)%nat /\ chain q m 0 = None) \/
   exists head, (0 < n)%nat /\ chain q m 0 = Some head /\ agrees (area m head) m m' /\ handle (ws O) b head m = Done (None, b', m')) ->
  in_order ws hu q b m n [] hu q b' m'.
Proof.
  intros Hq Hap Har Hc. assert (Hag : agrees (touched q m n) m m').
  { destruct Hc as [(-> & _)|(head & Hn & Eh & Ha & _)]; [apply agrees_refl|]. eapply agrees_weaken; [|exact Ha].
    intros x Hx. right. by exists O, head. }
  split; try done.
  - cbn. lia.
  - cbn [length]. by rewrite (advance_0 q m).
  - intros j _. destruct Hc as [(-> & _)|(head & Hn & Eh & Ha & _)]; [done|]. apply (entry_agrees (area m head) q m); [done..|].
    intros x Hx. by apply (Har head).
  - rewrite bool_decide_true by done. destruct Hc as [(-> & _)|(head & Hn & Eh & Ha & _)]; [done|]. pose proof (ok_size q m Hq). apply (agrees_read_obj _ m m' _ _ Ha).
    intros x Hx HF. apply (Har head x Hn Eh HF). unfold used_area, span in *. lia.
  - by rewrite orb_false_r.
  - exists b. split; [|constructor]. destruct Hc as [(-> & -> & Hs)|(head & Hn & Eh & Ha & E)]; [left|right].
    + split; [|done]. destruct Hs; [by left|by right].
    + exists head, m. split_and!; done || apply agrees_refl.
Qed.

Hypothesis area_agrees : forall F q m m' head i, queue_ok q m -> agrees F m m' -> (forall x, F x -> ~ rings q x) ->
  pending_chain q m i = Some head -> forall x, area m' head x <-> area m head x.

Lemma apart_S q m m2 n F : queue_ok q m -> agrees F m m2 -> (forall x, F x -> ~ rings q x) -> apart q m (S n) -> apart (advance q 1) m2 n.
Proof.
  intros Hq Ha Hd [Hu Har Hp]. split.
  - exact Hu.
  - intros i head x Hi Ec Hx. rewrite (chain_S q m m2 i F) in Ec by done.
    apply (area_agrees F q m m2 head _ Hq Ha Hd Ec) in Hx. apply (Har (S i) head x); [lia|done|done].
  - intros i j head head' x Hij Ei Ej Hx Hx'. rewrite (chain_S q m m2 i F) in Ei by done. rewrite (chain_S q m m2 j F) in Ej by done.
    apply (area_agrees F q m m2 head _ Hq Ha Hd Ei) in Hx. apply (area_agrees F q m m2 head' _ Hq Ha Hd Ej) in Hx'.
    apply (Hp (S i) (S j) head head' x); [lia|done..].
Qed.

Lemma touched_S q m m2 n F x : queue_ok q m -> agrees F m m2 -> (forall x, F x -> ~ rings q x) ->
  touched (advance q 1) m2 n x -> touched q m (S n) x.
Proof.
  intros Hq Ha Hd [Hx|(i & head & Hi & Ec & Hx)]; [by left|right]. rewrite (chain_S q m m2 i F) in Ec by done.
  exists (S i), head. split; [lia|]. split; [done|]. by apply (area_agrees F q m m2 head _ Hq Ha Hd Ec).
Qed.

(** Handling the first chain and returning it. *)
Record first_step q m (n : nat) head (len : Z) m1 m2 : Prop := {
  fs_ok : queue_ok q m;
  fs_apart : apart q m (S n);
  fs_size : (S n <= Z.to_nat (q_size q))%nat;
  fs_chain : chain q m 0 = Some head;
  fs_handled : agrees (area m head) m m1;
  fs_returned : agrees (used_area q) m1 m2;
  fs_entry : used_entry q m2 (next_used q) = (Some (dc_index head), Some len);
  fs_index : read_obj 2 m2 (used_ring q + 2) = Some (wadd 16 (next_used q) 1);
  fs_older : forall j, 0 < j < q_size q -> used_entry q m2 (next_used q + j) = used_entry q m1 (next_used q + j)
}.
Definition first_area q m head (x : Z) : Prop := area m head x \/ used_area q x.

Section Step.
Context {q : Queue} {m : M} {n : nat} {head : DescriptorChain} {len : Z} {m1 m2 : M}.
Hypothesis Hfs : first_step q m n head len m1 m2.

Lemma step_area x : area m head x -> ~ rings q x /\ ~ used_area q x.
Proof. intros Hx. apply (ap_area _ _ _ (fs_apart _ _ _ _ _ _ _ Hfs) 0 head x); [lia|apply Hfs|done]. Qed.

Lemma step_agrees : agrees (first_area q m head) m m2.
Proof.
  apply (agrees_trans _ m m1 m2); [eapply agrees_weaken; [|exact (fs_handled _ _ _ _ _ _ _ Hfs)]
    |eapply agrees_weaken; [|exact (fs_returned _ _ _ _ _ _ _ Hfs)]]; unfold first_area; auto.
Qed.

Lemma step_rings x : first_area q m head x -> ~ rings q x.
Proof. intros [Hx|Hx]; [by apply step_area|by apply (ap_used _ _ _ (fs_apart _ _ _ _ _ _ _ Hfs))]. Qed.

Lemma step_chain i : chain (advance q 1) m2 i = chain q m (S i).
Proof. exact (chain_S q m m2 i _ (fs_ok _ _ _ _ _ _ _ Hfs) step_agrees step_rings). Qed.

Lemma step_apart : apart (advance q 1) m2 n.
Proof. exact (apart_S q m m2 n _ (fs_ok _ _ _ _ _ _ _ Hfs) step_agrees step_rings (fs_apart _ _ _ _ _ _ _ Hfs)). Qed.

Lemma step_touched x : touched (advance q 1) m2 n x -> touched q m (S n) x.
Proof. exact (touched_S q m m2 n _ x (fs_ok _ _ _ _ _ _ _ Hfs) step_agrees step_rings). Qed.

Lemma step_area_same i h x : chain q m (S i) = Some h -> area m2 h x <-> area m h x.
Proof. intros Ec. exact (area_agrees _ q m m2 h _ (fs_ok _ _ _ _ _ _ _ Hfs) step_agrees step_rings Ec x). Qed.

Lemma step_within : agrees (touched q m (S n)) m m2.
Proof.
  eapply agrees_weaken; [|exact step_agrees]. intros x [Hx|Hx]; [right|by left]. exists O, head.
  split; [lia|]. split; [apply Hfs|done].
Qed.

Lemma step_after m' : agrees (touched (advance q 1) m2 n) m2 m' -> agrees (touched q m (S n)) m m'.
Proof. intros Ha. apply (agrees_trans _ m m2 m'); [exact step_within|]. eapply agrees_weaken; [|exact Ha]. exact step_touched. Qed.

Lemma step_entry m' j : used_entry q m' (next_used (advance q 1) + j) = used_entry q m' (next_used q + (1 + j)).
Proof.
  apply (entry_wrap q m); [apply Hfs|]. change (next_used (advance q 1)) with (wadd 16 (next_used q) 1).
  unfold wadd. rewrite wrap_add_l. f_equal. lia.
Qed.

(** The entry of the first chain survives the others. *)
Lemma step_last m' : (forall j, Z.of_nat n <= j < q_size q -> used_entry q m' (next_used (advance q 1) + j) = used_entry q m2 (next_used (advance q 1) + j)) ->
  used_entry q m' (next_used q) = (Some (dc_index head), Some len).
Proof.
  intros Ho. pose proof (ok_size q m (fs_ok _ _ _ _ _ _ _ Hfs)). pose proof (fs_size _ _ _ _ _ _ _ Hfs).
  rewrite <-(fs_entry _ _ _ _ _ _ _ Hfs).
  assert (Hw : forall m0, used_entry q m0 (next_used (advance q 1) + (q_size q - 1)) = used_entry q m0 (next_used q)).
  { intros m0. rewrite step_entry. unfold used_entry.
    replace (next_used q + (1 + (q_size q - 1))) with (next_used q + 1 * q_size q) by lia. by rewrite Z.mod_add by lia. }
  rewrite <-!Hw. apply Ho. lia.
Qed.

Lemma step_older j : 0 < j < q_size q -> used_entry q m2 (next_used q + j) = used_entry q m (next_used q + j).
Proof.
  intros Hj. rewrite (fs_older _ _ _ _ _ _ _ Hfs) by done. apply (entry_agrees (area m head) q m); [apply Hfs..|].
  intros x Hx. by apply step_area.
Qed.

(** What was written for the first chain is not overwritten. *)
Lemma step_kept m' x : agrees (touched (advance q 1) m2 n) m2 m' -> area m head x -> byte_at m' x = byte_at m1 x.
Proof.
  intros Ha Hx. transitivity (byte_at m2 x).
  - apply Ha. intros [Hu|(i & h & Hi & Ec & Hx')]; [by apply (step_area x Hx)|]. rewrite step_chain in Ec.
    apply (step_area_same i h) in Hx'; [|done].
    apply (ap_pair _ _ _ (fs_apart _ _ _ _ _ _ _ Hfs) 0 (S i) head h x); [lia|apply Hfs|done..].
  - apply (fs_returned _ _ _ _ _ _ _ Hfs). intros Hu. by apply (step_area x Hx).
Qed.
End Step.

Lemma served_S ws b b1 bk m m1 m2 m' q n head len ls : first_step q m n head len m1 m2 ->
  handle (ws O) b head m = Done (Some len, b1, m1) -> agrees (touched (advance q 1) m2 n) m2 m' ->
  (forall i h l, ls !! i = Some (h, l) -> chain (advance q 1) m2 i = Some h) ->
  served (fun h ma mb => agrees (touched (advance q 1) m2 n) m2 ma /\ forall x, area m2 h x -> byte_at m' x = byte_at mb x)
    (fun i => ws (S i)) b1 ls bk ->
  served (fun h ma mb => agrees (touched q m (S n)) m ma /\ forall x, area m h x -> byte_at m' x = byte_at mb x)
    ws b ((head, len) :: ls) bk.
Proof.
  intros Hfs Ehd Ha Hc Hsv. apply (served_cons _ ws b head len ls b1 bk m m1); [|done|].
  - split; [apply agrees_refl|]. intros x Hx. by apply (step_kept Hfs).
  - eapply served_impl; [exact Hsv|]. intros h l ma mb Hin [Hma Hx]. split; [by apply (step_after Hfs)|].
    intros x Hax. apply Hx. apply list_elem_of_lookup in Hin as [i El]. specialize (Hc i h l El). rewrite (step_chain Hfs) in Hc.
    by apply (step_area_same Hfs i).
Qed.

Lemma in_order_cons ws hu q b b1 b' m m1 m2 m' n head len ls hu' q' : first_step q m n head len m1 m2 ->
  handle (ws O) b head m = Done (Some len, b1, m1) ->
  in_order (fun i => ws (S i)) true (advance q 1) b1 m2 n ls hu' q' b' m' ->
  in_order ws hu q b m (S n) ((head, len) :: ls) hu' q' b' m'.
Proof.
  intros Hfs Ehd [Il Ic Iq Ie Io Ix Iu If (bk & Hend & Hsv)]. pose proof (step_after Hfs m' If) as Hag.
  split.
  - cbn. lia.
  - intros [|i] h l; cbn [lookup list_lookup]; [intros [= <- <-]; apply Hfs|]. intros El. rewrite <-(step_chain Hfs). by apply (Ic i h l).
  - cbn [length]. by rewrite Iq, advance_S.
  - intros [|i] h l; cbn [lookup list_lookup].
    + intros [= <- <-]. rewrite Z.add_0_r. apply (step_last Hfs). intros j Hj. apply (Io j).
      change (q_size (advance q 1)) with (q_size q). lia.
    + intros El. replace (next_used q + Z.of_nat (S i)) with (next_used q + (1 + Z.of_nat i)) by lia.
      rewrite <-(step_entry Hfs). by apply (Ie i h l).
  - intros j Hj. cbn [length] in Hj. rewrite <-(step_older Hfs) by lia. replace j with (1 + (j - 1)) by lia.
    rewrite <-!(step_entry Hfs). apply (Io (j - 1)). change (q_size (advance q 1)) with (q_size q). lia.
  - rewrite (bool_decide_false ((head, len) :: ls = [])) by done. change (used_ring (advance q 1)) with (used_ring q) in Ix. rewrite Ix.
    destruct ls as [|hl ls]; [|by rewrite bool_decide_false]. rewrite bool_decide_true, (fs_index _ _ _ _ _ _ _ Hfs), Iq by done.
    cbn [length]. by rewrite advance_S.
  - rewrite (bool_decide_false ((head, len) :: ls = [])) by done. cbn [negb]. by rewrite Iu, orb_true_r.
  - done.
  - exists bk. split; [|by apply (served_S ws b b1 bk m m1 m2)]. cbn [length].
    destruct Hend as [[Hk ->]|(h & mk & Hk & Ec & Hmk & E)]; [left|right].
    + split; [|done]. destruct Hk as [->|[Hk Ec]]; [by left|right]. split; [lia|]. by rewrite <-(step_chain Hfs).
    + exists h, mk. rewrite <-(step_chain Hfs). split; [lia|]. split; [done|]. split; [|done]. by apply (step_after Hfs).
Qed.

Hypothesis handle_ok : handles area handle.

Lemma serve_in_order n : forall fuel ws T U hu q b m, (n < fuel)%nat -> worlds T ws U -> b_inv T b -> queue_ok q m ->
  waiting q m n -> (n <= Z.to_nat (q_size q))%nat -> apart q m n ->
  exists ls hu' q' b' m', serve handle fuel ws hu q b m = Done (hu', q', b', m') /\ in_order ws hu q b m n ls hu' q' b' m'.
Proof.
  induction n as [|n IH]; intros [|fuel] ws T U hu q b m Hfu Hws Hi Hq Hwait Hn Hap; [lia| |lia|]; cbn [serve];
    destruct (pop_waiting q m _ Hq Hwait) as (r & q1 & -> & Hr); cbn [lift]; rewrite bind_Done.
  - destruct r as [head|]; [lia|]. destruct Hr as [-> _]. do 5 eexists. split; [done|].
    apply in_order_nil; [done|apply Hap|lia|]. left. by auto.
  - assert (Hnil : forall h x, (0 < S n)%nat -> chain q m 0 = Some h -> area m h x -> ~ used_area q x).
    { intros h x Hlt Eh Hx. by apply (ap_area _ _ _ Hap 0 h x). }
    destruct r as [head|].
    2: { destruct Hr as [-> Hr]. do 5 eexists. split; [done|]. apply in_order_nil; [done|apply Hap|done|]. left. by auto. }
    destruct Hr as (_ & Eh & E1 & Hu & Httl & Hix). destruct (proj1 Hws O) as [Ht Hwo].
    destruct (handle_ok T (ws O) b head m Hi) as (r & b1 & m1 & Ehd & Hi1 & Hag & Hlen); [lia|done|done|].
    rewrite Ehd, bind_Done. destruct r as [l|].
    2: { do 5 eexists. split; [done|]. rewrite Hu. apply in_order_nil; [done|apply Hap|done|]. right. exists head. split; [lia|done]. }
    subst q1. assert (Hq1 : queue_ok (with_next_avail q (wadd 16 (next_avail q) 1)) m) by (apply with_next_avail_ok; [done|by apply wadd_range]).
    destruct (add_used_step _ m1 (dc_index head) l (agrees_queue _ _ m m1 Hag Hq1) Hix (Hlen l eq_refl)) as (m2 & -> & Ha2 & Ee & Ex & Eo).
    cbn [lift]. rewrite bind_Done. change (with_next_used _ _) with (advance q 1).
    assert (Hfs : first_step q m n head l m1 m2) by by split.
    destruct (IH fuel (fun i => ws (S i)) (b_time (ws O)) U true (advance q 1) b1 m2) as (ls & hu' & q' & b' & m' & E' & Hio).
    + lia.
    + by apply (worlds_rest T).
    + done.
    + apply (agrees_queue _ _ m m2 (step_agrees Hfs)). destruct Hq. split; try done; by apply wadd_range.
    + exact (waiting_S q m m2 n _ Hq (step_agrees Hfs) (step_rings Hfs) Hwait).
    + cbn. lia.
    + exact (step_apart Hfs).
    + exists ((head, l) :: ls), hu', q', b', m'. split; [done|]. by apply (in_order_cons ws hu q b b1 b' m m1 m2).
Qed.
End Handler.
End InOrder.

(** ** Theorems *)

Section Theorems.
Context {W B M : Type} `{BackendLaws W B M}.
Implicit Types (d : Vsock B) (m : M) (q : Queue) (ws : nat -> W) (head : DescriptorChain).

Lemma rx_area_agrees F q m m' head i : queue_ok q m -> agrees F m m' -> (forall x, F x -> ~ rings q x) ->
  pending_chain q m i = Some head -> forall x, rx_area m' head x <-> rx_area m head x.
Proof.
  intros Hq Ha Hd Ep x. unfold rx_area. destruct (pending_fields q m i head Ep) as (E1 & E2 & _ & _).
  by rewrite (next_agrees F q m m' head) by (done || by apply (pending_next q m i)).
Qed.

(** What delivering into an RX chain comes to. *)
Lemma rx_handle_inv T w b head m len b1 m1 : b_inv T b -> T <= b_time w -> b_world w -> in_range 16 (dc_ttl head) ->
  rx_handle w b head m = Done (Some len, b1, m1) ->
  (exists e, from_rx_virtq_head m head = Ret (Err e)) /\ len = 0 /\ b1 = b /\ m1 = m \/
  exists p p' ma, from_rx_virtq_head m head = Ret (Ok p) /\ backend_recv w b p m = Done (Ok tt, b1, p', ma) /\
    (MAX_PKT_BUF_SIZE < pkt_len p' /\ len = 0 /\ m1 = ma \/
     len = VSOCK_PKT_HDR_SIZE + pkt_len p' /\ 0 <= pkt_len p' <= MAX_PKT_BUF_SIZE /\ read_bytes m1 (dc_addr head) (Z.to_nat VSOCK_PKT_HDR_SIZE) = Some (header_bytes (hdr p')) /\
     agrees (span (dc_addr head) VSOCK_PKT_HDR_SIZE) ma m1).
Proof.
  intros Hi HT Hw Ht. unfold rx_handle.
  destruct (from_rx_virtq_head_ok m head (mkPacket 0 default_header None 0) Ht) as ([p|e] & E & _); rewrite E; cbn [lift]; rewrite bind_Done.
  2: { intros [= <- <- <-]. left. eauto. }
  destruct (from_rx_virtq_head_ok m head p Ht) as (r & E1 & Hp). rewrite E in E1. injection E1 as <-.
  destruct (Hp eq_refl) as (_ & Hbk & _ & Ha & Hh & _).
  destruct (backend_recv_ok T w b p m Hi HT Hw) as (r & b' & p' & ma & Er & Hi' & Eha & _ & _ & Hlen & Hag).
  rewrite Er, bind_Done. destruct r as [[]|e]; [|done].
  assert (Hbm : backed ma (hdr_addr p') VSOCK_PKT_HDR_SIZE) by (rewrite Eha, Ha; by apply (agrees_backed _ m ma _ _ Hag)).
  intros Ec. right. exists p, p', ma. split; [done|]. split; [|]. { destruct (commit_hdr p' ma) as [[[]|e] mc]; [|by injection Ec as _ <- _].
    by apply bind_Done_inv in Ec as (l & _ & [= _ <- _]). }
  unfold commit_hdr, check_len in Ec. destruct (Z.ltb_spec MAX_PKT_BUF_SIZE (pkt_len p')) as [Hl|Hl].
  { injection Ec as <- _ <-. by left. }
  right. pose proof (commit_agrees p' ma) as Hca. pose proof (header_bytes_ok (hdr p')) as Hok. pose proof (length_header_bytes (hdr p')) as Hlh.
  unfold commit_hdr, check_len in Hca. rewrite (proj2 (Z.ltb_ge _ _)) in Hca by done.
  pose proof (write_byte_at ma (hdr_addr p') (header_bytes (hdr p'))) as Hx.
  destruct (write_bytes ma (hdr_addr p') (header_bytes (hdr p'))) as [[[]|g] mc] eqn:Ew; cbn [fst snd] in *.
  2: { exfalso. destruct (write_succeeds ma (hdr_addr p') _ Hok) as [_ Hs]. rewrite Ew in Hs. discriminate Hs.
       intros i Hi0. apply Hbm. rewrite Hlh in Hi0. unfold VSOCK_PKT_HDR_SIZE in *. lia. }
  destruct Hca as [[Hca _]|Hca]; [|by destruct Hca]. apply bind_Done_inv in Ec as (l & El%lift_Done_inv & [= <- _ <-]).
  assert (Hp0 : 0 <= pkt_len p') by (apply Hlen; unfold pkt_len; by rewrite Hh). unfold MAX_PKT_BUF_SIZE in *.
  rewrite uadd_ok in El by (unfold VSOCK_PKT_HDR_SIZE; range_solve). injection El as <-. split; [done|]. split; [done|]. rewrite <-Ha, <-Eha. split; [|done].
  rewrite <-Hlh. apply read_bytes_lookup. intros i Hi0. rewrite Hx by done. replace (_ && _) with true by lia. f_equal. lia.
Qed.

Lemma process_in_order area handle i fuel ws T U d m q n : handles area handle ->
  (forall F q m m' head i, queue_ok q m -> agrees F m m' -> (forall x, F x -> ~ rings q x) ->
     pending_chain q m i = Some head -> forall x, area m' head x <-> area m head x) ->
  device_ok T d m -> activated d = true -> v_queues d !! i = Some q -> worlds T ws U ->
  waiting q m n -> (n <= Z.to_nat (q_size q))%nat -> apart area q m n -> (n < fuel)%nat ->
  exists ls hu q' d' m', process handle i fuel ws d m = Done (hu, d', m') /\ v_queues d' = <[i := q']> (v_queues d) /\
    in_order area handle ws false q (backend d) m n ls hu q' (backend d') m'.
Proof.
  intros Hh Har [Hb Hlq He Hr] Ha Eq Hws Hw Hn Hap Hf. unfold process, device_mem, queue_at. rewrite Ha, Eq. cbn [lift unwrap].
  rewrite !bind_Done. pose proof (proj1 (Forall_lookup _ _) (Hr Ha) i q Eq) as Hqok.
  destruct (serve_in_order area handle Har Hh n fuel ws T U false q (backend d) m) as (ls & hu & q' & b' & m' & -> & Hio); [done..|].
  rewrite bind_Done. by eexists ls, hu, q', _, m'.
Qed.

Lemma tx_lengths P ws b ls b' : served tx_handle P ws b ls b' -> Forall (fun hl => hl.2 = 0) ls.
Proof.
  induction 1 as [|ws b head len l b1 b2 m1 m2 _ Eh _ IH]; [constructor|]. constructor; [|done]. revert Eh. unfold tx_handle.
  destruct (lift _) as [[p|e]| |]; [|by intros [= <-]|done|done]. rewrite bind_Done.
  destruct (backend_send _ _ _ _) as [[[u|e] b']| |]; [by intros [= <-]|done|done|done].
Qed.

(** Packets of the guest go to the backend in order and once: when the driver's rings
    do not overlap and at most a queue's worth of chains waits, walking the TX queue ends
    after at most that many rounds, hands the chains that wait to the backend one after the
    other, each as the packet it describes, and returns each in the next entry of the used
    ring, in the order in which the driver offered them, with length zero. It stops early only at a chain that cannot be
    read, or at one the backend refuses, which stays in the queue. The answer says whether
    anything was returned, and nothing outside the used ring is written. *)
Theorem tx_in_order fuel ws T U d m q n : device_ok T d m -> activated d = true -> v_queues d !! TXQ_INDEX = Some q ->
  worlds T ws U -> waiting q m n -> (n <= Z.to_nat (q_size q))%nat -> (forall x, used_area q x -> ~ rings q x) -> (n < fuel)%nat ->
  exists ls hu q' d' m', process_tx fuel ws d m = Done (hu, d', m') /\ v_queues d' = <[TXQ_INDEX := q']> (v_queues d) /\
    in_order tx_area tx_handle ws false q (backend d) m n ls hu q' (backend d') m' /\
    Forall (fun hl => hl.2 = 0) ls /\ agrees (used_area q) m m'.
Proof.
  intros Hd Ha Eq Hws Hw Hn Hu Hf.
  destruct (process_in_order tx_area tx_handle TXQ_INDEX fuel ws T U d m q n tx_handles) as (ls & hu & q' & d' & m' & E & Eq' & Hio);
    [done..|by split|done|]. exists ls, hu, q', d', m'. split; [done|]. split; [done|]. split; [done|].
  destruct Hio as [_ _ _ _ _ _ _ Hfr (bk & _ & Hsv)]. split; [by apply tx_lengths in Hsv|].
  eapply agrees_weaken; [|exact Hfr]. intros x [Hx|(i & h & _ & _ & [])]. done.
Qed.

(** The chains [l] were filled one after the other with the packets the backend gave, from its
    state [b] to its state [b'].  A chain is returned with length zero if it is not fit for a
    packet, and then the backend keeps what it has, or if the packet is longer than packets may
    be, and then the packet is lost; otherwise the driver finds in it, in the end ([m']), the
    header and the data of the packet, and the length is theirs.  [m1] is the memory when the
    chain was taken, and [ma] the memory when the backend had put the data into it. *)
Inductive deliveries (F : Z -> Prop) m m' : (nat -> W) -> B -> list (DescriptorChain * Z) -> B -> Prop :=
| dv_nil ws b : deliveries F m m' ws b [] b
| dv_unfit ws b head m1 e l b' : agrees F m m1 -> from_rx_virtq_head m1 head = Ret (Err e) ->
    deliveries F m m' (fun i => ws (S i)) b l b' -> deliveries F m m' ws b ((head, 0) :: l) b'
| dv_oversize ws b head m1 p b1 p' ma l b' : agrees F m m1 -> from_rx_virtq_head m1 head = Ret (Ok p) ->
    backend_recv (ws O) b p m1 = Done (Ok tt, b1, p', ma) -> MAX_PKT_BUF_SIZE < pkt_len p' ->
    deliveries F m m' (fun i => ws (S i)) b1 l b' -> deliveries F m m' ws b ((head, 0) :: l) b'
| dv_packet ws b head m1 p b1 p' ma l b' : agrees F m m1 -> from_rx_virtq_head m1 head = Ret (Ok p) ->
    backend_recv (ws O) b p m1 = Done (Ok tt, b1, p', ma) -> 0 <= pkt_len p' <= MAX_PKT_BUF_SIZE ->
    read_bytes m' (dc_addr head) (Z.to_nat VSOCK_PKT_HDR_SIZE) = Some (header_bytes (hdr p')) ->
    (forall x, buffer p' x -> ~ span (dc_addr head) VSOCK_PKT_HDR_SIZE x -> byte_at m' x = byte_at ma x) ->
    deliveries F m m' (fun i => ws (S i)) b1 l b' -> deliveries F m m' ws b ((head, VSOCK_PKT_HDR_SIZE + pkt_len p') :: l) b'.

(** The data of a packet are still in its chain in the end. *)
Lemma packet_kept m m' F q i T w b head m1 m2 p p' ma b1 : queue_ok q m -> (forall x, F x -> ~ rings q x) -> pending_chain q m i = Some head -> in_range 16 (dc_ttl head) ->
  b_inv T b -> T <= b_time w -> b_world w -> agrees F m m1 -> (forall x, rx_area m head x -> byte_at m' x = byte_at m2 x) ->
  from_rx_virtq_head m1 head = Ret (Ok p) -> backend_recv w b p m1 = Done (Ok tt, b1, p', ma) -> agrees (span (dc_addr head) VSOCK_PKT_HDR_SIZE) ma m2 ->
  forall x, buffer p' x -> ~ span (dc_addr head) VSOCK_PKT_HDR_SIZE x -> byte_at m' x = byte_at ma x.
Proof.
  intros Hq HF Ep Htt Hi HT Hwo Hag Hx Ef Er Hma x (a & Ea & Hsp) Hn. transitivity (byte_at m2 x); [|by apply Hma]. apply Hx. right.
  destruct (from_rx_virtq_head_ok m1 head p Htt) as (r & E1 & Hpk). rewrite Ef in E1. injection E1 as <-.
  destruct (Hpk eq_refl) as (_ & _ & _ & _ & _ & dd & Ed & _ & Eba & Ebs & _).
  destruct (backend_recv_ok T w b p m1 Hi HT Hwo) as (r & b3 & p3 & m3 & E3 & _ & _ & Eb3 & Es3 & _).
  rewrite Er in E3. injection E3 as <- <- <- <-. exists dd. rewrite <-(next_agrees F q m m1 head); try done.
  - split; [done|]. rewrite Eb3, Eba in Ea. injection Ea as <-. by rewrite <-Ebs, <-Es3.
  - by destruct (pending_fields q m i head Ep).
  - by destruct (pending_fields q m i head Ep) as (_ & ? & _).
  - by apply (pending_next q m i).
Qed.

Lemma served_deliveries m m' F q ws T U b ls b' : queue_ok q m -> (forall x, F x -> ~ rings q x) ->
  served rx_handle (fun head m1 m2 => agrees F m m1 /\ forall x, rx_area m head x -> byte_at m' x = byte_at m2 x) ws b ls b' ->
  worlds T ws U -> b_inv T b -> (forall head len, (head, len) ∈ ls -> exists i, pending_chain q m i = Some head) ->
  deliveries F m m' ws b ls b'.
Proof.
  intros Hq HF Hsv. revert T. induction Hsv as [|ws b hd l ls b1 b2 m1 m2 [Hag Hx] Eh _ IH]; intros T Hws Hi Hp; [constructor|].
  destruct (Hp hd l) as [i Ep]; [by left|]. destruct (proj1 Hws O) as [Ht Hwo].
  destruct (pending_fields q m i hd Ep) as (_ & _ & Httl & _).
  assert (Htt : in_range 16 (dc_ttl hd)) by (destruct Hq; range_solve).
  assert (Hrest : deliveries F m m' (fun i => ws (S i)) b1 ls b2).
  { destruct (rx_handles T (ws O) b hd m1 Hi ltac:(lia) Hwo Htt) as (r & b3 & m3 & E3 & Hi3 & _). rewrite Eh in E3. injection E3 as <- <- <-.
    apply (IH (b_time (ws O))); [by apply (worlds_rest T)|done|]. intros h k Hk. apply (Hp h k). by right. }
  destruct (rx_handle_inv T (ws O) b hd m1 l b1 m2 Hi ltac:(lia) Hwo Htt Eh) as [([e Ee] & -> & -> & _)|(p & p' & ma & Ef & Er & Hc)].
  { by apply (dv_unfit F m m' ws b hd m1 e). }
  destruct Hc as [(Hlen & -> & _)|(-> & Hlen & Erd & Hma)]; [by apply (dv_oversize F m m' ws b hd m1 p b1 p' ma)|].
  apply (dv_packet F m m' ws b hd m1 p b1 p' ma); [exact Hag|exact Ef|exact Er|exact Hlen| | |exact Hrest].
  - rewrite <-Erd. apply read_bytes_ext. intros x Hx'. apply Hx. left. unfold span, VSOCK_PKT_HDR_SIZE in *. lia.
  - by apply (packet_kept m m' F q i T (ws O) b hd m1 m2 p p' ma b1); [..|lia| | | | | |].
Qed.

Lemma touched_rings area q m n x : apart area q m n -> touched area q m n x -> ~ rings q x.
Proof. intros Hap [Hx|(i & h & Hi & Ec & Hx)]; [by apply (ap_used _ _ _ _ Hap)|by apply (ap_area _ _ _ _ Hap i h x)]. Qed.

Lemma served_inv area handle (P : DescriptorChain -> M -> M -> Prop) ws b ls b' : handles area handle -> served handle P ws b ls b' ->
  (forall head len, (head, len) ∈ ls -> in_range 16 (dc_ttl head)) -> forall T U, worlds T ws U -> b_inv T b ->
  exists T', b_inv T' b' /\ T' <= b_time (ws (length ls)) <= U.
Proof.
  intros Hh. induction 1 as [ws b|ws b head len l b1 b2 m1 m2 _ Eh _ IH]; intros Ht T U Hws Hi.
  { exists T. split; [done|]. apply Hws. }
  destruct (proj1 Hws O) as [Htm Hwo].
  destruct (Hh T (ws O) b head m1 Hi ltac:(lia) Hwo (Ht head len ltac:(by left))) as (r & b3 & m3 & E3 & Hi3 & _).
  rewrite Eh in E3. injection E3 as _ <- _. apply (IH ltac:(intros hd k Hin; apply (Ht hd k); by right) (b_time (ws O)) U); [|done].
  by apply (worlds_rest T).
Qed.

(** Packets for the guest are delivered whole and in order: when the driver keeps its
    rings and buffers apart and at most a queue's worth of chains waits, walking the RX
    queue ends after at most that many rounds. Each chain taken is returned in the next entry of the used ring, in the order
    in which the driver offered them, and holds the next packet of the backend ([deliveries]).
    The walk stops when no chain is left that can be read, or when the backend has nothing
    more, and the chain at hand stays in the queue. *)
Theorem rx_in_order fuel ws T U d m q n : device_ok T d m -> activated d = true -> v_queues d !! RXQ_INDEX = Some q ->
  worlds T ws U -> waiting q m n -> (n <= Z.to_nat (q_size q))%nat -> apart rx_area q m n -> (n < fuel)%nat ->
  exists ls hu q' d' m', process_rx fuel ws d m = Done (hu, d', m') /\ v_queues d' = <[RXQ_INDEX := q']> (v_queues d) /\
    in_order rx_area rx_handle ws false q (backend d) m n ls hu q' (backend d') m' /\
    forall bk, served rx_handle (fun head m1 m2 => agrees (touched rx_area q m n) m m1 /\ forall x, rx_area m head x -> byte_at m' x = byte_at m2 x) ws (backend d) ls bk ->
      deliveries (touched rx_area q m n) m m' ws (backend d) ls bk.
Proof.
  intros Hd Ha Eq Hws Hw Hn Hap Hf. pose proof (proj1 (Forall_lookup _ _) (do_ready _ _ _ Hd Ha) _ q Eq) as Hq.
  destruct (process_in_order rx_area rx_handle RXQ_INDEX fuel ws T U d m q n rx_handles rx_area_agrees)
    as (ls & hu & q' & d' & m' & E & Eq' & Hio); [done..|]. exists ls, hu, q', d', m'. split; [done|]. split; [done|].
  split; [done|]. intros bk Hsv. destruct Hio as [_ Hc _ _ _ _ _ _ _].
  eapply (served_deliveries m m' _ q ws T U); [done| |exact Hsv|done|apply Hd|].
  - intros x. by apply touched_rings.
  - intros h l Hin. apply list_elem_of_lookup in Hin as [i El]. exists (next_avail q + Z.of_nat i). by apply (Hc i h l).
Qed.

Lemma le_encode_app a b v : le_encode (a + b) v = le_encode a v ++ le_encode b (v / 256 ^ Z.of_nat a).
Proof.
  revert v. induction a as [|a IH]; intros v; cbn [le_encode app Nat.add]; [by rewrite Z.div_1_r|]. f_equal. rewrite IH. do 2 f_equal.
  rewrite Nat2Z.inj_succ, Z.pow_succ_r, Z.div_div by lia. done.
Qed.

Lemma le_encode_mod a v : le_encode a (v mod 256 ^ Z.of_nat a) = le_encode a v.
Proof.
  revert v. induction a as [|a IH]; intros v; [done|]. cbn [le_encode]. rewrite Nat2Z.inj_succ, Z.pow_succ_r by lia. f_equal.
  - rewrite Z.rem_mul_r by lia. rewrite Z.mul_comm, Z.mod_add by lia. apply Z.mod_mod. lia.
  - rewrite <-IH, <-(IH (v / 256)). f_equal. rewrite Z.rem_mul_r by lia.
    rewrite Z.mul_comm, Z.div_add, (Z.div_small (v mod 256)) by (lia || apply Z.mod_pos_bound; lia). cbn [Z.add]. apply Z.mod_mod. lia.
Qed.

(** The two halves of the configuration are the whole. *)
Theorem cid_halves d : in_range 64 (v_cid d) ->
  let part off := vsock_read_config d off (replicate 4 0) in
  vsock_read_config d 0 (replicate 8 0) = part 0 ++ part 4 /\
  le_decode (vsock_read_config d 0 (replicate 8 0)) = v_cid d.
Proof.
  intros Hc. cbv zeta. unfold vsock_read_config. cbn [length replicate Z.eqb andb Nat.eqb].
  assert (E : le_decode (le_encode 8 (v_cid d)) = v_cid d).
  { rewrite le_decode_encode. apply Z.mod_small. exact Hc. }
  split; [|done]. change 0xffffffff with (Z.ones 32). rewrite !Z.land_ones, Z.shiftr_div_pow2 by lia.
  change (2 ^ 32) with (256 ^ Z.of_nat 4). rewrite !le_encode_mod. apply (le_encode_app 4 4).
Qed.
End Theorems.
