(* ===== verification/VsockPersist.v ===== *)
(** * Snapshots of the vsock device

    Models [devices/src/virtio/vsock/persist.rs]: what is kept of the device and of its
    backend, and how they are restored.  Connections are not kept: the restored device gets
    a new multiplexer, on the same path. *)

From Stdlib Require Import ZArith Lia.
From stdpp Require Import functions prelude gmap.
From S2P Require Import Prelude GuestMemory VirtioQueue QueueRuns Mmio VirtioPersist TxBuf VsockPacket VsockConnection VsockMuxer VsockDevice.

Record VsockUdsState := mkUdsState { uds_path : list Z }.
Inductive VsockBackendState := Uds (s : VsockUdsState).
Record VsockFrontendState := mkFrontendState { fs_cid : Z; fs_virtio_state : VirtioDeviceState }.
Record VsockState := mkVsockState { vs_backend : VsockBackendState; vs_frontend : VsockFrontendState }.

(** [VsockError::VirtioState] and [VsockError::EventFd]. *)
Inductive RestoreError := VirtioState | EventFd.

Section Backend.
Context {S : Type} `{Stream S} {E : Type} `{Epoll E}.

Definition backend_save (b : @VsockMuxer S E) : VsockBackendState := Uds (mkUdsState (host_sock_path b)).

(** [bound], [created]: what binding the socket and making the epoll instance give. *)
Definition backend_restore (cid : Z) (s : VsockBackendState) (bound : result Z IoError) (created : result E IoError)
    : result (@VsockMuxer S E) MuxerError :=
  match s with Uds uds_state => VsockMuxer_new cid (uds_path uds_state) bound created end.
End Backend.

Section Frontend.
Context {B M : Type} `{GuestMemory M} `{Profile}.
#[local] Instance persist_dev : VirtioDevice (Vsock B) M := vsock_virtio true.
Implicit Types (d : Vsock B) (m : M).

Definition vsock_save d : VsockFrontendState := mkFrontendState (v_cid d) (from_device d (irq_status d)).

Definition vsock_restore m (b : B) (events : list Z) (evt : Z) (created : bool) (s : VsockFrontendState)
    : exec (result (Vsock B) RestoreError) :=
  r ← build_queues_checked (fs_virtio_state s) m VIRTIO_ID_VSOCK NUM_QUEUES QUEUE_SIZE;
  match r with
  | Err _ => Ret (Err VirtioState)
  | Ok queues =>
      match with_queues (fs_cid s) b queues events evt created with
      | None => Ret (Err EventFd)
      | Some d =>
          Ret (Ok (mkVsock B (v_cid d) (v_queues d) (queue_events d) (backend d) (ds_avail_features (fs_virtio_state s))
            (ds_acked_features (fs_virtio_state s)) (ds_interrupt_status (fs_virtio_state s)) (activate_evt d)
            (ds_activated (fs_virtio_state s))))
      end
  end.
End Frontend.

(** ** What the device does not change *)

(** A queue without its positions in the rings. *)
Definition config (q : Queue) : Z * Z * bool * (Z * Z * Z) * bool :=
  (max_size q, q_size q, ready q, (desc_table q, avail_ring q, used_ring q), uses_notif_suppression q).

(** A device without its rings, its backend and the interrupt status. *)
Definition static {B} (d : Vsock B) : Z * list (Z * Z * bool * (Z * Z * Z) * bool) * list Z * Z * Z * Z * bool :=
  (v_cid d, map config (v_queues d), queue_events d, v_avail_features d, v_acked_features d, activate_evt d, activated d).

Section Config.
Context {M : Type} `{GuestMemory M} `{Profile}.
Implicit Types (q : Queue) (m : M).

Lemma pop_config q m r q' : pop q m = Ret (r, q') -> config q' = config q.
Proof.
  intros (l & _ & E)%bind_Ret_inv. destruct (l =? 0); [by injection E as _ <-|]. unfold do_pop_unchecked in E.
  do 5 (apply bind_Ret_inv in E as (? & _ & E)). case_match; by injection E as _ <-.
Qed.

Lemma add_used_config q m i l r q' m' : add_used q m i l = Ret (r, q', m') -> config q' = config q.
Proof.
  unfold add_used. intros E.
  repeat (case_match || apply bind_Ret_inv in E as (? & _ & E)); by injection E as _ <- _.
Qed.

Lemma insert_config (l : list Queue) i q q' : l !! i = Some q -> config q' = config q -> map config (<[i := q']> l) = map config l.
Proof.
  intros Hi Ec. change (config <$> <[i := q']> l = config <$> l). rewrite list_fmap_insert. apply list_insert_id.
  by rewrite list_lookup_fmap, Hi, Ec.
Qed.
End Config.

Section Static.
Context {W B M : Type} `{GuestRegions M} `{!VsockBackend W B M} `{Profile}.
Implicit Types (d : Vsock B) (m : M).

Lemma serve_config handle fuel : forall (ws : nat -> W) hu q (b : B) m hu' q' b' m',
  serve handle fuel ws hu q b m = Done (hu', q', b', m') -> config q' = config q.
Proof.
  induction fuel as [|fuel IH]; intros ws hu q b m hu' q' b' m' E; [done|]. cbn [serve] in E.
  apply bind_Done_inv in E as ([r q1] & Ep%lift_Done_inv & E). apply pop_config in Ep. destruct r as [head|]; [|by injection E as _ <- _ _].
  apply bind_Done_inv in E as ([[[l|] b1] m1] & _ & E); [|by injection E as _ <- _ _].
  apply bind_Done_inv in E as ([[r2 q2] m2] & Ea%lift_Done_inv & E). apply add_used_config in Ea. apply IH in E. congruence.
Qed.

Lemma process_static handle i fuel (ws : nat -> W) d m hu d' m' : process handle i fuel ws d m = Done (hu, d', m') -> static d' = static d.
Proof.
  intros (m1 & _ & E)%bind_Done_inv. apply bind_Done_inv in E as (q & Eq%lift_Done_inv & E).
  apply bind_Done_inv in E as ([[[hu1 q1] b1] m2] & Es%serve_config & E). injection E as _ <- _.
  unfold static. cbn. unfold queue_at in Eq. destruct (v_queues d !! i) as [q0|] eqn:El; [|done]. injection Eq as <-.
  by rewrite (insert_config _ i q0).
Qed.

Lemma after_tx_static fuel (ws : nat -> W) hu d m hu' d' m' : after_tx fuel ws (hu, d, m) = Done (hu', d', m') -> static d' = static d.
Proof.
  unfold after_tx. destruct (backend_pending _); [|by intros [= _ <- _]].
  intros ([[hu1 d1] m1] & Ep%process_static & [= _ <- _])%bind_Done_inv. done.
Qed.

Lemma tx_static fuel (ws ws' : nat -> W) d m hu d' m' : (r ← process_tx fuel ws d m; after_tx fuel ws' r) = Done (hu, d', m') ->
  static d' = static d.
Proof.
  intros ([[hu1 d1] m1] & Ep%process_static & Ea%after_tx_static)%bind_Done_inv. congruence.
Qed.

(** Handling an event changes neither the configuration of the device nor that of its
    queues. *)
Lemma process_event_static source evset (i : EventInput) d m d' m' ops :
  process_event (W := W) source evset i d m = Done (d', m', ops) -> static d' = static d.
Proof.
  unfold process_event. intros E. do 3 (apply bind_Done_inv in E as (? & _ & E)). destruct (activated d) eqn:Ha; [|by injection E as <- _ _].
  apply bind_Done_inv in E as ([[[raise d1] m1] ops1] & E1 & [= <- _ _]). assert (Hs : static d1 = static d).
  { repeat case_match; try (injection E1 as _ <- _ _; done); apply bind_Done_inv in E1 as (r & E1 & E2); try by injection E2 as _ <- _ _.
    all: injection E2 as -> _.
    - unfold handle_rxq_event in E1. repeat case_match; try (by injection E1 as _ <- _). by apply process_static in E1.
    - unfold handle_txq_event in E1. repeat case_match; try (by injection E1 as _ <- _). by apply tx_static in E1.
    - apply bind_Done_inv in E1 as (b & _ & E1). apply tx_static in E1. by rewrite E1. }
  by destruct raise.
Qed.

Lemma reset_event_static d m irq_ok r d' m' : send_transport_reset_event d m irq_ok = Ret (r, d', m') -> static d' = static d.
Proof.
  intros (m1 & _ & E)%bind_Ret_inv. apply bind_Ret_inv in E as (q & Eq & E). apply bind_Ret_inv in E as ([r1 q1] & Ep%pop_config & E).
  unfold queue_at in Eq. destruct (v_queues d !! EVQ_INDEX) as [q0|] eqn:El; [|done]. injection Eq as <-. destruct r1 as [head|].
  - apply bind_Ret_inv in E as ([[r2 q2] m2] & Ea%add_used_config & [= _ <- _]). unfold static. cbn.
    rewrite (insert_config _ _ q0); [done|done|congruence].
  - injection E as _ <- _. unfold static. cbn. by rewrite (insert_config _ _ q0).
Qed.
End Static.
