(* ===== verification/VsockVm.v ===== *)
(** * A guest and its vsock device

    Puts the parts together that a guest can reach through its vsock device: its memory,
    the registers of the transport ([Mmio]), the queues ([VirtioQueue]) and the device
    with its backend ([VsockDevice]), and shows that whatever the guest does with them
    ([vm_run]), no call panics ([vsock_vm_safe]), and that it can be saved and restored at
    any time ([snapshot_restores]). *)

From Stdlib Require Import ZArith Lia.
From stdpp Require Import functions prelude.
From S2P Require Import Prelude GuestMemory VirtioQueue QueueRuns Mmio VirtioPersist VsockPacket VsockDevice VsockPersist.

(** The fields of a queue are in the ranges of their types. *)
Record queue_typed (q : Queue) : Prop := {
  qt_max : max_size q = QUEUE_SIZE;
  qt_plain : uses_notif_suppression q = false;
  qt_ranges : queue_ranges q
}.

Lemma queue_new_typed q : queue_typed q -> queue_typed (Queue_new (get_max_size q)).
Proof. intros [Hm _ _]. split; [done..|]. split; cbn; unfold in_range; lia. Qed.

Lemma config_typed q q' : config q' = config q -> queue_ranges q' -> queue_typed q -> queue_typed q'.
Proof. intros [=] Hr [Hm Hs _]. split; [congruence..|done]. Qed.

Lemma lor_range w a b : 0 <= w -> in_range w a -> in_range w b -> in_range w (Z.lor a b).
Proof.
  intros Hw Ha Hb. assert (E : forall x, in_range w x -> Z.land x (Z.ones w) = x) by (intros x Hx; rewrite Z.land_ones by done; by apply Z.mod_small).
  rewrite <-(E a Ha), <-(E b Hb), <-Z.land_lor_distr_l, Z.land_ones by done. apply Z.mod_pos_bound, Z.pow_pos_nonneg; lia.
Qed.

Lemma land_range w a b : 0 <= w -> in_range w a -> in_range w (Z.land a b).
Proof.
  intros Hw Ha. assert (E : Z.land a (Z.ones w) = a) by (rewrite Z.land_ones by done; by apply Z.mod_small).
  rewrite <-E, <-Z.land_assoc, (Z.land_comm _ b), Z.land_assoc, Z.land_ones by done. apply Z.mod_pos_bound, Z.pow_pos_nonneg; lia.
Qed.

Lemma hi_range a v : in_range 64 a -> in_range 64 (hi a v).
Proof. intros Ha. apply lor_range; [lia|by apply land_range|by apply wrap_range]. Qed.

Lemma lo_range a v : in_range 64 a -> in_range 32 v -> in_range 64 (lo a v).
Proof.
  intros Ha Hv. apply lor_range; [lia|by apply land_range|].
  unfold in_range in *. lia.
Qed.

Section Vm.
Context {W B M : Type} `{BackendLaws W B M}.
#[local] Instance vsock_dev : VirtioDevice (Vsock B) M := vsock_virtio true.
Abbreviation transport := (@MmioTransport M (Vsock B)).
Implicit Types (t : transport) (d : Vsock B) (m : M).

(** The device has run on memory [m]; the interrupt status is shared. *)
Definition after t d m : transport :=
  mkMmio d (features_select t) (acked_features_select t) (queue_select t) (device_status t) (config_generation t) m (irq_status d).
Definition running t : Vsock B := with_irq (device t) (interrupt_status t).

(** What can happen to a guest whose memory is [limit] bytes from address zero: it is
    created, time passes, the guest changes its memory or writes to a register, an event is
    handled, it is saved and restored, with a new backend and maybe another clock, or it is
    told that it was restored. *)
Inductive vm_run (limit : Z) : Z -> transport -> Prop :=
| vm_start T m cid b events evt d : flat m limit -> b_inv T b -> length events = NUM_QUEUES ->
    Vsock_new cid b events evt true = Some d -> vm_run limit T (MmioTransport_new m d 0)
| vm_wait T T' t : vm_run limit T t -> T <= T' -> vm_run limit T' t
| vm_guest T t m : vm_run limit T t -> same_map (mem t) m -> vm_run limit T (after t (running t) m)
| vm_write T t offset data t' : vm_run limit T t -> bytes_ok data -> mmio_write t offset data = Ret t' -> vm_run limit T t'
| vm_event T U t source evset i d m ops : vm_run limit T t -> input_ok T i U ->
    process_event source evset i (running t) (mem t) = Done (d, m, ops) -> vm_run limit U (after t d m)
| vm_reset T t irq_ok r d m : vm_run limit T t -> activated (device t) = true ->
    send_transport_reset_event (running t) (mem t) irq_ok = Ret (r, d, m) -> vm_run limit T (after t d m)
| vm_restore T T' t b events evt d : vm_run limit T t -> b_inv T' b -> length events = NUM_QUEUES ->
    vsock_restore (mem t) b events evt true (vsock_save (M := M) (running t)) = Ret (Ok d) ->
    vm_run limit T' (transport_restore (mem t) d (irq_status d) (transport_save t)).

Record vm_ok (limit T : Z) t : Prop := {
  vk_flat : flat (mem t) limit;
  vk_device : device_ok T (device t) (mem t);
  vk_typed : Forall queue_typed (v_queues (device t));
  vk_avail : v_avail_features (device t) = AVAIL_FEATURES;
  vk_acked : subfeatures (v_acked_features (device t)) AVAIL_FEATURES;
  vk_status : activated (device t) = true -> Z.testbit (device_status t) 2 = true
}.

(** Activation finds queues that are in guest memory. *)
Lemma all_valid_ok limit m l : flat m limit -> Forall queue_typed l ->
  exists v, all_valid l m = Ret v /\ (v = true -> Forall (fun q => queue_ok q m) l).
Proof.
  intros Hf. induction 1 as [|q l Hq _ IH]; cbn [all_valid]; [eexists; split; [done|]; constructor|].
  destruct (Queue_is_valid_flat q m limit Hf) as (v & -> & Hv); try apply (qt_ranges q Hq); [rewrite (qt_max q Hq); unfold QUEUE_SIZE; lia|].
  rewrite bind_Ret. destruct v; [|by eexists]. destruct IH as (v & -> & Hv'). eexists. split; [done|]. intros Hvt.
  constructor; auto.
Qed.

Lemma status_total limit T t v : vm_ok limit T t -> exists t', set_device_status t v = Ret t'.
Proof.
  intros [Hf Hd Ht _ _ Hs]. unfold set_device_status.
  repeat match goal with |- context [if ?b then Ret _ else _] => destruct b; [by eexists|] end.
  destruct (_ && _); [|repeat case_match; by eexists]. cbn [with_status device]. destruct (is_activated (device t)) eqn:Ea; [by eexists|].
  destruct (all_valid_ok limit (mem t) (v_queues (device t)) Hf Ht) as (b & Eb & _). unfold are_queues_valid. cbn [queues vsock_dev vsock_virtio device mem with_status].
  rewrite Eb, bind_Ret. destruct b; [|by eexists]. unfold activate, vsock_dev, vsock_virtio, vsock_activate. cbn [device with_status].
  rewrite (do_queues _ _ _ Hd). by eexists.
Qed.

Lemma write_total limit T t offset data : vm_ok limit T t -> exists t', mmio_write t offset data = Ret t'.
Proof.
  intros Hv. unfold mmio_write. destruct (_ && _ && _); [|case_match; by eexists]. unfold write_register.
  repeat case_match; try by eexists. by apply (status_total limit T).
Qed.

Lemma update_typed t f : (forall q, queue_typed q -> queue_typed (f q)) -> Forall queue_typed (v_queues (device t)) ->
  Forall queue_typed (v_queues (device (update_queue_field t f))).
Proof.
  intros Hf Hq. unfold update_queue_field, with_queue_mut. destruct (check_device_status _ _ _); [|done].
  destruct (queues (device t) !! _) as [q|] eqn:Eq; [|done]. cbn. apply Forall_insert; [done|]. apply Hf.
  by apply (proj1 (Forall_lookup _ _) Hq _ q Eq).
Qed.

Lemma status_typed t v t' : set_device_status t v = Ret t' ->
  Forall queue_typed (v_queues (device t)) -> Forall queue_typed (v_queues (device t')).
Proof.
  intros Hs Hq. apply set_device_status_effect in Hs.
  destruct Hs as [| |_ _ _ _ _| |d s _ Hd _ _|d _ Hd _ _|]; try done.
  - cbn. unfold vsock_activate. by destruct (negb _).
  - by destruct Hd as [->|[-> _]].
  - assert (Ed : v_queues d = v_queues (device t)) by (by destruct Hd as [->|[-> _]]). cbn. rewrite Ed.
    apply Forall_map. eapply Forall_impl; [exact Hq|]. exact queue_new_typed.
Qed.

Lemma write_typed t offset data t' : bytes_ok data -> mmio_write t offset data = Ret t' ->
  Forall queue_typed (v_queues (device t)) -> Forall queue_typed (v_queues (device t')).
Proof.
  intros Hb E Hq. unfold mmio_write in E. destruct (_ && _ && _) eqn:Eo; [|repeat case_match; by injection E as <-].
  assert (Hv : in_range 32 (le_decode data)).
  { apply andb_true_iff in Eo as [_ Hl%Z.eqb_eq]. pose proof (le_decode_range data Hb) as Hr. rewrite Hl in Hr. done. }
  unfold write_register in E. repeat case_match; try (injection E as <-); try done;
    try (apply update_typed; [|done]; intros q [? ? []]; split; [done..|]; split; cbn; done || by apply wrap_range || by apply hi_range || by apply lo_range).
  by apply (status_typed t (le_decode data)).
Qed.

(** An idle device is as it should be whatever its queues say. *)
Lemma idle_ok T d l m : b_inv T (backend d) -> length l = NUM_QUEUES -> length (queue_events d) = NUM_QUEUES -> activated d = false ->
  device_ok T (with_parts d l (backend d)) m.
Proof. intros Hb Hl He Ha. split; try done. cbn. congruence. Qed.

Lemma status_vm limit T t v t' : vm_ok limit T t -> set_device_status t v = Ret t' -> vm_ok limit T t'.
Proof.
  intros [Hf Hd Ht Hav Hac Hs] Est. pose proof (status_typed t v t' Est Ht) as Hty. apply set_device_status_effect in Est.
  pose proof (status_effect_features t v t' Est) as [Hfa Hfv]. change (v_acked_features (device t') = v_acked_features (device t)) in Hfa.
  change (v_avail_features (device t') = v_avail_features (device t)) in Hfv. rewrite <-Hfa in Hac. rewrite <-Hfv in Hav.
  assert (Hbit : Z.land (unot 32 (device_status t)) v = DRIVER_OK -> Z.testbit v 2 = true).
  { intros Hc. apply (f_equal (fun z => Z.testbit z 2)) in Hc. rewrite Z.land_spec in Hc. by apply andb_true_iff in Hc as [_ ->]. }
  destruct Est as [Hp|Hst Hc|Hst Hc Ha Hq Hact| |d s _ Hdd Hss _|d _ Hdd Hnr _|].
  - split; try done. intros Ha. specialize (Hs Ha). destruct Hp as [Hp|[Hp|Hp]]; rewrite Hp in Hs; done.
  - split; try done. intros _. by apply Hbit.
  - cbn in Hact. destruct (all_valid_ok limit (mem t) (v_queues (device t)) Hf Ht) as (b & Eb & Hall).
    assert (Hqs : Forall (fun q => queue_ok q (mem t)) (v_queues (device t))).
    { apply Hall. unfold are_queues_valid in Hq. change (queues (device t)) with (v_queues (device t)) in Hq. congruence. }
    destruct Hd as [Hb Hl He Hr].
    assert (Ha2 : exists d, (activate (device t) (mem t)).2 = d /\ v_queues d = v_queues (device t) /\
      queue_events d = queue_events (device t) /\ backend d = backend (device t)).
    { eexists. split; [done|]. cbn. unfold vsock_activate. by rewrite Hl. }
    destruct Ha2 as (d & Ed & Eq & Ee & Eb'). rewrite Ed in *. cbn [device with_device with_status] in *. split; try done.
    + split; cbn; rewrite ?Eq, ?Ee, ?Eb'; done.
    + intros _. by apply Hbit.
  - split; try done. intros Ha. cbn [with_status device_status]. by rewrite Z.lor_spec, Hs.
  - assert (Ed : d = device t) by (by destruct Hdd as [->|[-> _]]). subst d. split; try done. intros Ha. cbn [with_status device_status].
    destruct Hss as [->| ->]; [by apply Hs|]. by rewrite Z.lor_spec, Hs.
  - assert (Ed : d = device t) by (by destruct Hdd as [->|[-> _]]). subst d.
    destruct (activated (device t)) eqn:Ha; [by destruct (Hnr Ha)|]. destruct Hd as [Hb Hl He _]. split.
    + done.
    + apply idle_ok; try done. cbn. by rewrite length_map.
    + done.
    + done.
    + done.
    + cbn. congruence.
  - by split.
Qed.

Lemma write_acked t offset data t' : bytes_ok data -> mmio_write t offset data = Ret t' ->
  v_avail_features (device t) = AVAIL_FEATURES -> subfeatures (v_acked_features (device t)) AVAIL_FEATURES ->
  v_avail_features (device t') = AVAIL_FEATURES /\ subfeatures (v_acked_features (device t')) AVAIL_FEATURES.
Proof.
  intros Hb E Hav Hac. destruct (write_features t t' offset data Hb E) as [Hav' Hbits].
  change (v_avail_features (device t') = v_avail_features (device t)) in Hav'. split; [congruence|]. intros n Hn.
  destruct (Hbits n Hn) as [x Ex]. change (acked_features (device t')) with (v_acked_features (device t')) in Ex. rewrite Ex.
  change (avail_features (device t)) with (v_avail_features (device t)). rewrite Hav.
  intros [Hx|[_ Hx]%andb_true_iff]%orb_true_iff; [by apply Hac|done].
Qed.

Lemma write_vm limit T t offset data t' : vm_ok limit T t -> bytes_ok data -> mmio_write t offset data = Ret t' -> vm_ok limit T t'.
Proof.
  intros Hv Hb E. pose proof Hv as [Hf Hd Ht Hav Hac Hs]. pose proof (write_typed t offset data t' Hb E Ht) as Hty.
  destruct (write_acked t offset data t' Hb E Hav Hac) as [Hav' Hac']. clear Hav Hac.
  destruct (mmio_write_effect t offset data t' Hb E) as [t' Ed Es Em|f|Hc Hr|t' Ho Est|o' l].
  - rewrite Ed in Hav', Hac'. split; rewrite ?Ed, ?Es, ?Em; done.
  - destruct (activated (device t)) eqn:Ha.
    + unfold update_queue_field. by rewrite (check_status_clear t _ _ 2) by (done || by apply Hs).
    + destruct (update_queue_field_status t f) as (_ & _ & _ & Ea). change (activated (device (update_queue_field t f)) = activated (device t)) in Ea.
      unfold update_queue_field, with_queue_mut in *. destruct (check_device_status _ _ _); [|done].
      destruct (queues (device t) !! _) as [q|] eqn:Eq; [|done]. destruct Hd as [Hbk Hl He _]. split; try done.
      * apply idle_ok; try done. cbn. by rewrite length_insert.
      * cbn. congruence.
  - by destruct Hd.
  - by apply (status_vm limit T t (le_decode data)).
  - done.
Qed.

Lemma flat_same limit m m' : flat m limit -> same_map m m' -> flat m' limit.
Proof. intros Hf Hm x. unfold same_map in Hm. by rewrite Hm. Qed.

(** Handling an event does not activate the device or take it back. *)
Lemma process_event_idle source evset i d m d' m' ops : activated d = false -> process_event source evset i d m = Done (d', m', ops) ->
  d' = d /\ m' = m.
Proof.
  intros Ha. unfold process_event. rewrite Ha. intros (f1 & _ & E1)%bind_Done_inv. apply bind_Done_inv in E1 as (f2 & _ & E2).
  apply bind_Done_inv in E2 as (f3 & _ & [= <- <- <-]). done.
Qed.

Lemma running_ok T t : device_ok T (device t) (mem t) -> device_ok T (running t) (mem t).
Proof. intros []. by split. Qed.

(** What leaves the configuration of the queues alone leaves them well typed. *)
Lemma static_typed T d d' m : static d' = static d -> Forall queue_typed (v_queues d) -> device_ok T d' m -> activated d' = true ->
  Forall queue_typed (v_queues d').
Proof.
  intros Es Ht Hd Ha. assert (Ec : map config (v_queues d') = map config (v_queues d)) by (unfold static in Es; congruence).
  apply Forall_lookup. intros i q Eq. apply (f_equal (fun l => l !! i)) in Ec.
  change (((config <$> v_queues d') !! i) = ((config <$> v_queues d) !! i)) in Ec. rewrite !list_lookup_fmap, Eq in Ec.
  destruct (v_queues d !! i) as [q0|] eqn:Eq0; [|done]. injection Ec as Ec. apply (config_typed q0); [by unfold config; congruence| |].
  - apply (queue_ok_ranges q m). by apply (proj1 (Forall_lookup _ _) (do_ready _ _ _ Hd Ha) i).
  - by apply (proj1 (Forall_lookup _ _) Ht i).
Qed.

Lemma after_ok limit T T' t d m : vm_ok limit T t -> device_ok T' d m -> same_map (mem t) m -> static d = static (device t) ->
  (activated d = false -> v_queues d = v_queues (device t)) -> vm_ok limit T' (after t d m).
Proof.
  intros [Hf Hd Ht Hav Hac Hs] Hd' Hm Es Hi. pose proof (static_typed T' (device t) d m Es Ht Hd') as Hty.
  unfold static in Es. split; cbn; [by apply (flat_same limit (mem t))|done| |congruence| |].
  - destruct (activated d) eqn:Ea; [by apply Hty|]. by rewrite (Hi eq_refl).
  - replace (v_acked_features d) with (v_acked_features (device t)) by congruence. done.
  - intros E. apply Hs. congruence.
Qed.

Lemma reset_event_ok T t irq_ok : device_ok T (device t) (mem t) -> activated (device t) = true ->
  exists r d m, send_transport_reset_event (running t) (mem t) irq_ok = Ret (r, d, m) /\ device_ok T d m /\ same_map (mem t) m /\ activated d = true.
Proof.
  intros [Hb Hl He Hr] Ha. specialize (Hr Ha). unfold send_transport_reset_event, device_mem, queue_at, running. cbn [activated with_irq v_queues backend].
  rewrite Ha, bind_Ret. destruct (lookup_lt_is_Some_2 (v_queues (device t)) EVQ_INDEX) as [q Eq]; [rewrite Hl; unfold EVQ_INDEX, NUM_QUEUES; lia|].
  rewrite Eq. cbn [unwrap]. rewrite bind_Ret. pose proof (proj1 (Forall_lookup _ _) Hr _ q Eq) as Hq.
  assert (Hfin : forall q' m', queue_ok q' m' -> same_map (mem t) m' ->
    Forall (fun q => queue_ok q m') (<[EVQ_INDEX := q']> (v_queues (device t)))).
  { intros q' m' Hq' Hm. apply Forall_insert; [|done]. eapply Forall_impl; [exact Hr|]. intros q0 Hq0. by apply (queue_ok_mem q0 (mem t)). }
  destruct (pop_spec q (mem t) Hq) as (idx & r & q1 & _ & -> & Hq1 & Hp). rewrite bind_Ret. destruct r as [head|].
  2: { do 3 eexists. split; [done|]. split; [|done]. split; cbn; try done; [by rewrite length_insert|]. intros _. by apply Hfin. }
  destruct Hp as (_ & Hpc & _ & Hu). destruct (pending_fields q (mem t) _ head Hpc) as (_ & _ & _ & Hix).
  set (m1 := (write_obj 4 (mem t) VIRTIO_VSOCK_EVENT_TRANSPORT_RESET (dc_addr head)).2).
  assert (Hm1 : same_map (mem t) m1) by (intros x; apply write_obj_mapped).
  pose proof (queue_ok_mem q1 (mem t) m1 Hq1 Hm1) as Hq1'. assert (Es : q_size q1 = q_size q) by (rewrite <-Hu; done).
  destruct (add_used_ok q1 m1 (dc_index head) (dc_len head) Hq1' ltac:(lia)) as (_ & _ & _ & Ea). rewrite Ea, bind_Ret.
  do 3 eexists. split; [done|]. assert (Hm2 : forall v1 a1 v2 a2 v3 a3,
    same_map (mem t) (write_obj 2 (write_obj 4 (write_obj 4 m1 v1 a1).2 v2 a2).2 v3 a3).2).
  { intros v1 a1 v2 a2 v3 a3 x. rewrite !write_obj_mapped. apply Hm1. }
  split; [|split; [apply Hm2|done]]. split; cbn; try done; [by rewrite length_insert|]. intros _. apply Hfin; [|apply Hm2].
  apply (queue_ok_mem _ m1); [|intros x; by rewrite !write_obj_mapped]. destruct Hq1'. split; try done; by apply wadd_range.
Qed.

Lemma vm_ranges limit T t : vm_ok limit T t -> Forall queue_ranges (v_queues (device t)).
Proof.
  intros [_ _ Ht _ _ _]. eapply Forall_impl; [exact Ht|]. apply qt_ranges.
Qed.

(** Restoring returns, and what it returns is as it should be. *)
Lemma restore_ok limit T T' t b events evt created : vm_ok limit T t -> b_inv T' b -> length events = NUM_QUEUES ->
  exists r, vsock_restore (mem t) b events evt created (vsock_save (M := M) (running t)) = Ret r /\
    forall d, r = Ok d -> vm_ok limit T' (transport_restore (mem t) d (irq_status d) (transport_save t)).
Proof.
  intros Hv Hb He. pose proof Hv as [Hf Hd Ht Hav Hac Hs]. unfold vsock_restore.
  destruct (build_queues_flat (running t) (irq_status (running t)) (mem t) limit VIRTIO_ID_VSOCK NUM_QUEUES QUEUE_SIZE Hf) as (r & E & Hr);
    [unfold QUEUE_SIZE; lia|by apply (vm_ranges limit T)|].
  change (fs_virtio_state (vsock_save (M := M) (running t))) with (from_device (running t) (irq_status (running t))).
  change persist_dev with vsock_dev. rewrite E, bind_Ret. destruct r as [l|]; [|by eexists]. unfold with_queues.
  destruct created; [|by eexists]. eexists. split; [done|]. intros d [= <-]. destruct (Hr l eq_refl) as (El & Hm & Hrg & Hsup & Hok).
  split; cbn; [done| | |done..].
  - split; cbn; [done|done|by rewrite length_take, El, He|done].
  - apply Forall_forall. intros q Hin. split; [by apply (proj1 (Forall_forall _ _) Hm)| |by apply (proj1 (Forall_forall _ _) Hrg)].
    rewrite (proj1 (Forall_forall _ _) Hsup q Hin). by apply (uses_suppression_sub _ AVAIL_FEATURES).
Qed.

Lemma vm_run_ok limit T t : vm_run limit T t -> vm_ok limit T t.
Proof.
  induction 1 as [T m cid b events evt d Hf Hb Hev Hd|T T' t _ IH HT|T t m _ IH Hm|T t offset data t' _ IH Hb E
    |T U t source evset i d m ops _ IH Hi E|T t irq_ok r d m _ IH Ha E|T T' t b events evt d _ IH Hb He E].
  - injection Hd as <-. split; cbn; [done| | |done|intros n _; by rewrite Z.bits_0|done].
    + split; cbn; try done. rewrite length_take, Hev. done.
    + repeat (constructor; cbn); unfold in_range; lia.
  - destruct IH as [Hf Hd Ht Hav Hac Hs]. split; try done. by apply (device_ok_later T).
  - apply (after_ok limit T); try done. apply (device_ok_mem T _ (mem t)); [by apply running_ok, IH|done].
  - by apply (write_vm limit T t offset data).
  - destruct (process_event_safe source evset i T U (running t) (mem t)) as [_ Ho]; [by apply running_ok, IH|done|].
    destruct (Ho _ _ _ E) as (Hd & Hm & Ea). change (activated d = activated (device t)) in Ea.
    apply (after_ok limit T); try done; [by apply process_event_static in E|]. intros Ea'. rewrite Ea in Ea'.
    destruct (process_event_idle source evset i (running t) (mem t) d m ops Ea' E) as [-> _]. done.
  - destruct (reset_event_ok T t irq_ok (vk_device _ _ _ IH) Ha) as (r' & d' & m' & E' & Hd & Hm & Ea).
    pose proof (reset_event_static _ _ _ _ _ _ E). rewrite E in E'. injection E' as <- <- <-. apply (after_ok limit T); try done. congruence.
  - destruct (restore_ok limit T T' t b events evt true IH Hb He) as (r & E' & Hr). rewrite E in E'. injection E' as <-. by apply Hr.
Qed.

(** A guest cannot make the VMM panic through its vsock device: whatever it writes to
    its memory and to the registers of the transport, in any order with the events of the
    queues and of the backend, every register write returns, no event makes the device
    panic, and announcing a restored snapshot to the guest returns. Once the device is
    activated its queues lie in guest memory. *)
Theorem vsock_vm_safe limit T t : vm_run limit T t ->
  (forall offset data, exists t', mmio_write t offset data = Ret t') /\
  (forall source evset i U, input_ok T i U -> process_event source evset i (running t) (mem t) <> Crash) /\
  (activated (device t) = true ->
     Forall (fun q => queue_ok q (mem t)) (v_queues (device t)) /\
     forall irq_ok, exists r, send_transport_reset_event (running t) (mem t) irq_ok = Ret r).
Proof.
  intros Hok%vm_run_ok. split; [|split].
  - intros offset data. by apply (write_total limit T).
  - intros source evset i U Hi. apply (process_event_safe source evset i T U); [by apply running_ok, Hok|done].
  - intros Ha. split; [by apply (do_ready _ _ _ (vk_device _ _ _ Hok))|]. intros irq_ok.
    destruct (reset_event_ok T t irq_ok (vk_device _ _ _ Hok) Ha) as (r & d & m & -> & _). by eexists.
Qed.

(** The device that a snapshot of [t] should give, with backend [b] and new events. *)
Definition restored t (b : B) (events : list Z) (evt : Z) : Vsock B :=
  mkVsock B (v_cid (device t)) (v_queues (device t)) events b (v_avail_features (device t)) (v_acked_features (device t))
    (interrupt_status t) evt (activated (device t)).

Lemma sub_range a b : subfeatures a b -> in_range 64 b -> in_range 64 a.
Proof.
  intros Hs Hb. replace a with (Z.land b a); [by apply land_range|]. apply Z.bits_inj'. intros n Hn. rewrite Z.land_spec.
  destruct (Z.testbit a n) eqn:Ea; [by rewrite (Hs n Hn Ea)|apply andb_false_r].
Qed.

Lemma check_vm limit T t : vm_ok limit T t ->
  exists ok, check_queues (v_queues (device t)) (mem t) (activated (device t)) QUEUE_SIZE = Ret ok /\
    if activated (device t) then all_valid (v_queues (device t)) (mem t) = Ret ok
    else ok = forallb (fun q => q_size q <=? QUEUE_SIZE) (v_queues (device t)).
Proof.
  intros [Hf Hd Ht _ _ _].
  assert (Hsz : forall P : Queue -> Prop, Forall P (v_queues (device t)) -> (forall q, P q -> queue_typed q -> q_size q <= QUEUE_SIZE) ->
    Forall (fun q => max_size q = QUEUE_SIZE /\ q_size q <= QUEUE_SIZE) (v_queues (device t))).
  { intros P HP Hi. apply Forall_forall. intros q Hin. pose proof (proj1 (Forall_forall _ _) Ht q Hin) as Hq.
    split; [apply Hq|]. apply Hi; [|done]. by apply (proj1 (Forall_forall _ _) HP). }
  destruct (activated (device t)) eqn:Ea.
  - destruct (all_valid_ok limit (mem t) (v_queues (device t)) Hf Ht) as (ok & E & _). exists ok. split; [|done].
    rewrite check_queues_all; [done|]. apply (Hsz _ (do_ready _ _ _ Hd Ea)). intros q Hq [Hm _ _]. rewrite <-Hm. apply Hq.
  - eexists. split; [|done]. destruct (forallb _ _) eqn:Ef.
    + rewrite check_queues_all; [done|]. apply (Hsz (fun q => q_size q <= QUEUE_SIZE)); [|done].
      apply Forall_forall. intros q Hin%list_elem_of_In. apply Z.leb_le. by apply (proj1 (forallb_forall _ _) Ef).
    + apply check_queues_oversized. apply Exists_exists. apply not_true_iff_false in Ef.
      destruct (decide (Exists (fun q => QUEUE_SIZE < q_size q) (v_queues (device t)))) as [Hx%Exists_exists|Hn]; [done|].
      destruct Ef. apply forallb_forall. intros q Hin%list_elem_of_In. apply not_Exists_Forall in Hn; [|intros q0; apply Z_lt_dec].
      apply Z.leb_le. pose proof (proj1 (Forall_forall _ _) Hn q Hin). cbn in *. lia.
Qed.

(** Whenever a snapshot is taken, restoring it gives the same device and the same transport,
    with a new backend and new events, or is refused, and never panics. It is refused
    exactly if the device is activated and a queue is not valid, or if it is not and the
    driver had chosen a size above the maximum for a queue. *)
Theorem snapshot_restores limit T t b events evt : vm_run limit T t -> length events = NUM_QUEUES ->
  exists ok, vsock_restore (mem t) b events evt true (vsock_save (M := M) (running t)) =
      Ret (if ok : bool then Ok (restored t b events evt) else Err VirtioState) /\
    (if activated (device t) then all_valid (v_queues (device t)) (mem t) = Ret ok
     else ok = forallb (fun q => q_size q <=? QUEUE_SIZE) (v_queues (device t))) /\
    let d := restored t b events evt in transport_restore (mem t) d (irq_status d) (transport_save t) = after t d (mem t).
Proof.
  intros Hv%vm_run_ok He. pose proof (do_queues _ _ _ (vk_device _ _ _ Hv)) as Hl. destruct (check_vm limit T t Hv) as (ok & Ec & Hok).
  exists ok. split; [|done]. unfold vsock_restore.
  assert (Eq : build_queues_checked (M := M) (from_device (running t) (interrupt_status t)) (mem t) VIRTIO_ID_VSOCK NUM_QUEUES QUEUE_SIZE =
    (ok ← check_queues (v_queues (device t)) (mem t) (activated (device t)) QUEUE_SIZE; Ret (if ok : bool then Ok (v_queues (device t)) else Err tt))).
  { rewrite <-Hl. destruct Hv as [_ _ Ht Hav Hac _]. refine (queues_restored (running t) (interrupt_status t) (mem t) QUEUE_SIZE _ _ _); cbn.
    - by rewrite Hav.
    - by apply (sub_range _ AVAIL_FEATURES).
    - eapply Forall_impl; [exact Ht|]. intros q [Hm Hs _]. split; [done|]. by rewrite (uses_suppression_sub _ AVAIL_FEATURES). }
  change (fs_virtio_state (vsock_save (running t))) with (from_device (running t) (interrupt_status t)).
  change persist_dev with vsock_dev. rewrite Eq, Ec, !bind_Ret. destruct ok; [|done]. unfold with_queues, restored. cbn.
  by rewrite Hl, firstn_all2 by lia.
Qed.
End Vm.
