(* ===== verification/VsockService.v ===== *)
(** * The vsock device with its multiplexer

    The multiplexer of [VsockMuxer] implements the interface the device of [VsockDevice]
    relies on: what was proved of the device against the interface holds of the two
    together. *)

From Stdlib Require Import ZArith Lia Ascii String.
From stdpp Require Import functions prelude gmap.
From S2P Require Import Prelude Text GuestMemory VirtioQueue QueueRuns Mmio VirtioPersist TxBuf VsockPacket VsockConnection VsockMuxer VsockTimers VsockMuxerInv VsockMuxerRuns VsockDevice VsockPersist VsockVm.

Section Service.
Context {S : Type} `{Stream S} {E : Type} `{Epoll E} {M : Type} `{GuestRegions M} `{Profile}.
Abbreviation Muxer := (@VsockMuxer S E).
Variable o : @Order S.
Implicit Types (b : Muxer) (m : M).

Definition blank_packet : VsockPacket := mkPacket 0 default_header None 0.

(** What the host decides during a call: the time, what connecting to the socket of a port
    gives, and the events that wait, with what accepting gives. *)
Record World := mkWorld {
  w_now : Z;
  w_connect : Muxer -> Z -> list Z -> result (UnixStream S) IoError;
  w_events : list (Z * (bool * bool) * (Muxer -> result (UnixStream S) IoError))
}.

#[export] Instance muxer_backend : VsockBackend World Muxer M := {|
  backend_recv w b p m := muxer_recv_pkt o b p m (w_now w);
  backend_send w b p m := b ← muxer_send_pkt o b p m (w_connect w b (dst_port p)) (w_now w); Done (Ok tt, b);
  backend_pending := muxer_has_pending_rx;
  backend_notify w b _ := muxer_notify o b (w_events w) (w_now w);
  backend_evset := muxer_get_polled_evset;
  backend_fd b := epoll_fd (epoll b)
|}.

(** New sockets have new descriptors, and nobody listens for the ports that are handed
    out. *)
Definition world_ok (w : World) : Prop :=
  (forall b port path st, w_connect w b port path = Ok st -> fresh_fd b (as_raw_fd st) /\ port < 2 ^ 30) /\
  forall fd ev accept, (fd, ev, accept) ∈ w_events w -> forall b st, accept b = Ok st -> fresh_fd b (as_raw_fd st).

(** ** Where a packet is received *)

(** [p'] is [p] with another header, and [m'] is [m] but for the buffer. *)
Definition in_place (p p' : VsockPacket) m m' : Prop :=
  hdr_addr p' = hdr_addr p /\ buf_addr p' = buf_addr p /\ buf_size p' = buf_size p /\
  (0 <= pkt_len p -> 0 <= pkt_len p') /\ agrees (buffer p) m m'.

Lemma in_place_refl p p' m : hdr_addr p' = hdr_addr p -> buf_addr p' = buf_addr p -> buf_size p' = buf_size p ->
  (0 <= pkt_len p -> 0 <= pkt_len p') -> in_place p p' m m.
Proof. intros. split_and!; done || apply agrees_refl. Qed.

Lemma in_place_trans p1 p2 p3 m1 m2 m3 : in_place p1 p2 m1 m2 -> in_place p2 p3 m2 m3 -> in_place p1 p3 m1 m3.
Proof.
  intros (A1 & A2 & A3 & A4 & A5) (B1 & B2 & B3 & B4 & B5). split_and!; [congruence..|auto|].
  apply (agrees_trans _ m1 m2 m3); [done|]. eapply agrees_weaken; [|exact B5]. intros x (a & Ea & Hx). exists a.
  by rewrite <-A2, <-A3.
Qed.

Lemma read_at_mapped p m offset (src : UnixStream S) count r src' m' :
  read_at_offset_from p m offset src count = (r, src', m') -> forall x, is_Some (byte_at m' x) <-> is_Some (byte_at m x).
Proof.
  unfold read_at_offset_from. destruct (buf_region_addr p m offset count) as [[[start len] ra]|e] eqn:Eb; [|by intros [= _ _ <-]].
  apply buf_region_addr_ok in Eb as (a & _ & _ & Hc & _). unfold region_read_from.
  destruct (read src count) as [s' [l|e]] eqn:Er; [|by intros [= _ _ <-]].
  apply read_ok in Er as [_ Hok]; [|lia]. pose proof (fun x => write_mapped m (start + ra) l x Hok) as Hm.
  destruct (write_bytes m (start + ra) l) as [[[]|g] m1]; intros [= _ _ <-]; exact Hm.
Qed.

Lemma recv_credit_place (c : VsockConnection (UnixStream S)) p m r c' p' m' :
  recv_credit_update c p m = (r, c', p', m') -> in_place p p' m m'.
Proof.
  unfold recv_credit_update. destruct (rx_remove _ _) as [u s]. destruct (_ && _); intros [= <- <- <- <-]; by apply in_place_refl.
Qed.

Lemma recv_read_place (c : VsockConnection (UnixStream S)) p m now r c' p' m' :
  recv_read c p m now = (r, c', p', m') -> in_place p p' m m'.
Proof.
  unfold recv_read. destruct (read_at_offset_from p m 0 (stream c) _) as [[r1 s1] m1] eqn:Er.
  pose proof (read_at_mapped _ _ _ _ _ _ _ _ Er) as Hm. destruct r1 as [n|e].
  - apply read_at_offset_ok in Er as (a & l & Ea & _ & -> & Hn & Hc & Hx).
    assert (Hag : agrees (buffer p) m m1).
    { split; [|done]. intros x Hnb. rewrite Hx. destruct (_ && _) eqn:Eb; [|done]. destruct Hnb. exists a. split; [done|]. unfold span. lia. }
    destruct (Z.of_nat (length l) =? 0); intros [= <- <- <- <-]; split_and!; try done. intros _. cbn. apply wrap_range. lia.
  - apply read_at_offset_err in Er as [_ ->]. destruct (would_block e); [apply recv_credit_place|].
    intros [= <- <- <- <-]. by apply in_place_refl.
Qed.

Lemma recv_place (c : VsockConnection (UnixStream S)) p m now r c' p' m' :
  recv_pkt c p m now = (r, c', p', m') -> in_place p p' m m'.
Proof.
  intros Er. apply (in_place_trans p (init_pkt c p) p' m m m'); [by apply in_place_refl|]. revert Er. unfold recv_pkt.
  generalize (init_pkt c p) as q. intros q.
  repeat (destruct (rx_remove _ _) as [? ?]; match goal with |- (if ?b then _ else _) = _ -> _ => destruct b end;
    [intros [= <- <- <- <-]; by apply in_place_refl|]).
  destruct (rx_remove _ _) as [rw s]. destruct rw; [|apply recv_credit_place]. unfold recv_data.
  repeat case_match; try (intros [= <- <- <- <-]; by apply in_place_refl); apply recv_read_place.
Qed.

Lemma apply_recv_place b key p m now r dp p' m' b' :
  apply_conn_mutation b key (Err NoData, true, p, m) (recv_from p m now) now = Ret (r, dp, p', m', b') -> in_place p p' m m'.
Proof.
  unfold apply_conn_mutation. destruct (conn_map b !! key) as [c|]; [|intros [= <- <- <- <- <-]; by apply in_place_refl].
  intros (x & Ex & E1)%bind_Ret_inv. apply bind_Ret_inv in E1 as (b1 & _ & [= E2 _]). unfold recv_from in Ex.
  destruct (recv_pkt c p m now) as [[[r1 c1] p1] m1] eqn:Er. injection Ex as <-. cbn in E2. injection E2 as <- <- <- <-.
  by apply recv_place in Er.
Qed.

Lemma recv_loop_place now fuel : forall b p m r b' p' m',
  recv_loop fuel b p m now = Done (r, b', p', m') -> in_place p p' m m'.
Proof.
  induction fuel as [|fuel IH]; intros b p m r b' p' m'; cbn [recv_loop]; [done|].
  destruct (rxq_peek (rxq b)) as [[key|x y]|]; [| |by intros [= <- <- <- <-]; apply in_place_refl].
  - intros ([[[[r1 dp] p1] m1] b1] & Ea%lift_Done_inv & E1)%bind_Done_inv. apply apply_recv_place in Ea.
    apply bind_Done_inv in E1 as (b2 & _ & E2). destruct r1 as [u|e]; [by injection E2 as <- <- <- <-|].
    apply (in_place_trans p p1 p' m m1 m'); [done|]. by apply IH in E2.
  - intros (b1 & _ & [= <- <- <- <-])%bind_Done_inv. by apply in_place_refl.
Qed.

Lemma muxer_recv_place b p m now r b' p' m' : muxer_recv_pkt o b p m now = Done (r, b', p', m') -> in_place p p' m m'.
Proof. apply recv_loop_place. Qed.

(** ** The laws *)

Lemma tx_guest_packet m c p : tx_packet m c p -> exists l, guest_packet m p l.
Proof.
  intros (_ & _ & _ & _ & _ & [(Hl & _ & Hs)|(Hl & Hs & d & _ & _ & Ea & Es & Hb)]); [exists []; left; done|].
  destruct (read_bytes_backed m (dc_addr d) (Z.to_nat (pkt_len p))) as (l & El & _).
  { apply (backed_sub m (dc_addr d) (dc_len d)); [done|lia|]. rewrite <-Es. lia. }
  exists l. right. by exists (dc_addr d).
Qed.

Lemma notify_ok now events : (forall fd ev accept, (fd, ev, accept) ∈ events -> forall b st, accept b = Ok st -> fresh_fd b (as_raw_fd st)) ->
  forall T b h, mux_run (M := M) o false T b h -> T <= now ->
  muxer_notify o b events now <> Crash /\
  forall b', muxer_notify o b events now = Done b' -> exists h', mux_run (M := M) o false now b' h'.
Proof.
  induction events as [|[[fd ev] accept] events IH]; intros Hev T b h Hrun HT; cbn [muxer_notify].
  { split; [done|]. intros b' [= <-]. exists h. by apply (mr_wait o false T). }
  assert (Hacc : forall st, accept b = Ok st -> fresh_fd b (as_raw_fd st)) by (intros st; apply (Hev fd ev accept); by left).
  destruct (event_inv o false false h T now b fd ev (accept b) (run_inv o false T b h Hrun) HT ltac:(done) Hacc) as [(b1 & E1 & _)|[_ E1]];
    rewrite E1; [|done]. rewrite bind_Done.
  apply (IH ltac:(intros f e a Hin; apply (Hev f e a); by right) now b1 (history_after h b b1)); [|lia].
  by apply (mr_event o false false T now b h fd ev (accept b)).
Qed.

#[export] Instance muxer_laws : BackendLaws World Muxer M.
Proof.
  refine {| b_inv T b := exists h, mux_run (M := M) o false T b h; b_time := w_now; b_world := world_ok |}.
  - intros T T' b [h Hr] HT. exists h. by apply (mr_wait o false T).
  - intros T w b p m [h Hr] HT Hw.
    destruct (recv_inv o false h T (w_now w) b p m (run_inv o false T b h Hr) HT) as (r & b' & p' & m' & Er & _).
    exists r, b', p', m'. split; [done|]. split; [exists h; by apply (mr_recv o false false T (w_now w) b h p m r b' p' m')|].
    by apply muxer_recv_place in Er.
  - intros T w b c p m [h Hr] HT [Hw _] Htx. destruct (tx_guest_packet m c p Htx) as [l Hl].
    assert (Hcon : connects b p (w_connect w b (dst_port p))) by (intros path st; apply Hw).
    destruct (send_inv o false false h T (w_now w) b p m l _ (run_inv o false T b h Hr) HT Hl Hcon ltac:(done) ltac:(done)) as (b' & Es & _).
    exists (Ok tt), b'. cbn. rewrite Es. split; [done|]. eexists.
    by apply (mr_send o false false T (w_now w) b h p m l (w_connect w b (dst_port p))).
  - intros T w b ev [h Hr] HT [_ Hw]. by apply (notify_ok (w_now w) (w_events w) Hw T b h).
Defined.

(** ** Theorems *)

Abbreviation History := (gmap ConnMapKey (list Z * list Z)).

(** The multiplexer took the packets of the chains [ls] one after the other, from memories
    that are [m] but for [F]; [h] tells what the guest sent on each connection. *)
Inductive carried (F : Z -> Prop) m : (nat -> World) -> History -> Muxer -> list (DescriptorChain * Z) -> History -> Muxer -> Prop :=
| carried_nil ws h b : carried F m ws h b [] h b
| carried_bad ws h b head m1 e l h' b' : agrees F m m1 -> from_tx_virtq_head m1 head = Ret (Err e) ->
    carried F m (fun i => ws (Datatypes.S i)) h b l h' b' -> carried F m ws h b ((head, 0) :: l) h' b'
| carried_pkt ws h b head m1 p data b1 l h' b' : agrees F m m1 -> from_tx_virtq_head m1 head = Ret (Ok p) -> guest_packet m1 p data ->
    muxer_send_pkt o b p m1 (w_connect (ws O) b (dst_port p)) (w_now (ws O)) = Done b1 ->
    carried F m (fun i => ws (Datatypes.S i)) (history_after (sent_history h b p data) b b1) b1 l h' b' ->
    carried F m ws h b ((head, 0) :: l) h' b'.

Lemma served_carried (F : Z -> Prop) m (P : DescriptorChain -> M -> M -> Prop) ws b ls b' :
  (forall head m1 m2, P head m1 m2 -> agrees F m m1) -> served tx_handle P ws b ls b' ->
  (forall head len, (head, len) ∈ ls -> in_range 16 (dc_ttl head)) ->
  forall T U h, worlds T ws U -> T <= U -> mux_run (M := M) o false T b h ->
  exists h', carried F m ws h b ls h' b' /\ mux_run (M := M) o false U b' h'.
Proof.
  intros HP. induction 1 as [ws b|ws b head len l b1 b2 m1 m2 HPh Eh _ IH]; intros Ht T U h Hws HU Hrun.
  { exists h. split; [constructor|by apply (mr_wait o false T)]. }
  pose proof (worlds_rest T ws U Hws) as Hws'. destruct (proj1 Hws O) as [Htm [Hcon _]]. cbn [b_time b_world muxer_laws] in *.
  assert (Hl : forall hd k, (hd, k) ∈ l -> in_range 16 (dc_ttl hd)) by (intros hd k Hin; apply (Ht hd k); by right).
  revert Eh. unfold tx_handle.
  destruct (from_tx_virtq_head_exact m1 head blank_packet (Ht head len ltac:(by left))) as ([p|e] & Ep & _); rewrite Ep; cbn [lift]; rewrite bind_Done.
  - destruct (from_tx_virtq_head_exact m1 head p (Ht head len ltac:(by left))) as (r & Ep' & Htx). rewrite Ep in Ep'. injection Ep' as <-.
    destruct (tx_guest_packet m1 head p (proj1 Htx eq_refl)) as [data Hd]. cbn [backend_send muxer_backend].
    intros (x & Ex & E2)%bind_Done_inv. apply bind_Done_inv in Ex as (b3 & Es & [= <-]). injection E2 as <- <- <-.
    destruct (IH Hl (w_now (ws O)) U (history_after (sent_history h b p data) b b3)) as (h' & Hc & Hr); [done|lia| |].
    + apply (mr_send o false false T (w_now (ws O)) b h p m1 data (w_connect (ws O) b (dst_port p))); try done; [lia|].
      intros path st. apply Hcon.
    + exists h'. split; [|done]. by apply (carried_pkt F m ws h b head m1 p data b3); [eapply HP|..].
  - intros [= <- <- <-]. destruct (IH Hl (w_now (ws O)) U h) as (h' & Hc & Hr); [done|lia|by apply (mr_wait o false T); [|lia]|].
    exists h'. split; [|done]. by apply (carried_bad F m ws h b head m1 e); [eapply HP|..].
Qed.

Lemma muxer_never_refuses w b head m r b' m' : tx_handle w b head m = Done (r, b', m') -> r <> None.
Proof.
  unfold tx_handle. intros (x & _ & E1)%bind_Done_inv. destruct x as [p|e]; [|by injection E1 as <- _ _].
  apply bind_Done_inv in E1 as (y & Ey & E2). cbn in Ey. apply bind_Done_inv in Ey as (b1 & _ & [= <-]). by injection E2 as <- _ _.
Qed.

(** C20: What the guest sends reaches the sockets: when the driver's rings do not overlap
    and at most a queue's worth of chains waits, walking the TX queue ends and takes every chain up to
    the first that cannot be read. Each is returned in the next entry of the used ring, in order, and
    nothing else of the guest's memory is written. The packets go to their connections in
    the same order, so that on every connection the bytes the socket was given, followed by those still
    buffered, are the ones the guest sent before, followed by the data of these packets. *)
Theorem service_tx fuel ws T U (d : Vsock Muxer) m q n h : device_ok T d m -> activated d = true -> v_queues d !! TXQ_INDEX = Some q ->
  worlds T ws U -> T <= U -> waiting q m n -> (n <= Z.to_nat (q_size q))%nat -> (forall x, used_area q x -> ~ rings q x) -> (n < fuel)%nat ->
  mux_run (M := M) o false T (backend d) h ->
  exists ls hu d' m' h', process_tx fuel ws d m = Done (hu, d', m') /\
    (length ls = n \/ (length ls < n)%nat /\ chain q m (length ls) = None) /\ hu = negb (bool_decide (ls = [])) /\
    (forall i head len, ls !! i = Some (head, len) -> chain q m i = Some head /\
       used_entry q m' (next_used q + Z.of_nat i) = (Some (dc_index head), Some 0)) /\
    v_queues d' = <[TXQ_INDEX := advance q (length ls)]> (v_queues d) /\ agrees (used_area q) m m' /\
    carried (used_area q) m ws h (backend d) ls h' (backend d') /\
    forall key c, conn_map (backend d') !! key = Some c -> stream_of h' key c.
Proof.
  intros Hd Ha Eq Hws HU Hw Hn Hap Hf Hrun.
  destruct (process_in_order tx_area tx_handle TXQ_INDEX fuel ws T U d m q n tx_handles) as (ls & hu & q' & d' & m' & Ep & Eq' & Hio);
    [done..|by split|done|]. destruct Hio as [Il Ic Iq Ie _ _ Iu If (bk & Hend & Hsv)].
  assert (Hto : forall x, touched tx_area q m n x -> used_area q x) by (intros x [Hx|(i & hd & _ & _ & [])]; done).
  assert (Hstop : (length ls = n \/ (length ls < n)%nat /\ chain q m (length ls) = None) /\ backend d' = bk).
  { destruct Hend as [He|(hd & mk & _ & _ & _ & E1)]; [done|]. by apply muxer_never_refuses in E1. }
  destruct Hstop as [Hstop Ebk]. pose proof (proj1 (Forall_lookup _ _) (do_ready _ _ _ Hd Ha) _ q Eq) as Hq.
  pose proof (fun HP Ht => served_carried (used_area q) m _ ws (backend d) ls bk HP Hsv Ht T U h Hws HU Hrun) as Hcar.
  destruct Hcar as (h' & Hc & Hr); [by intros hd m1 m2 [Hag _]; exact (agrees_weaken _ _ _ _ Hto Hag)| |].
  { intros hd len Hin. apply list_elem_of_lookup in Hin as [i El]. destruct (pending_fields q m _ hd (Ic i hd len El)) as (_ & _ & Httl & _).
    destruct Hq; range_solve. }
  exists ls, hu, d', m', h'. split; [done|]. split; [done|]. split; [done|]. split.
  { intros i hd len El. split; [by apply (Ic i hd len)|]. rewrite (Ie i hd len El). apply tx_lengths in Hsv.
    by rewrite (proj1 (Forall_lookup _ _) Hsv i _ El : len = 0). }
  rewrite <-Iq. split; [done|]. split; [exact (agrees_weaken _ _ _ _ Hto If)|]. rewrite Ebk. split; [done|].
  intros key c Ek. apply live_stream. by apply (mv_conns _ _ _ _ _ (run_inv o false U bk h' Hr) key c I).
Qed.

(** The multiplexer had nothing for the next chain. *)
Definition ran_dry (ws : nat -> World) q m (k : nat) (bk b' : Muxer) : Prop :=
  exists head p p' mk mk' e, chain q m k = Some head /\ from_rx_virtq_head mk head = Ret (Ok p) /\
    muxer_recv_pkt o bk p mk (w_now (ws k)) = Done (Err e, b', p', mk') /\ rx_q (rxq b') = [].

Lemma refused_dry ws T h q m k bk b' head mk m' : mux_run (M := M) o false T bk h -> T <= w_now (ws k) -> chain q m k = Some head ->
  rx_handle (ws k) bk head mk = Done (None, b', m') -> ran_dry ws q m k bk b'.
Proof.
  intros Hr HT Hc. unfold rx_handle. intros (x & Ex%lift_Done_inv & E2)%bind_Done_inv. destruct x as [p|e]; [|done].
  destruct (recv_inv o false h T (w_now (ws k)) bk p mk (run_inv o false T bk h Hr) HT) as (r & b1 & p1 & m1 & Er & _ & Hres).
  cbn [backend_recv muxer_backend] in E2. rewrite Er, bind_Done in E2. destruct r as [u|e].
  - destruct (commit_hdr p1 m1) as [[u'|e] m2]; [|done]. by apply bind_Done_inv in E2 as (l & _ & [=]).
  - injection E2 as <- _. by exists head, p, p1, mk, m1, e.
Qed.

(** C21: What the multiplexer has for the guest is delivered whole and in order: when the
    driver keeps its rings and buffers apart and at most a queue's worth of chains waits,
    walking the RX queue ends. Each chain taken is returned in the next entry of the used
    ring, in order, and nothing but the used ring and the chains is written. The packets that
    the multiplexer of the device gives, one after the other, are in the chains ([deliveries]):
    the header and the data of each, with their length in the entry. The length is zero only
    for a chain that is not fit for a packet, which takes none, and for a packet of more than
    64 KiB. The walk stops before the waiting chains are used up only at one that cannot be
    read, or when the multiplexer has no packet and nothing is scheduled for delivery. *)
Theorem service_rx fuel ws T U (d : Vsock Muxer) m q n : device_ok T d m -> activated d = true -> v_queues d !! RXQ_INDEX = Some q ->
  worlds T ws U -> waiting q m n -> (n <= Z.to_nat (q_size q))%nat -> apart rx_area q m n -> (n < fuel)%nat ->
  exists ls hu d' m' bk, process_rx fuel ws d m = Done (hu, d', m') /\ hu = negb (bool_decide (ls = [])) /\
    (forall i head len, ls !! i = Some (head, len) -> chain q m i = Some head /\
       used_entry q m' (next_used q + Z.of_nat i) = (Some (dc_index head), Some len)) /\
    v_queues d' = <[RXQ_INDEX := advance q (length ls)]> (v_queues d) /\ agrees (touched rx_area q m n) m m' /\
    deliveries (touched rx_area q m n) m m' ws (backend d) ls bk /\
    ((length ls = n \/ (length ls < n)%nat /\ chain q m (length ls) = None) /\ backend d' = bk \/
     (length ls < n)%nat /\ ran_dry ws q m (length ls) bk (backend d')).
Proof.
  intros Hd Ha Eq Hws Hw Hn Hap Hf. pose proof (proj1 (Forall_lookup _ _) (do_ready _ _ _ Hd Ha) _ q Eq) as Hq.
  destruct (rx_in_order fuel ws T U d m q n Hd Ha Eq Hws Hw Hn Hap Hf) as (ls & hu & q' & d' & m' & Ep & Eq' & Hio & Hdel).
  destruct Hio as [Il Ic Iq Ie _ _ Iu If (bk & Hend & Hsv)]. exists ls, hu, d', m', bk. split; [done|]. split; [done|]. split.
  { intros i hd len El. split; [by apply (Ic i hd len)|by apply Ie]. }
  rewrite <-Iq. split; [done|]. split; [done|]. split; [by apply Hdel|]. destruct Hend as [He|(hd & mk & Hk & Hc & _ & E1)]; [by left|].
  right. split; [done|]. assert (Ht : forall i h, chain q m i = Some h -> in_range 16 (dc_ttl h)).
  { intros i h Ec. destruct (pending_fields q m _ h Ec) as (_ & _ & Httl & _). destruct Hq; range_solve. }
  destruct (served_inv rx_area rx_handle _ ws (backend d) ls bk rx_handles Hsv) with (T := T) (U := U) as (T' & [h Hr] & HT'); [|done|apply Hd|].
  { intros h len Hin. apply list_elem_of_lookup in Hin as [i El]. apply (Ht i), (Ic i h len El). }
  apply (refused_dry ws T' h q m (length ls) bk (backend d') hd mk m'); [exact Hr|apply HT'|exact Hc|exact E1].
Qed.

(** C22: A guest cannot make the VMM panic through its vsock device, whatever it writes to
    its memory and to the registers of the transport and however the host's sockets behave: in every state
    that the guest, the transport, the device and the multiplexer can reach together, also
    through snapshots, every
    register write returns, no event makes the device or the multiplexer panic, and
    announcing a restored snapshot returns. What the sockets were given is still, on each
    connection, what the guest sent. *)
Theorem service_safe limit T (t : @MmioTransport M (Vsock Muxer)) : vm_run limit T t ->
  (forall offset data, exists t', @mmio_write _ _ _ (vsock_virtio true) _ t offset data = Ret t') /\
  (forall source evset i U, input_ok T i U -> process_event source evset i (running t) (mem t) <> Crash) /\
  (activated (device t) = true -> forall irq_ok, exists r, send_transport_reset_event (running t) (mem t) irq_ok = Ret r) /\
  exists h, mux_run (M := M) o false T (backend (device t)) h /\
    forall key c, conn_map (backend (device t)) !! key = Some c -> stream_of h key c.
Proof.
  intros Hrun. destruct (vsock_vm_safe limit T t Hrun) as (Hw & He & Hr). split; [done|]. split; [done|]. split; [by intros Ha; apply Hr|].
  apply vm_run_ok in Hrun as [_ [[h Hm] _ _ _] _ _]. exists h. split; [done|]. intros key c Ek. apply live_stream.
  by apply (mv_conns _ _ _ _ _ (run_inv o false T _ h Hm) key c I).
Qed.

Lemma muxer_new_fields cid path fd ep b : VsockMuxer_new (S := S) cid path (Ok fd) (Ok ep) = Ok b ->
  host_sock_path b = path /\ conn_map b = ∅ /\ VsockMuxer.cid b = cid.
Proof.
  unfold VsockMuxer_new. destruct (add_listener _ _ _) as [[u|e] b'] eqn:Ea; [|done]. intros [= <-].
  unfold add_listener in Ea. repeat case_match; by injection Ea as _ <-.
Qed.

(** C24: A snapshot can be taken of the guest's vsock service at any time. Saving and
    restoring it gives back the device and the transport as they were, down to the positions
    in the rings, the acknowledged features and the pending interrupts, with a multiplexer
    that listens on the same path and has no connections, and the guest runs on from there.
    It is refused, without a panic, exactly if the device is activated and a queue is not
    valid, or is not yet activated and the driver asked for a queue of more than 256
    entries. *)
Theorem service_restored limit T T' (t : @MmioTransport M (Vsock Muxer)) fd ep b events evt : vm_run limit T t ->
  backend_restore (v_cid (device t)) (backend_save (backend (device t))) (Ok fd) (Ok ep) = Ok b -> length events = NUM_QUEUES ->
  host_sock_path b = host_sock_path (backend (device t)) /\ conn_map b = ∅ /\ cid b = v_cid (device t) /\
  exists ok, vsock_restore (mem t) b events evt true (vsock_save (M := M) (running t)) =
      Ret (if ok : bool then Ok (restored t b events evt) else Err VirtioState) /\
    (if activated (device t) then all_valid (v_queues (device t)) (mem t) = Ret ok
     else ok = forallb (fun q => q_size q <=? QUEUE_SIZE) (v_queues (device t))) /\
    (ok = true ->
       let d := restored t b events evt in
       transport_restore (mem t) d (irq_status d) (transport_save t) = after t d (mem t) /\ vm_run limit T' (after t d (mem t))).
Proof.
  intros Hrun Hb He. destruct (muxer_new_fields _ _ _ _ _ Hb) as (Hp & Hc & Hi). split; [done|]. split; [done|]. split; [done|].
  destruct (snapshot_restores limit T t b events evt Hrun He) as (ok & Er & Hok & Ht). exists ok. split; [done|]. split; [done|].
  intros ->. split; [done|]. cbv zeta in Ht. rewrite <-Ht. apply (vm_restore limit T T' t b events evt); try done.
  exists ∅. by apply (mr_new o false T' (v_cid (device t)) (host_sock_path (backend (device t))) fd ep).
Qed.
End Service.

(** ** Examples *)

Module ServiceSamples.
Import Samples.
#[local] Existing Instance dev_profile.
#[local] Existing Instance open_stream.

(** The world of a host where nobody listens and nobody connects. *)
Definition quiet_world (now : Z) : @World Sock unit := mkWorld now (fun _ _ _ => Err (Os OtherSystemError)) [].

(** A host that connected to port 7 of the guest sent 65537 bytes; the guest offers credit
    for more. *)
Definition big_sock : UnixStream Sock := mkStream 9 (text "CONNECT 7
" ++ replicate (Z.to_nat 65537) 1, []).
Definition big_accepted := returned (handle_event order opened 5 (true, false) (Ok big_sock) 0) opened.
Definition big_asked := returned (handle_event order big_accepted 9 (true, false) (Err (Os OtherSystemError)) 0) opened.
Definition big_requested := match muxer_recv_pkt order big_asked blank mem 0 with Done (_, m, _, _) => m | _ => opened end.
Definition big_response : VsockPacket :=
  mkPacket 0 (mkHeader 3 2 7 (2 ^ 30) 0 VSOCK_TYPE_STREAM VSOCK_OP_RESPONSE 0 (2 ^ 20) 0) None 0.
Definition big_established := returned (muxer_send_pkt order big_requested big_response mem refused 1) opened.
Definition big := returned (handle_event order big_established 9 (true, false) (Err (Os OtherSystemError)) 2) opened.

Definition is_done {A} (e : outcome A) : bool := match e with Done _ => true | _ => false end.
Lemma returned_done (e : outcome (@VsockMuxer Sock unit)) m : is_done e = true -> e = Done (returned e m).
Proof. by destruct e. Qed.

Lemma run_big : exists h, mux_run (M := list Z) order false 2 big h.
Proof.
  assert (R1 : exists h, mux_run (M := list Z) order false 0 big_accepted h).
  { eexists. apply (mr_event order false false 0 0 opened ∅ 5 (true, false) (Ok big_sock)); [by apply (run_weaken order true), run_opened|lia|done| |].
    - intros st [= <-]. split; [done|]. split; [done|]. intros k c. vm_compute. done.
    - apply returned_done. vm_compute. reflexivity. }
  destruct R1 as [h1 R1]. assert (R2 : exists h, mux_run (M := list Z) order false 0 big_asked h).
  { eexists. apply (mr_event order false false 0 0 big_accepted h1 9 (true, false) (Err (Os OtherSystemError))); [exact R1|lia|done|done|].
    apply returned_done. vm_compute. reflexivity. }
  destruct R2 as [h2 R2]. assert (R3 : exists h, mux_run (M := list Z) order false 0 big_requested h).
  { destruct (muxer_recv_pkt order big_asked blank mem 0) as [[[[r m] p] mm]| |] eqn:Er.
    - exists h2. unfold big_requested. rewrite Er. by apply (mr_recv order false false 0 0 big_asked h2 blank mem r m p mm).
    - assert (Hc : is_done (muxer_recv_pkt order big_asked blank mem 0) = true) by (vm_compute; reflexivity). by rewrite Er in Hc.
    - assert (Hc : is_done (muxer_recv_pkt order big_asked blank mem 0) = true) by (vm_compute; reflexivity). by rewrite Er in Hc. }
  destruct R3 as [h3 R3]. assert (R4 : exists h, mux_run (M := list Z) order false 1 big_established h).
  { eexists. apply (mr_send order false false 0 1 big_requested h3 big_response mem [] refused big_established R3).
    1: lia. 1: done. 1: by left. 1: by intros path st [=]. 1: exact (fun Hb => False_ind _ (Bool.diff_false_true Hb)).
    apply returned_done. vm_compute. reflexivity. }
  destruct R4 as [h4 R4]. eexists.
  apply (mr_event order false false 1 2 big_established h4 9 (true, false) (Err (Os OtherSystemError))); [exact R4|lia|done|done|].
  apply returned_done. vm_compute. reflexivity.
Qed.

(** A memory of one region, as its size and a function. *)
Definition fun_write (m : Z * (Z -> Z)) (a : Z) (l : list Z) : result unit unit * (Z * (Z -> Z)) :=
  if bool_decide (l = []) || (0 <=? a) && (a + Z.of_nat (length l) <=? Z.min m.1 (2 ^ 64))
  then (Ok tt, (m.1, fun x => if (a <=? x) && (x <? a + Z.of_nat (length l)) then default 0 (l !! Z.to_nat (x - a)) else m.2 x))
  else (Err tt, m).
Definition fun_byte_at (m : Z * (Z -> Z)) (a : Z) : option Z :=
  if (0 <=? a) && (a <? Z.min m.1 (2 ^ 64)) then Some (m.2 a mod 256) else None.

Lemma fun_backed m x : is_Some (fun_byte_at m x) <-> 0 <= x < Z.min m.1 (2 ^ 64).
Proof. unfold fun_byte_at. destruct (_ && _) eqn:E; [split; [lia|by eexists]|split; [by intros []|lia]]. Qed.

#[local] Instance fun_memory : GuestMemory (Z * (Z -> Z)).
Proof.
  refine {| GuestMemoryError := unit; byte_at := fun_byte_at; write_bytes := fun_write |}.
  - intros m a b. unfold fun_byte_at. destruct (_ && _) eqn:E; [|done]. intros [= <-].
    split; [unfold in_range; lia|]. apply Z.mod_pos_bound. lia.
  - intros m a l _. setoid_rewrite fun_backed. unfold fun_write. destruct l as [|b l]; [cbn; split; [lia|done]|].
    rewrite bool_decide_false by done. cbn [orb]. destruct (_ && _) eqn:E; cbn [fst]; (split; [|done]) || (split; [done|]).
    + intros _ i Hi. lia.
    + intros Hb. exfalso. pose proof (Hb 0%nat ltac:(cbn; lia)). pose proof (Hb (length l) ltac:(cbn; lia)). cbn [length] in E. compare_in E. lia.
  - intros m a l x Hok Hw. unfold fun_write in *. destruct (_ || _) eqn:E; [|done]. clear Hw. cbn [snd].
    unfold fun_byte_at. cbn [fst snd]. destruct ((a <=? x) && (x <? a + Z.of_nat (length l))) eqn:Ex; [|done].
    compare_in Ex. destruct l as [|b l]; [cbn in Ex; lia|]. rewrite bool_decide_false in E by done. cbn [orb] in E. compare_in E.
    rewrite (proj2 (Z.leb_le 0 x)), (proj2 (Z.ltb_lt x _)) by lia. cbn [andb].
    destruct (lookup_lt_is_Some_2 (b :: l) (Z.to_nat (x - a))) as [y Ey]; [lia|]. rewrite Ey. cbn [default]. f_equal.
    apply Z.mod_small. exact (proj1 (Forall_lookup _ _) Hok _ _ Ey).
  - intros m a l x _. rewrite !fun_backed. unfold fun_write. by destruct (_ || _).
  - intros m a l x _. unfold fun_write. by destruct (_ || _).
Defined.

#[local] Instance fun_regions : GuestRegions (Z * (Z -> Z)).
Proof.
  refine {|
    check_range m a len := (0 <=? a) && (a + len <=? Z.min m.1 (2 ^ 64));
    region_of m a := if (0 <=? a) && (a <? Z.min m.1 (2 ^ 64)) then Some (0, Z.min m.1 (2 ^ 64)) else None;
    access_error _ _ _ := tt
  |}.
  - intros m a len Hl. unfold backed. setoid_rewrite fun_backed. rewrite andb_true_iff, !Z.leb_le. split.
    + intros Hb x Hx. lia.
    + intros Hb. pose proof (Hb a ltac:(lia)). pose proof (Hb (a + len - 1) ltac:(lia)). lia.
  - intros m a start len. destruct (_ && _) eqn:E; [|done]. intros [= <- <-]. compare_in E. split; [lia|]. intros x Hx. apply fun_backed. lia.
  - intros m a start len x. destruct (_ && _) eqn:E; [|done]. intros [= <- <-] Hx.
    by rewrite (proj2 (Z.leb_le 0 x)), (proj2 (Z.ltb_lt x _)) by lia.
Defined.

(** A descriptor table whose first chain is a header of 44 bytes and a buffer of 65537. *)
Definition big_table : list Z :=
  le_encode 8 64 ++ le_encode 4 44 ++ le_encode 2 3 ++ le_encode 2 1 ++
  le_encode 8 128 ++ le_encode 4 65537 ++ le_encode 2 2 ++ le_encode 2 0.
Definition big_mem : Z * (Z -> Z) := (2 ^ 20, fun a => default 0 (big_table !! Z.to_nat a)).
Definition big_chain : DescriptorChain := mkDescriptorChain 0 2 2 0 64 44 3 1.

Definition big_delivery := @rx_handle _ _ _ _ _ (muxer_backend order) _ (quiet_world 3) big big_chain big_mem.

(** How many bytes the socket of the connection has to read. *)
Definition unread (b : @VsockMuxer Sock unit) : option Z :=
  (fun c => Z.of_nat (length (socket (stream c)).1)) <$> conn_map b !! key.
Definition conn_state (b : @VsockMuxer Sock unit) : option ConnState := state <$> conn_map b !! key.

(** A packet of more than 64 KiB loses its data: in a state the multiplexer can reach,
    delivering into an RX chain whose buffer holds 65537 bytes takes that many bytes from
    the socket and then returns the chain to the guest as empty, and the connection goes
    on. *)
Theorem oversize_packet_lost :
  (exists h, mux_run (M := list Z) order false 2 big h) /\ unread big = Some 65537 /\
  exists b' m', big_delivery = Done (Some 0, b', m') /\ unread b' = Some 0 /\ conn_state b' = Some Established.
Proof.
  split; [exact run_big|]. split; [vm_compute; reflexivity|].
  assert (Hc : match big_delivery with
    | Done (l, b', _) => bool_decide (l = Some 0) && bool_decide (unread b' = Some 0) && bool_decide (conn_state b' = Some Established)
    | _ => false end = true) by (vm_compute; reflexivity).
  destruct big_delivery as [[[l b'] m']| |]; [|done|done]. rewrite !andb_true_iff, !bool_decide_eq_true in Hc.
  destruct Hc as [[-> Hu] Hs]. by exists b', m'.
Qed.

(** *** A device with one chain in each queue *)

Definition put (a : Z) (l m : list Z) : list Z := (write_bytes m a l).2.
Definition descriptor (addr len flags next : Z) : list Z := le_encode 8 addr ++ le_encode 4 len ++ le_encode 2 flags ++ le_encode 2 next.
Definition data_packet : VsockPacket := from_guest VSOCK_OP_RW 2.
Definition guest_mem : list Z :=
  put 0 (descriptor 512 44 3 1 ++ descriptor 576 64 2 0) (put 64 (le_encode 2 0 ++ le_encode 2 1) (
  put 128 (descriptor 768 44 1 1 ++ descriptor 832 2 0 0) (put 192 (le_encode 2 0 ++ le_encode 2 1) (
  put 768 (header_bytes (hdr data_packet)) (put 832 [104; 105] (replicate 1024 0)))))).
Definition queue (desc avail used : Z) : Queue := mkQueue 256 2 true desc avail used 0 0 false 0.
Definition sample_device (b : @VsockMuxer Sock unit) : Vsock (@VsockMuxer Sock unit) :=
  mkVsock _ 3 [queue 0 64 80; queue 128 192 208; queue 256 320 336] [10; 11; 12] b AVAIL_FEATURES 0 0 13 true.

Lemma guest_mem_size : flat_size guest_mem = 1024.
Proof. vm_compute. reflexivity. Qed.

Lemma queue_sample_ok desc avail used : 0 <= desc <= 512 -> 0 <= avail <= 512 -> 0 <= used <= 512 -> queue_ok (queue desc avail used) guest_mem.
Proof.
  intros Hd Ha Hu. split; cbn; try (unfold in_range; lia); try done;
    intros x Hx; apply flat_backed; rewrite guest_mem_size; lia.
Qed.

Abbreviation laws := (@muxer_laws Sock _ unit _ (list Z) _ _ _ order).

Lemma sample_device_ok T b h : mux_run (M := list Z) order false T b h -> @device_ok _ _ _ _ _ _ _ laws T (sample_device b) guest_mem.
Proof.
  intros Hr. split; [by exists h|done|done|]. intros _. repeat constructor; apply queue_sample_ok; lia.
Qed.

Lemma quiet_worlds T now : T <= now -> @worlds _ _ _ _ _ _ _ laws T (fun _ => quiet_world now) now.
Proof. intros HT. split; [|done]. intros i. split; [cbn; lia|]. split; [done|]. intros fd ev acc Hin. by apply not_elem_of_nil in Hin. Qed.

Lemma sample_apart i q : v_queues (sample_device opened) !! i = Some q -> forall x, used_area q x -> ~ rings q x.
Proof.
  destruct i as [|[|[|i]]]; intros [= <-] x; unfold used_area, rings, span; cbn; lia.
Qed.

Lemma service_tx_witness : exists ls hu d' m' h',
  @process_tx _ _ _ _ _ (muxer_backend order) _ 2 (fun _ => quiet_world 3) (sample_device established) guest_mem = Done (hu, d', m') /\
  length ls = 1%nat /\ carried order (used_area (queue 128 192 208)) guest_mem (fun _ => quiet_world 3) {[key := ([], [])]} established ls h' (backend d').
Proof.
  destruct (service_tx (M := list Z) order 2 (fun _ => quiet_world 3) 1 3 (sample_device established) guest_mem (queue 128 192 208) 1 {[key := ([], [])]})
    as (ls & hu & d' & m' & h' & E & Hl & _ & _ & _ & _ & Hc & _).
  - apply sample_device_ok with (h := {[key := ([], [])]}). apply (run_weaken order true), run_established.
  - reflexivity.
  - reflexivity.
  - apply quiet_worlds. lia.
  - lia.
  - exists 1. split; vm_compute; reflexivity.
  - cbn. lia.
  - apply (sample_apart 1). reflexivity.
  - lia.
  - apply (run_weaken order true), run_established.
  - exists ls, hu, d', m', h'. split; [exact E|]. split; [|exact Hc]. destruct Hl as [Hl|[Hl Hn]]; [exact Hl|].
    assert (El : length ls = 0%nat) by lia. rewrite El in Hn. vm_compute in Hn. discriminate Hn.
Defined.

Definition rx_head : DescriptorChain := mkDescriptorChain 0 2 2 0 512 44 3 1.
Lemma rx_head_chain : chain (queue 0 64 80) guest_mem 0 = Some rx_head.
Proof. vm_compute. reflexivity. Qed.

Lemma rx_head_area x : rx_area guest_mem rx_head x -> 512 <= x < 640.
Proof.
  intros [Hx|(d & Ed & Hx)]; [unfold span, VSOCK_PKT_HDR_SIZE in Hx; cbn in Hx; lia|].
  assert (E : next_descriptor guest_mem rx_head = Ret (Some (mkDescriptorChain 0 2 1 1 576 64 2 0))) by (vm_compute; reflexivity).
  rewrite E in Ed. injection Ed as <-. unfold span in Hx. cbn in Hx. lia.
Qed.

(** The guest is asked for the connection: the chain holds a packet that is only a header. *)
Lemma service_rx_witness : exists (ls : list (DescriptorChain * Z)) hu d' m' bk,
  @process_rx _ _ _ _ _ (muxer_backend order) _ 2 (fun _ => quiet_world 3) (sample_device asked) guest_mem = Done (hu, d', m') /\
  @deliveries _ _ _ _ (muxer_backend order) _ _ (touched rx_area (queue 0 64 80) guest_mem 1) guest_mem m' (fun _ => quiet_world 3) asked ls bk /\ ls = [(rx_head, 44)].
Proof.
  destruct (service_rx (M := list Z) order 2 (fun _ => quiet_world 3) 0 3 (sample_device asked) guest_mem (queue 0 64 80) 1)
    as (ls & hu & d' & m' & bk & E & _ & Hd & Hq & _ & Hdl & Hend).
  - apply sample_device_ok with (h := {[key := ([], [])]}). apply (run_weaken order true), run_asked.
  - reflexivity.
  - reflexivity.
  - apply quiet_worlds. lia.
  - exists 1. split; vm_compute; reflexivity.
  - cbn. lia.
  - split; [apply (sample_apart 0); reflexivity| |lia]. intros i head x Hi Ec Hx. assert (i = O) as -> by lia.
    rewrite rx_head_chain in Ec. injection Ec as <-. apply rx_head_area in Hx. unfold rings, used_area, span. cbn. lia.
  - lia.
  - exists ls, hu, d', m', bk. split; [exact E|]. split; [exact Hdl|].
    assert (Ev : match @process_rx _ _ _ _ _ (muxer_backend order) _ 2 (fun _ => quiet_world 3) (sample_device asked) guest_mem with
      | Done (_, d', m') => bool_decide (next_used <$> v_queues d' !! 0%nat = Some 1) && bool_decide (used_entry (queue 0 64 80) m' 0 = (Some 0, Some 44)) | _ => false end = true) by (vm_compute; reflexivity).
    rewrite E in Ev. apply andb_prop in Ev as [En%bool_decide_eq_true Ee%bool_decide_eq_true]. rewrite Hq in En.
    destruct ls as [|[hd len] [|? ?]].
    + cbn in En. discriminate En.
    + destruct (Hd O hd len eq_refl) as [Ec Eu]. rewrite rx_head_chain in Ec. injection Ec as <-. cbn [Z.of_nat next_used queue] in Eu. rewrite Z.add_0_r in Eu. change (next_used (queue 0 64 80)) with 0 in Eu. rewrite Ee in Eu. injection Eu as <-. reflexivity.
    + destruct Hend as [[[Hl|[Hl _]] _]|[Hl _]]; cbn in Hl; lia.
Defined.

(** The driver acknowledges the device. *)
Definition fresh_vm : @MmioTransport (list Z) (Vsock (@VsockMuxer Sock unit)) :=
  MmioTransport_new guest_mem (mkVsock _ 3 (replicate NUM_QUEUES (Queue_new QUEUE_SIZE)) [10; 11; 12] opened AVAIL_FEATURES 0 0 13 false) 0.

Lemma fresh_vm_run : @vm_run _ _ _ _ _ _ _ laws 1024 0 fresh_vm.
Proof.
  apply (vm_start 1024 0 guest_mem 3 opened [10; 11; 12] 13); [|exists ∅|reflexivity|reflexivity].
  - intros x. rewrite <-guest_mem_size. apply flat_backed.
  - apply (run_weaken order true), run_opened.
Qed.

Lemma service_safe_witness :
  exists t', @mmio_write _ _ _ (vsock_virtio true) _ fresh_vm 0x70 [1; 0; 0; 0] = Ret t' /\
  exists t'', @mmio_write _ _ _ (vsock_virtio true) _ t' 0x70 [3; 0; 0; 0] = Ret t''.
Proof.
  eexists. split; [vm_compute; reflexivity|].
  match goal with |- exists t'', mmio_write ?t _ _ = _ => set (t1 := t) end.
  refine (proj1 (service_safe (M := list Z) order 1024 0 t1 _) 0x70 [3; 0; 0; 0]).
  apply (vm_write 1024 0 fresh_vm 0x70 [1; 0; 0; 0]); [exact fresh_vm_run|repeat constructor; lia|].
  vm_compute. reflexivity.
Defined.

Lemma service_restored_witness :
  vsock_restore guest_mem opened [20; 21; 22] 23 true (vsock_save (M := list Z) (running fresh_vm)) =
    Ret (Ok (restored fresh_vm opened [20; 21; 22] 23)).
Proof.
  destruct (service_restored (M := list Z) order 1024 0 0 fresh_vm 5 tt opened [20; 21; 22] 23 fresh_vm_run) as (_ & _ & _ & ok & E & Hok & _);
    [reflexivity|reflexivity|].
  cbn in Hok. rewrite Hok in E. exact E.
Defined.
End ServiceSamples.
