(* ===== verification/IoUring.v ===== *)
(** * The io_uring interface

    Models [io_uring/src]: operations ([operation/]), the submission and completion queues
    ([queue/]) that are shared with the kernel, and the ring made of them ([lib.rs]).  The
    memory a queue shares with the kernel is part of its record.  What the kernel answers to
    a system call is an argument; what it does to the shared memory are the steps
    [sys_submit] and [sys_complete] of [sys_run].

    A [user_data] box is the value in it, and an address in the host's memory that stands
    for guest memory is the guest's address.  An entry the kernel has not written is [None];
    using one as a box would be undefined, and is a panic here. *)

From Stdlib Require Import ZArith Znumtheory Lia.
From stdpp Require Import prelude.
From S2P Require Import Prelude.

(** ** Operations *)

Inductive OpCode := OpRead | OpWrite | OpFsync.
#[export] Instance OpCode_eq_dec : EqDecision OpCode.
Proof. solve_decision. Defined.

Definition IORING_OP_FSYNC : Z := 3.
Definition IORING_OP_READ : Z := 22.
Definition IORING_OP_WRITE : Z := 23.
Definition IOSQE_FIXED_FILE_BIT : Z := 0.
Definition IORING_FEAT_NODROP : Z := 2.
Definition IO_URING_OP_SUPPORTED : Z := 1.
Definition IORING_ENTER_GETEVENTS : Z := 1.
Definition IORING_MAX_FIXED_FILES : Z := Z.shiftl 1 15.

Definition opcode_as_u8 (c : OpCode) : Z :=
  match c with OpRead => IORING_OP_READ | OpWrite => IORING_OP_WRITE | OpFsync => IORING_OP_FSYNC end.

Record Operation (T : Type) := mkOperation {
  op_fd : Z;
  opcode : OpCode;
  op_addr : option Z;
  op_len : option Z;
  op_flags : Z;
  op_offset : option Z;
  op_user_data : T
}.
Arguments mkOperation {T}.
Arguments op_fd {T}. Arguments opcode {T}. Arguments op_addr {T}. Arguments op_len {T}.
Arguments op_flags {T}. Arguments op_offset {T}. Arguments op_user_data {T}.

Definition operation_read {T} (fd addr len offset : Z) (user_data : T) : Operation T :=
  mkOperation fd OpRead (Some addr) (Some len) 0 (Some offset) user_data.
Definition operation_write {T} (fd addr len offset : Z) (user_data : T) : Operation T :=
  mkOperation fd OpWrite (Some addr) (Some len) 0 (Some offset) user_data.
Definition operation_fsync {T} (fd : Z) (user_data : T) : Operation T :=
  mkOperation fd OpFsync None None 0 None user_data.

(** The fields of [io_uring_sqe] that are set; the others are zero. *)
Record Sqe (T : Type) := mkSqe {
  sqe_opcode : Z;
  sqe_fd : Z;
  sqe_flags : Z;
  sqe_addr : Z;
  sqe_len : Z;
  sqe_off : Z;
  sqe_user_data : T
}.
Arguments mkSqe {T}.
Arguments sqe_opcode {T}. Arguments sqe_fd {T}. Arguments sqe_flags {T}. Arguments sqe_addr {T}.
Arguments sqe_len {T}. Arguments sqe_off {T}. Arguments sqe_user_data {T}.

Definition into_sqe {T} (op : Operation T) : Sqe T :=
  mkSqe (opcode_as_u8 (opcode op)) (op_fd op) (Z.lor (op_flags op) (Z.shiftl 1 IOSQE_FIXED_FILE_BIT))
    (default 0 (op_addr op)) (default 0 (op_len op)) (default 0 (op_offset op)) (op_user_data op).

Record Cqe (T : Type) := mkCqe { cqe_res : Z; cqe_user_data : T }.
Arguments mkCqe {T}. Arguments cqe_res {T}. Arguments cqe_user_data {T}.

(** [i32::max(self.res, 0) as u32]. *)
Definition cqe_count {T} (c : Cqe T) : Z := Z.max (cqe_res c) 0.
(** An error carries the number it was made from with [from_raw_os_error]. *)
Definition cqe_result {T} (c : Cqe T) : result Z Z := if cqe_res c <? 0 then Err (cqe_res c) else Ok (cqe_res c).
Definition map_user_data {T U} (f : T -> U) (c : Cqe T) : Cqe U := mkCqe (cqe_res c) (f (cqe_user_data c)).

(** ** Queues *)

Inductive SQueueError := FullQueue | SqMmap | SqVolatileMemory | SqSubmit (errno : Z).
Inductive CQueueError := CqMmap | CqVolatileMemory.

Inductive IoUringError :=
| CQueue (e : CQueueError)
| EnableErr (errno : Z)
| FullCQueue
| InvalidFixedFd (fd : Z)
| NoRegisteredFds
| Probe (errno : Z)
| RegisterEventfd (errno : Z)
| RegisterFile (errno : Z)
| RegisterFileLimitExceeded
| RegisterRestrictions (errno : Z)
| Setup (errno : Z)
| SQueue (e : SQueueError)
| UnsupportedFeature
| UnsupportedOperation (c : OpCode).

Definition uring_throttling (e : IoUringError) : bool :=
  match e with FullCQueue | SQueue FullQueue => true | _ => false end.

(** [sq_head], [sq_tail] and [sqes] are the mapped memory; the kernel advances the head. *)
Record SubmissionQueue (T : Type) := mkSq {
  sq_ring_mask : Z;
  sq_count : Z;
  unmasked_tail : Z;
  to_submit : Z;
  sq_head : Z;
  sq_tail : Z;
  sqes : list (option (Sqe T))
}.
Arguments mkSq {T}.
Arguments sq_ring_mask {T}. Arguments sq_count {T}. Arguments unmasked_tail {T}. Arguments to_submit {T}.
Arguments sq_head {T}. Arguments sq_tail {T}. Arguments sqes {T}.

(** The kernel advances the tail. *)
Record CompletionQueue (T : Type) := mkCq {
  unmasked_head : Z;
  cq_count : Z;
  cq_ring_mask : Z;
  cq_head : Z;
  cq_tail : Z;
  cqes : list (option (Cqe T))
}.
Arguments mkCq {T}.
Arguments unmasked_head {T}. Arguments cq_count {T}. Arguments cq_ring_mask {T}. Arguments cq_head {T}.
Arguments cq_tail {T}. Arguments cqes {T}.

Record IoUring (T : Type) := mkRing {
  registered_fds_count : Z;
  squeue : SubmissionQueue T;
  cqueue : CompletionQueue T;
  num_ops : Z
}.
Arguments mkRing {T}.
Arguments registered_fds_count {T}. Arguments squeue {T}. Arguments cqueue {T}. Arguments num_ops {T}.

Section Ring.
Context {T : Type} `{Profile}.
Implicit Types (q : SubmissionQueue T) (c : CompletionQueue T) (r : IoUring T).

(** A queue over the kernel's mapping with the entries and the mask it announces. *)
Definition sq_new (entries mask : Z) : SubmissionQueue T := mkSq mask entries 0 0 0 0 (replicate (Z.to_nat entries) None).
Definition cq_new (entries mask : Z) : CompletionQueue T := mkCq 0 entries mask 0 0 (replicate (Z.to_nat entries) None).

Definition sq_pending q : Z := wsub 32 (unmasked_tail q) (sq_head q).

Definition sq_push q (sqe : Sqe T) : exec (result unit (SQueueError * T) * SubmissionQueue T) :=
  let tail := Z.land (unmasked_tail q) (sq_ring_mask q) in
  if sq_count q <=? sq_pending q then Ret (Err (FullQueue, sqe_user_data sqe), q)
  else if Z.of_nat (length (sqes q)) <=? tail then Ret (Err (SqVolatileMemory, sqe_user_data sqe), q)
  else
    let t := wadd 32 (unmasked_tail q) 1 in
    n ← uadd 32 (to_submit q) 1;
    Ret (Ok tt, mkSq (sq_ring_mask q) (sq_count q) t n (sq_head q) t (<[Z.to_nat tail := Some sqe]> (sqes q))).

(** [enter]: what [io_uring_enter] returns when it is offered a number of entries: how many
    the kernel has taken. *)
Definition sq_submit q (min_complete : Z) (enter : Z -> result Z Z) : result Z SQueueError * SubmissionQueue T :=
  if (to_submit q =? 0) && (min_complete =? 0) then (Ok 0, q)
  else match enter (to_submit q) with
  | Err errno => (Err (SqSubmit errno), q)
  | Ok submitted =>
      (Ok submitted, mkSq (sq_ring_mask q) (sq_count q) (unmasked_tail q) (Z.max 0 (to_submit q - submitted))
         (wadd 32 (sq_head q) submitted) (sq_tail q) (sqes q))
  end.

Definition cq_pop c : exec (result (option (Cqe T)) CQueueError * CompletionQueue T) :=
  let head := Z.land (unmasked_head c) (cq_ring_mask c) in
  if 0 <? wsub 32 (cq_tail c) (unmasked_head c) then
    match cqes c !! Z.to_nat head with
    | None => Ret (Err CqVolatileMemory, c)
    | Some None => Panic
    | Some (Some cqe) =>
        let h := wadd 32 (unmasked_head c) 1 in
        Ret (Ok (Some cqe), mkCq h (cq_count c) (cq_ring_mask c) h (cq_tail c) (cqes c))
    end
  else Ret (Ok None, c).

(** ** The ring *)

(** What the kernel answers while a ring is made. *)
Record KernelSetup := mkSetup {
  ks_setup : result (Z * Z * Z * Z * Z) Z; (* features, entries and masks of both queues *)
  ks_map_sq : bool; (* whether mapping each queue succeeds *)
  ks_map_cq : bool;
  ks_probe : result (list (Z * Z)) Z; (* operations and their flags *)
  ks_eventfd : result unit Z;
  ks_restrictions : result unit Z;
  ks_files : result unit Z;
  ks_enable : result unit Z
}.

Definition REQUIRED_OPS : list OpCode := [OpRead; OpWrite].

Definition check_features (features : Z) : result unit IoUringError :=
  if Z.land features IORING_FEAT_NODROP =? 0 then Err UnsupportedFeature else Ok tt.

Definition check_operations (probes : list (Z * Z)) : result unit IoUringError :=
  let supported := map fst (filter (fun p => Z.land p.2 IO_URING_OP_SUPPORTED <> 0) probes) in
  match filter (fun code => opcode_as_u8 code ∉ supported) REQUIRED_OPS with
  | code :: _ => Err (UnsupportedOperation code)
  | [] => Ok tt
  end.

Definition register_files (registered_fds nfiles : Z) (answer : result unit Z) : result Z IoUringError :=
  if nfiles =? 0 then Ok registered_fds
  else if IORING_MAX_FIXED_FILES <? registered_fds + nfiles then Err RegisterFileLimitExceeded
  else match answer with Err e => Err (RegisterFile e) | Ok _ => Ok (registered_fds + nfiles) end.

(** [nfiles] files, [restricted] whether there are restrictions, [with_eventfd] whether
    there is an event descriptor. *)
Definition IoUring_new (nfiles : Z) (restricted with_eventfd : bool) (k : KernelSetup) : result (IoUring T) IoUringError :=
  match ks_setup k with
  | Err e => Err (Setup e)
  | Ok (features, sq_entries, sq_mask, cq_entries, cq_mask) =>
      match check_features features with
      | Err e => Err e
      | Ok _ =>
          if negb (ks_map_sq k) then Err (SQueue SqMmap)
          else if negb (ks_map_cq k) then Err (CQueue CqMmap)
          else match ks_probe k with
          | Err e => Err (Probe e)
          | Ok probes =>
              match check_operations probes with
              | Err e => Err e
              | Ok _ =>
                  match (if with_eventfd then ks_eventfd k else Ok tt) with
                  | Err e => Err (RegisterEventfd e)
                  | Ok _ =>
                      match (if restricted then ks_restrictions k else Ok tt) with
                      | Err e => Err (RegisterRestrictions e)
                      | Ok _ =>
                          match register_files 0 nfiles (ks_files k) with
                          | Err e => Err e
                          | Ok n =>
                              match ks_enable k with
                              | Err e => Err (EnableErr e)
                              | Ok _ => Ok (mkRing n (sq_new sq_entries sq_mask) (cq_new cq_entries cq_mask) 0)
                              end
                          end
                      end
                  end
              end
          end
      end
  end.

Definition push r (op : Operation T) : exec (result unit (IoUringError * T) * IoUring T) :=
  let fd := op_fd op in
  if registered_fds_count r =? 0 then Ret (Err (NoRegisteredFds, op_user_data op), r)
  else if (fd <? 0) || (registered_fds_count r - 1 <? fd) then Ret (Err (InvalidFixedFd fd, op_user_data op), r)
  else if cq_count (cqueue r) <=? num_ops r then Ret (Err (FullCQueue, op_user_data op), r)
  else
    p ← sq_push (squeue r) (into_sqe op);
    match p with
    | (Ok _, q) =>
        n ← uadd 32 (num_ops r) 1;
        Ret (Ok tt, mkRing (registered_fds_count r) q (cqueue r) n)
    | (Err (e, user_data), q) => Ret (Err (SQueue e, user_data), mkRing (registered_fds_count r) q (cqueue r) (num_ops r))
    end.

Definition pop r : exec (result (option (Cqe T)) IoUringError * IoUring T) :=
  p ← cq_pop (cqueue r);
  match p with
  | (Ok (Some cqe), c) => Ret (Ok (Some cqe), mkRing (registered_fds_count r) (squeue r) c (Z.max 0 (num_ops r - 1)))
  | (Ok None, c) => Ret (Ok None, mkRing (registered_fds_count r) (squeue r) c (num_ops r))
  | (Err e, c) => Ret (Err (CQueue e), mkRing (registered_fds_count r) (squeue r) c (num_ops r))
  end.

Definition do_submit r (min_complete : Z) (enter : Z -> result Z Z) : result Z IoUringError * IoUring T :=
  match sq_submit (squeue r) min_complete enter with
  | (Ok n, q) => (Ok n, mkRing (registered_fds_count r) q (cqueue r) (num_ops r))
  | (Err e, q) => (Err (SQueue e), mkRing (registered_fds_count r) q (cqueue r) (num_ops r))
  end.
Definition submit r (enter : Z -> result Z Z) := do_submit r 0 enter.
Definition submit_and_wait_all r (enter : Z -> result Z Z) := do_submit r (num_ops r) enter.
End Ring.
Arguments KernelSetup : clear implicits.

(** ** Rings of a power of two entries *)

Section Entries.
Context {A : Type}.
Implicit Types (buf : list (option A)) (l : list A).

(** From position [head] on the buffer holds [l]. *)
Record holds (n : Z) (buf : list (option A)) (head : Z) (l : list A) : Prop := {
  h_size : Z.of_nat (length buf) = n;
  h_fits : Z.of_nat (length l) <= n;
  h_at i a : l !! i = Some a -> buf !! Z.to_nat ((head + Z.of_nat i) mod n) = Some (Some a)
}.

Lemma holds_push n buf head l a : 0 < n -> Z.of_nat (length l) < n -> holds n buf head l ->
  holds n (<[Z.to_nat ((head + Z.of_nat (length l)) mod n) := Some a]> buf) head (l ++ [a]).
Proof.
  intros Hn Hl [Hs _ Ha]. split; [by rewrite length_insert|rewrite length_app; cbn; lia|]. intros i b Hi.
  pose proof (Z.mod_pos_bound (head + Z.of_nat i) n Hn). pose proof (Z.mod_pos_bound (head + Z.of_nat (length l)) n Hn).
  apply lookup_app_Some in Hi as [Hi|[Hge Hi]].
  - pose proof (lookup_lt_Some _ _ _ Hi). rewrite list_lookup_insert_ne; [by apply Ha|]. intros E.
    assert (E' : (head + Z.of_nat (length l)) mod n = (head + Z.of_nat i) mod n) by lia.
    apply (f_equal (fun z => (z - (head + Z.of_nat i) mod n) mod n)) in E'.
    rewrite Z.sub_diag, Zmod_0_l, <-Zminus_mod in E'.
    replace (head + Z.of_nat (length l) - (head + Z.of_nat i)) with (Z.of_nat (length l) - Z.of_nat i) in E' by lia.
    rewrite Z.mod_small in E' by lia. lia.
  - apply list_lookup_singleton_Some in Hi as [Hi <-]. replace i with (length l) by lia.
    rewrite list_lookup_insert_eq; [done|]. lia.
Qed.

Lemma holds_pop n buf head a l : holds n buf head (a :: l) ->
  buf !! Z.to_nat (head mod n) = Some (Some a) /\ holds n buf (head + 1) l.
Proof.
  intros [Hs Hf Ha]. split; [rewrite <-(Ha 0%nat a eq_refl); do 2 f_equal; f_equal; lia|].
  split; [done|cbn in Hf; lia|]. intros i b Hi. rewrite <-(Ha (S i) b Hi). do 2 f_equal. f_equal. lia.
Qed.

Lemma holds_drop n buf head l k : (k <= length l)%nat -> holds n buf head l -> holds n buf (head + Z.of_nat k) (drop k l).
Proof.
  intros Hk [Hs Hf Ha]. split; [done|rewrite length_drop; lia|]. intros i a. rewrite lookup_drop. intros Hi.
  rewrite <-(Ha _ a Hi). do 2 f_equal. f_equal. lia.
Qed.

(** Positions are counted modulo 2^32. *)
Lemma holds_mod n buf head head' l : (n | 2 ^ 32) -> 0 < n -> head mod 2 ^ 32 = head' mod 2 ^ 32 -> holds n buf head l -> holds n buf head' l.
Proof.
  intros Hd Hn Em [Hs Hf Ha]. split; [done|done|]. intros i a Hi. rewrite <-(Ha i a Hi).
  assert (Eh : head' mod n = head mod n) by (by rewrite (Zmod_div_mod n (2 ^ 32) head'), (Zmod_div_mod n (2 ^ 32) head), Em).
  by rewrite <-(Zplus_mod_idemp_l head'), Eh, Zplus_mod_idemp_l.
Qed.
End Entries.

(** ** The ring with the kernel *)

Section System.
Context {T : Type} `{Profile}.
Implicit Types (q : SubmissionQueue T) (c : CompletionQueue T) (r : IoUring T).

(** A mask over [n] entries keeps the remainder. *)
Definition ring_size (n mask : Z) : Prop := exists k, 0 <= k <= 16 /\ n = 2 ^ k /\ mask = n - 1.

Lemma ring_size_pos n mask : ring_size n mask -> 0 < n <= 2 ^ 16 /\ (n | 2 ^ 32).
Proof.
  intros (k & Hk & -> & _). split; [split; [apply Z.pow_pos_nonneg; lia|apply Z.pow_le_mono_r; lia]|].
  exists (2 ^ (32 - k)). rewrite <-Z.pow_add_r by lia. f_equal. lia.
Qed.

Lemma land_mask n mask x : ring_size n mask -> Z.land x mask = x mod n.
Proof. intros (k & Hk & -> & ->). replace (2 ^ k - 1) with (Z.ones k) by (rewrite Z.ones_equiv; lia).
  by rewrite Z.land_ones by lia. Qed.

(** The kernel takes no more than it is offered. *)
Definition kernel_answers (enter : Z -> result Z Z) : Prop := forall n k, 0 <= n -> enter n = Ok k -> 0 <= k <= n.

(** What waits in the two queues. *)
Record sq_holds q (l : list (Sqe T)) : Prop := {
  sh_size : ring_size (sq_count q) (sq_ring_mask q);
  sh_ring : holds (sq_count q) (sqes q) (sq_head q) l;
  sh_head : in_range 32 (sq_head q);
  sh_tail : unmasked_tail q = wadd 32 (sq_head q) (Z.of_nat (length l));
  sh_shared : sq_tail q = unmasked_tail q;
  sh_submit : to_submit q = Z.of_nat (length l)
}.

Record cq_holds c (l : list (Cqe T)) : Prop := {
  ch_size : ring_size (cq_count c) (cq_ring_mask c);
  ch_ring : holds (cq_count c) (cqes c) (unmasked_head c) l;
  ch_head : in_range 32 (unmasked_head c);
  ch_tail : cq_tail c = wadd 32 (unmasked_head c) (Z.of_nat (length l));
  ch_shared : cq_head c = unmasked_head c
}.

Lemma wsub_wadd h k : in_range 32 h -> 0 <= k < 2 ^ 32 -> wsub 32 (wadd 32 h k) h = k.
Proof.
  intros Hh Hk. unfold wsub, wadd. rewrite wrap_sub_l. replace (h + k - h) with k by lia. by apply wrap_id.
Qed.

Lemma sq_pending_length q l : sq_holds q l -> sq_pending q = Z.of_nat (length l).
Proof.
  intros [Hs Hr Hh Ht _ _]. unfold sq_pending. rewrite Ht. apply wsub_wadd; [done|].
  pose proof (ring_size_pos _ _ Hs). pose proof (h_fits _ _ _ _ Hr). lia.
Qed.

Lemma sq_push_holds q l sqe : sq_holds q l ->
  if sq_count q =? Z.of_nat (length l) then sq_push q sqe = Ret (Err (FullQueue, sqe_user_data sqe), q)
  else exists q', sq_push q sqe = Ret (Ok tt, q') /\ sq_holds q' (l ++ [sqe]) /\ sq_count q' = sq_count q.
Proof.
  intros Hq. pose proof (sq_pending_length q l Hq) as Hp. destruct Hq as [Hs Hr Hh Ht Hsh Hsub].
  pose proof (ring_size_pos _ _ Hs) as [Hn Hd]. pose proof Hr as [Hlen Hfit _]. unfold sq_push. rewrite Hp.
  destruct (Z.eqb_spec (sq_count q) (Z.of_nat (length l))) as [E|E].
  { rewrite E, Z.leb_refl. done. }
  rewrite (proj2 (Z.leb_gt _ _)) by lia. rewrite (land_mask _ _ _ Hs).
  assert (Et : unmasked_tail q mod sq_count q = (sq_head q + Z.of_nat (length l)) mod sq_count q).
  { rewrite Ht. unfold wadd, wrap. by rewrite <-(Zmod_div_mod (sq_count q) (2 ^ 32)) by (lia || done). }
  pose proof (Z.mod_pos_bound (unmasked_tail q) (sq_count q) ltac:(lia)).
  rewrite (proj2 (Z.leb_gt _ _)) by lia. rewrite Hsub, uadd_ok by (unfold in_range; lia). rewrite bind_Ret.
  eexists. split; [done|]. split; [|done]. split; cbn; try done.
  - rewrite Et. by apply holds_push; [lia|lia|].
  - rewrite Ht, length_app. unfold wadd. rewrite wrap_add_l. f_equal. cbn. lia.
  - rewrite length_app. cbn. lia.
Qed.

(** The entries the kernel takes. *)
Definition kernel_takes q (k : nat) : list (Sqe T) :=
  omap (fun i => mjoin (sqes q !! Z.to_nat (Z.land (sq_head q + Z.of_nat i) (sq_ring_mask q)))) (seq 0 k).

Lemma kernel_takes_holds q l k : sq_holds q l -> (k <= length l)%nat -> kernel_takes q k = take k l.
Proof.
  intros [Hs Hr _ _ _ _]. unfold kernel_takes. induction k as [|k IH]; intros Hk; [done|].
  rewrite seq_S, omap_app, IH by lia. cbn [omap list_omap]. rewrite Nat.add_0_l, (land_mask _ _ _ Hs).
  destruct (lookup_lt_is_Some_2 l k) as [a Ea]; [lia|]. rewrite (h_at _ _ _ _ Hr k a Ea). by rewrite (take_S_r l k a).
Qed.

Lemma sq_submit_holds q l min enter : sq_holds q l -> kernel_answers enter ->
  let '(res, q') := sq_submit q min enter in
  exists k, (k <= length l)%nat /\ sq_holds q' (drop k l) /\ sq_count q' = sq_count q /\
    match res with Ok n => n = Z.of_nat k | Err _ => k = 0%nat end.
Proof.
  intros Hq Hk. unfold sq_submit. destruct (_ && _); [exists 0%nat; rewrite drop_0; split; [lia|done]|].
  destruct (enter (to_submit q)) as [k|e] eqn:Ek; [|exists 0%nat; rewrite drop_0; split; [lia|done]].
  pose proof Hq as [Hs Hr Hh Ht Hsh Hsub]. specialize (Hk (to_submit q) k ltac:(lia) Ek). pose proof (ring_size_pos _ _ Hs) as [Hn Hd].
  exists (Z.to_nat k). split; [lia|]. split; [|split; [done|lia]]. split; cbn; try done.
  - apply (holds_mod _ _ (sq_head q + Z.of_nat (Z.to_nat k))); [done|lia| |apply holds_drop; [lia|done]].
    rewrite Z2Nat.id by lia. unfold wadd, wrap. by rewrite Zmod_mod.
  - by apply wadd_range.
  - rewrite Ht, length_drop. unfold wadd. rewrite wrap_add_l. f_equal. lia.
  - rewrite length_drop. lia.
Qed.

(** The kernel completes an operation. *)
Definition cq_post c (cqe : Cqe T) : CompletionQueue T :=
  mkCq (unmasked_head c) (cq_count c) (cq_ring_mask c) (cq_head c) (wadd 32 (cq_tail c) 1)
    (<[Z.to_nat (Z.land (cq_tail c) (cq_ring_mask c)) := Some cqe]> (cqes c)).

(** The entries the kernel sees in the queue. *)
Definition cq_used c : Z := wsub 32 (cq_tail c) (cq_head c).

Lemma cq_used_length c d : cq_holds c d -> cq_used c = Z.of_nat (length d).
Proof.
  intros [Hs Hr Hh Ht Hsh]. unfold cq_used. rewrite Ht, Hsh. apply wsub_wadd; [done|].
  pose proof (ring_size_pos _ _ Hs). pose proof (h_fits _ _ _ _ Hr). lia.
Qed.

Lemma cq_post_holds c d cqe : cq_holds c d -> cq_used c < cq_count c -> cq_holds (cq_post c cqe) (d ++ [cqe]).
Proof.
  intros Hc Hu. rewrite (cq_used_length c d Hc) in Hu. destruct Hc as [Hs Hr Hh Ht Hsh].
  pose proof (ring_size_pos _ _ Hs) as [Hn Hd]. split; cbn; try done.
  - rewrite (land_mask _ _ _ Hs), Ht. unfold wadd, wrap. rewrite <-(Zmod_div_mod (cq_count c) (2 ^ 32)) by (lia || done).
    by apply holds_push; [lia|lia|].
  - rewrite Ht, length_app. unfold wadd. rewrite wrap_add_l. f_equal. cbn. lia.
Qed.

Lemma cq_pop_holds c d : cq_holds c d ->
  match d with
  | [] => cq_pop c = Ret (Ok None, c)
  | cqe :: d' => exists c', cq_pop c = Ret (Ok (Some cqe), c') /\ cq_holds c' d' /\ cq_count c' = cq_count c
  end.
Proof.
  intros Hc. pose proof (cq_used_length c d Hc) as Hu. destruct Hc as [Hs Hr Hh Ht Hsh]. unfold cq_used in Hu. rewrite Hsh in Hu.
  pose proof (ring_size_pos _ _ Hs) as [Hn Hd]. unfold cq_pop. rewrite Hu. destruct d as [|cqe d]; [done|].
  rewrite (proj2 (Z.ltb_lt _ _)) by (cbn; lia). rewrite (land_mask _ _ _ Hs).
  apply holds_pop in Hr as [-> Hr]. eexists. split; [done|]. split; [|done]. split; cbn; try done.
  - apply (holds_mod _ _ (unmasked_head c + 1)); [done|lia| |done]. unfold wadd, wrap. by rewrite Zmod_mod.
  - by apply wadd_range.
  - rewrite Ht. unfold wadd. rewrite wrap_add_l. f_equal. cbn. lia.
Qed.

(** The kernel makes queues of a power of two entries. *)
Definition setup_ok (k : KernelSetup) : Prop := forall features se sm ce cm, ks_setup k = Ok (features, se, sm, ce, cm) ->
  ring_size se sm /\ ring_size ce cm.

(** A ring, the operations the kernel is working on, the data of those that were pushed so
    far and the completions that were popped. *)
Inductive sys_run : IoUring T -> list (Sqe T) -> list T -> list (Cqe T) -> Prop :=
| sys_new nfiles restricted ev k r : setup_ok k -> IoUring_new nfiles restricted ev k = Ok r -> sys_run r [] [] []
| sys_push r fl hp ho op res r' : sys_run r fl hp ho -> push r op = Ret (res, r') ->
    sys_run r' fl (match res with Ok _ => hp ++ [op_user_data op] | Err _ => hp end) ho
| sys_submit r fl hp ho min enter res r' : sys_run r fl hp ho -> kernel_answers enter ->
    do_submit r min enter = (res, r') ->
    sys_run r' (fl ++ match res with Ok n => kernel_takes (squeue r) (Z.to_nat n) | Err _ => [] end) hp ho
| sys_complete r fl fl' s hp ho res : sys_run r (fl ++ s :: fl') hp ho -> cq_used (cqueue r) < cq_count (cqueue r) ->
    sys_run (mkRing (registered_fds_count r) (squeue r) (cq_post (cqueue r) (mkCqe res (sqe_user_data s))) (num_ops r)) (fl ++ fl') hp ho
| sys_pop r fl hp ho res r' : sys_run r fl hp ho -> pop r = Ret (res, r') ->
    sys_run r' fl hp (match res with Ok (Some cqe) => ho ++ [cqe] | _ => ho end).

Record sys_inv r (fl : list (Sqe T)) (hp : list T) (ho : list (Cqe T)) (l : list (Sqe T)) (d : list (Cqe T)) : Prop := {
  si_sq : sq_holds (squeue r) l;
  si_cq : cq_holds (cqueue r) d;
  si_ops : num_ops r = Z.of_nat (length l + length fl + length d);
  si_room : num_ops r <= cq_count (cqueue r);
  si_perm : hp ≡ₚ map sqe_user_data l ++ map sqe_user_data fl ++ map cqe_user_data d ++ map cqe_user_data ho
}.

Lemma holds_empty {A} n mask : ring_size n mask -> holds n (replicate (Z.to_nat n) (None : option A)) 0 [].
Proof. intros Hs. pose proof (ring_size_pos _ _ Hs). split; [rewrite length_replicate; lia|cbn; lia|done]. Qed.

Lemma ring_new_inv nfiles restricted ev k r : setup_ok k -> IoUring_new nfiles restricted ev k = Ok r -> sys_inv r [] [] [] [] [].
Proof.
  intros Hk E. unfold IoUring_new in E. destruct (ks_setup k) as [[[[[fe se] sm] ce] cm]|] eqn:Es; [|done].
  destruct (Hk _ _ _ _ _ Es) as [Hs Hc]. pose proof (ring_size_pos _ _ Hc).
  assert (exists n, r = mkRing n (sq_new se sm) (cq_new ce cm) 0) as [n ->] by (repeat case_match; try done; injection E as <-; by eexists).
  clear E.
  split; cbn [squeue cqueue num_ops].
  - split; cbn; [done|by apply (holds_empty _ _ Hs)|unfold in_range; lia|done..].
  - split; cbn; [done|by apply (holds_empty _ _ Hc)|unfold in_range; lia|done..].
  - done.
  - cbn. lia.
  - done.
Qed.

Lemma push_inv r fl hp ho l d op : sys_inv r fl hp ho l d ->
  exists res r', push r op = Ret (res, r') /\
    match res with
    | Ok _ => sys_inv r' fl (hp ++ [op_user_data op]) ho (l ++ [into_sqe op]) d
    | Err (e, data) => r' = r /\ data = op_user_data op /\
        (0 <= op_fd op < registered_fds_count r -> uring_throttling e = true /\
           (num_ops r = cq_count (cqueue r) \/ sq_count (squeue r) = Z.of_nat (length l)))
    end.
Proof.
  intros [Hsq Hcq Hops Hroom Hp]. unfold push. pose proof (ring_size_pos _ _ (ch_size _ _ Hcq)) as [Hn _].
  destruct (Z.eqb_spec (registered_fds_count r) 0) as [Er|Er]; [do 2 eexists; split; [done|]; repeat split; lia|].
  destruct ((op_fd op <? 0) || _) eqn:Ef; [do 2 eexists; split; [done|]; repeat split; lia|].
  destruct (Z.leb_spec (cq_count (cqueue r)) (num_ops r)) as [Hf|Hf].
  { do 2 eexists. split; [done|]. split; [done|]. split; [done|]. intros _. split; [done|]. left. lia. }
  pose proof (sq_push_holds (squeue r) l (into_sqe op) Hsq) as Hpush.
  destruct (Z.eqb_spec (sq_count (squeue r)) (Z.of_nat (length l))) as [Ec|Ec].
  { rewrite Hpush, bind_Ret. do 2 eexists. split; [done|]. split; [by destruct r|]. split; [done|]. intros _. split; [done|]. by right. }
  destruct Hpush as (q' & -> & Hq' & _). rewrite bind_Ret, uadd_ok by (unfold in_range; lia). rewrite bind_Ret.
  do 2 eexists. split; [done|]. split; cbn; [done|done|rewrite length_app; cbn; lia|lia|].
  rewrite Hp, map_app. cbn. solve_Permutation.
Qed.

Lemma submit_inv r fl hp ho l d min enter res r' : sys_inv r fl hp ho l d -> kernel_answers enter ->
  do_submit r min enter = (res, r') -> exists k, (k <= length l)%nat /\
    sys_inv r' (fl ++ match res with Ok n => kernel_takes (squeue r) (Z.to_nat n) | Err _ => [] end) hp ho (drop k l) d /\
    match res with Ok n => n = Z.of_nat k | Err _ => k = 0%nat end.
Proof.
  intros [Hsq Hcq Hops Hroom Hp] Hk E. unfold do_submit in E. pose proof (sq_submit_holds (squeue r) l min enter Hsq Hk) as Hs.
  destruct (sq_submit (squeue r) min enter) as [[n|e] q']; destruct Hs as (k & Hkl & Hq' & Hc & Hn); injection E as <- <-; exists k.
  - split; [done|]. split; [|done]. subst n. rewrite Nat2Z.id, (kernel_takes_holds _ l) by done.
    split; cbn; [done|done|rewrite length_app, length_take, length_drop; lia|done|].
    rewrite Hp. rewrite <-(take_drop k l) at 1. rewrite !map_app. solve_Permutation.
  - subst k. rewrite drop_0, app_nil_r in *. split; [lia|]. split; [|done]. by split.
Qed.


Lemma complete_inv r fl s fl' hp ho l d res : sys_inv r (fl ++ s :: fl') hp ho l d -> cq_used (cqueue r) < cq_count (cqueue r) ->
  sys_inv (mkRing (registered_fds_count r) (squeue r) (cq_post (cqueue r) (mkCqe res (sqe_user_data s))) (num_ops r))
    (fl ++ fl') hp ho l (d ++ [mkCqe res (sqe_user_data s)]).
Proof.
  intros [Hsq Hcq Hops Hroom Hp] Hu. split; cbn; [done|by apply cq_post_holds| |done|].
  - rewrite Hops, !length_app. cbn. lia.
  - rewrite Hp, !map_app. cbn. solve_Permutation.
Qed.

Lemma ring_pop_inv r fl hp ho l d : sys_inv r fl hp ho l d ->
  exists r', pop r = Ret (Ok (head d), r') /\ sys_inv r' fl hp (ho ++ option_list (head d)) l (tail d).
Proof.
  intros [Hsq Hcq Hops Hroom Hp]. unfold pop. pose proof (cq_pop_holds (cqueue r) d Hcq) as Hpop. destruct d as [|cqe d].
  - rewrite Hpop, bind_Ret. eexists. split; [done|]. cbn. rewrite app_nil_r. by split.
  - destruct Hpop as (c' & -> & Hc' & Hcc). rewrite bind_Ret. eexists. split; [done|]. cbn in *.
    split; cbn; [done|done|lia|lia|]. rewrite Hp, map_app. cbn. solve_Permutation.
Qed.

Lemma sys_run_inv r fl hp ho : sys_run r fl hp ho -> exists l d, sys_inv r fl hp ho l d.
Proof.
  induction 1 as [nfiles restricted ev k r Hk E|r fl hp ho op res r' _ (l & d & IH) E|r fl hp ho min enter res r' _ (l & d & IH) Hk E
    |r fl fl' s hp ho res _ (l & d & IH) Hu|r fl hp ho res r' _ (l & d & IH) E].
  - exists [], []. by apply (ring_new_inv nfiles restricted ev k).
  - destruct (push_inv r fl hp ho l d op IH) as (res' & r1 & E' & Hr). rewrite E in E'. injection E' as <- <-.
    destruct res as [u|[e data]]; [by eauto|]. destruct Hr as [-> _]. by eauto.
  - destruct (submit_inv r fl hp ho l d min enter res r' IH Hk E) as (k & _ & Hi & _). by eauto.
  - do 2 eexists. by apply complete_inv.
  - destruct (ring_pop_inv r fl hp ho l d IH) as (r1 & E' & Hi). rewrite E in E'. injection E' as -> <-.
    destruct d as [|cqe d]; cbn in *; [rewrite app_nil_r in Hi|]; by eauto.
Qed.

(** C11: Every operation that is pushed comes back exactly once. In every state that the ring
    and the kernel can reach, whatever the kernel's order of completion, the data of the
    operations pushed so far are those waiting in the submission queue, with the kernel, in
    the completion queue, and already popped, each once. The completion queue never
    overflows: there is room for everything that is under way. Popping returns the oldest
    completion, never an entry the kernel did not write; pushing returns, and is refused on a
    registered file only if a queue is full. *)
Theorem io_uring_exactly_once r fl hp ho : sys_run r fl hp ho -> exists l d,
  hp ≡ₚ map sqe_user_data l ++ map sqe_user_data fl ++ map cqe_user_data d ++ map cqe_user_data ho /\
  sq_pending (squeue r) = Z.of_nat (length l) /\ to_submit (squeue r) = Z.of_nat (length l) /\
  cq_used (cqueue r) + Z.of_nat (length fl + length l) <= cq_count (cqueue r) /\
  (exists r', pop r = Ret (Ok (head d), r')) /\
  forall op, 0 <= op_fd op < registered_fds_count r -> exists res r', push r op = Ret (res, r') /\
    forall e data, res = Err (e, data) -> uring_throttling e = true /\ data = op_user_data op /\ r' = r /\
      (num_ops r = cq_count (cqueue r) \/ sq_pending (squeue r) = sq_count (squeue r)).
Proof.
  intros (l & d & Hi)%sys_run_inv. exists l, d. pose proof Hi as [Hsq Hcq Hops Hroom Hp]. pose proof (cq_used_length _ _ Hcq) as Hu.
  pose proof (sq_pending_length _ _ Hsq) as Hpend. split; [done|]. split; [done|]. split; [apply (sh_submit _ _ Hsq)|].
  split; [lia|]. split; [destruct (ring_pop_inv r fl hp ho l d Hi) as (r' & E & _); by exists r'|]. intros op Hfd.
  destruct (push_inv r fl hp ho l d op Hi) as (res & r' & E & Hr). exists res, r'. split; [done|]. intros e data ->.
  destruct Hr as (-> & -> & Hth). destruct (Hth Hfd) as [? Hf]. split; [done|]. split; [done|]. split; [done|]. rewrite Hpend.
  destruct Hf; [by left|right; lia].
Qed.
End System.

(** ** Examples *)

Module UringSamples.
#[local] Existing Instance dev_profile.

(** A kernel that gives two entries for submissions and four for completions. *)
Definition kernel : KernelSetup :=
  mkSetup (Ok (2, 2, 1, 4, 3)) true true (Ok [(22, 1); (23, 1)]) (Ok tt) (Ok tt) (Ok tt) (Ok tt).
Definition fresh : IoUring nat := mkRing 1 (sq_new 2 1) (cq_new 4 3) 0.
Definition pushed : IoUring nat :=
  match push fresh (operation_read 0 4096 512 0 7%nat) with Ret (_, r) => r | Panic => fresh end.

Lemma io_uring_exactly_once_witness : exists r', @pop nat pushed = Ret (Ok None, r').
Proof.
  destruct (@io_uring_exactly_once nat _ pushed [] [7%nat] []) as (l & d & Hp & _ & _ & _ & [r' Hpop] & _).
  - apply (sys_push fresh [] [] [] (operation_read 0 4096 512 0 7%nat) (Ok tt)); [|vm_compute; reflexivity].
    apply (sys_new 1 true true kernel); [|reflexivity]. intros fe se sm ce cm [= <- <- <- <- <-].
    split; [exists 1|exists 2]; (split; [lia|done]).
  - exists r'. assert (E : @pop nat pushed = Ret (Ok None, pushed)) by (vm_compute; reflexivity).
    rewrite Hpop in E |- *. by injection E as -> _.
Defined.
End UringSamples.
