(* ===== verification/BlockRequest.v ===== *)
(** * Block requests and the engines that carry them out

    Models [devices/src/virtio/block/request.rs], the constants and errors of [mod.rs], and
    the file engines of [io/]: [sync_io.rs], which reads and writes the disk's file at once,
    [async_io.rs], which hands operations to the ring of [IoUring], and [io/mod.rs], which
    chooses between them.

    The disk's file and the transfers between it and guest memory ([std::fs::File] and
    [Bytes::read_from], [write_to] of [vm-memory]) are the interface [BackingFile].  Dirty
    page tracking, log messages and metrics are left out. *)

From Stdlib Require Import ZArith Lia.
From stdpp Require Import prelude.
From S2P Require Import Prelude GuestMemory VirtioQueue RateLimiter IoUring.

Definition SECTOR_SHIFT : Z := 9.
Definition SECTOR_SIZE : Z := Z.shiftl 1 SECTOR_SHIFT.
Definition IO_URING_NUM_ENTRIES : Z := 128.
Definition VIRTIO_BLK_ID_BYTES : Z := 20.
Definition VIRTIO_BLK_T_IN : Z := 0.
Definition VIRTIO_BLK_T_OUT : Z := 1.
Definition VIRTIO_BLK_T_FLUSH : Z := 4.
Definition VIRTIO_BLK_T_GET_ID : Z := 8.
Definition VIRTIO_BLK_S_OK : Z := 0.
Definition VIRTIO_BLK_S_IOERR : Z := 1.
Definition VIRTIO_BLK_S_UNSUPP : Z := 2.

(** ** The disk's file *)

(** A seekable file. [read_from m a f n] reads up to [n] bytes from the file into guest
    memory at [a], [write_to] the other way.  Both go on until the count is reached, the
    file or guest memory ends, or an error; how far they got is their result.  An error may
    come after part of the transfer. *)
Class BackingFile (F M : Type) `{GuestMemory M} := {
  FileError : Type;
  content : F -> list Z;
  position : F -> Z;
  file_seek : F -> Z -> result unit FileError * F;
  read_from : M -> Z -> F -> Z -> result Z GuestMemoryError * M * F;
  write_to : M -> Z -> F -> Z -> result Z GuestMemoryError * F;
  file_flush : F -> result unit FileError * F;
  file_sync_all : F -> result unit FileError * F;

  content_ok f : bytes_ok (content f);
  seek_ok f off r f' : file_seek f off = (r, f') -> content f' = content f /\ (r = Ok tt -> position f' = off);
  flush_ok f r f' : file_flush f = (r, f') -> content f' = content f;
  sync_ok f r f' : file_sync_all f = (r, f') -> content f' = content f;
  read_from_frame m a f n r m' f' : 0 <= n -> read_from m a f n = (r, m', f') -> content f' = content f /\
    (forall x, is_Some (byte_at m' x) <-> is_Some (byte_at m x)) /\
    (forall x, x < a \/ a + n <= x -> byte_at m' x = byte_at m x);
  read_from_ok m a f n k m' f' : 0 <= n -> 0 <= position f -> read_from m a f n = (Ok k, m', f') -> 0 <= k <= n /\
    (forall i, 0 <= i < k -> byte_at m' (a + i) = content f !! Z.to_nat (position f + i)) /\
    (backed m a n -> k = Z.min n (Z.max 0 (Z.of_nat (length (content f)) - position f)));
  write_to_frame m a f n r f' : 0 <= n -> 0 <= position f <= Z.of_nat (length (content f)) -> write_to m a f n = (r, f') ->
    (forall i : nat, Z.of_nat i < position f \/ position f + n <= Z.of_nat i -> content f' !! i = content f !! i) /\
    (position f + n <= Z.of_nat (length (content f)) -> length (content f') = length (content f));
  write_to_ok m a f n k f' : 0 <= n -> 0 <= position f <= Z.of_nat (length (content f)) -> write_to m a f n = (Ok k, f') -> 0 <= k <= n /\
    (forall i, 0 <= i < k -> content f' !! Z.to_nat (position f + i) = byte_at m (a + i)) /\
    (backed m a n -> k = n)
}.

(** ** Engines *)

Inductive SyncError (G X : Type) :=
| SyncFlush (e : X)
| SyncSeek (e : X)
| SyncSyncAll (e : X)
| SyncTransfer (e : G).
Arguments SyncFlush {G X} e. Arguments SyncSeek {G X} e. Arguments SyncSyncAll {G X} e. Arguments SyncTransfer {G X} e.

Inductive AsyncError (G X : Type) :=
| AsyncIO (errno : Z)
| AsyncIoUring (e : IoUringError)
| AsyncSyncAll (e : X)
| AsyncGuestMemory (e : G).
Arguments AsyncIO {G X} errno. Arguments AsyncIoUring {G X} e. Arguments AsyncSyncAll {G X} e. Arguments AsyncGuestMemory {G X} e.

Inductive EngineError (G X : Type) :=
| EngineSync (e : SyncError G X)
| EngineAsync (e : AsyncError G X)
| UnsupportedEngine
| GetKernelVersion.
Arguments EngineSync {G X} e. Arguments EngineAsync {G X} e. Arguments UnsupportedEngine {G X}. Arguments GetKernelVersion {G X}.

Definition is_throttling_err {G X} (e : EngineError G X) : bool :=
  match e with EngineAsync (AsyncIoUring e) => uring_throttling e | _ => false end.

Record WrappedUserData (T : Type) := mkWrapped { wrapped_addr : option Z; wrapped_data : T }.
Arguments mkWrapped {T}. Arguments wrapped_addr {T}. Arguments wrapped_data {T}.

Record AsyncFileEngine (F T : Type) := mkAsync {
  async_file : F;
  async_ring : IoUring (WrappedUserData T);
  completion_evt : Z
}.
Arguments mkAsync {F T}. Arguments async_file {F T}. Arguments async_ring {F T}. Arguments completion_evt {F T}.

Inductive FileEngine (F T : Type) :=
| Async (e : AsyncFileEngine F T)
| Sync (file : F).
Arguments Async {F T} e. Arguments Sync {F T} file.

(** [Executed] carries the user data and the count. *)
Inductive FileEngineOk (T : Type) := Submitted | Executed (user_data : T) (count : Z).
Arguments Submitted {T}. Arguments Executed {T} user_data count.

Section Engine.
Context {F M : Type} `{BackingFile F M} `{!GuestRegions M} `{Profile} {T : Type}.
Implicit Types (m : M) (f : F).
Abbreviation SErr := (SyncError GuestMemoryError FileError).
Abbreviation AErr := (AsyncError GuestMemoryError FileError).
Abbreviation EErr := (EngineError GuestMemoryError FileError).

Definition sync_read f (offset : Z) m (addr count : Z) : result Z SErr * M * F :=
  match file_seek f offset with
  | (Err e, f) => (Err (SyncSeek e), m, f)
  | (Ok _, f) =>
      match read_from m addr f count with
      | (Ok n, m, f) => (Ok n, m, f)
      | (Err e, m, f) => (Err (SyncTransfer e), m, f)
      end
  end.

Definition sync_write f (offset : Z) m (addr count : Z) : result Z SErr * F :=
  match file_seek f offset with
  | (Err e, f) => (Err (SyncSeek e), f)
  | (Ok _, f) =>
      match write_to m addr f count with
      | (Ok n, f) => (Ok n, f)
      | (Err e, f) => (Err (SyncTransfer e), f)
      end
  end.

Definition sync_flush f : result unit SErr * F :=
  match file_flush f with
  | (Err e, f) => (Err (SyncFlush e), f)
  | (Ok _, f) =>
      match file_sync_all f with
      | (Err e, f) => (Err (SyncSyncAll e), f)
      | (Ok _, f) => (Ok tt, f)
      end
  end.

(** [mem.get_slice(addr, count)]: the bytes lie in one region. *)
Definition get_slice m (addr count : Z) : result Z GuestMemoryError :=
  match region_of m addr with
  | Some (start, len) => if addr + count <=? start + len then Ok addr else Err (access_error m addr count)
  | None => Err (access_error m addr count)
  end.

Implicit Types e : AsyncFileEngine F T.
Definition with_ring e (r : IoUring (WrappedUserData T)) : AsyncFileEngine F T := mkAsync (async_file e) r (completion_evt e).

(** [self.ring.push(op).map_err(..)]. *)
Definition push_op e (op : Operation (WrappedUserData T)) : exec (result unit (T * AErr) * AsyncFileEngine F T) :=
  p ← push (async_ring e) op;
  Ret (match p.1 with
       | Ok _ => Ok tt
       | Err (err, data) => Err (wrapped_data data, AsyncIoUring err)
       end, with_ring e p.2).

Definition push_read e (offset : Z) m (addr count : Z) (user_data : T) : exec (result unit (T * AErr) * AsyncFileEngine F T) :=
  match get_slice m addr count with
  | Err err => Ret (Err (user_data, AsyncGuestMemory err), e)
  | Ok buf => push_op e (operation_read 0 buf count offset (mkWrapped (Some addr) user_data))
  end.

Definition push_write e (offset : Z) m (addr count : Z) (user_data : T) : exec (result unit (T * AErr) * AsyncFileEngine F T) :=
  match get_slice m addr count with
  | Err err => Ret (Err (user_data, AsyncGuestMemory err), e)
  | Ok buf => push_op e (operation_write 0 buf count offset (mkWrapped None user_data))
  end.

Definition push_flush e (user_data : T) : exec (result unit (T * AErr) * AsyncFileEngine F T) :=
  push_op e (operation_fsync 0 (mkWrapped None user_data)).

Definition kick_submission_queue e (enter : Z -> result Z Z) : result unit AErr * AsyncFileEngine F T :=
  match submit (async_ring e) enter with
  | (Ok _, r) => (Ok tt, with_ring e r)
  | (Err err, r) => (Err (AsyncIoUring err), with_ring e r)
  end.

Definition do_pop e : exec (result (option (Cqe (WrappedUserData T))) AErr * AsyncFileEngine F T) :=
  p ← pop (async_ring e);
  Ret (match p.1 with Ok c => Ok c | Err err => Err (AsyncIoUring err) end, with_ring e p.2).

Definition async_pop e : exec (result (option (Cqe T)) AErr * AsyncFileEngine F T) :=
  p ← do_pop e;
  Ret (match p.1 with Ok c => Ok (option_map (map_user_data wrapped_data) c) | Err err => Err err end, p.2).

(** [while self.do_pop()?.is_some() {}] *)
Fixpoint discard_cqes (fuel : nat) e : outcome (result unit AErr * AsyncFileEngine F T) :=
  match fuel with
  | O => Hang
  | S fuel =>
      p ← lift (do_pop e);
      match p with
      | (Err err, e) => Done (Err err, e)
      | (Ok None, e) => Done (Ok tt, e)
      | (Ok (Some _), e) => discard_cqes fuel e
      end
  end.

(** [waited]: what the kernel did while [io_uring_enter] waited for completions. *)
Definition async_drain (fuel : nat) e (discard : bool) (enter : Z -> result Z Z) (waited : AsyncFileEngine F T -> AsyncFileEngine F T)
    : outcome (result unit AErr * AsyncFileEngine F T) :=
  match submit_and_wait_all (async_ring e) enter with
  | (Err err, r) => Done (Err (AsyncIoUring err), with_ring e r)
  | (Ok _, r) =>
      let e := waited (with_ring e r) in
      if discard then discard_cqes fuel e else Done (Ok tt, e)
  end.

Definition async_drain_and_flush (fuel : nat) e (discard : bool) (enter : Z -> result Z Z) (waited : AsyncFileEngine F T -> AsyncFileEngine F T)
    : outcome (result unit AErr * AsyncFileEngine F T) :=
  d ← async_drain fuel e discard enter waited;
  match d with
  | (Err err, e) => Done (Err err, e)
  | (Ok _, e) =>
      match file_sync_all (async_file e) with
      | (Err err, f) => Done (Err (AsyncSyncAll err), mkAsync f (async_ring e) (completion_evt e))
      | (Ok _, f) => Done (Ok tt, mkAsync f (async_ring e) (completion_evt e))
      end
  end.

(** The result of pushing, as that of the engine. *)
Definition submitted (p : result unit (T * AErr) * AsyncFileEngine F T) : result (FileEngineOk T) (T * EErr) * FileEngine F T :=
  match p with
  | (Ok _, e) => (Ok Submitted, Async e)
  | (Err (user_data, err), e) => (Err (user_data, EngineAsync err), Async e)
  end.

Definition engine_read (g : FileEngine F T) (offset : Z) m (addr count : Z) (user_data : T)
    : exec (result (FileEngineOk T) (T * EErr) * FileEngine F T * M) :=
  match g with
  | Async e => p ← push_read e offset m addr count user_data; Ret (submitted p, m)
  | Sync f =>
      match sync_read f offset m addr count with
      | (Ok n, m, f) => Ret (Ok (Executed user_data n), Sync f, m)
      | (Err err, m, f) => Ret (Err (user_data, EngineSync err), Sync f, m)
      end
  end.

Definition engine_write (g : FileEngine F T) (offset : Z) m (addr count : Z) (user_data : T)
    : exec (result (FileEngineOk T) (T * EErr) * FileEngine F T) :=
  match g with
  | Async e => p ← push_write e offset m addr count user_data; Ret (submitted p)
  | Sync f =>
      match sync_write f offset m addr count with
      | (Ok n, f) => Ret (Ok (Executed user_data n), Sync f)
      | (Err err, f) => Ret (Err (user_data, EngineSync err), Sync f)
      end
  end.

Definition engine_flush (g : FileEngine F T) (user_data : T) : exec (result (FileEngineOk T) (T * EErr) * FileEngine F T) :=
  match g with
  | Async e => p ← push_flush e user_data; Ret (submitted p)
  | Sync f =>
      match sync_flush f with
      | (Ok _, f) => Ret (Ok (Executed user_data 0), Sync f)
      | (Err err, f) => Ret (Err (user_data, EngineSync err), Sync f)
      end
  end.

Definition engine_drain (fuel : nat) (g : FileEngine F T) (discard : bool) (enter : Z -> result Z Z)
    (waited : AsyncFileEngine F T -> AsyncFileEngine F T) : outcome (result unit EErr * FileEngine F T) :=
  match g with
  | Async e =>
      d ← async_drain fuel e discard enter waited;
      Done (match d.1 with Ok _ => Ok tt | Err err => Err (EngineAsync err) end, Async d.2)
  | Sync f => Done (Ok tt, Sync f)
  end.

Definition engine_drain_and_flush (fuel : nat) (g : FileEngine F T) (discard : bool) (enter : Z -> result Z Z)
    (waited : AsyncFileEngine F T -> AsyncFileEngine F T) : outcome (result unit EErr * FileEngine F T) :=
  match g with
  | Async e =>
      d ← async_drain_and_flush fuel e discard enter waited;
      Done (match d.1 with Ok _ => Ok tt | Err err => Err (EngineAsync err) end, Async d.2)
  | Sync f =>
      match sync_flush f with
      | (Ok _, f) => Done (Ok tt, Sync f)
      | (Err err, f) => Done (Err (EngineSync err), Sync f)
      end
  end.
End Engine.

(** ** Requests *)

Inductive RequestType := In | Out | Flush | GetDeviceID | Unsupported (t : Z).
#[export] Instance RequestType_eq_dec : EqDecision RequestType.
Proof. solve_decision. Defined.

Definition request_type_from (value : Z) : RequestType :=
  if value =? VIRTIO_BLK_T_IN then In
  else if value =? VIRTIO_BLK_T_OUT then Out
  else if value =? VIRTIO_BLK_T_FLUSH then Flush
  else if value =? VIRTIO_BLK_T_GET_ID then GetDeviceID
  else Unsupported value.

Inductive IoErr (G X : Type) :=
| GetId (e : G)
| PartialTransfer (completed expected : Z)
| FileEngineErr (e : EngineError G X).
Arguments GetId {G X} e. Arguments PartialTransfer {G X} completed expected. Arguments FileEngineErr {G X} e.

Inductive Status (G X : Type) :=
| StatusOk (num_bytes_to_mem : Z)
| StatusIoErr (num_bytes_to_mem : Z) (err : IoErr G X)
| StatusUnsupported (op : Z).
Arguments StatusOk {G X} num_bytes_to_mem. Arguments StatusIoErr {G X} num_bytes_to_mem err. Arguments StatusUnsupported {G X} op.

Record FinishedRequest := mkFinished { num_bytes_to_mem : Z; desc_idx : Z }.

Record PendingRequest := mkPending {
  pending_type : RequestType;
  pending_data_len : Z;
  pending_status_addr : Z;
  pending_desc_idx : Z
}.

Inductive ProcessingResult := ResSubmitted | ResThrottled | ResExecuted (finished : FinishedRequest).

Record RequestHeader := mkRequestHeader { request_type : Z; hdr_sector : Z }.

Record Request := mkRequest {
  r_type : RequestType;
  r_data_len : Z;
  r_status_addr : Z;
  r_sector : Z;
  r_data_addr : Z
}.

(** The errors of requests; those of the device's creation are in [BlockDevice]. *)
Inductive RequestError (G : Type) :=
| DescriptorChainTooShort
| DescriptorLengthTooSmall
| GuestMemoryErr
| InvalidDataLength
| InvalidOffset
| UnexpectedReadOnlyDescriptor
| UnexpectedWriteOnlyDescriptor.
Arguments DescriptorChainTooShort {G}. Arguments DescriptorLengthTooSmall {G}. Arguments GuestMemoryErr {G}.
Arguments InvalidDataLength {G}. Arguments InvalidOffset {G}. Arguments UnexpectedReadOnlyDescriptor {G}.
Arguments UnexpectedWriteOnlyDescriptor {G}.

Section Requests.
Context {F M : Type} `{BackingFile F M} `{!GuestRegions M} `{Profile}.
Implicit Types (m : M) (f : F) (req : Request).
Abbreviation St := (Status GuestMemoryError FileError).
Abbreviation Io := (IoErr GuestMemoryError FileError).
Abbreviation RErr := (RequestError GuestMemoryError).

Definition from_data (data_len transferred_data_len : Z) (data_to_mem : bool) : St :=
  let num_bytes_to_mem := if data_to_mem then transferred_data_len else 0 in
  if transferred_data_len =? data_len then StatusOk num_bytes_to_mem
  else StatusIoErr num_bytes_to_mem (PartialTransfer transferred_data_len data_len).

Definition write_status_and_finish (p : PendingRequest) (status : St) m : exec (FinishedRequest * M) :=
  let '(num_bytes_to_mem, status_code) :=
    match status with
    | StatusOk n => (n, VIRTIO_BLK_S_OK)
    | StatusIoErr n _ => (n, VIRTIO_BLK_S_IOERR)
    | StatusUnsupported _ => (0, VIRTIO_BLK_S_UNSUPP)
    end in
  match write_obj 1 m status_code (pending_status_addr p) with
  | (Ok _, m) => n ← uadd 32 num_bytes_to_mem 1; Ret (mkFinished n (pending_desc_idx p), m)
  | (Err _, m) => Ret (mkFinished 0 (pending_desc_idx p), m)
  end.

Definition finish (p : PendingRequest) m (res : result Z Io) : exec (FinishedRequest * M) :=
  let status :=
    match pending_type p, res with
    | In, Ok transferred => from_data (pending_data_len p) transferred true
    | Out, Ok transferred => from_data (pending_data_len p) transferred false
    | Flush, Ok _ => StatusOk 0
    | GetDeviceID, Ok transferred => from_data (pending_data_len p) transferred true
    | Unsupported op, _ => StatusUnsupported op
    | _, Err err => StatusIoErr 0 err
    end in
  write_status_and_finish p status m.

(** [read_obj::<RequestHeader>]: sixteen bytes, of which the second four are reserved. *)
Definition header_read_from m (addr : Z) : option RequestHeader :=
  match read_bytes m addr 16 with
  | Some l => Some (mkRequestHeader (le_decode (take 4 l)) (le_decode (drop 8 l)))
  | None => None
  end.

(** The checks on the type, the length and the sector of a request. *)
Definition check_request req (num_disk_sectors : Z) : result unit RErr :=
  match r_type req with
  | In | Out =>
      if negb (r_data_len req mod SECTOR_SIZE =? 0) then Err InvalidDataLength
      else match checked_add 64 (r_sector req) (Z.shiftr (r_data_len req) SECTOR_SHIFT) with
      | None => Err InvalidOffset
      | Some top_sector => if num_disk_sectors <? top_sector then Err InvalidOffset else Ok tt
      end
  | GetDeviceID => if r_data_len req <? VIRTIO_BLK_ID_BYTES then Err InvalidDataLength else Ok tt
  | _ => Ok tt
  end.

(** The checks on the status descriptor, and the request with its address. *)
Definition with_status_desc req (status_desc : DescriptorChain) (num_disk_sectors : Z) : result Request RErr :=
  match check_request req num_disk_sectors with
  | Err e => Err e
  | Ok _ =>
      if negb (is_write_only status_desc) then Err UnexpectedReadOnlyDescriptor
      else if dc_len status_desc <? 1 then Err DescriptorLengthTooSmall
      else Ok (mkRequest (r_type req) (r_data_len req) (dc_addr status_desc) (r_sector req) (r_data_addr req))
  end.

Definition parse (avail_desc : DescriptorChain) m (num_disk_sectors : Z) : exec (result Request RErr) :=
  if is_write_only avail_desc then Ret (Err UnexpectedWriteOnlyDescriptor)
  else match header_read_from m (dc_addr avail_desc) with
  | None => Ret (Err GuestMemoryErr)
  | Some header =>
      let type := request_type_from (request_type header) in
      d ← next_descriptor m avail_desc;
      match d with
      | None => Ret (Err DescriptorChainTooShort)
      | Some desc =>
          if negb (has_next desc) then
            if negb (bool_decide (type = Flush)) then Ret (Err DescriptorChainTooShort)
            else Ret (with_status_desc (mkRequest type 0 0 (hdr_sector header) 0) desc num_disk_sectors)
          else
            s ← next_descriptor m desc;
            match s with
            | None => Ret (Err DescriptorChainTooShort)
            | Some status_desc =>
                if is_write_only desc && bool_decide (type = Out) then Ret (Err UnexpectedWriteOnlyDescriptor)
                else if negb (is_write_only desc) && bool_decide (type = In) then Ret (Err UnexpectedReadOnlyDescriptor)
                else if negb (is_write_only desc) && bool_decide (type = GetDeviceID) then Ret (Err UnexpectedReadOnlyDescriptor)
                else Ret (with_status_desc (mkRequest type (dc_len desc) 0 (hdr_sector header) (dc_addr desc)) status_desc num_disk_sectors)
            end
      end
  end.

(** [clk_ops], [clk_bytes]: the clock at the two calls of the limiter. *)
Definition rate_limit req (rl : RateLimiter) (clk_ops clk_bytes : Clock) : exec (bool * RateLimiter) :=
  c ← consume rl 1 Ops clk_ops;
  if negb c.1 then Ret (true, c.2)
  else if bool_decide (r_type req = In) || bool_decide (r_type req = Out) then
    b ← consume c.2 (r_data_len req) Bytes clk_bytes;
    if negb b.1 then rl ← manual_replenish b.2 1 Ops; Ret (true, rl)
    else Ret (false, b.2)
  else Ret (false, c.2).

(** [self.sector << SECTOR_SHIFT] *)
Definition offset req : Z := wrap 64 (Z.shiftl (r_sector req) SECTOR_SHIFT).

Definition to_pending_request req (desc_idx : Z) : PendingRequest :=
  mkPending (r_type req) (r_data_len req) (r_status_addr req) desc_idx.

(** What a request makes of the engine's answer. *)
Definition conclude m (res : result (FileEngineOk PendingRequest) (PendingRequest * EngineError GuestMemoryError FileError))
    : exec (ProcessingResult * M) :=
  match res with
  | Ok Submitted => Ret (ResSubmitted, m)
  | Ok (Executed p count) => d ← finish p m (Ok count); Ret (ResExecuted d.1, d.2)
  | Err (p, err) =>
      if is_throttling_err err then Ret (ResThrottled, m)
      else d ← finish p m (Err (FileEngineErr err)); Ret (ResExecuted d.1, d.2)
  end.

(** [image_id]: the identification of the disk. *)
Definition process req (g : FileEngine F PendingRequest) (image_id : list Z) (desc_idx : Z) m
    : exec (ProcessingResult * FileEngine F PendingRequest * M) :=
  let pending := to_pending_request req desc_idx in
  match r_type req with
  | In =>
      e ← engine_read g (offset req) m (r_data_addr req) (r_data_len req) pending;
      let '(res, g, m) := e in
      c ← conclude m res; Ret (c.1, g, c.2)
  | Out =>
      e ← engine_write g (offset req) m (r_data_addr req) (r_data_len req) pending;
      let '(res, g) := e in
      c ← conclude m res; Ret (c.1, g, c.2)
  | Flush =>
      e ← engine_flush g pending;
      let '(res, g) := e in
      c ← conclude m res; Ret (c.1, g, c.2)
  | GetDeviceID =>
      let '(w, m) := write_bytes m (r_data_addr req) image_id in
      let res := match w with Ok _ => Ok VIRTIO_BLK_ID_BYTES | Err e => Err (GetId e) end in
      d ← finish pending m res; Ret (ResExecuted d.1, g, d.2)
  | Unsupported _ => d ← finish pending m (Ok 0); Ret (ResExecuted d.1, g, d.2)
  end.
End Requests.

(** ** What a parsed request promises *)

(** [n]: the sectors of the disk. *)
Record request_ok (req : Request) (n : Z) : Prop := {
  ro_len : in_range 32 (r_data_len req);
  ro_sector : in_range 64 (r_sector req);
  ro_transfer : r_type req = In \/ r_type req = Out ->
    r_data_len req mod SECTOR_SIZE = 0 /\ r_sector req * SECTOR_SIZE + r_data_len req <= n * SECTOR_SIZE;
  ro_id : r_type req = GetDeviceID -> VIRTIO_BLK_ID_BYTES <= r_data_len req
}.

(** The sizes of files fit 64 bits. *)
Definition disk_limit (n : Z) : Prop := 0 <= n /\ n * SECTOR_SIZE < 2 ^ 64.

Section Facts.
Context {F M : Type} `{BackingFile F M} `{!GuestRegions M} `{Profile}.
Implicit Types (m : M) (f : F) (req : Request).

Lemma header_sector m a h : header_read_from m a = Some h -> in_range 64 (hdr_sector h).
Proof.
  unfold header_read_from. destruct (read_bytes m a 16) as [l|] eqn:E; [|done]. intros [= <-].
  apply read_bytes_ok in E as [Hl Hok]. cbn [hdr_sector].
  pose proof (le_decode_range (drop 8 l) (Forall_drop _ _ _ Hok)) as Hr. by rewrite length_drop, Hl in Hr.
Qed.

Lemma check_request_ok req n : in_range 32 (r_data_len req) -> in_range 64 (r_sector req) ->
  check_request (M := M) req n = Ok tt -> request_ok req n.
Proof.
  intros Hl Hs. unfold check_request, checked_add. change SECTOR_SIZE with 512. change (Z.shiftr (r_data_len req) SECTOR_SHIFT) with (Z.shiftr (r_data_len req) 9).
  rewrite Z.shiftr_div_pow2 by lia. change (2 ^ 9) with 512. intros E. split; try done.
  - change SECTOR_SIZE with 512. intros Ht. assert (Ec : (if negb (r_data_len req mod 512 =? 0) then Err InvalidDataLength
      else match (if in_rangeb 64 (r_sector req + r_data_len req / 512) then Some (r_sector req + r_data_len req / 512) else None) with
           | Some top => if n <? top then Err InvalidOffset else Ok tt | None => Err InvalidOffset end)
      = (Ok tt : result unit (RequestError GuestMemoryError))) by (by destruct Ht as [Ht|Ht]; rewrite Ht in E).
    clear E. destruct (Z.eqb_spec (r_data_len req mod 512) 0) as [Hm|]; [|done]. cbn [negb] in Ec.
    destruct (in_rangeb 64 _); [|done]. destruct (Z.ltb_spec n (r_sector req + r_data_len req / 512)); [done|].
    split; [done|]. pose proof (Z.div_mod (r_data_len req) 512). lia.
  - intros Ht. rewrite Ht in E. by destruct (Z.ltb_spec (r_data_len req) VIRTIO_BLK_ID_BYTES).
Qed.

(** Parsing returns; a request it accepts lies on the disk. *)
Lemma parse_returns head m n : in_range 16 (dc_ttl head) ->
  exists r, parse head m n = Ret r /\ forall req, r = Ok req -> request_ok req n.
Proof.
  intros Ht. unfold parse. destruct (is_write_only head); [by eexists|].
  destruct (header_read_from m (dc_addr head)) as [h|] eqn:Eh; [|by eexists]. apply header_sector in Eh.
  assert (Hw : forall req d, in_range 32 (r_data_len req) -> in_range 64 (r_sector req) ->
    forall req', with_status_desc (M := M) req d n = Ok req' -> request_ok req' n).
  { intros req d Hl Hs req'. unfold with_status_desc. destruct (check_request req n) as [[]|] eqn:Ec; [|done].
    destruct (negb _); [done|]. destruct (_ <? 1); [done|]. intros [= <-]. by destruct (check_request_ok req n Hl Hs Ec). }
  destruct (next_descriptor_returns m head Ht) as [o En]. rewrite En, bind_Ret. destruct o as [d|]; [|by eexists].
  destruct (next_descriptor_ranges m head d En Ht) as [[Ha Hl] Htd]. destruct (negb (has_next d)).
  { destruct (negb _); [by eexists|]. eexists. split; [done|]. apply Hw; [unfold in_range; cbn; lia|done]. }
  destruct (next_descriptor_returns m d Htd) as [o Es]. rewrite Es, bind_Ret. destruct o as [sd|]; [|by eexists].
  repeat (case_match; [by eexists|]). eexists. split; [done|]. by apply Hw.
Qed.

Lemma offset_exact req n : request_ok req n -> disk_limit n -> r_type req = In \/ r_type req = Out ->
  offset req = r_sector req * SECTOR_SIZE /\ 0 <= offset req /\ offset req + r_data_len req <= n * SECTOR_SIZE.
Proof.
  intros Hr [Hn Hl] Ht. destruct (ro_transfer _ _ Hr Ht) as [_ Hb]. pose proof (ro_sector _ _ Hr) as Hs. pose proof (ro_len _ _ Hr) as Hd.
  assert (E : offset req = r_sector req * SECTOR_SIZE).
  { unfold offset. change SECTOR_SHIFT with 9. rewrite Z.shiftl_mul_pow2 by lia. change (2 ^ 9) with SECTOR_SIZE. apply wrap_id.
    change SECTOR_SIZE with 512 in *. unfold in_range in *. lia. }
  rewrite E. change SECTOR_SIZE with 512 in *. unfold in_range in *. lia.
Qed.

(** Writing the status changes one byte, if it is in memory. *)
Definition status_bytes (s : Status GuestMemoryError FileError) : Z :=
  match s with StatusOk n | StatusIoErr n _ => n | StatusUnsupported _ => 0 end.
Definition status_code (s : Status GuestMemoryError FileError) : Z :=
  match s with StatusOk _ => VIRTIO_BLK_S_OK | StatusIoErr _ _ => VIRTIO_BLK_S_IOERR | StatusUnsupported _ => VIRTIO_BLK_S_UNSUPP end.

Lemma write_status_ok p s m : 0 <= status_bytes s < 2 ^ 32 - 1 ->
  exists fin m', write_status_and_finish p s m = Ret (fin, m') /\ desc_idx fin = pending_desc_idx p /\ in_range 32 (num_bytes_to_mem fin) /\
    agrees (span (pending_status_addr p) 1) m m' /\
    (backed m (pending_status_addr p) 1 ->
       byte_at m' (pending_status_addr p) = Some (status_code s) /\ num_bytes_to_mem fin = status_bytes s + 1).
Proof.
  intros Hb. unfold write_status_and_finish. set (a := pending_status_addr p).
  assert (E : match s with StatusOk n => (n, VIRTIO_BLK_S_OK) | StatusIoErr n _ => (n, VIRTIO_BLK_S_IOERR) | StatusUnsupported _ => (0, VIRTIO_BLK_S_UNSUPP) end
    = (status_bytes s, status_code s)) by by destruct s. rewrite E. clear E.
  assert (Hc : status_code s mod 256 = status_code s) by by destruct s.
  pose proof (agrees_write m a (le_encode 1 (status_code s)) (le_encode_ok _ _)) as Hag. rewrite length_le_encode in Hag.
  fold (write_obj 1 m (status_code s) a) in Hag. pose proof (write_obj_backed m a 1 (status_code s)) as Hok.
  pose proof (read_write_same m a 1 (status_code s)) as Hrd.
  destruct (write_obj 1 m (status_code s) a) as [[[]|e] m'] eqn:Ew; cbn [fst snd] in *.
  - rewrite uadd_ok by (unfold in_range; lia). rewrite bind_Ret. do 2 eexists. split; [done|]. cbn.
    split; [done|]. split; [unfold in_range; lia|]. split; [done|]. intros _. split; [|done].
    specialize (Hrd eq_refl). change (256 ^ Z.of_nat 1) with 256 in Hrd. rewrite Hc in Hrd. unfold read_obj in Hrd.
    cbn [read_bytes] in Hrd. destruct (byte_at m' a); [|done]. injection Hrd as Hrd. f_equal. cbn [le_decode] in Hrd. lia.
  - do 2 eexists. split; [done|]. cbn. split; [done|]. split; [unfold in_range; lia|]. split; [done|].
    intros Hbk. discriminate (Hok Hbk).
Qed.

(** Where a request may write to memory, and to the disk. *)
Definition written_to_memory req (x : Z) : Prop :=
  span (r_status_addr req) 1 x \/ (r_type req = In \/ r_type req = GetDeviceID) /\ span (r_data_addr req) (r_data_len req) x.
Definition written_to_disk req (i : nat) : Prop := r_type req = Out /\ span (offset req) (r_data_len req) (Z.of_nat i).

(** What a status of success says: [c] and [c'] are the disk before and after. *)
Definition succeeded req (id c c' : list Z) m m' (bytes : Z) : Prop :=
  match r_type req with
  | In => bytes = r_data_len req + 1 /\ forall i, 0 <= i < r_data_len req -> r_data_addr req + i <> r_status_addr req ->
      byte_at m' (r_data_addr req + i) = c !! Z.to_nat (offset req + i)
  | Out => bytes = 1 /\ forall i, 0 <= i < r_data_len req -> c' !! Z.to_nat (offset req + i) = byte_at m (r_data_addr req + i)
  | Flush => bytes = 1
  | GetDeviceID => r_data_len req = VIRTIO_BLK_ID_BYTES /\ bytes = VIRTIO_BLK_ID_BYTES + 1 /\
      forall i : nat, (i < length id)%nat -> r_data_addr req + Z.of_nat i <> r_status_addr req -> byte_at m' (r_data_addr req + Z.of_nat i) = id !! i
  | Unsupported _ => False
  end.

(** A host whose file does not fail. *)
Definition reliable : Prop :=
  (forall (f : F) off, (file_seek f off).1 = Ok tt) /\ (forall f : F, (file_flush f).1 = Ok tt /\ (file_sync_all f).1 = Ok tt) /\
  (forall m a (f : F) n, backed m a n -> exists k, (read_from m a f n).1.1 = Ok k) /\
  (forall m a (f : F) n, backed m a n -> exists k, (write_to m a f n).1 = Ok k).

Record executed req (id c c' : list Z) (idx : Z) m m' (fin : FinishedRequest) : Prop := {
  ex_idx : desc_idx fin = idx;
  ex_bytes : in_range 32 (num_bytes_to_mem fin);
  ex_mem : agrees (written_to_memory req) m m';
  ex_disk i : ~ written_to_disk req i -> c' !! i = c !! i;
  ex_disk_len : length c' = length c;
  ex_status : backed m (r_status_addr req) 1 -> exists code, byte_at m' (r_status_addr req) = Some code /\
    (code = VIRTIO_BLK_S_OK -> succeeded req id c c' m m' (num_bytes_to_mem fin)) /\
    ((exists t, r_type req = Unsupported t) -> code = VIRTIO_BLK_S_UNSUPP);
  ex_done : reliable -> backed m (r_status_addr req) 1 -> backed m (r_data_addr req) (r_data_len req) ->
    r_type req = In \/ r_type req = Out \/ r_type req = Flush -> byte_at m' (r_status_addr req) = Some VIRTIO_BLK_S_OK
}.

(** Finishing a request whose data have been dealt with: [m1] is the memory then. *)
Lemma finish_executed req id c c' idx m m1 s :
  0 <= status_bytes s < 2 ^ 32 - 1 -> agrees (written_to_memory req) m m1 ->
  (forall i, ~ written_to_disk req i -> c' !! i = c !! i) -> length c' = length c ->
  (forall m', agrees (span (r_status_addr req) 1) m1 m' -> status_code s = VIRTIO_BLK_S_OK -> succeeded req id c c' m m' (status_bytes s + 1)) ->
  ((exists t, r_type req = Unsupported t) -> status_code s = VIRTIO_BLK_S_UNSUPP) ->
  (reliable -> backed m (r_data_addr req) (r_data_len req) -> r_type req = In \/ r_type req = Out \/ r_type req = Flush -> status_code s = VIRTIO_BLK_S_OK) ->
  exists fin m', write_status_and_finish (to_pending_request req idx) s m1 = Ret (fin, m') /\ executed req id c c' idx m m' fin.
Proof.
  intros Hb Hag Hd Hl Hs Hu Hr. destruct (write_status_ok (to_pending_request req idx) s m1 Hb) as (fin & m' & E & Hi & Hn & Ha & Hst).
  exists fin, m'. split; [done|]. change (pending_status_addr (to_pending_request req idx)) with (r_status_addr req) in *.
  assert (Hbk : backed m (r_status_addr req) 1 -> backed m1 (r_status_addr req) 1) by (by apply (agrees_backed _ m m1 _ _ Hag)).
  split; try done.
  - apply (agrees_trans _ m m1 m'); [done|]. eapply agrees_weaken; [|exact Ha]. intros x Hx. by left.
  - intros Hbs. destruct (Hst (Hbk Hbs)) as [Hc Hnb]. exists (status_code s). split; [done|]. split; [|done]. intros Ec.
    rewrite Hnb. by apply Hs.
  - intros Hrel Hbs Hbd Ht. destruct (Hst (Hbk Hbs)) as [Hc _]. rewrite Hc. f_equal. by apply Hr.
Qed.

(** Finishing a transfer: [r] is the engine's answer, [m1] and [c'] are memory and disk then. *)
Lemma transfer_executed req n id c c' idx m m1 (r : result Z (SyncError GuestMemoryError FileError)) :
  request_ok req n -> r_type req = In \/ r_type req = Out ->
  agrees (written_to_memory req) m m1 -> (forall i, ~ written_to_disk req i -> c' !! i = c !! i) -> length c' = length c ->
  (forall k, r = Ok k -> 0 <= k <= r_data_len req) ->
  (r = Ok (r_data_len req) -> forall m', agrees (span (r_status_addr req) 1) m1 m' ->
     succeeded req id c c' m m' (if bool_decide (r_type req = In) then r_data_len req + 1 else 1)) ->
  (reliable -> backed m (r_data_addr req) (r_data_len req) -> r = Ok (r_data_len req)) ->
  exists fin m', conclude m1 (match r with Ok k => Ok (Executed (to_pending_request req idx) k)
                              | Err e => Err (to_pending_request req idx, EngineSync e) end) = Ret (ResExecuted fin, m') /\
    executed req id c c' idx m m' fin.
Proof.
  intros Hr Ht Hag Hd Hl Hk Hs Hrel.
  assert (Hlen : 0 <= r_data_len req < 2 ^ 32 - 1).
  { pose proof (ro_len _ _ Hr) as Hin. destruct (ro_transfer _ _ Hr Ht) as [Hm _]. change SECTOR_SIZE with 512 in Hm.
    pose proof (Z.div_mod (r_data_len req) 512). unfold in_range in Hin. lia. }
  set (s := match r with Ok k => from_data (r_data_len req) k (bool_decide (r_type req = In)) | Err e => StatusIoErr 0 (FileEngineErr (EngineSync e)) end).
  destruct (finish_executed req id c c' idx m m1 s) as (fin & m' & E & Hx); try done.
  - subst s. destruct r as [k|e]; [|cbn; lia]. specialize (Hk k eq_refl). unfold from_data. repeat case_match; cbn; lia.
  - subst s. intros m' Hag' Hc. destruct r as [k|e]; [|done]. unfold from_data in *. destruct (Z.eqb_spec k (r_data_len req)) as [->|]; [|done].
    specialize (Hs eq_refl m' Hag'). cbn [status_bytes]. destruct (bool_decide _); done.
  - intros [t Hu]. destruct Ht; congruence.
  - subst s. intros Hre Hb _. rewrite (Hrel Hre Hb). unfold from_data. by rewrite Z.eqb_refl.
  - exists fin, m'. split; [|done]. subst s. destruct r as [k|e]; cbn [conclude is_throttling_err]; unfold finish;
      cbn [pending_type to_pending_request pending_data_len].
    + destruct Ht as [Ht|Ht]; rewrite Ht in *; [rewrite bool_decide_eq_true_2 in E by done|rewrite bool_decide_eq_false_2 in E by done];
        by rewrite E, bind_Ret.
    + destruct Ht as [Ht|Ht]; rewrite Ht in *; by rewrite E, bind_Ret.
Qed.

Lemma sync_read_spec req n id f m r m1 f' : request_ok req n -> disk_limit n -> n * SECTOR_SIZE <= Z.of_nat (length (content f)) -> r_type req = In ->
  sync_read f (offset req) m (r_data_addr req) (r_data_len req) = (r, m1, f') ->
  content f' = content f /\ agrees (written_to_memory req) m m1 /\ (forall k, r = Ok k -> 0 <= k <= r_data_len req) /\
  (r = Ok (r_data_len req) -> forall m', agrees (span (r_status_addr req) 1) m1 m' -> succeeded req id (content f) (content f') m m' (r_data_len req + 1)) /\
  (reliable -> backed m (r_data_addr req) (r_data_len req) -> r = Ok (r_data_len req)).
Proof.
  intros Hr Hn Hlen Ht E. destruct (offset_exact req n Hr Hn (or_introl Ht)) as (_ & Ho & Hoff). pose proof (ro_len _ _ Hr) as [Hl _].
  unfold sync_read in E. destruct (file_seek f (offset req)) as [[[]|e] f1] eqn:Es; destruct (seek_ok _ _ _ _ Es) as [Ec Hp].
  2: { injection E as <- <- <-. split; [done|]. split; [apply agrees_refl|]. split; [done|]. split; [done|]. intros [Hs _].
       specialize (Hs f (offset req)). by rewrite Es in Hs. }
  specialize (Hp eq_refl). assert (Hpos : 0 <= position f1) by lia. destruct (read_from m (r_data_addr req) f1 (r_data_len req)) as [[r0 m0] f0] eqn:Er.
  destruct (read_from_frame _ _ _ _ _ _ _ Hl Er) as (Ec2 & Hmap & Hfr).
  assert (Hag : agrees (written_to_memory req) m m0).
  { split; [|done]. intros x Hx. apply Hfr. destruct (decide (r_data_addr req <= x < r_data_addr req + r_data_len req)) as [Hs|Hs]; [|lia].
    destruct Hx. right. auto. }
  assert (Hok : forall k, r0 = Ok k -> 0 <= k <= r_data_len req /\ (forall i, 0 <= i < k -> byte_at m0 (r_data_addr req + i) = content f !! Z.to_nat (offset req + i)) /\
    (backed m (r_data_addr req) (r_data_len req) -> k = r_data_len req)).
  { intros k ->. destruct (read_from_ok _ _ _ _ _ _ _ Hl Hpos Er) as (Hk & Hby & Hfull). rewrite Ec, Hp in *.
    split; [done|]. split; [done|]. intros Hb. rewrite (Hfull Hb). lia. }
  assert (E' : r = (match r0 with Ok k => Ok k | Err e => Err (SyncTransfer e) end) /\ m1 = m0 /\ f' = f0) by (by destruct r0; injection E as <- <- <-).
  destruct E' as (-> & -> & ->). split; [congruence|]. split; [done|]. split; [by destruct r0; intros k' [= <-]; apply Hok|]. split.
  - destruct r0 as [k|]; [|done]. intros [= ->] m' Hag'. unfold succeeded. rewrite Ht. split; [done|]. intros i Hi Hne.
    rewrite (proj1 Hag'); [by apply (Hok _ eq_refl)|]. unfold span. lia.
  - intros (_ & _ & Hrd & _) Hb. destruct (Hrd m (r_data_addr req) f1 (r_data_len req) Hb) as [k Ek]. rewrite Er in Ek. cbn in Ek. subst r0.
    f_equal. by apply (Hok k eq_refl).
Qed.

Lemma sync_write_spec req n id f m r f' : request_ok req n -> disk_limit n -> n * SECTOR_SIZE <= Z.of_nat (length (content f)) -> r_type req = Out ->
  sync_write f (offset req) m (r_data_addr req) (r_data_len req) = (r, f') ->
  (forall i, ~ written_to_disk req i -> content f' !! i = content f !! i) /\ length (content f') = length (content f) /\
  (forall k, r = Ok k -> 0 <= k <= r_data_len req) /\
  (r = Ok (r_data_len req) -> forall m', succeeded req id (content f) (content f') m m' 1) /\
  (reliable -> backed m (r_data_addr req) (r_data_len req) -> r = Ok (r_data_len req)).
Proof.
  intros Hr Hn Hlen Ht E. destruct (offset_exact req n Hr Hn (or_intror Ht)) as (_ & Ho & Hoff). pose proof (ro_len _ _ Hr) as [Hl _].
  unfold sync_write in E. destruct (file_seek f (offset req)) as [[[]|e] f1] eqn:Es; destruct (seek_ok _ _ _ _ Es) as [Ec Hp].
  2: { injection E as <- <-. split; [by intros i _; rewrite Ec|]. split; [by rewrite Ec|]. split; [done|]. split; [done|]. intros [Hs _].
       specialize (Hs f (offset req)). by rewrite Es in Hs. }
  specialize (Hp eq_refl). assert (Hpos : 0 <= position f1 <= Z.of_nat (length (content f1))) by (rewrite Hp, Ec; lia). destruct (write_to m (r_data_addr req) f1 (r_data_len req)) as [r0 f0] eqn:Er.
  destruct (write_to_frame _ _ _ _ _ _ Hl Hpos Er) as (Hfr & Hsz). rewrite Hp, Ec in Hfr, Hsz.
  assert (Hok : forall k, r0 = Ok k -> 0 <= k <= r_data_len req /\ (forall i, 0 <= i < k -> content f0 !! Z.to_nat (offset req + i) = byte_at m (r_data_addr req + i)) /\
    (backed m (r_data_addr req) (r_data_len req) -> k = r_data_len req)).
  { intros k ->. destruct (write_to_ok _ _ _ _ _ _ Hl Hpos Er) as (Hk & Hby & Hfull). by rewrite Hp in *. }
  assert (E' : r = (match r0 with Ok k => Ok k | Err e => Err (SyncTransfer e) end) /\ f' = f0) by (by destruct r0; injection E as <- <-).
  destruct E' as (-> & ->). split.
  { intros i Hi. apply Hfr. destruct (decide (offset req <= Z.of_nat i < offset req + r_data_len req)); [|lia]. by destruct Hi. }
  split; [apply Hsz; lia|]. split; [by destruct r0; intros k' [= <-]; apply Hok|]. split.
  - destruct r0 as [k|]; [|done]. intros [= ->] m'. unfold succeeded. rewrite Ht. split; [done|]. apply (Hok _ eq_refl).
  - intros (_ & _ & _ & Hwr) Hb. destruct (Hwr m (r_data_addr req) f1 (r_data_len req) Hb) as [k Ek]. rewrite Er in Ek. cbn in Ek. subst r0.
    f_equal. by apply (Hok k eq_refl).
Qed.

Lemma sync_flush_spec f r f' : sync_flush f = (r, f') -> content f' = content f /\ (reliable -> r = Ok tt).
Proof.
  unfold sync_flush. intros E. destruct (file_flush f) as [r1 f1] eqn:E1. pose proof (flush_ok _ _ _ E1) as C1.
  destruct r1 as [[]|e1].
  - destruct (file_sync_all f1) as [r2 f2] eqn:E2. pose proof (sync_ok _ _ _ E2) as C2. destruct r2 as [[]|e2]; injection E as <- <-; (split; [congruence|]); [done|].
    intros (_ & Hf & _). destruct (Hf f1) as [_ Hs]. by rewrite E2 in Hs.
  - injection E as <- <-. split; [done|]. intros (_ & Hf & _). destruct (Hf f) as [Hs _]. by rewrite E1 in Hs.
Qed.

(** A request whose status does not depend on the engine. *)
Lemma id_executed req n id c idx m : request_ok req n -> bytes_ok id -> Z.of_nat (length id) <= VIRTIO_BLK_ID_BYTES -> r_type req = GetDeviceID ->
  exists fin m', (let '(w, m1) := write_bytes m (r_data_addr req) id in
    finish (to_pending_request req idx) m1 (match w with Ok _ => Ok VIRTIO_BLK_ID_BYTES | Err e => Err (GetId e) end)) = Ret (fin, m') /\
    executed req id c c idx m m' fin.
Proof.
  intros Hr Hid Hlen Ht. pose proof (ro_id _ _ Hr Ht) as Hl. change VIRTIO_BLK_ID_BYTES with 20 in *.
  pose proof (agrees_write m (r_data_addr req) id Hid) as Hag. destruct (write_bytes m (r_data_addr req) id) as [w m1] eqn:Ew. cbn [snd] in Hag.
  assert (Hag' : agrees (written_to_memory req) m m1).
  { eapply agrees_weaken; [|exact Hag]. intros x Hx. right. split; [by right|]. unfold span in *. lia. }
  unfold finish. cbn [pending_type pending_data_len to_pending_request]. rewrite Ht.
  apply finish_executed; try done.
  - destruct w; [unfold from_data; case_match|]; cbn; lia.
  - intros m' Ha Hc. destruct w as [[]|e]; [|done]. unfold from_data in *. destruct (Z.eqb_spec 20 (r_data_len req)) as [E|]; [|done].
    unfold succeeded. rewrite Ht. split; [done|]. split; [done|]. intros i Hi Hne. rewrite (proj1 Ha); [|unfold span; lia].
    pose proof (write_byte_at m (r_data_addr req) id (r_data_addr req + Z.of_nat i) Hid) as Hw. rewrite Ew in Hw. cbn [fst snd] in Hw.
    rewrite (Hw eq_refl). rewrite (proj2 (Z.leb_le _ _)), (proj2 (Z.ltb_lt _ _)) by lia. cbn. f_equal. lia.
  - intros [t Hu]. congruence.
  - intros _ _ [?|[?|?]]; congruence.
Qed.

(** The synchronous engine executes every request. *)
Lemma sync_process_executed req n id f idx m : request_ok req n -> disk_limit n -> n * SECTOR_SIZE <= Z.of_nat (length (content f)) ->
  bytes_ok id -> Z.of_nat (length id) <= VIRTIO_BLK_ID_BYTES ->
  exists fin f' m', process req (Sync f) id idx m = Ret (ResExecuted fin, Sync f', m') /\ executed req id (content f) (content f') idx m m' fin.
Proof.
  intros Hr Hn Hlen Hid Hidl. unfold process. destruct (r_type req) as [| | | |t] eqn:Ht; cbn [engine_read engine_write engine_flush].
  - destruct (sync_read f (offset req) m (r_data_addr req) (r_data_len req)) as [[r m1] f'] eqn:E.
    destruct (sync_read_spec req n id f m r m1 f' Hr Hn Hlen Ht E) as (Hc & Hag & Hk & Hs & Hrel).
    destruct (transfer_executed req n id (content f) (content f') idx m m1 r) as (fin & m' & Ef & Hx); auto; [by rewrite Hc..| |].
    { by rewrite bool_decide_eq_true_2. }
    exists fin, f', m'. split; [|done]. by destruct r; rewrite !bind_Ret, Ef, bind_Ret.
  - destruct (sync_write f (offset req) m (r_data_addr req) (r_data_len req)) as [r f'] eqn:E.
    destruct (sync_write_spec req n id f m r f' Hr Hn Hlen Ht E) as (Hd & Hl & Hk & Hs & Hrel).
    destruct (transfer_executed req n id (content f) (content f') idx m m r) as (fin & m' & Ef & Hx); auto using agrees_refl.
    { rewrite bool_decide_eq_false_2 by congruence. auto. }
    exists fin, f', m'. split; [|done]. by destruct r; rewrite !bind_Ret, Ef, bind_Ret.
  - destruct (sync_flush f) as [r f'] eqn:E. destruct (sync_flush_spec _ _ _ E) as [Hc Hrel].
    destruct (finish_executed req id (content f) (content f') idx m m
      (match r with Ok _ => StatusOk 0 | Err e => StatusIoErr 0 (FileEngineErr (EngineSync e)) end)) as (fin & m' & Ef & Hx); rewrite ?Hc; auto using agrees_refl.
    + destruct r; cbn; lia.
    + intros m' _ _. destruct r; cbn; unfold succeeded; by rewrite Ht.
    + intros [t Hu]. congruence.
    + intros Hre _ _. by rewrite (Hrel Hre).
    + exists fin, f', m'. rewrite Hc in Hx. split; [|by rewrite Hc]. destruct r as [[]|e]; rewrite !bind_Ret; cbn [conclude is_throttling_err]; unfold finish;
        cbn [pending_type to_pending_request]; rewrite Ht; by rewrite Ef, !bind_Ret.
  - destruct (id_executed req n id (content f) idx m Hr Hid Hidl Ht) as (fin & m' & Ef & Hx).
    destruct (write_bytes m (r_data_addr req) id) as [w m1]. exists fin, f, m'. split; [|done]. by rewrite Ef, bind_Ret.
  - destruct (finish_executed req id (content f) (content f) idx m m (StatusUnsupported t)) as (fin & m' & Ef & Hx); auto using agrees_refl.
    + cbn; lia.
    + done.
    + intros _ _ [?|[?|?]]; congruence.
    + exists fin, f, m'. split; [|done]. unfold finish. cbn [pending_type to_pending_request]. by rewrite Ht, Ef, bind_Ret.
Qed.
End Facts.
