(* ===== verification/BlockDevice.v ===== *)
(** * The block device

    Models [devices/src/virtio/block/device.rs] and [event_handler.rs]: the device that
    serves the requests of its queue from a file, under a rate limiter, with either engine of
    [BlockRequest].

    The loops get a bound on the number of rounds.  What the world decides during a round
    (the clock, what the driver does to its memory meanwhile) is an argument of type
    [BlockWorld]; what the host answers when a disk is opened is [DiskHost].  Requests to the
    event manager are returned as a list.  Log messages and metrics are left out. *)

From Stdlib Require Import ZArith Lia.
From stdpp Require Import functions prelude.
From S2P Require Import Prelude Text GuestMemory IoUring VirtioQueue QueueRuns Mmio RateLimiter VirtioPersist BlockRequest.

Definition CONFIG_SPACE_SIZE : nat := 8.
Definition BLOCK_QUEUE_SIZE : Z := 256.
Definition BLOCK_NUM_QUEUES : nat := 1.
Definition VIRTIO_BLK_F_RO : Z := 5.
Definition VIRTIO_BLK_F_FLUSH : Z := 9.
Definition TYPE_BLOCK : Z := 2.

Inductive CacheType := Unsafe | Writeback.
#[export] Instance CacheType_eq_dec : EqDecision CacheType.
Proof. solve_decision. Defined.

Inductive FileEngineType := AsyncType | SyncType.

(** Versions of a kernel, in the derived order. *)
Definition KernelVersion : Type := Z * Z * Z.
Definition version_lt (a b : KernelVersion) : bool :=
  let '(a1, a2, a3) := a in
  let '(b1, b2, b3) := b in
  (a1 <? b1) || (a1 =? b1) && ((a2 <? b2) || (a2 =? b2) && (a3 <? b3)).
Definition min_kernel_version_for_io_uring : KernelVersion := (5, 10, 51).

Definition is_supported (t : FileEngineType) (kernel : option KernelVersion) : option bool :=
  match t with
  | AsyncType =>
      match kernel with
      | None => None
      | Some v => Some (negb (version_lt v min_kernel_version_for_io_uring))
      end
  | SyncType => Some true
  end.

Record DiskProperties (F : Type) := mkDisk {
  disk_cache_type : CacheType;
  file_path : list Z;
  file_engine : FileEngine F PendingRequest;
  nsectors : Z;
  image_id : list Z
}.
Arguments mkDisk {F}. Arguments disk_cache_type {F}. Arguments file_path {F}. Arguments file_engine {F}.
Arguments nsectors {F}. Arguments image_id {F}.

Inductive BlockError (X : Type) :=
| BackingFileErr (e : X)
| BlockFileEngine (unsupported : option FileEngineType) (* [None]: another error of the engine *)
| BlockEventFd
| BlockIrqTrigger
| BlockRateLimiter
| BlockPersist.
Arguments BackingFileErr {X} e. Arguments BlockFileEngine {X} unsupported. Arguments BlockEventFd {X}.
Arguments BlockIrqTrigger {X}. Arguments BlockRateLimiter {X}. Arguments BlockPersist {X}.

(** What the host answers when a disk is opened: the file, its size, the numbers of its
    device and inode, the kernel's version, the event descriptor and the ring of an
    asynchronous engine. *)
Record DiskHost (F X : Type) := mkHost {
  h_open : result F X;
  h_size : result Z X;
  h_metadata : option (Z * Z * Z);
  h_kernel : option KernelVersion;
  h_evt : option Z;
  h_ring : KernelSetup
}.
Arguments mkHost {F X}. Arguments h_open {F X}. Arguments h_size {F X}. Arguments h_metadata {F X}. Arguments h_kernel {F X}.
Arguments h_evt {F X}. Arguments h_ring {F X}.

(** The decimal digits of a 64-bit number. *)
Definition decimal_u64 (n : Z) : list Z := decimal_loop 20 n [].

Definition build_device_id (metadata : option (Z * Z * Z)) : option (list Z) :=
  match metadata with
  | None => None
  | Some (st_dev, st_rdev, st_ino) => Some (decimal_u64 st_dev ++ decimal_u64 st_rdev ++ decimal_u64 st_ino)
  end.

Definition build_disk_image_id (metadata : option (Z * Z * Z)) : list Z :=
  let default_id := replicate (Z.to_nat VIRTIO_BLK_ID_BYTES) 0 in
  match build_device_id metadata with
  | None => default_id
  | Some disk_id =>
      let bytes_to_copy := Nat.min (length disk_id) (Z.to_nat VIRTIO_BLK_ID_BYTES) in
      take bytes_to_copy disk_id ++ drop bytes_to_copy default_id
  end.

Definition engine_from_file {F X} (file : F) (t : FileEngineType) (h : DiskHost F X)
    : result (FileEngine F PendingRequest) (BlockError X) :=
  match is_supported t (h_kernel h) with
  | None => Err (BlockFileEngine None)
  | Some false => Err (BlockFileEngine (Some t))
  | Some true =>
      match t with
      | SyncType => Ok (Sync file)
      | AsyncType =>
          match h_evt h with
          | None => Err (BlockFileEngine None)
          | Some evt =>
              match IoUring_new 1 true true (h_ring h) with
              | Err _ => Err (BlockFileEngine None)
              | Ok ring => Ok (Async (mkAsync file ring evt))
              end
          end
      end
  end.

Definition DiskProperties_new {F X} (path : list Z) (cache : CacheType) (t : FileEngineType) (h : DiskHost F X)
    : result (DiskProperties F) (BlockError X) :=
  match h_open h with
  | Err e => Err (BackingFileErr e)
  | Ok file =>
      match h_size h with
      | Err e => Err (BackingFileErr e)
      | Ok disk_size =>
          match engine_from_file file t h with
          | Err e => Err e
          | Ok engine => Ok (mkDisk cache path engine (Z.shiftr disk_size SECTOR_SHIFT) (build_disk_image_id (h_metadata h)))
          end
      end
  end.

Definition virtio_block_config_space {F} (d : DiskProperties F) : list Z :=
  map (fun i => wrap 8 (Z.shiftr (nsectors d) (8 * Z.of_nat i))) (seq 0 CONFIG_SPACE_SIZE).

Record Block (F : Type) := mkBlock {
  disk : DiskProperties F;
  b_avail_features : Z;
  b_acked_features : Z;
  config_space : list Z;
  b_activate_evt : Z;
  b_queues : list Queue;
  queue_evt : Z;
  b_activated : bool;
  b_irq_status : Z;
  b_id : list Z;
  partuuid : option (list Z);
  root_device : bool;
  rate_limiter : RateLimiter;
  is_io_engine_throttled : bool
}.
Arguments mkBlock {F}. Arguments disk {F}. Arguments b_avail_features {F}. Arguments b_acked_features {F}.
Arguments config_space {F}. Arguments b_activate_evt {F}. Arguments b_queues {F}. Arguments queue_evt {F}.
Arguments b_activated {F}. Arguments b_irq_status {F}. Arguments b_id {F}. Arguments partuuid {F}. Arguments root_device {F}.
Arguments rate_limiter {F}. Arguments is_io_engine_throttled {F}.

(** The descriptors of the events; [None] if one could not be made. *)
Record BlockEvents := mkBlockEvents { be_queue : option Z; be_irq : bool; be_activate : option Z }.

Definition Block_new {F X} (id : list Z) (uuid : option (list Z)) (cache : CacheType) (path : list Z) (read_only is_root : bool)
    (rl : RateLimiter) (t : FileEngineType) (h : DiskHost F X) (ev : BlockEvents) : result (Block F) (BlockError X) :=
  match DiskProperties_new path cache t h with
  | Err e => Err e
  | Ok d =>
      let features := Z.lor (Z.shiftl 1 VIRTIO_F_VERSION_1) (Z.shiftl 1 VIRTIO_RING_F_EVENT_IDX) in
      let features := if bool_decide (cache = Writeback) then Z.lor features (Z.shiftl 1 VIRTIO_BLK_F_FLUSH) else features in
      let features := if read_only then Z.lor features (Z.shiftl 1 VIRTIO_BLK_F_RO) else features in
      match be_queue ev with
      | None => Err BlockEventFd
      | Some qe =>
          if negb (be_irq ev) then Err BlockIrqTrigger
          else match be_activate ev with
          | None => Err BlockEventFd
          | Some ae =>
              Ok (mkBlock d features 0 (virtio_block_config_space d) ae (replicate BLOCK_NUM_QUEUES (Queue_new BLOCK_QUEUE_SIZE))
                    qe false 0 id uuid is_root rl false)
          end
      end
  end.

(** ** Serving the queue *)

Record BlockWorld (M : Type) := mkBlockWorld { bw_driver : M -> M; bw_clk_ops : Clock; bw_clk_bytes : Clock }.
Arguments mkBlockWorld {M}. Arguments bw_driver {M}. Arguments bw_clk_ops {M}. Arguments bw_clk_bytes {M}.

Section Device.
Context {F M : Type} `{BackingFile F M} `{!GuestRegions M} `{Profile}.
Implicit Types (b : Block F) (m : M) (d : DiskProperties F).

Definition with_engine d (g : FileEngine F PendingRequest) : DiskProperties F :=
  mkDisk (disk_cache_type d) (file_path d) g (nsectors d) (image_id d).

Definition add_used_descriptor (q : Queue) (index len : Z) m (irq : Z) : exec (Queue * Z * M) :=
  a ← add_used q m index len;
  let '(_, q, m) := a in
  k ← prepare_kick q m;
  Ret (k.2, if (k.1 : bool) then trigger_irq irq Vring else irq, m).

(** What the loop changes. *)
Record Serving := mkServing {
  s_queue : Queue;
  s_limiter : RateLimiter;
  s_disk : DiskProperties F;
  s_irq : Z;
  s_throttled : bool
}.

(** The outcome of a chain: [None] if it is put back because of the rate limiter. *)
Definition handle_chain (w : BlockWorld M) (s : Serving) (head : DescriptorChain) m
    : exec (option ProcessingResult * RateLimiter * DiskProperties F * M) :=
  p ← parse head m (nsectors (s_disk s));
  match p with
  | Ok request =>
      l ← rate_limit request (s_limiter s) (bw_clk_ops w) (bw_clk_bytes w);
      if (l.1 : bool) then Ret (None, l.2, s_disk s, m)
      else
        r ← process request (file_engine (s_disk s)) (image_id (s_disk s)) (dc_index head) m;
        let '(res, g, m) := r in
        Ret (Some res, l.2, with_engine (s_disk s) g, m)
  | Err _ => Ret (Some (ResExecuted (mkFinished 0 (dc_index head))), s_limiter s, s_disk s, m)
  end.

Fixpoint process_loop (fuel : nat) (ws : nat -> BlockWorld M) (s : Serving) m : outcome (Serving * M) :=
  match fuel with
  | O => Hang
  | S fuel =>
      r ← lift (pop_or_enable_notification (bw_driver (ws O)) (s_queue s) m);
      match r with
      | (None, q, m) => Done (mkServing q (s_limiter s) (s_disk s) (s_irq s) (s_throttled s), m)
      | (Some head, q, m) =>
          h ← lift (handle_chain (ws O) s head m);
          let '(res, rl, d, m) := h in
          match res with
          | None => Done (mkServing (undo_pop q) rl d (s_irq s) (s_throttled s), m)
          | Some ResSubmitted => process_loop fuel (fun i => ws (S i)) (mkServing q rl d (s_irq s) (s_throttled s)) m
          | Some ResThrottled => Done (mkServing (undo_pop q) rl d (s_irq s) true, m)
          | Some (ResExecuted finished) =>
              u ← lift (add_used_descriptor q (dc_index head) (num_bytes_to_mem finished) m (s_irq s));
              let '(q, irq, m) := u in
              process_loop fuel (fun i => ws (S i)) (mkServing q rl d irq (s_throttled s)) m
          end
      end
  end.

Definition with_serving b (i : nat) (s : Serving) : Block F :=
  mkBlock (s_disk s) (b_avail_features b) (b_acked_features b) (config_space b) (b_activate_evt b) (<[i := s_queue s]> (b_queues b))
    (queue_evt b) (b_activated b) (s_irq s) (b_id b) (partuuid b) (root_device b) (s_limiter s) (s_throttled s).

Definition serving_of b (q : Queue) : Serving :=
  mkServing q (rate_limiter b) (disk b) (b_irq_status b) (is_io_engine_throttled b).

(** [enter]: what the kernel answers to the submission at the end. *)
Definition process_queue (fuel : nat) (ws : nat -> BlockWorld M) (enter : Z -> result Z Z) b (i : nat) m : outcome (Block F * M) :=
  m ← lift (if b_activated b then Ret m else Panic);
  q ← lift (unwrap (b_queues b !! i));
  r ← process_loop fuel ws (serving_of b q) m;
  let '(s, m) := r in
  let s := match file_engine (s_disk s) with
           | Async e => mkServing (s_queue s) (s_limiter s) (with_engine (s_disk s) (Async (kick_submission_queue e enter).2)) (s_irq s) (s_throttled s)
           | Sync _ => s
           end in
  Done (with_serving b i s, m).

Definition process_virtio_queues (fuel : nat) (ws : nat -> BlockWorld M) (enter : Z -> result Z Z) b m := process_queue fuel ws enter b 0 m.

(** [read_ok]: the event's descriptor could be read. *)
Definition process_queue_event (fuel : nat) (ws : nat -> BlockWorld M) (enter : Z -> result Z Z) (read_ok : bool) b m : outcome (Block F * M) :=
  if negb read_ok then Done (b, m)
  else if is_blocked (rate_limiter b) then Done (b, m)
  else if is_io_engine_throttled b then Done (b, m)
  else process_virtio_queues fuel ws enter b m.

Definition with_limiter b (rl : RateLimiter) : Block F :=
  mkBlock (disk b) (b_avail_features b) (b_acked_features b) (config_space b) (b_activate_evt b) (b_queues b)
    (queue_evt b) (b_activated b) (b_irq_status b) (b_id b) (partuuid b) (root_device b) rl (is_io_engine_throttled b).

(** [expirations]: how often the limiter's timer has expired. *)
Definition process_rate_limiter_event (fuel : nat) (ws : nat -> BlockWorld M) (enter : Z -> result Z Z) (expirations : Z) b m : outcome (Block F * M) :=
  match RateLimiter_event_handler (rate_limiter b) expirations with
  | (Ok _, rl) => process_queue fuel ws enter (with_limiter b rl) 0 m
  | (Err _, rl) => Done (with_limiter b rl, m)
  end.

(** The loop over the completions of an asynchronous engine. *)
Fixpoint complete_loop (fuel : nat) (e : AsyncFileEngine F PendingRequest) (q : Queue) (irq : Z) m
    : outcome (AsyncFileEngine F PendingRequest * Queue * Z * M) :=
  match fuel with
  | O => Hang
  | S fuel =>
      p ← lift (async_pop e);
      match p with
      | (Err _, e) => Done (e, q, irq, m)
      | (Ok None, e) => Done (e, q, irq, m)
      | (Ok (Some cqe), e) =>
          let res := match cqe_result cqe with Ok count => Ok count | Err errno => Err (FileEngineErr (EngineAsync (AsyncIO errno))) end in
          f ← lift (finish (cqe_user_data cqe) m res);
          u ← lift (add_used_descriptor q (desc_idx f.1) (num_bytes_to_mem f.1) f.2 irq);
          let '(q, irq, m) := u in
          complete_loop fuel e q irq m
      end
  end.

Definition process_async_completion_queue (fuel : nat) b m : outcome (Block F * M) :=
  match file_engine (disk b) with
  | Sync _ => Done (b, m)
  | Async e =>
      m ← lift (if b_activated b then Ret m else Panic);
      q ← lift (unwrap (b_queues b !! 0%nat));
      r ← complete_loop fuel e q (b_irq_status b) m;
      let '(e, q, irq, m) := r in
      Done (with_serving b 0 (mkServing q (rate_limiter b) (with_engine (disk b) (Async e)) irq (is_io_engine_throttled b)), m)
  end.

Definition unthrottle b : Block F :=
  mkBlock (disk b) (b_avail_features b) (b_acked_features b) (config_space b) (b_activate_evt b) (b_queues b)
    (queue_evt b) (b_activated b) (b_irq_status b) (b_id b) (partuuid b) (root_device b) (rate_limiter b) false.

Definition process_async_completion_event (fuel : nat) (ws : nat -> BlockWorld M) (enter : Z -> result Z Z) (read_ok : bool) b m : outcome (Block F * M) :=
  match file_engine (disk b) with
  | Sync _ => Done (b, m)
  | Async _ =>
      if negb read_ok then Done (b, m)
      else
        r ← process_async_completion_queue fuel b m;
        let '(b, m) := r in
        if is_io_engine_throttled b then process_queue fuel ws enter (unthrottle b) 0 m else Done (b, m)
  end.

(** ** Configuration *)

Definition is_read_only b : bool := negb (Z.land (b_avail_features b) (Z.shiftl 1 VIRTIO_BLK_F_RO) =? 0).
Definition cache_type b : CacheType := disk_cache_type (disk b).
Definition file_engine_type b : FileEngineType := match file_engine (disk b) with Sync _ => SyncType | Async _ => AsyncType end.

Definition update_disk_image {X} b (path : list Z) (h : DiskHost F X) (irq_ok : bool) : exec (result unit (BlockError X) * Block F) :=
  match DiskProperties_new path (cache_type b) (file_engine_type b) h with
  | Err e => Ret (Err e, b)
  | Ok d =>
      let b := mkBlock d (b_avail_features b) (b_acked_features b) (virtio_block_config_space d) (b_activate_evt b) (b_queues b)
        (queue_evt b) (b_activated b) (trigger_irq (b_irq_status b) Config) (b_id b) (partuuid b) (root_device b) (rate_limiter b)
        (is_io_engine_throttled b) in
      if irq_ok then Ret (Ok tt, b) else Panic
  end.

Definition update_rate_limiter b (bytes ops : BucketUpdate) : Block F := with_limiter b (update_buckets (rate_limiter b) bytes ops).

Definition with_disk b d : Block F :=
  mkBlock d (b_avail_features b) (b_acked_features b) (config_space b) (b_activate_evt b) (b_queues b)
    (queue_evt b) (b_activated b) (b_irq_status b) (b_id b) (partuuid b) (root_device b) (rate_limiter b) (is_io_engine_throttled b).

Definition drain_and_flush (fuel : nat) b (discard : bool) (enter : Z -> result Z Z)
    (waited : AsyncFileEngine F PendingRequest -> AsyncFileEngine F PendingRequest) : outcome (Block F) :=
  r ← engine_drain_and_flush fuel (file_engine (disk b)) discard enter waited;
  Done (with_disk b (with_engine (disk b) r.2)).

Definition prepare_save (fuel : nat) b m (enter : Z -> result Z Z)
    (waited : AsyncFileEngine F PendingRequest -> AsyncFileEngine F PendingRequest) : outcome (Block F * M) :=
  if negb (b_activated b) then Done (b, m)
  else
    b ← drain_and_flush fuel b false enter waited;
    match file_engine (disk b) with
    | Async _ => process_async_completion_queue fuel b m
    | Sync _ => Done (b, m)
    end.

Definition block_drop (fuel : nat) b (enter : Z -> result Z Z)
    (waited : AsyncFileEngine F PendingRequest -> AsyncFileEngine F PendingRequest) : outcome (Block F) :=
  match cache_type b with
  | Unsafe =>
      r ← engine_drain fuel (file_engine (disk b)) true enter waited;
      Done (with_disk b (with_engine (disk b) r.2))
  | Writeback => drain_and_flush fuel b true enter waited
  end.

Definition block_read_config b (offset : Z) (data : list Z) : list Z := config_read (config_space b) offset data.

Definition with_config b (c : list Z) : Block F :=
  mkBlock (disk b) (b_avail_features b) (b_acked_features b) c (b_activate_evt b) (b_queues b)
    (queue_evt b) (b_activated b) (b_irq_status b) (b_id b) (partuuid b) (root_device b) (rate_limiter b) (is_io_engine_throttled b).

Definition block_write_config b (offset : Z) (data : list Z) : exec (Block F) :=
  c ← config_write (config_space b) offset data;
  Ret (match c with Some c => with_config b c | None => b end).

Definition block_has_feature b (feature : Z) : bool := negb (Z.land (b_acked_features b) (Z.shiftl 1 feature) =? 0).

Definition with_block_queues b (l : list Queue) : Block F :=
  mkBlock (disk b) (b_avail_features b) (b_acked_features b) (config_space b) (b_activate_evt b) l
    (queue_evt b) (b_activated b) (b_irq_status b) (b_id b) (partuuid b) (root_device b) (rate_limiter b) (is_io_engine_throttled b).

Definition with_acked b (v : Z) : Block F :=
  mkBlock (disk b) (b_avail_features b) v (config_space b) (b_activate_evt b) (b_queues b)
    (queue_evt b) (b_activated b) (b_irq_status b) (b_id b) (partuuid b) (root_device b) (rate_limiter b) (is_io_engine_throttled b).

(** [evt_ok]: the activation's event descriptor could be written. *)
Definition block_activate (evt_ok : bool) b : result unit unit * Block F :=
  let b := if block_has_feature b VIRTIO_RING_F_EVENT_IDX then with_block_queues b (map enable_notif_suppression (b_queues b)) else b in
  if negb evt_ok then (Err tt, b)
  else (Ok tt, mkBlock (disk b) (b_avail_features b) (b_acked_features b) (config_space b) (b_activate_evt b) (b_queues b)
          (queue_evt b) true (b_irq_status b) (b_id b) (partuuid b) (root_device b) (rate_limiter b) (is_io_engine_throttled b)).

(** ** Events *)

(** [limiter_fd]: the descriptor of the limiter's timer. *)
Definition block_runtime_events b (limiter_fd : Z) : list EventOp :=
  [OpAdd (queue_evt b) (true, false); OpAdd limiter_fd (true, false)] ++
  match file_engine (disk b) with Async e => [OpAdd (completion_evt e) (true, false)] | Sync _ => [] end.

Definition block_activate_event b : list EventOp := [OpAdd (b_activate_evt b) (true, false)].

Definition process_activate_event b (limiter_fd : Z) : list EventOp :=
  block_runtime_events b limiter_fd ++ [OpRemove (b_activate_evt b)].

(** What an event is handled with. *)
Record BlockInput := mkBlockInput {
  bi_fuel : nat;
  bi_worlds : nat -> BlockWorld M;
  bi_enter : Z -> result Z Z;
  bi_read_ok : bool;
  bi_expirations : Z;
  bi_limiter_fd : Z
}.

(** [supported_events.contains(event_set)]: nothing but [IN]. *)
Definition only_in (evset : bool * bool) : bool := negb evset.2.

Definition block_process_event (source : Z) (evset : bool * bool) (i : BlockInput) b m : outcome (Block F * M * list EventOp) :=
  if negb (only_in evset) then Done (b, m, [])
  else if b_activated b then
    if queue_evt b =? source then
      r ← process_queue_event (bi_fuel i) (bi_worlds i) (bi_enter i) (bi_read_ok i) b m; Done (r, [])
    else if bi_limiter_fd i =? source then
      r ← process_rate_limiter_event (bi_fuel i) (bi_worlds i) (bi_enter i) (bi_expirations i) b m; Done (r, [])
    else if b_activate_evt b =? source then Done (b, m, process_activate_event b (bi_limiter_fd i))
    else match file_engine (disk b) with
    | Async e =>
        if completion_evt e =? source then
          r ← process_async_completion_event (bi_fuel i) (bi_worlds i) (bi_enter i) (bi_read_ok i) b m; Done (r, [])
        else Done (b, m, [])
    | Sync _ => Done (b, m, [])
    end
  else Done (b, m, []).

Definition block_init b (limiter_fd : Z) : list EventOp :=
  if b_activated b then block_runtime_events b limiter_fd else block_activate_event b.
End Device.
