(* ===== verification/BlockRuns.v ===== *)
(** * Runs of the block device

    What the block device of [BlockDevice] does with the chains of its queue.  The loop over
    the queue is described by its trace ([loop_trace]): which chains it takes from the
    available ring and which it gives back through the used ring.  With the synchronous
    engine the loop refines an abstract disk service ([serves]); with the asynchronous one
    every chain that is taken and not yet given back is in the ring of [IoUring]
    ([block_run], [block_exactly_once]). *)

From Stdlib Require Import ZArith Lia.
From stdpp Require Import functions prelude.
From S2P Require Import Prelude Text GuestMemory IoUring VirtioQueue QueueRuns Mmio RateLimiter BlockRequest BlockDevice.

(** ** The queue under a driver that runs meanwhile *)

Section Queues.
Context {M : Type} `{GuestMemory M} `{Profile}.
Implicit Types (m : M) (q : Queue).

(** A chain given back. *)
Lemma give_spec q m idx len irq : queue_ok q m -> 0 <= idx < q_size q -> in_range 32 len ->
  exists q' irq' m', add_used_descriptor q idx len m irq = Ret (q', irq', m') /\ queue_ok q' m' /\
    agrees (used_area q) m m' /\ next_avail q' = next_avail q /\ next_used q' = wadd 16 (next_used q) 1 /\ q_size q' = q_size q /\
    used_entry q m' (next_used q) = (Some idx, Some len) /\ q' = with_num_added (with_next_used q (wadd 16 (next_used q) 1)) (num_added q').
Proof.
  intros Hq Hi Hl. destruct (add_used_step q m idx len Hq Hi Hl) as (m1 & E1 & Hag & He & _).
  unfold add_used_descriptor. rewrite E1, bind_Ret. set (q1 := with_next_used _ _).
  assert (Hq1 : queue_ok q1 m1) by (apply (queue_ok_mem _ m); [by destruct Hq; split; try done; apply wadd_range|apply Hag]).
  destruct (prepare_kick_spec q1 m1 Hq1) as (b & q2 & e & -> & Hn & Hs). rewrite bind_Ret. do 3 eexists. split; [done|]. cbn [fst snd].
  destruct (uses_notif_suppression q1).
  - destruct (Hs eq_refl) as (_ & _ & -> & _). split; [by destruct Hq1; split|]. done.
  - destruct (Hn eq_refl) as [_ ->]. done.
Qed.
End Queues.

(** ** What is under way *)

Abbreviation ring_data := (WrappedUserData PendingRequest).

Section Runs.
Context {F M : Type} `{BackingFile F M} `{!GuestRegions M} `{Profile}.
Implicit Types (m : M) (q : Queue) (g : FileEngine F PendingRequest).

(** The kernel is asked to access the disk, of [n] sectors, and guest memory only. *)
Definition sqe_ok (n : Z) m (s : Sqe ring_data) : Prop :=
  sqe_opcode s = IORING_OP_FSYNC \/
  (sqe_opcode s = IORING_OP_READ \/ sqe_opcode s = IORING_OP_WRITE) /\
  0 <= sqe_off s /\ sqe_off s + sqe_len s <= n * SECTOR_SIZE /\ backed m (sqe_addr s) (sqe_len s).

(** The chains in a ring: the submission queue holds [l], the kernel [fl], the completion
    queue [d]. *)
Definition in_ring (l fl : list (Sqe ring_data)) (d : list (Cqe ring_data)) : list Z :=
  map (fun w => pending_desc_idx (wrapped_data w)) (map sqe_user_data (l ++ fl) ++ map cqe_user_data d).

Record ring_inv (n : Z) m (r : IoUring ring_data) (fl : list (Sqe ring_data)) (out : list Z) (l : list (Sqe ring_data)) (d : list (Cqe ring_data)) : Prop := {
  ri_sys : exists hp ho, sys_inv r fl hp ho l d;
  ri_fds : registered_fds_count r = 1;
  ri_sqes : Forall (sqe_ok n m) (l ++ fl);
  ri_cqes : Forall (fun c => - 2 ^ 31 <= cqe_res c < 2 ^ 31) d;
  ri_out : out ≡ₚ in_ring l fl d
}.

(** [out]: the chains that were taken and are not yet given back. *)
Definition engine_inv (n : Z) m g (fl : list (Sqe ring_data)) (out : list Z) : Prop :=
  match g with
  | Sync f => fl = [] /\ out = [] /\ n * SECTOR_SIZE <= Z.of_nat (length (content f))
  | Async e => exists l d, ring_inv n m (async_ring e) fl out l d
  end.

Lemma sqe_ok_map n m m' s : same_map m m' -> sqe_ok n m s -> sqe_ok n m' s.
Proof. intros Hm [?|(? & ? & ? & Hb)]; [by left|]. right. split; [done|]. split; [done|]. split; [done|]. by apply (same_map_backed m). Qed.

Lemma engine_inv_map n m m' g fl out : same_map m m' -> engine_inv n m g fl out -> engine_inv n m' g fl out.
Proof.
  intros Hm. destruct g as [e|f]; [|done]. intros (l & d & [Hs Hf Hq Hc Ho]). exists l, d. split; try done.
  eapply Forall_impl; [exact Hq|]. intros s. by apply sqe_ok_map.
Qed.

Lemma finish_returns (p : PendingRequest) m (res : result Z (IoErr GuestMemoryError FileError)) : (forall k, res = Ok k -> 0 <= k < 2 ^ 32 - 1) ->
  exists fin m', finish p m res = Ret (fin, m') /\ in_range 32 (num_bytes_to_mem fin) /\ desc_idx fin = pending_desc_idx p /\
    agrees (span (pending_status_addr p) 1) m m'.
Proof.
  intros Hk. unfold finish. match goal with |- context [write_status_and_finish p ?s m] => destruct (write_status_ok p s m) as (fin & m' & E & ? & ? & ? & _) end.
  - destruct res as [k|e]; [specialize (Hk k eq_refl)|]; destruct (pending_type p); unfold from_data; repeat case_match; cbn; lia.
  - rewrite E. by exists fin, m'.
Qed.

(** Pushing an operation: it is in the ring, or the ring is full and nothing changes. *)
Lemma push_op_inv n m e fl out (op : Operation ring_data) : engine_inv n m (Async e) fl out -> op_fd op = 0 -> sqe_ok n m (into_sqe op) ->
  exists res e', push_op e op = Ret (res, e') /\
    match res with
    | Ok _ => engine_inv n m (Async e') fl (pending_desc_idx (wrapped_data (op_user_data op)) :: out)
    | Err (p, err) => e' = e /\ is_throttling_err (EngineAsync err) = true
    end.
Proof.
  intros (l & d & [(hp & ho & Hs) Hf Hq Hc Ho]) Hfd Hok. unfold push_op.
  destruct (push_inv _ fl hp ho l d op Hs) as (res & r' & E & Hr). rewrite E, bind_Ret. cbn [fst snd].
  destruct res as [[]|[err data]].
  - do 2 eexists. split; [done|]. exists (l ++ [into_sqe op]), d. split; cbn [async_ring with_ring]; [by eauto| |rewrite <-app_assoc; by apply Forall_app in Hq as [? ?]; repeat apply Forall_app_2; [|apply Forall_singleton|]|done|].
    + unfold push in E. rewrite Hf in E. cbn in E. rewrite Hfd in E. cbn in E. repeat case_match; try done.
      apply bind_Ret_inv in E as ([[?|[? ?]] ?] & _ & E); [|done]. apply bind_Ret_inv in E as (? & _ & E). by injection E as <-.
    + rewrite Ho. unfold in_ring. rewrite !map_app. cbn. solve_Permutation.
  - destruct Hr as (-> & -> & Hth). do 2 eexists. split; [done|]. split; [by destruct e|]. cbn. apply Hth. rewrite Hf, Hfd. lia.
Qed.

Lemma get_slice_ok m a n b : get_slice m a n = Ok b -> b = a /\ backed m a n.
Proof.
  unfold get_slice. destruct (region_of m a) as [[start len]|] eqn:E; [|done]. destruct (Z.leb_spec (a + n) (start + len)); [|done].
  intros [= <-]. split; [done|]. destruct (region_of_spec _ _ _ _ E) as [Ha Hb]. by apply (backed_sub m start len); [|lia|lia].
Qed.

(** A transfer by the asynchronous engine: it is under way, or the ring is full, or the
    buffer is not in guest memory and the request fails. *)
Lemma conclude_submitted n req e fl out idx m (op : Z -> Operation ring_data) :
  engine_inv n m (Async e) fl out ->
  (forall a, get_slice m (r_data_addr req) (r_data_len req) = Ok a -> op_fd (op a) = 0 /\ sqe_ok n m (into_sqe (op a)) /\
     wrapped_data (op_user_data (op a)) = to_pending_request req idx) ->
  exists p res m', match get_slice m (r_data_addr req) (r_data_len req) with
    | Err err => Ret (Err (to_pending_request req idx, AsyncGuestMemory err), e)
    | Ok a => push_op e (op a) end = Ret p /\ conclude m (submitted p).1 = Ret (res, m') /\ same_map m m' /\
    exists g', (submitted p).2 = g' /\
    match res with
    | ResExecuted fin => engine_inv n m' g' fl out /\ in_range 32 (num_bytes_to_mem fin)
    | ResSubmitted => engine_inv n m' g' fl (idx :: out)
    | ResThrottled => g' = Async e
    end.
Proof.
  intros He Hop. destruct (get_slice m (r_data_addr req) (r_data_len req)) as [a|err].
  - destruct (Hop a eq_refl) as (Hfd & Hok & Hd). destruct (push_op_inv n m e fl out (op a) He Hfd Hok) as (r & e' & -> & Hr).
    destruct r as [[]|[p err]]; do 3 eexists; (split; [done|]); cbn [submitted conclude fst snd].
    + split; [done|]. split; [done|]. eexists. split; [done|]. cbn. by rewrite Hd in Hr.
    + destruct Hr as [-> ->]. split; [done|]. split; [done|]. by eexists.
  - destruct (finish_returns (to_pending_request req idx) m (Err (FileEngineErr (EngineAsync (AsyncGuestMemory err))))) as (fin & m' & Ef & Hb & _ & Hag); [done|].
    do 3 eexists. split; [done|]. cbn [submitted conclude fst snd is_throttling_err]. rewrite Ef, bind_Ret. split; [done|]. split; [by apply (same_map_agrees _ _ _ Hag)|]. eexists. split; [done|]. split; [|done].
    by apply (engine_inv_map n m); [apply (same_map_agrees _ _ _ Hag)|].
Qed.

Definition id_ok (id : list Z) : Prop := bytes_ok id /\ Z.of_nat (length id) <= VIRTIO_BLK_ID_BYTES.

Lemma process_inv req n id g fl out idx m : request_ok req n -> disk_limit n -> id_ok id -> engine_inv n m g fl out ->
  exists res g' m', process req g id idx m = Ret (res, g', m') /\ same_map m m' /\
    match res with
    | ResExecuted fin => engine_inv n m' g' fl out /\ in_range 32 (num_bytes_to_mem fin)
    | ResSubmitted => engine_inv n m' g' fl (idx :: out)
    | ResThrottled => g' = g
    end.
Proof.
  intros Hr Hn [Hid Hidl] He. destruct g as [e|f].
  2: { destruct He as (-> & -> & Hc). destruct (sync_process_executed req n id f idx m Hr Hn Hc Hid Hidl) as (fin & f' & m' & E & [_ Hb Hag _ Hl _ _]).
       do 3 eexists. split; [exact E|]. split; [by apply (same_map_agrees _ _ _ Hag)|]. split; [|done]. split; [done|]. split; [done|]. by rewrite Hl. }
  assert (Hexec : forall fin m', agrees (written_to_memory req) m m' -> in_range 32 (num_bytes_to_mem fin) ->
    same_map m m' /\ engine_inv n m' (Async e) fl out /\ in_range 32 (num_bytes_to_mem fin)).
  { intros fin m' Hag Hb. pose proof (same_map_agrees _ _ _ Hag). split; [done|]. split; [|done]. by apply (engine_inv_map n m). }
  unfold process. destruct (r_type req) as [| | | |t] eqn:Ht; cbn [engine_read engine_write engine_flush].
  - destruct (offset_exact req n Hr Hn (or_introl Ht)) as (_ & Ho & Hoff). unfold push_read.
    destruct (conclude_submitted n req e fl out idx m (fun a => operation_read 0 a (r_data_len req) (offset req)
      (mkWrapped (Some (r_data_addr req)) (to_pending_request req idx))) He) as (p & res & m' & -> & Ec & Hm & g' & Eg & Hres).
    { intros a [-> Hb]%get_slice_ok. split; [done|]. split; [|done]. right. cbn. auto. }
    rewrite !bind_Ret. destruct (submitted p) as [r g1]. cbn in *. subst g1. rewrite Ec, bind_Ret. by exists res, g', m'.
  - destruct (offset_exact req n Hr Hn (or_intror Ht)) as (_ & Ho & Hoff). unfold push_write.
    destruct (conclude_submitted n req e fl out idx m (fun a => operation_write 0 a (r_data_len req) (offset req)
      (mkWrapped None (to_pending_request req idx))) He) as (p & res & m' & -> & Ec & Hm & g' & Eg & Hres).
    { intros a [-> Hb]%get_slice_ok. split; [done|]. split; [|done]. right. cbn. auto. }
    rewrite !bind_Ret. destruct (submitted p) as [r g1]. cbn in *. subst g1. rewrite Ec, bind_Ret. by exists res, g', m'.
  - unfold push_flush. destruct (push_op_inv n m e fl out (operation_fsync 0 (mkWrapped None (to_pending_request req idx))) He eq_refl) as (r & e' & -> & Hr'); [by left|].
    rewrite !bind_Ret. destruct r as [[]|[p err]]; cbn [submitted conclude fst snd].
    + rewrite bind_Ret. do 3 eexists. split; [done|]. done.
    + destruct Hr' as [-> ->]. rewrite bind_Ret. do 3 eexists. split; [done|]. done.
  - destruct (id_executed req n id [] idx m Hr Hid Hidl Ht) as (fin & m' & Ef & [_ Hb Hag _ _ _ _]).
    destruct (write_bytes m (r_data_addr req) id) as [w m1]. rewrite Ef, bind_Ret. do 3 eexists. split; [done|]. by apply Hexec.
  - destruct (finish_returns (to_pending_request req idx) m (Ok 0)) as (fin & m' & -> & Hb & _ & Hag); [intros k [= <-]; lia|].
    rewrite bind_Ret. do 3 eexists. split; [done|]. apply Hexec; [|done]. eapply agrees_weaken; [|exact Hag]. intros x. by left.
Qed.

(** Where the kernel is in the submission queue; only a submission changes it. *)
Definition sq_position g : Z * Z :=
  match g with Async e => (sq_head (squeue (async_ring e)), sq_ring_mask (squeue (async_ring e))) | Sync _ => (0, 0) end.

Lemma push_op_position e (op : Operation ring_data) p : push_op e op = Ret p -> sq_position (submitted p).2 = sq_position (Async e).
Proof.
  unfold push_op. intros ((res & r) & E & [= <-])%bind_Ret_inv.
  assert (Hr : sq_head (squeue r) = sq_head (squeue (async_ring e)) /\ sq_ring_mask (squeue r) = sq_ring_mask (squeue (async_ring e))).
  { unfold push in E. do 3 (case_match; [by injection E as <- <-|]).
    apply bind_Ret_inv in E as ((rs & q) & Eq & E).
    assert (sq_head q = sq_head (squeue (async_ring e)) /\ sq_ring_mask q = sq_ring_mask (squeue (async_ring e))) as Hq.
    { clear E. unfold sq_push in Eq. do 2 (case_match; [by injection Eq as <- <-|]). apply bind_Ret_inv in Eq as (? & _ & Eq). by injection Eq as <- <-. }
    destruct rs as [u|[? ?]]; [apply bind_Ret_inv in E as (? & _ & E)|]; by injection E as <- <-. }
  destruct Hr as [H1' H2']. destruct res as [u|[? ?]]; cbn; by rewrite H1', H2'.
Qed.

Lemma process_position req g id idx m res g' m' : process req g id idx m = Ret (res, g', m') -> sq_position g' = sq_position g.
Proof.
  unfold process. destruct (r_type req).
  - intros ([[r g1] m1] & E & (c & _ & [= _ <- _])%bind_Ret_inv)%bind_Ret_inv. destruct g as [e|f]; cbn [engine_read] in E.
    + apply bind_Ret_inv in E as (p & E & [= E' _]). replace g1 with (submitted p).2 by (by rewrite E'). unfold push_read in E.
      case_match; [by apply push_op_position in E|by injection E as <-].
    + destruct (sync_read _ _ _ _ _) as [[[k|err] m2] f']; by injection E as _ <- _.
  - intros ([r g1] & E & (c & _ & [= _ <- _])%bind_Ret_inv)%bind_Ret_inv. destruct g as [e|f]; cbn [engine_write] in E.
    + apply bind_Ret_inv in E as (p & E & [= E']). replace g1 with (submitted p).2 by (by rewrite E'). unfold push_write in E.
      case_match; [by apply push_op_position in E|by injection E as <-].
    + destruct (sync_write _ _ _ _ _) as [[k|err] f']; by injection E as _ <-.
  - intros ([r g1] & E & (c & _ & [= _ <- _])%bind_Ret_inv)%bind_Ret_inv. destruct g as [e|f]; cbn [engine_flush] in E.
    + apply bind_Ret_inv in E as (p & E & [= E']). replace g1 with (submitted p).2 by (by rewrite E'). by apply push_op_position in E.
    + destruct (sync_flush f) as [[k|err] f']; by injection E as _ <-.
  - destruct (write_bytes m (r_data_addr req) id) as [w m1]. by intros (c & _ & [= _ <- _])%bind_Ret_inv.
  - by intros (c & _ & [= _ <- _])%bind_Ret_inv.
Qed.

(** ** A round of the loop *)

Lemma rate_limit_returns req rl c1 c2 : overflow_checks = false -> limiter_wf rl -> in_range 32 (r_data_len req) ->
  exists lim rl', rate_limit req rl c1 c2 = Ret (lim, rl') /\ limiter_wf rl'.
Proof.
  intros Hp Hwf Hl. unfold rate_limit. destruct (consume_returns rl 1 Ops c1 Hp Hwf) as (g1 & rl1 & -> & Hwf1); [unfold in_range; lia|].
  rewrite bind_Ret. cbn [fst snd]. destruct (negb g1); [by eexists _, _|]. destruct (_ || _); [|by eexists _, _].
  destruct (consume_returns rl1 (r_data_len req) Bytes c2 Hp Hwf1) as (g2 & rl2 & -> & Hwf2); [unfold in_range in *; lia|].
  rewrite bind_Ret. cbn [fst snd]. destruct (negb g2); [|by eexists _, _].
  destruct (manual_replenish_returns rl2 1 Ops Hp Hwf2) as (rl3 & -> & Hwf3). rewrite bind_Ret. by eexists _, _.
Qed.

Implicit Types (s : @Serving F).
Record serving_inv s m (fl : list (Sqe ring_data)) (out : list Z) : Prop := {
  sv_queue : queue_ok (s_queue s) m;
  sv_limiter : limiter_wf (s_limiter s);
  sv_limit : disk_limit (nsectors (s_disk s));
  sv_id : id_ok (image_id (s_disk s));
  sv_engine : engine_inv (nsectors (s_disk s)) m (file_engine (s_disk s)) fl out;
  sv_out : Forall (fun i => 0 <= i < q_size (s_queue s)) out
}.

Lemma handle_inv w s head m fl out : overflow_checks = false -> serving_inv s m fl out -> in_range 16 (dc_ttl head) ->
  exists res rl g m', handle_chain w s head m = Ret (res, rl, with_engine (s_disk s) g, m') /\ same_map m m' /\ limiter_wf rl /\
    sq_position g = sq_position (file_engine (s_disk s)) /\
    match res with
    | None | Some ResThrottled => g = file_engine (s_disk s)
    | Some ResSubmitted => engine_inv (nsectors (s_disk s)) m' g fl (dc_index head :: out)
    | Some (ResExecuted fin) => engine_inv (nsectors (s_disk s)) m' g fl out /\ in_range 32 (num_bytes_to_mem fin)
    end.
Proof.
  intros Hp [Hq Hl Hn Hid He Ho] Ht. unfold handle_chain. set (d := s_disk s) in *.
  assert (Ed : d = with_engine d (file_engine d)) by (by destruct d).
  destruct (parse_returns head m (nsectors d) Ht) as (r & -> & Hr). rewrite bind_Ret. destruct r as [req|e].
  - specialize (Hr req eq_refl). destruct (rate_limit_returns req (s_limiter s) (bw_clk_ops w) (bw_clk_bytes w) Hp Hl (ro_len _ _ Hr)) as (lim & rl & -> & Hwf).
    rewrite bind_Ret. cbn [fst snd]. destruct lim.
    { eexists _, _, _, _. split; [by rewrite Ed at 1|]. done. }
    destruct (process_inv req _ _ _ fl out (dc_index head) m Hr Hn Hid He) as (res & g & m' & E & Hm & Hres). rewrite E, bind_Ret.
    apply process_position in E. eexists _, _, _, _. split; [done|]. split; [done|]. split; [done|]. split; [done|]. by destruct res.
  - eexists _, _, _, _. split; [by rewrite Ed at 1|]. split; [done|]. split; [done|]. split; [done|]. split; [done|]. unfold in_range. cbn. lia.
Qed.

(** ** The loop *)

(** How a queue moves: the chains of [tk] are found in the available ring, those of [gv] are
    given back with a length; between the operations memory may change. *)
Inductive queue_trace : Queue -> M -> list Z -> list (Z * Z) -> Queue -> M -> Prop :=
| qt_rest q m : queue_trace q m [] [] q m
| qt_mem q m m1 tk gv q' m' : same_map m m1 -> queue_trace q m1 tk gv q' m' -> queue_trace q m tk gv q' m'
| qt_take q m head tk gv q' m' : pending_chain q m (next_avail q) = Some head ->
    queue_trace (with_next_avail q (wadd 16 (next_avail q) 1)) m tk gv q' m' -> queue_trace q m (dc_index head :: tk) gv q' m'
| qt_give q m idx len irq q1 irq1 m1 tk gv q' m' : add_used_descriptor q idx len m irq = Ret (q1, irq1, m1) ->
    used_entry q m1 (next_used q) = (Some idx, Some len) -> next_avail q1 = next_avail q -> next_used q1 = wadd 16 (next_used q) 1 ->
    queue_trace q1 m1 tk gv q' m' -> queue_trace q m tk ((idx, len) :: gv) q' m'.

Lemma queue_trace_trans q m tk gv q1 m1 tk' gv' q' m' : queue_trace q m tk gv q1 m1 -> queue_trace q1 m1 tk' gv' q' m' ->
  queue_trace q m (tk ++ tk') (gv ++ gv') q' m'.
Proof. induction 1; intros H'; cbn; [done|by eapply qt_mem; eauto|by eapply qt_take; eauto|by eapply qt_give; eauto]. Qed.

Lemma queue_trace_counts q m tk gv q' m' : queue_trace q m tk gv q' m' -> in_range 16 (next_avail q) -> in_range 16 (next_used q) ->
  next_avail q' = wadd 16 (next_avail q) (Z.of_nat (length tk)) /\ next_used q' = wadd 16 (next_used q) (Z.of_nat (length gv)).
Proof.
  induction 1 as [q m|q m m1 tk gv q' m' _ _ IH|q m head tk gv q' m' _ _ IH|q m idx len irq q1 irq1 m1 tk gv q' m' _ _ Ha Hu _ IH]; intros H1' H2'; cbn [length].
  - unfold wadd. by rewrite !Z.add_0_r, !wrap_id.
  - by apply IH.
  - destruct (IH ltac:(by apply wadd_range) H2') as [-> ->]. split; [|done]. cbn. unfold wadd. rewrite wrap_add_l. f_equal. lia.
  - rewrite Ha, Hu in IH. destruct (IH H1' ltac:(by apply wadd_range)) as [-> ->]. split; [done|]. unfold wadd. rewrite wrap_add_l. f_equal. lia.
Qed.

Definition drivers_ok (ws : nat -> BlockWorld M) : Prop := forall i m, same_map m (bw_driver (ws i) m).

(** What stays. *)
Definition disk_static (d : DiskProperties F) := (disk_cache_type d, file_path d, nsectors d, image_id d).

Definition loop_ok s m fl out (r : outcome (@Serving F * M)) : Prop :=
  match r with
  | Crash => False
  | Hang => True
  | Done (s', m') => exists tk gv out', queue_trace (s_queue s) m tk gv (s_queue s') m' /\ tk ++ out ≡ₚ map fst gv ++ out' /\
      serving_inv s' m' fl out' /\ same_map m m' /\ disk_static (s_disk s') = disk_static (s_disk s) /\
      sq_position (file_engine (s_disk s')) = sq_position (file_engine (s_disk s)) /\ q_size (s_queue s') = q_size (s_queue s)
  end.

(** One step, then the rest. *)
Lemma loop_ok_step s m fl out s1 m1 tk gv out1 r : queue_trace (s_queue s) m tk gv (s_queue s1) m1 -> tk ++ out ≡ₚ map fst gv ++ out1 ->
  same_map m m1 -> disk_static (s_disk s1) = disk_static (s_disk s) -> sq_position (file_engine (s_disk s1)) = sq_position (file_engine (s_disk s)) ->
  q_size (s_queue s1) = q_size (s_queue s) -> loop_ok s1 m1 fl out1 r -> loop_ok s m fl out r.
Proof.
  intros Ht Hp Hm Hd Hq Hz. destruct r as [[s' m']| |]; [|done|done]. intros (tk' & gv' & out' & Ht' & Hp' & Hi & Hm' & Hd' & Hq' & Hz').
  exists (tk ++ tk'), (gv ++ gv'), out'. split; [by eapply queue_trace_trans|]. split.
  { rewrite map_app, <-!app_assoc, <-Hp', (Permutation_app_comm tk' out1), (app_assoc _ out1), <-Hp. solve_Permutation. }
  split; [done|]. split; [by apply (same_map_trans m m1 m')|]. split; [congruence|]. split; congruence.
Qed.

Lemma loop_ok_end s m fl out : serving_inv s m fl out -> loop_ok s m fl out (Done (s, m)).
Proof. intros Hi. exists [], [], out. split; [constructor|]. by repeat (split; [done|]). Qed.

Lemma loop_ok_stop s m fl out s1 m1 : s_queue s1 = s_queue s -> same_map m m1 -> disk_static (s_disk s1) = disk_static (s_disk s) ->
  sq_position (file_engine (s_disk s1)) = sq_position (file_engine (s_disk s)) -> serving_inv s1 m1 fl out -> loop_ok s m fl out (Done (s1, m1)).
Proof.
  intros Hq Hm Hd Hp Hi. apply (loop_ok_step s m fl out s1 m1 [] [] out); try done; [|congruence|by apply loop_ok_end].
  rewrite Hq. eapply qt_mem; [done|constructor].
Qed.

Lemma serving_inv_map s m m' fl out : same_map m m' -> serving_inv s m fl out -> serving_inv s m' fl out.
Proof. intros Hm [Hq Hl Hn Hid He Ho]. split; try done; [by apply (queue_ok_mem _ m)|by apply (engine_inv_map _ m)]. Qed.

Lemma loop_inv fuel : overflow_checks = false -> forall ws s m fl out, drivers_ok ws -> serving_inv s m fl out ->
  loop_ok s m fl out (process_loop fuel ws s m).
Proof.
  intros Hp. induction fuel as [|fuel IH]; intros ws s m fl out Hws Hi; [done|]. cbn [process_loop].
  pose proof Hi as [Hq _ _ _ _ _]. destruct (take_spec (bw_driver (ws O)) (s_queue s) m Hq (Hws O)) as (r & q & m1 & -> & Hm & Hq1 & Hr).
  cbn [lift]. rewrite bind_Done. pose proof (serving_inv_map _ _ _ _ _ Hm Hi) as Hi1. destruct r as [head|].
  2: { subst q. apply loop_ok_stop; try done. by destruct Hi1. }
  destruct Hr as (Hpc & Eq & Hu). destruct (pending_fields _ _ _ _ Hpc) as (_ & _ & Httl & Hix).
  destruct (handle_inv (ws O) s head m1 fl out Hp Hi1) as (res & rl & g & m2 & -> & Hm2 & Hwf & Hpos & Hres).
  { rewrite Httl. destruct Hq. unfold in_range. lia. }
  cbn [lift]. rewrite bind_Done. pose proof (same_map_trans _ _ _ Hm Hm2) as Hm12. destruct Hi1 as [Hqq Hl Hn Hid He Ho].
  assert (Hback : forall th, g = file_engine (s_disk s) -> loop_ok s m fl out (Done (mkServing (undo_pop q) rl (with_engine (s_disk s) g) (s_irq s) th, m2))).
  { intros th ->. rewrite Hu. apply loop_ok_stop; try done. split; try done; cbn; [by apply (queue_ok_mem _ m1)|by apply (engine_inv_map _ m1)]. }
  assert (Hq2 : queue_ok q m2) by (by apply (queue_ok_mem _ m1)).
  assert (Hsz : q_size q = q_size (s_queue s)) by (by rewrite Eq).
  destruct res as [[| |fin]|]; [| |destruct Hres as [He2 Hb]|]; [| | |by apply Hback].
  - eapply (loop_ok_step _ _ _ _ _ m2 [dc_index head] [] (dc_index head :: out)); [| | | | | |apply IH; [by intros i; apply (Hws (S i))|]]; try done.
    + eapply qt_mem; [exact Hm|]. eapply qt_take; [done|]. rewrite <-Eq. eapply qt_mem; [exact Hm2|constructor].
    + split; try done; cbn. constructor; [lia|]. by rewrite Hsz.
  - by apply Hback.
  - destruct (give_spec q m2 (dc_index head) (num_bytes_to_mem fin) (s_irq s)) as (q3 & irq & m3 & Eg & Hq3 & Hag & Ha & Hus & Hz & Hent & _); [done|lia|done|].
    rewrite Eg. cbn [lift]. rewrite bind_Done. pose proof (same_map_agrees _ _ _ Hag) as Hm3.
    eapply (loop_ok_step _ _ _ _ _ m3 [dc_index head] [(dc_index head, num_bytes_to_mem fin)] out); [| | | | | |apply IH; [by intros i; apply (Hws (S i))|]]; try done.
    + eapply qt_mem; [exact Hm|]. eapply qt_take; [done|]. rewrite <-Eq. eapply qt_mem; [exact Hm2|]. eapply qt_give; [exact Eg|done..|constructor].
    + by apply (same_map_trans _ m2).
    + cbn. congruence.
    + split; try done; cbn; [by apply (engine_inv_map _ m2)|]. by rewrite Hz, Hsz.
Qed.

(** ** Completions *)

Lemma async_pop_inv n m e fl out l d : ring_inv n m (async_ring e) fl out l d ->
  exists e', async_pop e = Ret (Ok (option_map (map_user_data wrapped_data) (head d)), e') /\ sq_position (Async e') = sq_position (Async e) /\
    exists out', ring_inv n m (async_ring e') fl out' l (tail d) /\
      out ≡ₚ map (fun c => pending_desc_idx (wrapped_data (cqe_user_data c))) (option_list (head d)) ++ out'.
Proof.
  intros [(hp & ho & Hs) Hf Hq Hc Ho]. destruct (IoUring.ring_pop_inv _ fl hp ho l d Hs) as (r' & E & Hs').
  unfold async_pop, do_pop. rewrite E, bind_Ret. cbn [fst snd]. rewrite bind_Ret. eexists. split; [done|]. cbn [fst snd].
  assert (Hr : squeue r' = squeue (async_ring e) /\ registered_fds_count r' = registered_fds_count (async_ring e)).
  { unfold IoUring.pop in E. apply bind_Ret_inv in E as ([[[c|]|err] cq] & _ & E); by injection E as _ <-. }
  split; [cbn; by rewrite (proj1 Hr)|]. exists (in_ring l fl (tail d)). split.
  - split; cbn; [by eauto|by rewrite (proj2 Hr)|done|by destruct d; [|apply Forall_cons in Hc as [_ ?]]|done].
  - rewrite Ho. destruct d as [|c d]; [done|]. cbn. unfold in_ring. cbn. rewrite !map_app. cbn. solve_Permutation.
Qed.

Definition complete_ok n (e : AsyncFileEngine F PendingRequest) q m fl out (r : outcome (AsyncFileEngine F PendingRequest * Queue * Z * M)) : Prop :=
  match r with
  | Crash => False
  | Hang => True
  | Done (e', q', _, m') => exists gv out', queue_trace q m [] gv q' m' /\ out ≡ₚ map fst gv ++ out' /\ engine_inv n m' (Async e') fl out' /\
      queue_ok q' m' /\ same_map m m' /\ sq_position (Async e') = sq_position (Async e) /\ q_size q' = q_size q
  end.

Lemma complete_loop_inv n fuel : forall e q irq m fl out l d, ring_inv n m (async_ring e) fl out l d -> queue_ok q m ->
  Forall (fun i => 0 <= i < q_size q) out ->
  complete_ok n e q m fl out (complete_loop fuel e q irq m) /\ ((length d < fuel)%nat -> complete_loop fuel e q irq m <> Hang).
Proof.
  induction fuel as [|fuel IH]; intros e q irq m fl out l d Hi Hq Ho; [split; [done|lia]|]. cbn [complete_loop].
  destruct (async_pop_inv n m e fl out l d Hi) as (e' & -> & Hpos & out' & Hi' & Hp). cbn [lift]. rewrite bind_Done.
  destruct d as [|c d]; cbn [head tail option_map option_list map app] in *.
  { split; [|done]. exists [], out'. split; [constructor|]. split; [done|]. split; [by exists l, []|]. by repeat (split; [done|]). }
  set (p := wrapped_data (cqe_user_data c)) in *. destruct (Forall_cons_1 _ _ _ (ri_cqes _ _ _ _ _ _ _ Hi)) as [Hc _].
  rewrite Hp in Ho. apply Forall_cons in Ho as [Hidx Ho]. change (cqe_user_data (map_user_data wrapped_data c)) with p.
  match goal with |- context [finish p m ?r] => destruct (finish_returns p m r) as (fin & m1 & -> & Hb & Hd & Hag) end.
  { unfold cqe_result. cbn. intros k. destruct (Z.ltb_spec (cqe_res c) 0); intros [= <-]. lia. }
  cbn [lift]. rewrite bind_Done. cbn [fst snd]. rewrite Hd. pose proof (same_map_agrees _ _ _ Hag) as Hm.
  destruct (give_spec q m1 (pending_desc_idx p) (num_bytes_to_mem fin) irq) as (q1 & irq1 & m2 & Eg & Hq1 & Hag2 & Ha & Hu & Hz & Hent & _);
    [by apply (queue_ok_mem _ m)|done|done|]. rewrite Eg. cbn [lift]. rewrite bind_Done.
  pose proof (same_map_trans _ _ _ Hm (same_map_agrees _ _ _ Hag2)) as Hm2.
  destruct (IH e' q1 irq1 m2 fl out' l d) as [Hok Hf]; [|done|by rewrite Hz|].
  { destruct (engine_inv_map n m m2 (Async e') fl out' Hm2) as (l' & d' & Hri); [by exists l, d|]. destruct Hi' as [Hs Hf Hsq Hcq Hout].
    split; try done. eapply Forall_impl; [exact Hsq|]. intros sq. by apply sqe_ok_map. }
  split; [|cbn; intros; apply Hf; lia]. destruct (complete_loop fuel e' q1 irq1 m2) as [[[[e2 q2] irq2] m3]| |]; [|done|done].
  destruct Hok as (gv & out2 & Ht & Hp2 & He2 & Hq2 & Hm3 & Hpos2 & Hz2). exists ((pending_desc_idx p, num_bytes_to_mem fin) :: gv), out2.
  split; [eapply qt_mem; [exact Hm|]; eapply qt_give; [exact Eg|done..]|]. split; [cbn; by rewrite Hp, Hp2|]. split; [done|]. split; [done|].
  split; [by apply (same_map_trans _ m2)|]. split; congruence.
Qed.

(** ** Events *)

(** The entries the kernel has taken since it was at [before]. *)
Definition took (before : Z * Z) g : list (Sqe ring_data) :=
  match g with
  | Async e =>
      let q := squeue (async_ring e) in
      kernel_takes (mkSq before.2 (sq_count q) (unmasked_tail q) (to_submit q) before.1 (sq_tail q) (sqes q)) (Z.to_nat (wsub 32 (sq_head q) before.1))
  | Sync _ => []
  end.

Lemma took_none g before : sq_position g = before -> took before g = [].
Proof.
  intros <-. destruct g as [e|f]; [|done]. cbn [took sq_position fst snd]. unfold wsub. rewrite Z.sub_diag. done.
Qed.

Lemma kick_inv n m e fl out enter : engine_inv n m (Async e) fl out -> kernel_answers enter ->
  engine_inv n m (Async (kick_submission_queue e enter).2) (fl ++ took (sq_position (Async e)) (Async (kick_submission_queue e enter).2)) out.
Proof.
  intros (l & d & [(hp & ho & Hs) Hf Hq Hc Ho]) Hk. set (r := async_ring e) in *. unfold kick_submission_queue, submit. fold r.
  destruct (do_submit r 0 enter) as [res r'] eqn:E. destruct (submit_inv r fl hp ho l d 0 enter res r' Hs Hk E) as (k & Hkl & Hs' & Hn).
  assert (Et : took (sq_position (Async e)) (Async (with_ring e r')) = take k l /\ registered_fds_count r' = 1 /\
    match res with Ok n => kernel_takes (squeue r) (Z.to_nat n) | Err _ => [] end = take k l).
  { pose proof (si_sq _ _ _ _ _ _ Hs) as Hsq. pose proof (sh_head _ _ Hsq) as Hh. pose proof (ring_size_pos _ _ (sh_size _ _ Hsq)) as [Hc' _].
    pose proof (h_fits _ _ _ _ (sh_ring _ _ Hsq)) as Hfit. pose proof (kernel_takes_holds _ l k Hsq Hkl) as Ek.
    unfold do_submit, sq_submit in E. destruct (_ && _).
    { injection E as <- <-. assert (k = 0)%nat as -> by lia. cbn [took sq_position async_ring with_ring squeue]. fold r. unfold wsub. rewrite Z.sub_diag. done. }
    destruct (enter (to_submit (squeue r))) as [n0|errno]; injection E as <- <-.
    - subst n0. cbn [took sq_position async_ring with_ring squeue sq_head sqes fst snd]. fold r. rewrite wsub_wadd by (done || lia).
      rewrite Nat2Z.id. by rewrite <-Ek.
    - subst k. cbn [took sq_position async_ring with_ring squeue]. fold r. unfold wsub. rewrite Z.sub_diag. done. }
  destruct Et as (Et & Hf' & Ek). rewrite Ek in Hs'.
  assert (Hi : ring_inv n m r' (fl ++ take k l) out (drop k l) d).
  { split; [by eauto|done| |done|].
    - rewrite <-(take_drop k l) in Hq at 1. apply Forall_app in Hq as [[Hq1 Hq2]%Forall_app Hq3]. by repeat apply Forall_app_2.
    - rewrite Ho. unfold in_ring. rewrite <-(take_drop k l) at 1. rewrite !map_app. solve_Permutation. }
  destruct res as [n0|errno]; cbn [snd]; rewrite Et; by exists (drop k l), d.
Qed.

Implicit Types (b : Block F).
Definition block_inv b m fl out : Prop :=
  b_activated b = true /\ exists q, b_queues b = [q] /\ serving_inv (serving_of b q) m fl out.

(** What does not change while the device runs. *)
Definition block_static b := (disk_static (disk b), b_avail_features b, b_acked_features b, config_space b, b_activate_evt b, queue_evt b, b_activated b, b_id b, partuuid b, root_device b).

Definition event_ok b m fl out (r : outcome (Block F * M)) : Prop :=
  match r with
  | Crash => False
  | Hang => True
  | Done (b', m') => exists q q' tk gv out', b_queues b = [q] /\ b_queues b' = [q'] /\ queue_trace q m tk gv q' m' /\
      tk ++ out ≡ₚ map fst gv ++ out' /\ same_map m m' /\ block_static b' = block_static b /\
      block_inv b' m' (fl ++ took (sq_position (file_engine (disk b))) (file_engine (disk b'))) out'
  end.

Lemma event_ok_idle b m fl out : block_inv b m fl out -> event_ok b m fl out (Done (b, m)).
Proof.
  intros Hb. pose proof Hb as (_ & q & Eq & _). exists q, q, [], [], out. rewrite took_none, app_nil_r by done. split; [done|]. split; [done|].
  split; [constructor|]. done.
Qed.

Lemma process_queue_ok fuel ws enter b m fl out : overflow_checks = false -> drivers_ok ws -> kernel_answers enter -> block_inv b m fl out ->
  event_ok b m fl out (process_queue fuel ws enter b 0 m).
Proof.
  intros Hp Hws Hk (Ha & q & Eq & Hi). unfold process_queue. rewrite Ha, Eq. cbn [lift unwrap lookup list_lookup]. rewrite !bind_Done.
  pose proof (loop_inv fuel Hp ws (serving_of b q) m fl out Hws Hi) as Hl.
  destruct (process_loop fuel ws (serving_of b q) m) as [[s m']| |]; [rewrite bind_Done|done|done].
  destruct Hl as (tk & gv & out' & Ht & Hperm & Hs & Hm & Hd & Hpos & Hz). exists q, (s_queue s), tk, gv, out'.
  split; [done|]. destruct Hs as [Hq Hl Hn Hid He Hout]. destruct (file_engine (s_disk s)) as [e|f] eqn:Ee.
  - split; [cbn; by rewrite Eq|]. split; [done|]. split; [done|]. split; [done|]. split; [cbn in *; unfold block_static; cbn; by rewrite <-Hd|].
    split; [done|]. exists (s_queue s). split; [cbn; by rewrite Eq|]. split; try done.
    cbn [serving_of s_disk with_serving disk with_engine nsectors file_engine]. cbn [serving_of s_disk] in Hpos. rewrite <-Hpos. by apply kick_inv.
  - split; [cbn; by rewrite Eq|]. split; [done|]. split; [done|]. split; [done|]. split; [cbn in *; unfold block_static; cbn; by rewrite <-Hd|].
    split; [done|]. exists (s_queue s). split; [cbn; by rewrite Eq|]. cbn [disk with_serving]. rewrite Ee. cbn [took]. rewrite app_nil_r.
    split; try done. cbn. by rewrite Ee.
Qed.

Lemma event_ok_trans b m fl out b1 m1 out1 q q1 tk gv r : b_queues b = [q] -> b_queues b1 = [q1] -> queue_trace q m tk gv q1 m1 ->
  tk ++ out ≡ₚ map fst gv ++ out1 -> same_map m m1 -> block_static b1 = block_static b ->
  sq_position (file_engine (disk b1)) = sq_position (file_engine (disk b)) -> event_ok b1 m1 fl out1 r -> event_ok b m fl out r.
Proof.
  intros Eq Eq1 Ht Hp Hm Hs Hpos. destruct r as [[b' m']| |]; [|done|done]. unfold event_ok. rewrite <-Hpos.
  intros (q0 & q' & tk' & gv' & out' & E1 & E' & Ht' & Hp' & Hm' & Hs' & Hi). rewrite Eq1 in E1. injection E1 as <-.
  exists q, q', (tk ++ tk'), (gv ++ gv'), out'. split; [done|]. split; [done|]. split; [by eapply queue_trace_trans|]. split.
  { rewrite map_app, <-!app_assoc, <-Hp', (Permutation_app_comm tk' out1), (app_assoc _ out1), <-Hp. solve_Permutation. }
  split; [by apply (same_map_trans _ m1)|]. split; [congruence|done].
Qed.

(** Completions of an asynchronous engine: everything the kernel has completed is given back. *)
Lemma completion_ok fuel b m fl out : block_inv b m fl out ->
  match process_async_completion_queue fuel b m with
  | Crash => False
  | Hang => True
  | Done (b1, m1) => exists q q1 gv out1, b_queues b = [q] /\ b_queues b1 = [q1] /\ queue_trace q m [] gv q1 m1 /\ out ≡ₚ map fst gv ++ out1 /\
      same_map m m1 /\ block_static b1 = block_static b /\ sq_position (file_engine (disk b1)) = sq_position (file_engine (disk b)) /\
      block_inv b1 m1 fl out1
  end.
Proof.
  intros (Ha & q & Eq & Hi). unfold process_async_completion_queue. pose proof Hi as [Hq Hl Hn Hid He Hout]. cbn in *.
  destruct (file_engine (disk b)) as [e|f] eqn:Ee.
  2: { exists q, q, [], out. split; [done|]. split; [done|]. split; [constructor|]. split; [done|]. split; [done|]. split; [done|].
       split; [by rewrite Ee|]. split; [done|]. by exists q. }
  destruct He as (l & d & Hri). rewrite Ha, Eq. cbn [lift unwrap lookup list_lookup]. rewrite !bind_Done.
  destruct (complete_loop_inv (nsectors (disk b)) fuel e q (b_irq_status b) m fl out l d Hri Hq Hout) as [Hc _].
  destruct (complete_loop fuel e q (b_irq_status b) m) as [[[[e' q'] irq'] m']| |]; [rewrite bind_Done|done|done].
  destruct Hc as (gv & out' & Ht & Hp & He' & Hq' & Hm & Hpos & Hz). exists q, q', gv, out'.
  split; [done|]. split; [cbn; by rewrite Eq|]. split; [done|]. split; [done|]. split; [done|]. split; [done|]. split; [done|].
  split; [done|]. exists q'. split; [cbn; by rewrite Eq|]. split; try done. cbn. rewrite Hz. rewrite Hp in Hout. by apply Forall_app in Hout as [_ ?].
Qed.

Lemma with_limiter_inv b m fl out rl : block_inv b m fl out -> limiter_wf rl -> block_inv (with_limiter b rl) m fl out.
Proof. intros (Ha & q & Eq & []) Hl. split; [done|]. exists q. split; [done|]. by split. Qed.

Lemma unthrottle_inv b m fl out : block_inv b m fl out -> block_inv (unthrottle b) m fl out.
Proof. intros (Ha & q & Eq & []). split; [done|]. exists q. split; [done|]. by split. Qed.

Lemma completion_event_ok fuel ws enter ok b m fl out : overflow_checks = false -> drivers_ok ws -> kernel_answers enter -> block_inv b m fl out ->
  event_ok b m fl out (process_async_completion_event fuel ws enter ok b m).
Proof.
  intros Hp Hws Hk Hb. unfold process_async_completion_event. destruct (file_engine (disk b)) eqn:Ee; [|by apply event_ok_idle].
  destruct (negb ok); [by apply event_ok_idle|]. pose proof (completion_ok fuel b m fl out Hb) as Hc.
  destruct (process_async_completion_queue fuel b m) as [[b1 m1]| |]; [rewrite bind_Done|done|done].
  destruct Hc as (q & q1 & gv & out1 & Eq & Eq1 & Ht & Hperm & Hm & Hs & Hpos & Hi).
  eapply (event_ok_trans b m fl out b1 m1 out1); [done..|]. destruct (is_io_engine_throttled b1); [|by apply event_ok_idle].
  eapply (event_ok_trans b1 m1 fl out1 (unthrottle b1) m1 out1 q1 q1 [] []); try done; [constructor|].
  apply process_queue_ok; try done. by apply unthrottle_inv.
Qed.

Record input_fine (i : BlockInput) : Prop := {
  if_drivers : drivers_ok (bi_worlds i);
  if_kernel : kernel_answers (bi_enter i)
}.

Lemma process_event_ok source evset i b m fl out : overflow_checks = false -> input_fine i -> block_inv b m fl out ->
  exists r, event_ok b m fl out r /\ exists ops, block_process_event source evset i b m = (x ← r; Done (x, ops)).
Proof.
  intros Hp [Hws Hk] Hb. unfold block_process_event. pose proof (event_ok_idle b m fl out Hb) as Hid.
  assert (Hdone : forall ops : list EventOp, exists r, event_ok b m fl out r /\ exists ops0, Done (b, m, ops) = (x ← r; Done (x, ops0))) by (intros ops; by exists (Done (b, m)); eauto).
  destruct (negb _); [apply Hdone|]. rewrite (proj1 Hb). destruct (queue_evt b =? source).
  { eexists. split; [|by eexists]. unfold process_queue_event. repeat case_match; try done. by apply process_queue_ok. }
  destruct (bi_limiter_fd i =? source).
  { eexists. split; [|by eexists]. unfold process_rate_limiter_event, RateLimiter_event_handler.
    pose proof Hb as (_ & q & Eq & Hi). destruct (bi_expirations i =? 0); cbn [snd].
    - eapply (event_ok_trans b m fl out (with_limiter b (rate_limiter b)) m out q q [] []); [done|done|constructor|done..|].
      apply event_ok_idle, with_limiter_inv; [done|]. apply (sv_limiter _ _ _ _ Hi).
    - eapply (event_ok_trans b m fl out (with_limiter b _) m out q q [] []); [done|done|constructor|done..|].
      apply process_queue_ok; try done. apply with_limiter_inv; [done|]. by destruct (sv_limiter _ _ _ _ Hi). }
  destruct (b_activate_evt b =? source); [apply Hdone|]. destruct (file_engine (disk b)) as [e|f] eqn:Ee; [|apply Hdone].
  destruct (completion_evt e =? source); [|apply Hdone]. eexists. split; [|by eexists]. by apply completion_event_ok.
Qed.

(** ** Runs *)

(** The completions that wait. *)
Definition cq_entries (c : CompletionQueue ring_data) : list (Cqe ring_data) :=
  omap (fun i => mjoin (cqes c !! Z.to_nat (Z.land (unmasked_head c + Z.of_nat i) (cq_ring_mask c)))) (seq 0 (Z.to_nat (cq_used c))).

Lemma cq_entries_holds c d : cq_holds c d -> cq_entries c = d.
Proof.
  intros Hc. unfold cq_entries. rewrite (cq_used_length c d Hc), Nat2Z.id. pose proof Hc as [Hs Hr _ _ _].
  assert (Hk : forall k, (k <= length d)%nat ->
    omap (fun i => mjoin (cqes c !! Z.to_nat (Z.land (unmasked_head c + Z.of_nat i) (cq_ring_mask c)))) (seq 0 k) = take k d).
  { induction k as [|k IH]; intros Hk; [done|]. rewrite seq_S, omap_app, IH by lia. cbn [omap list_omap].
    rewrite Nat.add_0_l, (land_mask _ _ _ Hs). destruct (lookup_lt_is_Some_2 d k) as [a Ea]; [lia|].
    rewrite (h_at _ _ _ _ Hr k a Ea). by rewrite (take_S_r d k a). }
  rewrite Hk by done. by apply firstn_all.
Qed.

(** The chains a device has taken and not given back: those in the submission queue, with the
    kernel, and in the completion queue. *)
Definition under_way b (fl : list (Sqe ring_data)) : list Z :=
  match file_engine (disk b) with
  | Sync _ => []
  | Async e => in_ring (kernel_takes (squeue (async_ring e)) (Z.to_nat (to_submit (squeue (async_ring e))))) fl (cq_entries (cqueue (async_ring e)))
  end.

Lemma under_way_out b m fl out : block_inv b m fl out -> out ≡ₚ under_way b fl.
Proof.
  intros (_ & q & _ & [_ _ _ _ He _]). unfold under_way. cbn in He. destruct (file_engine (disk b)) as [e|f]; [|by destruct He as (_ & -> & _)].
  destruct He as (l & d & [(hp & ho & [Hsq Hcq _ _ _]) _ _ _ Ho]). rewrite (cq_entries_holds _ d Hcq), (sh_submit _ _ Hsq), Nat2Z.id.
  by rewrite (kernel_takes_holds _ l _ Hsq), firstn_all by done.
Qed.

(** A host that tells the truth about the file. *)
Record host_ok (h : DiskHost F FileError) : Prop := {
  ho_size f sz : h_open h = Ok f -> h_size h = Ok sz -> sz = Z.of_nat (length (content f)) /\ sz < 2 ^ 64;
  ho_ring : setup_ok (h_ring h)
}.

(** A device is made, configured by the guest with a queue in its memory, and activated; then
    the guest changes memory, the kernel completes an operation, an event is handled, or the
    limiter is configured, in any order. The list is what the kernel is working on. *)
Inductive block_run : Block F -> M -> list (Sqe ring_data) -> Prop :=
| br_start id uuid cache path ro root rl t h ev b0 acked q b m : host_ok h -> limiter_wf rl ->
    Block_new id uuid cache path ro root rl t h ev = Ok b0 -> queue_ok q m ->
    block_activate true (with_block_queues (with_acked b0 acked) [q]) = (Ok tt, b) -> block_run b m []
| br_guest b m fl m' : block_run b m fl -> same_map m m' -> block_run b m' fl
| br_kernel b m fl op fl' e res m' : block_run b m (fl ++ op :: fl') -> file_engine (disk b) = Async e ->
    cq_used (cqueue (async_ring e)) < cq_count (cqueue (async_ring e)) -> - 2 ^ 31 <= res < 2 ^ 31 -> same_map m m' ->
    let r := async_ring e in
    block_run (with_disk b (with_engine (disk b) (Async (with_ring e
      (mkRing (registered_fds_count r) (squeue r) (cq_post (cqueue r) (mkCqe res (sqe_user_data op))) (num_ops r)))))) m' (fl ++ fl')
| br_event b m fl source evset i b' m' ops : block_run b m fl -> input_fine i -> block_process_event source evset i b m = Done (b', m', ops) ->
    block_run b' m' (fl ++ took (sq_position (file_engine (disk b))) (file_engine (disk b')))
| br_limiter b m fl bytes ops : block_run b m fl -> update_wf bytes -> update_wf ops -> block_run (update_rate_limiter b bytes ops) m fl.

Lemma decimal_bytes fuel : forall n l, bytes_ok l -> bytes_ok (decimal_loop fuel n l).
Proof.
  induction fuel as [|fuel IH]; intros n l Hl; [done|]. rewrite decimal_step. pose proof (Z.mod_pos_bound n 10 ltac:(lia)).
  assert (bytes_ok (48 + n mod 10 :: l)) by (constructor; [unfold byte_ok; lia|done]). case_match; [done|by apply IH].
Qed.

Lemma image_id_ok metadata : id_ok (build_disk_image_id metadata).
Proof.
  unfold build_disk_image_id, build_device_id, id_ok. change VIRTIO_BLK_ID_BYTES with 20. change (Z.to_nat 20) with 20%nat.
  assert (Hz : bytes_ok (replicate 20 0)) by (repeat constructor; lia). destruct metadata as [[[a b] c]|]; [|done]. set (l := _ ++ _ ++ _).
  assert (Hl : bytes_ok l) by (by repeat apply Forall_app_2; apply decimal_bytes; constructor). split.
  - apply Forall_app_2; [by apply Forall_take|by apply Forall_drop].
  - rewrite length_app, length_take, length_drop, length_replicate. lia.
Qed.

Lemma disk_new_ok path cache t h (d : DiskProperties F) m : host_ok h -> DiskProperties_new path cache t h = Ok d ->
  disk_limit (nsectors d) /\ id_ok (image_id d) /\ engine_inv (nsectors d) m (file_engine d) [] [].
Proof.
  intros [Hsz Hring] E. unfold DiskProperties_new in E. destruct (h_open h) as [f|] eqn:Ef; [|done]. destruct (h_size h) as [sz|] eqn:Es; [|done].
  destruct (engine_from_file f t h) as [g|] eqn:Eg; [|done]. injection E as <-. cbn. destruct (Hsz f sz eq_refl eq_refl) as [-> Hlt].
  change SECTOR_SHIFT with 9. rewrite Z.shiftr_div_pow2 by lia. change (2 ^ 9) with 512.
  pose proof (Z.div_mod (Z.of_nat (length (content f))) 512 ltac:(lia)). pose proof (Z.mod_pos_bound (Z.of_nat (length (content f))) 512 ltac:(lia)).
  split; [unfold disk_limit; change SECTOR_SIZE with 512; lia|]. split; [apply image_id_ok|].
  unfold engine_from_file in Eg. destruct (is_supported t (h_kernel h)) as [[]|]; [|done..]. destruct t.
  - destruct (h_evt h); [|done]. destruct (IoUring_new 1 true true (h_ring h)) as [r|] eqn:Er; [|done]. injection Eg as <-.
    exists [], []. pose proof (ring_new_inv 1 true true (h_ring h) r Hring Er) as Hi. split; cbn; [by exists [], []| |done..].
    unfold IoUring_new, register_files in Er. cbn in Er. repeat case_match; simplify_eq. done.
  - injection Eg as <-. cbn. change SECTOR_SIZE with 512. split; [done|]. split; [done|]. lia.
Qed.

Lemma start_inv id uuid cache path ro root rl t h ev b0 acked q b m : host_ok h -> limiter_wf rl ->
  Block_new id uuid cache path ro root rl t h ev = Ok b0 -> queue_ok q m ->
  block_activate true (with_block_queues (with_acked b0 acked) [q]) = (Ok tt, b) -> block_inv b m [] [].
Proof.
  intros Hh Hl En Hq Ea. unfold Block_new in En. destruct (DiskProperties_new path cache t h) as [d|] eqn:Ed; [|done].
  destruct (disk_new_ok path cache t h d m Hh Ed) as (Hn & Hid & He).
  assert (Hb0 : disk b0 = d /\ rate_limiter b0 = rl) by (repeat case_match; simplify_eq; done). destruct Hb0 as [Hd Hrl].
  unfold block_activate in Ea. cbn [negb] in Ea. injection Ea as <-. split; [done|].
  destruct (block_has_feature _ _); eexists; (split; [done|]); split; cbn; rewrite ?Hd, ?Hrl; try done. by destruct Hq; split.
Qed.

Lemma kernel_inv b m fl op fl' e res m' out : block_inv b m (fl ++ op :: fl') out -> file_engine (disk b) = Async e ->
  cq_used (cqueue (async_ring e)) < cq_count (cqueue (async_ring e)) -> - 2 ^ 31 <= res < 2 ^ 31 -> same_map m m' ->
  let r := async_ring e in
  block_inv (with_disk b (with_engine (disk b) (Async (with_ring e
    (mkRing (registered_fds_count r) (squeue r) (cq_post (cqueue r) (mkCqe res (sqe_user_data op))) (num_ops r)))))) m' (fl ++ fl') out.
Proof.
  intros (Ha & q & Eq & [Hq Hl Hn Hid He Ho]) Ee Hroom Hres Hm r. cbn in He. rewrite Ee in He. destruct He as (l & d & [(hp & ho & Hs) Hf Hsq Hc Hout]).
  split; [done|]. exists q. split; [done|]. split; try done; [by apply (queue_ok_mem _ m)|]. cbn. exists l, (d ++ [mkCqe res (sqe_user_data op)]).
  split; cbn; [|done| |by apply Forall_app_2; [|apply Forall_singleton]|].
  - exists hp, ho. by apply complete_inv.
  - rewrite Forall_app, Forall_app, Forall_cons in Hsq. destruct Hsq as (H1' & H2' & _ & H3'). repeat apply Forall_app_2;
      (eapply Forall_impl; [eassumption|]; intros sq; by apply sqe_ok_map).
  - rewrite Hout. unfold in_ring. rewrite !map_app. cbn. solve_Permutation.
Qed.

Lemma block_run_inv b m fl : overflow_checks = false -> block_run b m fl -> exists out, block_inv b m fl out.
Proof.
  intros Hp. induction 1 as [id uuid cache path ro root rl t h ev b0 acked q b m Hh Hl En Hq Ea|b m fl m' _ [out IH] Hm
    |b m fl op fl' e res m' _ [out IH] Ee Hroom Hres Hm|b m fl source evset i b' m' ops _ [out IH] Hin E|b m fl bytes ops _ [out IH] Hb Ho].
  - exists []. by eapply start_inv.
  - exists out. destruct IH as (Ha & q & Eq & Hi). split; [done|]. exists q. split; [done|]. by apply (serving_inv_map _ m).
  - exists out. by eapply kernel_inv.
  - destruct (process_event_ok source evset i b m fl out Hp Hin IH) as (r & Hr & ops' & E'). rewrite E in E'.
    destruct r as [[b1 m1]| |]; [rewrite bind_Done in E'|done|done]. injection E' as -> -> _.
    destruct Hr as (? & ? & ? & ? & out' & _ & _ & _ & _ & _ & _ & Hi). by exists out'.
  - exists out. apply with_limiter_inv; [done|]. destruct IH as (_ & q & _ & Hi). destruct (sv_limiter _ _ _ _ Hi).
    split; cbn; [by destruct bytes|by destruct ops|done].
Qed.

End Runs.
