(* ===== verification/BlockService.v ===== *)
(** * The block device as a disk

    With the synchronous engine the block device is a disk: the loop over its queue refines
    an abstract service ([disk_trace]) that takes the chains one after the other, executes
    each request on the content of the disk ([BlockRequest.executed]) and gives the chain
    back.  For a driver that keeps its buffers apart from the rings the loop ends and answers
    every available request ([disk_answers]). *)

From Stdlib Require Import ZArith Lia.
From stdpp Require Import functions prelude.
From S2P Require Import Prelude Text GuestMemory IoUring VirtioQueue QueueRuns Mmio RateLimiter BlockRequest BlockDevice BlockRuns.

Section Service.
Context {F M : Type} `{BackingFile F M} `{!GuestRegions M} `{Profile}.
Implicit Types (m : M) (q : Queue) (f : F) (s : @Serving F) (c : list Z).

(** A chain, the request it holds unless it is refused, and the length it is given back with. *)
Record disk_event := mkEvent { ev_head : DescriptorChain; ev_request : option Request; ev_len : Z }.

(** The service of a disk of [n] sectors with identification [id] and content [c]. Between
    requests the driver may change memory. *)
Inductive disk_trace (n : Z) (id : list Z) : Queue -> list Z -> M -> list disk_event -> Queue -> list Z -> M -> Prop :=
| dt_rest q c m : disk_trace n id q c m [] q c m
| dt_driver q c m m1 evs q' c' m' : same_map m m1 -> disk_trace n id q c m1 evs q' c' m' -> disk_trace n id q c m evs q' c' m'
| dt_refused q c m head e irq q1 irq1 m1 evs q' c' m' : pending_chain q m (next_avail q) = Some head -> parse head m n = Ret (Err e) ->
    add_used_descriptor (with_next_avail q (wadd 16 (next_avail q) 1)) (dc_index head) 0 m irq = Ret (q1, irq1, m1) ->
    disk_trace n id q1 c m1 evs q' c' m' -> disk_trace n id q c m (mkEvent head None 0 :: evs) q' c' m'
| dt_executed q c m head req c1 m1 fin irq q1 irq1 m2 evs q' c' m' : pending_chain q m (next_avail q) = Some head ->
    parse head m n = Ret (Ok req) -> executed req id c c1 (dc_index head) m m1 fin ->
    add_used_descriptor (with_next_avail q (wadd 16 (next_avail q) 1)) (dc_index head) (num_bytes_to_mem fin) m1 irq = Ret (q1, irq1, m2) ->
    disk_trace n id q1 c1 m2 evs q' c' m' -> disk_trace n id q c m (mkEvent head (Some req) (num_bytes_to_mem fin) :: evs) q' c' m'.

(** A chain is put back, refused, or its request is executed. *)
Lemma sync_handle w s head m f : overflow_checks = false -> serving_inv s m [] [] -> file_engine (s_disk s) = Sync f -> in_range 16 (dc_ttl head) ->
  let n := nsectors (s_disk s) in
  exists res rl f' m', handle_chain w s head m = Ret (res, rl, with_engine (s_disk s) (Sync f'), m') /\ limiter_wf rl /\ same_map m m' /\
    (res = None /\ f' = f /\ m' = m \/
     exists fin, res = Some (ResExecuted fin) /\ in_range 32 (num_bytes_to_mem fin) /\
       (f' = f /\ m' = m /\ num_bytes_to_mem fin = 0 /\ (exists e, parse head m n = Ret (Err e)) \/
        exists req, parse head m n = Ret (Ok req) /\ executed req (image_id (s_disk s)) (content f) (content f') (dc_index head) m m' fin)).
Proof.
  intros Hp Hi Ef Ht n. pose proof Hi as [_ Hl Hn [Hid Hidl] He _]. rewrite Ef in He. destruct He as (_ & _ & Hc). unfold handle_chain. fold n.
  assert (Ed : s_disk s = with_engine (s_disk s) (Sync f)) by (rewrite <-Ef; by destruct (s_disk s)).
  destruct (parse_returns head m n Ht) as (r & Epar & Hr). rewrite Epar, bind_Ret. destruct r as [req|e].
  - specialize (Hr req eq_refl). destruct (rate_limit_returns req (s_limiter s) (bw_clk_ops w) (bw_clk_bytes w) Hp Hl (ro_len _ _ Hr)) as (lim & rl & -> & Hwf).
    rewrite bind_Ret. cbn [fst snd]. destruct lim.
    { eexists _, _, f, m. split; [by rewrite Ed at 1|]. split; [done|]. split; [done|]. by left. }
    rewrite Ef. destruct (sync_process_executed req n (image_id (s_disk s)) f (dc_index head) m Hr Hn Hc Hid Hidl) as (fin & f' & m' & E & Hx).
    rewrite E, bind_Ret. eexists _, _, f', m'. split; [done|]. split; [done|]. split; [apply (same_map_agrees _ _ _ (ex_mem _ _ _ _ _ _ _ _ Hx))|].
    right. exists fin. split; [done|]. split; [apply (ex_bytes _ _ _ _ _ _ _ _ Hx)|]. right. by exists req.
  - eexists _, _, f, m. split; [by rewrite Ed at 1|]. split; [done|]. split; [done|]. right. eexists. split; [done|]. split; [unfold in_range; cbn; lia|].
    left. by eauto.
Qed.

Lemma executed_inv s m req id f f' idx m' fin : serving_inv s m [] [] -> file_engine (s_disk s) = Sync f ->
  executed req id (content f) (content f') idx m m' fin -> engine_inv (nsectors (s_disk s)) m' (Sync f') [] [].
Proof. intros [_ _ _ _ He _] Ef Hx. rewrite Ef in He. destruct He as (_ & _ & Hc). split; [done|]. split; [done|]. by rewrite (ex_disk_len _ _ _ _ _ _ _ _ Hx). Qed.

Definition service_ok s m f (r : outcome (@Serving F * M)) : Prop :=
  match r with
  | Crash => False
  | Hang => True
  | Done (s', m') => exists f' evs, file_engine (s_disk s') = Sync f' /\
      disk_trace (nsectors (s_disk s)) (image_id (s_disk s)) (s_queue s) (content f) m evs (s_queue s') (content f') m'
  end.

Lemma sync_loop fuel : overflow_checks = false -> forall ws s m f, drivers_ok ws -> serving_inv s m [] [] -> file_engine (s_disk s) = Sync f ->
  service_ok s m f (process_loop fuel ws s m).
Proof.
  intros Hp. induction fuel as [|fuel IH]; intros ws s m f Hws Hi Ef; [done|]. cbn [process_loop].
  pose proof (sv_queue _ _ _ _ Hi) as Hq. destruct (take_spec (bw_driver (ws O)) (s_queue s) m Hq (Hws O)) as (r & q & m1 & -> & Hm & Hq1 & Hr).
  cbn [lift]. rewrite bind_Done. pose proof (serving_inv_map _ _ _ _ _ Hm Hi) as Hi1. destruct r as [head|].
  2: { subst q. exists f, []. split; [done|]. eapply dt_driver; [exact Hm|]. constructor. }
  destruct Hr as (Hpc & Eq & Hu). destruct (pending_fields _ _ _ _ Hpc) as (_ & _ & Httl & Hix).
  destruct (sync_handle (ws O) s head m1 f Hp Hi1 Ef) as (res & rl & f' & m2 & -> & Hwf & Hm2 & Hres).
  { rewrite Httl. destruct Hq. unfold in_range. lia. }
  cbn [lift]. rewrite bind_Done. destruct Hres as [(-> & -> & ->)|(fin & -> & Hb & Hres)].
  { exists f, []. split; [done|]. cbn. rewrite Hu. eapply dt_driver; [exact Hm|]. constructor. }
  assert (Hq2 : queue_ok q m2) by (by apply (queue_ok_mem _ m1)).
  assert (Hsz : q_size q = q_size (s_queue s)) by (by rewrite Eq).
  destruct (give_spec q m2 (dc_index head) (num_bytes_to_mem fin) (s_irq s)) as (q3 & irq & m3 & Eg & Hq3 & Hag & _); [done|lia|done|].
  rewrite Eg. cbn [lift]. rewrite bind_Done. pose proof Hi1 as [Hqq Hl Hn Hid He Ho].
  assert (Hs : serving_inv (mkServing q3 rl (with_engine (s_disk s) (Sync f')) irq (s_throttled s)) m3 [] []).
  { split; try done. change (engine_inv (nsectors (s_disk s)) m3 (Sync f') [] []). apply (engine_inv_map _ m2); [by apply (same_map_agrees _ _ _ Hag)|].
    destruct Hres as [(-> & -> & _ & _)|(req & _ & Hx)]; [by rewrite <-Ef|]. by eapply (executed_inv s m1). }
  specialize (IH (fun i => ws (S i)) _ m3 f' (fun i => Hws (S i)) Hs eq_refl).
  destruct (process_loop fuel _ _ m3) as [[s' m']| |]; [|done|done]. destruct IH as (f2 & evs & Ef2 & Ht). cbn in Ht. exists f2.
  destruct Hres as [(-> & -> & Hz & e & Epar)|(req & Epar & Hx)]; eexists; (split; [done|]); (eapply dt_driver; [exact Hm|]).
  - rewrite Hz in Eg. rewrite Eq in Eg. by eapply dt_refused.
  - rewrite Eq in Eg. by eapply dt_executed.
Qed.

(** The disk changes where requests write, and keeps its size. *)
Lemma disk_trace_content n id q c m evs q' c' m' : disk_trace n id q c m evs q' c' m' -> length c' = length c /\
  forall i, (forall ev req, ev ∈ evs -> ev_request ev = Some req -> ~ written_to_disk req i) -> c' !! i = c !! i.
Proof.
  induction 1 as [|q c m m1 evs q' c' m' _ _ IH|q c m head e irq q1 irq1 m1 evs q' c' m' _ _ _ _ [IHl IH]
    |q c m head req c1 m1 fin irq q1 irq1 m2 evs q' c' m' _ _ Hx _ _ [IHl IH]]; try done.
  - split; [done|]. intros i Hi. apply IH. intros ev req Hev. apply Hi. by constructor.
  - split; [by rewrite IHl, (ex_disk_len _ _ _ _ _ _ _ _ Hx)|]. intros i Hi. rewrite IH; [|intros ev r Hev; apply Hi; by constructor].
    apply (ex_disk _ _ _ _ _ _ _ _ Hx). by apply (Hi (mkEvent head (Some req) (num_bytes_to_mem fin)) req); [constructor|].
Qed.

Implicit Types (b : Block F).
Definition disk_event_ok b m f (r : outcome (Block F * M)) : Prop :=
  match r with
  | Crash => False
  | Hang => True
  | Done (b', m') => exists q q' f' evs, b_queues b = [q] /\ b_queues b' = [q'] /\ file_engine (disk b') = Sync f' /\
      disk_trace (nsectors (disk b)) (image_id (disk b)) q (content f) m evs q' (content f') m'
  end.

Lemma disk_idle b b' m f fl out : block_inv b m fl out -> b_queues b' = b_queues b -> disk b' = disk b -> file_engine (disk b) = Sync f ->
  disk_event_ok b m f (Done (b', m)).
Proof. intros (_ & q & Eq & _) Eb Ed Ef. exists q, q, f, []. rewrite Eb, Ed. split; [done|]. split; [done|]. split; [done|]. constructor. Qed.

Lemma disk_queue fuel ws enter b m f : overflow_checks = false -> drivers_ok ws -> block_inv b m [] [] -> file_engine (disk b) = Sync f ->
  disk_event_ok b m f (process_queue fuel ws enter b 0 m).
Proof.
  intros Hp Hws (Ha & q & Eq & Hi) Ef. unfold process_queue. rewrite Ha, Eq. cbn [lift unwrap lookup list_lookup]. rewrite !bind_Done.
  pose proof (sync_loop fuel Hp ws (serving_of b q) m f Hws Hi Ef) as Hl.
  destruct (process_loop fuel ws (serving_of b q) m) as [[s m']| |]; [rewrite bind_Done|done|done].
  destruct Hl as (f' & evs & Ef' & Ht). exists q, (s_queue s), f', evs. rewrite Ef'. split; [done|]. split; [cbn; by rewrite Eq|]. done.
Qed.


(** ** A driver that keeps its buffers apart from the rings *)

(** The bytes the descriptor table lets the device write. *)
Definition writable q m (x : Z) : Prop := exists i d, 0 <= i /\ checked_new m (desc_table q) (q_size q) i = Some d /\ is_write_only d = true /\ span (dc_addr d) (dc_len d) x.

Record rings_apart q m : Prop := {
  ra_writable x : writable q m x -> ~ rings q x;
  ra_used x : used_area q x -> ~ rings q x
}.

(** Descriptors of a chain come from the table. *)
Definition from_table q m (d : DescriptorChain) : Prop :=
  (exists i t d0, 0 <= i /\ checked_new m (desc_table q) (q_size q) i = Some d0 /\ d = with_ttl d0 t) /\
  dc_desc_table d = desc_table q /\ dc_queue_size d = q_size q /\ 0 <= dc_next d.

Lemma checked_new_next m dt qs i d : checked_new m dt qs i = Some d -> 0 <= dc_next d.
Proof.
  unfold checked_new. case_match; [done|]. case_match; [|done]. case_match; [|done]. destruct (read_descriptor m _) as [e|] eqn:Er; [|done].
  destruct (chain_is_valid _); [|done]. intros [= <-]. cbn. unfold read_descriptor in Er. destruct (read_bytes m _ 16) as [l|] eqn:El; [|done].
  injection Er as <-. cbn. apply le_decode_nonneg. apply read_bytes_ok in El as [_ Hok]. by repeat (apply Forall_take || apply Forall_drop).
Qed.

Lemma from_table_head q m i head : pending_chain q m i = Some head -> from_table q m head.
Proof.
  intros Hp. destruct (pending_fields q m i head Hp) as (E1 & E2 & _ & Hix). split; [|split; [done|split; [done|by apply (pending_next q m i)]]].
  unfold pending_chain in Hp. destruct (ring_entry q m i) as [h|]; [|done]. cbn [mbind option_bind] in Hp.
  pose proof (checked_new_fields _ _ _ _ _ Hp) as (_ & _ & _ & E3 & _). exists h, (dc_ttl head), head. split; [lia|]. split; [done|]. by destruct head.
Qed.

Lemma from_table_next q m d d' : from_table q m d -> next_descriptor m d = Ret (Some d') -> from_table q m d'.
Proof.
  intros (_ & E1 & E2 & Hn). unfold next_descriptor. destruct (has_next d); [|done]. rewrite E1, E2.
  destruct (checked_new m (desc_table q) (q_size q) (dc_next d)) as [d0|] eqn:Ec; [|done]. intros (t & _ & [= <-])%bind_Ret_inv.
  pose proof (checked_new_fields _ _ _ _ _ Ec) as (F1 & F2 & _). split; [by exists (dc_next d), t, d0|]. split; [done|]. split; [done|].
  by apply (checked_new_next _ _ _ _ _ Ec).
Qed.

Lemma from_table_writable q m d x : from_table q m d -> is_write_only d = true -> span (dc_addr d) (dc_len d) x -> writable q m x.
Proof. intros [(i & t & d0 & Hi & Ec & ->) _] Hw Hx. by exists i, d0. Qed.

(** A request writes only where the table allows it. *)
Lemma parse_writes q m n head req x : from_table q m head -> parse head m n = Ret (Ok req) -> written_to_memory req x -> writable q m x.
Proof.
  intros Hh E Hx. unfold parse in E. destruct (is_write_only head); [done|]. destruct (header_read_from m (dc_addr head)) as [h|]; [|done].
  apply bind_Ret_inv in E as (o & En & E). destruct o as [d|]; [|done]. pose proof (from_table_next q m head d Hh En) as Hd.
  assert (Hst : forall req0 sd, from_table q m sd -> (with_status_desc req0 sd n : result Request (RequestError GuestMemoryError)) = Ok req ->
    r_type req = r_type req0 /\ r_data_len req = r_data_len req0 /\ r_data_addr req = r_data_addr req0 /\ (span (r_status_addr req) 1 x -> writable q m x)).
  { intros req0 sd Hsd. unfold with_status_desc. destruct (check_request req0 n); [|done]. destruct (is_write_only sd) eqn:Ew; [|done]. cbn [negb].
    destruct (Z.ltb_spec (dc_len sd) 1); [done|]. intros [= <-]. cbn. split; [done|]. split; [done|]. split; [done|]. intros Hs.
    apply (from_table_writable q m sd); [done..|]. unfold span in *. lia. }
  destruct (negb (has_next d)).
  - destruct (bool_decide _) eqn:Ef; [|done]. cbn [negb] in E. injection E as E. destruct (Hst _ d Hd E) as (Et & _ & _ & Hs). destruct Hx as [Hx|[Ht Hx]]; [by apply Hs|].
    apply bool_decide_eq_true in Ef. cbn in Et. destruct Ht; congruence.
  - apply bind_Ret_inv in E as (o & En2 & E). destruct o as [sd|]; [|done]. pose proof (from_table_next q m d sd Hd En2) as Hsd.
    destruct (_ && _); [done|]. destruct (negb (is_write_only d) && bool_decide (_ = In)) eqn:E1; [done|].
    destruct (negb (is_write_only d) && bool_decide (_ = GetDeviceID)) eqn:E2; [done|]. injection E as E.
    destruct (Hst _ sd Hsd E) as (Et & El & Ea & Hs). destruct Hx as [Hx|[Ht Hx]]; [by apply Hs|]. cbn in Et, El, Ea. rewrite El, Ea in Hx.
    apply (from_table_writable q m d); [done| |done]. destruct (is_write_only d); [done|]. cbn [negb andb] in E1, E2.
    apply bool_decide_eq_false in E1. apply bool_decide_eq_false in E2. destruct Ht; congruence.
Qed.

(** ** Answering everything *)

(** Queues that differ in the counters only. *)
Lemma writable_same q q' m m' P x : queue_ok q m -> agrees P m m' -> (forall x, P x -> ~ rings q x) -> desc_table q' = desc_table q -> q_size q' = q_size q ->
  writable q' m' x -> writable q m x.
Proof.
  intros Hq Ha Hd E1 E2 (i & d & Hi & Ec & Hw). rewrite E1, E2, (checked_new_agrees P q m m' i Hq Ha Hd Hi) in Ec. by exists i, d.
Qed.

Lemma handle_unlimited w s head m res rl d m' : unlimited (s_limiter s) -> handle_chain w s head m = Ret (res, rl, d, m') -> res <> None /\ rl = s_limiter s.
Proof.
  intros Hu. unfold handle_chain. intros (r & _ & E)%bind_Ret_inv. destruct r as [req|e]; [|by injection E as <- <- _ _].
  assert (El : rate_limit req (s_limiter s) (bw_clk_ops w) (bw_clk_bytes w) = Ret (false, s_limiter s)).
  { unfold rate_limit. rewrite unlimited_consume, bind_Ret by done. cbn [fst snd negb]. destruct (_ || _); [|done]. by rewrite unlimited_consume, bind_Ret. }
  rewrite El, bind_Ret in E. cbn [fst snd] in E. apply bind_Ret_inv in E as ([[res' g] m1] & _ & E). by injection E as <- <- _ _.
Qed.

(** What a round leaves of the queue and of the rings. *)
Lemma next_round q q' m m' n P : queue_ok q m -> agrees P m m' -> (forall x, P x -> ~ rings q x) -> rings_apart q m -> waiting q m (S n) ->
  q' = with_num_added (with_next_used (with_next_avail q (wadd 16 (next_avail q) 1)) (wadd 16 (next_used q) 1)) (num_added q') ->
  rings_apart q' m' /\ waiting q' m' n /\ forall i, chain q' m' i = chain q m (S i).
Proof.
  intros Hq Ha Hd [Hw Hu] Hwt ->. split; [|split].
  - split; [|exact Hu]. intros x Hx. apply (Hw x). by eapply (writable_same q).
  - destruct (waiting_S q m m' n P Hq Ha Hd Hwt) as (idx & E1 & E2). by exists idx.
  - intros i. by rewrite <-(chain_S q m m' i P).
Qed.

Lemma drain_loop n : overflow_checks = false -> forall fuel ws s m f, (n < fuel)%nat -> (forall i m, bw_driver (ws i) m = m) -> serving_inv s m [] [] ->
  file_engine (s_disk s) = Sync f -> unlimited (s_limiter s) -> waiting (s_queue s) m n -> rings_apart (s_queue s) m ->
  (forall i, (i < n)%nat -> is_Some (chain (s_queue s) m i)) ->
  exists s' m' f' evs, process_loop fuel ws s m = Done (s', m') /\ file_engine (s_disk s') = Sync f' /\
    disk_trace (nsectors (s_disk s)) (image_id (s_disk s)) (s_queue s) (content f) m evs (s_queue s') (content f') m' /\
    map (fun ev => Some (ev_head ev)) evs = map (chain (s_queue s) m) (seq 0 n).
Proof.
  intros Hp. induction n as [|n IH]; intros [|fuel] ws s m f Hfu Hws Hi Ef Hul Hwt Hap Hc; [lia| |lia|]; cbn [process_loop];
    pose proof (sv_queue _ _ _ _ Hi) as Hq; pose proof (take_waiting (bw_driver (ws O)) (s_queue s) m _ (Hws O) Hq Hwt (ra_used _ _ Hap)) as Htake.
  { destruct Htake as (m' & -> & Ha). cbn [lift]. rewrite bind_Done. eexists _, m', f, []. split; [done|]. split; [done|]. split; [|done].
    eapply dt_driver; [by apply (same_map_agrees _ _ _ Ha)|]. constructor. }
  destruct (Hc 0%nat ltac:(lia)) as [head Eh]. rewrite (Htake head Eh). cbn [lift]. rewrite bind_Done.
  unfold chain in Eh. rewrite Z.add_0_r in Eh. destruct (pending_fields _ _ _ _ Eh) as (_ & _ & Httl & Hix).
  destruct (sync_handle (ws O) s head m f Hp Hi Ef) as (res & rl & f' & m2 & E & Hwf & Hm2 & Hres).
  { rewrite Httl. destruct Hq. unfold in_range. lia. }
  destruct (handle_unlimited _ _ _ _ _ _ _ _ Hul E) as [Hnone ->]. rewrite E. cbn [lift]. rewrite bind_Done.
  destruct Hres as [(-> & _)|(fin & -> & Hb & Hres)]; [done|]. set (q := with_next_avail (s_queue s) (wadd 16 (next_avail (s_queue s)) 1)) in *.
  assert (Hq1 : queue_ok q m) by (by apply with_next_avail_ok; [|apply wadd_range]).
  destruct (give_spec q m2 (dc_index head) (num_bytes_to_mem fin) (s_irq s)) as (q3 & irq & m3 & Eg & Hq3 & Hag & _ & _ & _ & _ & E3); [by apply (queue_ok_mem _ m)|done|done|].
  rewrite Eg. cbn [lift]. rewrite bind_Done.
  assert (Hall : agrees (fun x => writable (s_queue s) m x \/ used_area (s_queue s) x) m m3).
  { apply (agrees_trans _ m m2); [|eapply agrees_weaken; [|exact Hag]; intros x; by right].
    destruct Hres as [(_ & -> & _)|(req & Epar & Hx)]; [apply agrees_refl|]. eapply agrees_weaken; [|exact (ex_mem _ _ _ _ _ _ _ _ Hx)].
    intros x Hwx. left. eapply (parse_writes _ m _ head req); [by apply (from_table_head _ _ _ _ Eh)|done|done]. }
  destruct (next_round (s_queue s) q3 m m3 n _ Hq Hall) as (Hap' & Hwt' & Hch); [intros x [Hx|Hx]; [by apply (ra_writable _ _ Hap)|by apply (ra_used _ _ Hap)]|done|done|done|].
  set (s1 := mkServing q3 (s_limiter s) (with_engine (s_disk s) (Sync f')) irq (s_throttled s)).
  destruct (IH fuel (fun i => ws (S i)) s1 m3 f') as (s' & m' & f2 & evs & El & Ef2 & Ht & Hev); try done; [lia| |intros i Hlt; unfold s1; cbn [s_queue]; rewrite Hch; apply Hc; lia|].
  { destruct Hi as [_ Hl Hn Hid He Ho]. split; try done. change (engine_inv (nsectors (s_disk s)) m3 (Sync f') [] []).
    apply (engine_inv_map _ m2); [by apply (same_map_agrees _ _ _ Hag)|]. rewrite Ef in He. destruct He as (_ & _ & Hcl).
    destruct Hres as [(-> & -> & _ & _)|(req & _ & Hx)]; [done|]. split; [done|]. split; [done|]. by rewrite (ex_disk_len _ _ _ _ _ _ _ _ Hx). }
  assert (Hevs : map (chain (s_queue s1) m3) (seq 0 n) = map (chain (s_queue s) m) (seq 1 n)).
  { rewrite <-(fmap_S_seq 0 n). rewrite <-list_fmap_compose. apply map_ext. intros i. by apply Hch. }
  exists s', m', f2. destruct Hres as [(-> & -> & Hz & e & Epar)|(req & Epar & Hx)]; eexists; (split; [exact El|]); (split; [done|]).
  - split; [rewrite Hz in Eg; by eapply dt_refused|]. cbn [map seq ev_head]. rewrite Hev, Hevs. unfold chain at 2. by rewrite Z.add_0_r, Eh.
  - split; [by eapply dt_executed|]. cbn [map seq ev_head]. rewrite Hev, Hevs. unfold chain at 2. by rewrite Z.add_0_r, Eh.
Qed.

End Service.

(** ** Examples *)

Module BlockSamples.
#[local] Existing Instance release_profile.

(** A file: its bytes and the position. *)
Definition file : Type := list Z * Z.
Definition file_content (f : file) : list Z := map (fun x => x mod 256) f.1.
Definition file_read (m : list Z) (a : Z) (f : file) (n : Z) : result Z unit * list Z * file :=
  let k := Z.min n (Z.max 0 (Z.of_nat (length f.1) - f.2)) in
  let l := take (Z.to_nat k) (drop (Z.to_nat f.2) (file_content f)) in
  match write_bytes m a l with
  | (Ok _, m') => (Ok k, m', (f.1, f.2 + k))
  | (Err _, m') => (Err tt, m', f)
  end.
Definition file_write (m : list Z) (a : Z) (f : file) (n : Z) : result Z unit * file :=
  match read_bytes m a (Z.to_nat n) with
  | Some l =>
      if Z.of_nat (length f.1) <? f.2 then (Err tt, f)
      else (Ok n, (take (Z.to_nat f.2) f.1 ++ l ++ drop (Z.to_nat (f.2 + n)) f.1, f.2 + n))
  | None => (Err tt, f)
  end.

Lemma bytes_mod l : bytes_ok l -> map (fun x => x mod 256) l = l.
Proof. induction 1 as [|x l Hx _ IH]; [done|]. cbn. rewrite IH, Z.mod_small; [done|]. exact Hx. Qed.

Lemma content_bytes f : bytes_ok (file_content f).
Proof. apply Forall_map, Forall_forall. intros x _. apply Z.mod_pos_bound. lia. Qed.

Lemma write_content m a f n l : read_bytes m a (Z.to_nat n) = Some l ->
  file_content (take (Z.to_nat f.2) f.1 ++ l ++ drop (Z.to_nat (f.2 + n)) f.1, f.2 + n) =
  take (Z.to_nat f.2) (file_content f) ++ l ++ drop (Z.to_nat (f.2 + n)) (file_content f).
Proof. intros [_ Hok]%read_bytes_ok. unfold file_content. cbn [fst]. by rewrite !map_app, (bytes_mod l) by done; rewrite fmap_take, fmap_drop. Qed.

Lemma write_lookup (c l : list Z) (p n : Z) (i : nat) : 0 <= n -> 0 <= p <= Z.of_nat (length c) -> Z.of_nat (length l) = n ->
  (take (Z.to_nat p) c ++ l ++ drop (Z.to_nat (p + n)) c) !! i =
  if (p <=? Z.of_nat i) && (Z.of_nat i <? p + n) then l !! Z.to_nat (Z.of_nat i - p) else c !! i.
Proof.
  intros Hn Hp Hl. assert (Ht : length (take (Z.to_nat p) c) = Z.to_nat p) by (rewrite length_take; lia). destruct (_ && _) eqn:E.
  - rewrite lookup_app_r, lookup_app_l by lia. f_equal. lia.
  - destruct (Z.ltb_spec (Z.of_nat i) p).
    + rewrite lookup_app_l, lookup_take_lt by lia. done.
    + rewrite !lookup_app_r, lookup_drop by lia. f_equal. lia.
Qed.

#[local] Instance file_backing : BackingFile file (list Z).
Proof.
  refine {| FileError := unit; content := file_content; position f := f.2; file_seek f off := (Ok tt, (f.1, off)); read_from := file_read;
            write_to := file_write; file_flush f := (Ok tt, f); file_sync_all f := (Ok tt, f) |}.
  - apply content_bytes.
  - by intros f off r f' [= <- <-].
  - by intros f r f' [= <- <-].
  - by intros f r f' [= <- <-].
  - intros m a f n r m' f' Hn E. unfold file_read in E. set (l := take _ _) in E.
    assert (Hl : bytes_ok l) by (apply Forall_take, Forall_drop, content_bytes). assert (Hlen : Z.of_nat (length l) <= n) by (unfold l; rewrite length_take; lia).
    pose proof (agrees_write m a l Hl) as [Hag Hm]. destruct (write_bytes m a l) as [w m1]. cbn [snd] in *.
    assert (E' : m' = m1 /\ file_content f' = file_content f) by (by destruct w; injection E as _ <- <-). destruct E' as [-> Ec].
    split; [exact Ec|]. split; [done|]. intros x Hx. apply Hag. unfold span. lia.
  - intros m a f n k m' f' Hn Hp E. unfold file_read in E. set (k0 := Z.min _ _) in E. set (l := take _ _) in E.
    assert (Hl : bytes_ok l) by (apply Forall_take, Forall_drop, content_bytes).
    assert (Hlen : Z.of_nat (length l) = k0) by (unfold l, file_content; rewrite length_take, length_drop, length_map; lia).
    pose proof (write_byte_at m a l) as Hw. destruct (write_bytes m a l) as [[[]|e] m1]; [|done]. injection E as <- <- _. cbn [fst snd] in Hw.
    split; [lia|]. split; [|intros _; unfold file_content; by rewrite length_map]. intros i Hi. rewrite (Hw _ Hl eq_refl).
    rewrite (proj2 (Z.leb_le _ _)), (proj2 (Z.ltb_lt _ _)) by lia. cbn [andb]. unfold l. rewrite lookup_take_lt, lookup_drop by lia. f_equal. lia.
  - intros m a f n r f' Hn Hp E. unfold file_content in Hp. rewrite length_map in Hp. unfold file_write in E.
    destruct (read_bytes m a (Z.to_nat n)) as [l|] eqn:El; [|by injection E as _ <-]. rewrite (proj2 (Z.ltb_ge _ _)) in E by lia. injection E as _ <-.
    rewrite (write_content m a f n l El). apply read_bytes_ok in El as [Hlen _]. split.
    + intros i Hi. rewrite write_lookup by (unfold file_content; rewrite ?length_map; lia). destruct (_ && _) eqn:Ex; [lia|done].
    + unfold file_content. rewrite !length_app, length_take, length_drop, !length_map. lia.
  - intros m a f n k f' Hn Hp E. unfold file_content in Hp. rewrite length_map in Hp. unfold file_write in E.
    destruct (read_bytes m a (Z.to_nat n)) as [l|] eqn:El; [|done]. rewrite (proj2 (Z.ltb_ge _ _)) in E by lia. injection E as <- <-.
    rewrite (write_content m a f n l El). pose proof El as [Hlen _]%read_bytes_ok. split; [lia|]. split; [|done]. intros i Hi.
    rewrite write_lookup by (unfold file_content; rewrite ?length_map; lia). rewrite (proj2 (Z.leb_le _ _)), (proj2 (Z.ltb_lt _ _)) by lia. cbn [andb].
    replace (Z.to_nat (Z.of_nat (Z.to_nat (f.2 + i)) - f.2)) with (Z.to_nat i) by lia. rewrite <-(read_bytes_at m a (Z.to_nat n) l (Z.to_nat i) El) by lia. do 2 f_equal. lia.
Defined.

(** A guest with a queue of four entries: table at 0, available ring at 64, used ring at 80. One
    chain is available: the header at 128 asks to read the first sector, to the buffer at
    512, with the status at 160. *)
Definition descriptor (addr len flags next : Z) : list Z := le_encode 8 addr ++ le_encode 4 len ++ le_encode 2 flags ++ le_encode 2 next.
Definition guest : list Z :=
  descriptor 128 16 1 1 ++ descriptor 512 512 3 2 ++ descriptor 160 1 2 0 ++ replicate 16 0 ++
  le_encode 2 0 ++ le_encode 2 1 ++ replicate (60 + 896) 0.
Definition guest_queue : Queue := mkQueue 256 4 true 0 64 80 0 0 false 0.
Definition no_limits : RateLimiter := mkRateLimiter None None None false.
Definition disk_file : file := (replicate 512 7, 0).
Definition host : DiskHost file unit := mkHost (Ok disk_file) (Ok 512) None (Some (5, 10, 51)) (Some 30) UringSamples.kernel.

Definition device (t : FileEngineType) : option (Block file) :=
  match Block_new (X := unit) [] None Writeback [] false true no_limits t host (mkBlockEvents (Some 10) true (Some 11)) with
  | Ok b0 => Some (block_activate true (with_block_queues (with_acked b0 0) [guest_queue])).2
  | Err _ => None
  end.
Definition quiet : BlockWorld (list Z) := mkBlockWorld (fun m => m) (mkClock 0 0) (mkClock 0 0).
Definition event : BlockInput := mkBlockInput 2 (fun _ => quiet) (fun n => Ok n) true 0 12.

Lemma guest_backed a n : 0 <= a -> a + n <= 1024 -> backed guest a n.
Proof. intros Ha Hn x Hx. apply flat_backed. change (flat_size guest) with 1024. lia. Qed.

Lemma guest_queue_ok : queue_ok guest_queue guest.
Proof. split; cbn; try (unfold in_range; lia); try done; apply guest_backed; lia. Qed.

Lemma host_fine : host_ok host.
Proof.
  split.
  - intros f sz [= <-] [= <-]. done.
  - intros fe se sm ce cm [= <- <- <- <- <-]. split; [exists 1|exists 2]; (split; [lia|done]).
Qed.

Lemma device_run t b : device t = Some b -> block_run b guest [].
Proof.
  intros E. unfold device in E. destruct (Block_new _ _ _ _ _ _ _ _ _ _) as [b0|] eqn:En; [|done]. injection E as <-.
  eapply (br_start _ _ _ _ _ _ no_limits _ _ _ b0 0 guest_queue); [exact host_fine|by split|exact En|exact guest_queue_ok|reflexivity].
Qed.

Lemma event_fine : input_fine event.
Proof. split; [done|]. intros n k Hn [= <-]. lia. Qed.

(** The device with the asynchronous engine handles the event of its queue. *)
Definition async_device : Block file := default (mkBlock (mkDisk Writeback [] (Sync disk_file) 0 []) 0 0 [] 0 [] 0 false 0 [] None false no_limits false) (device AsyncType).
Definition sync_device : Block file := default async_device (device SyncType).



Lemma guest_apart : rings_apart guest_queue guest.
Proof.
  split.
  - intros x (i & d & Hi & Ec & Hw & Hx) Hr. pose proof (checked_new_fields _ _ _ _ _ Ec) as (_ & _ & _ & _ & Hlt & _). cbn in Hlt.
    assert (i = 0 \/ i = 1 \/ i = 2 \/ i = 3) as Hcase by lia. unfold rings, span in Hr. cbn in Hr.
    destruct Hcase as [->|[->|[-> | ->]]]; vm_compute in Ec; injection Ec as <-; try done; unfold span in Hx; cbn in Hx; lia.
  - intros x. unfold used_area, rings, span. cbn. lia.
Qed.

End BlockSamples.
