(* ===== verification/BlockPersist.v ===== *)
(** * Snapshots of the block device

    Models [devices/src/virtio/block/persist.rs], and the block device as a device of the
    transport ([Mmio.VirtioDevice]).  Requests under way are not kept: [prepare_save] waits for
    them before the device is saved.  If the host cannot run the asynchronous engine any
    more, the device comes back with the synchronous one. *)

From Stdlib Require Import ZArith Lia.
From stdpp Require Import functions prelude.
From S2P Require Import Prelude Text GuestMemory IoUring VirtioQueue QueueRuns Mmio RateLimiter VirtioPersist VsockPersist BlockRequest BlockDevice BlockRuns.

(** The transport calls [write_config] with offsets below 2^12, for which it returns. *)
#[refine] Instance block_virtio {F M : Type} `{Profile} (evt_ok : bool) : VirtioDevice (Block F) M := {|
  avail_features := b_avail_features;
  acked_features := b_acked_features;
  set_acked_features := with_acked;
  device_type _ := TYPE_BLOCK;
  queues := b_queues;
  set_queues := with_block_queues;
  is_activated := b_activated;
  activate b _ := block_activate evt_ok b;
  dev_reset b := (None, b);
  read_config := block_read_config;
  write_config b o l := match block_write_config b o l with Ret b => b | Panic => b end
|}.
Proof.
  all: try by intros.
  1-4: intros b o l; unfold block_write_config; destruct (config_write _ o l) as [[c|]|]; [by rewrite bind_Ret|by rewrite bind_Ret|done].
  1-2: intros b m; unfold block_activate; by destruct (block_has_feature _ _), evt_ok.
Defined.

Lemma write_config_returns {F} `{Profile} (b : Block F) o l : 0 <= o < 2 ^ 12 -> (length l <= 8)%nat -> exists b', block_write_config b o l = Ret b'.
Proof. intros Ho Hl. unfold block_write_config, config_write. rewrite uadd_ok by (unfold in_range; lia). rewrite bind_Ret. destruct (_ <? _); [rewrite bind_Ret; by eexists|]. rewrite (proj2 (Z.ltb_ge _ _)) by lia. rewrite bind_Ret. by eexists. Qed.

Inductive CacheTypeState := UnsafeState | WritebackState.
Definition cache_state_from (c : CacheType) : CacheTypeState := match c with Unsafe => UnsafeState | Writeback => WritebackState end.
Definition cache_from_state (c : CacheTypeState) : CacheType := match c with UnsafeState => Unsafe | WritebackState => Writeback end.

Inductive FileEngineTypeState := SyncState | AsyncState.
Definition engine_state_from (t : FileEngineType) : FileEngineTypeState := match t with SyncType => SyncState | AsyncType => AsyncState end.
Definition engine_from_state (t : FileEngineTypeState) : FileEngineType := match t with SyncState => SyncType | AsyncState => AsyncType end.

(** What versions without these fields are read as. *)
Definition default_cache_type_flush : CacheTypeState := UnsafeState.
Definition default_engine_type : FileEngineTypeState := SyncState.

Record BlockState := mkBlockState {
  bs_id : list Z;
  bs_partuuid : option (list Z);
  bs_cache_type : CacheTypeState;
  bs_root_device : bool;
  bs_disk_path : list Z;
  bs_virtio_state : VirtioDeviceState;
  bs_rate_limiter_state : RateLimiterState;
  bs_file_engine_type : FileEngineTypeState
}.

Section Persist.
Context {F M : Type} `{BackingFile F M} `{!GuestRegions M} `{Profile}.
#[local] Instance block_dev : VirtioDevice (Block F) M := block_virtio true.
Implicit Types (b : Block F) (m : M).

(** [now_ops], [now_bw]: the clock when the buckets are saved. *)
Definition block_save b (now_ops now_bw : Z) : BlockState :=
  mkBlockState (b_id b) (partuuid b) (cache_state_from (cache_type b)) (root_device b) (file_path (disk b))
    (from_device b (b_irq_status b)) (RateLimiter_save (rate_limiter b) now_ops now_bw) (engine_state_from (file_engine_type b)).

Definition restore_limiter (s : BlockState) (l : LimiterHost) := RateLimiter_restore (IoError := unit) (bs_rate_limiter_state s) (lh_ops l) (lh_bw l) (lh_timer l).

Definition restored_block b0 (queues : list Queue) (s : VirtioDeviceState) : Block F :=
  mkBlock (disk b0) (ds_avail_features s) (ds_acked_features s) (config_space b0) (b_activate_evt b0) queues (queue_evt b0)
    (ds_activated s) (ds_interrupt_status s) (b_id b0) (partuuid b0) (root_device b0) (rate_limiter b0) (is_io_engine_throttled b0).

(** [h], [ev] are the answers of the host to the first attempt, [h'], [ev'] to the second. *)
Definition block_restore m (s : BlockState) (l l' : LimiterHost) (h h' : DiskHost F FileError) (ev ev' : BlockEvents)
    : exec (result (Block F) (BlockError FileError)) :=
  let is_disk_read_only := negb (Z.land (ds_avail_features (bs_virtio_state s)) (Z.shiftl 1 VIRTIO_BLK_F_RO) =? 0) in
  let make rl t h ev := Block_new (bs_id s) (bs_partuuid s) (cache_from_state (bs_cache_type s)) (bs_disk_path s) is_disk_read_only
    (bs_root_device s) rl t h ev in
  r ← restore_limiter s l;
  match r with
  | Err _ => Ret (Err BlockRateLimiter)
  | Ok rl =>
      made ←
        match make rl (engine_from_state (bs_file_engine_type s)) h ev with
        | Err (BlockFileEngine (Some AsyncType)) =>
            r ← restore_limiter s l';
            Ret (match r with Err _ => Err BlockRateLimiter | Ok rl => make rl SyncType h' ev' end)
        | other => Ret other
        end;
      match made with
      | Err e => Ret (Err e)
      | Ok b0 =>
          q ← build_queues_checked (bs_virtio_state s) m TYPE_BLOCK BLOCK_NUM_QUEUES BLOCK_QUEUE_SIZE;
          Ret (match q with Err _ => Err BlockPersist | Ok queues => Ok (restored_block b0 queues (bs_virtio_state s)) end)
      end
  end.

(** How the device is made again. *)
Definition remake b (rl : RateLimiter) (t : FileEngineType) (h : DiskHost F FileError) (ev : BlockEvents) :=
  Block_new (b_id b) (partuuid b) (cache_type b) (file_path (disk b)) (is_read_only b) (root_device b) rl t h ev.

(** A device as the guest sees it, with what it was configured with. *)
Definition visible b := (b_queues b, b_avail_features b, b_acked_features b, b_irq_status b, b_activated b, (b_id b, partuuid b, root_device b, cache_type b, file_path (disk b))).

Lemma remake_fields b rl t h ev b0 : remake b rl t h ev = Ok b0 ->
  b_id b0 = b_id b /\ partuuid b0 = partuuid b /\ root_device b0 = root_device b /\ cache_type b0 = cache_type b /\ file_path (disk b0) = file_path (disk b) /\
  rate_limiter b0 = rl /\ is_io_engine_throttled b0 = false.
Proof.
  unfold remake, Block_new, DiskProperties_new, cache_type. destruct (h_open h) as [f|]; [|done]. destruct (h_size h) as [sz|]; [|done].
  destruct (engine_from_file f t h) as [g|]; [|done]. destruct (be_queue ev); [|done]. destruct (negb (be_irq ev)); [done|].
  destruct (be_activate ev); [|done]. by intros [= <-].
Qed.

(** A device that is restored: the one made again, with the queues, features, interrupt status
    and activation of the one that was saved. *)
Theorem block_restored b m q l l' h h' ev ev' now_ops now_bw rl b0 : block_inv b m [] [] -> b_queues b = [q] ->
  subfeatures (b_acked_features b) (b_avail_features b) -> in_range 64 (b_acked_features b) ->
  max_size q = BLOCK_QUEUE_SIZE -> uses_notif_suppression q = uses_suppression (b_acked_features b) -> Queue_is_valid q m = Ret true ->
  limiter_wf rl -> host_ok h -> host_ok h' -> let s := block_save b now_ops now_bw in
  restore_limiter s l = Ret (Ok rl) /\ remake b rl (file_engine_type b) h ev = Ok b0 \/
  (exists rl', restore_limiter s l = Ret (Ok rl') /\ remake b rl' (file_engine_type b) h ev = Err (BlockFileEngine (Some AsyncType))) /\
    restore_limiter s l' = Ret (Ok rl) /\ remake b rl SyncType h' ev' = Ok b0 ->
  exists b', block_restore m s l l' h h' ev ev' = Ret (Ok b') /\ visible b' = visible b /\ disk b' = disk b0 /\ rate_limiter b' = rl /\ block_inv b' m [] [].
Proof.
  intros Hb Eq Hsub Hr Hmax Hsup Hval Hwf Hh Hh' s Hmade. assert (Em : forall rl t h ev, Block_new (bs_id s) (bs_partuuid s) (cache_from_state (bs_cache_type s)) (bs_disk_path s)
    (negb (Z.land (ds_avail_features (bs_virtio_state s)) (Z.shiftl 1 VIRTIO_BLK_F_RO) =? 0)) (bs_root_device s) rl t h ev = remake b rl t h ev).
  { intros. unfold remake. cbn. by destruct (cache_type b). }
  assert (Et : engine_from_state (bs_file_engine_type s) = file_engine_type b) by (cbn; by destruct (file_engine_type b)).
  assert (Eb : build_queues_checked (bs_virtio_state s) m TYPE_BLOCK BLOCK_NUM_QUEUES BLOCK_QUEUE_SIZE = Ret (Ok [q])).
  { pose proof (queues_restored b (b_irq_status b) m BLOCK_QUEUE_SIZE Hsub Hr) as E. change (queues b) with (b_queues b) in E. rewrite Eq in E.
    specialize (E ltac:(by repeat constructor)). etransitivity; [exact E|]. cbn [check_queues is_activated block_dev block_virtio].
    rewrite Hmax, Z.eqb_refl. destruct Hb as (-> & q0 & E0 & Hi). rewrite Eq in E0. injection E0 as <-. pose proof (ok_size _ _ (sv_queue _ _ _ _ Hi)) as Hs. cbn in Hs.
    rewrite (proj2 (Z.ltb_ge _ _)) by lia. cbn [negb orb]. by rewrite Hval, !bind_Ret. }
  set (b' := restored_block b0 [q] (bs_virtio_state s)).
  assert (Er : block_restore m s l l' h h' ev ev' = Ret (Ok b')).
  { unfold block_restore. destruct Hmade as [[E1 E2]|([rl' [E1 E2]] & E3 & E4)]; rewrite E1, bind_Ret, Em, Et, E2.
    - by rewrite bind_Ret, Eb, bind_Ret.
    - by rewrite E3, !bind_Ret, Em, E4, Eb, bind_Ret. }
  assert (Hnew : exists t h ev, host_ok h /\ remake b rl t h ev = Ok b0) by (destruct Hmade as [[_ E2]|(_ & _ & E4)]; by eauto 6).
  destruct Hnew as (t & h1 & ev1 & Hh1 & En). destruct (remake_fields _ _ _ _ _ _ En) as (F1 & F2 & F3 & F4 & F5 & F6 & F7).
  exists b'. split; [done|]. split; [unfold visible, cache_type in *; cbn; congruence|]. split; [done|]. split; [done|].
  destruct Hb as (Ha & q0 & E0 & Hi). rewrite Eq in E0. injection E0 as <-. split; [done|]. exists q. split; [done|].
  unfold remake, Block_new in En. destruct (DiskProperties_new (file_path (disk b)) (cache_type b) t h1) as [d|] eqn:Ed; [|done].
  destruct (disk_new_ok _ _ _ _ d m Hh1 Ed) as (Hn & Hid & He). 
  assert (disk b0 = d) as Hd by (clear -En; destruct (be_queue ev1), (negb (be_irq ev1)), (be_activate ev1); try done; by injection En as <-).
  destruct Hi as [Hq _ _ _ _ _]. split; cbn; rewrite ?Hd, ?F6; done.
Qed.
End Persist.
