(* ===== verification/BalloonPages.v ===== *)
(** * Pages of the balloon

    Models [devices/src/virtio/balloon/utils.rs]: page frame numbers are compacted into ranges,
    and a range of guest memory is given back to the host.

    [GuestPages] is what the host offers: the address of guest memory in the process,
    [mmap] of an anonymous mapping over it and [madvise(MADV_DONTNEED)]. *)

From Stdlib Require Import ZArith Lia.
From stdpp Require Import functions prelude sorting.
From S2P Require Import Prelude GuestMemory.

(** ** Ranges of pages *)

Section Compact.
Context `{Profile}.

(** The loop for [pfn_index] in [i..i + n]; the most recent range is [previous..previous +
    length]. *)
Fixpoint compact_loop (n : nat) (v : list Z) (i previous : nat) (length : Z) (result : list (Z * Z)) : exec (list (Z * Z)) :=
  match n with
  | O =>
      first ← unwrap (v !! previous);
      Ret (result ++ [(first, length)])
  | S n =>
      page_frame_number ← unwrap (v !! i);
      before ← unwrap (v !! (i - 1)%nat);
      if page_frame_number =? before then compact_loop n v (S i) previous length result
      else
        first ← unwrap (v !! previous);
        next ← uadd 32 first length;
        if page_frame_number =? next then
          length ← uadd 32 length 1;
          compact_loop n v (S i) previous length result
        else compact_loop n v (S i) i 1 (result ++ [(first, length)])
  end.

(** The ranges, and the slice as it is left: sorted. *)
Definition compact_page_frame_numbers (v : list Z) : exec (list (Z * Z) * list Z) :=
  match v with
  | [] => Ret ([], v)
  | _ =>
      let v := merge_sort Z.le v in
      result ← compact_loop (length v - 1) v 1 0 1 [];
      Ret (result, v)
  end.

(** The pages of a range. *)
Definition in_pages (p : Z) (r : Z * Z) : Prop := r.1 <= p < r.1 + r.2.

(** Ranges in ascending order that do not touch. *)
Fixpoint separated (l : list (Z * Z)) : Prop :=
  match l with
  | [] => True
  | r :: l => 0 < r.2 /\ match l with [] => True | r' :: _ => r.1 + r.2 < r'.1 end /\ separated l
  end.

Lemma separated_snoc l r : separated l -> 0 < r.2 -> (forall r', last l = Some r' -> r'.1 + r'.2 < r.1) -> separated (l ++ [r]).
Proof.
  induction l as [|r0 l IH]; cbn [app separated]; [done|]. intros (Hr0 & Hl & Hs) Hr Hlast. split; [done|].
  destruct l as [|r1 l]; [cbn; split; [by apply Hlast|done]|]. split; [done|]. apply IH; [done|done|]. intros r' E. by apply Hlast.
Qed.

(** Extending the last range. *)
Lemma separated_last l r r' : separated (l ++ [r]) -> r'.1 = r.1 -> 0 < r'.2 -> separated (l ++ [r']).
Proof.
  induction l as [|r0 l IH]; cbn [app separated]; [done|]. intros (Hr0 & Hl & Hs) E Hr. split; [done|].
  split; [|by apply IH]. destruct l; cbn in *; [by rewrite E|done].
Qed.

Abbreviation ascending v := (forall i j a b, v !! i = Some a -> v !! j = Some b -> (i <= j)%nat -> a <= b).

(** What the ranges found so far, and the one under way, hold: the pages before index [i], of
    which the last is the end of that range. *)
Lemma compact_loop_ok n v i previous len result first : ascending v -> Forall (in_range 32) v -> (i + n = length v)%nat -> (0 < i)%nat ->
  Z.of_nat i < 2 ^ 32 -> Z.of_nat (length v) < 2 ^ 32 -> 0 < len <= Z.of_nat i -> v !! previous = Some first -> v !! (i - 1)%nat = Some (first + len - 1) ->
  separated (result ++ [(first, len)]) -> (forall p, p ∈ take i v <-> Exists (in_pages p) (result ++ [(first, len)])) ->
  exists l, compact_loop n v i previous len result = Ret l /\ separated l /\ forall p, p ∈ v <-> Exists (in_pages p) l.
Proof.
  revert i previous len result first. induction n as [|n IH]; intros i previous len result first Hv Hr Hn Hi Hi32 Hv32 Hlen Ef El Hs Hp; cbn [compact_loop].
  { rewrite Ef. cbn [unwrap]. rewrite bind_Ret. exists (result ++ [(first, len)]). split; [done|]. split; [done|]. intros p. rewrite <-Hp.
    by rewrite take_ge by lia. }
  destruct (lookup_lt_is_Some_2 v i ltac:(lia)) as [pfn Ep]. rewrite Ep, El. cbn [unwrap]. rewrite !bind_Ret.
  pose proof (Hv (i - 1)%nat i _ _ El Ep ltac:(lia)) as Hle.
  pose proof (proj1 (Forall_lookup _ _) Hr i pfn Ep) as Hpr. pose proof (proj1 (Forall_lookup _ _) Hr previous first Ef) as Hfr. unfold in_range in Hpr, Hfr.
  assert (Etake : take (S i) v = take i v ++ [pfn]) by by apply take_S_r.
  destruct (Z.eqb_spec pfn (first + len - 1)) as [->|Hne].
  { apply (IH _ _ _ _ first); try done; try lia. { by replace (S i - 1)%nat with i by lia. }
    intros p. rewrite Etake, elem_of_app, list_elem_of_singleton, Hp. split; [|by left]. intros [?| ->]; [done|].
    apply Exists_app. right. constructor. unfold in_pages. cbn. lia. }
  rewrite Ef. cbn [unwrap]. rewrite bind_Ret, (uadd_ok 32 first len), bind_Ret by (unfold in_range; lia). cbn beta.
  destruct (Z.eqb_spec pfn (first + len)) as [->|Hne'].
  - rewrite uadd_ok, bind_Ret by (unfold in_range; lia). cbn beta. apply (IH _ _ _ _ first); try done; try lia.
    { replace (S i - 1)%nat with i by lia. rewrite Ep. f_equal. lia. }
    { apply (separated_last _ (first, len)); cbn; [done..|lia]. }
    intros p. rewrite Etake, elem_of_app, list_elem_of_singleton, Hp, !Exists_app, !Exists_cons, !Exists_nil. unfold in_pages. cbn. 
    split; [intros [[?|[?|[]]]|?]|intros [?|[?|[]]]]; [by left|right; left; lia|right; left; lia|by left; left|].
    destruct (decide (p = first + len)); [by right|]. left. right. left. lia.
  - apply (IH _ _ _ _ pfn); try done; try lia. { replace (S i - 1)%nat with i by lia. rewrite Ep. f_equal. lia. }
    { apply separated_snoc; [done|cbn; lia|]. intros r'. rewrite last_snoc. intros [= <-]. cbn. lia. }
    intros p. rewrite Etake, elem_of_app, list_elem_of_singleton, Hp, !Exists_app, !Exists_cons, !Exists_nil. unfold in_pages. cbn.
    split; [intros [?|?]; [by left|right; left; lia]|]. intros [?|[?|[]]]; [by left|right; lia].
Qed.

Lemma merge_sort_ascending v : ascending (merge_sort Z.le v).
Proof.
  assert (Hs : StronglySorted Z.le (merge_sort Z.le v)) by apply (StronglySorted_merge_sort _).
  revert Hs. generalize (merge_sort Z.le v). clear v. intros v Hs i j a b Ea Eb Hij.
  revert i j Ea Eb Hij. induction Hs as [|x v Hs IH Hx]; intros i j Ea Eb Hij; [done|].
  destruct i as [|i], j as [|j]; cbn in Ea, Eb; [by simplify_eq| |lia|by apply (IH i j); [..|lia]].
  injection Ea as <-. by apply (proj1 (Forall_lookup _ _) Hx j).
Qed.

Lemma compact_ok v : Forall (in_range 32) v -> Z.of_nat (length v) < 2 ^ 32 ->
  exists l, compact_page_frame_numbers v = Ret (l, merge_sort Z.le v) /\ separated l /\ forall p, p ∈ v <-> Exists (in_pages p) l.
Proof.
  intros Hr Hlen. unfold compact_page_frame_numbers. destruct v as [|x v0]; [exists []; split; [done|]; split; [done|]; intros p; rewrite Exists_nil; set_solver|].
  set (v := x :: v0) in *. pose proof (merge_sort_Permutation Z.le v) as HP. set (w := merge_sort Z.le v) in *.
  assert (Hl : length w = length v) by by rewrite HP. assert (0 < length w)%nat by (rewrite Hl; cbn; lia).
  destruct (lookup_lt_is_Some_2 w 0 ltac:(lia)) as [first Ef].
  destruct (compact_loop_ok (length w - 1) w 1 0 1 [] first) as (l & -> & Hs & Hp); try done; try lia.
  - apply merge_sort_ascending.
  - by rewrite HP.
  - by replace (first + 1 - 1) with first by lia.
  - intros p. destruct w as [|y w']; [done|]. cbn in Ef. injection Ef as ->. cbn. rewrite take_0, list_elem_of_singleton, Exists_cons, Exists_nil. unfold in_pages. cbn.
    split; [intros ->; left; lia|intros [?|[]]; lia].
  - rewrite bind_Ret. exists l. split; [done|]. split; [done|]. intros p. by rewrite <-Hp, HP.
Qed.

(** Ranges that do not touch are determined by their pages. *)
Lemma separated_head_le r l p : separated (r :: l) -> Exists (in_pages p) (r :: l) -> r.1 <= p.
Proof.
  revert r. induction l as [|r' l IH]; intros r Hs He; apply Exists_cons in He as [He|He]; try (unfold in_pages in He; lia); [by apply Exists_nil in He|].
  destruct Hs as (? & ? & Hs). specialize (IH r' Hs He). lia.
Qed.

Lemma separated_tail r l p : separated (r :: l) -> Exists (in_pages p) l -> r.1 + r.2 < p.
Proof.
  intros (? & Hr & Hs) He. destruct l as [|r' l]; [by apply Exists_nil in He|]. pose proof (separated_head_le r' l p Hs He). lia.
Qed.

Lemma separated_unique l l' : separated l -> separated l' -> (forall p, Exists (in_pages p) l <-> Exists (in_pages p) l') -> l = l'.
Proof.
  revert l'. induction l as [|[s n] l IH]; intros [|[s' n'] l'] Hs Hs' Hp; [done|exfalso|exfalso|].
  { destruct Hs' as [Hn _]. cbn in Hn. apply (Exists_nil (in_pages s')), Hp. left. unfold in_pages. cbn. lia. }
  { destruct Hs as [Hn _]. cbn in Hn. apply (Exists_nil (in_pages s)), Hp. left. unfold in_pages. cbn. lia. }
  pose proof Hs as (Hn & _ & Hs1). pose proof Hs' as (Hn' & _ & Hs1'). cbn in Hn, Hn'.
  assert (H1 : Exists (in_pages s) ((s, n) :: l)) by (left; unfold in_pages; cbn; lia). apply Hp in H1. pose proof (separated_head_le _ _ _ Hs' H1) as L1.
  assert (H2 : Exists (in_pages s') ((s', n') :: l')) by (left; unfold in_pages; cbn; lia). apply Hp in H2. pose proof (separated_head_le _ _ _ Hs H2) as L2.
  cbn in L1, L2. assert (s = s') as <- by lia.
  assert (Hend : forall n n' l l', separated ((s, n) :: l) -> separated ((s, n') :: l') -> 0 < n -> 0 < n' ->
    (forall p, Exists (in_pages p) ((s, n) :: l) <-> Exists (in_pages p) ((s, n') :: l')) -> n <= n').
  { clear. intros n n' l l' Hs Hs' Hn Hn' Hp. destruct (Z.le_gt_cases n n'); [done|]. exfalso.
    assert (He : Exists (in_pages (s + n')) ((s, n) :: l)) by (left; unfold in_pages; cbn; lia). apply Hp in He.
    apply Exists_cons in He as [He|He]; [unfold in_pages in He; cbn in He; lia|]. pose proof (separated_tail _ _ _ Hs' He) as L. cbn in L. lia. }
  pose proof (Hend n n' l l' Hs Hs' Hn Hn' Hp). pose proof (Hend n' n l' l Hs' Hs Hn' Hn (fun p => iff_sym (Hp p))). assert (n = n') as <- by lia.
  f_equal. apply IH; [done|done|]. intros p. specialize (Hp p). rewrite !Exists_cons in Hp. split; intros He.
  - pose proof (separated_tail _ _ _ Hs He) as L. destruct (proj1 Hp (or_intror He)) as [Hc|Hc]; [|done]. unfold in_pages in Hc. cbn in Hc, L. lia.
  - pose proof (separated_tail _ _ _ Hs' He) as L. destruct (proj2 Hp (or_intror He)) as [Hc|Hc]; [|done]. unfold in_pages in Hc. cbn in Hc, L. lia.
Qed.

(** C19: Compaction never panics, with overflow checks or without, and is exact: the pages of
    the ranges are the pages of the slice, in ascending order and as few ranges as possible,
    so that no other list of such ranges has the same pages. *)
Theorem compact_pages v : Forall (in_range 32) v -> Z.of_nat (length v) < 2 ^ 32 ->
  exists l w, compact_page_frame_numbers v = Ret (l, w) /\ w ≡ₚ v /\ separated l /\ (forall p, p ∈ v <-> Exists (in_pages p) l) /\
    forall l', separated l' -> (forall p, p ∈ v <-> Exists (in_pages p) l') -> l' = l.
Proof.
  intros Hv Hl. destruct (compact_ok v Hv Hl) as (l & E & Hs & Hp). exists l, (merge_sort Z.le v). split; [done|].
  split; [apply merge_sort_Permutation|]. split; [done|]. split; [done|]. intros l' Hs' Hp'. apply separated_unique; [done|done|].
  intros p. by rewrite <-Hp', Hp.
Qed.

End Compact.

(** Three pages, one of them twice, in two ranges. *)
Lemma compact_pages_witness : exists l w, @compact_page_frame_numbers dev_profile [9; 4; 8; 4] = Ret (l, w) /\ w ≡ₚ [9; 4; 8; 4] /\ l = [(4, 1); (8, 2)].
Proof.
  destruct (@compact_pages dev_profile [9; 4; 8; 4]) as (l & w & E & Hw & _ & _ & Hu); [by repeat constructor|cbn; lia|].
  exists l, w. split; [exact E|]. split; [exact Hw|]. vm_compute in E. by injection E as <- _.
Defined.

(** ** Giving memory back *)

Definition PAGE_SIZE_4K : Z := 4096.

Inductive RemoveRegionError := AddressTranslation | MalformedRange | MadviseFail (errno : Z) | MmapFail (errno : Z) | RegionNotFound.

(** A range of whole pages inside the region that holds its first address. *)
Definition page_range {M} `{GuestRegions M} (m : M) (a n : Z) : Prop :=
  a mod PAGE_SIZE_4K = 0 /\ n mod PAGE_SIZE_4K = 0 /\ exists start len, region_of m a = Some (start, len) /\ a + n <= start + len.

(** [anonymous]: the address is mapped without a file behind it. *)
Class GuestPages (M : Type) `{GuestRegions M} := {
  HostAddress : Type;
  get_host_address : M -> Z -> option HostAddress;
  mmap_anonymous : M -> HostAddress -> Z -> result unit Z * M;
  madvise_dontneed : M -> HostAddress -> Z -> result unit Z * M;
  anonymous : M -> Z -> Prop;

  write_regions m a l x : region_of (write_bytes m a l).2 x = region_of m x;
  write_anonymous m a l x : anonymous (write_bytes m a l).2 x <-> anonymous m x;
  host_address_known m a start len : region_of m a = Some (start, len) -> is_Some (get_host_address m a);
  mmap_changes m a n h : page_range m a n -> get_host_address m a = Some h -> agrees (span a n) m (mmap_anonymous m h n).2;
  mmap_regions m h n x : region_of (mmap_anonymous m h n).2 x = region_of m x;
  mmap_host m h n x : get_host_address (mmap_anonymous m h n).2 x = get_host_address m x;
  mmap_keeps m h n x : anonymous m x -> anonymous (mmap_anonymous m h n).2 x;
  mmap_covers m a n h x : page_range m a n -> get_host_address m a = Some h -> (mmap_anonymous m h n).1 = Ok tt -> span a n x ->
    anonymous (mmap_anonymous m h n).2 x;
  madvise_changes m a n h : page_range m a n -> get_host_address m a = Some h -> agrees (span a n) m (madvise_dontneed m h n).2;
  madvise_regions m h n x : region_of (madvise_dontneed m h n).2 x = region_of m x;
  madvise_keeps m h n x : anonymous m x -> anonymous (madvise_dontneed m h n).2 x;
  (** Anonymous memory that was given back reads as zeroes. *)
  madvise_zero m a n h x : page_range m a n -> get_host_address m a = Some h -> (madvise_dontneed m h n).1 = Ok tt -> span a n x ->
    anonymous m x -> byte_at (madvise_dontneed m h n).2 x = Some 0
}.

Section Remove.
Context {M : Type} `{GuestPages M} `{Profile}.
Implicit Types (m : M).

Definition remove_range m (guest_address range_len : Z) (restored : bool) : exec (result unit RemoveRegionError * M) :=
  match region_of m guest_address with
  | None => Ret (Err RegionNotFound, m)
  | Some (start, len) =>
      range_end ← uadd 64 guest_address range_len;
      region_end ← uadd 64 start len;
      if region_end <? range_end then Ret (Err MalformedRange, m)
      else match get_host_address m guest_address with
      | None => Ret (Err AddressTranslation, m)
      | Some phys_address =>
          let r := if restored then mmap_anonymous m phys_address range_len else (Ok tt, m) in
          match r.1 with
          | Err errno => Ret (Err (MmapFail errno), r.2)
          | Ok _ =>
              let r := madvise_dontneed r.2 phys_address range_len in
              match r.1 with
              | Err errno => Ret (Err (MadviseFail errno), r.2)
              | Ok _ => Ret (Ok tt, r.2)
              end
          end
      end
  end.

(** No region ends at the top of the address space. *)
Definition low_regions m : Prop := forall a start len, region_of m a = Some (start, len) -> start + len < 2 ^ 64.

(** What does not change when pages are given back or bytes are written. *)
Definition same_regions m m' : Prop := (forall x, region_of m' x = region_of m x) /\ (forall x, anonymous m x -> anonymous m' x).

Lemma same_regions_refl m : same_regions m m.
Proof. done. Qed.
Lemma same_regions_trans m1 m2 m3 : same_regions m1 m2 -> same_regions m2 m3 -> same_regions m1 m3.
Proof. intros [R1 A1] [R2 A2]. split; [intros x; by rewrite R2|intros x Hx; by apply A2, A1]. Qed.
Lemma same_regions_low m m' : same_regions m m' -> low_regions m -> low_regions m'.
Proof. intros [R _] Hl a start len. rewrite R. by apply Hl. Qed.
Lemma same_regions_range m m' a n : same_regions m m' -> page_range m a n -> page_range m' a n.
Proof. intros [R _] (? & ? & s & l & E & ?). split; [done|]. split; [done|]. exists s, l. by rewrite R. Qed.

(** The host never refuses. *)
Definition host_grants : Prop := forall m h n, (mmap_anonymous m h n).1 = Ok tt /\ (madvise_dontneed m h n).1 = Ok tt.

(** Removing a range always returns, and changes the range only; a whole range of anonymous
    memory, or of any memory of a restored machine, reads as zeroes after it was removed. *)
Lemma remove_range_ok m a n restored : low_regions m -> 0 <= a -> 0 < n -> a + n < 2 ^ 64 -> a mod PAGE_SIZE_4K = 0 -> n mod PAGE_SIZE_4K = 0 ->
  exists r m', remove_range m a n restored = Ret (r, m') /\ agrees (span a n) m m' /\ same_regions m m' /\
    (host_grants -> page_range m a n -> r = Ok tt) /\
    (r = Ok tt -> restored = true \/ (forall x, span a n x -> anonymous m x) -> forall x, span a n x -> byte_at m' x = Some 0).
Proof.
  intros Hl Ha Hn Han Ma Mn. unfold remove_range. destruct (region_of m a) as [[start len]|] eqn:Er.
  2: { do 2 eexists. split; [done|]. split; [apply agrees_refl|]. split; [done|]. split; [|done]. intros _ (_ & _ & ? & ? & ? & _). congruence. }
  pose proof (region_of_spec m a start len Er) as [Hs Hb]. pose proof (Hl a start len Er) as Hend.
  assert (0 <= start). { destruct (Hb start ltac:(lia)) as [v Ev]. apply byte_at_range in Ev as [Ev _]. unfold in_range in Ev. lia. }
  rewrite !uadd_ok by (unfold in_range; lia). rewrite !bind_Ret. destruct (Z.ltb_spec (start + len) (a + n)).
  { do 2 eexists. split; [done|]. split; [apply agrees_refl|]. split; [done|]. split; [|done].
    intros _ (_ & _ & start1 & len1 & E1 & ?). simplify_eq. lia. }
  destruct (host_address_known m a start len Er) as [h Eh]. rewrite Eh.
  assert (Hp : page_range m a n) by (split; [done|]; split; [done|]; by exists start, len).
  set (r := if restored then _ else _). 
  assert (Hr : agrees (span a n) m r.2 /\ same_regions m r.2 /\ get_host_address r.2 a = Some h /\
    (host_grants -> r.1 = Ok tt) /\
    (r.1 = Ok tt -> restored = true \/ (forall x, span a n x -> anonymous m x) -> forall x, span a n x -> anonymous r.2 x)).
  { subst r. destruct restored; cbn.
    - split; [by apply mmap_changes|]. split; [split; intros x; [apply mmap_regions|apply mmap_keeps]|]. split; [by rewrite mmap_host|]. split; [intros Hg; apply Hg|].
      intros E _ x Hx. by apply (mmap_covers m a).
    - split; [by apply agrees_refl|]. split; [done|]. split; [done|]. split; [done|]. intros _ [?|Hx]; done. }
  clearbody r. destruct r as [rr m1]. cbn [fst snd] in *. destruct Hr as (Hag & Hsr & Eh1 & Hgr & Han1).
  destruct rr as [[]|errno].
  2: { do 2 eexists. split; [done|]. split; [done|]. split; [done|]. split; [|done]. intros Hg _. by specialize (Hgr Hg). }
  pose proof (same_regions_range m m1 a n Hsr Hp) as Hp1.
  pose proof (agrees_trans _ _ _ _ Hag (madvise_changes m1 a n h Hp1 Eh1)) as Hag2.
  assert (Hsr2 : same_regions m (madvise_dontneed m1 h n).2).
  { apply (same_regions_trans _ m1); [done|]. split; intros x; [apply madvise_regions|apply madvise_keeps]. }
  destruct (madvise_dontneed m1 h n).1 as [[]|errno] eqn:Em.
  - do 2 eexists. split; [done|]. split; [done|]. split; [done|]. split; [done|]. intros _ Hc x Hx. apply (madvise_zero m1 a n h x); try done. by apply Han1.
  - do 2 eexists. split; [done|]. split; [done|]. split; [done|]. split; [|done]. intros Hg _. pose proof (proj2 (Hg m1 h n)). congruence.
Qed.
End Remove.
