(* ===== verification/Balloon.v ===== *)
(** * The balloon device

    Models [devices/src/virtio/balloon/device.rs], [event_handler.rs] and [persist.rs]: the
    driver hands pages of guest memory to the device (inflate), takes them back (deflate) and
    reports statistics.

    The loops get a bound on the number of rounds.  [drive] is what the driver does to its
    memory between two chains.  The answers of the host (event descriptors, timers, interrupts)
    are arguments.  Log messages and metrics are left out. *)

From Stdlib Require Import ZArith Lia.
From stdpp Require Import functions prelude sorting.
From S2P Require Import Prelude GuestMemory VirtioQueue QueueRuns Mmio VirtioPersist BalloonPages.

(** ** Data *)

Definition BALLOON_QUEUE_SIZE : Z := 256.
Definition BALLOON_NUM_QUEUES : nat := 3.
Definition MIB_TO_4K_PAGES : Z := 256.
Definition MAX_PAGES_IN_DESC : Z := 256.
Definition MAX_PAGE_COMPACT_BUFFER : nat := 2048.
Definition VIRTIO_BALLOON_PFN_SHIFT : Z := 12.
Definition INFLATE_INDEX : nat := 0.
Definition DEFLATE_INDEX : nat := 1.
Definition STATS_INDEX : nat := 2.
Definition VIRTIO_BALLOON_F_STATS_VQ : Z := 1.
Definition VIRTIO_BALLOON_F_DEFLATE_ON_OOM : Z := 2.
Definition TYPE_BALLOON : Z := 5.
Definition SIZE_OF_U32 : Z := 4.
Definition SIZE_OF_STAT : Z := 10.

Definition VIRTIO_BALLOON_S_SWAP_IN : Z := 0.
Definition VIRTIO_BALLOON_S_SWAP_OUT : Z := 1.
Definition VIRTIO_BALLOON_S_MAJFLT : Z := 2.
Definition VIRTIO_BALLOON_S_MINFLT : Z := 3.
Definition VIRTIO_BALLOON_S_MEMFREE : Z := 4.
Definition VIRTIO_BALLOON_S_MEMTOT : Z := 5.
Definition VIRTIO_BALLOON_S_AVAIL : Z := 6.
Definition VIRTIO_BALLOON_S_CACHES : Z := 7.
Definition VIRTIO_BALLOON_S_HTLB_PGALLOC : Z := 8.
Definition VIRTIO_BALLOON_S_HTLB_PGFAIL : Z := 9.

Inductive BalloonError (X : Type) :=
| DeviceNotFound
| DeviceNotActive
| BalloonEventFd
| InterruptError
| MalformedDescriptor
| MalformedPayload
| QueueRestoreError
| StatisticsDisabled
| StatisticsStateChange
| TooManyPagesRequested
| BalloonQueue (e : QueueError X)
| BalloonTimer.
Arguments DeviceNotFound {X}. Arguments DeviceNotActive {X}. Arguments BalloonEventFd {X}. Arguments InterruptError {X}.
Arguments MalformedDescriptor {X}. Arguments MalformedPayload {X}. Arguments QueueRestoreError {X}. Arguments StatisticsDisabled {X}.
Arguments StatisticsStateChange {X}. Arguments TooManyPagesRequested {X}. Arguments BalloonQueue {X} e. Arguments BalloonTimer {X}.

Definition mib_to_pages {X} (amount_mib : Z) : result Z (BalloonError X) :=
  match checked_mul 32 amount_mib MIB_TO_4K_PAGES with Some pages => Ok pages | None => Err TooManyPagesRequested end.

Definition pages_to_mib (amount_pages : Z) : Z := amount_pages / MIB_TO_4K_PAGES.

Record ConfigSpace := mkConfigSpace { num_pages : Z; actual_pages : Z }.

(** The configuration space as bytes, and back. *)
Definition config_bytes (c : ConfigSpace) : list Z := le_encode 4 (num_pages c) ++ le_encode 4 (actual_pages c).
Definition config_of_bytes (l : list Z) : ConfigSpace := mkConfigSpace (le_decode (take 4 l)) (le_decode (drop 4 l)).

Record BalloonConfig := mkBalloonConfig { amount_mib : Z; deflate_on_oom : bool; bc_stats_polling_interval_s : Z }.

Record BalloonStats := mkBalloonStats {
  target_pages : Z;
  st_actual_pages : Z;
  target_mib : Z;
  actual_mib : Z;
  swap_in : option Z;
  swap_out : option Z;
  major_faults : option Z;
  minor_faults : option Z;
  free_memory : option Z;
  total_memory : option Z;
  available_memory : option Z;
  disk_caches : option Z;
  hugetlb_allocations : option Z;
  hugetlb_failures : option Z
}.

Definition BalloonStats_default : BalloonStats := mkBalloonStats 0 0 0 0 None None None None None None None None None None.

Definition update_with_stat {X} (s : BalloonStats) (tag val : Z) : result BalloonStats (BalloonError X) :=
  let set t old := if tag =? t then Some val else old in
  if negb (bool_decide (tag ∈ [VIRTIO_BALLOON_S_SWAP_IN; VIRTIO_BALLOON_S_SWAP_OUT; VIRTIO_BALLOON_S_MAJFLT; VIRTIO_BALLOON_S_MINFLT;
       VIRTIO_BALLOON_S_MEMFREE; VIRTIO_BALLOON_S_MEMTOT; VIRTIO_BALLOON_S_AVAIL; VIRTIO_BALLOON_S_CACHES;
       VIRTIO_BALLOON_S_HTLB_PGALLOC; VIRTIO_BALLOON_S_HTLB_PGFAIL])) then Err MalformedPayload
  else Ok (mkBalloonStats (target_pages s) (st_actual_pages s) (target_mib s) (actual_mib s)
    (set VIRTIO_BALLOON_S_SWAP_IN (swap_in s)) (set VIRTIO_BALLOON_S_SWAP_OUT (swap_out s))
    (set VIRTIO_BALLOON_S_MAJFLT (major_faults s)) (set VIRTIO_BALLOON_S_MINFLT (minor_faults s))
    (set VIRTIO_BALLOON_S_MEMFREE (free_memory s)) (set VIRTIO_BALLOON_S_MEMTOT (total_memory s))
    (set VIRTIO_BALLOON_S_AVAIL (available_memory s)) (set VIRTIO_BALLOON_S_CACHES (disk_caches s))
    (set VIRTIO_BALLOON_S_HTLB_PGALLOC (hugetlb_allocations s)) (set VIRTIO_BALLOON_S_HTLB_PGFAIL (hugetlb_failures s))).

(** [bl_stats_timer]: the descriptor of the timer and the period it was set to. *)
Record Balloon := mkBalloon {
  bl_avail_features : Z;
  bl_acked_features : Z;
  bl_config_space : ConfigSpace;
  bl_activate_evt : Z;
  bl_queues : list Queue;
  bl_queue_evts : list Z;
  bl_activated : bool;
  bl_irq_status : Z;
  restored : bool;
  stats_polling_interval_s : Z;
  bl_stats_timer : Z * option Z;
  stats_desc_index : option Z;
  latest_stats : BalloonStats;
  pfn_buffer : list Z
}.

(** The descriptors of the events; [None] if one could not be made. *)
Record BalloonEvents := mkBalloonEvents { ble_queues : option (Z * Z * Z); ble_timer : option Z; ble_irq : bool; ble_activate : option Z }.

Definition Balloon_new {X} (amount_mib : Z) (deflate_on_oom : bool) (stats_polling_interval_s : Z) (restored : bool) (ev : BalloonEvents)
    : result Balloon (BalloonError X) :=
  let avail_features := Z.shiftl 1 VIRTIO_F_VERSION_1 in
  let avail_features := if deflate_on_oom then Z.lor avail_features (Z.shiftl 1 VIRTIO_BALLOON_F_DEFLATE_ON_OOM) else avail_features in
  let avail_features := if 0 <? stats_polling_interval_s then Z.lor avail_features (Z.shiftl 1 VIRTIO_BALLOON_F_STATS_VQ) else avail_features in
  match ble_queues ev with
  | None => Err BalloonEventFd
  | Some (e0, e1, e2) =>
      let queues := replicate BALLOON_NUM_QUEUES (Queue_new BALLOON_QUEUE_SIZE) in
      let queues := if stats_polling_interval_s =? 0 then delete STATS_INDEX queues else queues in
      match ble_timer ev with
      | None => Err BalloonTimer
      | Some timer =>
          match mib_to_pages amount_mib with
          | Err e => Err e
          | Ok pages =>
              if negb (ble_irq ev) then Err BalloonEventFd
              else match ble_activate ev with
              | None => Err BalloonEventFd
              | Some activate_evt =>
                  Ok (mkBalloon avail_features 0 (mkConfigSpace pages 0) activate_evt queues [e0; e1; e2] false 0 restored
                        stats_polling_interval_s (timer, None) None BalloonStats_default (replicate MAX_PAGE_COMPACT_BUFFER 0))
              end
          end
      end
  end.

Section Setters.
Implicit Types (b : Balloon).

Definition with_queue b (i : nat) (q : Queue) : Balloon :=
  mkBalloon (bl_avail_features b) (bl_acked_features b) (bl_config_space b) (bl_activate_evt b) (<[i := q]> (bl_queues b)) (bl_queue_evts b)
    (bl_activated b) (bl_irq_status b) (restored b) (stats_polling_interval_s b) (bl_stats_timer b) (stats_desc_index b) (latest_stats b) (pfn_buffer b).
Definition with_irq b (v : Z) : Balloon :=
  mkBalloon (bl_avail_features b) (bl_acked_features b) (bl_config_space b) (bl_activate_evt b) (bl_queues b) (bl_queue_evts b)
    (bl_activated b) v (restored b) (stats_polling_interval_s b) (bl_stats_timer b) (stats_desc_index b) (latest_stats b) (pfn_buffer b).
Definition with_buffer b (l : list Z) : Balloon :=
  mkBalloon (bl_avail_features b) (bl_acked_features b) (bl_config_space b) (bl_activate_evt b) (bl_queues b) (bl_queue_evts b)
    (bl_activated b) (bl_irq_status b) (restored b) (stats_polling_interval_s b) (bl_stats_timer b) (stats_desc_index b) (latest_stats b) l.
Definition with_stats b (i : option Z) (s : BalloonStats) : Balloon :=
  mkBalloon (bl_avail_features b) (bl_acked_features b) (bl_config_space b) (bl_activate_evt b) (bl_queues b) (bl_queue_evts b)
    (bl_activated b) (bl_irq_status b) (restored b) (stats_polling_interval_s b) (bl_stats_timer b) i s (pfn_buffer b).
Definition with_balloon_config b (c : ConfigSpace) : Balloon :=
  mkBalloon (bl_avail_features b) (bl_acked_features b) c (bl_activate_evt b) (bl_queues b) (bl_queue_evts b)
    (bl_activated b) (bl_irq_status b) (restored b) (stats_polling_interval_s b) (bl_stats_timer b) (stats_desc_index b) (latest_stats b) (pfn_buffer b).
Definition with_polling b (interval : Z) (timer : option Z) : Balloon :=
  mkBalloon (bl_avail_features b) (bl_acked_features b) (bl_config_space b) (bl_activate_evt b) (bl_queues b) (bl_queue_evts b)
    (bl_activated b) (bl_irq_status b) (restored b) interval ((bl_stats_timer b).1, timer) (stats_desc_index b) (latest_stats b) (pfn_buffer b).
Definition with_activated b (a : bool) : Balloon :=
  mkBalloon (bl_avail_features b) (bl_acked_features b) (bl_config_space b) (bl_activate_evt b) (bl_queues b) (bl_queue_evts b)
    a (bl_irq_status b) (restored b) (stats_polling_interval_s b) (bl_stats_timer b) (stats_desc_index b) (latest_stats b) (pfn_buffer b).
Definition with_balloon_queues b (l : list Queue) : Balloon :=
  mkBalloon (bl_avail_features b) (bl_acked_features b) (bl_config_space b) (bl_activate_evt b) l (bl_queue_evts b)
    (bl_activated b) (bl_irq_status b) (restored b) (stats_polling_interval_s b) (bl_stats_timer b) (stats_desc_index b) (latest_stats b) (pfn_buffer b).
Definition with_balloon_features b (avail acked : Z) : Balloon :=
  mkBalloon avail acked (bl_config_space b) (bl_activate_evt b) (bl_queues b) (bl_queue_evts b)
    (bl_activated b) (bl_irq_status b) (restored b) (stats_polling_interval_s b) (bl_stats_timer b) (stats_desc_index b) (latest_stats b) (pfn_buffer b).
End Setters.

(** ** Inflating, deflating, statistics *)

Section Device.
Context {M : Type} `{GuestPages M} `{Profile}.
Implicit Types (b : Balloon) (m : M) (q : Queue).

Abbreviation BlnError := (BalloonError GuestMemoryError).

(** The loop over the numbers of a descriptor: [n] are left, the next is at [index]. *)
Fixpoint read_pfns (n : nat) m (addr index : Z) (buf : list Z) (idx : nat) : exec (result nat BlnError * list Z) :=
  match n with
  | O => Ret (Ok idx, buf)
  | S n =>
      match checked_add 64 addr index with
      | None => Ret (Err MalformedDescriptor, buf)
      | Some a =>
          match read_obj 4 m a with
          | None => Ret (Err MalformedDescriptor, buf)
          | Some page_frame_number =>
              buf ← store buf idx page_frame_number;
              read_pfns n m addr (index + SIZE_OF_U32) buf (S idx)
          end
      end
  end.

(** What the loops change. *)
Record Inflating := mkInflating {
  inf_queue : Queue;
  inf_buffer : list Z;
  pfn_buffer_idx : nat;
  needs_interrupt : bool;
  valid_descs_found : bool
}.

(** Acknowledging a chain. *)
Definition acknowledge (s : Inflating) (index : Z) m : exec (result unit BlnError * Inflating * M) :=
  a ← add_used (inf_queue s) m index 0;
  let '(r, q, m) := a in
  match r with
  | Err e => Ret (Err (BalloonQueue e), mkInflating q (inf_buffer s) (pfn_buffer_idx s) (needs_interrupt s) (valid_descs_found s), m)
  | Ok _ => Ret (Ok tt, mkInflating q (inf_buffer s) (pfn_buffer_idx s) true (valid_descs_found s), m)
  end.

(** What is done with a chain. *)
Inductive ChainStep := ChainSkipped | ChainNoSpace | ChainFailed (e : BlnError) | ChainTaken.

Definition inflate_chain (s : Inflating) (head : DescriptorChain) m : exec (ChainStep * Inflating * M) :=
  let len := dc_len head in
  let max_len := MAX_PAGES_IN_DESC * SIZE_OF_U32 in
  let done s := a ← acknowledge s (dc_index head) m;
                let '(r, s, m) := a in
                Ret (match r with Err e => ChainFailed e | Ok _ => ChainTaken end, s, m) in
  if negb (is_write_only head) && (len mod SIZE_OF_U32 =? 0) then
    if max_len <? len then Ret (ChainSkipped, s, m)
    else if Z.of_nat MAX_PAGE_COMPACT_BUFFER - Z.of_nat (pfn_buffer_idx s) <? len / SIZE_OF_U32 then
      Ret (ChainNoSpace, mkInflating (undo_pop (inf_queue s)) (inf_buffer s) (pfn_buffer_idx s) (needs_interrupt s) (valid_descs_found s), m)
    else
      r ← read_pfns (Z.to_nat (len / SIZE_OF_U32)) m (dc_addr head) 0 (inf_buffer s) (pfn_buffer_idx s);
      match r with
      | (Err e, buf) => Ret (ChainFailed e, mkInflating (inf_queue s) buf (pfn_buffer_idx s) (needs_interrupt s) (valid_descs_found s), m)
      | (Ok idx, buf) => done (mkInflating (inf_queue s) buf idx (needs_interrupt s) (valid_descs_found s))
      end
  else done s.

(** The internal loop. *)
Fixpoint gather (fuel : nat) (drive : nat -> M -> M) (s : Inflating) m : outcome (result unit BlnError * Inflating * M) :=
  match fuel with
  | O => Hang
  | S fuel =>
      let m := drive O m in
      p ← lift (pop (inf_queue s) m);
      match p with
      | (None, q) => Done (Ok tt, mkInflating q (inf_buffer s) (pfn_buffer_idx s) (needs_interrupt s) (valid_descs_found s), m)
      | (Some head, q) =>
          c ← lift (inflate_chain (mkInflating q (inf_buffer s) (pfn_buffer_idx s) (needs_interrupt s) true) head m);
          match c with
          | (ChainNoSpace, s, m) => Done (Ok tt, s, m)
          | (ChainFailed e, s, m) => Done (Err e, s, m)
          | (_, s, m) => gather fuel (fun i => drive (S i)) s m
          end
      end
  end.

(** Removing the ranges; a range that cannot be removed is left. *)
Fixpoint remove_ranges (ranges : list (Z * Z)) (restored : bool) m : exec M :=
  match ranges with
  | [] => Ret m
  | (page_frame_number, range_len) :: ranges =>
      r ← remove_range m (Z.shiftl page_frame_number VIRTIO_BALLOON_PFN_SHIFT) (Z.shiftl range_len VIRTIO_BALLOON_PFN_SHIFT) restored;
      remove_ranges ranges restored r.2
  end.

(** Compacting what was gathered, and removing it. *)
Definition flush_pages (s : Inflating) (restored : bool) m : exec (Inflating * M) :=
  c ← compact_page_frame_numbers (take (pfn_buffer_idx s) (inf_buffer s));
  let '(ranges, sorted) := c in
  m ← remove_ranges ranges restored m;
  Ret (mkInflating (inf_queue s) (sorted ++ drop (pfn_buffer_idx s) (inf_buffer s)) 0 (needs_interrupt s) (valid_descs_found s), m).

Fixpoint inflate_loop (fuel : nat) (drive : nat -> nat -> M -> M) (restored : bool) (s : Inflating) m
    : outcome (result unit BlnError * Inflating * M) :=
  match fuel with
  | O => Hang
  | S fuel' =>
      g ← gather fuel (drive O) (mkInflating (inf_queue s) (inf_buffer s) (pfn_buffer_idx s) (needs_interrupt s) false) m;
      match g with
      | (Err e, s, m) => Done (Err e, s, m)
      | (Ok _, s, m) =>
          f ← lift (flush_pages s restored m);
          let '(s, m) := f in
          if valid_descs_found s then inflate_loop fuel' (fun i => drive (S i)) restored s m else Done (Ok tt, s, m)
      end
  end.

(** [irq_ok]: the event of the interrupt could be written. *)
Definition signal_used_queue b (irq_ok : bool) : result unit BlnError * Balloon :=
  (if irq_ok then Ok tt else Err InterruptError, with_irq b (trigger_irq (bl_irq_status b) Vring)).

Definition process_inflate (fuel : nat) (drive : nat -> nat -> M -> M) (irq_ok : bool) b m : outcome (result unit BlnError * Balloon * M) :=
  m ← lift (if bl_activated b then Ret m else Panic);
  q ← lift (unwrap (bl_queues b !! INFLATE_INDEX));
  r ← inflate_loop fuel drive (restored b) (mkInflating q (pfn_buffer b) 0 false true) m;
  let '(r, s, m) := r in
  let b := with_buffer (with_queue b INFLATE_INDEX (inf_queue s)) (inf_buffer s) in
  match r with
  | Err e => Done (Err e, b, m)
  | Ok _ => if needs_interrupt s then Done (signal_used_queue b irq_ok, m) else Done (Ok tt, b, m)
  end.

(** The loop of the deflate queue, and whether an interrupt is needed. *)
Fixpoint deflate_loop (fuel : nat) (drive : nat -> M -> M) (irq : bool) q m : outcome (result bool BlnError * Queue * M) :=
  match fuel with
  | O => Hang
  | S fuel =>
      let m := drive O m in
      p ← lift (pop q m);
      match p with
      | (None, q) => Done (Ok irq, q, m)
      | (Some head, q) =>
          a ← lift (add_used q m (dc_index head) 0);
          let '(r, q, m) := a in
          match r with
          | Err e => Done (Err (BalloonQueue e), q, m)
          | Ok _ => deflate_loop fuel (fun i => drive (S i)) true q m
          end
      end
  end.

Definition process_deflate_queue (fuel : nat) (drive : nat -> M -> M) (irq_ok : bool) b m : outcome (result unit BlnError * Balloon * M) :=
  m ← lift (if bl_activated b then Ret m else Panic);
  q ← lift (unwrap (bl_queues b !! DEFLATE_INDEX));
  r ← deflate_loop fuel drive false q m;
  let '(r, q, m) := r in
  let b := with_queue b DEFLATE_INDEX q in
  match r with
  | Err e => Done (Err e, b, m)
  | Ok true => Done (signal_used_queue b irq_ok, m)
  | Ok false => Done (Ok tt, b, m)
  end.

(** The loop over the statistics of a descriptor: [n] are left, the next is at [index]. *)
Fixpoint read_stats (n : nat) m (addr index : Z) (s : BalloonStats) : result unit BlnError * BalloonStats :=
  match n with
  | O => (Ok tt, s)
  | S n =>
      match checked_add 64 addr index with
      | None => (Err MalformedDescriptor, s)
      | Some a =>
          match read_bytes m a (Z.to_nat SIZE_OF_STAT) with
          | None => (Err MalformedDescriptor, s)
          | Some l =>
              match update_with_stat s (le_decode (take 2 l)) (le_decode (drop 2 l)) with
              | Err e => (Err e, s)
              | Ok s => read_stats n m addr (index + SIZE_OF_STAT) s
              end
          end
      end
  end.

Fixpoint stats_loop (fuel : nat) (drive : nat -> M -> M) b m : outcome (result unit BlnError * Balloon * M) :=
  match fuel with
  | O => Hang
  | S fuel =>
      let m := drive O m in
      q ← lift (unwrap (bl_queues b !! STATS_INDEX));
      p ← lift (pop q m);
      match p with
      | (None, q) => Done (Ok tt, with_queue b STATS_INDEX q, m)
      | (Some head, q) =>
          a ← lift (match stats_desc_index b with
                    | Some prev_stats_desc => add_used q m prev_stats_desc 0
                    | None => Ret (Ok tt, q, m)
                    end);
          let '(r, q, m) := a in
          let b := with_queue b STATS_INDEX q in
          match r with
          | Err e => Done (Err (BalloonQueue e), b, m)
          | Ok _ =>
              match read_stats (Z.to_nat ((dc_len head + SIZE_OF_STAT - 1) / SIZE_OF_STAT)) m (dc_addr head) 0 (latest_stats b) with
              | (Err e, s) => Done (Err e, with_stats b (stats_desc_index b) s, m)
              | (Ok _, s) => stats_loop fuel (fun i => drive (S i)) (with_stats b (Some (dc_index head)) s) m
              end
          end
      end
  end.

Definition process_stats_queue (fuel : nat) (drive : nat -> M -> M) b m : outcome (result unit BlnError * Balloon * M) :=
  m ← lift (if bl_activated b then Ret m else Panic);
  stats_loop fuel drive b m.

Definition trigger_stats_update (irq_ok : bool) b m : exec (result unit BlnError * Balloon * M) :=
  m ← (if bl_activated b then Ret m else Panic);
  match stats_desc_index b with
  | Some index =>
      let b := with_stats b None (latest_stats b) in
      q ← unwrap (bl_queues b !! STATS_INDEX);
      a ← add_used q m index 0;
      let '(r, q, m) := a in
      let b := with_queue b STATS_INDEX q in
      match r with
      | Err e => Ret (Err (BalloonQueue e), b, m)
      | Ok _ => Ret (signal_used_queue b irq_ok, m)
      end
  | None => Ret (Ok tt, b, m)
  end.

(** The results are ignored. *)
Definition process_virtio_queues (fuel : nat) (drive : nat -> nat -> M -> M) (drive' : nat -> M -> M) (irq_ok : bool) b m : outcome (Balloon * M) :=
  r ← process_inflate fuel drive irq_ok b m;
  let '(_, b, m) := r in
  r ← process_deflate_queue fuel drive' irq_ok b m;
  let '(_, b, m) := r in
  Done (b, m).

(** ** Configuration *)

Definition update_size b (amount_mib : Z) (irq_ok : bool) : result unit BlnError * Balloon :=
  if bl_activated b then
    match mib_to_pages amount_mib with
    | Err e => (Err e, b)
    | Ok pages =>
        let b := with_balloon_config b (mkConfigSpace pages (actual_pages (bl_config_space b))) in
        (if irq_ok then Ok tt else Err InterruptError, with_irq b (trigger_irq (bl_irq_status b) Config))
    end
  else (Err DeviceNotActive, b).

Definition update_timer_state b : Balloon := with_polling b (stats_polling_interval_s b) (Some (stats_polling_interval_s b)).

Definition update_stats_polling_interval b (interval_s : Z) (irq_ok : bool) m : exec (result unit BlnError * Balloon * M) :=
  if stats_polling_interval_s b =? interval_s then Ret (Ok tt, b, m)
  else if (stats_polling_interval_s b =? 0) || (interval_s =? 0) then Ret (Err StatisticsStateChange, b, m)
  else
    t ← trigger_stats_update irq_ok b m;
    let '(r, b, m) := t in
    match r with
    | Err e => Ret (Err e, b, m)
    | Ok _ => Ret (Ok tt, update_timer_state (with_polling b interval_s (bl_stats_timer b).2), m)
    end.

Definition size_mb b : Z := pages_to_mib (num_pages (bl_config_space b)).
Definition is_deflate_on_oom b : bool := negb (Z.land (bl_avail_features b) (Z.shiftl 1 VIRTIO_BALLOON_F_DEFLATE_ON_OOM) =? 0).
Definition stats_enabled b : bool := 0 <? stats_polling_interval_s b.

Definition get_latest_stats b : option BalloonStats * Balloon :=
  if stats_enabled b then
    let s := latest_stats b in
    let c := bl_config_space b in
    let s := mkBalloonStats (num_pages c) (actual_pages c) (pages_to_mib (num_pages c)) (pages_to_mib (actual_pages c)) (swap_in s) (swap_out s)
      (major_faults s) (minor_faults s) (free_memory s) (total_memory s) (available_memory s) (disk_caches s) (hugetlb_allocations s) (hugetlb_failures s) in
    (Some s, with_stats b (stats_desc_index b) s)
  else (None, b).

Definition balloon_config b : BalloonConfig := mkBalloonConfig (size_mb b) (is_deflate_on_oom b) (stats_polling_interval_s b).

Definition balloon_read_config b (offset : Z) (data : list Z) : list Z := config_read (config_bytes (bl_config_space b)) offset data.

Definition balloon_write_config b (offset : Z) (data : list Z) : exec Balloon :=
  c ← config_write (config_bytes (bl_config_space b)) offset data;
  Ret (match c with Some l => with_balloon_config b (config_of_bytes l) | None => b end).

(** [evt_ok]: the activation's event descriptor could be written. *)
Definition balloon_activate (evt_ok : bool) b : result unit unit * Balloon :=
  let b := with_activated b true in
  if negb evt_ok then (Err tt, with_activated b false)
  else (Ok tt, if stats_enabled b then update_timer_state b else b).

(** ** Events *)

Definition event_fd b (i : nat) : exec Z := unwrap (bl_queue_evts b !! i).

Definition balloon_runtime_events b : exec (list EventOp) :=
  e0 ← event_fd b INFLATE_INDEX;
  e1 ← event_fd b DEFLATE_INDEX;
  s ← (if stats_enabled b then
         e2 ← event_fd b STATS_INDEX;
         Ret [OpAdd e2 (true, false); OpAdd (bl_stats_timer b).1 (true, false)]
       else Ret []);
  Ret ([OpAdd e0 (true, false); OpAdd e1 (true, false)] ++ s).

Definition balloon_activate_event b : list EventOp := [OpAdd (bl_activate_evt b) (true, false)].

Definition balloon_process_activate_event b : exec (list EventOp) :=
  l ← balloon_runtime_events b;
  Ret (l ++ [OpRemove (bl_activate_evt b)]).

(** What an event is handled with. *)
Record BalloonInput := mkBalloonInput {
  bli_fuel : nat;
  bli_drive : nat -> nat -> M -> M;
  bli_drive1 : nat -> M -> M;
  bli_read_ok : bool;
  bli_irq_ok : bool
}.

Definition after_read (read_ok : bool) b m (k : outcome (result unit BlnError * Balloon * M)) : outcome (result unit BlnError * Balloon * M) :=
  if read_ok then k else Done (Err BalloonEventFd, b, m).

Definition process_inflate_queue_event (i : BalloonInput) b m :=
  after_read (bli_read_ok i) b m (process_inflate (bli_fuel i) (bli_drive i) (bli_irq_ok i) b m).
Definition process_deflate_queue_event (i : BalloonInput) b m :=
  after_read (bli_read_ok i) b m (process_deflate_queue (bli_fuel i) (bli_drive1 i) (bli_irq_ok i) b m).
Definition process_stats_queue_event (i : BalloonInput) b m :=
  after_read (bli_read_ok i) b m (process_stats_queue (bli_fuel i) (bli_drive1 i) b m).
Definition process_stats_timer_event (i : BalloonInput) b m := lift (trigger_stats_update (bli_irq_ok i) b m).

(** The handler; an error is only reported. *)
Definition balloon_process_event (source : Z) (evset : bool * bool) (i : BalloonInput) b m : outcome (Balloon * M * list EventOp) :=
  if evset.2 then Done (b, m, [])
  else if bl_activated b then
    inflate ← lift (event_fd b INFLATE_INDEX);
    deflate ← lift (event_fd b DEFLATE_INDEX);
    stats ← lift (event_fd b STATS_INDEX);
    let handled r := r ← r; let '(_, b, m) := r in Done (b, m, []) in
    if source =? inflate then handled (process_inflate_queue_event i b m)
    else if source =? deflate then handled (process_deflate_queue_event i b m)
    else if source =? stats then handled (process_stats_queue_event i b m)
    else if source =? (bl_stats_timer b).1 then handled (process_stats_timer_event i b m)
    else if bl_activate_evt b =? source then ops ← lift (balloon_process_activate_event b); Done (b, m, ops)
    else Done (b, m, [])
  else Done (b, m, []).

Definition balloon_init b : exec (list EventOp) :=
  if bl_activated b then balloon_runtime_events b else Ret (balloon_activate_event b).
End Device.
