(* ===== verification/BalloonRuns.v ===== *)
(** * Runs of the balloon device

    No event makes the balloon device of [Balloon] panic, whatever the driver puts in its
    queues and does to its memory meanwhile ([balloon_safe]), and a driver that follows the
    protocol has its pages removed ([inflate_removes]). *)

From Stdlib Require Import ZArith Lia.
From stdpp Require Import functions prelude sorting.
From S2P Require Import Prelude GuestMemory VirtioQueue QueueRuns Mmio VirtioPersist BalloonPages Balloon.

Section Runs.
Context {M : Type} `{GuestPages M} `{Profile}.
Implicit Types (b : Balloon) (m : M) (q : Queue) (s : Inflating).

(** ** Chains *)

Lemma write_obj_regions n m v a : same_regions m (write_obj n m v a).2.
Proof. split; intros x; [apply write_regions|apply write_anonymous]. Qed.

Lemma add_used_regions q m i l r q' m' : add_used q m i l = Ret (r, q', m') -> same_regions m m'.
Proof.
  unfold add_used. destruct (_ <=? _); [by intros [= <- <- <-]|]. intros E.
  apply bind_Ret_inv in E as (a1 & _ & E). apply bind_Ret_inv in E as (a2 & _ & E). apply bind_Ret_inv in E as (a3 & _ & E).
  apply bind_Ret_inv in E as (a4 & _ & E). pose proof (write_obj_regions 4 m i a4) as R1. destruct (write_obj 4 m i a4) as [[[]|e1] m1]; cbn [fst snd] in *; [|by injection E as <- <- <-].
  apply bind_Ret_inv in E as (a5 & _ & E). pose proof (write_obj_regions 4 m1 l a5) as R2. pose proof (same_regions_trans _ _ _ R1 R2) as R12.
  destruct (write_obj 4 m1 l a5) as [[[]|e2] m2]; cbn [fst snd] in *; [|by injection E as <- <- <-].
  apply bind_Ret_inv in E as (a6 & _ & E). cbn [next_used with_next_used with_num_added] in E.
  pose proof (write_obj_regions 2 m2 (wadd 16 (next_used q) 1) a6) as R3. pose proof (same_regions_trans _ _ _ R12 R3) as R123.
  destruct (write_obj 2 m2 _ a6) as [[[]|e3] m3]; cbn [fst snd] in *; by injection E as <- <- <-.
Qed.

(** What the device may rely on of memory. *)
Definition keeps m m' : Prop := same_map m m' /\ same_regions m m'.

Lemma keeps_refl m : keeps m m.
Proof. done. Qed.
Lemma keeps_trans m1 m2 m3 : keeps m1 m2 -> keeps m2 m3 -> keeps m1 m3.
Proof. intros [A1 B1] [A2 B2]. split; [by apply (same_map_trans m1 m2)|by apply (same_regions_trans m1 m2)]. Qed.
Lemma keeps_queue q m m' : keeps m m' -> queue_ok q m -> queue_ok q m'.
Proof. intros [Hm _] Hq. by apply (queue_ok_mem q m). Qed.
Lemma keeps_low m m' : keeps m m' -> low_regions m -> low_regions m'.
Proof. intros [_ Hr]. by apply same_regions_low. Qed.

(** Giving back a chain, with any index. *)
Lemma add_used_any q m i : queue_ok q m -> 0 <= i -> exists r q' m', add_used q m i 0 = Ret (r, q', m') /\ queue_ok q' m' /\ keeps m m' /\ q_size q' = q_size q.
Proof.
  intros Hq Hi. pose proof (add_used_spec q m i 0 Hq Hi ltac:(unfold in_range; lia)) as Hs. destruct (i <? q_size q) eqn:Ei.
  - apply Z.ltb_lt in Ei. destruct (add_used_step q m i 0 Hq (conj Hi Ei) ltac:(unfold in_range; lia)) as (m' & Ea & Hag & _).
    destruct Hs as (q' & m1 & Eu & Hq' & _). rewrite Eu in Ea. injection Ea as -> ->. do 3 eexists. split; [exact Eu|]. split; [done|]. split; [|done].
    split; [by destruct Hag|by apply (add_used_regions _ _ _ _ _ _ _ Eu)].
  - rewrite Hs. do 3 eexists. split; [done|]. by split; [|split; [apply keeps_refl|]].
Qed.

(** ** The numbers of a descriptor *)

Fixpoint pfns_at (n : nat) m (a : Z) : option (list Z) :=
  match n with
  | O => Some []
  | S n =>
      match read_obj 4 m a, pfns_at n m (a + SIZE_OF_U32) with
      | Some p, Some l => Some (p :: l)
      | _, _ => None
      end
  end.

Lemma read_obj_low n m a : (0 < n)%nat -> ~ in_range 64 a -> read_obj n m a = None.
Proof.
  intros Hn Ha. unfold read_obj. destruct (read_bytes m a n) as [l|] eqn:E; [|done]. exfalso. apply Ha.
  destruct n as [|n]; [lia|]. cbn in E. destruct (byte_at m a) as [v|] eqn:Ev; [|done]. by apply byte_at_range in Ev as [? _].
Qed.

Lemma read_pfns_ok (n : nat) m addr index buf (idx : nat) : 0 <= addr -> 0 <= index -> (idx + n <= length buf)%nat -> Forall (in_range 32) buf ->
  exists r buf', read_pfns n m addr index buf idx = Ret (r, buf') /\ length buf' = length buf /\ Forall (in_range 32) buf' /\
    match pfns_at n m (addr + index) with
    | Some l => length l = n /\ Forall (in_range 32) l /\ r = Ok (idx + n)%nat /\ take (idx + n) buf' = take idx buf ++ l
    | None => r = Err MalformedDescriptor
    end.
Proof.
  revert index buf idx. induction n as [|n IH]; intros index buf idx Ha Hi Hl Hb; cbn [read_pfns pfns_at].
  { do 2 eexists. split; [done|]. split; [done|]. split; [done|]. split; [done|]. split; [constructor|]. split; [by rewrite Nat.add_0_r|]. by rewrite Nat.add_0_r, app_nil_r. }
  unfold checked_add. destruct (in_rangeb 64 (addr + index)) eqn:Ec.
  2: { rewrite read_obj_low by (done || (rewrite <-in_rangeb_spec; congruence) || lia). do 2 eexists. split; [done|]. by split. }
  destruct (read_obj 4 m (addr + index)) as [p|] eqn:Ep; [|do 2 eexists; split; [done|]; by split].
  pose proof (read_obj_range _ _ _ _ Ep) as Hp. unfold store. rewrite (proj2 (Nat.ltb_lt idx (length buf))) by lia. rewrite bind_Ret.
  destruct (IH (index + SIZE_OF_U32) (<[idx:=p]> buf) (S idx)) as (r & buf' & -> & Hl' & Hb' & Hr).
  { done. } { unfold SIZE_OF_U32. lia. } { rewrite length_insert. lia. } { apply Forall_insert; [done|]. unfold in_range. lia. }
  exists r, buf'. split; [done|]. rewrite length_insert in Hl'. split; [done|]. split; [done|].
  replace (addr + index + SIZE_OF_U32) with (addr + (index + SIZE_OF_U32)) by lia. destruct (pfns_at n m _) as [l|]; [|done].
  destruct Hr as (Hn & Hrl & -> & Et). split; [cbn; lia|]. split; [constructor; [unfold in_range; lia|done]|]. split; [f_equal; lia|].
  replace (idx + S n)%nat with (S idx + n)%nat by lia. rewrite Et. rewrite (take_S_r _ idx p) by (apply list_lookup_insert_eq; lia).
  rewrite take_insert_ge by lia. by rewrite <-app_assoc.
Qed.

(** ** Removing pages *)

(** The bytes of the pages with these numbers. *)
Definition pages_of (v : list Z) (x : Z) : Prop := x / PAGE_SIZE_4K ∈ v.
Abbreviation range_bytes l := (fun x => Exists (in_pages (x / PAGE_SIZE_4K)) l).

Lemma span_pages p n x : span (Z.shiftl p VIRTIO_BALLOON_PFN_SHIFT) (Z.shiftl n VIRTIO_BALLOON_PFN_SHIFT) x <-> in_pages (x / PAGE_SIZE_4K) (p, n).
Proof.
  unfold span, in_pages, VIRTIO_BALLOON_PFN_SHIFT, PAGE_SIZE_4K. cbn [fst snd]. rewrite !Z.shiftl_mul_pow2 by lia. change (2 ^ 12) with 4096.
  pose proof (Z.div_mod x 4096 ltac:(lia)). pose proof (Z.mod_pos_bound x 4096 ltac:(lia)). lia.
Qed.

Lemma shifted_page p : Z.shiftl p VIRTIO_BALLOON_PFN_SHIFT mod PAGE_SIZE_4K = 0.
Proof. unfold VIRTIO_BALLOON_PFN_SHIFT, PAGE_SIZE_4K. rewrite Z.shiftl_mul_pow2 by lia. change (2 ^ 12) with 4096. by rewrite Z.mod_mul. Qed.

(** All of these bytes are in one region. *)
Definition in_one_region m (P : Z -> Prop) : Prop := exists start len, forall x, P x -> region_of m x = Some (start, len).

Lemma region_covers m p n : in_one_region m (fun x => in_pages (x / PAGE_SIZE_4K) (p, n)) -> 0 < n ->
  page_range m (Z.shiftl p VIRTIO_BALLOON_PFN_SHIFT) (Z.shiftl n VIRTIO_BALLOON_PFN_SHIFT).
Proof.
  intros (start & len & Hin) Hn. split; [apply shifted_page|]. split; [apply shifted_page|]. exists start, len.
  assert (0 < Z.shiftl n VIRTIO_BALLOON_PFN_SHIFT) by (unfold VIRTIO_BALLOON_PFN_SHIFT; rewrite Z.shiftl_mul_pow2; lia).
  split; [apply Hin, span_pages; unfold span; lia|].
  assert (Hl : region_of m (Z.shiftl p VIRTIO_BALLOON_PFN_SHIFT + Z.shiftl n VIRTIO_BALLOON_PFN_SHIFT - 1) = Some (start, len)).
  { apply Hin, span_pages. unfold span. lia. }
  apply region_of_spec in Hl as [? _]. lia.
Qed.

Definition range_ok (r : Z * Z) : Prop := 0 <= r.1 /\ 0 < r.2 /\ r.1 + r.2 <= 2 ^ 32.

Lemma remove_ranges_ok l res m : low_regions m -> Forall range_ok l ->
  exists m', remove_ranges l res m = Ret m' /\ agrees (range_bytes l) m m' /\ same_regions m m' /\
    (host_grants -> in_one_region m (range_bytes l) -> res = true \/ (forall x, range_bytes l x -> anonymous m x) ->
     forall x, range_bytes l x -> byte_at m' x = Some 0).
Proof.
  revert m. induction l as [|[p n] l IH]; intros m Hl Hr; cbn [remove_ranges].
  { exists m. split; [done|]. split; [apply agrees_refl|]. split; [done|]. intros _ _ _ x Hx. by apply Exists_nil in Hx. }
  apply Forall_cons in Hr as [(Hp & Hn & Hpn) Hr]. cbn [fst snd] in *.
  destruct (remove_range_ok m (Z.shiftl p VIRTIO_BALLOON_PFN_SHIFT) (Z.shiftl n VIRTIO_BALLOON_PFN_SHIFT) res) as (r & m1 & -> & Hag & Hsr & Hok & Hz).
  { done. } 1-3: unfold VIRTIO_BALLOON_PFN_SHIFT; rewrite !Z.shiftl_mul_pow2; lia. 1-2: apply shifted_page.
  rewrite bind_Ret. cbn [snd]. destruct (IH m1) as (m' & -> & Hag' & Hsr' & Hz'); [by apply (same_regions_low m)|done|].
  exists m'. split; [done|]. split; [|split; [by apply (same_regions_trans _ m1)|]].
  { apply (agrees_trans _ _ m1); [eapply agrees_weaken; [|exact Hag]|eapply agrees_weaken; [|exact Hag']]; intros x Hx; cbn.
    - left. by apply span_pages. - by right. }
  intros Hg (start & len & Hone) Han x Hx.
  destruct (decide (Exists (in_pages (x / PAGE_SIZE_4K)) l)) as [Ht|Ht].
  - apply Hz'; [done| | |done].
    + exists start, len. intros y Hy. rewrite (proj1 Hsr). apply Hone. by right.
    + destruct Han as [?|Han]; [by left|right]. intros y Hy. apply (proj2 Hsr), Han. by right.
  - rewrite (proj1 Hag') by done. apply Exists_cons in Hx as [Hx|?]; [|done]. apply Hz; [| |by apply span_pages].
    + apply Hok; [done|]. apply region_covers; [|done]. exists start, len. intros y Hy. apply Hone. by left.
    + destruct Han as [?|Han]; [by left|right]. intros y Hy. apply Han. left. by apply span_pages.
Qed.

Lemma separated_ranges l v : separated l -> Forall (in_range 32) v -> (forall p, p ∈ v <-> Exists (in_pages p) l) -> Forall range_ok l.
Proof.
  intros Hs Hv Hp. assert (Hin : forall r p, r ∈ l -> in_pages p r -> in_range 32 p).
  { intros r p Hr Hpr. apply (proj1 (Forall_forall _ _) Hv), Hp, Exists_exists. by exists r. }
  assert (Hpos : Forall (fun r => 0 < r.2) l) by (clear -Hs; induction l as [|r l IH]; constructor; [apply Hs|by apply IH, Hs]).
  apply Forall_forall. intros r Hr. pose proof (proj1 (Forall_forall _ _) Hpos r Hr) as Hn. cbn in Hn.
  pose proof (Hin r r.1 Hr ltac:(unfold in_pages; lia)). pose proof (Hin r (r.1 + r.2 - 1) Hr ltac:(unfold in_pages; lia)). unfold range_ok, in_range in *. lia.
Qed.

(** What the loops keep true. *)
Record inf_ok s m : Prop := {
  io_queue : queue_ok (inf_queue s) m;
  io_length : length (inf_buffer s) = MAX_PAGE_COMPACT_BUFFER;
  io_words : Forall (in_range 32) (inf_buffer s);
  io_index : (pfn_buffer_idx s <= MAX_PAGE_COMPACT_BUFFER)%nat;
  io_low : low_regions m
}.

Lemma flush_pages_ok s res m : inf_ok s m ->
  exists s' m', flush_pages s res m = Ret (s', m') /\ inf_ok s' m' /\ keeps m m' /\ pfn_buffer_idx s' = O /\
    inf_queue s' = inf_queue s /\ needs_interrupt s' = needs_interrupt s /\ valid_descs_found s' = valid_descs_found s /\
    let v := take (pfn_buffer_idx s) (inf_buffer s) in
    agrees (pages_of v) m m' /\
    (host_grants -> in_one_region m (pages_of v) -> res = true \/ (forall x, pages_of v x -> anonymous m x) ->
     forall x, pages_of v x -> byte_at m' x = Some 0).
Proof.
  intros [Hq Hlen Hw Hi Hl]. unfold flush_pages. set (v := take _ _). assert (Hv : Forall (in_range 32) v) by by apply Forall_take.
  assert (Hvl : (length v <= MAX_PAGE_COMPACT_BUFFER)%nat) by (unfold v; rewrite length_take; lia).
  destruct (compact_ok v Hv) as (l & -> & Hs & Hp); [unfold MAX_PAGE_COMPACT_BUFFER in Hvl; lia|]. rewrite bind_Ret.
  destruct (remove_ranges_ok l res m Hl (separated_ranges l v Hs Hv Hp)) as (m' & -> & Hag & Hsr & Hz). rewrite bind_Ret.
  assert (Hsame : forall x, range_bytes l x <-> pages_of v x) by (intros x; unfold pages_of; by rewrite Hp).
  assert (Hk : keeps m m') by (split; [by destruct Hag|done]).
  do 2 eexists. split; [done|]. split; [|split; [done|]; split; [done|]; split; [done|]; split; [done|]; split; [done|]; split].
  - split; cbn; [by apply (keeps_queue _ m)| | |lia|by apply (keeps_low m)].
    + rewrite length_app, length_drop, merge_sort_Permutation. unfold v. rewrite length_take. lia.
    + apply Forall_app. split; [by rewrite merge_sort_Permutation|by apply Forall_drop].
  - eapply agrees_weaken; [|exact Hag]. intros x. by rewrite Hsame.
  - intros Hg (start & len & Hone) Han x Hx. apply Hz; [done| | |by apply Hsame].
    + exists start, len. intros y Hy. by apply Hone, Hsame.
    + destruct Han as [?|Han]; [by left|right]. intros y Hy. by apply Han, Hsame.
Qed.

(** ** Safety *)

Lemma acknowledge_ok s i m : inf_ok s m -> 0 <= i < q_size (inf_queue s) ->
  exists s' m', acknowledge s i m = Ret (Ok tt, s', m') /\ inf_ok s' m' /\ keeps m m' /\
    s' = mkInflating (inf_queue s') (inf_buffer s) (pfn_buffer_idx s) true (valid_descs_found s) /\
    inf_queue s' = with_next_used (with_num_added (inf_queue s) (wadd 16 (num_added (inf_queue s)) 1)) (wadd 16 (next_used (inf_queue s)) 1) /\
    agrees (used_area (inf_queue s)) m m' /\ used_entry (inf_queue s) m' (next_used (inf_queue s)) = (Some i, Some 0) /\
    forall j, 0 < j < q_size (inf_queue s) -> used_entry (inf_queue s) m' (next_used (inf_queue s) + j) = used_entry (inf_queue s) m (next_used (inf_queue s) + j).
Proof.
  intros [Hq Hlen Hw Hi Hl] Hidx. destruct (add_used_step (inf_queue s) m i 0 Hq Hidx ltac:(unfold in_range; lia)) as (m' & Ea & Hag & He & _ & Hj).
  assert (Hk : keeps m m') by (split; [by destruct Hag|by apply (add_used_regions _ _ _ _ _ _ _ Ea)]).
  unfold acknowledge. rewrite Ea, bind_Ret. do 2 eexists. split; [done|]. split; [|done].
  split; cbn; try done; [|by apply (keeps_low m)]. apply (keeps_queue _ m); [done|]. destruct Hq. split; try done; by apply wadd_range.
Qed.

Lemma inflate_chain_ok s head m : inf_ok s m -> 0 <= dc_index head < q_size (inf_queue s) -> chain_ranges head ->
  exists c s' m', inflate_chain s head m = Ret (c, s', m') /\ inf_ok s' m' /\ keeps m m'.
Proof.
  intros Hs Hi [Ha Hlen]. unfold inflate_chain. unfold in_range in Ha, Hlen. pose proof Hs as [Hq Hbl Hw Hix Hl].
  destruct (negb (is_write_only head) && (dc_len head mod SIZE_OF_U32 =? 0)).
  2: { destruct (acknowledge_ok s _ m Hs Hi) as (s' & m' & -> & Hs' & Hk & _). rewrite bind_Ret. by do 3 eexists. }
  destruct (_ <? dc_len head); [by do 3 eexists|]. destruct (Z.ltb_spec (Z.of_nat MAX_PAGE_COMPACT_BUFFER - Z.of_nat (pfn_buffer_idx s)) (dc_len head / SIZE_OF_U32)).
  { do 3 eexists. split; [done|]. split; [|done]. by split; [apply undo_pop_ok|..]. }
  assert (Hn : 0 <= dc_len head / SIZE_OF_U32) by (apply Z.div_pos; unfold SIZE_OF_U32; lia).
  destruct (read_pfns_ok (Z.to_nat (dc_len head / SIZE_OF_U32)) m (dc_addr head) 0 (inf_buffer s) (pfn_buffer_idx s)) as (r & buf & -> & Hbl' & Hw' & Hr); try done; try lia.
  rewrite bind_Ret. destruct r as [idx|e]; [|by do 3 eexists; split; [done|]; split; [split; cbn; try done; congruence|]].
  assert (idx <= MAX_PAGE_COMPACT_BUFFER)%nat by (destruct (pfns_at _ _ _); [destruct Hr as (_ & _ & [= ->] & _); lia|done]).
  assert (Hs1 : inf_ok (mkInflating (inf_queue s) buf idx (needs_interrupt s) (valid_descs_found s)) m) by (split; cbn; try done; congruence).
  destruct (acknowledge_ok _ _ m Hs1 Hi) as (s' & m' & -> & Hs' & Hk & _). rewrite bind_Ret. by do 3 eexists.
Qed.

(** Drivers that leave the mapping of memory alone. *)
Definition drives (drive : nat -> M -> M) : Prop := forall i m, keeps m (drive i m).

Lemma inf_ok_keeps s m m' : keeps m m' -> inf_ok s m -> inf_ok s m'.
Proof. intros Hk [? ? ? ? ?]. split; [by apply (keeps_queue _ m)|done..|by apply (keeps_low m)]. Qed.

Lemma gather_safe fuel drive s m : drives drive -> inf_ok s m ->
  gather fuel drive s m <> Crash /\ forall r s' m', gather fuel drive s m = Done (r, s', m') -> inf_ok s' m' /\ keeps m m'.
Proof.
  revert drive s m. induction fuel as [|fuel IH]; intros drive s m Hd Hs; cbn [gather]; [done|].
  pose proof (Hd O m) as Hk0. apply (inf_ok_keeps _ _ _ Hk0) in Hs. set (m0 := drive O m) in *.
  destruct (pop_take (inf_queue s) m0 (io_queue _ _ Hs)) as (o & q & -> & Hq & Hsz & Ho). cbn [lift]. rewrite bind_Done. destruct Hs as [_ Hb1 Hb2 Hb3 Hb4].
  destruct o as [head|].
  2: { split; [done|]. intros r s' m' [= <- <- <-]. split; [|done]. by split. }
  destruct Ho as (_ & _ & _ & Hi & Hr). set (s1 := mkInflating q _ _ _ true). assert (Hs1 : inf_ok s1 m0) by by split.
  destruct (inflate_chain_ok s1 head m0 Hs1) as (c & s' & m' & -> & Hs' & Hk); [by rewrite <-Hsz in Hi|done|]. cbn [lift]. rewrite bind_Done.
  pose proof (keeps_trans _ _ _ Hk0 Hk) as Hk'. destruct (IH (fun i => drive (S i)) s' m' (fun i => Hd (S i)) Hs') as [Hn Ho].
  destruct c as [| |e|]; try (split; [done|]; intros r s2 m2 [= <- <- <-]; by split);
    (split; [done|]; intros r s2 m2 E; destruct (Ho _ _ _ E) as [? ?]; split; [done|]; by apply (keeps_trans _ m')).
Qed.

Lemma inflate_loop_safe fuel drive res s m : (forall i, drives (drive i)) -> inf_ok s m ->
  inflate_loop fuel drive res s m <> Crash /\ forall r s' m', inflate_loop fuel drive res s m = Done (r, s', m') -> inf_ok s' m' /\ keeps m m'.
Proof.
  revert drive s m. induction fuel as [|fuel IH]; intros drive s m Hd Hs; cbn [inflate_loop]; [done|].
  set (s0 := mkInflating _ _ _ _ false). assert (Hs0 : inf_ok s0 m) by (destruct Hs; by split).
  destruct (gather_safe (S fuel) (drive O) s0 m (Hd O) Hs0) as [Hn Ho]. destruct (gather (S fuel) (drive O) s0 m) as [[[r s1] m1]| |]; [|done|done].
  destruct (Ho _ _ _ eq_refl) as [Hs1 Hk1]. rewrite bind_Done. destruct r as [[]|e].
  2: { split; [done|]. intros r s' m' [= <- <- <-]. by split. }
  destruct (flush_pages_ok s1 res m1 Hs1) as (s2 & m2 & -> & Hs2 & Hk2 & _). cbn [lift]. rewrite bind_Done. pose proof (keeps_trans _ _ _ Hk1 Hk2) as Hk.
  destruct (valid_descs_found s2).
  - destruct (IH (fun i => drive (S i)) s2 m2 (fun i => Hd (S i)) Hs2) as [Hn2 Ho2]. split; [done|]. intros r s' m' E.
    destruct (Ho2 _ _ _ E) as [? ?]. split; [done|]. by apply (keeps_trans _ m2).
  - split; [done|]. intros r s' m' [= <- <- <-]. by split.
Qed.

Lemma deflate_loop_safe fuel drive irq q m : drives drive -> queue_ok q m ->
  deflate_loop fuel drive irq q m <> Crash /\ forall r q' m', deflate_loop fuel drive irq q m = Done (r, q', m') -> queue_ok q' m' /\ keeps m m'.
Proof.
  revert drive irq q m. induction fuel as [|fuel IH]; intros drive irq q m Hd Hq; cbn [deflate_loop]; [done|].
  pose proof (Hd O m) as Hk0. apply (keeps_queue _ _ _ Hk0) in Hq. set (m0 := drive O m) in *.
  destruct (pop_take q m0 Hq) as (o & q1 & -> & Hq1 & Hsz & Ho). cbn [lift]. rewrite bind_Done. destruct o as [head|].
  2: { split; [done|]. intros r q' m' [= <- <- <-]. by split. }
  destruct Ho as (_ & _ & _ & Hi & _). destruct (add_used_any q1 m0 (dc_index head) Hq1 (proj1 Hi)) as (r & q2 & m2 & -> & Hq2 & Hk2 & _).
  cbn [lift]. rewrite bind_Done. pose proof (keeps_trans _ _ _ Hk0 Hk2) as Hk. destruct r as [[]|e].
  - destruct (IH (fun i => drive (S i)) true q2 m2 (fun i => Hd (S i)) Hq2) as [Hn Ho]. split; [done|]. intros r q' m' E.
    destruct (Ho _ _ _ E) as [? ?]. split; [done|]. by apply (keeps_trans _ m2).
  - split; [done|]. intros r q' m' [= <- <- <-]. by split.
Qed.

(** ** The device *)

Record balloon_ok b m : Prop := {
  bo_buffer : length (pfn_buffer b) = MAX_PAGE_COMPACT_BUFFER;
  bo_words : Forall (in_range 32) (pfn_buffer b);
  bo_events : length (bl_queue_evts b) = BALLOON_NUM_QUEUES;
  bo_queues : length (bl_queues b) = if stats_enabled b then BALLOON_NUM_QUEUES else STATS_INDEX;
  bo_ready : bl_activated b = true -> Forall (fun q => queue_ok q m) (bl_queues b);
  bo_stats : forall i, stats_desc_index b = Some i -> 0 <= i;
  bo_fds : NoDup (bl_activate_evt b :: (bl_stats_timer b).1 :: bl_queue_evts b);
  bo_interval : 0 <= stats_polling_interval_s b;
  bo_low : low_regions m
}.

(** What the device's events are recognised by. *)
Definition event_fds b := (bl_activate_evt b, (bl_stats_timer b).1, bl_queue_evts b, stats_enabled b, bl_activated b).

(** A handler that returns, in a sound state. *)
Definition fine b m (r : outcome (result unit (BalloonError GuestMemoryError) * Balloon * M)) : Prop :=
  r <> Crash /\ forall e b' m', r = Done (e, b', m') -> balloon_ok b' m' /\ keeps m m' /\ event_fds b' = event_fds b.

Lemma balloon_fine_done b m e b' m' : balloon_ok b' m' -> keeps m m' -> event_fds b' = event_fds b -> fine b m (Done (e, b', m')).
Proof. intros ? ? ?. split; [done|]. by intros ? ? ? [= <- <- <-]. Qed.

Lemma queues_ready b m m' i q : keeps m m' -> queue_ok q m' -> balloon_ok b m -> bl_activated b = true -> Forall (fun q => queue_ok q m') (<[i := q]> (bl_queues b)).
Proof.
  intros Hk Hq Hb Ha. apply Forall_insert; [|done]. eapply Forall_impl; [by apply (bo_ready _ _ Hb)|]. intros q0. by apply keeps_queue.
Qed.

(** A queue and memory that have changed. *)
Lemma balloon_ok_queue b m m' i q : balloon_ok b m -> keeps m m' -> queue_ok q m' -> bl_activated b = true -> balloon_ok (with_queue b i q) m'.
Proof.
  intros Hb Hk Hq Ha. pose proof (queues_ready b m m' i q Hk Hq Hb Ha). destruct Hb. split; cbn; try done; [by rewrite length_insert|by apply (keeps_low m)].
Qed.
Lemma balloon_ok_irq b m v : balloon_ok b m -> balloon_ok (with_irq b v) m.
Proof. intros []. by split. Qed.
Lemma balloon_ok_buffer b m l : length l = MAX_PAGE_COMPACT_BUFFER -> Forall (in_range 32) l -> balloon_ok b m -> balloon_ok (with_buffer b l) m.
Proof. intros ? ? []. by split. Qed.
Lemma balloon_ok_stats b m i st : (forall j, i = Some j -> 0 <= j) -> balloon_ok b m -> balloon_ok (with_stats b i st) m.
Proof. intros ? []. by split. Qed.
Lemma balloon_ok_queue_at b m i : balloon_ok b m -> bl_activated b = true -> (i < length (bl_queues b))%nat -> exists q, bl_queues b !! i = Some q /\ queue_ok q m.
Proof.
  intros Hb Ha Hi. destruct (lookup_lt_is_Some_2 _ _ Hi) as [q Eq]. exists q. split; [done|]. by apply (proj1 (Forall_lookup _ _) (bo_ready _ _ Hb Ha) i).
Qed.
Lemma queues_two b m : balloon_ok b m -> (1 < length (bl_queues b))%nat.
Proof. intros []. destruct (stats_enabled b); unfold BALLOON_NUM_QUEUES, STATS_INDEX in *; lia. Qed.
Lemma queues_three b m : balloon_ok b m -> stats_enabled b = true -> (2 < length (bl_queues b))%nat.
Proof. intros [] E. rewrite E in *. unfold BALLOON_NUM_QUEUES in *. lia. Qed.

Lemma process_inflate_fine fuel drive irq b m : balloon_ok b m -> bl_activated b = true -> (forall i, drives (drive i)) ->
  fine b m (process_inflate fuel drive irq b m).
Proof.
  intros Hb Ha Hd. unfold process_inflate. rewrite Ha. cbn [lift]. rewrite bind_Done.
  destruct (balloon_ok_queue_at b m INFLATE_INDEX Hb Ha) as (q & -> & Hq); [pose proof (queues_two b m Hb); unfold INFLATE_INDEX; lia|].
  cbn [unwrap lift]. rewrite bind_Done. set (s := mkInflating q _ _ _ _). assert (Hs : inf_ok s m) by (destruct Hb; split; cbn; try done; lia).
  destruct (inflate_loop_safe fuel drive (restored b) s m Hd Hs) as [Hn Ho]. destruct (inflate_loop fuel drive (restored b) s m) as [[[r s1] m1]| |]; [|done|done].
  destruct (Ho _ _ _ eq_refl) as [[Hq1 Hl1 Hw1 _ _] Hk]. rewrite bind_Done.
  assert (Hb1 : balloon_ok (with_buffer (with_queue b INFLATE_INDEX (inf_queue s1)) (inf_buffer s1)) m1) by by apply balloon_ok_buffer, (balloon_ok_queue _ m).
  destruct r as [[]|e]; [|by apply balloon_fine_done]. destruct (needs_interrupt s1); [|by apply balloon_fine_done]. apply balloon_fine_done; [by apply balloon_ok_irq|done..].
Qed.

Lemma process_deflate_fine fuel drive irq b m : balloon_ok b m -> bl_activated b = true -> drives drive -> fine b m (process_deflate_queue fuel drive irq b m).
Proof.
  intros Hb Ha Hd. unfold process_deflate_queue. rewrite Ha. cbn [lift]. rewrite bind_Done.
  destruct (balloon_ok_queue_at b m DEFLATE_INDEX Hb Ha (queues_two b m Hb)) as (q & -> & Hq).
  cbn [unwrap lift]. rewrite bind_Done. destruct (deflate_loop_safe fuel drive false q m Hd Hq) as [Hn Ho].
  destruct (deflate_loop fuel drive false q m) as [[[r q1] m1]| |]; [|done|done]. destruct (Ho _ _ _ eq_refl) as [Hq1 Hk]. rewrite bind_Done.
  assert (Hb1 : balloon_ok (with_queue b DEFLATE_INDEX q1) m1) by by apply (balloon_ok_queue _ m).
  destruct r as [[]|e]; apply balloon_fine_done; try done. by apply balloon_ok_irq.
Qed.

Lemma stats_loop_fine fuel drive b m : balloon_ok b m -> bl_activated b = true -> stats_enabled b = true -> drives drive -> fine b m (stats_loop fuel drive b m).
Proof.
  revert drive b m. induction fuel as [|fuel IH]; intros drive b m Hb Ha Hst Hd; cbn [stats_loop]; [done|].
  pose proof (Hd O m) as Hk0. set (m0 := drive O m) in *. destruct (balloon_ok_queue_at b m STATS_INDEX Hb Ha (queues_three b m Hb Hst)) as (q & -> & Hq).
  cbn [unwrap lift]. rewrite bind_Done. apply (keeps_queue _ _ _ Hk0) in Hq.
  destruct (pop_take q m0 Hq) as (o & q1 & -> & Hq1 & _ & Ho). cbn [lift]. rewrite bind_Done. destruct o as [head|].
  2: { apply balloon_fine_done; [|done..]. by apply (balloon_ok_queue _ m). }
  destruct Ho as (_ & _ & _ & Hi & _).
  assert (Ha1 : exists r q2 m2, (match stats_desc_index b with Some i => add_used q1 m0 i 0 | None => Ret (Ok tt, q1, m0) end) = Ret (r, q2, m2) /\ queue_ok q2 m2 /\ keeps m0 m2).
  { destruct (stats_desc_index b) as [i|] eqn:Ei; [|by do 3 eexists; split; [done|]].
    destruct (add_used_any q1 m0 i Hq1 (bo_stats _ _ Hb i Ei)) as (r & q2 & m2 & -> & ? & ? & _). by do 3 eexists. }
  destruct Ha1 as (r & q2 & m2 & -> & Hq2 & Hk2). cbn [lift]. rewrite bind_Done. pose proof (keeps_trans _ _ _ Hk0 Hk2) as Hk.
  assert (Hb2 : balloon_ok (with_queue b STATS_INDEX q2) m2) by by apply (balloon_ok_queue _ m).
  destruct r as [[]|e]; [|by apply balloon_fine_done]. destruct (read_stats _ _ _ _ _) as [[[]|e] st].
  - destruct (IH (fun i => drive (S i)) (with_stats (with_queue b STATS_INDEX q2) (Some (dc_index head)) st) m2) as [Hn Hf]; [|done|done|by intros i; apply Hd|].
    + apply balloon_ok_stats; [|done]. intros j [= <-]. lia.
    + split; [done|]. intros e b' m' E. destruct (Hf _ _ _ E) as (? & ? & ?). split; [done|]. split; [by apply (keeps_trans _ m2)|done].
  - apply balloon_fine_done; [|done..]. apply balloon_ok_stats; [apply (bo_stats _ _ Hb)|done].
Qed.

Lemma trigger_stats_fine irq b m : balloon_ok b m -> bl_activated b = true -> stats_enabled b = true ->
  exists e b' m', trigger_stats_update irq b m = Ret (e, b', m') /\ balloon_ok b' m' /\ keeps m m' /\ event_fds b' = event_fds b /\ bl_stats_timer b' = bl_stats_timer b.
Proof.
  intros Hb Ha Hst. unfold trigger_stats_update. rewrite Ha, bind_Ret. destruct (stats_desc_index b) as [i|] eqn:Ei; [|by do 3 eexists].
  cbn [bl_queues with_stats]. destruct (balloon_ok_queue_at b m STATS_INDEX Hb Ha (queues_three b m Hb Hst)) as (q & -> & Hq). cbn [unwrap]. rewrite bind_Ret.
  destruct (add_used_any q m i Hq (bo_stats _ _ Hb i Ei)) as (r & q2 & m2 & -> & Hq2 & Hk & _). rewrite bind_Ret.
  assert (Hb2 : balloon_ok (with_queue (with_stats b None (latest_stats b)) STATS_INDEX q2) m2) by (apply (balloon_ok_queue _ m); try done; by apply balloon_ok_stats).
  destruct r as [[]|e]; do 3 eexists; (split; [done|]); [|done]. split; [by apply balloon_ok_irq|]. done.
Qed.

(** ** Runs *)

(** What happens to a device: an event, or a request of the VMM or of the transport. *)
Inductive BalloonOp :=
| BlnEvent (source : Z) (evset : bool * bool) (i : BalloonInput (M := M))
| BlnResize (amount : Z) (irq_ok : bool)
| BlnPolling (interval : Z) (irq_ok : bool)
| BlnLatest
| BlnKick (fuel : nat) (drive : nat -> nat -> M -> M) (drive1 : nat -> M -> M) (irq_ok : bool)
| BlnWriteConfig (offset : Z) (data : list Z).

Definition balloon_do (op : BalloonOp) b m : outcome (Balloon * M) :=
  match op with
  | BlnEvent source evset i => r ← balloon_process_event source evset i b m; Done (r.1.1, r.1.2)
  | BlnResize amount irq_ok => Done ((update_size (M := M) b amount irq_ok).2, m)
  | BlnPolling interval irq_ok => r ← lift (update_stats_polling_interval b interval irq_ok m); Done (r.1.2, r.2)
  | BlnLatest => Done ((get_latest_stats b).2, m)
  | BlnKick fuel drive drive1 irq_ok => process_virtio_queues fuel drive drive1 irq_ok b m
  | BlnWriteConfig offset data => b ← lift (balloon_write_config b offset data); Done (b, m)
  end.

Fixpoint balloon_run (ops : list BalloonOp) b m : outcome (Balloon * M) :=
  match ops with
  | [] => Done (b, m)
  | op :: ops => r ← balloon_do op b m; balloon_run ops r.1 r.2
  end.

(** The descriptors the event manager reports: those the device has registered. *)
Definition registered b (source : Z) : Prop :=
  source = bl_activate_evt b \/ exists ops, balloon_runtime_events b = Ret ops /\ OpAdd source (true, false) ∈ ops.

Definition admissible b (op : BalloonOp) : Prop :=
  match op with
  | BlnEvent source _ i => registered b source /\ (forall j, drives (bli_drive i j)) /\ drives (bli_drive1 i)
  | BlnKick _ drive drive1 _ => (forall j, drives (drive j)) /\ drives drive1
  | BlnPolling interval _ => 0 <= interval
  | BlnWriteConfig offset data => 0 <= offset /\ offset + Z.of_nat (length data) < 2 ^ 64
  | _ => True
  end.

Lemma events_three b m : balloon_ok b m -> exists e0 e1 e2, bl_queue_evts b = [e0; e1; e2].
Proof. intros []. destruct (bl_queue_evts b) as [|e0 [|e1 [|e2 [|e3 l]]]]; try done. by do 3 eexists. Qed.

Lemma registered_fds b b' source : event_fds b' = event_fds b -> registered b source -> registered b' source.
Proof. unfold event_fds, registered, balloon_runtime_events, event_fd. intros [= E1 E2 E3 E4 E5]. by rewrite E1, E2, E3, E4. Qed.

Lemma admissible_fds b b' op : event_fds b' = event_fds b -> admissible b op -> admissible b' op.
Proof. intros E. destruct op; try done. intros [Hr Hd]. split; [by apply (registered_fds b)|done]. Qed.

(** Without statistics, neither their queue nor their timer is registered. *)
Lemma registered_stats b m source : balloon_ok b m -> registered b source -> stats_enabled b = false ->
  source <> (bl_stats_timer b).1 /\ bl_queue_evts b !! STATS_INDEX <> Some source.
Proof.
  intros Hb Hr Hst. destruct (events_three b m Hb) as (e0 & e1 & e2 & Ee). pose proof (bo_fds _ _ Hb) as Hnd. rewrite Ee in *.
  unfold registered, balloon_runtime_events, event_fd in Hr. rewrite Ee, Hst in Hr. cbn in Hr. cbn.
  apply NoDup_cons in Hnd as [N1 Hnd]. apply NoDup_cons in Hnd as [N2 Hnd]. apply NoDup_cons in Hnd as [N3 Hnd]. apply NoDup_cons in Hnd as [N4 _].
  assert (source = bl_activate_evt b \/ source = e0 \/ source = e1) as Hs.
  { destruct Hr as [?|(ops & [= <-] & Hin)]; [by left|]. set_solver. }
  split; [intros ->|intros [= ->]]; destruct Hs as [Hs|[Hs|Hs]]; set_solver.
Qed.

Lemma fine_handled b m r : fine b m r -> forall (k := (x ← r; let '(_, b, m) := x in Done (b, m, [] : list EventOp))),
  k <> Crash /\ forall b' m' ops, k = Done (b', m', ops) -> balloon_ok b' m' /\ keeps m m' /\ event_fds b' = event_fds b.
Proof.
  intros [Hn Hf] k. subst k. destruct r as [[[e b1] m1]| |]; [|done|done]. rewrite bind_Done. split; [done|]. intros b' m' ops [= <- <- <-]. by apply (Hf e).
Qed.

Lemma after_read_fine b m ok r : balloon_ok b m -> fine b m r -> fine b m (after_read ok b m r).
Proof. intros Hb Hr. destruct ok; [done|]. by apply balloon_fine_done. Qed.

Lemma balloon_event_ok source evset i b m : balloon_ok b m -> bl_activated b = true -> admissible b (BlnEvent source evset i) ->
  balloon_process_event source evset i b m <> Crash /\
  forall b' m' ops, balloon_process_event source evset i b m = Done (b', m', ops) -> balloon_ok b' m' /\ keeps m m' /\ event_fds b' = event_fds b.
Proof.
  intros Hb Ha (Hr & Hd & Hd1). unfold balloon_process_event. destruct evset.2; [split; [done|]; by intros ? ? ? [= <- <- <-]|]. rewrite Ha.
  destruct (events_three b m Hb) as (e0 & e1 & e2 & Ee). unfold event_fd. rewrite Ee. cbn [lookup list_lookup INFLATE_INDEX DEFLATE_INDEX STATS_INDEX unwrap lift]. rewrite !bind_Done.
  assert (Hstats : source = e2 \/ source = (bl_stats_timer b).1 -> stats_enabled b = true).
  { intros Hs. destruct (stats_enabled b) eqn:Est; [done|]. destruct (registered_stats b m source Hb Hr Est) as [? Hn]. rewrite Ee in Hn. cbn in Hn. naive_solver. }
  destruct (source =? e0); [by apply fine_handled, after_read_fine, process_inflate_fine|].
  destruct (source =? e1); [by apply fine_handled, after_read_fine, process_deflate_fine|].
  destruct (Z.eqb_spec source e2).
  { apply fine_handled, after_read_fine; [done|]. unfold process_stats_queue. rewrite Ha. cbn [lift]. rewrite bind_Done. apply stats_loop_fine; auto. }
  destruct (Z.eqb_spec source (bl_stats_timer b).1).
  { apply fine_handled. unfold process_stats_timer_event. destruct (trigger_stats_fine (bli_irq_ok i) b m Hb Ha) as (er & b' & m' & -> & ? & ? & ? & _); [auto|]. by apply balloon_fine_done. }
  destruct (_ =? source); [|split; [done|]; by intros ? ? ? [= <- <- <-]].
  unfold balloon_process_activate_event, balloon_runtime_events, event_fd. rewrite Ee. cbn [lookup list_lookup INFLATE_INDEX DEFLATE_INDEX STATS_INDEX unwrap].
  destruct (stats_enabled b); rewrite !bind_Ret; cbn [lift]; rewrite bind_Done; (split; [done|]; by intros ? ? ? [= <- <- <-]).
Qed.

Lemma update_polling_ok interval irq b m : balloon_ok b m -> bl_activated b = true -> 0 <= interval ->
  exists e b' m', update_stats_polling_interval b interval irq m = Ret (e, b', m') /\ balloon_ok b' m' /\ keeps m m' /\ event_fds b' = event_fds b.
Proof.
  intros Hb Ha Hi. unfold update_stats_polling_interval. destruct (_ =? interval); [by do 3 eexists|].
  destruct (Z.eqb_spec (stats_polling_interval_s b) 0); [by do 3 eexists|]. destruct (Z.eqb_spec interval 0); [by do 3 eexists|]. cbn [orb].
  assert (Hst : stats_enabled b = true) by (unfold stats_enabled; pose proof (bo_interval _ _ Hb); lia).
  destruct (trigger_stats_fine irq b m Hb Ha Hst) as (e & b' & m' & -> & Hb' & Hk & Hf & _). rewrite bind_Ret.
  destruct e as [[]|e]; [|by do 3 eexists]. do 3 eexists. split; [done|].
  assert (E : stats_enabled (update_timer_state (with_polling b' interval (bl_stats_timer b').2)) = stats_enabled b').
  { unfold event_fds in Hf. injection Hf as _ _ _ -> _. rewrite Hst. unfold stats_enabled. cbn. lia. }
  split; [|split; [done|]].
  - destruct Hb'. split; try done. by rewrite E.
  - unfold event_fds in *. by rewrite E.
Qed.

Lemma balloon_ok_config b m c : balloon_ok b m -> balloon_ok (with_balloon_config b c) m.
Proof. intros []. by split. Qed.

Lemma balloon_do_ok op b m : balloon_ok b m -> bl_activated b = true -> admissible b op ->
  balloon_do op b m <> Crash /\ forall b' m', balloon_do op b m = Done (b', m') -> balloon_ok b' m' /\ keeps m m' /\ event_fds b' = event_fds b.
Proof.
  intros Hb Ha Hop. destruct op as [source evset i|amount irq|interval irq| |fuel drive drive1 irq|offset data]; cbn [balloon_do].
  - destruct (balloon_event_ok source evset i b m Hb Ha Hop) as [Hn Hf]. destruct (balloon_process_event source evset i b m) as [[[b1 m1] ops]| |]; [|done|done].
    rewrite bind_Done. split; [done|]. intros b' m' [= <- <-]. by apply (Hf _ _ ops).
  - split; [done|]. intros b' m' [= <- <-]. unfold update_size. rewrite Ha. destruct (mib_to_pages amount); cbn; [|done].
    split; [|done]. by apply balloon_ok_irq, balloon_ok_config.
  - destruct (update_polling_ok interval irq b m Hb Ha Hop) as (e & b1 & m1 & -> & Hb1). cbn [lift]. rewrite bind_Done. split; [done|]. by intros b' m' [= <- <-].
  - split; [done|]. intros b' m' [= <- <-]. unfold get_latest_stats. destruct (stats_enabled b) eqn:Est; cbn; [|done].
    split; [|done]. apply balloon_ok_stats; [apply (bo_stats _ _ Hb)|done].
  - destruct Hop as [Hd Hd1]. unfold process_virtio_queues. destruct (process_inflate_fine fuel drive irq b m Hb Ha Hd) as [Hn Hf].
    destruct (process_inflate fuel drive irq b m) as [[[e b1] m1]| |]; [|done|done]. rewrite bind_Done. destruct (Hf _ _ _ eq_refl) as (Hb1 & Hk1 & Hf1).
    assert (Ha1 : bl_activated b1 = true) by (unfold event_fds in Hf1; congruence).
    destruct (process_deflate_fine fuel drive1 irq b1 m1 Hb1 Ha1 Hd1) as [Hn2 Hf2].
    destruct (process_deflate_queue fuel drive1 irq b1 m1) as [[[e2 b2] m2]| |]; [|done|done]. rewrite bind_Done. split; [done|]. intros b' m' [= <- <-].
    destruct (Hf2 _ _ _ eq_refl) as (? & ? & ?). split; [done|]. split; [by apply (keeps_trans _ m1)|congruence].
  - unfold balloon_write_config, config_write. rewrite uadd_ok by (unfold in_range; cbn in Hop; lia). rewrite bind_Ret. destruct (_ <? _); rewrite ?bind_Ret.
    { cbn [lift]. rewrite bind_Done. split; [done|]. by intros b' m' [= <- <-]. }
    rewrite (proj2 (Z.ltb_ge _ _)) by (cbn in Hop; lia). rewrite bind_Ret. cbn [lift]. rewrite bind_Done. split; [done|]. intros b' m' [= <- <-].
    split; [|done]. by apply balloon_ok_config.
Qed.

(** C18: An active balloon device in a sound state never panics, whatever a driver puts in the
    queues and does to its memory while they are served: every sequence of events that the
    device registered for and of requests of the VMM keeps it in a sound state (its buffer of
    page numbers full length, its queues usable) and leaves the mapping of guest memory
    alone. *)
Theorem balloon_safe ops b m : balloon_ok b m -> bl_activated b = true -> Forall (admissible b) ops ->
  balloon_run ops b m <> Crash /\
  forall b' m', balloon_run ops b m = Done (b', m') -> balloon_ok b' m' /\ keeps m m' /\ event_fds b' = event_fds b.
Proof.
  revert b m. induction ops as [|op ops IH]; intros b m Hb Ha Hops; cbn [balloon_run]; [split; [done|]; by intros ? ? [= <- <-]|].
  apply Forall_cons in Hops as [Hop Hops]. destruct (balloon_do_ok op b m Hb Ha Hop) as [Hn Hf]. destruct (balloon_do op b m) as [[b1 m1]| |]; [|done|done].
  destruct (Hf _ _ eq_refl) as (Hb1 & Hk1 & Hf1). rewrite bind_Done. cbn [fst snd]. destruct (IH b1 m1) as [Hn1 Hg]; [done| | |].
  - unfold event_fds in Hf1. congruence.
  - eapply Forall_impl; [exact Hops|]. intros op'. by apply admissible_fds.
  - split; [done|]. intros b' m' E. destruct (Hg _ _ E) as (? & ? & ?). split; [done|]. split; [by apply (keeps_trans _ m1)|congruence].
Qed.

(** The interval of a device that is not active cannot be changed: the VMM panics. *)
Lemma polling_inactive_panics b interval irq m : bl_activated b = false -> stats_polling_interval_s b <> interval ->
  stats_polling_interval_s b <> 0 -> interval <> 0 -> update_stats_polling_interval b interval irq m = Panic.
Proof.
  intros Ha H1' H2' H3'. unfold update_stats_polling_interval, trigger_stats_update. rewrite !(proj2 (Z.eqb_neq _ _)) by done. cbn [orb]. by rewrite Ha.
Qed.
End Runs.
