(* ===== verification/BalloonInflate.v ===== *)
(** * Inflating a balloon

    A driver that follows the protocol puts chains with page frame numbers in the inflate queue
    of [Balloon] and waits.  The device hands every chain back and removes every page, and
    nothing else in guest memory changes ([inflate_removes]). *)

From Stdlib Require Import ZArith Lia.
From stdpp Require Import functions prelude sorting.
From S2P Require Import Prelude GuestMemory VirtioQueue QueueRuns Mmio VirtioPersist BalloonPages Balloon BalloonRuns.

Section Inflate.
Context {M : Type} `{GuestPages M} `{Profile}.
Implicit Types (b : Balloon) (m : M) (q : Queue) (s : Inflating).

(** A chain with these page frame numbers, as the protocol wants it. *)
Record inflate_request m (c : DescriptorChain) (pfns : list Z) : Prop := {
  ir_readable : is_write_only c = false;
  ir_len : dc_len c = SIZE_OF_U32 * Z.of_nat (length pfns);
  ir_max : Z.of_nat (length pfns) <= MAX_PAGES_IN_DESC;
  ir_pfns : pfns_at (length pfns) m (dc_addr c) = Some pfns
}.

Lemma pfns_agrees F n m m' a : agrees F m m' -> (forall x, span a (SIZE_OF_U32 * Z.of_nat n) x -> ~ F x) -> pfns_at n m' a = pfns_at n m a.
Proof.
  revert a. induction n as [|n IH]; intros a Hag Hd; cbn [pfns_at]; [done|]. unfold SIZE_OF_U32 in *.
  rewrite (agrees_read_obj F m m') by (done || (intros x Hx; apply Hd; unfold span in *; lia)).
  rewrite IH; [done|done|]. intros x Hx. apply Hd. unfold span in *. lia.
Qed.

Lemma request_agrees F m m' c p : agrees F m m' -> (forall x, span (dc_addr c) (dc_len c) x -> ~ F x) -> inflate_request m c p -> inflate_request m' c p.
Proof. intros Hag Hd [Hr Hl Hm Hp]. split; try done. rewrite (pfns_agrees F _ m) by (done || by rewrite <-Hl). done. Qed.

(** A request that fits in the buffer is taken, one that does not is put back. *)
Lemma inflate_request_step s m c p : inf_ok s m -> 0 <= dc_index c < q_size (inf_queue s) -> chain_ranges c -> inflate_request m c p ->
  if Z.of_nat MAX_PAGE_COMPACT_BUFFER - Z.of_nat (pfn_buffer_idx s) <? Z.of_nat (length p)
  then inflate_chain s c m =
    Ret (ChainNoSpace, mkInflating (undo_pop (inf_queue s)) (inf_buffer s) (pfn_buffer_idx s) (needs_interrupt s) (valid_descs_found s), m)
  else exists s' m', inflate_chain s c m = Ret (ChainTaken, s', m') /\ inf_ok s' m' /\ keeps m m' /\
    inf_queue s' = with_next_used (with_num_added (inf_queue s) (wadd 16 (num_added (inf_queue s)) 1)) (wadd 16 (next_used (inf_queue s)) 1) /\
    take (pfn_buffer_idx s') (inf_buffer s') = take (pfn_buffer_idx s) (inf_buffer s) ++ p /\
    pfn_buffer_idx s' = (pfn_buffer_idx s + length p)%nat /\ needs_interrupt s' = true /\ valid_descs_found s' = valid_descs_found s /\
    agrees (used_area (inf_queue s)) m m' /\ used_entry (inf_queue s) m' (next_used (inf_queue s)) = (Some (dc_index c), Some 0) /\
    forall j, 0 < j < q_size (inf_queue s) -> used_entry (inf_queue s) m' (next_used (inf_queue s) + j) = used_entry (inf_queue s) m (next_used (inf_queue s) + j).
Proof.
  intros Hs Hi [Ha Hlen] [Hr Hl Hm Hp]. unfold inflate_chain. rewrite Hr, Hl. unfold in_range in Ha, Hlen. pose proof Hs as [Hq Hbl Hw Hix Hlow].
  assert (Ediv : SIZE_OF_U32 * Z.of_nat (length p) / SIZE_OF_U32 = Z.of_nat (length p)) by (unfold SIZE_OF_U32; rewrite Z.mul_comm, Z.div_mul; lia).
  assert (Emod : SIZE_OF_U32 * Z.of_nat (length p) mod SIZE_OF_U32 = 0) by (unfold SIZE_OF_U32; rewrite Z.mul_comm; by apply Z.mod_mul).
  rewrite Emod, Ediv. cbn [negb andb Z.eqb]. rewrite (proj2 (Z.ltb_ge (MAX_PAGES_IN_DESC * SIZE_OF_U32) _)) by (unfold SIZE_OF_U32; lia).
  destruct (Z.ltb_spec (Z.of_nat MAX_PAGE_COMPACT_BUFFER - Z.of_nat (pfn_buffer_idx s)) (Z.of_nat (length p))); [done|]. rewrite Nat2Z.id.
  destruct (read_pfns_ok (length p) m (dc_addr c) 0 (inf_buffer s) (pfn_buffer_idx s)) as (r & buf & -> & Hbl' & Hw' & Hr'); try done; try lia.
  rewrite Z.add_0_r, Hp in Hr'. destruct Hr' as (_ & _ & -> & Et). rewrite bind_Ret.
  set (s1 := mkInflating _ buf _ _ _). assert (Hs1 : inf_ok s1 m) by (split; cbn; try done; [congruence|lia]).
  destruct (acknowledge_ok s1 _ m Hs1 Hi) as (s' & m' & -> & Hs' & Hk & Es & Eq & Hag & He & Hj). rewrite bind_Ret. do 2 eexists. split; [done|].
  split; [done|]. split; [done|]. split; [done|]. rewrite Es. cbn. split; [done|]. done.
Qed.

(** What the device may change. *)
Definition touched q (ps : list (list Z)) (x : Z) : Prop := used_area q x \/ pages_of (concat ps) x.

(** The queue holds the chains [cs] with the numbers [ps]; neither the used ring nor the pages
    overlap what the device reads, and the pages are not in the used ring. *)
Record inflate_setup q m (res : bool) (cs : list DescriptorChain) (ps : list (list Z)) : Prop := {
  is_queue : queue_ok q m;
  is_idx : exists idx, read_obj 2 m (avail_ring q + 2) = Some idx /\ wsub 16 idx (next_avail q) = Z.of_nat (length cs);
  is_fits : Z.of_nat (length cs) <= q_size q;
  is_chains : forall i c, cs !! i = Some c -> pending_chain q m (next_avail q + Z.of_nat i) = Some c;
  is_requests : Forall2 (inflate_request m) cs ps;
  is_rings : forall x, touched q ps x -> ~ rings q x;
  is_arrays : forall c x, c ∈ cs -> touched q ps x -> ~ span (dc_addr c) (dc_len c) x;
  is_used : forall x, used_area q x -> ~ pages_of (concat ps) x;
  is_low : low_regions m;
  is_region : in_one_region m (pages_of (concat ps));
  is_anonymous : res = true \/ forall x, pages_of (concat ps) x -> anonymous m x
}.

Section Run.
Context (q0 : Queue) (m0 : M) (res : bool) (cs : list DescriptorChain) (ps : list (list Z)).
Hypothesis Hset : inflate_setup q0 m0 res cs ps.
Hypothesis Hgrants : host_grants (M := M).

(** [k] chains were taken, the pages of the first [j] are removed, those of the others are in
    the buffer. *)
Record progress (j k : nat) s m : Prop := {
  pr_order : (j <= k <= length cs)%nat;
  pr_ok : inf_ok s m;
  pr_queue : inf_queue s = advance q0 k;
  pr_buffer : take (pfn_buffer_idx s) (inf_buffer s) = concat (take (k - j) (drop j ps));
  pr_agrees : agrees (touched q0 ps) m0 m;
  pr_regions : same_regions m0 m;
  pr_given : forall i c, (i < k)%nat -> cs !! i = Some c -> used_entry q0 m (next_used q0 + Z.of_nat i) = (Some (dc_index c), Some 0);
  pr_zero : forall x, pages_of (concat (take j ps)) x -> byte_at m x = Some 0;
  pr_irq : needs_interrupt s = bool_decide (0 < k)%nat
}.

Lemma inflated_queue_ok k m : agrees (touched q0 ps) m0 m -> queue_ok (advance q0 k) m.
Proof.
  intros Hag. apply (queue_ok_mem _ m0); [|apply Hag]. destruct (is_queue _ _ _ _ _ Hset). split; cbn; try done; by apply wadd_range.
Qed.

(** The next chain, if there is one. *)
Lemma pop_next k m : (k <= length cs)%nat -> agrees (touched q0 ps) m0 m ->
  pop (advance q0 k) m =
    match cs !! k with
    | Some c => Ret (Some c, with_next_avail (advance q0 k) (wadd 16 (next_avail (advance q0 k)) 1))
    | None => Ret (None, advance q0 k)
    end.
Proof.
  intros Hk Hag. pose proof (inflated_queue_ok k m Hag) as Hq. pose proof (is_queue _ _ _ _ _ Hset) as Hq0. destruct (is_idx _ _ _ _ _ Hset) as (idx & Ei & En).
  assert (Ei' : read_obj 2 m (avail_ring (advance q0 k) + 2) = Some idx).
  { rewrite <-Ei. apply (agrees_read_obj (touched q0 ps)); [done|]. intros x Hx Ht. apply (is_rings _ _ _ _ _ Hset x Ht). right. destruct Hq0. unfold span in *. cbn in Hx. lia. }
  assert (Hlen : wsub 16 idx (next_avail (advance q0 k)) = Z.of_nat (length cs) - Z.of_nat k).
  { cbn. unfold wsub, wadd in *. rewrite wrap_sub_r. replace (idx - (next_avail q0 + Z.of_nat k)) with (idx - next_avail q0 - Z.of_nat k) by lia.
    rewrite <-wrap_sub_l, En. apply wrap_id. pose proof (is_fits _ _ _ _ _ Hset). destruct Hq0. unfold in_range. lia. }
  destruct (cs !! k) as [c|] eqn:Ec.
  - pose proof (lookup_lt_Some _ _ _ Ec). apply (pop_pending _ _ idx); try done; [lia|].
    rewrite <-(is_chains _ _ _ _ _ Hset k c Ec). transitivity (pending_chain q0 m (wadd 16 (next_avail q0) (Z.of_nat k))); [done|].
    rewrite (pending_agrees (touched q0 ps) q0 m0 m) by (done || apply (is_rings _ _ _ _ _ Hset)). apply (pending_wrap q0 m0); [done|]. unfold wadd. by rewrite wrap_wrap.
  - apply lookup_ge_None in Ec. unfold pop. destruct (Queue_len_ok _ _ Hq) as (i & Ei2 & _ & ->). rewrite Ei' in Ei2. injection Ei2 as <-.
    rewrite Hlen, bind_Ret. by replace (Z.of_nat (length cs) - Z.of_nat k) with 0 by lia.
Qed.

Lemma buffered_length j k s m : progress j k s m -> pfn_buffer_idx s = length (concat (take (k - j) (drop j ps))).
Proof. intros Hp. rewrite <-(pr_buffer _ _ _ _ Hp), length_take. destruct (pr_ok _ _ _ _ Hp). lia. Qed.

(** Entries of the used ring before position [k]. *)
Lemma entry_before q m1 (k i : nat) m : queue_ok q m1 -> (i < k)%nat -> Z.of_nat k <= q_size q ->
  used_entry q m (wadd 16 (next_used q) (Z.of_nat k) + (q_size q - Z.of_nat (k - i))) = used_entry q m (next_used q + Z.of_nat i).
Proof.
  intros Hq Hi Hk. unfold used_entry. assert (E : (wadd 16 (next_used q) (Z.of_nat k) + (q_size q - Z.of_nat (k - i))) mod q_size q = (next_used q + Z.of_nat i) mod q_size q).
  { rewrite <-Z.add_mod_idemp_l by (destruct Hq; lia). unfold wadd. rewrite slot_wrap by (destruct Hq; (lia || (apply pow2_size_divides; [lia|done]))).
    rewrite Z.add_mod_idemp_l by (destruct Hq; lia).
    replace (next_used q + Z.of_nat k + (q_size q - Z.of_nat (k - i))) with (next_used q + Z.of_nat i + 1 * q_size q) by lia. apply Z.mod_add. destruct Hq; lia. }
  by rewrite E.
Qed.

(** The chain [k] is taken, or there is no space left. *)
Lemma take_chain j k s m c p : progress j k s m -> cs !! k = Some c -> ps !! k = Some p ->
  let s1 := mkInflating (with_next_avail (advance q0 k) (wadd 16 (next_avail (advance q0 k)) 1)) (inf_buffer s) (pfn_buffer_idx s) (needs_interrupt s) true in
  (exists s', inflate_chain s1 c m = Ret (ChainNoSpace, s', m) /\ progress j k s' m /\ (j < k)%nat /\ valid_descs_found s' = true) \/
  exists s' m', inflate_chain s1 c m = Ret (ChainTaken, s', m') /\ progress j (S k) s' m' /\ valid_descs_found s' = true.
Proof.
  intros Hp Ec Ep s1. pose proof Hp as [Ho Hok Eq Hbuf Hag Hreg Hgiven Hz Hirq]. pose proof (inflated_queue_ok k m Hag) as Hq. pose proof (lookup_lt_Some _ _ _ Ec) as Hlt.
  destruct (pop_take _ _ Hq) as (o & q' & Epop & Hq' & _ & Hpop). rewrite (pop_next k m) in Epop by (done || lia). rewrite Ec in Epop. injection Epop as <- <-.
  destruct Hpop as (_ & _ & Eundo & Hidx & Hrange).
  assert (Hreq : inflate_request m c p).
  { apply (request_agrees (touched q0 ps) m0); [done| |by apply (Forall2_lookup_lr _ _ _ _ _ _ (is_requests _ _ _ _ _ Hset) Ec Ep)].
    intros x Hx Ht. apply (is_arrays _ _ _ _ _ Hset c x); [by eapply list_elem_of_lookup_2|done|done]. }
  assert (Hs1 : inf_ok s1 m) by (destruct Hok; by split).
  pose proof (inflate_request_step s1 m c p Hs1 Hidx Hrange Hreq) as Hstep. cbn [pfn_buffer_idx s1] in Hstep.
  destruct (Z.ltb_spec (Z.of_nat MAX_PAGE_COMPACT_BUFFER - Z.of_nat (pfn_buffer_idx s)) (Z.of_nat (length p))) as [Hfull|Hfull].
  - left. rewrite Hstep. eexists. split; [done|]. rewrite (Eundo : undo_pop (inf_queue s1) = _). split; [|split; [|done]].
    + split; cbn; try done. destruct Hok. by split.
    + destruct (decide (j = k)) as [->|]; [|lia]. exfalso. rewrite (buffered_length k k s m Hp), Nat.sub_diag, take_0 in Hfull. cbn in Hfull.
      pose proof (ir_max _ _ _ Hreq). unfold MAX_PAGES_IN_DESC, MAX_PAGE_COMPACT_BUFFER in *. lia.
  - right. destruct Hstep as (s' & m' & -> & Hok' & Hk & Eq' & Hbuf' & Hix & Hirq' & Hfound & Hagu & He & Hj). do 2 eexists. split; [done|]. split; [|done].
    assert (Hag' : agrees (touched q0 ps) m m') by (eapply agrees_weaken; [|exact Hagu]; intros x Hx; by left).
    split; [lia|done| | | | | | |].
    + rewrite Eq'. apply advance_next.
    + rewrite Hbuf'. cbn [inf_buffer s1]. rewrite Hbuf. replace (S k - j)%nat with (S (k - j)) by lia.
      rewrite (take_S_r (drop j ps) (k - j) p), concat_app; [cbn; by rewrite app_nil_r|]. rewrite lookup_drop. by replace (j + (k - j))%nat with k by lia.
    + by apply (agrees_trans _ _ m).
    + apply (same_regions_trans _ m); [done|apply Hk].
    + intros i c' Hi Ec'. change (used_entry (inf_queue s1)) with (used_entry q0) in He, Hj. change (next_used (inf_queue s1)) with (wadd 16 (next_used q0) (Z.of_nat k)) in He, Hj.
      pose proof (is_queue _ _ _ _ _ Hset) as Hq0. pose proof (is_fits _ _ _ _ _ Hset).
      destruct (decide (i = k)) as [->|].
      * rewrite Ec in Ec'. injection Ec' as <-. rewrite <-He. apply (entry_wrap q0 m0); [done|]. unfold wadd. by rewrite wrap_wrap.
      * specialize (Hj (q_size q0 - Z.of_nat (k - i)) ltac:(cbn; lia)).
        rewrite !(entry_before q0 m0 k i) in Hj by (done || lia). rewrite Hj. apply Hgiven; [lia|done].
    + intros x Hx. rewrite (proj1 Hagu); [by apply Hz|]. intros Hu. apply (is_used _ _ _ _ _ Hset x Hu). unfold pages_of in *.
      rewrite <-(take_drop j ps), concat_app. apply elem_of_app. by left.
    + rewrite Hirq'. by rewrite bool_decide_eq_true_2 by lia.
Qed.

Abbreviation undriven := (fun _ m => m).

Lemma gather_progress fuel j k s m : progress j k s m -> (length cs - k < fuel)%nat ->
  exists k' s' m', gather fuel undriven s m = Done (Ok tt, s', m') /\ progress j k' s' m' /\ (k <= k')%nat /\
    ((k < length cs)%nat -> (j < k')%nat /\ valid_descs_found s' = true) /\ (k = length cs -> valid_descs_found s' = valid_descs_found s).
Proof.
  revert k s m. induction fuel as [|fuel IH]; intros k s m Hp Hf; [lia|]. cbn [gather]. pose proof (pr_order _ _ _ _ Hp) as Ho.
  rewrite (pr_queue _ _ _ _ Hp), (pop_next k m) by (lia || apply (pr_agrees _ _ _ _ Hp)). destruct (cs !! k) as [c|] eqn:Ec.
  2: { apply lookup_ge_None in Ec. cbn [lift]. rewrite bind_Done. exists k. do 2 eexists. split; [done|]. split; [|split; [done|split; [lia|done]]].
    destruct Hp as [? [] ? ? ? ? ? ? ?]. split; try done. split; try done. cbn. by rewrite <-(pr_queue0). }
  cbn [lift]. rewrite bind_Done. destruct (Forall2_lookup_l _ _ _ _ _ (is_requests _ _ _ _ _ Hset) Ec) as (p & Ep & _).
  pose proof (lookup_lt_Some _ _ _ Ec) as Hlt.
  destruct (take_chain j k s m c p Hp Ec Ep) as [(s' & -> & Hp' & Hj & Hv)|(s' & m' & -> & Hp' & Hv)]; cbn [lift]; rewrite bind_Done.
  - exists k. do 2 eexists. split; [done|]. split; [done|]. split; [done|]. split; [done|lia].
  - destruct (IH (S k) s' m' Hp' ltac:(lia)) as (k' & s2 & m2 & -> & Hp2 & Hk2 & Hv2 & Hv3). exists k'. do 2 eexists. split; [done|]. split; [done|]. split; [lia|].
    split; [|lia]. intros _. destruct (decide (S k = length cs)) as [E|]; [rewrite (Hv3 E); split; [lia|done]|]. apply Hv2. lia.
Qed.

Lemma flush_progress j k s m : progress j k s m -> exists s' m', flush_pages s res m = Ret (s', m') /\ progress k k s' m' /\ valid_descs_found s' = valid_descs_found s.
Proof.
  intros [Ho Hok Eq Hbuf Hag Hreg Hgiven Hz Hirq]. destruct (flush_pages_ok s res m Hok) as (s' & m' & -> & Hok' & Hk & E0 & Eq' & Ei & Ev & Hagp & Hzero).
  rewrite Hbuf in Hagp, Hzero. set (v := concat (take (k - j) (drop j ps))) in *.
  assert (Hsub : forall x, pages_of v x -> pages_of (concat ps) x).
  { intros x. unfold pages_of, v. rewrite <-(take_drop j ps) at 2. rewrite <-(take_drop (k - j) (drop j ps)) at 2. rewrite !concat_app, !elem_of_app. tauto. }
  assert (Hag' : agrees (touched q0 ps) m m') by (eapply agrees_weaken; [|exact Hagp]; intros x Hx; right; by apply Hsub).
  do 2 eexists. split; [done|]. split; [|done]. split; [lia|done|congruence| | | | | |congruence].
  - by rewrite E0, Nat.sub_diag, !take_0.
  - by apply (agrees_trans _ _ m).
  - apply (same_regions_trans _ m); [done|apply Hk].
  - intros i c Hi Ec. rewrite <-(Hgiven i c Hi Ec). apply (entry_agrees (pages_of v) q0 m); [by apply (queue_ok_mem _ m0); [apply (is_queue _ _ _ _ _ Hset)|apply Hag]|done|].
    intros x Hx Hu. by apply (is_used _ _ _ _ _ Hset x Hu), Hsub.
  - intros x Hx. destruct (decide (x / PAGE_SIZE_4K ∈ v)) as [Hv|Hv].
    + apply Hzero; [done| | |done].
      * destruct (is_region _ _ _ _ _ Hset) as (start & len & Hr). exists start, len. intros y Hy. rewrite (proj1 Hreg). by apply Hr, Hsub.
      * destruct (is_anonymous _ _ _ _ _ Hset) as [?|Ha]; [by left|right]. intros y Hy. by apply (proj2 Hreg), Ha, Hsub.
    + rewrite (proj1 Hagp) by done. apply Hz. unfold pages_of in *. replace k with (j + (k - j))%nat in Hx by lia.
      rewrite <-take_take_drop, concat_app, elem_of_app in Hx. by destruct Hx.
Qed.

Lemma inflate_progress fuel k s m : progress k k s m -> (length cs - k < fuel)%nat ->
  exists s' m', inflate_loop fuel (fun _ => undriven) res s m = Done (Ok tt, s', m') /\ progress (length cs) (length cs) s' m'.
Proof.
  revert k s m. induction fuel as [|fuel IH]; intros k s m Hp Hf; [lia|]. cbn [inflate_loop]. set (s0 := mkInflating _ _ _ _ false).
  assert (Hp0 : progress k k s0 m) by (destruct Hp as [? [] ? ? ? ? ? ? ?]; by split).
  destruct (gather_progress (S fuel) k k s0 m Hp0 Hf) as (k1 & s1 & m1 & -> & Hp1 & Hk & Hv & Hv'). rewrite bind_Done.
  destruct (flush_progress k k1 s1 m1 Hp1) as (s2 & m2 & -> & Hp2 & Ev). cbn [lift]. rewrite bind_Done. cbn iota. rewrite Ev.
  pose proof (pr_order _ _ _ _ Hp) as Ho. pose proof (pr_order _ _ _ _ Hp1) as Ho1. destruct (decide (k = length cs)) as [E|Hne].
  - rewrite (Hv' E). do 2 eexists. split; [done|]. by replace (length cs) with k1 by lia.
  - destruct (Hv ltac:(lia)) as [Hj ->]. apply (IH k1); [done|lia].
Qed.
End Run.

(** C17: A driver that follows the protocol puts [length cs] chains with page frame numbers
    into the inflate queue and waits: the device returns without an error, every chain is
    given back once, in order, with length 0, the driver is interrupted, every page whose
    number was given reads as zeroes, and no other byte outside the used ring changes. *)
Theorem inflate_removes fuel b m q cs ps : bl_activated b = true -> bl_queues b !! INFLATE_INDEX = Some q ->
  length (pfn_buffer b) = MAX_PAGE_COMPACT_BUFFER -> Forall (in_range 32) (pfn_buffer b) ->
  inflate_setup q m (restored b) cs ps -> host_grants (M := M) -> cs <> [] -> (length cs < fuel)%nat ->
  exists b' m', process_inflate fuel (fun _ _ m => m) true b m = Done (Ok tt, b', m') /\
    bl_queues b' !! INFLATE_INDEX = Some (advance q (length cs)) /\ bl_irq_status b' = trigger_irq (bl_irq_status b) Vring /\
    (forall i c, cs !! i = Some c -> used_entry q m' (next_used q + Z.of_nat i) = (Some (dc_index c), Some 0)) /\
    (forall x, pages_of (concat ps) x -> byte_at m' x = Some 0) /\
    (forall x, ~ used_area q x -> ~ pages_of (concat ps) x -> byte_at m' x = byte_at m x).
Proof.
  intros Ha Eq Hl Hw Hset Hg Hne Hf. unfold process_inflate. rewrite Ha, Eq. cbn [lift unwrap]. rewrite !bind_Done. set (s := mkInflating q _ _ _ _).
  assert (Hp : progress q m cs ps 0 0 s m).
  { pose proof (is_queue _ _ _ _ _ Hset). split; [lia| |by rewrite (advance_0 q m)|done|by apply agrees_refl|done|lia| |done].
    - split; cbn; try done; [lia|apply (is_low _ _ _ _ _ Hset)].
    - intros x Hx. unfold pages_of in Hx. by apply not_elem_of_nil in Hx. }
  destruct (inflate_progress q m (restored b) cs ps Hset Hg fuel 0 s m Hp ltac:(lia)) as (s' & m' & -> & Hp'). rewrite bind_Done.
  destruct Hp' as [_ _ Eq' _ Hag _ Hgiven Hz Hirq]. rewrite Hirq, bool_decide_eq_true_2 by (destruct cs; cbn; [done|lia]).
  do 2 eexists. split; [done|]. cbn. split; [rewrite list_lookup_insert_eq by (by eapply lookup_lt_Some); by rewrite Eq'|]. split; [done|]. split; [|split].
  - intros i c Ec. apply Hgiven; [by eapply lookup_lt_Some|done].
  - intros x Hx. apply Hz. by rewrite (Forall2_length _ _ _ (is_requests _ _ _ _ _ Hset)), firstn_all.
  - intros x Hu Hx. apply (proj1 Hag). by intros [?|?].
Qed.
End Inflate.

(** ** Samples *)

Module BalloonSamples.
(** Flat memory without a file behind it: removing pages writes zeroes. *)
Definition zeroed (m : list Z) (a n : Z) : list Z := (write_bytes m a (replicate (Z.to_nat n) 0)).2.

Lemma zeroed_agrees m a n : page_range m a n -> agrees (span a n) m (zeroed m a n).
Proof.
  intros _. assert (Hok : bytes_ok (replicate (Z.to_nat n) 0)) by (apply Forall_replicate; unfold byte_ok; lia).
  pose proof (agrees_write m a _ Hok) as Ha. rewrite length_replicate in Ha. eapply agrees_weaken; [|exact Ha]. intros x. unfold span. lia.
Qed.

Lemma zeroed_region m a n x : region_of (zeroed m a n) x = region_of m x.
Proof. unfold zeroed. cbn. unfold flat_size. by rewrite length_flat_write. Qed.

#[export] Instance flat_pages : GuestPages (list Z).
Proof.
  refine {| HostAddress := Z; get_host_address m a := match region_of m a with Some _ => Some a | None => None end; mmap_anonymous m h n := (Ok tt, zeroed m h n);
    madvise_dontneed m h n := (Ok tt, zeroed m h n); anonymous _ _ := True |}; cbn [fst snd].
  - intros m a l x. cbn. unfold flat_size. by rewrite length_flat_write.
  - done.
  - intros m a start len ->. by eexists.
  - intros m a n h Hp Eh. destruct (region_of m a); [|done]. injection Eh as <-. by apply zeroed_agrees.
  - intros m h n x. apply zeroed_region.
  - intros m h n x. by rewrite zeroed_region.
  - done.
  - done.
  - intros m a n h Hp Eh. destruct (region_of m a); [|done]. injection Eh as <-. by apply zeroed_agrees.
  - intros m h n x. apply zeroed_region.
  - done.
  - intros m a n h x (_ & _ & start & len & Er & Hn) Eh _ Hx _. rewrite Er in Eh. injection Eh as <-.
    assert (Hok : bytes_ok (replicate (Z.to_nat n) 0)) by (apply Forall_replicate; unfold byte_ok; lia). unfold zeroed, span in *.
    apply region_of_spec in Er as [Hs Hb].
    rewrite write_byte_at; [|done|apply write_succeeds; [done|]; intros i Hi; rewrite length_replicate in Hi; apply Hb; lia].
    rewrite length_replicate, (proj2 (Z.leb_le _ _)), (proj2 (Z.ltb_lt _ _)) by lia. cbn [andb]. apply lookup_replicate_2. lia.
Defined.

(** Two chains, with the pages 2 and 1. *)
Definition poke_flat_bytes (a : Z) (l : list Z) (m : list Z) : list Z := (write_bytes m a l).2.
Definition sample_bytes : list Z :=
  poke_flat_bytes 0 (le_encode 8 256 ++ le_encode 4 4 ++ le_encode 2 0 ++ le_encode 2 0 ++ le_encode 8 260 ++ le_encode 4 4)
    (poke_flat_bytes 64 [0; 0; 2; 0; 0; 0; 1; 0] (poke_flat_bytes 256 [2; 0; 0; 0; 1; 0; 0; 0] (replicate 4096 0 ++ replicate 8192 7))).
Definition sample_inflate_queue : Queue := mkQueue 256 4 true 0 64 128 0 0 false 0.
Definition sample_chains : list DescriptorChain := [mkDescriptorChain 0 4 4 0 256 4 0 0; mkDescriptorChain 0 4 4 1 260 4 0 0].
Definition sample_balloon : Balloon :=
  mkBalloon 0 0 (mkConfigSpace 256 0) 1 [sample_inflate_queue; mkQueue 256 4 true 512 576 640 0 0 false 0] [2; 3; 4] true 0 false 0 (5, None) None
    BalloonStats_default (replicate MAX_PAGE_COMPACT_BUFFER 0).

Lemma sample_size : flat_size sample_bytes = 12288.
Proof. by vm_compute. Qed.

Lemma sample_backed a n : 0 <= a -> a + n <= 12288 -> backed sample_bytes a n.
Proof. intros ? ? x ?. apply flat_backed. rewrite sample_size. lia. Qed.

Lemma sample_flat_queue d a u : 0 <= d -> 0 <= a -> 0 <= u -> d + 64 <= 12288 -> a + 14 <= 12288 -> u + 38 <= 12288 ->
  queue_ok (mkQueue 256 4 true d a u 0 0 false 0) sample_bytes.
Proof. intros. split; cbn; try lia; try (unfold in_range; lia); try done; apply sample_backed; lia. Qed.

Lemma sample_pages x : pages_of (concat [[2]; [1]]) x -> 4096 <= x < 12288.
Proof.
  unfold pages_of, PAGE_SIZE_4K. cbn [concat app]. rewrite !elem_of_cons, elem_of_nil. pose proof (Z.div_mod x 4096 ltac:(lia)). pose proof (Z.mod_pos_bound x 4096 ltac:(lia)).
  intros [?|[?|[]]]; lia.
Qed.

Lemma sample_low : low_regions sample_bytes.
Proof. intros a start len. cbn. rewrite sample_size. destruct (_ && _); [|done]. intros [= <- <-]. lia. Qed.

Lemma sample_touched x : touched sample_inflate_queue [[2]; [1]] x -> 128 <= x < 166 \/ 4096 <= x < 12288.
Proof. intros [Hx|Hx]; [left; unfold used_area, span in Hx; cbn in Hx; lia|right; by apply sample_pages]. Qed.

Lemma sample_setup : inflate_setup sample_inflate_queue sample_bytes false sample_chains [[2]; [1]].
Proof.
  split.
  - by apply sample_flat_queue.
  - exists 2. by vm_compute.
  - done.
  - intros [|[|i]] c [= <-]; by vm_compute.
  - repeat constructor; by vm_compute.
  - intros x Hx%sample_touched. unfold rings, span. cbn. lia.
  - intros c x Hc Hx%sample_touched. unfold span. apply elem_of_cons in Hc as [-> |Hc]; [cbn; lia|]. apply list_elem_of_singleton in Hc as ->. cbn. lia.
  - intros x Hu Hx%sample_pages. unfold used_area, span in Hu. cbn in Hu. lia.
  - apply sample_low.
  - exists 0, 12288. intros x Hx%sample_pages. cbn. rewrite sample_size, (proj2 (Z.leb_le _ _)), (proj2 (Z.ltb_lt _ _)) by lia. done.
  - by right.
Qed.

(** Pages 1 and 2 read as zeroes after the device was notified. *)
Lemma inflate_removes_witness : exists b' m', @process_inflate (list Z) _ _ _ dev_profile 3 (fun _ _ m => m) true sample_balloon sample_bytes = Done (Ok tt, b', m') /\
  used_entry sample_inflate_queue m' 1 = (Some 1, Some 0) /\ byte_at sample_bytes 5000 = Some 7 /\ byte_at m' 5000 = Some 0.
Proof.
  destruct (@inflate_removes (list Z) _ _ _ dev_profile 3 sample_balloon sample_bytes sample_inflate_queue sample_chains [[2]; [1]]) as (b' & m' & E & _ & _ & Hu & Hz & _).
  1-3: done. { apply Forall_replicate. unfold in_range. lia. } { apply sample_setup. } { done. } { done. } { cbn; lia. }
  exists b', m'. split; [exact E|]. split; [exact (Hu 1%nat _ eq_refl)|]. split; [by vm_compute|]. apply Hz. vm_compute. right. left.
Defined.

Lemma sample_balloon_ok : balloon_ok sample_balloon sample_bytes.
Proof.
  split; try done.
  - apply Forall_replicate. unfold in_range. lia.
  - intros _. repeat constructor; by apply sample_flat_queue.
  - by apply (bool_decide_unpack _); vm_compute.
  - apply sample_low.
Qed.

(** A notification, a new size and an event of the deflate queue. *)
Definition sample_ops : list (BalloonOp (M := list Z)) :=
  let i := mkBalloonInput 4 (fun _ _ m => m) (fun _ m => m) true true in
  [BlnEvent 2 (true, false) i; BlnResize 2 true; BlnEvent 3 (true, false) i].

Lemma balloon_safe_witness : exists b' m', @balloon_run (list Z) _ _ _ dev_profile sample_ops sample_balloon sample_bytes = Done (b', m') /\
  balloon_ok b' m' /\ num_pages (bl_config_space b') = 512 /\ bl_irq_status b' = 3.
Proof.
  destruct (@balloon_safe (list Z) _ _ _ dev_profile sample_ops sample_balloon sample_bytes) as [Hn Hf].
  - exact sample_balloon_ok.
  - done.
  - assert (Hr : forall fd, fd = 2 \/ fd = 3 -> registered sample_balloon fd).
    { intros fd Hfd. right. exists [OpAdd 2 (true, false); OpAdd 3 (true, false)]. split; [done|]. destruct Hfd as [-> | ->]; set_solver. }
    apply Forall_cons; split; [split; [by apply Hr; left|by split]|]. apply Forall_cons; split; [done|].
    apply Forall_cons; split; [split; [by apply Hr; right|by split]|]. by apply Forall_nil.
  - assert (Ev : match @balloon_run (list Z) _ _ _ dev_profile sample_ops sample_balloon sample_bytes with
      | Done (b', _) => (num_pages (bl_config_space b') =? 512) && (bl_irq_status b' =? 3) | _ => false end = true) by by vm_compute.
    destruct (@balloon_run (list Z) _ _ _ dev_profile sample_ops sample_balloon sample_bytes) as [[b' m']| |]; [|done|done].
    exists b', m'. split; [done|]. split; [by apply Hf|]. lia.
Defined.
End BalloonSamples.
