(* ===== verification/BalloonPersist.v ===== *)
(** * Snapshots of the balloon device

    Models [devices/src/virtio/balloon/persist.rs], and the balloon as a device of the
    transport ([Mmio.VirtioDevice]).  A restored device is marked as such: the guest's memory
    is then mapped from a file, and pages are removed by mapping anonymous memory over
    them. *)

From Stdlib Require Import ZArith Lia.
From stdpp Require Import functions prelude.
From S2P Require Import Prelude GuestMemory VirtioQueue QueueRuns Mmio VirtioPersist VsockPersist BalloonPages Balloon.

(** The transport calls [write_config] with offsets below 2^12, for which it returns. *)
#[refine] Instance balloon_virtio {M : Type} `{Profile} (evt_ok : bool) : VirtioDevice Balloon M := {|
  avail_features := bl_avail_features;
  acked_features := bl_acked_features;
  set_acked_features b v := with_balloon_features b (bl_avail_features b) v;
  device_type _ := TYPE_BALLOON;
  queues := bl_queues;
  set_queues := with_balloon_queues;
  is_activated := bl_activated;
  activate b _ := balloon_activate evt_ok b;
  dev_reset b := (None, b);
  read_config := balloon_read_config;
  write_config b o l := match balloon_write_config b o l with Ret b => b | Panic => b end
|}.
Proof.
  all: try by intros.
  1-4: intros b o l; unfold balloon_write_config; destruct (config_write _ o l) as [[c|]|]; [by rewrite bind_Ret|by rewrite bind_Ret|done].
  1-2: intros b m; unfold balloon_activate; destruct evt_ok; cbn; [by destruct (stats_enabled _)|done].
Defined.

Record BalloonStatsState := mkStatsState {
  ss_swap_in : option Z;
  ss_swap_out : option Z;
  ss_major_faults : option Z;
  ss_minor_faults : option Z;
  ss_free_memory : option Z;
  ss_total_memory : option Z;
  ss_available_memory : option Z;
  ss_disk_caches : option Z;
  ss_hugetlb_allocations : option Z;
  ss_hugetlb_failures : option Z
}.

Definition from_stats (s : BalloonStats) : BalloonStatsState :=
  mkStatsState (swap_in s) (swap_out s) (major_faults s) (minor_faults s) (free_memory s) (total_memory s) (available_memory s)
    (disk_caches s) (hugetlb_allocations s) (hugetlb_failures s).

Definition create_stats (s : BalloonStatsState) : BalloonStats :=
  mkBalloonStats 0 0 0 0 (ss_swap_in s) (ss_swap_out s) (ss_major_faults s) (ss_minor_faults s) (ss_free_memory s) (ss_total_memory s)
    (ss_available_memory s) (ss_disk_caches s) (ss_hugetlb_allocations s) (ss_hugetlb_failures s).

Record BalloonState := mkBalloonState {
  bls_stats_polling_interval_s : Z;
  bls_stats_desc_index : option Z;
  bls_latest_stats : BalloonStatsState;
  bls_config_space : ConfigSpace;
  bls_virtio_state : VirtioDeviceState
}.

Section Persist.
Context {M : Type} `{GuestMemory M} `{Profile}.
#[local] Instance balloon_dev : VirtioDevice Balloon M := balloon_virtio true.
Implicit Types (b : Balloon) (m : M).

Definition balloon_save b : BalloonState :=
  mkBalloonState (stats_polling_interval_s b) (stats_desc_index b) (from_stats (latest_stats b)) (bl_config_space b) (from_device b (bl_irq_status b)).

Definition balloon_restore {X} m (s : BalloonState) (ev : BalloonEvents) : exec (result Balloon (BalloonError X)) :=
  match Balloon_new 0 false (bls_stats_polling_interval_s s) true ev with
  | Err e => Ret (Err e)
  | Ok b =>
      let num_queues := if bls_stats_polling_interval_s s =? 0 then (BALLOON_NUM_QUEUES - 1)%nat else BALLOON_NUM_QUEUES in
      q ← build_queues_checked (bls_virtio_state s) m TYPE_BALLOON num_queues BALLOON_QUEUE_SIZE;
      match q with
      | Err _ => Ret (Err QueueRestoreError)
      | Ok queues =>
          let v := bls_virtio_state s in
          let b := with_irq (with_balloon_queues b queues) (ds_interrupt_status v) in
          let b := with_balloon_features b (ds_avail_features v) (ds_acked_features v) in
          let b := with_stats b (stats_desc_index b) (create_stats (bls_latest_stats s)) in
          let b := with_balloon_config b (bls_config_space s) in
          Ret (Ok (if ds_activated v then
                     let b := with_activated b true in
                     if stats_enabled b then
                       with_polling (with_stats b (bls_stats_desc_index s) (latest_stats b)) (stats_polling_interval_s b) (Some (bls_stats_polling_interval_s s))
                     else b
                   else b))
      end
  end.

(** What the guest and the VMM see of a device. *)
Definition balloon_visible b :=
  (bl_queues b, bl_avail_features b, bl_acked_features b, bl_irq_status b, bl_activated b, bl_config_space b,
   (stats_polling_interval_s b, stats_desc_index b, (get_latest_stats b).1)).

(** A device that is restored behaves as the one that was saved, from its queues to its
    statistics; pages are then removed the other way. *)
Lemma balloon_restored {X} b m ev b0 : bl_activated b = true -> 0 <= stats_polling_interval_s b ->
  length (bl_queues b) = (if stats_enabled b then BALLOON_NUM_QUEUES else BALLOON_NUM_QUEUES - 1)%nat ->
  (stats_enabled b = false -> stats_desc_index b = None) ->
  subfeatures (bl_acked_features b) (bl_avail_features b) -> in_range 64 (bl_acked_features b) ->
  Forall (fun q => max_size q = BALLOON_QUEUE_SIZE /\ q_size q <= BALLOON_QUEUE_SIZE /\
    uses_notif_suppression q = uses_suppression (bl_acked_features b) /\ Queue_is_valid q m = Ret true) (bl_queues b) ->
  Balloon_new (X := X) 0 false (stats_polling_interval_s b) true ev = Ok b0 ->
  exists b', balloon_restore m (balloon_save b) ev = Ret (Ok (b' : Balloon) : result Balloon (BalloonError X)) /\
    balloon_visible b' = balloon_visible b /\ restored b' = true.
Proof.
  intros Ha Hi Hlen Hst Hsub Hr Hq En. set (s := balloon_save b). set (n := if bls_stats_polling_interval_s s =? 0 then (BALLOON_NUM_QUEUES - 1)%nat else BALLOON_NUM_QUEUES).
  assert (Elen : n = length (bl_queues b)).
  { rewrite Hlen. unfold n, stats_enabled. cbn. destruct (Z.eqb_spec (stats_polling_interval_s b) 0), (Z.ltb_spec 0 (stats_polling_interval_s b)); (done || lia). }
  assert (Eb : build_queues_checked (bls_virtio_state s) m TYPE_BALLOON n BALLOON_QUEUE_SIZE = Ret (Ok (bl_queues b))).
  { rewrite Elen. pose proof (queues_restored b (bl_irq_status b) m BALLOON_QUEUE_SIZE Hsub Hr) as E. cbn [queues balloon_dev balloon_virtio device_type is_activated acked_features] in E.
    etransitivity; [apply E; eapply Forall_impl; [exact Hq|]; intros q (? & _ & ? & _); by split|]. rewrite Ha.
    assert (Ec : check_queues (bl_queues b) m true BALLOON_QUEUE_SIZE = Ret true); [|by rewrite Ec, bind_Ret].
    clear -Hq. induction Hq as [|q l (Em & Hs & _ & Hv) _ IH]; cbn [check_queues]; [done|]. rewrite Em, Z.eqb_refl, (proj2 (Z.ltb_ge _ _)) by done. cbn [negb orb].
    by rewrite Hv, bind_Ret. }
  assert (Hnew : stats_polling_interval_s b0 = stats_polling_interval_s b /\ restored b0 = true /\ stats_desc_index b0 = None).
  { clear -En. unfold Balloon_new in En. destruct (ble_queues ev) as [[[? ?] ?]|]; [|done]. destruct (ble_timer ev); [|done].
    destruct (mib_to_pages 0); [|done]. destruct (negb (ble_irq ev)); [done|]. destruct (ble_activate ev); [|done]. by injection En as <-. }
  destruct Hnew as (Hi0 & Hr0 & Hd0). unfold balloon_restore. change (bls_stats_polling_interval_s s) with (stats_polling_interval_s b) at 1. rewrite En. fold n. cbn zeta.
  rewrite Eb, bind_Ret. cbn [ds_activated bls_virtio_state s balloon_save from_device is_activated balloon_dev balloon_virtio]. rewrite Ha.
  eexists. split; [done|]. set (b1 := with_activated _ true). assert (Ee : stats_enabled b1 = stats_enabled b) by (unfold stats_enabled, b1; cbn; by rewrite Hi0).
  rewrite Ee. destruct (stats_enabled b) eqn:Est; cbn; (split; [|by rewrite Hr0]); unfold balloon_visible, get_latest_stats, stats_enabled in *; cbn in *; rewrite ?Hi0, ?Hd0, Est, Ha; cbn; [done|].
  by rewrite Hst.
Qed.
End Persist.
