(* ===== verification/NetBytes.v ===== *)
(** * Network bytes and the Internet checksum

    Models [dumbo/src/pdu/bytes.rs] (reading and writing big-endian numbers at an
    offset of a slice), the big-endian functions of [utils/src/byte_order.rs] they
    call, the [MacAddr] of [utils/src/net/mac.rs] as bytes, and
    [pdu/mod.rs::compute_checksum].  The slice operations of Rust are written out
    with the panics they have; [read_be] and [write_be] follow the macros, which
    read missing bytes as zero and drop the bytes that do not fit.

    The checksum is proved equal to the one's-complement sum of RFC 1071, with the
    exact length up to which its 32-bit accumulator cannot overflow. *)

From Stdlib Require Import ZArith Lia.
From stdpp Require Import functions prelude.
From S2P Require Import Prelude.

(** ** Slices of bytes *)

Definition slen (l : list Z) : Z := Z.of_nat (length l).

(** [l[i]], [l[i] = v], [&l[i..]], [l.split_at(i)] and [l[a..b].copy_from_slice(src)]. *)
Definition index (l : list Z) (i : Z) : exec Z := unwrap (l !! Z.to_nat i).
Definition set_index (l : list Z) (i v : Z) : exec (list Z) :=
  if i <? slen l then Ret (<[Z.to_nat i := v]> l) else Panic.
Definition slice_from (l : list Z) (i : Z) : exec (list Z) :=
  if i <=? slen l then Ret (drop (Z.to_nat i) l) else Panic.
Definition split_at (l : list Z) (i : Z) : exec (list Z * list Z) :=
  if i <=? slen l then Ret (take (Z.to_nat i) l, drop (Z.to_nat i) l) else Panic.
Definition subslice (l : list Z) (a b : Z) : exec (list Z) :=
  if (a <=? b) && (b <=? slen l)
  then Ret (take (Z.to_nat (b - a)) (drop (Z.to_nat a) l)) else Panic.
Definition copy_into (l : list Z) (a b : Z) (src : list Z) : exec (list Z) :=
  if (a <=? b) && (b <=? slen l) && (b - a =? slen src)
  then Ret (list_inserts (Z.to_nat a) src l) else Panic.

(** ** Big-endian numbers

    [from_be_bytes] and [to_be_bytes], and the functions the macros generate: the
    loops run over the shorter of the two sequences they zip. *)

Definition be_decode (l : list Z) : Z := le_decode (reverse l).
Definition be_encode (n : nat) (v : Z) : list Z := reverse (le_encode n v).

Definition read_be (n : nat) (input : list Z) : Z :=
  be_decode (take n (input ++ replicate n 0)).
Definition write_be (n : nat) (buf : list Z) (v : Z) : list Z :=
  list_inserts 0 (be_encode n v) buf.

Definition read_be_u16 := read_be 2.
Definition read_be_u32 := read_be 4.
Definition write_be_u16 := write_be 2.
Definition write_be_u32 := write_be 4.

(** ** [NetworkBytes] and [NetworkBytesMut] *)

Definition ntohs_unchecked (l : list Z) (offset : Z) : exec Z :=
  s ← slice_from l offset; Ret (read_be_u16 s).
Definition ntohl_unchecked (l : list Z) (offset : Z) : exec Z :=
  s ← slice_from l offset; Ret (read_be_u32 s).
Definition shrink_unchecked (l : list Z) (len : Z) : exec (list Z) :=
  if len <=? slen l then Ret (take (Z.to_nat len) l) else Panic.

(** The bytes from [offset] on are replaced in place. *)
Definition htons_unchecked (l : list Z) (offset value : Z) : exec (list Z) :=
  s ← slice_from l offset;
  Ret (take (Z.to_nat offset) l ++ write_be_u16 s value).
Definition htonl_unchecked (l : list Z) (offset value : Z) : exec (list Z) :=
  s ← slice_from l offset;
  Ret (take (Z.to_nat offset) l ++ write_be_u32 s value).

(** ** MAC addresses as bytes *)

Definition MAC_ADDR_LEN : Z := 6.
Abbreviation MacAddr := (list Z).
Definition MacAddr_from_bytes_unchecked (src : list Z) : exec MacAddr :=
  copy_into (replicate 6 0) 0 6 src.
Definition MacAddr_from_bytes (src : list Z) : exec (option MacAddr) :=
  if negb (slen src =? MAC_ADDR_LEN) then Ret None
  else m ← MacAddr_from_bytes_unchecked src; Ret (Some m).

(** ** The checksum of TCP and UDP *)

Inductive ChecksumProto := Tcp | Udp.
#[export] Instance ChecksumProto_eq_dec : EqDecision ChecksumProto.
Proof. solve_decision. Defined.

Definition PROTOCOL_TCP : Z := 0x06.
Definition PROTOCOL_UDP : Z := 0x11.
Definition proto_number (p : ChecksumProto) : Z :=
  match p with Tcp => PROTOCOL_TCP | Udp => PROTOCOL_UDP end.

Section Checksum.
Context `{Profile}.

(** [for i in 0..n { sum += u32::from(bytes.ntohs_unchecked(i * 2)) }], from [i] on. *)
Fixpoint add_words (n : nat) (i : Z) (bytes : list Z) (sum : Z) : exec Z :=
  match n with
  | O => Ret sum
  | S n =>
      w ← ntohs_unchecked bytes (i * 2);
      sum ← uadd 32 sum w;
      add_words n (i + 1) bytes sum
  end.

(** [while sum >> 16 != 0 { sum = (sum & 0xffff) + (sum >> 16) }]; a 32-bit sum
    is folded twice at most ([fold_sum_spec]). *)
Fixpoint fold_carries (fuel : nat) (sum : Z) : exec Z :=
  if Z.shiftr sum 16 =? 0 then Ret sum
  else match fuel with
       | O => Panic
       | S fuel =>
           sum ← uadd 32 (Z.land sum 0xffff) (Z.shiftr sum 16);
           fold_carries fuel sum
       end.
Definition fold_sum (sum : Z) : exec Z := fold_carries 2 sum.

(** [!x] on 16 bits. *)
Definition not16 (x : Z) : Z := 0xffff - x.

Definition compute_checksum (bytes : list Z) (src_addr dst_addr : Z)
    (protocol : ChecksumProto) : exec Z :=
  sum ← uadd 32 0 (Z.land src_addr 0xffff);
  sum ← uadd 32 sum (Z.shiftr src_addr 16);
  sum ← uadd 32 sum (Z.land dst_addr 0xffff);
  sum ← uadd 32 sum (Z.shiftr dst_addr 16);
  let len := slen bytes in
  sum ← uadd 32 sum (proto_number protocol);
  sum ← uadd 32 sum (wrap 32 len);
  sum ← add_words (Z.to_nat (len / 2)) 0 bytes sum;
  sum ← (if negb (len mod 2 =? 0)
         then b ← index bytes (len - 1); uadd 32 sum (wrap 32 (Z.shiftl b 8))
         else Ret sum);
  sum ← fold_sum sum;
  let csum := not16 (wrap 16 sum) in
  Ret (if bool_decide (protocol = Udp) && (csum =? 0) then not16 csum else csum).
End Checksum.

(** ** Reading and writing fields *)

Lemma slen_nonneg l : 0 <= slen l.
Proof. unfold slen. lia. Qed.

Lemma slen_app l k : slen (l ++ k) = slen l + slen k.
Proof. unfold slen. rewrite length_app. lia. Qed.

Lemma slen_cons x l : slen (x :: l) = 1 + slen l.
Proof. unfold slen. simpl length. lia. Qed.

Lemma read_be_u16_cons a b l : read_be_u16 (a :: b :: l) = 256 * a + b.
Proof.
  unfold read_be_u16, read_be, be_decode, reverse.
  cbn [app take replicate]. rewrite take_0. cbn [rev_append le_decode]. lia.
Qed.

Lemma read_be_u32_cons a b c d l :
  read_be_u32 (a :: b :: c :: d :: l) = 2 ^ 24 * a + 2 ^ 16 * b + 256 * c + d.
Proof.
  unfold read_be_u32, read_be, be_decode, reverse.
  cbn [app take replicate]. rewrite take_0. cbn [rev_append le_decode]. lia.
Qed.

Lemma be_encode_2 v : be_encode 2 v = [(v / 256) mod 256; v mod 256].
Proof. done. Qed.

Lemma be_encode_4 v :
  be_encode 4 v = [(v / 2 ^ 24) mod 256; (v / 2 ^ 16) mod 256; (v / 256) mod 256; v mod 256].
Proof.
  unfold be_encode, reverse. cbn [le_encode rev_append].
  change (2 ^ 24) with (256 * (256 * 256)). change (2 ^ 16) with (256 * 256).
  by rewrite <-!Z.div_div by lia.
Qed.

Lemma u16_bytes v : in_range 16 v -> 256 * ((v / 256) mod 256) + v mod 256 = v.
Proof.
  intros Hv. rewrite (Z.mod_small (v / 256)).
  - symmetry. apply Z_div_mod_eq_full.
  - unfold in_range in Hv. split; [apply Z.div_pos; lia|].
    apply Z.div_lt_upper_bound; simpl Z.pow in Hv; lia.
Qed.

Lemma u32_bytes v : in_range 32 v ->
  2 ^ 24 * ((v / 2 ^ 24) mod 256) + 2 ^ 16 * ((v / 2 ^ 16) mod 256) +
  256 * ((v / 256) mod 256) + v mod 256 = v.
Proof.
  intros Hv. unfold in_range in Hv. simpl Z.pow in *.
  Z.to_euclidean_division_equations. lia.
Qed.

Lemma byte_mod_ok v : byte_ok (v mod 256).
Proof. unfold byte_ok. apply Z.mod_pos_bound. lia. Qed.
#[export] Hint Resolve byte_mod_ok : rust.

(** Two bytes read at a position inside the slice. *)
Lemma ntohs_drop l off a b r :
  0 <= off -> drop (Z.to_nat off) l = a :: b :: r ->
  ntohs_unchecked l off = Ret (256 * a + b).
Proof.
  intros Ho Hd. unfold ntohs_unchecked, slice_from.
  assert (Hl : (Z.to_nat off < length l)%nat).
  { apply (f_equal length) in Hd. rewrite length_drop in Hd. simpl in Hd. lia. }
  rewrite (proj2 (Z.leb_le _ _)) by (unfold slen; lia).
  rewrite bind_Ret, Hd. by rewrite read_be_u16_cons.
Qed.

(** A slice copied over a part of the same length. *)
Lemma copy_into_app pre mid post src a b :
  a = slen pre -> b = slen pre + slen src -> slen mid = slen src ->
  copy_into (pre ++ mid ++ post) a b src = Ret (pre ++ src ++ post).
Proof.
  intros -> -> Hm. unfold copy_into. rewrite !slen_app.
  pose proof (slen_nonneg post). pose proof (slen_nonneg src).
  rewrite (proj2 (Z.leb_le _ _)), (proj2 (Z.leb_le _ _)), (proj2 (Z.eqb_eq _ _)) by lia.
  cbn [andb]. replace (Z.to_nat (slen pre)) with (length pre + 0)%nat by (unfold slen; lia).
  rewrite list_inserts_app_r, list_inserts_0_r; [done|]. unfold slen in Hm. lia.
Qed.

(** A slice of known minimal length is split into its first bytes, after which
    the accesses at fixed offsets compute. *)
Ltac explode l H n :=
  lazymatch n with
  | O => idtac
  | S ?m =>
      let b := fresh "b" in
      destruct l as [|b l];
      [exfalso; revert H; rewrite ?slen_cons; change (slen []) with 0; lia|];
      explode l H m
  end.

(** The same when the length is exactly [n]. *)
Ltac explode_all l H n :=
  explode l H n;
  destruct l;
  [|exfalso; revert H; rewrite ?slen_cons; pose proof (slen_nonneg l); lia].

(** [net_step] runs one access to a slice whose first bytes are known, [net_run]
    as many as there are; lengths are compared by [lia]. *)
Ltac slen_solve := unfold slen in *; cbn [length] in *; lia.
Ltac nat_literals :=
  repeat match goal with
  | |- context [Z.to_nat ?z] =>
      let z' := eval vm_compute in z in
      lazymatch z' with Z0 => idtac | Zpos _ => idtac end;
      let n := eval vm_compute in (Z.to_nat z') in change (Z.to_nat z) with n
  end.
Ltac net_step :=
  match goal with
  | |- context [Ret ?x ≫= ?k] => rewrite (bind_Ret x k); cbv beta
  | |- context [?a <=? slen ?l] => rewrite (proj2 (Z.leb_le a (slen l))) by slen_solve
  | |- context [?a <? slen ?l] => rewrite (proj2 (Z.ltb_lt a (slen l))) by slen_solve
  | |- context [slen ?l <? ?a] => rewrite (proj2 (Z.ltb_ge (slen l) a)) by slen_solve
  | |- context [negb (slen ?l =? ?a)] => rewrite (proj2 (Z.eqb_eq (slen l) a)) by slen_solve
  | |- context [?a - ?b =? slen ?l] => rewrite (proj2 (Z.eqb_eq (a - b) (slen l))) by slen_solve
  | |- context [?a <=? ?b] => change (a <=? b) with true
  end; cbn [andb negb].
Ltac net_run :=
  unfold index, set_index, subslice, split_at, copy_into, shrink_unchecked,
    ntohs_unchecked, ntohl_unchecked, htons_unchecked, htonl_unchecked, slice_from,
    write_be_u16, write_be_u32, write_be, MacAddr_from_bytes_unchecked;
  rewrite ?be_encode_2, ?be_encode_4;
  repeat (first [net_step
    | progress (nat_literals; cbn [drop take app list_inserts insert list_insert lookup list_lookup
        unwrap fst snd replicate])]).

(** ** The sum of the 16-bit words *)

Fixpoint sum16 (l : list Z) : Z :=
  match l with
  | [] => 0
  | [a] => 256 * a
  | a :: b :: l => 256 * a + b + sum16 l
  end.

(** Induction two elements at a time. *)
Lemma list_ind2 {A} (P : list A -> Prop) :
  P [] -> (forall a, P [a]) -> (forall a b l, P l -> P (a :: b :: l)) -> forall l, P l.
Proof.
  intros H0 H1 H2 l. cut (P l /\ forall a, P (a :: l)); [tauto|].
  induction l as [|x l [IH1 IH2]]; split; auto.
Qed.

Lemma slen_cons2 a b l :
  slen (a :: b :: l) / 2 = slen l / 2 + 1 /\ slen (a :: b :: l) mod 2 = slen l mod 2.
Proof.
  rewrite !slen_cons. replace (1 + (1 + slen l)) with (slen l + 1 * 2) by lia.
  rewrite Z.div_add, Z.mod_add by lia. done.
Qed.

Lemma sum16_range l : bytes_ok l ->
  0 <= sum16 l <= slen l / 2 * 65535 + slen l mod 2 * 65280.
Proof.
  induction l as [|a|a b l IH] using list_ind2; intros Hl.
  - done.
  - apply Forall_cons in Hl as [Ha _]. unfold byte_ok in Ha.
    change (slen [a] / 2) with 0. change (slen [a] mod 2) with 1. cbn [sum16]. lia.
  - apply Forall_cons in Hl as [Ha Hl]. apply Forall_cons in Hl as [Hb Hl].
    specialize (IH Hl). unfold byte_ok in *. cbn [sum16].
    destruct (slen_cons2 a b l) as [-> ->]. lia.
Qed.

Lemma sum16_app_even l k : slen l mod 2 = 0 -> sum16 (l ++ k) = sum16 l + sum16 k.
Proof.
  induction l as [|a|a b l IH] using list_ind2; intros Hl; [done|done|].
  cbn [sum16 app]. rewrite IH; [lia|].
  by rewrite (proj2 (slen_cons2 a b l)) in Hl.
Qed.

Section ChecksumCorrect.
Context `{Profile}.

Lemma add_words_spec n : forall i l k sum,
  0 <= i -> 0 <= sum -> bytes_ok l -> drop (Z.to_nat (i * 2)) l = k ->
  (2 * n <= length k)%nat -> sum + sum16 (take (2 * n) k) < 2 ^ 32 ->
  add_words n i l sum = Ret (sum + sum16 (take (2 * n) k)).
Proof.
  induction n as [|n IH]; intros i l k sum Hi Hs Hl Hk Hn Hb; cbn [add_words].
  { rewrite take_0. cbn. f_equal. lia. }
  destruct k as [|a [|b k]]; simpl in Hn; try lia.
  assert (Hab : bytes_ok (a :: b :: k)) by (rewrite <-Hk; by apply Forall_drop).
  apply Forall_cons in Hab as [Ha Hab]. apply Forall_cons in Hab as [Hb' Hab].
  replace (2 * S n)%nat with (S (S (2 * n))) in * by lia. cbn [take sum16] in *.
  pose proof (sum16_range (take (2 * n) k) ltac:(by apply Forall_take)) as Hr.
  unfold byte_ok in *. simpl Z.pow in Hb.
  rewrite (ntohs_drop l (i * 2) a b k), bind_Ret by (lia || done).
  rewrite uadd_ok, bind_Ret by (unfold in_range; simpl Z.pow; lia).
  rewrite (IH (i + 1) l k); [f_equal; lia|lia|lia|done| |lia|lia].
  replace (Z.to_nat ((i + 1) * 2)) with (Z.to_nat (i * 2) + 2)%nat by lia.
  by rewrite <-drop_drop, Hk.
Qed.

(** The value the folding loop leaves: the sum modulo 65535, with 65535 instead
    of 0 unless nothing was added. *)
Definition fold16 (sum : Z) : Z := if sum =? 0 then 0 else (sum - 1) mod 65535 + 1.

Lemma fold16_range sum : 0 <= sum -> 0 <= fold16 sum <= 65535.
Proof.
  unfold fold16. intros. destruct (sum =? 0); [lia|].
  pose proof (Z.mod_pos_bound (sum - 1) 65535). lia.
Qed.

Lemma fold16_small sum : 0 <= sum <= 65535 -> fold16 sum = sum.
Proof.
  intros Hs. unfold fold16. destruct (Z.eqb_spec sum 0) as [->|Hn]; [done|].
  rewrite Z.mod_small by lia. lia.
Qed.

Lemma fold16_step sum : 0 <= sum -> fold16 (sum mod 65536 + sum / 65536) = fold16 sum.
Proof.
  intros Hs. unfold fold16. pose proof (Z_div_mod_eq_full sum 65536) as E.
  pose proof (Z.mod_pos_bound sum 65536 ltac:(lia)).
  pose proof (Z.div_pos sum 65536 Hs ltac:(lia)).
  destruct (Z.eqb_spec sum 0) as [->|Hn]; [done|].
  rewrite (proj2 (Z.eqb_neq _ _)) by lia. f_equal.
  replace (sum - 1) with (sum mod 65536 + sum / 65536 - 1 + sum / 65536 * 65535) by lia.
  by rewrite Z.mod_add.
Qed.

Lemma fold_step_bits sum : 0 <= sum ->
  Z.land sum 0xffff = sum mod 65536 /\ Z.shiftr sum 16 = sum / 65536.
Proof.
  intros. split; [apply (Z.land_ones sum 16); lia|]. by rewrite Z.shiftr_div_pow2.
Qed.

(** Two rounds fold every 32-bit sum, so the loop ends. *)
Lemma fold_sum_spec sum : in_range 32 sum -> fold_sum sum = Ret (fold16 sum).
Proof.
  unfold in_range, fold_sum. simpl Z.pow. intros Hs.
  assert (Hstep : forall n s, 0 <= s < 2 ^ 32 -> 65536 <= s ->
    fold_carries (S n) s = fold_carries n (s mod 65536 + s / 65536)).
  { intros n s Hs1 Hs2. cbn [fold_carries]. simpl Z.pow in Hs1.
    destruct (fold_step_bits s) as [-> ->]; [lia|].
    pose proof (Z.mod_pos_bound s 65536 ltac:(lia)).
    assert (1 <= s / 65536 < 65536) by (split;
      [apply Z.div_le_lower_bound|apply Z.div_lt_upper_bound]; lia).
    rewrite (proj2 (Z.eqb_neq _ _)), uadd_ok by (unfold in_range; simpl Z.pow; lia).
    done. }
  assert (Hdone : forall n s, 0 <= s < 65536 -> fold_carries n s = Ret (fold16 s)).
  { intros n s Hs1. rewrite (fold16_small s) by lia.
    destruct n; cbn [fold_carries]; destruct (fold_step_bits s) as [_ ->]; try lia;
      by rewrite Z.div_small by lia. }
  destruct (decide (sum < 65536)); [apply Hdone; lia|].
  rewrite Hstep by (simpl Z.pow; lia). rewrite <-fold16_step by lia.
  set (t := sum mod 65536 + sum / 65536).
  assert (0 <= t <= 131070).
  { unfold t. pose proof (Z.mod_pos_bound sum 65536 ltac:(lia)).
    assert (0 <= sum / 65536 < 65536) by (split;
      [apply Z.div_pos|apply Z.div_lt_upper_bound]; lia). lia. }
  destruct (decide (t < 65536)); [apply Hdone; lia|].
  rewrite Hstep by (simpl Z.pow; lia). rewrite <-fold16_step by lia. apply Hdone.
  replace (t / 65536) with 1 by (apply Z.div_unique with (t - 65536); lia).
  rewrite Z.mod_eq by lia.
  replace (t / 65536) with 1 by (apply Z.div_unique with (t - 65536); lia). lia.
Qed.

(** What the words of the pseudo header add up to. *)
Definition pseudo_sum (src dst : Z) (p : ChecksumProto) (len : Z) : Z :=
  src mod 65536 + src / 65536 + dst mod 65536 + dst / 65536 + proto_number p + len.

(** The value put on the wire: a UDP checksum of 0 is sent as all ones. *)
Definition csum_of (p : ChecksumProto) (sum : Z) : Z :=
  let c := not16 (fold16 sum) in if bool_decide (p = Udp) && (c =? 0) then 65535 else c.

(** Up to this length the 32-bit sum cannot overflow; for two bytes of 0xff more it
    can ([compute_checksum_overflow]). *)
Definition CHECKSUM_MAX_LEN : Z := 131061.

Lemma addr_halves a : in_range 32 a ->
  Z.land a 0xffff = a mod 65536 /\ Z.shiftr a 16 = a / 65536 /\
  0 <= a mod 65536 < 65536 /\ 0 <= a / 65536 < 65536.
Proof.
  unfold in_range. simpl Z.pow. intros Ha. destruct (fold_step_bits a) as [-> ->]; [lia|].
  pose proof (Z.mod_pos_bound a 65536). split_and!; try lia; [apply Z.div_pos; lia|].
  apply Z.div_lt_upper_bound; lia.
Qed.

Lemma pseudo_sum_range src dst p len : in_range 32 src -> in_range 32 dst -> 0 <= len ->
  0 < pseudo_sum src dst p len <= 262157 + len.
Proof.
  intros Hs Hd Hl. unfold pseudo_sum.
  destruct (addr_halves src Hs) as (_ & _ & ? & ?), (addr_halves dst Hd) as (_ & _ & ? & ?).
  destruct p; cbn [proto_number]; unfold PROTOCOL_TCP, PROTOCOL_UDP; lia.
Qed.

(** The words of a slice and, for an odd length, its last byte. *)
Lemma sum16_halves l :
  sum16 l = sum16 (take (2 * Z.to_nat (slen l / 2)) l) +
            (if slen l mod 2 =? 0 then 0 else 256 * default 0 (last l)).
Proof.
  induction l as [|a|a b l IH] using list_ind2; [done|done|].
  destruct (slen_cons2 a b l) as [-> ->].
  pose proof (Z.div_pos (slen l) 2 (slen_nonneg l) ltac:(lia)).
  replace (2 * Z.to_nat (slen l / 2 + 1))%nat with (S (S (2 * Z.to_nat (slen l / 2)))) by lia.
  cbn [take sum16]. rewrite IH. destruct (Z.eqb_spec (slen l mod 2) 0) as [E|E]; [lia|].
  destruct l as [|c l]; [by destruct E|]. change (last (a :: b :: c :: l)) with (last (c :: l)). lia.
Qed.

(** The byte left over when the length is odd. *)
Lemma odd_byte_spec bytes ps :
  let k := take (2 * Z.to_nat (slen bytes / 2)) bytes in
  bytes_ok bytes -> 0 <= ps -> ps + sum16 bytes < 2 ^ 32 ->
  0 <= sum16 k <= sum16 bytes /\
  (if negb (slen bytes mod 2 =? 0)
   then b ← index bytes (slen bytes - 1); uadd 32 (ps + sum16 k) (wrap 32 (Z.shiftl b 8))
   else Ret (ps + sum16 k)) = Ret (ps + sum16 bytes).
Proof.
  intros k Hb Hp Hlt.
  assert (Hk : 0 <= sum16 k) by (apply sum16_range; by apply Forall_take).
  rewrite (sum16_halves bytes) in *. fold k in Hlt |- *.
  destruct (Z.eqb_spec (slen bytes mod 2) 0) as [E|E]; cbn [negb].
  { split; [lia|]. f_equal. lia. }
  destruct (last bytes) as [x|] eqn:Ex; [|apply last_None in Ex as ->; by destruct E].
  cbn [default] in *. change (id x) with x in *. pose proof Ex as Ex'. apply last_Some in Ex as [l' ->].
  apply Forall_app in Hb as [_ Hb]. apply Forall_cons in Hb as [Hb _]. unfold byte_ok in Hb.
  change (2 ^ 32) with 4294967296 in Hlt. split; [lia|]. unfold index.
  replace (Z.to_nat _) with (pred (length (l' ++ [x]))) by (unfold slen; lia).
  rewrite <-last_lookup, Ex'. cbn [unwrap]. rewrite bind_Ret, Z.shiftl_mul_pow2 by lia.
  rewrite wrap_id, uadd_ok by (unfold in_range; simpl Z.pow; lia). f_equal. lia.
Qed.

Lemma compute_checksum_ok bytes src dst p :
  bytes_ok bytes -> in_range 32 src -> in_range 32 dst -> slen bytes <= CHECKSUM_MAX_LEN ->
  compute_checksum bytes src dst p = Ret (csum_of p (pseudo_sum src dst p (slen bytes) + sum16 bytes)).
Proof.
  intros Hb Hs Hd Hl. unfold compute_checksum, CHECKSUM_MAX_LEN in *.
  pose proof (pseudo_sum_range src dst p (slen bytes) Hs Hd (slen_nonneg _)) as Hp.
  pose proof (sum16_range bytes Hb) as Hr. pose proof (slen_nonneg bytes) as Hn.
  pose proof (Z_div_mod_eq_full (slen bytes) 2) as E2.
  pose proof (Z.mod_pos_bound (slen bytes) 2 ltac:(lia)) as Hm.
  assert (Ew : wrap 32 (slen bytes) = slen bytes) by (apply wrap_id; unfold in_range; simpl Z.pow; lia).
  destruct (odd_byte_spec bytes (pseudo_sum src dst p (slen bytes)) Hb) as [Hk Hodd];
    [lia|simpl Z.pow; lia|].
  unfold pseudo_sum in *. destruct (addr_halves src Hs) as (-> & -> & ? & ?).
  destruct (addr_halves dst Hd) as (-> & -> & ? & ?).
  assert (0 < proto_number p <= 17) by (destruct p; done).
  rewrite Ew. change (0 + src mod 65536) with (src mod 65536).
  do 6 (rewrite uadd_ok, bind_Ret by (unfold in_range; simpl Z.pow; lia)). rewrite Z.add_0_l.
  rewrite (add_words_spec _ 0 bytes bytes), bind_Ret;
    [|lia|lia|done|done|unfold slen in *; lia|simpl Z.pow; lia].
  rewrite Hodd, bind_Ret, fold_sum_spec, bind_Ret by (unfold in_range; simpl Z.pow; lia).
  set (t := _ + sum16 bytes). pose proof (fold16_range t ltac:(unfold t; lia)) as Ht.
  rewrite wrap_id by (unfold in_range; simpl Z.pow; lia). unfold csum_of.
  destruct (bool_decide (p = Udp)), (Z.eqb_spec (not16 (fold16 t)) 0) as [E|E]; try done.
  by rewrite E.
Qed.

Lemma csum_of_range p s : 0 <= s -> in_range 16 (csum_of p s).
Proof.
  intros Hs. pose proof (fold16_range s Hs). unfold in_range, csum_of, not16. simpl Z.pow.
  destruct (_ && _); lia.
Qed.

End ChecksumCorrect.

(** ** RFC 1071

    The reference: the one's-complement sum of 16-bit words, in which a carry out
    of the top bit is added back at the bottom. *)

Definition ones_add (a b : Z) : Z := if a + b <=? 65535 then a + b else a + b - 65535.
Definition ones_sum (ws : list Z) : Z := foldl ones_add 0 ws.
Definition internet_checksum (ws : list Z) : Z := not16 (ones_sum ws).

(** A slice as words, padded with a zero byte. *)
Fixpoint words16 (l : list Z) : list Z :=
  match l with
  | [] => []
  | [a] => [256 * a]
  | a :: b :: l => 256 * a + b :: words16 l
  end.

(** The pseudo header of RFC 793 and RFC 768. *)
Definition pseudo_header (src dst : Z) (p : ChecksumProto) (len : Z) : list Z :=
  [src / 65536; src mod 65536; dst / 65536; dst mod 65536; proto_number p; len].

Definition word_ok (w : Z) : Prop := 0 <= w <= 65535.

Lemma ones_add_fold16 s w : 0 <= s -> word_ok w -> ones_add (fold16 s) w = fold16 (s + w).
Proof.
  unfold word_ok, ones_add. intros Hs Hw. pose proof (fold16_range s Hs) as Hr.
  unfold fold16 in *. destruct (Z.eqb_spec s 0) as [->|Hn].
  { destruct (Z.eqb_spec w 0) as [->|Hw0]; [done|].
    rewrite (proj2 (Z.eqb_neq _ _)), (proj2 (Z.leb_le _ _)) by lia.
    rewrite Z.mod_small by lia. lia. }
  rewrite (proj2 (Z.eqb_neq (s + w) 0)) by lia. set (m := (s - 1) mod 65535) in *.
  pose proof (Z.mod_pos_bound (s - 1) 65535 ltac:(lia)) as Hm. fold m in Hm.
  replace (s + w - 1) with (s - 1 + w) by lia. rewrite <-Zplus_mod_idemp_l. fold m.
  destruct (Z.leb_spec (m + 1 + w) 65535).
  - rewrite (Z.mod_small (m + w)) by lia. lia.
  - rewrite (Z.mod_eq (m + w)) by lia.
    replace ((m + w) / 65535) with 1; [lia|]. apply Z.div_unique with (m + w - 65535); lia.
Qed.

Lemma foldl_ones_add ws : Forall word_ok ws -> forall s, 0 <= s ->
  foldl ones_add (fold16 s) ws = fold16 (s + foldr Z.add 0 ws).
Proof.
  induction 1 as [|w ws Hw _ IH]; intros s Hs; cbn [foldl foldr]; [by rewrite Z.add_0_r|].
  rewrite ones_add_fold16, IH by (unfold word_ok in Hw; done || lia). f_equal. lia.
Qed.

Lemma ones_sum_spec ws : Forall word_ok ws -> ones_sum ws = fold16 (foldr Z.add 0 ws).
Proof. intros H. apply (foldl_ones_add ws H 0). lia. Qed.

Lemma words16_ok l : bytes_ok l -> Forall word_ok (words16 l) /\ foldr Z.add 0 (words16 l) = sum16 l.
Proof.
  unfold word_ok. induction l as [|a|a b l IH] using list_ind2; intros Hl.
  - by split.
  - apply Forall_cons in Hl as [Ha _]. unfold byte_ok in Ha. cbn.
    split; [repeat constructor; lia|lia].
  - apply Forall_cons in Hl as [Ha Hl]. apply Forall_cons in Hl as [Hb Hl].
    destruct (IH Hl) as [IH1 IH2]. unfold byte_ok in *. cbn [words16 foldr sum16].
    split; [constructor; [lia|done]|lia].
Qed.

(** C37: for the bytes of a TCP segment or UDP datagram (at most 65535), in either
    build profile, [compute_checksum] returns, without overflow, the checksum
    RFC 1071 defines: the complement of the one's-complement sum of the pseudo
    header and of the 16-bit words of the slice, the last byte of an odd length
    padded with zero; for UDP a checksum of zero is replaced by all ones. *)
Theorem compute_checksum_rfc1071 `{Profile} bytes src dst p :
  bytes_ok bytes -> in_range 32 src -> in_range 32 dst -> slen bytes <= 65535 ->
  compute_checksum bytes src dst p =
    Ret (let c := internet_checksum (pseudo_header src dst p (slen bytes) ++ words16 bytes) in
         if bool_decide (p = Udp) && (c =? 0) then 65535 else c).
Proof.
  intros Hb Hs Hd Hl. destruct (words16_ok bytes Hb) as [Hw Es].
  rewrite compute_checksum_ok by (done || unfold CHECKSUM_MAX_LEN; lia).
  unfold internet_checksum. rewrite ones_sum_spec.
  - rewrite foldr_app, Es. unfold pseudo_header. cbn [foldr].
    unfold csum_of. replace (_ + (_ + (_ + (_ + (_ + (_ + sum16 bytes))))))
      with (pseudo_sum src dst p (slen bytes) + sum16 bytes); [done|unfold pseudo_sum; lia].
  - apply Forall_app. split; [|done]. unfold pseudo_header, word_ok.
    destruct (addr_halves src Hs) as (_ & _ & ? & ?), (addr_halves dst Hd) as (_ & _ & ? & ?).
    pose proof (slen_nonneg bytes).
    repeat constructor; try lia; destruct p; cbn; unfold PROTOCOL_TCP, PROTOCOL_UDP; lia.
Qed.

(** The classic example: 45 00 ... as a TCP payload of two words and an odd byte. *)
Lemma compute_checksum_rfc1071_witness :
  compute_checksum (H := dev_profile) [0x45; 0x00; 0x00; 0x73; 0x01] 0xc0a80001 0xc0a800c7 Tcp =
    Ret (internet_checksum (pseudo_header 0xc0a80001 0xc0a800c7 Tcp 5 ++ [0x4500; 0x0073; 0x0100])).
Proof.
  rewrite (compute_checksum_rfc1071 (H := dev_profile) [0x45; 0x00; 0x00; 0x73; 0x01]);
    [reflexivity| |unfold in_range; lia|unfold in_range; lia|unfold slen; simpl; lia].
  repeat constructor; lia.
Defined.

(** One more pair of bytes and the sum can leave 32 bits: in a build with overflow
    checks the computation panics. *)
Lemma add_words_overflow n : forall i l k sum,
  0 <= i -> in_range 32 sum -> bytes_ok l -> drop (Z.to_nat (i * 2)) l = k ->
  (2 * n <= length k)%nat -> 2 ^ 32 <= sum + sum16 (take (2 * n) k) ->
  add_words (H := dev_profile) n i l sum = Panic.
Proof.
  induction n as [|n IH]; intros i l k sum Hi Hs Hl Hk Hn Hb; cbn [add_words].
  { rewrite take_0 in Hb. cbn [sum16] in Hb. unfold in_range in Hs. lia. }
  destruct k as [|a [|b k]]; simpl in Hn; try lia.
  assert (Hab : bytes_ok (a :: b :: k)) by (rewrite <-Hk; by apply Forall_drop).
  apply Forall_cons in Hab as [Ha Hab]. apply Forall_cons in Hab as [Hb' Hab].
  replace (2 * S n)%nat with (S (S (2 * n))) in * by lia. cbn [take sum16] in Hb.
  unfold byte_ok in *. rewrite (ntohs_drop l (i * 2) a b k), bind_Ret by (lia || done).
  destruct (decide (in_range 32 (sum + (256 * a + b)))) as [Hr|Hr].
  - rewrite uadd_ok, bind_Ret by done. apply (IH _ _ k); try lia; try done.
    replace (Z.to_nat ((i + 1) * 2)) with (Z.to_nat (i * 2) + 2)%nat by lia.
    by rewrite <-drop_drop, Hk.
  - unfold uadd, arith. destruct (in_rangeb 32 _) eqn:E; [|done].
    by apply in_rangeb_spec in E.
Qed.

Lemma sum16_ff n : sum16 (replicate (2 * n) 255) = Z.of_nat n * 65535.
Proof.
  induction n as [|n IH]; [done|]. replace (2 * S n)%nat with (S (S (2 * n))) by lia.
  cbn [replicate sum16]. rewrite IH. lia.
Qed.

Lemma compute_checksum_overflow n : Z.of_nat n = 65531 ->
  compute_checksum (H := dev_profile) (replicate (2 * n) 255) (2 ^ 32 - 1) (2 ^ 32 - 1) Udp = Panic.
Proof.
  intros Hn. unfold compute_checksum.
  assert (El : slen (replicate (2 * n) 255) = 131062) by (unfold slen; rewrite length_replicate; lia).
  rewrite El. destruct (addr_halves (2 ^ 32 - 1)) as (-> & -> & _); [by split|].
  change (proto_number Udp) with 17. change (wrap 32 131062) with 131062.
  do 6 (rewrite uadd_ok, bind_Ret by done).
  rewrite (add_words_overflow _ 0 _ (replicate (2 * n) 255)); try done.
  - apply Forall_replicate. unfold byte_ok. lia.
  - rewrite length_replicate. change (131062 / 2) with 65531. lia.
  - replace (Z.to_nat (131062 / 2)) with n by (change (131062 / 2) with 65531; lia).
    rewrite take_ge by (rewrite length_replicate; lia). rewrite sum16_ff, Hn. done.
Qed.

(** The 32-bit accumulator of [compute_checksum] is wide enough for every slice
    of at most 131061 bytes, twice what an IPv4 packet can hold, and for no more:
    on 131062 bytes of 0xff the sum overflows. *)
Theorem compute_checksum_no_overflow :
  (forall bytes src dst p, bytes_ok bytes -> in_range 32 src -> in_range 32 dst ->
     slen bytes <= CHECKSUM_MAX_LEN ->
     exists c, compute_checksum (H := dev_profile) bytes src dst p = Ret c /\ in_range 16 c) /\
  compute_checksum (H := dev_profile) (replicate (2 * Z.to_nat 65531) 255) (2 ^ 32 - 1) (2 ^ 32 - 1) Udp
    = Panic.
Proof.
  split; [|apply compute_checksum_overflow; lia].
  intros bytes src dst p Hb Hs Hd Hl. eexists. split; [by apply compute_checksum_ok|].
  apply csum_of_range. pose proof (pseudo_sum_range src dst p (slen bytes) Hs Hd (slen_nonneg _)).
  pose proof (sum16_range bytes Hb). lia.
Qed.

(** ** A packet that carries its own checksum *)

(** Adding the complement of a sum to it gives all ones, in one's complement. *)
Lemma fold16_complement s : 0 < s -> fold16 (s + not16 (fold16 s)) = 65535.
Proof.
  unfold fold16, not16. intros Hs. rewrite (proj2 (Z.eqb_neq s 0)) by lia.
  pose proof (Z.mod_pos_bound (s - 1) 65535 ltac:(lia)).
  rewrite (proj2 (Z.eqb_neq _ 0)) by lia.
  pose proof (Z_div_mod_eq_full (s - 1) 65535) as E.
  replace (s + _ - 1) with (65534 + (s - 1) / 65535 * 65535) by lia.
  by rewrite Z.mod_add.
Qed.

Lemma csum_verifies_tcp s : 0 < s -> csum_of Tcp (s + csum_of Tcp s) = 0.
Proof.
  intros Hs. unfold csum_of. rewrite bool_decide_eq_false_2 by done. cbn [andb].
  by rewrite fold16_complement.
Qed.

Lemma csum_verifies_udp s : 0 < s -> csum_of Udp s <> 0 /\ csum_of Udp (s + csum_of Udp s) = 65535.
Proof.
  intros Hs. unfold csum_of. rewrite bool_decide_eq_true_2 by done. cbn [andb].
  destruct (Z.eqb_spec (not16 (fold16 s)) 0) as [E|E].
  - split; [done|]. assert (E' : fold16 (s + 65535) = 65535); [|by rewrite E'].
    rewrite <-(fold16_complement s Hs) at 2. rewrite E, Z.add_0_r.
    unfold fold16. rewrite !(proj2 (Z.eqb_neq _ 0)) by lia.
    replace (s + 65535 - 1) with (s - 1 + 1 * 65535) by lia. by rewrite Z.mod_add.
  - split; [done|]. by rewrite fold16_complement.
Qed.
