(* ===== verification/PduLink.v ===== *)
(** * Ethernet frames and ARP

    Models [dumbo/src/pdu/ethernet.rs] and [dumbo/src/pdu/arp.rs].  A frame is the
    slice of bytes it wraps ([InnerBytes] adds nothing to it); the getters and
    setters of a header field are the functions of the same name with the prefix
    [eth_] or [arp_], and return what the access to the slice returns, a panic for
    a slice too short included.

    A frame written is a frame read back: the theorems at the end say which slices
    parse as an ARP request, and that the reply the code writes carries the
    addresses it was given and nothing else. *)

From Stdlib Require Import ZArith Lia.
From stdpp Require Import functions prelude.
From S2P Require Import Prelude NetBytes.

(** ** Ethernet *)

Definition DST_MAC_OFFSET : Z := 0.
Definition SRC_MAC_OFFSET : Z := 6.
Definition ETHERTYPE_OFFSET : Z := 12.
Definition ETH_PAYLOAD_OFFSET : Z := 14.
Definition ETHERTYPE_ARP : Z := 0x0806.
Definition ETHERTYPE_IPV4 : Z := 0x0800.

Inductive EthernetError := EthSliceTooShort.
Abbreviation EthernetFrame := (list Z).

Definition eth_from_bytes (bytes : list Z) : result EthernetFrame EthernetError :=
  if slen bytes <? ETH_PAYLOAD_OFFSET then Err EthSliceTooShort else Ok bytes.

Definition eth_dst_mac (f : EthernetFrame) : exec MacAddr :=
  s ← subslice f DST_MAC_OFFSET SRC_MAC_OFFSET; MacAddr_from_bytes_unchecked s.
Definition eth_src_mac (f : EthernetFrame) : exec MacAddr :=
  s ← subslice f SRC_MAC_OFFSET ETHERTYPE_OFFSET; MacAddr_from_bytes_unchecked s.
Definition eth_ethertype (f : EthernetFrame) : exec Z := ntohs_unchecked f ETHERTYPE_OFFSET.
Definition eth_payload (f : EthernetFrame) : exec (list Z) :=
  p ← split_at f ETH_PAYLOAD_OFFSET; Ret p.2.

Definition eth_set_dst_mac (f : EthernetFrame) (addr : MacAddr) : exec EthernetFrame :=
  copy_into f DST_MAC_OFFSET SRC_MAC_OFFSET addr.
Definition eth_set_src_mac (f : EthernetFrame) (addr : MacAddr) : exec EthernetFrame :=
  copy_into f SRC_MAC_OFFSET ETHERTYPE_OFFSET addr.
Definition eth_set_ethertype (f : EthernetFrame) (value : Z) : exec EthernetFrame :=
  htons_unchecked f ETHERTYPE_OFFSET value.

Definition eth_new_with_header (buf : list Z) (dst_mac src_mac : MacAddr) (ethertype : Z)
    : exec (result EthernetFrame EthernetError) :=
  if slen buf <? ETH_PAYLOAD_OFFSET then Ret (Err EthSliceTooShort)
  else
    f ← eth_set_dst_mac buf dst_mac;
    f ← eth_set_src_mac f src_mac;
    f ← eth_set_ethertype f ethertype;
    Ret (Ok f).

(** The frame stays marked incomplete, in the source's types, until its payload
    length is known. *)
Definition eth_write_incomplete := eth_new_with_header.
Definition eth_with_payload_len_unchecked `{Profile} (f : EthernetFrame) (payload_len : Z)
    : exec EthernetFrame :=
  n ← uadd 64 ETH_PAYLOAD_OFFSET payload_len; shrink_unchecked f n.

(** ** ARP for IPv4 over Ethernet *)

Definition OPER_REQUEST : Z := 1.
Definition OPER_REPLY : Z := 2.
Definition HTYPE_ETHERNET : Z := 1.
Definition ETH_IPV4_FRAME_LEN : Z := 28.
Definition HTYPE_OFFSET : Z := 0.
Definition PTYPE_OFFSET : Z := 2.
Definition HLEN_OFFSET : Z := 4.
Definition PLEN_OFFSET : Z := 5.
Definition OPER_OFFSET : Z := 6.
Definition SHA_OFFSET : Z := 8.
Definition ETH_IPV4_SPA_OFFSET : Z := 14.
Definition ETH_IPV4_THA_OFFSET : Z := 18.
Definition ETH_IPV4_TPA_OFFSET : Z := 24.
Definition IPV4_ADDR_LEN : Z := 4.

Inductive ArpError := HLen | HType | Operation | PLen | PType | ArpSliceExactLen.
Abbreviation ArpFrame := (list Z).

Definition arp_htype (f : ArpFrame) : exec Z := ntohs_unchecked f HTYPE_OFFSET.
Definition arp_ptype (f : ArpFrame) : exec Z := ntohs_unchecked f PTYPE_OFFSET.
Definition arp_hlen (f : ArpFrame) : exec Z := index f HLEN_OFFSET.
Definition arp_plen (f : ArpFrame) : exec Z := index f PLEN_OFFSET.
Definition arp_operation (f : ArpFrame) : exec Z := ntohs_unchecked f OPER_OFFSET.
Definition arp_sha (f : ArpFrame) : exec MacAddr :=
  s ← subslice f SHA_OFFSET ETH_IPV4_SPA_OFFSET; MacAddr_from_bytes_unchecked s.
Definition arp_spa (f : ArpFrame) : exec Z := ntohl_unchecked f ETH_IPV4_SPA_OFFSET.
Definition arp_tha (f : ArpFrame) : exec MacAddr :=
  s ← subslice f ETH_IPV4_THA_OFFSET ETH_IPV4_TPA_OFFSET; MacAddr_from_bytes_unchecked s.
Definition arp_tpa (f : ArpFrame) : exec Z := ntohl_unchecked f ETH_IPV4_TPA_OFFSET.

Definition arp_request_from_bytes (bytes : list Z) : exec (result ArpFrame ArpError) :=
  if negb (slen bytes =? ETH_IPV4_FRAME_LEN) then Ret (Err ArpSliceExactLen)
  else
    htype ← arp_htype bytes;
    if negb (htype =? HTYPE_ETHERNET) then Ret (Err HType) else
    ptype ← arp_ptype bytes;
    if negb (ptype =? ETHERTYPE_IPV4) then Ret (Err PType) else
    hlen ← arp_hlen bytes;
    if negb (hlen =? MAC_ADDR_LEN) then Ret (Err HLen) else
    plen ← arp_plen bytes;
    if negb (plen =? IPV4_ADDR_LEN) then Ret (Err PLen) else
    operation ← arp_operation bytes;
    if negb (operation =? OPER_REQUEST) then Ret (Err Operation) else
    Ret (Ok bytes).

Definition arp_set_htype (f : ArpFrame) (v : Z) : exec ArpFrame := htons_unchecked f HTYPE_OFFSET v.
Definition arp_set_ptype (f : ArpFrame) (v : Z) : exec ArpFrame := htons_unchecked f PTYPE_OFFSET v.
Definition arp_set_hlen (f : ArpFrame) (v : Z) : exec ArpFrame := set_index f HLEN_OFFSET v.
Definition arp_set_plen (f : ArpFrame) (v : Z) : exec ArpFrame := set_index f PLEN_OFFSET v.
Definition arp_set_operation (f : ArpFrame) (v : Z) : exec ArpFrame := htons_unchecked f OPER_OFFSET v.
Definition arp_set_sha (f : ArpFrame) (addr : MacAddr) : exec ArpFrame :=
  copy_into f SHA_OFFSET ETH_IPV4_SPA_OFFSET addr.
Definition arp_set_spa (f : ArpFrame) (addr : Z) : exec ArpFrame :=
  htonl_unchecked f ETH_IPV4_SPA_OFFSET addr.
Definition arp_set_tha (f : ArpFrame) (addr : MacAddr) : exec ArpFrame :=
  copy_into f ETH_IPV4_THA_OFFSET ETH_IPV4_TPA_OFFSET addr.
Definition arp_set_tpa (f : ArpFrame) (addr : Z) : exec ArpFrame :=
  htonl_unchecked f ETH_IPV4_TPA_OFFSET addr.

Definition arp_write_raw (buf : list Z) (htype ptype hlen plen operation : Z)
    (sha : MacAddr) (spa : Z) (tha : MacAddr) (tpa : Z) : exec (result ArpFrame ArpError) :=
  if negb (slen buf =? ETH_IPV4_FRAME_LEN) then Ret (Err ArpSliceExactLen)
  else
    f ← arp_set_htype buf htype;
    f ← arp_set_ptype f ptype;
    f ← arp_set_hlen f hlen;
    f ← arp_set_plen f plen;
    f ← arp_set_operation f operation;
    f ← arp_set_sha f sha;
    f ← arp_set_spa f spa;
    f ← arp_set_tha f tha;
    f ← arp_set_tpa f tpa;
    Ret (Ok f).

Definition arp_write_request (buf : list Z) (sha : MacAddr) (spa : Z) (tha : MacAddr) (tpa : Z) :=
  arp_write_raw buf HTYPE_ETHERNET ETHERTYPE_IPV4 MAC_ADDR_LEN IPV4_ADDR_LEN OPER_REQUEST
    sha spa tha tpa.
Definition arp_write_reply (buf : list Z) (sha : MacAddr) (spa : Z) (tha : MacAddr) (tpa : Z) :=
  arp_write_raw buf HTYPE_ETHERNET ETHERTYPE_IPV4 MAC_ADDR_LEN IPV4_ADDR_LEN OPER_REPLY
    sha spa tha tpa.

Definition test_speculative_tpa (buf : list Z) (addr : Z) : exec bool :=
  if ETH_PAYLOAD_OFFSET + ETH_IPV4_FRAME_LEN <=? slen buf then
    bytes ← slice_from buf ETH_PAYLOAD_OFFSET;
    tpa ← arp_tpa bytes;
    Ret (tpa =? addr)
  else Ret false.

(** ** Frames as layouts of their fields *)

Definition mac_ok (m : MacAddr) : Prop := slen m = 6 /\ bytes_ok m.

Definition eth_layout (dst src : MacAddr) (ethertype : Z) (payload : list Z) : list Z :=
  dst ++ src ++ be_encode 2 ethertype ++ payload.

Definition arp_layout (oper : Z) (sha : MacAddr) (spa : Z) (tha : MacAddr) (tpa : Z) : list Z :=
  be_encode 2 HTYPE_ETHERNET ++ be_encode 2 ETHERTYPE_IPV4 ++ [MAC_ADDR_LEN; IPV4_ADDR_LEN] ++
  be_encode 2 oper ++ sha ++ be_encode 4 spa ++ tha ++ be_encode 4 tpa.

(** Whatever the buffer held, its first 14 bytes become the header and the rest
    stays. *)
Lemma eth_new_with_header_spec buf dst src ethertype :
  slen dst = 6 -> slen src = 6 ->
  eth_new_with_header buf dst src ethertype =
    Ret (if slen buf <? 14 then Err EthSliceTooShort
         else Ok (eth_layout dst src ethertype (drop 14 buf))).
Proof.
  intros Hd Hs. unfold eth_new_with_header, ETH_PAYLOAD_OFFSET.
  destruct (Z.ltb_spec (slen buf) 14) as [H|H]; [done|].
  explode_all dst Hd 6%nat. explode_all src Hs 6%nat. explode buf H 14%nat.
  unfold eth_set_dst_mac, eth_set_src_mac, eth_set_ethertype, DST_MAC_OFFSET, SRC_MAC_OFFSET,
    ETHERTYPE_OFFSET, eth_layout.
  net_run. by rewrite drop_0.
Qed.

Lemma eth_layout_read dst src ethertype payload :
  slen dst = 6 -> slen src = 6 -> in_range 16 ethertype ->
  let f := eth_layout dst src ethertype payload in
  eth_from_bytes f = Ok f /\ eth_dst_mac f = Ret dst /\ eth_src_mac f = Ret src /\
  eth_ethertype f = Ret ethertype /\ eth_payload f = Ret payload.
Proof.
  intros Hd Hs He f. unfold f, eth_layout. explode_all dst Hd 6%nat. explode_all src Hs 6%nat.
  unfold eth_from_bytes, eth_dst_mac, eth_src_mac, eth_ethertype, eth_payload, DST_MAC_OFFSET,
    SRC_MAC_OFFSET, ETHERTYPE_OFFSET, ETH_PAYLOAD_OFFSET.
  split_and!; net_run; rewrite ?take_0, ?drop_0, ?read_be_u16_cons, ?u16_bytes; done.
Qed.

Lemma arp_write_raw_spec buf oper sha spa tha tpa :
  slen sha = 6 -> slen tha = 6 ->
  arp_write_raw buf HTYPE_ETHERNET ETHERTYPE_IPV4 MAC_ADDR_LEN IPV4_ADDR_LEN oper sha spa tha tpa =
    Ret (if slen buf =? 28 then Ok (arp_layout oper sha spa tha tpa) else Err ArpSliceExactLen).
Proof.
  intros Hs Ht. unfold arp_write_raw, ETH_IPV4_FRAME_LEN.
  destruct (Z.eqb_spec (slen buf) 28) as [H|H]; [|done].
  explode_all sha Hs 6%nat. explode_all tha Ht 6%nat. explode_all buf H 28%nat.
  unfold arp_set_htype, arp_set_ptype, arp_set_hlen, arp_set_plen, arp_set_operation, arp_set_sha,
    arp_set_spa, arp_set_tha, arp_set_tpa, HTYPE_OFFSET, PTYPE_OFFSET, HLEN_OFFSET, PLEN_OFFSET,
    OPER_OFFSET, SHA_OFFSET, ETH_IPV4_SPA_OFFSET, ETH_IPV4_THA_OFFSET, ETH_IPV4_TPA_OFFSET, arp_layout.
  net_run. done.
Qed.

Lemma arp_layout_read oper sha spa tha tpa :
  slen sha = 6 -> slen tha = 6 -> in_range 16 oper -> in_range 32 spa -> in_range 32 tpa ->
  let f := arp_layout oper sha spa tha tpa in
  arp_htype f = Ret HTYPE_ETHERNET /\ arp_ptype f = Ret ETHERTYPE_IPV4 /\
  arp_hlen f = Ret MAC_ADDR_LEN /\ arp_plen f = Ret IPV4_ADDR_LEN /\ arp_operation f = Ret oper /\
  arp_sha f = Ret sha /\ arp_spa f = Ret spa /\ arp_tha f = Ret tha /\ arp_tpa f = Ret tpa.
Proof.
  intros Hs Ht Ho Hsp Htp f. unfold f, arp_layout.
  explode_all sha Hs 6%nat. explode_all tha Ht 6%nat.
  unfold arp_htype, arp_ptype, arp_hlen, arp_plen, arp_operation, arp_sha, arp_spa, arp_tha, arp_tpa,
    HTYPE_OFFSET, PTYPE_OFFSET, HLEN_OFFSET, PLEN_OFFSET, OPER_OFFSET, SHA_OFFSET,
    ETH_IPV4_SPA_OFFSET, ETH_IPV4_THA_OFFSET, ETH_IPV4_TPA_OFFSET.
  split_and!; net_run; rewrite ?read_be_u16_cons, ?read_be_u32_cons, ?u16_bytes, ?u32_bytes;
    try done.
Qed.

(** Bytes as the encoding of the number they decode to. *)
Lemma be_encode_decode_2 a b : byte_ok a -> byte_ok b -> be_encode 2 (256 * a + b) = [a; b].
Proof.
  unfold byte_ok. intros Ha Hb. rewrite be_encode_2.
  replace (256 * a + b) with (b + a * 256) by lia. rewrite Z.div_add, Z.mod_add by lia.
  rewrite (Z.div_small b), (Z.mod_small b) by lia. by rewrite Z.mod_small by lia.
Qed.

Lemma be_encode_decode_4 a b c d : byte_ok a -> byte_ok b -> byte_ok c -> byte_ok d ->
  be_encode 4 (2 ^ 24 * a + 2 ^ 16 * b + 256 * c + d) = [a; b; c; d] /\
  in_range 32 (2 ^ 24 * a + 2 ^ 16 * b + 256 * c + d).
Proof.
  unfold byte_ok, in_range. intros Ha Hb Hc Hd. rewrite be_encode_4.
  simpl Z.pow. split; [|lia].
  repeat f_equal; Z.to_euclidean_division_equations; lia.
Qed.

Lemma slen_be_encode n v : slen (be_encode n v) = Z.of_nat n.
Proof. unfold slen, be_encode. by rewrite length_reverse, length_le_encode. Qed.

Lemma arp_layout_len oper sha spa tha tpa :
  slen sha = 6 -> slen tha = 6 -> slen (arp_layout oper sha spa tha tpa) = 28.
Proof. intros Hs Ht. unfold arp_layout. rewrite !slen_app, !slen_be_encode, Hs, Ht. done. Qed.

(** A slice parses as an ARP request exactly when it is the layout of one; parsing
    never panics. *)
Lemma arp_request_accepts sha spa tha tpa :
  slen sha = 6 -> slen tha = 6 -> in_range 32 spa -> in_range 32 tpa ->
  let f := arp_layout OPER_REQUEST sha spa tha tpa in arp_request_from_bytes f = Ret (Ok f).
Proof.
  intros Hs Ht Hsp Htp f.
  destruct (arp_layout_read OPER_REQUEST sha spa tha tpa Hs Ht ltac:(done) Hsp Htp)
    as (E1 & E2 & E3 & E4 & E5 & _). fold f in E1, E2, E3, E4, E5.
  unfold arp_request_from_bytes, f. rewrite arp_layout_len by done. fold f.
  by rewrite E1, E2, E3, E4, E5.
Qed.

Lemma arp_request_from_bytes_exact bytes : bytes_ok bytes ->
  exists r, arp_request_from_bytes bytes = Ret r /\
    ((exists e, r = Err e) \/
     r = Ok bytes /\ exists sha spa tha tpa, mac_ok sha /\ mac_ok tha /\
       in_range 32 spa /\ in_range 32 tpa /\ bytes = arp_layout OPER_REQUEST sha spa tha tpa).
Proof.
  intros Hb. unfold arp_request_from_bytes, ETH_IPV4_FRAME_LEN.
  destruct (Z.eqb_spec (slen bytes) 28) as [H|H]; cbn [negb]; [|by eauto].
  explode_all bytes H 28%nat.
  unfold arp_htype, arp_ptype, arp_hlen, arp_plen, arp_operation, HTYPE_OFFSET, PTYPE_OFFSET,
    HLEN_OFFSET, PLEN_OFFSET, OPER_OFFSET.
  net_run. rewrite !read_be_u16_cons. clear H.
  repeat (apply Forall_cons in Hb as [? Hb]).
  repeat match goal with
    |- context [negb (?a =? ?b)] => destruct (Z.eqb_spec a b); cbn [negb]; [|by eauto] end.
  eexists. split; [done|]. right. split; [done|].
  destruct (be_encode_decode_4 b13 b14 b15 b16) as [E1 R1]; try done.
  destruct (be_encode_decode_4 b23 b24 b25 b26) as [E2 R2]; try done.
  exists [b7; b8; b9; b10; b11; b12], (2 ^ 24 * b13 + 2 ^ 16 * b14 + 256 * b15 + b16),
    [b17; b18; b19; b20; b21; b22], (2 ^ 24 * b23 + 2 ^ 16 * b24 + 256 * b25 + b26).
  unfold arp_layout. rewrite E1, E2, <-e, <-e0, <-e1, <-e2, <-e3, !be_encode_decode_2 by done.
  split_and!; try done; split; try done; repeat (constructor; [done|]); constructor.
Qed.

(** The speculative tests have no false negatives: they may only accept more than
    the parser. *)
Lemma test_speculative_tpa_complete dst src sha spa tha tpa rest :
  slen dst = 6 -> slen src = 6 -> slen sha = 6 -> slen tha = 6 -> in_range 32 spa -> in_range 32 tpa ->
  test_speculative_tpa
    (eth_layout dst src ETHERTYPE_ARP (arp_layout OPER_REQUEST sha spa tha tpa ++ rest)) tpa = Ret true.
Proof.
  intros Hd Hs Hsh Hth Hsp Htp. unfold test_speculative_tpa, ETH_PAYLOAD_OFFSET, ETH_IPV4_FRAME_LEN.
  unfold eth_layout, arp_layout, arp_tpa, ETH_IPV4_TPA_OFFSET.
  explode_all dst Hd 6%nat. explode_all src Hs 6%nat. explode_all sha Hsh 6%nat.
  explode_all tha Hth 6%nat. net_run. change (14 + 28) with 42. net_run.
  rewrite read_be_u32_cons, u32_bytes by done. by rewrite Z.eqb_refl.
Qed.
