(* ===== verification/NetMac.v ===== *)
(** * The textual form of MAC addresses

    Models [parse_str] and the [Display] instance of [utils/src/net/mac.rs].  A string is
    the list of its bytes.

    What is printed parses to the same address ([mac_text_roundtrip]); parsing accepts
    more than that: both cases of hexadecimal digits, and a group that is a plus sign and
    one digit ([mac_parse_plus]). *)

From Stdlib Require Import ZArith Lia.
From stdpp Require Import functions prelude.
From S2P Require Import Prelude NetBytes PduLink.

(** ** The parts of the standard library used *)

(** [str::split] with a character pattern. *)
Fixpoint str_split (c : Z) (s : list Z) : list (list Z) :=
  match s with
  | [] => [[]]
  | x :: s =>
      if x =? c then [] :: str_split c s
      else match str_split c s with
           | group :: groups => (x :: group) :: groups
           | [] => [[x]]
           end
  end.

(** [char::to_digit(16)]. *)
Definition to_digit_16 (c : Z) : option Z :=
  if (48 <=? c) && (c <=? 57) then Some (c - 48)
  else if (97 <=? c) && (c <=? 102) then Some (c - 87)
  else if (65 <=? c) && (c <=? 70) then Some (c - 55)
  else None.

Fixpoint digits_16 (acc : Z) (s : list Z) : option Z :=
  match s with
  | [] => Some acc
  | c :: s =>
      d ← to_digit_16 c;
      if 16 * acc + d <? 256 then digits_16 (16 * acc + d) s else None
  end.

(** [u8::from_str_radix(s, 16)]: not empty, an optional plus sign, then digits whose
    value fits. *)
Definition u8_from_str_radix_16 (s : list Z) : option Z :=
  match s with
  | [] => None
  | c :: rest =>
      if ((c =? 43) || (c =? 45)) && bool_decide (rest = []) then None
      else if c =? 43 then digits_16 0 rest
      else digits_16 0 s
  end.

(** ** Parsing and printing *)

Fixpoint parse_groups (v : list (list Z)) : option (list Z) :=
  match v with
  | [] => Some []
  | g :: v =>
      if negb (slen g =? 2) then None
      else
        b ← u8_from_str_radix_16 g;
        rest ← parse_groups v;
        Some (b :: rest)
  end.

Definition parse_str (s : list Z) : result MacAddr (list Z) :=
  let v := str_split 58 s in
  if negb (Z.of_nat (length v) =? MAC_ADDR_LEN) then Err s
  else match parse_groups v with Some bytes => Ok bytes | None => Err s end.

Definition hex_digit (d : Z) : Z := if d <? 10 then 48 + d else 87 + d.
(** [{:02x}] *)
Definition hex_02 (b : Z) : list Z := [hex_digit (b / 16); hex_digit (b mod 16)].

Definition mac_to_string (m : MacAddr) : exec (list Z) :=
  b0 ← index m 0; b1 ← index m 1; b2 ← index m 2; b3 ← index m 3; b4 ← index m 4; b5 ← index m 5;
  Ret (hex_02 b0 ++ [58] ++ hex_02 b1 ++ [58] ++ hex_02 b2 ++ [58] ++ hex_02 b3 ++ [58] ++
       hex_02 b4 ++ [58] ++ hex_02 b5).

(** ** Printing and parsing back *)

Lemma hex_digit_ok d : 0 <= d < 16 ->
  to_digit_16 (hex_digit d) = Some d /\ hex_digit d <> 58 /\ hex_digit d <> 43 /\ hex_digit d <> 45.
Proof.
  intros Hd. unfold hex_digit, to_digit_16. destruct (Z.ltb_spec d 10).
  - rewrite (proj2 (Z.leb_le 48 _)), (proj2 (Z.leb_le _ 57)) by lia. cbn [andb]. split_and!; try lia. f_equal. lia.
  - rewrite (proj2 (Z.leb_gt _ 57)), andb_false_r by lia.
    rewrite (proj2 (Z.leb_le 97 _)), (proj2 (Z.leb_le _ 102)) by lia. cbn [andb]. split_and!; try lia. f_equal. lia.
Qed.

Lemma hex_02_parses b : byte_ok b -> u8_from_str_radix_16 (hex_02 b) = Some b.
Proof.
  intros Hb. unfold byte_ok in Hb.
  pose proof (Z.div_mod b 16 ltac:(lia)) as Hdm. pose proof (Z.mod_pos_bound b 16 ltac:(lia)).
  destruct (hex_digit_ok (b / 16)) as (E1 & _ & H2 & H3); [Z.to_euclidean_division_equations; lia|].
  destruct (hex_digit_ok (b mod 16)) as (E2 & _); [lia|].
  unfold u8_from_str_radix_16, hex_02. rewrite bool_decide_eq_false_2, andb_false_r by done.
  rewrite (proj2 (Z.eqb_neq _ _) H2). cbn [digits_16]. rewrite E1. cbn [mbind option_bind].
  rewrite (proj2 (Z.ltb_lt _ _)) by (Z.to_euclidean_division_equations; lia). rewrite E2. cbn [mbind option_bind].
  rewrite (proj2 (Z.ltb_lt _ _)) by lia. f_equal. lia.
Qed.

Lemma split_group c g s : Forall (fun x => x <> c) g ->
  str_split c (g ++ [c] ++ s) = g :: str_split c s.
Proof.
  induction 1 as [|x g Hx Hg IH]; cbn [app str_split]; [by rewrite Z.eqb_refl|].
  cbn [app] in IH. by rewrite (proj2 (Z.eqb_neq _ _) Hx), IH.
Qed.

Lemma split_last c g : Forall (fun x => x <> c) g -> str_split c g = [g].
Proof.
  induction 1 as [|x g Hx Hg IH]; cbn [str_split]; [done|]. by rewrite (proj2 (Z.eqb_neq _ _) Hx), IH.
Qed.

Lemma hex_02_no_colon b : byte_ok b -> Forall (fun x => x <> 58) (hex_02 b).
Proof.
  intros Hb. unfold byte_ok in Hb. pose proof (Z.mod_pos_bound b 16 ltac:(lia)).
  repeat constructor; apply hex_digit_ok; [Z.to_euclidean_division_equations; lia|lia].
Qed.

(** Printing a MAC address does not panic, and what is printed is parsed back to the
    same address. *)
Theorem mac_text_roundtrip m : mac_ok m ->
  exists s, mac_to_string m = Ret s /\ slen s = 17 /\ parse_str s = Ok m.
Proof.
  intros [Hl Hb]. explode_all m Hl 6%nat. unfold bytes_ok in Hb. rewrite !Forall_cons in Hb.
  destruct Hb as (B0 & B1 & B2 & B3 & B4 & B5 & _).
  eexists. split; [reflexivity|]. split; [done|].
  unfold parse_str. rewrite !split_group, split_last by by apply hex_02_no_colon.
  change (negb (Z.of_nat (length _) =? MAC_ADDR_LEN)) with false. cbv iota. cbn [parse_groups].
  change (negb (slen (hex_02 _) =? 2)) with false. cbv iota.
  by rewrite !hex_02_parses by done.
Qed.

Lemma mac_text_roundtrip_witness :
  exists s, mac_to_string [6; 1; 35; 69; 103; 1] = Ret s /\ slen s = 17 /\ parse_str s = Ok [6; 1; 35; 69; 103; 1].
Proof. apply (mac_text_roundtrip [6; 1; 35; 69; 103; 1]). split; [reflexivity|by repeat constructor]. Defined.

(** [+1:+1:+1:+1:+1:+1] is accepted. *)
Lemma mac_parse_plus :
  parse_str [43; 49; 58; 43; 49; 58; 43; 49; 58; 43; 49; 58; 43; 49; 58; 43; 49] = Ok [1; 1; 1; 1; 1; 1].
Proof. reflexivity. Qed.
