(* ===== verification/PduIpv4.v ===== *)
(** * IPv4 packets and UDP datagrams

    Models [dumbo/src/pdu/ipv4.rs] and [dumbo/src/pdu/udp.rs].  A packet is the
    slice it wraps; addresses are 32-bit numbers.  The theorems say which slices
    parse, that a packet completed with [ip_with_payload_len_unchecked] parses with
    its checksum verified and carries the fields and the payload it was given, and
    the same for UDP datagrams. *)

From Stdlib Require Import ZArith Lia.
From stdpp Require Import functions prelude.
From S2P Require Import Prelude NetBytes PduLink.

(** ** IPv4 *)

Definition VERSION_AND_IHL_OFFSET : Z := 0.
Definition DSCP_AND_ECN_OFFSET : Z := 1.
Definition TOTAL_LEN_OFFSET : Z := 2.
Definition IDENTIFICATION_OFFSET : Z := 4.
Definition FLAGS_AND_FRAGMENTOFF_OFFSET : Z := 6.
Definition TTL_OFFSET : Z := 8.
Definition PROTOCOL_OFFSET : Z := 9.
Definition HEADER_CHECKSUM_OFFSET : Z := 10.
Definition SOURCE_ADDRESS_OFFSET : Z := 12.
Definition DESTINATION_ADDRESS_OFFSET : Z := 16.
Definition IP_OPTIONS_OFFSET : Z := 20.
Definition IPV4_VERSION : Z := 4.
Definition DEFAULT_TTL : Z := 1.

Inductive IPv4Error :=
| IpChecksum | IpHeaderLen | InvalidTotalLen | IpSliceExactLen | IpSliceTooShort | IpVersion.

Abbreviation IPv4Packet := (list Z).

Definition ip_version_and_header_len (p : IPv4Packet) : exec (Z * Z) :=
  x ← index p VERSION_AND_IHL_OFFSET;
  let ihl := Z.land x 0x0f in
  Ret (Z.shiftr x 4, wrap 8 (Z.shiftl ihl 2)).
Definition ip_header_len (p : IPv4Packet) : exec Z :=
  v ← ip_version_and_header_len p; Ret v.2.
Definition ip_dscp_and_ecn (p : IPv4Packet) : exec (Z * Z) :=
  x ← index p DSCP_AND_ECN_OFFSET; Ret (Z.shiftr x 2, Z.land x 0x3).
Definition ip_total_len (p : IPv4Packet) : exec Z := ntohs_unchecked p TOTAL_LEN_OFFSET.
Definition ip_identification (p : IPv4Packet) : exec Z := ntohs_unchecked p IDENTIFICATION_OFFSET.
Definition ip_flags_and_fragment_offset (p : IPv4Packet) : exec (Z * Z) :=
  x ← ntohs_unchecked p FLAGS_AND_FRAGMENTOFF_OFFSET;
  Ret (wrap 8 (Z.shiftr x 13), Z.land x 0x1fff).
Definition ip_ttl (p : IPv4Packet) : exec Z := index p TTL_OFFSET.
Definition ip_protocol (p : IPv4Packet) : exec Z := index p PROTOCOL_OFFSET.
Definition ip_header_checksum (p : IPv4Packet) : exec Z := ntohs_unchecked p HEADER_CHECKSUM_OFFSET.
Definition ip_source_address (p : IPv4Packet) : exec Z := ntohl_unchecked p SOURCE_ADDRESS_OFFSET.
Definition ip_destination_address (p : IPv4Packet) : exec Z :=
  ntohl_unchecked p DESTINATION_ADDRESS_OFFSET.
Definition ip_payload_unchecked (p : IPv4Packet) (header_len : Z) : exec (list Z) :=
  s ← split_at p header_len; Ret s.2.
Definition ip_payload (p : IPv4Packet) : exec (list Z) :=
  header_len ← ip_header_len p; ip_payload_unchecked p header_len.

Section Ip.
Context `{Profile}.

Definition ip_compute_checksum_unchecked (p : IPv4Packet) (header_len : Z) : exec Z :=
  sum ← add_words (Z.to_nat (header_len / 2)) 0 p 0;
  sum ← fold_sum sum;
  Ret (not16 (wrap 16 sum)).
Definition ip_compute_checksum (p : IPv4Packet) : exec Z :=
  header_len ← ip_header_len p; ip_compute_checksum_unchecked p header_len.

Definition ip_from_bytes (bytes : list Z) (verify_checksum : bool)
    : exec (result IPv4Packet IPv4Error) :=
  let bytes_len := slen bytes in
  if bytes_len <? IP_OPTIONS_OFFSET then Ret (Err IpSliceTooShort)
  else
    v ← ip_version_and_header_len bytes;
    let '(version, header_len) := v in
    if negb (version =? IPV4_VERSION) then Ret (Err IpVersion) else
    total_len ← ip_total_len bytes;
    if total_len <? header_len then Ret (Err InvalidTotalLen)
    else if negb (total_len =? bytes_len) then Ret (Err IpSliceExactLen)
    else if header_len <? IP_OPTIONS_OFFSET then Ret (Err IpHeaderLen)
    else
      if verify_checksum then
        c ← ip_compute_checksum_unchecked bytes header_len;
        if negb (c =? 0) then Ret (Err IpChecksum) else Ret (Ok bytes)
      else Ret (Ok bytes).

Definition ip_set_version_and_header_len (p : IPv4Packet) (version header_len : Z) : exec IPv4Packet :=
  let version := wrap 8 (Z.shiftl version 4) in
  let ihl := Z.land (Z.shiftr (wrap 8 header_len) 2) 0xf in
  set_index p VERSION_AND_IHL_OFFSET (Z.lor version ihl).
Definition ip_set_dscp_and_ecn (p : IPv4Packet) (dscp ecn : Z) : exec IPv4Packet :=
  set_index p DSCP_AND_ECN_OFFSET (Z.lor (wrap 8 (Z.shiftl dscp 2)) ecn).
Definition ip_set_total_len (p : IPv4Packet) (value : Z) : exec IPv4Packet :=
  htons_unchecked p TOTAL_LEN_OFFSET value.
Definition ip_set_identification (p : IPv4Packet) (value : Z) : exec IPv4Packet :=
  htons_unchecked p IDENTIFICATION_OFFSET value.
Definition ip_set_flags_and_fragment_offset (p : IPv4Packet) (flags fragment_offset : Z)
    : exec IPv4Packet :=
  htons_unchecked p FLAGS_AND_FRAGMENTOFF_OFFSET
    (Z.lor (wrap 16 (Z.shiftl flags 13)) fragment_offset).
Definition ip_set_ttl (p : IPv4Packet) (value : Z) : exec IPv4Packet := set_index p TTL_OFFSET value.
Definition ip_set_protocol (p : IPv4Packet) (value : Z) : exec IPv4Packet :=
  set_index p PROTOCOL_OFFSET value.
Definition ip_set_header_checksum (p : IPv4Packet) (value : Z) : exec IPv4Packet :=
  htons_unchecked p HEADER_CHECKSUM_OFFSET value.
Definition ip_set_source_address (p : IPv4Packet) (addr : Z) : exec IPv4Packet :=
  htonl_unchecked p SOURCE_ADDRESS_OFFSET addr.
Definition ip_set_destination_address (p : IPv4Packet) (addr : Z) : exec IPv4Packet :=
  htonl_unchecked p DESTINATION_ADDRESS_OFFSET addr.

Definition ip_write_header (buf : list Z) (protocol src_addr dst_addr : Z)
    : exec (result IPv4Packet IPv4Error) :=
  if slen buf <? IP_OPTIONS_OFFSET then Ret (Err IpSliceTooShort)
  else
    p ← ip_set_version_and_header_len buf IPV4_VERSION IP_OPTIONS_OFFSET;
    p ← ip_set_dscp_and_ecn p 0 0;
    p ← ip_set_identification p 0;
    p ← ip_set_flags_and_fragment_offset p 0 0;
    p ← ip_set_ttl p DEFAULT_TTL;
    p ← ip_set_protocol p protocol;
    p ← ip_set_source_address p src_addr;
    p ← ip_set_destination_address p dst_addr;
    Ret (Ok p).

Definition ip_with_header_and_payload_len_unchecked (p : IPv4Packet)
    (header_len payload_len : Z) (compute_checksum : bool) : exec IPv4Packet :=
  total_len ← uadd 64 header_len payload_len;
  p ← shrink_unchecked p total_len;
  p ← ip_set_total_len p (wrap 16 total_len);
  if compute_checksum then
    p ← ip_set_header_checksum p 0;
    checksum ← ip_compute_checksum_unchecked p header_len;
    ip_set_header_checksum p checksum
  else Ret p.
Definition ip_with_options_and_payload_len_unchecked (p : IPv4Packet)
    (options_len payload_len : Z) (compute_checksum : bool) : exec IPv4Packet :=
  header_len ← uadd 64 IP_OPTIONS_OFFSET options_len;
  ip_with_header_and_payload_len_unchecked p header_len payload_len compute_checksum.
Definition ip_with_payload_len_unchecked (p : IPv4Packet) (payload_len : Z)
    (compute_checksum : bool) : exec IPv4Packet :=
  header_len ← ip_header_len p;
  ip_with_header_and_payload_len_unchecked p header_len payload_len compute_checksum.
End Ip.

Definition test_speculative_dst_addr (buf : list Z) (addr : Z) : exec bool :=
  if ETH_PAYLOAD_OFFSET + IP_OPTIONS_OFFSET <=? slen buf then
    bytes ← slice_from buf ETH_PAYLOAD_OFFSET;
    dst ← ip_destination_address bytes;
    Ret (dst =? addr)
  else Ret false.

(** ** UDP *)

Definition UDP_SOURCE_PORT_OFFSET : Z := 0.
Definition UDP_DESTINATION_PORT_OFFSET : Z := 2.
Definition LENGTH_OFFSET : Z := 4.
Definition UDP_CHECKSUM_OFFSET : Z := 6.
Definition UDP_PAYLOAD_OFFSET : Z := 8.
Definition UDP_HEADER_SIZE : Z := 8.
Definition IPV4_MAX_UDP_PACKET_SIZE : Z := 65507.

Inductive UdpError := UdpChecksum | DatagramTooShort | PayloadTooBig.
Abbreviation UdpDatagram := (list Z).

Definition udp_source_port (d : UdpDatagram) : exec Z := ntohs_unchecked d UDP_SOURCE_PORT_OFFSET.
Definition udp_destination_port (d : UdpDatagram) : exec Z :=
  ntohs_unchecked d UDP_DESTINATION_PORT_OFFSET.
Definition udp_len (d : UdpDatagram) : exec Z := ntohs_unchecked d LENGTH_OFFSET.
Definition udp_checksum (d : UdpDatagram) : exec Z := ntohs_unchecked d UDP_CHECKSUM_OFFSET.
Definition udp_payload (d : UdpDatagram) : exec (list Z) :=
  s ← split_at d UDP_PAYLOAD_OFFSET; Ret s.2.
Definition udp_set_source_port (d : UdpDatagram) (v : Z) : exec UdpDatagram :=
  htons_unchecked d UDP_SOURCE_PORT_OFFSET v.
Definition udp_set_destination_port (d : UdpDatagram) (v : Z) : exec UdpDatagram :=
  htons_unchecked d UDP_DESTINATION_PORT_OFFSET v.
Definition udp_set_len (d : UdpDatagram) (v : Z) : exec UdpDatagram :=
  htons_unchecked d LENGTH_OFFSET v.
Definition udp_set_checksum (d : UdpDatagram) (v : Z) : exec UdpDatagram :=
  htons_unchecked d UDP_CHECKSUM_OFFSET v.

Section UdpDatagrams.
Context `{Profile}.

Definition udp_compute_checksum (d : UdpDatagram) (src_addr dst_addr : Z) : exec Z :=
  compute_checksum d src_addr dst_addr Udp.

Definition udp_from_bytes (bytes : list Z) (verify_checksum : option (Z * Z))
    : exec (result UdpDatagram UdpError) :=
  if slen bytes <? UDP_HEADER_SIZE then Ret (Err DatagramTooShort)
  else match verify_checksum with
  | Some (src_addr, dst_addr) =>
      c ← udp_checksum bytes;
      if negb (c =? 0) then
        k ← udp_compute_checksum bytes src_addr dst_addr;
        Ret (if negb (k =? 0xffff) then Err UdpChecksum else Ok bytes)
      else Ret (Ok bytes)
  | None => Ret (Ok bytes)
  end.

(** [packet.payload_mut().copy_from_slice(payload)]: the slice from the payload on
    must have exactly the payload's length. *)
Definition udp_write_incomplete_datagram (buf payload : list Z)
    : exec (result UdpDatagram UdpError) :=
  r ← udp_from_bytes buf None;
  match r with
  | Err e => Ret (Err e)
  | Ok d =>
      len ← uadd 64 (slen payload) UDP_HEADER_SIZE;
      if IPV4_MAX_UDP_PACKET_SIZE <? len then Ret (Err PayloadTooBig)
      else
        d ← shrink_unchecked d len;
        d ← copy_into d UDP_PAYLOAD_OFFSET (slen d) payload;
        d ← udp_set_len d (wrap 16 len);
        Ret (Ok d)
  end.

Definition udp_finalize (d : UdpDatagram) (src_port dst_port : Z)
    (compute_checksum : option (Z * Z)) : exec UdpDatagram :=
  d ← udp_set_source_port d src_port;
  d ← udp_set_destination_port d dst_port;
  d ← udp_set_checksum d 0;
  match compute_checksum with
  | Some (src_addr, dst_addr) =>
      c ← udp_compute_checksum d src_addr dst_addr;
      udp_set_checksum d c
  | None => Ret d
  end.
End UdpDatagrams.

(** ** The layout of an IPv4 packet without options *)

Definition ip_header (total csum protocol src dst : Z) : list Z :=
  [0x45; 0] ++ be_encode 2 total ++ [0; 0; 0; 0; DEFAULT_TTL; protocol] ++
  be_encode 2 csum ++ be_encode 4 src ++ be_encode 4 dst.

Lemma slen_ip_header total csum protocol src dst : slen (ip_header total csum protocol src dst) = 20.
Proof. done. Qed.

Lemma ip_header_ok total csum protocol src dst :
  byte_ok protocol -> bytes_ok (ip_header total csum protocol src dst).
Proof.
  intros Hp. unfold ip_header. rewrite !be_encode_2, !be_encode_4. cbn [app].
  repeat (constructor; [first [apply byte_mod_ok|done|unfold byte_ok, DEFAULT_TTL; lia]|]).
  constructor.
Qed.

Ltac ip_offsets :=
  unfold VERSION_AND_IHL_OFFSET, DSCP_AND_ECN_OFFSET, TOTAL_LEN_OFFSET, IDENTIFICATION_OFFSET,
    FLAGS_AND_FRAGMENTOFF_OFFSET, TTL_OFFSET, PROTOCOL_OFFSET, HEADER_CHECKSUM_OFFSET,
    SOURCE_ADDRESS_OFFSET, DESTINATION_ADDRESS_OFFSET, IP_OPTIONS_OFFSET.

(** Writing the header leaves the length and checksum fields as they were, to be set
    when the packet is complete. *)
Lemma ip_write_header_spec buf protocol src dst : bytes_ok buf -> 20 <= slen buf ->
  exists total csum, in_range 16 total /\ in_range 16 csum /\
    ip_write_header buf protocol src dst =
      Ret (Ok (ip_header total csum protocol src dst ++ drop 20 buf)).
Proof.
  intros Hb H. explode buf H 20%nat.
  do 20 (apply Forall_cons in Hb as [? Hb]).
  exists (256 * b1 + b2), (256 * b9 + b10). unfold ip_header.
  rewrite !be_encode_decode_2 by done.
  split_and!; [unfold byte_ok, in_range in *; simpl Z.pow; lia..|].
  unfold ip_write_header, ip_set_version_and_header_len, ip_set_dscp_and_ecn, ip_set_identification,
    ip_set_flags_and_fragment_offset, ip_set_ttl, ip_set_protocol, ip_set_source_address,
    ip_set_destination_address. ip_offsets. net_run. done.
Qed.

Lemma ip_header_set total csum protocol src dst rest v :
  let p := ip_header total csum protocol src dst ++ rest in
  ip_set_total_len p v = Ret (ip_header v csum protocol src dst ++ rest) /\
  ip_set_header_checksum p v = Ret (ip_header total v protocol src dst ++ rest) /\
  ip_set_source_address p v = Ret (ip_header total csum protocol v dst ++ rest) /\
  ip_set_destination_address p v = Ret (ip_header total csum protocol src v ++ rest).
Proof.
  cbv zeta. unfold ip_header, ip_set_total_len, ip_set_header_checksum, ip_set_source_address,
    ip_set_destination_address. ip_offsets. split_and!; net_run; done.
Qed.

Lemma ip_header_read total csum protocol src dst rest :
  in_range 16 total -> in_range 16 csum -> in_range 32 src -> in_range 32 dst ->
  let p := ip_header total csum protocol src dst ++ rest in
  ip_version_and_header_len p = Ret (IPV4_VERSION, 20) /\ ip_total_len p = Ret total /\
  ip_protocol p = Ret protocol /\ ip_header_checksum p = Ret csum /\
  ip_source_address p = Ret src /\ ip_destination_address p = Ret dst /\ ip_payload p = Ret rest.
Proof.
  intros Ht Hc Hs Hd. cbv zeta.
  unfold ip_header, ip_version_and_header_len, ip_total_len, ip_protocol, ip_header_checksum,
    ip_source_address, ip_destination_address, ip_payload, ip_payload_unchecked, ip_header_len,
    ip_version_and_header_len. ip_offsets.
  split_and!; net_run; rewrite ?read_be_u16_cons, ?read_be_u32_cons, ?u16_bytes, ?u32_bytes;
    try done.
  change (wrap 8 (Z.shiftl (Z.land 69 15) 2)) with 20. by net_run.
Qed.

Lemma sum16_ip_header total csum protocol src dst : in_range 16 csum ->
  sum16 (ip_header total csum protocol src dst) = sum16 (ip_header total 0 protocol src dst) + csum.
Proof.
  intros Hc. unfold ip_header. rewrite !be_encode_2, !be_encode_4. cbn [app sum16].
  rewrite <-(u16_bytes csum Hc) at 3. change (0 / 256) with 0. change (0 mod 256) with 0. lia.
Qed.

Section IpCorrect.
Context `{Profile}.

Definition ip_csum (total protocol src dst : Z) : Z :=
  not16 (fold16 (sum16 (ip_header total 0 protocol src dst))).

Lemma sum16_ip_header_range total csum protocol src dst : byte_ok protocol ->
  0 < sum16 (ip_header total csum protocol src dst) <= 655350.
Proof.
  intros Hp. pose proof (sum16_range _ (ip_header_ok total csum protocol src dst Hp)) as [H1 H2].
  rewrite slen_ip_header in H2. change (20 / 2) with 10 in H2. change (20 mod 2) with 0 in H2.
  split; [|lia]. unfold ip_header. rewrite !be_encode_2, !be_encode_4. cbn [app sum16].
  repeat match goal with |- context [?x mod 256] =>
    lazymatch goal with _ : 0 <= x mod 256 < 256 |- _ => fail | _ => idtac end;
    pose proof (Z.mod_pos_bound x 256 ltac:(lia)) end.
  unfold byte_ok, DEFAULT_TTL in *. lia.
Qed.

Lemma ip_csum_range total protocol src dst : byte_ok protocol ->
  in_range 16 (ip_csum total protocol src dst).
Proof.
  intros Hp. pose proof (sum16_ip_header_range total 0 protocol src dst Hp).
  pose proof (fold16_range (sum16 (ip_header total 0 protocol src dst))).
  unfold ip_csum, not16, in_range. simpl Z.pow. lia.
Qed.

Lemma ip_compute_checksum_header total csum protocol src dst rest :
  byte_ok protocol -> bytes_ok rest ->
  ip_compute_checksum_unchecked (ip_header total csum protocol src dst ++ rest) 20 =
    Ret (not16 (fold16 (sum16 (ip_header total csum protocol src dst)))).
Proof.
  intros Hp Hr. pose proof (sum16_ip_header_range total csum protocol src dst Hp) as Hs.
  unfold ip_compute_checksum_unchecked. change (Z.to_nat (20 / 2)) with 10%nat.
  set (h := ip_header total csum protocol src dst) in *.
  assert (E : take (2 * 10) (h ++ rest) = h) by (rewrite take_app_le by done; by apply take_ge).
  rewrite (add_words_spec 10 0 (h ++ rest) (h ++ rest)); rewrite ?E; try lia.
  - rewrite bind_Ret, Z.add_0_l, fold_sum_spec, bind_Ret by (unfold in_range; simpl Z.pow; lia).
    pose proof (fold16_range (sum16 h)). by rewrite wrap_id by (unfold in_range; simpl Z.pow; lia).
  - apply Forall_app. split; [by apply ip_header_ok|done].
  - by rewrite drop_0.
  - rewrite length_app. change (length h) with 20%nat. lia.
Qed.

(** Completing a packet sets its length and checksum and cuts it to size; the length
    field keeps 16 bits. *)
Lemma ip_complete_wrap total csum protocol src dst rest n :
  byte_ok protocol -> bytes_ok rest -> in_range 16 total -> in_range 16 csum ->
  in_range 32 src -> in_range 32 dst -> 0 <= n <= slen rest -> n < 2 ^ 32 ->
  let t := wrap 16 (20 + n) in
  ip_with_payload_len_unchecked (ip_header total csum protocol src dst ++ rest) n true =
    Ret (ip_header t (ip_csum t protocol src dst) protocol src dst ++ take (Z.to_nat n) rest).
Proof.
  intros Hp Hr Ht Hc Hs Hd Hn Hlt. cbv zeta. unfold ip_with_payload_len_unchecked, ip_header_len.
  destruct (ip_header_read total csum protocol src dst rest Ht Hc Hs Hd) as (-> & _).
  rewrite !bind_Ret. cbn [snd]. unfold ip_with_header_and_payload_len_unchecked.
  rewrite uadd_ok, bind_Ret by (unfold in_range; simpl Z.pow in *; lia).
  unfold shrink_unchecked. rewrite slen_app, slen_ip_header, (proj2 (Z.leb_le _ _)) by lia.
  rewrite bind_Ret, take_app_ge by (change (length (ip_header total csum protocol src dst)) with 20%nat; lia).
  change (length (ip_header total csum protocol src dst)) with 20%nat.
  replace (Z.to_nat (20 + n) - 20)%nat with (Z.to_nat n) by lia.
  set (t := wrap 16 (20 + n)).
  rewrite (proj1 (ip_header_set total csum protocol src dst _ _)), bind_Ret.
  rewrite (proj1 (proj2 (ip_header_set t csum protocol src dst _ _))), bind_Ret.
  rewrite ip_compute_checksum_header, bind_Ret by (done || by apply Forall_take).
  by rewrite (proj1 (proj2 (ip_header_set t 0 protocol src dst _ _))).
Qed.

Lemma ip_complete_spec total csum protocol src dst rest n :
  byte_ok protocol -> bytes_ok rest -> in_range 16 total -> in_range 16 csum ->
  in_range 32 src -> in_range 32 dst -> 0 <= n <= slen rest -> 20 + n < 65536 ->
  ip_with_payload_len_unchecked (ip_header total csum protocol src dst ++ rest) n true =
    Ret (ip_header (20 + n) (ip_csum (20 + n) protocol src dst) protocol src dst ++
         take (Z.to_nat n) rest).
Proof.
  intros Hp Hr Ht Hc Hs Hd Hn Hlt. rewrite ip_complete_wrap by (first [done|simpl Z.pow; lia]).
  by rewrite wrap_id by (unfold in_range; simpl Z.pow; lia).
Qed.

Lemma ip_from_bytes_complete protocol src dst payload verify :
  byte_ok protocol -> bytes_ok payload -> in_range 32 src -> in_range 32 dst ->
  20 + slen payload < 65536 ->
  let p := ip_header (20 + slen payload) (ip_csum (20 + slen payload) protocol src dst)
             protocol src dst ++ payload in
  ip_from_bytes p verify = Ret (Ok p).
Proof.
  intros Hp Hb Hs Hd Hlt p. pose proof (slen_nonneg payload) as Hn.
  set (t := 20 + slen payload) in *. set (c := ip_csum t protocol src dst) in *.
  assert (Ht : in_range 16 t) by (unfold in_range; simpl Z.pow; lia).
  assert (Hc : in_range 16 c) by by apply ip_csum_range.
  destruct (ip_header_read t c protocol src dst payload Ht Hc Hs Hd) as (E1 & E2 & _).
  fold p in E1, E2. unfold ip_from_bytes, IP_OPTIONS_OFFSET.
  assert (El : slen p = t) by (unfold p; rewrite slen_app, slen_ip_header; done).
  rewrite El, (proj2 (Z.ltb_ge t 20)), E1, bind_Ret by lia. cbn [negb].
  rewrite E2, bind_Ret, (proj2 (Z.ltb_ge t 20)), (Z.eqb_refl t) by lia.
  cbn [negb]. change (20 <? 20) with false. cbn iota. destruct verify; [|done].
  unfold p. rewrite ip_compute_checksum_header, bind_Ret, sum16_ip_header by done.
  unfold c, ip_csum. rewrite fold16_complement; [done|].
  by apply sum16_ip_header_range.
Qed.
End IpCorrect.

(** The header length field is a multiple of four up to 60, and summing that many
    bytes does not overflow. *)
Lemma ip_header_len_range bytes : bytes_ok bytes -> 20 <= slen bytes ->
  exists v hl, ip_version_and_header_len bytes = Ret (v, hl) /\ 0 <= hl <= 60.
Proof.
  intros Hb H. explode bytes H 20%nat. unfold ip_version_and_header_len. ip_offsets.
  net_run. do 2 eexists. split; [done|].
  change 0x0f with (Z.ones 4). rewrite Z.land_ones, Z.shiftl_mul_pow2 by lia.
  pose proof (Z.mod_pos_bound b (2 ^ 4) ltac:(lia)) as Hm. simpl Z.pow in *.
  rewrite wrap_id by (unfold in_range; simpl Z.pow; lia). lia.
Qed.

Lemma ip_compute_checksum_returns `{Profile} bytes hl :
  bytes_ok bytes -> 0 <= hl <= 60 -> hl <= slen bytes ->
  returns (ip_compute_checksum_unchecked bytes hl).
Proof.
  intros Hb Hl Hs. unfold ip_compute_checksum_unchecked, returns.
  pose proof (Z.div_mod hl 2 ltac:(lia)). pose proof (Z.mod_pos_bound hl 2 ltac:(lia)).
  set (n := Z.to_nat (hl / 2)).
  pose proof (sum16_range (take (2 * n) bytes) ltac:(by apply Forall_take)) as Hr.
  assert (El : slen (take (2 * n) bytes) <= 60) by (unfold slen; rewrite length_take; lia).
  pose proof (Z.div_le_mono (slen (take (2 * n) bytes)) 60 2 ltac:(lia) El) as Hd.
  pose proof (Z.mod_pos_bound (slen (take (2 * n) bytes)) 2 ltac:(lia)).
  change (60 / 2) with 30 in Hd.
  rewrite (add_words_spec n 0 bytes bytes);
    [|lia|lia|done|by rewrite drop_0|unfold slen in *; lia|simpl Z.pow; lia].
  rewrite bind_Ret, fold_sum_spec by (unfold in_range; simpl Z.pow; lia). eauto.
Qed.

(** Parsing never panics; what it accepts has version 4, the length its header says,
    and a header between 20 bytes and the whole packet. *)
Lemma ip_from_bytes_sound `{Profile} bytes verify : bytes_ok bytes ->
  exists r, ip_from_bytes bytes verify = Ret r /\
    forall p, r = Ok p -> p = bytes /\ ip_total_len p = Ret (slen p) /\
      exists hl, ip_version_and_header_len p = Ret (IPV4_VERSION, hl) /\ 20 <= hl <= slen p /\ hl <= 60.
Proof.
  intros Hb. unfold ip_from_bytes, IP_OPTIONS_OFFSET.
  destruct (Z.ltb_spec (slen bytes) 20) as [H1|H1]; [eauto with congruence|].
  destruct (ip_header_len_range bytes Hb H1) as (v & hl & E1 & Hhl). rewrite E1, bind_Ret.
  destruct (Z.eqb_spec v IPV4_VERSION) as [->|]; cbn [negb]; [|eauto with congruence].
  assert (Ht : exists t, ip_total_len bytes = Ret t).
  { unfold ip_total_len, ntohs_unchecked, slice_from. ip_offsets.
    rewrite (proj2 (Z.leb_le _ _)) by lia. rewrite bind_Ret. eauto. }
  destruct Ht as [t Et]. rewrite Et, bind_Ret.
  destruct (Z.ltb_spec t hl) as [|Hth]; [eauto with congruence|].
  destruct (Z.eqb_spec t (slen bytes)) as [->|]; cbn [negb]; [|eauto with congruence].
  destruct (Z.ltb_spec hl 20) as [|H20]; [eauto with congruence|].
  assert (Hok : forall p, Ok bytes = @Ok _ IPv4Error p -> p = bytes /\ ip_total_len p = Ret (slen p) /\
    exists hl, ip_version_and_header_len p = Ret (IPV4_VERSION, hl) /\ 20 <= hl <= slen p /\ hl <= 60).
  { intros p [= <-]. split_and!; [done|done|]. exists hl. split_and!; [done|lia..]. }
  destruct verify; [|eauto].
  destruct (ip_compute_checksum_returns bytes hl Hb) as [c ->]; [lia..|].
  rewrite bind_Ret. destruct (negb (c =? 0)); eauto with congruence.
Qed.

(** An IPv4 packet written is a packet read.  Writing a header into any buffer of
    20 bytes or more and completing it with a payload length that fits gives, without
    panicking and in both profiles, a packet that [ip_from_bytes] accepts with its
    checksum verified, and from which the protocol, both addresses, the length and
    the payload bytes of the buffer are read back. *)
Theorem ip_write_parse_roundtrip `{Profile} buf protocol src dst n :
  bytes_ok buf -> byte_ok protocol -> in_range 32 src -> in_range 32 dst ->
  20 + n <= slen buf -> 0 <= n < 65536 - 20 ->
  exists h p,
    ip_write_header buf protocol src dst = Ret (Ok h) /\
    ip_with_payload_len_unchecked h n true = Ret p /\
    ip_from_bytes p true = Ret (Ok p) /\ slen p = 20 + n /\ ip_total_len p = Ret (20 + n) /\
    ip_protocol p = Ret protocol /\ ip_source_address p = Ret src /\
    ip_destination_address p = Ret dst /\
    ip_payload p = Ret (take (Z.to_nat n) (drop 20 buf)).
Proof.
  intros Hb Hp Hs Hd Hl Hn.
  destruct (ip_write_header_spec buf protocol src dst Hb ltac:(lia)) as (t & c & Ht & Hc & E).
  set (payload := take (Z.to_nat n) (drop 20 buf)).
  assert (El : slen payload = n).
  { unfold payload, slen. rewrite length_take, length_drop. unfold slen in *. lia. }
  assert (Hpl : bytes_ok payload) by (by apply Forall_take, Forall_drop).
  exists (ip_header t c protocol src dst ++ drop 20 buf),
    (ip_header (20 + n) (ip_csum (20 + n) protocol src dst) protocol src dst ++ payload).
  destruct (ip_header_read (20 + n) (ip_csum (20 + n) protocol src dst) protocol src dst payload)
    as (_ & E2 & E3 & _ & E5 & E6 & E7);
    [unfold in_range; simpl Z.pow; lia|by apply ip_csum_range|done|done|].
  split_and!; try done.
  - apply ip_complete_spec; try done; [by apply Forall_drop|unfold slen in *; rewrite length_drop; lia|lia].
  - rewrite <-El. apply ip_from_bytes_complete; try done. lia.
  - rewrite slen_app, slen_ip_header. lia.
Qed.

Lemma ip_write_parse_roundtrip_witness : exists h p,
    ip_write_header (replicate 22 7) 17 0xa9fea9fe 0x0a000001 = Ret (Ok h) /\
    ip_with_payload_len_unchecked (H := dev_profile) h 2 true = Ret p /\
    ip_from_bytes (H := dev_profile) p true = Ret (Ok p) /\ slen p = 20 + 2 /\
    ip_total_len p = Ret (20 + 2) /\
    ip_protocol p = Ret 17 /\ ip_source_address p = Ret 0xa9fea9fe /\
    ip_destination_address p = Ret 0x0a000001 /\ ip_payload p = Ret [7; 7].
Proof.
  apply (ip_write_parse_roundtrip (H := dev_profile) (replicate 22 7) 17 0xa9fea9fe 0x0a000001 2).
  - apply Forall_replicate. unfold byte_ok. lia.
  - unfold byte_ok. lia.
  - unfold in_range. simpl. lia.
  - unfold in_range. simpl. lia.
  - unfold slen. simpl. lia.
  - lia.
Defined.

(** ** UDP datagrams *)

Definition udp_layout (sport dport len csum : Z) (payload : list Z) : list Z :=
  be_encode 2 sport ++ be_encode 2 dport ++ be_encode 2 len ++ be_encode 2 csum ++ payload.

Lemma udp_layout_read sport dport len csum payload :
  in_range 16 sport -> in_range 16 dport -> in_range 16 len -> in_range 16 csum ->
  let d := udp_layout sport dport len csum payload in
  udp_source_port d = Ret sport /\ udp_destination_port d = Ret dport /\ udp_len d = Ret len /\
  udp_checksum d = Ret csum /\ udp_payload d = Ret payload.
Proof.
  intros H1 H2 H3 H4. cbv zeta. unfold udp_layout, udp_source_port, udp_destination_port, udp_len,
    udp_checksum, udp_payload, UDP_SOURCE_PORT_OFFSET, UDP_DESTINATION_PORT_OFFSET, LENGTH_OFFSET,
    UDP_CHECKSUM_OFFSET, UDP_PAYLOAD_OFFSET.
  split_and!; net_run; rewrite ?read_be_u16_cons, ?u16_bytes; done.
Qed.

Lemma udp_layout_set sport dport len csum payload v :
  let d := udp_layout sport dport len csum payload in
  udp_set_source_port d v = Ret (udp_layout v dport len csum payload) /\
  udp_set_destination_port d v = Ret (udp_layout sport v len csum payload) /\
  udp_set_checksum d v = Ret (udp_layout sport dport len v payload).
Proof.
  cbv zeta. unfold udp_layout, udp_set_source_port, udp_set_destination_port, udp_set_checksum,
    UDP_SOURCE_PORT_OFFSET, UDP_DESTINATION_PORT_OFFSET, UDP_CHECKSUM_OFFSET.
  split_and!; net_run; done.
Qed.

Lemma slen_udp_layout sport dport len csum payload :
  slen (udp_layout sport dport len csum payload) = 8 + slen payload.
Proof. unfold udp_layout. rewrite !be_encode_2. cbn [app]. rewrite !slen_cons. lia. Qed.

Lemma sum16_udp_layout sport dport len csum payload : in_range 16 csum ->
  sum16 (udp_layout sport dport len csum payload) =
    sum16 (udp_layout sport dport len 0 payload) + csum.
Proof.
  intros Hc. unfold udp_layout. rewrite !be_encode_2. cbn [app sum16].
  rewrite <-(u16_bytes csum Hc) at 3. change (0 / 256) with 0. change (0 mod 256) with 0. lia.
Qed.

Lemma udp_layout_ok sport dport len csum payload :
  bytes_ok payload -> bytes_ok (udp_layout sport dport len csum payload).
Proof.
  intros Hp. unfold udp_layout. rewrite !be_encode_2. cbn [app].
  repeat (constructor; [apply byte_mod_ok|]). done.
Qed.

(** The payload is copied behind the header and the length set; the other fields
    keep what the buffer held. *)
Lemma udp_write_incomplete_spec `{Profile} buf payload :
  bytes_ok buf -> slen payload + 8 <= slen buf -> slen payload + 8 <= IPV4_MAX_UDP_PACKET_SIZE ->
  exists sport dport csum, in_range 16 sport /\ in_range 16 dport /\ in_range 16 csum /\
    udp_write_incomplete_datagram buf payload =
      Ret (Ok (udp_layout sport dport (slen payload + 8) csum payload)).
Proof.
  intros Hb Hl Hm. unfold IPV4_MAX_UDP_PACKET_SIZE in Hm. pose proof (slen_nonneg payload) as Hn.
  unfold udp_write_incomplete_datagram, udp_from_bytes, UDP_HEADER_SIZE, IPV4_MAX_UDP_PACKET_SIZE.
  rewrite (proj2 (Z.ltb_ge (slen buf) 8)), bind_Ret by lia.
  rewrite uadd_ok, bind_Ret, (proj2 (Z.ltb_ge 65507 _)) by (unfold in_range; simpl Z.pow; lia).
  unfold shrink_unchecked. rewrite (proj2 (Z.leb_le _ (slen buf))), bind_Ret by lia.
  assert (H8 : 8 <= slen buf) by lia. explode buf H8 8%nat. clear H8.
  do 8 (apply Forall_cons in Hb as [? Hb]). rewrite !slen_cons in Hl.
  replace (Z.to_nat (slen payload + 8)) with (8 + length payload)%nat by (unfold slen; lia).
  cbn [Nat.add take]. set (rest := take (length payload) buf).
  assert (Er : length rest = length payload) by (unfold rest; rewrite length_take; unfold slen in *; lia).
  exists (256 * b + b0), (256 * b1 + b2), (256 * b5 + b6).
  split_and!; [unfold byte_ok, in_range in *; simpl Z.pow; lia..|].
  unfold UDP_PAYLOAD_OFFSET.
  change (b :: b0 :: b1 :: b2 :: b3 :: b4 :: b5 :: b6 :: rest)
    with ([b; b0; b1; b2; b3; b4; b5; b6] ++ rest). rewrite <-(app_nil_r rest).
  rewrite copy_into_app by (rewrite ?slen_app; unfold slen; cbn [length]; lia).
  rewrite bind_Ret, app_nil_r, wrap_id by (unfold in_range; simpl Z.pow; lia).
  unfold udp_layout, udp_set_len, LENGTH_OFFSET. rewrite !be_encode_decode_2 by done. net_run. done.
Qed.

(** A UDP datagram written is a datagram read.  For a payload of up to 65499 bytes
    and a buffer with room for it, [udp_write_incomplete_datagram] and [udp_finalize]
    give, without panicking and in both profiles, a datagram that [udp_from_bytes]
    accepts with its checksum verified, and whose ports, length and payload are those
    given; its checksum field is never zero, which would mean "no checksum". *)
Theorem udp_write_parse_roundtrip `{Profile} buf payload sport dport src dst :
  bytes_ok buf -> bytes_ok payload -> slen payload + 8 <= slen buf ->
  slen payload + 8 <= IPV4_MAX_UDP_PACKET_SIZE ->
  in_range 16 sport -> in_range 16 dport -> in_range 32 src -> in_range 32 dst ->
  exists d0 d c,
    udp_write_incomplete_datagram buf payload = Ret (Ok d0) /\
    udp_finalize d0 sport dport (Some (src, dst)) = Ret d /\
    udp_from_bytes d (Some (src, dst)) = Ret (Ok d) /\
    udp_source_port d = Ret sport /\ udp_destination_port d = Ret dport /\
    udp_len d = Ret (slen d) /\ udp_payload d = Ret payload /\ udp_checksum d = Ret c /\ c <> 0.
Proof.
  intros Hb Hp Hl Hm H1 H2 Hs Hd. pose proof (slen_nonneg payload) as Hn.
  destruct (udp_write_incomplete_spec buf payload Hb Hl Hm) as (sp & dp & cs & Hsp & Hdp & Hcs & E).
  unfold IPV4_MAX_UDP_PACKET_SIZE in Hm. set (len := slen payload + 8) in *.
  set (d1 := udp_layout sport dport len 0 payload).
  set (s := pseudo_sum src dst Udp (slen d1) + sum16 d1).
  assert (Hs0 : 0 < s).
  { unfold s. pose proof (pseudo_sum_range src dst Udp (slen d1) Hs Hd (slen_nonneg _)).
    pose proof (sum16_range d1 (udp_layout_ok _ _ _ _ _ Hp)). lia. }
  set (c := csum_of Udp s). assert (Hc : in_range 16 c) by (apply csum_of_range; lia).
  destruct (csum_verifies_udp s Hs0) as [Hc0 Hcv]. fold c in Hc0, Hcv.
  set (d := udp_layout sport dport len c payload).
  assert (Eld : slen d = len) by (unfold d; rewrite slen_udp_layout; lia).
  destruct (udp_layout_read sport dport len c payload) as (R1 & R2 & R3 & R4 & R5); try done;
    [unfold in_range; simpl Z.pow; lia|]. fold d in R1, R2, R3, R4, R5.
  exists (udp_layout sp dp len cs payload), d, c. split_and!; try done; [| |by rewrite Eld].
  - unfold udp_finalize, udp_compute_checksum.
    rewrite (proj1 (udp_layout_set _ _ _ _ _ _)), bind_Ret.
    rewrite (proj1 (proj2 (udp_layout_set _ _ _ _ _ _))), bind_Ret.
    rewrite (proj2 (proj2 (udp_layout_set _ _ _ _ _ _))), bind_Ret.
    rewrite compute_checksum_ok, bind_Ret; try done; [|by apply udp_layout_ok|].
    + exact (proj2 (proj2 (udp_layout_set sport dport len 0 payload c))).
    + unfold CHECKSUM_MAX_LEN. rewrite slen_udp_layout. lia.
  - unfold udp_from_bytes, UDP_HEADER_SIZE, udp_compute_checksum.
    rewrite (proj2 (Z.ltb_ge (slen d) 8)), R4, bind_Ret, (proj2 (Z.eqb_neq c 0)) by lia. cbn [negb].
    rewrite compute_checksum_ok, bind_Ret; try done;
      [|by apply udp_layout_ok|unfold CHECKSUM_MAX_LEN; lia].
    unfold d at 1 2. rewrite sum16_udp_layout by done. fold d1. rewrite slen_udp_layout.
    replace (8 + slen payload) with (slen d1) by (unfold d1; by rewrite slen_udp_layout).
    rewrite Z.add_assoc. fold s. by rewrite Hcv.
Qed.

Lemma udp_write_parse_roundtrip_witness : exists d0 d c,
    udp_write_incomplete_datagram (H := dev_profile) (replicate 12 9) [1; 2; 3] = Ret (Ok d0) /\
    udp_finalize (H := dev_profile) d0 53 1234 (Some (0x7f000001, 0x7f000001)) = Ret d /\
    udp_from_bytes (H := dev_profile) d (Some (0x7f000001, 0x7f000001)) = Ret (Ok d) /\
    udp_source_port d = Ret 53 /\ udp_destination_port d = Ret 1234 /\
    udp_len d = Ret (slen d) /\ udp_payload d = Ret [1; 2; 3] /\ udp_checksum d = Ret c /\ c <> 0.
Proof.
  apply (udp_write_parse_roundtrip (H := dev_profile) (replicate 12 9) [1; 2; 3] 53 1234
           0x7f000001 0x7f000001).
  - apply Forall_replicate. unfold byte_ok. lia.
  - repeat constructor; lia.
  - unfold slen. simpl. lia.
  - unfold slen, IPV4_MAX_UDP_PACKET_SIZE. simpl. lia.
  - unfold in_range. simpl. lia.
  - unfold in_range. simpl. lia.
  - unfold in_range. simpl. lia.
  - unfold in_range. simpl. lia.
Defined.

(** The limit is compared with the length of header and payload together, so payloads
    of 65500 to 65507 bytes are refused although the constant's comment allows them;
    and a buffer shorter than the datagram is a panic, not an error. *)
Lemma udp_payload_limit `{Profile} buf payload :
  8 <= slen buf -> 65500 <= slen payload <= 65507 ->
  udp_write_incomplete_datagram buf payload = Ret (Err PayloadTooBig).
Proof.
  intros Hb Hp. unfold udp_write_incomplete_datagram, udp_from_bytes, UDP_HEADER_SIZE,
    IPV4_MAX_UDP_PACKET_SIZE.
  rewrite (proj2 (Z.ltb_ge (slen buf) 8)), bind_Ret, uadd_ok, bind_Ret, (proj2 (Z.ltb_lt _ _)); try lia.
  - done.
  - unfold in_range. simpl Z.pow. lia.
Qed.

Lemma udp_short_buffer_panics `{Profile} buf payload :
  8 <= slen buf < slen payload + 8 -> slen payload + 8 <= IPV4_MAX_UDP_PACKET_SIZE ->
  udp_write_incomplete_datagram buf payload = Panic.
Proof.
  unfold IPV4_MAX_UDP_PACKET_SIZE. intros Hb Hp.
  unfold udp_write_incomplete_datagram, udp_from_bytes, UDP_HEADER_SIZE, IPV4_MAX_UDP_PACKET_SIZE.
  rewrite (proj2 (Z.ltb_ge (slen buf) 8)), bind_Ret by lia.
  rewrite uadd_ok, bind_Ret, (proj2 (Z.ltb_ge _ _)) by (unfold in_range; simpl Z.pow; lia).
  unfold shrink_unchecked. by rewrite (proj2 (Z.leb_gt _ _)) by lia.
Qed.

(** The speculative test accepts every frame whose packet is for the address. *)
Lemma test_speculative_dst_addr_complete dst src total csum protocol a b rest :
  slen dst = 6 -> slen src = 6 -> in_range 32 b ->
  test_speculative_dst_addr
    (eth_layout dst src ETHERTYPE_IPV4 (ip_header total csum protocol a b ++ rest)) b = Ret true.
Proof.
  intros Hd Hs Hb. unfold test_speculative_dst_addr, ETH_PAYLOAD_OFFSET. ip_offsets.
  unfold eth_layout, ip_header, ip_destination_address. ip_offsets.
  explode_all dst Hd 6%nat. explode_all src Hs 6%nat. change (14 + 20) with 34. net_run.
  rewrite read_be_u32_cons, u32_bytes by done. by rewrite Z.eqb_refl.
Qed.
