(* ===== verification/PduTcp.v ===== *)
(** * TCP segments

    Models [dumbo/src/pdu/tcp.rs].  A segment is the slice it wraps; the flags are
    the bits of their header byte ([Flags] names all eight, so [from_bits_truncate]
    loses nothing).  Writing a segment into a buffer returns the segment, cut to its
    length, and the buffer, which is changed even where the write ends in an error.

    The theorems: a segment written is a segment read, checksum, MSS option and
    payload included; and [parse_mss_option_unchecked] returns unless it reaches an
    option whose length byte is zero, where it loops for ever. *)

From Stdlib Require Import ZArith Lia.
From stdpp Require Import functions prelude.
From S2P Require Import Prelude NetBytes PduLink.

Definition SOURCE_PORT_OFFSET : Z := 0.
Definition DESTINATION_PORT_OFFSET : Z := 2.
Definition SEQ_NUMBER_OFFSET : Z := 4.
Definition ACK_NUMBER_OFFSET : Z := 8.
Definition DATAOFF_RSVD_NS_OFFSET : Z := 12.
Definition FLAGS_AFTER_NS_OFFSET : Z := 13.
Definition WINDOW_SIZE_OFFSET : Z := 14.
Definition CHECKSUM_OFFSET : Z := 16.
Definition URG_POINTER_OFFSET : Z := 18.
Definition OPTIONS_OFFSET : Z := 20.
Definition MAX_HEADER_LEN : Z := 60.
Definition OPTION_KIND_EOL : Z := 0.
Definition OPTION_KIND_NOP : Z := 1.
Definition OPTION_KIND_MSS : Z := 2.
Definition OPTION_LEN_MSS : Z := 4.
Definition MSS_MIN : Z := 100.

(** The flags, and [Flags::intersects]. *)
Definition CWR : Z := 128.
Definition ECE : Z := 64.
Definition URG : Z := 32.
Definition ACK : Z := 16.
Definition PSH : Z := 8.
Definition RST : Z := 4.
Definition SYN : Z := 2.
Definition FIN : Z := 1.
Definition intersects (a b : Z) : bool := negb (Z.land a b =? 0).

Inductive TcpError :=
| TcpChecksum | EmptyPayload | TcpHeaderLen | MssOption | MssRemaining | TcpSliceTooShort.

Abbreviation TcpSegment := (list Z).

Definition source_port (s : TcpSegment) : exec Z := ntohs_unchecked s SOURCE_PORT_OFFSET.
Definition destination_port (s : TcpSegment) : exec Z := ntohs_unchecked s DESTINATION_PORT_OFFSET.
Definition sequence_number (s : TcpSegment) : exec Z := ntohl_unchecked s SEQ_NUMBER_OFFSET.
Definition ack_number (s : TcpSegment) : exec Z := ntohl_unchecked s ACK_NUMBER_OFFSET.
Definition header_len_rsvd_ns (s : TcpSegment) : exec (Z * Z * bool) :=
  value ← index s DATAOFF_RSVD_NS_OFFSET;
  let data_offset := Z.shiftr value 4 in
  Ret (data_offset * 4, Z.land value 0x0e, negb (Z.land value 1 =? 0)).
Definition header_len (s : TcpSegment) : exec Z := h ← header_len_rsvd_ns s; Ret h.1.1.
Definition flags_after_ns (s : TcpSegment) : exec Z := index s FLAGS_AFTER_NS_OFFSET.
Definition window_size (s : TcpSegment) : exec Z := ntohs_unchecked s WINDOW_SIZE_OFFSET.
Definition tcp_checksum (s : TcpSegment) : exec Z := ntohs_unchecked s CHECKSUM_OFFSET.
Definition urgent_pointer (s : TcpSegment) : exec Z := ntohs_unchecked s URG_POINTER_OFFSET.
Definition options_unchecked (s : TcpSegment) (header_len : Z) : exec (list Z) :=
  subslice s OPTIONS_OFFSET header_len.
Definition payload_unchecked (s : TcpSegment) (header_len : Z) : exec (list Z) :=
  p ← split_at s header_len; Ret p.2.
Definition payload (s : TcpSegment) : exec (list Z) :=
  hl ← header_len s; payload_unchecked s hl.

(** ** Options *)

(** [while i + 3 < b.len()], from position [i] on. *)
Fixpoint parse_mss_loop (fuel : nat) (b : list Z) (i : Z) : outcome (result (option Z) TcpError) :=
  match fuel with
  | O => Hang
  | S fuel =>
      if i + 3 <? slen b then
        kind ← lift (index b i);
        if kind =? OPTION_KIND_EOL then Done (Ok None)
        else if kind =? OPTION_KIND_NOP then parse_mss_loop fuel b (i + 1)
        else if kind =? OPTION_KIND_MSS then
          mss ← lift (ntohs_unchecked b (i + 2));
          Done (if mss <? MSS_MIN then Err MssOption else Ok (Some mss))
        else
          len ← lift (index b (i + 1));
          parse_mss_loop fuel b (i + len)
      else Done (Ok None)
  end.

(** One more step than the options have bytes is enough for every run that ends
    ([parse_mss_option_hangs]). *)
Definition parse_mss_option_unchecked (s : TcpSegment) (header_len : Z)
    : outcome (result (option Z) TcpError) :=
  b ← lift (options_unchecked s header_len);
  parse_mss_loop (S (length b)) b 0.

(** ** Parsing and writing *)

Section Segments.
Context `{Profile}.

Definition payload_len (s : TcpSegment) : exec Z :=
  hl ← header_len s; usub 64 (slen s) hl.

Definition tcp_compute_checksum (s : TcpSegment) (src_addr dst_addr : Z) : exec Z :=
  compute_checksum s src_addr dst_addr Tcp.

Definition tcp_from_bytes (bytes : list Z) (verify_checksum : option (Z * Z))
    : exec (result TcpSegment TcpError) :=
  if slen bytes <? OPTIONS_OFFSET then Ret (Err TcpSliceTooShort)
  else
    hl ← header_len bytes;
    if (hl <? OPTIONS_OFFSET) || (Z.min MAX_HEADER_LEN (slen bytes) <? hl)
    then Ret (Err TcpHeaderLen)
    else match verify_checksum with
    | Some (src_addr, dst_addr) =>
        c ← tcp_compute_checksum bytes src_addr dst_addr;
        if negb (c =? 0) then Ret (Err TcpChecksum) else Ret (Ok bytes)
    | None => Ret (Ok bytes)
    end.

Definition set_source_port (s : TcpSegment) (v : Z) := htons_unchecked s SOURCE_PORT_OFFSET v.
Definition set_destination_port (s : TcpSegment) (v : Z) := htons_unchecked s DESTINATION_PORT_OFFSET v.
Definition set_sequence_number (s : TcpSegment) (v : Z) := htonl_unchecked s SEQ_NUMBER_OFFSET v.
Definition set_ack_number (s : TcpSegment) (v : Z) := htonl_unchecked s ACK_NUMBER_OFFSET v.
Definition set_header_len_rsvd_ns (s : TcpSegment) (header_len : Z) (ns : bool) : exec TcpSegment :=
  let value := wrap 8 (Z.shiftl (wrap 8 header_len) 2) in
  set_index s DATAOFF_RSVD_NS_OFFSET (if ns then Z.lor value 1 else value).
Definition set_flags_after_ns (s : TcpSegment) (flags : Z) := set_index s FLAGS_AFTER_NS_OFFSET flags.
Definition set_window_size (s : TcpSegment) (v : Z) := htons_unchecked s WINDOW_SIZE_OFFSET v.
Definition set_checksum (s : TcpSegment) (v : Z) := htons_unchecked s CHECKSUM_OFFSET v.
Definition set_urgent_pointer (s : TcpSegment) (v : Z) := htons_unchecked s URG_POINTER_OFFSET v.

(** The chain of setters that fills in the fixed part of the header. *)
Definition write_fields (buf : list Z) (seq ack flags window hl : Z) : exec (list Z) :=
  s ← set_sequence_number buf seq;
  s ← set_ack_number s ack;
  s ← set_header_len_rsvd_ns s hl false;
  s ← set_flags_after_ns s flags;
  s ← set_window_size s window;
  set_urgent_pointer s 0.

(** How many bytes the options take of the buffer and of the segment size. *)
Definition reserve_options (mss_option : option Z) (mss_remaining : Z) : option (Z * Z) :=
  match mss_option with
  | Some _ => if mss_remaining <? OPTION_LEN_MSS then None
              else Some (mss_remaining - OPTION_LEN_MSS, OPTION_LEN_MSS)
  | None => Some (mss_remaining, 0)
  end.

Definition write_mss_option (s : TcpSegment) (mss_option : option Z) : exec TcpSegment :=
  match mss_option with
  | Some value =>
      s ← set_index s OPTIONS_OFFSET OPTION_KIND_MSS;
      s ← set_index s (OPTIONS_OFFSET + 1) OPTION_LEN_MSS;
      htons_unchecked s (OPTIONS_OFFSET + 2) value
  | None => Ret s
  end.

(** The payload goes behind the options; the segment is what has been written, the
    buffer may be longer. *)
Definition write_payload (s : list Z) (segment_len mss_left : Z) (payload : option (list Z * Z))
    : exec (result TcpSegment TcpError * list Z) :=
  match payload with
  | Some (payload_buf, max_payload_bytes) =>
      let left_to_read := Z.min (slen payload_buf) max_payload_bytes in
      room ← usub 64 (slen s) segment_len;
      let room_for_payload := Z.min (Z.min room mss_left) left_to_read in
      if room_for_payload =? 0 then Ret (Err EmptyPayload, s)
      else
        data ← subslice payload_buf 0 room_for_payload;
        s ← copy_into s segment_len (segment_len + room_for_payload) data;
        seg ← shrink_unchecked s (segment_len + room_for_payload);
        Ret (Ok seg, s)
  | None =>
      seg ← shrink_unchecked s segment_len;
      Ret (Ok seg, s)
  end.

(** The segment or the error, and the buffer as the call leaves it. *)
Definition write_incomplete_segment (buf : list Z) (seq_number ack_number flags window : Z)
    (mss_option : option Z) (mss_remaining : Z) (payload : option (list Z * Z))
    : exec (result TcpSegment TcpError * list Z) :=
  match reserve_options mss_option mss_remaining with
  | None => Ret (Err MssRemaining, buf)
  | Some (mss_left, options_len) =>
      let segment_len := OPTIONS_OFFSET + options_len in
      if slen buf <? segment_len then Ret (Err TcpSliceTooShort, buf)
      else
        s ← write_fields buf seq_number ack_number flags window (OPTIONS_OFFSET + options_len);
        s ← write_mss_option s mss_option;
        write_payload s segment_len mss_left payload
  end.

Definition tcp_finalize (s : TcpSegment) (src_port dst_port : Z)
    (compute_checksum : option (Z * Z)) : exec TcpSegment :=
  s ← set_source_port s src_port;
  s ← set_destination_port s dst_port;
  match compute_checksum with
  | Some (src_addr, dst_addr) =>
      s ← set_checksum s 0;
      c ← tcp_compute_checksum s src_addr dst_addr;
      set_checksum s c
  | None => Ret s
  end.

(** A complete segment: the parts above in sequence. *)
Definition write_segment (buf : list Z) (src_port dst_port seq_number ack_number flags window : Z)
    (mss_option : option Z) (mss_remaining : Z) (payload : option (list Z * Z))
    (compute_checksum : option (Z * Z)) : exec (result TcpSegment TcpError) :=
  r ← write_incomplete_segment buf seq_number ack_number flags window mss_option mss_remaining payload;
  match r.1 with
  | Err e => Ret (Err e)
  | Ok s => s ← tcp_finalize s src_port dst_port compute_checksum; Ret (Ok s)
  end.
End Segments.

(** ** When parsing the options ends *)

(** [mss_next b i j]: reading the option at [i] moves on to [j]. *)
Inductive mss_next (b : list Z) (i : Z) : Z -> Prop :=
| next_nop : i + 3 < slen b -> index b i = Ret OPTION_KIND_NOP -> mss_next b i (i + 1)
| next_other k n : i + 3 < slen b -> index b i = Ret k ->
    k <> OPTION_KIND_EOL -> k <> OPTION_KIND_NOP -> k <> OPTION_KIND_MSS ->
    index b (i + 1) = Ret n -> mss_next b i (i + n).

(** The option at [i] is not one of those known, and says its length is zero. *)
Definition mss_stuck (b : list Z) (i : Z) : Prop := mss_next b i i.

Lemma index_ok b i : bytes_ok b -> 0 <= i < slen b -> exists v, index b i = Ret v /\ byte_ok v.
Proof.
  intros Hb Hi. destruct (lookup_lt_is_Some_2 b (Z.to_nat i)) as [v Hv]; [unfold slen in Hi; lia|].
  exists v. unfold index. rewrite Hv. split; [done|]. by eapply Forall_lookup_1.
Qed.

Lemma ntohs_returns b i : 0 <= i <= slen b -> exists v, ntohs_unchecked b i = Ret v.
Proof.
  intros Hi. unfold ntohs_unchecked, slice_from. rewrite (proj2 (Z.leb_le _ _)) by lia.
  rewrite bind_Ret. eauto.
Qed.

(** One step of the loop: it returns, or goes on to the next position. *)
Lemma parse_mss_step b i : bytes_ok b -> 0 <= i ->
  (exists r, forall f, parse_mss_loop (S f) b i = Done r) \/
  (exists j, mss_next b i j /\ i <= j /\ forall f, parse_mss_loop (S f) b i = parse_mss_loop f b j).
Proof.
  intros Hb Hi. cbn [parse_mss_loop]. fold parse_mss_loop. destruct (Z.ltb_spec (i + 3) (slen b)) as [Hl|Hl]; [|eauto].
  destruct (index_ok b i Hb ltac:(lia)) as (k & Ek & _). rewrite Ek. cbn [lift].
  setoid_rewrite bind_Done. destruct (Z.eqb_spec k OPTION_KIND_EOL); [eauto|].
  destruct (Z.eqb_spec k OPTION_KIND_NOP) as [->|].
  { right. exists (i + 1). split; [by apply next_nop|]. split; [lia|done]. }
  destruct (Z.eqb_spec k OPTION_KIND_MSS) as [->|].
  { left. destruct (ntohs_returns b (i + 2) ltac:(lia)) as [v ->]. cbn [lift].
    setoid_rewrite bind_Done. eauto. }
  destruct (index_ok b (i + 1) Hb ltac:(lia)) as (m & Em & Hm). rewrite Em. cbn [lift].
  right. exists (i + m). split; [by apply next_other with k|].
  unfold byte_ok in Hm. split; [lia|done].
Qed.

Lemma parse_mss_stuck b i : mss_stuck b i -> forall f, parse_mss_loop f b i = Hang.
Proof.
  intros Hs f. induction f as [|f IH]; [done|]. cbn [parse_mss_loop].
  inversion Hs as [H1 H2 H3|k m H1 H2 H3 H4 H5 H6 H7]; [lia|].
  rewrite (proj2 (Z.ltb_lt _ _)), H2 by done. cbn [lift]. rewrite bind_Done.
  rewrite !(proj2 (Z.eqb_neq _ _)) by done. rewrite H6. cbn [lift]. rewrite bind_Done.
  by rewrite H7, H7.
Qed.

(** Either a result is reached within one step per remaining byte, or the run comes
    to an option it cannot leave. *)
Lemma parse_mss_progress b n : forall i, bytes_ok b -> 0 <= i -> Z.max 0 (slen b - i) < Z.of_nat n ->
  (exists r, parse_mss_loop n b i = Done r) \/
  (exists j, rtc (mss_next b) i j /\ mss_stuck b j).
Proof.
  induction n as [|n IH]; intros i Hb Hi Hn; [lia|].
  destruct (parse_mss_step b i Hb Hi) as [[r Hr]|(j & Hj & Hij & Hf)]; [eauto|].
  destruct (decide (i = j)) as [<-|Hne]; [right; exists i; split; [reflexivity|done]|].
  assert (Hlt : i + 3 < slen b) by by destruct Hj.
  rewrite Hf. destruct (IH j Hb) as [Hr|(k & Hk & Hs)]; [lia|lia|by left|].
  right. exists k. split; [by apply rtc_l with j|done].
Qed.

Lemma parse_mss_reach_stuck b i j f : bytes_ok b -> 0 <= i ->
  rtc (mss_next b) i j -> mss_stuck b j -> parse_mss_loop f b i = Hang.
Proof.
  intros Hb Hi Hr Hs. revert f. revert Hi. induction Hr as [i|i k j Hn _ IH]; intros Hi f.
  { by apply parse_mss_stuck. }
  destruct f as [|f]; [done|].
  destruct (parse_mss_step b i Hb Hi) as [[r Hd]|(k' & Hk & Hle & Hf)].
  - exfalso. specialize (Hd 0%nat). revert Hd. cbn [parse_mss_loop].
    destruct Hn as [H1 H2|x m H1 H2 H3 H4 H5 H6].
    + rewrite (proj2 (Z.ltb_lt _ _)), H2 by done. done.
    + rewrite (proj2 (Z.ltb_lt _ _)), H2 by done. cbn [lift]. rewrite bind_Done.
      rewrite !(proj2 (Z.eqb_neq _ _)) by done. by rewrite H6.
  - assert (k' = k) as ->.
    { inversion Hn; inversion Hk; simplify_eq; unfold OPTION_KIND_NOP in *; congruence. }
    rewrite Hf. apply IH; [done|lia].
Qed.

Lemma options_bytes_ok s hl b : bytes_ok s -> options_unchecked s hl = Ret b -> bytes_ok b.
Proof.
  intros Hs Eb. unfold options_unchecked, subslice in Eb. bool_cases; exec_inv.
  by apply Forall_take, Forall_drop.
Qed.

Lemma parse_mss_option_no_crash s hl b : bytes_ok s -> options_unchecked s hl = Ret b ->
  parse_mss_option_unchecked s hl <> Crash.
Proof.
  intros Hs Eb. pose proof (options_bytes_ok s hl b Hs Eb) as Hb.
  unfold parse_mss_option_unchecked. rewrite Eb. cbn [lift]. rewrite bind_Done.
  destruct (parse_mss_progress b (S (length b)) 0 Hb) as [[r ->]|(j & Hj & Hst)];
    [lia|unfold slen; lia|done|].
  by rewrite (parse_mss_reach_stuck b 0 j _ Hb ltac:(lia) Hj Hst).
Qed.

(** Parsing the TCP options of a segment whose header lies in the slice never
    panics; it fails to return exactly when, skipping from option to option, it reaches
    one that is not EOL, NOP or MSS and whose length byte is zero, and then it loops for
    ever, whatever the number of iterations. *)
Theorem parse_mss_option_hangs s hl b :
  bytes_ok s -> options_unchecked s hl = Ret b ->
  parse_mss_option_unchecked s hl <> Crash /\
  (parse_mss_option_unchecked s hl = Hang <->
     exists j, rtc (mss_next b) 0 j /\ mss_stuck b j) /\
  (parse_mss_option_unchecked s hl = Hang <-> forall fuel, parse_mss_loop fuel b 0 = Hang).
Proof.
  intros Hs Eb. pose proof (options_bytes_ok s hl b Hs Eb) as Hb.
  split; [by apply parse_mss_option_no_crash with b|].
  unfold parse_mss_option_unchecked. rewrite Eb. cbn [lift]. rewrite bind_Done.
  destruct (parse_mss_progress b (S (length b)) 0 Hb) as [[r Hr]|(j & Hj & Hst)];
    [lia|unfold slen; lia| |].
  - rewrite Hr. split.
    + split; [done|]. intros (j & Hj & Hst).
      by rewrite (parse_mss_reach_stuck b 0 j _ Hb ltac:(lia) Hj Hst) in Hr.
    + split; [done|]. intros Hf. by rewrite Hf in Hr.
  - assert (Hh : forall fuel, parse_mss_loop fuel b 0 = Hang)
      by (intros f; by apply (parse_mss_reach_stuck b 0 j)).
    rewrite Hh. split; [split; eauto|done].
Qed.

(** A SYN whose options are a window-scale option with length zero: the loop never
    leaves its first position. *)
Definition hanging_options : list Z := [3; 0; 0; 0].
Definition hanging_syn : TcpSegment :=
  [4; 0; 0; 80; 0; 0; 0; 1; 0; 0; 0; 0; 0x60; 2; 16; 0; 0; 0; 0; 0] ++ hanging_options.

Lemma parse_mss_option_hangs_witness :
  options_unchecked hanging_syn 24 = Ret hanging_options /\
  parse_mss_option_unchecked hanging_syn 24 = Hang /\
  forall fuel, parse_mss_loop fuel hanging_options 0 = Hang.
Proof.
  split; [reflexivity|]. split; [reflexivity|].
  apply (parse_mss_option_hangs hanging_syn 24 hanging_options).
  - repeat (constructor; [unfold byte_ok; lia|]). constructor.
  - reflexivity.
  - reflexivity.
Defined.

(** ** The layout of a segment *)

Definition tcp_header (sport dport seq ack hl flags window csum urg : Z) : list Z :=
  be_encode 2 sport ++ be_encode 2 dport ++ be_encode 4 seq ++ be_encode 4 ack ++
  [hl * 4; flags] ++ be_encode 2 window ++ be_encode 2 csum ++ be_encode 2 urg.

Definition mss_bytes (mss_option : option Z) : list Z :=
  match mss_option with Some v => [OPTION_KIND_MSS; OPTION_LEN_MSS] ++ be_encode 2 v | None => [] end.
Definition mss_len (mss_option : option Z) : Z :=
  match mss_option with Some _ => OPTION_LEN_MSS | None => 0 end.

Ltac tcp_offsets :=
  unfold SOURCE_PORT_OFFSET, DESTINATION_PORT_OFFSET, SEQ_NUMBER_OFFSET, ACK_NUMBER_OFFSET,
    DATAOFF_RSVD_NS_OFFSET, FLAGS_AFTER_NS_OFFSET, WINDOW_SIZE_OFFSET, CHECKSUM_OFFSET,
    URG_POINTER_OFFSET, OPTIONS_OFFSET.

Lemma slen_tcp_header a b c d e f g h i : slen (tcp_header a b c d e f g h i) = 20.
Proof. done. Qed.

Lemma tcp_header_ok sport dport seq ack hl flags window csum urg :
  byte_ok (hl * 4) -> byte_ok flags ->
  bytes_ok (tcp_header sport dport seq ack hl flags window csum urg).
Proof.
  intros Hh Hf. unfold tcp_header. rewrite !be_encode_2, !be_encode_4. cbn [app].
  repeat (constructor; [first [apply byte_mod_ok|done]|]). constructor.
Qed.

Lemma mss_bytes_ok mss : bytes_ok (mss_bytes mss).
Proof.
  destruct mss; [|constructor]. unfold mss_bytes. rewrite be_encode_2. cbn [app].
  unfold OPTION_KIND_MSS, OPTION_LEN_MSS.
  repeat (constructor; [first [apply byte_mod_ok|unfold byte_ok; lia]|]). constructor.
Qed.

Lemma slen_mss_bytes mss : slen (mss_bytes mss) = mss_len mss.
Proof. by destruct mss. Qed.

Lemma tcp_header_read sport dport seq ack hl flags window csum urg rest :
  in_range 16 sport -> in_range 16 dport -> in_range 32 seq -> in_range 32 ack ->
  in_range 16 window -> in_range 16 csum -> 20 <= hl <= 60 -> hl mod 4 = 0 -> byte_ok flags ->
  let s := tcp_header sport dport seq ack hl flags window csum urg ++ rest in
  source_port s = Ret sport /\ destination_port s = Ret dport /\ sequence_number s = Ret seq /\
  ack_number s = Ret ack /\ header_len s = Ret hl /\ flags_after_ns s = Ret flags /\
  window_size s = Ret window /\ tcp_checksum s = Ret csum.
Proof.
  intros H1 H2 H3 H4 H5 H6 Hh Hm Hf. cbv zeta.
  unfold tcp_header, source_port, destination_port, sequence_number, ack_number, header_len,
    header_len_rsvd_ns, flags_after_ns, window_size, tcp_checksum. tcp_offsets.
  split_and!; net_run; rewrite ?read_be_u16_cons, ?read_be_u32_cons, ?u16_bytes, ?u32_bytes; try done.
  cbn [fst]. rewrite Z.shiftr_div_pow2 by lia. f_equal. simpl Z.pow.
  apply Z.mod_divide in Hm as [k ->]; [|lia].
  replace (k * 4 * 4) with (k * 16) by lia. by rewrite Z.div_mul.
Qed.

Lemma tcp_header_set sport dport seq ack hl flags window csum urg rest v :
  let s := tcp_header sport dport seq ack hl flags window csum urg ++ rest in
  set_source_port s v = Ret (tcp_header v dport seq ack hl flags window csum urg ++ rest) /\
  set_destination_port s v = Ret (tcp_header sport v seq ack hl flags window csum urg ++ rest) /\
  set_checksum s v = Ret (tcp_header sport dport seq ack hl flags window v urg ++ rest) /\
  set_flags_after_ns s v = Ret (tcp_header sport dport seq ack hl v window csum urg ++ rest).
Proof.
  cbv zeta. unfold tcp_header, set_source_port, set_destination_port, set_checksum, set_flags_after_ns.
  tcp_offsets. split_and!; net_run; done.
Qed.

Lemma sum16_tcp_header sport dport seq ack hl flags window csum urg rest : in_range 16 csum ->
  sum16 (tcp_header sport dport seq ack hl flags window csum urg ++ rest) =
    sum16 (tcp_header sport dport seq ack hl flags window 0 urg ++ rest) + csum.
Proof.
  intros Hc. unfold tcp_header. rewrite !be_encode_2, !be_encode_4. cbn [app sum16].
  rewrite <-(u16_bytes csum Hc) at 3. change (0 / 256) with 0. change (0 mod 256) with 0. lia.
Qed.

Lemma write_fields_spec buf seq ack flags window hl :
  bytes_ok buf -> 20 <= slen buf -> 20 <= hl <= 60 ->
  exists sport dport csum, in_range 16 sport /\ in_range 16 dport /\ in_range 16 csum /\
    write_fields buf seq ack flags window hl =
      Ret (tcp_header sport dport seq ack hl flags window csum 0 ++ drop 20 buf).
Proof.
  intros Hb H Hh. explode buf H 20%nat. do 20 (apply Forall_cons in Hb as [? Hb]).
  exists (256 * b + b0), (256 * b1 + b2), (256 * b15 + b16). unfold tcp_header.
  rewrite !be_encode_decode_2 by done.
  split_and!; [unfold byte_ok, in_range in *; simpl Z.pow; lia..|].
  unfold write_fields, set_sequence_number, set_ack_number, set_header_len_rsvd_ns, set_flags_after_ns,
    set_window_size, set_urgent_pointer. tcp_offsets.
  rewrite (wrap_id 8 hl), Z.shiftl_mul_pow2, wrap_id by (unfold in_range; simpl Z.pow; lia).
  net_run. rewrite drop_0. do 2 f_equal.
Qed.

Lemma write_mss_option_spec h rest mss : slen h = 20 -> mss_len mss <= slen rest ->
  write_mss_option (h ++ rest) mss =
    Ret (h ++ mss_bytes mss ++ drop (Z.to_nat (mss_len mss)) rest).
Proof.
  intros Hh Hl. destruct mss as [v|]; [|by rewrite drop_0].
  unfold mss_len, OPTION_LEN_MSS in *. explode_all h Hh 20%nat. explode rest Hl 4%nat.
  unfold write_mss_option, mss_bytes. tcp_offsets. change (20 + 1) with 21. change (20 + 2) with 22.
  net_run. done.
Qed.

(** Bytes of a payload that go into a segment, given the room in buffer and segment
    size. *)
Definition payload_room (buf : list Z) (mss_option : option Z) (mss_remaining : Z)
    (pb : list Z) (max : Z) : Z :=
  Z.min (Z.min (slen buf - (20 + mss_len mss_option)) (mss_remaining - mss_len mss_option))
        (Z.min (slen pb) max).

Definition segment_data (buf : list Z) (mss_option : option Z) (mss_remaining : Z)
    (payload : option (list Z * Z)) : list Z :=
  match payload with
  | Some (pb, max) => take (Z.to_nat (payload_room buf mss_option mss_remaining pb max)) pb
  | None => []
  end.

Lemma shrink_app pre post n : n = slen pre -> shrink_unchecked (pre ++ post) n = Ret pre.
Proof.
  intros ->. unfold shrink_unchecked. rewrite slen_app, (proj2 (Z.leb_le _ _)).
  - by rewrite take_app_length' by (unfold slen; lia).
  - pose proof (slen_nonneg post). lia.
Qed.

Lemma write_payload_spec `{Profile} pre rest mss_left payload :
  0 <= mss_left -> slen (pre ++ rest) < 2 ^ 64 ->
  (forall pb max, payload = Some (pb, max) -> 0 <= max) ->
  write_payload (pre ++ rest) (slen pre) mss_left payload = Ret
    match payload with
    | Some (pb, max) =>
        let n := Z.min (Z.min (slen rest) mss_left) (Z.min (slen pb) max) in
        if n =? 0 then (Err EmptyPayload, pre ++ rest)
        else let data := take (Z.to_nat n) pb in
             (Ok (pre ++ data), pre ++ data ++ drop (Z.to_nat n) rest)
    | None => (Ok pre, pre ++ rest)
    end.
Proof.
  intros Hm Hl Hp. unfold write_payload. destruct payload as [[pb max]|]; [|by rewrite shrink_app].
  specialize (Hp pb max eq_refl). pose proof (slen_nonneg pre). pose proof (slen_nonneg rest).
  pose proof (slen_nonneg pb). rewrite slen_app in *.
  rewrite usub_ok, bind_Ret by (unfold in_range; lia).
  replace (slen pre + slen rest - slen pre) with (slen rest) by lia. cbv zeta.
  set (n := Z.min (Z.min (slen rest) mss_left) (Z.min (slen pb) max)).
  destruct (Z.eqb_spec n 0); [done|]. unfold subslice.
  rewrite (proj2 (Z.leb_le 0 n)), (proj2 (Z.leb_le n (slen pb))) by lia. cbn [andb].
  rewrite bind_Ret, drop_0, Z.sub_0_r. set (data := take (Z.to_nat n) pb).
  assert (Ed : slen data = n) by (unfold data, slen in *; rewrite length_take; lia).
  rewrite <-(take_drop (Z.to_nat n) rest) at 1.
  rewrite copy_into_app, bind_Ret; [|done|lia|unfold slen in *; rewrite length_take; lia].
  rewrite app_assoc, shrink_app, bind_Ret by (rewrite slen_app; lia). by rewrite <-app_assoc.
Qed.

(** Every outcome of a write, and what it leaves in the buffer. *)
Record write_outcome (buf : list Z) (seq ack flags window : Z) (mss : option Z) (mss_rem : Z)
    (payload : option (list Z * Z)) (r : result TcpSegment TcpError) (buf' : list Z) : Prop := {
  wo_len : slen buf' = slen buf;
  wo_bytes : bytes_ok buf';
  wo_result :
    (mss_rem < mss_len mss /\ r = Err MssRemaining) \/
    (mss_len mss <= mss_rem /\ slen buf < 20 + mss_len mss /\ r = Err TcpSliceTooShort) \/
    (exists pb max, payload = Some (pb, max) /\ payload_room buf mss mss_rem pb max = 0 /\
       mss_len mss <= mss_rem /\ 20 + mss_len mss <= slen buf /\ r = Err EmptyPayload) \/
    (exists sport dport csum, in_range 16 sport /\ in_range 16 dport /\ in_range 16 csum /\
       mss_len mss <= mss_rem /\ 20 + mss_len mss <= slen buf /\
       (forall pb max, payload = Some (pb, max) -> 0 < payload_room buf mss mss_rem pb max) /\
       r = Ok (tcp_header sport dport seq ack (20 + mss_len mss) flags window csum 0 ++
               mss_bytes mss ++ segment_data buf mss mss_rem payload))
}.

Lemma write_payload_outcome `{Profile} buf rest sport dport seq ack flags window csum mss mss_rem payload :
  bytes_ok rest -> byte_ok flags -> slen buf < 2 ^ 64 -> mss_len mss <= mss_rem ->
  slen rest = slen buf - (20 + mss_len mss) -> in_range 16 sport -> in_range 16 dport -> in_range 16 csum ->
  (forall pb max, payload = Some (pb, max) -> bytes_ok pb /\ 0 <= max) ->
  exists r buf',
    write_payload ((tcp_header sport dport seq ack (20 + mss_len mss) flags window csum 0 ++ mss_bytes mss)
        ++ rest) (20 + mss_len mss) (mss_rem - mss_len mss) payload = Ret (r, buf') /\
    write_outcome buf seq ack flags window mss mss_rem payload r buf'.
Proof.
  intros Hrest Hf Hl H1 Erest Hs Hd Hc Hp. pose proof (slen_nonneg rest).
  set (h := tcp_header sport dport seq ack (20 + mss_len mss) flags window csum 0).
  assert (Hml : 0 <= mss_len mss <= 4) by (destruct mss; unfold mss_len, OPTION_LEN_MSS; lia).
  assert (Hpre : bytes_ok (h ++ mss_bytes mss)).
  { apply Forall_app. split; [apply tcp_header_ok; unfold byte_ok in *; lia|apply mss_bytes_ok]. }
  assert (Epre : slen (h ++ mss_bytes mss) = 20 + mss_len mss) by by rewrite slen_app, slen_mss_bytes.
  rewrite <-Epre, write_payload_spec; [|lia|rewrite slen_app; lia|intros; by eapply Hp].
  assert (Hok : (forall pb max, payload = Some (pb, max) -> 0 < payload_room buf mss mss_rem pb max) ->
    write_outcome buf seq ack flags window mss mss_rem payload
      (Ok (h ++ mss_bytes mss ++ segment_data buf mss mss_rem payload))
      ((h ++ mss_bytes mss) ++ segment_data buf mss mss_rem payload ++
        drop (length (segment_data buf mss mss_rem payload)) rest)).
  { intros Hroom. assert (Hd' : bytes_ok (segment_data buf mss mss_rem payload) /\
      slen (segment_data buf mss mss_rem payload) <= slen rest).
    { destruct payload as [[pb max]|]; cbn [segment_data]; [|by split; [constructor|]].
      destruct (Hp pb max eq_refl). split; [by apply Forall_take|].
      unfold slen at 1. rewrite length_take. unfold payload_room. lia. }
    destruct Hd' as [Hd1 Hd2]. constructor.
    - rewrite (slen_app (h ++ mss_bytes mss)), Epre, slen_app.
      unfold slen in *. rewrite length_drop. lia.
    - apply Forall_app. split; [done|]. apply Forall_app. split; [done|by apply Forall_drop].
    - right; right; right. exists sport, dport, csum. split_and!; try done; lia. }
  destruct payload as [[pb max]|]; cbv zeta.
  - rewrite Erest. fold (payload_room buf mss mss_rem pb max).
    destruct (Hp pb max eq_refl) as [Hpb Hmax]. pose proof (slen_nonneg pb).
    cbn [segment_data] in Hok. set (n := payload_room buf mss mss_rem pb max) in *.
    assert (Hn0 : 0 <= n <= slen pb) by (unfold n, payload_room; lia).
    destruct (Z.eqb_spec n 0) as [E|E].
    + do 2 eexists. split; [done|]. constructor; [rewrite slen_app; lia|by apply Forall_app|].
      right; right; left. exists pb, max. split_and!; try done; lia.
    + rewrite length_take in Hok. replace (Z.to_nat n `min` length pb)%nat with (Z.to_nat n) in Hok
        by (unfold slen in *; lia).
      do 2 eexists. split; [done|]. rewrite <-app_assoc at 1. apply Hok. intros ? ? [= <- <-]. fold n. lia.
  - do 2 eexists. split; [done|]. cbn [segment_data length app drop] in Hok. rewrite drop_0, app_nil_r in Hok.
    apply Hok. done.
Qed.

Lemma write_incomplete_segment_spec `{Profile} buf seq ack flags window mss mss_rem payload :
  bytes_ok buf -> byte_ok flags -> 0 <= mss_rem -> slen buf < 2 ^ 64 ->
  (forall pb max, payload = Some (pb, max) -> bytes_ok pb /\ 0 <= max) ->
  exists r buf', write_incomplete_segment buf seq ack flags window mss mss_rem payload = Ret (r, buf') /\
    write_outcome buf seq ack flags window mss mss_rem payload r buf'.
Proof.
  intros Hb Hf Hm Hl Hp. unfold write_incomplete_segment.
  destruct (Z.ltb_spec mss_rem (mss_len mss)) as [H1|H1].
  { exists (Err MssRemaining), buf. split; [|by constructor; auto].
    unfold reserve_options, mss_len in *. destruct mss; [|lia].
    by rewrite (proj2 (Z.ltb_lt _ _)). }
  assert (Er : reserve_options mss mss_rem = Some (mss_rem - mss_len mss, mss_len mss)).
  { unfold reserve_options, mss_len in *. destruct mss; [|by rewrite Z.sub_0_r].
    by rewrite (proj2 (Z.ltb_ge _ _)). }
  rewrite Er. unfold OPTIONS_OFFSET. destruct (Z.ltb_spec (slen buf) (20 + mss_len mss)) as [H2|H2].
  { exists (Err TcpSliceTooShort), buf. split; [done|by constructor; auto]. }
  assert (Hml : 0 <= mss_len mss <= 4) by (destruct mss; unfold mss_len, OPTION_LEN_MSS; lia).
  destruct (write_fields_spec buf seq ack flags window (20 + mss_len mss)) as
    (sport & dport & csum & Hs & Hd & Hc & E); [done|lia|lia|]. rewrite E, bind_Ret. clear E.
  rewrite write_mss_option_spec, bind_Ret, drop_drop; [|done|unfold slen in *; rewrite length_drop; lia].
  rewrite app_assoc. apply write_payload_outcome; try done; [by apply Forall_drop|].
  unfold slen in *. rewrite length_drop. lia.
Qed.

(** The checksum a finished segment carries. *)
Definition tcp_csum (sport dport seq ack hl flags window : Z) (rest : list Z) (src dst : Z) : Z :=
  let s := tcp_header sport dport seq ack hl flags window 0 0 ++ rest in
  csum_of Tcp (pseudo_sum src dst Tcp (slen s) + sum16 s).

Section Finalize.
Context `{Profile}.
Variables (sport dport seq ack hl flags window : Z) (rest : list Z) (src dst : Z).
Hypothesis Hsrc : in_range 32 src.
Hypothesis Hdst : in_range 32 dst.
Hypothesis Hhl : 20 <= hl <= 60.
Hypothesis Hflags : byte_ok flags.
Hypothesis Hrest : bytes_ok rest.
Hypothesis Hlen : slen rest <= 65535.

Let c := tcp_csum sport dport seq ack hl flags window rest src dst.

Lemma tcp_sum_pos :
  0 < pseudo_sum src dst Tcp (20 + slen rest) + sum16 (tcp_header sport dport seq ack hl flags window 0 0 ++ rest).
Proof.
  pose proof (slen_nonneg rest).
  pose proof (pseudo_sum_range src dst Tcp (20 + slen rest) Hsrc Hdst ltac:(lia)).
  assert (Hb : bytes_ok (tcp_header sport dport seq ack hl flags window 0 0 ++ rest)).
  { apply Forall_app. split; [apply tcp_header_ok; unfold byte_ok; [lia|done]|done]. }
  pose proof (sum16_range _ Hb). lia.
Qed.

Lemma tcp_csum_range : in_range 16 c.
Proof.
  pose proof tcp_sum_pos as Hp. apply csum_of_range. rewrite slen_app, slen_tcp_header. lia.
Qed.

Lemma tcp_csum_eq : c = csum_of Tcp (pseudo_sum src dst Tcp (20 + slen rest) +
  sum16 (tcp_header sport dport seq ack hl flags window 0 0 ++ rest)).
Proof. unfold c, tcp_csum. by rewrite slen_app, slen_tcp_header. Qed.

Lemma tcp_compute_checksum_header x :
  tcp_compute_checksum (tcp_header sport dport seq ack hl flags window x 0 ++ rest) src dst =
    Ret (csum_of Tcp (pseudo_sum src dst Tcp (20 + slen rest) +
                      sum16 (tcp_header sport dport seq ack hl flags window x 0 ++ rest))).
Proof.
  unfold tcp_compute_checksum. rewrite compute_checksum_ok; try done.
  - by rewrite slen_app, slen_tcp_header.
  - apply Forall_app. split; [apply tcp_header_ok; unfold byte_ok; [lia|done]|done].
  - rewrite slen_app, slen_tcp_header. unfold CHECKSUM_MAX_LEN. lia.
Qed.

Lemma tcp_finalize_spec sport0 dport0 csum0 :
  tcp_finalize (tcp_header sport0 dport0 seq ack hl flags window csum0 0 ++ rest) sport dport (Some (src, dst)) =
    Ret (tcp_header sport dport seq ack hl flags window c 0 ++ rest).
Proof.
  unfold tcp_finalize.
  rewrite (proj1 (tcp_header_set _ _ _ _ _ _ _ _ _ _ _)), bind_Ret.
  rewrite (proj1 (proj2 (tcp_header_set _ _ _ _ _ _ _ _ _ _ _))), bind_Ret.
  rewrite (proj1 (proj2 (proj2 (tcp_header_set _ _ _ _ _ _ _ _ _ _ _)))), bind_Ret.
  rewrite tcp_compute_checksum_header, bind_Ret, <-tcp_csum_eq.
  by rewrite (proj1 (proj2 (proj2 (tcp_header_set _ _ _ _ _ _ _ _ _ _ _)))).
Qed.

Lemma tcp_from_bytes_finished verify :
  in_range 16 sport -> in_range 16 dport -> in_range 32 seq -> in_range 32 ack -> in_range 16 window ->
  hl mod 4 = 0 -> hl <= 20 + slen rest -> (verify = None \/ verify = Some (src, dst)) ->
  let s := tcp_header sport dport seq ack hl flags window c 0 ++ rest in
  tcp_from_bytes s verify = Ret (Ok s).
Proof.
  intros H1 H2 H3 H4 H5 Hm Hl Hv s. unfold tcp_from_bytes, OPTIONS_OFFSET, MAX_HEADER_LEN.
  destruct (tcp_header_read sport dport seq ack hl flags window c 0 rest)
    as (_ & _ & _ & _ & E & _); try done; [by apply tcp_csum_range|]. fold s in E.
  assert (El : slen s = 20 + slen rest) by (unfold s; by rewrite slen_app, slen_tcp_header).
  pose proof (slen_nonneg rest). rewrite El, (proj2 (Z.ltb_ge _ 20)), E, bind_Ret by lia.
  rewrite (proj2 (Z.ltb_ge hl 20)), (proj2 (Z.ltb_ge _ hl)) by lia. cbn [orb].
  destruct Hv as [->| ->]; [done|]. unfold s. rewrite tcp_compute_checksum_header, bind_Ret.
  rewrite sum16_tcp_header, Z.add_assoc by apply tcp_csum_range.
  rewrite tcp_csum_eq, csum_verifies_tcp by apply tcp_sum_pos. done.
Qed.
End Finalize.

(** Options and payload read back. *)
Lemma options_read h mss data hl : slen h = 20 -> hl = 20 + mss_len mss ->
  options_unchecked (h ++ mss_bytes mss ++ data) hl = Ret (mss_bytes mss) /\
  payload_unchecked (h ++ mss_bytes mss ++ data) hl = Ret data.
Proof.
  intros Hh ->. pose proof (slen_mss_bytes mss) as Em. pose proof (slen_nonneg data).
  assert (0 <= mss_len mss) by (destruct mss; done).
  unfold options_unchecked, payload_unchecked, subslice, split_at, OPTIONS_OFFSET.
  rewrite !slen_app, Em, Hh.
  rewrite (proj2 (Z.leb_le 20 _)), (proj2 (Z.leb_le (20 + _) _)) by lia. cbn [andb].
  rewrite bind_Ret. split.
  - f_equal. rewrite drop_app_length' by (unfold slen in Hh; lia).
    apply take_app_length'. unfold slen in *. lia.
  - cbn [snd]. f_equal. rewrite app_assoc. apply drop_app_length'.
    rewrite length_app. unfold slen in *. lia.
Qed.

Lemma parse_mss_bytes s hl mss : options_unchecked s hl = Ret (mss_bytes mss) ->
  (forall v, mss = Some v -> MSS_MIN <= v < 65536) -> parse_mss_option_unchecked s hl = Done (Ok mss).
Proof.
  intros E Hv. unfold parse_mss_option_unchecked. rewrite E. cbn [lift]. rewrite bind_Done.
  destruct mss as [v|]; [|done]. specialize (Hv v eq_refl).
  unfold mss_bytes. rewrite be_encode_2. pose proof (u16_bytes v) as Eu. unfold MSS_MIN, in_range in *.
  set (x := (v / 256) mod 256) in *. set (y := v mod 256) in *.
  change (Done (if read_be_u16 [x; y] <? 100 then Err MssOption else Ok (Some (read_be_u16 [x; y])))
    = Done (Ok (Some v))).
  rewrite read_be_u16_cons, Eu by (simpl Z.pow; lia). by rewrite (proj2 (Z.ltb_ge _ _)) by lia.
Qed.

(** A TCP segment written is a segment read.  In both profiles, for every buffer of
    up to 65535 bytes, [write_segment] returns; it succeeds exactly when the MSS option
    and the fixed header fit and, if a payload is given, at least one byte of it does.
    A segment it writes is accepted by [tcp_from_bytes] with its checksum verified, and
    carries the ports, sequence and acknowledgement numbers, flags and window given,
    the MSS option, and as payload the longest prefix of the data that fits the buffer,
    the segment size and the given maximum. *)
Theorem tcp_write_parse_roundtrip `{Profile} buf sport dport seq ack flags window mss mss_rem pl src dst :
  bytes_ok buf -> slen buf <= 65535 -> in_range 16 sport -> in_range 16 dport -> in_range 32 seq ->
  in_range 32 ack -> byte_ok flags -> in_range 16 window -> 0 <= mss_rem ->
  in_range 32 src -> in_range 32 dst -> (forall v, mss = Some v -> MSS_MIN <= v < 65536) ->
  (forall pb max, pl = Some (pb, max) -> bytes_ok pb /\ 0 <= max) ->
  exists r, write_segment buf sport dport seq ack flags window mss mss_rem pl (Some (src, dst)) = Ret r /\
    (r = Err MssRemaining <-> mss_rem < mss_len mss) /\
    (r = Err TcpSliceTooShort <-> mss_len mss <= mss_rem /\ slen buf < 20 + mss_len mss) /\
    (mss_len mss <= mss_rem -> 20 + mss_len mss <= slen buf ->
     (forall pb max, pl = Some (pb, max) -> 0 < payload_room buf mss mss_rem pb max) ->
     exists s, r = Ok s) /\
    (forall s, r = Ok s ->
      tcp_from_bytes s (Some (src, dst)) = Ret (Ok s) /\
      source_port s = Ret sport /\ destination_port s = Ret dport /\ sequence_number s = Ret seq /\
      ack_number s = Ret ack /\ flags_after_ns s = Ret flags /\ window_size s = Ret window /\
      parse_mss_option_unchecked s (20 + mss_len mss) = Done (Ok mss) /\
      payload s = Ret (segment_data buf mss mss_rem pl)).
Proof.
  intros Hb Hbl H1 H2 H3 H4 Hf H5 Hm Hs Hd Hv Hp. unfold write_segment.
  destruct (write_incomplete_segment_spec buf seq ack flags window mss mss_rem pl)
    as (r0 & buf' & -> & W); try done; [simpl Z.pow; lia|]. rewrite bind_Ret. cbn [fst].
  destruct (wo_result _ _ _ _ _ _ _ _ _ _ W)
    as [[? ->]|[(? & ? & ->)|[(pb & max & -> & Hr & ? & ? & ->)|(sp & dp & cs & _ & _ & _ & Hml & Hbuf & Hroom & ->)]]].
  - eexists. split; [done|]. split_and!; [done|split; [done|lia]|lia|done].
  - eexists. split; [done|]. split_and!; [split; [done|lia]|done|lia|done].
  - eexists. split; [done|]. split_and!; [split; [done|lia]|split; [done|lia]| |done].
    intros _ _ Hpos. specialize (Hpos pb max eq_refl). lia.
  - set (data := segment_data buf mss mss_rem pl).
    assert (Hdata : bytes_ok data /\ slen data <= slen buf - (20 + mss_len mss)).
    { unfold data. destruct pl as [[pb max]|]; cbn [segment_data].
      - destruct (Hp pb max eq_refl). split; [by apply Forall_take|].
        specialize (Hroom pb max eq_refl). unfold slen at 1. rewrite length_take.
        unfold payload_room in *. lia.
      - split; [constructor|]. change (slen []) with 0. lia. }
    destruct Hdata as [Hd1 Hd2].
    assert (Hlm : 0 <= mss_len mss <= 4) by (destruct mss; unfold mss_len, OPTION_LEN_MSS; lia).
    assert (Hl4 : (20 + mss_len mss) mod 4 = 0) by by destruct mss.
    assert (Hrest : bytes_ok (mss_bytes mss ++ data)) by (apply Forall_app; split; [apply mss_bytes_ok|done]).
    assert (Erest : slen (mss_bytes mss ++ data) = mss_len mss + slen data) by by rewrite slen_app, slen_mss_bytes.
    rewrite tcp_finalize_spec, bind_Ret; try done; [|lia|lia].
    set (c := tcp_csum _ _ _ _ _ _ _ _ _ _). set (h := tcp_header _ _ _ _ _ _ _ c _).
    assert (Hc : in_range 16 c) by (apply tcp_csum_range; done || lia).
    destruct (tcp_header_read sport dport seq ack (20 + mss_len mss) flags window c 0 (mss_bytes mss ++ data))
      as (R1 & R2 & R3 & R4 & R5 & R6 & R7 & _); try done; [lia|].
    fold h in R1, R2, R3, R4, R5, R6, R7.
    destruct (options_read h mss data (20 + mss_len mss)) as [O1 O2]; [done|done|].
    eexists. split; [done|]. split_and!; [split; [done|lia]|split; [done|lia]|eauto|].
    intros s Es. assert (s = h ++ mss_bytes mss ++ data) as -> by congruence. clear Es.
    split_and!; try done; [|by apply parse_mss_bytes|].
    + apply tcp_from_bytes_finished; try done; [lia|lia|rewrite Erest; pose proof (slen_nonneg data); lia|by right].
    + unfold payload. by rewrite R5, bind_Ret.
Qed.

Definition sample_buf : list Z := replicate 40 0.

Lemma tcp_write_parse_roundtrip_witness :
  exists r, write_segment (H := dev_profile) sample_buf 80 1234 1000 2000 (Z.lor ACK PSH) 4096
              (Some 1460) 1460 (Some ([72; 84; 84; 80], 3)) (Some (0xa9fea9fe, 0x0a000001)) = Ret r /\
    exists s, r = Ok s /\ tcp_from_bytes (H := dev_profile) s (Some (0xa9fea9fe, 0x0a000001)) = Ret (Ok s) /\
      payload s = Ret [72; 84; 84].
Proof.
  destruct (tcp_write_parse_roundtrip (H := dev_profile) sample_buf 80 1234 1000 2000 (Z.lor ACK PSH) 4096
              (Some 1460) 1460 (Some ([72; 84; 84; 80], 3)) 0xa9fea9fe 0x0a000001)
    as (r & Er & _ & _ & Hok & Hs).
  - apply Forall_replicate. unfold byte_ok. lia.
  - unfold slen. simpl. lia.
  - unfold in_range. simpl. lia.
  - unfold in_range. simpl. lia.
  - unfold in_range. simpl. lia.
  - unfold in_range. simpl. lia.
  - change (byte_ok 24). unfold byte_ok. lia.
  - unfold in_range. simpl. lia.
  - lia.
  - unfold in_range. simpl. lia.
  - unfold in_range. simpl. lia.
  - intros v [= <-]. unfold MSS_MIN. lia.
  - intros pb max [= <- <-]. split; [repeat constructor; lia|lia].
  - exists r. split; [exact Er|].
    destruct Hok as [s Es].
    + unfold mss_len, OPTION_LEN_MSS. lia.
    + done.
    + intros pb max [= <- <-]. reflexivity.
    + exists s. destruct (Hs s Es) as (H1 & _ & _ & _ & _ & _ & _ & _ & H9). auto.
Defined.

(** ** What an accepted segment holds *)

Record view := mkView {
  v_sport : Z; v_dport : Z; v_seq : Z; v_ack : Z; v_flags : Z; v_window : Z;
  v_payload : list Z; v_mss : outcome (result (option Z) TcpError) }.

(** The getters of a segment return, and agree with the view. *)
Record views `{Profile} (s : TcpSegment) (v : view) : Prop := {
  vs_sport : source_port s = Ret (v_sport v);
  vs_dport : destination_port s = Ret (v_dport v);
  vs_seq : sequence_number s = Ret (v_seq v);
  vs_ack : ack_number s = Ret (v_ack v);
  vs_flags : flags_after_ns s = Ret (v_flags v);
  vs_window : window_size s = Ret (v_window v);
  vs_payload : payload s = Ret (v_payload v);
  vs_payload_len : payload_len s = Ret (slen (v_payload v));
  vs_mss : (hl ← lift (header_len s); parse_mss_option_unchecked s hl) = v_mss v;
  vs_ranges : in_range 16 (v_sport v) /\ in_range 16 (v_dport v) /\ in_range 32 (v_seq v) /\
    in_range 32 (v_ack v) /\ byte_ok (v_flags v) /\ in_range 16 (v_window v);
  vs_bytes : bytes_ok (v_payload v);
  vs_len : slen (v_payload v) <= slen s - 20;
  vs_no_crash : v_mss v <> Crash;
  vs_mss_range : forall m, v_mss v = Done (Ok (Some m)) -> MSS_MIN <= m < 65536
}.

Lemma read_be_u16_range l : bytes_ok l -> in_range 16 (read_be_u16 l).
Proof.
  intros Hl. unfold read_be_u16, read_be, be_decode.
  assert (Hb : bytes_ok (reverse (take 2 (l ++ replicate 2 0)))).
  { unfold bytes_ok. rewrite Forall_reverse. apply Forall_take, Forall_app. split; [done|].
    apply Forall_replicate. unfold byte_ok. lia. }
  pose proof (le_decode_range _ Hb) as Hr. rewrite length_reverse, length_take, length_app in Hr.
  rewrite length_replicate in Hr. replace (2 `min` _)%nat with 2%nat in Hr by lia.
  unfold in_range. exact Hr.
Qed.

Lemma read_be_u32_range l : bytes_ok l -> in_range 32 (read_be_u32 l).
Proof.
  intros Hl. unfold read_be_u32, read_be, be_decode.
  assert (Hb : bytes_ok (reverse (take 4 (l ++ replicate 4 0)))).
  { unfold bytes_ok. rewrite Forall_reverse. apply Forall_take, Forall_app. split; [done|].
    apply Forall_replicate. unfold byte_ok. lia. }
  pose proof (le_decode_range _ Hb) as Hr. rewrite length_reverse, length_take, length_app in Hr.
  rewrite length_replicate in Hr. replace (4 `min` _)%nat with 4%nat in Hr by lia.
  unfold in_range. exact Hr.
Qed.

Lemma ntohs_ok l i : bytes_ok l -> 0 <= i <= slen l ->
  exists v, ntohs_unchecked l i = Ret v /\ in_range 16 v.
Proof.
  intros Hl Hi. unfold ntohs_unchecked, slice_from. rewrite (proj2 (Z.leb_le _ _)), bind_Ret by lia.
  eexists. split; [done|]. by apply read_be_u16_range, Forall_drop.
Qed.

Lemma ntohl_ok l i : bytes_ok l -> 0 <= i <= slen l ->
  exists v, ntohl_unchecked l i = Ret v /\ in_range 32 v.
Proof.
  intros Hl Hi. unfold ntohl_unchecked, slice_from. rewrite (proj2 (Z.leb_le _ _)), bind_Ret by lia.
  eexists. split; [done|]. by apply read_be_u32_range, Forall_drop.
Qed.

Lemma parse_mss_value f : forall b i m, bytes_ok b -> 0 <= i ->
  parse_mss_loop f b i = Done (Ok (Some m)) -> MSS_MIN <= m < 65536.
Proof.
  induction f as [|f IH]; intros b i m Hb Hi E; [done|]. cbn [parse_mss_loop] in E.
  destruct (Z.ltb_spec (i + 3) (slen b)) as [Hl|Hl]; [|done].
  destruct (index_ok b i Hb ltac:(lia)) as (k & Ek & _). rewrite Ek in E. cbn [lift] in E.
  rewrite bind_Done in E. destruct (k =? OPTION_KIND_EOL); [done|].
  destruct (k =? OPTION_KIND_NOP); [by apply (IH b (i + 1)); [|lia|]|].
  destruct (k =? OPTION_KIND_MSS).
  - destruct (ntohs_ok b (i + 2) Hb ltac:(lia)) as (x & Ex & Hx). rewrite Ex in E. cbn [lift] in E.
    rewrite bind_Done in E. destruct (Z.ltb_spec x MSS_MIN); [done|]. injection E as <-.
    unfold in_range in Hx. simpl Z.pow in Hx. lia.
  - destruct (index_ok b (i + 1) Hb ltac:(lia)) as (n & En & Hn). rewrite En in E. cbn [lift] in E.
    rewrite bind_Done in E. unfold byte_ok in Hn. by apply (IH b (i + n)); [|lia|].
Qed.

Lemma tcp_views `{Profile} s hl : bytes_ok s -> header_len s = Ret hl -> 20 <= hl <= slen s ->
  slen s < 2 ^ 64 -> exists v, views s v.
Proof.
  intros Hb Ehl Hl H64.
  destruct (ntohs_ok s 0 Hb ltac:(lia)) as (sp & E1 & R1).
  destruct (ntohs_ok s 2 Hb ltac:(lia)) as (dp & E2 & R2).
  destruct (ntohl_ok s 4 Hb ltac:(lia)) as (sq & E3 & R3).
  destruct (ntohl_ok s 8 Hb ltac:(lia)) as (ak & E4 & R4).
  destruct (index_ok s 13 Hb ltac:(lia)) as (fl & E5 & R5).
  destruct (ntohs_ok s 14 Hb ltac:(lia)) as (wn & E6 & R6).
  assert (Eo : exists b, options_unchecked s hl = Ret b).
  { unfold options_unchecked, subslice, OPTIONS_OFFSET.
    rewrite (proj2 (Z.leb_le _ _)), (proj2 (Z.leb_le _ _)) by lia. cbn [andb]. eauto. }
  destruct Eo as [b Eo]. pose proof (parse_mss_option_no_crash s hl b Hb Eo) as Hnc.
  assert (Esl : slen (drop (Z.to_nat hl) s) = slen s - hl) by (unfold slen in *; rewrite length_drop; lia).
  exists (mkView sp dp sq ak fl wn (drop (Z.to_nat hl) s) (parse_mss_option_unchecked s hl)).
  constructor; cbn [v_sport v_dport v_seq v_ack v_flags v_window v_payload v_mss]; try done.
  - unfold payload, payload_unchecked, split_at. rewrite Ehl, bind_Ret.
    by rewrite (proj2 (Z.leb_le _ _)) by lia.
  - unfold payload_len. rewrite Ehl, bind_Ret, usub_ok, Esl by (unfold in_range; lia). done.
  - by rewrite Ehl.
  - by apply Forall_drop.
  - lia.
  - intros m Em. unfold parse_mss_option_unchecked in Em. rewrite Eo in Em. cbn [lift] in Em.
    rewrite bind_Done in Em. apply (parse_mss_value _ b 0 m) in Em; [done| |lia].
    by apply options_bytes_ok with s hl.
Qed.

Lemma tcp_from_bytes_sound `{Profile} bytes : bytes_ok bytes -> slen bytes < 2 ^ 64 ->
  exists r, tcp_from_bytes bytes None = Ret r /\
    forall s, r = Ok s -> s = bytes /\ exists v, views s v.
Proof.
  intros Hb Hl. unfold tcp_from_bytes, OPTIONS_OFFSET, MAX_HEADER_LEN.
  destruct (Z.ltb_spec (slen bytes) 20) as [H1|H1]; [by eexists|].
  destruct (index_ok bytes 12 Hb ltac:(lia)) as (x & E & Hx).
  unfold header_len, header_len_rsvd_ns, DATAOFF_RSVD_NS_OFFSET. rewrite E, !bind_Ret. cbn [fst].
  destruct (_ || _) eqn:Eh; [by eexists|].
  apply orb_false_iff in Eh as [E1 E2]. apply Z.ltb_ge in E1, E2.
  eexists. split; [done|]. intros s [= <-]. split; [done|].
  apply tcp_views with (Z.shiftr x 4 * 4); try done; [|lia].
  unfold header_len, header_len_rsvd_ns, DATAOFF_RSVD_NS_OFFSET. by rewrite E, !bind_Ret.
Qed.
