(* ===== verification/TcpConnection.v ===== *)
(** * A TCP connection

    Models [dumbo/src/tcp/mod.rs] and [dumbo/src/tcp/connection.rs].  [Connection] is
    the structure of the same name; sequence numbers ([Wrapping<u32>]) are residues
    modulo 2^32, the two sets of flags are bit masks.  A method takes the connection
    and returns the new one beside its result, also where the result is an error,
    since the code changes fields before it fails.  The clock and the initial sequence
    number are arguments.  [receive_segment] is composed of the stages its code has,
    an early return being the left case of a sum; it can fail to return because the
    options of a SYN are parsed in it. *)

From Stdlib Require Import ZArith Lia.
From stdpp Require Import functions prelude.
From S2P Require Import Prelude NetBytes PduLink PduTcp.

(** ** Sequence numbers and reset configurations ([tcp/mod.rs]) *)

Definition MAX_WINDOW_SIZE : Z := 1073725440.
Definition MSS_DEFAULT : Z := 536.

Inductive NextSegmentStatus := Available | Nothing | Timeout (t : Z).

Inductive RstConfig := RstSeq (seq : Z) | RstAck (ack : Z).

Definition seq_after (a b : Z) : bool := negb (a =? b) && (wsub 32 a b <? MAX_WINDOW_SIZE).
Definition seq_at_or_after (a b : Z) : bool := wsub 32 a b <? MAX_WINDOW_SIZE.

Definition RstConfig_new `{Profile} (s : TcpSegment) : exec RstConfig :=
  flags ← flags_after_ns s;
  if intersects flags ACK then ack ← ack_number s; Ret (RstSeq ack)
  else
    seq ← sequence_number s;
    len ← payload_len s;
    Ret (RstAck (wadd 32 seq (wrap 32 len))).

Definition seq_ack_tcp_flags (cfg : RstConfig) : Z * Z * Z :=
  match cfg with
  | RstSeq seq => (seq, 0, RST)
  | RstAck ack => (0, ack, Z.lor RST ACK)
  end.

(** ** Status flags *)

Definition SYN_RECEIVED : Z := 1.
Definition SYNACK_SENT : Z := 2.
Definition ESTABLISHED : Z := 4.
Definition FIN_SENT : Z := 8.
Definition FIN_ACKED : Z := 16.
Definition RESET : Z := 32.

Definition INVALID_ACK : Z := 1.
Definition DUP_ACK : Z := 2.
Definition SEGMENT_BEYOND_RWND : Z := 4.
Definition UNEXPECTED_SEQ : Z := 8.
Definition REMOTE_RWND_EDGE : Z := 16.
Definition DATA_BEYOND_FIN : Z := 32.
Definition RESET_RECEIVED : Z := 64.
Definition INVALID_RST : Z := 128.
Definition INVALID_SEGMENT : Z := 256.
Definition CONN_RESETTING : Z := 512.
Definition INVALID_FIN : Z := 1024.

Inductive PassiveOpenError := InvalidSyn | PoMssOption.
Inductive RecvError := BufferTooSmall | RecvConnectionReset.
Inductive WriteNextError :=
| ConnectionReset | DataAfterFin | WnMssRemaining | PayloadBufTooLarge | PayloadMissingSeq
| WnTcpSegment (e : TcpError).

(** ** The connection *)

Record Connection := mkConnection {
  ack_to_send : Z;
  highest_ack_received : Z;
  first_not_sent : Z;
  local_rwnd_edge : Z;
  remote_rwnd_edge : Z;
  rto_start : Z;
  rto_period : Z;
  rto_count : Z;
  rto_count_max : Z;
  fin_received : option Z;
  send_fin : option Z;
  send_rst : option RstConfig;
  mss : Z;
  pending_ack : bool;
  dup_ack : bool;
  status_flags : Z }.

(** Assignments to single fields. *)
Definition with_ack_to_send (c : Connection) v :=
  mkConnection v (highest_ack_received c) (first_not_sent c) (local_rwnd_edge c) (remote_rwnd_edge c)
    (rto_start c) (rto_period c) (rto_count c) (rto_count_max c) (fin_received c) (send_fin c)
    (send_rst c) (mss c) (pending_ack c) (dup_ack c) (status_flags c).
Definition with_highest_ack (c : Connection) v :=
  mkConnection (ack_to_send c) v (first_not_sent c) (local_rwnd_edge c) (remote_rwnd_edge c)
    (rto_start c) (rto_period c) (rto_count c) (rto_count_max c) (fin_received c) (send_fin c)
    (send_rst c) (mss c) (pending_ack c) (dup_ack c) (status_flags c).
Definition with_first_not_sent (c : Connection) v :=
  mkConnection (ack_to_send c) (highest_ack_received c) v (local_rwnd_edge c) (remote_rwnd_edge c)
    (rto_start c) (rto_period c) (rto_count c) (rto_count_max c) (fin_received c) (send_fin c)
    (send_rst c) (mss c) (pending_ack c) (dup_ack c) (status_flags c).
Definition with_local_edge (c : Connection) v :=
  mkConnection (ack_to_send c) (highest_ack_received c) (first_not_sent c) v (remote_rwnd_edge c)
    (rto_start c) (rto_period c) (rto_count c) (rto_count_max c) (fin_received c) (send_fin c)
    (send_rst c) (mss c) (pending_ack c) (dup_ack c) (status_flags c).
Definition with_remote_edge (c : Connection) v :=
  mkConnection (ack_to_send c) (highest_ack_received c) (first_not_sent c) (local_rwnd_edge c) v
    (rto_start c) (rto_period c) (rto_count c) (rto_count_max c) (fin_received c) (send_fin c)
    (send_rst c) (mss c) (pending_ack c) (dup_ack c) (status_flags c).
Definition with_rto_start (c : Connection) v :=
  mkConnection (ack_to_send c) (highest_ack_received c) (first_not_sent c) (local_rwnd_edge c)
    (remote_rwnd_edge c) v (rto_period c) (rto_count c) (rto_count_max c) (fin_received c) (send_fin c)
    (send_rst c) (mss c) (pending_ack c) (dup_ack c) (status_flags c).
Definition with_rto_count (c : Connection) v :=
  mkConnection (ack_to_send c) (highest_ack_received c) (first_not_sent c) (local_rwnd_edge c)
    (remote_rwnd_edge c) (rto_start c) (rto_period c) v (rto_count_max c) (fin_received c) (send_fin c)
    (send_rst c) (mss c) (pending_ack c) (dup_ack c) (status_flags c).
Definition with_fin_received (c : Connection) v :=
  mkConnection (ack_to_send c) (highest_ack_received c) (first_not_sent c) (local_rwnd_edge c)
    (remote_rwnd_edge c) (rto_start c) (rto_period c) (rto_count c) (rto_count_max c) v (send_fin c)
    (send_rst c) (mss c) (pending_ack c) (dup_ack c) (status_flags c).
Definition with_send_fin (c : Connection) v :=
  mkConnection (ack_to_send c) (highest_ack_received c) (first_not_sent c) (local_rwnd_edge c)
    (remote_rwnd_edge c) (rto_start c) (rto_period c) (rto_count c) (rto_count_max c) (fin_received c) v
    (send_rst c) (mss c) (pending_ack c) (dup_ack c) (status_flags c).
Definition with_send_rst (c : Connection) v :=
  mkConnection (ack_to_send c) (highest_ack_received c) (first_not_sent c) (local_rwnd_edge c)
    (remote_rwnd_edge c) (rto_start c) (rto_period c) (rto_count c) (rto_count_max c) (fin_received c)
    (send_fin c) v (mss c) (pending_ack c) (dup_ack c) (status_flags c).
Definition with_pending_ack (c : Connection) v :=
  mkConnection (ack_to_send c) (highest_ack_received c) (first_not_sent c) (local_rwnd_edge c)
    (remote_rwnd_edge c) (rto_start c) (rto_period c) (rto_count c) (rto_count_max c) (fin_received c)
    (send_fin c) (send_rst c) (mss c) v (dup_ack c) (status_flags c).
Definition with_dup_ack (c : Connection) v :=
  mkConnection (ack_to_send c) (highest_ack_received c) (first_not_sent c) (local_rwnd_edge c)
    (remote_rwnd_edge c) (rto_start c) (rto_period c) (rto_count c) (rto_count_max c) (fin_received c)
    (send_fin c) (send_rst c) (mss c) (pending_ack c) v (status_flags c).
Definition with_status (c : Connection) v :=
  mkConnection (ack_to_send c) (highest_ack_received c) (first_not_sent c) (local_rwnd_edge c)
    (remote_rwnd_edge c) (rto_start c) (rto_period c) (rto_count c) (rto_count_max c) (fin_received c)
    (send_fin c) (send_rst c) (mss c) (pending_ack c) (dup_ack c) v.

(** ** Opening a connection *)

Definition parse_mss_option (s : TcpSegment) : outcome (result Z PassiveOpenError) :=
  hl ← lift (header_len s);
  r ← parse_mss_option_unchecked s hl;
  Done match r with
       | Ok (Some value) => Ok value
       | Ok None => Ok MSS_DEFAULT
       | Err _ => Err PoMssOption
       end.

Section Connections.
Context `{Profile}.

Definition is_valid_syn (s : TcpSegment) : exec bool :=
  flags ← flags_after_ns s;
  if flags =? SYN then n ← payload_len s; Ret (n =? 0) else Ret false.

Definition passive_open (s : TcpSegment) (local_rwnd_size rto_period rto_count_max isn : Z)
    : outcome (result Connection PassiveOpenError) :=
  valid ← lift (is_valid_syn s);
  if negb valid then Done (Err InvalidSyn)
  else
    m ← parse_mss_option s;
    match m with
    | Err e => Done (Err e)
    | Ok mss =>
        seq ← lift (sequence_number s);
        window ← lift (window_size s);
        let ack_to_send := wadd 32 seq 1 in
        let first_not_sent := wadd 32 isn 1 in
        Done (Ok (mkConnection ack_to_send isn first_not_sent (wadd 32 ack_to_send local_rwnd_size)
                    (wadd 32 first_not_sent window) 0 rto_period 0 rto_count_max None None None mss
                    false false SYN_RECEIVED))
    end.

(** ** Reading and changing the status *)

Definition flags_intersect (c : Connection) (flags : Z) : bool := intersects (status_flags c) flags.
Definition set_flags (c : Connection) (flags : Z) := with_status c (Z.lor (status_flags c) flags).
Definition clear_flags (c : Connection) (flags : Z) := with_status c (Z.ldiff (status_flags c) flags).
Definition syn_received (c : Connection) := flags_intersect c SYN_RECEIVED.
Definition synack_sent (c : Connection) := flags_intersect c SYNACK_SENT.
Definition synack_pending (c : Connection) := syn_received c && negb (synack_sent c).
Definition is_reset (c : Connection) := flags_intersect c RESET.
Definition fin_sent (c : Connection) := flags_intersect c FIN_SENT.
Definition fin_acked (c : Connection) := flags_intersect c FIN_ACKED.
Definition is_established (c : Connection) := flags_intersect c ESTABLISHED.
Definition has_fin_received (c : Connection) := bool_decide (is_Some (fin_received c)).
Definition is_done (c : Connection) :=
  is_reset c || (has_fin_received c && flags_intersect c FIN_SENT).
Definition rst_pending (c : Connection) : bool := match send_rst c with Some _ => true | None => false end.

Definition is_same_syn (c : Connection) (s : TcpSegment) : outcome bool :=
  valid ← lift (is_valid_syn s);
  if negb valid then Done false
  else
    seq ← lift (sequence_number s);
    if negb (ack_to_send c =? wadd 32 seq 1) then Done false
    else
      m ← parse_mss_option s;
      Done match m with Ok v => v =? mss c | Err _ => false end.

Definition reset_for_segment (c : Connection) (s : TcpSegment) : exec Connection :=
  if rst_pending c then Ret c
  else cfg ← RstConfig_new s; Ret (with_send_rst c (Some cfg)).

Definition rto_expired (c : Connection) (now : Z) : exec bool :=
  d ← usub 64 now (rto_start c); Ret (rto_period c <=? d).

Definition can_send_first_fin (c : Connection) : bool :=
  negb (fin_sent c) &&
  match send_fin c with Some fin_seq => fin_seq =? highest_ack_received c | None => false end.

Definition local_rwnd (c : Connection) : Z :=
  let rwnd := wsub 32 (local_rwnd_edge c) (ack_to_send c) in
  if 65535 <? rwnd then 65535 else rwnd.

Definition remote_window_size (c : Connection) (window_size : Z) : Z := window_size.
Definition compute_remote_rwnd_edge (c : Connection) (ack window_size : Z) : Z :=
  wadd 32 ack (remote_window_size c window_size).
Definition enqueue_ack (c : Connection) : Connection := with_pending_ack c true.

Definition close (c : Connection) : Connection :=
  match send_fin c with None => with_send_fin c (Some (first_not_sent c)) | Some _ => c end.
Definition make_rst_config (c : Connection) : RstConfig :=
  if is_established c then RstSeq (first_not_sent c) else RstAck (ack_to_send c).
Definition reset (c : Connection) : Connection :=
  if rst_pending c then c else with_send_rst c (Some (make_rst_config c)).

Definition advance_local_rwnd_edge (c : Connection) (value : Z) : Connection :=
  let current_w := wsub 32 (local_rwnd_edge c) (ack_to_send c) in
  let c := if current_w =? 0 then enqueue_ack c else c in
  if MAX_WINDOW_SIZE <? wadd 32 value current_w
  then with_local_edge c (wadd 32 (ack_to_send c) MAX_WINDOW_SIZE)
  else with_local_edge c (wadd 32 (local_rwnd_edge c) value).

Definition dup_ack_pending (c : Connection) : bool := dup_ack c.

Definition control_segment_or_timeout_status (c : Connection) : exec NextSegmentStatus :=
  if synack_pending c || rst_pending c || can_send_first_fin c || pending_ack c then Ret Available
  else if negb (highest_ack_received c =? first_not_sent c)
  then t ← uadd 64 (rto_start c) (rto_period c); Ret (Timeout t)
  else Ret Nothing.

(** ** Receiving a segment *)

Definition recv_result : Type := result (option Z * Z) RecvError.

Definition reset_for_segment_helper (c : Connection) (s : TcpSegment) (flags : Z)
    : exec (recv_result * Connection) :=
  c ← reset_for_segment c s;
  Ret (Ok (None, Z.lor CONN_RESETTING flags), c).

(** A segment that arrives before the connection is established. *)
Definition recv_handshake (c : Connection) (s : TcpSegment) (segment_flags : Z)
    : outcome ((recv_result * Connection) + unit) :=
  if negb (synack_sent c) then
    same ← is_same_syn c s;
    if same : bool then Done (inl (Ok (None, 0), c))
    else r ← lift (reset_for_segment_helper c s INVALID_SEGMENT); Done (inl r)
  else if negb (is_established c) then
    same ← is_same_syn c s;
    if same : bool then Done (inl (Ok (None, 0), clear_flags c SYNACK_SENT))
    else if intersects segment_flags SYN
    then r ← lift (reset_for_segment_helper c s INVALID_SEGMENT); Done (inl r)
    else Done (inr tt)
  else if intersects segment_flags SYN
  then r ← lift (reset_for_segment_helper c s INVALID_SEGMENT); Done (inl r)
  else Done (inr tt).

(** Look for an update of the remote window. *)
Definition recv_window (c : Connection) (ack window recv_flags : Z) : Connection * Z :=
  if is_established c then
    let edge := compute_remote_rwnd_edge c ack window in
    if seq_after edge (remote_rwnd_edge c) then (with_remote_edge c edge, recv_flags)
    else if negb (edge =? remote_rwnd_edge c) then (c, Z.lor recv_flags REMOTE_RWND_EDGE)
    else (c, recv_flags)
  else (c, recv_flags).

(** An acknowledgement that makes progress. *)
Definition recv_new_ack (c : Connection) (ack now : Z) : Connection :=
  let c := with_rto_start (with_highest_ack c ack) now in
  let c := if negb (is_established c) && synack_sent c then set_flags c ESTABLISHED else c in
  if fin_sent c && (ack =? first_not_sent c) then set_flags c FIN_ACKED else c.

Definition recv_ack (c : Connection) (s : TcpSegment) (segment_flags now : Z)
    : exec ((recv_result * Connection) + (Connection * Z)) :=
  if intersects segment_flags ACK then
    ack ← ack_number s;
    if seq_at_or_after ack (highest_ack_received c) && seq_at_or_after (first_not_sent c) ack then
      let c := with_rto_count c 0 in
      if (ack =? highest_ack_received c) && negb (ack =? first_not_sent c) then
        if negb (is_established c)
        then r ← reset_for_segment_helper c s INVALID_ACK; Ret (inl r)
        else
          window ← window_size s;
          Ret (inr (recv_window (with_dup_ack c true) ack window DUP_ACK))
      else
        let c := recv_new_ack c ack now in
        if is_established c
        then window ← window_size s; Ret (inr (recv_window c ack window 0))
        else Ret (inr (c, 0))
    else if negb (is_established c)
    then r ← reset_for_segment_helper c s INVALID_ACK; Ret (inl r)
    else Ret (inr (c, INVALID_ACK))
  else Ret (inr (c, 0)).

(** The data of a segment: refused, with the reason, or accepted as the next bytes. *)
Definition recv_data (c : Connection) (seq payload_len recv_flags : Z)
    : ((recv_result * Connection) + Connection) :=
  let data_end_seq := wadd 32 seq (wrap 32 payload_len) in
  if match fin_received c with
     | Some fin_seq => negb (seq_at_or_after fin_seq data_end_seq)
     | None => false
     end
  then inl (Ok (None, Z.lor recv_flags DATA_BEYOND_FIN), c)
  else if negb (seq_at_or_after (local_rwnd_edge c) data_end_seq)
  then inl (Ok (None, Z.lor recv_flags SEGMENT_BEYOND_RWND), c)
  else if negb (seq =? ack_to_send c)
  then inl (Ok (None, Z.lor recv_flags UNEXPECTED_SEQ), enqueue_ack c)
  else inr (with_ack_to_send c data_end_seq).

(** The FIN of a segment. *)
Definition recv_fin (c : Connection) (seq payload_len segment_flags recv_flags : Z) (ack : bool)
    : Connection * Z * bool :=
  if intersects segment_flags FIN && negb (has_fin_received c) then
    let fin_seq := wadd 32 seq (wrap 32 payload_len) in
    if fin_seq =? ack_to_send c
    then (with_ack_to_send (with_fin_received c (Some fin_seq)) (wadd 32 (ack_to_send c) 1),
          recv_flags, true)
    else (c, Z.lor recv_flags INVALID_FIN, ack)
  else (c, recv_flags, ack).

Definition recv_payload (c : Connection) (s : TcpSegment) (segment_flags payload_len recv_flags : Z)
    (buf : list Z) : exec (recv_result * Connection * list Z) :=
  seq ← sequence_number s;
  if slen buf <? payload_len then Ret (Err BufferTooSmall, c, buf)
  else
    match (if 0 <? payload_len then
             match recv_data c seq payload_len recv_flags with
             | inl r => inl r
             | inr c => inr (c, true)
             end
           else inr (c, false)) with
    | inl (r, c) => Ret (r, c, buf)
    | inr (c, ack) =>
        let '(c, recv_flags, ack) := recv_fin c seq payload_len segment_flags recv_flags ack in
        if ack : bool then
          let c := enqueue_ack c in
          if 0 <? payload_len then
            data ← payload s;
            buf ← copy_into buf 0 payload_len data;
            Ret (Ok (Some payload_len, recv_flags), c, buf)
          else Ret (Ok (None, recv_flags), c, buf)
        else Ret (Ok (None, recv_flags), c, buf)
    end.

Definition receive_segment (c : Connection) (s : TcpSegment) (buf : list Z) (now : Z)
    : outcome (recv_result * Connection * list Z) :=
  if rst_pending c || is_reset c then Done (Err RecvConnectionReset, c, buf)
  else
    segment_flags ← lift (flags_after_ns s);
    if intersects segment_flags RST then
      seq ← lift (sequence_number s);
      if seq_at_or_after seq (ack_to_send c) && seq_after (local_rwnd_edge c) seq
      then Done (Ok (None, RESET_RECEIVED), set_flags c RESET, buf)
      else Done (Ok (None, INVALID_RST), c, buf)
    else
      len ← lift (payload_len s);
      h ← recv_handshake c s segment_flags;
      match h with
      | inl (r, c) => Done (r, c, buf)
      | inr _ =>
          a ← lift (recv_ack c s segment_flags now);
          match a with
          | inl (r, c) => Done (r, c, buf)
          | inr (c, recv_flags) =>
              if negb (is_established c) then Done (Ok (None, recv_flags), c, buf)
              else lift (recv_payload c s segment_flags len recv_flags buf)
          end
      end.

(** ** Writing a segment

    The result, the connection, and the buffer as the call leaves it. *)

Definition write_result : Type := result TcpSegment WriteNextError.

Definition conn_write_segment (c : Connection) (buf : list Z) (mss_reserved seq ack flags : Z)
    (payload : option (list Z * Z)) : exec (write_result * Connection * list Z) :=
  let mss_option := if flags =? Z.lor SYN ACK then Some (mss c) else None in
  if mss c <? mss_reserved then Ret (Err WnMssRemaining, c, buf)
  else
    r ← write_incomplete_segment buf seq ack flags (local_rwnd c) mss_option (mss c - mss_reserved) payload;
    match r with
    | (Err e, buf) => Ret (Err (WnTcpSegment e), c, buf)
    | (Ok segment, buf) =>
        Ret (Ok segment, if intersects flags ACK then with_pending_ack c false else c, buf)
    end.

(** The numbers and flags of a segment without payload. *)
Definition control_fields (c : Connection) : Z * Z * Z :=
  match send_rst c with
  | Some cfg => seq_ack_tcp_flags cfg
  | None =>
      if negb (is_established c)
      then (wsub 32 (first_not_sent c) 1, ack_to_send c, Z.lor SYN ACK)
      else match send_fin c with
           | Some fin_seq =>
               if negb (fin_acked c) && seq_at_or_after (highest_ack_received c) fin_seq
               then (fin_seq, ack_to_send c, Z.lor ACK FIN)
               else (highest_ack_received c, ack_to_send c, ACK)
           | None => (highest_ack_received c, ack_to_send c, ACK)
           end
  end.

Definition write_control_segment (c : Connection) (buf : list Z) (mss_reserved : Z)
    : exec (write_result * Connection * list Z) :=
  let '(seq, ack, flags) := control_fields c in
  conn_write_segment c buf mss_reserved seq ack flags None.

Definition next_result : Type := result (option TcpSegment) WriteNextError.

(** [let segment = write_control_segment(..)?; ..; return Ok(Some(segment))], with
    what happens to the connection after a successful write. *)
Definition then_control (c : Connection) (buf : list Z) (mss_reserved : Z)
    (k : Connection -> Connection) : exec (next_result * Connection * list Z) :=
  r ← write_control_segment c buf mss_reserved;
  match r with
  | (Err e, c, buf) => Ret (Err e, c, buf)
  | (Ok segment, c, buf) => Ret (Ok (Some segment), k c, buf)
  end.

(** Which sequence number to send next: the first not acknowledged one after a timeout
    or a duplicate ACK, the first one not sent otherwise.  [inl] is an early return, here
    a call of [write_next_segment] itself ([again]) or the retransmission of a FIN. *)
Definition choose_seq (c : Connection) (buf : list Z) (mss_reserved now : Z)
    (again : Connection -> exec (next_result * Connection * list Z))
    : exec ((next_result * Connection * list Z) + (Connection * Z * bool)) :=
  expired ← (if negb (highest_ack_received c =? first_not_sent c) then rto_expired c now else Ret false);
  if expired : bool then
    n ← uadd 16 (rto_count c) 1;
    let c := with_rto_count c n in
    if rto_count_max c <=? rto_count c then r ← again (reset c); Ret (inl r)
    else if match send_fin c with Some fin_seq => highest_ack_received c =? fin_seq | None => false end
    then r ← then_control c buf mss_reserved (fun c => with_rto_start c now); Ret (inl r)
    else Ret (inr (c, highest_ack_received c, true))
  else if dup_ack c then Ret (inr (c, highest_ack_received c, false))
  else Ret (inr (c, first_not_sent c, false)).

(** A data segment has been written: its length, and a FIN behind the last byte, move
    [first_not_sent] on. *)
Definition data_sent (c : Connection) (segment : TcpSegment) (seq_to_send now : Z) (rto_triggered : bool)
    : exec (TcpSegment * Connection) :=
  let c := with_dup_ack c false in
  data ← payload segment;
  let first_seq_after := wadd 32 seq_to_send (wrap 32 (slen data)) in
  r ← (if match send_fin c with Some fin_seq => first_seq_after =? fin_seq | None => false end
       then segment ← set_flags_after_ns segment (Z.lor ACK FIN);
            Ret (segment, wadd 32 first_seq_after 1, set_flags c FIN_SENT)
       else Ret (segment, first_seq_after, c));
  let '(segment, first_seq_after, c) := r : TcpSegment * Z * Connection in
  let c := if rto_triggered || (first_not_sent c =? highest_ack_received c)
           then with_rto_start c now else c in
  Ret (segment, if seq_after first_seq_after (first_not_sent c)
                then with_first_not_sent c first_seq_after else c).

(** The end of what may be sent: of the data or of the remote window. *)
Definition actual_end (c : Connection) (payload_end : Z) : Z :=
  if seq_at_or_after (remote_rwnd_edge c) payload_end then payload_end else remote_rwnd_edge c.

(** A segment is cut from the buffer: what [segment] holds is written back over the
    first bytes of [buf]. *)
Definition write_back (buf segment : list Z) : list Z := segment ++ drop (length segment) buf.

(** The attempt to send data; [None] where the code falls through to the control
    segments. *)
Definition write_data (c : Connection) (buf : list Z) (mss_reserved : Z) (read_buf : list Z)
    (payload_seq now : Z) (again : Connection -> exec (next_result * Connection * list Z))
    : exec ((next_result * Connection * list Z) + Connection) :=
  if MAX_WINDOW_SIZE <? slen read_buf then Ret (inl (Err PayloadBufTooLarge, c, buf))
  else
    let payload_end := wadd 32 payload_seq (wrap 32 (slen read_buf)) in
    ch ← choose_seq c buf mss_reserved now again;
    match ch with
    | inl r => Ret (inl r)
    | inr (c, seq_to_send, rto_triggered) =>
        if negb (seq_at_or_after seq_to_send payload_seq)
        then Ret (inl (Err PayloadMissingSeq, c, buf))
        else
          let actual_end := actual_end c payload_end in
          if match send_fin c with Some fin_seq => seq_after actual_end fin_seq | None => false end
          then Ret (inl (Err DataAfterFin, c, buf))
          else if seq_after actual_end seq_to_send then
            let max_payload_len := wsub 32 actual_end seq_to_send in
            r ← conn_write_segment c buf mss_reserved seq_to_send (ack_to_send c) ACK
                  (Some (read_buf, max_payload_len));
            match r with
            | (Err e, c, buf) => Ret (inl (Err e, c, buf))
            | (Ok segment, c, buf) =>
                d ← data_sent c segment seq_to_send now rto_triggered;
                let '(segment, c) := d : TcpSegment * Connection in
                Ret (inl (Ok (Some segment), c, write_back buf segment))
            end
          else Ret (inr c)
    end.

(** A pending ACK or the first FIN. *)
Definition write_control (c : Connection) (buf : list Z) (mss_reserved : Z)
    : exec (next_result * Connection * list Z) :=
  let send_first_fin := can_send_first_fin c in
  if pending_ack c || send_first_fin then
    then_control c buf mss_reserved (fun c =>
      if send_first_fin
      then set_flags (with_first_not_sent c (wadd 32 (first_not_sent c) 1)) FIN_SENT
      else c)
  else Ret (Ok None, c, buf).

(** The call to itself happens once at most, to write the RST it has just decided on
    ([write_next_segment_again]). *)
Fixpoint write_next_calls (fuel : nat) (c : Connection) (buf : list Z) (mss_reserved : Z)
    (payload_src : option (list Z * Z)) (now : Z) : exec (next_result * Connection * list Z) :=
  match fuel with
  | O => Panic
  | S fuel =>
      let again c := write_next_calls fuel c buf mss_reserved payload_src now in
      if is_reset c then Ret (Err ConnectionReset, c, buf)
      else if rst_pending c
      then then_control c buf mss_reserved (fun c => set_flags c RESET)
      else if synack_pending c
      then then_control c buf mss_reserved (fun c => with_rto_start (set_flags c SYNACK_SENT) now)
      else if negb (is_established c) then
        expired ← rto_expired c now;
        if expired : bool then
          n ← uadd 16 (rto_count c) 1;
          let c := with_rto_count c n in
          if rto_count_max c <=? rto_count c then again (reset c)
          else then_control c buf mss_reserved (fun c => with_rto_start c now)
        else Ret (Ok None, c, buf)
      else
        match payload_src with
        | Some (read_buf, payload_seq) =>
            d ← write_data c buf mss_reserved read_buf payload_seq now again;
            match d with
            | inl r => Ret r
            | inr c => write_control c buf mss_reserved
            end
        | None => write_control c buf mss_reserved
        end
  end.

Definition write_next_segment (c : Connection) (buf : list Z) (mss_reserved : Z)
    (payload_src : option (list Z * Z)) (now : Z) : exec (next_result * Connection * list Z) :=
  write_next_calls 2 c buf mss_reserved payload_src now.
End Connections.

(** ** Flags *)

Lemma intersects_lor a b f : intersects (Z.lor a b) f = intersects a f || intersects b f.
Proof.
  unfold intersects. rewrite Z.land_lor_distr_l.
  destruct (Z.eqb_spec (Z.land a f) 0) as [->|Ha]; [done|].
  destruct (Z.eqb_spec (Z.lor (Z.land a f) (Z.land b f)) 0) as [E|]; [|done].
  by apply Z.lor_eq_0_iff in E as [? _].
Qed.

Lemma intersects_ldiff a b f : Z.land b f = 0 -> intersects (Z.ldiff a b) f = intersects a f.
Proof.
  intros Hb. unfold intersects. do 2 f_equal. apply Z.bits_inj'. intros n Hn.
  rewrite !Z.land_spec, Z.ldiff_spec. apply (f_equal (fun z => Z.testbit z n)) in Hb.
  rewrite Z.land_spec, Z.bits_0 in Hb. by destruct (Z.testbit a n), (Z.testbit b n), (Z.testbit f n).
Qed.

Lemma intersects_clear a b : intersects (Z.ldiff a b) b = false.
Proof.
  unfold intersects. rewrite Z.land_comm. assert (Z.land b (Z.ldiff a b) = 0) as ->; [|done].
  apply Z.bits_inj'. intros n Hn. rewrite Z.land_spec, Z.ldiff_spec, Z.bits_0.
  by destruct (Z.testbit a n), (Z.testbit b n).
Qed.

(** The projections of updated connections, and the flags of status words. *)
Ltac conn_simpl :=
  unfold set_flags, clear_flags, enqueue_ack, is_reset, fin_sent, fin_acked, is_established,
    synack_sent, syn_received, flags_intersect, has_fin_received in *;
  cbn [ack_to_send highest_ack_received first_not_sent local_rwnd_edge remote_rwnd_edge rto_start
    rto_period rto_count rto_count_max fin_received send_fin send_rst mss pending_ack dup_ack
    status_flags with_ack_to_send with_highest_ack with_first_not_sent with_local_edge with_remote_edge
    with_rto_start with_rto_count with_fin_received with_send_fin with_send_rst with_pending_ack
    with_dup_ack with_status fst snd] in *;
  rewrite ?intersects_lor in *;
  repeat match goal with
  | |- context [intersects (Z.ldiff ?a ?b) ?f] =>
      first [rewrite (intersects_ldiff a b f) by reflexivity | rewrite (intersects_clear a b)]
  | H : context [intersects (Z.ldiff ?a ?b) ?f] |- _ =>
      first [rewrite (intersects_ldiff a b f) in H by reflexivity | rewrite (intersects_clear a b) in H]
  | |- context [intersects ?a ?f] =>
      let v := eval vm_compute in (intersects a f) in
      lazymatch v with true => idtac | false => idtac end; change (intersects a f) with v
  | H : context [intersects ?a ?f] |- _ =>
      let v := eval vm_compute in (intersects a f) in
      lazymatch v with true => idtac | false => idtac end; change (intersects a f) with v in H
  end;
  rewrite ?orb_false_r, ?orb_true_r in *.

(** ** Well-formed connections *)

Definition rst_ok (r : RstConfig) : Prop :=
  match r with RstSeq n => in_range 32 n | RstAck n => in_range 32 n end.

Record conn_ok (c : Connection) : Prop := {
  co_ack : in_range 32 (ack_to_send c);
  co_highest : in_range 32 (highest_ack_received c);
  co_first : in_range 32 (first_not_sent c);
  co_local : in_range 32 (local_rwnd_edge c);
  co_remote : in_range 32 (remote_rwnd_edge c);
  co_start : in_range 64 (rto_start c);
  co_period : in_range 64 (rto_period c) /\ 0 < rto_period c;
  co_max : 0 < rto_count_max c < 65536;
  co_count : 0 <= rto_count c /\ (send_rst c = None -> rto_count c < rto_count_max c) /\ rto_count c < 65536;
  co_fin_received : forall f, fin_received c = Some f -> in_range 32 f;
  co_send_fin : forall f, send_fin c = Some f -> in_range 32 f;
  co_rst : forall r, send_rst c = Some r -> rst_ok r;
  co_mss : MSS_MIN <= mss c < 65536;
  co_syn : syn_received c = true;
  co_est : is_established c = true -> synack_sent c = true;
  co_fin_sent : fin_sent c = true -> exists f, send_fin c = Some f
}.

Lemma rst_config_ok `{Profile} s v : views s v ->
  exists cfg, RstConfig_new s = Ret cfg /\ rst_ok cfg.
Proof.
  intros V. destruct (vs_ranges _ _ V) as (_ & _ & Hs & Ha & _). unfold RstConfig_new.
  rewrite (vs_flags _ _ V), bind_Ret. destruct (intersects _ _).
  - rewrite (vs_ack _ _ V), bind_Ret. eauto.
  - rewrite (vs_seq _ _ V), bind_Ret, (vs_payload_len _ _ V), bind_Ret. eexists. split; [done|].
    apply wadd_range. lia.
Qed.

Lemma reset_for_segment_ok `{Profile} c s v : conn_ok c -> views s v -> send_rst c = None ->
  exists cfg, reset_for_segment c s = Ret (with_send_rst c (Some cfg)) /\
    conn_ok (with_send_rst c (Some cfg)).
Proof.
  intros Hc V E. destruct (rst_config_ok s v V) as (cfg & Ec & Hcfg). exists cfg.
  unfold reset_for_segment, rst_pending. rewrite E, Ec, bind_Ret. split; [done|].
  destruct Hc. constructor; conn_simpl; try done.
  - destruct co_count0 as (? & Hlt & ?). split_and!; [done|done|lia].
  - by intros r [= <-].
Qed.

(** Each assignment keeps a connection well-formed. *)
Create HintDb conn.
Ltac conn_field := intros []; constructor; conn_simpl; done.

Section Fields.
Variable c : Connection.
Hypothesis Hc : conn_ok c.

Lemma conn_ok_ack v : in_range 32 v -> conn_ok (with_ack_to_send c v).
Proof. revert Hc. conn_field. Qed.
Lemma conn_ok_highest v : in_range 32 v -> conn_ok (with_highest_ack c v).
Proof. revert Hc. conn_field. Qed.
Lemma conn_ok_first v : in_range 32 v -> conn_ok (with_first_not_sent c v).
Proof. revert Hc. conn_field. Qed.
Lemma conn_ok_local v : in_range 32 v -> conn_ok (with_local_edge c v).
Proof. revert Hc. conn_field. Qed.
Lemma conn_ok_remote v : in_range 32 v -> conn_ok (with_remote_edge c v).
Proof. revert Hc. conn_field. Qed.
Lemma conn_ok_start v : in_range 64 v -> conn_ok (with_rto_start c v).
Proof. revert Hc. conn_field. Qed.
Lemma conn_ok_count n : 0 <= n < rto_count_max c -> conn_ok (with_rto_count c n).
Proof. destruct Hc. intros Hn. constructor; conn_simpl; try done. split_and!; lia. Qed.
Lemma conn_ok_count0 : conn_ok (with_rto_count c 0).
Proof. apply conn_ok_count. destruct Hc. lia. Qed.
Lemma conn_ok_fin_received v : in_range 32 v -> conn_ok (with_fin_received c (Some v)).
Proof. destruct Hc. intros Hv. constructor; conn_simpl; try done. by intros f [= <-]. Qed.
Lemma conn_ok_send_fin v : in_range 32 v -> conn_ok (with_send_fin c (Some v)).
Proof. destruct Hc. intros Hv. constructor; conn_simpl; try done; first [by intros f [= <-]|by eauto]. Qed.
Lemma conn_ok_send_rst r : rst_ok r -> conn_ok (with_send_rst c (Some r)).
Proof.
  destruct Hc. intros Hr. constructor; conn_simpl; try done; [|by intros f [= <-]].
  destruct co_count0 as (? & ? & ?). by split_and!.
Qed.
Lemma conn_ok_pending b : conn_ok (with_pending_ack c b).
Proof. revert Hc. conn_field. Qed.
Lemma conn_ok_dup b : conn_ok (with_dup_ack c b).
Proof. revert Hc. conn_field. Qed.
Lemma conn_ok_flag f : (f = SYNACK_SENT \/ f = FIN_ACKED \/ f = RESET) -> conn_ok (set_flags c f).
Proof.
  destruct Hc. intros Hf. destruct Hf as [->|[->| ->]]; constructor; conn_simpl; try done;
    rewrite ?co_syn0; done.
Qed.
Lemma conn_ok_established : synack_sent c = true -> conn_ok (set_flags c ESTABLISHED).
Proof. destruct Hc. intros Hs. constructor; conn_simpl; try done; by rewrite ?co_syn0. Qed.
Lemma conn_ok_fin_sent f : send_fin c = Some f -> conn_ok (set_flags c FIN_SENT).
Proof. destruct Hc. intros Hs. constructor; conn_simpl; try done; first [by rewrite co_syn0|by eauto]. Qed.
Lemma conn_ok_clear_synack : is_established c = false -> conn_ok (clear_flags c SYNACK_SENT).
Proof. destruct Hc. intros Hs. constructor; conn_simpl; try done. by rewrite Hs. Qed.
End Fields.

#[export] Hint Resolve conn_ok_ack conn_ok_highest conn_ok_first conn_ok_local conn_ok_remote
  conn_ok_start conn_ok_count0 conn_ok_fin_received conn_ok_send_fin conn_ok_send_rst conn_ok_pending
  conn_ok_dup conn_ok_established conn_ok_clear_synack : conn.
#[export] Hint Extern 1 (in_range 32 (wadd 32 _ _)) => apply wadd_range; lia : conn.
#[export] Hint Extern 1 (in_range 32 (wsub 32 _ _)) => apply wsub_range; lia : conn.

(** ** What receiving changes *)

(** The part of a connection that only sending and configuration change. *)
Record send_frame (c c' : Connection) : Prop := {
  sf_first : first_not_sent c' = first_not_sent c;
  sf_local : local_rwnd_edge c' = local_rwnd_edge c;
  sf_send_fin : send_fin c' = send_fin c;
  sf_mss : mss c' = mss c;
  sf_period : rto_period c' = rto_period c;
  sf_max : rto_count_max c' = rto_count_max c
}.

(** Nothing was received: neither data nor a FIN. *)
Record quiet (c c' : Connection) : Prop := {
  q_frame : send_frame c c';
  q_ack : ack_to_send c' = ack_to_send c;
  q_fin : fin_received c' = fin_received c
}.

#[export] Instance send_frame_preorder : PreOrder send_frame.
Proof. split; [by intros c|]. intros a b c [] []. constructor; congruence. Qed.
#[export] Instance quiet_preorder : PreOrder quiet.
Proof.
  split; [by intros c|]. intros a b c [] []. constructor; [by etrans|congruence..].
Qed.

Ltac quiet_tac := constructor; [constructor|..]; conn_simpl; done.

(** No data in a result. *)
Definition no_data (r : recv_result) : Prop := match r with Ok (Some _, _) => False | _ => True end.

Section Receive.
Context `{Profile}.

Lemma recv_helper_ok c s v f : conn_ok c -> views s v -> send_rst c = None ->
  exists r c', reset_for_segment_helper c s f = Ret (r, c') /\ no_data r /\ conn_ok c' /\ quiet c c'.
Proof.
  intros Hc V E. destruct (reset_for_segment_ok c s v Hc V E) as (cfg & Er & Hc').
  unfold reset_for_segment_helper. rewrite Er, bind_Ret. do 2 eexists. split_and!; [done|done|done|].
  quiet_tac.
Qed.

Lemma parse_mss_no_crash s v : views s v -> parse_mss_option s <> Crash.
Proof.
  intros V E. unfold parse_mss_option in E. pose proof (vs_mss _ _ V) as Em.
  pose proof (vs_no_crash _ _ V) as Hn. destruct (lift (header_len s)) as [hl| |]; try done.
  rewrite bind_Done in Em. rewrite bind_Done, Em in E. by destruct (v_mss v).
Qed.

Lemma is_valid_syn_eq s v : views s v ->
  is_valid_syn s = Ret ((v_flags v =? SYN) && (slen (v_payload v) =? 0)).
Proof.
  intros V. unfold is_valid_syn. rewrite (vs_flags _ _ V), bind_Ret.
  destruct (v_flags v =? SYN); [|done]. by rewrite (vs_payload_len _ _ V), bind_Ret.
Qed.

Lemma is_same_syn_no_crash c s v : views s v -> is_same_syn c s <> Crash.
Proof.
  intros V. unfold is_same_syn. rewrite (is_valid_syn_eq s v V). cbn [lift]. rewrite bind_Done.
  destruct (negb _); [done|]. rewrite (vs_seq _ _ V). cbn [lift]. rewrite bind_Done.
  destruct (negb _); [done|]. pose proof (parse_mss_no_crash s v V).
  by destruct (parse_mss_option s).
Qed.

Lemma recv_handshake_ok c s v f : conn_ok c -> views s v -> send_rst c = None ->
  recv_handshake c s f = Hang \/ recv_handshake c s f = Done (inr tt) \/
  exists r c', recv_handshake c s f = Done (inl (r, c')) /\ no_data r /\ conn_ok c' /\ quiet c c'.
Proof.
  intros Hc V E. unfold recv_handshake.
  destruct (recv_helper_ok c s v INVALID_SEGMENT Hc V E) as (r & c1 & -> & Hr & Hc1 & Hq).
  cbn [lift]. rewrite bind_Done. pose proof (is_same_syn_no_crash c s v V) as Hn.
  assert (Hres : exists r0 c', Done (inl (B := unit) (r, c1)) = Done (inl (r0, c')) /\ no_data r0 /\ conn_ok c' /\ quiet c c')
    by eauto 6.
  destruct (synack_sent c) eqn:Es; cbn [negb].
  - destruct (is_established c) eqn:Ee; cbn [negb].
    + destruct (intersects f SYN); eauto.
    + destruct (is_same_syn c s) as [[]| |]; try done; [| |by left].
      * rewrite bind_Done. right; right. do 2 eexists. split_and!; [done|done|by apply conn_ok_clear_synack|quiet_tac].
      * rewrite bind_Done. destruct (intersects f SYN); eauto.
  - destruct (is_same_syn c s) as [[]| |]; try done; [| |by left].
    + rewrite bind_Done. right; right. do 2 eexists. split_and!; [done|done|done|done].
    + rewrite bind_Done. eauto.
Qed.

Lemma recv_window_ok c ack w g : conn_ok c ->
  conn_ok (recv_window c ack w g).1 /\ quiet c (recv_window c ack w g).1 /\
  send_rst (recv_window c ack w g).1 = send_rst c /\
  status_flags (recv_window c ack w g).1 = status_flags c /\
  intersects (recv_window c ack w g).2 CONN_RESETTING = intersects g CONN_RESETTING.
Proof.
  intros Hc. unfold recv_window, compute_remote_rwnd_edge. bool_cases; cbn [fst snd];
    split_and!; try done; first [by eauto with conn|quiet_tac|by rewrite intersects_lor, orb_false_r].
Qed.

Lemma recv_new_ack_ok c ack now : conn_ok c -> in_range 32 ack -> in_range 64 now ->
  conn_ok (recv_new_ack c ack now) /\ quiet c (recv_new_ack c ack now) /\
  send_rst (recv_new_ack c ack now) = send_rst c /\
  highest_ack_received (recv_new_ack c ack now) = ack /\
  remote_rwnd_edge (recv_new_ack c ack now) = remote_rwnd_edge c.
Proof.
  intros Hc Ha Hn. unfold recv_new_ack.
  set (c1 := with_rto_start (with_highest_ack c ack) now).
  assert (Hc1 : conn_ok c1) by (apply conn_ok_start; [by apply conn_ok_highest|done]).
  set (c2 := if negb (is_established c1) && synack_sent c1 then set_flags c1 ESTABLISHED else c1).
  assert (Hc2 : conn_ok c2).
  { unfold c2. destruct (negb _ && _) eqn:E; [|done]. apply andb_true_iff in E as [_ E].
    by apply conn_ok_established. }
  assert (Hq : quiet c c2 /\ send_rst c2 = send_rst c /\ highest_ack_received c2 = ack /\
    remote_rwnd_edge c2 = remote_rwnd_edge c).
  { unfold c2, c1. destruct (negb _ && _); (split; [quiet_tac|done]). }
  destruct Hq as (Hq & Hr & Hh & He).
  destruct (fin_sent c2 && _); [|done].
  split; [apply conn_ok_flag; auto|]. split; [|done]. etrans; [exact Hq|quiet_tac].
Qed.

Lemma recv_ack_ok c s v f now : conn_ok c -> views s v -> send_rst c = None -> in_range 64 now ->
  (exists r c', recv_ack c s f now = Ret (inl (r, c')) /\ no_data r /\ conn_ok c' /\ quiet c c') \/
  (exists c' g, recv_ack c s f now = Ret (inr (c', g)) /\ conn_ok c' /\ quiet c c' /\ send_rst c' = None /\
     intersects g CONN_RESETTING = false).
Proof.
  intros Hc V E Hnow. unfold recv_ack. destruct (vs_ranges _ _ V) as (_ & _ & _ & Ha & _ & _).
  destruct (intersects f ACK); [|right; do 2 eexists; by split_and!].
  rewrite (vs_ack _ _ V), bind_Ret. destruct (_ && _).
  - set (c1 := with_rto_count c 0). assert (Hc1 : conn_ok c1) by by apply conn_ok_count0.
    assert (Hq1 : quiet c c1) by quiet_tac.
    rewrite (vs_window _ _ V), !bind_Ret. destruct (_ && negb _).
    + destruct (is_established c1) eqn:Ee; cbn [negb].
      * right. pose proof (conn_ok_dup c1 Hc1 true) as Hc2.
        destruct (recv_window_ok (with_dup_ack c1 true) (v_ack v) (v_window v) DUP_ACK Hc2) as (H1 & H2 & H3 & _ & H4).
        destruct (recv_window _ _ _ _) as [c2 g]. cbn [fst] in *. do 2 eexists.
        split_and!; [done|done| |by rewrite H3|done]. etrans; [exact Hq1|]. etrans; [|exact H2]. quiet_tac.
      * left. destruct (recv_helper_ok c1 s v INVALID_ACK Hc1 V E) as (r & c2 & -> & Hr & Hc2 & Hq).
        rewrite bind_Ret. do 2 eexists. split_and!; [done|done|done|by etrans].
    + right. destruct (recv_new_ack_ok c1 (v_ack v) now Hc1 Ha Hnow) as (H1 & H2 & H3 & _).
      destruct (is_established _).
      * destruct (recv_window_ok (recv_new_ack c1 (v_ack v) now) (v_ack v) (v_window v) 0 H1) as (H4 & H5 & H6 & _ & H7).
        destruct (recv_window _ _ _ _) as [c2 g]. cbn [fst] in *. do 2 eexists.
        split_and!; [done|done| |by rewrite H6, H3|done]. etrans; [exact Hq1|]. by etrans.
      * do 2 eexists. split_and!; [done|done|by etrans|by rewrite H3|done].
  - destruct (is_established c); cbn [negb]; [right; do 2 eexists; by split_and!|left].
    destruct (recv_helper_ok c s v INVALID_ACK Hc V E) as (r & c2 & -> & Hr & Hc2 & Hq).
    rewrite bind_Ret. eauto 6.
Qed.

(** The next expected sequence number after a segment whose data, or FIN, or both were
    accepted. *)
Definition rcv_next (c : Connection) (v : view) (fin : bool) (c' : Connection) : Prop :=
  let e := wadd 32 (v_seq v) (slen (v_payload v)) in
  if fin then fin_received c = None /\ fin_received c' = Some e /\ ack_to_send c' = wadd 32 e 1
  else fin_received c' = fin_received c /\ ack_to_send c' = e.

(** The three effects a segment can have. *)
Inductive recv_effect (c : Connection) (v : view) (buf : list Z)
    : recv_result -> Connection -> list Z -> Prop :=
| eff_quiet r c' : no_data r -> quiet c c' -> recv_effect c v buf r c' buf
| eff_data c' g fin : 0 < slen (v_payload v) <= slen buf -> v_seq v = ack_to_send c ->
    (forall f, fin_received c = Some f ->
       seq_at_or_after f (wadd 32 (v_seq v) (slen (v_payload v))) = true) ->
    seq_at_or_after (local_rwnd_edge c) (wadd 32 (v_seq v) (slen (v_payload v))) = true ->
    send_frame c c' -> rcv_next c v fin c' -> intersects g CONN_RESETTING = false ->
    recv_effect c v buf (Ok (Some (slen (v_payload v)), g)) c'
      (v_payload v ++ drop (length (v_payload v)) buf)
| eff_fin c' g : v_payload v = [] -> v_seq v = ack_to_send c ->
    send_frame c c' -> rcv_next c v true c' -> recv_effect c v buf (Ok (None, g)) c' buf.

Lemma wadd_wrap a b : wadd 32 a (wrap 32 b) = wadd 32 a b.
Proof. apply wrap_add_r. Qed.

Lemma recv_fin_ok c v f g b :
  let '(c', g', b') := recv_fin c (v_seq v) (slen (v_payload v)) f g b in
  intersects g' CONN_RESETTING = intersects g CONN_RESETTING /\
  ((c' = c /\ b' = b) \/
  (b' = true /\ fin_received c = None /\ wadd 32 (v_seq v) (slen (v_payload v)) = ack_to_send c /\
   c' = with_ack_to_send (with_fin_received c (Some (ack_to_send c))) (wadd 32 (ack_to_send c) 1))).
Proof.
  unfold recv_fin. rewrite wadd_wrap.
  destruct (intersects f FIN && negb (has_fin_received c)) eqn:E; [|by split; [|left]].
  destruct (Z.eqb_spec (wadd 32 (v_seq v) (slen (v_payload v))) (ack_to_send c)) as [Ef|Ef].
  2: { split; [|by left]. rewrite intersects_lor. apply orb_false_r. }
  split; [done|]. right. apply andb_true_iff in E as [_ E]. apply negb_true_iff, bool_decide_eq_false in E.
  split_and!; [done|by apply eq_None_not_Some|done|by rewrite Ef].
Qed.

Lemma copy_into_prefix buf data : slen data <= slen buf ->
  copy_into buf 0 (slen data) data = Ret (data ++ drop (length data) buf).
Proof.
  intros Hl. rewrite <-(take_drop (length data) buf) at 1.
  apply (copy_into_app [] (take (length data) buf) (drop (length data) buf) data); [done|done|].
  unfold slen in *. rewrite length_take. lia.
Qed.

Lemma recv_payload_ok c s v f g buf : conn_ok c -> views s v -> intersects g CONN_RESETTING = false ->
  exists r c' buf', recv_payload c s f (slen (v_payload v)) g buf = Ret (r, c', buf') /\
    conn_ok c' /\ recv_effect c v buf r c' buf'.
Proof.
  intros Hc V Hg. unfold recv_payload. rewrite (vs_seq _ _ V), bind_Ret.
  destruct (vs_ranges _ _ V) as (_ & _ & Hseq & _).
  set (n := slen (v_payload v)). set (e := wadd 32 (v_seq v) n).
  assert (He : in_range 32 e) by (apply wadd_range; lia).
  destruct (Z.ltb_spec (slen buf) n) as [Hb|Hb].
  { do 3 eexists. split_and!; [done|done|by constructor]. }
  destruct (Z.ltb_spec 0 n) as [Hn|Hn].
  - unfold recv_data. rewrite wadd_wrap. fold e.
    destruct (match fin_received c with Some _ => _ | None => _ end) eqn:Ef.
    { do 3 eexists. split_and!; [done|done|by constructor]. }
    destruct (seq_at_or_after (local_rwnd_edge c) e) eqn:Ew; cbn [negb].
    2: { do 3 eexists. split_and!; [done|done|by constructor]. }
    destruct (Z.eqb_spec (v_seq v) (ack_to_send c)) as [Eq|Eq]; cbn [negb].
    2: { do 3 eexists. split_and!; [done|eauto with conn|]. constructor; [done|quiet_tac]. }
    pose proof (recv_fin_ok (with_ack_to_send c e) v f g true) as Hfin. fold n in Hfin.
    destruct (recv_fin _ _ _ _ _ _) as [[c2 g2] b2]. rewrite Hg in Hfin. destruct Hfin as [Hg2 Hfin].
    assert (Hb2 : b2 = true) by (destruct Hfin as [[_ ?]|[? _]]; done). subst b2. cbn iota.
    rewrite (vs_payload _ _ V), bind_Ret. unfold n. rewrite copy_into_prefix, bind_Ret by done.
    assert (Hf : forall x, fin_received c = Some x -> seq_at_or_after x e = true).
    { intros x Ex. rewrite Ex in Ef. by destruct (seq_at_or_after x e). }
    do 3 eexists. split; [done|]. destruct Hfin as [[-> _]|(_ & E1 & E2 & ->)].
    + split; [eauto with conn|]. apply eff_data with false; try done.
    + conn_simpl. split; [eauto 6 with conn|]. apply eff_data with true; try done.
  - assert (En : v_payload v = []).
    { apply nil_length_inv. unfold n, slen in Hn. lia. }
    pose proof (recv_fin_ok c v f g false) as Hfin. fold n in Hfin.
    destruct (recv_fin _ _ _ _ _ _) as [[c2 g2] b2]. destruct Hfin as [_ Hfin].
    destruct Hfin as [[-> ->]|(-> & E1 & E2 & ->)].
    + do 3 eexists. split_and!; [done|done|by constructor].
    + do 3 eexists. split; [done|]. pose proof (co_ack _ Hc).
      split; [unfold enqueue_ack; eauto 7 with conn|].
      assert (Ev : v_seq v = ack_to_send c).
      { rewrite <-E2. unfold n. rewrite En. change (slen []) with 0. unfold wadd.
        rewrite Z.add_0_r. symmetry. by apply wrap_id. }
      apply eff_fin; try done. unfold rcv_next. fold n. fold e. conn_simpl.
      unfold e. by rewrite E2.
Qed.

(** Receiving returns, unless parsing the options of a SYN does not; it keeps the
    connection well-formed, and has one of the three effects. *)
Lemma receive_segment_ok c s v buf now : conn_ok c -> views s v -> in_range 64 now ->
  receive_segment c s buf now = Hang \/
  exists r c' buf', receive_segment c s buf now = Done (r, c', buf') /\
    conn_ok c' /\ recv_effect c v buf r c' buf'.
Proof.
  intros Hc V Hnow. unfold receive_segment.
  destruct (rst_pending c || is_reset c) eqn:Er.
  { right. do 3 eexists. split_and!; [done|done|by constructor]. }
  apply orb_false_iff in Er as [Er _].
  assert (Es : send_rst c = None) by (unfold rst_pending in Er; by destruct (send_rst c)).
  rewrite (vs_flags _ _ V), (vs_seq _ _ V), (vs_payload_len _ _ V). cbn [lift]. rewrite !bind_Done.
  destruct (intersects (v_flags v) RST).
  { right. destruct (_ && _); do 3 eexists; (split_and!; [done| |constructor]); try done.
    apply conn_ok_flag; auto. }
  destruct (recv_handshake_ok c s v (v_flags v) Hc V Es) as [->|[->|(r & c1 & -> & Hr & Hc1 & Hq)]].
  - by left.
  - rewrite bind_Done. right.
    destruct (recv_ack_ok c s v (v_flags v) now Hc V Es Hnow)
      as [(r & c1 & -> & Hr & Hc1 & Hq)|(c1 & g & -> & Hc1 & Hq & Es1 & Hg)]; cbn [lift]; rewrite bind_Done.
    + do 3 eexists. split_and!; [done|done|by constructor].
    + destruct (is_established c1); cbn [negb].
      * destruct (recv_payload_ok c1 s v (v_flags v) g buf Hc1 V Hg) as (r & c2 & buf' & -> & Hc2 & He).
        cbn [lift]. do 3 eexists. split_and!; [done|done|].
        destruct Hq as [Hf Ha Hfi]. destruct He as [r c2 Hr [Hq2 Ha2 Hf2]|c2 g2 fin H1 H2 H3 H4 H5 H6|c2 g2 H1 H2 H3 H4].
        -- constructor; [done|]. constructor; [by etrans|congruence..].
        -- rewrite Ha in H2. rewrite Hfi in H3. rewrite (sf_local _ _ Hf) in H4.
           apply eff_data with fin; try done; [by etrans|].
           unfold rcv_next in *. by rewrite <-Hfi.
        -- rewrite Ha in H2. apply eff_fin; try done; [by etrans|].
           unfold rcv_next in *. by rewrite <-Hfi.
      * do 3 eexists. split_and!; [done|done|by constructor].
  - rewrite bind_Done. right. do 3 eexists. split_and!; [done|done|by constructor].
Qed.
End Receive.

(** ** What writing changes *)

(** The part of a connection that writing leaves alone. *)
Record write_frame (c c' : Connection) : Prop := {
  wf_ack : ack_to_send c' = ack_to_send c;
  wf_highest : highest_ack_received c' = highest_ack_received c;
  wf_local : local_rwnd_edge c' = local_rwnd_edge c;
  wf_remote : remote_rwnd_edge c' = remote_rwnd_edge c;
  wf_fin_received : fin_received c' = fin_received c;
  wf_send_fin : send_fin c' = send_fin c;
  wf_mss : mss c' = mss c;
  wf_period : rto_period c' = rto_period c;
  wf_max : rto_count_max c' = rto_count_max c;
  wf_established : is_established c' = is_established c
}.

#[export] Instance write_frame_preorder : PreOrder write_frame.
Proof. split; [by intros c|]. intros a b c [] []. constructor; congruence. Qed.

(** A segment before its ports and checksum are filled in. *)
Definition seg_is (seg : TcpSegment) (seq ack flags window : Z) (m : option Z) (data : list Z) : Prop :=
  exists sport dport csum, in_range 16 sport /\ in_range 16 dport /\ in_range 16 csum /\
    seg = tcp_header sport dport seq ack (20 + mss_len m) flags window csum 0 ++ mss_bytes m ++ data.

Lemma mss_len_range m : 0 <= mss_len m <= 4.
Proof. destruct m; unfold mss_len, OPTION_LEN_MSS; lia. Qed.

Lemma seg_is_len seg seq ack flags window m data : seg_is seg seq ack flags window m data ->
  slen seg = 20 + mss_len m + slen data.
Proof.
  intros (sp & dp & cs & _ & _ & _ & ->). rewrite !slen_app, slen_tcp_header, slen_mss_bytes. lia.
Qed.

Lemma local_rwnd_range c : in_range 16 (local_rwnd c).
Proof.
  unfold local_rwnd. pose proof (wsub_range 32 (local_rwnd_edge c) (ack_to_send c) ltac:(lia)) as H.
  unfold in_range in *. simpl Z.pow in *. destruct (Z.ltb_spec 65535 (wsub 32 (local_rwnd_edge c) (ack_to_send c))); lia.
Qed.

(** The arguments of a write: a buffer of at most 64 kB, as [dumbo] is given, the bytes
    of the data, and a clock that does not run backwards. *)
Record write_args (c : Connection) (buf : list Z) (mss_reserved : Z) (src : option (list Z * Z)) (now : Z)
    : Prop := {
  wa_bytes : bytes_ok buf;
  wa_len : slen buf <= 65535;
  wa_reserved : 0 <= mss_reserved;
  wa_src : forall rb ps, src = Some (rb, ps) -> bytes_ok rb /\ in_range 32 ps;
  wa_now : in_range 64 now;
  wa_clock : rto_start c <= now
}.

Section Write.
Context `{Profile}.

(** The buffer afterwards, and the segment cut from it. *)
Record buf_after (buf : list Z) (seg : option TcpSegment) (buf' : list Z) : Prop := {
  ba_len : slen buf' = slen buf;
  ba_bytes : bytes_ok buf';
  ba_seg : forall s, seg = Some s -> slen s <= slen buf
}.

Definition ok_of {A E} (r : result A E) : option A := match r with Ok a => Some a | Err _ => None end.

Lemma conn_write_segment_ok c buf mr seq ack flags pl :
  conn_ok c -> bytes_ok buf -> slen buf <= 65535 -> 0 <= mr -> byte_ok flags ->
  (forall pb max, pl = Some (pb, max) -> bytes_ok pb /\ 0 <= max) ->
  let m := if flags =? Z.lor SYN ACK then Some (mss c) else None in
  exists r c' buf', conn_write_segment c buf mr seq ack flags pl = Ret (r, c', buf') /\
    (c' = c \/ c' = with_pending_ack c false /\ exists seg, r = Ok seg) /\ buf_after buf (ok_of r) buf' /\
    (forall seg, r = Ok seg ->
       seg_is seg seq ack flags (local_rwnd c) m (segment_data buf m (mss c - mr) pl) /\
       forall pb max, pl = Some (pb, max) -> 0 < payload_room buf m (mss c - mr) pb max).
Proof.
  intros Hc Hb Hl Hm Hf Hp m. unfold conn_write_segment. fold m.
  destruct (Z.ltb_spec (mss c) mr) as [Hlt|Hge].
  { do 3 eexists. split; [done|]. by split_and!; [left| |]. }
  destruct (write_incomplete_segment_spec buf seq ack flags (local_rwnd c) m (mss c - mr) pl)
    as (r & buf' & -> & W); try done; [lia|simpl Z.pow; lia|].
  rewrite bind_Ret. destruct W as [Wl Wb Wr]. destruct r as [seg|e].
  2: { do 3 eexists. split; [done|]. by split_and!; [left| |]. }
  destruct Wr as [[_ [=]]|[(_ & _ & [=])|[(pb & max & _ & _ & _ & _ & [=])|(sp & dp & cs & H1 & H2 & H3 & H4 & H5 & H6 & E)]]].
  assert (Hseg : seg_is seg seq ack flags (local_rwnd c) m (segment_data buf m (mss c - mr) pl)).
  { exists sp, dp, cs. split_and!; try done. congruence. }
  pose proof (mss_len_range m). do 3 eexists. split; [done|]. split_and!.
  - destruct (intersects flags ACK); eauto.
  - constructor; [done|done|]. intros s [= <-]. rewrite (seg_is_len _ _ _ _ _ _ _ Hseg).
    destruct pl as [[pb max]|]; cbn [segment_data]; [|change (slen []) with 0; lia].
    unfold slen at 1. rewrite length_take. specialize (H6 pb max eq_refl). unfold payload_room in *. lia.
  - intros s [= <-]. by split.
Qed.

(** The numbers a control segment carries. *)
Lemma control_fields_ok c : conn_ok c ->
  let '(seq, ack, flags) := control_fields c in
  in_range 32 seq /\ in_range 32 ack /\ byte_ok flags /\ intersects flags RST = rst_pending c.
Proof.
  intros Hc. unfold control_fields, rst_pending. destruct (send_rst c) as [cfg|] eqn:E.
  - pose proof (co_rst _ Hc cfg E). destruct cfg; cbn; split_and!; try done.
  - destruct Hc. destruct (is_established c); cbn [negb].
    + destruct (send_fin c) as [f|]; [|by split_and!]. destruct (_ && _); split_and!; try done. by apply co_send_fin0.
    + split_and!; try done. apply wsub_range. lia.
Qed.

Lemma then_control_ok c buf mr k : conn_ok c -> bytes_ok buf -> slen buf <= 65535 -> 0 <= mr ->
  exists r c' buf', then_control c buf mr k = Ret (r, c', buf') /\ buf_after buf (mjoin (ok_of r)) buf' /\
    ((exists e, r = Err e /\ c' = c) \/
     exists seg seq ack flags m, r = Ok (Some seg) /\ (c' = k c \/ c' = k (with_pending_ack c false)) /\
       control_fields c = (seq, ack, flags) /\ seg_is seg seq ack flags (local_rwnd c) m []).
Proof.
  intros Hc Hb Hl Hm. unfold then_control, write_control_segment.
  pose proof (control_fields_ok c Hc) as Hcf. destruct (control_fields c) as [[seq ack] flags].
  destruct Hcf as (_ & _ & Hf & _).
  destruct (conn_write_segment_ok c buf mr seq ack flags None Hc Hb Hl Hm Hf) as
    (r & c1 & buf1 & -> & Hc1 & Hb1 & Hs); [done|]. rewrite bind_Ret. destruct r as [seg|e].
  - do 3 eexists. split; [done|]. split; [done|]. right. destruct (Hs seg eq_refl) as [Hseg _].
    exists seg, seq, ack, flags. eexists. split_and!; [done| |done|exact Hseg]. destruct Hc1 as [->|[-> _]]; auto.
  - do 3 eexists. split; [done|]. split; [done|]. left. destruct Hc1 as [->|[_ [seg [=]]]]. eauto.
Qed.

(** What one call of [write_next_segment] does: nothing to send or an error; a control
    segment, which may carry the first FIN; or a data segment. *)
Definition sent_first (c : Connection) (e : Z) (fin : bool) : Z :=
  let e := if fin then wadd 32 e 1 else e in
  if seq_after e (first_not_sent c) then e else first_not_sent c.

Inductive write_effect (c : Connection) (src : option (list Z * Z)) : next_result -> Connection -> Prop :=
| wr_none r c' : (forall seg, r <> Ok (Some seg)) ->
    first_not_sent c' = first_not_sent c -> fin_sent c' = fin_sent c -> is_reset c' = is_reset c ->
    write_effect c src r c'
| wr_control seg c' seq ack flags window m fin : seg_is seg seq ack flags window m [] ->
    byte_ok flags -> in_range 32 seq -> in_range 32 ack -> in_range 16 window ->
    intersects flags RST = is_reset c' ->
    (if fin : bool
     then can_send_first_fin c = true /\ first_not_sent c' = wadd 32 (first_not_sent c) 1 /\ fin_sent c' = true
     else first_not_sent c' = first_not_sent c /\ fin_sent c' = fin_sent c) ->
    write_effect c src (Ok (Some seg)) c'
| wr_data seg c' rb ps seq n window fin : src = Some (rb, ps) ->
    (seq = highest_ack_received c \/ seq = first_not_sent c) -> seq_at_or_after seq ps = true ->
    let ae := actual_end c (wadd 32 ps (slen rb)) in
    0 < n <= slen rb -> slen rb <= MAX_WINDOW_SIZE -> n <= wsub 32 ae seq -> seq_after ae seq = true ->
    (forall f, send_fin c = Some f -> seq_after ae f = false) ->
    fin = bool_decide (send_fin c = Some (wadd 32 seq n)) ->
    seg_is seg seq (ack_to_send c) (if fin then Z.lor ACK FIN else ACK) window None (take (Z.to_nat n) rb) ->
    in_range 16 window ->
    first_not_sent c' = sent_first c (wadd 32 seq n) fin -> fin_sent c' = fin_sent c || fin ->
    is_reset c' = false ->
    write_effect c src (Ok (Some seg)) c'.

Record write_ok (c : Connection) (buf : list Z) (src : option (list Z * Z)) (now : Z)
    (r : next_result) (c' : Connection) (buf' : list Z) : Prop := {
  w_conn : conn_ok c';
  w_frame : write_frame c c';
  w_buf : buf_after buf (mjoin (ok_of r)) buf';
  w_start : rto_start c' = rto_start c \/ rto_start c' = now;
  w_effect : write_effect c src r c'
}.

Ltac frame_tac := constructor; conn_simpl; done.

(** Two connections that differ in the retransmission count, the pending RST and ACK at
    most. *)
Record same_send (c c' : Connection) : Prop := {
  ss_frame : write_frame c c';
  ss_first : first_not_sent c' = first_not_sent c;
  ss_status : status_flags c' = status_flags c;
  ss_start : rto_start c' = rto_start c
}.

Ltac same_tac := constructor; [constructor|..]; conn_simpl; done.

(** A control segment that leaves [first_not_sent] alone, written on behalf of [c]. *)
Lemma then_control_write_ok c c1 buf mr src now k :
  conn_ok c1 -> same_send c c1 -> write_args c buf mr src now ->
  (forall c0, c0 = c1 \/ c0 = with_pending_ack c1 false -> conn_ok (k c0) /\ write_frame c1 (k c0) /\
     first_not_sent (k c0) = first_not_sent c1 /\ fin_sent (k c0) = fin_sent c1 /\
     (rto_start (k c0) = rto_start c1 \/ rto_start (k c0) = now) /\ is_reset (k c0) = rst_pending c1) ->
  exists r c' buf', then_control c1 buf mr k = Ret (r, c', buf') /\ write_ok c buf src now r c' buf'.
Proof.
  intros Hc [Hf1 Hf2 Hf3 Hf4] [Hb Hl Hm _ _ _] Hk.
  destruct (then_control_ok c1 buf mr k Hc Hb Hl Hm) as (r & c' & buf' & E & Hba & He).
  exists r, c', buf'. split; [done|].
  assert (Hfin : fin_sent c1 = fin_sent c) by (conn_simpl; by rewrite Hf3).
  destruct He as [(e & -> & ->)|(seg & seq & ack & flags & m & -> & Hc' & Ecf & Hseg)].
  - constructor; [done|done|done|by left|]. constructor; try done. conn_simpl. by rewrite Hf3.
  - pose proof (control_fields_ok c1 Hc) as Hcf. rewrite Ecf in Hcf. destruct Hcf as (H1 & H2 & H3 & H4).
    assert (Hk' : exists c0, (c0 = c1 \/ c0 = with_pending_ack c1 false) /\ c' = k c0)
      by (destruct Hc' as [->| ->]; eauto).
    destruct Hk' as (c0 & Hc0 & ->). destruct (Hk c0 Hc0) as (K1 & K2 & K3 & K4 & K5 & K6).
    constructor; [done|by etrans|done|by rewrite <-Hf4|].
    apply wr_control with seq ack flags (local_rwnd c1) m false; try done; [apply local_rwnd_range|congruence|].
    split; congruence.
Qed.

Lemma write_control_ok c buf mr src now :
  conn_ok c -> write_args c buf mr src now -> send_rst c = None -> is_reset c = false ->
  exists r c' buf', write_control c buf mr = Ret (r, c', buf') /\ write_ok c buf src now r c' buf'.
Proof.
  intros Hc Ha Es Er. unfold write_control. destruct (can_send_first_fin c) eqn:Ef.
  - rewrite orb_true_r. destruct Ha as [Hb Hl Hm _ _ _].
    destruct (then_control_ok c buf mr (fun c =>
      set_flags (with_first_not_sent c (wadd 32 (first_not_sent c) 1)) FIN_SENT) Hc Hb Hl Hm)
      as (r & c' & buf' & E & Hba & He).
    exists r, c', buf'. split; [done|].
    destruct He as [(e & -> & ->)|(seg & seq & ack & flags & m & -> & Hc' & Ecf & Hseg)].
    + constructor; [done|done|done|by left|]. by constructor.
    + pose proof (control_fields_ok c Hc) as Hcf. rewrite Ecf in Hcf. destruct Hcf as (H1 & H2 & H3 & H4).
      assert (Hf : exists f, send_fin c = Some f).
      { unfold can_send_first_fin in Ef. destruct (send_fin c); [eauto|]. by rewrite andb_false_r in Ef. }
      destruct Hf as [f Hf].
      assert (Hk : conn_ok c' /\ write_frame c c' /\ rto_start c' = rto_start c /\
        first_not_sent c' = wadd 32 (first_not_sent c) 1 /\ fin_sent c' = true /\ is_reset c' = false).
      { destruct Hc' as [->| ->]; (split; [apply conn_ok_fin_sent with f; [eauto with conn|done]|]);
          (split; [frame_tac|]); conn_simpl; done. }
      destruct Hk as (K1 & K2 & K3 & K4 & K5 & K6).
      constructor; [done|done|done|by left|].
      apply wr_control with seq ack flags (local_rwnd c) m true; try done; [apply local_rwnd_range|].
      rewrite H4, K6. unfold rst_pending. by rewrite Es.
  - rewrite orb_false_r. destruct (pending_ack c).
    + apply then_control_write_ok; [done|same_tac|done|]. intros c0 [->| ->];
        (split; [eauto with conn|]); (split; [frame_tac|]); conn_simpl; unfold rst_pending; rewrite ?Es; auto.
    + do 3 eexists. split; [done|]. constructor; [done|done| |by left|by constructor].
      constructor; [done|apply Ha|done].
Qed.

(** The call after a decision to reset writes the RST and needs no further call. *)
Lemma write_next_segment_again c n fuel buf mr src now :
  conn_ok c -> write_args c buf mr src now -> send_rst c = None -> is_reset c = false ->
  0 <= n < 65536 ->
  exists r c' buf', write_next_calls (S fuel) (reset (with_rto_count c n)) buf mr src now = Ret (r, c', buf') /\
    write_ok c buf src now r c' buf'.
Proof.
  intros Hc Ha Es Er Hn. set (c1 := reset (with_rto_count c n)).
  assert (E1 : c1 = with_send_rst (with_rto_count c n) (Some (make_rst_config (with_rto_count c n)))).
  { unfold c1, reset, rst_pending. conn_simpl. by rewrite Es. }
  assert (Hc1 : conn_ok c1).
  { rewrite E1. assert (Hr : rst_ok (make_rst_config (with_rto_count c n))).
    { unfold make_rst_config. conn_simpl. destruct (intersects (status_flags c) ESTABLISHED); cbn; [apply (co_first _ Hc)|apply (co_ack _ Hc)]. }
    destruct Hc. constructor; conn_simpl; try done; [|by intros r [= <-]]. split_and!; [lia|done|lia]. }
  assert (Hs : same_send c c1) by (rewrite E1; same_tac).
  assert (Hp : rst_pending c1 = true) by by rewrite E1.
  assert (Er1 : is_reset c1 = false) by (rewrite E1; by conn_simpl).
  cbn [write_next_calls]. rewrite Er1, Hp.
  apply then_control_write_ok; [done|done|done|].
  intros c0 [->| ->]; (split; [apply conn_ok_flag; eauto with conn|]); (split; [frame_tac|]);
    rewrite Hp; conn_simpl; auto.
Qed.

Lemma choose_seq_ok c buf mr src now :
  conn_ok c -> write_args c buf mr src now -> send_rst c = None -> is_reset c = false ->
  is_established c = true ->
  (exists r c' buf', choose_seq c buf mr now (fun c => write_next_calls 1 c buf mr src now) =
      Ret (inl (r, c', buf')) /\ write_ok c buf src now r c' buf') \/
  (exists c1 seq b, choose_seq c buf mr now (fun c => write_next_calls 1 c buf mr src now) =
      Ret (inr (c1, seq, b)) /\ conn_ok c1 /\ same_send c c1 /\ send_rst c1 = None /\
      (seq = highest_ack_received c \/ seq = first_not_sent c)).
Proof.
  intros Hc Ha Es Er Ee. unfold choose_seq.
  assert (Hex : exists b, (if negb (highest_ack_received c =? first_not_sent c) then rto_expired c now
    else Ret false) = Ret b).
  { destruct (negb _); [|eauto]. unfold rto_expired.
    destruct Ha as [_ _ _ _ Hnow Hclk]. pose proof (co_start _ Hc).
    rewrite usub_ok, bind_Ret by (unfold in_range in *; lia). eauto. }
  destruct Hex as [b ->]. rewrite bind_Ret. destruct b.
  - destruct (co_count _ Hc) as (Hn & Hlt & _). specialize (Hlt Es). pose proof (co_max _ Hc).
    rewrite uadd_ok, bind_Ret by (unfold in_range; simpl Z.pow; lia).
    conn_simpl. destruct (Z.leb_spec (rto_count_max c) (rto_count c + 1)) as [Hmax|Hmax].
    + left. destruct (write_next_segment_again c (rto_count c + 1) 0 buf mr src now Hc Ha Es Er)
        as (r & c' & buf' & -> & Hw); [lia|]. rewrite bind_Ret. eauto 6.
    + assert (Hc1 : conn_ok (with_rto_count c (rto_count c + 1))) by (apply conn_ok_count; [done|lia]).
      destruct (match send_fin c with Some _ => _ | None => _ end).
      * left. destruct (then_control_write_ok c (with_rto_count c (rto_count c + 1)) buf mr src now
          (fun c => with_rto_start c now)) as (r & c' & buf' & -> & Hw); [done|same_tac|done| |].
        { destruct Ha as [_ _ _ _ Hnow _]. unfold rst_pending.
          intros c0 [->| ->]; (split; [eauto with conn|]); (split; [frame_tac|]); conn_simpl; rewrite ?Es; auto. }
        rewrite bind_Ret. eauto 6.
      * right. do 3 eexists. split_and!; [done|done|same_tac|done|by left].
  - right. destruct (dup_ack c); do 3 eexists; (split_and!; [done|done|done|done|auto]).
Qed.

(** Reading back a segment just written. *)
Lemma seg_is_read seg seq ack flags window m data :
  seg_is seg seq ack flags window m data -> in_range 32 seq -> in_range 32 ack -> byte_ok flags ->
  in_range 16 window -> slen data <= 65535 ->
  sequence_number seg = Ret seq /\ ack_number seg = Ret ack /\ flags_after_ns seg = Ret flags /\
  header_len seg = Ret (20 + mss_len m) /\ payload seg = Ret data /\ payload_len seg = Ret (slen data).
Proof.
  intros (sp & dp & cs & H1 & H2 & H3 & ->) Hs Ha Hf Hw Hd. pose proof (mss_len_range m).
  destruct (tcp_header_read sp dp seq ack (20 + mss_len m) flags window cs 0 (mss_bytes m ++ data))
    as (_ & _ & R3 & R4 & R5 & R6 & _); try done; [lia|by destruct m|].
  destruct (options_read (tcp_header sp dp seq ack (20 + mss_len m) flags window cs 0) m data (20 + mss_len m))
    as [_ O2]; [done|done|].
  split_and!; try done.
  - unfold payload. by rewrite R5, bind_Ret.
  - unfold payload_len. rewrite R5, bind_Ret, !slen_app, slen_tcp_header, slen_mss_bytes.
    pose proof (slen_nonneg data). rewrite usub_ok by (unfold in_range; simpl Z.pow; lia). f_equal. lia.
Qed.

(** The FIN put on a segment that ends where the data does. *)
Lemma fin_mark_ok c seg seq e data window :
  conn_ok c -> seg_is seg seq (ack_to_send c) ACK window None data ->
  let fin := bool_decide (send_fin c = Some e) in
  exists seg' c2 e', (if match send_fin c with Some f => e =? f | None => false end
      then segment ← set_flags_after_ns seg (Z.lor ACK FIN); Ret (segment, wadd 32 e 1, set_flags c FIN_SENT)
      else Ret (seg, e, c)) = Ret (seg', e', c2) /\
    seg_is seg' seq (ack_to_send c) (if fin then Z.lor ACK FIN else ACK) window None data /\
    conn_ok c2 /\ write_frame c c2 /\ first_not_sent c2 = first_not_sent c /\
    fin_sent c2 = fin_sent c || fin /\ is_reset c2 = is_reset c /\ rto_start c2 = rto_start c /\
    e' = if fin then wadd 32 e 1 else e.
Proof.
  intros Hc Hseg fin. destruct (send_fin c) as [f|] eqn:Ef.
  - destruct (Z.eqb_spec e f) as [<-|Hne].
    + unfold fin. rewrite bool_decide_eq_true_2 by done.
      destruct Hseg as (sp & dp & cs & H1 & H2 & H3 & ->).
      rewrite (proj2 (proj2 (proj2 (tcp_header_set _ _ _ _ _ _ _ _ _ _ _)))), bind_Ret.
      do 3 eexists. split; [done|]. split; [by exists sp, dp, cs|].
      split; [by apply conn_ok_fin_sent with e|]. split; [frame_tac|]. conn_simpl. done.
    + unfold fin. rewrite bool_decide_eq_false_2 by congruence. rewrite orb_false_r.
      do 3 eexists. split; [done|]. split; [done|]. split; [done|]. split; [frame_tac|done].
  - unfold fin. rewrite bool_decide_eq_false_2, orb_false_r by done.
    do 3 eexists. split; [done|]. split; [done|]. split; [done|]. split; [frame_tac|done].
Qed.

Lemma data_sent_ok c seg seq now b data window :
  conn_ok c -> in_range 32 seq -> in_range 16 window -> in_range 64 now -> slen data <= 65535 ->
  seg_is seg seq (ack_to_send c) ACK window None data ->
  let fin := bool_decide (send_fin c = Some (wadd 32 seq (slen data))) in
  exists seg' c', data_sent c seg seq now b = Ret (seg', c') /\
    seg_is seg' seq (ack_to_send c) (if fin then Z.lor ACK FIN else ACK) window None data /\
    conn_ok c' /\ write_frame c c' /\ first_not_sent c' = sent_first c (wadd 32 seq (slen data)) fin /\
    fin_sent c' = fin_sent c || fin /\ is_reset c' = is_reset c /\
    (rto_start c' = rto_start c \/ rto_start c' = now).
Proof.
  intros Hc Hseq Hw Hnow Hd Hseg fin. unfold data_sent.
  destruct (seg_is_read seg seq (ack_to_send c) ACK window None data Hseg)
    as (_ & _ & _ & _ & Ep & _); try done; [apply (co_ack _ Hc)|].
  rewrite Ep, bind_Ret, wadd_wrap. set (e := wadd 32 seq (slen data)) in *.
  set (c1 := with_dup_ack c false). assert (Hc1 : conn_ok c1) by by apply conn_ok_dup.
  destruct (fin_mark_ok c1 seg seq e data window Hc1 Hseg) as
    (seg' & c2 & e' & -> & K1 & K2 & K3 & K4 & K5 & K6 & K7 & ->).
  change (send_fin c1) with (send_fin c) in *. change (ack_to_send c1) with (ack_to_send c) in *.
  change (fin_sent c1) with (fin_sent c) in *.
  fold fin in K1, K5 |- *. rewrite bind_Ret.
  assert (K3' : write_frame c c2) by (etrans; [|exact K3]; frame_tac).
  set (c3 := if b || _ then with_rto_start c2 now else c2).
  assert (Hc3 : conn_ok c3 /\ write_frame c c3 /\ first_not_sent c3 = first_not_sent c /\
    fin_sent c3 = fin_sent c2 /\ is_reset c3 = is_reset c /\ (rto_start c3 = rto_start c \/ rto_start c3 = now)).
  { unfold c3. destruct (b || _); [|by split_and!; try left].
    split; [eauto with conn|]. split; [etrans; [exact K3'|frame_tac]|]. by split_and!; try right. }
  destruct Hc3 as (L1 & L2 & L3 & L4 & L5 & L6).
  exists seg', (if seq_after (if fin then wadd 32 e 1 else e) (first_not_sent c3)
    then with_first_not_sent c3 (if fin then wadd 32 e 1 else e) else c3).
  split; [done|]. split; [done|]. unfold sent_first. rewrite L3, <-K5, <-L4.
  assert (He : in_range 32 (if fin then wadd 32 e 1 else e)) by (destruct fin; apply wadd_range; lia).
  destruct (seq_after _ _); [|done].
  split; [eauto with conn|]. split; [etrans; [exact L2|frame_tac]|]. by split_and!.
Qed.

Lemma write_back_ok buf buf' seg : slen buf' = slen buf -> bytes_ok buf' -> bytes_ok seg ->
  slen seg <= slen buf -> buf_after buf (Some seg) (write_back buf' seg).
Proof.
  intros Hl Hb Hs Hn. unfold write_back. constructor.
  - rewrite slen_app. unfold slen in *. rewrite length_drop. lia.
  - apply Forall_app. split; [done|by apply Forall_drop].
  - by intros s [= <-].
Qed.

Lemma seg_is_bytes seg seq ack flags window m data :
  seg_is seg seq ack flags window m data -> byte_ok flags -> bytes_ok data -> bytes_ok seg.
Proof.
  intros (sp & dp & cs & _ & _ & _ & ->) Hf Hd. pose proof (mss_len_range m).
  apply Forall_app. split; [apply tcp_header_ok; [unfold byte_ok; lia|done]|].
  apply Forall_app. split; [apply mss_bytes_ok|done].
Qed.

(** The data segment itself. *)
Lemma write_data_segment_ok c c1 buf mr rb ps seq now b :
  let ae := actual_end c (wadd 32 ps (slen rb)) in
  conn_ok c -> conn_ok c1 -> same_send c c1 -> write_args c buf mr (Some (rb, ps)) now -> is_reset c = false ->
  slen rb <= MAX_WINDOW_SIZE -> (seq = highest_ack_received c \/ seq = first_not_sent c) ->
  seq_at_or_after seq ps = true -> (forall f, send_fin c = Some f -> seq_after ae f = false) ->
  seq_after ae seq = true ->
  exists r c' buf',
    (r ← conn_write_segment c1 buf mr seq (ack_to_send c1) ACK (Some (rb, wsub 32 ae seq));
     match r with
     | (Err e, c, buf) => Ret (inl (Err e, c, buf))
     | (Ok segment, c, buf) =>
         d ← data_sent c segment seq now b;
         let '(segment, c) := d : TcpSegment * Connection in
         Ret (inl (B := Connection) (Ok (Some segment), c, write_back buf segment))
     end) = Ret (inl (r, c', buf')) /\ write_ok c buf (Some (rb, ps)) now r c' buf'.
Proof.
  intros ae Hc Hc1 [F1 F2 F3 F4] [Hb Hl Hmr Hsrc Hnow Hclk] Er Hrb Hseq Hps Hfin Has.
  destruct (Hsrc rb ps eq_refl) as [Hrbb _].
  assert (Hmax : 0 <= wsub 32 ae seq < 2 ^ 32) by (apply wsub_range; lia).
  assert (Hs32 : in_range 32 seq) by (destruct Hseq as [->| ->]; [apply (co_highest _ Hc)|apply (co_first _ Hc)]).
  destruct (conn_write_segment_ok c1 buf mr seq (ack_to_send c1) ACK (Some (rb, wsub 32 ae seq)))
    as (r & c2 & buf2 & -> & Hc2 & Hba & Hseg); try done.
  { intros pb max [= <- <-]. split; [done|lia]. }
  rewrite bind_Ret. destruct r as [seg|e].
  2: { destruct Hc2 as [->|[_ [seg [=]]]]. do 3 eexists. split; [done|].
       constructor; [done|done|done|by left|]. constructor; try done; conn_simpl; by rewrite F3. }
  destruct (Hseg seg eq_refl) as [Hsi Hroom]. specialize (Hroom rb (wsub 32 ae seq) eq_refl).
  change (if ACK =? Z.lor SYN ACK then Some (mss c1) else None) with (@None Z) in *.
  set (n := payload_room buf None (mss c1 - mr) rb (wsub 32 ae seq)) in *.
  cbn [segment_data] in Hsi. fold n in Hsi. set (data := take (Z.to_nat n) rb) in *.
  assert (Hn : n <= slen rb /\ n <= wsub 32 ae seq /\ 20 + n <= slen buf) by (unfold n, payload_room, mss_len; lia).
  assert (Ed : slen data = n) by (unfold data, slen in *; rewrite length_take; lia).
  assert (Hc2' : conn_ok c2 /\ write_frame c1 c2 /\ first_not_sent c2 = first_not_sent c1 /\
    status_flags c2 = status_flags c1 /\ rto_start c2 = rto_start c1).
  { destruct Hc2 as [->|[-> _]]; [done|]. split; [eauto with conn|]. split; [frame_tac|done]. }
  destruct Hc2' as (K1 & K2 & K3 & K4 & K5).
  assert (F : write_frame c c2) by by etrans.
  rewrite <-(wf_ack _ _ K2) in Hsi.
  destruct (data_sent_ok c2 seg seq now b data (local_rwnd c1) K1 Hs32 (local_rwnd_range c1) Hnow)
    as (seg' & c3 & -> & L1 & L2 & L3 & L4 & L5 & L6 & L7); [lia|done|].
  rewrite bind_Ret, Ed, (wf_send_fin _ _ F), (wf_ack _ _ F) in *.
  set (fin := bool_decide (send_fin c = Some (wadd 32 seq n))) in *.
  assert (Hfl : byte_ok (if fin then Z.lor ACK FIN else ACK)) by by destruct fin.
  destruct Hba as [B1 B2 _].
  do 3 eexists. split; [done|]. constructor.
  - done.
  - by etrans.
  - apply write_back_ok; try done.
    + eapply seg_is_bytes; [done|done|by apply Forall_take].
    + rewrite (seg_is_len _ _ _ _ _ _ _ L1). cbn [mss_len]. lia.
  - by rewrite K5, F4 in L7.
  - apply wr_data with rb ps seq n (local_rwnd c1) fin; try done; try lia; try apply local_rwnd_range.
    + fold ae. lia.
    + rewrite L4. unfold sent_first. by rewrite K3, F2.
    + rewrite L5. conn_simpl. by rewrite K4, F3.
    + rewrite L6. conn_simpl. by rewrite K4, F3.
Qed.

(** The data path: an early return is a complete call, and falling through leaves the
    connection as it was but for the retransmission count. *)
Lemma write_data_ok c buf mr rb ps now :
  let src := Some (rb, ps) in
  conn_ok c -> write_args c buf mr src now -> send_rst c = None -> is_reset c = false ->
  is_established c = true ->
  (exists r c' buf', write_data c buf mr rb ps now (fun c => write_next_calls 1 c buf mr src now) =
      Ret (inl (r, c', buf')) /\ write_ok c buf src now r c' buf') \/
  (exists c1, write_data c buf mr rb ps now (fun c => write_next_calls 1 c buf mr src now) =
      Ret (inr c1) /\ conn_ok c1 /\ same_send c c1 /\ send_rst c1 = None).
Proof.
  intros src Hc Ha Es Er Ee. unfold write_data.
  assert (Herr : forall e c1, conn_ok c1 -> same_send c c1 -> write_ok c buf src now (Err e) c1 buf).
  { intros e c1 Hc1 [F1 F2 F3 F4]. constructor; [done|done| |by left|].
    - by constructor; [|apply Ha|].
    - constructor; try done; conn_simpl; by rewrite F3. }
  destruct (Z.ltb_spec MAX_WINDOW_SIZE (slen rb)) as [Hrb|Hrb].
  { left. do 3 eexists. split; [done|]. by apply Herr. }
  destruct (choose_seq_ok c buf mr src now Hc Ha Es Er Ee)
    as [(r & c' & buf' & -> & Hw)|(c1 & seq & b & -> & Hc1 & Hs & Es1 & Hseq)]; rewrite bind_Ret.
  { left. eauto 6. }
  destruct Hs as [F1 F2 F3 F4].
  destruct (seq_at_or_after seq ps) eqn:Eps; cbn [negb].
  2: { left. do 3 eexists. split; [done|]. by apply Herr. }
  rewrite wadd_wrap. set (ae := actual_end c1 (wadd 32 ps (slen rb))).
  assert (Eae : ae = actual_end c (wadd 32 ps (slen rb))).
  { unfold ae, actual_end. by rewrite (wf_remote _ _ F1). }
  rewrite (wf_send_fin _ _ F1).
  destruct (match send_fin c with Some _ => _ | None => _ end) eqn:Efin.
  { left. do 3 eexists. split; [done|]. by apply Herr. }
  destruct (seq_after ae seq) eqn:Eas.
  2: { right. eexists. by split_and!. }
  left. clearbody ae. subst ae. apply write_data_segment_ok; try done.
  intros f Hf. by rewrite Hf in Efin.
Qed.

Lemma write_ok_same c c1 buf src now r c' buf' :
  same_send c c1 -> write_ok c1 buf src now r c' buf' -> write_ok c buf src now r c' buf'.
Proof.
  intros [F1 F2 F3 F4] [W1 W2 W3 W4 W5].
  assert (E1 : fin_sent c1 = fin_sent c) by (conn_simpl; by rewrite F3).
  assert (E2 : is_reset c1 = is_reset c) by (conn_simpl; by rewrite F3).
  constructor; [done|by etrans|done|by rewrite <-F4|].
  destruct W5 as [r c' H1 H2 H3 H4|seg c' seq ack flags w m fin H1 H2 H3 H4 H5 H6 H7
    |seg c' rb ps seq n w fin H1 H2 H3 ae H4 H5 H6 H7 H8 H9 H10 H11 H12 H13 H14].
  - constructor; congruence.
  - apply wr_control with seq ack flags w m fin; try done. destruct fin; [|split; destruct H7; congruence].
    destruct H7 as (H7 & H8 & H9). split_and!; [|congruence|done].
    revert H7. unfold can_send_first_fin. by rewrite E1, (wf_send_fin _ _ F1), (wf_highest _ _ F1).
  - assert (Eae : ae = actual_end c (wadd 32 ps (slen rb))).
    { unfold ae, actual_end. by rewrite (wf_remote _ _ F1). }
    rewrite (wf_highest _ _ F1), F2 in H2. rewrite (wf_send_fin _ _ F1) in *. rewrite (wf_ack _ _ F1) in H10.
    clearbody ae. subst ae. unfold sent_first in H12. rewrite F2 in H12. rewrite E1 in H13.
    apply wr_data with rb ps seq n w fin; done.
Qed.

(** Writing never panics, keeps the connection well-formed and what it received, and
    has one of the three effects. *)
Lemma write_next_segment_ok c buf mr src now :
  conn_ok c -> write_args c buf mr src now ->
  exists r c' buf', write_next_segment c buf mr src now = Ret (r, c', buf') /\
    write_ok c buf src now r c' buf'.
Proof.
  intros Hc Ha. unfold write_next_segment. remember 1%nat as f eqn:Ef. cbn [write_next_calls].
  assert (Hquiet : forall r, (forall seg, r <> Ok (Some seg)) -> mjoin (ok_of r) = None ->
    write_ok c buf src now r c buf).
  { intros r Hr Hj. constructor; [done|done| |by left|by constructor].
    rewrite Hj. by constructor; [|apply Ha|]. }
  destruct (is_reset c) eqn:Er; [do 3 eexists; split; [done|by apply Hquiet]|].
  destruct (rst_pending c) eqn:Ep.
  { apply then_control_write_ok; [done|same_tac|done|]. rewrite Ep.
    intros c0 [->| ->]; (split; [apply conn_ok_flag; eauto with conn|]); (split; [frame_tac|]); conn_simpl; auto. }
  assert (Es : send_rst c = None) by (unfold rst_pending in Ep; by destruct (send_rst c)).
  assert (Hnow : in_range 64 now) by apply Ha.
  destruct (synack_pending c) eqn:Esy.
  { apply then_control_write_ok; [done|same_tac|done|]. rewrite Ep.
    intros c0 [->| ->]; (split; [apply conn_ok_start; [apply conn_ok_flag; eauto with conn|done]|]);
      (split; [frame_tac|]); conn_simpl; auto. }
  destruct (is_established c) eqn:Ee; cbn [negb].
  - assert (Hctl : forall c1, conn_ok c1 -> same_send c c1 -> send_rst c1 = None ->
      exists r c' buf', write_control c1 buf mr = Ret (r, c', buf') /\ write_ok c buf src now r c' buf').
    { intros c1 Hc1 Hs Es1. assert (Er1 : is_reset c1 = false) by (conn_simpl; by rewrite (ss_status _ _ Hs)).
      destruct (write_control_ok c1 buf mr src now Hc1) as (r & c' & buf' & E & Hw); [|done|done|].
      - destruct Ha. constructor; try done. by rewrite (ss_start _ _ Hs).
      - do 3 eexists. split; [done|]. by apply write_ok_same with c1. }
    subst f. destruct src as [[rb ps]|]; [|by apply Hctl].
    destruct (write_data_ok c buf mr rb ps now Hc Ha Es Er Ee)
      as [(r & c' & buf' & -> & Hw)|(c1 & -> & Hc1 & Hs & Es1)]; rewrite bind_Ret; [eauto 6|by apply Hctl].
  - unfold rto_expired. pose proof (co_start _ Hc). destruct (wa_now _ _ _ _ _ Ha). pose proof (wa_clock _ _ _ _ _ Ha).
    rewrite usub_ok, !bind_Ret by (unfold in_range in *; lia).
    destruct (rto_period c <=? now - rto_start c); [|do 3 eexists; split; [done|by apply Hquiet]].
    destruct (co_count _ Hc) as (Hn & Hlt & _). specialize (Hlt Es). pose proof (co_max _ Hc).
    rewrite uadd_ok, bind_Ret by (unfold in_range; simpl Z.pow; lia).
    conn_simpl. destruct (Z.leb_spec (rto_count_max c) (rto_count c + 1)) as [Hmax|Hmax].
    + subst f. apply write_next_segment_again; try done. lia.
    + assert (Hc1 : conn_ok (with_rto_count c (rto_count c + 1))) by (apply conn_ok_count; [done|lia]).
      apply then_control_write_ok; [done|same_tac|done|].
      unfold rst_pending.
      intros c0 [->| ->]; (split; [eauto with conn|]); (split; [frame_tac|]); conn_simpl; rewrite ?Es; auto.
Qed.
End Write.
