(* ===== verification/TcpStream.v ===== *)
(** * Runs of a TCP connection

    What a connection of [TcpConnection] does over its life: any sequence of segments
    received, segments written, window updates, and requests to close or reset, from a
    passive open on.

    - it stays well-formed and no call panics ([conn_type_safety]);
    - what it accepts is a prefix of what the peer sent, whatever the network loses,
      repeats or reorders ([received_in_order]);
    - the data it sends lies in the window the peer announced ([data_within_window]);
    - a handshake whose peer falls silent ends with a RST after the configured number of
      timeouts ([handshake_gives_up]). *)

From Stdlib Require Import ZArith Lia.
From stdpp Require Import functions prelude.
From S2P Require Import Prelude NetBytes PduLink PduTcp TcpConnection.

Section Runs.
Context `{Profile}.
(** Which segments arrive. *)
Variable arrives : TcpSegment -> view -> Prop.

(** The data a call of [receive_segment] reports, at the front of its buffer. *)
Definition data_of (r : recv_result) (buf : list Z) : list Z :=
  match r with Ok (Some n, _) => take (Z.to_nat n) buf | _ => [] end.

(** [run c d]: the connection can be [c], having received [d]. *)
Inductive run : Connection -> list Z -> Prop :=
| run_open s v rwnd period count_max isn c :
    views s v -> arrives s v -> in_range 32 rwnd -> in_range 64 period -> 0 < period ->
    0 < count_max < 65536 -> in_range 32 isn ->
    passive_open s rwnd period count_max isn = Done (Ok c) -> run c []
| run_receive c d s v buf now r c' buf' :
    run c d -> views s v -> arrives s v -> in_range 64 now ->
    receive_segment c s buf now = Done (r, c', buf') -> run c' (d ++ data_of r buf')
| run_write c d buf mr src now r c' buf' :
    run c d -> write_args c buf mr src now ->
    write_next_segment c buf mr src now = Ret (r, c', buf') -> run c' d
| run_close c d : run c d -> run (close c) d
| run_reset c d : run c d -> run (reset c) d
| run_advance c d n : run c d -> in_range 32 n -> run (advance_local_rwnd_edge c n) d.


(** ** Every state of a run is well-formed *)

Lemma parse_mss_range s v m : views s v -> parse_mss_option s = Done (Ok m) -> MSS_MIN <= m < 65536.
Proof.
  intros V E. unfold parse_mss_option in E. pose proof (vs_mss _ _ V) as Em.
  pose proof (vs_mss_range _ _ V) as Hr. destruct (lift (header_len s)) as [hl| |]; try done.
  rewrite bind_Done in Em. rewrite bind_Done, Em in E. destruct (v_mss v) as [[[x|]|e]| |]; try done.
  - injection E as <-. by apply Hr.
  - injection E as <-. unfold MSS_MIN, MSS_DEFAULT. lia.
Qed.

Lemma passive_open_ok s v rwnd period count_max isn c :
  views s v -> in_range 64 period -> 0 < period -> 0 < count_max < 65536 -> in_range 32 isn ->
  passive_open s rwnd period count_max isn = Done (Ok c) ->
  v_flags v = SYN /\ v_payload v = [] /\
  exists m, MSS_MIN <= m < 65536 /\
  c = mkConnection (wadd 32 (v_seq v) 1) isn (wadd 32 isn 1) (wadd 32 (wadd 32 (v_seq v) 1) rwnd)
        (wadd 32 (wadd 32 isn 1) (v_window v)) 0 period 0 count_max None None None m false false SYN_RECEIVED.
Proof.
  intros V Hp Hp0 Hm Hi E. unfold passive_open in E. rewrite (is_valid_syn_eq s v V) in E.
  cbn [lift] in E. rewrite bind_Done in E.
  destruct (Z.eqb_spec (v_flags v) SYN) as [Ef|]; [|done].
  destruct (Z.eqb_spec (slen (v_payload v)) 0) as [El|]; [|done]. cbn [andb negb] in E.
  apply bind_Done_inv in E as (m & Em & E). destruct m as [m|]; [|done].
  rewrite (vs_seq _ _ V), (vs_window _ _ V) in E. cbn [lift] in E. rewrite !bind_Done in E.
  injection E as <-. split; [done|]. split; [apply nil_length_inv; unfold slen in El; lia|].
  exists m. split; [by apply parse_mss_range with s v|done].
Qed.

Lemma open_conn_ok ack isn rwnd w period count_max m :
  in_range 64 period -> 0 < period -> 0 < count_max < 65536 -> in_range 32 isn -> MSS_MIN <= m < 65536 ->
  conn_ok (mkConnection (wadd 32 ack 1) isn (wadd 32 isn 1) (wadd 32 (wadd 32 ack 1) rwnd)
    (wadd 32 (wadd 32 isn 1) w) 0 period 0 count_max None None None m false false SYN_RECEIVED).
Proof.
  intros. constructor; conn_simpl; try done; try (apply wadd_range; lia).
  split_and!; lia.
Qed.

Lemma close_ok c : conn_ok c -> conn_ok (close c).
Proof.
  intros Hc. unfold close. destruct (send_fin c); [done|]. apply conn_ok_send_fin; [done|apply (co_first _ Hc)].
Qed.

Lemma reset_ok c : conn_ok c -> conn_ok (reset c).
Proof.
  intros Hc. unfold reset. destruct (rst_pending c); [done|]. apply conn_ok_send_rst; [done|].
  unfold make_rst_config. destruct (is_established c); cbn; [apply (co_first _ Hc)|apply (co_ack _ Hc)].
Qed.

Lemma advance_ok c n : conn_ok c -> conn_ok (advance_local_rwnd_edge c n).
Proof.
  intros Hc. unfold advance_local_rwnd_edge, enqueue_ack. bool_cases; eauto with conn.
Qed.

Lemma run_ok c d : run c d -> conn_ok c.
Proof.
  induction 1 as [s v rwnd period cm isn c V _ Hw Hp Hp0 Hm Hi E|c d s v buf now r c' buf' _ IH V _ Hn E
    |c d buf mr src now r c' buf' _ IH Ha E|c d _ IH|c d _ IH|c d n _ IH _].
  - destruct (passive_open_ok s v rwnd period cm isn c V Hp Hp0 Hm Hi E) as (_ & _ & m & Hms & ->).
    by apply open_conn_ok.
  - destruct (receive_segment_ok c s v buf now IH V Hn) as [E'|(r1 & c1 & b1 & E' & Hc & _)]; congruence.
  - destruct (write_next_segment_ok c buf mr src now IH Ha) as (r1 & c1 & b1 & E' & []); congruence.
  - by apply close_ok.
  - by apply reset_ok.
  - by apply advance_ok.
Qed.
End Runs.

(** ** Segments written *)

Lemma write_effect_seg c src r c' seg : conn_ok c -> write_effect c src r c' -> r = Ok (Some seg) ->
  exists seq ack flags w m data, seg_is seg seq ack flags w m data /\ in_range 32 seq /\
    in_range 32 ack /\ byte_ok flags /\ in_range 16 w.
Proof.
  intros Hc W E. destruct W as [r c' Hn|sg c' seq ack flags w m fin Hs H1 H2 H3 H4 _ _
    |sg c' rb ps seq n w fin _ Hseq _ ae _ _ _ _ _ _ Hs Hw _ _ _].
  - by apply Hn in E.
  - injection E as <-. eauto 12.
  - injection E as <-. do 6 eexists. split; [done|]. split_and!; [|apply (co_ack _ Hc)|by destruct fin|done].
    destruct Hseq as [->| ->]; [apply (co_highest _ Hc)|apply (co_first _ Hc)].
Qed.

Lemma seg_is_parses `{Profile} seg seq ack flags w m data :
  seg_is seg seq ack flags w m data -> in_range 32 seq -> in_range 32 ack -> byte_ok flags ->
  in_range 16 w -> slen data <= 65535 -> tcp_from_bytes seg None = Ret (Ok seg).
Proof.
  intros Hs H1 H2 H3 H4 Hd. pose proof (seg_is_len _ _ _ _ _ _ _ Hs) as El.
  destruct (seg_is_read seg seq ack flags w m data Hs H1 H2 H3 H4 Hd) as (_ & _ & _ & Eh & _ & _).
  pose proof (mss_len_range m). pose proof (slen_nonneg data).
  unfold tcp_from_bytes, OPTIONS_OFFSET, MAX_HEADER_LEN. rewrite (proj2 (Z.ltb_ge _ _)), Eh, bind_Ret by lia.
  by rewrite (proj2 (Z.ltb_ge _ 20)), (proj2 (Z.ltb_ge _ _)) by lia.
Qed.

(** ** Types and panics *)

(** C31: In every state a connection can reach, by any sequence of segments received,
    segments written, window updates and requests to close or reset, all its fields are
    in the ranges of their types and its flags are consistent (established only after a
    SYNACK, a FIN sent only after [close]); receiving a segment whose header parsed does
    not panic, and writing returns, in both profiles; what it writes fits the buffer and
    is a segment [tcp_from_bytes] accepts. *)
Theorem conn_type_safety `{Profile} c d : run (fun _ _ => True) c d ->
  conn_ok c /\
  (forall s v buf now, views s v -> in_range 64 now -> receive_segment c s buf now <> Crash) /\
  (forall buf mr src now, write_args c buf mr src now ->
     exists r c' buf', write_next_segment c buf mr src now = Ret (r, c', buf') /\
       slen buf' = slen buf /\
       forall seg, r = Ok (Some seg) -> slen seg <= slen buf /\ tcp_from_bytes seg None = Ret (Ok seg)).
Proof.
  intros Hr. pose proof (run_ok _ c d Hr) as Hc. split_and!; [done| |].
  - intros s v buf now V Hn E.
    destruct (receive_segment_ok c s v buf now Hc V Hn) as [E'|(r1 & c1 & b1 & E' & _)]; congruence.
  - intros buf mr src now Ha.
    destruct (write_next_segment_ok c buf mr src now Hc Ha) as (r & c' & buf' & E & W).
    exists r, c', buf'. split; [done|]. split; [apply (ba_len _ _ _ (w_buf _ _ _ _ _ _ _ W))|].
    intros seg ->. split; [by apply (ba_seg _ _ _ (w_buf _ _ _ _ _ _ _ W))|].
    destruct (write_effect_seg c src (Ok (Some seg)) c' seg Hc (w_effect _ _ _ _ _ _ _ W) eq_refl)
      as (seq & ack & flags & w & m & data & Hs & H1 & H2 & H3 & H4).
    eapply seg_is_parses; try done.
    pose proof (ba_seg _ _ _ (w_buf _ _ _ _ _ _ _ W) seg eq_refl) as Hl.
    pose proof (wa_len _ _ _ _ _ Ha). pose proof (mss_len_range m).
    rewrite (seg_is_len _ _ _ _ _ _ _ Hs) in Hl. lia.
Qed.

(** ** Data is received in order *)

(** The segments of a peer that opens with [isn] and sends the bytes of [stream]: every
    payload is the part of the stream its sequence number says.  Nothing else is assumed
    of them; they may be lost, repeated, reordered, overlap, and carry any flags. *)
Definition from_stream (isn : Z) (stream : list Z) (s : TcpSegment) (v : view) : Prop :=
  (v_flags v = SYN -> v_seq v = isn) /\
  (v_payload v = [] \/ exists k, 0 <= k /\ v_seq v = wadd 32 isn (1 + k) /\
     k + slen (v_payload v) <= slen stream /\
     v_payload v = take (length (v_payload v)) (drop (Z.to_nat k) stream)).

Definition fin_count (c : Connection) : Z := if has_fin_received c then 1 else 0.

(** What the connection acknowledges is what it has received. *)
Record in_order (isn : Z) (stream : list Z) (c : Connection) (d : list Z) : Prop := {
  io_prefix : d `prefix_of` stream;
  io_ack : ack_to_send c = wadd 32 isn (1 + slen d + fin_count c);
  io_fin : forall f, fin_received c = Some f -> f = wadd 32 isn (1 + slen d)
}.

Lemma prefix_slen (d stream : list Z) : d `prefix_of` stream -> slen d <= slen stream.
Proof. intros Hp. apply prefix_length in Hp. unfold slen. lia. Qed.

Lemma prefix_extend (d stream : list Z) n :
  d `prefix_of` stream -> d ++ take n (drop (length d) stream) `prefix_of` stream.
Proof.
  intros [k ->]. rewrite drop_app_length. rewrite <-(take_drop n k) at 2.
  rewrite app_assoc. apply prefix_app_r. done.
Qed.

Lemma wadd_inj32 a x y : 0 <= x < 2 ^ 32 -> 0 <= y < 2 ^ 32 -> wadd 32 a x = wadd 32 a y -> x = y.
Proof.
  unfold wadd, wrap. intros Hx Hy E. apply (f_equal (fun z => (z - a) mod 2 ^ 32)) in E.
  rewrite !Zminus_mod_idemp_l in E. replace (a + x - a) with x in E by lia.
  replace (a + y - a) with y in E by lia. by rewrite !Z.mod_small in E by lia.
Qed.

Lemma wrap_neg m : 0 < m < 2 ^ 32 -> wrap 32 (- m) = 2 ^ 32 - m.
Proof.
  intros Hm. unfold wrap. rewrite Z.mod_opp_l_nz; rewrite ?Z.mod_small; lia.
Qed.

Lemma wadd_assoc32 a x y : wadd 32 (wadd 32 a x) y = wadd 32 a (x + y).
Proof. unfold wadd. rewrite wrap_add_l. f_equal. lia. Qed.

Lemma in_order_quiet isn stream c c' d : quiet c c' -> in_order isn stream c d -> in_order isn stream c' d.
Proof.
  intros [_ Ha Hf] [H1 H2 H3]. constructor; [done| |by rewrite Hf].
  unfold fin_count, has_fin_received in *. by rewrite Ha, Hf.
Qed.

(** Data is accepted only at the position after what is there, and only before a FIN. *)
Lemma in_order_data isn stream c d v fin c' :
  slen stream < 2 ^ 31 -> in_order isn stream c d ->
  0 < slen (v_payload v) -> v_seq v = ack_to_send c ->
  (forall f, fin_received c = Some f -> seq_at_or_after f (wadd 32 (v_seq v) (slen (v_payload v))) = true) ->
  rcv_next c v fin c' ->
  (exists k, 0 <= k /\ v_seq v = wadd 32 isn (1 + k) /\ k + slen (v_payload v) <= slen stream /\
     v_payload v = take (length (v_payload v)) (drop (Z.to_nat k) stream)) ->
  in_order isn stream c' (d ++ v_payload v).
Proof.
  intros Hst [H1 H2 H3] Hn Hseq Hfin Hnext (k & Hk & Ek & Hkl & Ep).
  pose proof (prefix_slen _ _ H1) as Hd. pose proof (slen_nonneg d). simpl Z.pow in Hst.
  set (n := slen (v_payload v)) in *. set (p := v_payload v) in *.
  assert (Hnf : fin_received c = None).
  { destruct (fin_received c) as [f|] eqn:Ef; [|done]. exfalso.
    specialize (H3 f eq_refl). specialize (Hfin f eq_refl). unfold seq_at_or_after, wsub in Hfin.
    rewrite Hseq, H2 in Hfin. unfold fin_count, has_fin_received in Hfin. rewrite Ef in Hfin.
    rewrite bool_decide_eq_true_2, H3, wadd_assoc32 in Hfin by eauto.
    unfold wadd in Hfin. rewrite wrap_sub_l, wrap_sub_r in Hfin.
    replace (isn + (1 + slen d) - (isn + (1 + slen d + 1 + n))) with (- (1 + n)) in Hfin by lia.
    rewrite wrap_neg in Hfin by (simpl Z.pow; lia).
    unfold MAX_WINDOW_SIZE in Hfin. simpl Z.pow in Hfin. apply Z.ltb_lt in Hfin. lia. }
  assert (Hf0 : fin_count c = 0).
  { unfold fin_count, has_fin_received. rewrite Hnf. by rewrite bool_decide_eq_false_2 by (by intros []). }
  rewrite Hf0, Z.add_0_r in H2.
  assert (Ekd : k = slen d).
  { rewrite Hseq, H2 in Ek. apply wadd_inj32 in Ek; simpl Z.pow; lia. }
  assert (Ee : wadd 32 (v_seq v) n = wadd 32 isn (1 + slen (d ++ p))).
  { rewrite Hseq, H2, wadd_assoc32, slen_app. f_equal. unfold n. lia. }
  unfold rcv_next in Hnext. fold p n in Hnext. rewrite Ee in Hnext.
  constructor.
  - rewrite Ep, Ekd. unfold slen. rewrite Nat2Z.id. by apply prefix_extend.
  - unfold fin_count, has_fin_received. destruct fin; destruct Hnext as (Hn1 & Hn2).
    + destruct Hn2 as [Hn2 ->]. rewrite Hn2, bool_decide_eq_true_2, wadd_assoc32 by eauto. done.
    + rewrite Hn1, Hnf, bool_decide_eq_false_2, Z.add_0_r by (by intros []). done.
  - intros f Ef. destruct fin; destruct Hnext as (Hn1 & Hn2); [destruct Hn2|]; congruence.
Qed.

Lemma in_order_fin isn stream c d v c' :
  in_order isn stream c d -> v_payload v = [] -> v_seq v = ack_to_send c -> rcv_next c v true c' ->
  in_order isn stream c' d.
Proof.
  intros [H1 H2 H3] Hp Hseq (Hn1 & Hn2 & Hn3). rewrite Hp in Hn2, Hn3. change (slen []) with 0 in *.
  assert (Hf0 : fin_count c = 0).
  { unfold fin_count, has_fin_received. rewrite Hn1. by rewrite bool_decide_eq_false_2 by (by intros []). }
  rewrite Hf0, Z.add_0_r in H2. rewrite Hseq, H2 in Hn2, Hn3.
  rewrite (wadd_assoc32 isn (1 + slen d) 0), Z.add_0_r in Hn2, Hn3.
  constructor; [done| |congruence].
  unfold fin_count, has_fin_received. rewrite Hn2, bool_decide_eq_true_2 by eauto.
  by rewrite Hn3, wadd_assoc32.
Qed.

(** Writing, closing, resetting and moving the window leave what was received alone. *)
Lemma in_order_same isn stream c c' d :
  ack_to_send c' = ack_to_send c -> fin_received c' = fin_received c ->
  in_order isn stream c d -> in_order isn stream c' d.
Proof.
  intros Ha Hf [H1 H2 H3]. constructor; [done| |by rewrite Hf].
  unfold fin_count, has_fin_received in *. by rewrite Ha, Hf.
Qed.

Lemma run_in_order `{Profile} isn stream c d : slen stream < 2 ^ 31 ->
  run (from_stream isn stream) c d -> in_order isn stream c d.
Proof.
  intros Hst. induction 1 as [s v rwnd period cm isn' c V Ha Hw Hp Hp0 Hm Hi E|c d s v buf now r c' buf' Hr IH V Ha Hn E
    |c d buf mr src now r c' buf' Hr IH Ha E|c d _ IH|c d _ IH|c d n _ IH _].
  - destruct (passive_open_ok s v rwnd period cm isn' c V Hp Hp0 Hm Hi E) as (Hsyn & _ & m & _ & ->).
    constructor; [apply prefix_nil| |done].
    unfold fin_count. conn_simpl. destruct Ha as [Ha _]. by rewrite (Ha Hsyn).
  - pose proof (run_ok _ c d Hr) as Hc.
    destruct (receive_segment_ok c s v buf now Hc V Hn) as [E'|(r1 & c1 & b1 & E' & _ & He)]; [congruence|].
    rewrite E in E'. injection E' as <- <- <-. destruct Ha as [_ Ha].
    destruct He as [r c' Hr0 Hq|c' g fin Hn0 H2 H3 H4 H5 H6|c' g H1 H2 H3 H4].
    + assert (data_of r buf = []) as -> by (destruct r as [[[n|] g]|e]; done).
      rewrite app_nil_r. by apply in_order_quiet with c.
    + cbn [data_of]. assert (take (Z.to_nat (slen (v_payload v)))
        (v_payload v ++ drop (length (v_payload v)) buf) = v_payload v) as ->.
      { unfold slen. rewrite Nat2Z.id. by apply take_app_length. }
      eapply in_order_data; try done; [lia|]. destruct Ha as [Ha|Ha]; [|done].
      rewrite Ha in Hn0. change (slen []) with 0 in Hn0. lia.
    + cbn [data_of]. rewrite app_nil_r. by apply in_order_fin with c v.
  - pose proof (run_ok _ c d Hr) as Hc.
    destruct (write_next_segment_ok c buf mr src now Hc Ha) as (r1 & c1 & b1 & E' & W).
    rewrite E in E'. injection E' as <- <- <-. destruct (w_frame _ _ _ _ _ _ _ W).
    by apply in_order_same with c.
  - apply in_order_same with c; [..|done]; unfold close; by destruct (send_fin c).
  - apply in_order_same with c; [..|done]; unfold reset; by destruct (rst_pending c).
  - apply in_order_same with c; [..|done]; unfold advance_local_rwnd_edge, enqueue_ack; by bool_cases.
Qed.

(** C32: what a connection has received, over any run in which the peer's segments are
    lost, repeated, reordered or overlap, is a prefix of the stream the peer sends (of
    less than 2^31 bytes), and the acknowledgement number it will send next is the
    number of bytes in that prefix, counting the SYN and an accepted FIN. *)
Theorem received_in_order `{Profile} isn stream c d :
  slen stream < 2 ^ 31 -> run (from_stream isn stream) c d ->
  d `prefix_of` stream /\
  ack_to_send c = wadd 32 isn (1 + slen d + if has_fin_received c then 1 else 0).
Proof.
  intros Hst Hr. destruct (run_in_order isn stream c d Hst Hr) as [H1 H2 _]. by split.
Qed.

(** ** The handshake *)

(** A control segment is written whenever the buffer and the MSS have room for one. *)
Record room (c : Connection) (buf : list Z) (mr : Z) : Prop := {
  rm_bytes : bytes_ok buf;
  rm_len : 24 <= slen buf <= 65535;
  rm_mss : 0 <= mr /\ mr + 4 <= mss c
}.

Lemma then_control_writes `{Profile} c buf mr k : conn_ok c -> room c buf mr ->
  let '(seq, ack, flags) := control_fields c in
  exists seg c0 buf' m, then_control c buf mr k = Ret (Ok (Some seg), k c0, buf') /\
    (c0 = c \/ c0 = with_pending_ack c false) /\ bytes_ok buf' /\ slen buf' = slen buf /\
    seg_is seg seq ack flags (local_rwnd c) m [].
Proof.
  intros Hc [Hb Hl [Hm Hr]]. pose proof (control_fields_ok c Hc) as Hcf.
  unfold then_control, write_control_segment. destruct (control_fields c) as [[seq ack] flags].
  destruct Hcf as (_ & _ & Hf & _). unfold conn_write_segment.
  set (m := if flags =? Z.lor SYN ACK then Some (mss c) else None). pose proof (mss_len_range m).
  rewrite (proj2 (Z.ltb_ge _ _)) by lia.
  destruct (write_incomplete_segment_spec buf seq ack flags (local_rwnd c) m (mss c - mr) None)
    as (r & buf' & -> & [Wl Wb Wr]); try done; [lia|simpl Z.pow; lia|]. rewrite bind_Ret.
  destruct Wr as [[? _]|[(_ & ? & _)|[(pb & max & [=] & _)|(sp & dp & cs & H1 & H2 & H3 & _ & _ & _ & ->)]]];
    [lia|lia|]. rewrite bind_Ret.
  eexists _, (if intersects flags ACK then with_pending_ack c false else c), buf', m.
  split; [done|]. split; [destruct (intersects flags ACK); auto|]. split_and!; [done|done|].
  by exists sp, dp, cs.
Qed.

(** A connection that waits for the ACK of its SYNACK. *)
Record half_open (c : Connection) : Prop := {
  ho_conn : conn_ok c;
  ho_rst : send_rst c = None;
  ho_reset : is_reset c = false;
  ho_synack : synack_sent c = true;
  ho_est : is_established c = false
}.

Definition is_synack (c : Connection) (seg : TcpSegment) : Prop :=
  sequence_number seg = Ret (wsub 32 (first_not_sent c) 1) /\
  ack_number seg = Ret (ack_to_send c) /\ flags_after_ns seg = Ret (Z.lor SYN ACK).
Definition is_rst (c : Connection) (seg : TcpSegment) : Prop :=
  ack_number seg = Ret (ack_to_send c) /\ flags_after_ns seg = Ret (Z.lor RST ACK).

(** One call of [write_next_segment] per clock value, into the same buffer. *)
Fixpoint write_at `{Profile} (c : Connection) (buf : list Z) (mr : Z) (times : list Z)
    : exec (list next_result * Connection) :=
  match times with
  | [] => Ret ([], c)
  | now :: times =>
      w ← write_next_segment c buf mr None now;
      let '(r, c, buf) := w : next_result * Connection * list Z in
      rest ← write_at c buf mr times;
      Ret (r :: rest.1, rest.2)
  end.

Definition sent_all (segs : list TcpSegment) : list next_result := map (fun s => Ok (Some s)) segs.

(** Clock values that let the retransmission timer expire each time. *)
Fixpoint spaced (period start : Z) (times : list Z) : Prop :=
  match times with
  | [] => True
  | now :: times => start + period <= now /\ in_range 64 now /\ spaced period now times
  end.

Lemma control_fields_half_open c : send_rst c = None -> is_established c = false ->
  control_fields c = (wsub 32 (first_not_sent c) 1, ack_to_send c, Z.lor SYN ACK).
Proof. intros Es Ee. unfold control_fields. by rewrite Es, Ee. Qed.

Lemma seg_synack `{Profile} c seg w m : conn_ok c -> in_range 16 w ->
  seg_is seg (wsub 32 (first_not_sent c) 1) (ack_to_send c) (Z.lor SYN ACK) w m [] -> is_synack c seg.
Proof.
  intros Hc Hw Hs. destruct (seg_is_read _ _ _ _ _ _ _ Hs) as (E1 & E2 & E3 & _);
    [apply wsub_range; lia|apply (co_ack _ Hc)|done|done|unfold slen; simpl; lia|done].
Qed.

(** The answer to the SYN, and the state that follows it. *)
Lemma first_synack `{Profile} c buf mr now :
  conn_ok c -> room c buf mr -> in_range 64 now -> send_rst c = None -> is_reset c = false ->
  synack_sent c = false -> is_established c = false ->
  exists seg c' buf', write_next_segment c buf mr None now = Ret (Ok (Some seg), c', buf') /\
    is_synack c seg /\ half_open c' /\ room c' buf' mr /\ rto_start c' = now /\
    rto_count c' = rto_count c /\ rto_count_max c' = rto_count_max c /\ rto_period c' = rto_period c /\
    first_not_sent c' = first_not_sent c /\ ack_to_send c' = ack_to_send c.
Proof.
  intros Hc Hr Hn Es Er Esy Ee. unfold write_next_segment. cbn [write_next_calls].
  unfold rst_pending, synack_pending. rewrite Er, Es, Esy, (co_syn _ Hc). cbn [andb negb].
  pose proof (then_control_writes c buf mr (fun c => with_rto_start (set_flags c SYNACK_SENT) now) Hc Hr) as Hw.
  rewrite (control_fields_half_open c Es Ee) in Hw.
  destruct Hw as (seg & c0 & buf' & m & -> & Hc0 & Hb & Hl & Hs).
  do 3 eexists. split; [done|]. split; [by eapply seg_synack, Hs; [|apply local_rwnd_range]|].
  assert (Hok : conn_ok c0) by (destruct Hc0 as [->| ->]; eauto with conn).
  destruct Hr as [_ Hr1 Hr2].
  split; [|destruct Hc0 as [->| ->]; by split; [constructor; [done|by rewrite Hl|done]|]].
  constructor; [apply conn_ok_start; [apply conn_ok_flag; auto|done]|..];
    destruct Hc0 as [->| ->]; by conn_simpl.
Qed.

(** A call after the timer of a half-open connection expired. *)
Lemma half_open_expired `{Profile} c buf mr now :
  half_open c -> in_range 64 now -> rto_start c + rto_period c <= now ->
  write_next_segment c buf mr None now =
    let c1 := with_rto_count c (rto_count c + 1) in
    if rto_count_max c <=? rto_count c + 1 then write_next_calls 1 (reset c1) buf mr None now
    else then_control c1 buf mr (fun c => with_rto_start c now).
Proof.
  intros [Hc Es Er Esy Ee] Hn Ht. unfold write_next_segment.
  remember 1%nat as f eqn:Ef. cbn [write_next_calls].
  unfold rst_pending, synack_pending, rto_expired. rewrite Er, Es, Esy, Ee, (co_syn _ Hc). cbn [andb negb].
  pose proof (co_start _ Hc). pose proof (co_period _ Hc). pose proof (co_max _ Hc).
  destruct (co_count _ Hc) as (? & Hlt & _). specialize (Hlt Es).
  rewrite usub_ok, !bind_Ret, (proj2 (Z.leb_le _ _)) by (unfold in_range in *; lia).
  rewrite uadd_ok, bind_Ret by (unfold in_range; simpl Z.pow; lia).
  done.
Qed.

(** A timeout before the last: the SYNACK again. *)
Lemma half_open_retry `{Profile} c buf mr now :
  half_open c -> room c buf mr -> in_range 64 now -> rto_start c + rto_period c <= now ->
  rto_count c + 1 < rto_count_max c ->
  exists seg c' buf', write_next_segment c buf mr None now = Ret (Ok (Some seg), c', buf') /\
    is_synack c seg /\ half_open c' /\ room c' buf' mr /\ rto_start c' = now /\
    rto_count c' = rto_count c + 1 /\ rto_count_max c' = rto_count_max c /\ rto_period c' = rto_period c /\
    first_not_sent c' = first_not_sent c /\ ack_to_send c' = ack_to_send c.
Proof.
  intros Hh Hr Hn Ht Hm. rewrite half_open_expired by done. destruct Hh as [Hc Es Er Esy Ee].
  pose proof (co_count _ Hc). cbn zeta. rewrite (proj2 (Z.leb_gt _ _)) by lia.
  set (c1 := with_rto_count c (rto_count c + 1)).
  assert (Hc1 : conn_ok c1) by (apply conn_ok_count; [done|lia]).
  assert (Hr1 : room c1 buf mr) by by destruct Hr.
  pose proof (then_control_writes c1 buf mr (fun c => with_rto_start c now) Hc1 Hr1) as Hw.
  rewrite (control_fields_half_open c1 Es Ee) in Hw.
  destruct Hw as (seg & c0 & buf' & m & -> & Hc0 & Hb & Hl & Hs).
  do 3 eexists. split; [done|]. split; [by eapply seg_synack, Hs; [|apply local_rwnd_range]|].
  assert (Hok : conn_ok c0) by (destruct Hc0 as [->| ->]; eauto with conn).
  destruct Hr as [_ Hr2 Hr3].
  split; [|destruct Hc0 as [->| ->]; by split; [constructor; [done|by rewrite Hl|done]|]].
  constructor; [by apply conn_ok_start|..]; destruct Hc0 as [->| ->]; by conn_simpl.
Qed.

(** The last timeout: a RST, and the end of the connection. *)
Lemma half_open_gives_up `{Profile} c buf mr now :
  half_open c -> room c buf mr -> in_range 64 now -> rto_start c + rto_period c <= now ->
  rto_count c + 1 = rto_count_max c ->
  exists seg c' buf', write_next_segment c buf mr None now = Ret (Ok (Some seg), c', buf') /\
    is_rst c seg /\ is_reset c' = true.
Proof.
  intros Hh Hr Hn Ht Hm. rewrite half_open_expired by done. destruct Hh as [Hc Es Er Esy Ee].
  pose proof (co_count _ Hc). pose proof (co_max _ Hc). cbn zeta. rewrite (proj2 (Z.leb_le _ _)) by lia.
  cbn [write_next_calls].
  set (c1 := with_send_rst (with_rto_count c (rto_count c + 1)) (Some (RstAck (ack_to_send c)))).
  assert (reset (with_rto_count c (rto_count c + 1)) = c1) as ->.
  { unfold reset, rst_pending, make_rst_config. change (is_established _) with (is_established c).
    change (send_rst _) with (send_rst c). by rewrite Es, Ee. }
  change (is_reset c1) with (is_reset c). rewrite Er. cbn [rst_pending send_rst c1 with_send_rst].
  assert (Hc1 : conn_ok c1).
  { destruct Hc. constructor; unfold c1; conn_simpl; try done; [split_and!; [lia|done|lia]|by intros r [= <-]]. }
  assert (Hr1 : room c1 buf mr) by by destruct Hr.
  pose proof (then_control_writes c1 buf mr (fun c => set_flags c RESET) Hc1 Hr1) as Hw.
  change (control_fields c1) with (0, ack_to_send c, Z.lor RST ACK) in Hw.
  destruct Hw as (seg & c0 & buf' & m & -> & Hc0 & Hb & Hl & Hs).
  do 3 eexists. split; [done|]. split; [|destruct Hc0 as [->| ->]; by conn_simpl].
  destruct (seg_is_read _ _ _ _ _ _ _ Hs) as (_ & E2 & E3 & _);
    [done|apply (co_ack _ Hc)|done|apply local_rwnd_range|unfold slen; simpl; lia|done].
Qed.

Lemma write_at_length `{Profile} times c buf mr rs c' :
  write_at c buf mr times = Ret (rs, c') -> length rs = length times.
Proof.
  revert c buf rs c'. induction times as [|t ts IH]; intros c buf rs c' E; cbn [write_at] in E; [by injection E as <- _|].
  apply bind_Ret_inv in E as ([[r c1] b1] & _ & E). apply bind_Ret_inv in E as ([l1 c3] & E1 & E).
  injection E as <- _. simpl. f_equal. by apply IH in E1.
Qed.

Lemma half_open_writes `{Profile} times c buf mr :
  half_open c -> room c buf mr -> spaced (rto_period c) (rto_start c) times ->
  Z.of_nat (length times) = rto_count_max c - rto_count c ->
  exists segs rst c', write_at c buf mr times = Ret (sent_all (segs ++ [rst]), c') /\
    Forall (is_synack c) segs /\ is_rst c rst /\ is_reset c' = true.
Proof.
  revert c buf. induction times as [|now times IH]; intros c buf Hh Hr Hs Hl.
  { pose proof (co_count _ (ho_conn _ Hh)) as (_ & Hlt & _). specialize (Hlt (ho_rst _ Hh)). simpl in Hl. lia. }
  destruct Hs as (Ht & Hn & Hs). cbn [write_at]. simpl length in Hl.
  destruct times as [|now2 times].
  - destruct (half_open_gives_up c buf mr now Hh Hr Hn Ht) as (seg & c' & buf' & -> & H1 & H2); [simpl in Hl; lia|].
    rewrite bind_Ret. exists [], seg, c'. split_and!; [done|constructor|done|done].
  - destruct (half_open_retry c buf mr now Hh Hr Hn Ht) as
      (seg & c' & buf' & -> & H1 & H2 & H3 & H4 & H5 & H6 & H7 & H8 & H9); [simpl in Hl; lia|].
    rewrite bind_Ret. destruct (IH c' buf') as (segs & rst & c2 & -> & K1 & K2 & K3); try done.
    + by rewrite H7, H4.
    + rewrite H5, H6. simpl in *. lia.
    + rewrite bind_Ret. exists (seg :: segs), rst, c2. split; [done|].
      unfold is_synack, is_rst in *. rewrite H8, H9 in *. split; [by constructor|done].
Qed.

(** A connection opened by a SYN whose peer then stays silent answers with the
    SYNACK, repeats it each time the retransmission timer expires, and sends a RST
    instead of the [rto_count_max]-th repetition, after which it is reset: the handshake
    ends after [rto_count_max + 1] segments. *)
Theorem handshake_gives_up `{Profile} s v rwnd period count_max isn c buf mr now times :
  views s v -> in_range 64 period -> 0 < period -> 0 < count_max < 65536 -> in_range 32 isn ->
  passive_open s rwnd period count_max isn = Done (Ok c) ->
  room c buf mr -> in_range 64 now -> spaced period now times ->
  Z.of_nat (length times) = count_max ->
  exists segs rst c', write_at c buf mr (now :: times) = Ret (sent_all (segs ++ [rst]), c') /\
    Forall (is_synack c) segs /\ is_rst c rst /\ is_reset c' = true /\
    Z.of_nat (length segs) = count_max.
Proof.
  intros V Hp Hp0 Hm Hi E Hr Hn Hs Hl.
  destruct (passive_open_ok s v rwnd period count_max isn c V Hp Hp0 Hm Hi E) as (_ & _ & m & Hms & Ec).
  assert (Hc : conn_ok c) by (rewrite Ec; by apply open_conn_ok).
  destruct (first_synack c buf mr now Hc Hr Hn) as
    (seg & c' & buf' & E1 & H1 & H2 & H3 & H4 & H5 & H6 & H7 & H8 & H9); try by rewrite Ec.
  cbn [write_at]. rewrite E1, bind_Ret.
  destruct (half_open_writes times c' buf' mr H2 H3) as (segs & rst & c2 & E2 & K1 & K2 & K3).
  - rewrite H7, H4, Ec. done.
  - rewrite H5, H6, Ec. simpl. lia.
  - rewrite E2, bind_Ret. exists (seg :: segs), rst, c2. split; [done|].
    unfold is_synack, is_rst in *. rewrite H8, H9 in *. split; [by constructor|].
    split; [done|]. split; [done|].
    pose proof (write_at_length _ _ _ _ _ _ E2) as Hlen.
    unfold sent_all in Hlen. rewrite length_map, length_app in Hlen. simpl in *. lia.
Qed.

(** ** Data sent *)

(** What may be sent ends at the remote window: [k] bytes from [seq] on, counted
    modulo 2^32, lie before its edge. *)
Lemma window_bound c pe seq n : in_range 32 seq -> in_range 32 pe -> in_range 32 (remote_rwnd_edge c) ->
  seq_after (actual_end c pe) seq = true -> n <= wsub 32 (actual_end c pe) seq ->
  n <= wsub 32 (remote_rwnd_edge c) seq < 2 ^ 31.
Proof.
  unfold actual_end, seq_at_or_after, seq_after, wsub, wrap, in_range, MAX_WINDOW_SIZE.
  generalize (remote_rwnd_edge c). intros e.
  change (2 ^ 32) with 4294967296. change (2 ^ 31) with 2147483648. intros Hs Hp He.
  destruct (Z.ltb_spec ((e - pe) mod 4294967296) 1073725440) as [Hin|Hin];
    rewrite andb_true_iff; intros [_ Hlt%Z.ltb_lt] Hn; [|lia].
  replace (e - seq) with ((e - pe) + (pe - seq)) by lia. rewrite Z.add_mod by lia.
  pose proof (Z.mod_pos_bound (e - pe) 4294967296). pose proof (Z.mod_pos_bound (pe - seq) 4294967296).
  rewrite (Z.mod_small (_ + _)); lia.
Qed.

(** A segment with data that a connection writes, in any state it can reach, starts
    at the first byte not acknowledged or not sent yet, takes its bytes from the front of
    the data given, carries the current acknowledgement number, and ends before the edge
    of the window the peer announced. *)
Theorem data_within_window `{Profile} c d buf mr rb ps now seg c' buf' data :
  run (fun _ _ => True) c d -> write_args c buf mr (Some (rb, ps)) now ->
  write_next_segment c buf mr (Some (rb, ps)) now = Ret (Ok (Some seg), c', buf') ->
  payload seg = Ret data -> data <> [] ->
  exists seq, sequence_number seg = Ret seq /\ ack_number seg = Ret (ack_to_send c) /\
    (seq = highest_ack_received c \/ seq = first_not_sent c) /\ seq_at_or_after seq ps = true /\
    data `prefix_of` rb /\ slen data <= wsub 32 (remote_rwnd_edge c) seq < 2 ^ 31.
Proof.
  intros Hr Ha E Ed Hne. pose proof (run_ok _ c d Hr) as Hc.
  destruct (write_next_segment_ok c buf mr (Some (rb, ps)) now Hc Ha) as (r1 & c1 & b1 & E' & W).
  rewrite E in E'. injection E' as <- <- <-. pose proof (w_effect _ _ _ _ _ _ _ W) as We.
  pose proof (ba_seg _ _ _ (w_buf _ _ _ _ _ _ _ W) seg eq_refl) as Hl.
  pose proof (wa_len _ _ _ _ _ Ha) as Hb.
  remember (Ok (Some seg)) as r eqn:Er.
  destruct We as [r c' Hn|sg c' seq ack flags w m fin Hs H1 H2 H3 H4 _ _
    |sg c' rb' ps' seq n w fin Es Hseq Hps ae Hn Hrb Hae Haf _ _ Hs Hw _ _ _].
  - by destruct (Hn seg).
  - injection Er as ->. destruct (seg_is_read _ _ _ _ _ _ _ Hs) as (_ & _ & _ & _ & Ep & _); try done.
    rewrite Ep in Ed. by injection Ed as <-.
  - injection Er as ->. injection Es as <- <-.
    assert (Hq : in_range 32 seq) by (destruct Hseq as [->| ->]; [apply (co_highest _ Hc)|apply (co_first _ Hc)]).
    assert (Et : slen (take (Z.to_nat n) rb) = n) by (unfold slen in *; rewrite length_take; lia).
    rewrite (seg_is_len _ _ _ _ _ _ _ Hs) in Hl.
    destruct (seg_is_read _ _ _ _ _ _ _ Hs) as (E1 & E2 & _ & _ & Ep & _);
      [done|apply (co_ack _ Hc)|by destruct fin|done|pose proof (mss_len_range None); lia|].
    assert (data = take (Z.to_nat n) rb) as -> by congruence.
    exists seq. rewrite Et. repeat (split; [first [done|apply prefix_take]|]).
    by apply window_bound with (wadd 32 ps (slen rb)); [|apply wadd_range|apply (co_remote _ Hc)| |].
Qed.

(** ** A sample run

    A SYN, the SYNACK, its ACK, and a request of seven bytes in two segments of which
    the first arrives twice. *)

Definition sample_seg (seq ack flags : Z) (data : list Z) : TcpSegment :=
  tcp_header 1025 80 seq ack 20 flags 8192 0 0 ++ data.
Definition sample_view (seq ack flags : Z) (data : list Z) : view :=
  mkView 1025 80 seq ack flags 8192 data (Done (Ok None)).
Definition sample_buf : list Z := replicate 60 0.

Definition conn_or (c : Connection) (o : outcome (recv_result * Connection * list Z)) : Connection :=
  match o with Done (_, c, _) => c | _ => c end.

Definition sample_opened : Connection :=
  Eval vm_compute in
  match passive_open (H := dev_profile) (sample_seg 5000 0 SYN []) 2500 1200 3 1000 with
  | Done (Ok c) => c
  | _ => mkConnection 0 0 0 0 0 0 0 0 0 None None None 0 false false 0
  end.
Definition sample_answered : Connection :=
  Eval vm_compute in
  match write_next_segment (H := dev_profile) sample_opened sample_buf 0 None 10 with
  | Ret (_, c, _) => c
  | Panic => sample_opened
  end.
Definition sample_established : Connection :=
  Eval vm_compute in conn_or sample_answered
    (receive_segment (H := dev_profile) sample_answered (sample_seg 5001 1001 ACK []) sample_buf 20).
Definition sample_first : Connection :=
  Eval vm_compute in conn_or sample_established
    (receive_segment (H := dev_profile) sample_established (sample_seg 5001 1001 ACK [71; 69; 84; 32]) sample_buf 30).
Definition sample_repeated : Connection :=
  Eval vm_compute in conn_or sample_first
    (receive_segment (H := dev_profile) sample_first (sample_seg 5001 1001 ACK [71; 69; 84; 32]) sample_buf 40).
Definition sample_last : Connection :=
  Eval vm_compute in conn_or sample_repeated
    (receive_segment (H := dev_profile) sample_repeated (sample_seg 5005 1001 (Z.lor ACK FIN) [47; 10; 10]) sample_buf 50).
Definition sample_stream : list Z := [71; 69; 84; 32; 47; 10; 10].

Lemma sample_views seq ack flags data :
  in_range 32 seq -> in_range 32 ack -> byte_ok flags -> bytes_ok data -> slen data <= 100 ->
  views (H := dev_profile) (sample_seg seq ack flags data) (sample_view seq ack flags data).
Proof.
  intros Hs Ha Hf Hd Hl. unfold sample_seg.
  destruct (tcp_header_read 1025 80 seq ack 20 flags 8192 0 0 data)
    as (R1 & R2 & R3 & R4 & R5 & R6 & R7 & _); try done.
  destruct (options_read (tcp_header 1025 80 seq ack 20 flags 8192 0 0) None data 20) as [O1 O2]; [done|done|].
  cbn [mss_bytes app] in O1, O2.
  constructor; cbn [sample_view v_sport v_dport v_seq v_ack v_flags v_window v_payload v_mss]; try done.
  - unfold payload_len. rewrite R5, bind_Ret, slen_app, slen_tcp_header. pose proof (slen_nonneg data).
    rewrite usub_ok by (unfold in_range; simpl Z.pow; lia). f_equal. lia.
  - rewrite R5. cbn [lift]. rewrite bind_Done. unfold parse_mss_option_unchecked. rewrite O1. done.
  - rewrite slen_app, slen_tcp_header. lia.
Qed.

Ltac sample_segment := apply sample_views; first [done|by repeat constructor|unfold in_range; simpl; lia].

Lemma sample_opened_run arrives :
  arrives (sample_seg 5000 0 SYN []) (sample_view 5000 0 SYN []) ->
  run (H := dev_profile) arrives sample_opened [].
Proof.
  intros H1.
  apply (run_open (H := dev_profile) arrives (sample_seg 5000 0 SYN []) (sample_view 5000 0 SYN []) 2500 1200 3 1000);
    try done; [sample_segment|..].
Qed.

Lemma sample_receive arrives c d seq ack flags data now r c' buf' :
  run (H := dev_profile) arrives c d ->
  in_range 32 seq -> in_range 32 ack -> byte_ok flags -> in_range 64 now -> slen data <= 100 ->
  bytes_ok data ->
  arrives (sample_seg seq ack flags data) (sample_view seq ack flags data) ->
  receive_segment (H := dev_profile) c (sample_seg seq ack flags data) sample_buf now = Done (r, c', buf') ->
  run (H := dev_profile) arrives c' (d ++ data_of r buf').
Proof.
  intros Hr Hs Ha Hf Hn Hl Hd Hv E.
  apply (run_receive arrives c d (sample_seg seq ack flags data) (sample_view seq ack flags data)
    sample_buf now); try done. by apply sample_views.
Qed.

Lemma sample_stream_run arrives :
  arrives (sample_seg 5000 0 SYN []) (sample_view 5000 0 SYN []) ->
  arrives (sample_seg 5001 1001 ACK []) (sample_view 5001 1001 ACK []) ->
  arrives (sample_seg 5001 1001 ACK [71; 69; 84; 32]) (sample_view 5001 1001 ACK [71; 69; 84; 32]) ->
  arrives (sample_seg 5005 1001 (Z.lor ACK FIN) [47; 10; 10])
    (sample_view 5005 1001 (Z.lor ACK FIN) [47; 10; 10]) ->
  run (H := dev_profile) arrives sample_last sample_stream.
Proof.
  intros H1 H2 H3 H4. pose proof (sample_opened_run arrives H1) as R.
  assert (R1 : run (H := dev_profile) arrives sample_answered []).
  { eapply (run_write (H := dev_profile) arrives sample_opened [] sample_buf 0 None 10); [done| |reflexivity].
    constructor; first [done|by repeat constructor|unfold sample_opened; simpl; lia]. }
  apply (sample_receive arrives sample_answered [] 5001 1001 ACK [] 20 (Ok (None, 0)) sample_established
    sample_buf) in R1; [|done|done|done|done|done|by repeat constructor|exact H2|reflexivity].
  apply (sample_receive arrives sample_established [] 5001 1001 ACK [71; 69; 84; 32] 30 (Ok (Some 4, 0))
    sample_first ([71; 69; 84; 32] ++ replicate 56 0)) in R1;
    [|done|done|done|done|done|by repeat constructor|exact H3|reflexivity].
  apply (sample_receive arrives sample_first [71; 69; 84; 32] 5001 1001 ACK [71; 69; 84; 32] 40
    (Ok (None, UNEXPECTED_SEQ)) sample_repeated sample_buf) in R1;
    [|done|done|done|done|done|by repeat constructor|exact H3|reflexivity].
  apply (sample_receive arrives sample_repeated [71; 69; 84; 32] 5005 1001 (Z.lor ACK FIN) [47; 10; 10] 50
    (Ok (Some 3, 0)) sample_last ([47; 10; 10] ++ replicate 57 0)) in R1;
    [|done|done|done|done|done|by repeat constructor|exact H4|reflexivity].
  exact R1.
Qed.

Lemma conn_type_safety_witness : conn_ok sample_last /\
  receive_segment (H := dev_profile) sample_last (sample_seg 5008 1001 ACK []) sample_buf 60 <> Crash.
Proof.
  destruct (conn_type_safety (H := dev_profile) sample_last sample_stream) as (H1 & H2 & _);
    [by apply sample_stream_run|].
  split; [exact H1|]. apply H2 with (sample_view 5008 1001 ACK []); [sample_segment|done].
Defined.

Lemma received_in_order_witness :
  sample_stream `prefix_of` sample_stream /\ ack_to_send sample_last = wadd 32 5000 (1 + 7 + 1).
Proof.
  apply (received_in_order (H := dev_profile) 5000 sample_stream sample_last sample_stream); [done|].
  apply sample_stream_run; (split; [done|]); [by left|by left|right; exists 0; by split_and!|right; exists 4; by split_and!].
Defined.

Lemma handshake_gives_up_witness :
  exists segs rst c', write_at (H := dev_profile) sample_opened sample_buf 0 [10; 1210; 2410; 5000] =
      Ret (sent_all (segs ++ [rst]), c') /\ Z.of_nat (length segs) = 3 /\ is_reset c' = true.
Proof.
  destruct (handshake_gives_up (H := dev_profile) (sample_seg 5000 0 SYN []) (sample_view 5000 0 SYN [])
    2500 1200 3 1000 sample_opened sample_buf 0 10 [1210; 2410; 5000])
    as (segs & rst & c' & E & _ & _ & H1 & H2).
  - sample_segment.
  - done.
  - lia.
  - lia.
  - done.
  - reflexivity.
  - constructor; [by repeat constructor|unfold sample_buf, slen; simpl; lia|unfold sample_opened; simpl; lia].
  - done.
  - simpl. unfold in_range. simpl. lia.
  - done.
  - exists segs, rst, c'. split; [exact E|]. split; [exact H2|exact H1].
Defined.

Definition sample_sent : TcpSegment * Connection * list Z :=
  Eval vm_compute in
  match write_next_segment (H := dev_profile) sample_last sample_buf 0 (Some ([72; 84; 84; 80], 1001)) 60 with
  | Ret (Ok (Some seg), c, buf) => (seg, c, buf)
  | _ => ([], sample_last, [])
  end.

Lemma data_within_window_witness :
  payload sample_sent.1.1 = Ret [72; 84; 84; 80] /\
  exists seq, sequence_number sample_sent.1.1 = Ret seq /\
    4 <= wsub 32 (remote_rwnd_edge sample_last) seq < 2 ^ 31.
Proof.
  split; [reflexivity|].
  destruct (data_within_window (H := dev_profile) sample_last sample_stream sample_buf 0 [72; 84; 84; 80]
    1001 60 sample_sent.1.1 sample_sent.1.2 sample_sent.2 [72; 84; 84; 80])
    as (seq & E1 & _ & _ & _ & _ & E2); [by apply sample_stream_run| |reflexivity|reflexivity|done|].
  - constructor; first [done|by repeat constructor|by intros rb ps [= <- <-]; split; [repeat constructor|]
      |unfold sample_last; simpl; lia].
  - exists seq. split; [exact E1|exact E2].
Defined.
