(* ===== verification/TcpWindow.v ===== *)
(** * The sliding window of a TCP connection

    What is in flight lies between the highest acknowledgement and the edge of the
    window the peer announced, the FIN apart, in every state a connection can reach. *)

From Stdlib Require Import ZArith Lia.
From stdpp Require Import functions prelude.
From S2P Require Import Prelude NetBytes PduLink PduTcp TcpConnection TcpStream.

(** How much is in flight, and how much the peer allows. *)
Definition flight (c : Connection) : Z := wsub 32 (first_not_sent c) (highest_ack_received c).
Definition allowed (c : Connection) : Z := wsub 32 (remote_rwnd_edge c) (highest_ack_received c).
Definition fin_slot (c : Connection) : Z := if fin_sent c then 1 else 0.

(** [65536]: the window of the SYN counts from behind the SYNACK. *)
Record window_ok (c : Connection) : Prop := {
  wi_allowed : allowed c <= 65536;
  wi_flight : flight c <= allowed c + fin_slot c
}.

(** ** Distances between sequence numbers *)

(** Distances from a common base subtract, when they can. *)
Lemma wsub_split a b c : wsub 32 b c <= wsub 32 a c -> wsub 32 a b = wsub 32 a c - wsub 32 b c.
Proof.
  unfold wsub, wrap. intros Hle. replace (a - b) with ((a - c) - (b - c)) by lia. rewrite Zminus_mod.
  pose proof (Z.mod_pos_bound (a - c) (2 ^ 32) eq_refl). pose proof (Z.mod_pos_bound (b - c) (2 ^ 32) eq_refl).
  apply Z.mod_small. lia.
Qed.

Lemma wsub_split_neg a b c : wsub 32 a c < wsub 32 b c -> wsub 32 a b = 2 ^ 32 - (wsub 32 b c - wsub 32 a c).
Proof.
  unfold wsub, wrap. intros Hle. replace (a - b) with ((a - c) - (b - c)) by lia. rewrite Zminus_mod.
  pose proof (Z.mod_pos_bound (a - c) (2 ^ 32) eq_refl). pose proof (Z.mod_pos_bound (b - c) (2 ^ 32) eq_refl).
  rewrite <-(Z_mod_plus_full _ 1). rewrite Z.mod_small; lia.
Qed.

Lemma wsub_add a b n : wsub 32 (wadd 32 a n) b = wrap 32 (wsub 32 a b + n).
Proof. unfold wsub, wadd. rewrite wrap_sub_l, wrap_add_l. f_equal. lia. Qed.

Lemma wsub_range32 a b : 0 <= wsub 32 a b < 4294967296.
Proof. apply (wsub_range 32). lia. Qed.

Lemma seq_at_or_after_spec a b : seq_at_or_after a b = true <-> wsub 32 a b < 1073725440.
Proof. unfold seq_at_or_after, MAX_WINDOW_SIZE. apply Z.ltb_lt. Qed.

Lemma wsub_0 a b : in_range 32 a -> in_range 32 b -> wsub 32 a b = 0 -> a = b.
Proof.
  unfold wsub, wrap, in_range. intros Ha Hb E. apply Z.mod_divide in E as [k Ek]; [|done].
  assert (k = 0); nia.
Qed.

Lemma wsub_self a : wsub 32 a a = 0.
Proof. unfold wsub. by rewrite Z.sub_diag. Qed.

Lemma seq_after_spec a b : in_range 32 a -> in_range 32 b ->
  seq_after a b = true <-> 0 < wsub 32 a b < 1073725440.
Proof.
  intros Ha Hb. unfold seq_after, MAX_WINDOW_SIZE. rewrite andb_true_iff, negb_true_iff, Z.eqb_neq, Z.ltb_lt.
  pose proof (wsub_range32 a b). split; intros [H1 H2]; (split; [|lia]).
  - assert (wsub 32 a b <> 0) by (intros E; by apply H1, wsub_0). lia.
  - intros ->. rewrite wsub_self in H1. lia.
Qed.

(** An acknowledgement that is accepted acknowledges a part of what is in flight. *)
Lemma ack_advances first ack highest : wsub 32 first highest <= 65537 ->
  seq_at_or_after ack highest = true -> seq_at_or_after first ack = true ->
  wsub 32 first ack = wsub 32 first highest - wsub 32 ack highest /\
  wsub 32 ack highest <= wsub 32 first highest.
Proof.
  rewrite !seq_at_or_after_spec. intros Hf Ha Hb.
  pose proof (wsub_range32 first highest). pose proof (wsub_range32 ack highest).
  destruct (Z.le_gt_cases (wsub 32 ack highest) (wsub 32 first highest)) as [Hle|Hlt].
  - split; [by apply wsub_split|done].
  - rewrite (wsub_split_neg _ _ _ Hlt) in Hb. simpl Z.pow in Hb. lia.
Qed.

(** ** Receiving keeps the window *)

(** The numbers of the window and the timer are the same. *)
Record same_window (c c' : Connection) : Prop := {
  sw_first : first_not_sent c' = first_not_sent c;
  sw_highest : highest_ack_received c' = highest_ack_received c;
  sw_remote : remote_rwnd_edge c' = remote_rwnd_edge c;
  sw_fin : fin_sent c' = fin_sent c;
  sw_start : rto_start c' = rto_start c;
  sw_period : rto_period c' = rto_period c
}.

#[export] Instance same_window_preorder : PreOrder same_window.
Proof. split; [by intros c|]. intros a b c [] []. constructor; congruence. Qed.

Lemma window_ok_same c c' : same_window c c' -> window_ok c -> window_ok c'.
Proof. intros [E1 E2 E3 E4 _ _] []. constructor; unfold allowed, flight, fin_slot in *; by rewrite ?E1, ?E2, ?E3, ?E4. Qed.

Ltac window_tac := constructor; conn_simpl; done.

Section ReceiveWindow.
Context `{Profile}.

Lemma helper_window c s f r c' : reset_for_segment_helper c s f = Ret (r, c') -> same_window c c'.
Proof.
  unfold reset_for_segment_helper, reset_for_segment. intros E.
  apply bind_Ret_inv in E as (c1 & E1 & E). injection E as _ <-.
  destruct (rst_pending c); [by injection E1 as <-|].
  apply bind_Ret_inv in E1 as (cfg & _ & E1). injection E1 as <-. window_tac.
Qed.

Lemma handshake_window c s f x : recv_handshake c s f = Done x ->
  match x with inl (r, c') => same_window c c' | inr _ => synack_sent c = true end.
Proof.
  intros E. unfold recv_handshake in E.
  assert (Hh : forall b : bool, (r ← lift (reset_for_segment_helper c s INVALID_SEGMENT); Done (inl (B := unit) r)) = Done x ->
    match x with inl (r, c') => same_window c c' | inr _ => b = true end).
  { intros b Eh. apply bind_Done_inv in Eh as ([r c'] & Eh & Ex). injection Ex as <-.
    apply lift_Done_inv in Eh. by apply helper_window in Eh. }
  destruct (synack_sent c) eqn:Es; cbn [negb] in E.
  - destruct (is_established c); cbn [negb] in E.
    + destruct (intersects f SYN); [by apply (Hh true)|by injection E as <-].
    + apply bind_Done_inv in E as (b & _ & E). destruct b; [injection E as <-; window_tac|].
      destruct (intersects f SYN); [by apply (Hh true)|by injection E as <-].
  - apply bind_Done_inv in E as (b & _ & E). destruct b; [by injection E as <-|by apply (Hh false)].
Qed.

Lemma payload_window c s f n g buf r c' buf' :
  recv_payload c s f n g buf = Ret (r, c', buf') -> same_window c c'.
Proof.
  unfold recv_payload. intros E. apply bind_Ret_inv in E as (seq & _ & E).
  destruct (slen buf <? n); [by injection E as _ <- _|].
  assert (Hd : match (if 0 <? n then match recv_data c seq n g with inl r => inl r | inr c => inr (c, true) end
    else inr (c, false)) with inl (_, c1) => same_window c c1 | inr (c1, _) => same_window c c1 end).
  { unfold recv_data. bool_cases; window_tac. }
  destruct (if 0 <? n then _ else _) as [[r1 c1]|[c1 b]]; [by injection E as _ <- _|].
  assert (Hf : let '(c2, _, _) := recv_fin c1 seq n f g b in same_window c1 c2).
  { unfold recv_fin. bool_cases; window_tac. }
  destruct (recv_fin c1 seq n f g b) as [[c2 g2] b2]. etrans; [exact Hd|]. etrans; [exact Hf|].
  destruct b2; [|by injection E as _ <- _]. destruct (0 <? n); [|injection E as _ <- _; window_tac].
  apply bind_Ret_inv in E as (data & _ & E). apply bind_Ret_inv in E as (b3 & _ & E).
  injection E as _ <- _. window_tac.
Qed.

(** Right after an acknowledgement the edge may lie one before it, where the FIN was
    sent into a closed window; the window in the same segment then moves the edge. *)
Lemma recv_window_window c w g : conn_ok c -> in_range 16 w -> is_established c = true ->
  window_ok c \/ (allowed c = 2 ^ 32 - 1 /\ flight c = 0) ->
  window_ok (recv_window c (highest_ack_received c) w g).1.
Proof.
  intros Hc Hw Ee Hg. unfold recv_window, compute_remote_rwnd_edge, remote_window_size. rewrite Ee.
  set (ack := highest_ack_received c) in *. set (edge := wadd 32 ack w).
  assert (Hd : wsub 32 edge ack = w).
  { unfold edge. rewrite wsub_add, wsub_self. unfold in_range in Hw. simpl Z.pow in Hw.
    rewrite wrap_id; unfold in_range; simpl Z.pow; lia. }
  assert (He : in_range 32 edge) by (apply wadd_range; lia).
  pose proof (co_remote _ Hc) as Hr. pose proof (wsub_range32 (first_not_sent c) ack).
  unfold in_range in Hw. simpl Z.pow in Hw.
  assert (Ha : forall c', first_not_sent c' = first_not_sent c -> highest_ack_received c' = ack ->
    remote_rwnd_edge c' = edge -> fin_sent c' = fin_sent c -> flight c <= w + fin_slot c -> window_ok c').
  { intros c' E1 E2 E3 E4 Hf. unfold flight, fin_slot in Hf. fold ack in Hf.
    constructor; unfold allowed, flight, fin_slot; rewrite ?E1, ?E2, ?E3, ?E4, Hd; [lia|done]. }
  destruct (seq_after edge (remote_rwnd_edge c)) eqn:Ea.
  - cbn [fst]. apply Ha; try done. apply seq_after_spec in Ea; [|done|done].
    assert (Hs : 0 <= fin_slot c) by (unfold fin_slot; destruct (fin_sent c); lia).
    destruct Hg as [[Hg1 Hg2]|[Hg1 Hg2]]; [|lia]. unfold allowed in *. fold ack in Hg1, Hg2.
    destruct (Z.le_gt_cases (wsub 32 (remote_rwnd_edge c) ack) w) as [Hle|Hlt]; [lia|].
    rewrite (wsub_split_neg edge _ ack) in Ea by lia. simpl Z.pow in Ea. lia.
  - destruct Hg as [Hg|[Hg1 Hg2]]; [by destruct (negb _)|].
    exfalso. apply not_true_iff_false in Ea. apply Ea. rewrite seq_after_spec by done.
    unfold allowed in Hg1. fold ack in Hg1. simpl Z.pow in *.
    rewrite (wsub_split_neg edge (remote_rwnd_edge c) ack), Hg1, Hd by lia. simpl Z.pow. lia.
Qed.

(** An acknowledgement that makes progress, before the window is looked at. *)
Lemma new_ack_window c ack now : in_range 32 ack -> window_ok c ->
  wsub 32 (first_not_sent c) ack = flight c - wsub 32 ack (highest_ack_received c) ->
  wsub 32 ack (highest_ack_received c) <= flight c ->
  let c' := recv_new_ack c ack now in
  window_ok c' \/ (allowed c' = 2 ^ 32 - 1 /\ flight c' = 0).
Proof.
  intros Ha [Hg1 Hg2] E Hle c'. set (a := wsub 32 ack (highest_ack_received c)) in *.
  assert (Hc' : first_not_sent c' = first_not_sent c /\ highest_ack_received c' = ack /\
    remote_rwnd_edge c' = remote_rwnd_edge c /\ fin_sent c' = fin_sent c).
  { unfold c', recv_new_ack. bool_cases; conn_simpl; done. }
  destruct Hc' as (E1 & E2 & E3 & E4). pose proof (wsub_range32 ack (highest_ack_received c)).
  unfold allowed, flight, fin_slot in *.
  destruct (Z.le_gt_cases a (wsub 32 (remote_rwnd_edge c) (highest_ack_received c))) as [H1|H1].
  - left. constructor; unfold allowed, flight, fin_slot; rewrite ?E1, ?E2, ?E3, ?E4, ?E, (wsub_split _ _ _ H1);
      fold a; lia.
  - right. rewrite E1, E2, E3, E. rewrite (wsub_split_neg _ _ _ H1). fold a.
    destruct (fin_sent c); simpl Z.pow; lia.
Qed.

Lemma new_ack_established c ack now : synack_sent c = true -> is_established (recv_new_ack c ack now) = true.
Proof.
  intros Hs. unfold recv_new_ack. set (c1 := with_rto_start (with_highest_ack c ack) now).
  change (synack_sent c1) with (synack_sent c). rewrite Hs, andb_true_r.
  assert (He : is_established (if negb (is_established c1) then set_flags c1 ESTABLISHED else c1) = true).
  { destruct (is_established c1) eqn:E; cbn [negb]; [done|]. unfold c1 in *. by conn_simpl. }
  destruct (_ && _); [|done]. conn_simpl. by rewrite He.
Qed.

Lemma recv_ack_window c s v f now x : conn_ok c -> views s v -> in_range 64 now ->
  send_rst c = None -> window_ok c -> synack_sent c = true ->
  recv_ack c s f now = Ret x ->
  match x with inl (_, c') => window_ok c' | inr (c', _) => window_ok c' end.
Proof.
  intros Hc V Hnow Hrst Hg Hs E. unfold recv_ack in E.
  destruct (vs_ranges _ _ V) as (_ & _ & _ & Ha & _ & Hw).
  destruct (intersects f ACK); [|by injection E as <-].
  rewrite (vs_ack _ _ V), bind_Ret in E.
  assert (Hh : forall c1, same_window c c1 ->
    (r ← reset_for_segment_helper c1 s INVALID_ACK; Ret (inl r)) = Ret x ->
    match x with inl (_, c') => window_ok c' | inr (c', _) => window_ok c' end).
  { intros c1 Hc1 Eh. apply bind_Ret_inv in Eh as ([r c'] & Eh & Ex). injection Ex as <-.
    apply helper_window in Eh. by apply (window_ok_same c1), (window_ok_same c). }
  destruct (seq_at_or_after (v_ack v) (highest_ack_received c) && seq_at_or_after (first_not_sent c) (v_ack v))
    eqn:Eb.
  2: { destruct (is_established c); cbn [negb] in E; [by injection E as <-|by apply (Hh c)]. }
  apply andb_true_iff in Eb as [Eb1 Eb2]. set (c1 := with_rto_count c 0) in *.
  assert (Hg1 : window_ok c1) by (by apply (window_ok_same c); [window_tac|]).
  rewrite (vs_window _ _ V), !bind_Ret in E.
  destruct ((v_ack v =? highest_ack_received c1) && negb (v_ack v =? first_not_sent c1)) eqn:Ed.
  - apply andb_true_iff in Ed as [Ed%Z.eqb_eq _].
    destruct (is_established c1) eqn:Ee; cbn [negb] in E; [|apply (Hh c1); [window_tac|done]].
    assert (Hx : window_ok (recv_window (with_dup_ack c1 true) (highest_ack_received (with_dup_ack c1 true))
      (v_window v) DUP_ACK).1).
    { apply recv_window_window; [eauto with conn|done|done|]. left.
      by apply (window_ok_same c1); [window_tac|]. }
    change (highest_ack_received (with_dup_ack c1 true)) with (highest_ack_received c1) in Hx.
    rewrite <-Ed in Hx. destruct (recv_window _ _ _ _) as [c2 g]. by injection E as <-.
  - assert (Hc1 : conn_ok c1) by by apply conn_ok_count0.
    destruct (recv_new_ack_ok c1 (v_ack v) now Hc1 Ha Hnow) as (K1 & _ & _ & K2 & _).
    assert (Hfl : wsub 32 (first_not_sent c) (highest_ack_received c) <= 65537).
    { destruct Hg as [A B]. unfold flight, fin_slot in B. destruct (fin_sent c); lia. }
    destruct (ack_advances _ _ _ Hfl Eb1 Eb2) as [L1 L2].
    pose proof (new_ack_window c1 (v_ack v) now Ha Hg1 L1 L2) as Hn. cbn zeta in Hn.
    pose proof (new_ack_established c1 (v_ack v) now Hs) as Ee.
    rewrite Ee in E.
    assert (Hx := recv_window_window (recv_new_ack c1 (v_ack v) now) (v_window v) 0 K1 Hw Ee Hn).
    rewrite K2 in Hx. destruct (recv_window _ _ _ _) as [c2 g]. by injection E as <-.
Qed.

Lemma receive_window c s v buf now r c' buf' : conn_ok c -> views s v -> in_range 64 now -> window_ok c ->
  receive_segment c s buf now = Done (r, c', buf') -> window_ok c'.
Proof.
  intros Hc V Hnow Hg E. unfold receive_segment in E.
  destruct (rst_pending c || is_reset c) eqn:Er; [by injection E as _ <- _|].
  apply orb_false_iff in Er as [Er _].
  assert (Es : send_rst c = None) by (unfold rst_pending in Er; by destruct (send_rst c)).
  rewrite (vs_flags _ _ V), (vs_seq _ _ V), (vs_payload_len _ _ V) in E. cbn [lift] in E.
  rewrite !bind_Done in E. destruct (intersects (v_flags v) RST).
  { destruct (_ && _); injection E as _ <- _; [|done]. apply (window_ok_same c); [window_tac|done]. }
  apply bind_Done_inv in E as (h & Eh & E). apply handshake_window in Eh. destruct h as [[r1 c1]|[]].
  { injection E as _ <- _. by apply (window_ok_same c). }
  apply bind_Done_inv in E as (a & Ea & E). apply lift_Done_inv in Ea.
  apply (recv_ack_window c s v) in Ea; try done. destruct a as [[r1 c1]|[c1 g]]; [by injection E as _ <- _|].
  destruct (negb _); [by injection E as _ <- _|].
  apply lift_Done_inv in E. apply payload_window in E. by apply (window_ok_same c1).
Qed.
End ReceiveWindow.

(** ** Writing keeps the window *)

Lemma sent_first_window c e (fin : bool) :
  conn_ok c -> window_ok c -> in_range 32 e -> wsub 32 e (highest_ack_received c) <= allowed c ->
  wsub 32 (sent_first c e fin) (highest_ack_received c) <= allowed c + (if fin then 1 else fin_slot c).
Proof.
  intros Hc [Hg1 Hg2] He Hle. unfold sent_first. set (e1 := if fin then wadd 32 e 1 else e).
  pose proof (wsub_range32 e (highest_ack_received c)).
  assert (H1 : wsub 32 e1 (highest_ack_received c) <= allowed c + if fin then 1 else 0).
  { unfold e1. destruct fin; [|lia]. rewrite wsub_add, wrap_id by (unfold in_range; simpl Z.pow; lia). lia. }
  assert (Hs : 0 <= fin_slot c <= 1) by (unfold fin_slot; destruct (fin_sent c); lia).
  destruct (seq_after e1 (first_not_sent c)); [destruct fin; lia|].
  unfold flight in Hg2. destruct fin; lia.
Qed.

Lemma write_window c src r c' : conn_ok c -> window_ok c -> write_frame c c' ->
  (forall rb ps, src = Some (rb, ps) -> in_range 32 ps) -> write_effect c src r c' -> window_ok c'.
Proof.
  intros Hc Hg F Hsrc W. pose proof Hg as [Hg1 Hg2]. unfold flight in Hg2.
  assert (Ea : allowed c' = allowed c) by (unfold allowed; by rewrite (wf_remote _ _ F), (wf_highest _ _ F)).
  assert (Hs : 0 <= fin_slot c <= 1) by (unfold fin_slot; destruct (fin_sent c); lia).
  constructor; [by rewrite Ea|]. rewrite Ea. unfold flight. rewrite (wf_highest _ _ F).
  destruct W as [r c' _ H1 H2 _|sg c' seq ack flags w m fin _ _ _ _ _ _ Hf
    |sg c' rb ps seq n w fin Es Hseq Hps ae Hn Hrb Hae Haf _ _ _ _ Hfi Hfs _].
  - unfold fin_slot. by rewrite H1, H2.
  - destruct fin; [|destruct Hf as [H1 H2]; unfold fin_slot; by rewrite H1, H2].
    destruct Hf as (H1 & -> & H2). unfold can_send_first_fin in H1.
    apply andb_true_iff in H1 as [H1%negb_true_iff _]. unfold fin_slot in *. rewrite H1 in *. rewrite H2.
    pose proof (wsub_range32 (first_not_sent c) (highest_ack_received c)).
    rewrite wsub_add, wrap_id by (unfold in_range; simpl Z.pow; lia). lia.
  - assert (Hq : in_range 32 seq) by (destruct Hseq as [->| ->]; [apply (co_highest _ Hc)|apply (co_first _ Hc)]).
    assert (Hb : n <= wsub 32 (remote_rwnd_edge c) seq < 2 ^ 31).
    { by apply window_bound with (wadd 32 ps (slen rb)); [|apply wadd_range|apply (co_remote _ Hc)| |]. }
    assert (Hend : wsub 32 (wadd 32 seq n) (highest_ack_received c) <= allowed c).
    { rewrite wsub_add. pose proof (wsub_range32 seq (highest_ack_received c)).
      assert (Hlt : wsub 32 seq (highest_ack_received c) <= allowed c).
      { destruct (Z.le_gt_cases (wsub 32 seq (highest_ack_received c)) (allowed c)) as [|Hlt]; [done|].
        unfold allowed in Hlt. rewrite (wsub_split_neg _ _ _ Hlt) in Hb. fold (allowed c) in Hb, Hlt.
        pose proof (wsub_range32 (remote_rwnd_edge c) (highest_ack_received c)) as Hr. fold (allowed c) in Hr.
        destruct Hseq as [->| ->]; [rewrite wsub_self in Hlt; lia|].
        simpl Z.pow in Hb. lia. }
      rewrite (wsub_split _ _ (highest_ack_received c)) in Hb by done. fold (allowed c) in Hb.
      rewrite wrap_id by (unfold in_range; simpl Z.pow in *; lia). lia. }
    rewrite Hfi. pose proof (sent_first_window c (wadd 32 seq n) fin Hc Hg) as Hsf.
    unfold fin_slot in *. rewrite Hfs. destruct fin; [rewrite orb_true_r|rewrite orb_false_r];
      (apply Hsf; [by apply wadd_range|done]).
Qed.

Lemma open_window ack isn rwnd w period count_max m : in_range 32 isn -> in_range 16 w ->
  window_ok (mkConnection ack isn (wadd 32 isn 1) rwnd (wadd 32 (wadd 32 isn 1) w) 0 period 0 count_max
    None None None m false false SYN_RECEIVED).
Proof.
  intros Hi Hw. unfold in_range in Hw. simpl Z.pow in Hw.
  constructor; unfold allowed, flight, fin_slot; conn_simpl; rewrite wadd_assoc32, !wsub_add, wsub_self, !wrap_id;
    unfold in_range; simpl Z.pow; lia.
Qed.

Lemma run_window `{Profile} arrives c d : run arrives c d -> window_ok c.
Proof.
  induction 1 as [s v rwnd period cm isn c V _ Hw Hp Hp0 Hm Hi E|c d s v buf now r c' buf' Hr IH V _ Hn E
    |c d buf mr src now r c' buf' Hr IH Ha E|c d _ IH|c d _ IH|c d n _ IH _].
  - destruct (passive_open_ok s v rwnd period cm isn c V Hp Hp0 Hm Hi E) as (_ & _ & m & Hms & ->).
    destruct (vs_ranges _ _ V) as (_ & _ & _ & _ & _ & Hwin). by apply open_window.
  - pose proof (run_ok _ c d Hr). by apply (receive_window c s v buf now r c' buf').
  - pose proof (run_ok _ c d Hr) as Hc.
    destruct (write_next_segment_ok c buf mr src now Hc Ha) as (r1 & c1 & b1 & E' & W).
    rewrite E in E'. injection E' as <- <- <-. apply (write_window c src r); try apply W; try done.
    intros rb ps Es. by apply (wa_src _ _ _ _ _ Ha rb ps).
  - apply (window_ok_same c); [|done]. unfold close. destruct (send_fin c); [done|window_tac].
  - apply (window_ok_same c); [|done]. unfold reset. destruct (rst_pending c); [done|window_tac].
  - apply (window_ok_same c); [|done]. unfold advance_local_rwnd_edge. bool_cases; window_tac.
Qed.

(** In every state a connection can reach, the bytes in flight, from the highest
    acknowledgement to the first byte not sent, fit the window the peer announced, one
    more once a FIN was sent, and that window is at most 64 kB (one more for the SYNACK).
    The serial comparisons of the code, which are right only for distances below
    [MAX_WINDOW_SIZE], are therefore right wherever they are used on these numbers. *)
Theorem flight_in_window `{Profile} c d : run (fun _ _ => True) c d ->
  0 <= flight c <= allowed c + fin_slot c /\ allowed c <= 65536 /\
  seq_at_or_after (first_not_sent c) (highest_ack_received c) = true /\
  seq_after (highest_ack_received c) (first_not_sent c) = false.
Proof.
  intros Hr. pose proof (run_ok _ c d Hr) as Hc. destruct (run_window _ c d Hr) as [H1 H2].
  pose proof (wsub_range32 (first_not_sent c) (highest_ack_received c)).
  assert (Hs : fin_slot c <= 1) by (unfold fin_slot; destruct (fin_sent c); lia). unfold flight in *.
  split_and!; try lia; [apply seq_at_or_after_spec; lia|].
  apply not_true_iff_false. rewrite seq_after_spec by apply Hc. intros Ha.
  destruct (Z.eq_dec (wsub 32 (first_not_sent c) (highest_ack_received c)) 0) as [E|E].
  - apply wsub_0 in E; [|apply Hc|apply Hc]. rewrite E, wsub_self in Ha. lia.
  - rewrite (wsub_split_neg _ _ (highest_ack_received c)) in Ha by (rewrite wsub_self; lia).
    rewrite wsub_self in Ha. simpl Z.pow in Ha. lia.
Qed.

Lemma flight_in_window_witness :
  0 <= flight sample_last <= allowed sample_last + fin_slot sample_last /\ allowed sample_last <= 65536 /\
  seq_at_or_after (first_not_sent sample_last) (highest_ack_received sample_last) = true /\
  seq_after (highest_ack_received sample_last) (first_not_sent sample_last) = false.
Proof. apply (flight_in_window (H := dev_profile) sample_last sample_stream). by apply sample_stream_run. Defined.
