(* ===== verification/Http.v ===== *)
(** * What is used of the HTTP library

    The metadata service reads requests and builds responses with the [micro_http]
    crate, which is not part of the repository.  Its types and functions are the
    parameters of the models of [dumbo/src/tcp/endpoint.rs] and [mmds/src/lib.rs]; what
    these rely on are the laws.  Strings are lists of bytes. *)

From Stdlib Require Import ZArith Lia Ascii String.
From stdpp Require Import prelude gmap strings.
From S2P Require Import Prelude Text NetBytes.

(** The variants the sources name. *)
Inductive StatusCode :=
| OK | BadRequest | Unauthorized | NotFound | MethodNotAllowed | PayloadTooLarge | NotImplemented.
Inductive Method := Get | Put | Patch.
Inductive MediaType := PlainText | ApplicationJson.

Inductive RequestError :=
| BodyWithoutPendingRequest | HeadersWithoutPendingRequest | Overflow | Underflow
| InvalidUri (msg : list Z) | InvalidHttpVersion (msg : list Z) | InvalidHttpMethod (msg : list Z)
| HeaderError (msg : list Z) | InvalidRequest | SizeLimitExceeded (limit actual : Z).

#[export] Instance StatusCode_eq_dec : EqDecision StatusCode.
Proof. solve_decision. Defined.
#[export] Instance Method_eq_dec : EqDecision Method.
Proof. solve_decision. Defined.

Class Http := {
  Request : Type;
  Response : Type;
  Version : Type;
  default_version : Version;
  Request_try_from : list Z -> result Request RequestError;
  error_to_string : RequestError -> list Z;
  http_version : Request -> Version;
  method : Request -> Method;
  get_abs_path : Request -> list Z;
  accept : Request -> MediaType;
  custom_entries : Request -> gmap (list Z) (list Z);
  unsupported_name : list Z -> RequestError;
  invalid_value : list Z -> list Z -> RequestError;
  Response_new : Version -> StatusCode -> Response;
  set_body : Response -> list Z -> Response;
  set_content_type : Response -> MediaType -> Response;
  allow_method : Response -> Method -> Response;
  write_all : Response -> list Z
}.

Section Texts.
Context `{Http}.

(** The text of an error: its message if it has one, how it is printed otherwise. *)
Definition error_text (e : RequestError) : list Z :=
  match e with
  | InvalidUri msg | InvalidHttpVersion msg | InvalidHttpMethod msg | HeaderError msg => msg
  | _ => error_to_string e
  end.

(** Responses that are far from the limit of four gigabytes the endpoint asserts. *)
Definition response_short (r : Response) : Prop := slen (write_all r) < 2 ^ 30.

(** The requests an endpoint can read. *)
Definition REQUEST_MAX : Z := 2500.
Definition callback_ok (callback : Request -> Response) : Prop := forall b rq,
  slen b <= REQUEST_MAX -> Request_try_from b = Ok rq -> response_short (callback rq).
End Texts.

(** A response is a status line, headers and the body, all of them bytes; the path and
    the headers of a request are parts of it; the text of an error quotes at most what it
    is about. *)
Class HttpLaws `{Http} := {
  write_all_nonempty : forall r, write_all r <> [];
  write_all_bytes : forall r, bytes_ok (write_all r);
  write_all_new : forall v s, slen (write_all (Response_new v s)) <= 1024;
  write_all_body : forall r b, slen (write_all (set_body r b)) <= slen (write_all r) + slen b + 1024;
  write_all_content_type : forall r m, slen (write_all (set_content_type r m)) <= slen (write_all r) + 1024;
  write_all_allow : forall r m, slen (write_all (allow_method r m)) <= slen (write_all r) + 1024;
  error_text_short : forall b e, Request_try_from b = Err e -> slen (error_text e) <= slen b + 1024;
  abs_path_short : forall b rq, Request_try_from b = Ok rq -> slen (get_abs_path rq) <= slen b;
  header_short : forall b rq name value, Request_try_from b = Ok rq ->
    custom_entries rq !! name = Some value -> slen value <= slen b;
  unsupported_name_short : forall name, slen (error_to_string (unsupported_name name)) <= slen name + 1024;
  invalid_value_short : forall name value,
    slen (error_to_string (invalid_value name value)) <= slen name + slen value + 1024
}.
