(* ===== verification/TcpEndpoint.v ===== *)
(** * The HTTP endpoint of a TCP connection

    Models [dumbo/src/tcp/endpoint.rs]: the buffer requests are collected in, the
    response that is being sent, and the [Connection] below them.  The HTTP library
    ([micro_http]) and the callback that answers a request are parameters; the clock,
    which the code reads, is an argument; counting in [METRICS] is left out.

    - the endpoint answers the requests of the byte stream in order, and what it has
      sent is a prefix of the answers ([endpoint_pipeline]);
    - no call panics ([endpoint_no_panic]);
    - every segment with data starts at a sequence number never used before: a lost
      segment of a response is never sent again ([response_never_resent]). *)

From Stdlib Require Import ZArith Lia.
From stdpp Require Import functions prelude gmap.
From S2P Require Import Prelude Text NetBytes PduLink PduTcp TcpConnection TcpStream TcpWindow Http.

(** ** Constants and data *)

Definition EVICTION_THRESHOLD : Z := 40000000000.
Definition CONNECTION_RTO_PERIOD : Z := 1200000000.
Definition CONNECTION_RTO_COUNT_MAX : Z := 15.
Definition RCV_BUF_MAX_SIZE : Z := 2500.

Record Endpoint := mkEndpoint {
  receive_buf : list Z;
  receive_buf_left : Z;
  response_buf : list Z;
  initial_response_seq : Z;
  response_seq : Z;
  connection : Connection;
  last_segment_received_timestamp : Z;
  eviction_threshold : Z;
  stop_receiving : bool }.

Definition ep_with_received (e : Endpoint) buf left :=
  mkEndpoint buf left (response_buf e) (initial_response_seq e) (response_seq e) (connection e)
    (last_segment_received_timestamp e) (eviction_threshold e) (stop_receiving e).
Definition ep_with_response (e : Endpoint) buf initial seq :=
  mkEndpoint (receive_buf e) (receive_buf_left e) buf initial seq (connection e)
    (last_segment_received_timestamp e) (eviction_threshold e) (stop_receiving e).
Definition ep_with_connection (e : Endpoint) c :=
  mkEndpoint (receive_buf e) (receive_buf_left e) (response_buf e) (initial_response_seq e)
    (response_seq e) c (last_segment_received_timestamp e) (eviction_threshold e) (stop_receiving e).
Definition ep_with_timestamp (e : Endpoint) now :=
  mkEndpoint (receive_buf e) (receive_buf_left e) (response_buf e) (initial_response_seq e)
    (response_seq e) (connection e) now (eviction_threshold e) (stop_receiving e).
Definition ep_stop (e : Endpoint) :=
  mkEndpoint (receive_buf e) (receive_buf_left e) (response_buf e) (initial_response_seq e)
    (response_seq e) (connection e) (last_segment_received_timestamp e) (eviction_threshold e) true.

Section Endpoints.
Context `{Profile} `{Http}.

(** ** Answering a request *)

Definition build_response (status_code : StatusCode) (body : list Z) : Response :=
  set_body (Response_new default_version status_code) body.

Definition text_invalid_request : list Z :=
  [73; 110; 118; 97; 108; 105; 100; 32; 114; 101; 113; 117; 101; 115; 116; 46].

Definition parse_request_bytes (byte_stream : list Z) (callback : Request -> Response) : Response :=
  match Request_try_from byte_stream with
  | Ok request => callback request
  | Err err =>
      match err with
      | BodyWithoutPendingRequest | HeadersWithoutPendingRequest | Overflow | Underflow =>
          build_response BadRequest (error_to_string err)
      | InvalidUri err_msg => build_response BadRequest err_msg
      | InvalidHttpVersion err_msg | InvalidHttpMethod err_msg => build_response NotImplemented err_msg
      | HeaderError err_msg => build_response BadRequest err_msg
      | InvalidRequest => build_response BadRequest text_invalid_request
      | SizeLimitExceeded _ _ => build_response PayloadTooLarge (error_to_string err)
      end
  end.

(** ** Creation *)

(** [MAX_WINDOW_SIZE] is larger than the buffer, so the assertion holds. *)
Definition Endpoint_new (s : TcpSegment) (eviction_threshold rto_period rto_count_max isn now : Z)
    : outcome (result Endpoint PassiveOpenError) :=
  if RCV_BUF_MAX_SIZE <=? MAX_WINDOW_SIZE then
    r ← passive_open s RCV_BUF_MAX_SIZE rto_period rto_count_max isn;
    Done match r with
         | Err e => Err e
         | Ok c => Ok (mkEndpoint (replicate (Z.to_nat RCV_BUF_MAX_SIZE) 0) 0 [] (first_not_sent c)
                         (first_not_sent c) c now eviction_threshold false)
         end
  else Crash.

Definition Endpoint_new_with_defaults (s : TcpSegment) (isn now : Z)
    : outcome (result Endpoint PassiveOpenError) :=
  Endpoint_new s EVICTION_THRESHOLD CONNECTION_RTO_PERIOD CONNECTION_RTO_COUNT_MAX isn now.

(** ** Receiving *)

(** The end of the first request in the buffer: behind the first empty line.  [n]
    counts the positions left to look at. *)
Fixpoint find_end (n : nat) (b : list Z) (left i : Z) : exec (option Z) :=
  match n with
  | O => Ret None
  | S n =>
      x ← index b i;
      if x =? 10 then
        y ← index b (i + 1);
        if y =? 10 then Ret (Some (i + 2))
        else if i + 3 <=? left then
          s ← subslice b (i + 1) (i + 3);
          if bool_decide (s = [13; 10]) then Ret (Some (i + 3)) else find_end n b left (i + 1)
        else find_end n b left (i + 1)
      else find_end n b left (i + 1)
  end.

(** [for j in 0..b.len() - end { b[j] = b[j + end]; }] *)
Fixpoint shift_down (n : nat) (b : list Z) (j end_ : Z) : exec (list Z) :=
  match n with
  | O => Ret b
  | S n =>
      x ← index b (j + end_);
      b ← set_index b j x;
      shift_down n b (j + 1) end_
  end.

(** All of the response was acknowledged. *)
Definition clear_response (e : Endpoint) : Endpoint :=
  if negb (bool_decide (response_buf e = [])) &&
     (highest_ack_received (connection e) =?
      wadd 32 (initial_response_seq e) (wrap 32 (slen (response_buf e))))
  then ep_with_response e [] (highest_ack_received (connection e)) (highest_ack_received (connection e))
  else e.

(** A request ends at [end_]: it is answered and removed from the buffer. *)
Definition answer_request (e : Endpoint) (callback : Request -> Response) (end_ : Z) : exec Endpoint :=
  request ← subslice (receive_buf e) 0 end_;
  let response := response_buf e ++ write_all (parse_request_bytes request callback) in
  if slen response <? 2 ^ 32 - 1 then
    n ← usub 64 (slen (receive_buf e)) end_;
    buf ← shift_down (Z.to_nat n) (receive_buf e) 0 end_;
    left ← usub 64 (receive_buf_left e) end_;
    let e := ep_with_response e response (initial_response_seq e) (response_seq e) in
    let e := ep_with_received e buf left in
    Ret (ep_with_connection e (advance_local_rwnd_edge (connection e) (wrap 32 end_)))
  else Panic.

Definition take_request (e : Endpoint) (callback : Request -> Response) : exec Endpoint :=
  if 2 <? receive_buf_left e then
    n ← usub 64 (receive_buf_left e) 1;
    end_ ← find_end (Z.to_nat n) (receive_buf e) (receive_buf_left e) 0;
    match end_ with
    | Some end_ => answer_request e callback end_
    | None => Ret e
    end
  else Ret e.

Definition close_if_finished (e : Endpoint) : Endpoint :=
  if has_fin_received (connection e) && bool_decide (response_buf e = [])
  then ep_with_connection e (close (connection e)) else e.

(** What follows a segment that was accepted. *)
Definition process_received (e : Endpoint) (callback : Request -> Response) : exec Endpoint :=
  let e := clear_response e in
  if bool_decide (response_buf e = []) then
    e ← take_request e callback;
    if receive_buf_left e =? slen (receive_buf e)
    then Ret (ep_stop (ep_with_connection e (reset (connection e))))
    else Ret (close_if_finished e)
  else Ret (close_if_finished e).

Definition ep_receive_segment (e : Endpoint) (s : TcpSegment) (callback : Request -> Response) (now : Z)
    : outcome Endpoint :=
  if stop_receiving e then Done e
  else
    let e := ep_with_timestamp e now in
    tail ← lift (slice_from (receive_buf e) (receive_buf_left e));
    x ← receive_segment (connection e) s tail now;
    let '(r, c, tail) := x : recv_result * Connection * list Z in
    let buf := take (Z.to_nat (receive_buf_left e)) (receive_buf e) ++ tail in
    let e := ep_with_connection (ep_with_received e buf (receive_buf_left e)) c in
    match r with
    | Err _ => Done e
    | Ok (value, status) =>
        if negb (status =? 0) && intersects status CONN_RESETTING then Done (ep_stop e)
        else
          e ← match value with
              | Some len =>
                  left ← lift (uadd 64 (receive_buf_left e) len);
                  Done (ep_with_received e (receive_buf e) left)
              | None => Done e
              end;
          lift (process_received e callback)
    end.

(** ** Writing *)

Definition payload_source (e : Endpoint) : exec (option (list Z * Z)) :=
  if negb (bool_decide (response_buf e = [])) then
    let offset := wsub 32 (response_seq e) (initial_response_seq e) in
    parts ← split_at (response_buf e) offset;
    Ret (Some (parts.2, response_seq e))
  else Ret None.

Definition ep_write_next_segment (e : Endpoint) (buf : list Z) (mss_reserved now : Z)
    : exec (option TcpSegment * Endpoint * list Z) :=
  src ← payload_source e;
  w ← write_next_segment (connection e) buf mss_reserved src now;
  let '(r, c, buf) := w : next_result * Connection * list Z in
  let e := ep_with_connection e c in
  match r with
  | Ok (Some segment) =>
      n ← payload_len segment;
      Ret (Some segment,
           ep_with_response e (response_buf e) (initial_response_seq e) (wadd 32 (response_seq e) (wrap 32 n)),
           buf)
  | Ok None => Ret (None, e, buf)
  | Err _ => Ret (None, e, buf)
  end.

(** ** State *)

Definition ep_is_done (e : Endpoint) : bool := is_done (connection e).
Definition ep_is_evictable (e : Endpoint) (now : Z) : bool :=
  eviction_threshold e <? wsub 64 now (last_segment_received_timestamp e).

Definition next_segment_status (e : Endpoint) : exec NextSegmentStatus :=
  let can_send_new_data := negb (bool_decide (response_buf e = [])) &&
    seq_after (remote_rwnd_edge (connection e)) (first_not_sent (connection e)) in
  if can_send_new_data || dup_ack_pending (connection e) then Ret Available
  else control_segment_or_timeout_status (connection e).
End Endpoints.

(** ** The end of a request *)

(** The specification of [find_end] on the bytes received. *)
Fixpoint request_end (l : list Z) : option nat :=
  match l with
  | [] => None
  | x :: l1 =>
      if x =? 10 then
        match l1 with
        | y :: l2 =>
            if y =? 10 then Some 2%nat
            else match l2 with
                 | z :: _ => if (y =? 13) && (z =? 10) then Some 3%nat else S <$> request_end l1
                 | [] => S <$> request_end l1
                 end
        | [] => None
        end
      else S <$> request_end l1
  end.

Lemma request_end_cons2 x y l2 : request_end (x :: y :: l2) =
  if x =? 10 then
    if y =? 10 then Some 2%nat
    else match l2 with
         | z :: _ => if (y =? 13) && (z =? 10) then Some 3%nat else S <$> request_end (y :: l2)
         | [] => S <$> request_end (y :: l2)
         end
  else S <$> request_end (y :: l2).
Proof. done. Qed.

Lemma index_app pre x post : index (pre ++ x :: post) (slen pre) = Ret x.
Proof. unfold index, slen. rewrite Nat2Z.id, list_lookup_middle by done. done. Qed.

Lemma find_end_at l pre post :
  find_end (length l - 1) (pre ++ l ++ post) (slen pre + slen l) (slen pre) =
  Ret ((fun e => slen pre + Z.of_nat e) <$> request_end l).
Proof.
  revert pre. induction l as [|x l1 IH]; intros pre; [done|].
  destruct l1 as [|y l2]; [simpl; by destruct (x =? 10)|].
  replace (length (x :: y :: l2) - 1)%nat with (S (length (y :: l2) - 1)) by (simpl; lia).
  assert (IH' : find_end (length (y :: l2) - 1) (pre ++ (x :: y :: l2) ++ post)
      (slen pre + slen (x :: y :: l2)) (slen pre + 1) =
    Ret ((fun e => slen pre + Z.of_nat e) <$> (S <$> request_end (y :: l2)))).
  { specialize (IH (pre ++ [x])). rewrite <-app_assoc, slen_app in IH. change (slen [x]) with 1 in IH.
    rewrite (slen_cons x). replace (slen pre + (1 + slen (y :: l2))) with (slen pre + 1 + slen (y :: l2)) by lia.
    etrans; [exact IH|]. f_equal. destruct (request_end (y :: l2)) as [e|]; [|done]. cbn. f_equal. lia. }
  rewrite request_end_cons2. set (r := request_end (y :: l2)) in *. clearbody r.
  cbn [find_end app]. rewrite index_app, bind_Ret. cbn [app] in IH'.
  destruct (x =? 10); [|exact IH'].
  assert (Ey : index (pre ++ x :: y :: l2 ++ post) (slen pre + 1) = Ret y).
  { pose proof (index_app (pre ++ [x]) y (l2 ++ post)) as E. rewrite <-app_assoc, slen_app in E. exact E. }
  rewrite Ey, bind_Ret. destruct (y =? 10) eqn:Ey10; [done|].
  rewrite !slen_cons in *. destruct l2 as [|z l3].
  - rewrite (proj2 (Z.leb_gt _ _)) by (change (slen []) with 0; lia). exact IH'.
  - rewrite slen_cons in *. pose proof (slen_nonneg l3). pose proof (slen_nonneg pre).
    rewrite (proj2 (Z.leb_le _ _)) by lia.
    assert (Es : subslice (pre ++ x :: y :: (z :: l3) ++ post) (slen pre + 1) (slen pre + 3) = Ret [y; z]).
    { unfold subslice. rewrite (proj2 (Z.leb_le _ _)), (proj2 (Z.leb_le _ _));
        [|rewrite !slen_app, !slen_cons, !slen_app; pose proof (slen_nonneg post); rewrite slen_cons; lia|lia]. cbn [andb].
      replace (Z.to_nat (slen pre + 1)) with (length (pre ++ [x])) by (rewrite length_app; unfold slen; simpl; lia).
      replace (pre ++ x :: y :: (z :: l3) ++ post) with ((pre ++ [x]) ++ [y; z] ++ (l3 ++ post))
        by (by rewrite <-app_assoc).
      rewrite drop_app_length. f_equal. replace (Z.to_nat _) with (length [y; z]) by (simpl; lia).
      apply take_app_length. }
    rewrite Es, bind_Ret. destruct (Z.eqb_spec y 13) as [->|Hy].
    + destruct (Z.eqb_spec z 10) as [->|Hz]; cbn [andb].
      * rewrite bool_decide_eq_true_2 by done. done.
      * rewrite bool_decide_eq_false_2 by congruence. exact IH'.
    + cbn [andb]. rewrite bool_decide_eq_false_2 by congruence. exact IH'.
Qed.

Lemma request_end_range l e : request_end l = Some e -> (2 <= e <= length l)%nat.
Proof.
  revert e. induction l as [|x l1 IH]; intros e E; [done|].
  destruct l1 as [|y l2]; [by simpl in E; destruct (x =? 10)|].
  assert (Hs : S <$> request_end (y :: l2) = Some e -> (2 <= e <= length (x :: y :: l2))%nat).
  { intros E1. apply fmap_Some in E1 as (e1 & E1 & ->). apply IH in E1. simpl in *. lia. }
  rewrite request_end_cons2 in E. destruct (x =? 10); [|by apply Hs].
  destruct (y =? 10); [injection E as <-; simpl; lia|]. destruct l2 as [|z l3]; [by apply Hs|].
  destruct (_ && _); [injection E as <-; simpl; lia|by apply Hs].
Qed.

(** The bytes up to the end are a request by themselves. *)
Lemma request_end_take l e : request_end l = Some e -> request_end (take e l) = Some e.
Proof.
  revert e. induction l as [|x l1 IH]; intros e E; [done|].
  destruct l1 as [|y l2]; [by simpl in E; destruct (x =? 10)|].
  pose proof (request_end_range _ _ E) as Hr. rewrite request_end_cons2 in E.
  assert (Hs : S <$> request_end (y :: l2) = Some e ->
    exists e1, e = S (S e1) /\ request_end (y :: take e1 l2) = Some (S e1)).
  { intros E1. apply fmap_Some in E1 as (e1 & E1 & ->). pose proof (request_end_range _ _ E1).
    apply IH in E1. destruct e1; [lia|]. eauto. }
  destruct (x =? 10) eqn:Ex.
  2: { destruct (Hs E) as (e1 & -> & E1). cbn [take]. by rewrite request_end_cons2, Ex, E1. }
  destruct (y =? 10) eqn:Ey; [injection E as <-; cbn [take]; by rewrite request_end_cons2, Ex, Ey|].
  destruct l2 as [|z l3].
  { destruct (Hs E) as (e1 & -> & E1). simpl in Hr. assert (e1 = 0%nat) as -> by lia. cbn [take] in *.
    by rewrite request_end_cons2, Ex, Ey, E1. }
  destruct ((y =? 13) && (z =? 10)) eqn:Ez.
  { injection E as <-. cbn [take]. by rewrite request_end_cons2, Ex, Ey, Ez. }
  destruct (Hs E) as (e1 & -> & E1). cbn [take]. rewrite request_end_cons2, Ex, Ey.
  destruct e1; cbn [take] in *; rewrite ?Ez; by rewrite E1.
Qed.

(** [find_end], as [take_request] calls it. *)
Lemma find_end_buffer b left : 0 <= left <= slen b ->
  find_end (Z.to_nat (left - 1)) b left 0 =
  Ret (Z.of_nat <$> request_end (take (Z.to_nat left) b)).
Proof.
  intros Hl. pose proof (find_end_at (take (Z.to_nat left) b) [] (drop (Z.to_nat left) b)) as E.
  rewrite take_drop in E. cbn [app] in E. change (slen []) with 0 in E.
  assert (El : slen (take (Z.to_nat left) b) = left) by (unfold slen in *; rewrite length_take; lia).
  rewrite El in E. replace (Z.to_nat (left - 1)) with (length (take (Z.to_nat left) b) - 1)%nat
    by (unfold slen in El; lia).
  etrans; [exact E|]. by destruct (request_end _).
Qed.

(** ** Shifting the buffer *)

Lemma shift_down_at n done_ rest e : (length rest = n + e)%nat ->
  shift_down n (done_ ++ rest) (slen done_) (Z.of_nat e) = Ret (done_ ++ drop e rest ++ drop n rest).
Proof.
  revert done_ rest. induction n as [|n IH]; intros dn rest Hl.
  { cbn [shift_down]. rewrite drop_ge by lia. done. }
  destruct rest as [|y rest]; [done|]. cbn [shift_down]. simpl in Hl.
  assert (Hx : exists x, (y :: rest) !! e = Some x) by (apply lookup_lt_is_Some_2; simpl; lia).
  destruct Hx as [x Ex].
  assert (Ei : index (dn ++ y :: rest) (slen dn + Z.of_nat e) = Ret x).
  { unfold index, slen. replace (Z.to_nat _) with (length dn + e)%nat by lia.
    by rewrite lookup_app_r, Nat.add_comm, Nat.add_sub, Ex by lia. }
  rewrite Ei, bind_Ret. unfold set_index. pose proof (slen_nonneg rest).
  rewrite (proj2 (Z.ltb_lt _ _)) by (rewrite slen_app, slen_cons; lia). rewrite bind_Ret.
  assert (Es : <[Z.to_nat (slen dn):=x]> (dn ++ y :: rest) = (dn ++ [x]) ++ rest).
  { unfold slen. rewrite Nat2Z.id, insert_app_r_alt, Nat.sub_diag by lia. by rewrite <-app_assoc. }
  rewrite Es. replace (slen dn + 1) with (slen (dn ++ [x])) by (rewrite slen_app; done).
  rewrite IH by lia. rewrite <-app_assoc. f_equal. f_equal. cbn [app drop].
  destruct e as [|e]; cbn [lookup list_lookup drop] in Ex |- *.
  - injection Ex as ->. by rewrite drop_0.
  - change (x :: drop (S e) rest ++ drop n rest = drop e rest ++ drop n rest).
    by rewrite (drop_S _ _ _ Ex).
Qed.

Lemma shift_down_spec b e : 0 <= e <= slen b ->
  shift_down (Z.to_nat (slen b - e)) b 0 e = Ret (drop (Z.to_nat e) b ++ drop (Z.to_nat (slen b - e)) b).
Proof.
  intros He. pose proof (shift_down_at (Z.to_nat (slen b - e)) [] b (Z.to_nat e)) as E.
  cbn [app] in E. change (slen []) with 0 in E. rewrite Z2Nat.id in E by lia. apply E. unfold slen in *. lia.
Qed.

(** ** Runs of an endpoint *)

Ltac ep_simpl :=
  cbn [receive_buf receive_buf_left response_buf initial_response_seq response_seq connection
    last_segment_received_timestamp eviction_threshold stop_receiving ep_with_received ep_with_response
    ep_with_connection ep_with_timestamp ep_stop] in *.

(** Requests not answered yet, and the part of the response not sent yet. *)
Definition buffered (e : Endpoint) : list Z := take (Z.to_nat (receive_buf_left e)) (receive_buf e).
Definition unsent (e : Endpoint) : list Z :=
  drop (Z.to_nat (wsub 32 (response_seq e) (initial_response_seq e))) (response_buf e).
Definition ready (e : Endpoint) : option nat :=
  if 2 <? receive_buf_left e then request_end (buffered e) else None.

(** What is expected after a FIN is its successor. *)
Definition fin_last (c : Connection) : Prop :=
  forall f, fin_received c = Some f -> ack_to_send c = wadd 32 f 1.

Section EndpointRuns.
Context `{Profile} `{HttpLaws}.

Definition answer (callback : Request -> Response) (request : list Z) : list Z :=
  write_all (parse_request_bytes request callback).

(** What became of the data of a run: all that was received, the requests found in it
    with their answers, and all that was sent. *)
Record history := mkHistory {
  h_data : list Z;
  h_asked : list (list Z * list Z);
  h_sent : list Z }.

(** The data a segment adds, as the connection reports it. *)
Definition accepted (e : Endpoint) (s : TcpSegment) (now : Z) : list Z :=
  if stop_receiving e then []
  else match receive_segment (connection e) s (drop (Z.to_nat (receive_buf_left e)) (receive_buf e)) now with
       | Done (r, _, buf) => data_of r buf
       | _ => []
       end.

(** A request was answered when bytes left the buffer. *)
Definition h_receive (h : history) (e : Endpoint) (s : TcpSegment) (callback : Request -> Response)
    (now : Z) (e' : Endpoint) : history :=
  let data := accepted e s now in
  let n := receive_buf_left e + slen data - receive_buf_left e' in
  if n =? 0 then mkHistory (h_data h ++ data) (h_asked h) (h_sent h)
  else
    let request := take (Z.to_nat n) (buffered e ++ data) in
    mkHistory (h_data h ++ data) (h_asked h ++ [(request, answer callback request)]) (h_sent h).

Definition sent_payload (r : option TcpSegment) : list Z :=
  match r with
  | Some s => match payload s with Ret p => p | Panic => [] end
  | None => []
  end.
Definition h_write (h : history) (r : option TcpSegment) : history :=
  mkHistory (h_data h) (h_asked h) (h_sent h ++ sent_payload r).

Variable arrives : TcpSegment -> view -> Prop.
(** The initial sequence number of the endpoint's side. *)
Variable isn : Z.

Inductive ep_run : Endpoint -> history -> Prop :=
| er_new s v threshold period count_max now e :
    views s v -> arrives s v -> in_range 64 period -> 0 < period -> 0 < count_max < 65536 ->
    in_range 32 isn -> Endpoint_new s threshold period count_max isn now = Done (Ok e) ->
    ep_run e (mkHistory [] [] [])
| er_receive e h s v callback now e' :
    ep_run e h -> views s v -> arrives s v -> callback_ok callback -> in_range 64 now ->
    ep_receive_segment e s callback now = Done e' -> ep_run e' (h_receive h e s callback now e')
| er_write e h buf mr now r e' buf' :
    ep_run e h -> bytes_ok buf -> slen buf <= 65535 -> 0 <= mr -> in_range 64 now ->
    rto_start (connection e) <= now ->
    ep_write_next_segment e buf mr now = Ret (r, e', buf') -> ep_run e' (h_write h r).

Record ep_inv (e : Endpoint) (h : history) : Prop := {
  ei_conn : run arrives (connection e) (h_data h);
  ei_len : slen (receive_buf e) = RCV_BUF_MAX_SIZE;
  ei_left : 0 <= receive_buf_left e <= RCV_BUF_MAX_SIZE;
  ei_data : h_data h = concat (fst <$> h_asked h) ++ buffered e;
  ei_asked : Forall (fun r => request_end r = Some (length r)) (fst <$> h_asked h);
  ei_answers : concat (snd <$> h_asked h) = h_sent h ++ unsent e;
  ei_offset : wsub 32 (response_seq e) (initial_response_seq e) <= slen (response_buf e);
  ei_response : slen (response_buf e) < 2 ^ 30 /\ bytes_ok (response_buf e);
  ei_seq : response_seq e = wadd 32 isn (1 + slen (h_sent h));
  ei_initial : in_range 32 (initial_response_seq e);
  ei_first : send_fin (connection e) = None -> first_not_sent (connection e) = response_seq e;
  ei_closed : send_fin (connection e) <> None ->
    response_buf e = [] /\ fin_received (connection e) <> None /\ ready e = None;
  ei_fin : fin_last (connection e)
}.

(** ** No data follows a FIN *)

Lemma fin_last_refuses f n : 0 < n <= 65535 -> seq_at_or_after f (wadd 32 (wadd 32 f 1) n) = false.
Proof.
  intros Hn. unfold seq_at_or_after, wsub, wadd, MAX_WINDOW_SIZE. rewrite wrap_add_l, wrap_sub_r.
  replace (f - (f + 1 + n)) with (- (1 + n)) by lia. rewrite wrap_neg by (simpl Z.pow; lia).
  apply Z.ltb_ge. simpl Z.pow. lia.
Qed.

Lemma recv_fin_last c v buf r c' buf' : fin_last c -> slen buf <= 65535 -> recv_effect c v buf r c' buf' ->
  fin_last c' /\ (fin_received c <> None -> data_of r buf' = [] /\ fin_received c' <> None).
Proof.
  intros Hf Hb W. destruct W as [r c' Hr [_ Ea Ef]|c' g fin Hn Es Hfin _ _ Hnext|c' g _ _ _ (N1 & N2 & N3)].
  - split; [intros f; rewrite Ef, Ea; apply Hf|]. intros Hne. rewrite Ef. split; [|done].
    by destruct r as [[[n|] g]|e].
  - assert (En : fin_received c = None).
    { destruct (fin_received c) as [f|] eqn:E; [|done]. specialize (Hfin f eq_refl).
      rewrite Es, (Hf f E), fin_last_refuses in Hfin by lia. done. }
    split; [|by rewrite En]. intros f Ef. destruct fin; destruct Hnext as [K1 K2]; [|congruence].
    destruct K2 as [K2 K3]. congruence.
  - split; [|by rewrite N1]. intros f Ef. congruence.
Qed.

(** ** Taking a request from the buffer *)

(** [e'] is [e] after the first [n] bytes in its buffer were answered. *)
Record answered (e : Endpoint) (callback : Request -> Response) (n : nat) (e' : Endpoint) : Prop := {
  an_len : slen (receive_buf e') = slen (receive_buf e);
  an_left : receive_buf_left e' = receive_buf_left e - Z.of_nat n;
  an_buffered : buffered e' = drop n (buffered e);
  an_response : response_buf e' = answer callback (take n (buffered e));
  an_initial : initial_response_seq e' = initial_response_seq e;
  an_seq : response_seq e' = response_seq e;
  an_conn : connection e' = advance_local_rwnd_edge (connection e) (Z.of_nat n);
  an_stop : stop_receiving e' = stop_receiving e
}.

Lemma take_shifted (b : list Z) (n left : nat) : (n <= left <= length b)%nat ->
  take (left - n) (drop n b ++ drop (length b - n) b) = drop n (take left b).
Proof.
  intros Hn. rewrite take_app_le by (rewrite length_drop; lia).
  rewrite take_drop_commute. do 2 f_equal. lia.
Qed.

Lemma answer_short callback request : callback_ok callback -> slen request <= RCV_BUF_MAX_SIZE ->
  response_short (parse_request_bytes request callback).
Proof.
  intros Hc Hl. unfold parse_request_bytes. destruct (Request_try_from request) as [rq|er] eqn:E; [by apply (Hc request)|].
  apply error_text_short in E. unfold RCV_BUF_MAX_SIZE in Hl.
  assert (Hb : forall code text, slen text <= 8192 -> response_short (build_response code text)).
  { intros code text Ht. unfold response_short, build_response.
    pose proof (write_all_body (Response_new default_version code) text).
    pose proof (write_all_new default_version code). simpl Z.pow. lia. }
  destruct er; apply Hb; unfold error_text in E; try lia. unfold text_invalid_request, slen. cbn. lia.
Qed.

Lemma answer_request_ok e callback n : callback_ok callback -> slen (receive_buf e) = RCV_BUF_MAX_SIZE ->
  0 <= receive_buf_left e <= RCV_BUF_MAX_SIZE -> response_buf e = [] ->
  (n <= length (buffered e))%nat ->
  exists e', answer_request e callback (Z.of_nat n) = Ret e' /\ answered e callback n e'.
Proof.
  intros Hcb El Hl Er Hn. unfold RCV_BUF_MAX_SIZE in *. unfold answer_request, subslice.
  assert (Eb : length (buffered e) = Z.to_nat (receive_buf_left e)).
  { unfold buffered. rewrite length_take. unfold slen in El. lia. }
  rewrite (proj2 (Z.leb_le _ _)), (proj2 (Z.leb_le (Z.of_nat n) _)) by lia. cbn [andb]. rewrite bind_Ret.
  replace (Z.to_nat (Z.of_nat n - 0)) with n by lia. rewrite drop_0, Er. cbn [app].
  assert (Et : take n (receive_buf e) = take n (buffered e)).
  { unfold buffered. rewrite take_take. f_equal. lia. }
  rewrite Et. fold (answer callback (take n (buffered e))).
  assert (Hw : slen (answer callback (take n (buffered e))) < 2 ^ 30).
  { apply answer_short; [done|]. unfold RCV_BUF_MAX_SIZE, slen. rewrite length_take. lia. }
  simpl Z.pow in *.
  rewrite (proj2 (Z.ltb_lt _ _)) by lia.
  rewrite (usub_ok 64 (slen (receive_buf e))), bind_Ret by (unfold in_range; simpl Z.pow; lia).
  rewrite shift_down_spec, bind_Ret by lia.
  rewrite (usub_ok 64 (receive_buf_left e)), bind_Ret by (unfold in_range; simpl Z.pow; lia).
  eexists. split; [done|]. unfold slen in El.
  constructor; ep_simpl; try done.
  - rewrite slen_app. unfold slen. rewrite !length_drop. lia.
  - unfold buffered. ep_simpl. rewrite Nat2Z.id.
    replace (Z.to_nat (receive_buf_left e - Z.of_nat n)) with (Z.to_nat (receive_buf_left e) - n)%nat by lia.
    replace (Z.to_nat (slen (receive_buf e) - Z.of_nat n)) with (length (receive_buf e) - n)%nat
      by (unfold slen; lia).
    apply take_shifted. lia.
  - by rewrite wrap_id by (unfold in_range; simpl Z.pow; lia).
Qed.

Lemma take_request_ok e callback : callback_ok callback -> slen (receive_buf e) = RCV_BUF_MAX_SIZE ->
  0 <= receive_buf_left e <= RCV_BUF_MAX_SIZE -> response_buf e = [] ->
  exists e', take_request e callback = Ret e' /\
    match ready e with None => e' = e | Some n => answered e callback n e' end.
Proof.
  intros Hcb El Hl Er. unfold take_request, ready, RCV_BUF_MAX_SIZE in *.
  destruct (Z.ltb_spec 2 (receive_buf_left e)) as [H2|H2]; [|eauto].
  rewrite usub_ok, bind_Ret, find_end_buffer, bind_Ret by (try unfold in_range; simpl Z.pow; lia).
  fold (buffered e). destruct (request_end (buffered e)) as [n|] eqn:En; cbn [fmap option_fmap option_map]; [|eauto].
  apply answer_request_ok; try done. apply request_end_range in En. lia.
Qed.

(** ** The steps of [process_received] *)

Lemma wadd_wsub a b : in_range 32 a -> wadd 32 b (wsub 32 a b) = a.
Proof.
  intros Ha. unfold wadd, wsub. rewrite wrap_add_r. replace (b + (a - b)) with a by lia. by apply wrap_id.
Qed.

Lemma response_seq_range e h : ep_inv e h -> in_range 32 (response_seq e).
Proof. intros I. rewrite (ei_seq _ _ I). apply wadd_range. lia. Qed.

(** While there is a response the connection is not closing. *)
Lemma responding e h : ep_inv e h -> response_buf e <> [] ->
  send_fin (connection e) = None /\ first_not_sent (connection e) = response_seq e.
Proof.
  intros I Hne. destruct (send_fin (connection e)) as [f|] eqn:E.
  - destruct (ei_closed _ _ I) as [Er _]; [by rewrite E|done].
  - split; [done|]. by apply (ei_first _ _ I).
Qed.

(** Nothing is acknowledged that was not sent: the whole response was. *)
Lemma all_acknowledged e h : ep_inv e h -> response_buf e <> [] ->
  highest_ack_received (connection e) = wadd 32 (initial_response_seq e) (slen (response_buf e)) ->
  wsub 32 (response_seq e) (initial_response_seq e) = slen (response_buf e) /\
  highest_ack_received (connection e) = response_seq e.
Proof.
  intros I Hne Eh. destruct (responding e h I Hne) as [_ Ef].
  destruct (run_window _ _ _ (ei_conn _ _ I)) as [W1 W2].
  assert (Hs : fin_slot (connection e) <= 1) by (unfold fin_slot; destruct (fin_sent _); lia).
  pose proof (ei_offset _ _ I) as Ho. destruct (ei_response _ _ I) as [Hr _]. simpl Z.pow in Hr.
  pose proof (slen_nonneg (response_buf e)). unfold flight in W2. rewrite Ef, Eh in W2.
  set (n := slen (response_buf e)) in *. set (i := initial_response_seq e) in *.
  assert (En : wsub 32 (wadd 32 i n) i = n).
  { rewrite wsub_add, wsub_self. apply wrap_id. unfold in_range. simpl Z.pow. lia. }
  assert (Ek : wsub 32 (response_seq e) i = n).
  { destruct (Z.eq_dec (wsub 32 (response_seq e) i) n) as [|Hk]; [done|].
    rewrite (wsub_split_neg _ _ i) in W2 by lia. rewrite En in W2.
    pose proof (wsub_range32 (response_seq e) i). simpl Z.pow in W2. lia. }
  split; [done|]. rewrite Eh, <-Ek. apply wadd_wsub. by apply response_seq_range with h.
Qed.

Lemma clear_ok e h : ep_inv e h -> ep_inv (clear_response e) h.
Proof.
  intros I. unfold clear_response.
  destruct (bool_decide_reflect (response_buf e = [])) as [|Hne]; cbn [negb andb]; [done|].
  destruct (ei_response _ _ I) as [Hr Hb]. simpl Z.pow in Hr. pose proof (slen_nonneg (response_buf e)).
  rewrite (wrap_id 32 (slen _)) by (unfold in_range; simpl Z.pow; lia).
  destruct (Z.eqb_spec (highest_ack_received (connection e))
    (wadd 32 (initial_response_seq e) (slen (response_buf e)))) as [Eh|]; [|done].
  destruct (all_acknowledged e h I Hne Eh) as [Ek Er]. rewrite Er.
  assert (Eu : unsent e = []).
  { unfold unsent. rewrite Ek. apply drop_ge. unfold slen. lia. }
  destruct I. constructor; ep_simpl; try done.
  - unfold unsent. ep_simpl. by rewrite drop_nil, ei_answers0, Eu.
  - by rewrite wsub_self.
  - by split; [|constructor].
  - rewrite <-Er. apply (co_highest _ (run_ok _ _ _ ei_conn0)).
  - intros Hf. by destruct (ei_closed0 Hf) as (_ & ? & ?).
Qed.

(** A change of the connection that concerns neither the data sent nor the FINs. *)
Lemma ep_inv_connection e h c : ep_inv e h -> run arrives c (h_data h) ->
  first_not_sent c = first_not_sent (connection e) -> send_fin c = send_fin (connection e) ->
  fin_received c = fin_received (connection e) -> ack_to_send c = ack_to_send (connection e) ->
  ep_inv (ep_with_connection e c) h.
Proof.
  intros [] Hr E1 E2 E3 E4. constructor; ep_simpl; rewrite ?E1, ?E2, ?E3; try done.
  intros f Ef. rewrite E4. apply ei_fin0. congruence.
Qed.

Lemma ep_inv_stop e h : ep_inv e h -> ep_inv (ep_stop e) h.
Proof. intros []. by constructor. Qed.

Lemma reset_conn_ok e h : ep_inv e h -> ep_inv (ep_with_connection e (reset (connection e))) h.
Proof.
  intros I. pose proof (run_reset _ _ _ (ei_conn _ _ I)) as Hr.
  apply ep_inv_connection; [done|done|..]; unfold reset; by destruct (rst_pending _).
Qed.

Lemma close_conn_ok e h : ep_inv e h -> (response_buf e = [] -> ready e = None) ->
  ep_inv (close_if_finished e) h.
Proof.
  intros I Hn. unfold close_if_finished, has_fin_received.
  destruct (bool_decide_reflect (is_Some (fin_received (connection e)))) as [Hs|]; [|done].
  destruct (bool_decide_reflect (response_buf e = [])) as [Er|]; [|done]. cbn [andb].
  pose proof (run_close _ _ _ (ei_conn _ _ I)) as Hr. unfold close in *.
  destruct (send_fin (connection e)) as [f|] eqn:Ef; [by apply ep_inv_connection|].
  destruct I. constructor; ep_simpl; try done.
  intros _. split_and!; [done| |by apply Hn]. destruct Hs as [x Ex]. cbn. by rewrite Ex.
Qed.

Definition ask (h : history) (callback : Request -> Response) (request : list Z) : history :=
  mkHistory (h_data h) (h_asked h ++ [(request, answer callback request)]) (h_sent h).

Lemma advance_fields c n : let c' := advance_local_rwnd_edge c n in
  first_not_sent c' = first_not_sent c /\ send_fin c' = send_fin c /\
  fin_received c' = fin_received c /\ ack_to_send c' = ack_to_send c.
Proof. cbv zeta. unfold advance_local_rwnd_edge, enqueue_ack. bool_cases; done. Qed.

Lemma ready_range e n : ready e = Some n ->
  (2 <= n <= length (buffered e))%nat /\ request_end (take n (buffered e)) = Some n.
Proof.
  unfold ready. destruct (2 <? receive_buf_left e); [|done]. intros E.
  split; [by apply request_end_range|by apply request_end_take].
Qed.

Lemma answered_ok e h callback n e' : callback_ok callback -> ep_inv e h -> response_buf e = [] -> ready e = Some n ->
  answered e callback n e' -> ep_inv e' (ask h callback (take n (buffered e))).
Proof.
  intros Hcb I Er En [A1 A2 A3 A4 A5 A6 A7 _]. destruct (ready_range e n En) as [Hn Ht].
  pose proof (ei_left _ _ I) as Hl. pose proof (ei_len _ _ I) as El. unfold RCV_BUF_MAX_SIZE in *.
  assert (Eb : length (buffered e) = Z.to_nat (receive_buf_left e)).
  { unfold buffered. rewrite length_take. unfold slen in El. lia. }
  assert (Es : send_fin (connection e) = None).
  { destruct (send_fin (connection e)) eqn:E; [|done]. destruct (ei_closed _ _ I) as (_ & _ & Hr); [by rewrite E|].
    congruence. }
  destruct (advance_fields (connection e) (Z.of_nat n)) as (F1 & F2 & F3 & F4). rewrite <-A7 in F1, F2, F3, F4.
  assert (Ek : wsub 32 (response_seq e) (initial_response_seq e) = 0).
  { pose proof (ei_offset _ _ I) as Ho. rewrite Er in Ho. change (slen []) with 0 in Ho.
    pose proof (wsub_range32 (response_seq e) (initial_response_seq e)). lia. }
  assert (Hu : unsent e = []) by (unfold unsent; by rewrite Er, drop_nil).
  assert (Hu' : unsent e' = answer callback (take n (buffered e))).
  { unfold unsent. by rewrite A5, A6, Ek, drop_0, A4. }
  destruct I. constructor; cbn [ask h_data h_asked h_sent]; rewrite ?A1, ?A2, ?A5, ?A6, ?F1, ?F2, ?Ek; try done.
  - rewrite A7. apply run_advance; [done|]. unfold in_range. simpl Z.pow. lia.
  - unfold RCV_BUF_MAX_SIZE. lia.
  - rewrite fmap_app, concat_app, A3, ei_data0, <-app_assoc. f_equal. cbn. by rewrite app_nil_r, take_drop.
  - rewrite fmap_app, Forall_app. split; [done|]. repeat constructor. cbn. rewrite Ht. f_equal.
    rewrite length_take. lia.
  - rewrite fmap_app, concat_app, ei_answers0, Hu, Hu', app_nil_r. cbn. by rewrite app_nil_r.
  - apply slen_nonneg.
  - rewrite A4. split; [|apply write_all_bytes]. apply answer_short; [done|].
    unfold RCV_BUF_MAX_SIZE, slen. rewrite length_take. lia.
  - intros f Ef. rewrite F4. apply ei_fin0. congruence.
Qed.

Lemma process_ok e h callback : callback_ok callback -> ep_inv e h ->
  exists e', process_received e callback = Ret e' /\
    ((receive_buf_left e' = receive_buf_left e /\ ep_inv e' h) \/
     (exists n, (2 <= n <= length (buffered e))%nat /\ receive_buf_left e' = receive_buf_left e - Z.of_nat n /\
        ep_inv e' (ask h callback (take n (buffered e))))).
Proof.
  intros Hcb I. unfold process_received.
  assert (Ec : receive_buf (clear_response e) = receive_buf e /\
    receive_buf_left (clear_response e) = receive_buf_left e).
  { unfold clear_response. by destruct (_ && _). }
  assert (Ebf : buffered (clear_response e) = buffered e) by (unfold buffered; by destruct Ec as [-> ->]).
  apply clear_ok in I. rewrite <-Ebf. destruct Ec as [_ <-]. set (e1 := clear_response e) in *. clearbody e1. clear Ebf e.
  destruct (bool_decide_reflect (response_buf e1 = [])) as [Er|Er].
  2: { eexists. split; [done|]. left. split; [|by apply close_conn_ok].
       unfold close_if_finished. by destruct (_ && _). }
  destruct (take_request_ok e1 callback Hcb (ei_len _ _ I) (ei_left _ _ I) Er) as (e2 & -> & He2).
  rewrite bind_Ret. assert (Hclose : forall h', ep_inv e2 h' -> (response_buf e2 = [] -> ready e2 = None) ->
    exists e', (if receive_buf_left e2 =? slen (receive_buf e2)
      then Ret (ep_stop (ep_with_connection e2 (reset (connection e2)))) else Ret (close_if_finished e2)) = Ret e' /\
      receive_buf_left e' = receive_buf_left e2 /\ ep_inv e' h').
  { intros h' I2 Hr. destruct (_ =? _).
    - eexists. split; [done|]. split; [done|]. by apply ep_inv_stop, reset_conn_ok.
    - eexists. split; [done|]. split; [unfold close_if_finished; by destruct (_ && _)|by apply close_conn_ok]. }
  destruct (ready e1) as [n|] eqn:En.
  - destruct (ready_range e1 n En) as [Hn _].
    destruct (Hclose (ask h callback (take n (buffered e1)))) as (e' & -> & El & I').
    + by apply answered_ok.
    + rewrite (an_response _ _ _ _ He2). intros Ew. by apply write_all_nonempty in Ew.
    + eexists. split; [done|]. right. exists n. split_and!; [lia|lia|by rewrite El, (an_left _ _ _ _ He2)|done].
  - subst e2. destruct (Hclose h I) as (e' & -> & El & I'); [done|]. eauto.
Qed.

(** ** Receiving a segment *)

(** The effect of a segment on the tail of the buffer. *)
Lemma recv_effect_tail c v tail r c' tail' : recv_effect c v tail r c' tail' ->
  send_frame c c' /\ slen tail' = slen tail /\ slen (data_of r tail') <= slen tail /\
  tail' = data_of r tail' ++ drop (length (data_of r tail')) tail.
Proof.
  intros W. destruct W as [r c' Hr [Hf _ _]|c' g fin Hn _ _ _ Hf _|c' g _ _ Hf _].
  - assert (data_of r tail = []) as -> by (by destruct r as [[[n|] g]|e]).
    change (slen []) with 0. pose proof (slen_nonneg tail). by split_and!.
  - cbn [data_of]. unfold slen. rewrite Nat2Z.id, take_app_length. unfold slen in Hn.
    split_and!; [done|rewrite length_app, length_drop; lia|lia|done].
  - cbn [data_of]. change (slen []) with 0. pose proof (slen_nonneg tail). by split_and!.
Qed.

(** The endpoint with the data of a segment in its buffer. *)
Definition with_data (e : Endpoint) (c : Connection) (data tail : list Z) : Endpoint :=
  ep_with_connection
    (ep_with_received e (take (Z.to_nat (receive_buf_left e)) (receive_buf e) ++ tail)
       (receive_buf_left e + slen data)) c.

Lemma with_data_buffered e v r c' tail' :
  slen (receive_buf e) = RCV_BUF_MAX_SIZE -> 0 <= receive_buf_left e <= RCV_BUF_MAX_SIZE ->
  recv_effect (connection e) v (drop (Z.to_nat (receive_buf_left e)) (receive_buf e)) r c' tail' ->
  let e' := with_data e c' (data_of r tail') tail' in
  slen (receive_buf e') = RCV_BUF_MAX_SIZE /\ 0 <= receive_buf_left e' <= RCV_BUF_MAX_SIZE /\
  buffered e' = buffered e ++ data_of r tail'.
Proof.
  intros El Hl W e'. destruct (recv_effect_tail _ _ _ _ _ _ W) as (_ & T1 & T2 & T3).
  set (tail := drop (Z.to_nat (receive_buf_left e)) (receive_buf e)) in *.
  set (data := data_of r tail') in *. unfold RCV_BUF_MAX_SIZE in *.
  assert (Eb : slen (buffered e) = receive_buf_left e).
  { unfold buffered, slen in *. rewrite length_take. lia. }
  assert (Et : slen tail = 2500 - receive_buf_left e).
  { unfold tail, slen in *. rewrite length_drop. lia. }
  assert (E1 : receive_buf e' = buffered e ++ tail') by done.
  assert (E2 : receive_buf_left e' = receive_buf_left e + slen data) by done.
  pose proof (slen_nonneg data).
  split_and!; [rewrite E1, slen_app; lia|lia|lia|].
  unfold buffered at 1. rewrite E1, E2, T3, app_assoc.
  replace (Z.to_nat (receive_buf_left e + slen data)) with (length (buffered e ++ data))
    by (rewrite length_app; unfold slen in *; lia).
  apply take_app_length.
Qed.

Lemma with_data_ok e h v r c' tail' now :
  ep_inv e h -> run arrives c' (h_data h ++ data_of r tail') ->
  recv_effect (connection e) v (drop (Z.to_nat (receive_buf_left e)) (receive_buf e)) r c' tail' ->
  ep_inv (with_data (ep_with_timestamp e now) c' (data_of r tail') tail')
    (mkHistory (h_data h ++ data_of r tail') (h_asked h) (h_sent h)).
Proof.
  intros I Hr W. pose proof (ei_len _ _ I) as El. pose proof (ei_left _ _ I) as Hl.
  destruct (with_data_buffered (ep_with_timestamp e now) v r c' tail' El Hl W) as (B1 & B2 & B3).
  destruct (recv_effect_tail _ _ _ _ _ _ W) as ([F1 _ F2 _ _ _] & T1 & T2 & T3).
  assert (Hb : slen (drop (Z.to_nat (receive_buf_left e)) (receive_buf e)) <= 65535).
  { unfold RCV_BUF_MAX_SIZE, slen in *. rewrite length_drop. lia. }
  destruct (recv_fin_last _ _ _ _ _ _ (ei_fin _ _ I) Hb W) as [Hf1 Hf2].
  set (data := data_of r tail') in *. set (e' := with_data _ _ _ _) in *.
  destruct I. constructor; cbn [h_data h_asked h_sent]; try done.
  - rewrite B3, ei_data0, <-app_assoc. done.
  - intros Es. cbn in Es |- *. rewrite F1. apply ei_first0. by rewrite <-F2.
  - intros Es. cbn in Es. rewrite F2 in Es. destruct (ei_closed0 Es) as (K1 & K2 & K3).
    destruct (Hf2 K2) as [Hd Hf]. split_and!; [done|done|].
    unfold ready. rewrite B3. unfold ready in K3.
    assert (receive_buf_left e' = receive_buf_left e) as ->.
    { cbn. rewrite Hd. change (slen []) with 0. lia. }
    by rewrite Hd, app_nil_r.
Qed.

Lemma data_length c v tail n g c' tail' : recv_effect c v tail (Ok (Some n, g)) c' tail' ->
  n = slen (data_of (Ok (Some n, g)) tail') /\ intersects g CONN_RESETTING = false.
Proof.
  intros W. inversion W; subst; [done|]. split; [|done].
  cbn [data_of]. unfold slen. by rewrite Nat2Z.id, take_app_length.
Qed.

Lemma with_data_nil e c tail : with_data e c [] tail =
  ep_with_connection
    (ep_with_received e (take (Z.to_nat (receive_buf_left e)) (receive_buf e) ++ tail) (receive_buf_left e)) c.
Proof. unfold with_data. change (slen []) with 0. by rewrite Z.add_0_r. Qed.

(** [ep_receive_segment] behind the connection: the data is in the buffer, and a request
    is looked for unless the segment was refused. *)
Lemma ep_receive_cases e s callback now r c' tail' v :
  slen (receive_buf e) = RCV_BUF_MAX_SIZE -> 0 <= receive_buf_left e <= RCV_BUF_MAX_SIZE ->
  stop_receiving e = false ->
  receive_segment (connection e) s (drop (Z.to_nat (receive_buf_left e)) (receive_buf e)) now =
    Done (r, c', tail') ->
  recv_effect (connection e) v (drop (Z.to_nat (receive_buf_left e)) (receive_buf e)) r c' tail' ->
  let e1 := with_data (ep_with_timestamp e now) c' (data_of r tail') tail' in
  ep_receive_segment e s callback now = Done e1 \/
  ep_receive_segment e s callback now = Done (ep_stop e1) \/
  ep_receive_segment e s callback now = lift (process_received e1 callback).
Proof.
  intros El Hl Es Er W e1. unfold ep_receive_segment. rewrite Es. ep_simpl.
  unfold slice_from. rewrite (proj2 (Z.leb_le _ _)) by (unfold RCV_BUF_MAX_SIZE in *; lia).
  cbn [lift]. rewrite bind_Done, Er, bind_Done.
  assert (Hnil : data_of r tail' = [] -> e1 = ep_with_connection (ep_with_received (ep_with_timestamp e now)
    (take (Z.to_nat (receive_buf_left e)) (receive_buf e) ++ tail') (receive_buf_left e)) c').
  { intros Ed. unfold e1. by rewrite Ed, with_data_nil. }
  destruct r as [[[n|] g]|er].
  - destruct (data_length _ _ _ _ _ _ _ W) as [En Eg]. rewrite Eg, andb_false_r.
    unfold RCV_BUF_MAX_SIZE in *. destruct (recv_effect_tail _ _ _ _ _ _ W) as (_ & _ & Hd & _).
    pose proof (slen_nonneg (data_of (Ok (Some n, g)) tail')).
    assert (Hd' : slen (drop (Z.to_nat (receive_buf_left e)) (receive_buf e)) = 2500 - receive_buf_left e).
    { unfold slen in *. rewrite length_drop. lia. }
    rewrite uadd_ok by (unfold in_range; simpl Z.pow; lia). cbn [lift]. rewrite !bind_Done.
    right; right. unfold e1, with_data. rewrite <-En. done.
  - rewrite <-(Hnil eq_refl). destruct (_ && _); [by right; left|]. rewrite bind_Done. by right; right.
  - rewrite <-(Hnil eq_refl). by left.
Qed.

Lemma history_nil h : mkHistory (h_data h ++ []) (h_asked h) (h_sent h) = h.
Proof. rewrite app_nil_r. by destruct h. Qed.

Lemma ep_receive_ok e h s v callback now : callback_ok callback -> ep_inv e h ->
  views s v -> arrives s v -> in_range 64 now ->
  ep_receive_segment e s callback now = Hang \/
  exists e', ep_receive_segment e s callback now = Done e' /\ ep_inv e' (h_receive h e s callback now e').
Proof.
  intros Hcb I V Ha Hn. destruct (stop_receiving e) eqn:Es.
  { right. exists e. unfold ep_receive_segment, h_receive, accepted. rewrite Es. split; [done|].
    change (slen []) with 0. rewrite (proj2 (Z.eqb_eq _ 0)), history_nil by lia. done. }
  pose proof (run_ok _ _ _ (ei_conn _ _ I)) as Hc.
  set (tail := drop (Z.to_nat (receive_buf_left e)) (receive_buf e)).
  destruct (receive_segment_ok (connection e) s v tail now Hc V Hn) as [E|(r & c' & tail' & E & _ & W)].
  { left. unfold ep_receive_segment. rewrite Es. ep_simpl. unfold slice_from.
    rewrite (proj2 (Z.leb_le _ _)) by (rewrite (ei_len _ _ I); apply (ei_left _ _ I)).
    cbn [lift]. rewrite bind_Done. fold tail. by rewrite E. }
  right. pose proof (run_receive _ _ _ _ _ _ _ _ _ _ (ei_conn _ _ I) V Ha Hn E) as Hr.
  pose proof (with_data_ok e h v r c' tail' now I Hr W) as I1.
  destruct (with_data_buffered (ep_with_timestamp e now) v r c' tail' (ei_len _ _ I) (ei_left _ _ I) W)
    as (_ & _ & B3).
  assert (Ed : accepted e s now = data_of r tail') by (unfold accepted; fold tail; by rewrite Es, E).
  pose proof (ep_receive_cases e s callback now r c' tail' v (ei_len _ _ I) (ei_left _ _ I) Es E W) as Hcase.
  cbn zeta in Hcase. set (e1 := with_data _ _ _ _) in *. set (data := data_of r tail') in *.
  assert (El : receive_buf_left e1 = receive_buf_left e + slen data) by done.
  assert (B4 : buffered e1 = buffered e ++ data) by done. clearbody e1.
  unfold h_receive. rewrite Ed, <-El. destruct Hcase as [->|[->| ->]].
  - exists e1. split; [done|]. by rewrite (proj2 (Z.eqb_eq _ 0)) by lia.
  - eexists. split; [done|]. rewrite (proj2 (Z.eqb_eq _ 0)) by (ep_simpl; lia). by apply ep_inv_stop.
  - destruct (process_ok e1 _ callback Hcb I1) as (e2 & -> & [[El2 I2]|(n & Hn2 & El2 & I2)]);
      exists e2; (split; [done|]).
    + by rewrite (proj2 (Z.eqb_eq _ 0)) by lia.
    + rewrite (proj2 (Z.eqb_neq _ 0)) by lia. rewrite <-B4.
      replace (Z.to_nat (receive_buf_left e1 - receive_buf_left e2)) with n by lia. exact I2.
Qed.

(** ** Writing a segment *)

Lemma payload_source_ok e h : ep_inv e h ->
  payload_source e = Ret (if bool_decide (response_buf e = []) then None else Some (unsent e, response_seq e)).
Proof.
  intros I. unfold payload_source, split_at. destruct (bool_decide_reflect (response_buf e = [])); [done|].
  cbn [negb]. by rewrite (proj2 (Z.leb_le _ _) (ei_offset _ _ I)), bind_Ret.
Qed.

Lemma ep_write_args e h buf mr now : ep_inv e h -> bytes_ok buf -> slen buf <= 65535 -> 0 <= mr ->
  in_range 64 now -> rto_start (connection e) <= now ->
  write_args (connection e) buf mr
    (if bool_decide (response_buf e = []) then None else Some (unsent e, response_seq e)) now.
Proof.
  intros I Hb Hl Hm Hn Hclk. constructor; try done. destruct (bool_decide_reflect (response_buf e = [])); [done|].
  intros rb ps [= <- <-]. split; [apply Forall_drop, (ei_response _ _ I)|by apply response_seq_range with h].
Qed.

(** Data that starts at or after the position of the response starts at it: what lies
    before is in flight, and too far from it in the serial order. *)
Lemma data_position e h seq : ep_inv e h -> response_buf e <> [] ->
  (seq = highest_ack_received (connection e) \/ seq = first_not_sent (connection e)) ->
  seq_at_or_after seq (response_seq e) = true -> seq = response_seq e.
Proof.
  intros I Hne Hseq Hat. destruct (responding e h I Hne) as [_ Ef].
  pose proof (run_ok _ _ _ (ei_conn _ _ I)) as Hc. destruct Hseq as [->| ->]; [|done].
  destruct (run_window _ _ _ (ei_conn _ _ I)) as [W1 W2].
  assert (Hs : fin_slot (connection e) <= 1) by (unfold fin_slot; destruct (fin_sent _); lia).
  unfold flight in W2. rewrite Ef in W2. rewrite seq_at_or_after_spec in Hat.
  set (hi := highest_ack_received (connection e)) in *.
  destruct (Z.eq_dec (wsub 32 (response_seq e) hi) 0) as [E|E].
  - apply wsub_0 in E; [done|by apply response_seq_range with h|apply (co_highest _ Hc)].
  - pose proof (wsub_range32 (response_seq e) hi).
    rewrite (wsub_split_neg _ _ hi) in Hat by (rewrite wsub_self; lia). rewrite wsub_self in Hat.
    simpl Z.pow in Hat. lia.
Qed.

(** The state after a data segment. *)
Lemma data_sent_inv e h c n w seg :
  ep_inv e h -> response_buf e <> [] -> run arrives c (h_data h) -> write_frame (connection e) c ->
  0 < n <= slen (unsent e) -> in_range 16 w ->
  seg_is seg (response_seq e) (ack_to_send (connection e)) ACK w None (take (Z.to_nat n) (unsent e)) ->
  slen seg <= 65535 -> first_not_sent c = wadd 32 (response_seq e) n ->
  payload_len seg = Ret n /\ sequence_number seg = Ret (response_seq e) /\
  payload seg = Ret (take (Z.to_nat n) (unsent e)) /\
  ep_inv (ep_with_response (ep_with_connection e c) (response_buf e) (initial_response_seq e)
            (wadd 32 (response_seq e) (wrap 32 n))) (h_write h (Some seg)).
Proof.
  intros I Hne Hr F Hn Hw Hs Hl Ef. pose proof (run_ok _ _ _ (ei_conn _ _ I)) as Hc.
  assert (Et : slen (take (Z.to_nat n) (unsent e)) = n) by (unfold slen in *; rewrite length_take; lia).
  pose proof (seg_is_len _ _ _ _ _ _ _ Hs) as El. pose proof (mss_len_range None).
  destruct (seg_is_read _ _ _ _ _ _ _ Hs) as (E1 & _ & _ & _ & E5 & E6);
    [by apply response_seq_range with h|apply (co_ack _ Hc)|done|done|lia|]. rewrite Et in E6.
  split_and!; [done|done|done|]. destruct (responding e h I Hne) as [Efin _].
  set (k := wsub 32 (response_seq e) (initial_response_seq e)) in *.
  pose proof (wsub_range32 (response_seq e) (initial_response_seq e)) as Hk. fold k in Hk.
  assert (Hun : slen (unsent e) = slen (response_buf e) - k).
  { pose proof (ei_offset _ _ I) as Ho. fold k in Ho. unfold unsent. fold k. unfold slen in *. rewrite length_drop. lia. }
  destruct (ei_response _ _ I) as [Hrl _]. simpl Z.pow in Hrl.
  rewrite (wrap_id 32 n) by (unfold in_range; simpl Z.pow; lia).
  assert (Ek : wsub 32 (wadd 32 (response_seq e) n) (initial_response_seq e) = k + n).
  { rewrite wsub_add. fold k. apply wrap_id. unfold in_range. simpl Z.pow. lia. }
  unfold h_write, sent_payload. rewrite E5.
  destruct I. constructor; cbn [h_data h_asked h_sent]; ep_simpl; rewrite ?Ek; try done.
  - rewrite ei_answers0, <-app_assoc. f_equal. unfold unsent at 3. ep_simpl. rewrite Ek.
    rewrite <-(take_drop (Z.to_nat n) (unsent e)) at 1. f_equal. unfold unsent. fold k.
    rewrite drop_drop. f_equal. lia.
  - lia.
  - rewrite ei_seq0, wadd_assoc32, slen_app, Et. f_equal. lia.
  - rewrite (wf_send_fin _ _ F). intros Hx. by rewrite Efin in Hx.
  - intros f Hfr. rewrite (wf_ack _ _ F). apply ei_fin0. by rewrite <-(wf_fin_received _ _ F).
Qed.

(** The state after a segment without data, or after none. *)
Lemma no_data_inv e h c r : ep_inv e h -> run arrives c (h_data h) -> write_frame (connection e) c ->
  (send_fin (connection e) = None -> first_not_sent c = first_not_sent (connection e)) ->
  sent_payload r = [] -> ep_inv (ep_with_connection e c) (h_write h r).
Proof.
  intros I Hr F Hf Ep. unfold h_write. rewrite Ep, app_nil_r.
  destruct I. constructor; cbn [h_data h_asked h_sent]; ep_simpl; try done.
  - rewrite (wf_send_fin _ _ F). intros Es. rewrite Hf by done. by apply ei_first0.
  - by rewrite (wf_send_fin _ _ F), (wf_fin_received _ _ F).
  - intros f Hfr. rewrite (wf_ack _ _ F). apply ei_fin0. by rewrite <-(wf_fin_received _ _ F).
Qed.

Lemma ep_write_ok e h buf mr now : ep_inv e h -> bytes_ok buf -> slen buf <= 65535 -> 0 <= mr ->
  in_range 64 now -> rto_start (connection e) <= now ->
  exists r e' buf', ep_write_next_segment e buf mr now = Ret (r, e', buf') /\ ep_inv e' (h_write h r) /\
    forall seg p, r = Some seg -> payload seg = Ret p -> p <> [] ->
      sequence_number seg = Ret (response_seq e) /\ p `prefix_of` unsent e.
Proof.
  intros I Hb Hl Hm Hn Hclk. pose proof (run_ok _ _ _ (ei_conn _ _ I)) as Hc.
  pose proof (ep_write_args e h buf mr now I Hb Hl Hm Hn Hclk) as Ha.
  unfold ep_write_next_segment. rewrite (payload_source_ok e h I), bind_Ret.
  set (src := if bool_decide (response_buf e = []) then None else Some (unsent e, response_seq e)) in *.
  destruct (write_next_segment_ok (connection e) buf mr src now Hc Ha) as (r & c & buf' & E & W).
  rewrite E, bind_Ret. pose proof (run_write _ _ _ _ _ _ _ _ _ _ (ei_conn _ _ I) Ha E) as Hr.
  pose proof (w_frame _ _ _ _ _ _ _ W) as F. pose proof (w_effect _ _ _ _ _ _ _ W) as We.
  pose proof (ba_seg _ _ _ (w_buf _ _ _ _ _ _ _ W)) as Hbs.
  destruct We as [r c Hnone Ef _ _|seg c seq ack flags w m fin Hs H3 H4 H5 H6 _ Hfin
    |seg c rb ps seq n w fin Es Hseq Hps ae Hn0 Hrb Hae Haf _ Hfin Hs Hw Hfi _ _].
  - assert (I' : ep_inv (ep_with_connection e c) (h_write h None)) by (by apply no_data_inv).
    destruct r as [[seg|]|er]; [by destruct (Hnone seg)|..]; do 3 eexists; by split_and!.
  - destruct (seg_is_read _ _ _ _ _ _ _ Hs) as (_ & _ & _ & _ & E5 & E6); try done.
    rewrite E6, bind_Ret. change (slen []) with 0. change (wrap 32 0) with 0.
    do 3 eexists. split; [done|]. split; [|intros s p [= <-] Ep Hp; congruence].
    ep_simpl. replace (wadd 32 (response_seq e) 0) with (response_seq e).
    2: { unfold wadd. rewrite Z.add_0_r, wrap_id; [done|by apply response_seq_range with h]. }
    apply (no_data_inv e h c (Some seg) I Hr F); [|cbn; by rewrite E5].
    intros Esf. destruct fin; [|apply Hfin]. destruct Hfin as (Hfin & _ & _).
    unfold can_send_first_fin in Hfin. by rewrite Esf, andb_false_r in Hfin.
  - unfold src in Es. destruct (bool_decide_reflect (response_buf e = [])) as [|Hne]; [done|].
    injection Es as <- <-. destruct (responding e h I Hne) as [Efin Efirst].
    assert (Hq := data_position e h seq I Hne Hseq Hps). subst seq. rewrite Efin in Hfin.
    rewrite bool_decide_eq_false_2 in Hfin by done. subst fin.
    assert (Hl' : slen seg <= 65535) by (specialize (Hbs seg eq_refl); lia).
    assert (Ef' : first_not_sent c = wadd 32 (response_seq e) n).
    { rewrite Hfi. unfold sent_first. rewrite Efirst.
      assert (seq_after (wadd 32 (response_seq e) n) (response_seq e) = true) as ->; [|done].
      assert (Hn1 : n <= 65535).
      { rewrite (seg_is_len _ _ _ _ _ _ _ Hs) in Hl'. unfold slen in *. rewrite length_take in Hl'. simpl in Hl'. lia. }
      apply seq_after_spec; [apply wadd_range; lia|by apply response_seq_range with h|].
      rewrite wsub_add, wsub_self, wrap_id by (unfold in_range; simpl Z.pow; lia). lia. }
    destruct (data_sent_inv e h c n w seg I Hne Hr F Hn0 Hw Hs Hl' Ef') as (D1 & D2 & D3 & D4).
    rewrite D1, bind_Ret. do 3 eexists. split; [done|]. split; [done|].
    intros s p [= <-] Ep _. split; [done|]. assert (p = take (Z.to_nat n) (unsent e)) as -> by congruence.
    apply prefix_take.
Qed.

(** ** Every reachable state *)

Lemma Endpoint_new_inv s v threshold period count_max now e :
  views s v -> arrives s v -> in_range 64 period -> 0 < period -> 0 < count_max < 65536 ->
  in_range 32 isn -> Endpoint_new s threshold period count_max isn now = Done (Ok e) ->
  ep_inv e (mkHistory [] [] []).
Proof.
  intros V Ha Hp Hp0 Hm Hi E. unfold Endpoint_new in E.
  change (RCV_BUF_MAX_SIZE <=? MAX_WINDOW_SIZE) with true in E.
  apply bind_Done_inv in E as ([c|er] & Eo & E); [|done].
  destruct (passive_open_ok s v RCV_BUF_MAX_SIZE period count_max isn c V Hp Hp0 Hm Hi Eo)
    as (_ & _ & m & _ & Ec).
  assert (Hr : run arrives c []) by (by apply (run_open arrives s v RCV_BUF_MAX_SIZE period count_max isn)).
  assert (Ef : first_not_sent c = wadd 32 isn 1) by by rewrite Ec.
  assert (Es : send_fin c = None /\ fin_received c = None) by by rewrite Ec.
  assert (e = mkEndpoint (replicate (Z.to_nat RCV_BUF_MAX_SIZE) 0) 0 [] (first_not_sent c)
    (first_not_sent c) c now threshold false) as -> by congruence.
  destruct Es as [Es Efr].
  constructor; cbn [h_data h_asked h_sent]; ep_simpl; rewrite ?Es; try done.
  - unfold unsent. ep_simpl. by rewrite drop_nil.
  - by rewrite wsub_self.
  - by split; [|constructor].
  - rewrite Ef. apply wadd_range. lia.
  - intros f Ex. congruence.
Qed.

Lemma ep_run_inv e h : ep_run e h -> ep_inv e h.
Proof.
  induction 1 as [s v threshold period cm now e V Ha Hp Hp0 Hm Hi E|e h s v cb now e' _ IH V Ha Hcb Hn E
    |e h buf mr now r e' buf' _ IH Hb Hl Hm Hn Hclk E].
  - by eapply Endpoint_new_inv.
  - destruct (ep_receive_ok e h s v cb now Hcb IH V Ha Hn) as [E'|(e1 & E' & I)]; [congruence|].
    by assert (e1 = e') as -> by congruence.
  - destruct (ep_write_ok e h buf mr now IH Hb Hl Hm Hn Hclk) as (r1 & e1 & b1 & E' & I & _).
    by assert (e1 = e' /\ r1 = r) as [-> ->] by (split; congruence).
Qed.
End EndpointRuns.

(** C7: over any run of an endpoint with a peer that sends the bytes of [stream], however
    the network treats its segments, the data accepted is a prefix of the stream; it is
    the requests answered so far, each ending at its first empty line, followed by what
    waits in the buffer; and the answers to these requests, in their order, are the bytes
    sent so far followed by the part of the response that is still to be sent. *)
Theorem endpoint_pipeline `{Profile} `{HttpLaws} peer_isn stream isn e h :
  slen stream < 2 ^ 31 -> ep_run (from_stream peer_isn stream) isn e h ->
  h_data h `prefix_of` stream /\
  h_data h = concat (fst <$> h_asked h) ++ buffered e /\
  Forall (fun r => request_end r = Some (length r)) (fst <$> h_asked h) /\
  concat (snd <$> h_asked h) = h_sent h ++ unsent e.
Proof.
  intros Hs Hr. apply ep_run_inv in Hr. split; [|by destruct Hr].
  apply (run_in_order peer_isn stream (connection e) (h_data h) Hs (ei_conn _ _ _ _ Hr)).
Qed.

(** No call on an endpoint panics, in any state it can reach: the requests stay in
    the buffer of 2500 bytes, the response is cut within its length, and no assertion or
    arithmetic of [receive_segment] and [write_next_segment] fails, in both profiles. *)
Theorem endpoint_no_panic `{Profile} `{HttpLaws} isn e h : ep_run (fun _ _ => True) isn e h ->
  (forall s v callback now, views s v -> callback_ok callback -> in_range 64 now ->
     ep_receive_segment e s callback now <> Crash) /\
  (forall buf mr now, bytes_ok buf -> slen buf <= 65535 -> 0 <= mr -> in_range 64 now ->
     rto_start (connection e) <= now ->
     exists r e' buf', ep_write_next_segment e buf mr now = Ret (r, e', buf')) /\
  slen (receive_buf e) = RCV_BUF_MAX_SIZE /\ 0 <= receive_buf_left e <= RCV_BUF_MAX_SIZE.
Proof.
  intros Hr. apply ep_run_inv in Hr. split_and!; try apply Hr.
  - intros s v cb now V Hcb Hn E.
    destruct (ep_receive_ok _ _ e h s v cb now Hcb Hr V I Hn) as [E'|(e1 & E' & _)]; congruence.
  - intros buf mr now Hb Hl Hm Hn Hclk.
    destruct (ep_write_ok _ _ e h buf mr now Hr Hb Hl Hm Hn Hclk) as (r & e1 & b1 & E & _). eauto.
Qed.

(** A segment with data that an endpoint writes carries the bytes of the responses
    that follow all those sent before, at the sequence number that follows all those
    used before.  No byte is sent twice: a segment the network loses is never repeated. *)
Theorem response_never_resent `{Profile} `{HttpLaws} isn e h buf mr now seg e' buf' p :
  ep_run (fun _ _ => True) isn e h -> bytes_ok buf -> slen buf <= 65535 -> 0 <= mr ->
  in_range 64 now -> rto_start (connection e) <= now ->
  ep_write_next_segment e buf mr now = Ret (Some seg, e', buf') -> payload seg = Ret p -> p <> [] ->
  sequence_number seg = Ret (wadd 32 isn (1 + slen (h_sent h))) /\ p `prefix_of` unsent e.
Proof.
  intros Hr Hb Hl Hm Hn Hclk E Ep Hp. apply ep_run_inv in Hr.
  destruct (ep_write_ok _ _ e h buf mr now Hr Hb Hl Hm Hn Hclk) as (r & e1 & b1 & E' & _ & Hd).
  rewrite <-(ei_seq _ _ _ _ Hr). apply Hd; [congruence|done|done].
Qed.

(** ** What a duplicate acknowledgement does *)

Lemma choose_seq_dup `{Profile} c buf mr now again : conn_ok c -> in_range 64 now ->
  rto_start c <= now < rto_start c + rto_period c -> dup_ack c = true ->
  choose_seq c buf mr now again = Ret (inr (c, highest_ack_received c, false)).
Proof.
  intros Hc Hn Hclk Ed. unfold choose_seq, rto_expired. pose proof (co_start _ Hc).
  rewrite usub_ok, bind_Ret, (proj2 (Z.leb_gt _ _)) by (unfold in_range in *; lia).
  destruct (negb _); by rewrite bind_Ret, Ed.
Qed.

(** A duplicate ACK, which asks for the first segment in flight again, stalls the
    endpoint: as long as the retransmission timer has not expired, every call of
    [write_next_segment] returns nothing and changes nothing, so that the request to
    retransmit stays pending and [next_segment_status] keeps reporting that a segment is
    available. *)
Theorem dup_ack_stalls `{Profile} `{HttpLaws} isn e h buf mr now :
  ep_run (fun _ _ => True) isn e h -> response_buf e <> [] -> flight (connection e) <> 0 ->
  is_established (connection e) = true -> rst_pending (connection e) = false ->
  is_reset (connection e) = false -> dup_ack (connection e) = true ->
  in_range 64 now -> rto_start (connection e) <= now < rto_start (connection e) + rto_period (connection e) ->
  ep_write_next_segment e buf mr now = Ret (None, e, buf) /\ next_segment_status e = Ret Available.
Proof.
  intros Hr Hne Hfl Ee Ep Er Ed Hn Hclk. apply ep_run_inv in Hr. rename Hr into I.
  pose proof (run_ok _ _ _ (ei_conn _ _ _ _ I)) as Hc.
  split; [|unfold next_segment_status, dup_ack_pending; by rewrite Ed, orb_true_r].
  unfold ep_write_next_segment. rewrite (payload_source_ok _ _ e h I), bind_Ret.
  rewrite bool_decide_eq_false_2 by done. unfold write_next_segment. cbn [write_next_calls].
  unfold synack_pending. rewrite Er, Ep, Ee, (co_est _ Hc Ee), andb_false_r. cbn [negb].
  assert (Hneq : highest_ack_received (connection e) <> first_not_sent (connection e)).
  { intros Eq. apply Hfl. unfold flight. by rewrite Eq, wsub_self. }
  unfold write_data. destruct (MAX_WINDOW_SIZE <? slen (unsent e)); [by destruct e|].
  rewrite choose_seq_dup, bind_Ret by done.
  assert (seq_at_or_after (highest_ack_received (connection e)) (response_seq e) = false) as ->.
  { apply not_true_iff_false. intros Hat. apply Hneq.
    rewrite (data_position _ _ e h _ I Hne (or_introl eq_refl) Hat).
    symmetry. by apply (responding _ _ e h I). }
  cbn [negb]. by destruct e.
Qed.

(** ** A sample run

    The request of seven bytes is answered with a status line, of which the connection
    sends what fits a buffer of 30 bytes; then a duplicate ACK arrives. *)

#[local] Instance sample_http : Http := {|
  Request := list Z;
  Response := bool * list Z;
  Version := unit;
  default_version := tt;
  Request_try_from b := Ok b;
  error_to_string e := match e with HeaderError n => n | _ => [] end;
  http_version _ := tt;
  method _ := Get;
  get_abs_path _ := [];
  accept _ := ApplicationJson;
  custom_entries _ := ∅;
  unsupported_name n := HeaderError n;
  invalid_value n _ := HeaderError n;
  Response_new _ code := (bool_decide (code = OK), []);
  set_body r b := (r.1, b);
  set_content_type r _ := r;
  allow_method r _ := r;
  write_all r := (if r.1 : bool then [72; 84; 84; 80; 47; 49; 46; 49; 32; 50; 48; 48; 13; 10]
                  else [72; 84; 84; 80; 47; 49; 46; 49; 32; 52; 48; 48; 13; 10]) ++
                 map (fun x => x mod 256) r.2 |}.

#[local] Instance sample_http_laws : HttpLaws.
Proof.
  split.
  - by intros [[] b].
  - intros [c b]. apply Forall_app. split; [by destruct c; repeat constructor|]. apply Forall_map, Forall_true.
    intros x. unfold byte_ok, compose. pose proof (Z.mod_pos_bound x 256 ltac:(lia)). lia.
  - intros [] s. cbn [write_all sample_http Response_new fst snd map]. by destruct (bool_decide _).
  - intros [c b0] b. cbn [write_all sample_http set_body fst snd]. rewrite !slen_app. unfold slen. rewrite !length_map. lia.
  - intros r m. cbn [set_content_type sample_http]. lia.
  - intros r m. cbn [allow_method sample_http]. lia.
  - done.
  - intros b rq _. apply slen_nonneg.
  - intros b rq name value _ E. cbn [custom_entries sample_http] in E. by rewrite lookup_empty in E.
  - intros name. cbn. lia.
  - intros name value. cbn. pose proof (slen_nonneg value). lia.
Qed.

Definition sample_callback : Request -> Response := fun _ => (true, []).
Definition sample_answer : list Z := write_all (true, []).

Lemma sample_callback_ok : callback_ok sample_callback.
Proof. intros b rq _ _. done. Qed.

Definition sample_small : list Z := replicate 30 0.

Definition sample_endpoint (buf : list Z) (resp : list Z) (seq : Z) (c : Connection) (now : Z) : Endpoint :=
  mkEndpoint buf 0 resp 1001 seq c now 100000 false.
Definition sample_zeros : list Z := replicate 2500 0.
Definition sample_full : list Z := [71; 69; 84; 32; 47; 10; 10] ++ drop 7 sample_zeros.
Definition sample_shifted : list Z := drop 7 sample_full ++ drop 2493 sample_full.

Definition conn_after (o : exec (next_result * Connection * list Z)) : Connection :=
  match o with Ret (_, c, _) => c | Panic => sample_opened end.
Definition seg_after (o : exec (next_result * Connection * list Z)) : TcpSegment :=
  match o with Ret (Ok (Some s), _, _) => s | _ => [] end.
Definition buf_left (o : exec (next_result * Connection * list Z)) : list Z :=
  match o with Ret (_, _, b) => b | Panic => [] end.

(** The connection after the request, its window moved, after the first part of the
    response, and after the duplicate ACK. *)
Definition sample_requested : Connection :=
  Eval vm_compute in advance_local_rwnd_edge (conn_or sample_established
    (receive_segment (H := dev_profile) sample_established
       (sample_seg 5001 1001 ACK [71; 69; 84; 32; 47; 10; 10]) sample_buf 30)) 7.
Definition sample_write : exec (next_result * Connection * list Z) :=
  Eval vm_compute in
  write_next_segment (H := dev_profile) sample_requested sample_small 0 (Some (sample_answer, 1001)) 40.
Definition sample_open_write : exec (next_result * Connection * list Z) :=
  Eval vm_compute in write_next_segment (H := dev_profile) sample_opened sample_buf 0 None 10.
Definition sample_responded : Connection := Eval vm_compute in conn_after sample_write.
Definition sample_dup : Connection :=
  Eval vm_compute in conn_or sample_responded
    (receive_segment (H := dev_profile) sample_responded (sample_seg 5008 1001 ACK []) sample_buf 50).

Definition sample_ep_opened := sample_endpoint sample_zeros [] 1001 sample_opened 5.
Definition sample_ep_answered := sample_endpoint sample_zeros [] 1001 sample_answered 5.
Definition sample_ep_established := sample_endpoint sample_zeros [] 1001 sample_established 20.
Definition sample_ep_requested := sample_endpoint sample_shifted sample_answer 1001 sample_requested 30.
Definition sample_ep_responded := sample_endpoint sample_shifted sample_answer 1011 sample_responded 30.
Definition sample_ep_dup := sample_endpoint sample_shifted sample_answer 1011 sample_dup 50.

Definition sample_ep_received : Endpoint :=
  mkEndpoint sample_full 7 [] 1001 1001
    (with_local_edge sample_requested (wsub 32 (local_rwnd_edge sample_requested) 7)) 30 100000 false.

Lemma sample_take : take_request (H := dev_profile) sample_ep_received sample_callback = Ret sample_ep_requested.
Proof.
  unfold take_request. change (2 <? receive_buf_left sample_ep_received) with true. cbv iota.
  rewrite usub_ok, bind_Ret, find_end_buffer, bind_Ret by done.
  assert (request_end (take (Z.to_nat (receive_buf_left sample_ep_received)) (receive_buf sample_ep_received)) =
    Some 7%nat) as -> by reflexivity.
  cbn [fmap option_fmap option_map]. unfold answer_request. change (Z.of_nat 7) with 7.
  assert (subslice (receive_buf sample_ep_received) 0 7 = Ret [71; 69; 84; 32; 47; 10; 10]) as -> by reflexivity.
  rewrite bind_Ret. change (slen _ <? _) with true. cbv iota zeta.
  rewrite (usub_ok 64 (slen (receive_buf sample_ep_received))), bind_Ret by done.
  rewrite shift_down_spec, bind_Ret by done.
  rewrite (usub_ok 64 (receive_buf_left sample_ep_received)), bind_Ret by done.
  reflexivity.
Qed.

Lemma sample_process :
  ep_receive_segment (H := dev_profile) sample_ep_established
    (sample_seg 5001 1001 ACK [71; 69; 84; 32; 47; 10; 10]) sample_callback 30 = Done sample_ep_requested.
Proof.
  transitivity (lift (process_received (H := dev_profile) sample_ep_received sample_callback)); [reflexivity|].
  unfold process_received. change (clear_response sample_ep_received) with sample_ep_received.
  change (bool_decide (response_buf sample_ep_received = [])) with true. cbv iota zeta.
  rewrite sample_take, bind_Ret. reflexivity.
Qed.

Section SampleRun.
Variable arrives : TcpSegment -> view -> Prop.
Hypothesis Ha1 : arrives (sample_seg 5000 0 SYN []) (sample_view 5000 0 SYN []).
Hypothesis Ha2 : arrives (sample_seg 5001 1001 ACK []) (sample_view 5001 1001 ACK []).
Hypothesis Ha3 : arrives (sample_seg 5001 1001 ACK [71; 69; 84; 32; 47; 10; 10])
  (sample_view 5001 1001 ACK [71; 69; 84; 32; 47; 10; 10]).
Hypothesis Ha4 : arrives (sample_seg 5008 1001 ACK []) (sample_view 5008 1001 ACK []).

Abbreviation sample_history sent :=
  (mkHistory [71; 69; 84; 32; 47; 10; 10] [([71; 69; 84; 32; 47; 10; 10], sample_answer)] sent).

Lemma sample_ep_run :
  ep_run (H := dev_profile) arrives 1000 sample_ep_requested (sample_history []) /\
  ep_run (H := dev_profile) arrives 1000 sample_ep_dup (sample_history (take 10 sample_answer)).
Proof.
  assert (R0 : ep_run (H := dev_profile) arrives 1000 sample_ep_opened (mkHistory [] [] [])).
  { apply (er_new (H := dev_profile) arrives 1000 (sample_seg 5000 0 SYN []) (sample_view 5000 0 SYN [])
      100000 1200 3 5); [sample_segment|exact Ha1|done|done|done|done|reflexivity]. }
  assert (R1 : ep_run (H := dev_profile) arrives 1000 sample_ep_answered (mkHistory [] [] [])).
  { apply (er_write (H := dev_profile) arrives 1000 sample_ep_opened (mkHistory [] [] []) sample_buf 0 10
      (Some (seg_after sample_open_write)) sample_ep_answered (buf_left sample_open_write));
      [exact R0|by repeat constructor|done|done|done|done|reflexivity]. }
  assert (R2 : ep_run (H := dev_profile) arrives 1000 sample_ep_established (mkHistory [] [] [])).
  { apply (er_receive (H := dev_profile) arrives 1000 sample_ep_answered (mkHistory [] [] [])
      (sample_seg 5001 1001 ACK []) (sample_view 5001 1001 ACK []) sample_callback 20);
      [exact R1|sample_segment|exact Ha2|exact sample_callback_ok|done|reflexivity]. }
  assert (R3 : ep_run (H := dev_profile) arrives 1000 sample_ep_requested (sample_history [])).
  { apply (er_receive (H := dev_profile) arrives 1000 sample_ep_established (mkHistory [] [] [])
      (sample_seg 5001 1001 ACK [71; 69; 84; 32; 47; 10; 10])
      (sample_view 5001 1001 ACK [71; 69; 84; 32; 47; 10; 10]) sample_callback 30);
      [exact R2|sample_segment|exact Ha3|exact sample_callback_ok|done|apply sample_process]. }
  split; [exact R3|].
  assert (R4 : ep_run (H := dev_profile) arrives 1000 sample_ep_responded (sample_history (take 10 sample_answer))).
  { apply (er_write (H := dev_profile) arrives 1000 sample_ep_requested (sample_history []) sample_small 0 40
      (Some (seg_after sample_write)) sample_ep_responded (buf_left sample_write));
      [exact R3|by repeat constructor|done|done|done|done|reflexivity]. }
  apply (er_receive (H := dev_profile) arrives 1000 sample_ep_responded (sample_history (take 10 sample_answer))
    (sample_seg 5008 1001 ACK []) (sample_view 5008 1001 ACK []) sample_callback 50);
    [exact R4|sample_segment|exact Ha4|exact sample_callback_ok|done|reflexivity].
Qed.
End SampleRun.

Lemma endpoint_pipeline_witness :
  [71; 69; 84; 32; 47; 10; 10] `prefix_of` [71; 69; 84; 32; 47; 10; 10; 71; 69] /\
  concat [sample_answer] = take 10 sample_answer ++ unsent sample_ep_dup.
Proof.
  destruct (endpoint_pipeline (H := dev_profile) 5000 [71; 69; 84; 32; 47; 10; 10; 71; 69] 1000 sample_ep_dup
    (mkHistory [71; 69; 84; 32; 47; 10; 10] [([71; 69; 84; 32; 47; 10; 10], sample_answer)]
       (take 10 sample_answer))) as (H1 & _ & _ & H2).
  - done.
  - apply sample_ep_run; (split; [done|]); [by left|by left|right; exists 0; by split_and!|by left].
  - split; [exact H1|exact H2].
Defined.

Lemma endpoint_no_panic_witness :
  ep_receive_segment (H := dev_profile) sample_ep_dup (sample_seg 5008 1001 ACK []) sample_callback 60 <> Crash.
Proof.
  apply (endpoint_no_panic (H := dev_profile) 1000 sample_ep_dup
    (mkHistory [71; 69; 84; 32; 47; 10; 10] [([71; 69; 84; 32; 47; 10; 10], sample_answer)]
       (take 10 sample_answer)) ltac:(by apply sample_ep_run)) with (sample_view 5008 1001 ACK []);
    [sample_segment|exact sample_callback_ok|done].
Defined.

Lemma response_never_resent_witness :
  sequence_number (seg_after sample_write) = Ret (wadd 32 1000 1) /\
  [72; 84; 84; 80; 47; 49; 46; 49; 32; 50] `prefix_of` unsent sample_ep_requested.
Proof.
  apply (response_never_resent (H := dev_profile) 1000 sample_ep_requested
    (mkHistory [71; 69; 84; 32; 47; 10; 10] [([71; 69; 84; 32; 47; 10; 10], sample_answer)] [])
    sample_small 0 40 (seg_after sample_write) sample_ep_responded (buf_left sample_write)).
  - by apply sample_ep_run.
  - by repeat constructor.
  - done.
  - done.
  - done.
  - done.
  - reflexivity.
  - reflexivity.
  - done.
Defined.

Lemma dup_ack_stalls_witness :
  ep_write_next_segment (H := dev_profile) sample_ep_dup sample_small 0 60 = Ret (None, sample_ep_dup, sample_small) /\
  next_segment_status (H := dev_profile) sample_ep_dup = Ret Available.
Proof.
  apply (dup_ack_stalls (H := dev_profile) 1000 sample_ep_dup
    (mkHistory [71; 69; 84; 32; 47; 10; 10] [([71; 69; 84; 32; 47; 10; 10], sample_answer)]
       (take 10 sample_answer))).
  - by apply sample_ep_run.
  - done.
  - done.
  - done.
  - done.
  - done.
  - done.
  - done.
  - cbn. lia.
Defined.
