(* ===== verification/TcpHandler.v ===== *)
(** * The TCP over IPv4 listener

    Models [dumbo/src/tcp/handler.rs].  The hash map of endpoints and the hash set of
    the active ones are a [gmap] and a [gset]; the order in which the code iterates over
    them, which Rust leaves open, is given by an [Order].  A call reads the clock several
    times: [clock i] is its [i]-th reading.

    - the sets and the pending timeout name existing connections, so that no lookup the
      code unwraps fails, and the numbers of connections and of queued RSTs stay within
      their limits ([handler_safe]);
    - a segment that belongs to no connection is answered with a RST that the sender
      can parse ([unexpected_segment_reset]). *)

From Stdlib Require Import ZArith Lia.
From stdpp Require Import functions prelude gmap.
From S2P Require Import Prelude NetBytes PduLink PduIpv4 PduTcp TcpConnection TcpStream TcpWindow Http TcpEndpoint.

(** A connection is known by the address and the port of its peer. *)
Definition ConnectionTuple : Type := Z * Z.
Definition remote_addr (t : ConnectionTuple) : Z := t.1.
Definition remote_port (t : ConnectionTuple) : Z := t.2.

Definition ConnectionTuple_new (addr port : Z) : ConnectionTuple := (addr, port).

Inductive RecvEvent :=
| RecvEndpointDone | FailedNewConnection | NewConnectionSuccessful | NewConnectionDropped
| NewConnectionReplacing | RecvNothing | UnexpectedSegment.
Inductive WriteEvent := WriteEndpointDone | WriteNothing.
Inductive HandlerRecvError := InvalidPort | RecvTcpSegment (e : TcpError).
Inductive HandlerWriteError := WriteIPv4Packet (e : IPv4Error) | WriteTcpSegment (e : TcpError).

Record TcpIPv4Handler := mkHandler {
  local_ipv4_addr : Z;
  local_port : Z;
  connections : gmap ConnectionTuple Endpoint;
  max_connections : Z;
  active_connections : gset ConnectionTuple;
  next_timeout : option (Z * ConnectionTuple);
  rst_queue : list (ConnectionTuple * RstConfig);
  max_pending_resets : Z }.

Definition with_connections (h : TcpIPv4Handler) v :=
  mkHandler (local_ipv4_addr h) (local_port h) v (max_connections h) (active_connections h)
    (next_timeout h) (rst_queue h) (max_pending_resets h).
Definition with_active (h : TcpIPv4Handler) v :=
  mkHandler (local_ipv4_addr h) (local_port h) (connections h) (max_connections h) v
    (next_timeout h) (rst_queue h) (max_pending_resets h).
Definition with_next_timeout (h : TcpIPv4Handler) v :=
  mkHandler (local_ipv4_addr h) (local_port h) (connections h) (max_connections h) (active_connections h)
    v (rst_queue h) (max_pending_resets h).
Definition with_rst_queue (h : TcpIPv4Handler) v :=
  mkHandler (local_ipv4_addr h) (local_port h) (connections h) (max_connections h) (active_connections h)
    (next_timeout h) v (max_pending_resets h).

Definition TcpIPv4Handler_new (addr port max_conn max_resets : Z) : TcpIPv4Handler :=
  mkHandler addr port ∅ max_conn ∅ None [] max_resets.
Definition set_local_ipv4_addr (h : TcpIPv4Handler) (addr : Z) : TcpIPv4Handler :=
  mkHandler addr (local_port h) (connections h) (max_connections h) (active_connections h)
    (next_timeout h) (rst_queue h) (max_pending_resets h).

(** The iteration orders during one call: every element once. *)
Record Order := mkOrder {
  iter_connections : gmap ConnectionTuple Endpoint -> list (ConnectionTuple * Endpoint);
  iter_active : gset ConnectionTuple -> list ConnectionTuple;
  iter_connections_perm : forall m, iter_connections m ≡ₚ map_to_list m;
  iter_active_perm : forall s, iter_active s ≡ₚ elements s }.

Section Handlers.
Context `{Profile} `{Http}.
Variable o : Order.

(** ** Timeouts and activity *)

Definition check_timeout (h : TcpIPv4Handler) (value : Z) (tuple : ConnectionTuple) : TcpIPv4Handler :=
  match next_timeout h with
  | Some (t, _) => if value <? t then with_next_timeout h (Some (value, tuple)) else h
  | None => with_next_timeout h (Some (value, tuple))
  end.

Fixpoint find_timeout_loop (l : list (ConnectionTuple * Endpoint)) (next : option (Z * ConnectionTuple))
    : exec (option (Z * ConnectionTuple)) :=
  match l with
  | [] => Ret next
  | (tuple, endpoint) :: l =>
      status ← next_segment_status endpoint;
      find_timeout_loop l
        match status with
        | Timeout value =>
            match next with
            | Some (t, _) => if value <? t then Some (value, tuple) else next
            | None => Some (value, tuple)
            end
        | _ => next
        end
  end.

Definition find_next_timeout (h : TcpIPv4Handler) : exec TcpIPv4Handler :=
  next ← find_timeout_loop (iter_connections o (connections h)) None;
  Ret (with_next_timeout h next).

(** The timeout that is remembered is searched again when it is of this connection. *)
Definition refresh_timeout (h : TcpIPv4Handler) (tuple : ConnectionTuple) : exec TcpIPv4Handler :=
  match next_timeout h with
  | Some (_, timeout_tuple) => if bool_decide (tuple = timeout_tuple) then find_next_timeout h else Ret h
  | None => Ret h
  end.

Definition check_next_segment_status (h : TcpIPv4Handler) (tuple : ConnectionTuple) (status : NextSegmentStatus)
    : exec (bool * TcpIPv4Handler) :=
  h ← refresh_timeout h tuple;
  Ret match status with
      | Available => (true, with_active h ({[ tuple ]} ∪ active_connections h))
      | Timeout value => (false, check_timeout h value tuple)
      | Nothing => (false, h)
      end.

(** The status is checked, and a connection with nothing to send is not active. *)
Definition update_status (h : TcpIPv4Handler) (tuple : ConnectionTuple) (status : NextSegmentStatus)
    : exec TcpIPv4Handler :=
  r ← check_next_segment_status h tuple status;
  Ret (if r.1 : bool then r.2 else with_active r.2 (active_connections r.2 ∖ {[ tuple ]})).

Definition add_connection (h : TcpIPv4Handler) (tuple : ConnectionTuple) (endpoint : Endpoint)
    : exec TcpIPv4Handler :=
  status ← next_segment_status endpoint;
  r ← check_next_segment_status h tuple status;
  Ret (with_connections r.2 (<[tuple := endpoint]> (connections r.2))).

Definition remove_connection (h : TcpIPv4Handler) (tuple : ConnectionTuple) : exec TcpIPv4Handler :=
  let h := with_active h (active_connections h ∖ {[ tuple ]}) in
  let h := with_connections h (delete tuple (connections h)) in
  refresh_timeout h tuple.

(** [clock i] is read for the [i]-th connection. *)
Fixpoint find_evictable_loop (l : list (ConnectionTuple * Endpoint)) (clock : nat -> Z) (i : nat)
    : option ConnectionTuple :=
  match l with
  | [] => None
  | (tuple, endpoint) :: l =>
      if ep_is_evictable endpoint (clock i) then Some tuple else find_evictable_loop l clock (S i)
  end.
Definition find_evictable_connection (h : TcpIPv4Handler) (clock : nat -> Z) : option ConnectionTuple :=
  find_evictable_loop (iter_connections o (connections h)) clock 1.

Definition enqueue_rst_config (h : TcpIPv4Handler) (tuple : ConnectionTuple) (cfg : RstConfig)
    : TcpIPv4Handler :=
  if Z.of_nat (length (rst_queue h)) <? max_pending_resets h
  then with_rst_queue h (rst_queue h ++ [(tuple, cfg)]) else h.
Definition enqueue_rst (h : TcpIPv4Handler) (tuple : ConnectionTuple) (s : TcpSegment) : exec TcpIPv4Handler :=
  cfg ← RstConfig_new s; Ret (enqueue_rst_config h tuple cfg).

(** ** Receiving *)

(** A segment of an existing connection. *)
Definition receive_known (h : TcpIPv4Handler) (tuple : ConnectionTuple) (endpoint : Endpoint)
    (segment : TcpSegment) (callback : Request -> Response) (now : Z)
    : outcome (result RecvEvent HandlerRecvError * TcpIPv4Handler) :=
  endpoint ← ep_receive_segment endpoint segment callback now;
  let h := with_connections h (<[tuple := endpoint]> (connections h)) in
  if ep_is_done endpoint then
    h ← lift (remove_connection h tuple);
    Done (Ok RecvEndpointDone, h)
  else
    status ← lift (next_segment_status endpoint);
    h ← lift (update_status h tuple status);
    Done (Ok RecvNothing, h).

(** A SYN from a peer that has no connection. *)
Definition receive_syn (h : TcpIPv4Handler) (tuple : ConnectionTuple) (segment : TcpSegment)
    (isn : Z) (clock : nat -> Z) : outcome (result RecvEvent HandlerRecvError * TcpIPv4Handler) :=
  r ← Endpoint_new_with_defaults segment isn (clock 0%nat);
  match r with
  | Err _ => Done (Ok FailedNewConnection, h)
  | Ok endpoint =>
      if max_connections h <=? Z.of_nat (size (connections h)) then
        match find_evictable_connection h clock with
        | Some evict_tuple =>
            evicted ← lift (unwrap (connections h !! evict_tuple));
            let h := enqueue_rst_config h evict_tuple (make_rst_config (connection evicted)) in
            h ← lift (remove_connection h evict_tuple);
            h ← lift (add_connection h tuple endpoint);
            Done (Ok NewConnectionReplacing, h)
        | None =>
            h ← lift (enqueue_rst h tuple segment);
            Done (Ok NewConnectionDropped, h)
        end
      else
        h ← lift (add_connection h tuple endpoint);
        Done (Ok NewConnectionSuccessful, h)
  end.

Definition receive_packet (h : TcpIPv4Handler) (packet : IPv4Packet) (callback : Request -> Response)
    (isn : Z) (clock : nat -> Z) : outcome (result RecvEvent HandlerRecvError * TcpIPv4Handler) :=
  bytes ← lift (ip_payload packet);
  r ← lift (tcp_from_bytes bytes None);
  match r with
  | Err e => Done (Err (RecvTcpSegment e), h)
  | Ok segment =>
      dport ← lift (destination_port segment);
      if negb (dport =? local_port h) then Done (Err InvalidPort, h)
      else
        src ← lift (ip_source_address packet);
        sport ← lift (source_port segment);
        let tuple := ConnectionTuple_new src sport in
        match connections h !! tuple with
        | Some endpoint => receive_known h tuple endpoint segment callback (clock 0%nat)
        | None =>
            flags ← lift (flags_after_ns segment);
            if flags =? SYN then receive_syn h tuple segment isn clock
            else
              h ← lift (if negb (intersects flags RST) then enqueue_rst h tuple segment else Ret h);
              Done (Ok UnexpectedSegment, h)
        end
  end.

(** ** Writing *)

(** The packet a segment is sent in: ports, checksum, addresses and lengths are filled
    in, and the result is the length of the packet at the front of the buffer. [head] is
    the IP header, [body] what follows it in the buffer. *)
Definition finish_packet (h : TcpIPv4Handler) (tuple : ConnectionTuple) (head body : list Z)
    (segment : TcpSegment) : exec (Z * list Z) :=
  segment ← tcp_finalize segment (local_port h) (remote_port tuple)
              (Some (local_ipv4_addr h, remote_addr tuple));
  p ← ip_set_source_address (head ++ write_back body segment) (local_ipv4_addr h);
  p ← ip_set_destination_address p (remote_addr tuple);
  q ← ip_with_payload_len_unchecked p (slen segment) true;
  if slen q =? 0 then Panic else Ret (slen q, write_back p q).

(** The endpoints are asked in turn until one has a segment. *)
Fixpoint write_loop (tuples : list ConnectionTuple) (h : TcpIPv4Handler) (head body : list Z)
    (clock : nat -> Z) (i : nat)
    : exec (option (Z * ConnectionTuple * bool) * TcpIPv4Handler * list Z) :=
  match tuples with
  | [] => Ret (None, h, head ++ body)
  | tuple :: tuples =>
      endpoint ← unwrap (connections h !! tuple);
      w ← ep_write_next_segment endpoint body 0 (clock i);
      let '(r, endpoint, body) := w : option TcpSegment * Endpoint * list Z in
      let h := with_connections h (<[tuple := endpoint]> (connections h)) in
      match r with
      | None => write_loop tuples h head body clock (S i)
      | Some segment =>
          f ← finish_packet h tuple head body segment;
          Ret (Some (f.1, tuple, ep_is_done endpoint), h, f.2)
      end
  end.

Definition handler_write_result : Type := result (option Z * WriteEvent) HandlerWriteError.

(** A RST from the queue. *)
Definition write_rst (h : TcpIPv4Handler) (tuple : ConnectionTuple) (cfg : RstConfig) (head body : list Z)
    : exec (handler_write_result * TcpIPv4Handler * list Z) :=
  let '(seq, ack, flags_after_ns) := seq_ack_tcp_flags cfg in
  r ← write_incomplete_segment body seq ack flags_after_ns 10000 None 0 None;
  match r with
  | (Err e, body) => Ret (Err (WriteTcpSegment e), h, head ++ body)
  | (Ok segment, body) =>
      f ← finish_packet h tuple head body segment;
      Ret (Ok (Some f.1, WriteNothing), h, f.2)
  end.

(** What the connection that wrote needs next. *)
Definition after_write (h : TcpIPv4Handler) (tuple : ConnectionTuple) (is_done : bool)
    : exec (WriteEvent * TcpIPv4Handler) :=
  if is_done then h ← remove_connection h tuple; Ret (WriteEndpointDone, h)
  else
    endpoint ← unwrap (connections h !! tuple);
    status ← next_segment_status endpoint;
    h ← update_status h tuple status;
    Ret (WriteNothing, h).

Definition LOCALHOST : Z := 0x7f000001.

(** [Vec::pop]. *)
Definition pop_rst (h : TcpIPv4Handler) : option (ConnectionTuple * RstConfig * TcpIPv4Handler) :=
  match reverse (rst_queue h) with
  | [] => None
  | (tuple, cfg) :: rest => Some (tuple, cfg, with_rst_queue h (reverse rest))
  end.

Definition write_next_packet (h : TcpIPv4Handler) (buf : list Z) (clock : nat -> Z)
    : exec (handler_write_result * TcpIPv4Handler * list Z) :=
  r ← ip_write_header buf PROTOCOL_TCP LOCALHOST LOCALHOST;
  match r with
  | Err e => Ret (Err (WriteIPv4Packet e), h, buf)
  | Ok packet =>
      header_len ← ip_header_len packet;
      parts ← split_at packet header_len;
      match pop_rst h with
      | Some (tuple, cfg, h) => write_rst h tuple cfg parts.1 parts.2
      | None =>
          w ← write_loop (iter_active o (active_connections h) ++
                            match next_timeout h with Some (_, t) => [t] | None => [] end)
                h parts.1 parts.2 clock 0;
          let '(written, h, buf) := w : option (Z * ConnectionTuple * bool) * TcpIPv4Handler * list Z in
          match written with
          | None => Ret (Ok (None, WriteNothing), h, buf)
          | Some (len, tuple, is_done) =>
              a ← after_write h tuple is_done;
              Ret (Ok (Some len, a.1), a.2, buf)
          end
      end
  end.

Definition handler_next_segment_status (h : TcpIPv4Handler) : NextSegmentStatus :=
  if negb (bool_decide (active_connections h = ∅)) || negb (bool_decide (rst_queue h = [])) then Available
  else match next_timeout h with Some (value, _) => Timeout value | None => Nothing end.
End Handlers.

(** ** The retransmission timer *)

(** A call leaves the timer alone or starts it [now]. *)
Record timer (now : Z) (c c' : Connection) : Prop := {
  tm_period : rto_period c' = rto_period c;
  tm_start : rto_start c' = rto_start c \/ rto_start c' = now
}.

#[export] Instance timer_preorder now : PreOrder (timer now).
Proof.
  split; [intros c; by split; [|left]|]. intros a b c [H1 H2] [H3 H4]. split; [congruence|].
  destruct H4 as [->|]; [done|by right].
Qed.

Ltac timer_tac := split; conn_simpl; auto.

Section Timers.
Context `{Profile}.
Variable now : Z.

Lemma same_window_timer c c' : same_window c c' -> timer now c c'.
Proof. intros [_ _ _ _ Hs Hp]. split; auto. Qed.

Lemma recv_window_timer c ack w g : timer now c (recv_window c ack w g).1.
Proof. unfold recv_window. bool_cases; cbn [fst]; timer_tac. Qed.

Lemma recv_ack_timer c s f x : recv_ack c s f now = Ret x ->
  match x with inl (_, c') => timer now c c' | inr (c', _) => timer now c c' end.
Proof.
  intros E. unfold recv_ack in E. destruct (intersects f ACK); [|by injection E as <-].
  apply bind_Ret_inv in E as (ack & _ & E).
  assert (Hh : forall c1, timer now c c1 -> (r ← reset_for_segment_helper c1 s INVALID_ACK; Ret (inl r)) = Ret x ->
    match x with inl (_, c') => timer now c c' | inr (c', _) => timer now c c' end).
  { intros c1 Hc1 Eh. apply bind_Ret_inv in Eh as ([r c'] & Eh & Ex). injection Ex as <-.
    apply helper_window, same_window_timer in Eh. by etrans. }
  assert (Hw : forall c1 w g, timer now c c1 -> Ret (inr (recv_window c1 ack w g)) = Ret x ->
    match x with inl (_, c') => timer now c c' | inr (c', _) => timer now c c' end).
  { intros c1 w g Hc1 Ex. injection Ex as <-. pose proof (recv_window_timer c1 ack w g) as Ht.
    destruct (recv_window c1 ack w g) as [c2 g2]. by etrans. }
  destruct (_ && _).
  - destruct (_ && _).
    + destruct (negb _); [apply (Hh (with_rto_count c 0)); [timer_tac|done]|].
      apply bind_Ret_inv in E as (w & _ & E). apply Hw in E; [done|timer_tac].
    + assert (Ht : timer now c (recv_new_ack (with_rto_count c 0) ack now)).
      { unfold recv_new_ack. bool_cases; timer_tac. }
      destruct (is_established _); [|by injection E as <-].
      apply bind_Ret_inv in E as (w & _ & E). by apply Hw in E.
  - destruct (negb _); [by apply (Hh c)|by injection E as <-].
Qed.

Lemma receive_timer c s v buf r c' buf' : views s v ->
  receive_segment c s buf now = Done (r, c', buf') -> timer now c c'.
Proof.
  intros V E. unfold receive_segment in E. destruct (rst_pending c || is_reset c); [by injection E as _ <- _|].
  rewrite (vs_flags _ _ V), (vs_seq _ _ V), (vs_payload_len _ _ V) in E. cbn [lift] in E.
  rewrite !bind_Done in E. destruct (intersects (v_flags v) RST).
  { destruct (_ && _); injection E as _ <- _; [timer_tac|done]. }
  apply bind_Done_inv in E as (h & Eh & E). apply handshake_window in Eh. destruct h as [[r1 c1]|[]].
  { injection E as _ <- _. by apply same_window_timer. }
  apply bind_Done_inv in E as (a & Ea & E). apply lift_Done_inv, recv_ack_timer in Ea.
  destruct a as [[r1 c1]|[c1 g]]; [by injection E as _ <- _|].
  destruct (negb _); [by injection E as _ <- _|].
  apply lift_Done_inv, payload_window, same_window_timer in E. by etrans.
Qed.

(** ** The timer of an endpoint *)

Context `{HttpLaws}.

Lemma process_timer e callback e' : process_received e callback = Ret e' ->
  timer now (connection e) (connection e').
Proof.
  unfold process_received. assert (Ec : connection (clear_response e) = connection e).
  { unfold clear_response. by destruct (_ && _). }
  rewrite <-Ec. set (e1 := clear_response e). clearbody e1. clear Ec e.
  assert (Hclose : forall e2, timer now (connection e2) (connection (close_if_finished e2))).
  { intros e2. unfold close_if_finished, close. destruct (_ && _); [|done].
    ep_simpl. destruct (send_fin _); [done|timer_tac]. }
  intros E. destruct (bool_decide _); [|injection E as <-; apply Hclose].
  apply bind_Ret_inv in E as (e2 & Et & E).
  assert (Ht : timer now (connection e1) (connection e2)).
  { unfold take_request, answer_request in Et. destruct (2 <? _); [|by injection Et as <-].
    apply bind_Ret_inv in Et as (n & _ & Et). apply bind_Ret_inv in Et as ([x|] & _ & Et); [|by injection Et as <-].
    apply bind_Ret_inv in Et as (rq & _ & Et). destruct (_ <? _); [|done].
    apply bind_Ret_inv in Et as (m & _ & Et). apply bind_Ret_inv in Et as (b & _ & Et).
    apply bind_Ret_inv in Et as (l & _ & Et). injection Et as <-. ep_simpl.
    unfold advance_local_rwnd_edge. bool_cases; timer_tac. }
  etrans; [exact Ht|]. destruct (_ =? _); injection E as <-; [|apply Hclose].
  ep_simpl. unfold reset. destruct (rst_pending _); [done|timer_tac].
Qed.

Lemma ep_receive_timer e s v callback e' : views s v ->
  ep_receive_segment e s callback now = Done e' -> timer now (connection e) (connection e').
Proof.
  intros V E. unfold ep_receive_segment in E. destruct (stop_receiving e); [by injection E as <-|].
  apply bind_Done_inv in E as (tail & _ & E). apply bind_Done_inv in E as ([[r c] t] & Er & E).
  apply receive_timer with (v := v) in Er; [|done]. ep_simpl. destruct r as [[value status]|er]; [|by injection E as <-].
  destruct (_ && _); [by injection E as <-|]. apply bind_Done_inv in E as (e1 & E1 & E).
  apply lift_Done_inv, process_timer in E. assert (Ec : connection e1 = c).
  { destruct value; [|by injection E1 as <-]. apply bind_Done_inv in E1 as (l & _ & E1). by injection E1 as <-. }
  rewrite Ec in E. by etrans.
Qed.
End Timers.

(** ** What an endpoint writes *)

(** A segment the way [seg_is] describes it, with its numbers in range. *)
Record seg_fields (seg : TcpSegment) : Type := mkSegFields {
  sg_seq : Z; sg_ack : Z; sg_flags : Z; sg_window : Z; sg_mss : option Z; sg_data : list Z;
  sg_is : seg_is seg sg_seq sg_ack sg_flags sg_window sg_mss sg_data;
  sg_seq_range : in_range 32 sg_seq; sg_ack_range : in_range 32 sg_ack;
  sg_flags_range : byte_ok sg_flags; sg_window_range : in_range 16 sg_window;
  sg_data_bytes : bytes_ok sg_data
}.

Record ep_written (now : Z) (e : Endpoint) (buf : list Z) (r : option TcpSegment) (e' : Endpoint)
    (buf' : list Z) : Prop := {
  ew_len : slen buf' = slen buf;
  ew_bytes : bytes_ok buf';
  ew_timer : timer now (connection e) (connection e');
  ew_seg : forall seg, r = Some seg -> slen seg <= slen buf /\ inhabited (seg_fields seg)
}.

Lemma write_effect_fields c src r c' seg : conn_ok c -> write_effect c src r c' -> r = Ok (Some seg) ->
  (forall rb ps, src = Some (rb, ps) -> bytes_ok rb) -> inhabited (seg_fields seg).
Proof.
  intros Hc W E Hsrc. destruct W as [r c' Hn|sg c' seq ack flags w m fin Hs H1 H2 H3 H4 _ _
    |sg c' rb ps seq n w fin Es Hseq _ ae _ _ _ _ _ _ Hs Hw _ _ _].
  - by apply Hn in E.
  - injection E as ->. constructor. exists seq ack flags w m []; try done. constructor.
  - injection E as ->. constructor.
    exists seq (ack_to_send c) (if fin then Z.lor ACK FIN else ACK) w None (take (Z.to_nat n) rb); try done.
    + destruct Hseq as [->| ->]; [apply (co_highest _ Hc)|apply (co_first _ Hc)].
    + apply (co_ack _ Hc).
    + by destruct fin.
    + apply Forall_take. by eapply Hsrc.
Qed.

Lemma ep_write_written `{Profile} `{HttpLaws} arrives isn e g buf mr now r e' buf' :
  ep_inv arrives isn e g -> bytes_ok buf -> slen buf <= 65535 -> 0 <= mr -> in_range 64 now ->
  rto_start (connection e) <= now ->
  ep_write_next_segment e buf mr now = Ret (r, e', buf') -> ep_written now e buf r e' buf'.
Proof.
  intros I Hb Hl Hm Hn Hclk E. pose proof (run_ok _ _ _ (ei_conn _ _ _ _ I)) as Hc.
  pose proof (ep_write_args _ _ e g buf mr now I Hb Hl Hm Hn Hclk) as Ha.
  unfold ep_write_next_segment in E. rewrite (payload_source_ok _ _ e g I), bind_Ret in E.
  set (src := if bool_decide (response_buf e = []) then None else Some (unsent e, response_seq e)) in *.
  destruct (write_next_segment_ok (connection e) buf mr src now Hc Ha) as (r1 & c & b1 & E1 & W).
  rewrite E1, bind_Ret in E. destruct W as [Wc Wf [B1 B2 B3] Ws We].
  assert (Ht : timer now (connection e) c) by (split; [apply (wf_period _ _ Wf)|done]).
  assert (Hx : b1 = buf' /\ connection e' = c /\ forall seg, r = Some seg -> r1 = Ok (Some seg)).
  { destruct r1 as [[seg|]|er].
    - apply bind_Ret_inv in E as (n & _ & E). injection E as <- <- <-. split_and!; [done|done|].
      by intros s [= <-].
    - by injection E as <- <- <-.
    - by injection E as <- <- <-. }
  destruct Hx as (-> & Ec & Hseg). constructor; [done|done|by rewrite Ec|].
  intros seg Er. specialize (Hseg seg Er). subst r1. split; [by apply B3|].
  apply (write_effect_fields (connection e) src (Ok (Some seg)) c); [done|done|done|]. intros rb ps Es. by apply (wa_src _ _ _ _ _ Ha rb ps).
Qed.

(** ** The packets the handler writes *)

(** [q] is an IPv4 packet with valid checksums that carries a TCP segment from the
    handler to the peer. *)
Record packet_for (addr port : Z) (tuple : ConnectionTuple) (q : list Z) (seq ack flags : Z) (data : list Z)
    `{Profile} : Prop := {
  pf_ip : ip_from_bytes q true = Ret (Ok q);
  pf_src : ip_source_address q = Ret addr;
  pf_dst : ip_destination_address q = Ret (remote_addr tuple);
  pf_protocol : ip_protocol q = Ret PROTOCOL_TCP;
  pf_tcp : exists s, ip_payload q = Ret s /\ tcp_from_bytes s (Some (addr, remote_addr tuple)) = Ret (Ok s) /\
    source_port s = Ret port /\ destination_port s = Ret (remote_port tuple) /\
    sequence_number s = Ret seq /\ ack_number s = Ret ack /\ flags_after_ns s = Ret flags /\
    payload s = Ret data
}.

Definition tuple_ok (t : ConnectionTuple) : Prop := in_range 32 (remote_addr t) /\ in_range 16 (remote_port t).
Definition local_ok (h : TcpIPv4Handler) : Prop := in_range 32 (local_ipv4_addr h) /\ in_range 16 (local_port h).

(** The buffer a packet is written to: a frame of the network device without its two
    headers. *)
Definition MAX_IP_BUFFER : Z := 65536.

Lemma finalize_ok `{Profile} seg sport dport src dst seq ack flags w m data :
  in_range 16 sport -> in_range 16 dport -> in_range 32 src -> in_range 32 dst -> slen seg <= 65535 ->
  seg_is seg seq ack flags w m data -> in_range 32 seq -> in_range 32 ack -> byte_ok flags ->
  in_range 16 w -> bytes_ok data ->
  exists s, tcp_finalize seg sport dport (Some (src, dst)) = Ret s /\ slen s = slen seg /\ bytes_ok s /\
    tcp_from_bytes s (Some (src, dst)) = Ret (Ok s) /\
    source_port s = Ret sport /\ destination_port s = Ret dport /\
    sequence_number s = Ret seq /\ ack_number s = Ret ack /\ flags_after_ns s = Ret flags /\
    payload s = Ret data.
Proof.
  intros Hsp Hdp Hsrc Hdst Hsl Hs Hseq Hack Hf Hw Hd.
  pose proof (seg_is_len _ _ _ _ _ _ _ Hs) as El. destruct Hs as (sp & dp & cs & _ & _ & _ & ->).
  pose proof (mss_len_range m) as Hm. pose proof (slen_nonneg data).
  assert (Hrest : bytes_ok (mss_bytes m ++ data)) by (apply Forall_app; split; [apply mss_bytes_ok|done]).
  assert (Hrl : slen (mss_bytes m ++ data) = mss_len m + slen data) by (by rewrite slen_app, slen_mss_bytes).
  assert (Hmod : (20 + mss_len m) mod 4 = 0) by by destruct m.
  rewrite tcp_finalize_spec by (first [done|lia]). eexists. split; [done|].
  set (c := tcp_csum _ _ _ _ _ _ _ _ _ _).
  assert (Hc : in_range 16 c) by (apply tcp_csum_range; first [done|lia]).
  destruct (tcp_header_read sport dport seq ack (20 + mss_len m) flags w c 0 (mss_bytes m ++ data))
    as (R1 & R2 & R3 & R4 & R5 & R6 & _); try done; [lia|].
  destruct (options_read (tcp_header sport dport seq ack (20 + mss_len m) flags w c 0) m data (20 + mss_len m))
    as [_ O2]; [done|done|].
  split; [rewrite !slen_app, !slen_tcp_header; done|].
  split; [apply Forall_app; split; [apply tcp_header_ok; [unfold byte_ok; lia|done]|done]|].
  split; [apply tcp_from_bytes_finished; first [done|lia|by right]|].
  split_and!; try done. unfold payload. by rewrite R5, bind_Ret.
Qed.

Lemma take_write_back buf s : take (Z.to_nat (slen s)) (write_back buf s) = s.
Proof. unfold write_back, slen. rewrite Nat2Z.id. apply take_app_length. Qed.

Lemma slen_write_back buf s : slen s <= slen buf -> slen (write_back buf s) = slen buf.
Proof. unfold write_back, slen. rewrite length_app, length_drop. lia. Qed.

Lemma write_back_bytes buf s : bytes_ok buf -> bytes_ok s -> bytes_ok (write_back buf s).
Proof. intros Hb Hs. apply Forall_app. split; [done|by apply Forall_drop]. Qed.

Lemma finish_packet_ok `{Profile} h tuple total csum body seg seq ack flags w m data :
  local_ok h -> tuple_ok tuple -> in_range 16 total -> in_range 16 csum -> bytes_ok body ->
  20 + slen body <= MAX_IP_BUFFER -> slen seg <= slen body ->
  seg_is seg seq ack flags w m data -> in_range 32 seq -> in_range 32 ack -> byte_ok flags ->
  in_range 16 w -> bytes_ok data ->
  exists q buf', finish_packet h tuple (ip_header total csum PROTOCOL_TCP LOCALHOST LOCALHOST) body seg =
      Ret (slen q, buf') /\ take (Z.to_nat (slen q)) buf' = q /\ slen buf' = 20 + slen body /\
    bytes_ok buf' /\ slen q = 20 + slen seg /\ 40 <= slen q <= slen buf' /\ ip_total_len q = Ret (wrap 16 (slen q)) /\
    (slen q <= 65535 -> packet_for (local_ipv4_addr h) (local_port h) tuple q seq ack flags data).
Proof.
  intros [Hla Hlp] [Hra Hrp] Ht Hcs Hb Hbl Hsl Hs Hseq Hack Hf Hw Hd. unfold finish_packet, MAX_IP_BUFFER in *.
  pose proof (mss_len_range m). pose proof (slen_nonneg data).
  pose proof (seg_is_len _ _ _ _ _ _ _ Hs) as El.
  destruct (finalize_ok seg (local_port h) (remote_port tuple) (local_ipv4_addr h) (remote_addr tuple)
    seq ack flags w m data) as (s & -> & Esl & Hsb & Htcp & T1 & T2 & T3 & T4 & T5 & T6); try done; [lia|].
  rewrite bind_Ret. rewrite (proj1 (proj2 (proj2 (ip_header_set _ _ _ _ _ _ _)))), bind_Ret.
  rewrite (proj2 (proj2 (proj2 (ip_header_set _ _ _ _ _ _ _)))), bind_Ret.
  assert (Hwb : bytes_ok (write_back body s)) by by apply write_back_bytes.
  assert (Hwl : slen (write_back body s) = slen body) by (apply slen_write_back; lia).
  rewrite ip_complete_wrap, bind_Ret by (first [done|simpl Z.pow; lia]). rewrite take_write_back.
  set (head := ip_header total csum PROTOCOL_TCP (local_ipv4_addr h) (remote_addr tuple)).
  set (t := wrap 16 (20 + slen s)). set (q := ip_header _ _ _ _ _ ++ s).
  assert (Eq : slen q = 20 + slen s) by (unfold q; by rewrite slen_app, slen_ip_header).
  rewrite (proj2 (Z.eqb_neq _ _)) by lia.
  assert (Hp : slen (head ++ write_back body s) = 20 + slen body).
  { unfold head. rewrite slen_app, slen_ip_header, Hwl. done. }
  exists q, (write_back (head ++ write_back body s) q). split; [done|]. split; [apply take_write_back|].
  rewrite slen_write_back, Hp by lia. split; [done|]. split.
  { apply write_back_bytes; (apply Forall_app; split; [by apply ip_header_ok|done]). }
  split; [lia|]. split; [lia|].
  destruct (ip_header_read t (ip_csum t PROTOCOL_TCP (local_ipv4_addr h) (remote_addr tuple))
    PROTOCOL_TCP (local_ipv4_addr h) (remote_addr tuple) s) as (_ & R2 & R3 & _ & R5 & R6 & R7); try done.
  { apply wrap_range. lia. }
  { by apply ip_csum_range. }
  split; [by rewrite Eq|]. intros Hql.
  assert (Et : t = 20 + slen s) by (unfold t; apply wrap_id; unfold in_range; simpl Z.pow; lia).
  clearbody t. subst t. constructor; try done; [apply ip_from_bytes_complete; first [done|lia]|].
  exists s. by split_and!.
Qed.

(** A packet whose length does not fit 16 bits is not accepted by any parser. *)
Lemma oversized_packet_rejected `{Profile} q verify : bytes_ok q -> ip_total_len q = Ret (wrap 16 (slen q)) ->
  65536 <= slen q < 65536 + 20 -> exists e, ip_from_bytes q verify = Ret (Err e).
Proof.
  intros Hb Et Hl. destruct (ip_from_bytes_sound q verify Hb) as (r & E & Hr). destruct r as [p|e]; [|eauto].
  destruct (Hr p eq_refl) as (-> & Et' & _). rewrite Et in Et'. injection Et' as Ew. unfold wrap in Ew.
  pose proof (Z.mod_pos_bound (slen q) (2 ^ 16) ltac:(lia)). simpl Z.pow in *. lia.
Qed.

(** ** The invariant of the handler *)

Section Invariant.
Context `{Profile} `{HttpLaws}.

(** An endpoint the handler created, with its timer started at [T] or before. *)
Record ep_good (T : Z) (e : Endpoint) : Prop := {
  eg_inv : exists isn g, ep_inv (fun _ _ => True) isn e g;
  eg_start : rto_start (connection e) <= T;
  eg_period : rto_period (connection e) = CONNECTION_RTO_PERIOD
}.

(** [D] are the connections the bookkeeping may mention: the keys of the map, and while
    one is being added that one. *)
Record handler_inv (T : Z) (D : gset ConnectionTuple) (h : TcpIPv4Handler) : Prop := {
  hi_dom : dom (connections h) ⊆ D;
  hi_active : active_connections h ⊆ D;
  hi_timeout : forall v t, next_timeout h = Some (v, t) -> t ∈ D;
  hi_size : Z.of_nat (size (connections h)) <= max_connections h;
  hi_max : 0 < max_connections h;
  hi_rsts : Z.of_nat (length (rst_queue h)) <= max_pending_resets h;
  hi_endpoints : forall t e, connections h !! t = Some e -> tuple_ok t /\ ep_good T e;
  hi_queue : Forall (fun x => tuple_ok x.1 /\ rst_ok x.2) (rst_queue h);
  hi_local : local_ok h
}.

Definition handler_ok (T : Z) (h : TcpIPv4Handler) : Prop := handler_inv T (dom (connections h)) h.

(** Readings of the clock, which does not run backwards and is far from its limit. *)
Definition clock_ok (T T' : Z) (clock : nat -> Z) : Prop :=
  T <= clock 0%nat /\ (forall i, clock i <= clock (S i)) /\ forall i, clock i <= T'.

Lemma clock_range T T' clock i : clock_ok T T' clock -> T <= clock i <= T'.
Proof. intros (Hb & Hs & HT). split; [|done]. induction i as [|i IH]; [done|]. specialize (Hs i). lia. Qed.

Lemma ep_good_mono T T' e : T <= T' -> ep_good T e -> ep_good T' e.
Proof. intros HT [I Hs Hp]. constructor; [done|lia|done]. Qed.

Lemma handler_inv_mono T T' D h : T <= T' -> handler_inv T D h -> handler_inv T' D h.
Proof.
  intros HT []. constructor; try done. intros t e He. destruct (hi_endpoints0 t e He) as [Ht Hg].
  split; [done|by apply ep_good_mono with T].
Qed.

Lemma status_ok T e : 0 <= T < 2 ^ 63 -> ep_good T e -> exists st, next_segment_status e = Ret st.
Proof.
  intros HT [(isn & g & I) Hs Hp]. pose proof (run_ok _ _ _ (ei_conn _ _ _ _ I)) as Hc.
  pose proof (co_start _ Hc) as Hr. unfold in_range, CONNECTION_RTO_PERIOD in *. simpl Z.pow in *.
  unfold next_segment_status, control_segment_or_timeout_status.
  destruct (_ || _); [eauto|]. destruct (_ || _); [eauto|]. destruct (negb _); [|eauto].
  rewrite uadd_ok, bind_Ret by (unfold in_range; simpl Z.pow; lia). eauto.
Qed.

Variable o : Order.

Lemma find_timeout_ok T l next (P : ConnectionTuple -> Prop) : 0 <= T < 2 ^ 63 ->
  (forall t e, (t, e) ∈ l -> P t /\ ep_good T e) -> (forall v t, next = Some (v, t) -> P t) ->
  exists next', find_timeout_loop l next = Ret next' /\ forall v t, next' = Some (v, t) -> P t.
Proof.
  intros HT. revert next. induction l as [|[t0 e0] l IH]; intros next Hl Hn; [by exists next|].
  cbn [find_timeout_loop]. destruct (Hl t0 e0) as [Ht0 Hg0]; [left|].
  destruct (status_ok T e0 HT Hg0) as [st ->]. rewrite bind_Ret. apply IH.
  - intros t e He. apply Hl. by right.
  - destruct st as [| |value]; [done|done|]. destruct next as [[v0 t1]|].
    + destruct (value <? v0); [by intros v t [= <- <-]|done].
    + by intros v t [= <- <-].
Qed.

Lemma refresh_timeout_ok T D h tuple : 0 <= T < 2 ^ 63 -> dom (connections h) ⊆ D ->
  (forall t e, connections h !! t = Some e -> tuple_ok t /\ ep_good T e) ->
  (forall v t, next_timeout h = Some (v, t) -> t ∈ D \/ t = tuple) ->
  exists h' next, refresh_timeout o h tuple = Ret h' /\ h' = with_next_timeout h next /\
    (forall v t, next = Some (v, t) -> t ∈ D).
Proof.
  intros HT Hd He Hn. unfold refresh_timeout.
  assert (Hsame : h = with_next_timeout h (next_timeout h)) by by destruct h.
  destruct (next_timeout h) as [[v0 t0]|] eqn:En; [|by exists h, None].
  destruct (bool_decide_reflect (tuple = t0)) as [->|Hne].
  2: { exists h, (Some (v0, t0)). split_and!; [done|done|]. intros v t Ht. destruct (Hn v t Ht) as [Hin| ->]; [done|].
       by injection Ht as _ Ht. }
  unfold find_next_timeout.
  destruct (find_timeout_ok T (iter_connections o (connections h)) None (fun t => t ∈ D) HT) as (n & -> & Hp); [|done|].
  - intros t e Hte. rewrite (iter_connections_perm o (connections h)) in Hte. apply elem_of_map_to_list in Hte.
    split; [apply Hd; by apply elem_of_dom_2 in Hte|by apply (He t e)].
  - rewrite bind_Ret. by exists (with_next_timeout h n), n.
Qed.

Lemma with_timeout_inv T D h next : handler_inv T D h -> (forall v t, next = Some (v, t) -> t ∈ D) ->
  handler_inv T D (with_next_timeout h next).
Proof. intros [] Hn. by constructor. Qed.

Lemma with_active_inv T D h s : handler_inv T D h -> s ⊆ D -> handler_inv T D (with_active h s).
Proof. intros [] Hs. by constructor. Qed.

Lemma check_status_ok T D h tuple st : 0 <= T < 2 ^ 63 -> handler_inv T D h -> tuple ∈ D ->
  exists b h', check_next_segment_status o h tuple st = Ret (b, h') /\ handler_inv T D h' /\
    connections h' = connections h /\ max_connections h' = max_connections h.
Proof.
  intros HT I Ht. unfold check_next_segment_status.
  destruct (refresh_timeout_ok T D h tuple HT (hi_dom _ _ _ I) (hi_endpoints _ _ _ I)) as (h1 & n & -> & -> & Hn).
  { intros v t E. left. by apply (hi_timeout _ _ _ I v t). }
  pose proof (with_timeout_inv T D h n I Hn) as I1. rewrite bind_Ret. set (h1 := with_next_timeout h n) in *.
  destruct st as [| |value].
  - do 2 eexists. split; [done|]. split; [|done]. apply with_active_inv; [done|].
    pose proof (hi_active _ _ _ I1). set_solver.
  - do 2 eexists. split; [done|]. by split.
  - do 2 eexists. split; [done|]. unfold check_timeout.
    assert (Hc : handler_inv T D (with_next_timeout h1 (Some (value, tuple)))).
    { apply with_timeout_inv; [done|]. by intros v t [= <- <-]. }
    destruct (next_timeout h1) as [[t1 x]|]; [destruct (value <? t1)|]; done.
Qed.

Lemma update_status_ok T D h tuple st : 0 <= T < 2 ^ 63 -> handler_inv T D h -> tuple ∈ D ->
  exists h', update_status o h tuple st = Ret h' /\ handler_inv T D h' /\ connections h' = connections h.
Proof.
  intros HT I Ht. unfold update_status. destruct (check_status_ok T D h tuple st HT I Ht) as (b & h' & -> & I' & Ec & _).
  rewrite bind_Ret. cbn [fst snd]. eexists. split; [done|]. destruct b; [done|]. split; [|done].
  apply with_active_inv; [done|]. pose proof (hi_active _ _ _ I'). set_solver.
Qed.

Lemma set_endpoint_inv T D h tuple e : handler_inv T D h -> tuple_ok tuple -> ep_good T e -> tuple ∈ D ->
  Z.of_nat (size (<[tuple := e]> (connections h))) <= max_connections h ->
  handler_inv T D (with_connections h (<[tuple := e]> (connections h))).
Proof.
  intros [] Ht He Hd Hs. constructor; cbn [connections with_connections]; try done.
  - rewrite dom_insert. set_solver.
  - intros t e' Hl. apply lookup_insert_Some in Hl as [[<- <-]|[_ Hl]]; [done|by apply hi_endpoints0].
Qed.

Lemma add_connection_ok T h tuple e : 0 <= T < 2 ^ 63 -> handler_ok T h -> tuple_ok tuple -> ep_good T e ->
  connections h !! tuple = None -> Z.of_nat (size (connections h)) < max_connections h ->
  exists h', add_connection o h tuple e = Ret h' /\ handler_ok T h'.
Proof.
  intros HT I Ht He Hn Hs. unfold add_connection. destruct (status_ok T e HT He) as [st ->]. rewrite bind_Ret.
  set (D := {[ tuple ]} ∪ dom (connections h)).
  assert (I1 : handler_inv T D h).
  { destruct I. constructor; try done; [set_solver|set_solver|]. intros v t Hv. apply hi_timeout0 in Hv. set_solver. }
  destruct (check_status_ok T D h tuple st HT I1) as (b & h' & -> & I' & Ec & Em); [set_solver|].
  rewrite bind_Ret. cbn [snd]. eexists. split; [done|]. unfold handler_ok. cbn [connections with_connections].
  rewrite dom_insert_L, Ec. fold D. rewrite <-Ec. apply set_endpoint_inv; [done|done|done|set_solver|].
  rewrite Ec, Em, map_size_insert_None by done. lia.
Qed.

Lemma remove_connection_ok T h tuple : 0 <= T < 2 ^ 63 -> handler_ok T h ->
  exists h', remove_connection o h tuple = Ret h' /\ handler_ok T h' /\
    connections h' = delete tuple (connections h) /\ max_connections h' = max_connections h /\
    rst_queue h' = rst_queue h.
Proof.
  intros HT [I1 I2 I3 I4 I5 I6 I7 I8 I9]. unfold remove_connection.
  set (h1 := with_connections _ _).
  destruct (refresh_timeout_ok T (dom (connections h1)) h1 tuple HT) as (h2 & n & -> & -> & Hn).
  - done.
  - intros t e Hl. change (connections h1) with (delete tuple (connections h)) in Hl.
    apply lookup_delete_Some in Hl as [_ Hl]. by apply I7.
  - intros v t Hv. apply I3 in Hv. cbn. rewrite dom_delete. destruct (decide (t = tuple)); set_solver.
  - eexists. split; [done|]. split; [|done]. constructor; cbn; try done.
    + rewrite dom_delete. set_solver.
    + pose proof (map_subseteq_size _ _ (delete_subseteq (connections h) tuple)). lia.
    + intros t e Hl. apply lookup_delete_Some in Hl as [_ Hl]. by apply I7.
Qed.

(** ** Receiving keeps the invariant *)

(** What the handler reads from a packet that was parsed. *)
Lemma ip_packet_read p : bytes_ok p -> ip_from_bytes p false = Ret (Ok p) ->
  exists seg src, ip_payload p = Ret seg /\ bytes_ok seg /\ slen seg < 2 ^ 64 /\
    ip_source_address p = Ret src /\ in_range 32 src.
Proof.
  intros Hb E. destruct (ip_from_bytes_sound p false Hb) as (r & Er & Hr). rewrite E in Er. injection Er as <-.
  destruct (Hr p eq_refl) as (_ & Et & hl & Eh & Hhl & _).
  assert (Hl : slen p < 65536).
  { destruct (ntohs_ok p TOTAL_LEN_OFFSET Hb) as (x & Ex & Hx); [unfold TOTAL_LEN_OFFSET; lia|].
    unfold ip_total_len in Et. rewrite Ex in Et. injection Et as ->. unfold in_range in Hx. simpl Z.pow in Hx. lia. }
  destruct (ntohl_ok p SOURCE_ADDRESS_OFFSET Hb) as (src & Es & Hsrc); [unfold SOURCE_ADDRESS_OFFSET; lia|].
  exists (drop (Z.to_nat hl) p), src. split; [|split; [by apply Forall_drop|split; [|done]]].
  - unfold ip_payload, ip_header_len. rewrite Eh, !bind_Ret. cbn [snd].
    unfold ip_payload_unchecked, split_at. by rewrite (proj2 (Z.leb_le _ _)), bind_Ret by lia.
  - unfold slen in *. rewrite length_drop. simpl Z.pow. lia.
Qed.

Lemma new_endpoint_good T s v isn now e : 0 <= T -> views s v -> in_range 32 isn ->
  Endpoint_new_with_defaults s isn now = Done (Ok e) -> ep_good T e.
Proof.
  intros HT V Hi E. unfold Endpoint_new_with_defaults in E.
  assert (I : ep_inv (fun _ _ => True) isn e (mkHistory [] [] [])) 
    by (by apply (Endpoint_new_inv _ _ s v EVICTION_THRESHOLD CONNECTION_RTO_PERIOD CONNECTION_RTO_COUNT_MAX now)).
  unfold Endpoint_new in E. change (RCV_BUF_MAX_SIZE <=? MAX_WINDOW_SIZE) with true in E.
  apply bind_Done_inv in E as ([c|er] & Eo & E); [|done].
  apply (passive_open_ok s v) in Eo as (_ & _ & m & _ & Ec); try done.
  assert (connection e = c) as Ece by (by injection E as <-).
  constructor; [eauto|by rewrite Ece, Ec|by rewrite Ece, Ec].
Qed.

Lemma receive_good T T' e s v callback now e' : callback_ok callback -> T <= now <= T' -> in_range 64 now ->
  ep_good T e -> views s v -> ep_receive_segment e s callback now = Done e' -> ep_good T' e'.
Proof.
  intros Hcb Hn Hr [(isn & g & I) Hs Hp] V E.
  destruct (ep_receive_ok _ _ e g s v callback now Hcb I V Logic.I Hr) as [E'|(e1 & E' & I')]; [congruence|].
  assert (e1 = e') as -> by congruence. destruct (ep_receive_timer now e s v callback e' V E) as [Tp Ts].
  constructor; [eauto|destruct Ts; lia|congruence].
Qed.

Lemma receive_known_ok T T' h tuple e s v callback now : callback_ok callback ->
  0 <= T -> T' < 2 ^ 63 -> T <= now <= T' -> handler_ok T h -> connections h !! tuple = Some e -> views s v ->
  receive_known o h tuple e s callback now = Hang \/
  exists r h', receive_known o h tuple e s callback now = Done (r, h') /\ handler_ok T' h'.
Proof.
  intros Hcb HT HT' Hn I He V. unfold receive_known.
  assert (Hr : in_range 64 now) by (unfold in_range; simpl Z.pow in *; lia).
  destruct (hi_endpoints _ _ _ I tuple e He) as [Ht Hg]. pose proof Hg as [(isn & g & Ie) _ _].
  destruct (ep_receive_ok _ _ e g s v callback now Hcb Ie V Logic.I Hr) as [->|(e' & E & _)]; [by left|].
  rewrite E, bind_Done. right. assert (Hg' : ep_good T' e') by (by eapply receive_good).
  set (h1 := with_connections h (<[tuple:=e']> (connections h))).
  assert (Ed : dom (connections h1) = dom (connections h)).
  { cbn. rewrite dom_insert_L. apply elem_of_dom_2 in He. set_solver. }
  assert (I1 : handler_ok T' h1).
  { unfold handler_ok. rewrite Ed. apply set_endpoint_inv; [apply handler_inv_mono with T; [lia|done]|done|done| |].
    - by apply elem_of_dom_2 in He.
    - rewrite map_size_insert_Some by (by rewrite He). apply (hi_size _ _ _ I). }
  destruct (ep_is_done e').
  - destruct (remove_connection_ok T' h1 tuple) as (h2 & -> & I2 & _); [lia|done|].
    cbn [lift]. rewrite bind_Done. eauto.
  - destruct (status_ok T' e') as [st ->]; [lia|done|]. cbn [lift]. rewrite bind_Done.
    destruct (update_status_ok T' (dom (connections h1)) h1 tuple st) as (h2 & -> & I2 & Ec);
      [lia|done|rewrite Ed; by apply elem_of_dom_2 in He|].
    cbn [lift]. rewrite bind_Done. unfold handler_ok. rewrite <-Ec in I2. eauto.
Qed.

Lemma enqueue_rst_config_ok T D h tuple cfg : handler_inv T D h -> tuple_ok tuple -> rst_ok cfg ->
  let h' := enqueue_rst_config h tuple cfg in
  handler_inv T D h' /\ connections h' = connections h /\ max_connections h' = max_connections h.
Proof.
  intros I Ht Hc. unfold enqueue_rst_config.
  destruct (Z.ltb_spec (Z.of_nat (length (rst_queue h))) (max_pending_resets h)) as [Hl|]; [|done].
  split; [|done]. destruct I. constructor; cbn; try done.
  - rewrite length_app. simpl. lia.
  - apply Forall_app. split; [done|by apply Forall_singleton].
Qed.

Lemma enqueue_rst_ok T D h tuple s v : handler_inv T D h -> tuple_ok tuple -> views s v ->
  exists h', enqueue_rst h tuple s = Ret h' /\ handler_inv T D h' /\ connections h' = connections h.
Proof.
  intros I Ht V. unfold enqueue_rst. destruct (rst_config_ok s v V) as (cfg & -> & Hc). rewrite bind_Ret.
  destruct (enqueue_rst_config_ok T D h tuple cfg I Ht Hc) as (I' & Ec & _). eauto.
Qed.

Lemma evictable_in l clock i t : find_evictable_loop l clock i = Some t -> exists e, (t, e) ∈ l.
Proof.
  revert i. induction l as [|[t0 e0] l IH]; intros i E; [done|]. cbn [find_evictable_loop] in E.
  destruct (ep_is_evictable e0 (clock i)).
  - injection E as <-. exists e0. left.
  - destruct (IH _ E) as [e He]. exists e. by right.
Qed.

Lemma make_rst_ok e T : ep_good T e -> rst_ok (make_rst_config (connection e)).
Proof.
  intros [(isn & g & I) _ _]. pose proof (run_ok _ _ _ (ei_conn _ _ _ _ I)) as Hc. unfold make_rst_config.
  destruct (is_established _); [apply (co_first _ Hc)|apply (co_ack _ Hc)].
Qed.

Lemma new_no_crash s v isn now : views s v -> Endpoint_new_with_defaults s isn now <> Crash.
Proof.
  intros V. unfold Endpoint_new_with_defaults, Endpoint_new.
  change (RCV_BUF_MAX_SIZE <=? MAX_WINDOW_SIZE) with true. cbv iota.
  assert (Hp : passive_open s RCV_BUF_MAX_SIZE CONNECTION_RTO_PERIOD CONNECTION_RTO_COUNT_MAX isn <> Crash).
  { unfold passive_open. rewrite (is_valid_syn_eq s v V). cbn [lift]. rewrite bind_Done.
    destruct (negb _); [done|]. pose proof (parse_mss_no_crash s v V).
    rewrite (vs_seq _ _ V), (vs_window _ _ V). by destruct (parse_mss_option s) as [[]| |]. }
  by destruct (passive_open _ _ _ _ _).
Qed.

Lemma receive_syn_ok T T' h tuple s v isn clock :
  0 <= T <= T' -> T' < 2 ^ 63 -> handler_ok T h -> tuple_ok tuple -> connections h !! tuple = None ->
  views s v -> in_range 32 isn ->
  receive_syn o h tuple s isn clock = Hang \/
  exists r h', receive_syn o h tuple s isn clock = Done (r, h') /\ handler_ok T' h'.
Proof.
  intros HT HT' I0 Ht Hn V Hi. unfold receive_syn. pose proof (new_no_crash s v isn (clock 0%nat) V) as Hnc.
  assert (I : handler_ok T' h) by (apply handler_inv_mono with T; [lia|done]). clear I0.
  destruct (Endpoint_new_with_defaults s isn (clock 0%nat)) as [[e|er]| |] eqn:E; cbn;
    [|right; eauto|done|by left].
  right. assert (Hg : ep_good T' e) by (apply (new_endpoint_good T' s v isn (clock 0%nat)); [lia|done..]).
  assert (HTr : 0 <= T' < 2 ^ 63) by lia.
  destruct (Z.leb_spec (max_connections h) (Z.of_nat (size (connections h)))) as [Hfull|Hroom].
  2: { destruct (add_connection_ok T' h tuple e HTr I Ht Hg Hn Hroom) as (h' & -> & I'). cbn. eauto. }
  destruct (find_evictable_connection o h clock) as [t|] eqn:Ee.
  2: { destruct (enqueue_rst_ok T' _ h tuple s v I Ht V) as (h' & -> & I' & Ec). cbn.
       unfold handler_ok. rewrite <-Ec in I'. eauto. }
  apply evictable_in in Ee as [e0 He0]. rewrite (iter_connections_perm o (connections h)) in He0.
  apply elem_of_map_to_list in He0. rewrite He0. cbn.
  destruct (hi_endpoints _ _ _ I t e0 He0) as [Ht0 Hg0].
  destruct (enqueue_rst_config_ok T' _ h t _ I Ht0 (make_rst_ok e0 T' Hg0)) as (I1 & Ec1 & Em1).
  set (h1 := enqueue_rst_config h t _) in *. rewrite <-Ec1 in I1.
  destruct (remove_connection_ok T' h1 t HTr I1) as (h2 & -> & I2 & Ec2 & Em2 & _). cbn.
  destruct (add_connection_ok T' h2 tuple e HTr I2 Ht Hg) as (h3 & -> & I3).
  - rewrite Ec2, Ec1. apply lookup_delete_None. by right.
  - rewrite Ec2, Ec1, Em2, Em1, map_size_delete_Some by (by rewrite He0).
    pose proof (hi_size _ _ _ I). pose proof (hi_max _ _ _ I). lia.
  - cbn. eauto.
Qed.

Lemma receive_packet_ok T T' h packet callback isn clock : callback_ok callback ->
  0 <= T -> T' < 2 ^ 63 -> clock_ok T T' clock -> handler_ok T h ->
  bytes_ok packet -> ip_from_bytes packet false = Ret (Ok packet) -> in_range 32 isn ->
  receive_packet o h packet callback isn clock = Hang \/
  exists r h', receive_packet o h packet callback isn clock = Done (r, h') /\ handler_ok T' h'.
Proof.
  intros Hcb HT HT' Hclk I Hb Hp Hi. unfold receive_packet. pose proof (clock_range T T' clock 0 Hclk) as Hnow.
  destruct (ip_packet_read packet Hb Hp) as (seg & src & -> & Hsb & Hsl & Es & Hsrc). cbn [lift]. rewrite bind_Done.
  destruct (tcp_from_bytes_sound seg Hsb Hsl) as (r & -> & Hr). cbn [lift]. rewrite bind_Done.
  assert (I' : handler_ok T' h) by (apply handler_inv_mono with T; [lia|done]).
  destruct r as [s|er]; [|right; eauto]. destruct (Hr s eq_refl) as (-> & v & V).
  rewrite (vs_dport _ _ V). cbn [lift]. rewrite bind_Done. destruct (negb _); [right; eauto|].
  rewrite Es, (vs_sport _ _ V). cbn [lift]. rewrite !bind_Done.
  destruct (vs_ranges _ _ V) as (Hsport & _). assert (Ht : tuple_ok (ConnectionTuple_new src (v_sport v))) by by split.
  destruct (connections h !! (ConnectionTuple_new src (v_sport v))) as [e|] eqn:El.
  - by apply (receive_known_ok T T' h (ConnectionTuple_new src (v_sport v)) e seg v callback (clock 0%nat)).
  - rewrite (vs_flags _ _ V). cbn [lift]. rewrite bind_Done. destruct (v_flags v =? SYN).
    + apply (receive_syn_ok T T' h (ConnectionTuple_new src (v_sport v)) seg v isn clock); first [done|lia].
    + right. destruct (negb _); [|cbn; eauto].
      destruct (enqueue_rst_ok T' _ h (ConnectionTuple_new src (v_sport v)) seg v I' Ht V) as (h' & -> & I2 & Ec). cbn.
      unfold handler_ok. rewrite <-Ec in I2. eauto.
Qed.

(** ** Writing keeps the invariant *)

Lemma write_good T T' e buf now r e' buf' : T <= now <= T' -> in_range 64 now -> ep_good T e ->
  bytes_ok buf -> slen buf <= 65535 -> ep_write_next_segment e buf 0 now = Ret (r, e', buf') ->
  ep_good T' e' /\ ep_written now e buf r e' buf'.
Proof.
  intros Hn Hr [(isn & g & I) Hs Hp] Hb Hl E.
  assert (W := ep_write_written _ _ e g buf 0 now r e' buf' I Hb Hl ltac:(lia) Hr ltac:(lia) E).
  destruct (ep_write_ok _ _ e g buf 0 now I Hb Hl ltac:(lia) Hr ltac:(lia)) as (r1 & e1 & b1 & E1 & I1 & _).
  assert (e1 = e') as -> by congruence. split; [|done]. destruct (ew_timer _ _ _ _ _ _ W) as [Tp Ts].
  constructor; [eauto|destruct Ts; lia|congruence].
Qed.

(** What the loop over the endpoints leaves: the invariant, and if one of them wrote, a
    packet for its peer at the front of the buffer. *)
Record loop_out (T' : Z) (h : TcpIPv4Handler) (size : Z) (w : option (Z * ConnectionTuple * bool))
    (h' : TcpIPv4Handler) (buf' : list Z) : Prop := {
  lo_inv : handler_ok T' h';
  lo_dom : dom (connections h') = dom (connections h);
  lo_len : slen buf' = size;
  lo_bytes : bytes_ok buf';
  lo_packet : forall len t b, w = Some (len, t, b) -> is_Some (connections h' !! t) /\ 40 <= len <= size /\
    exists seq ack flags data, len <= 65535 ->
      packet_for (local_ipv4_addr h) (local_port h) t (take (Z.to_nat len) buf') seq ack flags data
}.

Lemma write_loop_ok T' total csum clock : T' < 2 ^ 63 ->
  (forall i, clock i <= clock (S i)) -> (forall i, clock i <= T') ->
  in_range 16 total -> in_range 16 csum -> forall tuples T h body i,
  0 <= T <= clock i -> handler_ok T h -> (forall t, t ∈ tuples -> t ∈ dom (connections h)) ->
  bytes_ok body -> 20 + slen body <= MAX_IP_BUFFER ->
  exists w h' buf',
    write_loop tuples h (ip_header total csum PROTOCOL_TCP LOCALHOST LOCALHOST) body clock i = Ret (w, h', buf') /\
    loop_out T' h (20 + slen body) w h' buf'.
Proof.
  unfold MAX_IP_BUFFER. intros HT' Hs Hm Ht Hc. induction tuples as [|t tuples IH]; intros T h body i HT I Hin Hb Hl;
    pose proof (Hm i) as Hmi.
  { do 3 eexists. split; [done|]. constructor; [|done|by rewrite slen_app, slen_ip_header|by apply Forall_app; split; [apply ip_header_ok|]|done].
    apply handler_inv_mono with T; [lia|done]. }
  cbn [write_loop]. assert (Htd := Hin t ltac:(left)). pose proof Htd as [e He]%elem_of_dom.
  rewrite He. cbn [unwrap]. rewrite bind_Ret.
  assert (Hr : in_range 64 (clock i)) by (unfold in_range; simpl Z.pow in *; lia).
  destruct (hi_endpoints _ _ _ I t e He) as [Htok Hg]. pose proof Hg as [(isn & g & Ie) Hst _].
  destruct (ep_write_ok _ _ e g body 0 (clock i) Ie Hb ltac:(lia) ltac:(lia) Hr ltac:(lia))
    as (r & e' & body' & E & _). rewrite E, bind_Ret.
  destruct (write_good T (clock i) e body (clock i) r e' body') as [Hg' [W1 W2 _ W4]]; try done; try lia.
  set (h1 := with_connections h (<[t:=e']> (connections h))).
  assert (Ed : dom (connections h1) = dom (connections h)) by (cbn; rewrite dom_insert_L; set_solver).
  assert (I1 : handler_ok (clock i) h1).
  { unfold handler_ok. rewrite Ed. apply set_endpoint_inv; [apply handler_inv_mono with T; [lia|done]|done..|].
    rewrite map_size_insert_Some by (by rewrite He). apply (hi_size _ _ _ I). }
  destruct r as [seg|].
  - destruct (W4 seg eq_refl) as [Hsl [F]].
    destruct (finish_packet_ok h1 t total csum body' seg (sg_seq _ F) (sg_ack _ F) (sg_flags _ F) (sg_window _ F)
      (sg_mss _ F) (sg_data _ F)) as (q & buf' & -> & Eq & El & Hby & _ & Hq & _ & Hp);
      try apply F; try done; try (unfold MAX_IP_BUFFER; lia); try apply (hi_local _ _ _ I1).
    rewrite bind_Ret. cbn [fst snd]. do 3 eexists. split; [done|].
    constructor; [by apply handler_inv_mono with (clock i)|done|lia|done|].
    intros len t0 b [= <- <- <-]. split; [apply elem_of_dom; by rewrite Ed|]. split; [lia|].
    rewrite Eq. by exists (sg_seq _ F), (sg_ack _ F), (sg_flags _ F), (sg_data _ F).
  - destruct (IH (clock i) h1 body' (S i)) as (w & h' & buf' & -> & [L1 L2 L3 L5 L4]); try done.
    + split; [lia|apply Hs].
    + intros t0 Ht0. rewrite Ed. apply Hin. by right.
    + lia.
    + do 3 eexists. split; [done|]. rewrite W1 in *. by constructor; [|rewrite L2| | |].
Qed.

Record packet_out (h : TcpIPv4Handler) (buf : list Z) (r : handler_write_result) (buf' : list Z) : Prop := {
  po_len : slen buf' = slen buf;
  po_bytes : bytes_ok buf';
  po_packet : forall len ev, r = Ok (Some len, ev) -> 40 <= len <= slen buf /\
    exists t seq ack flags data, tuple_ok t /\ (len <= 65535 ->
      packet_for (local_ipv4_addr h) (local_port h) t (take (Z.to_nat len) buf') seq ack flags data)
}.

Lemma pop_rst_ok T h tuple cfg h' : handler_ok T h -> pop_rst h = Some (tuple, cfg, h') ->
  handler_ok T h' /\ tuple_ok tuple /\ rst_ok cfg /\ rst_queue h = rst_queue h' ++ [(tuple, cfg)] /\
  local_ipv4_addr h' = local_ipv4_addr h /\ local_port h' = local_port h.
Proof.
  intros I E. unfold pop_rst in E. destruct (reverse (rst_queue h)) as [|[t c] rest] eqn:Er; [done|].
  injection E as -> -> <-.
  assert (Eq : rst_queue h = reverse rest ++ [(tuple, cfg)]).
  { rewrite <-(reverse_involutive (rst_queue h)), Er. apply reverse_cons. }
  destruct I. rewrite Eq in hi_queue0, hi_rsts0. apply Forall_app in hi_queue0 as [Hq Hx].
  apply Forall_singleton in Hx as [H3 H4]. rewrite length_app in hi_rsts0. simpl in hi_rsts0.
  split; [|by split_and!]. constructor; cbn; try done. lia.
Qed.

Lemma rst_fields cfg : rst_ok cfg -> let '(seq, ack, flags) := seq_ack_tcp_flags cfg in
  in_range 32 seq /\ in_range 32 ack /\ byte_ok flags.
Proof. by destruct cfg. Qed.

Lemma write_rst_ok h tuple cfg total csum body : local_ok h -> tuple_ok tuple -> rst_ok cfg ->
  in_range 16 total -> in_range 16 csum -> bytes_ok body -> 20 + slen body <= MAX_IP_BUFFER ->
  let '(seq, ack, flags) := seq_ack_tcp_flags cfg in
  exists r buf', write_rst h tuple cfg (ip_header total csum PROTOCOL_TCP LOCALHOST LOCALHOST) body =
      Ret (r, h, buf') /\ slen buf' = 20 + slen body /\ bytes_ok buf' /\
    (if slen body <? 20 then r = Err (WriteTcpSegment TcpSliceTooShort)
     else exists len, r = Ok (Some len, WriteNothing) /\ len = 40 /\
       packet_for (local_ipv4_addr h) (local_port h) tuple (take (Z.to_nat len) buf') seq ack flags []).
Proof.
  unfold MAX_IP_BUFFER. intros Hlo Ht Hcfg Hto Hcs Hb Hl. pose proof (rst_fields cfg Hcfg) as Hf. unfold write_rst.
  destruct (seq_ack_tcp_flags cfg) as [[seq ack] flags]. destruct Hf as (Hs & Ha & Hfl).
  destruct (write_incomplete_segment_spec body seq ack flags 10000 None 0 None) as (r & body' & -> & [Wl Wb Wr]);
    try done; [simpl Z.pow; lia|]. rewrite bind_Ret.
  destruct Wr as [[Hx _]|[(_ & Hx & ->)|[(pb & max & [=] & _)|(sp & dp & cs & H3 & H4 & H5 & _ & Hx & _ & Er)]]];
    cbn [mss_len] in Hx; [lia| |].
  - do 2 eexists. split; [done|]. rewrite slen_app, slen_ip_header. split; [lia|].
    split; [by apply Forall_app; split; [apply ip_header_ok|]|]. by rewrite (proj2 (Z.ltb_lt _ _)) by lia.
  - cbn [segment_data mss_bytes app] in Er. subst r.
    set (seg := tcp_header sp dp seq ack (20 + mss_len None) flags 10000 cs 0 ++ []).
    assert (Hsi : seg_is seg seq ack flags 10000 None []) by (by exists sp, dp, cs).
    pose proof (seg_is_len _ _ _ _ _ _ _ Hsi) as El. cbn [mss_len] in El. change (slen []) with 0 in El.
    destruct (finish_packet_ok h tuple total csum body' seg seq ack flags 10000 None [])
      as (q & buf' & -> & Eq & Eb & Hby & Hql & Hq & _ & Hp); unfold MAX_IP_BUFFER in *; first [done|lia|constructor|idtac].
    rewrite bind_Ret. cbn [fst snd]. do 2 eexists. split; [done|]. split; [lia|]. split; [done|].
    rewrite (proj2 (Z.ltb_ge _ _)) by lia. exists (slen q). split; [done|]. rewrite Eq. split; [lia|apply Hp; lia].
Qed.

Lemma after_write_ok T h tuple b : 0 <= T < 2 ^ 63 -> handler_ok T h -> is_Some (connections h !! tuple) ->
  exists ev h', after_write o h tuple b = Ret (ev, h') /\ handler_ok T h'.
Proof.
  intros HT I [e He]. unfold after_write. destruct b.
  - destruct (remove_connection_ok T h tuple HT I) as (h' & -> & I' & _). rewrite bind_Ret. eauto.
  - rewrite He. cbn [unwrap]. rewrite bind_Ret. destruct (hi_endpoints _ _ _ I tuple e He) as [_ Hg].
    destruct (status_ok T e HT Hg) as [st ->]. rewrite bind_Ret.
    destruct (update_status_ok T (dom (connections h)) h tuple st HT I) as (h' & -> & I' & Ec);
      [by apply elem_of_dom_2 in He|]. rewrite bind_Ret. unfold handler_ok. rewrite <-Ec in I'. eauto.
Qed.

(** The header written first, and the rest of the buffer behind it. *)
Lemma write_next_packet_head h buf clock : bytes_ok buf -> 20 <= slen buf ->
  exists total csum, in_range 16 total /\ in_range 16 csum /\
    let head := ip_header total csum PROTOCOL_TCP LOCALHOST LOCALHOST in
    let body := drop 20 buf in
    bytes_ok body /\ 20 + slen body = slen buf /\
    write_next_packet o h buf clock =
      match pop_rst h with
      | Some (tuple, cfg, h) => write_rst h tuple cfg head body
      | None =>
          w ← write_loop (iter_active o (active_connections h) ++
                            match next_timeout h with Some (_, t) => [t] | None => [] end)
                h head body clock 0;
          let '(written, h, buf) := w : option (Z * ConnectionTuple * bool) * TcpIPv4Handler * list Z in
          match written with
          | None => Ret (Ok (None, WriteNothing), h, buf)
          | Some (len, tuple, is_done) =>
              a ← after_write o h tuple is_done;
              Ret (Ok (Some len, a.1), a.2, buf)
          end
      end.
Proof.
  intros Hb Hs. unfold write_next_packet.
  destruct (ip_write_header_spec buf PROTOCOL_TCP LOCALHOST LOCALHOST Hb Hs) as (total & csum & Ht & Hc & ->).
  exists total, csum. split; [done|]. split; [done|].
  cbv zeta. set (head := ip_header total csum PROTOCOL_TCP LOCALHOST LOCALHOST). set (body := drop 20 buf).
  assert (El : 20 + slen body = slen buf) by (unfold body, slen in *; rewrite length_drop; lia).
  split; [by apply Forall_drop|]. split; [done|]. rewrite bind_Ret. unfold ip_header_len. fold body head.
  destruct (ip_header_read total csum PROTOCOL_TCP LOCALHOST LOCALHOST body) as (E & _); try done.
  fold head in E. rewrite E, !bind_Ret. cbn [snd]. unfold split_at.
  rewrite (proj2 (Z.leb_le _ _)) by (rewrite slen_app; unfold head; rewrite slen_ip_header; lia).
  rewrite bind_Ret. cbn [fst snd]. change (Z.to_nat 20) with (length head).
  by rewrite take_app_length, drop_app_length.
Qed.

Lemma write_next_packet_ok T T' h buf clock : 0 <= T -> T' < 2 ^ 63 -> clock_ok T T' clock ->
  handler_ok T h -> bytes_ok buf -> slen buf <= MAX_IP_BUFFER ->
  exists r h' buf', write_next_packet o h buf clock = Ret (r, h', buf') /\ handler_ok T' h' /\
    packet_out h buf r buf'.
Proof.
  unfold MAX_IP_BUFFER. intros HT HT' Hclk I Hb Hl. pose proof (clock_range T T' clock 0 Hclk) as Hnow.
  assert (I' : handler_ok T' h) by (apply handler_inv_mono with T; [lia|done]).
  destruct (Z.lt_ge_cases (slen buf) 20) as [Hs|Hs].
  { unfold write_next_packet, ip_write_header, IP_OPTIONS_OFFSET. rewrite (proj2 (Z.ltb_lt _ _)), bind_Ret by lia.
    do 3 eexists. split; [done|]. by split. }
  destruct (write_next_packet_head h buf clock Hb Hs) as (total & csum & Ht & Hc & Hbb & El & ->).
  set (body := drop 20 buf) in *.
  destruct (pop_rst h) as [[[tuple cfg] h1]|] eqn:Ep.
  - destruct (pop_rst_ok T' h tuple cfg h1 I' Ep) as (I1 & Htu & Hcfg & _ & E1 & E2).
    pose proof (write_rst_ok h1 tuple cfg total csum body (hi_local _ _ _ I1) Htu Hcfg Ht Hc Hbb) as Hw.
    destruct (seq_ack_tcp_flags cfg) as [[seq ack] flags]. destruct Hw as (r & buf' & -> & Hlen & Hby & Hr); [unfold MAX_IP_BUFFER; lia|].
    do 3 eexists. split; [done|]. split; [done|]. constructor; [lia|done|]. intros len ev ->.
    destruct (slen body <? 20) eqn:Hs20; [done|]. apply Z.ltb_ge in Hs20.
    destruct Hr as (len' & [= -> ->] & Hlr & Hp).
    split; [lia|]. rewrite <-E1, <-E2. by exists tuple, seq, ack, flags, [].
  - destruct (write_loop_ok T' total csum clock HT' (proj1 (proj2 Hclk)) (proj2 (proj2 Hclk)) Ht Hc
      (iter_active o (active_connections h) ++ match next_timeout h with Some (_, t) => [t] | None => [] end)
      T h body 0) as (w & h1 & buf' & -> & [L1 L2 L3 L5 L4]); [lia|done| |done|unfold MAX_IP_BUFFER; lia|].
    { intros t [Ht0|Ht0]%elem_of_app.
      - rewrite (iter_active_perm o), elem_of_elements in Ht0. by apply (hi_active _ _ _ I).
      - destruct (next_timeout h) as [[v t0]|] eqn:Et; [|by apply not_elem_of_nil in Ht0].
        apply list_elem_of_singleton in Ht0 as ->. by apply (hi_timeout _ _ _ I v). }
    rewrite bind_Ret. destruct w as [[[len t] b]|].
    + destruct (L4 len t b eq_refl) as (Hin & Hlr & seq & ack & flags & data & Hp).
      pose proof Hin as [e He]. destruct (hi_endpoints _ _ _ L1 t e He) as [Htok _].
      destruct (after_write_ok T' h1 t b) as (ev & h2 & -> & I2); [lia|done|done|]. rewrite bind_Ret.
      do 3 eexists. split; [done|]. split; [done|]. constructor; [lia|done|].
      intros len' ev' [= <- <-]. split; [lia|]. eauto 8.
    + do 3 eexists. split; [done|]. split; [done|]. by constructor; [lia| |].
Qed.
End Invariant.

(** ** Runs of the handler *)

Section HandlerRuns.
Context `{Profile} `{HttpLaws}.

(** [handler_run T h]: the handler can be [h] at time [T]. *)
Inductive handler_run : Z -> TcpIPv4Handler -> Prop :=
| hr_new T addr port max_conn max_resets : 0 <= T -> in_range 32 addr -> in_range 16 port ->
    0 < max_conn -> 0 < max_resets -> handler_run T (TcpIPv4Handler_new addr port max_conn max_resets)
| hr_address T h addr : handler_run T h -> in_range 32 addr -> handler_run T (set_local_ipv4_addr h addr)
| hr_wait T T' h : handler_run T h -> T <= T' -> handler_run T' h
| hr_receive o T T' h packet callback isn clock r h' : handler_run T h -> T' < 2 ^ 63 ->
    clock_ok T T' clock -> bytes_ok packet -> ip_from_bytes packet false = Ret (Ok packet) -> callback_ok callback ->
    in_range 32 isn -> receive_packet o h packet callback isn clock = Done (r, h') -> handler_run T' h'
| hr_write o T T' h buf clock r h' buf' : handler_run T h -> T' < 2 ^ 63 -> clock_ok T T' clock ->
    bytes_ok buf -> slen buf <= MAX_IP_BUFFER ->
    write_next_packet o h buf clock = Ret (r, h', buf') -> handler_run T' h'.

Lemma handler_run_ok T h : handler_run T h -> 0 <= T /\ handler_ok T h.
Proof.
  induction 1 as [T addr port mc mr HT Ha Hp Hm Hr|T h addr _ [HT I] Ha|T T' h _ [HT I] Hle
    |o T T' h p cb isn clock r h' _ [HT I] HT' Hclk Hb Hp Hcb Hi E|o T T' h buf clock r h' buf' _ [HT I] HT' Hclk Hb Hl E].
  - split; [done|]. constructor; cbn; try done; [rewrite map_size_empty|]; lia.
  - split; [done|]. destruct I. constructor; try done. by destruct hi_local0.
  - split; [lia|]. by apply handler_inv_mono with T.
  - pose proof (clock_range T T' clock 0 Hclk). split; [lia|].
    destruct (receive_packet_ok o T T' h p cb isn clock Hcb HT HT' Hclk I Hb Hp Hi) as [E'|(r1 & h1 & E' & I')];
      [congruence|]. by assert (h1 = h') as -> by congruence.
  - pose proof (clock_range T T' clock 0 Hclk). split; [lia|].
    destruct (write_next_packet_ok o T T' h buf clock HT HT' Hclk I Hb Hl) as (r1 & h1 & b1 & E' & I' & _).
    by assert (h1 = h') as -> by congruence.
Qed.

(** C30: in every state of the handler the active connections and the one with the next
    timeout are in its map, the map and the queue of RSTs are within their limits, and
    so no call panics, whatever the packets, the order of iteration and the clock (below
    2^63 cycles); whatever [write_next_packet] writes is a complete IPv4 packet with
    valid checksums around a TCP segment from the handler's address and port, unless it
    is the one length, 65536 bytes, that the length field cannot hold. *)
Theorem handler_safe T h : handler_run T h ->
  active_connections h ⊆ dom (connections h) /\
  (forall v t, next_timeout h = Some (v, t) -> t ∈ dom (connections h)) /\
  Z.of_nat (size (connections h)) <= max_connections h /\
  Z.of_nat (length (rst_queue h)) <= max_pending_resets h /\
  (forall o T' packet callback isn clock, T' < 2 ^ 63 -> clock_ok T T' clock -> bytes_ok packet ->
     ip_from_bytes packet false = Ret (Ok packet) -> callback_ok callback -> in_range 32 isn ->
     receive_packet o h packet callback isn clock <> Crash) /\
  (forall o T' buf clock, T' < 2 ^ 63 -> clock_ok T T' clock -> bytes_ok buf -> slen buf <= MAX_IP_BUFFER ->
     exists r h' buf', write_next_packet o h buf clock = Ret (r, h', buf') /\ packet_out h buf r buf').
Proof.
  intros Hr. apply handler_run_ok in Hr as [HT I]. split; [apply (hi_active _ _ _ I)|].
  split; [apply (hi_timeout _ _ _ I)|]. split; [apply (hi_size _ _ _ I)|]. split; [apply (hi_rsts _ _ _ I)|]. split.
  - intros o T' p cb isn clock HT' Hclk Hb Hp Hcb Hi E.
    destruct (receive_packet_ok o T T' h p cb isn clock Hcb HT HT' Hclk I Hb Hp Hi) as [E'|(r & h' & E' & _)]; congruence.
  - intros o T' buf clock HT' Hclk Hb Hl.
    destruct (write_next_packet_ok o T T' h buf clock HT HT' Hclk I Hb Hl) as (r & h' & buf' & E & _ & Hp). eauto.
Qed.

Lemma pop_pushed h tuple cfg : Z.of_nat (length (rst_queue h)) < max_pending_resets h ->
  pop_rst (enqueue_rst_config h tuple cfg) = Some (tuple, cfg, h).
Proof.
  intros Hl. unfold enqueue_rst_config, pop_rst. rewrite (proj2 (Z.ltb_lt _ _)) by done. cbn [rst_queue with_rst_queue].
  rewrite reverse_snoc, reverse_involutive. by destruct h.
Qed.

(** What is put into the queue is written next. *)
Lemma write_queued_rst o T h tuple cfg buf clock : handler_ok T h -> tuple_ok tuple -> rst_ok cfg ->
  Z.of_nat (length (rst_queue h)) < max_pending_resets h -> bytes_ok buf -> 40 <= slen buf <= MAX_IP_BUFFER ->
  let '(seq, ack, flags) := seq_ack_tcp_flags cfg in
  exists len buf', write_next_packet o (enqueue_rst_config h tuple cfg) buf clock =
      Ret (Ok (Some len, WriteNothing), h, buf') /\
    packet_for (local_ipv4_addr h) (local_port h) tuple (take (Z.to_nat len) buf') seq ack flags [].
Proof.
  intros I Ht Hcfg Hq Hb Hl.
  destruct (write_next_packet_head o (enqueue_rst_config h tuple cfg) buf clock Hb)
    as (total & csum & Hto & Hc & Hbb & El & ->); [lia|]. rewrite (pop_pushed h tuple cfg Hq).
  pose proof (write_rst_ok h tuple cfg total csum (drop 20 buf) (hi_local _ _ _ I) Ht Hcfg Hto Hc Hbb) as Hw.
  destruct (seq_ack_tcp_flags cfg) as [[seq ack] flags]. destruct Hw as (r & buf' & -> & _ & _ & Hr); [lia|].
  rewrite (proj2 (Z.ltb_ge _ _)) in Hr by lia. destruct Hr as (len & -> & _ & Hp). eauto.
Qed.

(** A segment that arrives from a peer without a connection, and is neither a SYN
    nor a RST, is answered, if there is room in the queue, with the next packet written:
    a RST to that peer, from the handler's address and port, whose sequence number is
    the acknowledgement number of the segment if it has one, and which otherwise
    acknowledges the segment's data; the handler is left as it was. *)
Theorem unexpected_segment_reset o o' T h packet s v callback isn clock clock' buf :
  handler_run T h -> bytes_ok packet -> ip_from_bytes packet false = Ret (Ok packet) ->
  ip_payload packet = Ret s -> tcp_from_bytes s None = Ret (Ok s) -> views s v ->
  v_dport v = local_port h ->
  (forall a, ip_source_address packet = Ret a -> connections h !! ConnectionTuple_new a (v_sport v) = None) ->
  v_flags v <> SYN -> intersects (v_flags v) RST = false ->
  Z.of_nat (length (rst_queue h)) < max_pending_resets h ->
  bytes_ok buf -> 40 <= slen buf <= MAX_IP_BUFFER ->
  exists a h1 len buf', ip_source_address packet = Ret a /\
    receive_packet o h packet callback isn clock = Done (Ok UnexpectedSegment, h1) /\
    write_next_packet o' h1 buf clock' = Ret (Ok (Some len, WriteNothing), h, buf') /\
    packet_for (local_ipv4_addr h) (local_port h) (ConnectionTuple_new a (v_sport v)) (take (Z.to_nat len) buf')
      (if intersects (v_flags v) ACK then v_ack v else 0)
      (if intersects (v_flags v) ACK then 0 else wadd 32 (v_seq v) (slen (v_payload v)))
      (if intersects (v_flags v) ACK then RST else Z.lor RST ACK) [].
Proof.
  intros Hr Hb Hp Es Et V Hd Hn Hns Hnr Hq Hbb Hbl. apply handler_run_ok in Hr as [HT I].
  destruct (ip_packet_read packet Hb Hp) as (s' & a & Es' & _ & _ & Ea & Ha).
  destruct (vs_ranges _ _ V) as (Hsp & _ & Hs & Hak & _). specialize (Hn a Ea).
  set (t := ConnectionTuple_new a (v_sport v)) in *. assert (Ht : tuple_ok t) by by split.
  set (cfg := if intersects (v_flags v) ACK then RstSeq (v_ack v) else RstAck (wadd 32 (v_seq v) (slen (v_payload v)))).
  assert (Hc : rst_ok cfg) by (unfold cfg; destruct (intersects (v_flags v) ACK); [done|apply wadd_range; lia]).
  assert (Ecfg : RstConfig_new s = Ret cfg).
  { unfold RstConfig_new, cfg. rewrite (vs_flags _ _ V), bind_Ret. destruct (intersects (v_flags v) ACK).
    - by rewrite (vs_ack _ _ V), bind_Ret.
    - by rewrite (vs_seq _ _ V), bind_Ret, (vs_payload_len _ _ V), bind_Ret, wadd_wrap. }
  pose proof (write_queued_rst o' T h t cfg buf clock' I Ht Hc Hq Hbb Hbl) as Hw.
  exists a, (enqueue_rst_config h t cfg).
  assert (Er : receive_packet o h packet callback isn clock = Done (Ok UnexpectedSegment, enqueue_rst_config h t cfg)).
  { unfold receive_packet. rewrite Es, Ea. cbn [lift]. rewrite bind_Done, Et. cbn [lift]. rewrite bind_Done.
    rewrite (vs_dport _ _ V), (vs_sport _ _ V), (vs_flags _ _ V). cbn [lift]. rewrite !bind_Done.
    rewrite Hd, Z.eqb_refl. cbn [negb]. fold t. rewrite Hn, (proj2 (Z.eqb_neq _ _) Hns), Hnr. cbn [negb].
    unfold enqueue_rst. by rewrite Ecfg. }
  unfold cfg in *. destruct (intersects (v_flags v) ACK); cbn [seq_ack_tcp_flags] in Hw;
    destruct Hw as (len & buf' & Ew & Hpf); by exists len, buf'.
Qed.
End HandlerRuns.

(** ** The address of the handler *)

(** No packet changes the address, the port or the limits of the handler. *)
Definition same_local (h h' : TcpIPv4Handler) : Prop :=
  local_ipv4_addr h' = local_ipv4_addr h /\ local_port h' = local_port h /\
  max_connections h' = max_connections h /\ max_pending_resets h' = max_pending_resets h.

#[export] Instance same_local_preorder : PreOrder same_local.
Proof. split; unfold same_local; [done|]. intros a b c. intuition congruence. Qed.

Ltac locals := first [assumption|reflexivity|by repeat split].

Section Locals.
Context `{Profile} `{Http}.
Variable o : Order.

Lemma refresh_local h tuple h' : refresh_timeout o h tuple = Ret h' -> same_local h h'.
Proof.
  unfold refresh_timeout. destruct (next_timeout h) as [[v t]|]; [|by intros [= <-]].
  destruct (bool_decide _); [|by intros [= <-]]. unfold find_next_timeout.
  intros (n & _ & [= <-])%bind_Ret_inv. locals.
Qed.

Lemma check_status_local h tuple st x : check_next_segment_status o h tuple st = Ret x -> same_local h x.2.
Proof.
  unfold check_next_segment_status. intros (h1 & E & [= <-])%bind_Ret_inv. apply refresh_local in E.
  etrans; [exact E|]. unfold check_timeout. destruct st; repeat case_match; locals.
Qed.

Lemma update_local h tuple st h' : update_status o h tuple st = Ret h' -> same_local h h'.
Proof.
  unfold update_status. intros ([b h1] & E & [= <-])%bind_Ret_inv. apply check_status_local in E.
  etrans; [exact E|]. destruct b; locals.
Qed.

Lemma add_local h tuple e h' : add_connection o h tuple e = Ret h' -> same_local h h'.
Proof.
  unfold add_connection. intros (st & _ & (x & E & [= <-])%bind_Ret_inv)%bind_Ret_inv.
  apply check_status_local in E. etrans; [exact E|locals].
Qed.

Lemma remove_local h tuple h' : remove_connection o h tuple = Ret h' -> same_local h h'.
Proof. intros E%refresh_local. etrans; [|exact E]. locals. Qed.

Lemma enqueue_config_local h tuple cfg : same_local h (enqueue_rst_config h tuple cfg).
Proof. unfold enqueue_rst_config. destruct (_ <? _); locals. Qed.

Lemma enqueue_local h tuple s h' : enqueue_rst h tuple s = Ret h' -> same_local h h'.
Proof. unfold enqueue_rst. intros (cfg & _ & [= <-])%bind_Ret_inv. apply enqueue_config_local. Qed.

Lemma receive_known_local h tuple e s callback now r h' :
  receive_known o h tuple e s callback now = Done (r, h') -> same_local h h'.
Proof.
  unfold receive_known. intros (e' & _ & E)%bind_Done_inv. destruct (ep_is_done e').
  - apply bind_Done_inv in E as (h1 & E%lift_Done_inv%remove_local & [= _ <-]). etrans; [|exact E]. locals.
  - apply bind_Done_inv in E as (st & _ & E).
    apply bind_Done_inv in E as (h1 & E%lift_Done_inv%update_local & [= _ <-]). etrans; [|exact E]. locals.
Qed.

Lemma receive_syn_local h tuple s isn clock r h' :
  receive_syn o h tuple s isn clock = Done (r, h') -> same_local h h'.
Proof.
  unfold receive_syn. intros ([e|e] & _ & E)%bind_Done_inv; [|by injection E as _ <-].
  destruct (_ <=? _).
  - destruct (find_evictable_connection o h clock) as [t|].
    + apply bind_Done_inv in E as (ev & _ & E).
      apply bind_Done_inv in E as (h1 & E1%lift_Done_inv%remove_local & E).
      apply bind_Done_inv in E as (h2 & E2%lift_Done_inv%add_local & [= _ <-]).
      etrans; [apply enqueue_config_local|]. by etrans.
    + by apply bind_Done_inv in E as (h1 & E1%lift_Done_inv%enqueue_local & [= _ <-]).
  - by apply bind_Done_inv in E as (h1 & E1%lift_Done_inv%add_local & [= _ <-]).
Qed.

Lemma receive_local h packet callback isn clock r h' :
  receive_packet o h packet callback isn clock = Done (r, h') -> same_local h h'.
Proof.
  unfold receive_packet. intros (b & _ & E)%bind_Done_inv.
  apply bind_Done_inv in E as ([s|e] & _ & E); [|by injection E as _ <-].
  apply bind_Done_inv in E as (dport & _ & E). destruct (negb _); [by injection E as _ <-|].
  apply bind_Done_inv in E as (src & _ & E). apply bind_Done_inv in E as (sport & _ & E).
  destruct (connections h !! _); [by apply receive_known_local in E|].
  apply bind_Done_inv in E as (flags & _ & E). destruct (_ =? _); [by apply receive_syn_local in E|].
  apply bind_Done_inv in E as (h1 & E1%lift_Done_inv & [= _ <-]).
  destruct (negb _); [by apply enqueue_local in E1|by injection E1 as <-].
Qed.

Lemma write_loop_local tuples : forall h head body clock i w h' buf,
  write_loop tuples h head body clock i = Ret (w, h', buf) -> same_local h h'.
Proof.
  induction tuples as [|t tuples IH]; intros h head body clock i w h' buf E; [by injection E as _ <- _|].
  cbn [write_loop] in E. apply bind_Ret_inv in E as (e & _ & E).
  apply bind_Ret_inv in E as ([[[seg|] e'] b] & _ & E); [|apply IH in E; by etrans; [|exact E]].
  apply bind_Ret_inv in E as (f & _ & [= _ <- _]). locals.
Qed.

Lemma write_local h buf clock r h' buf' :
  write_next_packet o h buf clock = Ret (r, h', buf') -> same_local h h'.
Proof.
  unfold write_next_packet. intros ([p|e] & _ & E)%bind_Ret_inv; [|by injection E as _ <- _].
  apply bind_Ret_inv in E as (hl & _ & E). apply bind_Ret_inv in E as (parts & _ & E).
  destruct (pop_rst h) as [[[t cfg] h1]|] eqn:Ep.
  - assert (H1 : same_local h h1).
    { unfold pop_rst in Ep. destruct (reverse _) as [|[]]; [done|]. injection Ep as _ _ <-. locals. }
    etrans; [exact H1|]. unfold write_rst in E. destruct (seq_ack_tcp_flags cfg) as [[seq ack] flags].
    apply bind_Ret_inv in E as ([[seg|e] b] & _ & E); [|by injection E as _ <- _].
    by apply bind_Ret_inv in E as (f & _ & [= _ <- _]).
  - apply bind_Ret_inv in E as ([[w h1] b] & Ew%write_loop_local & E). etrans; [exact Ew|].
    destruct w as [[[len t] d]|]; [|by injection E as _ <- _].
    apply bind_Ret_inv in E as ([ev h2] & Ea & [= _ <- _]). unfold after_write in Ea. destruct d.
    + by apply bind_Ret_inv in Ea as (h3 & E3%remove_local & [= _ <-]).
    + apply bind_Ret_inv in Ea as (e & _ & Ea). apply bind_Ret_inv in Ea as (st & _ & Ea).
      by apply bind_Ret_inv in Ea as (h3 & E3%update_local & [= _ <-]).
Qed.
End Locals.

(** A RST that answers a SYN acknowledges only what precedes it: an acknowledgement
    number that a peer which waits for [seq + 1] does not accept. *)
Lemma rst_for_syn_ack `{Profile} s v : views s v -> v_flags v = SYN -> v_payload v = [] ->
  RstConfig_new s = Ret (RstAck (v_seq v)).
Proof.
  intros V Hf Hp. unfold RstConfig_new. rewrite (vs_flags _ _ V), bind_Ret, Hf.
  change (intersects SYN ACK) with false. cbn iota.
  rewrite (vs_seq _ _ V), bind_Ret, (vs_payload_len _ _ V), bind_Ret, Hp.
  destruct (vs_ranges _ _ V) as (_ & _ & Hs & _). change (slen []) with 0. change (wrap 32 0) with 0.
  unfold wadd. by rewrite Z.add_0_r, wrap_id.
Qed.

(** ** A sample handler *)

Definition sample_order : Order :=
  mkOrder map_to_list elements (fun _ => Permutation_refl _) (fun _ => Permutation_refl _).
Definition sample_handler : TcpIPv4Handler := TcpIPv4Handler_new 0xa9fea9fe 80 30 100.
Definition sample_clock (i : nat) : Z := 1000.
Definition sample_packet (s : TcpSegment) : IPv4Packet :=
  ip_header (20 + slen s) 0 PROTOCOL_TCP 0xac100002 0xa9fea9fe ++ s.
Definition sample_frame : list Z := replicate 60 0.

Lemma sample_clock_ok : clock_ok 0 2000 sample_clock.
Proof. unfold clock_ok, sample_clock. split_and!; intros; lia. Qed.

Lemma sample_handler_run : handler_run (H := dev_profile) (H0 := sample_http) 0 sample_handler.
Proof. apply hr_new; unfold in_range; simpl Z.pow; lia. Qed.

(** A peer opens a connection, and the handler answers. *)
Lemma handler_safe_witness : exists h1 len h' buf',
  receive_packet (H := dev_profile) (H0 := sample_http) sample_order sample_handler (sample_packet (sample_seg 5000 0 SYN [])) sample_callback 7 sample_clock =
    Done (Ok NewConnectionSuccessful, h1) /\ size (connections h1) = 1%nat /\
  write_next_packet (H := dev_profile) sample_order h1 sample_frame (fun _ => 2000) = Ret (Ok (Some len, WriteNothing), h', buf') /\
  packet_out (H := dev_profile) h1 sample_frame (Ok (Some len, WriteNothing)) buf'.
Proof.
  assert (Ev : match receive_packet (H := dev_profile) (H0 := sample_http) sample_order sample_handler (sample_packet (sample_seg 5000 0 SYN [])) sample_callback 7 sample_clock with
    | Done (Ok NewConnectionSuccessful, h1) => (size (connections h1) =? 1)%nat && match write_next_packet (H := dev_profile) sample_order h1 sample_frame (fun _ => 2000) with Ret (Ok (Some _, WriteNothing), _, _) => true | _ => false end
    | _ => false end = true) by (vm_compute; reflexivity).
  destruct (receive_packet (H := dev_profile) (H0 := sample_http) sample_order sample_handler (sample_packet (sample_seg 5000 0 SYN [])) sample_callback 7 sample_clock) as [[[[]|e] h1]| |] eqn:E; try discriminate Ev.
  apply andb_prop in Ev as [Es Ew]. apply Nat.eqb_eq in Es.
  destruct (handler_safe (H := dev_profile) (H1 := sample_http_laws) 2000 h1) as (_ & _ & _ & _ & _ & Hw).
  - apply (hr_receive (H := dev_profile) (H0 := sample_http) sample_order 0 2000 sample_handler (sample_packet (sample_seg 5000 0 SYN [])) sample_callback 7 sample_clock (Ok NewConnectionSuccessful) h1);
      [exact sample_handler_run|lia|exact sample_clock_ok|by repeat constructor|reflexivity|exact sample_callback_ok|done|exact E].
  - destruct (Hw sample_order 2000 sample_frame (fun _ => 2000)) as (r & h' & buf' & Er & Hp); [lia|unfold clock_ok; split_and!; intros; lia|by repeat constructor|done|].
    rewrite Er in Ew. destruct r as [[[len|] []]|e]; try discriminate Ew. exists h1, len, h', buf'. split; [reflexivity|]. split; [exact Es|]. split; [exact Er|exact Hp].
Defined.

Lemma unexpected_segment_reset_witness :
  exists h1 len buf',
    receive_packet (H := dev_profile) (H0 := sample_http) sample_order sample_handler
      (sample_packet (sample_seg 5001 1001 ACK [])) sample_callback 7 sample_clock =
      Done (Ok UnexpectedSegment, h1) /\
    write_next_packet (H := dev_profile) sample_order h1 sample_frame sample_clock =
      Ret (Ok (Some len, WriteNothing), sample_handler, buf') /\
    packet_for (H := dev_profile) 0xa9fea9fe 80 (ConnectionTuple_new 0xac100002 1025) (take (Z.to_nat len) buf')
      1001 0 RST [].
Proof.
  destruct (unexpected_segment_reset (H := dev_profile) (H1 := sample_http_laws) sample_order sample_order 0
    sample_handler (sample_packet (sample_seg 5001 1001 ACK [])) (sample_seg 5001 1001 ACK [])
    (sample_view 5001 1001 ACK []) sample_callback 7 sample_clock sample_clock sample_frame)
    as (a & h1 & len & buf' & Ea & E1 & E2 & Hp).
  - exact sample_handler_run.
  - by repeat constructor.
  - reflexivity.
  - reflexivity.
  - reflexivity.
  - sample_segment.
  - reflexivity.
  - done.
  - done.
  - reflexivity.
  - done.
  - by repeat constructor.
  - unfold sample_frame, slen, MAX_IP_BUFFER. simpl. lia.
  - assert (a = 0xac100002) as -> by (injection Ea as <-; reflexivity).
    exists h1, len, buf'. split; [exact E1|]. split; [exact E2|exact Hp].
Defined.
