(* ===== verification/MmdsStack.v ===== *)
(** * The network stack of the metadata service

    Models [mmds/src/ns.rs]: a frame the guest sends is either taken by the stack (an ARP
    request or an IPv4 packet for its address) or left to the network device, and the
    frames the stack sends in reply are written to the guest's receive buffers.  It also
    models [utils/src/net/ipv4addr.rs].  The callback that answers requests is an
    argument; counting in [METRICS] is left out.

    - no frame makes the stack panic, and what it writes is a complete frame
      ([stack_safe]);
    - an ARP request for the address of the stack is answered ([arp_answered]);
    - a SYN with an option of length zero makes it loop for ever ([guest_syn_hangs]). *)

From Stdlib Require Import ZArith Lia.
From stdpp Require Import functions prelude gmap.
From S2P Require Import Prelude NetBytes PduLink NetMac PduIpv4 PduTcp TcpConnection TcpStream TcpWindow Http TcpEndpoint TcpHandler.

(** ** Link-local addresses *)

(** An [Ipv4Addr] is its number; [octet n] counts from the left. *)
Definition octet (n addr : Z) : Z := Z.land (Z.shiftr addr (8 * (3 - n))) 255.

Definition is_link_local_valid (addr : Z) : bool :=
  if (octet 0 addr =? 169) && (octet 1 addr =? 254) && (octet 2 addr =? 0) then false
  else if (octet 0 addr =? 169) && (octet 1 addr =? 254) && (octet 2 addr =? 255) then false
  else (octet 0 addr =? 169) && (octet 1 addr =? 254).

Lemma octet_div n addr : 0 <= n <= 3 -> octet n addr = addr / 2 ^ (8 * (3 - n)) mod 256.
Proof.
  intros Hn. unfold octet. rewrite Z.shiftr_div_pow2 by lia. change 255 with (Z.ones 8). by rewrite Z.land_ones by lia.
Qed.

(** The valid addresses are those from 169.254.1.0 to 169.254.254.255. *)
Lemma is_link_local_valid_range addr : in_range 32 addr ->
  is_link_local_valid addr = true <-> 0xa9fe0100 <= addr <= 0xa9fefeff.
Proof.
  unfold in_range, is_link_local_valid. intros Ha. rewrite !octet_div by lia.
  change (2 ^ (8 * (3 - 0))) with 16777216. change (2 ^ (8 * (3 - 1))) with 65536.
  change (2 ^ (8 * (3 - 2))) with 256. change (2 ^ 32) with 4294967296 in Ha.
  assert (E : (addr / 16777216 mod 256 =? 169) && (addr / 65536 mod 256 =? 254) = true <->
    0xa9fe = addr / 65536).
  { rewrite andb_true_iff, !Z.eqb_eq. Z.to_euclidean_division_equations; lia. }
  destruct ((addr / 16777216 mod 256 =? 169) && _) eqn:Eb.
  - cbn [andb]. pose proof (proj1 E eq_refl) as E1. bool_cases; Z.to_euclidean_division_equations; lia.
  - cbn [andb]. split; [done|]. intros Hr. apply E. Z.to_euclidean_division_equations; lia.
Qed.

(** ** The stack *)

(** The text 06:01:23:45:67:01. *)
Definition DEFAULT_MAC_ADDR : list Z :=
  [48; 54; 58; 48; 49; 58; 50; 51; 58; 52; 53; 58; 54; 55; 58; 48; 49].
Definition DEFAULT_IPV4_ADDR : Z := 0xa9fea9fe.
Definition DEFAULT_TCP_PORT : Z := 80.
Definition DEFAULT_MAX_CONNECTIONS : Z := 30.
Definition DEFAULT_MAX_PENDING_RESETS : Z := 100.

Inductive WriteArpFrameError := NoPendingArpReply | WafArp (e : ArpError) | WafEthernet (e : EthernetError).
Inductive WritePacketError := WpEthernet (e : EthernetError) | WpWriteNext (e : HandlerWriteError).

Record MmdsNetworkStack := mkStack {
  remote_mac_addr : MacAddr;
  mac_addr : MacAddr;
  ipv4_addr : Z;
  pending_arp_reply_dest : option Z;
  tcp_handler : TcpIPv4Handler }.

Definition stack_with_remote_mac (n : MmdsNetworkStack) v :=
  mkStack v (mac_addr n) (ipv4_addr n) (pending_arp_reply_dest n) (tcp_handler n).
Definition stack_with_pending (n : MmdsNetworkStack) v :=
  mkStack (remote_mac_addr n) (mac_addr n) (ipv4_addr n) v (tcp_handler n).
Definition stack_with_handler (n : MmdsNetworkStack) v :=
  mkStack (remote_mac_addr n) (mac_addr n) (ipv4_addr n) (pending_arp_reply_dest n) v.

Definition stack_new (mac : MacAddr) (addr tcp_port max_conn max_resets : Z) : MmdsNetworkStack :=
  mkStack mac mac addr None (TcpIPv4Handler_new addr tcp_port max_conn max_resets).
Definition stack_new_with_defaults (mmds_ipv4_addr : option Z) : exec MmdsNetworkStack :=
  match parse_str DEFAULT_MAC_ADDR with
  | Ok mac => Ret (stack_new mac (default DEFAULT_IPV4_ADDR mmds_ipv4_addr) DEFAULT_TCP_PORT
                     DEFAULT_MAX_CONNECTIONS DEFAULT_MAX_PENDING_RESETS)
  | Err _ => Panic
  end.
Definition set_ipv4_addr (n : MmdsNetworkStack) (addr : Z) : MmdsNetworkStack :=
  mkStack (remote_mac_addr n) (mac_addr n) addr (pending_arp_reply_dest n)
    (set_local_ipv4_addr (tcp_handler n) addr).

(** ** Saved state *)

Record MmdsNetworkStackState := mkStackState {
  st_mac_addr : MacAddr;
  st_ipv4_addr : Z;
  st_tcp_port : Z;
  st_max_connections : Z;
  st_max_pending_resets : Z }.

Definition stack_save (n : MmdsNetworkStack) : exec MmdsNetworkStackState :=
  mac ← copy_into (replicate 6 0) 0 6 (mac_addr n);
  Ret (mkStackState mac (ipv4_addr n) (local_port (tcp_handler n)) (max_connections (tcp_handler n))
         (max_pending_resets (tcp_handler n))).

(** [NonZeroUsize::new(n).unwrap()] *)
Definition non_zero (n : Z) : exec Z := if n =? 0 then Panic else Ret n.

Definition stack_restore (state : MmdsNetworkStackState) : exec MmdsNetworkStack :=
  mac ← MacAddr_from_bytes_unchecked (st_mac_addr state);
  max_connections ← non_zero (st_max_connections state);
  max_pending_resets ← non_zero (st_max_pending_resets state);
  Ret (stack_new mac (st_ipv4_addr state) (st_tcp_port state) max_connections max_pending_resets).

Section Stack.
Context `{Profile} `{Http}.
Variable o : Order.

(** ** Frames from the guest *)

Definition detour_arp (n : MmdsNetworkStack) (eth : EthernetFrame) : exec (bool * MmdsNetworkStack) :=
  bytes ← eth_payload eth;
  r ← arp_request_from_bytes bytes;
  match r with
  | Ok arp =>
      sha ← arp_sha arp;
      spa ← arp_spa arp;
      Ret (true, stack_with_pending (stack_with_remote_mac n sha) (Some spa))
  | Err _ => Ret (false, n)
  end.

Definition detour_ipv4 (n : MmdsNetworkStack) (eth : EthernetFrame) (callback : Request -> Response)
    (isn : Z) (clock : nat -> Z) : outcome (bool * MmdsNetworkStack) :=
  bytes ← lift (eth_payload eth);
  r ← lift (ip_from_bytes bytes false);
  match r with
  | Ok ip =>
      protocol ← lift (ip_protocol ip);
      if protocol =? PROTOCOL_TCP then
        mac ← lift (eth_src_mac eth);
        let n := stack_with_remote_mac n mac in
        x ← receive_packet o (tcp_handler n) ip callback isn clock;
        Done (true, stack_with_handler n x.2)
      else Done (true, n)
  | Err _ => Done (false, n)
  end.

Definition detour_frame (n : MmdsNetworkStack) (src : list Z) (callback : Request -> Response)
    (isn : Z) (clock : nat -> Z) : outcome (bool * MmdsNetworkStack) :=
  match eth_from_bytes src with
  | Ok eth =>
      ethertype ← lift (eth_ethertype eth);
      if ethertype =? ETHERTYPE_ARP then
        b ← lift (test_speculative_tpa src (ipv4_addr n));
        if negb b then Done (false, n) else lift (detour_arp n eth)
      else if ethertype =? ETHERTYPE_IPV4 then
        b ← lift (test_speculative_dst_addr src (ipv4_addr n));
        if negb b then Done (false, n) else detour_ipv4 n eth callback isn clock
      else Done (false, n)
  | Err _ => Done (false, n)
  end.

(** ** Frames to the guest *)

Definition prepare_eth_unsized (n : MmdsNetworkStack) (buf : list Z) (ethertype : Z)
    : exec (result EthernetFrame EthernetError) :=
  eth_write_incomplete buf (remote_mac_addr n) (mac_addr n) ethertype.

(** The frame of [len] bytes at the front of the buffer; [NonZeroUsize::new] of its
    length must not fail. *)
Definition frame_written (eth : EthernetFrame) (payload_len : Z) : exec (Z * list Z) :=
  f ← eth_with_payload_len_unchecked eth payload_len;
  if slen f =? 0 then Panic else Ret (slen f, write_back eth f).

Definition write_arp_reply (n : MmdsNetworkStack) (buf : list Z)
    : exec (result (option Z) WriteArpFrameError * list Z) :=
  match pending_arp_reply_dest n with
  | None => Ret (Err NoPendingArpReply, buf)
  | Some arp_reply_dest =>
      e ← prepare_eth_unsized n buf ETHERTYPE_ARP;
      match e with
      | Err e => Ret (Err (WafEthernet e), buf)
      | Ok eth =>
          hp ← split_at eth ETH_PAYLOAD_OFFSET;
          parts ← split_at hp.2 ETH_IPV4_FRAME_LEN;
          r ← arp_write_reply parts.1 (mac_addr n) (ipv4_addr n) (remote_mac_addr n) arp_reply_dest;
          match r with
          | Err e => Ret (Err (WafArp e), eth)
          | Ok arp =>
              f ← frame_written (hp.1 ++ arp ++ parts.2) (slen arp);
              Ret (Ok (Some f.1), f.2)
          end
      end
  end.

Definition write_packet (n : MmdsNetworkStack) (buf : list Z) (clock : nat -> Z)
    : exec (result (option Z) WritePacketError * MmdsNetworkStack * list Z) :=
  e ← prepare_eth_unsized n buf ETHERTYPE_IPV4;
  match e with
  | Err e => Ret (Err (WpEthernet e), n, buf)
  | Ok eth =>
      hp ← split_at eth ETH_PAYLOAD_OFFSET;
      w ← write_next_packet o (tcp_handler n) hp.2 clock;
      let '(r, h, body) := w : handler_write_result * TcpIPv4Handler * list Z in
      let n := stack_with_handler n h in
      match r with
      | Err e => Ret (Err (WpWriteNext e), n, hp.1 ++ body)
      | Ok (None, _) => Ret (Ok None, n, hp.1 ++ body)
      | Ok (Some packet_len, _) =>
          f ← frame_written (hp.1 ++ body) packet_len;
          Ret (Ok (Some f.1), n, f.2)
      end
  end.

(** [clock 0] is read to compare with the timeout, the later readings belong to the
    endpoints that write. *)
Definition write_next_frame (n : MmdsNetworkStack) (buf : list Z) (clock : nat -> Z)
    : exec (option Z * MmdsNetworkStack * list Z) :=
  match pending_arp_reply_dest n with
  | Some _ =>
      r ← write_arp_reply n buf;
      match r with
      | (Ok something, buf) => Ret (something, stack_with_pending n None, buf)
      | (Err _, buf) => Ret (None, n, buf)
      end
  | None =>
      let call_write :=
        match handler_next_segment_status (tcp_handler n) with
        | Available => true
        | Timeout value => value <=? clock 0%nat
        | Nothing => false
        end in
      if call_write then
        r ← write_packet n buf (fun i => clock (S i));
        match r with
        | (Ok something, n, buf) => Ret (something, n, buf)
        | (Err _, n, buf) => Ret (None, n, buf)
        end
      else Ret (None, n, buf)
  end.
End Stack.

(** ** The invariant of the stack *)

Lemma new_with_defaults_ok addr : stack_new_with_defaults addr =
  Ret (stack_new [6; 1; 35; 69; 103; 1] (default DEFAULT_IPV4_ADDR addr) 80 30 100).
Proof. reflexivity. Qed.

Lemma slen_eth_layout dst src t payload : slen dst = 6 -> slen src = 6 ->
  slen (eth_layout dst src t payload) = 14 + slen payload.
Proof. intros Hd Hs. unfold eth_layout. rewrite !slen_app, slen_be_encode, Hd, Hs. lia. Qed.

Section StackInvariant.
Context `{Profile} `{HttpLaws}.

Record stack_ok (T : Z) (n : MmdsNetworkStack) : Prop := {
  so_remote : mac_ok (remote_mac_addr n);
  so_mac : mac_ok (mac_addr n);
  so_addr : in_range 32 (ipv4_addr n);
  so_pending : forall a, pending_arp_reply_dest n = Some a -> in_range 32 a;
  so_handler : handler_run T (tcp_handler n);
  so_local : local_ipv4_addr (tcp_handler n) = ipv4_addr n
}.

Variable o : Order.

(** The parts of a frame. *)
Lemma eth_read src : bytes_ok src -> 14 <= slen src ->
  exists dst smac t, mac_ok dst /\ mac_ok smac /\ in_range 16 t /\ bytes_ok (drop 14 src) /\
    src = eth_layout dst smac t (drop 14 src).
Proof.
  intros Hb Hl. explode src Hl 14%nat. unfold bytes_ok in Hb. rewrite !Forall_cons in Hb.
  destruct Hb as (B0 & B1 & B2 & B3 & B4 & B5 & B6 & B7 & B8 & B9 & B10 & B11 & B12 & B13 & Hr).
  exists [b; b0; b1; b2; b3; b4], [b5; b6; b7; b8; b9; b10], (256 * b11 + b12).
  cbn [drop]. unfold eth_layout. rewrite be_encode_decode_2 by done.
  assert (Hm : forall x0 x1 x2 x3 x4 x5, byte_ok x0 -> byte_ok x1 -> byte_ok x2 -> byte_ok x3 -> byte_ok x4 ->
    byte_ok x5 -> mac_ok [x0; x1; x2; x3; x4; x5]).
  { intros. split; [done|]. unfold bytes_ok. rewrite !Forall_cons. by split_and!. }
  split; [by apply Hm|]. split; [by apply Hm|]. split; [|by split].
  unfold byte_ok, in_range in *. simpl Z.pow. lia.
Qed.

(** ** Frames from the guest *)

Lemma speculative_tpa_returns src addr : bytes_ok src -> exists b, test_speculative_tpa src addr = Ret b.
Proof.
  intros Hb. unfold test_speculative_tpa, ETH_PAYLOAD_OFFSET, ETH_IPV4_FRAME_LEN, slice_from.
  destruct (Z.leb_spec (14 + 28) (slen src)) as [Hl|Hl]; [|eauto].
  rewrite (proj2 (Z.leb_le _ _)), bind_Ret by lia. unfold arp_tpa, ETH_IPV4_TPA_OFFSET.
  assert (El : 28 <= slen (drop (Z.to_nat 14) src)) by (unfold slen in *; rewrite length_drop; lia).
  destruct (ntohl_ok (drop (Z.to_nat 14) src) 24) as (v & -> & _); [by apply Forall_drop|lia|]. rewrite bind_Ret. eauto.
Qed.

Lemma speculative_dst_returns src addr : bytes_ok src -> exists b, test_speculative_dst_addr src addr = Ret b.
Proof.
  intros Hb. unfold test_speculative_dst_addr, ETH_PAYLOAD_OFFSET, IP_OPTIONS_OFFSET, slice_from.
  destruct (Z.leb_spec (14 + 20) (slen src)) as [Hl|Hl]; [|eauto].
  rewrite (proj2 (Z.leb_le _ _)), bind_Ret by lia. unfold ip_destination_address, DESTINATION_ADDRESS_OFFSET.
  assert (El : 20 <= slen (drop (Z.to_nat 14) src)) by (unfold slen in *; rewrite length_drop; lia).
  destruct (ntohl_ok (drop (Z.to_nat 14) src) 16) as (v & -> & _); [by apply Forall_drop|lia|]. rewrite bind_Ret. eauto.
Qed.

Lemma stack_ok_mono T T' n : T <= T' -> stack_ok T n -> stack_ok T' n.
Proof. intros HT []. constructor; try done. by apply hr_wait with T. Qed.

Lemma detour_arp_ok T n eth p : stack_ok T n -> eth_payload eth = Ret p -> bytes_ok p ->
  exists b n', detour_arp n eth = Ret (b, n') /\ stack_ok T n' /\ (b = false -> n' = n).
Proof.
  intros I Ep Hp. unfold detour_arp. rewrite Ep, bind_Ret.
  destruct (arp_request_from_bytes_exact p Hp)
    as (r & -> & [[e ->]|(-> & sha & spa & tha & tpa & M1 & M2 & R1 & R2 & El)]); rewrite bind_Ret; [by eauto 8|].
  destruct (arp_layout_read OPER_REQUEST sha spa tha tpa (proj1 M1) (proj1 M2) ltac:(done) R1 R2)
    as (_ & _ & _ & _ & _ & E1 & E2 & _). rewrite <-El in E1, E2. rewrite E1, bind_Ret, E2, bind_Ret.
  do 2 eexists. split; [done|]. split; [|done]. destruct I. constructor; try done. by intros a [= <-].
Qed.

Lemma detour_ipv4_ok T T' n eth p smac callback isn clock : callback_ok callback -> stack_ok T n ->
  eth_payload eth = Ret p -> bytes_ok p -> eth_src_mac eth = Ret smac -> mac_ok smac ->
  clock_ok T T' clock -> T' < 2 ^ 63 -> in_range 32 isn ->
  detour_ipv4 o n eth callback isn clock = Hang \/
  exists b n', detour_ipv4 o n eth callback isn clock = Done (b, n') /\ stack_ok T' n' /\ (b = false -> n' = n).
Proof.
  intros Hcb I Epl Hpb Esm Hsm Hclk HT' Hisn. pose proof (clock_range _ _ _ 0 Hclk) as HT.
  assert (I' : stack_ok T' n) by (apply stack_ok_mono with T; [lia|done]).
  unfold detour_ipv4. rewrite Epl. cbn [lift]. rewrite bind_Done.
  destruct (ip_from_bytes_sound p false Hpb) as (r & Er & Hr).
  rewrite Er. cbn [lift]. rewrite bind_Done. destruct r as [p'|e]; [|eauto 8].
  destruct (Hr p' eq_refl) as (-> & _ & hl & _ & Hhl & _).
  destruct (index_ok p PROTOCOL_OFFSET Hpb) as (pr & Epr & _); [unfold PROTOCOL_OFFSET; lia|].
  unfold ip_protocol. rewrite Epr. cbn [lift]. rewrite bind_Done.
  destruct (pr =? PROTOCOL_TCP); [|right; by eauto 8].
  rewrite Esm. cbn [lift]. rewrite bind_Done. cbn [tcp_handler stack_with_remote_mac].
  destruct (handler_run_ok _ _ (so_handler _ _ I)) as [HT0 Ih].
  destruct (receive_packet_ok o T T' (tcp_handler n) p callback isn clock Hcb HT0 HT' Hclk Ih Hpb Er Hisn)
    as [->|(r & h' & E & _)]; [by left|]. right. rewrite E, bind_Done. do 2 eexists. split; [done|].
  split; [|done]. destruct I'. constructor; cbn; try done.
  - by apply (hr_receive o T T' (tcp_handler n) p callback isn clock r); [apply I|..].
  - apply receive_local in E as [-> _]. done.
Qed.

(** What the stack does not take leaves it as it was. *)
Lemma detour_ok T T' n src callback isn clock : callback_ok callback -> stack_ok T n -> bytes_ok src ->
  clock_ok T T' clock -> T' < 2 ^ 63 -> in_range 32 isn ->
  detour_frame o n src callback isn clock = Hang \/
  exists b n', detour_frame o n src callback isn clock = Done (b, n') /\ stack_ok T' n' /\ (b = false -> n' = n).
Proof.
  intros Hcb I Hb Hclk HT' Hisn. pose proof (clock_range _ _ _ 0 Hclk) as HT.
  assert (I' : stack_ok T' n) by (apply stack_ok_mono with T; [lia|done]).
  unfold detour_frame, eth_from_bytes, ETH_PAYLOAD_OFFSET.
  destruct (Z.ltb_spec (slen src) 14) as [Hl|Hl]; [eauto 8|].
  destruct (eth_read src Hb Hl) as (dst & smac & t & [Hd1 _] & Hs & Ht & Hpb & Esrc).
  destruct (eth_layout_read dst smac t (drop 14 src) Hd1 (proj1 Hs) Ht) as (_ & _ & Esm & Ety & Epl).
  rewrite <-Esrc in Esm, Ety, Epl. rewrite Ety. cbn [lift]. rewrite bind_Done. destruct (t =? ETHERTYPE_ARP).
  { right. destruct (speculative_tpa_returns src (ipv4_addr n) Hb) as [b ->].
    cbn [lift]. rewrite bind_Done. destruct b; cbn [negb]; [|eauto 8].
    destruct (detour_arp_ok T' n src _ I' Epl Hpb) as (b & n' & -> & HI). eauto. }
  destruct (t =? ETHERTYPE_IPV4); [|eauto 8]. destruct (speculative_dst_returns src (ipv4_addr n) Hb) as [b ->].
  cbn [lift]. rewrite bind_Done. destruct b; cbn [negb]; [|eauto 8].
  by apply (detour_ipv4_ok T T' n src (drop 14 src) smac).
Qed.

(** ** Frames to the guest *)

(** The buffer the network device offers. *)
Definition MAX_FRAME_BUFFER : Z := 14 + MAX_IP_BUFFER.

(** What is written: the reply to the pending ARP request, or a packet of the handler
    for the machine the last one came from. *)
Definition frame_for (n : MmdsNetworkStack) (f : list Z) : Prop :=
  match pending_arp_reply_dest n with
  | Some a => f = eth_layout (remote_mac_addr n) (mac_addr n) ETHERTYPE_ARP
                    (arp_layout OPER_REPLY (mac_addr n) (ipv4_addr n) (remote_mac_addr n) a)
  | None => exists p t seq ack flags data,
      f = eth_layout (remote_mac_addr n) (mac_addr n) ETHERTYPE_IPV4 p /\ tuple_ok t /\
      (slen p <= 65535 -> packet_for (ipv4_addr n) (local_port (tcp_handler n)) t p seq ack flags data)
  end.

Record frame_out (n : MmdsNetworkStack) (buf : list Z) (r : option Z) (n' : MmdsNetworkStack) (buf' : list Z)
    : Prop := {
  fo_len : slen buf' = slen buf;
  fo_bytes : bytes_ok buf';
  fo_frame : forall len, r = Some len -> 14 < len <= slen buf /\ frame_for n (take (Z.to_nat len) buf');
  fo_pending : pending_arp_reply_dest n' = None;
  fo_arp : is_Some (pending_arp_reply_dest n) -> r = Some 42 /\ tcp_handler n' = tcp_handler n
}.

Lemma split_layout dst src t payload : slen dst = 6 -> slen src = 6 ->
  split_at (eth_layout dst src t payload) ETH_PAYLOAD_OFFSET = Ret (dst ++ src ++ be_encode 2 t, payload).
Proof.
  intros Hd Hs. unfold split_at. pose proof (slen_nonneg payload).
  rewrite (proj2 (Z.leb_le _ _)) by (rewrite slen_eth_layout by done; unfold ETH_PAYLOAD_OFFSET; lia).
  assert (El : slen (dst ++ src ++ be_encode 2 t) = 14) by (rewrite !slen_app, slen_be_encode; lia).
  change (Z.to_nat ETH_PAYLOAD_OFFSET) with (Z.to_nat 14). rewrite <-El. unfold slen. rewrite Nat2Z.id.
  unfold eth_layout. rewrite !(assoc_L (++)), take_app_length, drop_app_length. done.
Qed.

Lemma layout_join dst src t body : (dst ++ src ++ be_encode 2 t) ++ body = eth_layout dst src t body.
Proof. unfold eth_layout. by rewrite <-!(assoc_L (++)). Qed.

Lemma take_layout dst src t body len : slen dst = 6 -> slen src = 6 -> 0 <= len ->
  take (Z.to_nat (14 + len)) (eth_layout dst src t body) = eth_layout dst src t (take (Z.to_nat len) body).
Proof.
  intros Hd Hs Hl. rewrite <-!layout_join. assert (El : slen (dst ++ src ++ be_encode 2 t) = 14).
  { rewrite !slen_app, slen_be_encode. lia. }
  rewrite take_app_ge by (unfold slen in El; lia). f_equal. f_equal. unfold slen in El. lia.
Qed.

Lemma frame_written_ok dst src t body len : slen dst = 6 -> slen src = 6 -> 0 <= len <= slen body ->
  len < 2 ^ 32 ->
  frame_written (eth_layout dst src t body) len = Ret (14 + len, eth_layout dst src t body).
Proof.
  intros Hd Hs Hl Hlt. unfold frame_written, eth_with_payload_len_unchecked, ETH_PAYLOAD_OFFSET.
  rewrite uadd_ok, bind_Ret by (unfold in_range; simpl Z.pow in *; lia). unfold shrink_unchecked.
  rewrite slen_eth_layout, (proj2 (Z.leb_le _ _)), bind_Ret by (first [done|lia]).
  assert (El : slen (take (Z.to_nat (14 + len)) (eth_layout dst src t body)) = 14 + len).
  { rewrite take_layout, slen_eth_layout by (first [done|lia]). unfold slen in *. rewrite length_take. lia. }
  rewrite El, (proj2 (Z.eqb_neq _ _)) by lia. unfold write_back. f_equal. f_equal.
  unfold slen in El. rewrite (length_take_le (eth_layout dst src t body) (Z.to_nat (14 + len))); [apply take_drop|].
  rewrite length_take in El. lia.
Qed.

Lemma be_encode_ok n v : bytes_ok (be_encode n v).
Proof. unfold be_encode. apply Forall_reverse, le_encode_ok. Qed.

Lemma eth_layout_bytes dst src t payload : bytes_ok dst -> bytes_ok src -> bytes_ok payload -> bytes_ok (eth_layout dst src t payload).
Proof. intros Hd Hs Hp. rewrite <-layout_join. repeat apply Forall_app_2; try done. apply be_encode_ok. Qed.

Lemma arp_layout_bytes oper sha spa tha tpa : bytes_ok sha -> bytes_ok tha -> bytes_ok (arp_layout oper sha spa tha tpa).
Proof.
  intros Hs Ht. unfold arp_layout. repeat apply Forall_app_2; try done; try apply be_encode_ok.
  repeat constructor; unfold MAC_ADDR_LEN, IPV4_ADDR_LEN; lia.
Qed.

Lemma write_arp_ok T n a buf : stack_ok T n -> pending_arp_reply_dest n = Some a -> 42 <= slen buf ->
  exists buf', write_arp_reply n buf = Ret (Ok (Some 42), buf') /\ slen buf' = slen buf /\ (bytes_ok buf -> bytes_ok buf') /\
    take 42 buf' = eth_layout (remote_mac_addr n) (mac_addr n) ETHERTYPE_ARP
      (arp_layout OPER_REPLY (mac_addr n) (ipv4_addr n) (remote_mac_addr n) a).
Proof.
  intros [[Hr Hrb] [Hm Hmb] _ _ _ _] Ep Hl. unfold write_arp_reply, prepare_eth_unsized, eth_write_incomplete.
  rewrite Ep, eth_new_with_header_spec by done. rewrite (proj2 (Z.ltb_ge _ _)), bind_Ret by lia.
  rewrite split_layout, bind_Ret by done. cbn [fst snd].
  set (rest := drop 14 buf). assert (Erl : slen rest = slen buf - 14) by (unfold rest, slen in *; rewrite length_drop; lia).
  unfold split_at at 1, ETH_IPV4_FRAME_LEN. rewrite (proj2 (Z.leb_le _ _)), bind_Ret by lia. cbn [fst snd].
  unfold arp_write_reply. rewrite arp_write_raw_spec, bind_Ret by done.
  rewrite (proj2 (Z.eqb_eq _ _)) by (unfold slen in *; rewrite length_take; lia).
  set (arp := arp_layout _ _ _ _ _). assert (Ea : slen arp = 28) by by apply arp_layout_len.
  rewrite layout_join, frame_written_ok, bind_Ret by (first [done|rewrite ?slen_app, Ea; simpl Z.pow; unfold slen; lia]).
  cbn [fst snd]. rewrite Ea. eexists. split; [done|]. split.
  - rewrite slen_eth_layout, slen_app, Ea by done. unfold slen in *. rewrite length_drop. lia.
  - split; [intros Hb; apply eth_layout_bytes; [done|done|]; apply Forall_app; split; [by apply arp_layout_bytes|by apply Forall_drop, Forall_drop]|].
    change 42%nat with (Z.to_nat (14 + 28)). rewrite take_layout by done. rewrite <-Ea. unfold slen.
    by rewrite Nat2Z.id, take_app_length.
Qed.

Lemma write_packet_ok T T' n buf clock : stack_ok T n -> bytes_ok buf -> 14 <= slen buf <= MAX_FRAME_BUFFER ->
  clock_ok T T' clock -> T' < 2 ^ 63 -> pending_arp_reply_dest n = None ->
  exists r n' buf', write_packet o n buf clock = Ret (r, n', buf') /\ stack_ok T' n' /\
    frame_out n buf (match r with Ok x => x | Err _ => None end) n' buf'.
Proof.
  intros I Hb Hl Hclk HT' Hp. pose proof I as [[Hr Hrb0] [Hm Hmb0] _ _ Hrun Hloc]. pose proof (clock_range _ _ _ 0 Hclk) as HT.
  unfold write_packet, prepare_eth_unsized, eth_write_incomplete, MAX_FRAME_BUFFER in *.
  rewrite eth_new_with_header_spec by done. rewrite (proj2 (Z.ltb_ge _ _)), bind_Ret by lia.
  rewrite split_layout, bind_Ret by done. cbn [fst snd].
  set (rest := drop 14 buf). assert (Erl : slen rest = slen buf - 14) by (unfold rest, slen in *; rewrite length_drop; lia).
  destruct (handler_run_ok _ _ Hrun) as [HT0 Ih]. assert (Hrb : bytes_ok rest) by by apply Forall_drop.
  destruct (write_next_packet_ok o T T' (tcp_handler n) rest clock HT0 HT' Hclk Ih Hrb ltac:(lia))
    as (r & h' & body & E & _ & [Pl Pb Pp]). rewrite E, bind_Ret.
  assert (I' : stack_ok T' (stack_with_handler n h')).
  { destruct (stack_ok_mono T T' n ltac:(lia) I). constructor; cbn; try done.
    - apply (hr_write o T T' (tcp_handler n) rest clock r h' body); try done. lia.
    - by apply write_local in E as [-> _]. }
  assert (Hfl : slen ((remote_mac_addr n ++ mac_addr n ++ be_encode 2 ETHERTYPE_IPV4) ++ body) = slen buf).
  { rewrite layout_join, slen_eth_layout by done. lia. }
  assert (Hfb : bytes_ok ((remote_mac_addr n ++ mac_addr n ++ be_encode 2 ETHERTYPE_IPV4) ++ body)) by (rewrite layout_join; by apply eth_layout_bytes).
  assert (Hno : forall x, slen x = slen buf -> bytes_ok x -> frame_out n buf None (stack_with_handler n h') x).
  { intros x Hx Hxb. constructor; try done. rewrite Hp. by intros []. }
  destruct r as [[[len|] ev]|e]; [|by do 3 eexists; split; [done|]; split; [done|]; apply Hno..].
  destruct (Pp len ev eq_refl) as (Hlen & t & seq & ack & flags & data & Ht & Hpf).
  assert (Ets : slen (take (Z.to_nat len) body) = len) by (unfold slen in *; rewrite length_take; lia).
  rewrite layout_join, frame_written_ok, bind_Ret
    by (first [done|unfold MAX_IP_BUFFER in *; simpl Z.pow; lia]).
  cbn [fst snd]. do 3 eexists. split; [done|]. split; [done|].
  constructor; [by rewrite <-layout_join|by rewrite <-layout_join| |done|rewrite Hp; by intros []].
  intros l [= <-]. split; [lia|]. unfold frame_for. rewrite Hp, <-Hloc, take_layout by (first [done|lia]).
  exists (take (Z.to_nat len) body), t, seq, ack, flags, data. rewrite Ets. by split_and!.
Qed.

Lemma clock_later T T' clock : clock_ok T T' clock -> clock_ok T T' (fun i => clock (S i)).
Proof. intros (Hb & Hs & HT). split; [specialize (Hs 0%nat); lia|]. by split. Qed.

Lemma write_next_frame_ok T T' n buf clock : stack_ok T n -> bytes_ok buf -> 42 <= slen buf <= MAX_FRAME_BUFFER ->
  clock_ok T T' clock -> T' < 2 ^ 63 ->
  exists r n' buf', write_next_frame o n buf clock = Ret (r, n', buf') /\ stack_ok T' n' /\ frame_out n buf r n' buf'.
Proof.
  intros I Hb Hl Hclk HT'. pose proof (clock_range _ _ _ 0 Hclk) as HT.
  assert (I' : stack_ok T' n) by (apply stack_ok_mono with T; [lia|done]).
  unfold write_next_frame. destruct (pending_arp_reply_dest n) as [a|] eqn:Ep.
  - destruct (write_arp_ok T n a buf I Ep ltac:(lia)) as (buf' & -> & El & Eb & Ef). rewrite bind_Ret.
    do 3 eexists. split; [done|]. split; [by destruct I'; constructor|]. constructor; [done|by apply Eb| |done|done].
    intros len [= <-]. split; [lia|]. unfold frame_for. by rewrite Ep.
  - assert (Hno : frame_out n buf None n buf) by (constructor; try done; rewrite Ep; by intros []).
    destruct (match handler_next_segment_status (tcp_handler n) with
      | Available => true | Timeout value => value <=? clock 0%nat | Nothing => false end); [|eauto 8].
    destruct (write_packet_ok T T' n buf (fun i => clock (S i)) I Hb ltac:(lia) (clock_later _ _ _ Hclk) HT' Ep)
      as (r & n' & buf' & -> & I2 & Hf). rewrite bind_Ret. destruct r; eauto 8.
Qed.
End StackInvariant.

(** ** Runs of the stack *)

Section StackRuns.
Context `{Profile} `{HttpLaws}.

(** [stack_run T n]: the stack can be [n] at time [T]. *)
Inductive stack_run : Z -> MmdsNetworkStack -> Prop :=
| sr_new T mac addr port max_conn max_resets : 0 <= T -> mac_ok mac -> in_range 32 addr -> in_range 16 port ->
    0 < max_conn -> 0 < max_resets -> stack_run T (stack_new mac addr port max_conn max_resets)
| sr_address T n addr : stack_run T n -> in_range 32 addr -> stack_run T (set_ipv4_addr n addr)
| sr_wait T T' n : stack_run T n -> T <= T' -> stack_run T' n
| sr_detour o T T' n src callback isn clock b n' : stack_run T n -> T' < 2 ^ 63 -> clock_ok T T' clock ->
    bytes_ok src -> callback_ok callback -> in_range 32 isn ->
    detour_frame o n src callback isn clock = Done (b, n') -> stack_run T' n'
| sr_write o T T' n buf clock r n' buf' : stack_run T n -> T' < 2 ^ 63 -> clock_ok T T' clock ->
    bytes_ok buf -> 42 <= slen buf <= MAX_FRAME_BUFFER ->
    write_next_frame o n buf clock = Ret (r, n', buf') -> stack_run T' n'.

Lemma stack_run_ok T n : stack_run T n -> stack_ok T n.
Proof.
  induction 1 as [T mac addr port mc mr|T n addr _ I Ha|T T' n _ I HT
    |o T T' n src cb isn clock b n' _ I HT' Hclk Hb Hcb Hi E|o T T' n buf clock r n' buf' _ I HT' Hclk Hb Hl E].
  - constructor; cbn; try done. by apply hr_new.
  - destruct I. constructor; cbn; try done. by apply hr_address.
  - by apply stack_ok_mono with T.
  - destruct (detour_ok o T T' n src cb isn clock Hcb I Hb Hclk HT' Hi) as [E'|(b1 & n1 & E' & I' & _)]; [congruence|].
    by assert (n1 = n') as -> by congruence.
  - destruct (write_next_frame_ok o T T' n buf clock I Hb Hl Hclk HT') as (r1 & n1 & b1 & E' & I' & _).
    by assert (n1 = n') as -> by congruence.
Qed.

(** C29: in every state the stack can reach, no frame from the guest makes it panic, and
    a frame it does not take leaves it unchanged; into every buffer that holds at least
    an ARP reply it writes either nothing or one frame from its own address to the
    machine it last heard from: the pending ARP reply, which comes first and leaves the
    connections alone, or a complete IPv4 packet around a TCP segment with valid
    checksums from its IP address and port. *)
Theorem stack_safe T n : stack_run T n ->
  (forall o T' src callback isn clock, bytes_ok src -> T' < 2 ^ 63 -> clock_ok T T' clock ->
     callback_ok callback -> in_range 32 isn ->
     detour_frame o n src callback isn clock = Hang \/
     exists b n', detour_frame o n src callback isn clock = Done (b, n') /\ (b = false -> n' = n)) /\
  (forall o T' buf clock, bytes_ok buf -> 42 <= slen buf <= MAX_FRAME_BUFFER -> T' < 2 ^ 63 -> clock_ok T T' clock ->
     exists r n' buf', write_next_frame o n buf clock = Ret (r, n', buf') /\ frame_out n buf r n' buf').
Proof.
  intros I%stack_run_ok. split.
  - intros o T' src cb isn clock Hb HT' Hclk Hcb Hi.
    destruct (detour_ok o T T' n src cb isn clock Hcb I Hb Hclk HT' Hi) as [E|(b & n' & E & _ & Hf)]; eauto.
  - intros o T' buf clock Hb Hl HT' Hclk.
    destruct (write_next_frame_ok o T T' n buf clock I Hb Hl Hclk HT') as (r & n' & buf' & E & _ & Hf). eauto.
Qed.

Lemma limits_run T h : handler_run T h -> 0 < max_connections h /\ 0 < max_pending_resets h.
Proof.
  induction 1 as [| | |o T T' h p cb isn clock r h' _ IH _ _ _ _ _ _ E|o T T' h buf clock r h' buf' _ IH _ _ _ _ E];
    try done; [apply receive_local in E|apply write_local in E]; destruct E as (_ & _ & -> & ->); done.
Qed.

(** Saving and restoring, which never panic, give a stack with the address, port and
    limits of the saved one and no connections: a state the stack could have been created
    in. *)
Lemma stack_persist T n : stack_run T n ->
  (state ← stack_save n; stack_restore state) =
    Ret (stack_new (mac_addr n) (ipv4_addr n) (local_port (tcp_handler n)) (max_connections (tcp_handler n))
           (max_pending_resets (tcp_handler n))).
Proof.
  intros [_ [Hm _] _ _ Hh _]%stack_run_ok. destruct (limits_run _ _ Hh) as [Hc Hr].
  destruct (mac_addr n) as [|a [|b [|c [|d [|e [|f [|g l]]]]]]] eqn:Em; try done.
  2: { unfold slen in Hm. cbn in Hm. lia. }
  unfold stack_save, stack_restore, non_zero, MacAddr_from_bytes_unchecked. rewrite Em.
  assert (forall x y, copy_into (replicate 6 0) 0 6 [x; b; c; d; e; y] = Ret [x; b; c; d; e; y]) as Hcp by done.
  rewrite Hcp, !bind_Ret. cbn [st_mac_addr st_max_connections st_max_pending_resets st_ipv4_addr st_tcp_port].
  rewrite Hcp, bind_Ret, !(proj2 (Z.eqb_neq _ _)) by lia. reflexivity.
Qed.

(** The frame of an ARP request of [sha] and [spa] for [tpa]. *)
Definition arp_request_frame (dst src sha : MacAddr) (spa : Z) (tha : MacAddr) (tpa : Z) : list Z :=
  eth_layout dst src ETHERTYPE_ARP (arp_layout OPER_REQUEST sha spa tha tpa).

Lemma detour_request o n dst src sha spa tha callback isn clock :
  slen dst = 6 -> slen src = 6 -> slen sha = 6 -> slen tha = 6 -> in_range 32 spa -> in_range 32 (ipv4_addr n) ->
  detour_frame o n (arp_request_frame dst src sha spa tha (ipv4_addr n)) callback isn clock =
    Done (true, stack_with_pending (stack_with_remote_mac n sha) (Some spa)).
Proof.
  intros Hd Hs Hsh Hth Hsp Ha. unfold detour_frame, arp_request_frame. set (a := arp_layout _ _ _ _ _).
  destruct (eth_layout_read dst src ETHERTYPE_ARP a Hd Hs ltac:(done)) as (-> & _ & _ & -> & Ep).
  cbn [lift]. rewrite bind_Done. change (ETHERTYPE_ARP =? ETHERTYPE_ARP) with true. cbn iota.
  pose proof (test_speculative_tpa_complete dst src sha spa tha (ipv4_addr n) [] Hd Hs Hsh Hth Hsp Ha) as Et.
  rewrite app_nil_r in Et. fold a in Et. rewrite Et. cbn [lift negb]. rewrite bind_Done. unfold detour_arp.
  rewrite Ep, bind_Ret. pose proof (arp_request_accepts sha spa tha (ipv4_addr n) Hsh Hth Hsp Ha) as Er.
  cbv zeta in Er. fold a in Er. rewrite Er, bind_Ret.
  destruct (arp_layout_read OPER_REQUEST sha spa tha (ipv4_addr n) Hsh Hth ltac:(done) Hsp Ha)
    as (_ & _ & _ & _ & _ & E1 & E2 & _). fold a in E1, E2. by rewrite E1, bind_Ret, E2, bind_Ret.
Qed.

(** An ARP request for the address of the stack is taken, and the next frame written
    is the reply to its sender, with the hardware address of the stack; then nothing is
    pending and the handler is as before. *)
Theorem arp_answered o o' T n dst src sha spa tha callback isn clock clock' buf :
  stack_run T n -> mac_ok dst -> mac_ok src -> mac_ok sha -> mac_ok tha -> in_range 32 spa -> 42 <= slen buf ->
  exists n1 buf',
    detour_frame o n (arp_request_frame dst src sha spa tha (ipv4_addr n)) callback isn clock = Done (true, n1) /\
    write_next_frame o' n1 buf clock' =
      Ret (Some 42, stack_with_pending (stack_with_remote_mac n sha) None, buf') /\
    take 42 buf' = eth_layout sha (mac_addr n) ETHERTYPE_ARP
      (arp_layout OPER_REPLY (mac_addr n) (ipv4_addr n) sha spa).
Proof.
  intros I%stack_run_ok [Hd _] [Hs _] Hsh [Hth _] Hsp Hl. set (n1 := stack_with_pending (stack_with_remote_mac n sha) (Some spa)).
  assert (I1 : stack_ok T n1) by (destruct I; constructor; try done; by intros a [= <-]).
  destruct (write_arp_ok T n1 spa buf I1 eq_refl Hl) as (buf' & E & _ & _ & Ef). exists n1, buf'.
  split; [apply detour_request; try done; [apply Hsh|apply I]|].
  unfold write_next_frame. cbn [pending_arp_reply_dest n1 stack_with_pending]. rewrite E. by split.
Qed.

(** A frame that is longer than the request, as a padded one is, is not taken. *)
Lemma padded_request_ignored o n dst src sha spa tha tpa pad callback isn clock :
  mac_ok dst -> mac_ok src -> mac_ok sha -> mac_ok tha -> in_range 32 spa -> tpa = ipv4_addr n ->
  in_range 32 tpa -> pad <> [] ->
  detour_frame o n (arp_request_frame dst src sha spa tha tpa ++ pad) callback isn clock = Done (false, n).
Proof.
  intros [Hd _] [Hs _] [Hsh _] [Hth _] Hsp -> Ha Hp. unfold detour_frame, arp_request_frame.
  rewrite <-layout_join, <-(assoc_L (++)), layout_join. set (a := arp_layout _ _ _ _ _).
  destruct (eth_layout_read dst src ETHERTYPE_ARP (a ++ pad) Hd Hs ltac:(done)) as (-> & _ & _ & -> & Ep).
  cbn [lift]. rewrite bind_Done. change (ETHERTYPE_ARP =? ETHERTYPE_ARP) with true. cbn iota.
  unfold a. rewrite test_speculative_tpa_complete by done. fold a. cbn [lift negb]. rewrite bind_Done. unfold detour_arp.
  rewrite Ep, bind_Ret. unfold arp_request_from_bytes. rewrite slen_app.
  assert (Ea : slen a = 28) by by apply arp_layout_len. rewrite (proj2 (Z.eqb_neq _ _)); [done|].
  unfold ETH_IPV4_FRAME_LEN. destruct pad; [done|]. rewrite slen_cons. pose proof (slen_nonneg pad). lia.
Qed.

Lemma syn_hangs s v b j isn now : views s v -> v_flags v = SYN -> v_payload v = [] -> bytes_ok s ->
  header_len s = Ret (slen s) -> options_unchecked s (slen s) = Ret b -> rtc (mss_next b) 0 j -> mss_stuck b j ->
  Endpoint_new_with_defaults s isn now = Hang.
Proof.
  intros V Hf Hp Hb Eh Eo Hr Hst. unfold Endpoint_new_with_defaults, Endpoint_new, passive_open, is_valid_syn.
  change (RCV_BUF_MAX_SIZE <=? MAX_WINDOW_SIZE) with true. cbn iota.
  rewrite (vs_flags _ _ V), bind_Ret, Hf. change (SYN =? SYN) with true. cbn iota.
  rewrite (vs_payload_len _ _ V), bind_Ret, Hp. cbn [lift]. rewrite bind_Done.
  change (negb (slen [] =? 0)) with false. cbn iota. unfold parse_mss_option. rewrite Eh. cbn [lift].
  rewrite bind_Done. unfold parse_mss_option_unchecked. rewrite Eo. cbn [lift]. rewrite bind_Done.
  by rewrite (parse_mss_reach_stuck b 0 j _ (options_bytes_ok _ _ _ Hb Eo) ltac:(lia) Hr Hst).
Qed.

(** C39: one well-formed frame stops the device: a SYN from a peer without a connection,
    whose options the parser cannot leave ([mss_stuck]), makes [detour_frame] loop for
    ever. *)
Theorem guest_syn_hangs o T n dst src a s v b j callback isn clock :
  stack_run T n -> mac_ok dst -> mac_ok src -> in_range 32 a -> bytes_ok s -> 20 + slen s < 65536 ->
  tcp_from_bytes s None = Ret (Ok s) -> views s v -> v_flags v = SYN -> v_payload v = [] ->
  v_dport v = local_port (tcp_handler n) -> connections (tcp_handler n) !! ConnectionTuple_new a (v_sport v) = None ->
  header_len s = Ret (slen s) -> options_unchecked s (slen s) = Ret b -> rtc (mss_next b) 0 j -> mss_stuck b j ->
  let total := 20 + slen s in
  let csum := ip_csum total PROTOCOL_TCP a (ipv4_addr n) in
  detour_frame o n (eth_layout dst src ETHERTYPE_IPV4
    (ip_header total csum PROTOCOL_TCP a (ipv4_addr n) ++ s)) callback isn clock = Hang.
Proof.
  intros I%stack_run_ok [Hd _] [Hs _] Ha Hb Hl Et V Hf Hp Hdp Hn Eh Eo Hr Hst total csum.
  pose proof (so_addr _ _ I) as Haddr. pose proof (slen_nonneg s).
  assert (Htot : in_range 16 total) by (unfold total, in_range; simpl Z.pow; lia).
  unfold detour_frame. set (p := ip_header _ _ _ _ _ ++ s).
  destruct (eth_layout_read dst src ETHERTYPE_IPV4 p Hd Hs ltac:(done)) as (-> & _ & Esm & -> & Ep).
  cbn [lift]. rewrite bind_Done. change (ETHERTYPE_IPV4 =? ETHERTYPE_ARP) with false.
  change (ETHERTYPE_IPV4 =? ETHERTYPE_IPV4) with true. cbn iota.
  assert (Esp : test_speculative_dst_addr (eth_layout dst src ETHERTYPE_IPV4 p) (ipv4_addr n) = Ret true)
    by by apply test_speculative_dst_addr_complete.
  rewrite Esp. cbn [lift negb]. rewrite bind_Done.
  unfold detour_ipv4. rewrite Ep. cbn [lift]. rewrite bind_Done.
  assert (Eip : ip_from_bytes p false = Ret (Ok p)) by (apply ip_from_bytes_complete; first [done|lia]).
  rewrite Eip. cbn [lift]. rewrite bind_Done.
  destruct (ip_header_read total csum PROTOCOL_TCP a (ipv4_addr n) s) as (_ & _ & Epr & _ & Esa & _ & Epy); try done.
  { by apply ip_csum_range. }
  fold p in Epr, Esa, Epy. rewrite Epr. cbn [lift]. rewrite bind_Done.
  change (PROTOCOL_TCP =? PROTOCOL_TCP) with true. cbn iota. rewrite Esm. cbn [lift]. rewrite bind_Done.
  cbn [tcp_handler stack_with_remote_mac]. unfold receive_packet. rewrite Epy. cbn [lift]. rewrite bind_Done, Et.
  cbn [lift]. rewrite bind_Done, (vs_dport _ _ V), Esa, (vs_sport _ _ V), (vs_flags _ _ V). cbn [lift].
  rewrite !bind_Done, Hdp, Z.eqb_refl. cbn [negb]. rewrite Hn, Hf. change (SYN =? SYN) with true. cbn iota.
  unfold receive_syn. by rewrite (syn_hangs s v b j).
Qed.
End StackRuns.

(** ** A sample stack *)

Definition sample_mac : MacAddr := [6; 1; 35; 69; 103; 1].
Definition guest_mac : MacAddr := [17; 17; 17; 34; 34; 34].
Definition sample_stack : MmdsNetworkStack := stack_new sample_mac DEFAULT_IPV4_ADDR 80 30 100.

Lemma sample_mac_ok : mac_ok sample_mac /\ mac_ok guest_mac.
Proof. split; (split; [done|]); repeat (constructor; [unfold byte_ok; lia|]); constructor. Qed.

Lemma sample_stack_run : stack_run (H := dev_profile) (H0 := sample_http) 0 sample_stack.
Proof.
  apply sr_new; [lia|apply sample_mac_ok|..]; unfold in_range, DEFAULT_IPV4_ADDR; simpl Z.pow; lia.
Qed.

Lemma stack_safe_witness :
  exists r n' buf', write_next_frame (H := dev_profile) sample_order sample_stack sample_frame sample_clock =
    Ret (r, n', buf') /\ frame_out (H := dev_profile) sample_stack sample_frame r n' buf'.
Proof.
  destruct (stack_safe (H := dev_profile) (H1 := sample_http_laws) 0 sample_stack sample_stack_run) as [_ Hw].
  apply (Hw sample_order 2000 sample_frame sample_clock);
    [by repeat constructor|unfold sample_frame, slen, MAX_FRAME_BUFFER, MAX_IP_BUFFER; simpl; lia|lia
    |apply sample_clock_ok].
Defined.

Lemma arp_answered_witness :
  exists n1 buf',
    detour_frame (H := dev_profile) (H0 := sample_http) sample_order sample_stack
      (arp_request_frame (replicate 6 255) guest_mac guest_mac 0xac100002 (replicate 6 0) DEFAULT_IPV4_ADDR)
      sample_callback 7 sample_clock = Done (true, n1) /\
    write_next_frame (H := dev_profile) sample_order n1 sample_frame sample_clock =
      Ret (Some 42, stack_with_pending (stack_with_remote_mac sample_stack guest_mac) None, buf') /\
    take 42 buf' = eth_layout guest_mac sample_mac ETHERTYPE_ARP
      (arp_layout OPER_REPLY sample_mac DEFAULT_IPV4_ADDR guest_mac 0xac100002).
Proof.
  apply (arp_answered (H := dev_profile) (H1 := sample_http_laws) sample_order sample_order 0 sample_stack
    (replicate 6 255) guest_mac guest_mac 0xac100002 (replicate 6 0) sample_callback 7 sample_clock sample_clock sample_frame).
  - exact sample_stack_run.
  - split; [done|]. repeat (constructor; [unfold byte_ok; lia|]); constructor.
  - apply sample_mac_ok.
  - apply sample_mac_ok.
  - split; [done|]. repeat (constructor; [unfold byte_ok; lia|]); constructor.
  - unfold in_range. simpl Z.pow. lia.
  - unfold sample_frame, slen. simpl. lia.
Defined.

Definition hanging_view : view := mkView 1024 80 1 0 SYN 4096 [] Hang.

Lemma hanging_views : views (H := dev_profile) hanging_syn hanging_view.
Proof.
  constructor; try reflexivity; try done. constructor.
Qed.

Lemma guest_syn_hangs_witness :
  let total := 44 in
  let csum := ip_csum total PROTOCOL_TCP 0xac100002 DEFAULT_IPV4_ADDR in
  detour_frame (H := dev_profile) (H0 := sample_http) sample_order sample_stack
    (eth_layout sample_mac guest_mac ETHERTYPE_IPV4
      (ip_header total csum PROTOCOL_TCP 0xac100002 DEFAULT_IPV4_ADDR ++ hanging_syn))
    sample_callback 7 sample_clock = Hang.
Proof.
  apply (guest_syn_hangs (H := dev_profile) (H1 := sample_http_laws) sample_order 0 sample_stack sample_mac guest_mac
    0xac100002 hanging_syn hanging_view hanging_options 0 sample_callback 7 sample_clock).
  - exact sample_stack_run.
  - apply sample_mac_ok.
  - apply sample_mac_ok.
  - unfold in_range. simpl Z.pow. lia.
  - repeat (constructor; [unfold byte_ok; lia|]). constructor.
  - reflexivity.
  - reflexivity.
  - exact hanging_views.
  - reflexivity.
  - reflexivity.
  - reflexivity.
  - reflexivity.
  - reflexivity.
  - reflexivity.
  - constructor.
  - apply (next_other hanging_options 0 3 0); first [reflexivity|done].
Defined.
