(* ===== verification/MmdsToken.v ===== *)
(** * Session tokens of the metadata service

    Models [mmds/src/token.rs] and [mmds/src/token_headers.rs]: a token is the encrypted
    time at which it expires.  The cipher ([aes_gcm]), the binary encoding ([bincode])
    and [base64] are parameters with the laws a token relies on; what the authority reads
    from the entropy pool and from the clock are arguments of its operations.  The fixed
    sizes of the arrays in a token are part of the laws of decoding.

    - a token is valid exactly until the time to live it was asked for has passed
      ([token_lifetime]);
    - no more than 2^32 - 1 tokens are encrypted under one key, and counting them never
      overflows ([key_use_bounded]). *)

From Stdlib Require Import ZArith Lia Ascii String.
From stdpp Require Import functions prelude gmap strings.
From S2P Require Import Prelude Text NetBytes Http.

(** ** Constants and data *)

Definition IV_LEN : Z := 12.
Definition KEY_LEN : Z := 32.
Definition PAYLOAD_LEN : Z := 8.
Definition TAG_LEN : Z := 16.
Definition MILLISECONDS_PER_SECOND : Z := 1000.
Definition MIN_TOKEN_TTL_SECONDS : Z := 1.
Definition MAX_TOKEN_TTL_SECONDS : Z := 21600.
Definition PATH_TO_TOKEN : list Z := text "/latest/api/token".
Definition TOKEN_LENGTH_LIMIT : Z := 70.
(** [size_of::<Token>()] *)
Definition DESERIALIZATION_BYTES_LIMIT : Z := IV_LEN + PAYLOAD_LEN + TAG_LEN.

Record Token := mkToken { iv : list Z; payload : list Z; tag : list Z }.

Definition token_ok (t : Token) : Prop :=
  slen (iv t) = IV_LEN /\ slen (payload t) = PAYLOAD_LEN /\ slen (tag t) = TAG_LEN /\
  bytes_ok (iv t) /\ bytes_ok (payload t) /\ bytes_ok (tag t).

(** Encryption and decryption take the nonce and the additional data; encryption returns
    the text in place and the tag. *)
Class TokenCrypto := {
  Cipher : Type;
  IoError : Type;
  BincodeError : Type;
  io_error_text : IoError -> list Z;
  bincode_error_text : BincodeError -> list Z;
  Aes256Gcm_new : list Z -> Cipher;
  encrypt_in_place_detached : Cipher -> list Z -> list Z -> list Z -> option (list Z * list Z);
  decrypt_in_place_detached : Cipher -> list Z -> list Z -> list Z -> list Z -> option (list Z);
  bincode_serialize : Token -> result (list Z) BincodeError;
  bincode_deserialize : Z -> list Z -> option Token;
  base64_encode_config : list Z -> list Z;
  base64_decode_config : list Z -> option (list Z)
}.

(** Encryption of short texts succeeds, decryption undoes it, and it keeps the length; a
    token takes 36 bytes, four characters encode three bytes, and both encodings can be
    undone. *)
Class TokenCryptoLaws `{TokenCrypto} := {
  encrypt_short : forall c n a m, slen n = IV_LEN -> slen a < 2 ^ 32 -> slen m < 2 ^ 32 ->
    encrypt_in_place_detached c n a m <> None;
  decrypt_encrypt : forall c n a m x g, encrypt_in_place_detached c n a m = Some (x, g) ->
    decrypt_in_place_detached c n a x g = Some m;
  encrypt_sizes : forall c n a m x g, encrypt_in_place_detached c n a m = Some (x, g) -> bytes_ok m ->
    slen x = slen m /\ slen g = TAG_LEN /\ bytes_ok x /\ bytes_ok g;
  bincode_roundtrip : forall t, token_ok t -> exists b, bincode_serialize t = Ok b /\
    slen b = DESERIALIZATION_BYTES_LIMIT /\ bytes_ok b /\
    bincode_deserialize DESERIALIZATION_BYTES_LIMIT b = Some t;
  base64_roundtrip : forall b, bytes_ok b -> base64_decode_config (base64_encode_config b) = Some b;
  base64_length : forall b, slen (base64_encode_config b) = 4 * ((slen b + 2) / 3);
  io_error_short : forall e, slen (io_error_text e) <= 1024;
  bincode_error_short : forall e, slen (bincode_error_text e) <= 1024
}.

Section Tokens.
Context `{Profile} `{TokenCrypto}.

Inductive TokenError :=
| EntropyPool (e : IoError) | ExpiryExtraction | InvalidState | InvalidTtlValue (value : Z)
| Serialization (e : BincodeError) | TokenEncryption.

Definition token_error_text (e : TokenError) : list Z :=
  match e with
  | EntropyPool err =>
      text "Failed to extract entropy from /dev/urandom entropy pool: " ++ io_error_text err ++ text "."
  | ExpiryExtraction => text "Failed to extract expiry value from token."
  | InvalidState => text "Invalid token authority state."
  | InvalidTtlValue value =>
      text "Invalid time to live value provided for token: " ++ decimal value ++
      text ". Please provide a value between " ++ decimal MIN_TOKEN_TTL_SECONDS ++ text " and " ++
      decimal MAX_TOKEN_TTL_SECONDS ++ text "."
  | Serialization err => text "Bincode serialization failed: " ++ bincode_error_text err ++ text "."
  | TokenEncryption => text "Failed to encrypt token."
  end.

Record TokenAuthority := mkAuthority {
  cipher : Cipher;
  num_encrypted_tokens : Z;
  aad : list Z }.

(** ** Tokens as text *)

Definition base64_encode (t : Token) : result (list Z) TokenError :=
  match bincode_serialize t with
  | Err e => Err (Serialization e)
  | Ok token_bytes => Ok (base64_encode_config token_bytes)
  end.

Definition base64_decode (encoded_token : list Z) : result Token TokenError :=
  match base64_decode_config encoded_token with
  | None => Err ExpiryExtraction
  | Some token_bytes =>
      match bincode_deserialize DESERIALIZATION_BYTES_LIMIT token_bytes with
      | None => Err ExpiryExtraction
      | Some t => Ok t
      end
  end.

(** ** The authority

    [pool] is what the next read of the entropy pool gives. *)

Definition create_cipher (pool : result (list Z) IoError) : result Cipher TokenError :=
  match pool with Err e => Err (EntropyPool e) | Ok key => Ok (Aes256Gcm_new key) end.

(** [opened] tells whether the file of the entropy pool can be opened. *)
Definition TokenAuthority_new (opened : result unit IoError) (pool : result (list Z) IoError)
    : result TokenAuthority TokenError :=
  match opened with
  | Err e => Err (EntropyPool e)
  | Ok _ =>
      match create_cipher pool with
      | Err e => Err e
      | Ok c => Ok (mkAuthority c 0 [])
      end
  end.

Definition ta_set_aad (ta : TokenAuthority) (instance_id : list Z) : TokenAuthority :=
  mkAuthority (cipher ta) (num_encrypted_tokens ta) (text "microvmid=" ++ instance_id).

Definition check_encryption_count (ta : TokenAuthority) (pool : result (list Z) IoError)
    : result unit TokenError * TokenAuthority :=
  if num_encrypted_tokens ta =? 2 ^ 32 - 1 then
    match create_cipher pool with
    | Err e => (Err e, ta)
    | Ok c => (Ok tt, mkAuthority c 0 (aad ta))
    end
  else (Ok tt, ta).

Definition check_ttl (ttl_seconds : Z) : bool :=
  (MIN_TOKEN_TTL_SECONDS <=? ttl_seconds) && (ttl_seconds <=? MAX_TOKEN_TTL_SECONDS).

Definition compute_expiry (ttl_as_seconds now : Z) : exec Z :=
  ms ← umul 64 ttl_as_seconds MILLISECONDS_PER_SECOND;
  uadd 64 now ms.

Definition encrypt_expiry (ta : TokenAuthority) (expiry : Z) (iv : list Z)
    : result (list Z * list Z) TokenError :=
  match encrypt_in_place_detached (cipher ta) iv (aad ta) (le_encode 8 expiry) with
  | None => Err TokenEncryption
  | Some (payload, tag) => if slen tag =? TAG_LEN then Ok (payload, tag) else Err TokenEncryption
  end.

Definition create_token (ta : TokenAuthority) (ttl_seconds : Z) (pool : result (list Z) IoError) (now : Z)
    : exec (result Token TokenError) :=
  if negb (check_ttl ttl_seconds) then Ret (Err (InvalidTtlValue ttl_seconds))
  else match pool with
  | Err e => Ret (Err (EntropyPool e))
  | Ok iv =>
      expiry ← compute_expiry ttl_seconds now;
      Ret match encrypt_expiry ta expiry iv with
          | Err e => Err e
          | Ok (payload, tag) => Ok (mkToken iv payload tag)
          end
  end.

(** [pool_key] is read if the key is renewed, [pool_iv] for the nonce. *)
Definition generate_token_secret (ta : TokenAuthority) (ttl_seconds : Z)
    (pool_key pool_iv : result (list Z) IoError) (now : Z)
    : exec (result (list Z) TokenError * TokenAuthority) :=
  match check_encryption_count ta pool_key with
  | (Err e, ta) => Ret (Err e, ta)
  | (Ok _, ta) =>
      t ← create_token ta ttl_seconds pool_iv now;
      match t with
      | Err e => Ret (Err e, ta)
      | Ok token =>
          match base64_encode token with
          | Err e => Ret (Err e, ta)
          | Ok encoded_token =>
              n ← uadd 32 (num_encrypted_tokens ta) 1;
              Ret (Ok encoded_token, mkAuthority (cipher ta) n (aad ta))
          end
      end
  end.

Definition decrypt_expiry (ta : TokenAuthority) (payload tag iv : list Z) : result Z TokenError :=
  match decrypt_in_place_detached (cipher ta) iv (aad ta) payload tag with
  | None => Err ExpiryExtraction
  | Some bytes => Ok (le_decode bytes)
  end.

Definition is_valid (ta : TokenAuthority) (encoded_token : list Z) (now : Z) : bool :=
  if TOKEN_LENGTH_LIMIT <? slen encoded_token then false
  else match base64_decode encoded_token with
  | Err _ => false
  | Ok token =>
      match decrypt_expiry ta (payload token) (tag token) (iv token) with
      | Err _ => false
      | Ok expiry => now <? expiry
      end
  end.
End Tokens.

(** ** Headers *)

Definition REJECTED_HEADER : list Z := text "X-Forwarded-For".
Definition X_METADATA_TOKEN : list Z := text "X-metadata-token".
Definition X_METADATA_TOKEN_TTL_SECONDS : list Z := text "X-metadata-token-ttl-seconds".

Record TokenHeaders := mkTokenHeaders {
  x_metadata_token : option (list Z);
  x_metadata_token_ttl_seconds : option Z }.

Definition TokenHeaders_try_from `{Http} (map : gmap (list Z) (list Z)) : result TokenHeaders RequestError :=
  let token := map !! X_METADATA_TOKEN in
  match map !! X_METADATA_TOKEN_TTL_SECONDS with
  | None => Ok (mkTokenHeaders token None)
  | Some value =>
      match parse_u32 value with
      | Some seconds => Ok (mkTokenHeaders token (Some seconds))
      | None => Err (invalid_value X_METADATA_TOKEN_TTL_SECONDS value)
      end
  end.

(** ** The life of a token *)

Section TokenLife.
Context `{Profile} `{TokenCryptoLaws}.

(** Time is counted in milliseconds since the host started: far below 64 bits. *)
Definition time_ok (now : Z) : Prop := 0 <= now < 2 ^ 63.

Lemma check_ttl_spec ttl : check_ttl ttl = true <-> 1 <= ttl <= 21600.
Proof.
  unfold check_ttl, MIN_TOKEN_TTL_SECONDS, MAX_TOKEN_TTL_SECONDS. rewrite andb_true_iff, !Z.leb_le. lia.
Qed.

Lemma compute_expiry_ok ttl now : 1 <= ttl <= 21600 -> time_ok now ->
  compute_expiry ttl now = Ret (now + 1000 * ttl).
Proof.
  intros Ht Hn. unfold compute_expiry, MILLISECONDS_PER_SECOND, time_ok in *.
  rewrite umul_ok, bind_Ret by (unfold in_range; simpl Z.pow; lia).
  rewrite uadd_ok by (unfold in_range; simpl Z.pow in *; lia). f_equal. lia.
Qed.

(** A token is created when the time to live is within the limits, entropy can be read
    and the cipher encrypts; it holds the time it expires. *)
Lemma create_token_ok ta ttl pool now : time_ok now ->
  (forall nonce, pool = Ok nonce -> slen nonce = IV_LEN /\ bytes_ok nonce) ->
  exists r, create_token ta ttl pool now = Ret r /\
    (forall e nonce, r = Err e -> pool = Ok nonce -> 1 <= ttl <= 21600 ->
       encrypt_in_place_detached (cipher ta) nonce (aad ta) (le_encode 8 (now + 1000 * ttl)) = None) /\
    forall t, r = Ok t -> 1 <= ttl <= 21600 /\ token_ok t /\
      decrypt_expiry ta (payload t) (tag t) (iv t) = Ok (now + 1000 * ttl).
Proof.
  intros Hn Hp. unfold create_token. destruct (check_ttl ttl) eqn:Et; cbn [negb].
  2: { eexists. split; [done|]. split; [|done]. intros e nonce _ _ Ht. apply check_ttl_spec in Ht. congruence. }
  apply check_ttl_spec in Et. destruct pool as [nonce|e]; [|by eexists].
  destruct (Hp nonce eq_refl) as [Hl Hb]. rewrite compute_expiry_ok, bind_Ret by done.
  eexists. split; [done|]. set (expiry := now + 1000 * ttl). unfold encrypt_expiry.
  destruct (encrypt_in_place_detached (cipher ta) nonce (aad ta) (le_encode 8 expiry)) as [[x g]|] eqn:E;
    [|split; [by intros e n _ [= <-]|done]].
  destruct (encrypt_sizes _ _ _ _ _ _ E (le_encode_ok _ _)) as (Hx & Hg & Hxb & Hgb).
  rewrite (proj2 (Z.eqb_eq _ _)) by done. split; [done|]. intros t [= <-]. split; [done|]. split.
  - unfold token_ok. cbn. split; [done|]. split; [|by split_and!]. rewrite Hx. unfold slen. by rewrite length_le_encode.
  - unfold decrypt_expiry. cbn. rewrite (decrypt_encrypt _ _ _ _ _ _ E). f_equal. rewrite le_decode_encode.
    unfold expiry, time_ok in *. apply Z.mod_small. simpl Z.pow in *. lia.
Qed.

(** The text of a token is short enough to be looked at, and decodes to the token. *)
Lemma base64_encode_ok t : token_ok t ->
  exists s, base64_encode t = Ok s /\ slen s = 48 /\ base64_decode s = Ok t.
Proof.
  intros Ht. unfold base64_encode, base64_decode. destruct (bincode_roundtrip t Ht) as (b & -> & Hl & Hb & E).
  eexists. split; [done|]. rewrite base64_length, Hl, base64_roundtrip, E by done. done.
Qed.

(** [renewed ta pool]: the next token is encrypted under a new key. *)
Definition renewed (ta : TokenAuthority) (pool : result (list Z) IoError) : bool :=
  (num_encrypted_tokens ta =? 2 ^ 32 - 1) && match pool with Ok _ => true | Err _ => false end.

Definition count_ok (ta : TokenAuthority) : Prop := in_range 32 (num_encrypted_tokens ta).

Lemma generate_ok ta ttl pool_key pool_iv now : count_ok ta -> time_ok now ->
  (forall nonce, pool_iv = Ok nonce -> slen nonce = IV_LEN /\ bytes_ok nonce) ->
  exists r ta', generate_token_secret ta ttl pool_key pool_iv now = Ret (r, ta') /\ count_ok ta' /\
    aad ta' = aad ta /\
    num_encrypted_tokens ta' = (if renewed ta pool_key then 0 else num_encrypted_tokens ta) +
      (match r with Ok _ => 1 | Err _ => 0 end) /\
    forall s, r = Ok s -> 1 <= ttl <= 21600 /\ slen s = 48 /\ exists t, base64_decode s = Ok t /\
      decrypt_expiry ta' (payload t) (tag t) (iv t) = Ok (now + 1000 * ttl).
Proof.
  intros Hc Hn Hp. unfold generate_token_secret, check_encryption_count, renewed, count_ok, in_range in *.
  assert (Hgen : forall ta1, 0 <= num_encrypted_tokens ta1 < 2 ^ 32 - 1 -> exists r ta',
    (t ← create_token ta1 ttl pool_iv now;
     match t with
     | Err e => Ret (Err e, ta1)
     | Ok token => match base64_encode token with
                   | Err e => Ret (Err e, ta1)
                   | Ok s => n ← uadd 32 (num_encrypted_tokens ta1) 1; Ret (Ok s, mkAuthority (cipher ta1) n (aad ta1))
                   end
     end) = Ret (r, ta') /\ 0 <= num_encrypted_tokens ta' < 2 ^ 32 /\ aad ta' = aad ta1 /\
    num_encrypted_tokens ta' = num_encrypted_tokens ta1 + (match r with Ok _ => 1 | Err _ => 0 end) /\
    forall s, r = Ok s -> 1 <= ttl <= 21600 /\ slen s = 48 /\ exists t, base64_decode s = Ok t /\
      decrypt_expiry ta' (payload t) (tag t) (iv t) = Ok (now + 1000 * ttl)).
  { intros ta1 Hn1. destruct (create_token_ok ta1 ttl pool_iv now Hn Hp) as (r & -> & _ & Hr). rewrite bind_Ret.
    destruct r as [t|e]; [|do 2 eexists; split; [done|]; split; [lia|]; split; [done|]; split; [lia|done]].
    destruct (Hr t eq_refl) as (Ht & Hok & Hd). destruct (base64_encode_ok t Hok) as (s & -> & Hs & Es).
    rewrite uadd_ok, bind_Ret by (unfold in_range; simpl Z.pow in *; lia).
    do 2 eexists. split; [done|]. cbn [num_encrypted_tokens aad]. split; [lia|]. split; [done|]. split; [done|].
    intros s' [= <-]. split; [done|]. split; [done|]. exists t. by split. }
  destruct (Z.eqb_spec (num_encrypted_tokens ta) (2 ^ 32 - 1)) as [Em|Em]; cbn [andb].
  - destruct pool_key as [key|e]; cbn [create_cipher].
    + destruct (Hgen (mkAuthority (Aes256Gcm_new key) 0 (aad ta))) as (r & ta' & -> & H3 & H4 & H5 & H6);
        [cbn; lia|]. exists r, ta'. exact (conj eq_refl (conj H3 (conj H4 (conj H5 H6)))).
    + do 2 eexists. split; [done|]. split; [lia|]. split; [done|]. split; [lia|done].
  - destruct (Hgen ta) as (r & ta' & -> & H3 & H4 & H5 & H6); [lia|]. exists r, ta'. exact (conj eq_refl (conj H3 (conj H4 (conj H5 H6)))).
Qed.

(** With entropy and a valid time to live a token is generated. *)
Lemma generate_succeeds ta ttl key nonce now : count_ok ta -> time_ok now -> slen nonce = IV_LEN ->
  bytes_ok nonce -> slen (aad ta) < 2 ^ 32 -> 1 <= ttl <= 21600 ->
  exists s ta', generate_token_secret ta ttl (Ok key) (Ok nonce) now = Ret (Ok s, ta').
Proof.
  intros Hc Hn Hl Hb Ha Ht. destruct (generate_ok ta ttl (Ok key) (Ok nonce) now Hc Hn) as (r & ta' & E & _);
    [by intros n [= <-]|]. destruct r as [s|e]; [by exists s, ta'|]. exfalso. revert E.
  unfold generate_token_secret, check_encryption_count, create_cipher.
  set (ta1 := if num_encrypted_tokens ta =? 2 ^ 32 - 1 then mkAuthority (Aes256Gcm_new key) 0 (aad ta) else ta).
  replace (if num_encrypted_tokens ta =? 2 ^ 32 - 1 then (Ok tt, mkAuthority (Aes256Gcm_new key) 0 (aad ta)) else (Ok tt, ta))
    with ((Ok tt : result unit TokenError), ta1) by (unfold ta1; by destruct (_ =? _)).
  destruct (create_token_ok ta1 ttl (Ok nonce) now Hn) as (r & -> & He & Hr); [by intros n [= <-]|].
  rewrite bind_Ret. destruct r as [t|e']; cbn.
  - destruct (Hr t eq_refl) as (_ & Hok & _). destruct (base64_encode_ok t Hok) as (s & -> & _).
    destruct (uadd 32 (num_encrypted_tokens ta1) 1); done.
  - intros _. apply (encrypt_short (cipher ta1) nonce (aad ta1) (le_encode 8 (now + 1000 * ttl))); [done| | |eauto].
    + unfold ta1. by destruct (_ =? _).
    + unfold slen. rewrite length_le_encode. simpl Z.pow. lia.
Qed.

(** A token that the authority has generated is valid exactly until the time to live
    it was asked for, which is between one second and six hours, has passed: for the
    authority itself and for every later state of it with the same key and the same
    instance. *)
Theorem token_lifetime ta ttl pool_key nonce now s ta' : count_ok ta -> time_ok now ->
  slen nonce = IV_LEN -> bytes_ok nonce ->
  generate_token_secret ta ttl pool_key (Ok nonce) now = Ret (Ok s, ta') ->
  1 <= ttl <= 21600 /\
  forall ta2 t, cipher ta2 = cipher ta' -> aad ta2 = aad ta' -> is_valid ta2 s t = (t <? now + 1000 * ttl).
Proof.
  intros Hc Hn Hl Hb E.
  destruct (generate_ok ta ttl pool_key (Ok nonce) now Hc Hn) as (r & ta1 & E1 & _ & _ & _ & Hr);
    [by intros n [= <-]|]. rewrite E in E1. injection E1 as <- <-.
  destruct (Hr s eq_refl) as (Ht & Hs & t & Ed & Ex). split; [done|]. intros ta2 t2 Ec Ea.
  unfold is_valid, TOKEN_LENGTH_LIMIT. rewrite Hs, Ed. cbn.
  unfold decrypt_expiry in *. by rewrite Ec, Ea, Ex.
Qed.

(** [authority_run ta used]: the authority can be [ta], after [used] tokens were generated
    under its present key. *)
Inductive authority_run : TokenAuthority -> Z -> Prop :=
| ar_new opened pool ta : TokenAuthority_new opened pool = Ok ta -> authority_run ta 0
| ar_aad ta used id : authority_run ta used -> authority_run (ta_set_aad ta id) used
| ar_generate ta used ttl pool_key pool_iv now r ta' : authority_run ta used -> time_ok now ->
    (forall nonce, pool_iv = Ok nonce -> slen nonce = IV_LEN /\ bytes_ok nonce) ->
    generate_token_secret ta ttl pool_key pool_iv now = Ret (r, ta') ->
    authority_run ta' ((if renewed ta pool_key then 0 else used) + match r with Ok _ => 1 | Err _ => 0 end).

Lemma authority_run_count ta used : authority_run ta used -> num_encrypted_tokens ta = used /\ count_ok ta.
Proof.
  induction 1 as [opened pool ta E|ta used id _ [IH1 IH2]|ta used ttl pk pi now r ta' _ [IH1 IH2] Hn Hp E].
  - unfold TokenAuthority_new in E. destruct opened; [|done]. destruct (create_cipher pool); [|done].
    injection E as <-. split; [done|]. unfold count_ok, in_range. cbn. lia.
  - by split.
  - destruct (generate_ok ta ttl pk pi now IH2 Hn Hp) as (r1 & ta1 & E1 & Hc & _ & Hn1 & _).
    rewrite E in E1. injection E1 as <- <-. rewrite <-IH1. by split.
Qed.

(** The count of the authority is the number of tokens generated under its key; it
    is at most 2^32 - 1, and generating a token never panics. *)
Theorem key_use_bounded ta used : authority_run ta used ->
  num_encrypted_tokens ta = used /\ 0 <= used <= 2 ^ 32 - 1 /\
  forall ttl pool_key pool_iv now, time_ok now ->
    (forall nonce, pool_iv = Ok nonce -> slen nonce = IV_LEN /\ bytes_ok nonce) ->
    exists r ta', generate_token_secret ta ttl pool_key pool_iv now = Ret (r, ta').
Proof.
  intros [E Hc]%authority_run_count. split; [done|]. split; [unfold count_ok, in_range in Hc; lia|].
  intros ttl pk pi now Hn Hp. destruct (generate_ok ta ttl pk pi now Hc Hn Hp) as (r & ta' & Eg & _). eauto.
Qed.
End TokenLife.

(** ** A sample authority

    The cipher leaves the text as it is, and the text of a token ends with the number of
    bytes added to reach its length. *)

Definition sample_pad (b : list Z) : nat := Z.to_nat (4 * ((slen b + 2) / 3) - slen b).

#[local] Instance sample_crypto : TokenCrypto := {|
  Cipher := list Z;
  IoError := unit;
  BincodeError := unit;
  io_error_text _ := [];
  bincode_error_text _ := [];
  Aes256Gcm_new key := key;
  encrypt_in_place_detached _ _ _ m := Some (m, replicate 16 0);
  decrypt_in_place_detached _ _ _ x _ := Some x;
  bincode_serialize t := Ok (iv t ++ payload t ++ tag t);
  bincode_deserialize limit b :=
    if slen b =? limit then Some (mkToken (take 12 b) (take 8 (drop 12 b)) (drop 20 b)) else None;
  base64_encode_config b :=
    match sample_pad b with O => b | S n => b ++ replicate n 0 ++ [Z.of_nat (S n)] end;
  base64_decode_config s :=
    match last s with Some p => Some (take (length s - Z.to_nat p) s) | None => Some [] end |}.

Lemma sample_pad_pos b : b <> [] -> exists n, sample_pad b = S n.
Proof.
  intros Hb. unfold sample_pad. destruct b as [|x b]; [done|]. rewrite slen_cons. pose proof (slen_nonneg b).
  exists (Nat.pred (Z.to_nat (4 * ((1 + slen b + 2) / 3) - (1 + slen b)))).
  Z.to_euclidean_division_equations; lia.
Qed.

#[local] Instance sample_crypto_laws : TokenCryptoLaws.
Proof.
  split.
  - done.
  - by intros c n a m x g [= <- <-].
  - intros c n a m x g [= <- <-] Hm. split; [done|]. split; [done|]. split; [done|]. by repeat constructor.
  - intros [v p g] (Hv & Hp & Hg & Bv & Bp & Bg). cbn in *. eexists. split; [done|].
    assert (El : slen (v ++ p ++ g) = 36) by (rewrite !slen_app, Hv, Hp, Hg; done).
    split; [done|]. split; [by repeat (apply Forall_app; split)|]. rewrite El. cbn. unfold slen in *.
    unfold IV_LEN, PAYLOAD_LEN in *. do 2 f_equal.
    + rewrite take_app_le by lia. apply take_ge. lia.
    + rewrite drop_app_ge by lia. replace (12 - length v)%nat with 0%nat by lia. rewrite drop_0.
      rewrite take_app_le by lia. apply take_ge. lia.
    + rewrite drop_app_ge by lia. rewrite drop_app_ge by lia.
      replace (20 - length v - length p)%nat with 0%nat by lia. apply drop_0.
  - intros b _. cbn [base64_encode_config base64_decode_config sample_crypto].
    destruct (decide (b = [])) as [->|Hb]; [done|]. destruct (sample_pad_pos b Hb) as [n ->].
    rewrite (assoc_L (++)), last_snoc, !length_app, length_replicate. cbn [length]. f_equal.
    replace (length b + n + 1 - Z.to_nat (Z.of_nat (S n)))%nat with (length b) by lia.
    by rewrite <-(assoc_L (++)), take_app_length.
  - intros b. cbn [base64_encode_config sample_crypto]. destruct (decide (b = [])) as [->|Hb]; [done|].
    destruct (sample_pad_pos b Hb) as [n En]. rewrite En. rewrite !slen_app. unfold slen at 2 3.
    rewrite length_replicate. cbn [length]. unfold sample_pad in En. lia.
  - done.
  - done.
Qed.

Definition sample_state (n : Z) : TokenAuthority := mkAuthority (replicate 32 7 : Cipher) n (text "microvmid=").
Definition sample_authority : TokenAuthority := sample_state 5.
Definition sample_fresh : TokenAuthority := mkAuthority (replicate 32 7 : Cipher) 0 [].
Definition sample_nonce : list Z := replicate 12 1.
Definition sample_token : list Z :=
  sample_nonce ++ le_encode 8 61000 ++ replicate 16 0 ++ replicate 11 0 ++ [12].

Lemma sample_generated : generate_token_secret (H := dev_profile) sample_authority 60 (Ok []) (Ok sample_nonce) 1000 =
  Ret (Ok sample_token, sample_state 6).
Proof. reflexivity. Qed.

Lemma token_lifetime_witness :
  is_valid (sample_state 9) sample_token 60999 = true /\
  is_valid (sample_state 9) sample_token 61000 = false.
Proof.
  destruct (token_lifetime (H := dev_profile) sample_authority 60 (Ok []) sample_nonce 1000 sample_token
    (sample_state 6)) as [_ Hv].
  - unfold count_ok, in_range. cbn. lia.
  - unfold time_ok. lia.
  - reflexivity.
  - by repeat constructor.
  - exact sample_generated.
  - split.
    + exact (Hv (sample_state 9) 60999 eq_refl eq_refl).
    + exact (Hv (sample_state 9) 61000 eq_refl eq_refl).
Defined.

Lemma key_use_bounded_witness :
  exists ta r ta', authority_run (H := dev_profile) ta 0 /\
    generate_token_secret (H := dev_profile) ta 60 (Ok []) (Ok sample_nonce) 1000 = Ret (r, ta').
Proof.
  assert (Hr : authority_run (H := dev_profile) sample_fresh 0).
  { apply (ar_new (Ok tt) (Ok (replicate 32 7))). reflexivity. }
  destruct (key_use_bounded (H := dev_profile) sample_fresh 0 Hr) as (_ & _ & Hg).
  destruct (Hg 60 (Ok []) (Ok sample_nonce) 1000) as (r & ta' & E).
  - unfold time_ok. lia.
  - intros n [= <-]. split; [done|by repeat constructor].
  - by exists sample_fresh, r, ta'.
Defined.
