(* ===== verification/MmdsStore.v ===== *)
(** * The data store of the metadata service

    Models [mmds/src/data_store.rs] and, of [mmds/src/lib.rs], [json_patch] and
    [sanitize_uri].  A JSON document is the value of [serde_json] with its constructors;
    the fields of an object are a list with ascending keys, which is the order of its
    map.  Numbers, printing and looking a path up ([Value::pointer]) are parameters, the
    latter two with the laws of JSON text and of RFC 6901 that are used.

    - patching is the merge of RFC 7396, member by member, and patching twice is patching
      once ([json_patch_merge]);
    - sanitizing a path leaves one slash of every run of slashes ([sanitize_uri_exact]);
    - the document never takes more than the limit ([store_within_limit]);
    - what is put can be read back at the path of its keys ([get_reads_put]). *)

From Stdlib Require Import ZArith Lia Sorted.
From stdpp Require Import functions prelude gmap strings sorting.
From S2P Require Import Prelude Text NetBytes Http MmdsToken.

(** ** Keys and maps *)

(** Strings are ordered by their bytes. *)
Fixpoint key_lt (a b : list Z) : bool :=
  match a, b with
  | _, [] => false
  | [], _ => true
  | x :: a, y :: b => (x <? y) || ((x =? y) && key_lt a b)
  end.

Section Maps.
Context {A : Type}.
Implicit Types m : list (list Z * A).

Fixpoint map_get m (k : list Z) : option A :=
  match m with
  | [] => None
  | (key, v) :: m => if decide (k = key) then Some v else map_get m k
  end.

Fixpoint map_insert m (k : list Z) (v : A) : list (list Z * A) :=
  match m with
  | [] => [(k, v)]
  | (key, v') :: rest =>
      if key_lt k key then (k, v) :: m
      else if decide (k = key) then (k, v) :: rest
      else (key, v') :: map_insert rest k v
  end.

Fixpoint map_remove m (k : list Z) : list (list Z * A) :=
  match m with
  | [] => []
  | (key, v) :: m => if decide (k = key) then m else (key, v) :: map_remove m k
  end.

Definition ascending m : Prop := StronglySorted (fun a b => key_lt a.1 b.1 = true) m.
End Maps.

Lemma key_lt_irrefl a : key_lt a a = false.
Proof. induction a as [|x a IH]; [done|]. cbn. by rewrite Z.ltb_irrefl, Z.eqb_refl, IH. Qed.

Lemma key_lt_trans a b c : key_lt a b = true -> key_lt b c = true -> key_lt a c = true.
Proof.
  revert b c. induction a as [|x a IH]; intros [|y b] [|z c]; try done. cbn.
  rewrite !orb_true_iff, !andb_true_iff, !Z.ltb_lt, !Z.eqb_eq.
  intros [H1|[-> H1]] [H2|[-> H2]]; [left; lia|left; lia|left; lia|right]. eauto.
Qed.

Lemma key_lt_total a b : key_lt a b = false -> a <> b -> key_lt b a = true.
Proof.
  revert b. induction a as [|x a IH]; intros [|y b]; try done. cbn.
  rewrite orb_false_iff, andb_false_iff, orb_true_iff, andb_true_iff, Z.ltb_ge, !Z.ltb_lt, Z.eqb_neq, Z.eqb_eq.
  intros [H1 H2] Hn. destruct (Z.eq_dec x y) as [->|]; [right|left; lia].
  split; [done|]. apply IH; [by destruct H2|congruence].
Qed.

Section MapLemmas.
Context {A : Type}.
Implicit Types m : list (list Z * A).

Lemma ascending_inv key v m : ascending ((key, v) :: m) ->
  ascending m /\ forall k w, (k, w) ∈ m -> key_lt key k = true.
Proof.
  intros Hs. apply StronglySorted_inv in Hs as [Hs Hf]. split; [done|]. intros k w Hin.
  rewrite Forall_forall in Hf. by apply (Hf (k, w)).
Qed.

Lemma map_get_in m k v : map_get m k = Some v -> (k, v) ∈ m.
Proof.
  induction m as [|[key w] m IH]; [done|]. cbn. destruct (decide (k = key)) as [->|].
  - intros [= ->]. left.
  - intros E. right. auto.
Qed.

(** A key that comes before all keys is not there. *)
Lemma map_get_before key m : (forall k w, (k, w) ∈ m -> key_lt key k = true) -> map_get m key = None.
Proof.
  intros Hm. destruct (map_get m key) as [w|] eqn:E; [|done]. apply map_get_in, Hm in E.
  by rewrite key_lt_irrefl in E.
Qed.

Lemma map_get_insert m k v k' : map_get (map_insert m k v) k' = if decide (k' = k) then Some v else map_get m k'.
Proof.
  induction m as [|[key w] m IH]; [done|]. cbn. destruct (key_lt k key); [done|].
  destruct (decide (k = key)) as [<-|Hne]; cbn.
  - by destruct (decide (k' = k)).
  - rewrite IH. destruct (decide (k' = key)) as [->|]; [|done]. by destruct (decide (key = k)); [congruence|].
Qed.

Lemma map_get_remove m k k' : ascending m ->
  map_get (map_remove m k) k' = if decide (k' = k) then None else map_get m k'.
Proof.
  induction m as [|[key w] m IH]; intros Hs; cbn; [by destruct (decide (k' = k))|].
  apply ascending_inv in Hs as [Hs Hl]. destruct (decide (k = key)) as [<-|Hne]; cbn.
  - destruct (decide (k' = k)) as [->|]; [by apply map_get_before|done].
  - rewrite IH by done. destruct (decide (k' = key)) as [->|]; [|done]. by destruct (decide (key = k)); [congruence|].
Qed.

Lemma map_insert_in m k v k' w : (k', w) ∈ map_insert m k v -> (k', w) = (k, v) \/ (k', w) ∈ m.
Proof.
  induction m as [|[key u] m IH]; cbn; [intros Hin; left; by apply list_elem_of_singleton in Hin|].
  destruct (key_lt k key); [intros [E|Hin]%elem_of_cons; auto|]. destruct (decide (k = key)) as [<-|].
  - intros [E|Hin]%elem_of_cons; [auto|right; by right].
  - intros [E|Hin]%elem_of_cons; [right; rewrite E; left|]. destruct (IH Hin); [auto|right; by right].
Qed.

Lemma map_remove_in m k x : x ∈ map_remove m k -> x ∈ m.
Proof.
  induction m as [|[key w] m IH]; [done|]. cbn. destruct (decide (k = key)); [by right|].
  intros [->|Hin]%elem_of_cons; [left|right; auto].
Qed.

Lemma ascending_cons key v m : ascending m -> (forall k w, (k, w) ∈ m -> key_lt key k = true) ->
  ascending ((key, v) :: m).
Proof.
  intros Hs Hl. constructor; [done|]. apply Forall_forall. intros [k w] Hin.
  by apply (Hl k w).
Qed.

Lemma ascending_insert m k v : ascending m -> ascending (map_insert m k v).
Proof.
  induction m as [|[key w] m IH]; intros Hs; cbn; [by repeat constructor|].
  pose proof (ascending_inv _ _ _ Hs) as [Hm Hl]. destruct (key_lt k key) eqn:E.
  - apply ascending_cons; [done|]. intros k' u [[= -> ->]|Hin]%elem_of_cons; [done|].
    apply (key_lt_trans k key k' E), (Hl k' u Hin).
  - destruct (decide (k = key)) as [<-|Hne]; [by apply ascending_cons|].
    apply ascending_cons; [auto|]. intros k' u Hin%map_insert_in.
    destruct Hin as [[= -> ->]|Hin]; [by apply key_lt_total|by apply (Hl k' u)].
Qed.

Lemma ascending_remove m k : ascending m -> ascending (map_remove m k).
Proof.
  induction m as [|[key w] m IH]; intros Hs; [done|]. cbn.
  apply ascending_inv in Hs as [Hm Hl]. destruct (decide (k = key)); [done|].
  apply ascending_cons; [auto|]. intros k' u Hin%map_remove_in. by apply (Hl k' u).
Qed.

(** A map is determined by its entries. *)
Lemma map_ext m1 m2 : ascending m1 -> ascending m2 -> (forall k, map_get m1 k = map_get m2 k) -> m1 = m2.
Proof.
  revert m2. induction m1 as [|[k1 v1] m1 IH]; intros [|[k2 v2] m2] H1 H2 He.
  - done.
  - specialize (He k2). cbn in He. by rewrite decide_True in He.
  - specialize (He k1). cbn in He. by rewrite decide_True in He.
  - apply ascending_inv in H1 as [H1 L1]. apply ascending_inv in H2 as [H2 L2].
    assert (k1 = k2) as <-.
    { destruct (decide (k1 = k2)); [done|]. pose proof (He k1) as E1. pose proof (He k2) as E2.
      cbn in E1, E2. rewrite decide_True in E1 by done. rewrite (decide_True (P := k2 = k2)) in E2 by done.
      rewrite decide_False in E1 by done. rewrite decide_False in E2 by done.
      apply eq_sym, map_get_in, L2 in E1. apply map_get_in, L1 in E2.
      pose proof (key_lt_trans _ _ _ E1 E2) as Ht. by rewrite key_lt_irrefl in Ht. }
    pose proof (He k1) as E. cbn in E. rewrite !decide_True in E by done. injection E as ->.
    f_equal. apply IH; [done|done|]. intros k. specialize (He k). cbn in He.
    destruct (decide (k = k1)) as [->|]; [|done]. by rewrite !map_get_before by done.
Qed.
End MapLemmas.

(** ** JSON documents *)

Class Numbers := { Number : Type }.

#[warnings="-register-all"]
Inductive Value `{Numbers} :=
| Null | Bool (b : bool) | Num (n : Number) | Str (s : list Z) | Array (l : list Value)
| Object (m : list (list Z * Value)).

(** What is used of [serde_json]: printing, and looking up a path. *)
Class SerdeJson `{Numbers} := {
  to_vec : Value -> list Z;
  to_string : Value -> list Z;
  pointer : Value -> list Z -> option Value
}.

Definition SLASH : Z := 47.

(** A key that a path can name as it is: without the two characters that are escaped. *)
Definition plain_key (k : list Z) : Prop := k <> [] /\ (SLASH ∉ k) /\ (126 ∉ k).

(** The text of an object holds its keys in quotes and that of a string the string; the
    parts of a document take less room than the document; the path of no key is the
    document, and the path of a key is the path of the rest in the member. *)
Class SerdeJsonLaws `{SerdeJson} := {
  to_string_length : forall v, slen (to_string v) = slen (to_vec v);
  to_vec_null : slen (to_vec Null) = 4;
  to_vec_string : forall s, slen s <= slen (to_vec (Str s));
  to_vec_object : forall m, Z.of_nat (sum_list_with (fun x => length (x.1) + 2)%nat m) <= slen (to_vec (Object m));
  pointer_smaller : forall v path w, pointer v path = Some w -> slen (to_vec w) <= slen (to_vec v);
  pointer_root : forall v, pointer v [] = Some v;
  pointer_member : forall m k rest, plain_key k -> (rest = [] \/ head rest = Some SLASH) ->
    pointer (Object m) (SLASH :: k ++ rest) =
      match map_get m k with Some v => pointer v rest | None => None end;
  pointer_string : forall s k rest, pointer (Str s) (SLASH :: k ++ rest) = None
}.

Section Documents.
Context `{Numbers}.

(** Induction with a hypothesis for the members of objects and the items of arrays. *)
Lemma Value_ind' (P : Value -> Prop) :
  P Null -> (forall b, P (Bool b)) -> (forall n, P (Num n)) -> (forall s, P (Str s)) ->
  (forall l, Forall P l -> P (Array l)) -> (forall m, Forall (fun x => P x.2) m -> P (Object m)) ->
  forall v, P v.
Proof.
  intros H1 H2 H3 H4 H5 H6. fix IH 1. intros [|b|n|s|l|m]; [done|done|done|done| |].
  - apply H5. induction l; constructor; [apply IH|done].
  - apply H6. induction m as [|[k v] m IHm]; constructor; [apply IH|done].
Qed.

(** The keys of every object in the document ascend. *)
Fixpoint value_ok (v : Value) : Prop :=
  match v with
  | Array l => (fix go l := match l with [] => True | v :: l => value_ok v /\ go l end) l
  | Object m =>
      ascending m /\
      (fix go m := match m with [] => True | (_, v) :: m => value_ok v /\ go m end) m
  | _ => True
  end.

Definition members_ok (m : list (list Z * Value)) : Prop := ascending m /\ Forall (fun x => value_ok x.2) m.

Lemma value_ok_object m : value_ok (Object m) <-> members_ok m.
Proof.
  unfold members_ok. cbn. apply and_iff_compat_l. induction m as [|[k v] m IH]; [by split|].
  rewrite Forall_cons, <-IH. done.
Qed.

Definition is_null (v : Value) : bool := match v with Null => true | _ => false end.
Definition is_object (v : Value) : bool := match v with Object _ => true | _ => false end.
Definition as_object (v : Value) : list (list Z * Value) := match v with Object m => m | _ => [] end.

(** ** Patching *)

Fixpoint json_patch (target patch : Value) {struct patch} : Value :=
  match patch with
  | Object fields =>
      Object ((fix loop (doc fields : list (list Z * Value)) {struct fields} :=
                 match fields with
                 | [] => doc
                 | (key, value) :: fields =>
                     loop (if is_null value then map_remove doc key
                           else map_insert doc key (json_patch (default Null (map_get doc key)) value)) fields
                 end) (as_object target) fields)
  | _ => patch
  end.

(** The loop on its own. *)
Fixpoint patch_fields (doc fields : list (list Z * Value)) : list (list Z * Value) :=
  match fields with
  | [] => doc
  | (key, value) :: fields =>
      patch_fields (if is_null value then map_remove doc key
                    else map_insert doc key (json_patch (default Null (map_get doc key)) value)) fields
  end.

Lemma json_patch_object target fields :
  json_patch target (Object fields) = Object (patch_fields (as_object target) fields).
Proof. reflexivity. Qed.

(** The entry of a key, before and after. *)
Definition merged (old patch : option Value) : option Value :=
  match patch with
  | None => old
  | Some v => if is_null v then None else Some (json_patch (default Null old) v)
  end.

Lemma patch_fields_get doc fields k : ascending doc -> ascending fields ->
  ascending (patch_fields doc fields) /\
  map_get (patch_fields doc fields) k = merged (map_get doc k) (map_get fields k).
Proof.
  revert doc. induction fields as [|[key v] fields IH]; intros doc Hd Hf; [done|].
  apply ascending_inv in Hf as [Hf Hl]. cbn [patch_fields map_get].
  set (doc1 := if is_null v then map_remove doc key else _).
  assert (Hd1 : ascending doc1).
  { unfold doc1. destruct (is_null v); [by apply ascending_remove|by apply ascending_insert]. }
  destruct (IH doc1 Hd1 Hf) as [Ha ->]. split; [done|]. clear IH.
  destruct (decide (k = key)) as [->|Hne].
  - rewrite (map_get_before key fields Hl). cbn [merged]. unfold doc1. destruct (is_null v).
    + rewrite map_get_remove by done. by rewrite decide_True.
    + rewrite map_get_insert. by rewrite decide_True.
  - f_equal. unfold doc1. destruct (is_null v); [rewrite map_get_remove by done|rewrite map_get_insert];
      by rewrite decide_False.
Qed.

Lemma members_get m k v : members_ok m -> map_get m k = Some v -> value_ok v.
Proof. intros [_ Hm] E. apply map_get_in in E. rewrite Forall_forall in Hm. by apply (Hm (k, v)). Qed.

Lemma members_of m : ascending m -> (forall k v, map_get m k = Some v -> value_ok v) -> members_ok m.
Proof.
  intros Ha Hm. split; [done|]. induction m as [|[k v] m IH]; [done|].
  apply ascending_inv in Ha as [Ha Hl]. constructor.
  - apply (Hm k). cbn. by rewrite decide_True.
  - apply IH; [done|]. intros k' v' E. apply (Hm k'). cbn. rewrite decide_False; [done|].
    intros ->. by rewrite map_get_before in E.
Qed.

Lemma as_object_ok v : value_ok v -> members_ok (as_object v).
Proof. destruct v as [| | | | |m]; try by repeat constructor. by rewrite value_ok_object. Qed.

Lemma json_patch_ok patch : value_ok patch -> forall target, value_ok target -> value_ok (json_patch target patch).
Proof.
  induction patch as [| | | | |m IH] using Value_ind'; try done. rewrite value_ok_object. intros Hm target Ht.
  rewrite json_patch_object, value_ok_object. apply as_object_ok in Ht. set (doc := as_object target) in *.
  pose proof (fun k => patch_fields_get doc m k (proj1 Ht) (proj1 Hm)) as Hg.
  apply members_of; [apply (Hg [])|]. intros k v. rewrite (proj2 (Hg k)). unfold merged.
  destruct (map_get m k) as [p|] eqn:Ep; [|by apply members_get].
  destruct (is_null p); [done|]. intros [= <-]. rewrite Forall_forall in IH.
  apply (IH (k, p)); [by apply map_get_in|by apply (members_get m k)|].
  destruct (map_get doc k) as [w|] eqn:Ew; [by apply (members_get doc k)|done].
Qed.

(** Patching again changes nothing. *)
Lemma json_patch_idempotent patch : value_ok patch -> forall target, value_ok target ->
  json_patch (json_patch target patch) patch = json_patch target patch.
Proof.
  induction patch as [| | | | |m IH] using Value_ind'; try done. rewrite value_ok_object. intros Hm target Ht.
  rewrite !json_patch_object. cbn [as_object]. f_equal. apply as_object_ok in Ht. set (doc := as_object target) in *.
  pose proof (fun k => patch_fields_get doc m k (proj1 Ht) (proj1 Hm)) as Hg. set (doc1 := patch_fields doc m) in *.
  assert (Ha : ascending doc1) by apply (Hg []).
  apply map_ext; [apply (patch_fields_get _ _ [] Ha (proj1 Hm))|done|]. intros k.
  rewrite (proj2 (patch_fields_get doc1 m k Ha (proj1 Hm))), (proj2 (Hg k)).
  destruct (map_get m k) as [p|] eqn:Ep; [|done]. cbn [merged]. destruct (is_null p); [done|]. f_equal.
  cbn [default]. rewrite Forall_forall in IH.
  apply (IH (k, p)); [by apply map_get_in|by apply (members_get m k)|].
  destruct (map_get doc k) as [w|] eqn:Ew; [by apply (members_get doc k)|done].
Qed.

(** Patching is the merge patch of RFC 7396.  A patch that is not an object replaces
    the document; a patch that is one gives an object whose member for a key is, if the
    patch has none for it, that of the document, if the patch has null for it, none, and
    otherwise that of the document, or null, patched with that of the patch.  Keys stay in
    order, and the same patch again changes nothing. *)
Theorem json_patch_merge target patch : value_ok target -> value_ok patch ->
  value_ok (json_patch target patch) /\
  json_patch (json_patch target patch) patch = json_patch target patch /\
  match patch with
  | Object fields => is_object (json_patch target patch) = true /\ forall k,
      map_get (as_object (json_patch target patch)) k =
        match map_get fields k with
        | None => map_get (as_object target) k
        | Some Null => None
        | Some v => Some (json_patch (default Null (map_get (as_object target) k)) v)
        end
  | _ => json_patch target patch = patch
  end.
Proof.
  intros Ht Hp. split; [by apply json_patch_ok|]. split; [by apply json_patch_idempotent|].
  destruct patch as [| | | | |m]; try done. rewrite json_patch_object. split; [done|]. intros k. cbn [as_object].
  rewrite value_ok_object in Hp. apply as_object_ok in Ht.
  rewrite (proj2 (patch_fields_get _ _ k (proj1 Ht) (proj1 Hp))). unfold merged.
  by destruct (map_get m k) as [[]|].
Qed.
End Documents.

(** ** Paths *)

(** [str::replace("//", "/")]: from the left, without overlaps. *)
Fixpoint replace_slashes (s : list Z) : list Z :=
  match s with
  | a :: ((b :: r) as t) =>
      if (a =? SLASH) && (b =? SLASH) then SLASH :: replace_slashes r else a :: replace_slashes t
  | _ => s
  end.

Fixpoint sanitize_loop (fuel : nat) (len : Z) (uri : list Z) : outcome (list Z) :=
  if slen uri <? len then
    match fuel with
    | O => Hang
    | S fuel => sanitize_loop fuel (slen uri) (replace_slashes uri)
    end
  else Done uri.

(** Every iteration but the last makes the path shorter ([sanitize_uri_exact]). *)
Definition sanitize_uri (uri : list Z) : outcome (list Z) :=
  sanitize_loop (S (length uri)) (2 ^ 32 - 1) uri.

(** What it is for: one slash is left of every run of slashes. *)
Fixpoint collapse (s : list Z) : list Z :=
  match s with
  | [] => []
  | c :: r => if (c =? SLASH) && bool_decide (head r = Some SLASH) then collapse r else c :: collapse r
  end.

Lemma list_pair_ind {A} (P : list A -> Prop) :
  P [] -> (forall a, P [a]) -> (forall a b r, P r -> P (b :: r) -> P (a :: b :: r)) -> forall l, P l.
Proof.
  intros H0 H1 H2 l. assert (P l /\ forall a, P (a :: l)) as [? _]; [|done].
  induction l as [|b r [IH1 IH2]]; [auto|]. auto.
Qed.

Lemma replace_cons a b r : replace_slashes (a :: b :: r) =
  if (a =? SLASH) && (b =? SLASH) then SLASH :: replace_slashes r else a :: replace_slashes (b :: r).
Proof. reflexivity. Qed.

Lemma replace_head s : head (replace_slashes s) = head s.
Proof.
  destruct s as [|a [|b r]]; [done|done|]. rewrite replace_cons.
  destruct (Z.eqb_spec a SLASH) as [->|]; [|done]. by destruct (b =? SLASH).
Qed.

Lemma collapse_cons a s t : head s = head t -> collapse s = collapse t -> collapse (a :: s) = collapse (a :: t).
Proof. intros Eh Ec. cbn [collapse]. by rewrite Eh, Ec. Qed.

Lemma collapse_replace s : collapse (replace_slashes s) = collapse s.
Proof.
  induction s as [|a|a b r IH1 IH2] using list_pair_ind; [done|done|]. rewrite replace_cons.
  destruct (Z.eqb_spec a SLASH) as [->|Ha]; cbn [andb]; [|by apply collapse_cons; [apply replace_head|]].
  destruct (Z.eqb_spec b SLASH) as [->|Hb]; cbn [andb].
  - rewrite (collapse_cons _ _ r); [|apply replace_head|done]. done.
  - by apply collapse_cons; [apply replace_head|].
Qed.

(** A replacement makes the path shorter, or there was nothing to replace. *)
Lemma replace_shorter s : slen (replace_slashes s) < slen s \/ replace_slashes s = s /\ collapse s = s.
Proof.
  induction s as [|a|a b r IH1 IH2] using list_pair_ind; [auto|right; cbn; by rewrite andb_false_r|].
  rewrite replace_cons. destruct ((a =? SLASH) && (b =? SLASH)) eqn:E.
  - left. rewrite !slen_cons. destruct IH1 as [|[-> _]]; lia.
  - destruct IH2 as [IH|[IH Ec]]; [left; rewrite !slen_cons in *; lia|]. right. rewrite IH. split; [done|].
    change (collapse (a :: b :: r)) with
      (if (a =? SLASH) && bool_decide (Some b = Some SLASH) then collapse (b :: r) else a :: collapse (b :: r)).
    rewrite Ec. destruct (a =? SLASH); [|done]. cbn [andb] in *. apply Z.eqb_neq in E.
    by rewrite bool_decide_false by congruence.
Qed.

Lemma sanitize_loop_ok fuel : forall len uri, slen uri < len -> slen uri < Z.of_nat fuel ->
  sanitize_loop fuel len uri = Done (collapse uri).
Proof.
  induction fuel as [|fuel IH]; intros len uri Hl Hf; [pose proof (slen_nonneg uri); lia|]. cbn [sanitize_loop].
  rewrite (proj2 (Z.ltb_lt _ _)) by done. destruct (replace_shorter uri) as [Hs|[-> Ec]].
  - rewrite IH by lia. by rewrite collapse_replace.
  - rewrite Ec. destruct fuel; cbn [sanitize_loop]; by rewrite (proj2 (Z.ltb_ge _ _)) by lia.
Qed.

Lemma collapse_no_double s i : collapse s !! i = Some SLASH -> collapse s !! S i <> Some SLASH.
Proof.
  revert i. induction s as [|c r IH]; intros i; [done|]. cbn [collapse].
  destruct ((c =? SLASH) && bool_decide (head r = Some SLASH)) eqn:E; [apply IH|].
  destruct i as [|i]; [|apply IH]. intros [= ->]. rewrite Z.eqb_refl in E. cbn [andb] in E.
  apply bool_decide_eq_false in E. cbn. intros E2. apply E. rewrite <-E2. clear -r.
  assert (Hh : forall s, head (collapse s) = head s).
  { induction s as [|c s IH]; [done|]. cbn [collapse]. destruct (Z.eqb_spec c SLASH) as [->|]; [|done]. cbn [andb].
    destruct (bool_decide_reflect (head s = Some SLASH)) as [E|]; [by rewrite IH, E|done]. }
  rewrite <-(Hh r). by destruct (collapse r).
Qed.

(** Sanitizing a path ends, and leaves one slash of every run of slashes and nothing
    else changed, so that no two slashes are left next to each other. *)
Theorem sanitize_uri_exact uri : slen uri < 2 ^ 32 - 1 ->
  sanitize_uri uri = Done (collapse uri) /\
  forall i, collapse uri !! i = Some SLASH -> collapse uri !! S i <> Some SLASH.
Proof.
  intros Hl. split; [apply sanitize_loop_ok; [done|unfold slen; lia]|apply collapse_no_double].
Qed.

Lemma sanitize_uri_exact_witness :
  sanitize_uri (text "//meta///data/a//") = Done (text "/meta/data/a/").
Proof.
  destruct (sanitize_uri_exact (text "//meta///data/a//")) as [E _]; [reflexivity|]. exact E.
Defined.

(** ** The store *)

Inductive MmdsVersion := V1 | V2.
Inductive OutputFormat := Json | Imds.

Section Store.
Context `{Profile} `{TokenCrypto} `{SerdeJson}.

Inductive MmdsError :=
| DataStoreLimitExceeded | DsNotFound | NotInitialized | TokenAuthorityError (e : TokenError)
| UnsupportedValueType.

Definition mmds_error_text (e : MmdsError) : list Z :=
  match e with
  | DataStoreLimitExceeded => text "The MMDS patch request doesn't fit."
  | DsNotFound => text "The MMDS resource does not exist."
  | NotInitialized => text "The MMDS data store is not initialized."
  | TokenAuthorityError err => text "Token Authority error: " ++ token_error_text err
  | UnsupportedValueType => text "Cannot retrieve value. The value has an unsupported type."
  end.

Record Mmds := mkMmds {
  data_store : Value;
  token_authority : option TokenAuthority;
  is_initialized : bool;
  data_store_limit : Z }.

Definition default_with_limit (data_store_limit : Z) : Mmds := mkMmds Null None false data_store_limit.
Definition Mmds_default : Mmds := default_with_limit 51200.

Definition check_data_store_initialized (m : Mmds) : result unit MmdsError :=
  if is_initialized m then Ok tt else Err NotInitialized.

Definition with_authority (m : Mmds) (ta : option TokenAuthority) : Mmds :=
  mkMmds (data_store m) ta (is_initialized m) (data_store_limit m).

(** [opened] and [pool] are what a new authority finds of the entropy pool. *)
Definition set_version (m : Mmds) (version : MmdsVersion) (opened : result unit IoError)
    (pool : result (list Z) IoError) : result unit MmdsError * Mmds :=
  match version with
  | V1 => (Ok tt, with_authority m None)
  | V2 =>
      match token_authority m with
      | Some _ => (Ok tt, m)
      | None =>
          match TokenAuthority_new opened pool with
          | Err e => (Err (TokenAuthorityError e), m)
          | Ok ta => (Ok tt, with_authority m (Some ta))
          end
      end
  end.

Definition version (m : Mmds) : MmdsVersion := match token_authority m with None => V1 | Some _ => V2 end.

Definition set_aad (m : Mmds) (instance_id : list Z) : Mmds :=
  match token_authority m with
  | None => m
  | Some ta => with_authority m (Some (ta_set_aad ta instance_id))
  end.

Definition is_valid_token (m : Mmds) (token : list Z) (now : Z) : result bool TokenError :=
  match token_authority m with None => Err InvalidState | Some ta => Ok (is_valid ta token now) end.

Definition generate_token (m : Mmds) (ttl_seconds : Z) (pool_key pool_iv : result (list Z) IoError) (now : Z)
    : exec (result (list Z) TokenError * Mmds) :=
  match token_authority m with
  | None => Ret (Err InvalidState, m)
  | Some ta =>
      r ← generate_token_secret ta ttl_seconds pool_key pool_iv now;
      Ret (r.1, with_authority m (Some r.2))
  end.

Definition set_data_store_limit (m : Mmds) (limit : Z) : Mmds :=
  mkMmds (data_store m) (token_authority m) (is_initialized m) limit.

Definition put_data (m : Mmds) (data : Value) : result unit MmdsError * Mmds :=
  if data_store_limit m <? slen (to_vec data) then (Err DataStoreLimitExceeded, m)
  else (Ok tt, mkMmds data (token_authority m) true (data_store_limit m)).

Definition patch_data (m : Mmds) (patch_data : Value) : result unit MmdsError * Mmds :=
  match check_data_store_initialized m with
  | Err e => (Err e, m)
  | Ok _ =>
      let data_store_clone := json_patch (data_store m) patch_data in
      if data_store_limit m <? slen (to_vec data_store_clone) then (Err DataStoreLimitExceeded, m)
      else (Ok tt, mkMmds data_store_clone (token_authority m) (is_initialized m) (data_store_limit m))
  end.

Definition data_store_value (m : Mmds) : Value := data_store m.

(** [join("\n")] *)
Fixpoint join_lines (l : list (list Z)) : list Z :=
  match l with
  | [] => []
  | [s] => s
  | s :: l => s ++ [10] ++ join_lines l
  end.

Definition imds_key (x : list Z * Value) : list Z := if is_object x.2 then x.1 ++ [SLASH] else x.1.

Definition format_imds (json : Value) : result (list Z) MmdsError :=
  match json with
  | Object m => Ok (join_lines (map imds_key m))
  | Str s => Ok s
  | _ => Err UnsupportedValueType
  end.

Definition get_value (m : Mmds) (path : list Z) (format : OutputFormat) : result (list Z) MmdsError :=
  let value := if bool_decide (last path = Some SLASH)
               then pointer (data_store m) (take (length path - 1) path)
               else pointer (data_store m) path in
  match value with
  | Some json => match format with Json => Ok (to_string json) | Imds => format_imds json end
  | None => Err DsNotFound
  end.
End Store.

(** ** The limit *)

Section StoreRuns.
Context `{Profile} `{TokenCrypto} `{SerdeJson}.

(** [store_run m]: the service can be [m], while its limit is never lowered. *)
Inductive store_run : Mmds -> Prop :=
| st_new limit : store_run (default_with_limit limit)
| st_limit m limit : store_run m -> data_store_limit m <= limit -> store_run (set_data_store_limit m limit)
| st_put m data : store_run m -> value_ok data -> store_run (put_data m data).2
| st_patch m data : store_run m -> value_ok data -> store_run (patch_data m data).2
| st_version m v opened pool : store_run m -> store_run (set_version m v opened pool).2
| st_aad m id : store_run m -> store_run (set_aad m id)
| st_token m ttl pool_key pool_iv now r m' : store_run m ->
    generate_token m ttl pool_key pool_iv now = Ret (r, m') -> store_run m'.

Definition store_ok (m : Mmds) : Prop :=
  value_ok (data_store m) /\
  if is_initialized m then slen (to_vec (data_store m)) <= data_store_limit m else data_store m = Null.

Lemma store_ok_authority m ta : store_ok m -> store_ok (with_authority m ta).
Proof. done. Qed.

(** The document is well-formed, and from the first time it was put on it takes, when
    printed, at most the bytes of the limit; before that it is null.  A document or a patch
    that would not fit is refused, and then nothing changes. *)
Theorem store_within_limit m : store_run m ->
  store_ok m /\
  (forall data, (put_data m data).1 = Err DataStoreLimitExceeded <-> data_store_limit m < slen (to_vec data)) /\
  (forall data e, (put_data m data).1 = Err e -> (put_data m data).2 = m) /\
  (forall data e, (patch_data m data).1 = Err e -> (patch_data m data).2 = m).
Proof.
  intros Hr. split.
  - induction Hr as [limit|m limit _ [Hv Hs] Hl|m data _ [Hv Hs] Hd|m data _ [Hv Hs] Hd|m v op po _ IH|m id _ IH
      |m ttl pk pi now r m' _ IH E]; unfold store_ok in *.
    + done.
    + cbn. destruct (is_initialized m); [split; [done|lia]|done].
    + unfold put_data. destruct (Z.ltb_spec (data_store_limit m) (slen (to_vec data))); done.
    + unfold patch_data, check_data_store_initialized. destruct (is_initialized m) eqn:Ei; [|cbn; by rewrite ?Ei].
      destruct (Z.ltb_spec (data_store_limit m) (slen (to_vec (json_patch (data_store m) data)))) as [|Hl]; cbn;
        rewrite ?Ei; [done|]. split; [by apply json_patch_ok|done].
    + unfold set_version. destruct v; [done|]. destruct (token_authority m); [done|].
      by destruct (TokenAuthority_new op po).
    + unfold set_aad. by destruct (token_authority m).
    + unfold generate_token in E. destruct (token_authority m) as [ta|]; [|by injection E as _ <-].
      by apply bind_Ret_inv in E as (x & _ & [= _ <-]).
  - unfold put_data, patch_data, check_data_store_initialized. split.
    + intros data. destruct (Z.ltb_spec (data_store_limit m) (slen (to_vec data))); cbn; (split; [done|lia || done]).
    + split; intros data e; destruct (is_initialized m); try destruct (_ <? _); done.
Qed.
End StoreRuns.

(** ** Reading *)

Section Reading.
Context `{Profile} `{TokenCrypto} `{SerdeJsonLaws}.

(** The path of a list of keys, and where it leads. *)
Fixpoint uri_of (keys : list (list Z)) : list Z :=
  match keys with [] => [] | k :: keys => SLASH :: k ++ uri_of keys end.

Fixpoint walk (v : Value) (keys : list (list Z)) : option Value :=
  match keys with
  | [] => Some v
  | k :: keys => match map_get (as_object v) k with Some w => walk w keys | None => None end
  end.

Lemma uri_head keys : uri_of keys = [] \/ head (uri_of keys) = Some SLASH.
Proof. destruct keys; [by left|by right]. Qed.

Lemma pointer_walk keys : forall v w, Forall plain_key keys -> walk v keys = Some w ->
  pointer v (uri_of keys) = Some w.
Proof.
  induction keys as [|k keys IH]; intros v w Hk E; [injection E as ->; apply pointer_root|].
  apply Forall_cons in Hk as [Hk Hks]. destruct v as [| | | | |m]; try done. cbn [walk as_object] in E.
  cbn [uri_of]. rewrite pointer_member by (done || apply uri_head).
  destruct (map_get m k) as [u|]; [by apply IH|done].
Qed.

(** A path that leaves an object at a key it does not have. *)
Lemma pointer_missing keys k rest : forall v m, Forall plain_key keys -> plain_key k ->
  walk v keys = Some (Object m) -> map_get m k = None -> pointer v (uri_of (keys ++ k :: rest)) = None.
Proof.
  induction keys as [|k0 keys IH]; intros v m Hk Hp E En; cbn [app uri_of].
  - injection E as ->. rewrite pointer_member by (done || apply uri_head). by rewrite En.
  - apply Forall_cons in Hk as [Hk Hks]. destruct v as [| | | | |m0]; try done. cbn [walk as_object] in E.
    rewrite pointer_member by (done || apply uri_head). destruct (map_get m0 k0) as [u|]; [by apply (IH u m)|done].
Qed.

(** The path of plain keys does not end with a slash. *)
Lemma uri_last keys : Forall plain_key keys -> last (uri_of keys) <> Some SLASH.
Proof.
  induction 1 as [|k keys (Hk & Hs & _) Hks IH]; [done|]. cbn [uri_of].
  destruct (decide (uri_of keys = [])) as [->|Hne].
  - rewrite app_nil_r. destruct k as [|c k] using rev_ind; [done|]. rewrite app_comm_cons, last_snoc.
    intros [= ->]. apply Hs, elem_of_app. right. left.
  - rewrite app_comm_cons, last_app. destruct (last (uri_of keys)) as [x|] eqn:E; [congruence|].
    by apply last_None in E.
Qed.

Lemma get_value_path m keys format r : Forall plain_key keys ->
  (pointer (data_store m) (uri_of keys) = r) ->
  let answer := match r with
                | Some json => match format with Json => Ok (to_string json) | Imds => format_imds json end
                | None => Err DsNotFound
                end in
  get_value m (uri_of keys) format = answer /\ get_value m (uri_of keys ++ [SLASH]) format = answer.
Proof.
  intros Hk E. cbv zeta. unfold get_value. rewrite bool_decide_false by by apply uri_last.
  rewrite last_snoc, bool_decide_true, E by done. split; [done|].
  rewrite length_app. cbn [length]. replace (length (uri_of keys) + 1 - 1)%nat with (length (uri_of keys)) by lia.
  by rewrite take_app_length, E.
Qed.

(** What has been put is read back: at the path of the keys that lead to a part of the
    document, with or without a slash at the end, the part is found, as JSON text, or,
    for an object, as the list of its keys and, for a string, as the string; behind a key
    that an object does not have nothing is found. *)
Theorem get_reads_put m data m' keys : put_data m data = (Ok tt, m') -> Forall plain_key keys ->
  (forall v, walk data keys = Some v ->
     get_value m' (uri_of keys) Json = Ok (to_string v) /\
     get_value m' (uri_of keys ++ [SLASH]) Json = Ok (to_string v) /\
     get_value m' (uri_of keys) Imds = match v with
                                       | Object f => Ok (join_lines (map imds_key f))
                                       | Str s => Ok s
                                       | _ => Err UnsupportedValueType
                                       end) /\
  (forall f k rest format, walk data keys = Some (Object f) -> map_get f k = None -> plain_key k ->
     Forall plain_key rest -> get_value m' (uri_of (keys ++ k :: rest)) format = Err DsNotFound).
Proof.
  intros E Hk. assert (Ed : data_store m' = data).
  { unfold put_data in E. destruct (_ <? _); [done|]. by injection E as <-. }
  split.
  - intros v Ev. apply pointer_walk in Ev; [|done]. rewrite <-Ed in Ev.
    destruct (get_value_path m' keys Json _ Hk Ev) as [E1 E2]. destruct (get_value_path m' keys Imds _ Hk Ev) as [E3 _].
    split; [done|]. split; [done|]. by destruct v.
  - intros f k rest format Ev En Hp Hr. pose proof (pointer_missing keys k rest data f Hk Hp Ev En) as Ep.
    rewrite <-Ed in Ep. apply (get_value_path m' (keys ++ k :: rest) format None); [|done].
    apply Forall_app. split; [done|by constructor].
Qed.
End Reading.

(** ** A sample document *)

#[local] Instance sample_numbers : Numbers := {| Number := unit |}.

(** JSON text, without escapes and with one number. *)
Fixpoint sample_print (v : Value) : list Z :=
  match v with
  | Null => text "null"
  | Bool true => text "true"
  | Bool false => text "false"
  | Num _ => text "0"
  | Str s => [34] ++ s ++ [34]
  | Array l => [91] ++ (fix go l := match l with [] => [] | v :: l => sample_print v ++ [44] ++ go l end) l ++ [93]
  | Object m =>
      [123] ++ (fix go m := match m with
                            | [] => []
                            | (k, v) :: m => [34] ++ k ++ [34; 58] ++ sample_print v ++ [44] ++ go m
                            end) m ++ [125]
  end.

(** The keys of a path, by its slashes. *)
Fixpoint sample_split (s : list Z) : list (list Z) :=
  match s with
  | [] => [[]]
  | c :: s =>
      if c =? SLASH then [] :: sample_split s
      else match sample_split s with k :: keys => (c :: k) :: keys | [] => [[c]] end
  end.

Definition sample_pointer (v : Value) (path : list Z) : option Value :=
  match path with [] => Some v | c :: path => if c =? SLASH then walk v (sample_split path) else None end.

#[local] Instance sample_json : SerdeJson := {|
  to_vec := sample_print; to_string := sample_print; pointer := sample_pointer |}.

Lemma sample_split_plain k rest : SLASH ∉ k -> (rest = [] \/ head rest = Some SLASH) ->
  sample_split (k ++ rest) = k :: match rest with [] => [] | _ :: r => sample_split r end.
Proof.
  intros Hk Hr. induction k as [|c k IH]; cbn [app].
  - destruct Hr as [->|Hr]; [done|]. destruct rest as [|c r]; [done|]. injection Hr as ->. done.
  - cbn [sample_split]. rewrite not_elem_of_cons in Hk. destruct Hk as [Hc Hk].
    rewrite (proj2 (Z.eqb_neq _ _)) by congruence. by rewrite IH.
Qed.

Lemma sample_member_smaller m k v : map_get m k = Some v ->
  slen (sample_print v) <= slen (sample_print (Object m)).
Proof.
  intros E. cbn [sample_print]. rewrite !slen_app. change (slen [123]) with 1. change (slen [125]) with 1.
  induction m as [|[key w] m IH]; [done|]. cbn [map_get] in E. rewrite !slen_app.
  pose proof (slen_nonneg key). change (slen [34]) with 1. change (slen [34; 58]) with 2. change (slen [44]) with 1.
  pose proof (slen_nonneg (sample_print w)). destruct (decide (k = key)) as [->|].
  - injection E as <-.
    match goal with |- _ <= _ + (_ + (_ + (_ + (_ + (_ + slen ?x)))) + _) => pose proof (slen_nonneg x) end. lia.
  - specialize (IH E). lia.
Qed.

Lemma sample_walk_smaller keys : forall v w, walk v keys = Some w -> slen (sample_print w) <= slen (sample_print v).
Proof.
  induction keys as [|k keys IH]; intros v w E; [by injection E as ->|]. cbn [walk] in E.
  destruct v as [| | | | |m]; try done. cbn [as_object] in E. destruct (map_get m k) as [u|] eqn:Eu; [|done].
  apply IH in E. apply sample_member_smaller in Eu. lia.
Qed.

#[local] Instance sample_json_laws : SerdeJsonLaws.
Proof.
  split; cbn [to_vec to_string pointer sample_json].
  - done.
  - done.
  - intros s. cbn [sample_print]. rewrite !slen_app. unfold slen. cbn. lia.
  - intros m. cbn [sample_print]. rewrite !slen_app. induction m as [|[k v] m IH]; [unfold slen; cbn [length sum_list_with]; lia|].
    cbn [sum_list_with]. rewrite !slen_app. unfold slen in *. cbn [length fst] in *. lia.
  - intros v path w E. unfold sample_pointer in E. destruct path as [|c path]; [by injection E as ->|].
    destruct (c =? SLASH); [|done]. by apply sample_walk_smaller in E.
  - done.
  - intros m k rest (_ & Hs & _) Hr. unfold sample_pointer. rewrite Z.eqb_refl, sample_split_plain by done.
    cbn [walk as_object]. destruct (map_get m k) as [v|]; [|done]. destruct rest as [|c r]; [done|].
    destruct Hr as [|Hr]; [done|]. injection Hr as ->. by rewrite Z.eqb_refl.
  - intros s k rest. unfold sample_pointer. rewrite Z.eqb_refl. destruct (sample_split (k ++ rest)) eqn:E; [|done].
    exfalso. destruct (k ++ rest) as [|c l]; [done|]. cbn in E. destruct (c =? SLASH); [done|]. by destruct (sample_split l).
Qed.

Definition sample_doc : Value :=
  Object [(text "age", Num tt); (text "name", Object [(text "first", Str (text "Ada")); (text "last", Null)])].
Definition sample_patch : Value :=
  Object [(text "age", Null); (text "name", Object [(text "first", Str (text "Eva"))]); (text "x", Bool true)].

Lemma sample_ok : value_ok sample_doc /\ value_ok sample_patch.
Proof. split; repeat first [done|constructor]. Qed.

Lemma json_patch_merge_witness :
  value_ok (json_patch sample_doc sample_patch) /\
  json_patch (json_patch sample_doc sample_patch) sample_patch = json_patch sample_doc sample_patch /\
  map_get (as_object (json_patch sample_doc sample_patch)) (text "age") = None.
Proof.
  destruct (json_patch_merge sample_doc sample_patch) as (H1 & H2 & _ & H3); [apply sample_ok|apply sample_ok|].
  split; [exact H1|]. split; [exact H2|]. rewrite H3. reflexivity.
Defined.

#[local] Existing Instance MmdsToken.sample_crypto.

Definition sample_store : Mmds := default_with_limit 100.

Lemma store_within_limit_witness :
  store_ok sample_store /\ forall data e, (put_data sample_store data).1 = Err e -> (put_data sample_store data).2 = sample_store.
Proof.
  destruct (store_within_limit (H := dev_profile) sample_store) as (H1 & _ & H2 & _); [apply (st_new (H := dev_profile))|].
  split; [exact H1|exact H2].
Defined.

Definition sample_filled : Mmds := (put_data sample_store sample_doc).2.

Lemma get_reads_put_witness :
  get_value sample_filled (text "/name/first/") Json = Ok ([34] ++ text "Ada" ++ [34]) /\
  get_value sample_filled (text "/name") Imds = Ok (text "first" ++ [10] ++ text "last").
Proof.
  split.
  - destruct (get_reads_put sample_store sample_doc sample_filled [text "name"; text "first"]) as [Hf _].
    + reflexivity.
    + repeat constructor; by apply (bool_decide_unpack _).
    + destruct (Hf (Str (text "Ada"))) as (_ & E & _); [reflexivity|exact E].
  - destruct (get_reads_put sample_store sample_doc sample_filled [text "name"]) as [Hf _].
    + reflexivity.
    + repeat constructor; by apply (bool_decide_unpack _).
    + destruct (Hf (Object [(text "first", Str (text "Ada")); (text "last", Null)])) as (_ & _ & E);
        [reflexivity|exact E].
Defined.
