(* ===== verification/MmdsRequests.v ===== *)
(** * The requests of the metadata service

    Models the rest of [mmds/src/lib.rs]: how a request is answered from the data store,
    in version 1 without and in version 2 with a session token.  The lock around the
    service is taken once per request; what the token authority reads from the entropy
    pool and the clock are arguments.

    - every request is answered, and the guest never changes the document
      ([convert_total]);
    - in version 2 the answer to a request without a valid token does not depend on the
      document ([no_token_no_data]);
    - a token asked for opens the document until its time to live has passed, and not
      longer ([session]);
    - with this callback no frame of the guest makes the network stack panic
      ([service_frames_safe]). *)

From Stdlib Require Import ZArith Lia Ascii String.
From stdpp Require Import functions prelude gmap strings.
From S2P Require Import Prelude Text NetBytes PduTcp TcpConnection TcpStream Http TcpEndpoint TcpHandler MmdsStack MmdsToken MmdsStore.

Inductive LibError :=
| InvalidToken | InvalidURI | NotAllowed | NoTokenProvided | NoTtlProvided | ResourceNotFound (uri : list Z).

Definition lib_error_text (e : LibError) : list Z :=
  match e with
  | InvalidToken => text "MMDS token not valid."
  | InvalidURI => text "Invalid URI."
  | NotAllowed => text "Not allowed HTTP method."
  | NoTokenProvided => text "No MMDS token provided. Use `X-metadata-token` header to specify the session token."
  | NoTtlProvided =>
      text "Token time to live value not found. Use `X-metadata-token-ttl_seconds` header to specify the token's lifetime."
  | ResourceNotFound uri => text "Resource not found: " ++ uri ++ text "."
  end.

Definition output_format_from (m : MediaType) : OutputFormat :=
  match m with ApplicationJson => Json | PlainText => Imds end.

Section Requests.
Context `{Profile} `{Http} `{TokenCrypto} `{SerdeJson}.

Definition lib_build_response (http_version : Version) (status_code : StatusCode) (body : list Z) : Response :=
  set_body (Response_new http_version status_code) body.

Definition respond_to_get_request_unchecked (m : Mmds) (request : Request) : outcome Response :=
  let uri := get_abs_path request in
  json_path ← sanitize_uri uri;
  let build := lib_build_response (http_version request) in
  match get_value m json_path (output_format_from (accept request)) with
  | Ok response_body => Done (build OK response_body)
  | Err err =>
      match err with
      | DsNotFound => Done (build NotFound (lib_error_text (ResourceNotFound uri)))
      | UnsupportedValueType => Done (build NotImplemented (mmds_error_text err))
      | DataStoreLimitExceeded => Done (build PayloadTooLarge (mmds_error_text err))
      | NotInitialized | TokenAuthorityError _ => Crash
      end
  end.

Definition respond_to_get_request_checked (m : Mmds) (request : Request) (token_headers : TokenHeaders) (now : Z)
    : outcome Response :=
  let build := lib_build_response (http_version request) in
  match x_metadata_token token_headers with
  | None => Done (build Unauthorized (lib_error_text NoTokenProvided))
  | Some token =>
      match is_valid_token m token now with
      | Ok true => respond_to_get_request_unchecked m request
      | Ok false => Done (build Unauthorized (lib_error_text InvalidToken))
      | Err _ => Crash
      end
  end.

Definition respond_to_put_request (m : Mmds) (request : Request) (token_headers : TokenHeaders)
    (pool_key pool_iv : result (list Z) IoError) (now : Z) : outcome (Response * Mmds) :=
  let build := lib_build_response (http_version request) in
  if bool_decide (is_Some (custom_entries request !! REJECTED_HEADER))
  then Done (build BadRequest (error_to_string (unsupported_name REJECTED_HEADER)), m)
  else
    let uri := get_abs_path request in
    json_path ← sanitize_uri uri;
    if negb (bool_decide (json_path = PATH_TO_TOKEN))
    then Done (build NotFound (lib_error_text (ResourceNotFound uri)), m)
    else match x_metadata_token_ttl_seconds token_headers with
    | None => Done (build BadRequest (lib_error_text NoTtlProvided), m)
    | Some ttl_seconds =>
        r ← lift (generate_token m ttl_seconds pool_key pool_iv now);
        match r with
        | (Ok token, m) => Done (set_content_type (build OK token) PlainText, m)
        | (Err err, m) => Done (build BadRequest (token_error_text err), m)
        end
    end.

Definition respond_to_request_mmdsv1 (m : Mmds) (request : Request) : outcome Response :=
  match method request with
  | Get => respond_to_get_request_unchecked m request
  | _ => Done (allow_method (lib_build_response (http_version request) MethodNotAllowed (lib_error_text NotAllowed)) Get)
  end.

Definition respond_to_request_mmdsv2 (m : Mmds) (request : Request)
    (pool_key pool_iv : result (list Z) IoError) (now : Z) : outcome (Response * Mmds) :=
  match TokenHeaders_try_from (custom_entries request) with
  | Err err => Done (lib_build_response (http_version request) BadRequest (error_to_string err), m)
  | Ok token_headers =>
      match method request with
      | Get => r ← respond_to_get_request_checked m request token_headers now; Done (r, m)
      | Put => respond_to_put_request m request token_headers pool_key pool_iv now
      | _ =>
          let response := lib_build_response (http_version request) MethodNotAllowed (lib_error_text NotAllowed) in
          Done (allow_method (allow_method response Get) Put, m)
      end
  end.

Definition convert_to_response (m : Mmds) (request : Request)
    (pool_key pool_iv : result (list Z) IoError) (now : Z) : outcome (Response * Mmds) :=
  if bool_decide (get_abs_path request = [])
  then Done (lib_build_response (http_version request) BadRequest (lib_error_text InvalidURI), m)
  else match version m with
  | V1 => r ← respond_to_request_mmdsv1 m request; Done (r, m)
  | V2 => respond_to_request_mmdsv2 m request pool_key pool_iv now
  end.
End Requests.

(** ** Every request is answered *)

Section Answers.
Context `{Profile} `{Http} `{TokenCryptoLaws} `{SerdeJson}.

Definition authority_ok (m : Mmds) : Prop := forall ta, token_authority m = Some ta -> count_ok ta.
Definition path_short (request : Request) : Prop := slen (get_abs_path request) < 2 ^ 32 - 1.
Definition nonce_ok (pool : result (list Z) IoError) : Prop :=
  forall nonce, pool = Ok nonce -> slen nonce = IV_LEN /\ bytes_ok nonce.

(** Only the authority may differ. *)
Definition same_data (m m' : Mmds) : Prop :=
  data_store m' = data_store m /\ is_initialized m' = is_initialized m /\ data_store_limit m' = data_store_limit m /\
  version m' = version m.

Lemma sanitize_ok uri : slen uri < 2 ^ 32 - 1 -> sanitize_uri uri = Done (collapse uri).
Proof. intros Hl. apply sanitize_loop_ok; [done|unfold slen; lia]. Qed.

(** Reading finds the value, or fails in one of two ways. *)
Lemma get_value_error m path format e : get_value m path format = Err e -> e = DsNotFound \/ e = UnsupportedValueType.
Proof.
  unfold get_value, format_imds. destruct (if bool_decide _ then _ else _) as [v|]; [|intros [= <-]; auto].
  destruct format; [done|]. destruct v; try done; intros [= <-]; auto.
Qed.

Lemma get_unchecked_ok m request : path_short request ->
  exists r, respond_to_get_request_unchecked m request = Done r.
Proof.
  intros Hp. unfold respond_to_get_request_unchecked. rewrite sanitize_ok, bind_Done by done.
  destruct (get_value m _ _) as [b|e] eqn:E; [eauto|]. apply get_value_error in E as [->| ->]; eauto.
Qed.

Lemma get_unchecked_data m m' request : data_store m' = data_store m ->
  respond_to_get_request_unchecked m' request = respond_to_get_request_unchecked m request.
Proof. intros E. unfold respond_to_get_request_unchecked, get_value. by rewrite E. Qed.

Lemma generate_token_ok m ttl pool_key pool_iv now : authority_ok m -> time_ok now -> nonce_ok pool_iv ->
  exists r m', generate_token m ttl pool_key pool_iv now = Ret (r, m') /\ authority_ok m' /\ same_data m m'.
Proof.
  intros Ha Hn Hp. unfold generate_token, same_data, version. destruct (token_authority m) as [ta|] eqn:Et.
  - destruct (generate_ok ta ttl pool_key pool_iv now (Ha ta Et) Hn Hp) as (r & ta' & -> & Hc & _). rewrite bind_Ret.
    do 2 eexists. split; [done|]. split; [by intros ta2 [= <-]|]. done.
  - do 2 eexists. split; [done|]. by rewrite Et.
Qed.

Lemma respond_to_put_ok m request th pool_key pool_iv now : authority_ok m -> path_short request -> time_ok now ->
  nonce_ok pool_iv -> exists r m', respond_to_put_request m request th pool_key pool_iv now = Done (r, m') /\
    authority_ok m' /\ same_data m m'.
Proof.
  intros Ha Hp Hn Hi. assert (Hs : same_data m m) by done. unfold respond_to_put_request.
  destruct (bool_decide _); [by eauto 8|]. rewrite sanitize_ok, bind_Done by done.
  destruct (negb _); [by eauto 8|]. destruct (x_metadata_token_ttl_seconds th) as [ttl|]; [|by eauto 8].
  destruct (generate_token_ok m ttl pool_key pool_iv now Ha Hn Hi) as (r & m' & -> & Ha' & Hs'). cbn [lift].
  rewrite bind_Done. destruct r; by eauto 8.
Qed.

(** Every request is answered, whatever its method, path and headers, and the code
    that is marked as unreachable is not reached; the document, the limit and the version
    stay what they were. *)
Theorem convert_total m request pool_key pool_iv now : authority_ok m -> path_short request -> time_ok now ->
  nonce_ok pool_iv -> exists r m', convert_to_response m request pool_key pool_iv now = Done (r, m') /\
    authority_ok m' /\ same_data m m'.
Proof.
  intros Ha Hp Hn Hi. assert (Hs : same_data m m) by done. unfold convert_to_response.
  destruct (bool_decide _); [by eauto 8|]. destruct (get_unchecked_ok m request Hp) as [r Er].
  destruct (version m) eqn:Ev.
  - unfold respond_to_request_mmdsv1. destruct (method request); rewrite ?Er, ?bind_Done; by eauto 8.
  - unfold respond_to_request_mmdsv2. destruct (TokenHeaders_try_from _) as [th|e]; [|by eauto 8].
    destruct (method request); [|by apply respond_to_put_ok|by eauto 8].
    unfold respond_to_get_request_checked, is_valid_token. unfold version in Ev.
    destruct (x_metadata_token th) as [t|]; [|rewrite bind_Done; by eauto 8].
    destruct (token_authority m) as [ta|]; [|done].
    destruct (is_valid ta t now); rewrite ?Er, bind_Done; by eauto 8.
Qed.

(** ** Tokens guard the document *)

(** The response alone. *)
Definition response_of (m : Mmds) (request : Request) (pool_key pool_iv : result (list Z) IoError) (now : Z)
    : outcome Response :=
  x ← convert_to_response m request pool_key pool_iv now; Done x.1.

Definition with_data_store (m : Mmds) (data : Value) : Mmds :=
  mkMmds data (token_authority m) (is_initialized m) (data_store_limit m).

Lemma put_independent m data request th pool_key pool_iv now :
  (x ← respond_to_put_request (with_data_store m data) request th pool_key pool_iv now; Done x.1) =
  (x ← respond_to_put_request m request th pool_key pool_iv now; Done x.1).
Proof.
  unfold respond_to_put_request. destruct (bool_decide _); [done|].
  destruct (sanitize_uri _) as [p| |]; [|done|done]. rewrite !bind_Done. destruct (negb _); [done|].
  destruct (x_metadata_token_ttl_seconds th) as [ttl|]; [|done]. unfold generate_token. cbn [token_authority with_data_store].
  destruct (token_authority m) as [ta|]; [|done].
  destruct (generate_token_secret ta ttl pool_key pool_iv now) as [[[s|e] ta']|]; done.
Qed.

(** In version 2 the answer to a request that is not a GET, or whose token is missing
    or not valid, is the same whatever the document holds. *)
Theorem no_token_no_data m ta data request pool_key pool_iv now : token_authority m = Some ta ->
  (method request <> Get \/
   forall token, custom_entries request !! X_METADATA_TOKEN = Some token -> is_valid ta token now = false) ->
  response_of (with_data_store m data) request pool_key pool_iv now = response_of m request pool_key pool_iv now.
Proof.
  intros Et Hno. unfold response_of, convert_to_response. destruct (bool_decide _); [done|].
  unfold version. cbn [token_authority with_data_store]. rewrite Et. unfold respond_to_request_mmdsv2.
  destruct (TokenHeaders_try_from _) as [th|e] eqn:Eh; [|done].
  destruct (method request); [|apply put_independent|done]. destruct Hno as [|Hno]; [done|].
  assert (Ex : x_metadata_token th = custom_entries request !! X_METADATA_TOKEN).
  { unfold TokenHeaders_try_from in Eh. repeat case_match; try done; by injection Eh as <-. }
  unfold respond_to_get_request_checked, is_valid_token. cbn [token_authority with_data_store]. rewrite Ex, Et.
  destruct (custom_entries request !! X_METADATA_TOKEN) as [t|]; [|done]. by rewrite Hno.
Qed.

(** ** Sessions *)

(** A request for a token of [ttl] seconds, and one for a value with a token. *)
Record asks_token (request : Request) (ttl : Z) : Prop := {
  at_method : method request = Put;
  at_path : collapse (get_abs_path request) = PATH_TO_TOKEN;
  at_short : path_short request;
  at_direct : custom_entries request !! REJECTED_HEADER = None;
  at_ttl : exists value, custom_entries request !! X_METADATA_TOKEN_TTL_SECONDS = Some value /\
    parse_u32 value = Some ttl
}.

Record shows_token (request : Request) (token : list Z) : Prop := {
  sh_method : method request = Get;
  sh_path : get_abs_path request <> [];
  sh_token : custom_entries request !! X_METADATA_TOKEN = Some token;
  sh_ttl : custom_entries request !! X_METADATA_TOKEN_TTL_SECONDS = None
}.

(** C33: in version 2 a PUT to the token's path with a time to live between one second and
    six hours is answered with a token, and a GET that shows this token is then answered
    as if there were no tokens until the time to live has passed, and refused from then
    on. *)
Theorem session m ta put ttl key nonce now : token_authority m = Some ta -> count_ok ta -> slen (aad ta) < 2 ^ 32 ->
  asks_token put ttl -> 1 <= ttl <= 21600 -> time_ok now -> slen nonce = IV_LEN -> bytes_ok nonce ->
  exists token m1,
    convert_to_response m put (Ok key) (Ok nonce) now =
      Done (set_content_type (lib_build_response (http_version put) OK token) PlainText, m1) /\
    forall get pool_key pool_iv t, shows_token get token ->
      response_of m1 get pool_key pool_iv t =
        if t <? now + 1000 * ttl then respond_to_get_request_unchecked m get
        else Done (lib_build_response (http_version get) Unauthorized (lib_error_text InvalidToken)).
Proof.
  intros Et Hc Ha [Pm Pp Ps Pd (value & Pv & Pt)] Httl Hn Hl Hb.
  destruct (generate_succeeds ta ttl key nonce now Hc Hn Hl Hb Ha Httl) as (s & ta' & E).
  exists s, (with_authority m (Some ta')). split.
  - unfold convert_to_response, version. rewrite Et. assert (Hne : get_abs_path put <> []).
    { intros E0. by rewrite E0 in Pp. }
    rewrite bool_decide_false by done. unfold respond_to_request_mmdsv2, TokenHeaders_try_from.
    rewrite Pv, Pt, Pm. unfold respond_to_put_request. rewrite Pd, bool_decide_false by by intros [].
    rewrite sanitize_ok, bind_Done, Pp, bool_decide_true by done. cbn [negb x_metadata_token_ttl_seconds].
    unfold generate_token. by rewrite Et, E.
  - intros get pk pi t [Gm Gp Gt Gl].
    destruct (generate_ok ta ttl (Ok key) (Ok nonce) now Hc Hn) as (r & ta1 & E1 & _ & _ & _ & Hr);
      [by intros n [= <-]|]. rewrite E in E1. injection E1 as <- <-.
    destruct (Hr s eq_refl) as (_ & Hs & tok & Ed & Ex).
    assert (Ev : is_valid ta' s t = (t <? now + 1000 * ttl)).
    { unfold is_valid, TOKEN_LENGTH_LIMIT. rewrite Hs, Ed. cbn. by rewrite Ex. }
    unfold response_of, convert_to_response, version. cbn [token_authority with_authority].
    rewrite bool_decide_false by done. unfold respond_to_request_mmdsv2, TokenHeaders_try_from. rewrite Gl, Gt, Gm.
    unfold respond_to_get_request_checked, is_valid_token. cbn [x_metadata_token token_authority with_authority].
    rewrite Ev. destruct (t <? now + 1000 * ttl); [|done].
    rewrite (get_unchecked_data m) by done. by destruct (respond_to_get_request_unchecked m get).
Qed.
End Answers.

(** ** The service behind the network stack *)

Section Service.
Context `{Profile} `{HttpLaws} `{TokenCryptoLaws} `{SerdeJsonLaws}.

(** The bodies the service answers with. *)
Definition BODY_MAX : Z := 2 ^ 29 + 8192.

Lemma build_short v s b : slen b <= BODY_MAX -> slen (write_all (lib_build_response v s b)) <= 2 ^ 29 + 16384.
Proof.
  intros Hb. unfold lib_build_response, BODY_MAX in *. pose proof (write_all_body (Response_new v s) b).
  pose proof (write_all_new v s). lia.
Qed.

Lemma not_allowed_short v s b x y : slen b <= BODY_MAX ->
  slen (write_all (allow_method (lib_build_response v s b) x)) < 2 ^ 30 /\
  slen (write_all (allow_method (allow_method (lib_build_response v s b) x) y)) < 2 ^ 30.
Proof.
  intros Hb%(build_short v s). pose proof (write_all_allow (lib_build_response v s b) x).
  pose proof (write_all_allow (allow_method (lib_build_response v s b) x) y). lia.
Qed.

Lemma decimal_loop_short fuel : forall n l, slen (decimal_loop fuel n l) <= Z.of_nat fuel + slen l.
Proof.
  induction fuel as [|fuel IH]; intros n l; cbn [decimal_loop]; [lia|]. destruct (_ =? 0).
  - rewrite slen_cons. lia.
  - specialize (IH (n / 10) (48 + n mod 10 :: l)). rewrite slen_cons in IH. lia.
Qed.

Lemma token_error_short e : slen (token_error_text e) <= 2048.
Proof.
  destruct e as [e| | |n|e|]; cbn [token_error_text]; rewrite ?slen_app; try done.
  - pose proof (io_error_short e). change (slen (text "Failed to extract entropy from /dev/urandom entropy pool: ")) with 58.
    change (slen (text ".")) with 1. lia.
  - assert (Hd : slen (decimal n) <= 10) by apply (decimal_loop_short 10 n []).
    change (slen (text "Invalid time to live value provided for token: ")) with 47.
    change (slen (text ". Please provide a value between ")) with 33.
    change (slen (decimal MIN_TOKEN_TTL_SECONDS)) with 1. change (slen (decimal MAX_TOKEN_TTL_SECONDS)) with 5.
    change (slen (text " and ")) with 5. change (slen (text ".")) with 1. lia.
  - pose proof (bincode_error_short e). change (slen (text "Bincode serialization failed: ")) with 30.
    change (slen (text ".")) with 1. lia.
Qed.

Lemma not_found_short uri : slen uri <= REQUEST_MAX -> slen (lib_error_text (ResourceNotFound uri)) <= BODY_MAX.
Proof.
  intros Hu. cbn [lib_error_text]. rewrite !slen_app. change (slen (text "Resource not found: ")) with 20.
  change (slen (text ".")) with 1. unfold REQUEST_MAX, BODY_MAX in *. lia.
Qed.

(** The keys of an object, one per line and objects with a slash, take no more room than
    the object. *)
Lemma join_keys_short m : slen (join_lines (map imds_key m)) <=
  Z.of_nat (sum_list_with (fun x => length (x.1) + 2)%nat m).
Proof.
  assert (Hk : forall x : list Z * Value, slen (imds_key x) <= slen (x.1) + 1).
  { intros x. unfold imds_key. destruct (is_object x.2); [by rewrite slen_app|lia]. }
  induction m as [|x m IH]; [done|]. cbn [map sum_list_with]. specialize (Hk x). unfold slen in *.
  destruct m as [|y m]; [cbn [map join_lines sum_list_with]; lia|].
  cbn [map join_lines] in *. rewrite !length_app. cbn [length]. lia.
Qed.

Lemma get_value_short m path format b : get_value m path format = Ok b -> slen b <= slen (to_vec (data_store m)).
Proof.
  unfold get_value. set (value := if bool_decide _ then _ else _). destruct value as [v|] eqn:Ev; [|done].
  assert (Hv : slen (to_vec v) <= slen (to_vec (data_store m))).
  { unfold value in Ev. destruct (bool_decide _); by eapply pointer_smaller. }
  destruct format; [intros [= <-]; by rewrite to_string_length|]. unfold format_imds.
  destruct v as [| | |s| |o]; try done; intros [= <-].
  - pose proof (to_vec_string s). lia.
  - pose proof (join_keys_short o). pose proof (to_vec_object o). lia.
Qed.

(** The document takes at most half a gigabyte. *)
Definition data_short (m : Mmds) : Prop := slen (to_vec (data_store m)) <= 2 ^ 29.

Lemma store_data_short m : store_ok m -> data_store_limit m <= 2 ^ 29 -> data_short m.
Proof.
  intros [_ Hs] Hl. unfold data_short. destruct (is_initialized m); [lia|]. by rewrite Hs, to_vec_null.
Qed.

Lemma get_unchecked_short m rq r : data_short m -> slen (get_abs_path rq) <= REQUEST_MAX ->
  respond_to_get_request_unchecked m rq = Done r -> slen (write_all r) <= 2 ^ 29 + 16384.
Proof.
  intros Hd Hp E. unfold respond_to_get_request_unchecked in E. unfold data_short in *.
  apply bind_Done_inv in E as (p & _ & E). destruct (get_value m p _) as [b|e] eqn:Eg.
  - injection E as <-. apply build_short. apply get_value_short in Eg. unfold BODY_MAX. lia.
  - apply get_value_error in Eg as [->| ->]; injection E as <-; apply build_short; [|done].
    by apply not_found_short.
Qed.

Lemma put_short m rq th pool_key pool_iv now r m' : authority_ok m -> time_ok now -> nonce_ok pool_iv ->
  slen (get_abs_path rq) <= REQUEST_MAX ->
  respond_to_put_request m rq th pool_key pool_iv now = Done (r, m') -> slen (write_all r) <= 2 ^ 29 + 17408.
Proof.
  intros Ha Hn Hi Hp E. unfold respond_to_put_request in E.
  assert (Hb : forall v s b, slen b <= BODY_MAX -> slen (write_all (lib_build_response v s b)) <= 2 ^ 29 + 17408).
  { intros v s b Hb. apply (build_short v s) in Hb. lia. }
  destruct (bool_decide _).
  { injection E as <- _. apply Hb. pose proof (unsupported_name_short REJECTED_HEADER).
    change (slen REJECTED_HEADER) with 15 in *. unfold BODY_MAX. lia. }
  apply bind_Done_inv in E as (p & _ & E). destruct (negb _).
  { injection E as <- _. by apply Hb, not_found_short. }
  destruct (x_metadata_token_ttl_seconds th) as [ttl|]; [|injection E as <- _; by apply Hb].
  apply bind_Done_inv in E as (x & Ex & E). apply lift_Done_inv in Ex. destruct x as [[s|e] m1].
  - injection E as <- _. pose proof (write_all_content_type (lib_build_response (http_version rq) OK s) PlainText).
    assert (Hs : slen s = 48).
    { unfold generate_token in Ex. destruct (token_authority m) as [ta|] eqn:Et; [|done].
      destruct (generate_ok ta ttl pool_key pool_iv now (Ha ta Et) Hn Hi) as (r & ta' & Eg & _ & _ & _ & Hr).
      rewrite Eg, bind_Ret in Ex. injection Ex as -> _. by apply Hr. }
    pose proof (build_short (http_version rq) OK s). unfold BODY_MAX in *. lia.
  - injection E as <- _. apply Hb. pose proof (token_error_short e). unfold BODY_MAX. lia.
Qed.

Lemma response_of_short m b rq pool_key pool_iv now r : data_short m -> authority_ok m -> time_ok now ->
  nonce_ok pool_iv -> slen b <= REQUEST_MAX -> Request_try_from b = Ok rq ->
  response_of m rq pool_key pool_iv now = Done r -> response_short r.
Proof.
  intros Hd Ha Hn Hi Hb Er E. pose proof (abs_path_short b rq Er) as Hp. unfold response_short, response_of in *.
  assert (Hp' : slen (get_abs_path rq) <= REQUEST_MAX) by lia. apply bind_Done_inv in E as ([r1 m1] & E & [= ->]).
  assert (Hbb : forall v s b, slen b <= BODY_MAX -> slen (write_all (lib_build_response v s b)) < 2 ^ 30).
  { intros v s body Hbody. apply (build_short v s) in Hbody. lia. }
  assert (Hg : respond_to_get_request_unchecked m rq = Done r -> slen (write_all r) < 2 ^ 30).
  { intros Eg. apply get_unchecked_short in Eg; [lia|done|done]. }
  unfold convert_to_response in E. destruct (bool_decide _); [injection E as <- _; by apply Hbb|].
  destruct (version m).
  - apply bind_Done_inv in E as (r1 & E & [= -> _]). unfold respond_to_request_mmdsv1 in E.
    destruct (method rq); [by apply Hg| |]; injection E as <-; by apply (not_allowed_short _ _ _ _ Get).
  - unfold respond_to_request_mmdsv2 in E. destruct (TokenHeaders_try_from _) as [th|e] eqn:Eh.
    2: { injection E as <- _. apply Hbb. unfold TokenHeaders_try_from in Eh.
         destruct (custom_entries rq !! X_METADATA_TOKEN_TTL_SECONDS) as [v|] eqn:Ev; [|done].
         destruct (parse_u32 v); [done|]. injection Eh as <-. pose proof (header_short b rq _ v Er Ev).
         pose proof (invalid_value_short X_METADATA_TOKEN_TTL_SECONDS v).
         change (slen X_METADATA_TOKEN_TTL_SECONDS) with 28 in *. unfold REQUEST_MAX, BODY_MAX in *. lia. }
    destruct (method rq).
    + apply bind_Done_inv in E as (r1 & E & [= -> _]). unfold respond_to_get_request_checked in E.
      destruct (x_metadata_token th) as [t|]; [|injection E as <-; by apply Hbb].
      destruct (is_valid_token m t now) as [[]|]; [by apply Hg|injection E as <-; by apply Hbb|done].
    + apply put_short in E; [lia|done..].
    + injection E as <- _. by apply not_allowed_short.
Qed.

(** The callback the network device hands to the stack: the requests of a frame are
    answered by the service as it is. *)
Definition answers_as (m : Mmds) (pool_key pool_iv : result (list Z) IoError) (now : Z)
    (callback : Request -> Response) : Prop :=
  forall rq, path_short rq -> response_of m rq pool_key pool_iv now = Done (callback rq).

(** With the metadata service behind it, whose document is kept within a limit of at
    most half a gigabyte, no frame of the guest makes the network stack panic. *)
Theorem service_frames_safe m pool_key pool_iv now callback o T T' n src isn clock :
  store_ok m -> data_store_limit m <= 2 ^ 29 -> authority_ok m -> time_ok now -> nonce_ok pool_iv ->
  answers_as m pool_key pool_iv now callback ->
  stack_run T n -> bytes_ok src -> T' < 2 ^ 63 -> clock_ok T T' clock -> in_range 32 isn ->
  detour_frame o n src callback isn clock <> Crash.
Proof.
  intros Hs Hl Ha Hn Hi Hcb Hr%stack_run_ok Hb HT' Hclk Hisn.
  assert (Hok : callback_ok callback).
  { intros b rq Hlen Er. apply (response_of_short m b rq pool_key pool_iv now); try done.
    - by apply store_data_short.
    - apply Hcb. pose proof (abs_path_short b rq Er). unfold path_short, REQUEST_MAX in *. lia. }
  by destruct (detour_ok o T T' n src callback isn clock Hok Hr Hb Hclk HT' Hisn) as [->|(b & n' & -> & _)].
Qed.
End Service.

(** ** Sample requests *)

#[local] Existing Instance MmdsToken.sample_crypto.
#[local] Existing Instance MmdsToken.sample_crypto_laws.
#[local] Existing Instance MmdsStore.sample_numbers.
#[local] Existing Instance MmdsStore.sample_json.
#[local] Existing Instance MmdsStore.sample_json_laws.

(** Requests given by their method, path and headers. *)
#[local] Instance session_http : Http := {|
  Request := Method * list Z * gmap (list Z) (list Z);
  Response := StatusCode * list Z;
  Version := unit;
  default_version := tt;
  Request_try_from _ := Err InvalidRequest;
  error_to_string _ := [];
  http_version _ := tt;
  method rq := rq.1.1;
  get_abs_path rq := rq.1.2;
  accept _ := ApplicationJson;
  custom_entries rq := rq.2;
  unsupported_name n := HeaderError n;
  invalid_value n _ := HeaderError n;
  Response_new _ code := (code, []);
  set_body r b := (r.1, b);
  set_content_type r _ := r;
  allow_method r _ := r;
  write_all r := r.2 |}.

Definition sample_service : Mmds := with_authority sample_filled (Some sample_authority).
Definition sample_put : Request := (Put, text "/latest//api/token", {[X_METADATA_TOKEN_TTL_SECONDS := text "60"]}).
Definition sample_get (token : list Z) : Request :=
  (Get, text "/name/first", {[X_METADATA_TOKEN := token]}).

Lemma sample_authority_ok : authority_ok sample_service.
Proof. intros ta [= <-]. done. Qed.

Lemma sample_nonce_ok : nonce_ok (Ok sample_nonce).
Proof. intros n [= <-]. split; [done|by repeat constructor]. Qed.

Lemma convert_total_witness :
  exists r m', convert_to_response (H := dev_profile) sample_service sample_put (Ok []) (Ok sample_nonce) 1000 =
    Done (r, m') /\ authority_ok m' /\ same_data sample_service m'.
Proof.
  apply (convert_total (H := dev_profile)); [exact sample_authority_ok|done|done|exact sample_nonce_ok].
Defined.

Lemma no_token_no_data_witness :
  response_of (H := dev_profile) (with_data_store sample_service sample_patch) (sample_get []) (Ok []) (Ok []) 0 =
  response_of (H := dev_profile) sample_service (sample_get []) (Ok []) (Ok []) 0.
Proof.
  apply (no_token_no_data (H := dev_profile) sample_service sample_authority); [done|]. right.
  intros token E. vm_compute in E. injection E as <-. reflexivity.
Defined.

Lemma session_witness :
  exists token m1,
    convert_to_response (H := dev_profile) sample_service sample_put (Ok []) (Ok sample_nonce) 1000 =
      Done ((OK, token), m1) /\
    response_of (H := dev_profile) m1 (sample_get token) (Ok []) (Ok []) 60999 =
      Done (OK, [34] ++ text "Ada" ++ [34]) /\
    response_of (H := dev_profile) m1 (sample_get token) (Ok []) (Ok []) 61000 =
      Done (Unauthorized, lib_error_text InvalidToken).
Proof.
  destruct (session (H := dev_profile) sample_service sample_authority sample_put 60 [] sample_nonce 1000)
    as (token & m1 & Ep & Hg); [done|done|done| |done|done|done|by repeat constructor|].
  - constructor; [reflexivity|reflexivity|reflexivity|reflexivity|]. exists (text "60"). split; reflexivity.
  - assert (Hs : shows_token (sample_get token) token).
    { constructor; [reflexivity|done| |].
      - apply lookup_singleton_eq.
      - apply lookup_singleton_ne. done. }
    exists token, m1. split; [exact Ep|]. split.
    + rewrite (Hg (sample_get token) (Ok []) (Ok []) 60999 Hs). reflexivity.
    + rewrite (Hg (sample_get token) (Ok []) (Ok []) 61000 Hs). reflexivity.
Defined.

(** The library of the stack's samples, whose requests have no path. *)
Definition sample_answers : @Request TcpEndpoint.sample_http -> @Response TcpEndpoint.sample_http :=
  fun _ => (false, lib_error_text InvalidURI).

Lemma service_frames_safe_witness :
  detour_frame (H := dev_profile) (H0 := TcpEndpoint.sample_http) sample_order sample_stack [] sample_answers 7 sample_clock
    <> Crash.
Proof.
  apply (service_frames_safe (H := dev_profile) (H0 := TcpEndpoint.sample_http) (H1 := TcpEndpoint.sample_http_laws)
    sample_service (Ok []) (Ok sample_nonce) 0 sample_answers sample_order 0 2000).
  - split; [apply sample_ok|done].
  - done.
  - exact sample_authority_ok.
  - done.
  - exact sample_nonce_ok.
  - intros rq _. reflexivity.
  - exact sample_stack_run.
  - constructor.
  - lia.
  - apply sample_clock_ok.
  - done.
Defined.
