(* ===== verification/NetDevice.v ===== *)
(** * The network device

    Models [devices/src/virtio/net]: frames of the guest go from the TX queue to the metadata
    service or to the tap, frames of the metadata service or the tap go to the RX queue, both
    under a rate limiter.

    The network stack of the metadata service is an interface ([FrameService]), which
    [NetMmds] implements with [MmdsStack].  What the world decides is an argument: what the tap
    answers when it is read, the clock, and what the driver does to its memory meanwhile; the
    frames given to the tap and those read from it are kept in order.  Loops get a bound on the
    number of rounds.  The device's [tx_iovec] and [tx_frame_buf] are written before they are
    read in every round, so they are local here.  Log messages and metrics are left out. *)

From Stdlib Require Import ZArith Lia.
From stdpp Require Import functions prelude.
From S2P Require Import Prelude GuestMemory VirtioQueue QueueRuns Mmio RateLimiter VirtioPersist NetBytes.

(** ** Data *)

Definition MAX_BUFFER_SIZE : nat := Z.to_nat 65562.
Definition NET_QUEUE_SIZE : Z := 256.
Definition NET_NUM_QUEUES : nat := 2.
Definition RX_INDEX : nat := 0.
Definition TX_INDEX : nat := 1.
Definition TYPE_NET : Z := 1.
Definition EAGAIN : Z := 11.

Definition VIRTIO_NET_F_CSUM : Z := 0.
Definition VIRTIO_NET_F_GUEST_CSUM : Z := 1.
Definition VIRTIO_NET_F_MAC : Z := 5.
Definition VIRTIO_NET_F_GUEST_TSO4 : Z := 7.
Definition VIRTIO_NET_F_GUEST_UFO : Z := 10.
Definition VIRTIO_NET_F_HOST_TSO4 : Z := 11.
Definition VIRTIO_NET_F_HOST_UFO : Z := 14.

Inductive FrontendError (X : Type) := FeAddUsed | FeDescriptorChainTooSmall | FeEmptyQueue | FeGuestMemory (e : X) | FeReadOnlyDescriptor.
Arguments FeAddUsed {X}. Arguments FeDescriptorChainTooSmall {X}. Arguments FeEmptyQueue {X}. Arguments FeGuestMemory {X} e.
Arguments FeReadOnlyDescriptor {X}.

Inductive TapError := TapIoctlError (errno : Z) | TapInvalidIfname | TapOpenTun (errno : Z).

Inductive NetError := TapOpen (e : TapError) | TapSetOffload (e : TapError) | TapSetVnetHdrSize (e : TapError) | TapEnable (e : TapError) | NetEventFd | NetIO (errno : Z) | VnetHeaderMissing.

(** The errors of [crate::Error] that occur. *)
Inductive NetDeviceError (X : Type) := FailedReadTap | NetSignalingIrq | NetQueueError (e : QueueError X).
Arguments FailedReadTap {X}. Arguments NetSignalingIrq {X}. Arguments NetQueueError {X} e.

(** [l[..k]] and [l[k..]]. *)
Definition slice_to (l : list Z) (k : nat) : exec (list Z) := if (k <=? length l)%nat then Ret (take k l) else Panic.
Definition slice_rest (l : list Z) (k : nat) : exec (list Z) := if (k <=? length l)%nat then Ret (drop k l) else Panic.

(** The size of [virtio_net_hdr_v1]. *)
Definition vnet_hdr_len : nat := 12.

Definition frame_bytes_from_buf (buf : list Z) : result (list Z) NetError :=
  if (length buf <? vnet_hdr_len)%nat then Err VnetHeaderMissing else Ok (drop vnet_hdr_len buf).

Definition init_vnet_hdr (buf : list Z) : exec (list Z) :=
  rest ← slice_rest buf vnet_hdr_len; Ret (replicate vnet_hdr_len 0 ++ rest).

(** ** The tap *)

Definition IFACE_NAME_MAX_LEN : nat := 16.

(** [tap_sent] and [tap_received]: the frames that were written to the tap, and those that were
    read from it. *)
Record Tap := mkTap { tap_fd : Z; if_name : list Z; tap_sent : list (list Z); tap_received : list (list Z) }.

Definition build_terminated_if_name (name : list Z) : result (list Z) TapError :=
  if (IFACE_NAME_MAX_LEN <=? length name)%nat then Err TapInvalidIfname
  else Ok (name ++ replicate (IFACE_NAME_MAX_LEN - length name) 0).

(** What the host answers: the descriptor, the name the kernel gave to the interface, and the
    results of setting the offload flags and the size of the header. *)
Record TapHost := mkTapHost {
  th_open : result Z Z;
  th_setiff : list Z -> result (list Z) Z;
  th_offload : result unit Z;
  th_hdr_size : result unit Z
}.

Definition open_named (name : list Z) (h : TapHost) : result Tap TapError :=
  match build_terminated_if_name name with
  | Err e => Err e
  | Ok terminated =>
      match th_open h with
      | Err errno => Err (TapOpenTun errno)
      | Ok fd => match th_setiff h terminated with Err errno => Err (TapIoctlError errno) | Ok given => Ok (mkTap fd given [] []) end
      end
  end.

(** The name up to the first zero. *)
Fixpoint until_zero (l : list Z) : list Z :=
  match l with [] => [] | b :: l => if b =? 0 then [] else b :: until_zero l end.
Definition if_name_as_str (t : Tap) : list Z := until_zero (if_name t).

(** ** The network stack of the metadata service *)

(** [W]: what the world decides while the stack runs. *)
Class FrameService (W NS : Type) := {
  NsState : Type;
  (** [new_with_defaults], [set_ipv4_addr]. *)
  ns_new : option Z -> exec NS;
  ns_set_ipv4_addr : NS -> Z -> NS;
  (** [detour_frame]: whether the stack takes the frame. *)
  ns_detour_frame : W -> NS -> list Z -> outcome (bool * NS);
  (** [write_next_frame] into a buffer: the length of the frame, if there is one. *)
  ns_write_next_frame : W -> NS -> list Z -> exec (option Z * NS * list Z);
  ns_save : NS -> exec NsState;
  ns_restore : NsState -> exec NS
}.

Record Net (NS : Type) := mkNet {
  n_id : list Z;
  tap : Tap;
  n_avail_features : Z;
  n_acked_features : Z;
  n_queues : list Queue;
  n_queue_evts : list Z;
  rx_rate_limiter : RateLimiter;
  tx_rate_limiter : RateLimiter;
  rx_deferred_frame : bool;
  rx_bytes_read : nat;
  rx_frame_buf : list Z;
  n_irq_status : Z;
  n_config_mac : list Z;
  n_guest_mac : option MacAddr;
  n_activated : bool;
  n_activate_evt : Z;
  mmds_ns : option NS
}.
Arguments mkNet {NS}. Arguments n_id {NS}. Arguments tap {NS}. Arguments n_avail_features {NS}. Arguments n_acked_features {NS}.
Arguments n_queues {NS}. Arguments n_queue_evts {NS}. Arguments rx_rate_limiter {NS}. Arguments tx_rate_limiter {NS}.
Arguments rx_deferred_frame {NS}. Arguments rx_bytes_read {NS}. Arguments rx_frame_buf {NS}. Arguments n_irq_status {NS}.
Arguments n_config_mac {NS}. Arguments n_guest_mac {NS}. Arguments n_activated {NS}. Arguments n_activate_evt {NS}. Arguments mmds_ns {NS}.

(** The descriptors of the events; [None] if one could not be made. *)
Record NetEvents := mkNetEvents { ne_queues : option (Z * Z); ne_irq : bool; ne_activate : option Z }.

Definition new_with_tap {NS} (id tap_if_name : list Z) (guest_mac : option MacAddr) (rx tx : RateLimiter) (h : TapHost) (ev : NetEvents)
    : result (Net NS) NetError :=
  match open_named tap_if_name h with
  | Err e => Err (TapOpen e)
  | Ok t =>
      match th_offload h with
      | Err errno => Err (TapSetOffload (TapIoctlError errno))
      | Ok _ =>
          match th_hdr_size h with
          | Err errno => Err (TapSetVnetHdrSize (TapIoctlError errno))
          | Ok _ =>
              let features := foldr (fun bit acc => Z.lor (Z.shiftl 1 bit) acc) 0
                [VIRTIO_NET_F_GUEST_CSUM; VIRTIO_NET_F_CSUM; VIRTIO_NET_F_GUEST_TSO4; VIRTIO_NET_F_GUEST_UFO; VIRTIO_NET_F_HOST_TSO4;
                 VIRTIO_NET_F_HOST_UFO; VIRTIO_F_VERSION_1; VIRTIO_RING_F_EVENT_IDX] in
              let '(config, features) :=
                match guest_mac with
                | Some mac => (mac, Z.lor features (Z.shiftl 1 VIRTIO_NET_F_MAC))
                | None => (replicate 6 0, features)
                end in
              match ne_queues ev with
              | None => Err NetEventFd
              | Some (e0, e1) =>
                  if negb (ne_irq ev) then Err NetEventFd
                  else match ne_activate ev with
                  | None => Err NetEventFd
                  | Some ae =>
                      Ok (mkNet id t features 0 (replicate NET_NUM_QUEUES (Queue_new NET_QUEUE_SIZE)) [e0; e1] rx tx false 0
                            (replicate MAX_BUFFER_SIZE 0) 0 config guest_mac false ae None)
                  end
              end
          end
      end
  end.

(** ** Changes of a device *)

Section Setters.
Context {NS : Type}.
Implicit Types n : Net NS.

(** What the reception of frames changes. *)
Definition with_rx n (q : Queue) (rl : RateLimiter) (deferred : bool) (count : nat) (buf : list Z) (t : Tap) (ns : option NS) : Net NS :=
  mkNet (n_id n) t (n_avail_features n) (n_acked_features n) (<[RX_INDEX := q]> (n_queues n)) (n_queue_evts n) rl (tx_rate_limiter n)
    deferred count buf (n_irq_status n) (n_config_mac n) (n_guest_mac n) (n_activated n) (n_activate_evt n) ns.
(** What sending changes. *)
Definition with_tx n (q : Queue) (rl : RateLimiter) (t : Tap) (ns : option NS) : Net NS :=
  mkNet (n_id n) t (n_avail_features n) (n_acked_features n) (<[TX_INDEX := q]> (n_queues n)) (n_queue_evts n) (rx_rate_limiter n) rl
    (rx_deferred_frame n) (rx_bytes_read n) (rx_frame_buf n) (n_irq_status n) (n_config_mac n) (n_guest_mac n) (n_activated n) (n_activate_evt n) ns.
Definition with_net_queues n (l : list Queue) (irq : Z) : Net NS :=
  mkNet (n_id n) (tap n) (n_avail_features n) (n_acked_features n) l (n_queue_evts n) (rx_rate_limiter n) (tx_rate_limiter n)
    (rx_deferred_frame n) (rx_bytes_read n) (rx_frame_buf n) irq (n_config_mac n) (n_guest_mac n) (n_activated n) (n_activate_evt n) (mmds_ns n).
Definition with_limiters n (rx tx : RateLimiter) : Net NS :=
  mkNet (n_id n) (tap n) (n_avail_features n) (n_acked_features n) (n_queues n) (n_queue_evts n) rx tx
    (rx_deferred_frame n) (rx_bytes_read n) (rx_frame_buf n) (n_irq_status n) (n_config_mac n) (n_guest_mac n) (n_activated n) (n_activate_evt n) (mmds_ns n).
Definition with_ns n (ns : option NS) : Net NS :=
  mkNet (n_id n) (tap n) (n_avail_features n) (n_acked_features n) (n_queues n) (n_queue_evts n) (rx_rate_limiter n) (tx_rate_limiter n)
    (rx_deferred_frame n) (rx_bytes_read n) (rx_frame_buf n) (n_irq_status n) (n_config_mac n) (n_guest_mac n) (n_activated n) (n_activate_evt n) ns.
Definition with_mac n (config : list Z) (mac : option MacAddr) : Net NS :=
  mkNet (n_id n) (tap n) (n_avail_features n) (n_acked_features n) (n_queues n) (n_queue_evts n) (rx_rate_limiter n) (tx_rate_limiter n)
    (rx_deferred_frame n) (rx_bytes_read n) (rx_frame_buf n) (n_irq_status n) config mac (n_activated n) (n_activate_evt n) (mmds_ns n).
Definition with_features n (avail acked : Z) (activated : bool) : Net NS :=
  mkNet (n_id n) (tap n) avail acked (n_queues n) (n_queue_evts n) (rx_rate_limiter n) (tx_rate_limiter n)
    (rx_deferred_frame n) (rx_bytes_read n) (rx_frame_buf n) (n_irq_status n) (n_config_mac n) (n_guest_mac n) activated (n_activate_evt n) (mmds_ns n).
End Setters.

(** What the world decides while a frame is received, and while a chain is sent. *)
Record RxWorld (M W : Type) := mkRxWorld { rw_ns : W; rw_tap : result (list Z) Z; rw_clk_ops : Clock; rw_clk_bytes : Clock; rw_drive : nat -> M -> M }.
Record TxWorld (M W : Type) := mkTxWorld { tw_ns : W; tw_clk_ops : Clock; tw_clk_bytes : Clock; tw_drive : M -> M }.
Arguments mkRxWorld {M W}. Arguments rw_ns {M W}. Arguments rw_tap {M W}. Arguments rw_clk_ops {M W}. Arguments rw_clk_bytes {M W}. Arguments rw_drive {M W}.
Arguments mkTxWorld {M W}. Arguments tw_ns {M W}. Arguments tw_clk_ops {M W}. Arguments tw_clk_bytes {M W}. Arguments tw_drive {M W}.

Section Device.
Context {W NS M : Type} `{GuestMemory M} `{!FrameService W NS} `{Profile}.
Implicit Types (n : Net NS) (m : M) (q : Queue).

Abbreviation DevErr := (NetDeviceError GuestMemoryError).

(** ** Receiving *)

(** No chain has more descriptors than this. *)
Definition chain_fuel (head : DescriptorChain) : nat := S (Z.to_nat (dc_ttl head)).

(** The loop over the descriptors of a chain; [fuel] bounds its length. *)
Fixpoint write_to_descriptor_chain (fuel : nat) m (chunk : list Z) (descriptor : DescriptorChain)
    : outcome (result unit (FrontendError GuestMemoryError) * M) :=
  match fuel with
  | O => Hang
  | S fuel =>
      if negb (is_write_only descriptor) then Done (Err FeReadOnlyDescriptor, m)
      else
        let len := Nat.min (length chunk) (Z.to_nat (dc_len descriptor)) in
        data ← lift (slice_to chunk len);
        let w := write_bytes m (dc_addr descriptor) data in
        match w.1 with
        | Err e => Done (Err (FeGuestMemory e), w.2)
        | Ok _ =>
            let m := w.2 in
            chunk ← lift (slice_rest chunk len);
            if bool_decide (chunk = []) then Done (Ok tt, m)
            else
              next ← lift (next_descriptor m descriptor);
              match next with
              | None => Done (Err FeDescriptorChainTooSmall, m)
              | Some d => write_to_descriptor_chain fuel m chunk d
              end
        end
  end.

(** The frame is [rx_frame_buf[..rx_bytes_read]]. *)
Definition do_write_frame_to_guest (drive : M -> M) (buf : list Z) (count : nat) q m
    : outcome (result unit (FrontendError GuestMemoryError) * Queue * M) :=
  p ← lift (pop_or_enable_notification drive q m);
  match p with
  | (None, q, m) => Done (Err FeEmptyQueue, q, m)
  | (Some head, q, m) =>
      frame ← lift (slice_to buf count);
      r ← write_to_descriptor_chain (chain_fuel head) m frame head;
      let '(result, m) := r in
      let used_len := match result with Err _ => 0 | Ok _ => wrap 32 (Z.of_nat count) end in
      a ← lift (add_used q m (dc_index head) used_len);
      let '(added, q, m) := a in
      Done (match added with Err _ => Err FeAddUsed | Ok _ => result end, q, m)
  end.

(** [for _ in 0..max_iterations] *)
Fixpoint write_frame_loop (max_iterations : nat) (drive : nat -> M -> M) (buf : list Z) (count : nat) q m : outcome (bool * Queue * M) :=
  match max_iterations with
  | O => Done (false, q, m)
  | S max_iterations =>
      r ← do_write_frame_to_guest (drive O) buf count q m;
      match r with
      | (Ok _, q, m) => Done (true, q, m)
      | (Err FeEmptyQueue, q, m) | (Err FeAddUsed, q, m) => Done (false, q, m)
      | (Err _, q, m) => write_frame_loop max_iterations (fun i => drive (S i)) buf count q m
      end
  end.

Definition write_frame_to_guest (drive : nat -> M -> M) (buf : list Z) (count : nat) q m : outcome (bool * Queue * M) :=
  write_frame_loop (Z.to_nat (actual_size q)) drive buf count q m.

Definition rate_limited_rx_single_frame (w : RxWorld M W) (buf : list Z) (count : nat) (rl : RateLimiter) q m
    : outcome (bool * RateLimiter * Queue * M) :=
  c ← lift (consume rl 1 Ops (rw_clk_ops w));
  if negb c.1 then Done (false, c.2, q, m)
  else
    b ← lift (consume c.2 (Z.of_nat count) Bytes (rw_clk_bytes w));
    if negb b.1 then rl ← lift (manual_replenish b.2 1 Ops); Done (false, rl, q, m)
    else
      r ← write_frame_to_guest (rw_drive w) buf count q m;
      let '(success, q, m) := r in
      if success : bool then Done (true, b.2, q, m)
      else
        rl ← lift (manual_replenish b.2 1 Ops);
        rl ← lift (manual_replenish rl (Z.of_nat count) Bytes);
        Done (false, rl, q, m).

(** The kernel fills the front of the buffer with the next frame, or answers with an error. *)
Definition read_tap (w : RxWorld M W) (t : Tap) (buf : list Z) : result nat NetError * Tap * list Z :=
  match rw_tap w with
  | Ok frame => (Ok (length frame), mkTap (tap_fd t) (if_name t) (tap_sent t) (tap_received t ++ [frame]), frame ++ drop (length frame) buf)
  | Err errno => (Err (NetIO errno), t, buf)
  end.

(** The number of bytes in the buffer, and the stack, the tap and the buffer afterwards. *)
Definition read_from_mmds_or_tap (w : RxWorld M W) (ns : option NS) (t : Tap) (buf : list Z) : exec (result nat NetError * option NS * Tap * list Z) :=
  let from_tap ns buf := let '(r, t, buf) := read_tap w t buf in (r, ns, t, buf) in
  match ns with
  | None => Ret (from_tap None buf)
  | Some s =>
      match frame_bytes_from_buf buf with
      | Err e => Ret (Err e, ns, t, buf)
      | Ok body =>
          r ← ns_write_next_frame (rw_ns w) s body;
          let '(written, s, body) := r in
          let buf := take vnet_hdr_len buf ++ body in
          match written with
          | Some len => buf ← init_vnet_hdr buf; Ret (Ok (vnet_hdr_len + Z.to_nat len)%nat, Some s, t, buf)
          | None => Ret (from_tap (Some s) buf)
          end
      end
  end.

(** What the loop of [process_rx] changes. *)
Record Receiving := mkReceiving {
  r_queue : Queue;
  r_limiter : RateLimiter;
  r_deferred : bool;
  r_count : nat;
  r_buf : list Z;
  r_tap : Tap;
  r_ns : option NS
}.

Fixpoint process_rx_loop (fuel : nat) (ws : nat -> RxWorld M W) (s : Receiving) m : outcome (result unit DevErr * Receiving * M) :=
  match fuel with
  | O => Hang
  | S fuel =>
      r ← lift (read_from_mmds_or_tap (ws O) (r_ns s) (r_tap s) (r_buf s));
      let '(read, ns, t, buf) := r in
      match read with
      | Ok count =>
          d ← rate_limited_rx_single_frame (ws O) buf count (r_limiter s) (r_queue s) m;
          let '(delivered, rl, q, m) := d in
          if negb delivered then Done (Ok tt, mkReceiving q rl true count buf t ns, m)
          else process_rx_loop fuel (fun i => ws (S i)) (mkReceiving q rl (r_deferred s) count buf t ns) m
      | Err (NetIO errno) =>
          Done (if errno =? EAGAIN then Ok tt else Err FailedReadTap, mkReceiving (r_queue s) (r_limiter s) (r_deferred s) (r_count s) buf t ns, m)
      | Err _ => process_rx_loop fuel (fun i => ws (S i)) (mkReceiving (r_queue s) (r_limiter s) (r_deferred s) (r_count s) buf t ns) m
      end
  end.

Definition net_queue n (i : nat) : exec Queue := unwrap (n_queues n !! i).

(** [irq_ok]: the event of the interrupt could be written. *)
Definition signal_used_queue (irq_ok : bool) (i : nat) n m : exec (result unit DevErr * Net NS) :=
  m ← (if n_activated n then Ret m else Panic);
  q ← net_queue n i;
  k ← prepare_kick q m;
  let n := with_net_queues n (<[i := k.2]> (n_queues n)) (n_irq_status n) in
  if (k.1 : bool) then Ret (if irq_ok then Ok tt else Err NetSignalingIrq, with_net_queues n (n_queues n) (trigger_irq (n_irq_status n) Vring))
  else Ret (Ok tt, n).

Definition with_receiving n (s : Receiving) : Net NS :=
  with_rx n (r_queue s) (r_limiter s) (r_deferred s) (r_count s) (r_buf s) (r_tap s) (r_ns s).

(** The memory of a device that is active.  The code asks for it where it first needs it; the
    handlers below run on active devices only. *)
Definition active_mem n m : exec M := if n_activated n then Ret m else Panic.

Definition process_rx (fuel : nat) (ws : nat -> RxWorld M W) (irq_ok : bool) n m : outcome (result unit DevErr * Net NS * M) :=
  m ← lift (active_mem n m);
  q ← lift (net_queue n RX_INDEX);
  r ← process_rx_loop fuel ws (mkReceiving q (rx_rate_limiter n) (rx_deferred_frame n) (rx_bytes_read n) (rx_frame_buf n) (tap n) (mmds_ns n)) m;
  let '(res, s, m) := r in
  let n := with_receiving n s in
  match res with
  | Err e => Done (Err e, n, m)
  | Ok _ => r ← lift (signal_used_queue irq_ok RX_INDEX n m); Done (r.1, r.2, m)
  end.

(** [w] is the world of the deferred frame, [ws] those of the frames after it. *)
Definition handle_deferred_frame (fuel : nat) (w : RxWorld M W) (ws : nat -> RxWorld M W) (irq_ok : bool) n m : outcome (result unit DevErr * Net NS * M) :=
  m ← lift (active_mem n m);
  q ← lift (net_queue n RX_INDEX);
  d ← rate_limited_rx_single_frame w (rx_frame_buf n) (rx_bytes_read n) (rx_rate_limiter n) q m;
  let '(delivered, rl, q, m) := d in
  let n := with_rx n q rl (if delivered : bool then false else rx_deferred_frame n) (rx_bytes_read n) (rx_frame_buf n) (tap n) (mmds_ns n) in
  if delivered : bool then process_rx fuel ws irq_ok n m
  else r ← lift (signal_used_queue irq_ok RX_INDEX n m); Done (r.1, r.2, m).

Definition resume_rx (fuel : nat) (w : RxWorld M W) (ws : nat -> RxWorld M W) (irq_ok : bool) n m : outcome (result unit DevErr * Net NS * M) :=
  if rx_deferred_frame n then handle_deferred_frame fuel w ws irq_ok n m else Done (Ok tt, n, m).

(** ** Sending *)

(** The loop over the descriptors of a chain: the buffers and their length together. *)
Fixpoint collect (fuel : nat) m (iovec : list (Z * Z)) (read_count : Z) (desc : DescriptorChain) : outcome (list (Z * Z) * Z) :=
  match fuel with
  | O => Hang
  | S fuel =>
      if is_write_only desc then Done ([], read_count)
      else
        let iovec := iovec ++ [(dc_addr desc, dc_len desc)] in
        read_count ← lift (uadd 64 read_count (dc_len desc));
        next ← lift (next_descriptor m desc);
        match next with
        | None => Done (iovec, read_count)
        | Some d => collect fuel m iovec read_count d
        end
  end.

(** The bytes of the buffers, as many as [tx_frame_buf] holds; none if a buffer cannot be read.
    [frame] is [tx_frame_buf[..read_count]], and each buffer is read into
    [tx_frame_buf[read_count..limit]]. *)
Fixpoint read_frame m (iovec : list (Z * Z)) (frame : list Z) : exec (list Z) :=
  match iovec with
  | [] => Ret frame
  | (desc_addr, desc_len) :: iovec =>
      let read_count := Z.of_nat (length frame) in
      sum ← uadd 64 read_count desc_len;
      let limit := Z.min sum (Z.of_nat MAX_BUFFER_SIZE) in
      _ ← rust_assert ((read_count <=? limit) && (limit <=? Z.of_nat MAX_BUFFER_SIZE));
      match read_bytes m desc_addr (Z.to_nat (limit - read_count)) with
      | Some bytes => read_frame m iovec (frame ++ bytes)
      | None => Ret []
      end
  end.

Definition tap_write (t : Tap) (frame : list Z) : Tap := mkTap (tap_fd t) (if_name t) (tap_sent t ++ [frame]) (tap_received t).

(** Whether the metadata service took the frame.  An error of the tap is only reported. *)
Definition write_to_mmds_or_tap (w : W) (ns : option NS) (rl : RateLimiter) (frame : list Z) (t : Tap) (guest_mac : option MacAddr)
    : outcome (result bool NetError * option NS * RateLimiter * Tap) :=
  let to_tap ns :=
    match guest_mac, frame_bytes_from_buf frame with
    | Some _, Err e => (Err e, ns, rl, t)
    | _, _ => (Ok false, ns, rl, tap_write t frame)
    end in
  match ns with
  | None => Done (to_tap None)
  | Some s =>
      match frame_bytes_from_buf frame with
      | Err e => Done (Err e, ns, rl, t)
      | Ok bytes =>
          d ← ns_detour_frame w s bytes;
          let '(taken, s) := d in
          if taken : bool then
            rl ← lift (manual_replenish rl (Z.of_nat (length frame)) Bytes);
            rl ← lift (manual_replenish rl 1 Ops);
            Done (Ok true, Some s, rl, t)
          else Done (to_tap (Some s))
      end
  end.

(** What the loop of [process_tx] changes. *)
Record Sending := mkSending {
  t_queue : Queue;
  t_limiter : RateLimiter;
  t_tap : Tap;
  t_ns : option NS;
  process_rx_for_mmds : bool
}.

(** [deferred]: whether a frame for the guest waits. *)
Fixpoint process_tx_loop (fuel : nat) (ws : nat -> TxWorld M W) (guest_mac : option MacAddr) (deferred : bool) (s : Sending) m
    : outcome (result unit DevErr * Sending * M) :=
  match fuel with
  | O => Hang
  | S fuel =>
      p ← lift (pop_or_enable_notification (tw_drive (ws O)) (t_queue s) m);
      match p with
      | (None, q, m) => Done (Ok tt, mkSending q (t_limiter s) (t_tap s) (t_ns s) (process_rx_for_mmds s), m)
      | (Some head, q, m) =>
          c ← lift (consume (t_limiter s) 1 Ops (tw_clk_ops (ws O)));
          if negb c.1 then Done (Ok tt, mkSending (undo_pop q) c.2 (t_tap s) (t_ns s) (process_rx_for_mmds s), m)
          else
            i ← collect (chain_fuel head) m [] 0 head;
            b ← lift (consume c.2 i.2 Bytes (tw_clk_bytes (ws O)));
            if negb b.1 then
              rl ← lift (manual_replenish b.2 1 Ops);
              Done (Ok tt, mkSending (undo_pop q) rl (t_tap s) (t_ns s) (process_rx_for_mmds s), m)
            else
              frame ← lift (read_frame m i.1 []);
              o ← write_to_mmds_or_tap (tw_ns (ws O)) (t_ns s) b.2 frame (t_tap s) guest_mac;
              let '(written, ns, rl, t) := o in
              let consumed := match written with Ok taken => taken | Err _ => false end in
              a ← lift (add_used q m (dc_index head) 0);
              let '(added, q, m) := a in
              let s := mkSending q rl t ns (if consumed && negb deferred then true else process_rx_for_mmds s) in
              match added with
              | Err e => Done (Err (NetQueueError e), s, m)
              | Ok _ => process_tx_loop fuel (fun i => ws (S i)) guest_mac deferred s m
              end
      end
  end.

(** [ws'] are the worlds of the frames that the metadata service answers with. *)
Definition process_tx (fuel : nat) (ws : nat -> TxWorld M W) (ws' : nat -> RxWorld M W) (irq_ok : bool) n m : outcome (result unit DevErr * Net NS * M) :=
  m ← lift (active_mem n m);
  q ← lift (net_queue n TX_INDEX);
  r ← process_tx_loop fuel ws (n_guest_mac n) (rx_deferred_frame n) (mkSending q (tx_rate_limiter n) (tap n) (mmds_ns n) false) m;
  let '(res, s, m) := r in
  let n := with_tx n (t_queue s) (t_limiter s) (t_tap s) (t_ns s) in
  match res with
  | Err e => Done (Err e, n, m)
  | Ok _ =>
      r ← lift (signal_used_queue irq_ok TX_INDEX n m);
      match r with
      | (Err e, n) => Done (Err e, n, m)
      | (Ok _, n) => if process_rx_for_mmds s then process_rx fuel ws' irq_ok n m else Done (Ok tt, n, m)
      end
  end.

(** ** Events *)

(** What an event is handled with. *)
Record NetInput := mkNetInput {
  ni_fuel : nat;
  ni_deferred : RxWorld M W;
  ni_rx : nat -> RxWorld M W;
  ni_tx : nat -> TxWorld M W;
  ni_read_ok : bool;
  ni_irq_ok : bool;
  ni_expirations : Z;
  ni_rx_limiter_fd : Z;
  ni_tx_limiter_fd : Z
}.

(** An error is only reported. *)
Definition reported (r : outcome (result unit DevErr * Net NS * M)) : outcome (Net NS * M) := x ← r; Done (x.1.2, x.2).

Definition process_rx_queue_event (i : NetInput) n m : outcome (Net NS * M) :=
  if negb (ni_read_ok i) then Done (n, m)
  else if is_blocked (rx_rate_limiter n) then Done (n, m)
  else reported (resume_rx (ni_fuel i) (ni_deferred i) (ni_rx i) (ni_irq_ok i) n m).

Definition process_tap_rx_event (i : NetInput) n m : outcome (Net NS * M) :=
  m ← lift (active_mem n m);
  q ← lift (net_queue n RX_INDEX);
  empty ← lift (is_empty q m);
  if empty && rx_deferred_frame n then Done (n, m)
  else if is_blocked (rx_rate_limiter n) then Done (n, m)
  else if rx_deferred_frame n then reported (handle_deferred_frame (ni_fuel i) (ni_deferred i) (ni_rx i) (ni_irq_ok i) n m)
  else reported (process_rx (ni_fuel i) (ni_rx i) (ni_irq_ok i) n m).

Definition process_tx_queue_event (i : NetInput) n m : outcome (Net NS * M) :=
  if negb (ni_read_ok i) then Done (n, m)
  else if negb (is_blocked (tx_rate_limiter n)) then reported (process_tx (ni_fuel i) (ni_tx i) (ni_rx i) (ni_irq_ok i) n m)
  else Done (n, m).

Definition process_rx_rate_limiter_event (i : NetInput) n m : outcome (Net NS * M) :=
  match RateLimiter_event_handler (rx_rate_limiter n) (ni_expirations i) with
  | (Ok _, rl) => reported (resume_rx (ni_fuel i) (ni_deferred i) (ni_rx i) (ni_irq_ok i) (with_limiters n rl (tx_rate_limiter n)) m)
  | (Err _, rl) => Done (with_limiters n rl (tx_rate_limiter n), m)
  end.

Definition process_tx_rate_limiter_event (i : NetInput) n m : outcome (Net NS * M) :=
  match RateLimiter_event_handler (tx_rate_limiter n) (ni_expirations i) with
  | (Ok _, rl) => reported (process_tx (ni_fuel i) (ni_tx i) (ni_rx i) (ni_irq_ok i) (with_limiters n (rx_rate_limiter n) rl) m)
  | (Err _, rl) => Done (with_limiters n (rx_rate_limiter n) rl, m)
  end.

(** [process_virtio_queues], for a device that was resumed; [i] is what the RX queue is resumed
    with, [i'] what the TX queue is served with. *)
Definition net_process_virtio_queues (i i' : NetInput) n m : outcome (Net NS * M) :=
  r ← reported (resume_rx (ni_fuel i) (ni_deferred i) (ni_rx i) (ni_irq_ok i) n m);
  reported (process_tx (ni_fuel i') (ni_tx i') (ni_rx i') (ni_irq_ok i') r.1 r.2).

Definition net_event_fd n (k : nat) : exec Z := unwrap (n_queue_evts n !! k).

(** [EDGE_TRIGGERED] of the tap's event is left out. *)
Definition net_runtime_events (i : NetInput) n : exec (list EventOp) :=
  e0 ← net_event_fd n RX_INDEX;
  e1 ← net_event_fd n TX_INDEX;
  Ret (map (fun fd => OpAdd fd (true, false)) [e0; e1; ni_rx_limiter_fd i; ni_tx_limiter_fd i; tap_fd (tap n)]).

Definition net_activate_event n : list EventOp := [OpAdd (n_activate_evt n) (true, false)].

Definition net_process_activate_event (i : NetInput) n : exec (list EventOp) :=
  l ← net_runtime_events i n;
  Ret (l ++ [OpRemove (n_activate_evt n)]).

Definition net_process_event (source : Z) (evset : bool * bool) (i : NetInput) n m : outcome (Net NS * M * list EventOp) :=
  if evset.2 then Done (n, m, [])
  else if n_activated n then
    rx ← lift (net_event_fd n RX_INDEX);
    tx ← lift (net_event_fd n TX_INDEX);
    let handled r := x ← r; Done (x, []) in
    if source =? rx then handled (process_rx_queue_event i n m)
    else if source =? tap_fd (tap n) then handled (process_tap_rx_event i n m)
    else if source =? tx then handled (process_tx_queue_event i n m)
    else if source =? ni_rx_limiter_fd i then handled (process_rx_rate_limiter_event i n m)
    else if source =? ni_tx_limiter_fd i then handled (process_tx_rate_limiter_event i n m)
    else if n_activate_evt n =? source then ops ← lift (net_process_activate_event i n); Done (n, m, ops)
    else Done (n, m, [])
  else Done (n, m, []).

Definition net_init (i : NetInput) n : exec (list EventOp) :=
  if n_activated n then net_runtime_events i n else Ret (net_activate_event n).

(** ** Configuration *)

Definition configure_mmds_network_stack n (ipv4_addr : Z) : exec (Net NS) :=
  match mmds_ns n with
  | Some s => Ret (with_ns n (Some (ns_set_ipv4_addr s ipv4_addr)))
  | None => s ← ns_new (Some ipv4_addr); Ret (with_ns n (Some s))
  end.

Definition disable_mmds_network_stack n : Net NS := with_ns n None.

Definition patch_rate_limiters n (rx_bytes rx_ops tx_bytes tx_ops : BucketUpdate) : Net NS :=
  with_limiters n (update_buckets (rx_rate_limiter n) rx_bytes rx_ops) (update_buckets (tx_rate_limiter n) tx_bytes tx_ops).

Definition iface_name n : list Z := if_name_as_str (tap n).

Definition net_read_config n (offset : Z) (data : list Z) : list Z := config_read (n_config_mac n) offset data.

Definition net_write_config n (offset : Z) (data : list Z) : exec (Net NS) :=
  c ← config_write (n_config_mac n) offset data;
  match c with
  | None => Ret n
  | Some config => mac ← MacAddr_from_bytes_unchecked (take 6 config); Ret (with_mac n config (Some mac))
  end.

Definition net_has_feature n (feature : Z) : bool := negb (Z.land (n_acked_features n) (Z.shiftl 1 feature) =? 0).

(** [evt_ok]: the activation's event descriptor could be written. *)
Definition net_activate (evt_ok : bool) n : result unit unit * Net NS :=
  let n := if net_has_feature n VIRTIO_RING_F_EVENT_IDX then with_net_queues n (map enable_notif_suppression (n_queues n)) (n_irq_status n) else n in
  if negb evt_ok then (Err tt, n) else (Ok tt, with_features n (n_avail_features n) (n_acked_features n) true).
End Device.
