(* ===== verification/NetRuns.v ===== *)
(** * Runs of the network device

    What the network device of [NetDevice] does with the chains of its queues and with frames.
    The loops are described by traces: which frames the metadata service and the tap have for
    the guest ([receives]), which are put into chains of the RX queue ([rx_trace]), which bytes
    the chains of the TX queue hold ([tx_trace]) and where each frame of the guest goes
    ([sends]). *)

From Stdlib Require Import ZArith Lia.
From stdpp Require Import functions prelude.
From S2P Require Import Prelude GuestMemory VirtioQueue QueueRuns Mmio RateLimiter VirtioPersist NetBytes NetDevice.

(** What the device relies on of the network stack: it keeps an invariant as time passes, takes
    any frame, and writes frames that fit. *)
Class FrameServiceLaws (W NS : Type) `{FrameService W NS} := {
  ns_inv : Z -> NS -> Prop;
  ns_time : W -> Z;
  (** The world starts no earlier than this. *)
  ns_ready : Z -> W -> Prop;
  ns_ready_time T w : ns_ready T w -> T <= ns_time w;
  ns_inv_later T U s : T <= U -> ns_inv T s -> ns_inv U s;
  ns_detour_law T w s frame : ns_inv T s -> ns_ready T w -> bytes_ok frame ->
    ns_detour_frame w s frame = Hang \/ exists b s', ns_detour_frame w s frame = Done (b, s') /\ ns_inv (ns_time w) s';
  ns_write_law T w s buf : ns_inv T s -> ns_ready T w -> bytes_ok buf -> length buf = (MAX_BUFFER_SIZE - vnet_hdr_len)%nat ->
    exists r s' buf', ns_write_next_frame w s buf = Ret (r, s', buf') /\ ns_inv (ns_time w) s' /\ length buf' = length buf /\ bytes_ok buf' /\
      forall len, r = Some len -> 0 <= len <= Z.of_nat (length buf)
}.

(** Where a frame of the guest goes. *)
Inductive Destination := ToTap | ToMmds | NoHeader.

(** Where a frame for the guest comes from. *)
Inductive Source := FromTap | FromMmds.

(** The frames of the tap. *)
Definition from_tap (rd : list (list Z * Source)) : list (list Z) := omap (fun p => match p.2 with FromTap => Some p.1 | FromMmds => None end) rd.

Lemma from_tap_app rd rd' : from_tap (rd ++ rd') = from_tap rd ++ from_tap rd'.
Proof. apply omap_app. Qed.

(** The frames for the tap. *)
Definition to_tap (l : list (list Z * Destination)) : list (list Z) := omap (fun p => match p.2 with ToTap => Some p.1 | _ => None end) l.

Lemma to_tap_app l l' : to_tap (l ++ l') = to_tap l ++ to_tap l'.
Proof. apply omap_app. Qed.

(** A queue whose next chain was taken, a tap that was given frames, and one they were read from. *)
Abbreviation popped q := (with_next_avail q (wadd 16 (next_avail q) 1)).
Abbreviation sent_on t l := (mkTap (tap_fd t) (if_name t) (tap_sent t ++ to_tap l) (tap_received t)).
Abbreviation received_on t rd := (mkTap (tap_fd t) (if_name t) (tap_sent t) (tap_received t ++ from_tap rd)).

(** The first [k] worlds. *)
Fixpoint upto {X : Type} (k : nat) (ws : nat -> X) : list X :=
  match k with O => [] | S k => ws O :: upto k (fun i => ws (S i)) end.

Lemma slice_to_ok l k : (k <= length l)%nat -> slice_to l k = Ret (take k l).
Proof. intros Hk. unfold slice_to. by rewrite (proj2 (Nat.leb_le _ _)). Qed.

Lemma slice_rest_ok l k : (k <= length l)%nat -> slice_rest l k = Ret (drop k l).
Proof. intros Hk. unfold slice_rest. by rewrite (proj2 (Nat.leb_le _ _)). Qed.

Section Runs.
Context {W NS M : Type} `{GuestMemory M} `{FrameServiceLaws W NS} `{Profile}.
Implicit Types (n : Net NS) (m : M) (q : Queue).

(** ** Chains of the RX queue *)

(** The frame is spread over the descriptors of a chain. *)
Inductive scatter : list Z -> DescriptorChain -> M -> M -> Prop :=
| sc_last chunk d m m1 : is_write_only d = true -> Z.of_nat (length chunk) <= dc_len d -> write_bytes m (dc_addr d) chunk = (Ok tt, m1) -> scatter chunk d m m1
| sc_more chunk d d' m m1 m2 : is_write_only d = true -> dc_len d < Z.of_nat (length chunk) ->
    write_bytes m (dc_addr d) (take (Z.to_nat (dc_len d)) chunk) = (Ok tt, m1) -> next_descriptor m1 d = Ret (Some d') ->
    scatter (drop (Z.to_nat (dc_len d)) chunk) d' m1 m2 -> scatter chunk d m m2.

(** What happens to the RX queue: chains are given back with a frame or, if they cannot hold it,
    empty; [dl] are the frames that were delivered. *)
Inductive rx_trace : Queue -> M -> list (list Z) -> Queue -> M -> Prop :=
| rx_rest q m : rx_trace q m [] q m
| rx_mem q m m1 dl q' m' : same_map m m1 -> rx_trace q m1 dl q' m' -> rx_trace q m dl q' m'
| rx_kick q m v dl q' m' : rx_trace (with_num_added q v) m dl q' m' -> rx_trace q m dl q' m'
| rx_fail q m head m1 q2 m2 dl q' m' : pending_chain q m (next_avail q) = Some head -> same_map m m1 ->
    add_used (popped q) m1 (dc_index head) 0 = Ret (Ok tt, q2, m2) -> used_entry q m2 (next_used q) = (Some (dc_index head), Some 0) ->
    rx_trace q2 m2 dl q' m' -> rx_trace q m dl q' m'
| rx_deliver q m head frame m1 q2 m2 dl q' m' : pending_chain q m (next_avail q) = Some head -> scatter frame head m m1 ->
    add_used (popped q) m1 (dc_index head) (Z.of_nat (length frame)) = Ret (Ok tt, q2, m2) ->
    used_entry q m2 (next_used q) = (Some (dc_index head), Some (Z.of_nat (length frame))) ->
    rx_trace q2 m2 dl q' m' -> rx_trace q m (frame :: dl) q' m'.

Lemma rx_trace_trans q m dl q1 m1 dl' q' m' : rx_trace q m dl q1 m1 -> rx_trace q1 m1 dl' q' m' -> rx_trace q m (dl ++ dl') q' m'.
Proof.
  induction 1; intros Ht; cbn; [done|by eapply rx_mem; eauto|by eapply rx_kick; eauto|by eapply rx_fail; eauto|by eapply rx_deliver; eauto].
Qed.

Lemma write_same_map m a l : bytes_ok l -> same_map m (write_bytes m a l).2.
Proof. intros Hl x. by apply write_mapped. Qed.

(** Writing a frame into a chain ends and leaves the mapping alone. *)
Lemma write_chain_ok fuel m chunk d : bytes_ok chunk -> in_range 16 (dc_ttl d) -> (Z.to_nat (dc_ttl d) < fuel)%nat -> 0 <= dc_len d ->
  exists r m', write_to_descriptor_chain fuel m chunk d = Done (r, m') /\ same_map m m' /\ (r = Ok tt -> scatter chunk d m m').
Proof.
  revert m chunk d. induction fuel as [|fuel IH]; intros m chunk d Hb Ht Hf Hl; [lia|]. cbn [write_to_descriptor_chain].
  destruct (is_write_only d) eqn:Ew; cbn [negb]; [|by do 2 eexists]. set (len := Nat.min _ _).
  rewrite slice_to_ok by lia. cbn [lift]. rewrite bind_Done.
  assert (Hbt : bytes_ok (take len chunk)) by by apply Forall_take.
  pose proof (write_same_map m (dc_addr d) _ Hbt) as Hm. destruct (write_bytes m (dc_addr d) (take len chunk)) as [[[]|e] m1] eqn:Ewr; cbn [fst snd] in *; [|by do 2 eexists].
  rewrite slice_rest_ok by lia. cbn [lift]. rewrite bind_Done. destruct (bool_decide_reflect (drop len chunk = [])) as [Ed|Ed].
  - do 2 eexists. split; [done|]. split; [done|]. intros _. assert (Hlen : (length chunk <= len)%nat) by (apply (f_equal length) in Ed; rewrite length_drop in Ed; cbn in Ed; lia).
    apply sc_last; [done|lia|]. rewrite take_ge in Ewr by done. done.
  - assert (Hlt : dc_len d < Z.of_nat (length chunk)).
    { destruct (Z.lt_ge_cases (dc_len d) (Z.of_nat (length chunk))); [done|]. exfalso. apply Ed, drop_ge. lia. }
    assert (Elen : len = Z.to_nat (dc_len d)) by lia.
    destruct (next_descriptor_step m1 d) as (o & Eo & Ho); [unfold in_range in Ht; lia|]. rewrite Eo. cbn [lift]. rewrite bind_Done. destruct o as [d'|]; [|by do 2 eexists].
    destruct (next_descriptor_ranges m1 d d' Eo Ht) as [[_ Hl'] Ht']. destruct (Ho d' eq_refl) as (? & Et & _).
    destruct (IH m1 (drop len chunk) d') as (r & m' & -> & Hm' & Hr); [by apply Forall_drop|done|rewrite Et; lia|unfold in_range in Hl'; lia|].
    do 2 eexists. split; [done|]. split; [by apply (same_map_trans m m1)|]. intros ->. apply (sc_more _ d d' m m1); try done; rewrite <-Elen; [done|by apply Hr].
Qed.

Definition drives_map (drive : nat -> M -> M) : Prop := forall i m, same_map m (drive i m).

(** One attempt to deliver a frame. *)
Lemma do_write_ok drive buf count q m : bytes_ok buf -> (count <= length buf)%nat -> Z.of_nat count < 2 ^ 32 -> (forall m, same_map m (drive m)) -> queue_ok q m ->
  exists r q' m', do_write_frame_to_guest drive buf count q m = Done (r, q', m') /\ queue_ok q' m' /\ same_map m m' /\ q_size q' = q_size q /\
    rx_trace q m (match r with Ok _ => [take count buf] | Err _ => [] end) q' m'.
Proof.
  intros Hb Hcl Hl Hd Hq. unfold do_write_frame_to_guest. destruct (take_spec drive q m Hq Hd) as (o & q1 & m1 & -> & Hm1 & Hq1 & Ho).
  cbn [lift]. rewrite bind_Done. destruct o as [head|].
  2: { subst q1. do 3 eexists. split; [done|]. split; [done|]. split; [done|]. split; [done|]. apply (rx_mem _ _ m1); [done|constructor]. }
  destruct Ho as (Hp & -> & _). destruct (pending_fields q m1 _ head Hp) as (_ & _ & Httl & Hi).
  pose proof (queue_ok_mem q m m1 Hq Hm1) as Hqm. destruct (pending_index q m1 _ head Hqm Hp) as [_ [_ Hlen]].
  rewrite (slice_to_ok buf count) by done. cbn [lift]. rewrite bind_Done. set (frame := take count buf). assert (Hfb : bytes_ok frame) by by apply Forall_take.
  assert (Hfl : length frame = count) by (subst frame; rewrite length_take; lia).
  destruct (write_chain_ok (chain_fuel head) m1 frame head Hfb) as (r & m2 & -> & Hm2 & Hr); [destruct Hq; unfold in_range; lia|unfold chain_fuel; lia|unfold in_range in Hlen; lia|].
  rewrite bind_Done. pose proof (queue_ok_mem _ m1 m2 Hq1 Hm2) as Hq2. pose proof (Hi : 0 <= dc_index head < q_size (popped q)) as Hi'.
  set (len := match r with Err _ => 0 | Ok _ => wrap 32 (Z.of_nat count) end).
  assert (Elen : len = match r with Err _ => 0 | Ok _ => Z.of_nat (length frame) end) by (subst len; rewrite Hfl; destruct r; [apply wrap_id; unfold in_range; lia|done]).
  assert (Hlr : in_range 32 len) by (rewrite Elen; unfold in_range; destruct r; lia).
  destruct (add_used_step _ m2 (dc_index head) len Hq2 Hi' Hlr) as (m3 & Ea & Hag & He & _). rewrite Ea. cbn [lift]. rewrite bind_Done.
  assert (Hm3 : same_map m2 m3) by by destruct Hag. do 3 eexists. split; [done|].
  split; [apply (queue_ok_mem _ m2); [|done]; destruct Hq2; split; try done; by apply wadd_range|].
  split; [by apply (same_map_trans m m1); [|apply (same_map_trans m1 m2)]|]. split; [done|]. apply (rx_mem _ _ m1); [done|].
  rewrite Elen in Ea, He. destruct r as [[]|e].
  - eapply (rx_deliver _ _ head frame m2); [done|by apply Hr|exact Ea|exact He|constructor].
  - eapply (rx_fail _ _ head m2); [done|done|exact Ea|exact He|constructor].
Qed.

(** ** Receiving *)

Lemma write_frame_loop_ok k drive buf count q m : bytes_ok buf -> (count <= length buf)%nat -> Z.of_nat count < 2 ^ 32 -> drives_map drive -> queue_ok q m ->
  exists d q' m', write_frame_loop k drive buf count q m = Done (d, q', m') /\ queue_ok q' m' /\ same_map m m' /\ q_size q' = q_size q /\
    rx_trace q m (if d : bool then [take count buf] else []) q' m'.
Proof.
  intros Hb Hcl Hl. revert drive q m. induction k as [|k IH]; intros drive q m Hd Hq; cbn [write_frame_loop].
  { do 3 eexists. split; [done|]. split; [done|]. split; [done|]. split; [done|constructor]. }
  destruct (do_write_ok (drive O) buf count q m Hb Hcl Hl (Hd O) Hq) as (r & q1 & m1 & -> & Hq1 & Hm1 & Hs1 & Ht1). rewrite bind_Done.
  assert (Hnext : exists d q' m', write_frame_loop k (fun i => drive (S i)) buf count q1 m1 = Done (d, q', m') /\ queue_ok q' m' /\ same_map m1 m' /\
    q_size q' = q_size q1 /\ rx_trace q1 m1 (if d : bool then [take count buf] else []) q' m').
  { apply IH; [by intros i; apply Hd|done]. }
  destruct Hnext as (d & q' & m' & E & Hq' & Hm' & Hs' & Ht'). pose proof (same_map_trans m m1 m' Hm1 Hm') as Hmm.
  destruct r as [[]|[| | |e|]]; try (by do 3 eexists; split; [done|]; split; [done|]; split; [done|]; split; [done|]);
    (exists d, q', m'; split; [done|]; split; [done|]; split; [done|]; split; [congruence|]; change (if d then [take count buf] else []) with ([] ++ (if d then [take count buf] else [])); by apply (rx_trace_trans _ _ _ q1 m1)).
Qed.

Hypothesis release : overflow_checks = false.

Lemma rate_limited_ok w buf count rl q m : bytes_ok buf -> (count <= length buf)%nat -> (count <= MAX_BUFFER_SIZE)%nat -> drives_map (rw_drive w) -> queue_ok q m -> limiter_wf rl ->
  exists d rl' q' m', rate_limited_rx_single_frame (w : RxWorld M W) buf count rl q m = Done (d, rl', q', m') /\ limiter_wf rl' /\ queue_ok q' m' /\ same_map m m' /\ q_size q' = q_size q /\
    rx_trace q m (if d : bool then [take count buf] else []) q' m'.
Proof.
  intros Hb Hcl Hl Hd Hq Hwf. unfold rate_limited_rx_single_frame. assert (Hlen : Z.of_nat count < 2 ^ 32) by (unfold MAX_BUFFER_SIZE in Hl; lia).
  assert (Hstay : forall rl', limiter_wf rl' -> exists d rl'' q' m', Done (false, rl', q, m) = Done (d, rl'', q', m') /\ limiter_wf rl'' /\ queue_ok q' m' /\ same_map m m' /\ q_size q' = q_size q /\
    rx_trace q m (if d : bool then [take count buf] else []) q' m').
  { intros rl' Hrl. do 4 eexists. split; [done|]. split; [done|]. split; [done|]. split; [done|]. split; [done|constructor]. }
  destruct (consume_returns rl 1 Ops (rw_clk_ops w) release Hwf) as (g1 & rl1 & -> & Hwf1); [unfold in_range; lia|]. cbn [lift]. rewrite bind_Done. cbn [fst snd].
  destruct (negb g1); [by apply Hstay|].
  destruct (consume_returns rl1 (Z.of_nat count) Bytes (rw_clk_bytes w) release Hwf1) as (g2 & rl2 & -> & Hwf2); [unfold in_range; lia|]. cbn [lift]. rewrite bind_Done. cbn [fst snd].
  destruct (manual_replenish_returns rl2 1 Ops release Hwf2) as (rl3 & E3 & Hwf3). rewrite E3.
  destruct (negb g2); [cbn [lift]; rewrite bind_Done; by apply Hstay|].
  destruct (write_frame_loop_ok (Z.to_nat (actual_size q)) (rw_drive w) buf count q m Hb Hcl Hlen Hd Hq) as (d & q' & m' & E & Hq' & Hm' & Hs' & Ht').
  unfold write_frame_to_guest. rewrite E, bind_Done. destruct d.
  - do 4 eexists. split; [done|]. by repeat (split; [done|]).
  - cbn [lift]. rewrite bind_Done. destruct (manual_replenish_returns rl3 (Z.of_nat count) Bytes release Hwf3) as (rl4 & -> & Hwf4). cbn [lift]. rewrite bind_Done.
    do 4 eexists. split; [done|]. by repeat (split; [done|]).
Qed.

(** What there is for the guest when the device asks: the metadata service comes first, then the
    tap. *)
Inductive offers (w : RxWorld M W) : option NS -> option (list Z * Source) -> option NS -> Prop :=
| of_mmds s buf len s' buf' : ns_write_next_frame (rw_ns w) s buf = Ret (Some len, s', buf') ->
    offers w (Some s) (Some (replicate vnet_hdr_len 0 ++ take (Z.to_nat len) buf', FromMmds)) (Some s')
| of_tap s buf s' buf' frame : ns_write_next_frame (rw_ns w) s buf = Ret (None, s', buf') -> rw_tap w = Ok frame -> offers w (Some s) (Some (frame, FromTap)) (Some s')
| of_tap_only frame : rw_tap w = Ok frame -> offers w None (Some (frame, FromTap)) None
| of_nothing s buf s' buf' errno : ns_write_next_frame (rw_ns w) s buf = Ret (None, s', buf') -> rw_tap w = Err errno -> offers w (Some s) None (Some s')
| of_nothing_only errno : rw_tap w = Err errno -> offers w None None None.

(** The device asks for frames until there is none or it stops; each answer belongs to one of the
    worlds. *)
Inductive receives : option NS -> list (RxWorld M W) -> list (list Z * Source) -> option NS -> Prop :=
| rc_rest ns : receives ns [] [] ns
| rc_end w ns ns' : offers w ns None ns' -> receives ns [w] [] ns'
| rc_frame w wl ns f ns1 rd ns' : offers w ns (Some f) ns1 -> receives ns1 wl rd ns' -> receives ns (w :: wl) (f :: rd) ns'.

(** Time passes from one world to the next; frames of the tap fit the buffer. *)
Definition rx_worlds (T : Z) (ws : nat -> RxWorld M W) (U : Z) : Prop :=
  (forall i, ns_ready (match i with O => T | S j => ns_time (rw_ns (ws j)) end) (rw_ns (ws i)) /\ ns_time (rw_ns (ws i)) <= U /\
     drives_map (rw_drive (ws i)) /\ forall frame, rw_tap (ws i) = Ok frame -> bytes_ok frame /\ (length frame <= MAX_BUFFER_SIZE)%nat).

Lemma rx_worlds_rest T ws U : rx_worlds T ws U -> rx_worlds (ns_time (rw_ns (ws O))) (fun i => ws (S i)) U.
Proof. intros Hw i. destruct (Hw (S i)) as (? & ? & ? & ?). split; [by destruct i|]. by split. Qed.

Definition ns_ok (T : Z) (ns : option NS) : Prop := forall s, ns = Some s -> ns_inv T s.

Lemma ns_ok_later T U ns : T <= U -> ns_ok T ns -> ns_ok U ns.
Proof. intros HT Hn s E. apply (ns_inv_later T); [done|by apply Hn]. Qed.

Definition buf_ok (buf : list Z) : Prop := length buf = MAX_BUFFER_SIZE /\ bytes_ok buf.

(** What [read_from_mmds_or_tap] returns. *)
Definition read_spec (w : RxWorld M W) (ns : option NS) (t : Tap) (r : result nat NetError) (ns' : option NS) (t' : Tap) (buf' : list Z) : Prop :=
  match r with
  | Ok count => (count <= MAX_BUFFER_SIZE)%nat /\ exists src, offers w ns (Some (take count buf', src)) ns' /\ t' = received_on t [(take count buf', src)]
  | Err (NetIO _) => offers w ns None ns' /\ t' = t
  | Err _ => False
  end.

Lemma read_tap_ok w ns ns1 t buf : (forall frame, rw_tap w = Ok frame -> bytes_ok frame /\ (length frame <= MAX_BUFFER_SIZE)%nat) -> buf_ok buf ->
  (forall frame, rw_tap w = Ok frame -> offers w ns (Some (frame, FromTap)) ns1) -> (forall errno, rw_tap w = Err errno -> offers w ns None ns1) ->
  let '(r, t', buf') := read_tap w t buf in buf_ok buf' /\ read_spec w ns t r ns1 t' buf'.
Proof.
  intros Htap [Hl Hb] Hf He. unfold read_tap. destruct (rw_tap w) as [frame|errno] eqn:Et; [|split; [by split|]; by split; [apply (He errno)|]].
  destruct (Htap frame eq_refl) as [Hfb Hfl]. split.
  - split; [rewrite length_app, length_drop; lia|]. apply Forall_app. split; [done|by apply Forall_drop].
  - split; [done|]. rewrite take_app_length. exists FromTap. split; [by apply Hf|done].
Qed.

Lemma read_ok T U w ws ns t buf : w = ws O -> rx_worlds T ws U -> ns_ok T ns -> buf_ok buf ->
  exists r ns' t' buf', read_from_mmds_or_tap w ns t buf = Ret (r, ns', t', buf') /\ ns_ok (ns_time (rw_ns w)) ns' /\ buf_ok buf' /\ read_spec w ns t r ns' t' buf'.
Proof.
  intros -> Hw Hn Hbuf. pose proof Hbuf as [Hl Hb]. destruct (Hw O) as (Hr & _ & _ & Htap). pose proof (ns_ready_time _ _ Hr) as HT. unfold read_from_mmds_or_tap.
  destruct ns as [s|].
  2: { pose proof (read_tap_ok (ws O) None None t buf Htap Hbuf) as Ht. destruct (read_tap (ws O) t buf) as [[r t'] buf'].
    destruct Ht as [Hb' Hs]; [intros; by apply of_tap_only|intros; by eapply of_nothing_only|]. by exists r, None, t', buf'. }
  unfold frame_bytes_from_buf. rewrite (proj2 (Nat.ltb_ge _ _)) by (rewrite Hl; unfold MAX_BUFFER_SIZE, vnet_hdr_len; lia).
  destruct (ns_write_law T (rw_ns (ws O)) s (drop vnet_hdr_len buf) (Hn s eq_refl) Hr) as (r & s' & body & E & Hs' & Hbl & Hbb & Hlen); [by apply Forall_drop|by rewrite length_drop, Hl|].
  rewrite E, bind_Ret. assert (Hth : length (take vnet_hdr_len buf) = vnet_hdr_len) by (rewrite length_take, Hl; unfold MAX_BUFFER_SIZE, vnet_hdr_len; lia).
  rewrite length_drop, Hl in Hbl. assert (Hbuf1 : buf_ok (take vnet_hdr_len buf ++ body)).
  { split; [rewrite length_app, Hth, Hbl; unfold MAX_BUFFER_SIZE, vnet_hdr_len; lia|]. apply Forall_app. split; [by apply Forall_take|done]. }
  destruct r as [len|].
  2: { pose proof (read_tap_ok (ws O) (Some s) (Some s') t _ Htap Hbuf1) as Ht. destruct (read_tap (ws O) t _) as [[r t'] buf'].
    destruct Ht as [Hb' Hs]; [intros; by eapply of_tap|intros; by eapply of_nothing|]. exists r, (Some s'), t', buf'. split; [done|]. split; [by intros ? [= <-]|done]. }
  specialize (Hlen len eq_refl). rewrite length_drop, Hl in Hlen. unfold init_vnet_hdr. rewrite slice_rest_ok by (rewrite length_app; lia).
  rewrite !bind_Ret, (drop_app_length' _ _ _ (eq_sym Hth)). do 4 eexists. split; [done|]. split; [by intros ? [= <-]|]. split.
  - split; [rewrite length_app, length_replicate, Hbl; unfold MAX_BUFFER_SIZE, vnet_hdr_len; lia|].
    apply Forall_app. split; [apply Forall_replicate; unfold byte_ok; lia|done].
  - split; [unfold MAX_BUFFER_SIZE, vnet_hdr_len in *; lia|]. exists FromMmds. rewrite take_app_ge by (rewrite length_replicate; lia). rewrite length_replicate.
    replace (vnet_hdr_len + Z.to_nat len - vnet_hdr_len)%nat with (Z.to_nat len) by lia. split; [by eapply of_mmds|]. cbn. rewrite app_nil_r. by destruct t.
Qed.

Record receiving_ok (T : Z) (s : Receiving) m : Prop := {
  ro_queue : queue_ok (r_queue s) m;
  ro_limiter : limiter_wf (r_limiter s);
  ro_buf : buf_ok (r_buf s);
  ro_count : (r_count s <= MAX_BUFFER_SIZE)%nat;
  ro_ns : ns_ok T (r_ns s)
}.

(** The frame that waits for space or for tokens. *)
Definition waiting_frame (deferred : bool) (count : nat) (buf : list Z) : list (list Z) := if deferred then [take count buf] else [].

Lemma received_none t : t = received_on t [].
Proof. cbn. rewrite app_nil_r. by destruct t. Qed.

Lemma received_trans t rd rd' : received_on (received_on t rd) rd' = received_on t (rd ++ rd').
Proof. cbn. by rewrite from_tap_app, app_assoc. Qed.

Lemma rx_loop_ok fuel T U ws s m : rx_worlds T ws U -> T <= U -> receiving_ok T s m -> r_deferred s = false ->
  process_rx_loop fuel ws s m <> Crash /\
  forall res s' m', process_rx_loop fuel ws s m = Done (res, s', m') -> receiving_ok U s' m' /\ same_map m m' /\ q_size (r_queue s') = q_size (r_queue s) /\
    exists k rd dl, receives (r_ns s) (upto k ws) rd (r_ns s') /\ r_tap s' = received_on (r_tap s) rd /\ rx_trace (r_queue s) m dl (r_queue s') m' /\
      map fst rd = dl ++ waiting_frame (r_deferred s') (r_count s') (r_buf s').
Proof.
  revert T ws s m. induction fuel as [|fuel IH]; intros T ws s m Hw HU Hs Hdef; cbn [process_rx_loop]; [done|]. pose proof Hs as [Hq Hwf Hbuf Hc Hn].
  destruct (read_ok T U _ ws (r_ns s) (r_tap s) (r_buf s) eq_refl Hw Hn Hbuf) as (r & ns & t & buf & -> & Hn1 & Hbuf1 & Hr). cbn [lift]. rewrite bind_Done.
  destruct (Hw O) as (Hready & HtU & Hdr & _). pose proof (ns_ready_time _ _ Hready) as HtT.
  assert (HnU : ns_ok U ns) by by apply (ns_ok_later (ns_time (rw_ns (ws O)))).
  destruct r as [count|[| | | | |errno|]]; try done.
  2: { destruct Hr as [Hoff ->]. split; [done|]. intros res s' m' [= <- <- <-]. split; [by split|]. split; [done|]. split; [done|]. exists 1%nat, [], []. split; [by apply rc_end|].
    split; [apply received_none|]. split; [constructor|]. cbn. by rewrite Hdef. }
  destruct Hr as (Hcount & src & Hoff & ->). pose proof Hbuf1 as [Hbl1 Hbb1].
  destruct (rate_limited_ok (ws O) buf count (r_limiter s) (r_queue s) m) as (d & rl & q & m1 & -> & Hwf1 & Hq1 & Hm1 & Hs1 & Ht1); [done|lia|done|done|done|done|].
  rewrite bind_Done. destruct d; cbn [negb].
  - destruct (IH (ns_time (rw_ns (ws O))) (fun i => ws (S i)) (mkReceiving q rl (r_deferred s) count buf (received_on (r_tap s) [(take count buf, src)]) ns) m1) as [Hnc Hok]; [by apply (rx_worlds_rest T)|done|by split|done|].
    split; [done|]. intros res s' m' E. destruct (Hok _ _ _ E) as (Hs' & Hm' & Hz & k & rd & dl & Hrd & Et & Hdl & Erd).
    split; [done|]. split; [by apply (same_map_trans m m1)|]. split; [cbn in Hz; congruence|]. exists (S k), ((take count buf, src) :: rd), (take count buf :: dl).
    split; [by apply (rc_frame _ _ _ _ ns)|]. split; [rewrite Et; apply (received_trans _ [_])|]. split; [by apply (rx_trace_trans _ _ [take count buf] q m1)|]. cbn. by rewrite Erd.
  - split; [done|]. intros res s' m' [= <- <- <-]. split; [by split|]. split; [done|]. split; [done|]. exists 1%nat, [(take count buf, src)], [].
    split; [eapply rc_frame; [done|constructor]|]. by split.
Qed.

(** ** Chains of the TX queue *)

(** What happens to the TX queue: the bytes of each chain are sent somewhere and the chain is
    given back. *)
Inductive tx_trace : Queue -> M -> list (list Z * Destination) -> Queue -> M -> Prop :=
| tx_rest q m : tx_trace q m [] q m
| tx_mem q m m1 l q' m' : same_map m m1 -> tx_trace q m1 l q' m' -> tx_trace q m l q' m'
| tx_kick q m v l q' m' : tx_trace (with_num_added q v) m l q' m' -> tx_trace q m l q' m'
| tx_send q m head iovec count frame dest q2 m2 l q' m' : pending_chain q m (next_avail q) = Some head ->
    collect (chain_fuel head) m [] 0 head = Done (iovec, count) -> read_frame m iovec [] = Ret frame -> (dest = NoHeader -> (length frame < vnet_hdr_len)%nat) ->
    add_used (popped q) m (dc_index head) 0 = Ret (Ok tt, q2, m2) -> used_entry q m2 (next_used q) = (Some (dc_index head), Some 0) ->
    tx_trace q2 m2 l q' m' -> tx_trace q m ((frame, dest) :: l) q' m'.

Lemma tx_trace_trans q m l q1 m1 l' q' m' : tx_trace q m l q1 m1 -> tx_trace q1 m1 l' q' m' -> tx_trace q m (l ++ l') q' m'.
Proof. induction 1; intros Ht; cbn; [done|by eapply tx_mem; eauto|by eapply tx_kick; eauto|by eapply tx_send; eauto]. Qed.

(** Where a frame of the guest goes: to the metadata service if that takes it, to the tap
    otherwise.  A frame without a whole header goes nowhere if the header matters: for the service,
    or for checking the guest's MAC address. *)
Inductive routes (mac : option MacAddr) (w : TxWorld M W) (frame : list Z) : option NS -> Destination -> option NS -> Prop :=
| rt_taken s s' : (vnet_hdr_len <= length frame)%nat -> ns_detour_frame (tw_ns w) s (drop vnet_hdr_len frame) = Done (true, s') -> routes mac w frame (Some s) ToMmds (Some s')
| rt_declined s s' : (vnet_hdr_len <= length frame)%nat -> ns_detour_frame (tw_ns w) s (drop vnet_hdr_len frame) = Done (false, s') -> routes mac w frame (Some s) ToTap (Some s')
| rt_tap : mac = None \/ (vnet_hdr_len <= length frame)%nat -> routes mac w frame None ToTap None
| rt_short ns : (length frame < vnet_hdr_len)%nat -> is_Some ns \/ is_Some mac -> routes mac w frame ns NoHeader ns.

Inductive sends (mac : option MacAddr) : option NS -> list (TxWorld M W) -> list (list Z * Destination) -> option NS -> Prop :=
| sd_rest ns : sends mac ns [] [] ns
| sd_frame w wl ns frame dest ns1 l ns' : routes mac w frame ns dest ns1 -> sends mac ns1 wl l ns' -> sends mac ns (w :: wl) ((frame, dest) :: l) ns'.

Lemma collect_ok fuel m iovec count d : chain_ranges d -> in_range 16 (dc_ttl d) -> (Z.to_nat (dc_ttl d) < fuel)%nat -> in_range 64 count -> Forall (fun v => in_range 32 v.2) iovec ->
  exists iovec' count', collect fuel m iovec count d = Done (iovec', count') /\ in_range 64 count' /\ Forall (fun v => in_range 32 v.2) iovec'.
Proof.
  revert iovec count d. induction fuel as [|fuel IH]; intros iovec count d [Ha Hl] Ht Hf Hc Hi; [lia|]. cbn [collect].
  destruct (is_write_only d); [by do 2 eexists|]. destruct (arith_release 64 (count + dc_len d) release) as [c Ec]. unfold uadd. rewrite Ec. cbn [lift]. rewrite bind_Done.
  assert (Hc' : in_range 64 c) by by apply arith_range in Ec.
  destruct (next_descriptor_step m d) as (o & Eo & Ho); [unfold in_range in Ht; lia|]. rewrite Eo. cbn [lift]. rewrite bind_Done.
  assert (Hi' : Forall (fun v => in_range 32 v.2) (iovec ++ [(dc_addr d, dc_len d)])).
  { apply Forall_app. split; [done|]. by apply Forall_singleton. }
  destruct o as [d'|]; [|by do 2 eexists]. destruct (next_descriptor_ranges m d d' Eo Ht) as [Hr' Ht']. destruct (Ho d' eq_refl) as (? & Et & _).
  apply IH; try done. rewrite Et. lia.
Qed.

Lemma read_frame_ok m iovec frame : Forall (fun v => in_range 32 v.2) iovec -> bytes_ok frame -> (length frame <= MAX_BUFFER_SIZE)%nat ->
  exists frame', read_frame m iovec frame = Ret frame' /\ bytes_ok frame' /\ (length frame' <= MAX_BUFFER_SIZE)%nat.
Proof.
  revert frame. induction iovec as [|[a l] iovec IH]; intros frame Hi Hb Hl; cbn [read_frame]; [by exists frame|]. apply Forall_cons in Hi as [Hl0 Hi]. unfold in_range in Hl0. cbn in Hl0.
  rewrite uadd_ok by (unfold in_range, MAX_BUFFER_SIZE in *; lia). rewrite bind_Ret. unfold rust_assert. rewrite (proj2 (Z.leb_le _ _)), (proj2 (Z.leb_le _ _)) by lia. cbn [andb]. rewrite bind_Ret.
  destruct (read_bytes m a _) as [bytes|] eqn:Er; [|exists []; split; [done|]; split; [constructor|cbn; lia]]. apply read_bytes_ok in Er as [Elen Hbb]. apply IH; [done|by apply Forall_app|].
  rewrite length_app, Elen. lia.
Qed.

(** Time passes from one world of the TX queue to the next. *)
Definition tx_worlds (T : Z) (ws : nat -> TxWorld M W) (U : Z) : Prop :=
  forall i, ns_ready (match i with O => T | S j => ns_time (tw_ns (ws j)) end) (tw_ns (ws i)) /\ ns_time (tw_ns (ws i)) <= U /\ forall m, same_map m (tw_drive (ws i) m).

Lemma tx_worlds_rest T ws U : tx_worlds T ws U -> tx_worlds (ns_time (tw_ns (ws O))) (fun i => ws (S i)) U.
Proof. intros Hw i. destruct (Hw (S i)) as (? & ? & ?). split; [by destruct i|]. by split. Qed.

Lemma frame_bytes_short frame er : frame_bytes_from_buf frame = Err er -> (length frame < vnet_hdr_len)%nat.
Proof. unfold frame_bytes_from_buf. by destruct (Nat.ltb_spec (length frame) vnet_hdr_len). Qed.

Lemma frame_bytes_whole frame b : frame_bytes_from_buf frame = Ok b -> (vnet_hdr_len <= length frame)%nat /\ b = drop vnet_hdr_len frame.
Proof. unfold frame_bytes_from_buf. destruct (Nat.ltb_spec (length frame) vnet_hdr_len); [done|]. by intros [= <-]. Qed.

Lemma routes_short mac w frame ns ns' : routes mac w frame ns NoHeader ns' -> (length frame < vnet_hdr_len)%nat.
Proof. by inversion 1. Qed.

Lemma sent_none t : t = sent_on t [].
Proof. cbn. rewrite app_nil_r. by destruct t. Qed.

(** A frame goes where it should. *)
Lemma write_out_ok T w ns rl frame t mac : ns_ready T (tw_ns w) -> ns_ok T ns -> bytes_ok frame -> limiter_wf rl ->
  write_to_mmds_or_tap (tw_ns w) ns rl frame t mac = Hang \/
  exists r ns' rl' dest, write_to_mmds_or_tap (tw_ns w) ns rl frame t mac = Done (r, ns', rl', sent_on t [(frame, dest)]) /\ ns_ok (ns_time (tw_ns w)) ns' /\ limiter_wf rl' /\
    routes mac w frame ns dest ns'.
Proof.
  intros Hr Hn Hb Hwf. unfold write_to_mmds_or_tap. pose proof (ns_ready_time _ _ Hr) as HT. pose proof (sent_none t) as Hstay. cbn in Hstay.
  destruct ns as [s|]; destruct (frame_bytes_from_buf frame) as [bytes|er] eqn:Ef.
  - destruct (frame_bytes_whole frame bytes Ef) as [Hl ->].
    destruct (ns_detour_law T (tw_ns w) s (drop vnet_hdr_len frame) (Hn s eq_refl) Hr) as [-> | (taken & s' & Ed & Hs')]; [by apply Forall_drop|by left|]. right. rewrite Ed, bind_Done.
    assert (Hn' : ns_ok (ns_time (tw_ns w)) (Some s')) by by intros ? [= <-]. destruct taken.
    + destruct (manual_replenish_returns rl (Z.of_nat (length frame)) Bytes release Hwf) as (rl1 & -> & Hwf1). cbn [lift]. rewrite bind_Done.
      destruct (manual_replenish_returns rl1 1 Ops release Hwf1) as (rl2 & -> & Hwf2). cbn [lift]. rewrite bind_Done.
      exists (Ok true), (Some s'), rl2, ToMmds. split; [cbn; congruence|]. split; [done|]. split; [done|]. by apply rt_taken.
    + exists (Ok false), (Some s'), rl, ToTap. split; [by destruct mac|]. split; [done|]. split; [done|]. by apply rt_declined.
  - right. exists (Err er), (Some s), rl, NoHeader. split; [cbn; congruence|]. split; [by apply (ns_ok_later T)|]. split; [done|]. apply rt_short; [by apply (frame_bytes_short _ er)|by left].
  - right. exists (Ok false), None, rl, ToTap. split; [by destruct mac|]. split; [done|]. split; [done|]. apply rt_tap. right. by apply (frame_bytes_whole frame bytes).
  - right. apply frame_bytes_short in Ef. destruct mac as [mac|].
    + exists (Err er), None, rl, NoHeader. split; [cbn; congruence|]. split; [done|]. split; [done|]. by apply rt_short; [|right].
    + exists (Ok false), None, rl, ToTap. split; [done|]. split; [done|]. split; [done|]. by apply rt_tap; left.
Qed.

Record sending_ok (T : Z) (s : Sending) m : Prop := {
  so_queue : queue_ok (t_queue s) m;
  so_limiter : limiter_wf (t_limiter s);
  so_ns : ns_ok T (t_ns s)
}.

(** The chain is given back. *)
Lemma send_back_ok q m head : queue_ok q m -> queue_ok (popped q) m -> pending_chain q m (next_avail q) = Some head ->
  exists q2 m2, add_used (popped q) m (dc_index head) 0 = Ret (Ok tt, q2, m2) /\ queue_ok q2 m2 /\ same_map m m2 /\ q_size q2 = q_size q /\
    used_entry q m2 (next_used q) = (Some (dc_index head), Some 0).
Proof.
  intros Hq Hq1 Hp. destruct (pending_fields q m _ head Hp) as (_ & _ & _ & Hi).
  destruct (add_used_step (popped q) m (dc_index head) 0 Hq1 Hi) as (m2 & Ea & Hag & He & _); [unfold in_range; lia|].
  assert (Hm : same_map m m2) by by destruct Hag. do 2 eexists. split; [exact Ea|]. split; [|by split; [|split]]. apply (queue_ok_mem _ m); [|done]. destruct Hq1; split; try done; by apply wadd_range.
Qed.

Lemma sent_trans t l l' : sent_on (sent_on t l) l' = sent_on t (l ++ l').
Proof. cbn. by rewrite to_tap_app, app_assoc. Qed.

Lemma tx_loop_ok fuel T U ws mac deferred s m : tx_worlds T ws U -> T <= U -> sending_ok T s m ->
  process_tx_loop fuel ws mac deferred s m <> Crash /\
  forall res s' m', process_tx_loop fuel ws mac deferred s m = Done (res, s', m') -> sending_ok U s' m' /\ same_map m m' /\ q_size (t_queue s') = q_size (t_queue s) /\
    exists k l, tx_trace (t_queue s) m l (t_queue s') m' /\ t_tap s' = sent_on (t_tap s) l /\ sends mac (t_ns s) (upto k ws) l (t_ns s').
Proof.
  revert T ws s m. induction fuel as [|fuel IH]; intros T ws s m Hw HU [Hq Hwf Hn]; cbn [process_tx_loop]; [done|].
  destruct (Hw O) as (Hready & HtU & Hdr). destruct (take_spec (tw_drive (ws O)) (t_queue s) m Hq Hdr) as (o & q1 & m1 & -> & Hm1 & Hq1 & Ho).
  cbn [lift]. rewrite bind_Done. pose proof (queue_ok_mem _ m m1 Hq Hm1) as Hqm. pose proof (ns_ok_later T U _ HU Hn) as HnU.
  assert (Hstop : forall rl b (res : result unit (NetDeviceError GuestMemoryError)) s' m', limiter_wf rl -> Done (Ok tt, mkSending (t_queue s) rl (t_tap s) (t_ns s) b, m1) = Done (res, s', m') ->
    sending_ok U s' m' /\ same_map m m' /\ q_size (t_queue s') = q_size (t_queue s) /\ exists k l, tx_trace (t_queue s) m l (t_queue s') m' /\ t_tap s' = sent_on (t_tap s) l /\ sends mac (t_ns s) (upto k ws) l (t_ns s')).
  { intros rl b res s' m' Hrl [= <- <- <-]. split; [by split|]. split; [done|]. split; [done|]. exists 0%nat, []. split; [apply (tx_mem _ _ m1); [done|constructor]|]. split; [apply sent_none|constructor]. }
  destruct o as [head|]; [|subst q1; split; [done|]; intros ? ? ?; by apply Hstop]. destruct Ho as (Hp & -> & Hundo).
  destruct (consume_returns (t_limiter s) 1 Ops (tw_clk_ops (ws O)) release Hwf) as (g1 & rl1 & -> & Hwf1); [unfold in_range; lia|]. cbn [lift]. rewrite bind_Done. cbn [fst snd].
  destruct (negb g1); [rewrite Hundo; split; [done|]; intros ? ? ?; by apply Hstop|].
  destruct (pending_fields _ m1 _ head Hp) as (_ & _ & Httl & _). destruct (pending_index _ m1 _ head Hqm Hp) as [_ Hcr].
  destruct (collect_ok (chain_fuel head) m1 [] 0 head Hcr) as (iov & count & Ec & Hc & Hiov); [destruct Hqm; unfold in_range; lia|unfold chain_fuel; lia|unfold in_range; lia|constructor|].
  rewrite Ec, bind_Done. cbn [fst snd].
  destruct (consume_returns rl1 count Bytes (tw_clk_bytes (ws O)) release Hwf1 Hc) as (g2 & rl2 & -> & Hwf2). cbn [lift]. rewrite bind_Done. cbn [fst snd].
  destruct (negb g2).
  { destruct (manual_replenish_returns rl2 1 Ops release Hwf2) as (rl3 & -> & Hwf3). cbn [lift]. rewrite bind_Done, Hundo. split; [done|]. intros ? ? ?. by apply Hstop. }
  destruct (read_frame_ok m1 iov [] Hiov) as (frame & Efr & Hfb & _); [constructor|cbn; lia|]. rewrite Efr. cbn [lift]. rewrite bind_Done.
  destruct (write_out_ok T (ws O) (t_ns s) rl2 frame (t_tap s) mac Hready Hn Hfb Hwf2) as [-> | (r & ns & rl & dest & -> & Hn' & Hrl & Hdest)]; [done|].
  rewrite bind_Done. destruct (send_back_ok (t_queue s) m1 head Hqm Hq1 Hp) as (q2 & m2 & Ea & Hq2 & Hm2 & Hs2 & He). rewrite Ea. cbn [lift]. rewrite bind_Done. cbv zeta.
  match goal with |- context [process_tx_loop fuel _ mac deferred ?s2 m2] => destruct (IH (ns_time (tw_ns (ws O))) (fun i => ws (S i)) s2 m2) as [Hnc Hok] end; [by apply (tx_worlds_rest T)|done|by split|].
  split; [done|]. intros res s' m' E. destruct (Hok _ _ _ E) as (Hs' & Hm' & Hz & k & l & Hl & Et & Hsd). cbn in Hz.
  split; [done|]. split; [apply (same_map_trans m m1); [done|by apply (same_map_trans m1 m2)]|]. split; [congruence|].
  exists (S k), ((frame, dest) :: l). split; [|split; [rewrite Et; apply (sent_trans (t_tap s) [_])|by eapply sd_frame]].
  apply (tx_mem _ _ m1); [done|]. eapply tx_send; try done. intros ->. by eapply routes_short.
Qed.
End Runs.
