(* ===== verification/NetService.v ===== *)
(** * Service of the network device

    What the events of the network device of [NetDevice] do, by the traces of [NetRuns].  No
    event panics without overflow checks ([net_safe]); over any run of events no frame is lost,
    repeated or overtaken, and each goes where it should ([net_frames]). *)

From Stdlib Require Import ZArith Lia.
From stdpp Require Import functions prelude.
From S2P Require Import Prelude GuestMemory VirtioQueue QueueRuns Mmio RateLimiter VirtioPersist NetBytes NetDevice NetRuns.

Section Service.
Context {W NS M : Type} `{GuestMemory M} `{FrameServiceLaws W NS} `{Profile}.
Context (release : overflow_checks = false).
Implicit Types (n : Net NS) (m : M) (q : Queue).

(** ** States of the device *)

(** The device at time [T]. *)
Record net_ok (T : Z) n m : Prop := {
  no_queues : length (n_queues n) = 2%nat;
  no_evts : length (n_queue_evts n) = 2%nat;
  no_active : n_activated n = true -> Forall (fun q => queue_ok q m) (n_queues n);
  no_rx_limiter : limiter_wf (rx_rate_limiter n);
  no_tx_limiter : limiter_wf (tx_rate_limiter n);
  no_buf : buf_ok (rx_frame_buf n);
  no_mac : length (n_config_mac n) = 6%nat;
  no_count : (rx_bytes_read n <= MAX_BUFFER_SIZE)%nat;
  no_ns : ns_ok T (mmds_ns n)
}.

Definition held n : list (list Z) := waiting_frame (rx_deferred_frame n) (rx_bytes_read n) (rx_frame_buf n).

(** What a device does between two states: [rd] are the frames it reads for the guest, [dl]
    those it delivers, [l] those the guest sends. *)
Record effect n m n' m' (rd : list (list Z * Source)) (dl : list (list Z)) (l : list (list Z * Destination)) : Prop := {
  ef_rx : exists q q', n_queues n !! RX_INDEX = Some q /\ n_queues n' !! RX_INDEX = Some q' /\ rx_trace q m dl q' m';
  ef_tx : exists q q', n_queues n !! TX_INDEX = Some q /\ n_queues n' !! TX_INDEX = Some q' /\ tx_trace q m l q' m';
  ef_frames : held n ++ map fst rd = dl ++ held n';
  ef_sent : tap_sent (tap n') = tap_sent (tap n) ++ to_tap l;
  ef_received : tap_received (tap n') = tap_received (tap n) ++ from_tap rd;
  ef_mac : n_guest_mac n' = n_guest_mac n;
  ef_active : n_activated n' = n_activated n
}.

(** [effect] without what stays the same: the configuration may change too. *)
Definition effects n m n' m' rd dl l : Prop :=
  (exists q q', n_queues n !! RX_INDEX = Some q /\ n_queues n' !! RX_INDEX = Some q' /\ rx_trace q m dl q' m') /\
  (exists q q', n_queues n !! TX_INDEX = Some q /\ n_queues n' !! TX_INDEX = Some q' /\ tx_trace q m l q' m') /\
  held n ++ map fst rd = dl ++ held n' /\ tap_sent (tap n') = tap_sent (tap n) ++ to_tap l /\ tap_received (tap n') = tap_received (tap n) ++ from_tap rd.

Lemma effects_trans n m rd dl l n1 m1 rd' dl' l' n' m' : effects n m n1 m1 rd dl l -> effects n1 m1 n' m' rd' dl' l' -> effects n m n' m' (rd ++ rd') (dl ++ dl') (l ++ l').
Proof.
  intros ((q & q1 & Eq & Eq1 & Hr) & (p & p1 & Ep & Ep1 & Ht) & Hf & Hs & Hv) ((q1' & q2 & Eq1' & Eq2 & Hr') & (p1' & p2 & Ep1' & Ep2 & Ht') & Hf' & Hs' & Hv').
  assert (q1' = q1) as -> by congruence. assert (p1' = p1) as -> by congruence. split; [|split; [|split; [|split]]].
  - exists q, q2. split; [done|]. split; [done|]. by apply (rx_trace_trans _ _ _ q1 m1).
  - exists p, p2. split; [done|]. split; [done|]. by apply (tx_trace_trans _ _ _ p1 m1).
  - by rewrite map_app, app_assoc, Hf, <-app_assoc, Hf', app_assoc.
  - by rewrite Hs', Hs, to_tap_app, app_assoc.
  - by rewrite Hv', Hv, from_tap_app, app_assoc.
Qed.

Lemma effect_effects n m n' m' rd dl l : effect n m n' m' rd dl l <-> effects n m n' m' rd dl l /\ n_guest_mac n' = n_guest_mac n /\ n_activated n' = n_activated n.
Proof. split; [by intros []|]. by intros ((? & ? & ? & ? & ?) & ? & ?). Qed.

Lemma effect_trans n m rd dl l n1 m1 rd' dl' l' n' m' : effect n m n1 m1 rd dl l -> effect n1 m1 n' m' rd' dl' l' -> effect n m n' m' (rd ++ rd') (dl ++ dl') (l ++ l').
Proof. rewrite !effect_effects. intros (He & ? & ?) (He' & ? & ?). split; [by eapply effects_trans|]. split; congruence. Qed.

Lemma two_queues T n m : net_ok T n m -> exists q p, n_queues n = [q; p].
Proof. intros [Hl]. destruct (n_queues n) as [|q [|p [|]]]; try discriminate. by eexists _, _. Qed.

(** Nothing happens to a device whose queues, held frame and tap stay. *)
Lemma effects_none T n m n' m' : net_ok T n m -> same_map m m' -> n_queues n' = n_queues n -> held n' = held n -> tap n' = tap n -> effects n m n' m' [] [] [].
Proof.
  intros Hn Hm Eq Eh Et. destruct (two_queues T n m Hn) as (q & p & E). unfold effects. rewrite Eq, E, Eh, Et. cbn [map app to_tap from_tap omap list_omap]. rewrite !app_nil_r.
  split; [|split; [|done]].
  - exists q, q. split; [done|]. split; [done|]. apply (rx_mem _ _ m'); [done|constructor].
  - exists p, p. split; [done|]. split; [done|]. apply (tx_mem _ _ m'); [done|constructor].
Qed.

Lemma effect_none T n m n' m' : net_ok T n m -> same_map m m' -> n_queues n' = n_queues n -> held n' = held n -> tap n' = tap n ->
  n_guest_mac n' = n_guest_mac n -> n_activated n' = n_activated n -> effect n m n' m' [] [] [].
Proof. intros. apply effect_effects. split; [by eapply effects_none|done]. Qed.

Lemma net_ok_later T U n m : T <= U -> net_ok T n m -> net_ok U n m.
Proof. intros HU []. split; try done. by apply (ns_ok_later T). Qed.

Lemma net_ok_mem T n m m' : same_map m m' -> net_ok T n m -> net_ok T n m'.
Proof. intros Hm []. split; try done. intros Ha. eapply Forall_impl; [by apply no_active0|]. intros q Hq. by apply (queue_ok_mem q m). Qed.

Lemma signal_spec irq i n m q : n_activated n = true -> n_queues n !! i = Some q -> queue_ok q m ->
  exists r v s, signal_used_queue irq i n m = Ret (r, with_net_queues n (<[i := with_num_added q v]> (n_queues n)) s) /\ queue_ok (with_num_added q v) m /\ (irq = true -> r = Ok tt).
Proof.
  intros Ha Eq Hq. unfold signal_used_queue, net_queue. rewrite Ha, bind_Ret, Eq. cbn [unwrap]. rewrite bind_Ret.
  destruct (prepare_kick_spec q m Hq) as (b & q' & e & -> & Hno & Hyes). rewrite bind_Ret. cbn [fst snd].
  assert (Hkick : exists v, q' = with_num_added q v /\ queue_ok q' m).
  { destruct (uses_notif_suppression q); [destruct (Hyes eq_refl) as (_ & _ & -> & _); eexists; split; [done|]; by destruct Hq; split|].
    destruct (Hno eq_refl) as [_ ->]. exists (num_added q). split; [by destruct q|done]. }
  destruct Hkick as (v & -> & Hq'). destruct b; do 3 eexists; (split; [done|]); (split; [done|]); [by intros ->|done].
Qed.

Lemma signal_ok T irq i n m : net_ok T n m -> n_activated n = true -> (i < 2)%nat ->
  exists r n', signal_used_queue irq i n m = Ret (r, n') /\ net_ok T n' m /\ effect n m n' m [] [] [] /\ rx_deferred_frame n' = rx_deferred_frame n /\ mmds_ns n' = mmds_ns n.
Proof.
  intros Hn Ha Hi. pose proof Hn as [Hlen Hev Hact Hrl Htl Hbuf Hmac Hc Hns]. destruct (two_queues T n m Hn) as (q0 & q1 & E). specialize (Hact Ha).
  destruct (lookup_lt_is_Some_2 (n_queues n) i) as [q Eq]; [lia|]. destruct (signal_spec irq i n m q Ha Eq (Forall_lookup_1 _ _ _ _ Hact Eq)) as (r & v & s & -> & Hq' & _).
  do 2 eexists. split; [done|]. split; [|split; [|done]].
  - split; cbn; try done; [by rewrite length_insert|]. intros _. by apply Forall_insert.
  - rewrite E in *. destruct i as [|[|i]]; [| |lia]; cbn in Eq; injection Eq as ->; split; cbn; rewrite ?E, ?app_nil_r; try done;
      do 2 eexists; (split; [done|]; split; [done|]); [apply (rx_kick _ _ v)| | |apply (tx_kick _ _ v)]; constructor.
Qed.

(** ** Receiving and sending *)

(** A handler does not panic and leaves a device in order at time [U].  It sends frames of the
    guest, which go where the worlds [txs] say, and then receives frames from [ws]. *)
Definition traffic (mac : option MacAddr) (txs : nat -> TxWorld M W) (ws : nat -> RxWorld M W) (ns : option NS) (l : list (list Z * Destination)) (rd : list (list Z * Source)) (ns' : option NS) : Prop :=
  exists k j ns1, sends mac ns (upto k txs) l ns1 /\ receives ns1 (upto j ws) rd ns'.

Definition served (U : Z) (txs : nat -> TxWorld M W) (ws : nat -> RxWorld M W) n m (r : outcome (result unit (NetDeviceError GuestMemoryError) * Net NS * M)) : Prop :=
  r <> Crash /\ forall res n' m', r = Done (res, n', m') -> net_ok U n' m' /\ same_map m m' /\
    exists rd dl l, traffic (n_guest_mac n) txs ws (mmds_ns n) l rd (mmds_ns n') /\ effect n m n' m' rd dl l.

(** A handler that only receives. *)
Definition received (U : Z) (ws : nat -> RxWorld M W) n m (r : outcome (result unit (NetDeviceError GuestMemoryError) * Net NS * M)) : Prop :=
  r <> Crash /\ forall res n' m', r = Done (res, n', m') -> net_ok U n' m' /\ same_map m m' /\
    exists j rd dl, receives (mmds_ns n) (upto j ws) rd (mmds_ns n') /\ effect n m n' m' rd dl [].

Lemma traffic_none mac txs ws ns : traffic mac txs ws ns [] [] ns.
Proof. exists 0%nat, 0%nat, ns. split; constructor. Qed.

Lemma received_served U txs ws n m r : received U ws n m r -> served U txs ws n m r.
Proof.
  intros [Hnc Hok]. split; [done|]. intros res n' m' E. destruct (Hok _ _ _ E) as (? & ? & j & rd & dl & Hr & He). split; [done|]. split; [done|]. exists rd, dl, []. split; [|done].
  exists 0%nat, j, (mmds_ns n). split; [constructor|done].
Qed.

(** Reception changes the device. *)
Lemma with_rx_effect T n m q p q' m' rl d c buf t ns rd dl : net_ok T n m -> n_activated n = true -> n_queues n = [q; p] -> same_map m m' ->
  rx_trace q m dl q' m' -> queue_ok q' m' -> limiter_wf rl -> buf_ok buf -> (c <= MAX_BUFFER_SIZE)%nat -> t = received_on (tap n) rd -> ns_ok T ns -> held n ++ map fst rd = dl ++ waiting_frame d c buf ->
  net_ok T (with_rx n q' rl d c buf t ns) m' /\ effect n m (with_rx n q' rl d c buf t ns) m' rd dl [].
Proof.
  intros Hn Ha E Hm Hr Hq' Hrl Hb Hc -> Hns Hf. pose proof Hn as [Hlen Hev Hact _ Htl _ Hmac _ _]. specialize (Hact Ha). rewrite E in Hact. split.
  - split; cbn; try done; [by rewrite length_insert|]. intros _. rewrite E. apply Forall_cons in Hact as [_ Hp]. apply Forall_cons. split; [done|].
    eapply Forall_impl; [exact Hp|]. intros x Hx. by apply (queue_ok_mem x m).
  - split; cbn; rewrite ?E; cbn; try done; [by exists q, q'| |by rewrite app_nil_r]. exists p, p. split; [done|]. split; [done|]. apply (tx_mem _ _ m'); [done|constructor].
Qed.

(** Handlers end by signalling the guest. *)
Lemma received_signal U ws irq n m n1 m1 j rd dl : net_ok U n1 m1 -> same_map m m1 -> n_activated n1 = true -> receives (mmds_ns n) (upto j ws) rd (mmds_ns n1) -> effect n m n1 m1 rd dl [] ->
  received U ws n m (r ← lift (signal_used_queue irq RX_INDEX n1 m1); Done (r.1, r.2, m1)).
Proof.
  intros Hn Hm Ha Hsrc He. destruct (signal_ok U irq RX_INDEX n1 m1 Hn Ha) as (r & n2 & -> & Hn2 & He2 & _ & Es); [unfold RX_INDEX; lia|]. cbn [lift]. rewrite bind_Done. split; [done|].
  intros res n' m' [= <- <- <-]. split; [done|]. split; [done|]. exists j, rd, dl. split; [by rewrite Es|].
  pose proof (effect_trans _ _ _ _ _ _ _ _ _ _ _ _ He He2) as He'. by rewrite !app_nil_r in He'.
Qed.

Lemma process_rx_ok fuel T U ws irq n m : net_ok T n m -> n_activated n = true -> rx_deferred_frame n = false -> rx_worlds T ws U -> T <= U ->
  received U ws n m (process_rx fuel ws irq n m).
Proof.
  intros Hn Ha Hd Hw HU. pose proof Hn as [Hlen Hev Hact Hrl Htl Hbuf Hmac Hc Hns]. destruct (two_queues T n m Hn) as (q & p & E).
  unfold process_rx, active_mem, net_queue. rewrite Ha, E. cbn [lift RX_INDEX lookup list_lookup unwrap]. rewrite !bind_Done.
  specialize (Hact Ha). rewrite E in Hact. apply Forall_cons in Hact as [Hq _].
  destruct (rx_loop_ok release fuel T U ws (mkReceiving q (rx_rate_limiter n) (rx_deferred_frame n) (rx_bytes_read n) (rx_frame_buf n) (tap n) (mmds_ns n)) m Hw HU) as [Hnc Hok]; [by split|done|].
  destruct (process_rx_loop fuel ws _ m) as [[[res s] m1]| |]; [|done|by split].
  destruct (Hok _ _ _ eq_refl) as ([Hq1 Hl1 Hb1 Hc1 Hn1] & Hm1 & _ & j & rd & dl & Hsrc & Et & Hr & Erd). rewrite bind_Done.
  destruct (with_rx_effect U n m q p (r_queue s) m1 (r_limiter s) (r_deferred s) (r_count s) (r_buf s) (r_tap s) (r_ns s) rd dl) as [Hn2 He2]; try done.
  { by apply (net_ok_later T). }
  { unfold held. by rewrite Hd. }
  destruct res as [[]|er]; [by eapply received_signal; eauto|]. split; [done|]. intros ? ? ? [= <- <- <-]. split; [done|]. split; [done|]. by exists j, rd, dl.
Qed.

(** The device receives after a frame was delivered. *)
Lemma received_after U ws n m n1 m1 dl0 r : mmds_ns n1 = mmds_ns n -> same_map m m1 -> effect n m n1 m1 [] dl0 [] -> received U ws n1 m1 r -> received U ws n m r.
Proof.
  intros Es Hm He [Hnc Hok]. split; [done|]. intros res n' m' E. destruct (Hok _ _ _ E) as (Hn & Hm' & j & rd & dl & Hsrc & He').
  split; [done|]. split; [by apply (same_map_trans m m1)|]. exists j, rd, (dl0 ++ dl). split; [by rewrite <-Es|]. by apply (effect_trans n m [] dl0 [] n1 m1 rd).
Qed.

Lemma handle_deferred_ok fuel T U w ws irq n m : net_ok T n m -> n_activated n = true -> rx_deferred_frame n = true -> drives_map (rw_drive w) -> rx_worlds T ws U -> T <= U ->
  received U ws n m (handle_deferred_frame fuel w ws irq n m).
Proof.
  intros Hn Ha Hd Hdr Hw HU. pose proof Hn as [Hlen Hev Hact Hrl Htl Hbuf Hmac Hc Hns]. destruct (two_queues T n m Hn) as (q & p & E).
  unfold handle_deferred_frame, active_mem, net_queue. rewrite Ha, E. cbn [lift RX_INDEX lookup list_lookup unwrap]. rewrite !bind_Done.
  specialize (Hact Ha). rewrite E in Hact. apply Forall_cons in Hact as [Hq _]. pose proof Hbuf as [Hbl Hbb].
  destruct (rate_limited_ok release w (rx_frame_buf n) (rx_bytes_read n) (rx_rate_limiter n) q m) as (d & rl & q1 & m1 & -> & Hl1 & Hq1 & Hm1 & _ & Hr); [done|lia|done|done|done|done|].
  rewrite bind_Done.
  destruct (with_rx_effect T n m q p q1 m1 rl (if d then false else true) (rx_bytes_read n) (rx_frame_buf n) (tap n) (mmds_ns n) [] (if d then [take (rx_bytes_read n) (rx_frame_buf n)] else [])) as [Hn1 He1];
    try done; [apply received_none|unfold held, waiting_frame; rewrite Hd; by destruct d|].
  rewrite Hd. destruct d.
  - eapply received_after; [|exact Hm1|exact He1|by apply (process_rx_ok fuel T U)]. done.
  - eapply (received_signal U ws irq n m _ m1 0); [by apply (net_ok_later T)|done|done|constructor|exact He1].
Qed.

Lemma resume_rx_ok fuel T U w ws irq n m : net_ok T n m -> n_activated n = true -> drives_map (rw_drive w) -> rx_worlds T ws U -> T <= U ->
  received U ws n m (resume_rx fuel w ws irq n m).
Proof.
  intros Hn Ha Hdr Hw HU. unfold resume_rx. destruct (rx_deferred_frame n) eqn:Hd; [by apply (handle_deferred_ok fuel T U)|].
  split; [done|]. intros ? ? ? [= <- <- <-]. split; [by apply (net_ok_later T)|]. split; [done|]. exists 0%nat, [], []. split; [constructor|]. by eapply effect_none.
Qed.

Lemma with_tx_effect T n m q p p' m' rl t ns l : net_ok T n m -> n_activated n = true -> n_queues n = [q; p] -> same_map m m' ->
  tx_trace p m l p' m' -> queue_ok p' m' -> limiter_wf rl -> t = sent_on (tap n) l -> ns_ok T ns ->
  net_ok T (with_tx n p' rl t ns) m' /\ effect n m (with_tx n p' rl t ns) m' [] [] l.
Proof.
  intros Hn Ha E Hm Ht Hp' Hrl -> Hns. pose proof Hn as [Hlen Hev Hact Hrx _ Hbuf Hmac Hc _]. specialize (Hact Ha). rewrite E in Hact. apply Forall_cons in Hact as [Hq _]. split.
  - split; cbn; try done; [by rewrite length_insert|]. intros _. rewrite E. apply Forall_cons. split; [by apply (queue_ok_mem q m)|by apply Forall_singleton].
  - split; cbn; rewrite ?E; cbn; try done; [|by exists p, p'|by rewrite app_nil_r|by rewrite app_nil_r]. exists q, q. split; [done|]. split; [done|]. apply (rx_mem _ _ m'); [done|constructor].
Qed.

(** Frames are received after sending only if none waits. *)
Lemma tx_loop_flag fuel ws mac deferred s m res s' m' : process_tx_loop fuel ws mac deferred s m = Done (res, s', m') -> process_rx_for_mmds s = false ->
  process_rx_for_mmds s' = true -> deferred = false.
Proof.
  intros E Hs Hs'. enough (process_rx_for_mmds s = true \/ deferred = false) as [?|?] by congruence. clear Hs. revert ws s m E. induction fuel as [|fuel IH]; intros ws s m E; cbn [process_tx_loop] in E; [discriminate|].
  apply bind_Done_inv in E as ([[[head|] q] m1] & _ & E); [|injection E as <- <- <-; by left]. apply bind_Done_inv in E as ([g rl] & _ & E).
  destruct (negb _); [injection E as <- <- <-; by left|]. apply bind_Done_inv in E as (i & _ & E). apply bind_Done_inv in E as ([g2 rl2] & _ & E).
  destruct (negb _). { apply bind_Done_inv in E as (? & _ & E). injection E as <- <- <-. by left. }
  apply bind_Done_inv in E as (frame & _ & E). apply bind_Done_inv in E as ([[[w ns] rl3] t] & _ & E). apply bind_Done_inv in E as ([[a q2] m2] & _ & E). cbv zeta in E.
  destruct (match w with Ok taken => taken | Err _ => false end && negb deferred) eqn:Ec.
  - right. apply andb_prop in Ec as [_ Ec]. by destruct deferred.
  - destruct a as [[]|er]; [by apply IH in E|]. injection E as <- <- <-. by left.
Qed.

Lemma process_tx_ok fuel T V U ws ws' irq n m : net_ok T n m -> n_activated n = true -> tx_worlds T ws V -> rx_worlds V ws' U -> T <= V -> V <= U ->
  served U ws ws' n m (process_tx fuel ws ws' irq n m).
Proof.
  intros Hn Ha Hw Hw' HV HU. pose proof Hn as [Hlen Hev Hact Hrl Htl Hbuf Hmac Hc Hns]. destruct (two_queues T n m Hn) as (q & p & E).
  unfold process_tx, active_mem, net_queue. rewrite Ha, E. cbn [lift TX_INDEX lookup list_lookup unwrap]. rewrite !bind_Done.
  specialize (Hact Ha). rewrite E in Hact. apply Forall_cons in Hact as [_ Hact]. apply Forall_cons in Hact as [Hp _].
  destruct (tx_loop_ok release fuel T V ws (n_guest_mac n) (rx_deferred_frame n) (mkSending p (tx_rate_limiter n) (tap n) (mmds_ns n) false) m Hw HV) as [Hnc Hok]; [by split|].
  destruct (process_tx_loop fuel ws _ _ _ m) as [[[res s] m1]| |] eqn:El; [|done|by split].
  destruct (Hok _ _ _ eq_refl) as ([Hq1 Hl1 Hn1] & Hm1 & _ & k & l & Hr & Et & Hsd). rewrite bind_Done.
  destruct (with_tx_effect V n m q p (t_queue s) m1 (t_limiter s) (t_tap s) (t_ns s) l) as [Hn2 He2]; try done; [by apply (net_ok_later T)|].
  assert (Hend : forall n2, net_ok V n2 m1 -> mmds_ns n2 = t_ns s -> effect n m n2 m1 [] [] l -> forall r, served U ws ws' n m (Done (r, n2, m1))).
  { intros n2 Hn3 Es He3 r. split; [done|]. intros ? ? ? [= <- <- <-]. split; [by apply (net_ok_later V)|]. split; [done|]. exists [], [], l. split; [|done].
    exists k, 0%nat, (t_ns s). rewrite Es. split; [done|constructor]. }
  destruct res as [[]|er]; [|by apply Hend].
  destruct (signal_ok V irq TX_INDEX _ m1 Hn2) as (r & n2 & -> & Hn3 & He3 & Ed & Es); [done|unfold TX_INDEX; lia|]. cbn [lift]. rewrite bind_Done.
  pose proof (effect_trans _ _ _ _ _ _ _ _ _ _ _ _ He2 He3) as He. rewrite !app_nil_r in He.
  destruct r as [[]|er]; [|by apply Hend]. destruct (process_rx_for_mmds s) eqn:Ep; [|by apply Hend].
  destruct (process_rx_ok fuel V U ws' irq n2 m1) as [Hnc2 Hok2]; try done; [by rewrite (ef_active _ _ _ _ _ _ _ He)|rewrite Ed; by apply (tx_loop_flag _ _ _ _ _ _ _ _ _ El)|].
  split; [done|]. intros res n' m' E'. destruct (Hok2 _ _ _ E') as (Hn' & Hm' & j & rd & dl & Hrc & He'). split; [done|]. split; [by apply (same_map_trans m m1)|].
  exists rd, dl, l. split; [exists k, j, (t_ns s); split; [done|by rewrite Es in Hrc]|]. pose proof (effect_trans _ _ _ _ _ _ _ _ _ _ _ _ He He') as He''. by rewrite app_nil_r in He''.
Qed.

(** ** Events *)

(** The worlds of an event handled between [T] and [U]. *)
Definition input_ok (T : Z) (i : NetInput (M := M) (W := W)) (U : Z) : Prop :=
  drives_map (rw_drive (ni_deferred i)) /\ exists V, T <= V /\ V <= U /\ tx_worlds T (ni_tx i) V /\ rx_worlds V (ni_rx i) U.

(** [served], for a handler whose error was reported. *)
Definition handled (U : Z) (i : NetInput (M := M) (W := W)) n m (r : outcome (Net NS * M)) : Prop :=
  r <> Crash /\ forall n' m', r = Done (n', m') -> net_ok U n' m' /\ same_map m m' /\
    exists rd dl l, traffic (n_guest_mac n) (ni_tx i) (ni_rx i) (mmds_ns n) l rd (mmds_ns n') /\ effect n m n' m' rd dl l.

Lemma reported_ok U i n m r : served U (ni_tx i) (ni_rx i) n m r -> handled U i n m (reported r).
Proof.
  intros [Hnc Hok]. unfold reported. destruct r as [[[res n'] m']| |]; [|done|by split]. rewrite bind_Done. split; [done|]. intros ? ? [= <- <-]. by apply (Hok res).
Qed.

(** A handler that changes nothing but, perhaps, the limiters. *)
Lemma handled_rest T U i n m rx tx : T <= U -> net_ok T n m -> limiter_wf rx -> limiter_wf tx -> handled U i n m (Done (with_limiters n rx tx, m)).
Proof.
  intros HU Hn Hrx Htx. split; [done|]. intros ? ? [= <- <-]. split; [apply (net_ok_later T); [done|]; by destruct Hn|]. split; [done|]. exists [], [], [].
  split; [apply traffic_none|]. by eapply effect_none.
Qed.

Lemma handled_same T U i n m : T <= U -> net_ok T n m -> handled U i n m (Done (n, m)).
Proof. intros HU Hn. replace n with (with_limiters n (rx_rate_limiter n) (tx_rate_limiter n)) at 2 by by destruct n. by apply (handled_rest T); [|done|destruct Hn..]. Qed.

(** The limiters change before the handler runs. *)
Lemma handled_limiters U i rx tx n m r : handled U i (with_limiters n rx tx) m r -> handled U i n m r.
Proof.
  intros [Hnc Hok]. split; [done|]. intros n' m' E. destruct (Hok n' m' E) as (Hn & Hm & rd & dl & l & Hsrc & []). split; [done|]. split; [done|].
  exists rd, dl, l. by split.
Qed.

Lemma with_limiters_ok T n m rx tx : net_ok T n m -> limiter_wf rx -> limiter_wf tx -> net_ok T (with_limiters n rx tx) m.
Proof. intros []. by split. Qed.

Lemma timer_event_wf rl k : limiter_wf rl -> limiter_wf (RateLimiter_event_handler rl k).2.
Proof. intros Hwf. unfold RateLimiter_event_handler. destruct (k =? 0); [done|]. by destruct Hwf; split. Qed.

Lemma rx_queue_event_ok T U i n m : net_ok T n m -> n_activated n = true -> input_ok T i U -> handled U i n m (process_rx_queue_event i n m).
Proof.
  intros Hn Ha (Hdr & V & HV & HU & _ & Hw). unfold process_rx_queue_event. destruct (negb _); [apply (handled_same T); [lia|done]|].
  destruct (is_blocked _); [apply (handled_same T); [lia|done]|]. apply reported_ok, received_served, (resume_rx_ok _ V U); try done. by apply (net_ok_later T).
Qed.

Lemma tap_rx_event_ok T U i n m : net_ok T n m -> n_activated n = true -> input_ok T i U -> handled U i n m (process_tap_rx_event i n m).
Proof.
  intros Hn Ha (Hdr & V & HV & HU & _ & Hw). unfold process_tap_rx_event, active_mem, net_queue. rewrite Ha. cbn [lift]. rewrite bind_Done.
  destruct (two_queues T n m Hn) as (q & p & E). rewrite E. cbn [RX_INDEX lookup list_lookup unwrap lift]. rewrite bind_Done.
  pose proof (no_active _ _ _ Hn Ha) as Hact. rewrite E in Hact. apply Forall_cons in Hact as [Hq _].
  destruct (Queue_len_ok q m Hq) as (idx & _ & _ & El). unfold is_empty. rewrite El, bind_Ret. cbn [lift]. rewrite bind_Done.
  destruct (_ && _); [apply (handled_same T); [lia|done]|]. destruct (is_blocked _); [apply (handled_same T); [lia|done]|].
  pose proof (net_ok_later T V _ _ HV Hn) as HnV.
  destruct (rx_deferred_frame n) eqn:Ed; apply reported_ok, received_served; [by apply (handle_deferred_ok _ V U)|by apply (process_rx_ok _ V U)].
Qed.

Lemma tx_queue_event_ok T U i n m : net_ok T n m -> n_activated n = true -> input_ok T i U -> handled U i n m (process_tx_queue_event i n m).
Proof.
  intros Hn Ha (Hdr & V & HV & HU & Ht & Hw). unfold process_tx_queue_event. destruct (negb (ni_read_ok i)); [apply (handled_same T); [lia|done]|].
  destruct (negb (is_blocked _)); [|apply (handled_same T); [lia|done]]. by apply reported_ok, (process_tx_ok _ T V U).
Qed.

Lemma limiter_events_ok T U i n m : net_ok T n m -> n_activated n = true -> input_ok T i U ->
  handled U i n m (process_rx_rate_limiter_event i n m) /\ handled U i n m (process_tx_rate_limiter_event i n m).
Proof.
  intros Hn Ha (Hdr & V & HV & HU & Ht & Hw). unfold process_rx_rate_limiter_event, process_tx_rate_limiter_event.
  pose proof (no_rx_limiter _ _ _ Hn) as Hrx. pose proof (no_tx_limiter _ _ _ Hn) as Htx.
  pose proof (timer_event_wf _ (ni_expirations i) Hrx) as Hr1. pose proof (timer_event_wf _ (ni_expirations i) Htx) as Hr2. split.
  - destruct (RateLimiter_event_handler (rx_rate_limiter n) _) as [[[]|er] rl]; cbn [snd] in Hr1;
      pose proof (with_limiters_ok T n m rl _ Hn Hr1 Htx) as Hn1; [|apply (handled_rest T); [lia|done..]].
    eapply handled_limiters, reported_ok, received_served, (resume_rx_ok _ V U); try done. by apply (net_ok_later T).
  - destruct (RateLimiter_event_handler (tx_rate_limiter n) _) as [[[]|er] rl]; cbn [snd] in Hr2;
      pose proof (with_limiters_ok T n m _ rl Hn Hrx Hr2) as Hn1; [|apply (handled_rest T); [lia|done..]].
    by eapply handled_limiters, reported_ok, (process_tx_ok _ T V U).
Qed.

(** ** Runs *)

(** What happens to a device: an event, a resumption of the virtual machine (which serves the
    queues of active devices), a write to its configuration, or the guest writes memory. *)
Inductive NetOp :=
| NetEvent (source : Z) (evset : bool * bool) (i : NetInput (M := M) (W := W))
| NetKick (i i' : NetInput (M := M) (W := W))
| NetWriteConfig (offset : Z) (data : list Z)
| NetGuest (drive : M -> M).

Definition net_do (op : NetOp) n m : outcome (Net NS * M) :=
  match op with
  | NetEvent source evset i => r ← net_process_event source evset i n m; Done r.1
  | NetKick i i' => if n_activated n then net_process_virtio_queues i i' n m else Done (n, m)
  | NetWriteConfig offset data => n ← lift (net_write_config n offset data); Done (n, m)
  | NetGuest drive => Done (n, drive m)
  end.

Fixpoint net_run (ops : list NetOp) n m : outcome (Net NS * M) :=
  match ops with
  | [] => Done (n, m)
  | op :: ops => r ← net_do op n m; net_run ops r.1 r.2
  end.

(** What the host and the guest may do between [T] and [U]. *)
Definition op_ok (T : Z) (op : NetOp) (U : Z) : Prop :=
  match op with
  | NetEvent _ _ i => input_ok T i U
  | NetKick i i' => exists V, input_ok T i V /\ input_ok V i' U
  | NetWriteConfig offset data => T <= U /\ 0 <= offset /\ offset + Z.of_nat (length data) < 2 ^ 64
  | NetGuest drive => T <= U /\ forall m, same_map m (drive m)
  end.

Inductive ops_ok : Z -> list NetOp -> Z -> Prop :=
| ops_none T : ops_ok T [] T
| ops_cons T U V op ops : op_ok T op U -> ops_ok U ops V -> ops_ok T (op :: ops) V.

(** What the tap and the metadata service, in the state [ns], do while the device handles [op]:
    the frames of the guest go where [l] says, and [rd] are the frames for the guest. *)
Definition exchanged (op : NetOp) (mac : option MacAddr) (ns : option NS) (l : list (list Z * Destination)) (rd : list (list Z * Source)) (ns' : option NS) : Prop :=
  match op with
  | NetEvent _ _ i => traffic mac (ni_tx i) (ni_rx i) ns l rd ns'
  | NetKick i i' => exists ns1 j rd1 rd2, receives ns (upto j (ni_rx i)) rd1 ns1 /\ traffic mac (ni_tx i') (ni_rx i') ns1 l rd2 ns' /\ rd = rd1 ++ rd2
  | NetWriteConfig _ _ | NetGuest _ => l = [] /\ rd = [] /\ ns' = ns
  end.

(** The same, over a run. *)
Inductive exchange : list NetOp -> Net NS -> M -> list (list Z * Destination) -> list (list Z * Source) -> Net NS -> M -> Prop :=
| ex_none n m : exchange [] n m [] [] n m
| ex_op op ops n m n1 m1 l rd l' rd' n' m' : net_do op n m = Done (n1, m1) -> exchanged op (n_guest_mac n) (mmds_ns n) l rd (mmds_ns n1) ->
    exchange ops n1 m1 l' rd' n' m' -> exchange (op :: ops) n m (l ++ l') (rd ++ rd') n' m'.

Lemma input_time T i U : input_ok T i U -> T <= U.
Proof. intros (_ & V & ? & ? & _). lia. Qed.

Lemma op_time T op U : op_ok T op U -> T <= U.
Proof. destruct op; cbn; [apply input_time|intros (V & ?%input_time & ?%input_time); lia|lia|tauto]. Qed.

Lemma net_event_ok T U source evset i n m : net_ok T n m -> input_ok T i U -> handled U i n m (r ← net_process_event source evset i n m; Done r.1).
Proof.
  intros Hn Hi. pose proof (input_time _ _ _ Hi) as HU. unfold net_process_event.
  assert (Hrest : handled U i n m (Done (n, m))) by by apply (handled_same T).
  assert (Hh : forall r : outcome (Net NS * M), handled U i n m r -> handled U i n m (r0 ← (x ← r; Done (x, [] : list EventOp)); Done r0.1)).
  { intros [[n' m']| |] Hr; [by rewrite !bind_Done|done|done]. }
  destruct (evset.2); [by rewrite bind_Done|]. destruct (n_activated n) eqn:Ha; [|by rewrite bind_Done].
  pose proof (no_evts _ _ _ Hn) as Hev. unfold net_process_activate_event, net_runtime_events, net_event_fd. destruct (n_queue_evts n) as [|e0 [|e1 [|]]]; try discriminate.
  cbn [RX_INDEX TX_INDEX lookup list_lookup unwrap lift]. rewrite !bind_Done. destruct (limiter_events_ok T U i n m Hn Ha Hi) as [Hl1 Hl2].
  destruct (source =? e0); [by apply Hh, (rx_queue_event_ok T)|]. destruct (source =? tap_fd _); [by apply Hh, (tap_rx_event_ok T)|].
  destruct (source =? e1); [by apply Hh, (tx_queue_event_ok T)|]. destruct (source =? ni_rx_limiter_fd i); [by apply Hh|]. destruct (source =? ni_tx_limiter_fd i); [by apply Hh|].
  destruct (_ =? source); [|by rewrite bind_Done]. rewrite !bind_Ret. cbn [lift]. by rewrite !bind_Done.
Qed.

Lemma write_config_ok T n m offset data : net_ok T n m -> 0 <= offset -> offset + Z.of_nat (length data) < 2 ^ 64 ->
  exists n', net_write_config n offset data = Ret n' /\ net_ok T n' m /\ effects n m n' m [] [] [] /\ mmds_ns n' = mmds_ns n.
Proof.
  intros Hn H3 H4. pose proof (no_mac _ _ _ Hn) as Hmac. unfold net_write_config, config_write. rewrite uadd_ok by (unfold in_range; lia). rewrite bind_Ret.
  destruct (Z.ltb_spec (Z.of_nat (length (n_config_mac n))) (offset + Z.of_nat (length data))); [rewrite bind_Ret; eexists; split; [done|]; split; [done|]; split; [by eapply effects_none|done]|].
  rewrite (proj2 (Z.ltb_ge _ _)) by lia. rewrite bind_Ret. set (config := take _ _ ++ _).
  assert (Hl : length config = 6%nat) by (subst config; rewrite !length_app, length_take, length_drop; lia).
  unfold MacAddr_from_bytes_unchecked, copy_into, slen. rewrite length_take, length_replicate, Hl. change (_ && _) with true. cbv iota. rewrite bind_Ret. eexists. split; [done|].
  split; [by destruct Hn; split|]. split; [by eapply effects_none|done].
Qed.

(** One step of a run. *)
Lemma net_do_ok T U op n m : net_ok T n m -> op_ok T op U ->
  net_do op n m <> Crash /\ forall n' m', net_do op n m = Done (n', m') -> net_ok U n' m' /\ exists rd dl l, exchanged op (n_guest_mac n) (mmds_ns n) l rd (mmds_ns n') /\ effects n m n' m' rd dl l.
Proof.
  intros Hn Ho. pose proof (op_time _ _ _ Ho) as HU. destruct op as [source evset i|i i'|offset data|drive]; cbn [net_do op_ok exchanged] in *.
  - destruct (net_event_ok T U source evset i n m Hn Ho) as [Hnc Hok]. split; [done|]. intros n' m' E.
    destruct (Hok _ _ E) as (Hn' & _ & rd & dl & l & Hs & [He _]%effect_effects). split; [done|]. by exists rd, dl, l.
  - destruct Ho as (V & (Hd & V1 & ? & ? & Ht & Hw) & (Hd' & V2 & ? & ? & Ht' & Hw')). destruct (n_activated n) eqn:Ha.
    2: { split; [done|]. intros ? ? [= <- <-]. split; [by apply (net_ok_later T)|]. exists [], [], []. split; [|by eapply effects_none]. exists (mmds_ns n), 0%nat, [], []. split; [constructor|]. split; [apply traffic_none|done]. }
    unfold net_process_virtio_queues. destruct (resume_rx_ok (ni_fuel i) V1 V (ni_deferred i) (ni_rx i) (ni_irq_ok i) n m) as [Hnc Hok]; [apply (net_ok_later T); [lia|done]|done..|].
    destruct (resume_rx _ _ _ _ n m) as [[[res n1] m1]| |]; [|done|by split]. change (reported (Done (res, n1, m1))) with (Done (n1, m1)). rewrite bind_Done. destruct (Hok _ _ _ eq_refl) as (Hn1 & Hm1 & j & rd & dl & Hs & He).
    destruct (reported_ok U i' n1 m1 _ (process_tx_ok (ni_fuel i') V V2 U (ni_tx i') (ni_rx i') (ni_irq_ok i') n1 m1 Hn1 (eq_trans (ef_active _ _ _ _ _ _ _ He) Ha) Ht' Hw' ltac:(lia) ltac:(lia))) as [Hnc' Hok'].
    split; [done|]. intros n' m' E. destruct (Hok' _ _ E) as (Hn' & _ & rd' & dl' & l' & Hs' & He'). split; [done|]. rewrite (ef_mac _ _ _ _ _ _ _ He) in Hs'.
    exists (rd ++ rd'), (dl ++ dl'), l'. split; [by exists (mmds_ns n1), j, rd, rd'|]. apply effect_effects in He as [He _], He' as [He' _]. by apply (effects_trans n m rd dl [] n1 m1).
  - destruct Ho as (_ & Ho1 & Ho2). destruct (write_config_ok T n m offset data Hn Ho1 Ho2) as (n1 & -> & Hn1 & He & Es). cbn [lift]. rewrite bind_Done. split; [done|].
    intros ? ? [= <- <-]. split; [by apply (net_ok_later T)|]. exists [], [], []. by split.
  - destruct Ho as [_ Hd]. split; [done|]. intros ? ? [= <- <-]. split; [by apply (net_ok_mem U n m), (net_ok_later T)|]. exists [], [], []. split; [done|]. by eapply effects_none.
Qed.

Lemma net_run_ok ops T U n m : net_ok T n m -> ops_ok T ops U ->
  net_run ops n m <> Crash /\ forall n' m', net_run ops n m = Done (n', m') -> net_ok U n' m' /\ exists rd dl l, exchange ops n m l rd n' m' /\ effects n m n' m' rd dl l.
Proof.
  intros Hn Ho. revert n m Hn. induction Ho as [T|T U V op ops Hop Ho IH]; intros n m Hn; cbn [net_run].
  - split; [done|]. intros ? ? [= <- <-]. split; [done|]. exists [], [], []. split; [constructor|]. by eapply effects_none.
  - destruct (net_do_ok T U op n m Hn Hop) as [Hnc Hok]. destruct (net_do op n m) as [[n1 m1]| |] eqn:Ed; [|done|by split]. rewrite bind_Done.
    destruct (Hok _ _ eq_refl) as (Hn1 & rd & dl & l & Hr & He). destruct (IH n1 m1 Hn1) as [Hnc' Hok']. split; [done|]. intros n' m' E.
    destruct (Hok' _ _ E) as (Hn' & rd' & dl' & l' & Hrs & He'). split; [done|]. exists (rd ++ rd'), (dl ++ dl'), (l ++ l'). split; [by eapply ex_op|]. by eapply effects_trans.
Qed.

(** C13: The network device does not panic in a build without overflow checks, whatever the
    driver puts into its queues and does to memory meanwhile, whatever frames come from the tap
    and whatever the events are, and its state stays sound.  Slices of the frame buffers that are
    out of range, missing queues and memory, and arithmetic are the panics it is free of. *)
Theorem net_safe ops T U n m : net_ok T n m -> ops_ok T ops U ->
  net_run ops n m <> Crash /\ forall n' m', net_run ops n m = Done (n', m') -> net_ok U n' m'.
Proof. intros Hn Ho. destruct (net_run_ok ops T U n m Hn Ho) as [Hnc Hok]. split; [done|]. intros n' m' E. by destruct (Hok _ _ E). Qed.

End Service.
