(* ===== verification/NetTransfer.v ===== *)
(** * Transfers of the network device

    With enough rounds the loops of the network device end.  For a device without a metadata
    service and without limits: if the driver rests, every chain it has made available is sent
    and given back ([net_sends]); if the tap runs dry, every frame it had is delivered, or the
    device holds the first that found no space ([net_receives]). *)

From Stdlib Require Import ZArith Lia.
From stdpp Require Import functions prelude.
From S2P Require Import Prelude GuestMemory VirtioQueue QueueRuns Mmio RateLimiter VirtioPersist NetBytes NetDevice NetRuns NetService.

Section Transfer.
Context {W NS M : Type} `{GuestMemory M} `{FrameServiceLaws W NS} `{Profile}.
Context (release : overflow_checks = false).
Implicit Types (n : Net NS) (m : M) (q : Queue).

(** ** Sending *)

(** Without a metadata service frames go to the tap. *)
Lemma write_out_tap (w : W) rl frame t mac : exists r dest, write_to_mmds_or_tap (NS := NS) w None rl frame t mac = Done (r, None, rl, sent_on t [(frame, dest)]) /\
  dest <> ToMmds /\ r <> Ok true /\ (dest = NoHeader -> (length frame < vnet_hdr_len)%nat).
Proof.
  unfold write_to_mmds_or_tap. destruct mac as [mac|]; [|by exists (Ok false), ToTap].
  destruct (frame_bytes_from_buf frame) as [b|er] eqn:E; [by exists (Ok false), ToTap|]. exists (Err er), NoHeader.
  split; [cbn; rewrite app_nil_r; by destruct t|]. split; [done|]. split; [done|]. intros _.
  unfold frame_bytes_from_buf in E. destruct (Nat.ltb_spec (length frame) vnet_hdr_len); [done|discriminate].
Qed.

Lemma tx_loop_all k fuel ws mac deferred s m : (k < fuel)%nat -> (forall i m, tw_drive (ws i) m = m) -> queue_ok (t_queue s) m -> unlimited (t_limiter s) -> t_ns s = None ->
  process_rx_for_mmds s = false -> waiting (t_queue s) m k -> (forall x, used_area (t_queue s) x -> ~ rings (t_queue s) x) ->
  (forall i, (i < k)%nat -> is_Some (chain (t_queue s) m i)) ->
  exists m' l, process_tx_loop fuel ws mac deferred s m = Done (Ok tt, mkSending (advance (t_queue s) k) (t_limiter s) (sent_on (t_tap s) l) None false, m') /\
    tx_trace (t_queue s) m l (advance (t_queue s) k) m' /\ same_map m m' /\ length l = k /\ Forall (fun p => p.2 <> ToMmds) l.
Proof.
  revert fuel ws s m. induction k as [|k IH]; intros [|fuel] ws s m Hf Hdr Hq Hu En Ep Hw Hap Hc; [lia| |lia|]; cbn [process_tx_loop];
    pose proof (take_waiting (tw_drive (ws O)) (t_queue s) m _ (Hdr O) Hq Hw Hap) as Ht.
  { destruct Ht as (m' & -> & Ha). cbn [lift]. rewrite bind_Done, En, Ep, (advance_0 _ m Hq). assert (Hm : same_map m m') by by destruct Ha.
    exists m', []. split; [by rewrite <-(sent_none (t_tap s))|]. split; [by apply (tx_mem _ _ m'); [|constructor]|]. by split; [|split; [|constructor]]. }
  destruct (Hc 0%nat ltac:(lia)) as [head Eh]. rewrite (Ht head Eh). cbn [lift]. rewrite bind_Done, unlimited_consume by done. cbn [lift]. rewrite bind_Done. cbn [fst snd negb].
  unfold chain in Eh. rewrite Z.add_0_r in Eh. destruct (pending_fields _ m _ head Eh) as (_ & _ & Httl & Hi). destruct (pending_index _ m _ head Hq Eh) as [_ Hcr].
  destruct (collect_ok release (chain_fuel head) m [] 0 head Hcr) as (iov & count & Ec & _ & Hiov); [destruct Hq; unfold in_range; lia|unfold chain_fuel; lia|unfold in_range; lia|constructor|].
  rewrite Ec, bind_Done. cbn [fst snd]. rewrite unlimited_consume by done. cbn [lift]. rewrite bind_Done. cbn [fst snd negb].
  destruct (read_frame_ok m iov [] Hiov) as (frame & Efr & _); [constructor|cbn; lia|]. rewrite Efr. cbn [lift]. rewrite bind_Done.
  destruct (write_out_tap (tw_ns (ws O)) (t_limiter s) frame (t_tap s) mac) as (r & dest & Ew & Hdest & Hr & Hno). rewrite En, Ew, bind_Done.
  assert (Hq1 : queue_ok (popped (t_queue s)) m) by (by apply with_next_avail_ok; [|apply wadd_range]).
  destruct (add_used_step (popped (t_queue s)) m (dc_index head) 0 Hq1 Hi) as (m2 & Ea & Hag & He & _); [unfold in_range; lia|]. rewrite Ea. cbn [lift]. rewrite bind_Done.
  assert (Hm2 : same_map m m2) by by destruct Hag.
  change (with_next_used _ _) with (advance (t_queue s) 1) in *. replace (if _ && _ then true else process_rx_for_mmds s) with false; [|rewrite Ep; by destruct r as [[]|]].
  match goal with |- context [process_tx_loop fuel _ mac deferred ?s2 m2] => destruct (IH fuel (fun i => ws (S i)) s2 m2) as (m' & l & -> & Htr & Hm' & Hl & Hd) end; try done; [lia| | | |].
  - cbn. apply (queue_ok_mem _ m); [|done]. destruct Hq1; split; try done; by apply wadd_range.
  - cbn. by apply (waiting_S _ m m2 k _ Hq Hag).
  - intros i Hik. change (is_Some (chain (advance (t_queue s) 1) m2 i)). rewrite (chain_S _ m m2 i _ Hq Hag Hap). apply Hc. lia.
  - cbn [t_queue t_limiter t_tap] in *. rewrite advance_S in *. exists m', ((frame, dest) :: l). split; [by rewrite (sent_trans (t_tap s) [_])|].
    split; [by eapply tx_send|]. split; [by apply (same_map_trans m m2)|]. split; [by rewrite <-Hl|by constructor].
Qed.


(** ** Receiving *)

Lemma rx_loop_all frames fuel T U ws s m : (length frames < fuel)%nat -> (forall j f, frames !! j = Some f -> rw_tap (ws j) = Ok f) -> rw_tap (ws (length frames)) = Err EAGAIN ->
  rx_worlds T ws U -> T <= U -> receiving_ok T s m -> r_ns s = None -> r_deferred s = false ->
  exists s' m' dl, process_rx_loop fuel ws s m = Done (Ok tt, s', m') /\ rx_trace (r_queue s) m dl (r_queue s') m' /\ queue_ok (r_queue s') m' /\ same_map m m' /\
    (dl ++ waiting_frame (r_deferred s') (r_count s') (r_buf s')) `prefix_of` frames /\ (r_deferred s' = false -> dl = frames).
Proof.
  revert fuel T ws s m. induction frames as [|f frames IH]; intros [|fuel] T ws s m Hf Hfr Hend Hw HU [Hq Hwf [Hbl Hbb] Hc Hn] En Hd; cbn in Hf; [lia| |lia|]; cbn [process_rx_loop]; unfold read_from_mmds_or_tap, read_tap; rewrite En.
  { cbn [length] in Hend. rewrite Hend. cbn [lift]. rewrite bind_Done. do 2 eexists. exists []. split; [done|]. split; [constructor|]. split; [done|]. split; [done|]. cbn. by rewrite Hd. }
  rewrite (Hfr 0%nat f eq_refl). cbn [lift]. rewrite bind_Done. destruct (Hw O) as (Hready & HtU & Hdr & Htap). destruct (Htap f (Hfr 0%nat f eq_refl)) as [Hfb Hfl].
  set (buf := f ++ drop (length f) (r_buf s)). assert (Hbuf1 : buf_ok buf).
  { subst buf. split; [rewrite length_app, length_drop; lia|]. apply Forall_app. split; [done|by apply Forall_drop]. }
  assert (Etk : take (length f) buf = f) by apply take_app_length. pose proof Hbuf1 as [Hbl1 Hbb1].
  destruct (rate_limited_ok release (ws O) buf (length f) (r_limiter s) (r_queue s) m) as (d & rl & q & m1 & -> & Hwf1 & Hq1 & Hm1 & _ & Ht1); [done|lia|done..|]. rewrite Etk in Ht1.
  rewrite bind_Done. destruct d; cbn [negb].
  - match goal with |- context [process_rx_loop fuel _ ?s2 m1] => destruct (IH fuel (ns_time (rw_ns (ws O))) (fun i => ws (S i)) s2 m1) as (s' & m' & dl & -> & Htr & Hq' & Hm' & Hpre & Hall) end; try done.
    { lia. }
    { intros j g. apply (Hfr (S j)). }
    { by apply (rx_worlds_rest T). }
    exists s', m', (f :: dl). split; [done|]. split; [by apply (rx_trace_trans _ _ [f] q m1)|]. split; [done|]. split; [by apply (same_map_trans m m1)|].
    split; [by apply prefix_cons|]. intros E. by rewrite Hall.
  - do 2 eexists. exists []. split; [done|]. split; [done|]. split; [done|]. split; [done|]. unfold waiting_frame. cbn [r_deferred r_count r_buf app]. rewrite Etk. split; [|done]. by exists frames.
Qed.

End Transfer.
