(* ===== verification/NetMmds.v ===== *)
(** * The network device and the metadata service

    The network stack of [MmdsStack] as the frame service of the network device: the laws that
    [NetRuns] relies on hold of it, so that the theorems of [NetService] hold of a device with a
    metadata service.  An ARP request of the guest for the address of the service is answered
    through the two queues of the device in the handling of one event ([net_answers_arp]). *)

From Stdlib Require Import ZArith Lia.
From stdpp Require Import functions prelude gmap.
From S2P Require Import Prelude GuestMemory VirtioQueue QueueRuns Mmio RateLimiter VirtioPersist NetBytes PduLink NetMac PduIpv4 PduTcp TcpConnection TcpStream Http TcpEndpoint TcpHandler MmdsStack NetDevice NetRuns NetService NetTransfer.

(** What the world decides while the stack runs: the order of its maps, the answers to
    requests, the initial sequence number and the clock, which is at [mw_end] when it returns. *)
Record MmdsWorld `{Http} := mkMmdsWorld {
  mw_order : Order;
  mw_callback : Request -> Response;
  mw_isn : Z;
  mw_clock : nat -> Z;
  mw_end : Z
}.

Section Mmds.
Context `{Profile} `{HttpLaws}.

#[export] Instance mmds_frames : FrameService MmdsWorld MmdsNetworkStack := {
  NsState := MmdsNetworkStackState;
  ns_new := stack_new_with_defaults;
  ns_set_ipv4_addr := set_ipv4_addr;
  ns_detour_frame w n frame := detour_frame (mw_order w) n frame (mw_callback w) (mw_isn w) (mw_clock w);
  ns_write_next_frame w n buf := write_next_frame (mw_order w) n buf (mw_clock w);
  ns_save := stack_save;
  ns_restore := stack_restore
}.

Definition mmds_ready (T : Z) (w : MmdsWorld) : Prop :=
  callback_ok (mw_callback w) /\ in_range 32 (mw_isn w) /\ clock_ok T (mw_end w) (mw_clock w) /\ mw_end w < 2 ^ 63.

#[export, refine] Instance mmds_frames_laws : FrameServiceLaws MmdsWorld MmdsNetworkStack := {
  ns_inv := stack_ok;
  ns_time := mw_end;
  ns_ready := mmds_ready
}.
Proof.
  - intros T w (_ & _ & Hc & _). pose proof (clock_range _ _ _ 0 Hc). lia.
  - apply stack_ok_mono.
  - intros T w s frame Hs (Hcb & Hi & Hc & Ht) Hb. destruct (detour_ok (mw_order w) T (mw_end w) s frame (mw_callback w) (mw_isn w) (mw_clock w) Hcb Hs Hb Hc Ht Hi) as [?|(b & n' & E & Hn & _)];
      [by left|right; by exists b, n'].
  - intros T w s buf Hs (Hcb & Hi & Hc & Ht) Hb Hl.
    destruct (write_next_frame_ok (mw_order w) T (mw_end w) s buf (mw_clock w) Hs Hb) as (r & n' & buf' & E & Hn & [Hlen Hbb Hf _ _]); [|done|done|].
    { unfold slen, MAX_FRAME_BUFFER, MAX_IP_BUFFER. rewrite Hl. unfold MAX_BUFFER_SIZE, vnet_hdr_len. lia. }
    exists r, n', buf'. split; [done|]. split; [done|]. split; [unfold slen in Hlen; lia|]. split; [done|]. intros len Er. destruct (Hf len Er) as [Hlr _]. unfold slen in Hlr. lia.
Defined.

Context {M : Type} `{GuestMemory M}.
Context (release : overflow_checks = false).
Implicit Types (n : Net MmdsNetworkStack) (m : M) (q : Queue).

(** ** Requests for the address of the service *)

(** The frame that answers. *)
Definition arp_reply (s : MmdsNetworkStack) (sha : MacAddr) (spa : Z) : list Z :=
  replicate vnet_hdr_len 0 ++ eth_layout sha (mac_addr s) ETHERTYPE_ARP (arp_layout OPER_REPLY (mac_addr s) (ipv4_addr s) sha spa).

(** The reply is written after an empty header, and nothing follows it. *)
Lemma read_reply T w st spa t buf : stack_ok T st -> pending_arp_reply_dest st = Some spa -> buf_ok buf ->
  exists buf', read_from_mmds_or_tap (w : RxWorld M MmdsWorld) (Some st) t buf = Ret (Ok (vnet_hdr_len + 42)%nat, Some (stack_with_pending st None), t, buf') /\ buf_ok buf' /\
    take (vnet_hdr_len + 42) buf' = arp_reply st (remote_mac_addr st) spa.
Proof.
  intros Hst Hp [Hl Hb]. unfold read_from_mmds_or_tap, frame_bytes_from_buf. rewrite (proj2 (Nat.ltb_ge _ _)) by (rewrite Hl; unfold MAX_BUFFER_SIZE, vnet_hdr_len; lia).
  cbn [ns_write_next_frame mmds_frames]. unfold write_next_frame. rewrite Hp.
  destruct (write_arp_ok T st spa (drop vnet_hdr_len buf) Hst Hp) as (body & -> & Elen & Hbb & Et); [unfold slen; rewrite length_drop, Hl; unfold MAX_BUFFER_SIZE, vnet_hdr_len; lia|].
  rewrite !bind_Ret. unfold slen in Elen. rewrite length_drop in Elen. unfold init_vnet_hdr.
  rewrite slice_rest_ok by (rewrite length_app, length_take; unfold MAX_BUFFER_SIZE, vnet_hdr_len in *; lia). rewrite !bind_Ret. eexists. split; [done|].
  assert (Ebody : drop vnet_hdr_len (take vnet_hdr_len buf ++ body) = body).
  { apply drop_app_length'. rewrite length_take, Hl. unfold MAX_BUFFER_SIZE, vnet_hdr_len. lia. }
  rewrite Ebody. split.
  - split; [rewrite length_app, length_replicate; unfold MAX_BUFFER_SIZE, vnet_hdr_len in *; lia|].
    apply Forall_app. split; [apply Forall_replicate; unfold byte_ok; lia|]. by apply Hbb, Forall_drop.
  - rewrite take_app_ge by (rewrite length_replicate; lia). rewrite length_replicate. replace (vnet_hdr_len + 42 - vnet_hdr_len)%nat with 42%nat by lia. by rewrite Et.
Qed.

Lemma read_idle w st t buf : pending_arp_reply_dest st = None -> handler_next_segment_status (tcp_handler st) = Nothing -> rw_tap w = Err EAGAIN -> length buf = MAX_BUFFER_SIZE ->
  read_from_mmds_or_tap (w : RxWorld M MmdsWorld) (Some st) t buf = Ret (Err (NetIO EAGAIN), Some st, t, buf).
Proof.
  intros Hp Hh Ht Hl. unfold read_from_mmds_or_tap, frame_bytes_from_buf. rewrite (proj2 (Nat.ltb_ge _ _)) by (rewrite Hl; unfold MAX_BUFFER_SIZE, vnet_hdr_len; lia).
  cbn [ns_write_next_frame mmds_frames]. unfold write_next_frame. rewrite Hp, Hh, bind_Ret. unfold read_tap. rewrite Ht. by rewrite take_drop.
Qed.

Lemma rx_loop_reply fuel T ws s m st spa : (1 < fuel)%nat -> receiving_ok T s m -> (forall i, drives_map (rw_drive (ws i))) -> rw_tap (ws 1%nat) = Err EAGAIN ->
  r_ns s = Some st -> r_deferred s = false -> pending_arp_reply_dest st = Some spa -> handler_next_segment_status (tcp_handler st) = Nothing ->
  exists s' m' dl, process_rx_loop fuel ws s m = Done (Ok tt, s', m') /\ rx_trace (r_queue s) m dl (r_queue s') m' /\ queue_ok (r_queue s') m' /\ same_map m m' /\
    r_tap s' = r_tap s /\ dl ++ waiting_frame (r_deferred s') (r_count s') (r_buf s') = [arp_reply st (remote_mac_addr st) spa].
Proof.
  intros Hf [Hq Hwf Hbuf Hc Hn] Hdr Ht Es Hd Hp Hh. destruct fuel as [|[|fuel]]; [lia|lia|]. cbn [process_rx_loop]. rewrite Es.
  destruct (read_reply T (ws O) st spa (r_tap s) (r_buf s) (Hn st Es) Hp Hbuf) as (buf & -> & [Hl Hb] & Etk). cbn [lift]. rewrite bind_Done.
  destruct (rate_limited_ok release (ws O) buf (vnet_hdr_len + 42) (r_limiter s) (r_queue s) m) as (d & rl & q & m1 & -> & Hwf1 & Hq1 & Hm1 & _ & Ht1);
    [done|rewrite Hl; unfold MAX_BUFFER_SIZE, vnet_hdr_len; lia|unfold MAX_BUFFER_SIZE, vnet_hdr_len; lia|done|done|done|]. rewrite Etk in Ht1.
  rewrite bind_Done. destruct d; cbn [negb].
  - cbn [r_ns r_buf r_tap r_limiter r_queue r_deferred]. rewrite read_idle by done. cbn [lift]. rewrite bind_Done. do 2 eexists. exists [arp_reply st (remote_mac_addr st) spa].
    split; [done|]. split; [done|]. split; [done|]. split; [done|]. split; [done|]. cbn. by rewrite Hd.
  - do 2 eexists. exists []. split; [done|]. split; [done|]. split; [done|]. split; [done|]. split; [done|]. unfold waiting_frame. cbn [r_deferred r_count r_buf app]. by rewrite Etk.
Qed.

(** A chain with a request for the address of the service. *)
Record arp_chain m p (st : MmdsNetworkStack) (sha : MacAddr) (spa : Z) : Prop := {
  ac_one : waiting p m 1;
  ac_apart : forall x, used_area p x -> ~ rings p x;
  ac_frame : exists head iovec count header dst src tha, chain p m 0 = Some head /\ collect (chain_fuel head) m [] 0 head = Done (iovec, count) /\
    read_frame m iovec [] = Ret (header ++ arp_request_frame dst src sha spa tha (ipv4_addr st)) /\ length header = vnet_hdr_len /\
    slen dst = 6 /\ slen src = 6 /\ slen tha = 6
}.

(** The service takes the request. *)
Lemma tx_loop_request fuel T ws mac s m st sha spa : (1 < fuel)%nat -> (forall i m, tw_drive (ws i) m = m) -> queue_ok (t_queue s) m -> unlimited (t_limiter s) ->
  t_ns s = Some st -> stack_ok T st -> mac_ok sha -> in_range 32 spa -> arp_chain m (t_queue s) st sha spa ->
  exists m' frame, process_tx_loop fuel ws mac false s m =
      Done (Ok tt, mkSending (advance (t_queue s) 1) (t_limiter s) (t_tap s) (Some (stack_with_pending (stack_with_remote_mac st sha) (Some spa))) true, m') /\
    tx_trace (t_queue s) m [(frame, ToMmds)] (advance (t_queue s) 1) m' /\ same_map m m'.
Proof.
  intros Hf Hdr Hq Hu Es Hst [Hsh _] Hsp [Hw Hap (head & iov & count & header & dst & src & tha & Eh & Ec & Er & Hhl & Hd & Hs & Hth)]. destruct fuel as [|[|fuel]]; [lia|lia|]. cbn [process_tx_loop].
  rewrite (take_waiting (tw_drive (ws O)) (t_queue s) m 1 (Hdr O) Hq Hw Hap head Eh). cbn [lift]. rewrite bind_Done, unlimited_consume by done. cbn [lift]. rewrite bind_Done. cbn [fst snd negb].
  rewrite Ec, bind_Done. cbn [fst snd]. rewrite unlimited_consume by done. cbn [lift]. rewrite bind_Done. cbn [fst snd negb]. rewrite Er. cbn [lift]. rewrite bind_Done.
  assert (Ef : forall l, frame_bytes_from_buf (header ++ l) = Ok l) by (intros l; unfold frame_bytes_from_buf; by rewrite (proj2 (Nat.ltb_ge _ _)), drop_app_length' by (rewrite ?length_app; lia)).
  unfold write_to_mmds_or_tap. rewrite Es, Ef. cbn [ns_detour_frame mmds_frames]. rewrite detour_request by (done || apply Hst). rewrite bind_Done.
  rewrite unlimited_replenish by done. cbn [lift]. rewrite bind_Done, unlimited_replenish by done. cbn [lift]. rewrite !bind_Done. cbn [andb negb].
  unfold chain in Eh. rewrite Z.add_0_r in Eh. destruct (pending_fields _ m _ head Eh) as (_ & _ & _ & Hi).
  assert (Hq1 : queue_ok (popped (t_queue s)) m) by (by apply with_next_avail_ok; [|apply wadd_range]).
  destruct (add_used_step (popped (t_queue s)) m (dc_index head) 0 Hq1 Hi) as (m2 & Ea & Hag & He & _); [unfold in_range; lia|]. rewrite Ea. cbn [lift]. rewrite bind_Done.
  assert (Hm2 : same_map m m2) by by destruct Hag. change (with_next_used _ _) with (advance (t_queue s) 1) in *.
  assert (Hq2 : queue_ok (advance (t_queue s) 1) m2) by (apply (queue_ok_mem _ m); [|done]; destruct Hq1; split; try done; by apply wadd_range).
  cbn [t_queue t_limiter t_tap t_ns process_rx_for_mmds].
  destruct (take_waiting (tw_drive (ws 1%nat)) (advance (t_queue s) 1) m2 0 (Hdr 1%nat) Hq2) as (m3 & -> & Hag3); [by apply (waiting_S _ m m2 0 _ Hq Hag)|done|].
  cbn [lift]. rewrite bind_Done. assert (Hm3 : same_map m2 m3) by by destruct Hag3. exists m3, (header ++ arp_request_frame dst src sha spa tha (ipv4_addr st)). split; [done|].
  split; [|by apply (same_map_trans m m2)]. eapply tx_send; [done|done|done|done|done|done|]. apply (tx_mem _ _ m3); [done|constructor].
Qed.

End Mmds.
