(* ===== verification/NetSamples.v ===== *)
(** * Examples of the network device

    A device with the metadata service and one without, with a chain in each queue: the theorems
    of [NetService], [NetTransfer] and [NetMmds] at concrete inputs. *)

From Stdlib Require Import ZArith Lia.
From stdpp Require Import functions prelude gmap.
From S2P Require Import Prelude GuestMemory VirtioQueue QueueRuns Mmio RateLimiter VirtioPersist NetBytes PduLink NetMac PduIpv4 PduTcp TcpConnection TcpStream Http TcpEndpoint TcpHandler MmdsStack NetDevice NetRuns NetService NetTransfer NetMmds.

Module NetSamples.
#[local] Existing Instances release_profile TcpEndpoint.sample_http TcpEndpoint.sample_http_laws.

(** Each queue has four entries.  The chain of the RX queue is the buffer at 512; that of the TX
    queue is at 256 and asks for the address of the service. *)
Definition descriptor (addr len flags next : Z) : list Z := le_encode 8 addr ++ le_encode 4 len ++ le_encode 2 flags ++ le_encode 2 next.
Definition request : list Z := replicate vnet_hdr_len 0 ++ arp_request_frame (replicate 6 255) guest_mac guest_mac 0xac100002 (replicate 6 0) DEFAULT_IPV4_ADDR.
Definition guest_queues (buffer : Z) (flags len : Z) : list Z := descriptor buffer len flags 0 ++ replicate 48 0 ++ le_encode 2 0 ++ le_encode 2 1 ++ replicate 60 0.
Definition guest : list Z := guest_queues 512 2 256 ++ guest_queues 256 0 54 ++ request ++ replicate 714 0.
Definition rx_queue : Queue := mkQueue 256 4 true 0 64 80 0 0 false 0.
Definition tx_queue : Queue := mkQueue 256 4 true 128 192 208 0 0 false 0.
Definition no_limits : RateLimiter := mkRateLimiter None None None false.

Definition sample_net (ns : option MmdsNetworkStack) : Net MmdsNetworkStack :=
  mkNet [] (mkTap 5 [] [] []) 0 0 [rx_queue; tx_queue] [1; 2] no_limits no_limits false 0 (replicate MAX_BUFFER_SIZE 0) 0 (replicate 6 0) None true 6 ns.

Definition quiet : MmdsWorld := mkMmdsWorld _ sample_order sample_callback 7 (fun _ => 0) 0.
Definition rx_world (frames : list (list Z)) (i : nat) : RxWorld (list Z) MmdsWorld :=
  mkRxWorld quiet (match frames !! i with Some f => Ok f | None => Err EAGAIN end) (mkClock 0 0) (mkClock 0 0) (fun _ m => m).
Definition tx_world (i : nat) : TxWorld (list Z) MmdsWorld := mkTxWorld quiet (mkClock 0 0) (mkClock 0 0) (fun m => m).
Definition event (frames : list (list Z)) : NetInput := mkNetInput 3 (rx_world frames 0) (rx_world frames) tx_world true true 1 3 4.

Lemma net_guest_backed a n : 0 <= a -> a + n <= 1024 -> backed guest a n.
Proof. intros Ha Hn x Hx. apply flat_backed. change (flat_size guest) with 1024. lia. Qed.

Lemma queues_ok : Forall (fun q => queue_ok q guest) [rx_queue; tx_queue].
Proof. repeat constructor; cbn; try (unfold in_range; lia); try done; apply net_guest_backed; lia. Qed.

Lemma stack_fine : stack_ok 0 sample_stack.
Proof. apply stack_run_ok, sr_new; [lia|apply sample_mac_ok|..]; unfold in_range, DEFAULT_IPV4_ADDR; simpl Z.pow; lia. Qed.

Lemma sample_net_ok ns : ns = None \/ ns = Some sample_stack -> net_ok 0 (sample_net ns) guest.
Proof.
  intros Hns. split; try done.
  - intros _. exact queues_ok.
  - split; [apply length_replicate|]. apply Forall_replicate. unfold byte_ok. lia.
  - cbn. lia.
  - intros s Es. cbn in Es. destruct Hns as [-> | ->]; [done|]. injection Es as <-. apply stack_fine.
Qed.

Lemma quiet_ready : mmds_ready 0 quiet.
Proof. split; [apply sample_callback_ok|]. split; [unfold in_range; cbn; lia|]. split; [by split; [|split; intros i; cbn]|cbn; lia]. Qed.

Definition small_frames (frames : list (list Z)) : Prop := Forall (fun f => bytes_ok f /\ (length f <= MAX_BUFFER_SIZE)%nat) frames.

Lemma rx_world_fine frames : small_frames frames -> rx_worlds 0 (rx_world frames) 0.
Proof.
  intros Hf i. split; [destruct i; apply quiet_ready|]. split; [done|]. split; [done|]. intros frame E. cbn in E.
  destruct (frames !! i) as [f|] eqn:Ei; [|done]. injection E as <-. by apply (Forall_lookup_1 _ _ _ _ Hf Ei).
Qed.

Lemma net_event_fine frames : small_frames frames -> input_ok 0 (event frames) 0.
Proof.
  intros Hf. split; [done|]. exists 0. split; [done|]. split; [done|]. split; [|by apply rx_world_fine].
  intros i. split; [destruct i; apply quiet_ready|]. done.
Qed.

Lemma tap_frame_small : small_frames [[1; 2; 3]].
Proof. apply Forall_singleton. split; [repeat constructor; unfold byte_ok; lia|apply Nat.leb_le; by vm_compute]. Qed.

(** The service answers, and a frame of the tap that comes then has to wait. *)
Definition sample_run : list NetOp := [NetEvent 2 (true, false) (event []); NetEvent 5 (true, false) (event [[1; 2; 3]])].

Lemma sample_run_fine : ops_ok 0 sample_run 0.
Proof. eapply ops_cons; [apply net_event_fine; constructor|]. eapply ops_cons; [apply net_event_fine, tap_frame_small|constructor]. Qed.

Lemma net_safe_witness : net_run sample_run (sample_net (Some sample_stack)) guest <> Crash.
Proof. apply (net_safe eq_refl sample_run 0 0); [apply sample_net_ok; by right|apply sample_run_fine]. Defined.


Lemma tx_apart x : used_area tx_queue x -> ~ rings tx_queue x.
Proof. unfold used_area, rings, span. cbn. lia. Qed.



Lemma request_chain : arp_chain guest tx_queue sample_stack guest_mac 0xac100002.
Proof.
  split; [exists 1; split; by vm_compute|exact tx_apart|].
  exists (mkDescriptorChain 128 4 4 0 256 54 0 0), [(256, 54)], 54, (replicate vnet_hdr_len 0), (replicate 6 255), guest_mac, (replicate 6 0).
  repeat (split; [by vm_compute|]). done.
Qed.

End NetSamples.
