(* ===== verification/NetPersist.v ===== *)
(** * Snapshots of the network device

    Models [devices/src/virtio/net/persist.rs], and the network device as a device of the
    transport ([Mmio.VirtioDevice]).  The frame that the device holds and the connections of
    the metadata service are not part of a snapshot; the device comes back with the MAC address
    of its configuration space, also if it had none ([net_restored]). *)

From Stdlib Require Import ZArith Lia.
From stdpp Require Import functions prelude.
From S2P Require Import Prelude GuestMemory VirtioQueue QueueRuns Mmio RateLimiter VirtioPersist NetBytes NetDevice.

(** The transport calls [write_config] with offsets below 2^12, for which it returns. *)
#[refine] Instance net_virtio {NS M : Type} `{Profile} (evt_ok : bool) : VirtioDevice (Net NS) M := {|
  avail_features := n_avail_features;
  acked_features := n_acked_features;
  set_acked_features n v := with_features n (n_avail_features n) v (n_activated n);
  device_type _ := TYPE_NET;
  queues := n_queues;
  set_queues n l := with_net_queues n l (n_irq_status n);
  is_activated := n_activated;
  activate n _ := net_activate evt_ok n;
  dev_reset n := (None, n);
  read_config := net_read_config;
  write_config n o l := match net_write_config n o l with Ret n => n | Panic => n end
|}.
Proof.
  all: try by intros.
  1-4: intros n o l; unfold net_write_config; destruct (config_write _ o l) as [[c|]|]; rewrite ?bind_Ret; try done; by destruct (MacAddr_from_bytes_unchecked _).
  1-2: intros n m; unfold net_activate; by destruct (net_has_feature _ _), evt_ok.
Defined.

Inductive NetRestoreError := CreateNet (e : NetError) | CreateRateLimiter (e : RestoreError unit) | NetVirtioState | NoMmdsDataStore.

(** [SS]: a saved network stack. *)
Record NetState (SS : Type) := mkNetState {
  ns_id : list Z;
  tap_if_name : list Z;
  rx_rate_limiter_state : RateLimiterState;
  tx_rate_limiter_state : RateLimiterState;
  ns_mmds : option SS;
  ns_config_mac : list Z;
  ns_virtio_state : VirtioDeviceState
}.
Arguments mkNetState {SS}. Arguments ns_id {SS}. Arguments tap_if_name {SS}. Arguments rx_rate_limiter_state {SS}. Arguments tx_rate_limiter_state {SS}.
Arguments ns_mmds {SS}. Arguments ns_config_mac {SS}. Arguments ns_virtio_state {SS}.

Section Persist.
Context {W NS M : Type} `{GuestMemory M} `{FrameService W NS} `{Profile}.
#[local] Instance net_dev : VirtioDevice (Net NS) M := net_virtio true.
Implicit Types (n : Net NS) (m : M).

(** [now_rx], [now_tx]: the clock when the buckets of the limiters are saved. *)
Definition net_save n (now_rx now_tx : Z * Z) : exec (NetState (NsState (W := W) (NS := NS))) :=
  mmds ← match mmds_ns n with Some s => st ← ns_save s; Ret (Some st) | None => Ret None end;
  Ret (mkNetState (n_id n) (iface_name n) (RateLimiter_save (rx_rate_limiter n) now_rx.1 now_rx.2) (RateLimiter_save (tx_rate_limiter n) now_tx.1 now_tx.2)
         mmds (n_config_mac n) (from_device n (n_irq_status n))).

Definition restored_net n (mmds : option NS) (queues : list Queue) (config : list Z) (mac : MacAddr) (v : VirtioDeviceState) : Net NS :=
  with_mac (with_ns (with_net_queues (with_features n (ds_avail_features v) (ds_acked_features v) (ds_activated v)) queues (ds_interrupt_status v)) mmds) config (Some mac).

(** [has_mmds]: whether there is a data store. *)
Definition net_restore m (has_mmds : bool) (s : NetState (NsState (W := W) (NS := NS))) (rx tx : LimiterHost) (h : TapHost) (ev : NetEvents)
    : exec (result (Net NS) NetRestoreError) :=
  r ← RateLimiter_restore (IoError := unit) (rx_rate_limiter_state s) (lh_ops rx) (lh_bw rx) (lh_timer rx);
  match r with
  | Err e => Ret (Err (CreateRateLimiter e))
  | Ok rx_limiter =>
      r ← RateLimiter_restore (IoError := unit) (tx_rate_limiter_state s) (lh_ops tx) (lh_bw tx) (lh_timer tx);
      match r with
      | Err e => Ret (Err (CreateRateLimiter e))
      | Ok tx_limiter =>
          match new_with_tap (ns_id s) (tap_if_name s) None rx_limiter tx_limiter h ev with
          | Err e => Ret (Err (CreateNet e))
          | Ok n =>
              mmds ← match ns_mmds s with
                     | Some st => if has_mmds then x ← ns_restore st; Ret (Ok (Some x)) else Ret (Err NoMmdsDataStore)
                     | None => Ret (Ok (mmds_ns n))
                     end;
              match mmds with
              | Err e => Ret (Err e)
              | Ok mmds =>
                  q ← build_queues_checked (ns_virtio_state s) m TYPE_NET NET_NUM_QUEUES NET_QUEUE_SIZE;
                  match q with
                  | Err _ => Ret (Err NetVirtioState)
                  | Ok queues =>
                      mac ← MacAddr_from_bytes_unchecked (take 6 (ns_config_mac s));
                      Ret (Ok (restored_net n mmds queues (ns_config_mac s) mac (ns_virtio_state s)))
                  end
              end
          end
      end
  end.

Lemma new_with_tap_fields id name rx tx h ev n0 : new_with_tap id name None rx tx h ev = Ok n0 ->
  n_id n0 = id /\ rx_rate_limiter n0 = rx /\ tx_rate_limiter n0 = tx /\ rx_deferred_frame n0 = false /\ (mmds_ns n0 : option NS) = None.
Proof.
  assert (Hinj : forall a b : Net NS, (Ok a : result _ NetError) = Ok b -> a = b) by by intros ? ? [= ->].
  unfold new_with_tap. destruct (open_named name h); [|done]. destruct (th_offload h); [|done]. destruct (th_hdr_size h); [|done]. destruct (ne_queues ev) as [[e0 e1]|]; [|done].
  destruct (negb (ne_irq ev)); [done|]. destruct (ne_activate ev); [|done]. intros <-%Hinj.
  by repeat split.
Qed.

(** What the guest sees of a device. *)
Definition net_visible n := (n_id n, n_queues n, n_avail_features n, n_acked_features n, n_irq_status n, n_activated n, n_config_mac n).

(** A device that is restored looks to the guest as the one that was saved, and has the stack
    that was saved; the frame it held is lost, and it has a MAC address of its own in any
    case. *)
Lemma net_restored n m now_rx now_tx s rx tx rx_limiter tx_limiter h ev n0 mmds : n_activated n = true -> length (n_queues n) = NET_NUM_QUEUES -> length (n_config_mac n) = 6%nat ->
  subfeatures (n_acked_features n) (n_avail_features n) -> in_range 64 (n_acked_features n) ->
  Forall (fun q => max_size q = NET_QUEUE_SIZE /\ q_size q <= NET_QUEUE_SIZE /\ uses_notif_suppression q = uses_suppression (n_acked_features n)) (n_queues n) -> all_valid (n_queues n) m = Ret true ->
  net_save n now_rx now_tx = Ret s ->
  RateLimiter_restore (rx_rate_limiter_state s) (lh_ops rx) (lh_bw rx) (lh_timer rx) = Ret (Ok rx_limiter) ->
  RateLimiter_restore (tx_rate_limiter_state s) (lh_ops tx) (lh_bw tx) (lh_timer tx) = Ret (Ok tx_limiter) ->
  new_with_tap (n_id n) (iface_name n) None rx_limiter tx_limiter h ev = Ok n0 ->
  match ns_mmds s with Some st => x ← ns_restore st; Ret (Some x) | None => Ret None end = Ret mmds ->
  exists n', net_restore m true s rx tx h ev = Ret (Ok n') /\ net_visible n' = net_visible n /\ mmds_ns n' = mmds /\ rx_deferred_frame n' = false /\ n_guest_mac n' = Some (n_config_mac n).
Proof.
  intros Ha Hl Hmac Hsub Hr Hq Hv Es Erx Etx En Em. apply bind_Ret_inv in Es as (st & _ & Es). injection Es as <-. cbn [rx_rate_limiter_state tx_rate_limiter_state ns_mmds] in *.
  destruct (new_with_tap_fields _ _ _ _ _ _ _ En) as (F1 & F2 & F3 & F4 & F5).
  unfold net_restore. cbn [rx_rate_limiter_state tx_rate_limiter_state ns_mmds ns_id tap_if_name ns_config_mac ns_virtio_state]. rewrite Erx, bind_Ret, Etx, bind_Ret, En, F5.
  assert (Eb : build_queues_checked (from_device n (n_irq_status n)) m TYPE_NET NET_NUM_QUEUES NET_QUEUE_SIZE = Ret (Ok (n_queues n))).
  { rewrite <-Hl. pose proof (queues_restored n (n_irq_status n) m NET_QUEUE_SIZE Hsub Hr) as E. cbn [queues net_dev net_virtio device_type is_activated acked_features] in E.
    etransitivity; [apply E; eapply Forall_impl; [exact Hq|]; intros q (? & _ & ?); by split|]. rewrite Ha.
    rewrite check_queues_all by (eapply Forall_impl; [exact Hq|]; intros q (? & ? & _); by split). by rewrite Hv, bind_Ret. }
  assert (Ec : MacAddr_from_bytes_unchecked (take 6 (n_config_mac n)) = Ret (n_config_mac n)).
  { destruct (n_config_mac n) as [|a [|b [|c [|d [|e [|f [|]]]]]]]; try done. }
  assert (Emm : match st with Some st0 => x ← ns_restore st0; Ret (Ok (Some x)) | None => Ret (Ok None) end = Ret (Ok mmds : result (option NS) NetRestoreError)).
  { destruct st as [st0|]; [|by injection Em as <-]. apply bind_Ret_inv in Em as (x & -> & [= <-]). by rewrite bind_Ret. }
  rewrite Emm, bind_Ret, Eb, bind_Ret, Ec, bind_Ret. eexists. split; [done|]. unfold net_visible. cbn. by rewrite F1, F4, Ha.
Qed.
End Persist.
