(* ===== verification/Vcpus.v ===== *)
(** * The threads of the virtual processors

    Models [vmm/src/vstate/vcpu/mod.rs] (with [run_arch_emulation] of [x86_64.rs] and the state
    machine of [utils/src/sm.rs]) and the part of [vmm/src/lib.rs] that controls the threads:
    [pause_vm], [resume_vm], [save_vcpu_states], [restore_vcpu_states], [stop] and the handling
    of the exit event.

    Each processor has a thread and two channels, of events and of responses.  A step of a
    thread is one action that others can see: a return from KVM, taking an event and answering
    it, writing the exit event, sending the final response.  Where the thread of the VMM waits
    or may be interrupted, a schedule says which steps the processors make meanwhile; a
    response that has not arrived by then counts as timed out.  What KVM returns is part of the
    schedule, but with [immediate_exit] set it is always EINTR.  The machine has its buses; the
    channels of a thread are closed only by its own end. *)

From Stdlib Require Import ZArith Lia.
From stdpp Require Import functions prelude.
From S2P Require Import Prelude Bus.

(** The values are those of the exit status. *)
Inductive FcExitCode := FcOk | GenericError | UnexpectedError | BadSyscall | SIGBUS | SIGSEGV | SIGXFSZ | SIGXCPU | SIGPIPE | SIGHUP | SIGILL | BadConfiguration | ArgParsing.
Definition exit_status (c : FcExitCode) : Z :=
  match c with
  | FcOk => 0 | GenericError => 1 | UnexpectedError => 2 | BadSyscall => 148 | SIGBUS => 149 | SIGSEGV => 150 | SIGXFSZ => 151 | SIGXCPU => 154
  | SIGPIPE => 155 | SIGHUP => 156 | SIGILL => 157 | BadConfiguration => 152 | ArgParsing => 153
  end.
#[export] Instance FcExitCode_eq_dec : EqDecision FcExitCode.
Proof. solve_decision. Defined.

(** What KVM returns ([kvm_ioctls::VcpuExit]). *)
Inductive KvmExit :=
| MmioRead (addr len : Z)
| MmioWrite (addr : Z) (data : list Z)
| IoIn (port len : Z)
| IoOut (port : Z) (data : list Z)
| Hlt
| KvmShutdown
| FailEntry
| InternalError
| SystemEvent (ty flags : Z)
| OtherExit.

Definition KVM_SYSTEM_EVENT_SHUTDOWN : Z := 1.
Definition KVM_SYSTEM_EVENT_RESET : Z := 2.
Definition EINTR : Z := 4.
Definition EAGAIN_ERRNO : Z := 11.

Inductive VcpuEmulation := Handled | Interrupted | EmuStopped.
Inductive VcpuError := FaultyKvmExit | UnhandledKvmExit.

(** [K]: a processor in the kernel, [St]: its saved state, [X]: errors of the ioctls. *)
Class KvmVcpu (K St X : Type) := {
  kvm_save_state : K -> result St X;
  kvm_restore_state : K -> St -> result unit X * K;
  (** The data of a read, given to the guest on the next entry. *)
  kvm_set_data : K -> list Z -> K
}.

Section Vcpus.
Context {K St X : Type} `{KvmVcpu K St X}.
Context {D S : Type} `{EqDecision D} `{BusDevice S} `{Profile}.

Inductive VcpuEvent := Finish | EvPause | EvResume | RestoreState (s : St) | SaveState.
Inductive VcpuResponse := RespError (e : X) | Exited (c : FcExitCode) | NotAllowed | Paused | Resumed | RestoredState | SavedState (s : St).

(** Where a thread is: before KVM_RUN, after an interruption, waiting for an event, about to
    report its exit, waiting to be told to finish, or at its end. *)
Inductive Phase := Running | Checking | PausedPhase | Exiting (c : FcExitCode) | ExitedPhase (c : FcExitCode) | Finished.

Record Vcpu := mkVcpu {
  phase : Phase;
  events : list VcpuEvent;
  responses : list VcpuResponse;
  immediate_exit : bool;
  kvm_vcpu : K
}.
Implicit Types v : Vcpu.

Definition with_phase v (p : Phase) : Vcpu := mkVcpu p (events v) (responses v) (immediate_exit v) (kvm_vcpu v).
Definition with_events v (l : list VcpuEvent) : Vcpu := mkVcpu (phase v) l (responses v) (immediate_exit v) (kvm_vcpu v).
Definition with_responses v (l : list VcpuResponse) : Vcpu := mkVcpu (phase v) (events v) l (immediate_exit v) (kvm_vcpu v).
Definition with_kvm v (k : K) : Vcpu := mkVcpu (phase v) (events v) (responses v) (immediate_exit v) k.
Definition with_immediate_exit v (b : bool) : Vcpu := mkVcpu (phase v) (events v) (responses v) b (kvm_vcpu v).
Definition respond v (r : VcpuResponse) : Vcpu := with_responses v (responses v ++ [r]).

(** The buses of a machine, with the states of the devices. *)
Record Buses := mkBuses { mmio_bus : Bus D; pio_bus : Bus D; store : D -> S }.
Implicit Types b : Buses.
Definition with_store b (s : D -> S) : Buses := mkBuses (mmio_bus b) (pio_bus b) s.

(** [run_emulation] with what KVM_RUN returned, a reason or an error number, and the
    [run_arch_emulation] of x86_64. *)
Definition run_emulation (exit : result KvmExit Z) (k : K) b : exec (result VcpuEmulation VcpuError * K * Buses) :=
  match exit with
  | Ok (MmioRead addr len) =>
      r ← Bus_read (mmio_bus b) (store b) addr (replicate (Z.to_nat len) 0);
      Ret (Ok Handled, kvm_set_data k r.1.2, with_store b r.2)
  | Ok (MmioWrite addr data) => r ← Bus_write (mmio_bus b) (store b) addr data; Ret (Ok Handled, k, with_store b r.2)
  | Ok (IoIn port len) =>
      r ← Bus_read (pio_bus b) (store b) port (replicate (Z.to_nat len) 0);
      Ret (Ok Handled, kvm_set_data k r.1.2, with_store b r.2)
  | Ok (IoOut port data) => r ← Bus_write (pio_bus b) (store b) port data; Ret (Ok Handled, k, with_store b r.2)
  | Ok Hlt | Ok KvmShutdown => Ret (Ok EmuStopped, k, b)
  | Ok FailEntry | Ok InternalError => Ret (Err FaultyKvmExit, k, b)
  | Ok (SystemEvent ty _) =>
      Ret (if (ty =? KVM_SYSTEM_EVENT_RESET) || (ty =? KVM_SYSTEM_EVENT_SHUTDOWN) then Ok EmuStopped else Err FaultyKvmExit, k, b)
  | Ok OtherExit => Ret (Err UnhandledKvmExit, k, b)
  | Err errno =>
      Ret (if errno =? EAGAIN_ERRNO then Ok Handled else if errno =? EINTR then Ok Interrupted else Err FaultyKvmExit, k, b)
  end.

(** [exit]: the exit event is written here, the rest are steps of their own. *)
Definition vcpu_exit v (c : FcExitCode) : Vcpu * bool := (with_phase v (Exiting c), true).

(** One round of the loop of [running]: KVM_RUN, and what its return leads to. *)
Definition running_emulate (exit : result KvmExit Z) (k : K) v b : exec (Vcpu * bool * Buses) :=
  let exit := if immediate_exit v then Err EINTR else exit in
  r ← run_emulation exit k b;
  let '(e, k, b) := r in
  let v := with_kvm v k in
  match e with
  | Ok Handled => Ret (v, false, b)
  | Ok Interrupted => Ret (with_phase (with_immediate_exit v false) Checking, false, b)
  | Ok EmuStopped => Ret (vcpu_exit v FcOk, b)
  | Err _ => Ret (vcpu_exit v GenericError, b)
  end.

(** The rest of [running]: [try_recv]. *)
Definition running_check v : Vcpu :=
  match events v with
  | [] => with_phase v Running
  | e :: l =>
      let v := with_events v l in
      match e with
      | EvPause => with_phase (respond v Paused) PausedPhase
      | EvResume => with_phase (respond v Resumed) Running
      | SaveState | RestoreState _ => with_phase (respond v NotAllowed) Running
      | Finish => with_phase v Finished
      end
  end.

(** [paused] waits while there is no event. *)
Definition paused v : Vcpu :=
  match events v with
  | [] => v
  | e :: l =>
      let v := with_events v l in
      match e with
      | EvResume => with_phase (respond v Resumed) Running
      | EvPause => respond v Paused
      | SaveState => respond v (match kvm_save_state (kvm_vcpu v) with Ok s => SavedState s | Err e => RespError e end)
      | RestoreState s =>
          let r := kvm_restore_state (kvm_vcpu v) s in
          respond (with_kvm v r.2) (match r.1 with Ok _ => RestoredState | Err e => RespError e end)
      | Finish => with_phase v Finished
      end
  end.

(** The loop of [exit]: only [Finish] ends it. *)
Definition exited v (c : FcExitCode) : Vcpu :=
  match events v with
  | [] => v
  | Finish :: l => with_phase (with_events v l) Finished
  | _ :: l => with_phase (with_events v l) (Exiting c)
  end.

(** A step of a thread, with what KVM_RUN returns if it is called; the second result says
    whether the exit event was written. *)
Definition vcpu_step (exit : result KvmExit Z) (k : K) v b : exec (Vcpu * bool * Buses) :=
  match phase v with
  | Running => running_emulate exit k v b
  | Checking => Ret (running_check v, false, b)
  | PausedPhase => Ret (paused v, false, b)
  | Exiting c => Ret (with_phase (respond v (Exited c)) (ExitedPhase c), false, b)
  | ExitedPhase c => Ret (exited v c, false, b)
  | Finished => Ret (v, false, b)
  end.

(** ** The thread of the VMM *)

Inductive VmState := NotStarted | VmPaused | VmRunning.

(** [exit_evt]: how often the exit event was written since it was read; [vcpus] are the threads
    with their handles. *)
Record Vmm := mkVmm {
  vcpus : list Vcpu;
  vm_state : VmState;
  exit_evt : Z;
  shutdown_exit_code : option FcExitCode;
  buses : Buses
}.
Implicit Types w : Vmm.

Definition with_vcpus w (l : list Vcpu) : Vmm := mkVmm l (vm_state w) (exit_evt w) (shutdown_exit_code w) (buses w).
Definition with_vm_state w (s : VmState) : Vmm := mkVmm (vcpus w) s (exit_evt w) (shutdown_exit_code w) (buses w).
Definition with_vmm_store w (s : D -> S) : Vmm := mkVmm (vcpus w) (vm_state w) (exit_evt w) (shutdown_exit_code w) (with_store (buses w) s).

(** Steps of processors: which one, and what KVM_RUN returns with. *)
Definition Sched : Type := list (nat * (result KvmExit Z * K)).

Fixpoint run_sched (l : Sched) w : exec Vmm :=
  match l with
  | [] => Ret w
  | (i, (exit, k)) :: l =>
      match vcpus w !! i with
      | None => run_sched l w
      | Some v =>
          r ← vcpu_step exit k v (buses w);
          let '(v, written, b) := r in
          run_sched l (mkVmm (<[i := v]> (vcpus w)) (vm_state w) (exit_evt w + (if written : bool then 1 else 0)) (shutdown_exit_code w) b)
      end
  end.

(** The schedule before each action of the VMM. *)
Abbreviation Scheds := (nat -> Sched).

(** [VcpuHandle::send_event]: the event is sent, then the thread is kicked.  [ok]: the signal
    could be sent.  The channel of a thread that has ended is closed. *)
Definition send_event (s s' : Sched) (ok : bool) (i : nat) (e : VcpuEvent) w : exec (result unit unit * Vmm) :=
  w ← run_sched s w;
  v ← unwrap (vcpus w !! i);
  match phase v with
  | Finished => Panic
  | _ =>
      let w := with_vcpus w (<[i := with_events v (events v ++ [e])]> (vcpus w)) in
      w ← run_sched s' w;
      if negb ok then Ret (Err tt, w)
      else
        v ← unwrap (vcpus w !! i);
        Ret (Ok tt, with_vcpus w (<[i := with_immediate_exit v true]> (vcpus w)))
  end.

(** [try_for_each] over the handles [i], [i + 1], ... with the events for them. *)
Fixpoint send_events (ss : Scheds) (ok : nat -> bool) (i : nat) (l : list VcpuEvent) w : exec (result unit unit * Vmm) :=
  match l with
  | [] => Ret (Ok tt, w)
  | e :: l =>
      r ← send_event (ss (2 * i)%nat) (ss (2 * i + 1)%nat) (ok i) i e w;
      match r with
      | (Err _, w) => Ret (Err tt, w)
      | (Ok _, w) => send_events ss ok (Datatypes.S i) l w
      end
  end.

(** [recv_timeout]: what has arrived when the steps of [s] are done. *)
Definition recv_timeout (s : Sched) (i : nat) w : exec (option VcpuResponse * Vmm) :=
  w ← run_sched s w;
  v ← unwrap (vcpus w !! i);
  match responses v with
  | [] => Ret (None, w)
  | r :: l => Ret (Some r, with_vcpus w (<[i := with_responses v l]> (vcpus w)))
  end.

(** [any] over [n] handles from [i] on: the first response that is not [good] ends it. *)
Fixpoint any_unexpected (good : VcpuResponse -> bool) (ss : Scheds) (n i : nat) w : exec (bool * Vmm) :=
  match n with
  | O => Ret (false, w)
  | Datatypes.S n =>
      r ← recv_timeout (ss i) i w;
      match r with
      | (Some x, w) => if good x then any_unexpected good ss n (Datatypes.S i) w else Ret (true, w)
      | (None, w) => Ret (true, w)
      end
  end.

(** [collect] over [n] handles from [i] on: the first time-out ends it. *)
Fixpoint collect_responses (ss : Scheds) (n i : nat) (acc : list VcpuResponse) w : exec (option (list VcpuResponse) * Vmm) :=
  match n with
  | O => Ret (Some acc, w)
  | Datatypes.S n =>
      r ← recv_timeout (ss i) i w;
      match r with
      | (Some x, w) => collect_responses ss n (Datatypes.S i) (acc ++ [x]) w
      | (None, w) => Ret (None, w)
      end
  end.

Inductive VmmError := VcpuMessage.

Definition is_paused (r : VcpuResponse) : bool := match r with Paused => true | _ => false end.
Definition is_resumed (r : VcpuResponse) : bool := match r with Resumed => true | _ => false end.

(** [send], [recv]: the schedules while events are sent and responses awaited. *)
Definition pause_vm (send recv : Scheds) (ok : nat -> bool) w : exec (result unit VmmError * Vmm) :=
  r ← send_events send ok 0 (replicate (length (vcpus w)) EvPause) w;
  match r with
  | (Err _, w) => Ret (Err VcpuMessage, w)
  | (Ok _, w) =>
      r ← any_unexpected is_paused recv (length (vcpus w)) 0 w;
      if (r.1 : bool) then Ret (Err VcpuMessage, r.2) else Ret (Ok tt, with_vm_state r.2 VmPaused)
  end.

(** [kick]: the effect of [kick_devices] on the devices. *)
Definition resume_vm (kick : (D -> S) -> D -> S) (send recv : Scheds) (ok : nat -> bool) w : exec (result unit VmmError * Vmm) :=
  let w := with_vmm_store w (kick (store (buses w))) in
  r ← send_events send ok 0 (replicate (length (vcpus w)) EvResume) w;
  match r with
  | (Err _, w) => Ret (Err VcpuMessage, w)
  | (Ok _, w) =>
      r ← any_unexpected is_resumed recv (length (vcpus w)) 0 w;
      if (r.1 : bool) then Ret (Err VcpuMessage, r.2) else Ret (Ok tt, with_vm_state r.2 VmRunning)
  end.

Inductive MicrovmStateError := InvalidInput | StateNotAllowed | RestoreVcpuState (e : X) | SaveVcpuState (e : X) | SignalVcpu | UnexpectedVcpuResponse.

(** The first response that is not a saved state is the error. *)
Fixpoint saved_states (l : list VcpuResponse) : result (list St) MicrovmStateError :=
  match l with
  | [] => Ok []
  | r :: l =>
      match r with
      | SavedState s => match saved_states l with Ok ss => Ok (s :: ss) | Err e => Err e end
      | RespError e => Err (SaveVcpuState e)
      | NotAllowed => Err StateNotAllowed
      | _ => Err UnexpectedVcpuResponse
      end
  end.

Definition save_vcpu_states (send recv : Scheds) (ok : nat -> bool) w : exec (result (list St) MicrovmStateError * Vmm) :=
  r ← send_events send ok 0 (replicate (length (vcpus w)) SaveState) w;
  match r with
  | (Err _, w) => Ret (Err SignalVcpu, w)
  | (Ok _, w) =>
      r ← collect_responses recv (length (vcpus w)) 0 [] w;
      match r with
      | (None, w) => Ret (Err UnexpectedVcpuResponse, w)
      | (Some l, w) => Ret (saved_states l, w)
      end
  end.

Fixpoint all_restored (l : list VcpuResponse) : result unit MicrovmStateError :=
  match l with
  | [] => Ok tt
  | r :: l =>
      match r with
      | RestoredState => all_restored l
      | RespError e => Err (RestoreVcpuState e)
      | NotAllowed => Err StateNotAllowed
      | _ => Err UnexpectedVcpuResponse
      end
  end.

Definition restore_vcpu_states (send recv : Scheds) (ok : nat -> bool) (states : list St) w : exec (result unit MicrovmStateError * Vmm) :=
  if negb (length states =? length (vcpus w))%nat then Ret (Err InvalidInput, w)
  else
    r ← send_events send ok 0 (map RestoreState states) w;
    match r with
    | (Err _, w) => Ret (Err SignalVcpu, w)
    | (Ok _, w) =>
        r ← collect_responses recv (length (vcpus w)) 0 [] w;
        match r with
        | (None, w) => Ret (Err UnexpectedVcpuResponse, w)
        | (Some l, w) => Ret (all_restored l, w)
        end
    end.

(** ** Stopping *)

(** Sending [Finish] to [n] handles from [i] on; failures are only reported. *)
Fixpoint send_finish (ss : Scheds) (ok : nat -> bool) (n i : nat) w : exec Vmm :=
  match n with
  | O => Ret w
  | Datatypes.S n =>
      r ← send_event (ss (2 * i)%nat) (ss (2 * i + 1)%nat) (ok i) i Finish w;
      send_finish ss ok n (Datatypes.S i) r.2
  end.

(** [join] of the threads, in order: the steps of the schedule are all that happens. *)
Fixpoint join_all (ss : Scheds) (n i : nat) w : outcome Vmm :=
  match n with
  | O => Done w
  | Datatypes.S n =>
      w ← lift (run_sched (ss i) w);
      v ← lift (unwrap (vcpus w !! i));
      match phase v with
      | Finished => join_all ss n (Datatypes.S i) w
      | _ => Hang
      end
  end.

Definition vmm_stop (send join : Scheds) (ok : nat -> bool) (c : FcExitCode) w : outcome Vmm :=
  w ← lift (send_finish send ok (length (vcpus w)) 0 w);
  w ← join_all join (length (vcpus w)) 0 w;
  Done (mkVmm [] (vm_state w) (exit_evt w) (Some c) (buses w)).

(** [try_recv]: an empty channel of a thread that has ended is an error. *)
Definition try_recv (s : Sched) (i : nat) w : exec (option VcpuResponse * Vmm) :=
  r ← recv_timeout s i w;
  match r with
  | (None, w) =>
      v ← unwrap (vcpus w !! i);
      match phase v with Finished => Panic | _ => Ret (None, w) end
  | _ => Ret r
  end.

(** The handles are asked until one has an exit code. *)
Fixpoint find_exit_code (ss : Scheds) (n i : nat) w : exec (option FcExitCode * Vmm) :=
  match n with
  | O => Ret (None, w)
  | Datatypes.S n =>
      r ← try_recv (ss i) i w;
      match r with
      | (Some (Exited c), w) => Ret (Some c, w)
      | (_, w) => find_exit_code ss n (Datatypes.S i) w
      end
  end.

(** [process] for the exit event. *)
Definition vmm_process_exit (look send join : Scheds) (ok : nat -> bool) w : outcome Vmm :=
  let w := mkVmm (vcpus w) (vm_state w) 0 (shutdown_exit_code w) (buses w) in
  r ← lift (find_exit_code look (length (vcpus w)) 0 w);
  vmm_stop send join ok (default FcOk r.1) r.2.
End Vcpus.
Arguments VcpuEvent : clear implicits. Arguments VcpuResponse : clear implicits. Arguments Vcpu : clear implicits. Arguments Buses : clear implicits. Arguments Vmm : clear implicits.
