(* ===== verification/VcpuRuns.v ===== *)
(** * Runs of the virtual processors

    What the VMM can rely on when it controls the threads of [Vcpus], under every schedule.
    Each thread goes through the states of a protocol ([asked], [got]) from an event to its
    answer.  After a successful [pause_vm] all processors are paused, and no kick is lost: only a
    processor that has exited makes it fail ([pause_stops]); the same for [resume_vm]
    ([resume_restarts]).  Paused processors answer each for itself ([paused_exchange]). *)

From Stdlib Require Import ZArith Lia.
From stdpp Require Import functions prelude.
From S2P Require Import Prelude Bus Vcpus.

Section Runs.
Context {K St X : Type} `{KvmVcpu K St X}.
Context {D S : Type} `{EqDecision D} `{BusDevice S} `{Profile}.
Abbreviation Vcpu := (Vcpus.Vcpu K St X).
Abbreviation VcpuEvent := (Vcpus.VcpuEvent St).
Abbreviation VcpuResponse := (Vcpus.VcpuResponse St X).
Abbreviation Vmm := (Vcpus.Vmm K St X D S).
Abbreviation Buses := (Vcpus.Buses D S).
Implicit Types (v : Vcpu) (w : Vmm) (e : VcpuEvent) (r : VcpuResponse) (b : Buses).

(** ** Schedules *)

(** What KVM may return with: addresses have 64 bits, ports 16. *)
Definition exit_ok (x : result KvmExit Z) : Prop :=
  match x with
  | Ok (MmioRead addr _) | Ok (MmioWrite addr _) => in_range 64 addr
  | Ok (IoIn port _) | Ok (IoOut port _) => in_range 16 port
  | _ => True
  end.
Definition sched_ok (s : Sched) : Prop := Forall (fun x : nat * (result KvmExit Z * K) => exit_ok x.2.1) s.
Definition buses_ok b : Prop := bus_wf (mmio_bus b) /\ bus_wf (pio_bus b).

Lemma bus_access (bus : Bus D) (st : D -> S) addr data : bus_wf bus -> in_range 64 addr ->
  (exists f d st', Bus_read bus st addr data = Ret (f, d, st')) /\ exists f st', Bus_write bus st addr data = Ret (f, st').
Proof.
  intros Hwf Ha. pose proof (Bus_access_routes bus st addr data Hwf Ha) as Hr. destruct (owner bus addr) as [[offset x]|].
  - destruct Hr as (sr & sw & d & -> & -> & _). split; repeat eexists.
  - destruct Hr as [-> ->]. split; repeat eexists.
Qed.

Lemma emulation_returns x (k : K) b : exit_ok x -> buses_ok b -> exists em k' b', run_emulation x k b = Ret (em, k', b') /\ buses_ok b'.
Proof.
  intros Hx [Hm Hp]. assert (H16 : forall port, in_range 16 port -> in_range 64 port) by (unfold in_range; lia).
  destruct x as [[addr len|addr data|port len|port data| | | | |ty fl|]|errno]; cbn [run_emulation exit_ok] in *; try (do 3 eexists; split; [done|]; by split).
  - destruct (bus_access (mmio_bus b) (store b) addr (replicate (Z.to_nat len) 0) Hm Hx) as [(f & d & s & ->) _]. rewrite bind_Ret. do 3 eexists. split; [done|]. by split.
  - destruct (bus_access (mmio_bus b) (store b) addr data Hm Hx) as [_ (f & s & ->)]. rewrite bind_Ret. do 3 eexists. split; [done|]. by split.
  - destruct (bus_access (pio_bus b) (store b) port (replicate (Z.to_nat len) 0) Hp (H16 _ Hx)) as [(f & d & s & ->) _]. rewrite bind_Ret. do 3 eexists. split; [done|]. by split.
  - destruct (bus_access (pio_bus b) (store b) port data Hp (H16 _ Hx)) as [_ (f & s & ->)]. rewrite bind_Ret. do 3 eexists. split; [done|]. by split.
Qed.

(** A step of a thread never panics.  In KVM the channels stay as they are, and the next phase
    is the same, the check for events, or an exit. *)
Lemma step_returns x k v b : exit_ok x -> buses_ok b -> exists v' f b', vcpu_step x k v b = Ret (v', f, b') /\ buses_ok b' /\
  (phase v = Running -> events v' = events v /\ responses v' = responses v /\
     (phase v' = Running /\ immediate_exit v' = immediate_exit v /\ immediate_exit v = false \/ phase v' = Checking \/ exists c, phase v' = Exiting c /\ immediate_exit v = false)).
Proof.
  intros Hx Hb. unfold vcpu_step. destruct (phase v) eqn:Ep; try (do 3 eexists; split; [done|]; split; [done|]; done).
  unfold running_emulate. set (x' := if immediate_exit v then Err EINTR else x).
  assert (Hx' : exit_ok x') by (subst x'; by destruct (immediate_exit v)).
  destruct (emulation_returns x' k b Hx' Hb) as (em & k' & b' & E & Hb'). rewrite E, bind_Ret.
  destruct (immediate_exit v) eqn:Ei; subst x'; [injection E as <- <- <-; cbn|];
    [do 3 eexists; split; [done|]; split; [done|]; intros _; split; [done|]; split; [done|]; right; by left|].
  destruct em as [[]|]; do 3 eexists; (split; [done|]); (split; [done|]); intros _; (split; [done|]); (split; [done|]); cbn; rewrite ?Ep, ?Ei; eauto 6.
Qed.

(** What a step does. *)
Definition stepped v v' : Prop :=
  match phase v with
  | Running => events v' = events v /\ responses v' = responses v /\
      (phase v' = Running /\ immediate_exit v' = immediate_exit v /\ immediate_exit v = false \/ phase v' = Checking \/ exists c, phase v' = Exiting c /\ immediate_exit v = false)
  | Checking => v' = running_check v
  | PausedPhase => v' = paused v
  | Exiting c => v' = with_phase (respond v (Exited c)) (ExitedPhase c)
  | ExitedPhase c => v' = exited v c
  | Finished => v' = v
  end.

Lemma step_stepped x k v b v' f b' : exit_ok x -> buses_ok b -> vcpu_step x k v b = Ret (v', f, b') -> stepped v v'.
Proof.
  intros Hx Hb E. destruct (step_returns x k v b Hx Hb) as (v1 & f1 & b1 & E1 & _ & Hr). rewrite E in E1. injection E1 as <- <- <-.
  unfold stepped, vcpu_step in *. destruct (phase v) eqn:Ep; [by apply Hr|..]; by injection E as <- _ _.
Qed.

Definition stable (P : Vcpu -> Prop) : Prop := forall v v', P v -> stepped v v' -> P v'.

(** What is known of each processor, with usable buses. *)
Definition holds (P : nat -> Vcpu -> Prop) w : Prop := buses_ok (buses w) /\ forall i v, vcpus w !! i = Some v -> P i v.
(** The same processors and VM state as before. *)
Definition follows w w' : Prop := length (vcpus w') = length (vcpus w) /\ vm_state w' = vm_state w.

Lemma holds_insert P i v w : holds P w -> P i v -> holds P (with_vcpus w (<[i := v]> (vcpus w))).
Proof.
  intros [Hb Hw] Hv. split; [done|]. cbn. intros j u [(-> & -> & _)|[_ Hj]]%list_lookup_insert_Some; [done|by apply Hw].
Qed.

Lemma holds_weaken (P Q : nat -> Vcpu -> Prop) w : holds P w -> (forall i v, vcpus w !! i = Some v -> P i v -> Q i v) -> holds Q w.
Proof. intros [Hb Hw] HQ. split; [done|]. intros i v Hv. by apply HQ, Hw. Qed.

Lemma holds_lookup (P : nat -> Vcpu -> Prop) i w : holds P w -> (i < length (vcpus w))%nat -> exists v, vcpus w !! i = Some v /\ P i v.
Proof. intros [_ Hw] [v Hv]%lookup_lt_is_Some. exists v. split; [done|by apply Hw]. Qed.

(** Schedules do not panic and keep what every processor keeps. *)
Lemma run_sched_ok (P : nat -> Vcpu -> Prop) s w : sched_ok s -> (forall i, stable (P i)) -> holds P w ->
  exists w', run_sched s w = Ret w' /\ follows w w' /\ holds P w'.
Proof.
  intros Hs HP. revert w. induction s as [|[i [x k]] s IH]; intros w Hw; cbn [run_sched]; [by exists w|]. apply Forall_cons in Hs as [Hx Hs].
  destruct (vcpus w !! i) as [v|] eqn:Ev; [|by apply IH]. pose proof Hw as [Hb Hv]. destruct (step_returns x k v (buses w) Hx Hb) as (v' & f & b' & E & Hb' & _). rewrite E, bind_Ret.
  match goal with |- context [run_sched s ?w1] => destruct (IH Hs w1) as (w' & -> & [Hl Hst] & Hw') end.
  - assert (Hi : holds P (with_vcpus w (<[i := v']> (vcpus w)))); [|by split; [|apply Hi]]. apply holds_insert; [done|]. apply (HP i v); [by apply Hv|]. by apply (step_stepped x k v (buses w) v' f b').
  - exists w'. split; [done|]. split; [|done]. split; [|done]. rewrite Hl. cbn. by rewrite length_insert.
Qed.

(** The steps of processor [i] in a schedule, and what they achieve. *)
Fixpoint steps (i : nat) (s : @Sched K) : nat :=
  match s with
  | [] => 0
  | (j, _) :: s => (if decide (j = i) then 1 else 0) + steps i s
  end.

Lemma run_sched_progress (Q : nat -> Vcpu -> Prop) i n s w w' v : sched_ok s -> buses_ok (buses w) ->
  (forall n v v', Q n v -> stepped v v' -> Q (pred n) v') -> run_sched s w = Ret w' -> vcpus w !! i = Some v -> Q n v ->
  exists v', vcpus w' !! i = Some v' /\ Q (n - steps i s)%nat v'.
Proof.
  intros Hs Hb HQ. revert w v n Hb. induction s as [|[j [x k]] s IH]; intros w v n Hb E Hv Hn; cbn [run_sched] in E.
  { injection E as ->. exists v. split; [done|]. replace (n - steps i [])%nat with n by (cbn; lia). done. }
  apply Forall_cons in Hs as [Hx Hs]. destruct (vcpus w !! j) as [u|] eqn:Eu.
  - destruct (step_returns x k u (buses w) Hx Hb) as (u' & f & b' & Es & Hb' & _). rewrite Es, bind_Ret in E. destruct (decide (j = i)) as [-> |Hne].
    + replace (n - steps i ((i, (x, k)) :: s))%nat with (pred n - steps i s)%nat by (cbn; rewrite decide_True by done; lia). rewrite Hv in Eu. injection Eu as <-.
      refine (IH Hs _ u' _ _ E _ _); [done|by apply list_lookup_insert_eq; eapply lookup_lt_Some|]. apply (HQ n v); [done|]. by apply (step_stepped x k v (buses w) u' f b').
    + cbn [steps]. rewrite decide_False by done. refine (IH Hs _ v _ _ E _ _); [done| |done]. cbn. by rewrite list_lookup_insert_ne.
  - cbn [steps]. rewrite decide_False; [by apply (IH Hs w v n)|]. intros ->. congruence.
Qed.

(** ** The protocol *)

(** No event is under way; a processor that has exited has said so. *)
Definition quiet v : Prop :=
  events v = [] /\
  match phase v with
  | Running | Checking | PausedPhase | Exiting _ => responses v = []
  | ExitedPhase c => responses v = [Exited c]
  | Finished => False
  end.

Definition is_paused_phase v : Prop := phase v = PausedPhase /\ events v = [] /\ responses v = [].
Definition leaving v : Prop := (exists c, phase v = Exiting c \/ phase v = ExitedPhase c) /\ Finish ∉ events v.

(** The answers of a paused processor and of a running one. *)
Definition paused_answer e (k : K) r : Prop :=
  match e, r with
  | EvPause, Paused => True
  | SaveState, SavedState s => kvm_save_state k = Ok s
  | SaveState, RespError x => kvm_save_state k = Err x
  | RestoreState _, RestoredState | RestoreState _, RespError _ => True
  | _, _ => False
  end.
Definition running_answer e r : Prop :=
  match e, r with
  | EvResume, Resumed => True
  | SaveState, NotAllowed | RestoreState _, NotAllowed => True
  | _, _ => False
  end.

(** A processor that was sent [e] and whose response was not taken yet. *)
Inductive asked e : Vcpu -> Prop :=
| asked_waiting v : events v = [e] -> responses v = [] -> match phase v with ExitedPhase _ | Finished => False | _ => True end -> asked e v
| asked_reported v c : events v = [e] -> responses v = [Exited c] -> phase v = ExitedPhase c -> asked e v
| asked_ignored v c : events v = [] -> responses v = [Exited c] -> phase v = Exiting c -> asked e v
| asked_twice v c : events v = [] -> responses v = [Exited c; Exited c] -> phase v = ExitedPhase c -> asked e v
| asked_paused v r : events v = [] -> responses v = [r] -> phase v = PausedPhase -> paused_answer e (kvm_vcpu v) r -> asked e v
| asked_running v r : events v = [] -> responses v = [r] -> match phase v with Running | Checking | Exiting _ => True | _ => False end -> running_answer e r -> asked e v
| asked_exited v r c : events v = [] -> responses v = [r; Exited c] -> phase v = ExitedPhase c -> running_answer e r -> asked e v.

(** A processor whose response [r] to [e] was taken. *)
Inductive got e r : Vcpu -> Prop :=
| got_paused v : is_paused_phase v -> paused_answer e (kvm_vcpu v) r -> got e r v
| got_running v : quiet v -> phase v <> PausedPhase -> running_answer e r -> got e r v
| got_exited v c : r = Exited c -> leaving v -> got e r v.

Lemma quiet_stable : stable quiet.
Proof.
  intros v v' [He Hq] Hs. unfold stepped in Hs. unfold quiet. destruct (phase v) eqn:Ep; cbn in *.
  - destruct Hs as (E1 & E2 & [(-> & _)|[-> |(c & -> & _)]]); rewrite E1, E2; done.
  - subst v'. unfold running_check. rewrite He. done.
  - subst v'. unfold paused. rewrite He, Ep. done.
  - subst v'. cbn. rewrite He, Hq. done.
  - subst v'. unfold exited. rewrite He, Ep. done.
  - done.
Qed.

Lemma paused_stable : stable is_paused_phase.
Proof. intros v v' (Ep & He & Hr) Hs. unfold stepped in Hs. rewrite Ep in Hs. subst v'. unfold paused. by rewrite He. Qed.

Lemma leaving_stable : stable leaving.
Proof.
  intros v v' [[c Hc] Hf] Hs. unfold stepped in Hs. destruct Hc as [Ep|Ep]; rewrite Ep in Hs; subst v'; [split; [exists c; by right|done]|].
  unfold exited. destruct (events v) as [|e l] eqn:Ee; [split; [exists c; by right|by rewrite Ee]|]. apply not_elem_of_cons in Hf as [Hf1 Hf2].
  destruct e; (split; [exists c; by left|done]).
Qed.

Lemma asked_stable e : e <> Finish -> stable (asked e).
Proof.
  intros He v v' Ha Hs. unfold stepped in Hs. destruct Ha as [v Ev Er Hp|v c Ev Er Ep|v c Ev Er Ep|v c Ev Er Ep|v r Ev Er Ep Hr|v r Ev Er Hp Hr|v r c Ev Er Ep Hr].
  - destruct (phase v) eqn:Ep; try done.
    + destruct Hs as (E1 & E2 & E3). apply asked_waiting; [congruence|congruence|]. by destruct E3 as [(-> & _)|[-> |(c & -> & _)]].
    + subst v'. unfold running_check. rewrite Ev. destruct e; try done;
        [apply (asked_paused _ _ Paused); cbn; by rewrite ?Er|apply (asked_running _ _ Resumed); cbn; by rewrite ?Er|apply (asked_running _ _ NotAllowed); cbn; by rewrite ?Er..].
    + subst v'. unfold paused. rewrite Ev. destruct e as [| | |s|]; try done.
      * apply (asked_paused _ _ Paused); cbn; by rewrite ?Er.
      * apply (asked_running _ _ Resumed); cbn; by rewrite ?Er.
      * eapply asked_paused; [done|cbn; by rewrite Er|done|]. cbn. by destruct (kvm_restore_state _ _).1.
      * eapply asked_paused; [done|cbn; by rewrite Er|done|]. cbn. by destruct (kvm_save_state (kvm_vcpu v)) eqn:Es.
    + subst v'. apply (asked_reported _ _ c); cbn; by rewrite ?Er.
  - rewrite Ep in Hs. subst v'. unfold exited. rewrite Ev. destruct e; try done; by apply (asked_ignored _ _ c).
  - rewrite Ep in Hs. subst v'. apply (asked_twice _ _ c); cbn; by rewrite ?Er.
  - rewrite Ep in Hs. subst v'. unfold exited. rewrite Ev. by apply (asked_twice _ _ c).
  - rewrite Ep in Hs. subst v'. unfold paused. rewrite Ev. by apply (asked_paused _ _ r).
  - destruct (phase v) eqn:Ep; try done.
    + destruct Hs as (E1 & E2 & E3). apply (asked_running _ _ r); [congruence|congruence| |done]. by destruct E3 as [(-> & _)|[-> |(c & -> & _)]].
    + subst v'. unfold running_check. rewrite Ev. by apply (asked_running _ _ r).
    + subst v'. apply (asked_exited _ _ r c); cbn; by rewrite ?Er.
  - rewrite Ep in Hs. subst v'. unfold exited. rewrite Ev. by apply (asked_exited _ _ r c).
Qed.

Lemma got_stable e r : stable (got e r).
Proof.
  intros v v' Hg Hs. destruct Hg as [v Hp Ha|v Hq Hne Ha|v c Er Hl].
  - apply got_paused; [by apply (paused_stable v)|]. destruct Hp as (Ep & Ee & _). unfold stepped in Hs. rewrite Ep in Hs. subst v'. unfold paused. by rewrite Ee.
  - apply got_running; [by apply (quiet_stable v)| |done]. pose proof Hq as [Ee Hm]. unfold stepped in Hs. destruct (phase v) eqn:Ep.
    + by destruct Hs as (_ & _ & [(-> & _)|[-> |(c & -> & _)]]).
    + subst v'. unfold running_check. by rewrite Ee.
    + done.
    + by subst v'.
    + subst v'. unfold exited. rewrite Ee. by rewrite Ep.
    + done.
  - apply (got_exited _ _ _ c); [done|by apply (leaving_stable v)].
Qed.

(** Sending and receiving on a handle. *)
Lemma quiet_asked e v : quiet v -> asked e (with_events v (events v ++ [e])).
Proof.
  intros [Ee Hq]. destruct (phase v) as [| | |c|c|] eqn:Ep; try done; try (apply asked_waiting; cbn; [by rewrite Ee|done|by rewrite Ep]).
  apply (asked_reported _ _ c); cbn; [by rewrite Ee|done|done].
Qed.

Lemma asked_got e v r l : e <> Finish -> asked e v -> responses v = r :: l -> got e r (with_responses v l).
Proof.
  intros He Ha Er. destruct Ha as [v Ev Er' Hp|v c Ev Er' Ep|v c Ev Er' Ep|v c Ev Er' Ep|v r' Ev Er' Ep Hr|v r' Ev Er' Hp Hr|v r' c Ev Er' Ep Hr]; rewrite Er' in Er; try discriminate; injection Er as <- <-.
  - apply (got_exited _ _ _ c); [done|]. split; [exists c; by right|]. cbn. rewrite Ev. by apply not_elem_of_cons; split; [|apply not_elem_of_nil].
  - apply (got_exited _ _ _ c); [done|]. split; [exists c; by left|]. cbn. rewrite Ev. apply not_elem_of_nil.
  - apply (got_exited _ _ _ c); [done|]. split; [exists c; by right|]. cbn. rewrite Ev. apply not_elem_of_nil.
  - by apply got_paused.
  - apply got_running; [|cbn; by destruct (phase v)|done]. split; [done|]. cbn. by destruct (phase v).
  - apply got_running; [|cbn; by rewrite Ep|done]. split; [done|]. cbn. by rewrite Ep.
Qed.

(** ** Exchanges *)

(** A processor that will answer: the event is there, and the kick is not lost, since KVM_RUN
    returns at once while [immediate_exit] is set. *)
Definition pending v : Prop :=
  responses v <> [] \/
  exists e, events v = [e] /\ e <> Finish /\ (phase v = Running -> immediate_exit v = true) /\ match phase v with ExitedPhase _ | Finished => False | _ => True end.
(** An answer is there after [n] of its steps. *)
Definition due (n : nat) v : Prop := responses v <> [] \/ (1 <= n)%nat /\ phase v <> Running \/ (2 <= n)%nat.

Lemma responses_grow v v' : stepped v v' -> responses v <> [] -> responses v' <> [].
Proof.
  intros Hs Hr. assert (Happ : forall r, responses v ++ [r] <> []) by (intros r; by destruct (responses v)). unfold stepped in Hs. destruct (phase v) eqn:Ep.
  - destruct Hs as (_ & -> & _). done.
  - subst v'. unfold running_check. destruct (events v) as [|[] l]; cbn; auto.
  - subst v'. unfold paused. destruct (events v) as [|[] l]; cbn; auto.
  - subst v'. cbn. auto.
  - subst v'. unfold exited. destruct (events v) as [|[] l]; cbn; auto.
  - by subst v'.
Qed.

Lemma due_step n v v' : pending v -> due n v -> stepped v v' -> due (pred n) v'.
Proof.
  intros Hp Hd Hs. destruct (responses v) as [|r l] eqn:Er; [|left; apply (responses_grow v v' Hs); by rewrite Er]. destruct Hp as [Hp|(e & Ee & Hf & Hi & Hph)]; [by rewrite Er in Hp|].
  unfold due in Hd. rewrite Er in Hd. destruct Hd as [Hd|Hd]; [done|]. unfold stepped in Hs. destruct (phase v) eqn:Ep; try done.
  - destruct Hd as [[_ Hd]|Hd]; [done|]. destruct Hs as (_ & _ & [(_ & _ & Hs)|[Hs|(c & _ & Hs)]]); try (rewrite Hi in Hs by done; done). right. left. split; [lia|]. by rewrite Hs.
  - left. subst v'. unfold running_check. rewrite Ee. destruct e; cbn; by rewrite ?Er.
  - left. subst v'. unfold paused. rewrite Ee. destruct e; cbn; by rewrite ?Er.
  - left. subst v'. cbn. by rewrite Er.
Qed.

(** An event for each processor, and the answers: [Q] holds before, [A0] once an event was
    sent, [A] once the processor was kicked, and [R] when its response was taken. *)
Section Exchange.
Variables (f : nat -> VcpuEvent) (Q A0 A : nat -> Vcpu -> Prop) (R : nat -> VcpuResponse -> Vcpu -> Prop).
Hypothesis stable_Q : forall i, stable (Q i).
Hypothesis stable_A0 : forall i, stable (A0 i).
Hypothesis stable_A : forall i, stable (A i).
Hypothesis stable_R : forall i r, stable (R i r).
Hypothesis Q_open : forall i v, Q i v -> phase v <> Finished.
Hypothesis Q_A0 : forall i v, Q i v -> A0 i (with_events v (events v ++ [f i])).
Hypothesis A0_A : forall i v, A0 i v -> A i (with_immediate_exit v true).

Definition sent (i : nat) (B : Vcpu -> Prop) (j : nat) v : Prop := if decide (j < i)%nat then A j v else if decide (j = i) then B v else Q j v.

Lemma sent_stable i (B : Vcpu -> Prop) : stable B -> forall j, stable (sent i B j).
Proof. intros HB j v v'. unfold sent. repeat case_decide; [apply stable_A|apply HB|apply stable_Q]. Qed.

Lemma send_event_ok s s' ok i w : sched_ok s -> sched_ok s' -> (i < length (vcpus w))%nat -> holds (sent i (Q i)) w ->
  exists o w', send_event s s' ok i (f i) w = Ret (o, w') /\ follows w w' /\ (o = Ok tt <-> ok = true) /\ holds (sent i (if ok then A i else A0 i)) w'.
Proof.
  intros Hs Hs' Hi Hw. unfold send_event. destruct (run_sched_ok _ s w Hs (sent_stable i _ (stable_Q i)) Hw) as (w1 & -> & [Hl1 Hst1] & Hw1). rewrite bind_Ret.
  destruct (holds_lookup _ i w1 Hw1) as (v & Ev & Hv); [by rewrite Hl1|]. unfold sent in Hv. rewrite decide_False in Hv by lia. rewrite decide_True in Hv by done. rewrite Ev. cbn [unwrap]. rewrite bind_Ret.
  set (w2 := with_vcpus w1 _). assert (Hw2 : holds (sent i (A0 i)) w2).
  { split; [apply Hw1|]. cbn. intros j u [(<- & <- & _)|[Hne Hj]]%list_lookup_insert_Some.
    - unfold sent. rewrite decide_False by lia. rewrite decide_True by done. by apply Q_A0.
    - apply Hw1 in Hj. unfold sent in *. case_decide; [done|]. by rewrite decide_False in * by done. }
  destruct (run_sched_ok _ s' w2 Hs' (sent_stable i _ (stable_A0 i)) Hw2) as (w3 & E3 & [Hl3 Hst3] & Hw3).
  assert (Hf : follows w w3) by (split; [rewrite Hl3; cbn; by rewrite length_insert|by rewrite Hst3]).
  assert (Hph : phase v <> Finished) by by apply (Q_open i).
  destruct ok; cbn [negb].
  - destruct (holds_lookup _ i w3 Hw3) as (u & Eu & Hu); [by rewrite (proj1 Hf)|]. unfold sent in Hu. rewrite decide_False in Hu by lia. rewrite decide_True in Hu by done.
    exists (Ok tt), (with_vcpus w3 (<[i := with_immediate_exit u true]> (vcpus w3))). split; [destruct (phase v); try done; rewrite E3, bind_Ret, Eu; done|].
    split; [split; [cbn; rewrite length_insert; apply Hf|apply Hf]|]. split; [done|]. split; [apply Hw3|]. cbn. intros j u' [(<- & <- & _)|[Hne Hj]]%list_lookup_insert_Some.
    + unfold sent. rewrite decide_False by lia. rewrite decide_True by done. by apply A0_A.
    + apply Hw3 in Hj. unfold sent in *. case_decide; [done|]. by rewrite decide_False in * by done.
  - exists (Err tt), w3. split; [destruct (phase v); try done; by rewrite E3, bind_Ret|]. done.
Qed.

Lemma sent_next i w : holds (sent i (A i)) w -> holds (sent (Datatypes.S i) (Q (Datatypes.S i))) w.
Proof.
  intros Hw. apply (holds_weaken _ _ _ Hw). intros j v _. unfold sent. destruct (decide (j < i)%nat) as [Hlt|Hge]; [by rewrite decide_True by lia|].
  destruct (decide (j = i)) as [-> |Hne]; [by rewrite decide_True by lia|]. rewrite decide_False by lia. case_decide; [by subst j|done].
Qed.

Lemma send_events_ok ss ok n i w : (forall k, sched_ok (ss k)) -> length (vcpus w) = (i + n)%nat -> holds (sent i (Q i)) w ->
  exists o w', send_events ss ok i (f <$> seq i n) w = Ret (o, w') /\ follows w w' /\
    match o with Ok _ => holds A w' | Err _ => exists j, (j < i + n)%nat /\ ok j = false end.
Proof.
  intros Hs. revert i w. induction n as [|n IH]; intros i w Hl Hw.
  - exists (Ok tt), w. split; [done|]. split; [done|]. apply (holds_weaken _ _ _ Hw). intros j v Hj%lookup_lt_Some. unfold sent. by rewrite decide_True by lia.
  - cbn [seq fmap list_fmap send_events]. destruct (send_event_ok (ss (2 * i)%nat) (ss (2 * i + 1)%nat) (ok i) i w) as (o & w1 & E & [Hl1 Hst1] & Ho & Hw1); try done; [lia|].
    rewrite E, bind_Ret. destruct (ok i) eqn:Eok.
    + rewrite (proj2 Ho) by done. destruct (IH (Datatypes.S i) w1) as (o' & w' & E' & [Hl' Hst'] & Ho'); [lia|by apply sent_next|]. exists o', w'. split; [done|]. split; [split; congruence|].
      destruct o'; [done|]. destruct Ho' as (j & Hj & Hok). exists j. split; [lia|done].
    + destruct o as [[]|[]]; [by assert (false = true) by by apply Ho|]. exists (Err tt), w1. split; [done|]. split; [done|]. exists i. split; [lia|done].
Qed.

Hypothesis A_pending : forall i v, A i v -> pending v.
Hypothesis A_R : forall i v r l, A i v -> responses v = r :: l -> R i r (with_responses v l).

(** Responses were taken from the first [i] processors. *)
Definition taken (C : nat -> VcpuResponse -> Prop) (i j : nat) v : Prop := if decide (j < i)%nat then exists r, C j r /\ R j r v else A j v.

Lemma taken_stable C i j : stable (taken C i j).
Proof. intros v v'. unfold taken. case_decide; [|apply stable_A]. intros (r & Hc & Hr) Hs. exists r. split; [done|by apply (stable_R j r v)]. Qed.

Lemma recv_ok C s i w : sched_ok s -> (i < length (vcpus w))%nat -> holds (taken C i) w ->
  exists o w', recv_timeout s i w = Ret (o, w') /\ follows w w' /\
    match o with
    | None => (steps i s < 2)%nat
    | Some r => (exists v, vcpus w' !! i = Some v /\ R i r v) /\ forall C', (forall j x, (j < i)%nat -> C j x -> C' j x) -> C' i r -> holds (taken C' (Datatypes.S i)) w'
    end.
Proof.
  intros Hs Hi Hw. unfold recv_timeout. destruct (run_sched_ok _ s w Hs (taken_stable C i) Hw) as (w1 & E1 & [Hl1 Hst1] & Hw1). rewrite E1, bind_Ret.
  destruct (holds_lookup _ i w1 Hw1) as (v & Ev & Hv); [by rewrite Hl1|]. unfold taken in Hv. rewrite decide_False in Hv by lia. rewrite Ev. cbn [unwrap]. rewrite bind_Ret.
  destruct (responses v) as [|r l] eqn:Er.
  - exists None, w1. split; [done|]. split; [done|]. destruct (holds_lookup _ i w Hw Hi) as (v0 & Ev0 & Hv0). unfold taken in Hv0. rewrite decide_False in Hv0 by lia.
    destruct (run_sched_progress (fun n v => A i v /\ due n v) i 2 s w w1 v0 Hs (proj1 Hw)) as (v1 & Ev1 & _ & Hd); [|exact E1|exact Ev0|..].
    { intros n u u' [Ha Hd] Hst. split; [by apply (stable_A i u)|]. by apply (due_step n u); [apply (A_pending i)|..]. }
    { split; [done|]. right. right. lia. }
    rewrite Ev in Ev1. injection Ev1 as <-. destruct Hd as [Hd|[[Hd _]|Hd]]; [done|lia..].
  - exists (Some r), (with_vcpus w1 (<[i := with_responses v l]> (vcpus w1))). split; [done|]. split; [split; [cbn; by rewrite length_insert|done]|]. split.
    + exists (with_responses v l). split; [apply list_lookup_insert_eq; by rewrite Hl1|by apply A_R].
    + intros C' Hc Hr. split; [apply Hw1|]. cbn. intros j u [(<- & <- & _)|[Hne Hj]]%list_lookup_insert_Some; unfold taken.
      * rewrite decide_True by lia. exists r. split; [done|by apply A_R].
      * apply Hw1 in Hj. unfold taken in Hj. destruct (decide (j < i)%nat); [|by rewrite decide_False by lia]. rewrite decide_True by lia. destruct Hj as (x & Hx & HR). exists x. split; [by apply Hc|done].
Qed.

(** An unexpected response, or the time was too short. *)
Lemma any_unexpected_ok good ss n i w : (forall k, sched_ok (ss k)) -> length (vcpus w) = (i + n)%nat -> holds (taken (fun _ r => good r = true) i) w ->
  exists bad w', any_unexpected good ss n i w = Ret (bad, w') /\ follows w w' /\
    if bad : bool then (exists j, (j < i + n)%nat /\ (steps j (ss j) < 2)%nat) \/ (exists j v r, vcpus w' !! j = Some v /\ R j r v /\ good r = false)
    else holds (fun j v => exists r, good r = true /\ R j r v) w'.
Proof.
  intros Hs. revert i w. induction n as [|n IH]; intros i w Hl Hw.
  - exists false, w. split; [done|]. split; [done|]. apply (holds_weaken _ _ _ Hw). intros j v Hj%lookup_lt_Some. unfold taken. by rewrite decide_True by lia.
  - cbn [any_unexpected]. destruct (recv_ok (fun _ r => good r = true) (ss i) i w) as (o & w1 & -> & [Hl1 Hst1] & Ho); [done|lia|done|]. rewrite bind_Ret. destruct o as [r|].
    + destruct Ho as [(v & Ev & Hv) Hn]. destruct (good r) eqn:Eg.
      * destruct (IH (Datatypes.S i) w1) as (bad & w' & -> & [Hl' Hst'] & Hb); [lia|by apply Hn; [done|]|]. exists bad, w'. split; [done|]. split; [split; congruence|].
        destruct bad; [|done]. destruct Hb as [(j & Hj & Hlt)|Hb]; [left; exists j; split; [lia|done]|by right].
      * exists true, w1. split; [done|]. split; [done|]. right. by exists i, v, r.
    + exists true, w1. split; [done|]. split; [done|]. left. exists i. split; [lia|done].
Qed.

(** All responses, or the time was too short. *)
Lemma responses_ok ss n i acc w : (forall k, sched_ok (ss k)) -> length (vcpus w) = (i + n)%nat -> length acc = i -> holds (taken (fun j r => acc !! j = Some r) i) w ->
  exists o w', collect_responses ss n i acc w = Ret (o, w') /\ follows w w' /\
    match o with
    | None => exists j, (j < i + n)%nat /\ (steps j (ss j) < 2)%nat
    | Some l => length l = length (vcpus w') /\ holds (fun j v => exists r, l !! j = Some r /\ R j r v) w'
    end.
Proof.
  intros Hs. revert i acc w. induction n as [|n IH]; intros i acc w Hl Ha Hw.
  - exists (Some acc), w. split; [done|]. split; [done|]. split; [lia|]. apply (holds_weaken _ _ _ Hw). intros j v Hj%lookup_lt_Some. unfold taken. by rewrite decide_True by lia.
  - cbn [collect_responses]. destruct (recv_ok (fun j r => acc !! j = Some r) (ss i) i w) as (o & w1 & E & [Hl1 Hst1] & Ho); [done|lia|done|]. rewrite E, bind_Ret. destruct o as [r|].
    + destruct (IH (Datatypes.S i) (acc ++ [r]) w1) as (o' & w' & -> & [Hl' Hst'] & Ho'); [lia|rewrite length_app; cbn; lia| |].
      * apply (proj2 Ho); [intros j x _; apply lookup_app_l_Some|]. rewrite lookup_app_r by lia. by rewrite Ha, Nat.sub_diag.
      * exists o', w'. split; [done|]. split; [split; congruence|]. destruct o'; [done|]. destruct Ho' as (j & Hj & Hlt). exists j. split; [lia|done].
    + exists None, w1. split; [done|]. split; [done|]. exists i. split; [lia|done].
Qed.

End Exchange.

(** ** Pausing and resuming *)

Definition kicked e v : Prop := asked e v /\ (phase v = Running -> events v <> [] -> immediate_exit v = true).

Lemma asked_kicked e v : asked e v -> kicked e (with_immediate_exit v true).
Proof.
  intros Ha. split; [|done]. destruct Ha as [v Ev Er Hp|v c Ev Er Ep|v c Ev Er Ep|v c Ev Er Ep|v r Ev Er Ep Hr|v r Ev Er Hp Hr|v r c Ev Er Ep Hr].
  - by apply asked_waiting.
  - by apply (asked_reported _ _ c).
  - by apply (asked_ignored _ _ c).
  - by apply (asked_twice _ _ c).
  - by apply (asked_paused _ _ r).
  - by apply (asked_running _ _ r).
  - by apply (asked_exited _ _ r c).
Qed.

Lemma kicked_stable e : e <> Finish -> stable (kicked e).
Proof.
  intros He v v' [Ha Hk] Hs. split; [by apply (asked_stable e He v)|]. intros Ep' Hev. unfold stepped in Hs. destruct (phase v) eqn:Ep.
  - destruct Hs as (E1 & _ & [(_ & E2 & E3)|[E3|(c & E3 & _)]]); [|congruence..]. rewrite E1 in Hev. rewrite (Hk eq_refl Hev) in E3. done.
  - subst v'. assert (Hev' : events v = [] \/ events v = [e]) by (destruct Ha; auto). unfold running_check in Hev. destruct Hev' as [E|E]; rewrite E in Hev; [by cbn in Hev; rewrite E in Hev|by destruct e].
  - subst v'. assert (Hev' : events v = [] \/ events v = [e]) by (destruct Ha; auto). unfold paused in Ep', Hev. destruct Hev' as [E|E]; rewrite E in Ep', Hev; [congruence|by destruct e].
  - by subst v'.
  - subst v'. unfold exited in Ep'. by destruct (events v) as [|[] l]; rewrite ?Ep in Ep'.
  - subst v'. congruence.
Qed.

Lemma kicked_pending e v : e <> Finish -> kicked e v -> pending v.
Proof.
  intros He [Ha Hk]. destruct Ha as [v Ev Er Hp|v c Ev Er Ep|v c Ev Er Ep|v c Ev Er Ep|v r Ev Er Ep Hr|v r Ev Er Hp Hr|v r c Ev Er Ep Hr]; try (left; by rewrite Er).
  right. exists e. split; [done|]. split; [done|]. split; [|done]. intros Ep. apply Hk; [done|by rewrite Ev].
Qed.

Lemma paused_quiet v : is_paused_phase v -> quiet v.
Proof. intros (Ep & Ee & Er). split; [done|]. by rewrite Ep. Qed.

Lemma Forall_holds (P : Vcpu -> Prop) w : buses_ok (buses w) -> Forall P (vcpus w) -> holds (fun _ => P) w.
Proof. intros Hb Hw. split; [done|]. intros j v Hv. by apply (Forall_lookup_1 _ _ _ _ Hw Hv). Qed.
Lemma holds_Forall (P : Vcpu -> Prop) w : holds (fun _ => P) w -> Forall P (vcpus w).
Proof. intros [_ Hw]. apply Forall_lookup_2. intros j v Hv. by apply (Hw j). Qed.

(** An event [e] for all processors, from the state [quiet]. *)
Section Ask.
Variable e : VcpuEvent.
Hypothesis He : e <> Finish.

Lemma ask_all ss ok w : (forall k, sched_ok (ss k)) -> buses_ok (buses w) -> Forall quiet (vcpus w) ->
  exists o w', send_events ss ok 0 (replicate (length (vcpus w)) e) w = Ret (o, w') /\ follows w w' /\
    match o with Ok _ => holds (fun _ => kicked e) w' | Err _ => exists j, (j < length (vcpus w))%nat /\ ok j = false end.
Proof.
  intros Hs Hb Hw. assert (Hl : replicate (length (vcpus w)) e = (fun _ : nat => e) <$> seq 0 (length (vcpus w))).
  { generalize 0%nat. induction (length (vcpus w)) as [|n IH]; intros i; [done|]. cbn. f_equal. apply IH. }
  rewrite Hl. apply (send_events_ok (fun _ => e) (fun _ => quiet) (fun _ => asked e) (fun _ => kicked e)); auto using quiet_stable, asked_stable, kicked_stable, quiet_asked, asked_kicked.
  - intros j v [_ Hq] E. by rewrite E in Hq.
  - apply (holds_weaken _ _ _ (Forall_holds quiet w Hb Hw)). intros j v _ Hv. unfold sent. by repeat case_decide; [lia|..].
Qed.

Lemma hear_any good ss w : (forall k, sched_ok (ss k)) -> holds (fun _ => kicked e) w ->
  exists bad w', any_unexpected good ss (length (vcpus w)) 0 w = Ret (bad, w') /\ follows w w' /\
    if bad : bool then (exists j, (j < length (vcpus w))%nat /\ (steps j (ss j) < 2)%nat) \/ (exists j v r, vcpus w' !! j = Some v /\ got e r v /\ good r = false)
    else holds (fun j v => exists r, good r = true /\ got e r v) w'.
Proof.
  intros Hs Hw. apply (any_unexpected_ok (fun _ => kicked e) (fun _ => got e)); try done.
  - intros _. by apply kicked_stable.
  - intros _. apply got_stable.
  - intros _ v. by apply kicked_pending.
  - intros _ v r l [Ha _]. by apply asked_got.
Qed.

Lemma hear_all ss w : (forall k, sched_ok (ss k)) -> holds (fun _ => kicked e) w ->
  exists o w', collect_responses ss (length (vcpus w)) 0 [] w = Ret (o, w') /\ follows w w' /\
    match o with
    | None => exists j, (j < length (vcpus w))%nat /\ (steps j (ss j) < 2)%nat
    | Some l => length l = length (vcpus w') /\ holds (fun j v => exists r, l !! j = Some r /\ got e r v) w'
    end.
Proof.
  intros Hs Hw. apply (responses_ok (fun _ => kicked e) (fun _ => got e)); try done.
  - intros _. by apply kicked_stable.
  - intros _. apply got_stable.
  - intros _ v. by apply kicked_pending.
  - intros _ v r l [Ha _]. by apply asked_got.
Qed.
End Ask.

Definition fair (recv : nat -> Sched) (ok : nat -> bool) (n : nat) : Prop := forall i, (i < n)%nat -> ok i = true /\ (2 <= steps i (recv i))%nat.

(** C40: pausing from a state in which no event is under way never panics, whatever the
    processors do meanwhile.  When it succeeds the machine counts as paused and every
    processor waits, with nothing left in its channels.  If the signals can be sent and each
    processor gets two steps before its response is awaited, no kick is lost: only a processor
    that is on its way out makes it fail. *)
Theorem pause_stops send recv ok w : (forall k, sched_ok (send k)) -> (forall k, sched_ok (recv k)) -> buses_ok (buses w) -> Forall quiet (vcpus w) ->
  exists o w', pause_vm send recv ok w = Ret (o, w') /\ length (vcpus w') = length (vcpus w) /\
    (o = Ok tt -> vm_state w' = VmPaused /\ Forall is_paused_phase (vcpus w')) /\
    (o <> Ok tt -> vm_state w' = vm_state w) /\
    (fair recv ok (length (vcpus w)) -> o <> Ok tt -> Exists leaving (vcpus w')).
Proof.
  intros Hs Hr Hb Hw. unfold pause_vm. destruct (ask_all EvPause ltac:(done) send ok w Hs Hb Hw) as (o & w1 & -> & [Hl1 Hst1] & Ho). rewrite bind_Ret. destruct o as [[]|[]].
  - destruct (hear_any EvPause ltac:(done) is_paused recv w1 Hr Ho) as (bad & w2 & -> & [Hl2 Hst2] & Hbad). rewrite bind_Ret. cbn [fst snd]. destruct bad.
    + exists (Err VcpuMessage), w2. split; [done|]. split; [congruence|]. split; [done|]. split; [congruence|]. intros Hf _. destruct Hbad as [(j & Hj & Hlt)|(j & v & r & Hj & Hg & Hp)].
      * destruct (Hf j) as [_ Hf2]; [by rewrite <- Hl1|lia].
      * apply Exists_exists. exists v. split; [by eapply list_elem_of_lookup_2|]. destruct Hg as [v Hp' Ha|v Hq Hne Ha|v c Er Hlv]; [by destruct r|by destruct r|done].
    + exists (Ok tt), (with_vm_state w2 VmPaused). split; [done|]. split; [cbn; congruence|]. split; [|split; [done|done]]. intros _. split; [done|]. cbn. apply holds_Forall.
      apply (holds_weaken _ _ _ Hbad). intros j v _ (r & Hr' & Hg). destruct Hg as [v Hp' Ha|v Hq Hne Ha|v c Er Hlv]; [done|by destruct r|by subst r].
  - exists (Err VcpuMessage), w1. split; [done|]. split; [done|]. split; [done|]. split; [done|]. intros Hf _. destruct Ho as (j & Hj & Hok). destruct (Hf j Hj) as [Hf1 _]. congruence.
Qed.

(** Resuming succeeds only if every processor runs again; a processor may have left since. *)
Theorem resume_restarts kick send recv ok w : (forall k, sched_ok (send k)) -> (forall k, sched_ok (recv k)) -> buses_ok (buses w) -> Forall quiet (vcpus w) ->
  exists o w', resume_vm kick send recv ok w = Ret (o, w') /\
    (o = Ok tt -> vm_state w' = VmRunning /\ Forall (fun v => quiet v /\ phase v <> PausedPhase) (vcpus w')) /\
    (fair recv ok (length (vcpus w)) -> o <> Ok tt -> Exists leaving (vcpus w')).
Proof.
  intros Hs Hr Hb Hw. unfold resume_vm. cbn zeta. set (w0 := with_vmm_store w _). change (vcpus w) with (vcpus w0) in Hw |- *. assert (Hb0 : buses_ok (buses w0)) by done.
  destruct (ask_all EvResume ltac:(done) send ok w0 Hs Hb0 Hw) as (o & w1 & -> & [Hl1 Hst1] & Ho). rewrite bind_Ret. destruct o as [[]|[]].
  - destruct (hear_any EvResume ltac:(done) is_resumed recv w1 Hr Ho) as (bad & w2 & -> & [Hl2 Hst2] & Hbad). rewrite bind_Ret. cbn [fst snd]. destruct bad.
    + exists (Err VcpuMessage), w2. split; [done|]. split; [done|]. intros Hf _. destruct Hbad as [(j & Hj & Hlt)|(j & v & r & Hj & Hg & Hp)].
      * destruct (Hf j) as [_ Hf2]; [by rewrite <- Hl1|lia].
      * apply Exists_exists. exists v. split; [by eapply list_elem_of_lookup_2|]. destruct Hg as [v Hp' Ha|v Hq Hne Ha|v c Er Hlv]; [by destruct r|by destruct r|done].
    + exists (Ok tt), (with_vm_state w2 VmRunning). split; [done|]. split; [|done]. intros _. split; [done|]. cbn. apply holds_Forall.
      apply (holds_weaken _ _ _ Hbad). intros j v _ (r & Hr' & Hg). destruct Hg as [v Hp' Ha|v Hq Hne Ha|v c Er Hlv]; [by destruct r| |by subst r]. split; [done|]. intros E. by rewrite E in Hne.
  - exists (Err VcpuMessage), w1. split; [done|]. split; [done|]. intros Hf _. destruct Ho as (j & Hj & Hok). destruct (Hf j Hj) as [Hf1 _]. congruence.
Qed.

(** ** States of paused processors *)

(** What a paused processor answers and becomes. *)
Definition paused_reply e (k : K) : VcpuResponse * K :=
  match e with
  | SaveState => (match kvm_save_state k with Ok s => SavedState s | Err x => RespError x end, k)
  | RestoreState s => (match (kvm_restore_state k s).1 with Ok _ => RestoredState | Err x => RespError x end, (kvm_restore_state k s).2)
  | _ => (Paused, k)
  end.

Definition is_state_event e : Prop := match e with SaveState | RestoreState _ => True | _ => False end.

Section Paused.
Variables (f : nat -> VcpuEvent) (ks : list K).
Hypothesis f_state : forall i, is_state_event (f i).

Definition before (i : nat) v : Prop := is_paused_phase v /\ ks !! i = Some (kvm_vcpu v).
Definition during (i : nat) v : Prop :=
  phase v = PausedPhase /\ exists k, ks !! i = Some k /\
    (events v = [f i] /\ responses v = [] /\ kvm_vcpu v = k \/ events v = [] /\ responses v = [(paused_reply (f i) k).1] /\ kvm_vcpu v = (paused_reply (f i) k).2).
Definition afterwards (i : nat) (r : VcpuResponse) v : Prop :=
  is_paused_phase v /\ exists k, ks !! i = Some k /\ r = (paused_reply (f i) k).1 /\ kvm_vcpu v = (paused_reply (f i) k).2.

Lemma paused_step v v' : phase v = PausedPhase -> stepped v v' -> v' = paused v.
Proof. intros Ep Hs. unfold stepped in Hs. by rewrite Ep in Hs. Qed.

Lemma before_stable i : stable (before i).
Proof.
  intros v v' [Hp Hk] Hs. split; [by apply (paused_stable v)|]. destruct Hp as (Ep & Ee & _). apply paused_step in Hs as ->; [|done]. unfold paused. by rewrite Ee.
Qed.
Lemma during_stable i : stable (during i).
Proof.
  intros v v' (Ep & k & Hk & Hd) Hs. apply paused_step in Hs as ->; [|done]. unfold paused. destruct Hd as [(Ee & Er & Ek)|(Ee & Er & Ek)]; rewrite Ee; [|split; [done|]; exists k; split; [done|]; by right].
  pose proof (f_state i) as Hf. unfold during. destruct (f i) as [| | |s|] eqn:Ef; try done; (split; [done|]; exists k; split; [done|]; right); cbn; rewrite Er, Ek; done.
Qed.
Lemma afterwards_stable i r : stable (afterwards i r).
Proof.
  intros v v' [Hp (k & Hk)] Hs. split; [by apply (paused_stable v)|]. exists k. destruct Hp as (Ep & Ee & _). apply paused_step in Hs as ->; [|done]. unfold paused. by rewrite Ee.
Qed.

(** Each processor is asked once, answers for itself, and stays paused. *)
Lemma paused_exchange send recv ok w : (forall k, sched_ok (send k)) -> (forall k, sched_ok (recv k)) -> buses_ok (buses w) ->
  Forall is_paused_phase (vcpus w) -> ks = kvm_vcpu <$> vcpus w -> fair recv ok (length (vcpus w)) ->
  exists w1 w2, send_events send ok 0 (f <$> seq 0 (length (vcpus w))) w = Ret (Ok tt, w1) /\
    collect_responses recv (length (vcpus w1)) 0 [] w1 = Ret (Some (imap (fun i k => (paused_reply (f i) k).1) ks), w2) /\
    length (vcpus w1) = length (vcpus w) /\ buses_ok (buses w2) /\ Forall is_paused_phase (vcpus w2) /\ kvm_vcpu <$> vcpus w2 = imap (fun i k => (paused_reply (f i) k).2) ks.
Proof.
  intros Hs Hr Hb Hw Hks Hf. destruct (send_events_ok f before during during before_stable during_stable during_stable) with (ss := send) (ok := ok) (n := length (vcpus w)) (i := 0%nat) (w := w) as (o & w1 & E1 & [Hl1 Hst1] & Ho); try done.
  - by intros j v [(-> & _) _].
  - intros j v [(Ep & Ee & Er) Hk]. split; [done|]. exists (kvm_vcpu v). split; [done|]. left. cbn. by rewrite Ee.
  - split; [done|]. intros j v Hv. unfold sent. rewrite decide_False by lia. assert (Hq : before j v); [|by case_decide; [subst j|]]. split; [by apply (Forall_lookup_1 _ _ _ _ Hw Hv)|]. rewrite Hks. by rewrite list_lookup_fmap, Hv.
  - destruct o as [[]|[]]; [|destruct Ho as (j & Hj & Hok); destruct (Hf j Hj); congruence].
    destruct (responses_ok during afterwards during_stable afterwards_stable) with (ss := recv) (n := length (vcpus w1)) (i := 0%nat) (acc := @nil VcpuResponse) (w := w1) as (o & w2 & E2 & [Hl2 Hst2] & Ho2); try done.
    + intros j v (Ep & k & Hk & [(Ee & Er & Ek)|(Ee & Er & Ek)]); [|left; by rewrite Er]. right. exists (f j). split; [done|]. split; [|by rewrite Ep]. intros E. pose proof (f_state j) as Hfj. by rewrite E in Hfj.
    + intros j v r l (Ep & k & Hk & [(Ee & Er & Ek)|(Ee & Er & Ek)]) E; rewrite Er in E; [done|]. injection E as <- <-. split; [done|]. by exists k.
    + destruct o as [l|]; [|destruct Ho2 as (j & Hj & Hok); destruct (Hf j); [by rewrite <- Hl1|lia]]. destruct Ho2 as [Hlen Hh]. exists w1, w2.
      assert (Hlk : length ks = length (vcpus w2)) by (rewrite Hks, length_fmap; congruence).
      assert (Hat : forall j, (j < length (vcpus w2))%nat -> exists v k, vcpus w2 !! j = Some v /\ ks !! j = Some k /\ l !! j = Some (paused_reply (f j) k).1 /\ kvm_vcpu v = (paused_reply (f j) k).2).
      { intros j Hj. destruct (holds_lookup _ j w2 Hh Hj) as (v & Ev & r & El & _ & k & Hk & -> & Hkv). by exists v, k. }
      split; [done|]. split; [|split; [done|split; [apply Hh|split]]].
      * rewrite E2. do 3 f_equal. apply list_eq_same_length with (length (vcpus w2)); [by rewrite length_imap|done|].
        intros j x y Hj Hx Hy. destruct (Hat j Hj) as (v & k & _ & Hk & El & _). rewrite list_lookup_imap, Hk in Hy. cbn in Hy. congruence.
      * apply Forall_lookup_2. intros j v Hv. apply Hh in Hv as (r & _ & Hp & _). done.
      * apply list_eq_same_length with (length (vcpus w2)); [by rewrite length_imap|by rewrite length_fmap|].
        intros j x y Hj Hx Hy. destruct (Hat j Hj) as (v & k & Hv & Hk & _ & Ek). rewrite list_lookup_fmap, Hv in Hx. rewrite list_lookup_imap, Hk in Hy. cbn in Hx, Hy. congruence.
Qed.
End Paused.
End Runs.
