(* ===== verification/VcpuControl.v ===== *)
(** * Saving the virtual processors

    States are saved of paused processors only, and are theirs ([snapshot_of_paused]).  The
    examples run a machine of two processors; in one of them the exit code of a processor that
    failed is lost ([exit_code_lost]). *)

From Stdlib Require Import ZArith Lia.
From stdpp Require Import functions prelude.
From S2P Require Import Prelude Bus Vcpus VcpuRuns.

Section Control.
Context {K St X : Type} `{KvmVcpu K St X}.
Context {D S : Type} `{EqDecision D} `{BusDevice S} `{Profile}.
Abbreviation Vcpu := (Vcpus.Vcpu K St X).
Abbreviation VcpuEvent := (Vcpus.VcpuEvent St).
Abbreviation VcpuResponse := (Vcpus.VcpuResponse St X).
Abbreviation Vmm := (Vcpus.Vmm K St X D S).
Implicit Types (v : Vcpu) (w : Vmm) (e : VcpuEvent) (r : VcpuResponse).

(** The states of the processors, or the first error. *)
Fixpoint states_of (ks : list K) : result (list St) (@MicrovmStateError X) :=
  match ks with
  | [] => Ok []
  | k :: ks =>
      match kvm_save_state k with
      | Ok s => match states_of ks with Ok l => Ok (s :: l) | Err e => Err e end
      | Err x => Err (SaveVcpuState x)
      end
  end.

Lemma saved_states_of (g : nat -> K -> VcpuResponse) (ks : list K) : (forall i k, g i k = (paused_reply SaveState k).1) -> saved_states (imap g ks) = states_of ks.
Proof.
  revert g. induction ks as [|k ks IH]; intros g Hg; [done|]. cbn [imap states_of]. rewrite Hg. cbn [saved_states paused_reply fst].
  destruct (kvm_save_state k); [|done]. by rewrite IH by (intros i k'; apply Hg).
Qed.

Lemma replicate_seq {A} (x : A) n i : replicate n x = (fun _ : nat => x) <$> seq i n.
Proof. revert i. induction n as [|n IH]; intros i; [done|]. cbn. f_equal. apply IH. Qed.

Lemma saved_states_got (l : list VcpuResponse) (vs : list Vcpu) ss : length l = length vs -> (forall j v, vs !! j = Some v -> exists r, l !! j = Some r /\ got SaveState r v) ->
  saved_states l = Ok ss -> Forall is_paused_phase vs /\ Forall2 (fun v s => kvm_save_state (kvm_vcpu v) = Ok s) vs ss.
Proof.
  revert vs ss. induction l as [|r l IH]; intros [|v vs] ss Hl Hg E; try done.
  - injection E as <-. by split.
  - destruct (Hg 0%nat v eq_refl) as (r' & Er & Hr). injection Er as ->. cbn [saved_states] in E. destruct r' as [x|c| | | | |s]; try done.
    destruct (saved_states l) as [ss'|] eqn:El; [|done]. injection E as <-. destruct (IH vs ss') as [H1' H2']; [by injection Hl|intros j u Hj; apply (Hg (Datatypes.S j) u Hj)|done|].
    inversion Hr as [u Hp Ha| |]; subst; [|done..]. split; by constructor.
Qed.

(** Saving the states of the processors, from a state in which no event is under way, never
    panics, and if it succeeds all processors are paused and the states are theirs.  When they
    were paused and answer in time the result is exactly their states, or the first error of
    KVM, and the processors are as before. *)
Theorem snapshot_of_paused send recv ok w : (forall k, sched_ok (send k)) -> (forall k, sched_ok (recv k)) -> buses_ok (buses w) -> Forall quiet (vcpus w) ->
  exists o w', save_vcpu_states send recv ok w = Ret (o, w') /\
    (forall l, o = Ok l -> Forall is_paused_phase (vcpus w') /\ Forall2 (fun v s => kvm_save_state (kvm_vcpu v) = Ok s) (vcpus w') l) /\
    (Forall is_paused_phase (vcpus w) -> fair recv ok (length (vcpus w)) -> o = states_of (kvm_vcpu <$> vcpus w) /\ Forall is_paused_phase (vcpus w') /\ kvm_vcpu <$> vcpus w' = kvm_vcpu <$> vcpus w).
Proof.
  intros Hs Hr Hb Hw. assert (He : (SaveState : VcpuEvent) <> Finish) by done. unfold save_vcpu_states. destruct (ask_all (SaveState : VcpuEvent) He send ok w Hs Hb Hw) as (o & w1 & E1 & [Hl1 Hst1] & Ho).
  assert (Hx : Forall is_paused_phase (vcpus w) -> fair recv ok (length (vcpus w)) -> o = Ok tt /\ exists w2,
    collect_responses recv (length (vcpus w1)) 0 [] w1 = Ret (Some (imap (fun _ k => (paused_reply SaveState k).1) (kvm_vcpu <$> vcpus w)), w2) /\
    Forall is_paused_phase (vcpus w2) /\ kvm_vcpu <$> vcpus w2 = kvm_vcpu <$> vcpus w).
  { intros Hp Hf. assert (Hev : forall i : nat, is_state_event ((fun _ => SaveState : VcpuEvent) i)) by done.
    destruct (paused_exchange (fun _ => SaveState : VcpuEvent) (kvm_vcpu <$> vcpus w) Hev send recv ok w Hs Hr Hb Hp eq_refl Hf) as (w1' & w2 & E1' & E2 & _ & _ & Hp2 & Ek).
    rewrite <-replicate_seq, E1 in E1'. injection E1' as -> <-. split; [done|]. exists w2. split; [done|]. split; [done|]. rewrite Ek. etrans; [apply (imap_const (fun k : K => k))|apply list_fmap_id]. }
  rewrite E1, bind_Ret. destruct o as [[]|[]].
  - destruct (hear_all (SaveState : VcpuEvent) He recv w1 Hr Ho) as (o2 & w2 & E2 & [Hl2 Hst2] & Ho2). rewrite E2, bind_Ret. destruct o2 as [l|].
    + exists (saved_states l), w2. split; [done|]. destruct Ho2 as [Hlen Hh]. split; [intros ss; by apply saved_states_got; [|apply Hh]|].
      intros Hp Hf. destruct (Hx Hp Hf) as (_ & w2' & E2' & Hp2 & Ek). rewrite E2 in E2'. injection E2' as -> <-. split; [by apply saved_states_of|done].
    + exists (Err UnexpectedVcpuResponse), w2. split; [done|]. split; [done|]. intros Hp Hf. destruct (Hx Hp Hf) as (_ & w2' & E2' & _). by rewrite E2 in E2'.
  - exists (Err SignalVcpu), w1. split; [done|]. split; [done|]. intros Hp Hf. by destruct (Hx Hp Hf).
Qed.
End Control.

(** ** Examples *)

Module VcpuSamples.
#[local] Existing Instance release_profile.

(** A processor in the kernel is a number, which is also its state; a device keeps the first
    byte written to it. *)
#[local] Instance sample_kvm : KvmVcpu Z Z unit := { kvm_save_state k := Ok k; kvm_restore_state k s := (Ok tt, s); kvm_set_data k _ := k }.
#[local] Instance sample_bus_device : BusDevice Z := { dev_read s _ data := (s, data); dev_write s _ data := default s (head data) }.

Definition sample_bus : Bus unit := mkBus [(mkBusRange 0x1000 0x100, tt)].
Definition sample_buses : Buses unit Z := mkBuses sample_bus sample_bus (fun _ => 0).
Definition running (k : Z) : Vcpu Z Z unit := mkVcpu Running [] [] false k.
Definition sample_vmm : Vmm Z Z unit unit Z := mkVmm [running 1; running 2] VmRunning 0 None sample_buses.

(** While events are sent the first processor writes to the device, and before each response is
    awaited both make two steps. *)
Definition sending (i : nat) : Sched := match i with O => [(0%nat, (Ok (MmioWrite 0x1010 [7]), 3))] | _ => [] end.
Definition awaiting (i : nat) : Sched := [(0%nat, (Err EINTR, 4)); (0%nat, (Err EINTR, 4)); (1%nat, (Err EINTR, 5)); (1%nat, (Err EINTR, 5))].

Lemma sample_sched_ok : (forall k, sched_ok (sending k)) /\ forall k, sched_ok (awaiting k).
Proof. split; [intros [|k]; repeat constructor; cbn; lia|intros k; repeat constructor]. Qed.

Lemma sample_buses_ok : buses_ok sample_buses.
Proof. assert (bus_wf sample_bus); [|done]. repeat constructor; cbn; lia. Qed.

Lemma sample_quiet : Forall quiet (vcpus sample_vmm).
Proof. by repeat constructor. Qed.

Lemma pause_stops_witness : exists w', pause_vm sending awaiting (fun _ => true) sample_vmm = Ret (Ok tt, w') /\
  vm_state w' = VmPaused /\ Forall is_paused_phase (vcpus w') /\ store (buses w') tt = 7.
Proof.
  destruct (pause_stops sending awaiting (fun _ => true) sample_vmm) as (o & w' & E & _ & Hok & _).
  - apply sample_sched_ok.
  - apply sample_sched_ok.
  - exact sample_buses_ok.
  - exact sample_quiet.
  - assert (Ev : match pause_vm sending awaiting (fun _ => true) sample_vmm with Ret (Ok _, w') => store (buses w') tt =? 7 | _ => false end = true) by (vm_compute; reflexivity).
    rewrite E in Ev. destruct o as [[]|e]; [|discriminate Ev]. apply Z.eqb_eq in Ev. destruct (Hok eq_refl) as [Hst Hp].
    exists w'. split; [exact E|]. split; [exact Hst|]. split; [exact Hp|exact Ev].
Defined.

(** A processor that fails writes the exit event before it reports its exit code: if the VMM
    handles the event in between, it exits as if nothing had failed. *)
Example exit_code_lost :
  match run_sched [(0%nat, (Ok FailEntry, 1))] sample_vmm with
  | Ret w => exit_evt w = 1 /\
      match vmm_process_exit (fun _ => []) (fun _ => [(0%nat, (Err EINTR, 1))])
              (fun _ => [(0%nat, (Err EINTR, 1)); (1%nat, (Err EINTR, 1)); (1%nat, (Err EINTR, 1))]) (fun _ => true) w with
      | Done w' => vcpus w' = [] /\ shutdown_exit_code w' = Some FcOk
      | _ => False
      end
  | Panic => False
  end.
Proof. vm_compute. repeat split. Qed.
End VcpuSamples.
